(* ===== verification/_CoqProject ===== *)
-Q . S2P
Prelude.v
Ipc.v
SysvSem.v
SysvSemAtomic.v
SysvSemUndo.v
SysvSemLayout.v
SysvSemTheorems.v
SysvMsg.v
SysvMsgCopy.v
SysvMsgInv.v
SysvMsgQueue.v
SysvMsgRecv.v
SysvMsgTheorems.v
Signals.v
SignalsIssig.v
SignalsInv.v
SignalsTheorems.v
Ixlist.v
Buddy.v
BuddyInv.v
BuddyOps.v
BuddyBlocks.v
BuddyTheorems.v
Unp.v
UnpStream.v
UnpTheorems.v
Descrip.v
DescripInv.v
DescripOps.v
DescripTheorems.v
Pool.v
BuddyPool.v
Heap.v
HeapOps.v
HeapTheorems.v
Timers.v
TimersTheorems.v
Kmem.v
HeapKmem.v
Shm.v
ShmInv.v
ShmOps.v
ShmTheorems.v
Sleep.v
SleepInv.v
SleepTheorems.v
Proc.v
ProcTree.v
ProcInv.v
ProcOps.v
ProcTheorems.v
Cmdline.v
CmdlineTheorems.v
Exec.v
Dos.v
Fileio.v
FileioProofs.v
FileioTheorems.v
Dirs.v
DirsTheorems.v
Select.v
SelectTheorems.v
Tty.v
TtyTheorems.v
Sockets.v
SocketsTheorems.v
Users.v
UsersTheorems.v
Paths.v
PathsTheorems.v
Mmap.v
Open.v
Vis.v
Env.v
Sorting.v
Mpool.v
Stdio.v
StdioRead.v
TimeTm.v
