(* ===== verification/Prelude.v ===== *)
(** * ixemul.library: a verification development

    ixemul.library is a UNIX kernel and C library in one shared library for the
    Amiga: processes are Exec tasks with a [struct user], and system calls are
    functions of the library that run in the calling task.  The development
    models the parts of library/ that keep the state a kernel keeps, and the
    parts of the C library with a state or an algorithm of their own, and proves
    what each promises its callers.

    ** Parts and files

    Each part has a file with its data and operations (one definition per
    function of the source, under its name), files with its invariant and
    lemmas, and a file [<Part>Theorems] with what it guarantees; a small part is
    one file.

    - This file: machine integers (every store goes through [u8], [u16], [u32],
      [s16] or [s32]), arrays ([aget], [aput]; an access out of range is a
      [Fault]), the result type [outcome] of a call (it returns, it is asleep
      for good, it panics, it faults, or the fuel ran out), and the counting
      lemmas of the reference-count invariants.
    - [Ipc]: include/sys/ipc.h and library/ipc.c, the identifiers of System V.
    - [SysvSem] with [SysvSemAtomic], [SysvSemUndo] and [SysvSemLayout]:
      library/sysv_sem.c.  The state is the static arrays of the file (the pool,
      the descriptors, the undo vectors and their list).  Specifications: a
      vector of operations is atomic; the undo vectors are a map from process,
      set and semaphore to an adjustment; sets are disjoint pieces of the pool.
    - [SysvMsg] with [SysvMsgCopy], [SysvMsgInv], [SysvMsgQueue] and
      [SysvMsgRecv]: library/sysv_msg.c.  Specification: a list of messages for
      each queue.
    - [Signals] with [SignalsIssig] and [SignalsInv]: library/kern_sig.c, and
      setrun and sendsig of library/machdep_68k.c.
    - [Ixlist]: word memory and library/list.c; the lists of all allocators.
    - [Buddy] with [BuddyInv], [BuddyOps] and [BuddyBlocks]:
      library/buddy-alloc.c on word memory.  The blocks tile the memory obtained
      from Exec.
    - [Pool]: the interface (operations and laws) an allocator offers;
      [BuddyPool] proves that [Buddy] implements it.  [Heap] with [HeapOps]:
      library/malloc.c, library/kmalloc.c and stdlib/calloc.c, proved against
      [Pool].
    - [Kmem]: the interface of the kernel allocator; [HeapKmem] proves that
      kmalloc, krealloc and kfree of [Heap] implement it.  [Shm] with [ShmInv]
      and [ShmOps]: library/shm.c, proved against [Kmem].
    - [Unp] with [UnpStream]: the streams of library/unp.c and
      library/pipe.c.  Specification: a queue of bytes.
    - [Descrip] with [DescripInv] and [DescripOps]: library/kern_descrip.c,
      close, pipe and _set_socket_params; the table of a process and the shared
      file structures with their counts.
    - [Sockets]: the connections of library/unp.c and library/socket.c, between
      several processes, on top of [Unp] and [Descrip].  Specification: a
      bounded queue of clients for each name.
    - [Timers]: library/kern_time.c, library/ix_timer.c, library/profil.c.  The
      interrupt sends signals through [Signals].
    - [Sleep] with [SleepInv]: library/ix_sleep.c and library/ix_sem.c.  The
      tasks are those of [Signals] with their Exec signals, so that a signal
      posted by [Signals] wakes a sleeper of [Sleep].
    - [Proc] with [ProcTree], [ProcInv] and [ProcOps]: the process tree of
      library/vfork.c, ix_open_68k.c, ix_close_68k.c, ptrace.c and misc.c:
      parents and siblings, death messages, wait4, sessions and process groups.
    - [Cmdline]: the two ends of a command line, the writer of stdlib/execve.c
      and the reader library/_cli_parse_68k.c.  [Exec]: the rest of
      stdlib/execve.c up to ix_exec_entry.c, and the interpreter lines of
      __load_seg.c.
    - [Dos]: the interface (operations and laws) of an AmigaDOS file handle, with
      a file in memory as an instance.  [Fileio] with [FileioProofs]: read,
      write, lseek, ftruncate and their helpers, proved against [Dos].  [Dirs]:
      library/convert_dir.c and the calls that read a directory through
      [Fileio].  [Tty]: library/__tioctl.c and ioctl.c.  [Mmap]:
      library/mmap.c, on the handles of [Fileio].
    - [Paths]: library/__plock.c, __lock.c and the translation of names in
      library/__open.c, against an interface for the locks of AmigaDOS.  [Open]:
      library/open.c, on top of [Paths] and [Descrip].
    - [Users]: library/user.c and library/group.c, with the routines of the C
      library that read their files.
    - [Select]: library/select.c, against an interface for the files that are
      waited for.
    - The C library: [Stdio] (the buffers and output of stdio/) and [StdioRead]
      (input), against an interface of the functions a stream calls; [Mpool]:
      the buffer pool of the database library, db/mpool/mpool.c, against an
      interface for the file; [Sorting]: qsort, heapsort and bsearch of stdlib/;
      [Env]: setenv, unsetenv and getenv of stdlib/; [Vis]: vis and unvis of
      general/; [TimeTm]: broken-down time, static/localtime.c.

    The order of execution is explicit.  A call that runs under Forbid or with
    the base lock is one step; where it sleeps, the semaphore, message, signal
    and stream models take a schedule, a list of what the rest of the system
    did meanwhile (an arbitrary change that keeps the part's invariant) and of
    the value [ix_sleep] returned, and the theorems hold for every schedule.
    [Sleep] itself is a step relation over all tasks.

    ** Theorems

    - Semaphores: a semop call is all or nothing; the undo arrays implement a
      map of adjustments, which semexit applies once; creating and removing a
      set keeps the other sets.  As compiled, no identifier is ever accepted.
    - Messages: msgsnd and msgrcv refine operations on a list of messages;
      removing a queue frees everything it holds.
    - Signals: SIGKILL and SIGSTOP can be neither blocked, ignored nor caught;
      a SIGKILL is delivered and pushes the frame that ends the process; issig and psig end and choose as documented.
    - Memory: the buddy allocator hands out disjoint memory and gives all of
      it back; malloc, free, realloc, memalign and all_free keep every block and
      its contents.
    - Streams: what is written is read, in order and once, whatever happens
      while a call sleeps.
    - Descriptors and shared memory: the counts are exact after any sequence of
      calls, what is no longer referenced is freed, and the cases in which the
      code breaks this.
    - Sockets: clients are served in the order in which they asked, and an
      accepted connection joins the two files crosswise; calls that fail leave no
      descriptor behind; a socket that was refused stays refused.
    - Timers: an interval timer does not drift and comes due.
    - Sleeping: queues and tasks agree, and a wake-up is not lost; nested
      mutexes restore the signal mask.
    - Processes: the links of the processes are consistent after any sequence of
      calls and a forest without debuggers, an exit status reaches the parent
      that waits for it, and a signal to a group reaches exactly the group.
    - Command lines and exec: what execve writes is read back as the same
      arguments, within the buffer; scripts get the arguments of their
      interpreter line; handlers, mask and descriptors of the new image.
    - Files, directories, terminals: lseek, read and write behave as on an array
      of bytes that may be extended; a directory is read back entry by entry;
      lines to a console; terminal attributes are reported as they were set.
    - Mappings: a mapping of a file starts with its bytes and msync writes them
      back; an anonymous one is a page-aligned piece of a new block.
    - Names: the AmigaDOS name denotes the file the UNIX name denotes, and fits
      its buffer; locks and the current directory are balanced.
    - open: it settles on every path: nothing is left behind when it refuses,
      and a structure of its own is in the lowest free descriptor when it does
      not; the marks of the pseudo terminals follow their life.
    - Users and groups: lookups return the first entry of the file that fits;
      initgroups collects the groups of a user, and the case in which it never
      ends.
    - select: it returns exactly the descriptors that are ready, and their
      number.
    - Streams of stdio: no byte is lost, doubled or moved, for every kind of
      buffering and whatever the write function answers; getc, fread and fgets
      give the bytes of the file in order, and ungetc puts one in front.
    - The buffer pool is a map from page numbers to pages, whatever it evicts;
      after mpool_sync the file holds it.
    - Sorting: qsort and heapsort end inside their array with a sorted
      permutation of it; bsearch finds a key that is there.
    - The environment of a process that does not use its parent's data behaves
      as a map; strunvis undoes strvis.
    - Time: the date of a time_t is the calendar's, mktime accepts fields out of
      their ranges, and it is the inverse of localtime.

    ** Fuel and bounds

    A loop that is not structural takes fuel, and a theorem shows that the fuel
    chosen is enough.  [semu_fuel] is 30, the number of undo structures;
    [hdr_fuel] is 40, the number of message headers; the loops over segments
    have the length of the text or of the message; issig and psig take 33
    rounds, one more than there are signals; the buddy recursions are as deep as
    there are buckets, 13, and log2 shifts at most 17 times; a stream call takes
    a round for each byte and each element of the schedule, and one more;
    ufalloc and fcntl scan the 512 descriptors; malloc asks the user once for
    each answer and once more; all_free takes a turn for each block.  The walk
    of _psignalgrp takes as many steps as there are processes; the loops over a
    command line one more than its characters, the names in execve 129, its
    close-on-exec loop 512; extending a file takes a round for each missing byte
    and one more, a line to a console one for each byte, select and accept one
    more than the schedule has elements, the list of names one more than there
    are names, and a scan of /etc/passwd or /etc/group one more than there are
    characters left.  A name is translated in as
    many rounds as it has characters.  Output of stdio takes two turns for each
    byte and two more, input one for each byte and one more; the sorts and the
    heap a turn for each element, the binary search one more, unsetenv one for
    each entry.  timesub finds the year in six turns, and the search of
    mktime ends after 32.

    ** Not modelled

    The calls of the file system that only send packets to the AmigaDOS handlers
    (stat, rename, unlink), the creation of the task in vfork, the memory and
    register requests of ptrace, the loading of segments, the stack extension,
    and the part of select that waits in the network library (the network stacks
    are not part of the sources).  Of the code taken over from 4.4BSD and
    others: printf, scanf, positioning and opening of stdio; the access methods
    of the database library; regular expressions; the files and rules of time
    zones; number conversion and floating point.  Of the parts modelled: the
    registers and stack addresses of a signal frame and the timeout of
    tsleep. *)

From stdpp Require Export base numbers list gmap strings.
From Stdlib Require Export Lia.

#[global] Open Scope Z_scope.

(** ** Machine integers

    A C integer is a [Z]; every store into a field of a given width goes
    through the conversion of that width. *)

Definition u8 (z : Z) : Z := z mod 2 ^ 8.
Definition u16 (z : Z) : Z := z mod 2 ^ 16.
Definition u32 (z : Z) : Z := z mod 2 ^ 32.
Definition s16 (z : Z) : Z := (z + 2 ^ 15) mod 2 ^ 16 - 2 ^ 15.
Definition s32 (z : Z) : Z := (z + 2 ^ 31) mod 2 ^ 32 - 2 ^ 31.

Definition is_u16 (z : Z) : Prop := 0 <= z < 2 ^ 16.
Definition is_s16 (z : Z) : Prop := - 2 ^ 15 <= z < 2 ^ 15.
Definition is_u32 (z : Z) : Prop := 0 <= z < 2 ^ 32.
Definition is_s32 (z : Z) : Prop := - 2 ^ 31 <= z < 2 ^ 31.

(** [bset m b]: the C test [(m & b) != 0]. *)
Definition bset (m b : Z) : bool := negb (Z.land m b =? 0).

(** The C expression [m & ~b], and [m | b]. *)
Definition bclr (m b : Z) : Z := Z.land m (Z.lnot b).
Definition bor (m b : Z) : Z := Z.lor m b.

Ltac wrap_unfold := unfold u8, u16, u32, s16, s32, is_u16, is_s16, is_u32, is_s32 in *.
Ltac wrap_lia := wrap_unfold; Z.div_mod_to_equations; lia.

Lemma u16_range z : is_u16 (u16 z).
Proof. wrap_lia. Qed.
Lemma s16_range z : is_s16 (s16 z).
Proof. wrap_lia. Qed.
Lemma u32_range z : is_u32 (u32 z).
Proof. wrap_lia. Qed.
Lemma s32_range z : is_s32 (s32 z).
Proof. wrap_lia. Qed.
Lemma u16_id z : is_u16 z -> u16 z = z.
Proof. wrap_lia. Qed.
Lemma s16_id z : is_s16 z -> s16 z = z.
Proof. wrap_lia. Qed.
Lemma u32_id z : is_u32 z -> u32 z = z.
Proof. wrap_lia. Qed.
Lemma s32_id z : is_s32 z -> s32 z = z.
Proof. wrap_lia. Qed.

(** Adding then subtracting the same amount at a width is the identity on
    values of that width. *)
Lemma u16_add_sub v d : is_u16 v -> u16 (u16 (v + d) - d) = v.
Proof. wrap_lia. Qed.
Lemma s16_add_sub v d : is_s16 v -> s16 (s16 (v + d) - d) = v.
Proof. wrap_lia. Qed.
Lemma u16_add_u16 a b : u16 (u16 a + b) = u16 (a + b).
Proof. wrap_lia. Qed.

(** A value shifted above a small one: [lor] is addition. *)
Lemma lor_shiftl_small a b n :
  0 <= n -> 0 <= b < 2 ^ n -> Z.lor (Z.shiftl a n) b = a * 2 ^ n + b.
Proof.
  intros Hn Hb. rewrite <- Z.add_nocarry_lor; [by rewrite Z.shiftl_mul_pow2|].
  apply Z.bits_inj'. intros k Hk. rewrite Z.land_spec, Z.bits_0.
  destruct (Z_lt_le_dec k n).
  - by rewrite Z.shiftl_spec_low.
  - rewrite <- (Z.mod_small b (2 ^ n)) by lia.
    rewrite Z.mod_pow2_bits_high by lia. apply andb_false_r.
Qed.

(** Testing a single bit. *)
Lemma bset_pow2 m k : 0 <= k -> bset m (2 ^ k) = Z.testbit m k.
Proof.
  intros Hk. unfold bset. destruct (Z.testbit m k) eqn:Ht.
  - apply negb_true_iff, Z.eqb_neq. intros H.
    apply (f_equal (fun x => Z.testbit x k)) in H. rewrite Z.land_spec, Z.bits_0, Ht in H.
    by rewrite Z.pow2_bits_true in H.
  - apply negb_false_iff, Z.eqb_eq, Z.bits_inj'. intros j Hj. rewrite Z.land_spec, Z.bits_0.
    destruct (Z.eq_dec j k) as [->|Hne]; [by rewrite Ht|].
    rewrite Z.pow2_bits_false by lia. apply andb_false_r.
Qed.

Create HintDb wrap.
#[export] Hint Resolve u16_range s16_range u32_range s32_range : wrap.

(** ** Arrays indexed by C integers

    [aget] is a read at a C index ([None] out of range, which the operations
    turn into [Fault]); [aput] is the write that follows a successful read. *)

Section Arrays.
  Context {A : Type}.
  Implicit Types (l : list A) (i j : Z) (x : A).

Definition aget l i : option A := if 0 <=? i then l !! Z.to_nat i else None.
Definition aput l i x : list A := if 0 <=? i then <[Z.to_nat i := x]> l else l.

Lemma aget_Some_range l i x : aget l i = Some x -> 0 <= i < Z.of_nat (length l).
  Proof.
    unfold aget. destruct (Z.leb_spec 0 i); [|done]. intros Hx%lookup_lt_Some. lia.
  Qed.

Lemma aget_is_Some l i : 0 <= i < Z.of_nat (length l) -> is_Some (aget l i).
  Proof.
    intros H. unfold aget. rewrite (proj2 (Z.leb_le _ _)) by lia.
    apply lookup_lt_is_Some. lia.
  Qed.

Lemma aget_None l i : Z.of_nat (length l) <= i -> aget l i = None.
  Proof. intros H. unfold aget. case_match; [|done]. apply lookup_ge_None. lia. Qed.

Lemma aput_length l i x : length (aput l i x) = length l.
  Proof. unfold aput. case_match; [apply length_insert|done]. Qed.

Lemma aget_aput_eq l i x y : aget l i = Some y -> aget (aput l i x) i = Some x.
  Proof.
    intros H. pose proof (aget_Some_range _ _ _ H).
    unfold aget, aput in *. rewrite (proj2 (Z.leb_le _ _)) in * by lia.
    apply list_lookup_insert_eq. lia.
  Qed.

Lemma aget_aput_ne l i j x : i <> j -> aget (aput l i x) j = aget l j.
  Proof.
    intros H. unfold aget, aput.
    destruct (0 <=? j) eqn:Hj; [|done]. destruct (0 <=? i) eqn:Hi; [|done].
    apply Z.leb_le in Hj, Hi. apply list_lookup_insert_ne. lia.
  Qed.

Lemma aget_aput l i j x y :
    aget l i = Some y -> aget (aput l i x) j = if i =? j then Some x else aget l j.
  Proof.
    intros H. destruct (Z.eqb_spec i j) as [->|Hne].
    - by eapply aget_aput_eq.
    - by apply aget_aput_ne.
  Qed.

Lemma aput_same l i x : aget l i = Some x -> aput l i x = l.
  Proof.
    unfold aget, aput. case_match; [|done]. intros H1. by apply list_insert_id.
  Qed.

Lemma aput_aput l i x y : aput (aput l i x) i y = aput l i y.
  Proof. unfold aput. case_match; [|done]. apply list_insert_insert_eq. Qed.

Lemma aput_comm l i j x y :
    i <> j -> aput (aput l i x) j y = aput (aput l j y) i x.
  Proof.
    intros H. unfold aput. destruct (0 <=? i) eqn:Hi, (0 <=? j) eqn:Hj; try done.
    apply Z.leb_le in Hj, Hi. apply list_insert_insert_ne. lia.
  Qed.

Lemma aget_elem_of l i x : aget l i = Some x -> x ∈ l.
  Proof. unfold aget. case_match; [|done]. apply list_elem_of_lookup_2. Qed.

Lemma Forall_aget (P : A -> Prop) l i x : Forall P l -> aget l i = Some x -> P x.
  Proof. intros H Hx%aget_elem_of. by eapply Forall_forall in H. Qed.

Lemma Forall_aput (P : A -> Prop) l i x : Forall P l -> P x -> Forall P (aput l i x).
  Proof. intros. unfold aput. case_match; [|done]. by apply Forall_insert. Qed.

Lemma aget_ext l1 l2 :
    length l1 = length l2 -> (forall i, aget l1 i = aget l2 i) -> l1 = l2.
  Proof.
    intros _ H. apply list_eq. intros i. specialize (H (Z.of_nat i)).
    unfold aget in H. rewrite (proj2 (Z.leb_le _ _)), Nat2Z.id in H by lia. done.
  Qed.
End Arrays.

(** ** Counting the entries of a table

    [refs l x]: how often [x] occurs in [l]. *)

Definition refs (l : list Z) (x : Z) : Z := Z.of_nat (length (filter (fun y => y = x) l)).

Definition ind (a x : Z) : Z := if decide (a = x) then 1 else 0.

Lemma ind_bounds a x : 0 <= ind a x <= 1.
Proof. unfold ind. case_decide; lia. Qed.

Lemma refs_app l1 l2 x : refs (l1 ++ l2) x = refs l1 x + refs l2 x.
Proof. unfold refs. rewrite filter_app, length_app. lia. Qed.

Lemma refs_cons a l x : refs (a :: l) x = ind a x + refs l x.
Proof. unfold refs, ind. rewrite filter_cons. repeat case_decide; cbn [length]; lia. Qed.

Lemma refs_pos l x : 0 <= refs l x.
Proof. unfold refs. lia. Qed.

Lemma refs_aput l i a b x :
  aget l i = Some a -> refs (aput l i b) x = refs l x - ind a x + ind b x.
Proof.
  unfold aget, aput. case_match; [|done]. intros Ha. generalize dependent (Z.to_nat i).
  induction l as [|c l IH]; intros [|n] Ha; simpl in Ha; try done.
  - injection Ha as ->. change (<[0%nat:=b]> (a :: l)) with (b :: l). rewrite !refs_cons. lia.
  - change (<[S n:=b]> (c :: l)) with (c :: <[n:=b]> l). rewrite !refs_cons, (IH n Ha). lia.
Qed.

Lemma refs_elem l x : x ∈ l -> 0 < refs l x.
Proof.
  intros (l1 & l2 & ->)%list_elem_of_split. rewrite refs_app, refs_cons.
  pose proof (refs_pos l1 x). pose proof (refs_pos l2 x). unfold ind. case_decide; [lia|done].
Qed.

Lemma refs_not_elem l x : x ∉ l -> refs l x = 0.
Proof.
  induction l as [|a l IH]; [done|]. intros [Ha Hl]%not_elem_of_cons. rewrite refs_cons, IH by done.
  unfold ind. by case_decide.
Qed.

Lemma refs_aget l i x : aget l i = Some x -> 0 < refs l x.
Proof. intros H%aget_elem_of. by apply refs_elem. Qed.

(** First index (from [i]) of an element that passes a C test, the shape of
    the [for (i = 0; i < n; i++) if (..) break;] searches. *)
Fixpoint first_idx {A} (P : A -> bool) (l : list A) (i : Z) : option Z :=
  match l with
  | [] => None
  | x :: l' => if P x then Some i else first_idx P l' (i + 1)
  end.

Lemma first_idx_Some {A} (P : A -> bool) l i k :
  first_idx P l i = Some k ->
  exists x, i <= k /\ aget l (k - i) = Some x /\ P x = true /\
    forall j y, 0 <= j < k - i -> aget l j = Some y -> P y = false.
Proof.
  revert i. induction l as [|a l IH]; intros i; [done|]. simpl.
  destruct (P a) eqn:Ha.
  - intros [= <-]. exists a. rewrite Z.sub_diag. repeat split; auto; lia.
  - intros (x & Hle & Hx & HP & Hlt)%IH. exists x. split; [lia|].
    assert (aget (a :: l) (k - i) = aget l (k - (i + 1))) as ->.
    { unfold aget. rewrite !(proj2 (Z.leb_le _ _)) by lia.
      replace (Z.to_nat (k - i)) with (S (Z.to_nat (k - (i + 1)))) by lia. done. }
    repeat split; auto. intros j y Hj Hy.
    destruct (Z.eq_dec j 0) as [->|Hj0]; [by unfold aget in Hy; simpl in Hy; simplify_eq|].
    apply (Hlt (j - 1) y); [lia|]. rewrite <- Hy. unfold aget.
    rewrite !(proj2 (Z.leb_le _ _)) by lia.
    replace (Z.to_nat j) with (S (Z.to_nat (j - 1))) by lia. done.
Qed.

Lemma first_idx_None {A} (P : A -> bool) l i :
  first_idx P l i = None -> Forall (fun x => P x = false) l.
Proof.
  revert i. induction l as [|a l IH]; intros i; simpl; [by constructor|].
  destruct (P a) eqn:Ha; [done|]. intros H. constructor; eauto.
Qed.

(** ** Lists without duplicates *)

Section NoDups.
  Context {A : Type}.
  Implicit Types (l : list A).

Lemma elem_of_rev_iff l x : x ∈ rev l <-> x ∈ l.
  Proof. rewrite !list_elem_of_In. symmetry. apply in_rev. Qed.

Lemma NoDup_rev_list l : NoDup l -> NoDup (rev l).
  Proof. rewrite !NoDup_ListNoDup. apply List.NoDup_rev. Qed.

Lemma elem_of_take_inv l n x : x ∈ take n l -> x ∈ l.
  Proof. rewrite <- (take_drop n l) at 2. set_solver. Qed.

Lemma elem_of_drop_inv l n x : x ∈ drop n l -> x ∈ l.
  Proof. rewrite <- (take_drop n l) at 2. set_solver. Qed.

Lemma NoDup_take_drop l n x : NoDup l -> x ∈ take n l -> x ∈ drop n l -> False.
  Proof. rewrite <- (take_drop n l) at 1. intros (_ & H & _)%NoDup_app. by apply H. Qed.
End NoDups.

(** ** Outcomes of kernel calls

    [Ret]: the call returned.  [Asleep]: it is blocked in [ix_sleep] and the
    given schedule of wake-ups is used up.  [Panic]: it called [panic()], which
    aborts.  [Fault]: it read or wrote outside one of its arrays.  [Diverge]:
    the traversal fuel ran out. *)

Inductive outcome (S A : Type) : Type :=
| Ret (a : A) (s : S)
| Asleep (s : S)
| Panic (msg : string)
| Fault
| Diverge.
Arguments Ret {S A} a s.
Arguments Asleep {S A} s.
Arguments Panic {S A} msg.
Arguments Fault {S A}.
Arguments Diverge {S A}.

Definition obind {S A B} (m : outcome S A) (k : A -> S -> outcome S B) : outcome S B :=
  match m with
  | Ret a s => k a s
  | Asleep s => Asleep s
  | Panic msg => Panic msg
  | Fault => Fault
  | Diverge => Diverge
  end.

Declare Scope kern_scope.
Delimit Scope kern_scope with kern.
Notation "'let*' ( a , s ) := m 'in' k" := (obind m (fun a s => k))
  (at level 10, a name, s name, m at level 100, k at level 200,
   format "'let*'  ( a ,  s )  :=  m  'in' '//' k") : kern_scope.
Notation "'let?' x := o 'in' k" :=
  (match o with Some x => k | None => Fault end)
  (at level 10, x name, o at level 100, k at level 200,
   format "'let?'  x  :=  o  'in' '//' k") : kern_scope.
#[global] Open Scope kern_scope.

Lemma Ret_inj {S A} (a b : A) (s t : S) : Ret a s = Ret b t -> a = b /\ s = t.
Proof. by intros [=]. Qed.

Lemma obind_Ret_inv {S A B} (m : outcome S A) (k : A -> S -> outcome S B) b s' :
  obind m k = Ret b s' -> exists a s, m = Ret a s /\ k a s = Ret b s'.
Proof. destruct m; simpl; intros H; try discriminate; eauto. Qed.

(** ** Linked structures threaded through array indices

    [chain nxt h l]: following [nxt] from index [h] visits exactly [l] and ends
    at the null link [-1]. *)

Definition NIL : Z := -1.

Inductive chain (nxt : Z -> option Z) : Z -> list Z -> Prop :=
| chain_nil : chain nxt NIL []
| chain_cons x y l : 0 <= x -> nxt x = Some y -> chain nxt y l -> chain nxt x (x :: l).

Lemma chain_ext nxt nxt' h l :
  chain nxt h l -> (forall x, x ∈ l -> nxt' x = nxt x) -> chain nxt' h l.
Proof.
  induction 1 as [|x y l Hx Hn Hc IH]; intros Hext; [constructor|].
  econstructor; [done| |].
  - rewrite Hext; [done|]. set_solver.
  - apply IH. intros z Hz. apply Hext. set_solver.
Qed.

Lemma chain_det nxt h l1 l2 : chain nxt h l1 -> chain nxt h l2 -> l1 = l2.
Proof.
  intros H. revert l2. induction H as [|x y l Hx Hn Hc IH]; intros l2 H2;
    inversion H2; subst; try done; unfold NIL in *; try lia.
  f_equal. apply IH. congruence.
Qed.

Lemma chain_head nxt h l : chain nxt h l -> h = NIL <-> l = [].
Proof. intros H. inversion H; subst; split; try done; unfold NIL; lia. Qed.

Lemma chain_hd nxt h l : chain nxt h l -> h = hd NIL l.
Proof. by inversion 1. Qed.

Lemma chain_cons_inv nxt h x l :
  chain nxt h (x :: l) -> h = x /\ 0 <= x /\ exists y, nxt x = Some y /\ chain nxt y l.
Proof. inversion 1; subst. eauto. Qed.

(** The link in front of [l2]: the last element of [l1], or the head. *)
Lemma chain_app_inv nxt h l1 l2 :
  chain nxt h (l1 ++ l2) ->
  chain nxt (hd NIL l2) l2 /\
  match last l1 with Some x => nxt x = Some (hd NIL l2) | None => h = hd NIL l2 end.
Proof.
  revert h. induction l1 as [|a l1 IH]; intros h Hc.
  - simpl in *. rewrite <- (chain_hd _ _ _ Hc). done.
  - inversion Hc as [|? y ? Ha Hn Hc']; subst. destruct (IH _ Hc') as [H1 H2].
    split; [done|]. destruct l1 as [|b l1]; [simpl in *; congruence|].
    change (last (a :: b :: l1)) with (last (b :: l1)).
    destruct (last (b :: l1)) eqn:E; [done|]. by apply last_None in E.
Qed.

(** Taking [x] out by redirecting the link in front of it. *)
Lemma chain_unlink nxt nxt' h h' pre x y rest :
  chain nxt h (pre ++ x :: rest) -> NoDup (pre ++ x :: rest) -> nxt x = Some y ->
  match last pre with Some z => nxt' z = Some y /\ h' = h | None => h' = y end ->
  (forall z, z ∈ pre ++ rest -> last pre <> Some z -> nxt' z = nxt z) ->
  chain nxt' h' (pre ++ rest).
Proof.
  revert h h'. induction pre as [|a pre IH]; intros h h' Hc Hnd Hx Hl Hext.
  - simpl in *. subst h'. inversion Hc as [|? y' ? ? Hn Hc']; subst.
    assert (y' = y) as -> by congruence. eapply chain_ext; [done|]. intros z Hz. by apply Hext.
  - inversion Hc as [|? b ? Ha Hn Hc']; subst. apply NoDup_cons in Hnd as [Hni Hnd].
    destruct pre as [|a' pre].
    + simpl in *. destruct Hl as [Hna ->]. econstructor; [done|done|].
      eapply (IH b); try done. intros z Hz _. apply Hext; [set_solver|].
      intros [= ->]. set_solver.
    + change (last (a :: a' :: pre)) with (last (a' :: pre)) in *.
      assert (h' = a) as ->.
      { destruct (last (a' :: pre)) eqn:Hlast; [by destruct Hl|].
        by apply last_None in Hlast. }
      econstructor; [done| |].
      * rewrite Hext; [done|set_solver|]. intros Hlast%last_Some_elem_of. set_solver.
      * apply (IH b b); try done.
        -- destruct (last (a' :: pre)) eqn:Hlast; [by destruct Hl|by apply last_None in Hlast].
        -- intros z Hz Hne. apply Hext; [set_solver|done].
Qed.

(** A duplicate-free chain of indices of an array is no longer than it. *)
Lemma NoDup_index_length (l : list Z) (n : nat) :
  NoDup l -> (forall x, x ∈ l -> 0 <= x < Z.of_nat n) -> (length l <= n)%nat.
Proof.
  intros Hnd Hr. transitivity (length (Z.of_nat <$> List.seq 0 n)).
  - apply submseteq_length, NoDup_submseteq; [done|]. intros x Hx%Hr.
    apply list_elem_of_fmap. exists (Z.to_nat x). split; [lia|]. apply elem_of_seq. lia.
  - by rewrite length_fmap, length_seq.
Qed.

(** ** Error numbers (include/errno.h) *)

Definition EPERM : Z := 1.
Definition ENOENT : Z := 2.
Definition ESRCH : Z := 3.
Definition EINTR : Z := 4.
Definition E2BIG : Z := 7.
Definition EBADF : Z := 9.
Definition ENOMEM : Z := 12.
Definition EEXIST : Z := 17.
Definition EINVAL : Z := 22.
Definition ENFILE : Z := 23.
Definition EMFILE : Z := 24.
Definition EFBIG : Z := 27.
Definition ENOSPC : Z := 28.
Definition ERANGE : Z := 34.
Definition EAGAIN : Z := 35.
