(* ===== verification/Ipc.v ===== *)
(** * System V IPC identifiers and permissions

    Models include/sys/ipc.h (the permission record and the macros that pack an
    array index and a sequence number into an identifier) and library/ipc.c
    ([ipcperm]). *)

From S2P Require Import Prelude.

(** [struct ipc_perm]; every field but [key] is a [ushort]. *)
Record ipc_perm := mkPerm {
  cuid : Z; cgid : Z; uid : Z; gid : Z;
  mode : Z; seq : Z; key : Z
}.

Record ucred := mkCred { cr_uid : Z; cr_gid : Z }.

Definition IPC_R : Z := 0x100.
Definition IPC_W : Z := 0x80.
Definition IPC_M : Z := 0x1000.
Definition IPC_CREAT : Z := 0x200.
Definition IPC_EXCL : Z := 0x400.
Definition IPC_NOWAIT : Z := 0x800.
Definition IPC_PRIVATE : Z := 0.
Definition IPC_RMID : Z := 0.
Definition IPC_SET : Z := 1.
Definition IPC_STAT : Z := 2.

Definition IPCID_TO_IX (id : Z) : Z := Z.land id 0xffff.
Definition IPCID_TO_SEQ (id : Z) : Z := Z.land (Z.shiftr id 16) 0xffff.
Definition IXSEQ_TO_IPCID (ix : Z) (perm : ipc_perm) : Z :=
  s32 (Z.lor (Z.shiftl (seq perm) 16) (Z.land ix 0xffff)).

(** [ipcperm] as compiled: IPC_PERM_ALWAYS_SUCCEED is defined in ipc.c. *)
Definition ipcperm (cred : ucred) (perm : ipc_perm) (m : Z) : Z := 0.

(** Field updates. *)
Definition perm_set_mode (p : ipc_perm) (m : Z) : ipc_perm :=
  mkPerm (cuid p) (cgid p) (uid p) (gid p) m (seq p) (key p).
Definition perm_set_owner (p : ipc_perm) (u g m : Z) : ipc_perm :=
  mkPerm (cuid p) (cgid p) u g m (seq p) (key p).
Definition perm_set_uids (p : ipc_perm) (c : Z) : ipc_perm :=
  mkPerm c (cgid p) c (gid p) (mode p) (seq p) (key p).

(** A [ushort] mode with the access bits replaced:
    [(old & ~0777) | (new & 0777)]. *)
Definition mode_replace (old new : Z) : Z :=
  u16 (Z.lor (bclr old 0x1ff) (Z.land new 0x1ff)).

(** ** Identifier arithmetic *)

Lemma IPCID_TO_IX_mod id : IPCID_TO_IX id = id mod 2 ^ 16.
Proof. unfold IPCID_TO_IX. change 0xffff with (Z.ones 16). by rewrite Z.land_ones. Qed.

Lemma IPCID_TO_IX_range id : 0 <= IPCID_TO_IX id < 2 ^ 16.
Proof. rewrite IPCID_TO_IX_mod. apply Z.mod_pos_bound. lia. Qed.

Lemma IPCID_TO_SEQ_div id : IPCID_TO_SEQ id = (id / 2 ^ 16) mod 2 ^ 16.
Proof.
  unfold IPCID_TO_SEQ. change 0xffff with (Z.ones 16).
  by rewrite Z.land_ones, Z.shiftr_div_pow2.
Qed.

(** The sequence number extracted from an identifier that has already been
    reduced to its index is always zero. *)
Lemma IPCID_TO_SEQ_of_ix id : IPCID_TO_SEQ (IPCID_TO_IX id) = 0.
Proof.
  rewrite IPCID_TO_SEQ_div, Z.div_small; [done|]. apply IPCID_TO_IX_range.
Qed.

Lemma IXSEQ_arith ix p :
  0 <= ix < 2 ^ 16 -> IXSEQ_TO_IPCID ix p = s32 (seq p * 2 ^ 16 + ix).
Proof.
  intros Hix. unfold IXSEQ_TO_IPCID. change 0xffff with (Z.ones 16).
  rewrite Z.land_ones, Z.mod_small by lia. by rewrite lor_shiftl_small by lia.
Qed.

(** Packing and unpacking an identifier. *)
Lemma ipcid_roundtrip ix p :
  0 <= ix < 2 ^ 16 -> is_u16 (seq p) ->
  IPCID_TO_IX (IXSEQ_TO_IPCID ix p) = ix /\ IPCID_TO_SEQ (IXSEQ_TO_IPCID ix p) = seq p.
Proof.
  intros Hix Hs. rewrite IXSEQ_arith, IPCID_TO_IX_mod, IPCID_TO_SEQ_div by done.
  wrap_unfold. split; Z.div_mod_to_equations; lia.
Qed.
