(* ===== verification/SysvSem.v ===== *)
(** * System V semaphores: data and operations

    Models library/sysv_sem.c with the types of include/sys/sem.h: the
    semaphore pool, the set descriptors, the per-process undo vectors and the
    calls [semget], [semctl], [semop] and [semexit].  Pointers into the static
    arrays are array indices, [NIL] ([-1]) standing for the null pointer; a
    [struct Task *] is a [Z], 0 standing for NULL.  What other processes do
    while a call sleeps is a list of wake-ups, each the value [ix_sleep]
    returns and the change of the semaphore state made in the meantime. *)

From S2P Require Import Prelude Ipc.

(** ** Data *)

Definition SEM_UNDO : Z := 0x1000.
Definition MAX_SOPS : Z := 5.
Definition SEM_ALLOC : Z := 0x200.
Definition SEMMNI : Z := 10.
Definition SEMMNS : Z := 60.
Definition SEMUME : Z := 10.
Definition SEMMNU : Z := 30.
Definition SEMMSL : Z := SEMMNS.

Definition GETNCNT : Z := 3.
Definition GETPID : Z := 4.
Definition GETVAL : Z := 5.
Definition GETALL : Z := 6.
Definition GETZCNT : Z := 7.
Definition SETVAL : Z := 8.
Definition SETALL : Z := 9.
Definition GETSEMINFO : Z := 10.
Definition GETSEMA : Z := 11.
Definition SEMLCK : Z := 12.
Definition SEMUNLK : Z := 13.

Record sem := mkSem { semval : Z; sempid : Z; semncnt : Z; semzcnt : Z }.

Record semid_ds := mkSemid {
  sem_perm : ipc_perm;
  sem_base : Z;
  sem_nsems : Z;
  sem_otime : Z;
  sem_ctime : Z
}.

Record sembuf := mkSembuf { sem_num : Z; sem_op : Z; sem_flg : Z }.

(** [union semun]: the three views of the argument of [semctl]. *)
Record semun := mkSemun { sarg_val : Z; sarg_buf : semid_ds; sarg_array : list Z }.

Record undo := mkUndo { un_adjval : Z; un_num : Z; un_id : Z }.

Record sem_undo := mkSemUndo {
  un_next : Z; un_proc : Z; un_cnt : Z; un_ent : list undo
}.

(** Channels passed to [ix_wakeup]. *)
Inductive wchan := WSema (ix : Z) | WLock.

(** The static variables of sysv_sem.c, [errno] of the calling process and the
    channels woken so far (latest first). *)
Record semstate := mkState {
  sema : list semid_ds;
  sem_pool : list sem;
  semu : list sem_undo;
  semu_list : Z;
  semtot : Z;
  semlock_holder : Z;
  sem_errno : Z;
  woken : list wchan
}.

(** One element per [ix_sleep]: its result and the state it leaves. *)
Definition schedule : Type := list (Z * (semstate -> semstate)).

(** ** Field updates *)

Definition set_sema (s : semstate) v := mkState v (sem_pool s) (semu s) (semu_list s) (semtot s) (semlock_holder s) (sem_errno s) (woken s).
Definition set_pool (s : semstate) v := mkState (sema s) v (semu s) (semu_list s) (semtot s) (semlock_holder s) (sem_errno s) (woken s).
Definition set_semu (s : semstate) v := mkState (sema s) (sem_pool s) v (semu_list s) (semtot s) (semlock_holder s) (sem_errno s) (woken s).
Definition set_ulist (s : semstate) v := mkState (sema s) (sem_pool s) (semu s) v (semtot s) (semlock_holder s) (sem_errno s) (woken s).
Definition set_semtot (s : semstate) v := mkState (sema s) (sem_pool s) (semu s) (semu_list s) v (semlock_holder s) (sem_errno s) (woken s).
Definition set_holder (s : semstate) v := mkState (sema s) (sem_pool s) (semu s) (semu_list s) (semtot s) v (sem_errno s) (woken s).
Definition set_errno (s : semstate) v := mkState (sema s) (sem_pool s) (semu s) (semu_list s) (semtot s) (semlock_holder s) v (woken s).
Definition ix_wakeup (s : semstate) (c : wchan) := mkState (sema s) (sem_pool s) (semu s) (semu_list s) (semtot s) (semlock_holder s) (sem_errno s) (c :: woken s).

Definition sem_set_val (m : sem) v := mkSem v (sempid m) (semncnt m) (semzcnt m).
Definition sem_set_pid (m : sem) v := mkSem (semval m) v (semncnt m) (semzcnt m).
Definition sem_set_ncnt (m : sem) v := mkSem (semval m) (sempid m) v (semzcnt m).
Definition sem_set_zcnt (m : sem) v := mkSem (semval m) (sempid m) (semncnt m) v.

Definition ds_set_perm (d : semid_ds) v := mkSemid v (sem_base d) (sem_nsems d) (sem_otime d) (sem_ctime d).
Definition ds_set_base (d : semid_ds) v := mkSemid (sem_perm d) v (sem_nsems d) (sem_otime d) (sem_ctime d).
Definition ds_set_ctime (d : semid_ds) v := mkSemid (sem_perm d) (sem_base d) (sem_nsems d) (sem_otime d) v.

Definition su_set_next (u : sem_undo) v := mkSemUndo v (un_proc u) (un_cnt u) (un_ent u).
Definition su_set_proc (u : sem_undo) v := mkSemUndo (un_next u) v (un_cnt u) (un_ent u).
Definition su_set_ents (u : sem_undo) c e := mkSemUndo (un_next u) (un_proc u) c e.

Definition put_undo (s : semstate) (i : Z) (u : sem_undo) : semstate :=
  set_semu s (aput (semu s) i u).
Definition put_ds (s : semstate) (i : Z) (d : semid_ds) : semstate :=
  set_sema s (aput (sema s) i d).

Definition ds_alloc (d : semid_ds) : bool := bset (mode (sem_perm d)) SEM_ALLOC.

(** library/ixemul.h: [#define errno_return(e, r)]. *)
Definition errno_return {A} (e : Z) (r : A) (s : semstate) : outcome semstate A :=
  Ret r (set_errno s e).

(** ** seminit *)

Definition seminit (s : semstate) : semstate :=
  let s := set_sema s
    (map (fun d => ds_set_base (ds_set_perm d (perm_set_mode (sem_perm d) 0)) NIL) (sema s)) in
  let s := set_semu s (map (fun u => su_set_proc u 0) (semu s)) in
  set_ulist s NIL.

(** ** semlock *)

Fixpoint semlock (p : Z) (w : schedule) (s : semstate) : outcome semstate schedule :=
  if negb (semlock_holder s =? 0) && negb (semlock_holder s =? p) then
    match w with
    | [] => Asleep s
    | (_, env) :: w' => semlock p w' (env s)
    end
  else Ret w s.

(** ** Undo vectors *)

(** A link is [&semu_list] ([NIL]) or the [un_next] field of a structure. *)
Definition get_link (s : semstate) (lnk : Z) : option Z :=
  if lnk =? NIL then Some (semu_list s) else un_next <$> aget (semu s) lnk.
Definition set_link (s : semstate) (lnk v : Z) : semstate :=
  if lnk =? NIL then set_ulist s v
  else match aget (semu s) lnk with
       | Some u => put_undo s lnk (su_set_next u v)
       | None => s
       end.

(** The purge loop of [semu_alloc]: unlink every structure with no entries. *)
Fixpoint semu_purge (fuel : nat) (lnk : Z) (did : bool) (s : semstate)
  : outcome semstate bool :=
  let? cur := get_link s lnk in
  if cur =? NIL then Ret did s else
  match fuel with
  | O => Diverge
  | S f =>
      let? su := aget (semu s) cur in
      if un_cnt su =? 0 then
        let s := put_undo s cur (su_set_proc su 0) in
        semu_purge f lnk true (set_link s lnk (un_next su))
      else semu_purge f cur did s
  end.

(** One pass of the [for] loop: the first structure with a null [un_proc]. *)
Definition semu_take (p : Z) (s : semstate) : option (Z * semstate) :=
  match first_idx (fun u => un_proc u =? 0) (semu s) 0 with
  | Some i =>
      match aget (semu s) i with
      | Some su =>
          let s := put_undo s i (mkSemUndo (semu_list s) p 0 (un_ent su)) in
          Some (i, set_ulist s i)
      | None => None
      end
  | None => None
  end.

Definition semu_fuel : nat := Z.to_nat SEMMNU.

Definition semu_alloc (p : Z) (s : semstate) : outcome semstate Z :=
  match semu_take p s with
  | Some (i, s) => Ret i s
  | None =>
      let* (did, s) := semu_purge semu_fuel NIL false s in
      if did : bool then
        match semu_take p s with
        | Some (i, s) => Ret i s
        | None => Panic "semu_alloc - second attempt failed"
        end
      else Ret NIL s
  end.

(** Search of the active list for the structure of process [p]; the result is
    the link that points at it and its index ([NIL] when there is none). *)
Fixpoint semu_find (fuel : nat) (p lnk : Z) (s : semstate) : outcome semstate (Z * Z) :=
  let? cur := get_link s lnk in
  if cur =? NIL then Ret (lnk, NIL) s else
  match fuel with
  | O => Diverge
  | S f =>
      let? su := aget (semu s) cur in
      if un_proc su =? p then Ret (lnk, cur) s else semu_find f p cur s
  end.

Definition undo_match (semid semnum : Z) (e : undo) : bool :=
  negb (negb (un_id e =? semid) || negb (un_num e =? semnum)).

(** The entry part of [semundo_adjust]: adjust, delete or create an entry.
    The result is the return value and the structure. *)
Definition undo_entry_adjust (semid semnum adjval : Z) (su : sem_undo)
  : option (Z * sem_undo) :=
  match first_idx (undo_match semid semnum) (take (Z.to_nat (un_cnt su)) (un_ent su)) 0 with
  | Some i =>
      match aget (un_ent su) i with
      | None => None
      | Some e =>
          let v := if adjval =? 0 then 0 else s16 (un_adjval e + adjval) in
          let ents := aput (un_ent su) i (mkUndo v (un_num e) (un_id e)) in
          if v =? 0 then
            let cnt := s16 (un_cnt su - 1) in
            if i <? cnt then
              match aget ents cnt with
              | Some lst => Some (0, su_set_ents su cnt (aput ents i lst))
              | None => None
              end
            else Some (0, su_set_ents su cnt ents)
          else Some (0, su_set_ents su (un_cnt su) ents)
      end
  | None =>
      if adjval =? 0 then Some (0, su)
      else if un_cnt su =? SEMUME then Some (EINVAL, su)
      else
        match aget (un_ent su) (un_cnt su) with
        | None => None
        | Some _ =>
            Some (0, su_set_ents su (s16 (un_cnt su + 1))
                       (aput (un_ent su) (un_cnt su) (mkUndo (s16 adjval) (s16 semnum) semid)))
        end
  end.

(** The result is the return value and the new [*supptr]. *)
Definition semundo_adjust (p suptr semid semnum adjval : Z) (s : semstate)
  : outcome semstate (Z * Z) :=
  let entry suptr s :=
    let? su := aget (semu s) suptr in
    let? r := undo_entry_adjust semid semnum adjval su in
    Ret (fst r, suptr) (put_undo s suptr (snd r)) in
  if suptr =? NIL then
    let* (r, s) := semu_find semu_fuel p NIL s in
    let suptr := snd r in
    if suptr =? NIL then
      if adjval =? 0 then Ret (0, NIL) s
      else
        let* (suptr, s) := semu_alloc p s in
        if suptr =? NIL then Ret (ENOSPC, NIL) s else entry suptr s
    else entry suptr s
  else entry suptr s.

(** The inner loop of [semundo_clear]; [n] bounds [un_cnt - i], which every
    iteration decreases. *)
Fixpoint clear_ents (n : nat) (semid semnum i cnt : Z) (ents : list undo)
  : option (Z * list undo) :=
  match n with
  | O => Some (cnt, ents)
  | S n' =>
      if i <? cnt then
        match aget ents i with
        | None => None
        | Some e =>
            if un_id e =? semid then
              if (semnum =? -1) || (un_num e =? semnum) then
                let cnt := s16 (cnt - 1) in
                if i <? cnt then
                  match aget ents cnt with
                  | None => None
                  | Some lst =>
                      if semnum =? -1 then clear_ents n' semid semnum i cnt (aput ents i lst)
                      else Some (cnt, aput ents i lst)
                  end
                else
                  if semnum =? -1 then clear_ents n' semid semnum (i + 1) cnt ents
                  else Some (cnt, ents)
              else
                if semnum =? -1 then clear_ents n' semid semnum (i + 1) cnt ents
                else Some (cnt, ents)
            else clear_ents n' semid semnum (i + 1) cnt ents
        end
      else Some (cnt, ents)
  end.

Fixpoint semundo_clear_from (fuel : nat) (semid semnum cur : Z) (s : semstate)
  : outcome semstate unit :=
  if cur =? NIL then Ret tt s else
  match fuel with
  | O => Diverge
  | S f =>
      let? su := aget (semu s) cur in
      let? r := clear_ents (Z.to_nat (un_cnt su)) semid semnum 0 (un_cnt su) (un_ent su) in
      let s := put_undo s cur (su_set_ents su (fst r) (snd r)) in
      semundo_clear_from f semid semnum (un_next su) s
  end.

Definition semundo_clear (semid semnum : Z) (s : semstate) : outcome semstate unit :=
  semundo_clear_from semu_fuel semid semnum (semu_list s) s.

(** ** semget *)

Definition ix_semget_create (now : Z) (cred : ucred) (k nsems semflg : Z) (s : semstate)
  : outcome semstate Z :=
  if (nsems <=? 0) || (SEMMSL <? nsems) then errno_return (-1) EINVAL s
  else if SEMMNS - semtot s <? nsems then errno_return (-1) ENOSPC s
  else
    match first_idx (fun d => negb (ds_alloc d)) (sema s) 0 with
    | None => errno_return (-1) ENOSPC s
    | Some semid =>
        let? d := aget (sema s) semid in
        let perm := mkPerm (u16 (cr_uid cred)) (u16 (cr_gid cred))
                           (u16 (cr_uid cred)) (u16 (cr_gid cred))
                           (u16 (Z.lor (Z.land semflg 0x1ff) SEM_ALLOC))
                           (Z.land (seq (sem_perm d) + 1) 0x7fff) k in
        let d' := mkSemid perm (semtot s) (u16 nsems) 0 now in
        let base := semtot s in
        let s := put_ds s semid d' in
        let s := set_semtot s (semtot s + nsems) in
        let pool := take (Z.to_nat base) (sem_pool s)
                    ++ replicate (Z.to_nat nsems) (mkSem 0 0 0 0)
                    ++ drop (Z.to_nat (base + nsems)) (sem_pool s) in
        Ret (IXSEQ_TO_IPCID semid perm) (set_pool s pool)
    end.

Definition ix_semget (p now : Z) (cred : ucred) (w : schedule) (k nsems semflg : Z)
  (s : semstate) : outcome semstate Z :=
  let* (w, s) := semlock p w s in
  let create :=
    if (k =? IPC_PRIVATE) || bset semflg IPC_CREAT
    then ix_semget_create now cred k nsems semflg s
    else errno_return (-1) ENOENT s in
  if negb (k =? IPC_PRIVATE) then
    match first_idx (fun d => ds_alloc d && (key (sem_perm d) =? k)) (sema s) 0 with
    | Some semid =>
        let? d := aget (sema s) semid in
        let eval := ipcperm cred (sem_perm d) (Z.land semflg 0x1c0) in
        if negb (eval =? 0) then errno_return (-1) eval s
        else if (0 <? nsems) && (sem_nsems d <? nsems) then errno_return (-1) EINVAL s
        else if bset semflg IPC_CREAT && bset semflg IPC_EXCL then errno_return (-1) EEXIST s
        else Ret (IXSEQ_TO_IPCID semid (sem_perm d)) s
    | None => create
    end
  else create.

(** ** semctl *)

(** What [semctl] copies out through its argument. *)
Inductive semout := OutNone | OutBuf (d : semid_ds) | OutArray (l : list Z).

(** The validation of an identifier common to [ix_semctl] and [ix_semop]:
    [semid] is first overwritten by its index, and the sequence number is then
    taken from the overwritten value. *)
Definition semid_check (semid : Z) (s : semstate) : outcome semstate (option (Z * semid_ds)) :=
  let semid := IPCID_TO_IX semid in
  if (semid <? 0) || (SEMMSL <=? semid) then Ret None s
  else
    let? d := aget (sema s) semid in
    if negb (ds_alloc d) || negb (seq (sem_perm d) =? IPCID_TO_SEQ semid)
    then Ret None s
    else Ret (Some (semid, d)) s.

(** [for (i = base; i < semtot; i++) sem[i] = sem[i + nsems];] with [n] the
    number of iterations. *)
Fixpoint shift_down (n : nat) (i nsems : Z) (pool : list sem) : option (list sem) :=
  match n with
  | O => Some pool
  | S n' =>
      match aget pool (i + nsems) with
      | None => None
      | Some x => shift_down n' (i + 1) nsems (aput pool i x)
      end
  end.

Definition rebase (base nsems : Z) (d : semid_ds) : semid_ds :=
  if ds_alloc d && (base <? sem_base d) then ds_set_base d (sem_base d - nsems) else d.

(** case IPC_RMID *)
Definition sem_rmid (cred : ucred) (semid : Z) (d : semid_ds) (s : semstate)
  : outcome semstate unit :=
  let d := ds_set_perm d (perm_set_uids (sem_perm d) (u16 (cr_uid cred))) in
  let s := put_ds s semid d in
  let s := set_semtot s (semtot s - sem_nsems d) in
  let? pool := shift_down (Z.to_nat (semtot s - sem_base d)) (sem_base d) (sem_nsems d)
                 (sem_pool s) in
  let s := set_pool s pool in
  let s := set_sema s (map (rebase (sem_base d) (sem_nsems d)) (sema s)) in
  let? d := aget (sema s) semid in
  let s := put_ds s semid (ds_set_perm d (perm_set_mode (sem_perm d) 0)) in
  let* (_u, s) := semundo_clear semid (-1) s in
  Ret tt (ix_wakeup s (WSema semid)).

(** [for (i = 0; i < nsems; i++)] reading or writing [sem_base[i].semval]. *)
Fixpoint read_vals (n : nat) (i : Z) (pool : list sem) : option (list Z) :=
  match n with
  | O => Some []
  | S n' =>
      match aget pool i, read_vals n' (i + 1) pool with
      | Some m, Some l => Some (semval m :: l)
      | _, _ => None
      end
  end.

Fixpoint write_vals (n : nat) (i : Z) (vals : list Z) (pool : list sem) : option (list sem) :=
  match n with
  | O => Some pool
  | S n' =>
      match aget pool i, vals with
      | Some m, v :: vals' => write_vals n' (i + 1) vals' (aput pool i (sem_set_val m (u16 v)))
      | _, _ => None
      end
  end.

Definition ix_semctl (p now : Z) (cred : ucred) (w : schedule)
  (semid semnum cmd : Z) (arg : semun) (s : semstate) : outcome semstate (Z * semout) :=
  let* (w, s) := semlock p w s in
  let* (chk, s) := semid_check semid s in
  match chk with
  | None => errno_return (-1) (EINVAL, OutNone) s
  | Some (semid, d) =>
      let perm_m := ipcperm cred (sem_perm d) IPC_M in
      let perm_r := ipcperm cred (sem_perm d) IPC_R in
      let perm_w := ipcperm cred (sem_perm d) IPC_W in
      let in_set := negb ((semnum <? 0) || (sem_nsems d <=? semnum)) in
      let read_one (f : sem -> Z) :=
        if negb (perm_r =? 0) then errno_return (-1) (perm_r, OutNone) s
        else if negb in_set then errno_return (-1) (EINVAL, OutNone) s
        else
          let? m := aget (sem_pool s) (sem_base d + semnum) in
          Ret (f m, OutNone) s in
      if cmd =? IPC_RMID then
        if negb (perm_m =? 0) then errno_return (-1) (perm_m, OutNone) s
        else
          let* (_u, s) := sem_rmid cred semid d s in
          Ret (0, OutNone) s
      else if cmd =? IPC_SET then
        if negb (perm_m =? 0) then errno_return (-1) (perm_m, OutNone) s
        else
          let np := sem_perm (sarg_buf arg) in
          let perm := perm_set_owner (sem_perm d) (uid np) (gid np)
                        (mode_replace (mode (sem_perm d)) (mode np)) in
          Ret (0, OutNone) (put_ds s semid (ds_set_ctime (ds_set_perm d perm) now))
      else if cmd =? IPC_STAT then
        if negb (perm_r =? 0) then errno_return (-1) (perm_r, OutNone) s
        else Ret (0, OutBuf d) s
      else if cmd =? GETNCNT then read_one semncnt
      else if cmd =? GETPID then read_one sempid
      else if cmd =? GETVAL then read_one semval
      else if cmd =? GETALL then
        if negb (perm_r =? 0) then errno_return (-1) (perm_r, OutNone) s
        else
          let? l := read_vals (Z.to_nat (sem_nsems d)) (sem_base d) (sem_pool s) in
          Ret (0, OutArray l) s
      else if cmd =? GETZCNT then read_one semzcnt
      else if cmd =? SETVAL then
        if negb (perm_w =? 0) then errno_return (-1) (perm_w, OutNone) s
        else if negb in_set then errno_return (-1) (EINVAL, OutNone) s
        else
          let? m := aget (sem_pool s) (sem_base d + semnum) in
          let s := set_pool s (aput (sem_pool s) (sem_base d + semnum)
                                 (sem_set_val m (u16 (sarg_val arg)))) in
          let* (_u, s) := semundo_clear semid semnum s in
          Ret (0, OutNone) (ix_wakeup s (WSema semid))
      else if cmd =? SETALL then
        if negb (perm_w =? 0) then errno_return (-1) (perm_w, OutNone) s
        else
          let? pool := write_vals (Z.to_nat (sem_nsems d)) (sem_base d) (sarg_array arg)
                         (sem_pool s) in
          let* (_u, s) := semundo_clear semid (-1) (set_pool s pool) in
          Ret (0, OutNone) (ix_wakeup s (WSema semid))
      else errno_return (-1) (EINVAL, OutNone) s
  end.

(** ** semop *)

(** [sem_base[num].semval += d] (and [-=] with [- d]). *)
Definition add_semval (base num d : Z) (pool : list sem) : option (list sem) :=
  match aget pool (base + num) with
  | None => None
  | Some m => Some (aput pool (base + num) (sem_set_val m (u16 (semval m + d))))
  end.

Inductive try_result :=
| TryAll (do_wakeup do_undos : bool) (pool : list sem)
| TryBlock (i : nat) (op : sembuf) (semptr : Z) (do_undos : bool) (pool : list sem)
| TryRange (pool : list sem)
| TryFault.

(** The [for (i = 0; i < nsops; i++)] loop that applies the operations. *)
Fixpoint try_ops (base nsems : Z) (i : nat) (ops : list sembuf)
  (do_wakeup do_undos : bool) (pool : list sem) : try_result :=
  match ops with
  | [] => TryAll do_wakeup do_undos pool
  | op :: ops' =>
      if nsems <=? sem_num op then TryRange pool
      else
        let semptr := base + sem_num op in
        match aget pool semptr with
        | None => TryFault
        | Some m =>
            let un := do_undos || bset (sem_flg op) SEM_UNDO in
            if sem_op op <? 0 then
              if semval m + sem_op op <? 0 then TryBlock i op semptr do_undos pool
              else
                let m' := sem_set_val m (u16 (semval m + sem_op op)) in
                let wk := do_wakeup || ((semval m' =? 0) && (0 <? semzcnt m)) in
                try_ops base nsems (S i) ops' wk un (aput pool semptr m')
            else if sem_op op =? 0 then
              if 0 <? semval m then TryBlock i op semptr do_undos pool
              else try_ops base nsems (S i) ops' do_wakeup do_undos pool
            else
              let wk := do_wakeup || (0 <? semncnt m) in
              let m' := sem_set_val m (u16 (semval m + sem_op op)) in
              try_ops base nsems (S i) ops' wk un (aput pool semptr m')
        end
  end.

(** [for (j = 0; j < i; j++) sem_base[sops[j].sem_num].semval -= sops[j].sem_op] *)
Fixpoint rollback (base : Z) (ops : list sembuf) (pool : list sem) : option (list sem) :=
  match ops with
  | [] => Some pool
  | op :: ops' =>
      match add_semval base (sem_num op) (- sem_op op) pool with
      | None => None
      | Some pool => rollback base ops' pool
      end
  end.

(** [semptr->semzcnt] or [semptr->semncnt], by the kind of operation. *)
Definition bump_waiters (op : sembuf) (semptr d : Z) (pool : list sem) : option (list sem) :=
  match aget pool semptr with
  | None => None
  | Some m =>
      Some (aput pool semptr
        (if sem_op op =? 0 then sem_set_zcnt m (u16 (semzcnt m + d))
         else sem_set_ncnt m (u16 (semncnt m + d))))
  end.

(** The [for (;;)] loop: an errno to return, or the two flags with which the
    code reaches [done]. *)
Fixpoint semop_loop (w : schedule) (semid : Z) (sops : list sembuf) (do_undos : bool)
  (s : semstate) : outcome semstate (Z + bool * bool) :=
  let? d := aget (sema s) semid in
  match try_ops (sem_base d) (sem_nsems d) 0 sops false do_undos (sem_pool s) with
  | TryFault => Fault
  | TryRange pool => errno_return (-1) (inl EFBIG) (set_pool s pool)
  | TryAll do_wakeup do_undos pool => Ret (inr (do_wakeup, do_undos)) (set_pool s pool)
  | TryBlock i op semptr do_undos pool =>
      let? pool := rollback (sem_base d) (take i sops) pool in
      let s := set_pool s pool in
      if bset (sem_flg op) IPC_NOWAIT then errno_return (-1) (inl EAGAIN) s
      else
        let? pool := bump_waiters op semptr 1 (sem_pool s) in
        let s := set_pool s pool in
        match w with
        | [] => Asleep s
        | (eval, env) :: w' =>
            let s := env s in
            if negb (eval =? 0) then errno_return (-1) (inl EINTR) s
            else
              let? d := aget (sema s) semid in
              if negb (ds_alloc d) || negb (seq (sem_perm d) =? IPCID_TO_SEQ semid)
              then errno_return (-1) (inl EINVAL) s
              else
                let? pool := bump_waiters op semptr (-1) (sem_pool s) in
                semop_loop w' semid sops do_undos (set_pool s pool)
        end
  end.

Definition needs_undo (op : sembuf) : bool :=
  bset (sem_flg op) SEM_UNDO && negb (sem_op op =? 0).

(** The reverse loop over [sops[i-1] .. sops[0]] (given already reversed). *)
Fixpoint undo_rollback (p suptr semid : Z) (rops : list sembuf) (s : semstate)
  : outcome semstate Z :=
  match rops with
  | [] => Ret suptr s
  | op :: rops' =>
      if needs_undo op then
        let* (r, s) := semundo_adjust p suptr semid (sem_num op) (sem_op op) s in
        if fst r =? 0 then undo_rollback p (snd r) semid rops' s
        else Panic "semop - can't undo undos"
      else undo_rollback p suptr semid rops' s
  end.

(** The forward loop over the operations with SEM_UNDO; [done_rev] are the
    operations already treated, latest first.  The result is 0 or the error. *)
Fixpoint undo_forward (p suptr semid : Z) (done_rev ops : list sembuf) (s : semstate)
  : outcome semstate Z :=
  match ops with
  | [] => Ret 0 s
  | op :: ops' =>
      if needs_undo op then
        let* (r, s) := semundo_adjust p suptr semid (sem_num op) (- sem_op op) s in
        if fst r =? 0 then undo_forward p (snd r) semid (op :: done_rev) ops' s
        else
          let* (_u, s) := undo_rollback p (snd r) semid done_rev s in
          Ret (fst r) s
      else undo_forward p suptr semid (op :: done_rev) ops' s
  end.

Fixpoint set_pids (p base : Z) (ops : list sembuf) (pool : list sem) : option (list sem) :=
  match ops with
  | [] => Some pool
  | op :: ops' =>
      match aget pool (base + sem_num op) with
      | None => None
      | Some m => set_pids p base ops' (aput pool (base + sem_num op) (sem_set_pid m p))
      end
  end.

(** From the label [done] to the end. *)
Definition semop_done (p semid : Z) (sops : list sembuf) (do_wakeup do_undos : bool)
  (s : semstate) : outcome semstate Z :=
  let* (e, s) := (if do_undos then undo_forward p NIL semid [] sops s else Ret 0 s) in
  let? d := aget (sema s) semid in
  if negb (e =? 0) then
    let? pool := rollback (sem_base d) sops (sem_pool s) in
    errno_return (-1) e (set_pool s pool)
  else
    let? pool := set_pids p (sem_base d) sops (sem_pool s) in
    let s := set_pool s pool in
    Ret 0 (if do_wakeup then ix_wakeup s (WSema semid) else s).

Definition ix_semop (p : Z) (cred : ucred) (w : schedule) (semid : Z) (sops : list sembuf)
  (s : semstate) : outcome semstate Z :=
  let* (w, s) := semlock p w s in
  let* (chk, s) := semid_check semid s in
  match chk with
  | None => errno_return (-1) EINVAL s
  | Some (semid, d) =>
      let eval := ipcperm cred (sem_perm d) IPC_W in
      if negb (eval =? 0) then errno_return (-1) eval s
      else if MAX_SOPS <? Z.of_nat (length sops) then errno_return (-1) E2BIG s
      else
        let* (r, s) := semop_loop w semid sops false s in
        match r with
        | inl e => Ret e s
        | inr (do_wakeup, do_undos) => semop_done p semid sops do_wakeup do_undos s
        end
  end.

(** ** semexit *)

(** The loop over the undo entries of the exiting process. *)
Fixpoint apply_undos (ents : list undo) (s : semstate) : outcome semstate unit :=
  match ents with
  | [] => Ret tt s
  | e :: ents' =>
      let? d := aget (sema s) (un_id e) in
      if negb (ds_alloc d) then Panic "semexit - semid not allocated"
      else if sem_nsems d <=? un_num e then Panic "semexit - semnum out of range"
      else
        let ptr := sem_base d + un_num e in
        let? m := aget (sem_pool s) ptr in
        let v := if (un_adjval e <? 0) && (semval m <? - un_adjval e) then 0
                 else u16 (semval m + un_adjval e) in
        let s := set_pool s (aput (sem_pool s) ptr (sem_set_val m v)) in
        apply_undos ents' (ix_wakeup s (WSema (un_id e)))
  end.

(** [while (semlock_holder != NULL) ix_sleep(..)] *)
Fixpoint wait_unlocked (w : schedule) (s : semstate) : outcome semstate unit :=
  if semlock_holder s =? 0 then Ret tt s
  else match w with
       | [] => Asleep s
       | (_, env) :: w' => wait_unlocked w' (env s)
       end.

Definition semexit_unlock (p : Z) (s : semstate) : semstate :=
  if semlock_holder s =? p then ix_wakeup (set_holder s 0) WLock else s.

(** Apply and release the undo vector that [lnk] points at. *)
Definition semexit_release (p lnk suptr : Z) (s : semstate) : outcome semstate unit :=
  let? su := aget (semu s) suptr in
  let* (_u, s) := (if 0 <? un_cnt su
                   then apply_undos (take (Z.to_nat (un_cnt su)) (un_ent su)) s
                   else Ret tt s) in
  let s := put_undo s suptr (su_set_proc su 0) in
  let s := set_link s lnk (un_next su) in
  Ret tt (semexit_unlock p s).

Definition semexit (p : Z) (w : schedule) (s : semstate) : outcome semstate unit :=
  let* (r, s) := semu_find semu_fuel p NIL s in
  if negb (semlock_holder s =? 0) && negb (semlock_holder s =? p) then
    if snd r =? NIL then Ret tt s
    else
      let* (_u, s) := wait_unlocked w s in
      let* (r, s) := semu_find semu_fuel p NIL s in
      if snd r =? NIL then Panic "semexit: undo vector disappeared"
      else semexit_release p (fst r) (snd r) s
  else
    if snd r =? NIL then Ret tt (semexit_unlock p s)
    else semexit_release p (fst r) (snd r) s.

(** ** The entry points *)

Definition semop (p : Z) (cred : ucred) (w : schedule) (semid : Z) (sops : list sembuf)
  (s : semstate) : outcome semstate Z := ix_semop p cred w semid sops s.

Definition semget (p now : Z) (cred : ucred) (w : schedule) (k nsems semflg : Z)
  (s : semstate) : outcome semstate Z := ix_semget p now cred w k nsems semflg s.

(** What [semctl] returns: a number, or the address of a static object. *)
Inductive semctl_val := CtlNum (v : Z) (out : semout) | CtlSeminfo | CtlSema.

Definition semctl (p now : Z) (cred : ucred) (w : schedule) (semid semnum cmd : Z)
  (arg : semun) (s : semstate) : outcome semstate semctl_val :=
  if cmd =? GETSEMINFO then Ret CtlSeminfo s
  else if cmd =? GETSEMA then Ret CtlSema s
  else if cmd =? SEMLCK then
    let* (_w, s) := semlock p w s in
    Ret (CtlNum 0 OutNone) (set_holder s p)
  else if cmd =? SEMUNLK then
    Ret (CtlNum 0 OutNone) (ix_wakeup (set_holder s 0) WLock)
  else
    let* (r, s) := ix_semctl p now cred w semid semnum cmd arg s in
    Ret (CtlNum (fst r) (snd r)) s.
