(* ===== verification/SysvSemAtomic.v ===== *)
(** * System V semaphores: a vector of operations is atomic

    The loop of [ix_semop] applies the operations in place and rolls them back
    when one of them must wait.  This file states the atomic specification
    (either every operation is applied, or nothing is) and proves that the
    loop implements it. *)

From S2P Require Import Prelude Ipc SysvSem.

(** ** The atomic specification *)

Definition fupd (v : Z -> Z) (n x : Z) : Z -> Z := fun k => if n =? k then x else v k.

(** The values of a set after the whole vector, [None] when an operation has
    to wait.  Values are [u_short]s. *)
Fixpoint spec_semop (ops : list sembuf) (v : Z -> Z) : option (Z -> Z) :=
  match ops with
  | [] => Some v
  | op :: ops' =>
      let n := sem_num op in
      if sem_op op <? 0 then
        if v n + sem_op op <? 0 then None else spec_semop ops' (fupd v n (u16 (v n + sem_op op)))
      else if sem_op op =? 0 then
        if 0 <? v n then None else spec_semop ops' v
      else spec_semop ops' (fupd v n (u16 (v n + sem_op op)))
  end.

(** The values of the set that starts at [base]. *)
Definition vals_at (base : Z) (pool : list sem) (n : Z) : Z :=
  from_option semval 0 (aget pool (base + n)).

Definition sem_wf (m : sem) : Prop := is_u16 (semval m).

(** [pool'] is [pool] with the values of the set replaced by [v]. *)
Definition pool_agrees (base nsems : Z) (v : Z -> Z) (pool pool' : list sem) : Prop :=
  length pool' = length pool /\
  forall j m, aget pool j = Some m ->
    aget pool' j = Some (if (base <=? j) && (j <? base + nsems)
                         then sem_set_val m (v (j - base)) else m).

Definition ops_in_set (nsems : Z) (ops : list sembuf) : Prop :=
  Forall (fun op => 0 <= sem_num op < nsems) ops.

(** ** Rolling back *)

Lemma sem_set_val_id m : sem_set_val m (semval m) = m.
Proof. by destruct m. Qed.

Lemma sem_set_val_val m a b : sem_set_val (sem_set_val m a) b = sem_set_val m b.
Proof. done. Qed.

Lemma add_semval_comm base n1 d1 n2 d2 p p1 p2 :
  add_semval base n1 d1 p = Some p1 -> add_semval base n2 d2 p1 = Some p2 ->
  exists q, add_semval base n2 d2 p = Some q /\ add_semval base n1 d1 q = Some p2.
Proof.
  unfold add_semval. destruct (aget p (base + n1)) as [m1|] eqn:H1; [|done].
  intros [= <-]. destruct (Z.eq_dec n1 n2) as [<-|Hne].
  - rewrite H1, (aget_aput_eq _ _ _ m1) by done. intros [= <-]. eexists. split; [done|].
    rewrite (aget_aput_eq _ _ _ m1) by done. simpl. rewrite !aput_aput.
    do 3 f_equal. rewrite !u16_add_u16. f_equal. lia.
  - rewrite aget_aput_ne by lia. destruct (aget p (base + n2)) as [m2|] eqn:H2; [|done].
    intros [= <-]. eexists. split; [done|].
    rewrite aget_aput_ne, H1 by lia. by rewrite aput_comm by lia.
Qed.

Lemma rollback_comm base ops n d p p1 p2 :
  rollback base ops p = Some p1 -> add_semval base n d p1 = Some p2 ->
  exists q, add_semval base n d p = Some q /\ rollback base ops q = Some p2.
Proof.
  revert p. induction ops as [|op ops IH]; simpl; intros p H1 H2.
  - simplify_eq. eauto.
  - destruct (add_semval base (sem_num op) (- sem_op op) p) as [p'|] eqn:Hp; [|done].
    destruct (IH _ H1 H2) as (q & Hq & Hr).
    destruct (add_semval_comm _ _ _ _ _ _ _ _ Hp Hq) as (q' & Hq' & Hr').
    exists q'. split; [done|]. by rewrite Hr'.
Qed.

(** Undoing one applied operation. *)
Lemma add_semval_undo base n d pool m :
  aget pool (base + n) = Some m -> sem_wf m ->
  add_semval base n (- d) (aput pool (base + n) (sem_set_val m (u16 (semval m + d)))) = Some pool.
Proof.
  intros Hm Hwf. unfold add_semval. rewrite (aget_aput_eq _ _ _ m) by done.
  rewrite aput_aput. simpl. rewrite Z.add_opp_r, u16_add_sub by done.
  rewrite sem_set_val_val, sem_set_val_id. by rewrite aput_same.
Qed.

Lemma add_semval_zero base n pool m :
  aget pool (base + n) = Some m -> sem_wf m -> add_semval base n 0 pool = Some pool.
Proof.
  intros Hm Hwf. unfold add_semval. rewrite Hm, Z.add_0_r, u16_id by done.
  by rewrite sem_set_val_id, aput_same.
Qed.

Lemma sem_wf_set m v : sem_wf (sem_set_val m (u16 v)).
Proof. apply u16_range. Qed.

Create HintDb sem.
#[export] Hint Resolve sem_wf_set Forall_aput : sem.

(** ** The loop against the specification *)

Lemma vals_at_put base pool n x m :
  aget pool (base + n) = Some m ->
  forall k, vals_at base (aput pool (base + n) x) k = fupd (vals_at base pool) n (semval x) k.
Proof.
  intros Hm k. unfold vals_at, fupd. rewrite (aget_aput _ _ _ _ m Hm).
  destruct (Z.eqb_spec n k) as [->|Hne].
  - by rewrite Z.eqb_refl.
  - by rewrite (proj2 (Z.eqb_neq _ _)) by lia.
Qed.

Definition feq (v1 v2 : Z -> Z) : Prop := forall k, v1 k = v2 k.

#[export] Instance feq_equiv : Equivalence feq.
Proof.
  split; [by intros v k|by intros v1 v2 H k|]. intros v1 v2 v3 H1 H2 k. by rewrite H1.
Qed.

#[export] Instance fupd_proper : Proper (feq ==> (=) ==> (=) ==> feq) fupd.
Proof. intros v1 v2 Hv n ? <- x ? <- k. unfold fupd. by rewrite Hv. Qed.

Lemma spec_semop_ext ops v1 v2 :
  feq v1 v2 -> option_Forall2 feq (spec_semop ops v1) (spec_semop ops v2).
Proof.
  revert v1 v2. induction ops as [|op ops IH]; simpl; intros v1 v2 Hv; [by constructor|].
  rewrite !(Hv (sem_num op)).
  repeat case_match; try (by constructor); apply IH; try done; by rewrite Hv || apply fupd_proper.
Qed.

(** What one pass of the loop returns. *)
Definition try_spec (base : Z) (i : nat) (ops : list sembuf) (pool : list sem)
  (r : try_result) : Prop :=
  match spec_semop ops (vals_at base pool), r with
  | Some v, TryAll _ _ pool' =>
      feq v (vals_at base pool') /\ length pool' = length pool /\
      (forall j m, aget pool j = Some m ->
         aget pool' j = Some (sem_set_val m (vals_at base pool' (j - base)))) /\
      (forall j, (forall op, op ∈ ops -> j <> base + sem_num op) -> aget pool' j = aget pool j)
  | None, TryBlock k op ptr _ pool' =>
      (i <= k)%nat /\ op ∈ ops /\ ptr = base + sem_num op /\ is_Some (aget pool ptr) /\
      rollback base (take (k - i) ops) pool' = Some pool
  | _, _ => False
  end.

Lemma aput_zero_op pool j m :
  aget pool j = Some m -> sem_wf m ->
  aput pool j (sem_set_val m (u16 (semval m + 0))) = pool.
Proof.
  intros Hm Hwf. rewrite Z.add_0_r, u16_id, sem_set_val_id by done. by apply aput_same.
Qed.

(** Passing over one operation that does not have to wait. *)
Lemma try_spec_step base i op ops pool m r :
  let ptr := base + sem_num op in
  let pool1 := aput pool ptr (sem_set_val m (u16 (semval m + sem_op op))) in
  aget pool ptr = Some m -> sem_wf m ->
  option_Forall2 feq (spec_semop (op :: ops) (vals_at base pool))
                     (spec_semop ops (vals_at base pool1)) ->
  try_spec base (S i) ops pool1 r -> try_spec base i (op :: ops) pool r.
Proof.
  intros ptr pool1 Hm Hwf Hspec. unfold try_spec.
  destruct (spec_semop (op :: ops) (vals_at base pool)) as [v|],
    (spec_semop ops (vals_at base pool1)) as [v1|]; try (by inversion Hspec);
    destruct r; try done.
  - intros (Hv1 & Hlen & Hfld & Hout). unfold pool1 in *. rewrite aput_length in Hlen.
    split; [|split; [done|split]].
    + inversion Hspec as [? ? Hv|]; subst. intros k. by rewrite Hv, Hv1.
    + intros j m0 Hj. destruct (Z.eq_dec ptr j) as [<-|Hne].
      * rewrite (Hfld _ _ (aget_aput_eq _ _ _ _ Hj)). by simplify_eq.
      * rewrite (Hfld j m0); [done|]. by rewrite aget_aput_ne.
    + intros j Hj. rewrite Hout by (intros; apply Hj; set_solver).
      apply aget_aput_ne. unfold ptr. symmetry. apply Hj. set_solver.
  - intros (Hle & Hin & -> & Hsome & Hrb). split; [lia|]. split; [set_solver|]. split; [done|].
    split; [destruct Hsome as [x Hx%aget_Some_range]; apply aget_is_Some;
            unfold pool1 in Hx; by rewrite aput_length in Hx|].
    replace (i0 - i)%nat with (S (i0 - S i)) by lia. simpl.
    destruct (rollback_comm _ _ (sem_num op) (- sem_op op) _ _ pool Hrb) as (q & Hq & Hr).
    { by apply add_semval_undo. }
    by rewrite Hq.
Qed.

Lemma try_ops_spec base nsems ops i wk un pool :
  Forall sem_wf pool -> 0 <= base -> base + nsems <= Z.of_nat (length pool) ->
  ops_in_set nsems ops ->
  try_spec base i ops pool (try_ops base nsems i ops wk un pool).
Proof.
  intros Hwf Hb Hlen Hin. revert i wk un pool Hwf Hlen.
  induction Hin as [|op ops Hop Hin IH]; intros i wk un pool Hwf Hlen.
  - unfold try_spec. simpl. repeat split; try done.
    intros j m Hj. rewrite Hj. unfold vals_at.
    replace (base + (j - base)) with j by lia. rewrite Hj. simpl. by rewrite sem_set_val_id.
  - destruct (aget_is_Some pool (base + sem_num op)) as [m Hm]; [lia|].
    assert (Hmwf : sem_wf m) by (by eapply Forall_aget).
    assert (Hval : vals_at base pool (sem_num op) = semval m) by (unfold vals_at; by rewrite Hm).
    simpl try_ops. rewrite (proj2 (Z.leb_gt _ _)) by lia. rewrite Hm.
    assert (Hstep : forall r,
      try_spec base (S i) ops
        (aput pool (base + sem_num op) (sem_set_val m (u16 (semval m + sem_op op)))) r ->
      option_Forall2 feq (spec_semop (op :: ops) (vals_at base pool))
        (spec_semop ops (fupd (vals_at base pool) (sem_num op) (u16 (semval m + sem_op op)))) ->
      try_spec base i (op :: ops) pool r).
    { intros r Hr Hs. eapply try_spec_step; try done.
      etrans; [exact Hs|]. apply spec_semop_ext. intros k. symmetry. by erewrite vals_at_put. }
    assert (Hrec : forall wk un, try_spec base (S i) ops
        (aput pool (base + sem_num op) (sem_set_val m (u16 (semval m + sem_op op))))
        (try_ops base nsems (S i) ops wk un
          (aput pool (base + sem_num op) (sem_set_val m (u16 (semval m + sem_op op)))))).
    { intros. apply IH; [auto with sem|by rewrite aput_length]. }
    assert (Hblk : spec_semop (op :: ops) (vals_at base pool) = None ->
      try_spec base i (op :: ops) pool (TryBlock i op (base + sem_num op) un pool)).
    { intros Hn. unfold try_spec. rewrite Hn, Nat.sub_diag. split; [lia|]. split; [set_solver|].
      split; [done|]. split; [by exists m|done]. }
    destruct (sem_op op <? 0) eqn:Hneg; [destruct (semval m + sem_op op <? 0) eqn:Hb1|
      destruct (sem_op op =? 0) eqn:Hz; [destruct (0 <? semval m) eqn:Hb1|]].
    all: first [apply Hblk; simpl; rewrite ?Hneg, ?Hz, Hval, Hb1; done|idtac].
    + apply Hstep; [apply Hrec|]. simpl. by rewrite Hneg, Hval, Hb1.
    + apply Z.eqb_eq in Hz. apply Hstep.
      * pose proof (Hrec wk un) as H. rewrite Hz in H |- *. by rewrite aput_zero_op in H |- *.
      * simpl. rewrite Hneg, Hz, Hval, Hb1. apply spec_semop_ext. intros k. unfold fupd.
        rewrite Z.add_0_r, u16_id by done. case_match eqn:Hk; [|done].
        apply Z.eqb_eq in Hk. by subst k.
    + apply Hstep; [apply Hrec|]. simpl. by rewrite Hneg, Hz, Hval.
Qed.

(** ** One round of [ix_semop] *)

(** The descriptor of an allocated set whose semaphores lie in the pool. *)
Record set_in_pool (s : semstate) (d : semid_ds) : Prop := {
  sip_wf : Forall sem_wf (sem_pool s);
  sip_base : 0 <= sem_base d;
  sip_len : sem_base d + sem_nsems d <= Z.of_nat (length (sem_pool s))
}.

Definition semop_round_spec (s : semstate) (d : semid_ds) (sops : list sembuf)
  (r : outcome semstate (Z + bool * bool)) : Prop :=
  match spec_semop sops (vals_at (sem_base d) (sem_pool s)) with
  | Some v =>
      exists wk un pool', r = Ret (inr (wk, un)) (set_pool s pool') /\
        pool_agrees (sem_base d) (sem_nsems d) v (sem_pool s) pool'
  | None =>
      exists op, op ∈ sops /\
        if bset (sem_flg op) IPC_NOWAIT
        then r = Ret (inl EAGAIN) (set_errno s (-1))
        else exists pool',
          bump_waiters op (sem_base d + sem_num op) 1 (sem_pool s) = Some pool' /\
          r = Asleep (set_pool s pool')
  end.

Lemma set_pool_id s : set_pool s (sem_pool s) = s.
Proof. by destruct s. Qed.

(** ** An operation outside the set *)

Lemma try_ops_app base nsems ops1 ops2 : forall i wk un pool,
  try_ops base nsems i (ops1 ++ ops2) wk un pool =
  match try_ops base nsems i ops1 wk un pool with
  | TryAll wk' un' pool' => try_ops base nsems (i + length ops1) ops2 wk' un' pool'
  | r => r
  end.
Proof.
  induction ops1 as [|op ops1 IH]; intros i wk un pool.
  - simpl. by rewrite Nat.add_0_r.
  - simpl. replace (i + S (length ops1))%nat with (S i + length ops1)%nat by lia.
    destruct (nsems <=? sem_num op); [done|].
    destruct (aget pool (base + sem_num op)) as [m|]; [|done].
    destruct (sem_op op <? 0).
    { destruct (semval m + sem_op op <? 0); [done|apply IH]. }
    destruct (sem_op op =? 0); [|apply IH].
    destruct (0 <? semval m); [done|apply IH].
Qed.

(** ** The whole vector *)

(** Rolling back a vector that was applied completely. *)
Lemma try_ops_rollback base nsems ops : forall i wk un pool wk' un' pool',
  Forall sem_wf pool -> try_ops base nsems i ops wk un pool = TryAll wk' un' pool' ->
  rollback base ops pool' = Some pool.
Proof.
  induction ops as [|op ops IH]; intros i wk un pool wk' un' pool' Hwf H.
  { simpl in *. by simplify_eq. }
  simpl in H. destruct (nsems <=? sem_num op); [done|].
  destruct (aget pool (base + sem_num op)) as [m|] eqn:Hm; [|done].
  assert (Hmwf : sem_wf m) by (by eapply Forall_aget).
  assert (Hput : forall i wk un,
    try_ops base nsems i ops wk un
      (aput pool (base + sem_num op) (sem_set_val m (u16 (semval m + sem_op op)))) =
      TryAll wk' un' pool' -> rollback base (op :: ops) pool' = Some pool).
  { intros i0 wk0 un0 H0. apply IH in H0; [|auto with sem].
    destruct (rollback_comm _ _ (sem_num op) (- sem_op op) _ _ pool H0) as (q & Hq & Hr).
    { by apply add_semval_undo. }
    simpl. by rewrite Hq. }
  destruct (sem_op op <? 0).
  { destruct (semval m + sem_op op <? 0); [done|by eapply Hput]. }
  destruct (Z.eqb_spec (sem_op op) 0) as [Hz|Hz]; [|by eapply Hput].
  destruct (0 <? semval m); [done|]. eapply Hput.
  rewrite Hz, aput_zero_op; [exact H|done|done].
Qed.

(** [do_undos] records whether an operation needs an undo entry. *)
Lemma try_ops_undos base nsems ops : forall i wk un pool wk' un' pool',
  try_ops base nsems i ops wk un pool = TryAll wk' un' pool' ->
  un' = un || existsb needs_undo ops.
Proof.
  induction ops as [|op ops IH]; intros i wk un pool wk' un' pool' H.
  { simpl in *. simplify_eq. by rewrite orb_false_r. }
  simpl in *. destruct (nsems <=? sem_num op); [done|].
  destruct (aget pool (base + sem_num op)) as [m|]; [|done]. unfold needs_undo at 1.
  destruct (Z.ltb_spec (sem_op op) 0).
  { destruct (semval m + sem_op op <? 0); [done|]. apply IH in H.
    rewrite (proj2 (Z.eqb_neq (sem_op op) 0)), andb_true_r, orb_assoc by lia. done. }
  destruct (sem_op op =? 0).
  { destruct (0 <? semval m); [done|]. rewrite andb_false_r. by apply IH in H. }
  apply IH in H. by rewrite andb_true_r, orb_assoc.
Qed.

Lemma set_pids_spec p base ops : forall pool,
  (forall op, op ∈ ops -> is_Some (aget pool (base + sem_num op))) ->
  exists pool', set_pids p base ops pool = Some pool' /\
    forall j, aget pool' j =
      (fun m => if existsb (fun op => base + sem_num op =? j) ops then sem_set_pid m p else m)
        <$> aget pool j.
Proof.
  induction ops as [|op ops IH]; intros pool Hin; simpl.
  { exists pool. split; [done|]. intros j. by destruct (aget pool j). }
  destruct (Hin op) as [m Hm]; [set_solver|]. rewrite Hm.
  destruct (IH (aput pool (base + sem_num op) (sem_set_pid m p))) as (pool' & -> & Hp).
  { intros op' Hop. rewrite (aget_aput _ _ _ _ m Hm). case_match; [done|]. apply Hin. set_solver. }
  exists pool'. split; [done|]. intros j. rewrite Hp, (aget_aput _ _ _ _ m Hm).
  destruct (Z.eqb_spec (base + sem_num op) j) as [<-|Hne]; simpl; [|done].
  rewrite Hm. simpl. by case_match.
Qed.

(** ** One round, whatever happens next *)

(** A round that waits notes that an undo entry is needed only if one is. *)
Lemma try_ops_block_undos base nsems ops : forall i wk un pool k op ptr un' pool',
  try_ops base nsems i ops wk un pool = TryBlock k op ptr un' pool' ->
  un' = true -> un = true \/ existsb needs_undo ops = true.
Proof.
  induction ops as [|op ops IH]; intros i wk un pool k o ptr un' pool' H Hun; [done|].
  simpl in *. destruct (nsems <=? sem_num op); [done|].
  destruct (aget pool (base + sem_num op)) as [m|]; [|done]. unfold needs_undo at 1.
  destruct (Z.ltb_spec (sem_op op) 0).
  { destruct (semval m + sem_op op <? 0); [simplify_eq; by left|].
    rewrite (proj2 (Z.eqb_neq (sem_op op) 0)), andb_true_r by lia.
    destruct (IH _ _ _ _ _ _ _ _ _ H Hun) as [E|E]; [|right; by rewrite E, orb_true_r].
    apply orb_true_iff in E as [->| ->]; [by left|by right]. }
  destruct (sem_op op =? 0).
  { rewrite andb_false_r. destruct (0 <? semval m); [simplify_eq; by left|]. by eapply IH. }
  rewrite andb_true_r.
  destruct (IH _ _ _ _ _ _ _ _ _ H Hun) as [E|E]; [|right; by rewrite E, orb_true_r].
  apply orb_true_iff in E as [->| ->]; [by left|by right].
Qed.

(** What the loop does after an operation [op] of the set at [base] had to wait. *)
Definition semop_wait (w : schedule) (ix base : Z) (sops : list sembuf) (op : sembuf) (un : bool)
  (s : semstate) : outcome semstate (Z + bool * bool) :=
  match w with
  | [] => Asleep s
  | (eval, env) :: w =>
      let s := env s in
      if negb (eval =? 0) then Ret (inl EINTR) (set_errno s (-1))
      else
        let? d := aget (sema s) ix in
        if negb (ds_alloc d) || negb (seq (sem_perm d) =? IPCID_TO_SEQ ix) then Ret (inl EINVAL) (set_errno s (-1))
        else
          let? pool := bump_waiters op (base + sem_num op) (-1) (sem_pool s) in
          semop_loop w ix sops un (set_pool s pool)
  end.

(** A round of the loop of [ix_semop], for any schedule, against the atomic
    specification. *)
Lemma semop_round_any (w : schedule) (s : semstate) (ix : Z) (d : semid_ds) (sops : list sembuf) (un : bool) :
  aget (sema s) ix = Some d -> set_in_pool s d -> ops_in_set (sem_nsems d) sops ->
  match spec_semop sops (vals_at (sem_base d) (sem_pool s)) with
  | Some v =>
      exists wk pool', semop_loop w ix sops un s = Ret (inr (wk, un || existsb needs_undo sops)) (set_pool s pool') /\
        pool_agrees (sem_base d) (sem_nsems d) v (sem_pool s) pool' /\
        rollback (sem_base d) sops pool' = Some (sem_pool s)
  | None =>
      exists op un', op ∈ sops /\ (un' = true -> un = true \/ existsb needs_undo sops = true) /\
        if bset (sem_flg op) IPC_NOWAIT
        then semop_loop w ix sops un s = Ret (inl EAGAIN) (set_errno s (-1))
        else exists pool',
          bump_waiters op (sem_base d + sem_num op) 1 (sem_pool s) = Some pool' /\
          semop_loop w ix sops un s = semop_wait w ix (sem_base d) sops op un' (set_pool s pool')
  end.
Proof.
  intros Hd [Hwf Hb Hlen] Hin.
  assert (semop_loop w ix sops un s =
    match try_ops (sem_base d) (sem_nsems d) 0 sops false un (sem_pool s) with
    | TryFault => Fault
    | TryRange pool => errno_return (-1) (inl EFBIG) (set_pool s pool)
    | TryAll do_wakeup do_undos pool => Ret (inr (do_wakeup, do_undos)) (set_pool s pool)
    | TryBlock i op semptr do_undos pool =>
        let? pool := rollback (sem_base d) (take i sops) pool in
        let s := set_pool s pool in
        if bset (sem_flg op) IPC_NOWAIT then errno_return (-1) (inl EAGAIN) s
        else
          let? pool := bump_waiters op semptr 1 (sem_pool s) in
          match w with
          | [] => Asleep (set_pool s pool)
          | (eval, env) :: w' =>
              let s := env (set_pool s pool) in
              if negb (eval =? 0) then errno_return (-1) (inl EINTR) s
              else
                let? d := aget (sema s) ix in
                if negb (ds_alloc d) || negb (seq (sem_perm d) =? IPCID_TO_SEQ ix)
                then errno_return (-1) (inl EINVAL) s
                else
                  let? pool := bump_waiters op semptr (-1) (sem_pool s) in
                  semop_loop w' ix sops do_undos (set_pool s pool)
          end
    end) as -> by (destruct w; simpl; by rewrite Hd).
  pose proof (try_ops_spec (sem_base d) (sem_nsems d) sops 0 false un (sem_pool s)
                Hwf Hb Hlen Hin) as Hspec.
  unfold try_spec in Hspec.
  destruct (spec_semop sops _) as [v|], (try_ops _ _ _ _ _ _ _) as [wk un' pool'|k op ptr un' pool'|?|] eqn:Ht;
    try done.
  - destruct Hspec as (Hv & Hl & Hfld & Hout). exists wk, pool'.
    rewrite (try_ops_undos _ _ _ _ _ _ _ _ _ _ Ht). split; [done|]. split; [|by eapply try_ops_rollback].
    split; [done|].
    intros j m Hj. rewrite (Hfld _ _ Hj). case_match eqn:Hr; [by rewrite Hv|].
    rewrite <- (Hfld _ _ Hj), Hout, Hj; [done|].
    intros op Hop ->. eapply Forall_forall in Hin; [|done].
    apply andb_false_iff in Hr. rewrite Z.leb_gt, Z.ltb_ge in Hr. simpl in Hin. lia.
  - destruct Hspec as (_ & Hop & -> & [m Hm] & Hrb). rewrite Nat.sub_0_r in Hrb. rewrite Hrb.
    exists op, un'. split; [done|]. split; [by eapply try_ops_block_undos|].
    case_match; [by rewrite set_pool_id|].
    rewrite set_pool_id. unfold bump_waiters at 2. rewrite Hm. eexists. split; [unfold bump_waiters; by rewrite Hm|].
    by destruct w as [|[]].
Qed.

(** The loop of [ix_semop] up to its first sleep. *)
Lemma semop_round_ok (s : semstate) (ix : Z) (d : semid_ds) (sops : list sembuf)
  (un : bool) :
  aget (sema s) ix = Some d -> set_in_pool s d -> ops_in_set (sem_nsems d) sops ->
  semop_round_spec s d sops (semop_loop [] ix sops un s).
Proof.
  intros Hd Hp Hin. pose proof (semop_round_any [] s ix d sops un Hd Hp Hin) as H. unfold semop_round_spec.
  destruct (spec_semop sops _) as [v|].
  - destruct H as (wk & pool' & -> & Hag & _). by exists wk, (un || existsb needs_undo sops), pool'.
  - destruct H as (op & un' & Hop & _ & H). exists op. split; [done|]. by case_match.
Qed.

(** A semaphore after the vector: its new value, and the caller as its last
    operator when an operation names it. *)
Definition after_ops (p base nsems : Z) (sops : list sembuf) (v : Z -> Z) (j : Z) (m : sem) : sem :=
  let m := if (base <=? j) && (j <? base + nsems) then sem_set_val m (v (j - base)) else m in
  if existsb (fun op => base + sem_num op =? j) sops then sem_set_pid m p else m.
