(* ===== verification/SysvSemUndo.v ===== *)
(** * System V semaphores: undo vectors and the list of the active ones

    One undo vector is a finite map from sets and semaphores to adjustments.  The
    invariant of [semu]/[semu_list] and its meaning: for every process the map of
    its pending adjustments.  [semundo_adjust] implements the update
    of that map, [semu_alloc] never reaches its panic, and the forward and
    reverse loops of [ix_semop] never reach theirs. *)

From S2P Require Import Prelude Ipc SysvSem.

(** ** One undo vector as a finite map *)

Abbreviation umap := (gmap (Z * Z) Z).

Definition active (su : sem_undo) : list undo := take (Z.to_nat (un_cnt su)) (un_ent su).
Definition ukey (e : undo) : Z * Z := (un_id e, un_num e).
Definition ubind (e : undo) : (Z * Z) * Z := (ukey e, un_adjval e).
Definition undo_map (su : sem_undo) : umap := list_to_map (ubind <$> active su).

Definition entry_ok (e : undo) : Prop := un_adjval e <> 0 /\ is_s16 (un_adjval e).

Record undo_wf (su : sem_undo) : Prop := {
  uw_cnt : 0 <= un_cnt su <= SEMUME;
  uw_len : Z.of_nat (length (un_ent su)) = SEMUME + 1;
  uw_keys : NoDup (ukey <$> active su);
  uw_ents : Forall entry_ok (active su)
}.

(** Adding [a] to the adjustment of [k]; a null adjustment is no entry. *)
Definition umap_add (m : umap) (k : Z * Z) (a : Z) : umap :=
  let v := s16 (default 0 (m !! k) + a) in
  if v =? 0 then delete k m else <[k := v]> m.

Definition umap_ok (m : umap) : Prop := map_Forall (fun _ v => v <> 0 /\ is_s16 v) m.

Lemma umap_add_ok m k a : umap_ok m -> umap_ok (umap_add m k a).
Proof.
  intros Hm. unfold umap_add. case_match eqn:Hv.
  - by apply map_Forall_delete.
  - apply map_Forall_insert_2; [|done]. split; [by apply Z.eqb_neq|apply s16_range].
Qed.

(** Subtracting and adding back the same amount gives the map back. *)
Lemma umap_add_inverse m k a :
  umap_ok m -> umap_add (umap_add m k (- a)) k a = m.
Proof.
  intros Hm. unfold umap_add at 2. destruct (m !! k) as [o|] eqn:Ho; simpl.
  - destruct (Hm _ _ Ho) as [Hnz Hr]. destruct (Z.eqb_spec (s16 (o + - a)) 0) as [Hv|Hv].
    + unfold umap_add. rewrite lookup_delete_eq. simpl. rewrite Z.add_0_l.
      assert (s16 a = o) as -> by wrap_lia.
      rewrite (proj2 (Z.eqb_neq _ _)) by done. rewrite insert_delete_eq. by apply insert_id.
    + unfold umap_add. rewrite lookup_insert_eq. simpl.
      assert (s16 (s16 (o + - a) + a) = o) as -> by wrap_lia.
      rewrite (proj2 (Z.eqb_neq _ _)) by done. rewrite insert_insert_eq. by apply insert_id.
  - rewrite Z.add_0_l. destruct (Z.eqb_spec (s16 (- a)) 0) as [Hv|Hv]; unfold umap_add.
    + rewrite lookup_delete_eq. simpl. rewrite Z.add_0_l. assert (s16 a = 0) as -> by wrap_lia.
      simpl. rewrite delete_delete_eq. by apply delete_id.
    + rewrite lookup_insert_eq. simpl. assert (s16 (s16 (- a) + a) = 0) as -> by wrap_lia.
      simpl. rewrite delete_insert_eq. by apply delete_id.
Qed.

Lemma active_length su : undo_wf su -> length (active su) = Z.to_nat (un_cnt su).
Proof. intros [? ? _ _]. unfold active. rewrite length_take. unfold SEMUME in *. lia. Qed.

Lemma undo_map_lookup su e :
  undo_wf su -> e ∈ active su -> undo_map su !! ukey e = Some (un_adjval e).
Proof.
  intros Hwf He. apply elem_of_list_to_map_1.
  - rewrite <- list_fmap_compose. apply Hwf.
  - apply list_elem_of_fmap. by exists e.
Qed.

Lemma undo_map_None su k :
  (forall e, e ∈ active su -> ukey e <> k) -> undo_map su !! k = None.
Proof.
  intros H. apply not_elem_of_list_to_map_1. rewrite <- list_fmap_compose.
  intros (e & -> & He)%list_elem_of_fmap. by apply (H e).
Qed.

Lemma undo_map_ok su : undo_wf su -> umap_ok (undo_map su).
Proof.
  intros Hwf k v Hk. apply elem_of_list_to_map_2 in Hk.
  apply list_elem_of_fmap in Hk as (e & [= -> ->] & He).
  pose proof (uw_ents _ Hwf) as Hall. rewrite Forall_forall in Hall. by apply Hall.
Qed.

Lemma undo_map_size su : undo_wf su -> Z.of_nat (size (undo_map su)) = un_cnt su.
Proof.
  intros Hwf. pose proof (active_length _ Hwf) as Hl. unfold undo_map.
  rewrite map_size_list_to_map by (rewrite <- list_fmap_compose; apply Hwf).
  rewrite length_fmap, Hl. pose proof (uw_cnt _ Hwf). lia.
Qed.

(** The search of [semundo_adjust]. *)
Lemma undo_match_spec semid semnum e :
  undo_match semid semnum e = true <-> ukey e = (semid, semnum).
Proof.
  unfold undo_match, ukey. rewrite negb_true_iff, orb_false_iff, !negb_false_iff, !Z.eqb_eq.
  split; [by intros [-> ->]|by intros [= -> ->]].
Qed.

(** ** Updating the array *)

(** Replacing element [i] by the last one and dropping the last one. *)
Lemma swap_remove_perm {A} (l : list A) (n i : nat) x y :
  l !! i = Some x -> l !! n = Some y -> (i <= n)%nat -> length l = S n ->
  l ≡ₚ x :: take n (<[i := y]> l).
Proof.
  intros Hx Hy Hi Hl. destruct (decide (i = n)) as [->|Hne].
  - rewrite take_insert_ge by lia. etrans; [|symmetry; apply Permutation_cons_append].
    apply Permutation_refl'. rewrite <- (take_S_r _ _ x) by done. by rewrite take_ge by lia.
  - assert (l = take n l ++ [y]) as Hsplit.
    { rewrite <- (take_S_r _ _ y) by done. by rewrite take_ge by lia. }
    rewrite take_insert_lt by lia. set (t := take n l) in *.
    assert (t !! i = Some x) as Hx' by (unfold t; rewrite lookup_take_lt by lia; done).
    assert (delete i (<[i:=y]> t) = delete i t) as Hdel.
    { apply list_eq. intros j. rewrite !list_lookup_delete.
      case_match; rewrite list_lookup_insert_ne by lia; done. }
    pose proof (delete_Permutation t i x Hx') as P1.
    assert (<[i:=y]> t ≡ₚ y :: delete i t) as P2.
    { rewrite <- Hdel. apply delete_Permutation, list_lookup_insert_eq.
      unfold t. rewrite length_take. lia. }
    transitivity (y :: x :: delete i t).
    + rewrite Hsplit. etrans; [symmetry; apply Permutation_cons_append|]. by apply perm_skip.
    + etrans; [apply perm_swap|]. by apply perm_skip.
Qed.

(** Splitting the active entries around the matching one. *)
Lemma active_aget su i e :
  aget (active su) i = Some e -> aget (un_ent su) i = Some e /\ 0 <= i < un_cnt su.
Proof.
  intros H. pose proof (aget_Some_range _ _ _ H) as Hr. unfold active in *.
  rewrite length_take in Hr. split; [|lia]. revert H. unfold aget.
  rewrite (proj2 (Z.leb_le _ _)) by lia. rewrite lookup_take_lt by lia. done.
Qed.

Lemma undo_search_found su semid semnum i :
  first_idx (undo_match semid semnum) (active su) 0 = Some i ->
  exists e, aget (un_ent su) i = Some e /\ 0 <= i < un_cnt su /\ e ∈ active su /\
            ukey e = (semid, semnum).
Proof.
  intros (e & Hi & He & Hm & _)%first_idx_Some. rewrite Z.sub_0_r in He.
  destruct (active_aget _ _ _ He). exists e. repeat split; auto; try lia.
  - by eapply aget_elem_of.
  - by apply undo_match_spec.
Qed.

Lemma undo_search_none su semid semnum :
  first_idx (undo_match semid semnum) (active su) 0 = None ->
  undo_map su !! (semid, semnum) = None.
Proof.
  intros Hn%first_idx_None. apply undo_map_None. intros e He Hk.
  rewrite Forall_forall in Hn. specialize (Hn e He).
  apply (undo_match_spec semid semnum) in Hk. congruence.
Qed.

Definition umap_of (l : list undo) : umap := list_to_map (ubind <$> l).

Lemma ubind_fst (l : list undo) : (ubind <$> l).*1 = ukey <$> l.
Proof. by rewrite <- list_fmap_compose. Qed.

Lemma umap_of_perm l1 l2 : NoDup (ukey <$> l1) -> l1 ≡ₚ l2 -> umap_of l1 = umap_of l2.
Proof.
  intros Hnd Hp. apply list_to_map_proper; [by rewrite ubind_fst|]. by rewrite Hp.
Qed.

Lemma undo_map_perm su l :
  NoDup (ukey <$> active su) -> active su ≡ₚ l -> undo_map su = umap_of l.
Proof. apply umap_of_perm. Qed.

(** Removing one entry from the active ones. *)
Lemma undo_remove su e l :
  undo_wf su -> active su ≡ₚ (e :: l) ->
  ukey e ∉ (ukey <$> l) /\ NoDup (ukey <$> l) /\ Forall entry_ok l /\
  undo_map su = <[ukey e := un_adjval e]> (umap_of l) /\
  umap_of l = delete (ukey e) (undo_map su).
Proof.
  intros [_ _ Hk Ho] Hp. assert (Hnd : NoDup (ukey <$> e :: l)) by (by rewrite <- Hp).
  rewrite Hp in Ho. apply Forall_cons in Ho as [_ Ho].
  assert (Hm : undo_map su = <[ukey e := un_adjval e]> (umap_of l)).
  { by rewrite (undo_map_perm _ (e :: l)). }
  csimpl in Hnd. apply NoDup_cons in Hnd as [Hni Hnd]. repeat split; auto.
  rewrite Hm, delete_insert_id; [done|]. apply not_elem_of_list_to_map_1. by rewrite ubind_fst.
Qed.

Lemma undo_add_entry e l :
  ukey e ∉ (ukey <$> l) -> NoDup (ukey <$> l) -> umap_of (e :: l) = <[ukey e := un_adjval e]> (umap_of l).
Proof. done. Qed.

(** The active entries after each way of updating the array. *)
Lemma active_update su i e e' :
  undo_wf su -> aget (un_ent su) i = Some e -> 0 <= i < un_cnt su ->
  exists l, active su ≡ₚ (e :: l) /\
    active (su_set_ents su (un_cnt su) (aput (un_ent su) i e')) ≡ₚ (e' :: l).
Proof.
  intros Hwf He Hi. exists (delete (Z.to_nat i) (active su)).
  unfold aget, aput in *. rewrite (proj2 (Z.leb_le _ _)) in * by lia.
  assert (Ha : active su !! Z.to_nat i = Some e).
  { unfold active. rewrite lookup_take_lt by lia. done. }
  split; [by apply delete_Permutation|]. unfold active at 1. simpl.
  rewrite take_insert_lt by lia. fold (active su).
  assert (delete (Z.to_nat i) (<[Z.to_nat i:=e']> (active su)) = delete (Z.to_nat i) (active su)) as <-.
  { apply list_eq. intros j. rewrite !list_lookup_delete.
    case_match; rewrite list_lookup_insert_ne by lia; done. }
  apply delete_Permutation, list_lookup_insert_eq. by apply lookup_lt_Some in Ha.
Qed.

Lemma active_swap_remove su i e lst :
  undo_wf su -> aget (un_ent su) i = Some e -> 0 <= i < un_cnt su ->
  aget (un_ent su) (un_cnt su - 1) = Some lst ->
  active su ≡ₚ e :: active (su_set_ents su (un_cnt su - 1) (aput (un_ent su) i lst)).
Proof.
  intros Hwf He Hi Hl. pose proof (active_length _ Hwf) as Hal. unfold aget, aput in *.
  rewrite !(proj2 (Z.leb_le _ _)) in * by lia. unfold active at 2. simpl.
  set (n := Z.to_nat (un_cnt su - 1)) in *.
  replace (take n (<[Z.to_nat i:=lst]> (un_ent su)))
    with (take n (<[Z.to_nat i:=lst]> (active su))).
  - apply swap_remove_perm; unfold n; try lia; unfold active; rewrite lookup_take_lt by lia; done.
  - unfold active. rewrite <- take_insert_lt by lia. rewrite take_take. f_equal. unfold n. lia.
Qed.

Lemma active_append su e' :
  undo_wf su -> un_cnt su < SEMUME ->
  active (su_set_ents su (un_cnt su + 1) (aput (un_ent su) (un_cnt su) e')) = active su ++ [e'].
Proof.
  intros Hwf Hc. pose proof (uw_cnt _ Hwf). pose proof (uw_len _ Hwf). unfold active, aput. simpl.
  rewrite (proj2 (Z.leb_le _ _)) by lia.
  replace (Z.to_nat (un_cnt su + 1)) with (S (Z.to_nat (un_cnt su))) by lia.
  rewrite (take_S_r _ _ e').
  - by rewrite take_insert_ge by lia.
  - apply list_lookup_insert_eq. unfold SEMUME in *. lia.
Qed.

(** ** [semundo_adjust] on one vector *)

Definition adj_range (a : Z) : Prop := a <> 0 /\ - 2 ^ 15 <= a <= 2 ^ 15.

Lemma s16_adj_nz a : adj_range a -> s16 a <> 0.
Proof. unfold adj_range. wrap_lia. Qed.

Record adjusted (su su' : sem_undo) (k : Z * Z) (a : Z) : Prop := {
  adj_wf : undo_wf su';
  adj_next : un_next su' = un_next su;
  adj_proc : un_proc su' = un_proc su;
  adj_map : undo_map su' = umap_add (undo_map su) k a
}.

Lemma adjusted_found_keep su i e semid semnum a :
  undo_wf su -> aget (un_ent su) i = Some e -> 0 <= i < un_cnt su -> e ∈ active su ->
  ukey e = (semid, semnum) -> s16 (un_adjval e + a) <> 0 ->
  adjusted su (su_set_ents su (un_cnt su)
    (aput (un_ent su) i (mkUndo (s16 (un_adjval e + a)) (un_num e) (un_id e)))) (semid, semnum) a.
Proof.
  intros Hwf He Hi Hin Hk Hv. set (e' := mkUndo _ _ _).
  assert (Hke : ukey e' = ukey e) by done.
  destruct (active_update su i e e' Hwf He Hi) as (l & Hp & Hp').
  destruct (undo_remove su e l Hwf Hp) as (Hni & Hnd & Hok & Hm & _).
  assert (Hnd' : NoDup (ukey <$> (e' :: l))).
  { csimpl. rewrite Hke. by apply NoDup_cons. }
  split; [split|done|done|].
  - apply Hwf.
  - simpl. rewrite aput_length. apply Hwf.
  - by rewrite Hp'.
  - rewrite Hp'. constructor; [|done]. split; [done|apply s16_range].
  - rewrite (undo_map_perm _ (e' :: l)) by (done || by rewrite Hp').
    rewrite undo_add_entry by (done || by rewrite Hke). rewrite Hke, Hk in *. unfold umap_add.
    rewrite Hm, lookup_insert_eq. simpl.
    rewrite (proj2 (Z.eqb_neq _ _)) by done. by rewrite insert_insert_eq.
Qed.

Lemma adjusted_found_drop su i e lst semid semnum a :
  undo_wf su -> aget (un_ent su) i = Some e -> 0 <= i < un_cnt su ->
  aget (un_ent su) (un_cnt su - 1) = Some lst ->
  ukey e = (semid, semnum) -> s16 (un_adjval e + a) = 0 ->
  adjusted su (su_set_ents su (un_cnt su - 1) (aput (un_ent su) i lst)) (semid, semnum) a.
Proof.
  intros Hwf He Hi Hl Hk Hv. pose proof (uw_cnt _ Hwf).
  pose proof (active_swap_remove su i e lst Hwf He Hi Hl) as Hp.
  destruct (undo_remove su e _ Hwf Hp) as (Hni & Hnd & Hok & Hm & Hd).
  split; [split|done|done|]; auto.
  - simpl. unfold SEMUME in *. lia.
  - simpl. rewrite aput_length. apply Hwf.
  - unfold undo_map at 1. fold (umap_of (active (su_set_ents su (un_cnt su - 1) (aput (un_ent su) i lst)))).
    rewrite Hd, Hk. unfold umap_add. rewrite <- Hk, Hm, lookup_insert_eq. simpl. by rewrite Hv.
Qed.

Lemma adjusted_new su semid semnum a :
  undo_wf su -> un_cnt su < SEMUME -> undo_map su !! (semid, semnum) = None ->
  is_s16 semnum -> adj_range a ->
  adjusted su (su_set_ents su (un_cnt su + 1)
    (aput (un_ent su) (un_cnt su) (mkUndo (s16 a) (s16 semnum) semid))) (semid, semnum) a.
Proof.
  intros Hwf Hc Hnone Hsn Ha. rewrite (s16_id semnum) by done. set (e' := mkUndo _ _ _).
  pose proof (active_append su e' Hwf Hc) as Hap. pose proof (uw_cnt _ Hwf).
  assert (Hni : ukey e' ∉ (ukey <$> active su)).
  { rewrite <- ubind_fst. by apply not_elem_of_list_to_map. }
  assert (Hp : active (su_set_ents su (un_cnt su + 1) (aput (un_ent su) (un_cnt su) e')) ≡ₚ (e' :: active su)).
  { rewrite Hap. symmetry. apply Permutation_cons_append. }
  assert (Hnd' : NoDup (ukey <$> (e' :: active su))) by (csimpl; apply NoDup_cons; split; [done|apply Hwf]).
  split; [split|done|done|].
  - simpl. unfold SEMUME in *. lia.
  - simpl. rewrite aput_length. apply Hwf.
  - by rewrite Hp.
  - rewrite Hp. constructor; [|apply Hwf]. split; [by apply s16_adj_nz|apply s16_range].
  - rewrite (undo_map_perm _ (e' :: active su)) by (done || by rewrite Hp).
    rewrite undo_add_entry by (done || apply Hwf). unfold umap_add. rewrite Hnone. simpl.
    rewrite Z.add_0_l. rewrite (proj2 (Z.eqb_neq _ _)) by (by apply s16_adj_nz). done.
Qed.

(** Entries past the count do not matter. *)
Lemma adjusted_ents_ext su c e1 e2 k a :
  length e2 = length e1 -> take (Z.to_nat c) e2 = take (Z.to_nat c) e1 ->
  adjusted su (su_set_ents su c e1) k a -> adjusted su (su_set_ents su c e2) k a.
Proof.
  intros Hl Ht [[Hc Hlen Hnd Hok] Hn Hp Hm]. unfold undo_map, active in *. simpl in *.
  split; [split| | |]; unfold undo_map, active; simpl; rewrite ?Ht, ?Hl; auto.
Qed.

Lemma undo_entry_adjust_spec su semid semnum a :
  undo_wf su -> is_s16 semnum -> adj_range a ->
  exists r su', undo_entry_adjust semid semnum a su = Some (r, su') /\
    ((r = 0 /\ adjusted su su' (semid, semnum) a) \/
     (r = EINVAL /\ su' = su /\ undo_map su !! (semid, semnum) = None /\ un_cnt su = SEMUME)).
Proof.
  intros Hwf Hsn Ha. pose proof (uw_cnt _ Hwf) as Hc. pose proof (uw_len _ Hwf) as Hlen.
  unfold undo_entry_adjust. fold (active su). rewrite (proj2 (Z.eqb_neq a 0)) by apply Ha.
  destruct (first_idx _ (active su) 0) as [i|] eqn:Hf.
  - destruct (undo_search_found _ _ _ _ Hf) as (e & He & Hi & Hin & Hk). rewrite He.
    rewrite (s16_id (un_cnt su - 1)) by (unfold SEMUME in *; wrap_lia).
    destruct (Z.eqb_spec (s16 (un_adjval e + a)) 0) as [Hv|Hv].
    + destruct (aget_is_Some (un_ent su) (un_cnt su - 1)) as [lst Hl]; [lia|].
      assert (Hadj := adjusted_found_drop su i e lst semid semnum a Hwf He Hi Hl Hk Hv).
      destruct (Z.ltb_spec i (un_cnt su - 1)) as [Hlt|Hge].
      * rewrite aget_aput_ne, Hl, aput_aput by lia. eauto 10.
      * do 2 eexists. split; [done|]. left. split; [done|].
        eapply adjusted_ents_ext; [| |exact Hadj]; [by rewrite !aput_length|].
        unfold aput. rewrite !(proj2 (Z.leb_le _ _)) by lia. by rewrite !take_insert_ge by lia.
    + do 2 eexists. split; [done|]. left. split; [done|]. by eapply adjusted_found_keep.
  - pose proof (undo_search_none _ _ _ Hf) as Hnone.
    destruct (Z.eqb_spec (un_cnt su) SEMUME) as [Hm|Hm]; [eauto 10|].
    destruct (aget_is_Some (un_ent su) (un_cnt su)) as [x Hx]; [lia|]. rewrite Hx.
    rewrite (s16_id (un_cnt su + 1)) by (unfold SEMUME in *; wrap_lia).
    do 2 eexists. split; [done|]. left. split; [done|]. apply adjusted_new; auto. lia.
Qed.

Definition unext (s : semstate) (i : Z) : option Z := un_next <$> aget (semu s) i.

(** [rep s l f]: the active list visits the structures [l], and the pending
    adjustments of process [q] are [f q]. *)
Record rep (s : semstate) (l : list Z) (f : Z -> umap) : Prop := {
  rep_len : length (semu s) = semu_fuel;
  rep_chain : chain (unext s) (semu_list s) l;
  rep_nodup : NoDup l;
  rep_live : forall i su, aget (semu s) i = Some su -> (un_proc su <> 0 <-> i ∈ l);
  rep_ents : forall i su, aget (semu s) i = Some su -> Z.of_nat (length (un_ent su)) = SEMUME + 1;
  rep_wf : forall i su, i ∈ l -> aget (semu s) i = Some su -> undo_wf su;
  rep_inj : forall i j su sv, i ∈ l -> j ∈ l -> aget (semu s) i = Some su ->
    aget (semu s) j = Some sv -> un_proc su = un_proc sv -> i = j;
  rep_f : forall i su, i ∈ l -> aget (semu s) i = Some su -> f (un_proc su) = undo_map su;
  rep_none : forall q, (forall i su, i ∈ l -> aget (semu s) i = Some su -> un_proc su <> q) ->
    f q = ∅
}.

(** Everything but the undo vectors is the same. *)
Definition same_but_undo (s s' : semstate) : Prop :=
  s' = mkState (sema s) (sem_pool s) (semu s') (semu_list s') (semtot s)
               (semlock_holder s) (sem_errno s) (woken s).

#[export] Instance same_but_undo_preorder : PreOrder same_but_undo.
Proof.
  split.
  - by intros [].
  - intros [] [] []. unfold same_but_undo. simpl. intros [=] [=]. by subst.
Qed.

Lemma chain_In_nonneg nxt h l x : chain nxt h l -> x ∈ l -> 0 <= x /\ is_Some (nxt x).
Proof.
  induction 1 as [|a y l Ha Hn Hc IH]; [by intros ?%elem_of_nil|].
  intros [->|Hx]%elem_of_cons; [eauto|by apply IH].
Qed.

Section Rep.
  Context (s : semstate) (l : list Z) (f : Z -> umap) (Hrep : rep s l f).

Lemma rep_get i : i ∈ l -> exists su, aget (semu s) i = Some su.
  Proof.
    intros Hi. destruct (chain_In_nonneg _ _ _ _ (rep_chain _ _ _ Hrep) Hi) as [_ [y Hy]].
    unfold unext in Hy. destruct (aget (semu s) i); [eauto|done].
  Qed.

Lemma rep_range i : i ∈ l -> 0 <= i < SEMMNU.
  Proof.
    intros [su Hsu%aget_Some_range]%rep_get. rewrite (rep_len _ _ _ Hrep) in Hsu.
    unfold semu_fuel, SEMMNU in *. lia.
  Qed.

Lemma rep_length : (length l <= semu_fuel)%nat.
  Proof.
    apply NoDup_index_length; [apply Hrep|]. intros x Hx%rep_range.
    unfold semu_fuel, SEMMNU in *. lia.
  Qed.
End Rep.

(** ** Searching *)

Definition link_of (pre : list Z) : Z := default NIL (last pre).

Lemma get_link_of s pre rest f :
  rep s (pre ++ rest) f -> get_link s (link_of pre) = Some (hd NIL rest).
Proof.
  intros Hrep. destruct (chain_app_inv _ _ _ _ (rep_chain _ _ _ Hrep)) as [_ Hl].
  unfold get_link, link_of. destruct (last pre) as [x|] eqn:Hlast; simpl.
  - rewrite (proj2 (Z.eqb_neq _ _)); [done|]. apply last_Some_elem_of in Hlast.
    assert (x ∈ pre ++ rest) as [? _]%(rep_range _ _ _ Hrep) by set_solver. unfold NIL. lia.
  - by rewrite Hl.
Qed.

Lemma link_of_snoc pre x : link_of (pre ++ [x]) = x.
Proof. unfold link_of. by rewrite last_snoc. Qed.

Lemma semu_find_spec s f p rest pre fuel :
  rep s (pre ++ rest) f -> (length rest <= fuel)%nat ->
  (exists r1 x r2 su, rest = r1 ++ x :: r2 /\ aget (semu s) x = Some su /\ un_proc su = p /\
     semu_find fuel p (link_of pre) s = Ret (link_of (pre ++ r1), x) s) \/
  ((forall i su, i ∈ rest -> aget (semu s) i = Some su -> un_proc su <> p) /\
   exists lk, semu_find fuel p (link_of pre) s = Ret (lk, NIL) s).
Proof.
  revert pre fuel. induction rest as [|x rest IH]; intros pre fuel Hrep Hf.
  - right. split; [by intros ? ? ?%elem_of_nil|]. exists (link_of pre).
    destruct fuel; simpl; rewrite (get_link_of _ _ _ _ Hrep); done.
  - destruct fuel as [|fuel]; [simpl in Hf; lia|].
    destruct (rep_get _ _ _ Hrep x) as [su Hsu]; [set_solver|].
    destruct (rep_range _ _ _ Hrep x) as [Hx _]; [set_solver|].
    assert (Hnil : (x =? NIL) = false) by (apply Z.eqb_neq; unfold NIL; lia).
    simpl. rewrite (get_link_of _ _ _ _ Hrep). simpl. rewrite Hnil, Hsu.
    destruct (Z.eqb_spec (un_proc su) p) as [Hp|Hp].
    + left. exists [], x, rest, su. rewrite app_nil_r. eauto.
    + assert (Hrep' : rep s ((pre ++ [x]) ++ rest) f) by (by rewrite <- app_assoc).
      destruct (IH (pre ++ [x]) fuel Hrep') as [(r1 & y & r2 & sv & -> & Hy & Hpy & Heq)|[Hno Heq]];
        [simpl in Hf; lia|rewrite link_of_snoc in Heq..].
      * left. exists (x :: r1), y, r2, sv. rewrite Heq, <- app_assoc. eauto.
      * right. split; [|done]. intros i sv [->|Hi]%elem_of_cons Hsv; [congruence|eauto].
Qed.

(** ** Unlinking *)

Definition fset (f : Z -> umap) (p : Z) (m : umap) : Z -> umap :=
  fun q => if decide (q = p) then m else f q.

Lemma aget_set_link s lnk v i :
  aget (semu (set_link s lnk v)) i =
  (fun u => if decide (i = lnk) then su_set_next u v else u) <$> aget (semu s) i.
Proof.
  unfold set_link. destruct (Z.eqb_spec lnk NIL) as [->|Hne].
  - simpl. destruct (aget (semu s) i) eqn:Hi; [|done]. simpl. rewrite decide_False; [done|].
    apply aget_Some_range in Hi. unfold NIL. lia.
  - destruct (aget (semu s) lnk) as [u|] eqn:Hu.
    + simpl. rewrite (aget_aput _ _ _ _ u Hu). destruct (Z.eqb_spec lnk i) as [->|Hi].
      * rewrite Hu. simpl. by rewrite decide_True.
      * destruct (aget (semu s) i); [|done]. simpl. by rewrite decide_False.
    + destruct (aget (semu s) i) eqn:Hi; [|done]. simpl. rewrite decide_False; [done|]. congruence.
Qed.

Lemma set_link_head s lnk v : semu_list (set_link s lnk v) = if lnk =? NIL then v else semu_list s.
Proof. unfold set_link. case_match; [done|]. by case_match. Qed.

Lemma set_link_length s lnk v : length (semu (set_link s lnk v)) = length (semu s).
Proof. unfold set_link. case_match; [done|]. case_match; [|done]. apply aput_length. Qed.

Lemma set_link_frame s lnk v : same_but_undo s (set_link s lnk v).
Proof. unfold set_link. case_match; [by destruct s|]. case_match; by destruct s. Qed.

Definition unlink (s : semstate) (lnk x : Z) (su : sem_undo) : semstate :=
  set_link (put_undo s x (su_set_proc su 0)) lnk (un_next su).

(** The structures after an unlink: only links and the owner of [x] change. *)
Lemma aget_unlink s lnk x su i u' :
  aget (semu s) x = Some su -> aget (semu (unlink s lnk x su)) i = Some u' ->
  exists u, aget (semu s) i = Some u /\ un_cnt u' = un_cnt u /\ un_ent u' = un_ent u /\
    un_proc u' = (if decide (i = x) then 0 else un_proc u) /\
    un_next u' = (if decide (i = lnk) then un_next su else un_next u).
Proof.
  intros Hsu. unfold unlink. rewrite aget_set_link. simpl. rewrite (aget_aput _ _ _ _ su Hsu).
  destruct (Z.eqb_spec x i) as [->|Hne].
  - simpl. intros [= <-]. exists su. rewrite (decide_True (P := i = i)) by done. by case_decide.
  - destruct (aget (semu s) i) as [u|]; [|done]. simpl. intros [= <-]. exists u.
    rewrite (decide_False (P := i = x)) by congruence. by case_decide.
Qed.

Lemma undo_map_same u u' :
  un_cnt u' = un_cnt u -> un_ent u' = un_ent u -> undo_map u' = undo_map u.
Proof. intros Hc He. unfold undo_map, active. by rewrite Hc, He. Qed.

Lemma undo_wf_same u u' :
  un_cnt u' = un_cnt u -> un_ent u' = un_ent u -> undo_wf u -> undo_wf u'.
Proof. intros Hc He []. split; unfold active in *; rewrite ?Hc, ?He; auto. Qed.

Lemma aget_unlink_member s pre x su (l : list Z) i u' :
  x ∉ l -> aget (semu s) x = Some su -> i ∈ l ->
  aget (semu (unlink s (link_of pre) x su)) i = Some u' ->
  exists u, aget (semu s) i = Some u /\ un_cnt u' = un_cnt u /\ un_ent u' = un_ent u /\
            un_proc u' = un_proc u.
Proof.
  intros Hx Hsu Hi Hu'. destruct (aget_unlink _ _ _ _ _ _ Hsu Hu') as (u & Hu & Hc & He & Hp & _).
  exists u. repeat split; auto. rewrite Hp, decide_False; [done|]. by intros ->.
Qed.

Lemma unlink_chain s pre x rest f su :
  rep s (pre ++ x :: rest) f -> aget (semu s) x = Some su -> x ∉ pre ++ rest ->
  chain (unext (unlink s (link_of pre) x su)) (semu_list (unlink s (link_of pre) x su))
        (pre ++ rest).
Proof.
  intros Hrep Hsu Hx.
  eapply chain_unlink; [apply Hrep|apply Hrep|unfold unext; by rewrite Hsu| |].
  - destruct (last pre) as [z|] eqn:Hz.
    + assert (Hzp : z ∈ pre) by (by apply last_Some_elem_of).
      destruct (rep_get _ _ _ Hrep z) as [sz Hsz]; [set_solver|].
      assert (Hl : link_of pre = z) by (unfold link_of; by rewrite Hz).
      split.
      * unfold unext, unlink. rewrite Hl, aget_set_link. simpl.
        rewrite aget_aput_ne by set_solver. rewrite Hsz. simpl. by rewrite decide_True.
      * unfold unlink. rewrite set_link_head, Hl, (proj2 (Z.eqb_neq _ _)); [done|].
        apply aget_Some_range in Hsz. unfold NIL. lia.
    + unfold unlink. rewrite set_link_head. unfold link_of. by rewrite Hz.
  - intros z Hz Hne. unfold unext, unlink. rewrite aget_set_link. simpl.
    rewrite aget_aput_ne by set_solver. destruct (aget (semu s) z) as [u|] eqn:Hu; [|done].
    simpl. rewrite decide_False; [done|]. intros ->. apply Hne. unfold link_of in *.
    destruct (last pre); [done|]. apply aget_Some_range in Hu. unfold NIL in Hu. simpl in Hu. lia.
Qed.

Lemma unlink_length s lnk x su : length (semu (unlink s lnk x su)) = length (semu s).
Proof. unfold unlink. rewrite set_link_length. apply aput_length. Qed.

Lemma unlink_frame s lnk x su : same_but_undo s (unlink s lnk x su).
Proof. etrans; [|apply set_link_frame]. by destruct s. Qed.

(** Unlinking a structure forgets the adjustments of its owner, only. *)
Lemma rep_unlink s pre x rest f su :
  rep s (pre ++ x :: rest) f -> aget (semu s) x = Some su ->
  rep (unlink s (link_of pre) x su) (pre ++ rest) (fset f (un_proc su) ∅).
Proof.
  intros Hrep Hsu. pose proof (rep_nodup _ _ _ Hrep) as Hnd.
  apply NoDup_app in Hnd as (Hnd1 & Hd & [Hnx Hnd2]%NoDup_cons).
  assert (Hx : x ∉ pre ++ rest) by set_solver.
  assert (Hsub : forall i, i ∈ pre ++ rest -> i ∈ pre ++ x :: rest) by set_solver.
  assert (Hget := fun i u' => aget_unlink_member s pre x su (pre ++ rest) i u' Hx Hsu).
  split.
  - rewrite unlink_length. apply Hrep.
  - by eapply unlink_chain.
  - apply NoDup_app. set_solver.
  - intros i u' Hu'. destruct (aget_unlink _ _ _ _ _ _ Hsu Hu') as (u & Hu & _ & _ & Hp & _).
    rewrite Hp. pose proof (rep_live _ _ _ Hrep _ _ Hu). case_decide; set_solver.
  - intros i u' Hu'. destruct (aget_unlink _ _ _ _ _ _ Hsu Hu') as (u & Hu & _ & He & _).
    rewrite He. by eapply rep_ents.
  - intros i u' Hi Hu'. destruct (Hget _ _ Hi Hu') as (u & Hu & Hc & He & _).
    eapply undo_wf_same; [done..|]. eapply rep_wf; eauto.
  - intros i j ui uj Hi Hj Hui Huj Heq.
    destruct (Hget _ _ Hi Hui) as (u & Hu & _ & _ & Hp), (Hget _ _ Hj Huj) as (v & Hv & _ & _ & Hq).
    apply (rep_inj _ _ _ Hrep i j u v); auto; congruence.
  - intros i u' Hi Hu'. destruct (Hget _ _ Hi Hu') as (u & Hu & Hc & He & Hp).
    rewrite Hp, (undo_map_same u) by done. unfold fset. rewrite decide_False; [by eapply rep_f; eauto|].
    intros Heq. apply Hx. rewrite <- (rep_inj _ _ _ Hrep i x u su); auto; set_solver.
  - intros q Hq. unfold fset. case_decide; [done|]. eapply rep_none; [done|].
    intros i u Hi Hu. destruct (decide (i = x)) as [->|Hne]; [congruence|].
    destruct (aget_is_Some (semu (unlink s (link_of pre) x su)) i) as [u' Hu'].
    { rewrite unlink_length. by eapply aget_Some_range. }
    assert (Hi' : i ∈ pre ++ rest) by set_solver.
    destruct (Hget _ _ Hi' Hu') as (u0 & Hu0 & _ & _ & Hp). rewrite Hu in Hu0. simplify_eq.
    rewrite <- Hp. eauto.
Qed.

(** ** Changing the entries of one structure *)

Lemma put_undo_frame s i u : same_but_undo s (put_undo s i u).
Proof. by destruct s. Qed.

(** Replacing the entries of a structure, owner and link kept. *)
Lemma rep_replace s l f i su su' :
  rep s l f -> i ∈ l -> aget (semu s) i = Some su -> undo_wf su' ->
  un_next su' = un_next su -> un_proc su' = un_proc su ->
  rep (put_undo s i su') l (fset f (un_proc su) (undo_map su')).
Proof.
  intros Hrep Hi Hsu Hwf Hn Hp.
  assert (Hget : forall j u, aget (semu (put_undo s i su')) j = Some u ->
    (j = i /\ u = su') \/ (j <> i /\ aget (semu s) j = Some u)).
  { intros j u. simpl. rewrite (aget_aput _ _ _ _ su Hsu).
    destruct (Z.eqb_spec i j); intros; simplify_eq; auto. }
  split.
  - simpl. rewrite aput_length. apply Hrep.
  - eapply chain_ext; [apply Hrep|]. intros x Hx. unfold unext. simpl.
    rewrite (aget_aput _ _ _ _ su Hsu). destruct (Z.eqb_spec i x) as [<-|]; [|done].
    rewrite Hsu. simpl. by rewrite Hn.
  - apply Hrep.
  - intros j u [[-> ->]|[Hne Hu]]%Hget; [|by eapply rep_live].
    rewrite Hp. by eapply rep_live.
  - intros j u [[-> ->]|[Hne Hu]]%Hget; [apply Hwf|by eapply rep_ents].
  - intros j u Hj [[-> ->]|[Hne Hu]]%Hget; [done|by eapply rep_wf].
  - intros j1 j2 u1 u2 Hj1 Hj2 H1%Hget H2%Hget Heq.
    destruct H1 as [[-> ->]|[Hne1 H1]], H2 as [[-> ->]|[Hne2 H2]]; try done.
    + rewrite Hp in Heq. by eapply rep_inj.
    + rewrite Hp in Heq. by eapply rep_inj.
    + by eapply rep_inj.
  - intros j u Hj [[-> ->]|[Hne Hu]]%Hget; unfold fset.
    + rewrite Hp. by rewrite decide_True.
    + rewrite decide_False; [by eapply rep_f|]. intros Heq. apply Hne. by eapply rep_inj.
  - intros q Hq. unfold fset. rewrite decide_False.
    + eapply rep_none; [done|]. intros j u Hj Hu. destruct (decide (j = i)) as [->|Hne].
      * simplify_eq. rewrite <- Hp. eapply Hq; [done|]. simpl. by erewrite aget_aput_eq.
      * eapply Hq; [done|]. simpl. by rewrite aget_aput_ne.
    + intros ->. eapply (Hq i su'); [done| |done]. simpl. by erewrite aget_aput_eq.
Qed.

Lemma rep_adjust s l f i su su' k a :
  rep s l f -> i ∈ l -> aget (semu s) i = Some su -> adjusted su su' k a ->
  rep (put_undo s i su') l (fset f (un_proc su) (umap_add (f (un_proc su)) k a)).
Proof.
  intros Hrep Hi Hsu [Hwf Hn Hp Hm]. rewrite (rep_f _ _ _ Hrep i su) by done.
  rewrite <- Hm. by apply rep_replace.
Qed.

(** ** Allocating *)

Definition unowned (s : semstate) (l : list Z) (p : Z) : Prop :=
  forall j su, j ∈ l -> aget (semu s) j = Some su -> un_proc su <> p.

Lemma semu_take_rep s l f p i s' :
  rep s l f -> p <> 0 -> unowned s l p -> semu_take p s = Some (i, s') ->
  rep s' (i :: l) f /\ same_but_undo s s' /\
  exists su, aget (semu s') i = Some su /\ un_proc su = p.
Proof.
  intros Hrep Hp Hun. unfold semu_take.
  destruct (first_idx _ _ _) as [i0|] eqn:Hf; [|done].
  apply first_idx_Some in Hf as (su & Hi0 & Hsu & Hz & _). rewrite Z.sub_0_r in Hsu. rewrite Hsu.
  intros [= <- <-]. apply Z.eqb_eq in Hz.
  assert (Hnil : i0 ∉ l) by (rewrite <- (rep_live _ _ _ Hrep _ _ Hsu); lia).
  set (su' := mkSemUndo (semu_list s) p 0 (un_ent su)).
  assert (Hact : active su' = []) by done.
  assert (Hget : forall j u, aget (aput (semu s) i0 su') j = Some u ->
    (j = i0 /\ u = su') \/ (j <> i0 /\ aget (semu s) j = Some u)).
  { intros j u. rewrite (aget_aput _ _ _ _ su Hsu).
    destruct (Z.eqb_spec i0 j); intros; simplify_eq; auto. }
  split; [|split; [by destruct s|exists su'; split; [simpl; by erewrite aget_aput_eq|done]]].
  assert (Hwf' : undo_wf su').
  { split; [unfold SEMUME; simpl; lia|exact (rep_ents _ _ _ Hrep _ _ Hsu)|rewrite Hact; constructor|by rewrite Hact]. }
  split; simpl.
  - rewrite aput_length. apply Hrep.
  - econstructor; [lia| |].
    + unfold unext. simpl. by erewrite aget_aput_eq.
    + eapply chain_ext; [apply Hrep|]. intros x Hx. unfold unext. simpl.
      rewrite aget_aput_ne; [done|]. by intros ->.
  - apply NoDup_cons. split; [done|apply Hrep].
  - intros j u [[-> ->]|[Hne Hu]]%Hget; [set_solver|].
    rewrite (rep_live _ _ _ Hrep _ _ Hu). set_solver.
  - intros j u [[-> ->]|[Hne Hu]]%Hget; [apply Hwf'|by eapply rep_ents].
  - intros j u Hj [[-> ->]|[Hne Hu]]%Hget; [done|]. eapply rep_wf; [done| |done]. set_solver.
  - intros j1 j2 u1 u2 Hj1 Hj2 H1%Hget H2%Hget Heq.
    destruct H1 as [[-> ->]|[Hne1 H1]], H2 as [[-> ->]|[Hne2 H2]]; try done.
    + exfalso. eapply (Hun j2); [set_solver|done|]. by simpl in Heq.
    + exfalso. eapply (Hun j1); [set_solver|done|]. by simpl in Heq.
    + eapply rep_inj; [done| | |done|done|done]; set_solver.
  - intros j u Hj [[-> ->]|[Hne Hu]]%Hget.
    + simpl. by rewrite (rep_none _ _ _ Hrep).
    + eapply rep_f; [done| |done]. set_solver.
  - intros q Hq. eapply rep_none; [done|]. intros j u Hj Hu. apply (Hq j); [set_solver|].
    rewrite aget_aput_ne; [done|]. by intros ->.
Qed.

Lemma semu_take_None s l f p :
  rep s l f -> semu_take p s = None -> forall i, 0 <= i < SEMMNU -> i ∈ l.
Proof.
  intros Hrep. unfold semu_take. destruct (first_idx _ _ _) as [i0|] eqn:Hf.
  - apply first_idx_Some in Hf as (su & Hi0 & Hsu & Hz & _). rewrite Z.sub_0_r in Hsu.
    by rewrite Hsu.
  - intros _ i Hi. apply first_idx_None in Hf.
    destruct (aget_is_Some (semu s) i) as [u Hu].
    { rewrite (rep_len _ _ _ Hrep). unfold semu_fuel, SEMMNU in *. lia. }
    apply (rep_live _ _ _ Hrep _ _ Hu). eapply Forall_aget in Hf; [|done]. by apply Z.eqb_neq.
Qed.

Lemma fset_id s l f i su :
  rep s l f -> i ∈ l -> aget (semu s) i = Some su -> un_cnt su = 0 ->
  forall q, fset f (un_proc su) ∅ q = f q.
Proof.
  intros Hrep Hi Hsu Hc q. unfold fset. case_decide; [subst|done].
  rewrite (rep_f _ _ _ Hrep i su) by done. unfold undo_map, active. by rewrite Hc.
Qed.

Lemma rep_fext s l f g : rep s l f -> (forall q, g q = f q) -> rep s l g.
Proof.
  intros [] Hfg. split; auto; intros; rewrite Hfg; eauto.
Qed.

(** Purging keeps the adjustments and, when it frees something, leaves a free
    structure. *)
Lemma semu_purge_spec f rest pre fuel did s :
  rep s (pre ++ rest) f -> (length rest <= fuel)%nat ->
  exists did' s' rest', semu_purge fuel (link_of pre) did s = Ret did' s' /\
    rep s' (pre ++ rest') f /\ same_but_undo s s' /\
    (forall x, x ∈ rest' -> x ∈ rest) /\
    (forall j u', j ∈ pre ++ rest' -> aget (semu s') j = Some u' ->
       exists u, aget (semu s) j = Some u /\ un_proc u' = un_proc u) /\
    (did' = true -> did = true \/ exists x, x ∈ rest /\ x ∉ pre ++ rest') /\
    (did' = false -> s' = s /\ did = false /\ forall x u, x ∈ rest -> aget (semu s) x = Some u -> un_cnt u <> 0).
Proof.
  revert pre fuel did s. induction rest as [|x rest IH]; intros pre fuel did s Hrep Hf.
  - exists did, s, [].
    assert (semu_purge fuel (link_of pre) did s = Ret did s) as ->.
    { destruct fuel; simpl; by rewrite (get_link_of _ _ _ _ Hrep). }
    do 3 (split; [done|]). split; [done|]. split; [eauto|]. split; [auto|]. set_solver.
  - destruct fuel as [|fuel]; simpl in Hf; [lia|].
    destruct (rep_get _ _ _ Hrep x) as [su Hsu]; [set_solver|].
    destruct (rep_range _ _ _ Hrep x) as [Hx _]; [set_solver|].
    assert (Hnil : (x =? NIL) = false) by (apply Z.eqb_neq; unfold NIL; lia).
    simpl. rewrite (get_link_of _ _ _ _ Hrep). simpl. rewrite Hnil, Hsu.
    destruct (Z.eqb_spec (un_cnt su) 0) as [Hc|Hc].
    + assert (Hrep1 : rep (unlink s (link_of pre) x su) (pre ++ rest) f).
      { eapply rep_fext; [by apply rep_unlink|]. intros q. symmetry.
        eapply fset_id; [done| |done|done]. set_solver. }
      assert (Hxn : x ∉ pre ++ rest).
      { pose proof (rep_nodup _ _ _ Hrep) as (? & ? & [? ?]%NoDup_cons)%NoDup_app. set_solver. }
      destruct (IH pre fuel true _ Hrep1) as (did' & s' & rest' & Heq & Hr & Hfr & Hsub & Hown & Ht & Hfa);
        [lia|].
      exists did', s', rest'. unfold unlink in Heq. split; [done|]. split; [done|].
      split; [etrans; [apply unlink_frame|done]|]. split; [set_solver|]. split; [|split].
      * intros j u' Hj Hu'. destruct (Hown j u' Hj Hu') as (u1 & Hu1 & Hp1).
        assert (j ∈ pre ++ rest) as Hj' by set_solver.
        destruct (aget_unlink_member s pre x su _ j u1 Hxn Hsu Hj' Hu1) as (u & Hu & _ & _ & Hp).
        exists u. split; [done|congruence].
      * intros _. right. exists x. set_solver.
      * intros (_ & Hd & _)%Hfa. done.
    + assert (Hrep1 : rep s ((pre ++ [x]) ++ rest) f) by (by rewrite <- app_assoc).
      destruct (IH (pre ++ [x]) fuel did _ Hrep1)
        as (did' & s' & rest' & Heq & Hr & Hfr & Hsub & Hown & Ht & Hfa); [lia|].
      rewrite link_of_snoc in Heq. exists did', s', (x :: rest').
      rewrite <- app_assoc in Hr, Hown, Ht. simpl in *.
      split; [done|]. split; [done|]. split; [done|]. split; [set_solver|]. split; [done|].
      split; [intros [?|(y & Hy & Hy')]%Ht; [by left|]; right; exists y; set_solver|].
      intros (-> & -> & Hc')%Hfa. split; [done|]. split; [done|].
      intros y u [->|Hy]%elem_of_cons Hu; [by simplify_eq|by eapply Hc'].
Qed.

(** Every structure belongs to another process that has adjustments. *)
Definition undo_full (f : Z -> umap) (p : Z) : Prop :=
  exists qs, length qs = semu_fuel /\ NoDup qs /\ forall q, q ∈ qs -> q <> 0 /\ q <> p /\ f q <> ∅.

Lemma all_used s l f p :
  rep s l f -> unowned s l p -> (forall i, 0 <= i < SEMMNU -> i ∈ l) ->
  (forall x u, x ∈ l -> aget (semu s) x = Some u -> un_cnt u <> 0) -> undo_full f p.
Proof.
  intros Hrep Hun Hall Hc. exists (un_proc <$> semu s).
  assert (forall n u, semu s !! n = Some u -> Z.of_nat n ∈ l /\ aget (semu s) (Z.of_nat n) = Some u) as Hin.
  { intros n u Hu. pose proof (lookup_lt_Some _ _ _ Hu) as Hlt. rewrite (rep_len _ _ _ Hrep) in Hlt.
    split; [apply Hall; unfold semu_fuel in Hlt; lia|]. unfold aget. rewrite (proj2 (Z.leb_le _ _)) by lia. by rewrite Nat2Z.id. }
  split_and!.
  - by rewrite length_fmap, (rep_len _ _ _ Hrep).
  - apply NoDup_alt. intros i j q. rewrite !list_lookup_fmap.
    destruct (semu s !! i) as [u|] eqn:Hi; [|done]. destruct (semu s !! j) as [u'|] eqn:Hj; [|done].
    intros [= <-] [= Heq]. destruct (Hin i u Hi) as [Hl Hu], (Hin j u' Hj) as [Hl' Hu'].
    assert (Z.of_nat i = Z.of_nat j) by (by eapply (rep_inj _ _ _ Hrep)). lia.
  - intros q (u & -> & (n & Hn)%list_elem_of_lookup)%list_elem_of_fmap. destruct (Hin n u Hn) as [Hl Hu]. split_and!.
    + by apply (rep_live _ _ _ Hrep _ _ Hu).
    + by eapply Hun.
    + rewrite (rep_f _ _ _ Hrep _ _ Hl Hu). intros E. pose proof (undo_map_size u (rep_wf _ _ _ Hrep _ _ Hl Hu)) as Hs.
      rewrite E, map_size_empty in Hs. by apply (Hc _ _ Hl Hu).
Qed.

(** The allocation of a structure for a process that has none: either a
    structure is linked in, or there is none left and nothing changed.  The
    panic of the second attempt is not reached. *)
Lemma semu_alloc_spec s l f p :
  rep s l f -> p <> 0 -> unowned s l p ->
  (exists i s' l' su, semu_alloc p s = Ret i s' /\ rep s' (i :: l') f /\ same_but_undo s s' /\
     aget (semu s') i = Some su /\ un_proc su = p) \/
  semu_alloc p s = Ret NIL s /\ undo_full f p.
Proof.
  intros Hrep Hp Hun. unfold semu_alloc. destruct (semu_take p s) as [[i s']|] eqn:Ht.
  { left. destruct (semu_take_rep _ _ _ _ _ _ Hrep Hp Hun Ht) as (Hr & Hfr & su & Hsu & Hpr).
    exists i, s', l, su. done. }
  destruct (semu_purge_spec f l [] semu_fuel false s Hrep (rep_length _ _ _ Hrep))
    as (did & s1 & l1 & Heq & Hr1 & Hfr1 & Hsub & Hown & Hdid & Hnd).
  change (link_of []) with NIL in Heq. rewrite Heq. cbn [obind].
  rewrite app_nil_l in Hr1, Hdid. destruct did.
  - left. destruct Hdid as [?|(x & Hx & Hx')]; [done|done|].
    destruct (semu_take p s1) as [[i s']|] eqn:Ht1.
    + assert (Hun1 : unowned s1 l1 p).
      { intros j su Hj Hsu. destruct (Hown j su Hj Hsu) as (u & Hu & ->). eauto. }
      destruct (semu_take_rep _ _ _ _ _ _ Hr1 Hp Hun1 Ht1) as (Hr & Hfr & su & Hsu & Hpr).
      exists i, s', l1, su. split; [done|]. split; [done|]. split; [by etrans|done].
    + exfalso. apply Hx'. eapply semu_take_None; [done|done|]. exact (rep_range _ _ _ Hrep x Hx).
  - right. destruct (Hnd eq_refl) as (-> & _ & Hc). split; [done|].
    apply (all_used s l f p Hrep Hun); [by eapply semu_take_None|exact Hc].
Qed.

(** ** [semundo_adjust] *)

Definition owned (s : semstate) (l : list Z) (p suptr : Z) : Prop :=
  suptr ∈ l /\ exists su, aget (semu s) suptr = Some su /\ un_proc su = p.

(** What [semundo_adjust] promises: the adjustment is added to the map of the
    process, or nothing happens for want of room. *)
Definition adjust_post (s : semstate) (f : Z -> umap) (p suptr0 : Z) (k : Z * Z) (a : Z)
  (r : outcome semstate (Z * Z)) : Prop :=
  exists e suptr s' l', r = Ret (e, suptr) s' /\ same_but_undo s s' /\
    ((e = 0 /\ rep s' l' (fset f p (umap_add (f p) k a)) /\ owned s' l' p suptr) \/
     (e = EINVAL /\ rep s' l' f /\ owned s' l' p suptr /\
        f p !! k = None /\ Z.of_nat (size (f p)) = SEMUME) \/
     (e = ENOSPC /\ rep s' l' f /\ suptr = NIL /\ suptr0 = NIL /\ undo_full f p)).

Lemma adjust_entry_spec s l f p suptr suptr0 semid semnum a :
  rep s l f -> owned s l p suptr -> is_s16 semnum -> adj_range a ->
  adjust_post s f p suptr0 (semid, semnum) a
    (let? su := aget (semu s) suptr in
     let? r := undo_entry_adjust semid semnum a su in
     Ret (fst r, suptr) (put_undo s suptr (snd r))).
Proof.
  intros Hrep [Hin (su & Hsu & Hp)] Hsn Ha. rewrite Hsu.
  assert (Hwf : undo_wf su) by (by eapply rep_wf).
  destruct (undo_entry_adjust_spec su semid semnum a Hwf Hsn Ha)
    as (r & su' & -> & [[-> Hadj]|(-> & -> & Hnone & Hfull)]).
  - exists 0, suptr, (put_undo s suptr su'), l. split; [done|]. split; [apply put_undo_frame|].
    left. split; [done|]. split.
    + rewrite <- Hp. by apply rep_adjust.
    + split; [done|]. exists su'. simpl. erewrite aget_aput_eq by done. split; [done|].
      by rewrite (adj_proc _ _ _ _ Hadj).
  - assert (Hid : put_undo s suptr su = s).
    { unfold put_undo. rewrite aput_same by done. by destruct s. }
    exists EINVAL, suptr, s, l. simpl. rewrite Hid. split; [done|]. split; [done|].
    right. left. rewrite <- Hp, (rep_f _ _ _ Hrep suptr su) by done.
    split; [done|]. split; [done|]. split; [split; [done|by exists su]|].
    split; [done|]. by rewrite undo_map_size.
Qed.

(** Finding the structure of the process in the active list. *)
Lemma semu_find_head s l f p :
  rep s l f ->
  (exists lk x, semu_find semu_fuel p NIL s = Ret (lk, x) s /\ owned s l p x /\
     exists pre rest, l = pre ++ x :: rest /\ lk = link_of pre) \/
  (unowned s l p /\ exists lk, semu_find semu_fuel p NIL s = Ret (lk, NIL) s).
Proof.
  intros Hrep.
  destruct (semu_find_spec s f p l [] semu_fuel Hrep (rep_length _ _ _ Hrep))
    as [(r1 & x & r2 & su & -> & Hsu & Hp & Heq)|[Hno [lk Heq]]].
  - left. exists (link_of r1), x. split; [done|]. split; [split; [set_solver|by exists su]|].
    by exists r1, r2.
  - right. split; [done|]. by exists lk.
Qed.

Lemma owned_not_NIL s l f p x : rep s l f -> owned s l p x -> (x =? NIL) = false.
Proof.
  intros Hrep [Hx _]. apply Z.eqb_neq. destruct (rep_range _ _ _ Hrep x Hx). unfold NIL. lia.
Qed.

Definition suptr_ok (s : semstate) (l : list Z) (p suptr : Z) : Prop :=
  suptr = NIL \/ owned s l p suptr.

Lemma semundo_adjust_spec s l f p suptr semid semnum a :
  rep s l f -> p <> 0 -> suptr_ok s l p suptr -> is_s16 semnum -> adj_range a ->
  adjust_post s f p suptr (semid, semnum) a (semundo_adjust p suptr semid semnum a s).
Proof.
  intros Hrep Hp Hok Hsn Ha. unfold semundo_adjust.
  rewrite (proj2 (Z.eqb_neq a 0)) by apply Ha. destruct Hok as [->|Hown].
  - destruct (semu_find_head s l f p Hrep) as [(lk & x & -> & Hown & _)|[Hun [lk ->]]]; cbn [obind snd].
    + rewrite (owned_not_NIL _ _ _ _ _ Hrep Hown). by eapply adjust_entry_spec.
    + destruct (semu_alloc_spec s l f p Hrep Hp Hun) as [(i & s' & l' & su & -> & Hr & Hfr & Hsu & Hpr)|[-> Hfull]];
        cbn [obind].
      * assert (Hown : owned s' (i :: l') p i) by (split; [set_solver|by exists su]).
        change (NIL =? NIL) with true. cbn iota. rewrite (owned_not_NIL _ _ _ _ _ Hr Hown).
        destruct (adjust_entry_spec s' (i :: l') f p i NIL semid semnum a Hr Hown Hsn Ha)
          as (e & sp & s2 & l2 & Heq & Hfr2 & Hcase).
        exists e, sp, s2, l2. split; [done|]. split; [by etrans|done].
      * exists ENOSPC, NIL, s, l. split; [done|]. split; [done|]. right. right. done.
  - rewrite (owned_not_NIL _ _ _ _ _ Hrep Hown). by eapply adjust_entry_spec.
Qed.

(** An adjustment of 0 deletes the entry. *)
Lemma undo_entry_zero su semid semnum v :
  undo_wf su -> undo_map su !! (semid, semnum) = Some v ->
  adj_range (- v) /\ umap_add (undo_map su) (semid, semnum) (- v) = delete (semid, semnum) (undo_map su) /\
  undo_entry_adjust semid semnum 0 su = undo_entry_adjust semid semnum (- v) su.
Proof.
  intros Hwf Hv. destruct (undo_map_ok _ Hwf _ _ Hv) as [Hnz Hs16].
  assert (adj_range (- v)) as Ha by (unfold adj_range; wrap_unfold; lia).
  assert (s16 (v + - v) = 0) as Hz by (rewrite Z.add_opp_diag_r; done).
  split; [done|]. split; [unfold umap_add; rewrite Hv; cbn [default]; unfold id; by rewrite Hz|].
  unfold undo_entry_adjust. fold (active su). destruct (first_idx _ (active su) 0) as [i|] eqn:Hf.
  - destruct (undo_search_found _ _ _ _ Hf) as (e & He & Hi & Hin & Hk). rewrite He.
    assert (un_adjval e = v) as ->.
    { assert (undo_map su !! (semid, semnum) = Some (un_adjval e)) as Hm; [|congruence].
      unfold undo_map. apply elem_of_list_to_map; [rewrite <- list_fmap_compose; apply Hwf|].
      apply list_elem_of_fmap. exists e. split; [|done]. unfold ubind. by rewrite Hk. }
    by rewrite Hz, (proj2 (Z.eqb_neq (- v) 0)) by lia.
  - exfalso. unfold undo_map in Hv. apply elem_of_list_to_map_2, list_elem_of_fmap in Hv as (e & He & Hin).
    apply first_idx_None in Hf. eapply Forall_forall in Hf; [|done]. unfold ubind, ukey in He. unfold undo_match in Hf.
    injection He as E1 E2 _. rewrite <- E1, <- E2, !Z.eqb_refl in Hf. done.
Qed.

Lemma undo_entry_zero_none su semid semnum :
  undo_wf su -> undo_map su !! (semid, semnum) = None -> undo_entry_adjust semid semnum 0 su = Some (0, su).
Proof.
  intros Hwf Hn. unfold undo_entry_adjust. fold (active su).
  destruct (first_idx _ (active su) 0) as [i|] eqn:Hf; [|done].
  destruct (undo_search_found _ _ _ _ Hf) as (e & He & Hi & Hin & Hk). exfalso.
  assert (undo_map su !! (semid, semnum) = Some (un_adjval e)) as Hm; [|congruence].
  unfold undo_map. apply elem_of_list_to_map; [rewrite <- list_fmap_compose; apply Hwf|].
  apply list_elem_of_fmap. exists e. split; [|done]. unfold ubind. by rewrite Hk.
Qed.

Lemma zero_entry_spec s l f p suptr semid semnum :
  rep s l f -> owned s l p suptr -> is_s16 semnum ->
  exists s' l', (let? su := aget (semu s) suptr in
     let? r := undo_entry_adjust semid semnum 0 su in
     Ret (fst r, suptr) (put_undo s suptr (snd r))) = Ret (0, suptr) s' /\ same_but_undo s s' /\
    rep s' l' (fset f p (delete (semid, semnum) (f p))) /\ suptr_ok s' l' p suptr.
Proof.
  intros Hrep Hown Hsn. pose proof Hown as [Hin (su & Hsu & Hp)]. assert (Hwf : undo_wf su) by (by eapply rep_wf).
  pose proof (rep_f _ _ _ Hrep suptr su Hin Hsu) as Hf. rewrite Hp in Hf.
  destruct (undo_map su !! (semid, semnum)) as [v|] eqn:Hv.
  - destruct (undo_entry_zero su semid semnum v Hwf Hv) as (Ha & Hadd & Heq).
    destruct (adjust_entry_spec s l f p suptr suptr semid semnum (- v) Hrep Hown Hsn Ha) as (e & sp & s' & l' & Hr & Hfr & Hc).
    rewrite Hsu in Hr |- *. rewrite Heq. rewrite Hr. destruct Hc as [(-> & Hrep' & Hown')|[(-> & _ & _ & Hn & _)|(-> & _ & E & _)]].
    + destruct (undo_entry_adjust semid semnum (- v) su) as [[? ?]|]; [|done]. injection Hr as -> -> _.
      exists s', l'. rewrite Hf, <- Hadd, <- Hf. split_and!; [done|done|done|by right].
    + rewrite Hf in Hn. congruence.
    + destruct (undo_entry_adjust semid semnum (- v) su) as [[? ?]|]; [|done]. injection Hr as _ -> _.
      pose proof (owned_not_NIL _ _ _ _ _ Hrep Hown) as H. by rewrite E in H.
  - rewrite Hsu. rewrite undo_entry_zero_none by done. simpl.
    assert (put_undo s suptr su = s) as -> by (unfold put_undo; rewrite aput_same by done; by destruct s).
    exists s, l. split_and!; [done|done| |by right].
    eapply rep_fext; [done|]. intros q. unfold fset. case_decide; [subst q|done]. rewrite Hf. by apply delete_id.
Qed.

(** The whole of [semundo_adjust]. *)
Definition adjust_spec (s : semstate) (f : Z -> umap) (p suptr0 : Z) (k : Z * Z) (a : Z)
  (r : outcome semstate (Z * Z)) : Prop :=
  exists e suptr s' l', r = Ret (e, suptr) s' /\ same_but_undo s s' /\
    ((e = 0 /\ rep s' l' (fset f p (if a =? 0 then delete k (f p) else umap_add (f p) k a)) /\ suptr_ok s' l' p suptr) \/
     (e = EINVAL /\ a <> 0 /\ rep s' l' f /\ suptr_ok s' l' p suptr /\
        f p !! k = None /\ Z.of_nat (size (f p)) = SEMUME) \/
     (e = ENOSPC /\ a <> 0 /\ rep s' l' f /\ suptr = NIL /\ suptr0 = NIL /\ undo_full f p)).

Lemma semundo_adjust_all s l f p suptr semid semnum a :
  rep s l f -> p <> 0 -> suptr_ok s l p suptr -> is_s16 semnum -> - 2 ^ 15 <= a <= 2 ^ 15 ->
  adjust_spec s f p suptr (semid, semnum) a (semundo_adjust p suptr semid semnum a s).
Proof.
  intros Hrep Hp Hok Hsn Ha. unfold adjust_spec. destruct (Z.eqb_spec a 0) as [->|Hnz].
  - unfold semundo_adjust. rewrite Z.eqb_refl. destruct Hok as [->|Hown].
    + destruct (semu_find_head s l f p Hrep) as [(lk & x & -> & Hown & _)|[Hun [lk ->]]]; cbn [obind snd].
      * rewrite (owned_not_NIL _ _ _ _ _ Hrep Hown).
        destruct (zero_entry_spec s l f p x semid semnum Hrep Hown Hsn) as (s' & l' & Hr & Hfr & Hrep' & Hok').
        exists 0, x, s', l'. split; [exact Hr|]. split; [done|]. by left.
      * exists 0, NIL, s, l. split; [done|]. split; [done|]. left. split; [done|]. split; [|by left].
        eapply rep_fext; [done|]. intros q. unfold fset. case_decide; [subst q|done].
        rewrite (rep_none _ _ _ Hrep p Hun). by rewrite delete_empty.
    + rewrite (owned_not_NIL _ _ _ _ _ Hrep Hown).
      destruct (zero_entry_spec s l f p suptr semid semnum Hrep Hown Hsn) as (s' & l' & Hr & Hfr & Hrep' & Hok').
      exists 0, suptr, s', l'. split; [exact Hr|]. split; [done|]. by left.
  - destruct (semundo_adjust_spec s l f p suptr semid semnum a Hrep Hp Hok Hsn (conj Hnz Ha)) as (e & sp & s' & l' & Hr & Hfr & Hc).
    exists e, sp, s', l'. split; [done|]. split; [done|].
    destruct Hc as [(? & ? & ?)|[(? & ? & ? & ? & ?)|(? & ? & ? & ? & ?)]]; [left|right; left|right; right];
      split_and!; try done; by right.
Qed.

(** ** The undo loops of [ix_semop] *)

Definition sop_ok (op : sembuf) : Prop := 0 <= sem_num op < SEMMSL /\ is_s16 (sem_op op).

(** The adjustments of a list of operations, latest first. *)
Fixpoint undo_sum (semid : Z) (m : umap) (rops : list sembuf) : umap :=
  match rops with
  | [] => m
  | op :: rops' =>
      let m' := undo_sum semid m rops' in
      if needs_undo op then umap_add m' (semid, sem_num op) (- sem_op op) else m'
  end.

Definition room (m : umap) : Prop := umap_ok m /\ Z.of_nat (size m) <= SEMUME.

(** Every intermediate map had room. *)
Fixpoint all_room (semid : Z) (m : umap) (rops : list sembuf) : Prop :=
  room (undo_sum semid m rops) /\
  match rops with [] => True | _ :: rops' => all_room semid m rops' end.

Lemma rep_room s l f p : rep s l f -> room (f p).
Proof.
  intros Hrep. destruct (semu_find_head s l f p Hrep) as [(lk & x & _ & [Hx (su & Hsu & <-)] & _)|[Hun _]].
  - rewrite (rep_f _ _ _ Hrep x su) by done. assert (Hwf : undo_wf su) by (by eapply rep_wf).
    split; [by apply undo_map_ok|]. rewrite undo_map_size by done. apply Hwf.
  - rewrite (rep_none _ _ _ Hrep p Hun). split; [apply map_Forall_empty|].
    rewrite map_size_empty. unfold SEMUME. lia.
Qed.

Lemma needs_undo_range op : sop_ok op -> needs_undo op = true ->
  is_s16 (sem_num op) /\ adj_range (sem_op op) /\ adj_range (- sem_op op).
Proof.
  unfold sop_ok, needs_undo, adj_range, SEMMSL, SEMMNS. intros [Hn Ho] [_ Hz]%andb_true_iff.
  apply negb_true_iff, Z.eqb_neq in Hz. wrap_unfold. lia.
Qed.

(** Taking back an adjustment always finds room. *)
Lemma umap_add_back_room m k a :
  room m -> adj_range a -> umap_add m k (- a) !! k = None ->
  Z.of_nat (size (umap_add m k (- a))) < SEMUME.
Proof.
  intros [Hok Hsz] Ha Hnone. pose proof (umap_add_inverse m k a Hok) as Hinv.
  set (m' := umap_add m k (- a)) in *. revert Hinv. unfold umap_add at 1. rewrite Hnone. simpl.
  rewrite Z.add_0_l, (proj2 (Z.eqb_neq _ _)) by (by apply s16_adj_nz).
  intros Hinv. rewrite <- Hinv, map_size_insert_None in Hsz by done. lia.
Qed.

Lemma fset_fset f p m1 m2 q : fset (fset f p m1) p m2 q = fset f p m2 q.
Proof. unfold fset. by case_decide. Qed.

Lemma fset_at f p m : fset f p m p = m.
Proof. unfold fset. by rewrite decide_True. Qed.

Section UndoLoops.
  Context (p semid : Z) (f : Z -> umap).
  Hypothesis Hp : p <> 0.

  (** The reverse loop gives the adjustments back and does not panic. *)
Lemma undo_rollback_spec rops : forall s l suptr,
    rep s l (fset f p (undo_sum semid (f p) rops)) -> all_room semid (f p) rops ->
    Forall sop_ok rops -> (existsb needs_undo rops = true -> owned s l p suptr) ->
    exists sp s' l', undo_rollback p suptr semid rops s = Ret sp s' /\
      same_but_undo s s' /\ rep s' l' f.
  Proof.
    induction rops as [|op rops IH]; intros s l suptr Hrep Hroom Hok Hown.
    - exists suptr, s, l. split; [done|]. split; [done|]. eapply rep_fext; [done|].
      intros q. simpl. unfold fset. by case_decide; subst.
    - apply Forall_cons in Hok as [Hop Hok]. destruct Hroom as [_ Hroom].
      simpl in *. destruct (needs_undo op) eqn:Hn; [|by eauto].
      destruct (needs_undo_range _ Hop Hn) as (Hsn & Ha & Ha').
      specialize (Hown eq_refl). set (m := undo_sum semid (f p) rops) in *.
      assert (Hm : room m) by (destruct rops; apply Hroom).
      destruct (semundo_adjust_spec s l _ p suptr semid (sem_num op) (sem_op op) Hrep Hp
                  (or_intror Hown) Hsn Ha) as (e & sp & s1 & l1 & -> & Hfr & Hcase).
      cbn [obind fst snd]. rewrite fset_at in Hcase.
      destruct Hcase as [(-> & Hr & Hown1)|[(-> & _ & _ & Hnone & Hsz)|(-> & _ & _ & Hnil & _)]].
      + simpl. destruct (IH s1 l1 sp) as (sp' & s' & l' & Heq & Hfr' & Hr'); auto.
        { eapply rep_fext; [exact Hr|]. intros q. rewrite fset_fset.
          rewrite umap_add_inverse by apply Hm. done. }
        exists sp', s', l'. split; [done|]. split; [by etrans|done].
      + exfalso. pose proof (umap_add_back_room m (semid, sem_num op) (sem_op op) Hm Ha Hnone). lia.
      + exfalso. pose proof (owned_not_NIL _ _ _ _ _ Hrep Hown) as H. by rewrite Hnil in H.
  Qed.

Lemma undo_forward_spec ops : forall done_rev s l suptr,
    rep s l (fset f p (undo_sum semid (f p) done_rev)) -> all_room semid (f p) done_rev ->
    Forall sop_ok done_rev -> Forall sop_ok ops -> suptr_ok s l p suptr ->
    (existsb needs_undo done_rev = true -> owned s l p suptr) ->
    exists e s' l', undo_forward p suptr semid done_rev ops s = Ret e s' /\ same_but_undo s s' /\
      ((e = 0 /\ rep s' l' (fset f p (undo_sum semid (f p) (rev ops ++ done_rev)))) \/
       ((e = EINVAL \/ e = ENOSPC) /\ rep s' l' f)).
  Proof.
    induction ops as [|op ops IH]; intros done_rev s l suptr Hrep Hroom Hdone Hok Hsp Hown.
    - exists 0, s, l. split; [done|]. split; [done|]. by left.
    - apply Forall_cons in Hok as [Hop Hok]. simpl rev. rewrite <- app_assoc. simpl.
      destruct (needs_undo op) eqn:Hn.
      + destruct (needs_undo_range _ Hop Hn) as (Hsn & Ha & Ha').
        destruct (semundo_adjust_spec s l _ p suptr semid (sem_num op) (- sem_op op) Hrep Hp
                    Hsp Hsn Ha') as (e & sp & s1 & l1 & -> & Hfr & Hcase).
        cbn [obind fst snd]. rewrite fset_at in Hcase.
        destruct Hcase as [(-> & Hr & Hown1)|[(-> & Hr & Hown1 & _ & _)|(-> & Hr & -> & -> & _)]].
        * assert (Hr1 : rep s1 l1 (fset f p (undo_sum semid (f p) (op :: done_rev)))).
          { eapply rep_fext; [exact Hr|]. intros q. rewrite fset_fset. simpl. by rewrite Hn. }
          destruct (IH (op :: done_rev) s1 l1 sp) as (e & s' & l' & Heq & Hfr' & Hc'); auto.
          { split; [|done]. pose proof (rep_room _ _ _ p Hr1) as H. by rewrite fset_at in H. }
          { by right. }
          exists e, s', l'. split; [done|]. split; [by etrans|done].
        * destruct (undo_rollback_spec done_rev s1 l1 sp Hr Hroom Hdone) as (sp' & s' & l' & Heq & Hfr' & Hr');
            [auto|].
          simpl. rewrite Heq. exists EINVAL, s', l'. split; [done|]. split; [by etrans|auto].
        * assert (existsb needs_undo done_rev = false) as Hno.
          { apply not_true_is_false. intros H%Hown. by pose proof (owned_not_NIL _ _ _ _ _ Hrep H). }
          destruct (undo_rollback_spec done_rev s1 l1 NIL Hr Hroom Hdone) as (sp' & s' & l' & Heq & Hfr' & Hr');
            [congruence|].
          simpl. rewrite Heq. exists ENOSPC, s', l'. split; [done|]. split; [by etrans|auto].
      + destruct (IH (op :: done_rev) s l suptr) as (e & s' & l' & Heq & Hfr' & Hc'); auto.
        { simpl. by rewrite Hn. }
        { split; [|done]. simpl. rewrite Hn. destruct done_rev; apply Hroom. }
        { simpl. by rewrite Hn. }
        by exists e, s', l'.
  Qed.
End UndoLoops.
