(* ===== verification/SysvSemLayout.v ===== *)
(** * System V semaphores: the pool, removal and exit

    The sets are carved out of the pool [sem] one after the other; removing a
    set compacts the pool and moves the sets behind it.  This file states the
    layout invariant and proves that [semget] and the removal of a set keep it,
    that a removal leaves the values of the other sets alone and forgets the
    pending adjustments of the removed one, and what [semexit] does. *)

From S2P Require Import Prelude Ipc SysvSem SysvSemUndo.

(** ** Clearing the adjustments of a set *)

Definition other_set (semid : Z) (e : undo) : Prop := un_id e <> semid.
#[export] Instance other_set_dec semid e : Decision (other_set semid e).
Proof. unfold other_set. apply _. Defined.

Lemma aget_lookup {A} (l : list A) i x :
  aget l i = Some x -> 0 <= i /\ l !! Z.to_nat i = Some x.
Proof. intros H. pose proof (aget_Some_range _ _ _ H). unfold aget in H. case_match; [|done]. split; [lia|done]. Qed.

Lemma aput_insert {A} (l : list A) i x : 0 <= i -> aput l i x = <[Z.to_nat i := x]> l.
Proof. intros H. unfold aput. by rewrite (proj2 (Z.leb_le _ _)). Qed.

Lemma drop_take_S {A} (l : list A) (i n : nat) x :
  l !! i = Some x -> (i < n)%nat -> drop i (take n l) = x :: drop (S i) (take n l).
Proof. intros Hx Hi. apply drop_S. by rewrite lookup_take_lt. Qed.

(** The entries after the inner loop started at [i]. *)
Definition cleared (semid i cnt : Z) (ents : list undo) (r : Z * list undo) : Prop :=
  length (snd r) = length ents /\ 0 <= fst r <= cnt /\
  take (Z.to_nat (fst r)) (snd r) ≡ₚ
    take (Z.to_nat i) ents ++
    filter (other_set semid) (drop (Z.to_nat i) (take (Z.to_nat cnt) ents)).

Lemma clear_ents_stop semid semnum n i cnt ents :
  cnt <= i -> clear_ents n semid semnum i cnt ents = Some (cnt, ents).
Proof. intros H. destruct n; [done|]. simpl. by rewrite (proj2 (Z.ltb_ge _ _)). Qed.

Lemma cleared_stop semid i cnt ents :
  0 <= cnt <= Z.of_nat (length ents) -> i = cnt -> cleared semid i cnt ents (cnt, ents).
Proof.
  intros Hl ->. split; [done|]. split; [simpl; lia|]. simpl.
  rewrite drop_ge by (rewrite length_take; lia). by rewrite app_nil_r.
Qed.

(** Moving the last entry to position [i] permutes the entries behind [i]. *)
Lemma drop_swap_last (ents : list undo) (i n : nat) (lst : undo) :
  (i < n)%nat -> ents !! n = Some lst ->
  drop i (take n (<[i := lst]> ents)) ≡ₚ drop (S i) (take (S n) ents).
Proof.
  intros Hi Hl. assert (n < length ents)%nat by (by eapply lookup_lt_Some).
  rewrite take_insert_lt, (take_S_r _ _ lst) by done.
  rewrite (drop_S _ lst) by (apply list_lookup_insert_eq; rewrite length_take; lia).
  rewrite drop_insert_lt by lia. rewrite drop_app_le by (rewrite length_take; lia).
  apply Permutation_cons_append.
Qed.

Lemma clear_ents_all semid n i cnt ents :
  (Z.to_nat (cnt - i) <= n)%nat -> 0 <= i <= cnt -> cnt <= SEMUME ->
  cnt <= Z.of_nat (length ents) ->
  exists r, clear_ents n semid (-1) i cnt ents = Some r /\ cleared semid i cnt ents r.
Proof.
  revert i cnt ents. induction n as [|n IH]; intros i cnt ents Hn Hi Hmax Hlen.
  { exists (cnt, ents). split; [done|]. apply cleared_stop; lia. }
  simpl. destruct (Z.ltb_spec i cnt) as [Hlt|Hge].
  2: { exists (cnt, ents). split; [done|]. apply cleared_stop; lia. }
  destruct (aget_is_Some ents i) as [e He]; [lia|]. rewrite He.
  destruct (aget_lookup _ _ _ He) as [_ He'].
  assert (Hd := drop_take_S ents (Z.to_nat i) (Z.to_nat cnt) e He' ltac:(lia)).
  destruct (Z.eqb_spec (un_id e) semid) as [Hid|Hid].
  - simpl. rewrite (s16_id (cnt - 1)) by (unfold SEMUME in *; wrap_lia).
    destruct (Z.ltb_spec i (cnt - 1)) as [Hlt1|Hge1].
    + destruct (aget_is_Some ents (cnt - 1)) as [lst Hl]; [lia|]. rewrite Hl.
      destruct (aget_lookup _ _ _ Hl) as [_ Hl'].
      destruct (IH i (cnt - 1) (aput ents i lst)) as (r & -> & Hlen' & Hr & Hp);
        [lia..|rewrite aput_length; lia|].
      exists r. split; [done|]. rewrite aput_length in Hlen'. split; [done|]. split; [lia|].
      rewrite Hp, aput_insert by lia. rewrite take_insert_ge by lia. apply Permutation_app_head.
      rewrite Hd, filter_cons_False by (unfold other_set; tauto).
      rewrite drop_swap_last by (done || lia).
      by replace (S (Z.to_nat (cnt - 1))) with (Z.to_nat cnt) by lia.
    + rewrite clear_ents_stop by lia. eexists. split; [done|]. assert (i = cnt - 1) as -> by lia.
      split; [done|]. split; [simpl; lia|]. simpl.
      rewrite Hd, filter_cons_False by (unfold other_set; tauto).
      rewrite drop_ge by (rewrite length_take; lia). by rewrite app_nil_r.
  - destruct (IH (i + 1) cnt ents) as (r & -> & Hlen' & Hr & Hp); [lia..|].
    exists r. split; [done|]. split; [done|]. split; [done|].
    rewrite Hp, Hd, filter_cons_True by done.
    replace (Z.to_nat (i + 1)) with (S (Z.to_nat i)) by lia.
    rewrite (take_S_r _ _ e) by done. by rewrite <- app_assoc.
Qed.

(** The adjustments of every set but [semid]. *)
Definition umap_without (semid : Z) (m : umap) : umap :=
  filter (fun kv => kv.1.1 <> semid) m.

Lemma umap_without_of semid l :
  NoDup (ukey <$> l) -> umap_of (filter (other_set semid) l) = umap_without semid (umap_of l).
Proof.
  induction l as [|e l IH]; intros Hnd.
  - unfold umap_without. symmetry. apply map_filter_empty.
  - csimpl in Hnd. apply NoDup_cons in Hnd as [Hni Hnd]. specialize (IH Hnd).
    change (umap_of (e :: l)) with (<[ukey e := un_adjval e]> (umap_of l)).
    assert (Hno : umap_of l !! ukey e = None).
    { apply not_elem_of_list_to_map_1. by rewrite ubind_fst. }
    unfold umap_without in *. destruct (decide (other_set semid e)) as [He|He].
    + rewrite filter_cons_True, map_filter_insert_True by done. by rewrite <- IH.
    + rewrite filter_cons_False, map_filter_insert_False by done.
      by rewrite delete_id.
Qed.

Lemma undo_cleared semid su r :
  undo_wf su -> cleared semid 0 (un_cnt su) (un_ent su) r ->
  let su' := su_set_ents su (fst r) (snd r) in
  undo_wf su' /\ undo_map su' = umap_without semid (undo_map su).
Proof.
  intros Hwf (Hlen & Hr & Hp) su'. change (take (Z.to_nat 0) (un_ent su)) with (@nil undo) in Hp.
  change (drop (Z.to_nat 0) ?x) with x in Hp. simpl in Hp. fold (active su) in Hp.
  assert (Hp' : active su' ≡ₚ filter (other_set semid) (active su)) by done.
  assert (Hnd : NoDup (ukey <$> filter (other_set semid) (active su))).
  { apply (sublist_NoDup _ (ukey <$> active su)); [apply (uw_keys _ Hwf)|].
    apply fmap_sublist, sublist_filter. }
  pose proof (uw_cnt _ Hwf). split; [split|].
  - simpl. lia.
  - simpl. rewrite Hlen. apply Hwf.
  - by rewrite Hp'.
  - rewrite Hp'. apply Forall_forall. intros e [_ He]%list_elem_of_filter.
    pose proof (uw_ents _ Hwf) as Hall. rewrite Forall_forall in Hall. by apply Hall.
  - rewrite (undo_map_perm _ (filter (other_set semid) (active su))) by (done || by rewrite Hp').
    apply umap_without_of, Hwf.
Qed.

(** ** [semundo_clear] for a whole set *)

Lemma semundo_clear_from_spec semid rest : forall pre fuel s g,
  rep s (pre ++ rest) g -> (length rest <= fuel)%nat ->
  exists s' g', semundo_clear_from fuel semid (-1) (hd NIL rest) s = Ret tt s' /\
    same_but_undo s s' /\ rep s' (pre ++ rest) g' /\
    forall q, g' q = umap_without semid (g q) \/ (g' q = g q /\ unowned s rest q).
Proof.
  induction rest as [|x rest IH]; intros pre fuel s g Hrep Hf.
  - exists s, g. split; [by destruct fuel|]. split; [done|]. split; [done|].
    right. split; [done|]. by intros ? ? ?%elem_of_nil.
  - destruct fuel as [|fuel]; simpl in Hf; [lia|]. simpl.
    destruct (rep_get _ _ _ Hrep x) as [su Hsu]; [set_solver|].
    destruct (rep_range _ _ _ Hrep x) as [Hx _]; [set_solver|].
    rewrite (proj2 (Z.eqb_neq x NIL)) by (unfold NIL; lia). rewrite Hsu.
    assert (Hwf : undo_wf su) by (eapply rep_wf; [done| |done]; set_solver).
    pose proof (uw_cnt _ Hwf). pose proof (uw_len _ Hwf).
    destruct (clear_ents_all semid (Z.to_nat (un_cnt su)) 0 (un_cnt su) (un_ent su))
      as (r & -> & Hcl); [lia..|].
    destruct (undo_cleared semid su r Hwf Hcl) as [Hwf' Hmap].
    set (su' := su_set_ents su (fst r) (snd r)) in *.
    assert (Hx' : x ∈ pre ++ x :: rest) by set_solver.
    pose proof (rep_replace s _ g x su su' Hrep Hx' Hsu Hwf' eq_refl eq_refl) as Hrep1.
    rewrite (cons_middle x pre rest), app_assoc in Hrep1.
    destruct (IH (pre ++ [x]) fuel _ _ Hrep1) as (s' & g' & Heq & Hfr & Hr & Hg); [lia|].
    assert (Hnx : un_next su = hd NIL rest).
    { destruct (chain_app_inv (unext s) (semu_list s) (pre ++ [x]) rest) as [_ Hl].
      - rewrite <- app_assoc. apply (rep_chain _ _ _ Hrep).
      - rewrite last_snoc in Hl. unfold unext in Hl. rewrite Hsu in Hl. by simplify_eq/=. }
    exists s', g'. rewrite Hnx. split; [done|]. split; [by etrans|].
    split; [by rewrite (cons_middle x pre rest), app_assoc|].
    intros q. destruct (decide (q = un_proc su)) as [->|Hq].
    + left. rewrite (rep_f _ _ _ Hrep x su Hx' Hsu). destruct (Hg (un_proc su)) as [-> | [-> _]];
        unfold fset; rewrite decide_True by done; rewrite Hmap; [|done].
      apply map_filter_filter_l. naive_solver.
    + destruct (Hg q) as [Hgq|[Hgq Hun]]; unfold fset in Hgq; rewrite decide_False in Hgq by done;
        [by left|]. right. split; [done|].
      intros j sv [->|Hj]%elem_of_cons Hsv; [congruence|].
      destruct (decide (j = x)) as [->|Hjx]; [congruence|].
      eapply Hun; [done|]. simpl. by rewrite aget_aput_ne.
Qed.

Lemma semundo_clear_spec s l f semid :
  rep s l f ->
  exists s', semundo_clear semid (-1) s = Ret tt s' /\ same_but_undo s s' /\
    rep s' l (fun q => umap_without semid (f q)).
Proof.
  intros Hrep.
  destruct (semundo_clear_from_spec semid l [] semu_fuel s f Hrep (rep_length _ _ _ Hrep))
    as (s' & g' & Heq & Hfr & Hr & Hg).
  exists s'. unfold semundo_clear. rewrite (chain_hd _ _ _ (rep_chain _ _ _ Hrep)).
  split; [done|]. split; [done|]. eapply rep_fext; [done|]. intros q.
  destruct (Hg q) as [->|[-> Hun]]; [done|].
  rewrite (rep_none _ _ _ Hrep q Hun). apply map_filter_empty.
Qed.

(** ** The layout of the pool *)

Fixpoint sum_alloc (l : list semid_ds) : Z :=
  match l with
  | [] => 0
  | d :: l' => (if ds_alloc d then sem_nsems d else 0) + sum_alloc l'
  end.

Record layout (s : semstate) : Prop := {
  lay_sema : length (sema s) = Z.to_nat SEMMNI;
  lay_pool : length (sem_pool s) = Z.to_nat SEMMNS;
  lay_set : forall i d, aget (sema s) i = Some d -> ds_alloc d = true ->
    0 < sem_nsems d /\ 0 <= sem_base d /\ sem_base d + sem_nsems d <= semtot s;
  lay_disj : forall i j d e, i <> j -> aget (sema s) i = Some d -> aget (sema s) j = Some e ->
    ds_alloc d = true -> ds_alloc e = true ->
    sem_base d + sem_nsems d <= sem_base e \/ sem_base e + sem_nsems e <= sem_base d;
  lay_tot : sum_alloc (sema s) = semtot s;
  lay_max : 0 <= semtot s <= SEMMNS
}.

Definition contrib (d : semid_ds) : Z := if ds_alloc d then sem_nsems d else 0.

Lemma sum_alloc_insert l (i : nat) d x :
  l !! i = Some d -> sum_alloc (<[i := x]> l) = sum_alloc l - contrib d + contrib x.
Proof.
  revert i. induction l as [|a l IH]; intros [|i]; simpl; try done.
  - intros [= ->]. unfold contrib. lia.
  - intros H. rewrite (IH _ H). lia.
Qed.

Lemma sum_alloc_aput l i d x :
  aget l i = Some d -> sum_alloc (aput l i x) = sum_alloc l - contrib d + contrib x.
Proof.
  intros [Hi H]%aget_lookup. rewrite aput_insert by done. by apply sum_alloc_insert.
Qed.

Lemma sum_alloc_map g l :
  (forall d, contrib (g d) = contrib d) -> sum_alloc (map g l) = sum_alloc l.
Proof.
  intros H. induction l as [|a l IH]; [done|]. simpl.
  change (contrib (g a) + sum_alloc (map g l) = contrib a + sum_alloc l). by rewrite H, IH.
Qed.

Lemma new_mode_alloc semflg :
  bset (u16 (Z.lor (Z.land semflg 0x1ff) SEM_ALLOC)) SEM_ALLOC = true.
Proof.
  change SEM_ALLOC with (2 ^ 9). rewrite bset_pow2 by lia. unfold u16.
  rewrite Z.mod_pow2_bits_low by lia. rewrite Z.lor_spec, Z.pow2_bits_true by lia.
  apply orb_true_r.
Qed.

(** ** [semget] *)

Definition zeroed (pool : list sem) (base nsems : Z) : Prop :=
  forall k, 0 <= k < nsems -> aget pool (base + k) = Some (mkSem 0 0 0 0).

Lemma carve_pool (pool : list sem) base n j :
  0 <= base -> 0 <= n -> base + n <= Z.of_nat (length pool) ->
  let pool' := take (Z.to_nat base) pool ++ replicate (Z.to_nat n) (mkSem 0 0 0 0)
               ++ drop (Z.to_nat (base + n)) pool in
  length pool' = length pool /\
  aget pool' j = if (base <=? j) && (j <? base + n) then Some (mkSem 0 0 0 0) else aget pool j.
Proof.
  intros Hb Hn Hl pool'. split.
  { unfold pool'. rewrite !length_app, length_take, length_replicate, length_drop. lia. }
  unfold aget. destruct (Z.leb_spec 0 j) as [Hj|Hj].
  2: { rewrite (proj2 (Z.leb_gt _ _)) by lia. done. }
  unfold pool'. destruct (Z.leb_spec base j) as [Hbj|Hbj]; simpl.
  - rewrite lookup_app_r by (rewrite length_take; lia). rewrite length_take_le by lia.
    destruct (Z.ltb_spec j (base + n)) as [Hjn|Hjn].
    + rewrite lookup_app_l by (rewrite length_replicate; lia).
      apply lookup_replicate_2. lia.
    + rewrite lookup_app_r by (rewrite length_replicate; lia).
      rewrite length_replicate, lookup_drop. f_equal. lia.
  - rewrite lookup_app_l by (rewrite length_take; lia). apply lookup_take_lt. lia.
Qed.

(** The outcome of the creating branch of [semget]. *)
Inductive semget_created (cred : ucred) (k nsems semflg : Z) (s : semstate)
  : Z -> semstate -> Prop :=
| created_bad : (nsems <= 0 \/ SEMMSL < nsems) ->
    semget_created cred k nsems semflg s EINVAL (set_errno s (-1))
| created_full : 0 < nsems <= SEMMSL ->
    (SEMMNS < semtot s + nsems \/ Forall (fun d => ds_alloc d = true) (sema s)) ->
    semget_created cred k nsems semflg s ENOSPC (set_errno s (-1))
| created_ok ix d d' s' : 0 < nsems <= SEMMSL ->
    aget (sema s) ix = Some d -> ds_alloc d = false ->
    aget (sema s') ix = Some d' -> ds_alloc d' = true -> sem_nsems d' = nsems ->
    key (sem_perm d') = k -> seq (sem_perm d') = Z.land (seq (sem_perm d) + 1) 0x7fff ->
    sem_base d' = semtot s ->
    (forall j, j <> ix -> aget (sema s') j = aget (sema s) j) ->
    zeroed (sem_pool s') (semtot s) nsems ->
    (forall j, j < semtot s -> aget (sem_pool s') j = aget (sem_pool s) j) ->
    semtot s' = semtot s + nsems -> sem_errno s' = sem_errno s ->
    semget_created cred k nsems semflg s (IXSEQ_TO_IPCID ix (sem_perm d')) s'.

Lemma layout_errno s e : layout s -> layout (set_errno s e).
Proof. by intros []. Qed.

(** Appending a set behind the used part of the pool keeps the layout. *)
Lemma layout_append s ix d d' pool' :
  layout s -> aget (sema s) ix = Some d -> ds_alloc d = false -> ds_alloc d' = true ->
  sem_base d' = semtot s -> 0 < sem_nsems d' -> semtot s + sem_nsems d' <= SEMMNS ->
  length pool' = length (sem_pool s) ->
  layout (set_pool (set_semtot (put_ds s ix d') (semtot s + sem_nsems d')) pool').
Proof.
  intros Hl Hd Hna Ha Hb Hn Hmax Hlen.
  assert (Hget : forall j e, aget (aput (sema s) ix d') j = Some e ->
    (j = ix /\ e = d') \/ (j <> ix /\ aget (sema s) j = Some e)).
  { intros j e. rewrite (aget_aput _ _ _ _ d Hd).
    destruct (Z.eqb_spec ix j); intros; simplify_eq; auto. }
  pose proof (lay_max _ Hl) as Hm.
  split; simpl.
  - rewrite aput_length. apply Hl.
  - rewrite Hlen. apply Hl.
  - intros j e [[-> ->]|[Hne He]]%Hget Hae; [lia|].
    destruct (lay_set _ Hl j e He Hae). lia.
  - intros i j e1 e2 Hij H1%Hget H2%Hget Ha1 Ha2.
    destruct H1 as [[-> ->]|[Hne1 H1]], H2 as [[-> ->]|[Hne2 H2]]; [done| | |].
    + right. destruct (lay_set _ Hl j e2 H2 Ha2). lia.
    + left. destruct (lay_set _ Hl i e1 H1 Ha1). lia.
    + by eapply (lay_disj _ Hl i j).
  - rewrite (sum_alloc_aput _ _ d) by done. unfold contrib. rewrite Hna, Ha, (lay_tot _ Hl). lia.
  - lia.
Qed.

Lemma semget_create_spec now cred k nsems semflg s :
  layout s ->
  exists r s', ix_semget_create now cred k nsems semflg s = Ret r s' /\
    semget_created cred k nsems semflg s r s' /\ layout s'.
Proof.
  intros Hl. unfold ix_semget_create. pose proof (lay_max _ Hl) as Hm.
  destruct ((nsems <=? 0) || (SEMMSL <? nsems)) eqn:Hbad.
  { do 2 eexists. split; [done|]. split; [|by apply layout_errno]. apply created_bad.
    apply orb_true_iff in Hbad. rewrite Z.leb_le, Z.ltb_lt in Hbad. done. }
  apply orb_false_iff in Hbad. rewrite Z.leb_gt, Z.ltb_ge in Hbad.
  destruct (SEMMNS - semtot s <? nsems) eqn:Hfull.
  { apply Z.ltb_lt in Hfull. do 2 eexists. split; [done|]. split; [|by apply layout_errno].
    apply created_full; [lia|]. left. lia. }
  apply Z.ltb_ge in Hfull. destruct (first_idx _ _ _) as [ix|] eqn:Hf.
  2: { do 2 eexists. split; [done|]. split; [|by apply layout_errno]. apply created_full; [lia|].
       right. apply first_idx_None in Hf. eapply Forall_impl; [done|]. simpl. intros d Hd.
       by apply negb_false_iff. }
  apply first_idx_Some in Hf as (d & Hix & Hd & Hna & _). rewrite Z.sub_0_r in Hd. rewrite Hd.
  apply negb_true_iff in Hna. unfold SEMMSL, SEMMNS in *.
  set (d' := mkSemid _ _ _ _ _).
  assert (Hn' : sem_nsems d' = nsems) by (simpl; apply u16_id; wrap_unfold; lia).
  assert (Hcarve := fun j => carve_pool (sem_pool s) (semtot s) nsems j ltac:(lia) ltac:(lia)
                              ltac:(rewrite (lay_pool _ Hl); unfold SEMMNS; lia)).
  do 2 eexists. split; [done|]. simpl. split.
  - change (mkPerm (u16 _) _ _ _ _ _ _) with (sem_perm d').
    eapply created_ok; [unfold SEMMSL, SEMMNS; lia|exact Hd|done|..]; simpl;
      [by erewrite aget_aput_eq|apply new_mode_alloc|done|done|done|done| | | |done|done].
    + intros j Hj. by apply aget_aput_ne.
    + intros q Hq. destruct (Hcarve (semtot s + q)) as [_ ->].
      by rewrite (proj2 (Z.leb_le _ _)), (proj2 (Z.ltb_lt _ _)) by lia.
    + intros j Hj. destruct (Hcarve j) as [_ ->]. by rewrite (proj2 (Z.leb_gt _ _)) by lia.
  - rewrite <- Hn' at 1. eapply layout_append; try done; rewrite ?Hn'; try (unfold SEMMNS; lia).
    + apply new_mode_alloc.
    + apply (Hcarve 0).
Qed.

(** ** Removing a set *)

Lemma shift_down_spec n : forall i k pool,
  0 <= i -> 0 < k -> i + Z.of_nat n + k <= Z.of_nat (length pool) ->
  exists pool', shift_down n i k pool = Some pool' /\ length pool' = length pool /\
    forall j, aget pool' j =
      if (i <=? j) && (j <? i + Z.of_nat n) then aget pool (j + k) else aget pool j.
Proof.
  induction n as [|n IH]; intros i k pool Hi Hk Hlen.
  - exists pool. split; [done|]. split; [done|]. intros j.
    destruct (Z.leb_spec i j), (Z.ltb_spec j (i + Z.of_nat 0)); simpl; done || lia.
  - simpl. destruct (aget_is_Some pool (i + k)) as [x Hx]; [lia|]. rewrite Hx.
    destruct (IH (i + 1) k (aput pool i x)) as (pool' & -> & Hl & Hg); [lia..|rewrite aput_length; lia|].
    exists pool'. split; [done|]. rewrite aput_length in Hl. split; [done|]. intros j. rewrite Hg.
    destruct (aget_is_Some pool i) as [y Hy]; [lia|].
    destruct (Z.leb_spec (i + 1) j), (Z.ltb_spec j (i + 1 + Z.of_nat n)),
      (Z.leb_spec i j), (Z.ltb_spec j (i + Z.of_nat (S n))); simpl; try lia;
      try (by rewrite aget_aput_ne by lia).
    assert (j = i) as -> by lia. by rewrite (aget_aput_eq _ _ _ y), Hx.
Qed.

Lemma rebase_perm base n d : sem_perm (rebase base n d) = sem_perm d.
Proof. unfold rebase. by case_match. Qed.
Lemma rebase_nsems base n d : sem_nsems (rebase base n d) = sem_nsems d.
Proof. unfold rebase. by case_match. Qed.
Lemma rebase_alloc base n d : ds_alloc (rebase base n d) = ds_alloc d.
Proof. unfold ds_alloc. by rewrite rebase_perm. Qed.

Lemma aget_map {A B} (g : A -> B) l i : aget (map g l) i = g <$> aget l i.
Proof. unfold aget. case_match; [|done]. apply list_lookup_fmap. Qed.

(** The descriptors after a removal. *)
Definition removed_sema (ix : Z) (d dead : semid_ds) (l : list semid_ds) : list semid_ds :=
  aput (map (rebase (sem_base d) (sem_nsems d)) l) ix dead.

Lemma removed_sema_get ix d dead l i e :
  is_Some (aget l ix) -> aget (removed_sema ix d dead l) i = Some e ->
  (i = ix /\ e = dead) \/
  (i <> ix /\ exists e0, aget l i = Some e0 /\ e = rebase (sem_base d) (sem_nsems d) e0).
Proof.
  intros [y Hy]. unfold removed_sema.
  rewrite (aget_aput _ _ _ _ (rebase (sem_base d) (sem_nsems d) y)) by (by rewrite aget_map, Hy).
  destruct (Z.eqb_spec ix i) as [->|Hne]; [by intros [= <-]; left|].
  rewrite aget_map. destruct (aget l i) as [e0|] eqn:He; [|done]. intros [= <-]. right.
  split; [congruence|]. eauto.
Qed.

Lemma rebase_base s ix d i e :
  layout s -> aget (sema s) ix = Some d -> ds_alloc d = true -> i <> ix ->
  aget (sema s) i = Some e -> ds_alloc e = true ->
  (sem_base e + sem_nsems e <= sem_base d /\ sem_base (rebase (sem_base d) (sem_nsems d) e) = sem_base e) \/
  (sem_base d + sem_nsems d <= sem_base e /\
   sem_base (rebase (sem_base d) (sem_nsems d) e) = sem_base e - sem_nsems d).
Proof.
  intros Hl Hd Had Hi He Hae. destruct (lay_set _ Hl _ _ Hd Had) as (? & ? & ?).
  destruct (lay_set _ Hl _ _ He Hae) as (? & ? & ?).
  unfold rebase. rewrite Hae. simpl.
  destruct (lay_disj _ Hl ix i d e ltac:(congruence) Hd He Had Hae) as [Hle|Hle].
  - right. rewrite (proj2 (Z.ltb_lt _ _)) by lia. done.
  - left. rewrite (proj2 (Z.ltb_ge _ _)) by lia. done.
Qed.

Lemma removed_layout s ix d dead pool' s' :
  layout s -> aget (sema s) ix = Some d -> ds_alloc d = true -> ds_alloc dead = false ->
  length pool' = length (sem_pool s) ->
  sema s' = removed_sema ix d dead (sema s) -> sem_pool s' = pool' ->
  semtot s' = semtot s - sem_nsems d -> layout s'.
Proof.
  intros Hl Hd Ha Hdead Hlen Hsema Hpool Htot.
  destruct (lay_set _ Hl _ _ Hd Ha) as (Hn & Hb & Hbn). pose proof (lay_max _ Hl).
  assert (Hget := fun i e => removed_sema_get ix d dead (sema s) i e ltac:(eauto)).
  split; rewrite ?Hsema, ?Hpool, ?Htot.
  - unfold removed_sema. rewrite aput_length, length_map. apply Hl.
  - rewrite Hlen. apply Hl.
  - intros i e [[-> ->]|(Hne & e0 & He0 & ->)]%Hget; [congruence|]. rewrite rebase_alloc, rebase_nsems.
    intros Hae. destruct (lay_set _ Hl _ _ He0 Hae) as (? & ? & ?).
    destruct (rebase_base s ix d i e0 Hl Hd Ha Hne He0 Hae) as [[? ->]|[? ->]]; lia.
  - intros i j e1 e2 Hij H1%Hget H2%Hget.
    destruct H1 as [[-> ->]|(Hne1 & e1' & H1 & ->)], H2 as [[-> ->]|(Hne2 & e2' & H2 & ->)];
      rewrite ?rebase_alloc, ?rebase_nsems; try congruence. intros Ha1 Ha2.
    destruct (lay_disj _ Hl i j e1' e2' Hij H1 H2 Ha1 Ha2);
      destruct (lay_set _ Hl _ _ H1 Ha1) as (? & ? & ?), (lay_set _ Hl _ _ H2 Ha2) as (? & ? & ?);
      destruct (rebase_base s ix d i e1' Hl Hd Ha Hne1 H1 Ha1) as [[? ->]|[? ->]];
      destruct (rebase_base s ix d j e2' Hl Hd Ha Hne2 H2 Ha2) as [[? ->]|[? ->]]; lia.
  - unfold removed_sema.
    rewrite (sum_alloc_aput _ _ (rebase (sem_base d) (sem_nsems d) d)) by (by rewrite aget_map, Hd).
    rewrite sum_alloc_map.
    + unfold contrib. rewrite rebase_alloc, rebase_nsems, Ha, Hdead, (lay_tot _ Hl). lia.
    + intros e. unfold contrib. by rewrite rebase_alloc, rebase_nsems.
  - lia.
Qed.

Lemma map_aput {A B} (g : A -> B) l i x : map g (aput l i x) = aput (map g l) i (g x).
Proof. unfold aput. case_match; [|done]. apply list_fmap_insert. Qed.

Lemma same_but_undo_fields s s' :
  same_but_undo s s' ->
  sema s' = sema s /\ sem_pool s' = sem_pool s /\ semtot s' = semtot s /\
  semlock_holder s' = semlock_holder s /\ sem_errno s' = sem_errno s.
Proof. intros ->. done. Qed.

Lemma rep_semu_ext s s' l f :
  rep s l f -> semu s' = semu s -> semu_list s' = semu_list s -> rep s' l f.
Proof.
  intros [] Hu Hl. split; unfold unext in *; rewrite ?Hu, ?Hl; auto.
Qed.

(** What the removal of set [ix] does to the other sets. *)
Definition others_kept (ix : Z) (s s' : semstate) : Prop :=
  forall i e, i <> ix -> aget (sema s) i = Some e -> ds_alloc e = true ->
    exists e', aget (sema s') i = Some e' /\ sem_perm e' = sem_perm e /\
      sem_nsems e' = sem_nsems e /\
      forall k, 0 <= k < sem_nsems e ->
        aget (sem_pool s') (sem_base e' + k) = aget (sem_pool s) (sem_base e + k).

Lemma others_kept_removed s s' ix d dead :
  layout s -> aget (sema s) ix = Some d -> ds_alloc d = true ->
  sema s' = removed_sema ix d dead (sema s) ->
  (forall j, aget (sem_pool s') j =
     if (sem_base d <=? j) && (j <? semtot s - sem_nsems d)
     then aget (sem_pool s) (j + sem_nsems d) else aget (sem_pool s) j) ->
  others_kept ix s s'.
Proof.
  intros Hl Hd Ha Hsema Hpool i e Hi He Hae. exists (rebase (sem_base d) (sem_nsems d) e).
  rewrite rebase_perm, rebase_nsems. repeat split; auto.
  - rewrite Hsema. unfold removed_sema. rewrite aget_aput_ne by congruence. by rewrite aget_map, He.
  - intros k Hk. rewrite Hpool. destruct (lay_set _ Hl _ _ He Hae) as (? & ? & ?).
    destruct (lay_set _ Hl _ _ Hd Ha) as (? & ? & ?).
    destruct (rebase_base s ix d i e Hl Hd Ha Hi He Hae) as [[Hle ->]|[Hle ->]].
    + by rewrite (proj2 (Z.leb_gt _ _)) by lia.
    + rewrite (proj2 (Z.leb_le _ _)), (proj2 (Z.ltb_lt _ _)) by lia. simpl. f_equal. lia.
Qed.

Lemma sem_rmid_spec cred s l f ix d :
  layout s -> rep s l f -> aget (sema s) ix = Some d -> ds_alloc d = true ->
  exists s', sem_rmid cred ix d s = Ret tt s' /\ layout s' /\
    rep s' l (fun q => umap_without ix (f q)) /\ others_kept ix s s' /\
    (exists d', aget (sema s') ix = Some d' /\ ds_alloc d' = false) /\
    semtot s' = semtot s - sem_nsems d /\ head (woken s') = Some (WSema ix).
Proof.
  intros Hl Hrep Hd Ha. destruct (lay_set _ Hl _ _ Hd Ha) as (Hn & Hb & Hbn).
  pose proof (lay_max _ Hl). unfold sem_rmid.
  set (d1 := ds_set_perm d _). set (dead := ds_set_perm d1 (perm_set_mode (sem_perm d1) 0)).
  cbn [sem_base sem_nsems d1 ds_set_perm sem_pool set_semtot put_ds set_sema semtot sema set_pool].
  destruct (shift_down_spec (Z.to_nat (semtot s - sem_nsems d - sem_base d)) (sem_base d)
              (sem_nsems d) (sem_pool s)) as (pool' & -> & Hlen & Hpool);
    [lia|lia|rewrite (lay_pool _ Hl); unfold SEMMNS in *; lia|].
  rewrite map_aput, (aget_aput_eq _ _ _ (rebase (sem_base d) (sem_nsems d) d)) by (by rewrite aget_map, Hd).
  assert (Hr1 : rebase (sem_base d) (sem_nsems d) d1 = d1).
  { unfold rebase. simpl. by rewrite Z.ltb_irrefl, andb_false_r. }
  rewrite Hr1. fold dead.
  match goal with |- context [semundo_clear ix (-1) ?x] => set (s1 := x) end.
  assert (Hs1 : sema s1 = removed_sema ix d dead (sema s)) by apply aput_aput.
  assert (Hrep1 : rep s1 l f) by (by eapply rep_semu_ext).
  destruct (semundo_clear_spec s1 l f ix Hrep1) as (s2 & -> & Hfr & Hrep2).
  destruct (same_but_undo_fields _ _ Hfr) as (Hsema2 & Hpool2 & Htot2 & _).
  assert (Hpool' : forall j, aget pool' j =
     if (sem_base d <=? j) && (j <? semtot s - sem_nsems d)
     then aget (sem_pool s) (j + sem_nsems d) else aget (sem_pool s) j).
  { intros j. rewrite Hpool. rewrite Z2Nat.id by lia. by replace (sem_base d + _) with (semtot s - sem_nsems d) by lia. }
  cbn [obind]. eexists. split; [done|]. split; [|split; [|split; [|split; [|split]]]].
  - eapply (removed_layout s ix d dead pool'); try done; simpl; by rewrite ?Hsema2, ?Hpool2, ?Htot2, ?Hs1.
  - by eapply rep_semu_ext.
  - eapply (others_kept_removed s _ ix d dead); try done; simpl; [by rewrite Hsema2, Hs1|].
    by rewrite Hpool2.
  - exists dead. split; [|done]. simpl. rewrite Hsema2, Hs1. unfold removed_sema.
    by rewrite (aget_aput_eq _ _ _ (rebase (sem_base d) (sem_nsems d) d)) by (by rewrite aget_map, Hd).
  - simpl. by rewrite Htot2.
  - done.
Qed.

(** ** Process exit *)

Lemma sem_ptr_inj s i j d e k1 k2 :
  layout s -> aget (sema s) i = Some d -> aget (sema s) j = Some e ->
  ds_alloc d = true -> ds_alloc e = true -> 0 <= k1 < sem_nsems d -> 0 <= k2 < sem_nsems e ->
  sem_base d + k1 = sem_base e + k2 -> i = j /\ k1 = k2.
Proof.
  intros Hl Hd He Ha1 Ha2 H1 H2 Heq. destruct (Z.eq_dec i j) as [->|Hne].
  - simplify_eq. split; [done|lia].
  - destruct (lay_disj _ Hl i j d e Hne Hd He Ha1 Ha2); lia.
Qed.

(** The value of a semaphore after the adjustment [a] of an exiting process. *)
Definition exit_val (v a : Z) : Z := u16 (Z.max 0 (v + a)).

Definition ref_ok (s : semstate) (k : Z * Z) : Prop :=
  exists d, aget (sema s) (fst k) = Some d /\ ds_alloc d = true /\ 0 <= snd k < sem_nsems d.

(** Every semaphore of every set, after the adjustments [m]. *)
Definition adjusted_by (m : umap) (s s' : semstate) : Prop :=
  forall i d k, aget (sema s) i = Some d -> ds_alloc d = true -> 0 <= k < sem_nsems d ->
    aget (sem_pool s') (sem_base d + k) =
    (fun x => from_option (fun a => sem_set_val x (exit_val (semval x) a)) x (m !! (i, k)))
      <$> aget (sem_pool s) (sem_base d + k).

(** Only the pool and the record of wake-ups differ. *)
Definition same_but_pool (s s' : semstate) : Prop :=
  s' = mkState (sema s) (sem_pool s') (semu s) (semu_list s) (semtot s)
               (semlock_holder s) (sem_errno s) (woken s').

Lemma exit_val_code v a :
  0 <= v -> (if (a <? 0) && (v <? - a) then 0 else u16 (v + a)) = exit_val v a.
Proof.
  intros Hv. unfold exit_val. destruct (Z.ltb_spec a 0), (Z.ltb_spec v (- a)); simpl;
    try (f_equal; lia). rewrite Z.max_l by lia. done.
Qed.

Lemma apply_undos_spec ents : forall s,
  layout s -> NoDup (ukey <$> ents) -> Forall (fun e => ref_ok s (ukey e)) ents ->
  Forall (fun x => 0 <= semval x) (sem_pool s) ->
  exists s', apply_undos ents s = Ret tt s' /\ same_but_pool s s' /\
    length (sem_pool s') = length (sem_pool s) /\ adjusted_by (umap_of ents) s s'.
Proof.
  induction ents as [|e ents IH]; intros s Hl Hnd Href Hpos.
  { exists s. split; [done|]. split; [by destruct s|]. split; [done|].
    intros i d k _ _ _. unfold umap_of. simpl. rewrite lookup_empty. simpl.
    by destruct (aget _ _). }
  csimpl in Hnd. apply NoDup_cons in Hnd as [Hni Hnd]. apply Forall_cons in Href as [Hr Href].
  destruct Hr as (d & Hd & Ha & Hk). simpl in Hd, Hk. simpl. rewrite Hd, Ha. simpl.
  rewrite (proj2 (Z.leb_gt _ _)) by lia. destruct (lay_set _ Hl _ _ Hd Ha) as (? & ? & ?).
  pose proof (lay_max _ Hl). set (ptr := sem_base d + un_num e).
  destruct (aget_is_Some (sem_pool s) ptr) as [m Hm].
  { rewrite (lay_pool _ Hl). unfold ptr, SEMMNS in *. lia. }
  rewrite Hm. assert (Hm0 : 0 <= semval m) by (by eapply (Forall_aget (fun x => 0 <= semval x))).
  rewrite exit_val_code by done.
  set (m' := sem_set_val m (exit_val (semval m) (un_adjval e))).
  match goal with |- context [apply_undos ents ?x] => set (s1 := x) end.
  destruct (IH s1) as (s' & -> & Hs' & Hlen & Hadj).
  - destruct Hl. split; simpl; auto. by rewrite aput_length.
  - done.
  - eapply Forall_impl; [exact Href|]. done.
  - simpl. apply Forall_aput; [done|]. simpl. unfold exit_val. apply u16_range.
  - exists s'. split; [done|]. split; [by rewrite Hs'; destruct s|].
    split; [rewrite Hlen; simpl; by rewrite aput_length|].
    intros i d0 k Hi Hai Hik. rewrite (Hadj i d0 k) by done.
    change (umap_of (e :: ents)) with (<[ukey e := un_adjval e]> (umap_of ents)).
    destruct (decide (ukey e = (i, k))) as [Heq|Hne].
    + rewrite Heq, lookup_insert_eq. pose proof Heq as Heq'. injection Heq' as Hid Hnum.
      assert (umap_of ents !! (i, k) = None) as ->.
      { rewrite <- Heq. apply not_elem_of_list_to_map_1. by rewrite ubind_fst. }
      subst i k. simplify_eq. fold ptr. simpl. rewrite (aget_aput_eq _ _ _ m) by done. by rewrite Hm.
    + rewrite lookup_insert_ne by done. simpl. rewrite aget_aput_ne; [done|].
      intros Hp. apply Hne. unfold ukey.
      destruct (sem_ptr_inj s (un_id e) i d d0 (un_num e) k) as [E1 E2]; [done..|congruence].
Qed.

Lemma semexit_unlock_fields p s :
  sema (semexit_unlock p s) = sema s /\ semtot (semexit_unlock p s) = semtot s /\
  sem_pool (semexit_unlock p s) = sem_pool s /\ semu (semexit_unlock p s) = semu s /\
  semu_list (semexit_unlock p s) = semu_list s.
Proof. unfold semexit_unlock. by case_match. Qed.

Lemma semexit_unlock_holder p s :
  p <> 0 -> semlock_holder s = 0 \/ semlock_holder s = p -> semlock_holder (semexit_unlock p s) = 0.
Proof.
  intros Hp Hlock. unfold semexit_unlock. destruct Hlock as [E|E]; rewrite E.
  - by rewrite (proj2 (Z.eqb_neq _ _)) by congruence.
  - by rewrite Z.eqb_refl.
Qed.

(** What [semexit] promises. *)
Definition exited (p : Z) (f : Z -> umap) (s s' : semstate) : Prop :=
  (exists l', rep s' l' (fset f p ∅)) /\ sema s' = sema s /\ semtot s' = semtot s /\
  semlock_holder s' = 0 /\ adjusted_by (f p) s s'.

Lemma semexit_release_spec s f p pre x rest su :
  layout s -> rep s (pre ++ x :: rest) f -> p <> 0 ->
  semlock_holder s = 0 \/ semlock_holder s = p ->
  aget (semu s) x = Some su -> un_proc su = p ->
  (forall k a, f p !! k = Some a -> ref_ok s k) ->
  Forall (fun x => 0 <= semval x) (sem_pool s) ->
  exists s', semexit_release p (link_of pre) x s = Ret tt s' /\ exited p f s s'.
Proof.
  intros Hl Hrep Hp Hlock Hsu Hpr Href Hpos. unfold semexit_release. rewrite Hsu.
  assert (Hx : x ∈ pre ++ x :: rest) by set_solver.
  assert (Hwf : undo_wf su) by (by eapply rep_wf).
  assert (Hfp : f p = undo_map su) by (rewrite <- Hpr; by eapply rep_f).
  destruct (apply_undos_spec (active su) s Hl (uw_keys _ Hwf)) as (s1 & Heq & Hs1 & Hlen & Hadj).
  { apply Forall_forall. intros e He. eapply Href. rewrite Hfp. by apply undo_map_lookup. }
  { done. }
  assert (Hstep : (if 0 <? un_cnt su then apply_undos (take (Z.to_nat (un_cnt su)) (un_ent su)) s
                   else Ret tt s) = Ret tt s1).
  { fold (active su). destruct (Z.ltb_spec 0 (un_cnt su)); [done|]. rewrite <- Heq.
    pose proof (uw_cnt _ Hwf). unfold active. by replace (un_cnt su) with 0 by lia. }
  rewrite Hstep. cbn [obind]. fold (unlink s1 (link_of pre) x su).
  assert (Hrep1 : rep s1 (pre ++ x :: rest) f) by (eapply rep_semu_ext; [done|by rewrite Hs1..]).
  assert (Hsu1 : aget (semu s1) x = Some su) by (by rewrite Hs1).
  pose proof (rep_unlink s1 pre x rest f su Hrep1 Hsu1) as Hrep2. rewrite Hpr in Hrep2.
  destruct (same_but_undo_fields _ _ (unlink_frame s1 (link_of pre) x su)) as (E1 & E2 & E3 & E4 & _).
  set (s2 := unlink s1 (link_of pre) x su) in *.
  destruct (semexit_unlock_fields p s2) as (F1 & F2 & F3 & F4 & F5).
  exists (semexit_unlock p s2). split; [done|]. split.
  { exists (pre ++ rest). by apply (rep_semu_ext s2). }
  rewrite F1, F2, E1, E3. split; [by rewrite Hs1|]. split; [by rewrite Hs1|]. split.
  - apply semexit_unlock_holder; [done|]. rewrite E4. by rewrite Hs1.
  - intros i d k Hi Hai Hk. rewrite F3, E2, Hfp. by apply Hadj.
Qed.

(** [semexit] when nobody else holds the semaphore lock. *)
Lemma semexit_spec s l f p :
  layout s -> rep s l f -> p <> 0 ->
  semlock_holder s = 0 \/ semlock_holder s = p ->
  (forall k a, f p !! k = Some a -> ref_ok s k) ->
  Forall (fun x => 0 <= semval x) (sem_pool s) ->
  exists s', semexit p [] s = Ret tt s' /\ exited p f s s'.
Proof.
  intros Hl Hrep Hp Hlock Href Hpos. unfold semexit.
  assert (Hlk : negb (semlock_holder s =? 0) && negb (semlock_holder s =? p) = false).
  { destruct Hlock as [-> | ->]; [done|]. by rewrite Z.eqb_refl, andb_false_r. }
  destruct (semu_find_head s l f p Hrep) as [(lk & x & -> & Hown & pre & rest & -> & ->)|[Hun [lk ->]]];
    cbn [obind snd fst]; rewrite Hlk.
  - rewrite (owned_not_NIL _ _ _ _ _ Hrep Hown). destruct Hown as [Hx (su & Hsu & Hpr)].
    by eapply semexit_release_spec.
  - change (NIL =? NIL) with true. cbn iota.
    assert (Hfp : f p = ∅) by (by eapply rep_none).
    destruct (semexit_unlock_fields p s) as (F1 & F2 & F3 & F4 & F5).
    exists (semexit_unlock p s). split; [done|]. split.
    { exists l. apply (rep_semu_ext s); [|done|done]. eapply rep_fext; [done|].
      intros q. unfold fset. by case_decide; subst. }
    split; [done|]. split; [done|]. split; [by apply semexit_unlock_holder|].
    intros i d k Hi Hai Hk. rewrite Hfp, lookup_empty, F3. simpl. by destruct (aget (sem_pool s) (sem_base d + k)).
Qed.
