(* ===== verification/SysvSemTheorems.v ===== *)
(** * System V semaphores: the theorems

    The properties of library/sysv_sem.c, proved from the lemmas of the files
    SysvSemAtomic, SysvSemUndo and SysvSemLayout, and the
    states reachable from [seminit] by the four entry points. *)

From S2P Require Import Prelude Ipc SysvSem SysvSemAtomic SysvSemUndo SysvSemLayout.

(** ** Sample states *)

Definition perm0 : ipc_perm := mkPerm 0 0 0 0 0 0 0.
Definition sem0 : sem := mkSem 0 0 0 0.
Definition undo0 : undo := mkUndo 0 0 0.

(** The static data before [seminit]: zero-initialised. *)
Definition sem_static : semstate :=
  mkState (replicate (Z.to_nat SEMMNI) (mkSemid perm0 NIL 0 0 0))
          (replicate (Z.to_nat SEMMNS) sem0)
          (replicate semu_fuel (mkSemUndo NIL 0 0 (replicate (Z.to_nat (SEMUME + 1)) undo0)))
          NIL 0 0 0 [].

Definition sem_boot : semstate := seminit sem_static.

(** A state with one set of two semaphores (values 3 and 0) whose descriptor
    has sequence number 0. *)
Definition set2 : semid_ds := mkSemid (mkPerm 0 0 0 0 0x200 0 77) 0 2 0 0.
Definition sem_two : semstate :=
  set_semtot (set_pool (set_sema sem_boot (aput (sema sem_boot) 0 set2))
                       (aput (sem_pool sem_boot) 0 (mkSem 3 0 0 0))) 2.

Lemma sem_two_in_pool : set_in_pool sem_two set2.
Proof.
  split; [|simpl; lia|vm_compute; congruence].
  apply Forall_aput; [|wrap_unfold; simpl; unfold sem_wf; wrap_unfold; simpl; lia].
  apply Forall_replicate. unfold sem_wf. wrap_unfold. simpl. lia.
Qed.

(** The empty list of undo vectors. *)
Lemma rep_boot : rep sem_boot [] (fun _ => ∅).
Proof.
  assert (Hall : forall i su, aget (semu sem_boot) i = Some su ->
    un_proc su = 0 /\ Z.of_nat (length (un_ent su)) = SEMUME + 1).
  { intros i su H. assert (Hf : Forall (fun su => un_proc su = 0 /\
      Z.of_nat (length (un_ent su)) = SEMUME + 1) (semu sem_boot)).
    { apply Forall_fmap, Forall_replicate. done. }
    by eapply Forall_aget in Hf. }
  split; try done; try (by intros ? ? ?%elem_of_nil); try (by intros ? ? ? ? ?%elem_of_nil).
  - constructor.
  - constructor.
  - intros i su [-> _]%Hall. set_solver.
  - by intros i su [_ ?]%Hall.
Qed.

(** ** Shared steps of the proofs *)

Lemma semlock_free p s :
  semlock_holder s = 0 \/ semlock_holder s = p -> forall w, semlock p w s = Ret w s.
Proof.
  intros H w. destruct H as [E|E]; destruct w as [|[]]; simpl; rewrite E; try done; by rewrite Z.eqb_refl, andb_false_r.
Qed.

Lemma semid_check_get semid s ix d :
  semid_check semid s = Ret (Some (ix, d)) s -> aget (sema s) ix = Some d.
Proof.
  unfold semid_check. set (i := IPCID_TO_IX semid). destruct (_ || _); [done|].
  destruct (aget (sema s) i) eqn:Hi; [|done]. by case_match; intros [= <- <-].
Qed.

(** ** A vector of operations is atomic *)

(** A vector of semaphore operations is atomic: one round of the loop of
    [ix_semop] either performs all the operations, in order, leaving every
    other semaphore of the pool as it was, or changes no semaphore value at all
    and then either fails with EAGAIN (IPC_NOWAIT) or goes to sleep counted as
    a waiter of the semaphore it waits for. *)
Theorem semop_round_atomic (s : semstate) (ix : Z) (d : semid_ds) (sops : list sembuf)
  (un : bool) :
  aget (sema s) ix = Some d -> set_in_pool s d -> ops_in_set (sem_nsems d) sops ->
  semop_round_spec s d sops (semop_loop [] ix sops un s).
Proof. apply semop_round_ok. Qed.

Lemma semop_round_atomic_witness :
  semop_round_spec sem_two set2 [mkSembuf 0 (-2) 0; mkSembuf 1 0 0]
    (semop_loop [] 0 [mkSembuf 0 (-2) 0; mkSembuf 1 0 0] false sem_two).
Proof.
  apply (semop_round_atomic sem_two 0 set2); [reflexivity|apply sem_two_in_pool|].
  repeat constructor; simpl; lia.
Defined.

(** The identifier's set has been removed, or another one has its place. *)
Definition gone (ix : Z) (s : semstate) : bool :=
  match aget (sema s) ix with
  | Some d => negb (ds_alloc d) || negb (seq (sem_perm d) =? IPCID_TO_SEQ ix)
  | None => true
  end.

(** A state as the system calls leave it, whose set [ix], if it is still there, has
    [n] semaphores. *)
Definition sem_ok (ix n : Z) (s : semstate) : Prop :=
  (exists l f, rep s l f) /\ Z.of_nat (length (sem_pool s)) = SEMMNS /\ Forall sem_wf (sem_pool s) /\
  exists d, aget (sema s) ix = Some d /\ (gone ix s = false -> set_in_pool s d /\ sem_nsems d = n).

(** What [ix_semop] does once the identifier [ix] has been validated: the
    semaphore values, the last operators and the pending adjustments of every
    process ([rep] says that [f] is their map).  Where it sleeps, [w] says what
    others did meanwhile and what [ix_sleep] returned. *)
Fixpoint semop_spec (p ix : Z) (sops : list sembuf) (w : schedule) (s : semstate) (r : outcome semstate Z) : Prop :=
  exists d, aget (sema s) ix = Some d /\
  match spec_semop sops (vals_at (sem_base d) (sem_pool s)) with
  | Some v => forall l f, rep s l f ->
      exists e s' l', r = Ret e s' /\ sema s' = sema s /\
          ((e = 0 /\ rep s' l' (fset f p (undo_sum ix (f p) (rev sops))) /\
          (forall j, aget (sem_pool s') j =
             after_ops p (sem_base d) (sem_nsems d) sops v j <$> aget (sem_pool s) j)) \/
         ((e = EINVAL \/ e = ENOSPC) /\ rep s' l' f /\ sem_pool s' = sem_pool s))
  | None =>
      exists op, op ∈ sops /\
        if bset (sem_flg op) IPC_NOWAIT
        then r = Ret EAGAIN (set_errno s (-1))
        else exists pool1,
          bump_waiters op (sem_base d + sem_num op) 1 (sem_pool s) = Some pool1 /\
          match w with
          | [] => r = Asleep (set_pool s pool1)
          | (eval, env) :: w =>
              let s1 := env (set_pool s pool1) in
              if negb (eval =? 0) then r = Ret EINTR (set_errno s1 (-1))
              else if gone ix s1 then r = Ret EINVAL (set_errno s1 (-1))
              else exists pool2,
                bump_waiters op (sem_base d + sem_num op) (-1) (sem_pool s1) = Some pool2 /\
                semop_spec p ix sops w (set_pool s1 pool2) r
          end
  end.

Lemma undo_sum_none ix m ops :
  existsb needs_undo ops = false -> undo_sum ix m (rev ops) = m.
Proof.
  intros H. assert (Hr : existsb needs_undo (rev ops) = false).
  { apply not_true_iff_false. intros (x & Hx%in_rev & Hn)%existsb_exists.
    apply not_true_iff_false in H. apply H, existsb_exists. eauto. }
  clear H. induction (rev ops) as [|op l IH]; [done|]. simpl in *.
  apply orb_false_iff in Hr as [-> Hr]. auto.
Qed.

Lemma pool_agrees_get base nsems v pool pool' j :
  pool_agrees base nsems v pool pool' ->
  aget pool' j = (fun m => if (base <=? j) && (j <? base + nsems)
                           then sem_set_val m (v (j - base)) else m) <$> aget pool j.
Proof.
  intros [Hlen Hag]. destruct (aget pool j) as [m|] eqn:Hj; [by apply Hag|]. simpl.
  destruct (aget pool' j) as [m|] eqn:Hj'; [|done]. apply aget_Some_range in Hj'.
  rewrite Hlen in Hj'. apply aget_is_Some in Hj' as [? ?]. congruence.
Qed.

(** The undo phase: taken when an operation needs an undo entry. *)
Lemma undo_phase_spec s l f p ix sops :
  rep s l f -> p <> 0 -> Forall sop_ok sops ->
  exists e s' l',
    (if existsb needs_undo sops then undo_forward p NIL ix [] sops s else Ret 0 s) = Ret e s' /\
    same_but_undo s s' /\
    ((e = 0 /\ rep s' l' (fset f p (undo_sum ix (f p) (rev sops)))) \/
     ((e = EINVAL \/ e = ENOSPC) /\ rep s' l' f)).
Proof.
  intros Hrep Hp Hok. assert (Hid : forall q, fset f p (f p) q = f q).
  { intros q. unfold fset. by case_decide; subst. }
  destruct (existsb needs_undo sops) eqn:Hn.
  - destruct (undo_forward_spec p ix f Hp sops [] s l NIL) as (e & s' & l' & Heq & Hfr & Hc);
      [by eapply rep_fext|split; [by eapply rep_room|done]|done|done|by left|done|].
    exists e, s', l'. split; [done|]. split; [done|]. by rewrite app_nil_r in Hc.
  - exists 0, s, l. split; [done|]. split; [done|]. left. split; [done|].
    rewrite undo_sum_none by done. by eapply rep_fext.
Qed.

Lemma bump_ok op ptr k pool pool' :
  bump_waiters op ptr k pool = Some pool' -> Forall sem_wf pool ->
  length pool' = length pool /\ Forall sem_wf pool'.
Proof.
  unfold bump_waiters. destruct (aget pool ptr) as [m|] eqn:Hm; [|done]. intros [= <-] Hwf.
  split; [apply aput_length|]. apply Forall_aput; [done|].
  pose proof (Forall_aget _ _ _ _ Hwf Hm) as Hw. by destruct (sem_op op =? 0), m.
Qed.

Lemma sem_ok_pool ix n s pool :
  sem_ok ix n s -> length pool = length (sem_pool s) -> Forall sem_wf pool -> sem_ok ix n (set_pool s pool).
Proof.
  intros ((l & f & Hrep) & Hlen & _ & d & Hd & Hg) Hl Hwf. split_and!.
  - exists l, f. by eapply rep_semu_ext.
  - simpl. by rewrite Hl.
  - done.
  - exists d. split; [done|]. intros H. destruct (Hg H) as [[_ Hb Hp] Hn]. split; [|done].
    split; [done|done|]. simpl. by rewrite Hl.
Qed.

(** The end of the loop with every operation applied. *)
Lemma semop_done_ok p ix d sops wk v pool' s :
  p <> 0 -> Forall sop_ok sops -> aget (sema s) ix = Some d -> set_in_pool s d -> ops_in_set (sem_nsems d) sops ->
  pool_agrees (sem_base d) (sem_nsems d) v (sem_pool s) pool' ->
  rollback (sem_base d) sops pool' = Some (sem_pool s) ->
  forall l f, rep s l f ->
    exists e s' l', semop_done p ix sops wk (existsb needs_undo sops) (set_pool s pool') = Ret e s' /\ sema s' = sema s /\
        ((e = 0 /\ rep s' l' (fset f p (undo_sum ix (f p) (rev sops))) /\
        (forall j, aget (sem_pool s') j =
           after_ops p (sem_base d) (sem_nsems d) sops v j <$> aget (sem_pool s) j)) \/
       ((e = EINVAL \/ e = ENOSPC) /\ rep s' l' f /\ sem_pool s' = sem_pool s)).
Proof.
  intros Hp Hok Hd Hpool Hin Hag Hrb l f Hrep. unfold semop_done. set (s1 := set_pool s pool').
  destruct (undo_phase_spec s1 l f p ix sops) as (e & s2 & l2 & -> & Hfr & Hc);
    [by eapply rep_semu_ext|done|done|]. cbn [obind].
  destruct (same_but_undo_fields _ _ Hfr) as (Hse & Hpo & _). rewrite Hse, Hpo.
  change (sema s1) with (sema s). change (sem_pool s1) with pool'. rewrite Hd.
  destruct Hc as [[-> Hr]|[He Hr]]; cbn [Z.eqb negb].
  - destruct (set_pids_spec p (sem_base d) sops pool') as (pool2 & -> & Hp2).
    { intros op Hop. eapply Forall_forall in Hin; [|done]. simpl in Hin.
      destruct Hag as [Hlen _], Hpool. apply aget_is_Some. lia. }
    do 3 eexists. split; [done|]. split; [by destruct wk|]. left. split; [done|]. split.
    + eapply rep_semu_ext; [exact Hr|by destruct wk|by destruct wk].
    + intros j. transitivity (aget pool2 j); [by destruct wk|]. rewrite Hp2.
      rewrite (pool_agrees_get _ _ _ _ _ j Hag). by destruct (aget (sem_pool s) j).
  - replace (e =? 0) with false by (by destruct He as [-> | ->]). cbn [negb]. rewrite Hrb.
    do 3 eexists. split; [done|]. split; [done|]. right. split; [done|].
    split; [|done]. eapply rep_semu_ext; [exact Hr|done|done].
Qed.

(** The loop and its end, for any schedule. *)
Lemma semop_loop_ok p ix n sops :
  p <> 0 -> Forall sop_ok sops -> ops_in_set n sops ->
  forall w s un, Forall (fun x => forall s, sem_ok ix n s -> sem_ok ix n (x.2 s)) w ->
  sem_ok ix n s -> gone ix s = false -> (un = true -> existsb needs_undo sops = true) ->
  semop_spec p ix sops w s
    (let* (r, s) := semop_loop w ix sops un s in
     match r with
     | inl e => Ret e s
     | inr (do_wakeup, do_undos) => semop_done p ix sops do_wakeup do_undos s
     end).
Proof.
  intros Hp Hok Hin. induction w as [|[eval env] w IH]; intros s un Hw Hs Hg Hun;
    pose proof Hs as (_ & Hlen & Hwf & d & Hd & Hset); destruct (Hset Hg) as [Hpool Hn];
    (assert (ops_in_set (sem_nsems d) sops) as Hin' by (by rewrite Hn));
    exists d; (split; [done|]);
    lazymatch goal with |- context [semop_loop ?W _ _ _ _] =>
      pose proof (semop_round_any W s ix d sops un Hd Hpool Hin') as H end;
    (destruct (spec_semop sops _) as [v|];
     [destruct H as (wk & pool' & -> & Hag & Hrb); cbn [obind];
      replace (un || existsb needs_undo sops) with (existsb needs_undo sops) by (destruct un; [by rewrite Hun|done]);
      by apply semop_done_ok|]);
    destruct H as (op & un' & Hop & Hun' & H); exists op; (split; [done|]);
    (destruct (bset (sem_flg op) IPC_NOWAIT); [by rewrite H|]);
    destruct H as (pool1 & Hb & ->); exists pool1; (split; [done|]).
  - done.
  - apply Forall_cons in Hw as [Henv Hw]. cbn [semop_wait snd] in *. destruct (bump_ok _ _ _ _ _ Hb Hwf) as [Hl1 Hw1].
    pose proof (Henv _ (sem_ok_pool _ _ _ _ Hs Hl1 Hw1)) as Hs1. set (s1 := env (set_pool s pool1)) in *.
    destruct (negb (eval =? 0)); [done|]. pose proof Hs1 as (_ & Hlen1 & Hwf1 & d1 & Hd1 & _).
    unfold gone. rewrite Hd1. destruct (_ || _) eqn:Hgone; [done|].
    eapply Forall_forall in Hin' as Hin1; [|exact Hop]. simpl in Hin1. destruct Hpool as [_ Hbase Hfit].
    destruct (aget_is_Some (sem_pool s1) (sem_base d + sem_num op)) as [m1 Hm1]; [lia|].
    assert (exists pool2, bump_waiters op (sem_base d + sem_num op) (-1) (sem_pool s1) = Some pool2) as [pool2 Hb2]
      by (unfold bump_waiters; rewrite Hm1; by eexists).
    exists pool2. split; [done|]. rewrite Hb2. destruct (bump_ok _ _ _ _ _ Hb2 Hwf1) as [Hl2 Hw2].
    apply IH; [done|by apply sem_ok_pool|by unfold gone; simpl; rewrite Hd1|].
    intros E. destruct (Hun' E); [by apply Hun|done].
Qed.

(** C1. A whole call of [semop] on a validated set, with operations that name
    semaphores of that set, is all or nothing, for every schedule of what other
    processes do while it sleeps: it returns 0 with every operation applied, the
    caller recorded as last operator and the undo adjustments of the caller added;
    or it fails with EINVAL or ENOSPC (no room for the undo entries) with the
    semaphores and the adjustments of every process exactly as before; or an
    operation has to wait, and it fails with EAGAIN, or sleeps with no value changed.
    After the sleep it fails with EINTR, or with EINVAL if the set is gone, or starts
    again in the state it finds.  The panic about undos that cannot be undone is not
    reached. *)
Theorem semop_all_or_nothing (w : schedule) (s : semstate) (p : Z)
  (cred : ucred) (semid ix : Z) (d : semid_ds) (sops : list sembuf) :
  p <> 0 -> semlock_holder s = 0 \/ semlock_holder s = p ->
  semid_check semid s = Ret (Some (ix, d)) s -> sem_ok ix (sem_nsems d) s -> gone ix s = false ->
  Forall (fun x => forall s, sem_ok ix (sem_nsems d) s -> sem_ok ix (sem_nsems d) (x.2 s)) w ->
  ops_in_set (sem_nsems d) sops -> Forall sop_ok sops -> Z.of_nat (length sops) <= MAX_SOPS ->
  semop_spec p ix sops w s (semop p cred w semid sops s).
Proof.
  intros Hp Hlock Hchk Hs Hg Hw Hin Hok Hmax. unfold semop, ix_semop.
  rewrite semlock_free by done. cbn [obind]. rewrite Hchk. cbn [obind].
  change (ipcperm cred (sem_perm d) IPC_W) with 0. cbn [Z.eqb negb].
  rewrite (proj2 (Z.ltb_ge _ _)) by done. by eapply semop_loop_ok.
Qed.

Lemma sem_two_ok : sem_ok 0 2 sem_two.
Proof.
  split_and!.
  - exists [], (fun _ => ∅). apply (rep_semu_ext sem_boot); [apply rep_boot|reflexivity|reflexivity].
  - reflexivity.
  - apply sem_two_in_pool.
  - exists set2. split; [reflexivity|]. intros _. split; [apply sem_two_in_pool|done].
Qed.

(** The second operation waits; another process adds nothing, the call starts again
    and waits again. *)
Lemma semop_all_or_nothing_witness :
  semop_spec 4 0 [mkSembuf 0 (-1) SEM_UNDO; mkSembuf 1 (-1) 0] [(0, fun s => s)] sem_two
    (semop 4 (mkCred 0 0) [(0, fun s => s)] 0 [mkSembuf 0 (-1) SEM_UNDO; mkSembuf 1 (-1) 0] sem_two).
Proof.
  apply (semop_all_or_nothing _ sem_two 4 (mkCred 0 0) 0 0 set2).
  - lia.
  - by left.
  - reflexivity.
  - apply sem_two_ok.
  - reflexivity.
  - apply Forall_cons. split; [by intros s0 H0|done].
  - repeat constructor; simpl; lia.
  - repeat constructor; unfold SEMMSL, SEMMNS; wrap_unfold; simpl; lia.
  - vm_compute. congruence.
Defined.

(** C2. The undo structures implement a map from (process, set, semaphore) to
    a pending adjustment: [semundo_adjust] adds the adjustment to the entry of
    the calling process (creating the structure of the process or the entry,
    and deleting an entry that reaches zero; an adjustment of 0 deletes the entry),
    whether the caller has the structure already or not.  It fails with EINVAL only
    when the process has SEMUME entries and none for this semaphore, and with ENOSPC
    only when each of the structures belongs to another process that has adjustments;
    on failure no adjustment changes.  It terminates, stays inside the arrays
    and its panic is not reached. *)
Theorem semundo_adjust_refines (s : semstate) (l : list Z) (f : Z -> umap)
  (p suptr semid semnum a : Z) :
  rep s l f -> p <> 0 -> suptr_ok s l p suptr -> is_s16 semnum -> - 2 ^ 15 <= a <= 2 ^ 15 ->
  adjust_spec s f p suptr (semid, semnum) a (semundo_adjust p suptr semid semnum a s).
Proof. apply semundo_adjust_all. Qed.

Lemma semundo_adjust_refines_witness :
  adjust_spec sem_boot (fun _ => ∅) 4 NIL (0, 1) (-3) (semundo_adjust 4 NIL 0 1 (-3) sem_boot).
Proof.
  apply (semundo_adjust_refines sem_boot [] (fun _ => ∅)).
  - apply rep_boot.
  - lia.
  - by left.
  - wrap_unfold. lia.
  - lia.
Defined.

(** ** Allocation of sets *)

Lemma layout_boot : layout sem_boot.
Proof.
  assert (Hall : forall i d, aget (sema sem_boot) i = Some d -> ds_alloc d = false).
  { intros i d H. assert (Hf : Forall (fun d => ds_alloc d = false) (sema sem_boot)).
    { apply Forall_fmap, Forall_replicate. done. }
    by eapply Forall_aget in Hf. }
  split; try done.
  - intros i d Hd%Hall Ha. congruence.
  - intros i j d e _ Hd%Hall _ Ha. congruence.
Qed.

(** [semget] creates a set of [nsems] zeroed semaphores in a free slot of
    the descriptor table, at the end of the used part of the pool, changing no
    other set and no semaphore in use; it fails with EINVAL when [nsems] is out
    of range and with ENOSPC when the pool or the table is full.  Every branch
    keeps the sets disjoint, inside the pool and accounted for in [semtot]. *)
Theorem semget_creates (s : semstate) (p now : Z) (cred : ucred) (nsems semflg : Z) :
  layout s -> semlock_holder s = 0 ->
  exists r s', semget p now cred [] IPC_PRIVATE nsems semflg s = Ret r s' /\
    semget_created cred IPC_PRIVATE nsems semflg s r s' /\ layout s'.
Proof.
  intros Hl Hlock. unfold semget, ix_semget. rewrite semlock_free by auto. cbn [obind].
  by apply semget_create_spec.
Qed.

Lemma semget_creates_witness :
  exists r s', semget 4 100 (mkCred 0 0) [] IPC_PRIVATE 5 0x1ff sem_boot = Ret r s' /\
    semget_created (mkCred 0 0) IPC_PRIVATE 5 0x1ff sem_boot r s' /\ layout s'.
Proof.
  apply (semget_creates sem_boot 4 100 (mkCred 0 0) 5 0x1ff);
    [apply layout_boot|reflexivity].
Defined.

(** A state with two sets: set 0 with two semaphores (5, 6), set 1 with one
    semaphore (7), as left by two calls of [semget] and direct stores. *)
Definition sem_sets : semstate :=
  set_semtot (set_pool (set_sema sem_boot
     (aput (aput (sema sem_boot) 0 (mkSemid (mkPerm 0 0 0 0 0x200 1 0) 0 2 0 0))
           1 (mkSemid (mkPerm 0 0 0 0 0x200 1 0) 2 1 0 0)))
     (mkSem 5 0 0 0 :: mkSem 6 0 0 0 :: mkSem 7 0 0 0 :: replicate 57 sem0)) 3.

Lemma layout_sets : layout sem_sets.
Proof.
  assert (Hall : forall i d, aget (sema sem_sets) i = Some d -> ds_alloc d = true ->
    (i = 0 /\ sem_base d = 0 /\ sem_nsems d = 2) \/ (i = 1 /\ sem_base d = 2 /\ sem_nsems d = 1)).
  { intros i d Hd Ha. pose proof (aget_Some_range _ _ _ Hd) as Hr.
    change (Z.of_nat (length (sema sem_sets))) with 10 in Hr.
    assert (Hi : i ∈ [0; 1; 2; 3; 4; 5; 6; 7; 8; 9]) by
      (rewrite !elem_of_cons; lia).
    rewrite !elem_of_cons in Hi.
    destruct Hi as [->|[->|[->|[->|[->|[->|[->|[->|[->|[->|Hi]]]]]]]]]]; [..|by apply elem_of_nil in Hi];
      vm_compute in Hd; injection Hd as <-; vm_compute in Ha; try congruence; simpl; lia. }
  split; try done.
  - intros i d Hd Ha. change (semtot sem_sets) with 3. destruct (Hall i d Hd Ha); lia.
  - intros i j d e Hne Hd He Ha Hb. destruct (Hall i d Hd Ha), (Hall j e He Hb); lia.
Qed.

Lemma rep_sets : rep sem_sets [] (fun _ => ∅).
Proof. apply (rep_semu_ext sem_boot); [apply rep_boot|reflexivity|reflexivity]. Qed.

(** Removing a set (the IPC_RMID command) compacts the pool and moves the
    sets behind it, but every other set keeps its permissions, its size and
    the state of each of its semaphores; the descriptor becomes free, the undo
    adjustments of every process lose exactly the entries of the removed set,
    the invariant on the sets is kept and its waiters are woken. *)
Theorem rmid_keeps_other_sets (cred : ucred) (s : semstate) (l : list Z) (f : Z -> umap)
  (ix : Z) (d : semid_ds) :
  layout s -> rep s l f -> aget (sema s) ix = Some d -> ds_alloc d = true ->
  exists s', sem_rmid cred ix d s = Ret tt s' /\ layout s' /\
    rep s' l (fun q => umap_without ix (f q)) /\ others_kept ix s s' /\
    (exists d', aget (sema s') ix = Some d' /\ ds_alloc d' = false) /\
    semtot s' = semtot s - sem_nsems d /\ head (woken s') = Some (WSema ix).
Proof. apply sem_rmid_spec. Qed.

Lemma rmid_keeps_other_sets_witness :
  exists d s', aget (sema sem_sets) 0 = Some d /\ sem_rmid (mkCred 0 0) 0 d sem_sets = Ret tt s' /\
    others_kept 0 sem_sets s'.
Proof.
  exists (mkSemid (mkPerm 0 0 0 0 0x200 1 0) 0 2 0 0).
  destruct (rmid_keeps_other_sets (mkCred 0 0) sem_sets [] (fun _ => ∅) 0
    (mkSemid (mkPerm 0 0 0 0 0x200 1 0) 0 2 0 0) layout_sets rep_sets eq_refl eq_refl)
    as (s' & H1 & _ & _ & H2 & _).
  exists s'. split; [reflexivity|]. split; [exact H1|exact H2].
Defined.

(** When a process exits, [semexit] applies each of its pending
    adjustments once to the semaphore it names (a value that would become
    negative becomes 0), changes no other semaphore, forgets the adjustments of
    this process and of no other, and leaves the facility unlocked. *)
Theorem semexit_applies_undos (s : semstate) (l : list Z) (f : Z -> umap) (p : Z) :
  layout s -> rep s l f -> p <> 0 -> semlock_holder s = 0 \/ semlock_holder s = p ->
  (forall k a, f p !! k = Some a -> ref_ok s k) ->
  Forall (fun x => 0 <= semval x) (sem_pool s) ->
  exists s', semexit p [] s = Ret tt s' /\ exited p f s s'.
Proof. apply semexit_spec. Qed.

(** The state [sem_sets] after process 4 has registered an adjustment. *)
Definition sem_pending : semstate :=
  match semundo_adjust 4 NIL 0 1 (-2) sem_sets with Ret _ s => s | _ => sem_sets end.

Lemma sem_pending_rep :
  exists l, rep sem_pending l (fset (fun _ => ∅) 4 (umap_add ∅ (0, 1) (-2))) /\
    same_but_undo sem_sets sem_pending.
Proof.
  destruct (semundo_adjust_spec sem_sets [] (fun _ => ∅) 4 NIL 0 1 (-2) rep_sets)
    as (e & sp & s' & l' & Heq & Hfr & Hc); [lia|by left|wrap_unfold; lia|unfold adj_range; lia|].
  assert (Hp : sem_pending = s') by (unfold sem_pending; by rewrite Heq).
  assert (He : e = 0).
  { assert (Hf : match semundo_adjust 4 NIL 0 1 (-2) sem_sets with Ret (e, _) _ => e | _ => 1 end = 0)
      by (vm_compute; reflexivity).
    by rewrite Heq in Hf. }
  exists l'. rewrite Hp. split; [|done].
  destruct Hc as [(_ & Hr & _)|[(-> & _)|(-> & _)]]; [done|by discriminate He|by discriminate He].
Qed.

Lemma semexit_applies_undos_witness :
  exists s', semexit 4 [] sem_pending = Ret tt s' /\
    exited 4 (fset (fun _ => ∅) 4 (umap_add ∅ (0, 1) (-2))) sem_pending s'.
Proof.
  destruct sem_pending_rep as (l & Hrep & Hfr).
  apply (semexit_applies_undos sem_pending l).
  - destruct layout_sets. rewrite Hfr. by split.
  - exact Hrep.
  - lia.
  - left. reflexivity.
  - intros k a. unfold fset. rewrite decide_True by done.
    assert (Hm : umap_add ∅ (0, 1) (-2) = {[ (0, 1) := -2 ]}) by (vm_compute; reflexivity).
    rewrite Hm. intros [<- <-]%lookup_singleton_Some.
    exists (mkSemid (mkPerm 0 0 0 0 0x200 1 0) 0 2 0 0). repeat split; simpl; lia.
  - rewrite Hfr. simpl. repeat constructor; simpl; lia.
Defined.

(** ** Where the code falls short of the contract *)

(** The exception to atomicity: an operation whose semaphore number lies
    outside the set makes [ix_semop] fail with EFBIG from the middle of the
    loop, and the operations in front of it stay applied. *)
Theorem semop_efbig_partial (s : semstate) (ix : Z) (d : semid_ds) (ops1 ops2 : list sembuf)
  (op : sembuf) (un : bool) (v : Z -> Z) :
  aget (sema s) ix = Some d -> set_in_pool s d -> ops_in_set (sem_nsems d) ops1 ->
  spec_semop ops1 (vals_at (sem_base d) (sem_pool s)) = Some v -> sem_nsems d <= sem_num op ->
  exists pool', semop_loop [] ix (ops1 ++ op :: ops2) un s =
      Ret (inl EFBIG) (set_errno (set_pool s pool') (-1)) /\
    pool_agrees (sem_base d) (sem_nsems d) v (sem_pool s) pool'.
Proof.
  intros Hd Hpool Hin Hv Hop.
  pose proof (semop_round_ok s ix d ops1 un Hd Hpool Hin) as Hr. unfold semop_round_spec in Hr.
  rewrite Hv in Hr. destruct Hr as (wk & un' & pool' & Heq & Hag).
  exists pool'. split; [|done]. simpl in *. rewrite Hd in *. rewrite try_ops_app.
  destruct (try_ops (sem_base d) (sem_nsems d) 0 ops1 false un (sem_pool s)) eqn:Ht.
  - injection Heq as -> -> Hp. subst pool. simpl. by rewrite (proj2 (Z.leb_le _ _)).
  - destruct (rollback _ _ _); [|done]. case_match; [done|]. by case_match.
  - done.
  - done.
Qed.

Lemma semop_efbig_partial_witness :
  exists pool', semop_loop [] 0 ([mkSembuf 0 4 0] ++ mkSembuf 9 1 0 :: []) false sem_two =
      Ret (inl EFBIG) (set_errno (set_pool sem_two pool') (-1)) /\
    pool_agrees 0 2 (fupd (vals_at 0 (sem_pool sem_two)) 0 7) (sem_pool sem_two) pool'.
Proof.
  apply (semop_efbig_partial sem_two 0 set2); [reflexivity|apply sem_two_in_pool| |reflexivity|].
  - repeat constructor; simpl; lia.
  - simpl. lia.
Defined.

(** The system calls, each run without having to sleep. *)
Inductive sem_step : semstate -> semstate -> Prop :=
| step_semget p now cred k nsems semflg r s s' :
    semget p now cred [] k nsems semflg s = Ret r s' -> sem_step s s'
| step_semctl p now cred semid semnum cmd arg r s s' :
    semctl p now cred [] semid semnum cmd arg s = Ret r s' -> sem_step s s'
| step_semop p cred semid sops r s s' :
    semop p cred [] semid sops s = Ret r s' -> sem_step s s'
| step_semexit p s s' :
    semexit p [] s = Ret tt s' -> sem_step s s'.

(** Every set was created exactly once, and no adjustment is pending. *)
Record young (s : semstate) : Prop := {
  young_lay : layout s;
  young_seq : forall i d, aget (sema s) i = Some d ->
    seq (sem_perm d) = if ds_alloc d then 1 else 0;
  young_undo : semu_list s = NIL
}.

Lemma young_boot : young sem_boot.
Proof.
  split; [apply layout_boot| |done]. intros i d Hd.
  assert (Hf : Forall (fun d => seq (sem_perm d) = if ds_alloc d then 1 else 0) (sema sem_boot)).
  { apply Forall_fmap, Forall_replicate. done. }
  by eapply Forall_aget in Hf.
Qed.

(** Only the lock, [errno] and the wake-ups differ. *)
Definition same_sets (s s' : semstate) : Prop :=
  sema s' = sema s /\ sem_pool s' = sem_pool s /\ semtot s' = semtot s /\
  semu_list s' = semu_list s.

Lemma young_same s s' : same_sets s s' -> young s -> young s'.
Proof.
  intros (H1 & H2 & H3 & H4) [[] ? ?]. split; rewrite ?H1, ?H4; try done.
  split; rewrite ?H1, ?H2, ?H3; done.
Qed.

(** In a young state no identifier passes the validation. *)
Lemma young_check semid s :
  young s -> semid_check semid s = Ret None s \/ semid_check semid s = Fault.
Proof.
  intros Hy. unfold semid_check. destruct (_ || _); [by left|].
  destruct (aget (sema s) _) as [d|] eqn:Hd; [|by right]. left.
  rewrite IPCID_TO_SEQ_of_ix, (young_seq _ Hy _ _ Hd). by destruct (ds_alloc d).
Qed.

Lemma semlock_nosleep p s w s' : semlock p [] s = Ret w s' -> w = [] /\ s' = s.
Proof. simpl. case_match; [done|]. by intros [= <- <-]. Qed.

Lemma young_create now cred k nsems semflg s r s' :
  young s -> ix_semget_create now cred k nsems semflg s = Ret r s' -> young s'.
Proof.
  intros Hy Heq.
  destruct (semget_create_spec now cred k nsems semflg s (young_lay _ Hy))
    as (r0 & s0 & Heq0 & Hc & Hl). rewrite Heq in Heq0. injection Heq0 as <- <-.
  assert (Hu : semu_list s' = semu_list s).
  { unfold ix_semget_create, errno_return in Heq. destruct (_ || _); [by simplify_eq|].
    destruct (_ <? _); [by simplify_eq|]. destruct (first_idx _ _ _) as [ix|]; [|by simplify_eq].
    destruct (aget _ ix); by simplify_eq. }
  split; [done| |by rewrite Hu, (young_undo _ Hy)].
  destruct Hc as [| |ix d d' s' ? Hd Ha Hd' Ha' _ _ Hs _ Ho]; try apply (young_seq _ Hy).
  intros i e He. destruct (Z.eq_dec i ix) as [->|Hne].
  - rewrite Hd' in He. injection He as <-. rewrite Ha', Hs, (young_seq _ Hy _ _ Hd), Ha. done.
  - rewrite Ho in He by done. by apply (young_seq _ Hy i).
Qed.

Lemma young_semget p now cred k nsems semflg s r s' :
  young s -> semget p now cred [] k nsems semflg s = Ret r s' -> young s'.
Proof.
  intros Hy H. unfold semget, ix_semget in H.
  apply obind_Ret_inv in H as (w & s1 & [-> ->]%semlock_nosleep & H).
  assert (Hcr : forall r s', (if (k =? IPC_PRIVATE) || bset semflg IPC_CREAT
    then ix_semget_create now cred k nsems semflg s
    else errno_return (-1) ENOENT s) = Ret r s' -> young s').
  { intros r0 s0. destruct (_ || _); [by apply young_create|]. intros [= <- <-].
    by apply (young_same s). }
  destruct (negb (k =? IPC_PRIVATE)); [|by eapply Hcr].
  destruct (first_idx _ (sema s) 0) as [ix|]; [|by eapply Hcr].
  destruct (aget (sema s) ix) as [d|]; [|done]. change (ipcperm _ _ _) with 0 in H.
  cbn [Z.eqb negb] in H. apply (young_same s); [|done].
  repeat (case_match; try done); unfold errno_return in *; by simplify_eq.
Qed.

Lemma young_step s s' : sem_step s s' -> young s -> young s'.
Proof.
  intros Hst Hy. destruct Hst as [p now cred k nsems semflg r s s' H
    |p now cred semid semnum cmd arg r s s' H|p cred semid sops r s s' H|p s s' H].
  - by eapply young_semget.
  - apply (young_same s); [|done]. unfold semctl in H.
    destruct (cmd =? GETSEMINFO); [by simplify_eq|]. destruct (cmd =? GETSEMA); [by simplify_eq|].
    destruct (cmd =? SEMLCK).
    { by apply obind_Ret_inv in H as (w & s1 & [-> ->]%semlock_nosleep & [= <- <-]). }
    destruct (cmd =? SEMUNLK); [by simplify_eq|].
    apply obind_Ret_inv in H as (a & s1 & H & [= <- <-]). unfold ix_semctl in H.
    apply obind_Ret_inv in H as (w & s2 & [-> ->]%semlock_nosleep & H).
    apply obind_Ret_inv in H as (c & s2 & Hc & H).
    destruct (young_check semid s Hy) as [E|E]; rewrite E in Hc; [|done].
    injection Hc as <- <-. by injection H as <- <-.
  - apply (young_same s); [|done]. unfold semop, ix_semop in H.
    apply obind_Ret_inv in H as (w & s2 & [-> ->]%semlock_nosleep & H).
    apply obind_Ret_inv in H as (c & s2 & Hc & H).
    destruct (young_check semid s Hy) as [E|E]; rewrite E in Hc; [|done].
    injection Hc as <- <-. by injection H as <- <-.
  - apply (young_same s); [|done]. unfold semexit in H.
    assert (Hf : semu_find semu_fuel p NIL s = Ret (NIL, NIL) s).
    { unfold semu_fuel. simpl. unfold get_link. by rewrite (young_undo _ Hy). }
    rewrite Hf in H. cbn [obind snd] in H. change (NIL =? NIL) with true in H. cbn iota in H.
    destruct (_ && _); [by simplify_eq|]. injection H as <-. unfold semexit_unlock. by case_match.
Qed.

(** C10. No semaphore set can be used: in every state the system calls lead to
    from the initial one, with the lock free or the caller's own, [semop] on any
    identifier whose index is in range of the table (an index from 10 to 59 reads
    behind it), in particular on the one [semget] has just returned, fails
    with EINVAL and changes nothing but [errno]; the identifier is reduced to
    its index before its sequence number is extracted, so the number compared
    is 0, and a fresh set has number 1.  The invariant on the sets holds in all
    these states. *)
Theorem semop_always_einval (s : semstate) (p : Z) (cred : ucred) (semid : Z)
  (sops : list sembuf) :
  rtc sem_step sem_boot s -> IPCID_TO_IX semid < SEMMNI ->
  semlock_holder s = 0 \/ semlock_holder s = p ->
  layout s /\ semop p cred [] semid sops s = Ret EINVAL (set_errno s (-1)).
Proof.
  intros Hreach Hix Hlock.
  assert (Hy : young s).
  { revert Hreach. apply (rtc_ind_r young); [apply young_boot|]. intros ? ? _ ? ?.
    by eapply young_step. }
  split; [apply Hy|]. unfold semop, ix_semop. rewrite semlock_free by done. cbn [obind].
  destruct (young_check semid s Hy) as [->|Hf]; [done|]. exfalso.
  unfold semid_check in Hf. destruct (_ || _) eqn:Hr; [done|].
  destruct (aget_is_Some (sema s) (IPCID_TO_IX semid)) as [d Hd].
  { rewrite (lay_sema _ (young_lay _ Hy)). split; [apply IPCID_TO_IX_range|].
    unfold SEMMNI in *. lia. }
  rewrite Hd in Hf. by case_match.
Qed.

Definition sem_got : semstate :=
  match semget 4 100 (mkCred 0 0) [] IPC_PRIVATE 5 0x1ff sem_boot with
  | Ret _ s => s | _ => sem_boot end.

Lemma semop_always_einval_witness :
  layout sem_got /\
  semop 4 (mkCred 0 0) [] (2 ^ 16) [mkSembuf 0 1 0] sem_got = Ret EINVAL (set_errno sem_got (-1)).
Proof.
  apply semop_always_einval.
  - apply rtc_once. eapply (step_semget 4 100 (mkCred 0 0) IPC_PRIVATE 5 0x1ff (2 ^ 16)).
    vm_compute. reflexivity.
  - vm_compute. reflexivity.
  - left. vm_compute. reflexivity.
Defined.
