(* ===== verification/SysvMsg.v ===== *)
(** * System V message queues: data and operations

    Models library/sysv_msg.c with the types of include/sys/msg.h: the pool of
    8-byte segments and the links between them, the message headers, the queue
    descriptors and the calls [msgget], [msgctl], [msgsnd] and [msgrcv].
    Pointers into the static arrays are array indices, [NIL] ([-1]) standing
    for NULL.  A user buffer read by [msgsnd] is the message type and the list
    of the readable bytes behind it; what [msgrcv] writes is the type and the
    list of bytes stored behind it.  As for semaphores, a call that sleeps
    consumes an element of a schedule: the value [ix_sleep] returns and the
    change of the state made in the meantime. *)

From S2P Require Import Prelude Ipc.

Module Msg.

(** ** Data *)

Definition MSG_NOERROR : Z := 0x1000.
Definition MSG_LOCKED : Z := 0x200.
Definition MSGSSZ : Z := 8.
Definition MSGSEG : Z := 2048.
Definition MSGMAX : Z := MSGSSZ * MSGSEG.
Definition MSGMNB : Z := 2048.
Definition MSGMNI : Z := 40.
Definition MSGTQL : Z := 40.
Definition GETMSGINFO : Z := 8.
Definition GETMSQIDSA : Z := 9.

Record msqid_ds := mkMsqid {
  msg_perm : ipc_perm;
  msg_first : Z; msg_last : Z;
  msg_cbytes : Z; msg_qnum : Z; msg_qbytes : Z;
  msg_lspid : Z; msg_lrpid : Z;
  msg_stime : Z; msg_rtime : Z; msg_ctime : Z
}.

Record msg := mkMsg { msg_next : Z; msg_type : Z; msg_ts : Z; msg_spot : Z }.

Record msgstate := mkMsgState {
  nfree_msgmaps : Z;
  free_msgmaps : Z;
  free_msghdrs : Z;
  msgpool : list Z;
  msgmaps : list Z;
  msghdrs : list msg;
  msqids : list msqid_ds;
  msg_errno : Z;
  msg_woken : list Z
}.

Definition schedule : Type := list (Z * (msgstate -> msgstate)).

(** ** Field updates *)

Definition set_free (s : msgstate) n f := mkMsgState n f (free_msghdrs s) (msgpool s) (msgmaps s) (msghdrs s) (msqids s) (msg_errno s) (msg_woken s).
Definition set_fhdr (s : msgstate) v := mkMsgState (nfree_msgmaps s) (free_msgmaps s) v (msgpool s) (msgmaps s) (msghdrs s) (msqids s) (msg_errno s) (msg_woken s).
Definition set_mpool (s : msgstate) v := mkMsgState (nfree_msgmaps s) (free_msgmaps s) (free_msghdrs s) v (msgmaps s) (msghdrs s) (msqids s) (msg_errno s) (msg_woken s).
Definition set_maps (s : msgstate) v := mkMsgState (nfree_msgmaps s) (free_msgmaps s) (free_msghdrs s) (msgpool s) v (msghdrs s) (msqids s) (msg_errno s) (msg_woken s).
Definition set_hdrs (s : msgstate) v := mkMsgState (nfree_msgmaps s) (free_msgmaps s) (free_msghdrs s) (msgpool s) (msgmaps s) v (msqids s) (msg_errno s) (msg_woken s).
Definition set_qids (s : msgstate) v := mkMsgState (nfree_msgmaps s) (free_msgmaps s) (free_msghdrs s) (msgpool s) (msgmaps s) (msghdrs s) v (msg_errno s) (msg_woken s).
Definition set_merrno (s : msgstate) v := mkMsgState (nfree_msgmaps s) (free_msgmaps s) (free_msghdrs s) (msgpool s) (msgmaps s) (msghdrs s) (msqids s) v (msg_woken s).
Definition wake (s : msgstate) q := mkMsgState (nfree_msgmaps s) (free_msgmaps s) (free_msghdrs s) (msgpool s) (msgmaps s) (msghdrs s) (msqids s) (msg_errno s) (q :: msg_woken s).

Definition hdr_set_next (m : msg) v := mkMsg v (msg_type m) (msg_ts m) (msg_spot m).
Definition hdr_set_type (m : msg) v := mkMsg (msg_next m) v (msg_ts m) (msg_spot m).
Definition hdr_set_body (m : msg) ts spot := mkMsg (msg_next m) (msg_type m) ts spot.

Definition ds_set_perm (d : msqid_ds) v := mkMsqid v (msg_first d) (msg_last d) (msg_cbytes d) (msg_qnum d) (msg_qbytes d) (msg_lspid d) (msg_lrpid d) (msg_stime d) (msg_rtime d) (msg_ctime d).
Definition ds_set_ends (d : msqid_ds) f l := mkMsqid (msg_perm d) f l (msg_cbytes d) (msg_qnum d) (msg_qbytes d) (msg_lspid d) (msg_lrpid d) (msg_stime d) (msg_rtime d) (msg_ctime d).
Definition ds_set_counts (d : msqid_ds) c n := mkMsqid (msg_perm d) (msg_first d) (msg_last d) c n (msg_qbytes d) (msg_lspid d) (msg_lrpid d) (msg_stime d) (msg_rtime d) (msg_ctime d).
Definition ds_set_qbytes (d : msqid_ds) v := mkMsqid (msg_perm d) (msg_first d) (msg_last d) (msg_cbytes d) (msg_qnum d) v (msg_lspid d) (msg_lrpid d) (msg_stime d) (msg_rtime d) (msg_ctime d).
Definition ds_set_sent (d : msqid_ds) p t := mkMsqid (msg_perm d) (msg_first d) (msg_last d) (msg_cbytes d) (msg_qnum d) (msg_qbytes d) p (msg_lrpid d) t (msg_rtime d) (msg_ctime d).
Definition ds_set_rcvd (d : msqid_ds) p t := mkMsqid (msg_perm d) (msg_first d) (msg_last d) (msg_cbytes d) (msg_qnum d) (msg_qbytes d) (msg_lspid d) p (msg_stime d) t (msg_ctime d).
Definition ds_set_ctime (d : msqid_ds) v := mkMsqid (msg_perm d) (msg_first d) (msg_last d) (msg_cbytes d) (msg_qnum d) (msg_qbytes d) (msg_lspid d) (msg_lrpid d) (msg_stime d) (msg_rtime d) v.

Definition put_hdr (s : msgstate) h m := set_hdrs s (aput (msghdrs s) h m).
Definition put_q (s : msgstate) q d := set_qids s (aput (msqids s) q d).

Definition locked (d : msqid_ds) : bool := bset (mode (msg_perm d)) MSG_LOCKED.
Definition lock (d : msqid_ds) : msqid_ds :=
  ds_set_perm d (perm_set_mode (msg_perm d) (Z.lor (mode (msg_perm d)) MSG_LOCKED)).
Definition unlock (d : msqid_ds) : msqid_ds :=
  ds_set_perm d (perm_set_mode (msg_perm d) (bclr (mode (msg_perm d)) MSG_LOCKED)).

(** [errno_return(e, -1)] *)
Definition fail {A} (e : Z) (r : A) (s : msgstate) : outcome msgstate A := Ret r (set_merrno s e).

(** ** msginit *)

(** [n] links, each to the following index, the last one null. *)
Definition linked (n : Z) : list Z :=
  map (fun i => if Z.of_nat i + 1 <? n then Z.of_nat i + 1 else NIL) (List.seq 0 (Z.to_nat n)).

(** The search for the power of two: [i = 8; while (i < 1024 && i != z) i <<= 1]. *)
Fixpoint pow2_search (fuel : nat) (i z : Z) : Z :=
  match fuel with
  | O => i
  | S f => if (i <? 1024) && negb (i =? z) then pow2_search f (Z.shiftl i 1) z else i
  end.

Definition msginit (s : msgstate) : outcome msgstate unit :=
  if negb (pow2_search 8 8 MSGSSZ =? MSGSSZ) then Panic "msginfo.msgssz (not a small power of 2)"
  else if 32767 <? MSGSEG then Panic "msginfo.msgseg (> 32767)"
  else
    let s := set_maps s (linked MSGSEG) in
    let s := set_free s MSGSEG 0 in
    let s := set_hdrs s (zip_with (fun m n => mkMsg n 0 (msg_ts m) (msg_spot m))
                                  (msghdrs s) (linked MSGTQL)) in
    let s := set_fhdr s 0 in
    Ret tt (set_qids s (map (fun d =>
      ds_set_perm (ds_set_qbytes d 0)
        (mkPerm (cuid (msg_perm d)) (cgid (msg_perm d)) (uid (msg_perm d)) (gid (msg_perm d))
                (mode (msg_perm d)) 0 (key (msg_perm d)))) (msqids s))).

(** ** msg_freehdr *)

(** The loop that returns the segments to the free list; [msg_ts] decreases, so
    it is enough fuel. *)
Fixpoint free_segs (fuel : nat) (h : Z) (s : msgstate) : outcome msgstate unit :=
  let? m := aget (msghdrs s) h in
  if 0 <? msg_ts m then
    match fuel with
    | O => Diverge
    | S f =>
        if (msg_spot m <? 0) || (MSGSEG <=? msg_spot m) then Panic "msghdr->msg_spot out of range"
        else
          let? next := aget (msgmaps s) (msg_spot m) in
          let s := set_maps s (aput (msgmaps s) (msg_spot m) (free_msgmaps s)) in
          let s := set_free s (nfree_msgmaps s + 1) (msg_spot m) in
          let ts := if MSGSSZ <=? msg_ts m then msg_ts m - MSGSSZ else 0 in
          free_segs f h (put_hdr s h (hdr_set_body m ts next))
    end
  else Ret tt s.

Definition msg_freehdr (h : Z) (s : msgstate) : outcome msgstate unit :=
  let? m := aget (msghdrs s) h in
  let* (_u, s) := free_segs (Z.to_nat (msg_ts m)) h s in
  let? m := aget (msghdrs s) h in
  if negb (msg_spot m =? -1) then Panic "msghdr->msg_spot != -1"
  else
    let s := put_hdr s h (hdr_set_next m (free_msghdrs s)) in
    Ret tt (set_fhdr s h).

(** ** Validation of an identifier

    [msqid] is overwritten by its index before its sequence number is taken. *)
Definition msqid_check (msqid : Z) (s : msgstate) : outcome msgstate (option (Z * msqid_ds)) :=
  let msqid := IPCID_TO_IX msqid in
  if (msqid <? 0) || (MSGMNI <=? msqid) then Ret None s
  else
    let? d := aget (msqids s) msqid in
    if msg_qbytes d =? 0 then Ret None s
    else if negb (seq (msg_perm d) =? IPCID_TO_SEQ msqid) then Ret None s
    else Ret (Some (msqid, d)) s.

(** ** msgctl *)

(** The loop of IPC_RMID over the messages of queue [q], from header [h]. *)
Fixpoint rmid_msgs (fuel : nat) (q h : Z) (s : msgstate) : outcome msgstate unit :=
  if h =? NIL then Ret tt s
  else
    match fuel with
    | O => Diverge
    | S f =>
        let? m := aget (msghdrs s) h in
        let? d := aget (msqids s) q in
        let s := put_q s q (ds_set_counts d (u32 (msg_cbytes d - msg_ts m)) (u32 (msg_qnum d - 1))) in
        let* (_u, s) := msg_freehdr h s in
        rmid_msgs f q (msg_next m) s
    end.

Definition hdr_fuel : nat := Z.to_nat MSGTQL.

Definition msg_rmid (q : Z) (s : msgstate) : outcome msgstate unit :=
  let? d := aget (msqids s) q in
  let* (_u, s) := rmid_msgs hdr_fuel q (msg_first d) s in
  let? d := aget (msqids s) q in
  if negb (msg_cbytes d =? 0) then Panic "msg_cbytes is screwed up"
  else if negb (msg_qnum d =? 0) then Panic "msg_qnum is screwed up"
  else Ret tt (wake (put_q s q (ds_set_qbytes d 0)) q).

(** The result is the return value and the user's buffer afterwards. *)
Definition ix_msgctl (now : Z) (cred : ucred) (msqid cmd : Z) (ubuf : msqid_ds) (s : msgstate)
  : outcome msgstate (Z * msqid_ds) :=
  let* (chk, s) := msqid_check msqid s in
  match chk with
  | None => fail EINVAL (-1, ubuf) s
  | Some (q, d) =>
      if cmd =? IPC_RMID then
        let eval := ipcperm cred (msg_perm d) IPC_M in
        if negb (eval =? 0) then fail eval (-1, ubuf) s
        else
          let* (_u, s) := msg_rmid q s in
          Ret (0, ubuf) s
      else if cmd =? IPC_SET then
        let eval := ipcperm cred (msg_perm d) IPC_M in
        if negb (eval =? 0) then fail eval (-1, ubuf) s
        else if (msg_qbytes d <? msg_qbytes ubuf) && negb (cr_uid cred =? 0)
        then fail EPERM (-1, ubuf) s
        else
          let ubuf := if MSGMNB <? msg_qbytes ubuf then ds_set_qbytes ubuf MSGMNB else ubuf in
          if msg_qbytes ubuf =? 0 then fail EINVAL (-1, ubuf) s
          else
            let np := msg_perm ubuf in
            let perm := perm_set_owner (msg_perm d) (uid np) (gid np)
                          (mode_replace (mode (msg_perm d)) (mode np)) in
            let d := ds_set_ctime (ds_set_qbytes (ds_set_perm d perm) (msg_qbytes ubuf)) now in
            Ret (0, ubuf) (put_q s q d)
      else if cmd =? IPC_STAT then
        let eval := ipcperm cred (msg_perm d) IPC_R in
        if negb (eval =? 0) then fail eval (-1, ubuf) s
        else Ret (0, d) s
      else fail EINVAL (-1, ubuf) s
  end.

(** ** msgget *)

Definition ix_msgget (now : Z) (cred : ucred) (k msgflg : Z) (s : msgstate)
  : outcome msgstate Z :=
  let create :=
    if (k =? IPC_PRIVATE) || bset msgflg IPC_CREAT then
      match first_idx (fun d => (msg_qbytes d =? 0) && negb (locked d)) (msqids s) 0 with
      | None => fail ENOSPC (-1) s
      | Some q =>
          let? d := aget (msqids s) q in
          let perm := mkPerm (u16 (cr_uid cred)) (u16 (cr_gid cred))
                             (u16 (cr_uid cred)) (u16 (cr_gid cred))
                             (Z.land msgflg 0x1ff) (u16 (seq (msg_perm d) + 1)) k in
          Ret (IXSEQ_TO_IPCID q perm)
              (put_q s q (mkMsqid perm NIL NIL 0 0 MSGMNB 0 0 0 0 now))
      end
    else fail ENOENT (-1) s in
  if negb (k =? IPC_PRIVATE) then
    match first_idx (fun d => negb (msg_qbytes d =? 0) && (key (msg_perm d) =? k)) (msqids s) 0 with
    | Some q =>
        let? d := aget (msqids s) q in
        if bset msgflg IPC_CREAT && bset msgflg IPC_EXCL then fail EEXIST (-1) s
        else
          let eval := ipcperm cred (msg_perm d) (Z.land msgflg 0x1c0) in
          if negb (eval =? 0) then fail eval (-1) s
          else Ret (IXSEQ_TO_IPCID q (msg_perm d)) s
    | None => create
    end
  else create.

(** ** msgsnd *)

Definition segs_for (msgsz : Z) : Z := s32 (u32 (msgsz + MSGSSZ - 1) / MSGSSZ).

(** [need_more_resources] *)
Definition snd_blocked (d : msqid_ds) (msgsz : Z) (s : msgstate) : bool :=
  locked d || (msg_qbytes d <? u32 (msgsz + msg_cbytes d)) ||
  (nfree_msgmaps s <? segs_for msgsz) || (free_msghdrs s =? NIL).

(** The [for (;;)] loop: [Some e] is an error to report, [None] the break. *)
Fixpoint snd_wait (w : schedule) (q msgsz msgflg : Z) (s : msgstate)
  : outcome msgstate (option Z) :=
  let? d := aget (msqids s) q in
  if msg_qbytes d <? msgsz then Ret (Some EINVAL) s
  else if snd_blocked d msgsz s then
    if bset msgflg IPC_NOWAIT then Ret (Some EAGAIN) s
    else
      let own := negb (locked d) in
      let s := if own then put_q s q (lock d) else s in
      match w with
      | [] => Asleep s
      | (eval, env) :: w' =>
          let s := env s in
          let? d := aget (msqids s) q in
          let d := if own then unlock d else d in
          let s := put_q s q d in
          if negb (eval =? 0) then Ret (Some EINTR) s
          else if msg_qbytes d =? 0 then Ret (Some EINVAL) s
          else snd_wait w' q msgsz msgflg s
      end
  else Ret None s.

(** Allocation of [n] segments, pushed one by one in front of [msg_spot]. *)
Fixpoint alloc_segs (n : nat) (h : Z) (s : msgstate) : outcome msgstate unit :=
  match n with
  | O => Ret tt s
  | S n' =>
      if nfree_msgmaps s <=? 0 then Panic "not enough msgmaps"
      else if free_msgmaps s =? -1 then Panic "nil free_msgmaps"
      else
        let next := free_msgmaps s in
        if next <=? -1 then Panic "next too low #1"
        else if MSGSEG <=? next then Panic "next out of range #1"
        else
          let? nn := aget (msgmaps s) next in
          let? m := aget (msghdrs s) h in
          let s := set_free s (nfree_msgmaps s - 1) nn in
          let s := set_maps s (aput (msgmaps s) next (msg_spot m)) in
          alloc_segs n' h (put_hdr s h (hdr_set_body m (msg_ts m) next))
  end.

(** [memcpy(&msgpool[off], bytes, n)] and its converse. *)
Definition pool_write (pool : list Z) (off : Z) (bytes : list Z) : list Z :=
  take (Z.to_nat off) pool ++ bytes ++ drop (Z.to_nat off + length bytes) pool.
Definition pool_read (pool : list Z) (off n : Z) : list Z :=
  take (Z.to_nat n) (drop (Z.to_nat off) pool).

(** The copy loop of [msgsnd]; the result is the segment after the last one. *)
Fixpoint copy_in (fuel : nat) (next msgsz : Z) (body : list Z) (s : msgstate)
  : outcome msgstate Z :=
  if 0 <? msgsz then
    match fuel with
    | O => Diverge
    | S f =>
        let tlen := if MSGSSZ <? msgsz then MSGSSZ else msgsz in
        if next <=? -1 then Panic "next too low #2"
        else if MSGSEG <=? next then Panic "next out of range #2"
        else if Z.of_nat (length body) <? tlen then Fault
        else
          let chunk := take (Z.to_nat tlen) body in
          let s := set_mpool s (pool_write (msgpool s) (next * MSGSSZ) chunk) in
          let? nn := aget (msgmaps s) next in
          copy_in f nn (msgsz - tlen) (drop (Z.to_nat tlen) body) s
    end
  else Ret next s.

(** From "We have the resources that we need" to "Copy in the message type". *)
Definition snd_take (q msgsz mtype : Z) (s : msgstate) : outcome msgstate Z :=
  let? d := aget (msqids s) q in
  if locked d then Panic "msg_perm.mode & MSG_LOCKED"
  else if nfree_msgmaps s <? segs_for msgsz then Panic "segs_needed > nfree_msgmaps"
  else if msg_qbytes d <? u32 (msgsz + msg_cbytes d) then Panic "msgsz + msg_cbytes > msg_qbytes"
  else if free_msghdrs s =? NIL then Panic "no more msghdrs"
  else
    let s := put_q s q (lock d) in
    let h := free_msghdrs s in
    let? m := aget (msghdrs s) h in
    let s := set_fhdr s (msg_next m) in
    let s := put_hdr s h (hdr_set_body m (u16 msgsz) (-1)) in
    let* (_u, s) := alloc_segs (Z.to_nat (segs_for msgsz)) h s in
    let? m := aget (msghdrs s) h in
    Ret h (put_hdr s h (hdr_set_type m mtype)).

(** "Put the message into the queue". *)
Definition snd_enqueue (pid now q h : Z) (s : msgstate) : outcome msgstate unit :=
  let? d := aget (msqids s) q in
  let* (d, s) :=
    (if msg_first d =? NIL then Ret (ds_set_ends d h h) s
     else
       let? l := aget (msghdrs s) (msg_last d) in
       Ret (ds_set_ends d (msg_first d) h) (put_hdr s (msg_last d) (hdr_set_next l h))) in
  let? m := aget (msghdrs s) h in
  let s := put_hdr s h (hdr_set_next m NIL) in
  let d := ds_set_counts d (u32 (msg_cbytes d + msg_ts m)) (u32 (msg_qnum d + 1)) in
  Ret tt (wake (put_q s q (ds_set_sent d pid now)) q).

Definition snd_unlock (q : Z) (s : msgstate) : outcome msgstate unit :=
  let? d := aget (msqids s) q in
  Ret tt (put_q s q (unlock d)).

(** Everything after the waiting loop. *)
Definition snd_deliver (pid now q msgsz mtype : Z) (body : list Z) (s : msgstate)
  : outcome msgstate Z :=
  let* (h, s) := snd_take q msgsz mtype s in
  if mtype <? 1 then
    let* (_u, s) := msg_freehdr h s in
    let* (_u, s) := snd_unlock q s in
    fail EINVAL (-1) (wake s q)
  else
    let? m := aget (msghdrs s) h in
    let* (next, s) := copy_in (Z.to_nat msgsz) (msg_spot m) msgsz body s in
    if negb (next =? -1) then Panic "didn't use all the msg segments"
    else
      let* (_u, s) := snd_unlock q s in
      let? d := aget (msqids s) q in
      if msg_qbytes d =? 0 then
        let* (_u, s) := msg_freehdr h s in
        fail EINVAL (-1) (wake s q)
      else
        let* (_u, s) := snd_enqueue pid now q h s in
        Ret 0 s.

Definition ix_msgsnd (pid now : Z) (cred : ucred) (w : schedule)
  (msqid mtype : Z) (body : list Z) (msgsz msgflg : Z) (s : msgstate) : outcome msgstate Z :=
  let* (chk, s) := msqid_check msqid s in
  match chk with
  | None => fail EINVAL (-1) s
  | Some (q, d) =>
      let eval := ipcperm cred (msg_perm d) IPC_W in
      if negb (eval =? 0) then fail eval (-1) s
      else
        let* (r, s) := snd_wait w q msgsz msgflg s in
        match r with
        | Some e => fail e (-1) s
        | None => snd_deliver pid now q msgsz mtype body s
        end
  end.

(** ** msgrcv *)

(** What a pass over the queue finds: an error, a message taken out, nothing. *)
Inductive found := FoundErr (e : Z) | FoundMsg (h : Z) | FoundNone.

(** [msgtyp == 0]: the first message. *)
Definition rcv_first (q msgsz msgflg : Z) (s : msgstate) : outcome msgstate found :=
  let? d := aget (msqids s) q in
  let h := msg_first d in
  if h =? NIL then Ret FoundNone s
  else
    let? m := aget (msghdrs s) h in
    if (msgsz <? msg_ts m) && negb (bset msgflg MSG_NOERROR) then Ret (FoundErr E2BIG) s
    else if msg_first d =? msg_last d then Ret (FoundMsg h) (put_q s q (ds_set_ends d NIL NIL))
    else if msg_next m =? NIL then Panic "msg_first/last screwed up #1"
    else Ret (FoundMsg h) (put_q s q (ds_set_ends d (msg_next m) (msg_last d))).

Definition type_match (msgtyp : Z) (m : msg) : bool :=
  (msgtyp =? msg_type m) || (msg_type m <=? s32 (- msgtyp)).

(** [*prev = msghdr->msg_next] and the repair of [msg_last]; [previous] is
    [NIL] when [prev] is [&msqptr->msg_first].  The panics #2 and #3 of the code
    compare [prev] with that address where [previous] is known to be, or not to
    be, NULL, so that they cannot be reached. *)
Definition rcv_unlink (q previous h : Z) (m : msg) (s : msgstate) : outcome msgstate unit :=
  let? d := aget (msqids s) q in
  if previous =? NIL then
    if h =? msg_last d then Ret tt (put_q s q (ds_set_ends d NIL NIL))
    else Ret tt (put_q s q (ds_set_ends d (msg_next m) (msg_last d)))
  else
    let? p := aget (msghdrs s) previous in
    let s := put_hdr s previous (hdr_set_next p (msg_next m)) in
    if h =? msg_last d then Ret tt (put_q s q (ds_set_ends d (msg_first d) previous))
    else Ret tt s.

(** [msgtyp != 0]: the loop over the queue, standing at [h]. *)
Fixpoint rcv_typed (fuel : nat) (q previous h msgsz msgtyp msgflg : Z) (s : msgstate)
  : outcome msgstate found :=
  if h =? NIL then Ret FoundNone s
  else
    match fuel with
    | O => Diverge
    | S f =>
        let? m := aget (msghdrs s) h in
        if type_match msgtyp m then
          if (msgsz <? msg_ts m) && negb (bset msgflg MSG_NOERROR) then Ret (FoundErr E2BIG) s
          else
            let* (_u, s) := rcv_unlink q previous h m s in
            Ret (FoundMsg h) s
        else rcv_typed f q h (msg_next m) msgsz msgtyp msgflg s
    end.

Definition rcv_select (q msgsz msgtyp msgflg : Z) (s : msgstate) : outcome msgstate found :=
  if msgtyp =? 0 then rcv_first q msgsz msgflg s
  else
    let? d := aget (msqids s) q in
    rcv_typed hdr_fuel q NIL (msg_first d) msgsz msgtyp msgflg s.

(** [while (msghdr == NULL)]: an error or a header. *)
Fixpoint rcv_wait (w : schedule) (q msgsz msgtyp msgflg : Z) (s : msgstate)
  : outcome msgstate (Z + Z) :=
  let* (r, s) := rcv_select q msgsz msgtyp msgflg s in
  match r with
  | FoundErr e => Ret (inl e) s
  | FoundMsg h => Ret (inr h) s
  | FoundNone =>
      if bset msgflg IPC_NOWAIT then Ret (inl EAGAIN) s
      else
        match w with
        | [] => Asleep s
        | (eval, env) :: w' =>
            let s := env s in
            if negb (eval =? 0) then Ret (inl EINTR) s
            else
              let? d := aget (msqids s) q in
              if (msg_qbytes d =? 0) || negb (seq (msg_perm d) =? IPCID_TO_SEQ q)
              then Ret (inl EINVAL) s
              else rcv_wait w' q msgsz msgtyp msgflg s
        end
  end.

(** [for (len = 0; len < msgsz; len += msginfo.msgssz)]: the bytes stored
    behind the type in the user's buffer. *)
Fixpoint copy_out (fuel : nat) (len next msgsz : Z) (s : msgstate)
  : outcome msgstate (list Z) :=
  if len <? msgsz then
    match fuel with
    | O => Diverge
    | S f =>
        let tlen := if MSGSSZ <? msgsz then MSGSSZ else msgsz in
        if next <=? -1 then Panic "next too low #3"
        else if MSGSEG <=? next then Panic "next out of range #3"
        else
          let chunk := pool_read (msgpool s) (next * MSGSSZ) tlen in
          let? nn := aget (msgmaps s) next in
          let* (rest, s) := copy_out f (len + MSGSSZ) nn msgsz s in
          Ret (chunk ++ rest) s
    end
  else Ret [] s.

(** What [msgrcv] returns and stores: nothing on an error. *)
Definition rcv_result : Type := Z * option (Z * list Z).

(** Bookkeeping, copy and release of the message taken out of the queue. *)
Definition rcv_deliver (pid now q h msgsz : Z) (s : msgstate) : outcome msgstate rcv_result :=
  let? m := aget (msghdrs s) h in
  let? d := aget (msqids s) q in
  let d := ds_set_counts d (u32 (msg_cbytes d - msg_ts m)) (u32 (msg_qnum d - 1)) in
  let s := put_q s q (ds_set_rcvd d pid now) in
  let msgsz := if msg_ts m <? msgsz then msg_ts m else msgsz in
  let* (bytes, s) := copy_out (Z.to_nat msgsz) 0 (msg_spot m) msgsz s in
  let* (_u, s) := msg_freehdr h s in
  Ret (s32 msgsz, Some (msg_type m, bytes)) (wake s q).

Definition ix_msgrcv (pid now : Z) (cred : ucred) (w : schedule)
  (msqid msgsz msgtyp msgflg : Z) (s : msgstate) : outcome msgstate rcv_result :=
  let* (chk, s) := msqid_check msqid s in
  match chk with
  | None => fail EINVAL (-1, None) s
  | Some (q, d) =>
      let eval := ipcperm cred (msg_perm d) IPC_R in
      if negb (eval =? 0) then fail eval (-1, None) s
      else
        let* (r, s) := rcv_wait w q msgsz msgtyp msgflg s in
        match r with
        | inl e => fail e (-1, None) s
        | inr h => rcv_deliver pid now q h msgsz s
        end
  end.

(** ** The entry points *)

Inductive msgctl_val := CtlNum (r : Z) (ubuf : msqid_ds) | CtlMsginfo | CtlMsqids.

Definition msgget := ix_msgget.
Definition msgsnd := ix_msgsnd.
Definition msgrcv := ix_msgrcv.
Definition msgctl (now : Z) (cred : ucred) (msqid cmd : Z) (ubuf : msqid_ds) (s : msgstate)
  : outcome msgstate msgctl_val :=
  if cmd =? GETMSGINFO then Ret CtlMsginfo s
  else if cmd =? GETMSQIDSA then Ret CtlMsqids s
  else
    let* (r, s) := ix_msgctl now cred msqid cmd ubuf s in
    Ret (CtlNum (fst r) (snd r)) s.

End Msg.
