(* ===== verification/SysvMsgCopy.v ===== *)
(** * System V message queues: the message text

    The copy loops of [msgsnd] and [msgrcv]: the text of a message is spread
    over its segments, and copying it in changes no other segment. *)

From S2P Require Import Prelude Ipc SysvMsg.
Export Msg.

(** ** Links *)

Definition hnext (hdrs : list msg) (h : Z) : option Z := msg_next <$> aget hdrs h.

Lemma chain_put_out (maps : list Z) x v h l :
  chain (aget maps) h l -> x ∉ l -> chain (aget (aput maps x v)) h l.
Proof.
  intros Hc Hx. eapply chain_ext; [done|]. intros y Hy. apply aget_aput_ne. set_solver.
Qed.

Lemma chain_push (maps : list Z) x h l :
  chain (aget maps) h l -> x ∉ l -> is_Some (aget maps x) ->
  chain (aget (aput maps x h)) x (x :: l).
Proof.
  intros Hc Hx [y Hy]. econstructor.
  - by destruct (aget_Some_range _ _ _ Hy).
  - by eapply aget_aput_eq.
  - by apply chain_put_out.
Qed.

Lemma chain_in_range (maps : list Z) h l x :
  chain (aget maps) h l -> x ∈ l -> is_Some (aget maps x).
Proof.
  induction 1 as [|y z l Hy Hn Hc IH]; intros Hx; [by apply elem_of_nil in Hx|].
  apply elem_of_cons in Hx as [->|Hx]; eauto.
Qed.

Lemma hnext_put_out hdrs h m k : h <> k -> hnext (aput hdrs h m) k = hnext hdrs k.
Proof. intros H. unfold hnext. by rewrite aget_aput_ne. Qed.

Lemma hnext_put_same hdrs h m m0 k :
  aget hdrs h = Some m0 -> msg_next m = msg_next m0 -> hnext (aput hdrs h m) k = hnext hdrs k.
Proof.
  intros Hh Hn. unfold hnext. rewrite (aget_aput _ _ _ _ m0 Hh).
  destruct (Z.eqb_spec h k) as [->|]; [|done]. rewrite Hh. simpl. by rewrite Hn.
Qed.

Lemma put_hdr_same s h m : aget (msghdrs s) h = Some m -> put_hdr s h m = s.
Proof. intros H. unfold put_hdr. rewrite aput_same by done. by destruct s. Qed.

(** ** Number of segments of a message *)

Definition segs_of (ts : Z) : Z := (ts + 7) / 8.

Lemma segs_for_small msgsz : 0 <= msgsz <= MSGMNB -> segs_for msgsz = segs_of msgsz.
Proof.
  unfold segs_for, segs_of, MSGSSZ, MSGMNB. intros H. rewrite u32_id by (wrap_unfold; lia).
  rewrite s32_id; [f_equal; lia|]. wrap_unfold. Z.div_mod_to_equations. lia.
Qed.

Lemma segs_of_nonneg ts : 0 <= ts -> 0 <= segs_of ts.
Proof. intros. unfold segs_of. apply Z.div_pos; lia. Qed.

Lemma segs_of_zero ts : 0 <= ts -> segs_of ts = 0 -> ts = 0.
Proof. unfold segs_of. intros. Z.div_mod_to_equations. lia. Qed.

Lemma segs_of_pos ts : 0 < ts -> 0 < segs_of ts.
Proof. unfold segs_of. intros. Z.div_mod_to_equations. lia. Qed.

Lemma segs_of_step ts :
  0 < ts -> segs_of (if MSGSSZ <=? ts then ts - MSGSSZ else 0) = segs_of ts - 1.
Proof.
  unfold segs_of, MSGSSZ. intros H. destruct (Z.leb_spec 8 ts); Z.div_mod_to_equations; lia.
Qed.

(** ** The loops over segments *)

(** The state after a header [h] and the segment links have been changed. *)
Definition seg_state (s : msgstate) (h : Z) (m : msg) (nfree free : Z) (maps : list Z) : msgstate :=
  put_hdr (set_maps (set_free s nfree free) maps) h m.

Lemma seg_state_seg_state s h m1 n1 f1 maps1 m2 n2 f2 maps2 :
  seg_state (seg_state s h m1 n1 f1 maps1) h m2 n2 f2 maps2 = seg_state s h m2 n2 f2 maps2.
Proof. unfold seg_state, put_hdr. simpl. unfold set_hdrs, set_maps, set_free. simpl. by rewrite aput_aput. Qed.

Lemma seg_state_same s h m :
  aget (msghdrs s) h = Some m ->
  seg_state s h m (nfree_msgmaps s) (free_msgmaps s) (msgmaps s) = s.
Proof.
  intros H. unfold seg_state.
  change (put_hdr s h m = s). by apply put_hdr_same.
Qed.

Lemma alloc_segs_spec h fs1 : forall s fs2 acc m,
  aget (msghdrs s) h = Some m ->
  length (msgmaps s) = Z.to_nat MSGSEG ->
  chain (aget (msgmaps s)) (free_msgmaps s) (fs1 ++ fs2) ->
  chain (aget (msgmaps s)) (msg_spot m) acc ->
  NoDup (fs1 ++ fs2 ++ acc) -> nfree_msgmaps s = Z.of_nat (length (fs1 ++ fs2)) ->
  exists maps',
    alloc_segs (length fs1) h s =
      Ret tt (seg_state s h (hdr_set_body m (msg_ts m) (hd NIL (rev fs1 ++ acc)))
                (Z.of_nat (length fs2)) (hd NIL fs2) maps') /\
    chain (aget maps') (hd NIL fs2) fs2 /\
    chain (aget maps') (hd NIL (rev fs1 ++ acc)) (rev fs1 ++ acc) /\
    length maps' = length (msgmaps s) /\
    (forall x, x ∉ fs1 -> aget maps' x = aget (msgmaps s) x).
Proof.
  induction fs1 as [|x fs1 IH]; intros s fs2 acc m Hm Hlen Hfree Hacc Hnd Hn.
  - simpl in *. rewrite <- (chain_hd _ _ _ Hfree), <- (chain_hd _ _ _ Hacc), <- Hn.
    exists (msgmaps s).
    replace (hdr_set_body m (msg_ts m) (msg_spot m)) with m by (by destruct m).
    rewrite seg_state_same by done. done.
  - cbn [app] in Hfree. apply chain_cons_inv in Hfree as (Hx0 & Hx & nn & Hnn & Hfree').
    pose proof (aget_Some_range _ _ _ Hnn) as Hr. rewrite Hlen in Hr.
    change (NoDup (x :: (fs1 ++ fs2 ++ acc))) in Hnd. apply NoDup_cons in Hnd as [Hni Hnd].
    cbn [length alloc_segs app] in *. rewrite Hn, Hx0.
    rewrite (proj2 (Z.leb_gt _ _)) by lia. rewrite (proj2 (Z.eqb_neq _ _)) by lia.
    rewrite (proj2 (Z.leb_gt _ _)) by lia.
    rewrite (proj2 (Z.leb_gt _ _)) by (unfold MSGSEG in *; lia).
    rewrite Hnn, Hm. cbn [msgmaps set_free].
    set (s1 := put_hdr _ _ _).
    assert (Hs1 : s1 = seg_state s h (hdr_set_body m (msg_ts m) x)
      (Z.of_nat (length (fs1 ++ fs2))) nn (aput (msgmaps s) x (msg_spot m))).
    { unfold s1, seg_state, set_maps, set_free. simpl. do 2 f_equal. lia. }
    destruct (IH s1 fs2 (x :: acc) (hdr_set_body m (msg_ts m) x)) as (maps' & Heq & H1 & H2 & H3 & H4).
    + rewrite Hs1. simpl. by eapply aget_aput_eq.
    + rewrite Hs1. simpl. by rewrite aput_length.
    + rewrite Hs1. simpl. apply chain_put_out; [done|]. set_solver.
    + rewrite Hs1. simpl. apply chain_push; [done|set_solver|done].
    + assert (fs1 ++ fs2 ++ x :: acc ≡ₚ x :: fs1 ++ fs2 ++ acc) as -> by solve_Permutation.
      by apply NoDup_cons.
    + by rewrite Hs1.
    + exists maps'. rewrite Heq. cbn [rev]. rewrite <- !app_assoc. cbn [app].
      rewrite Hs1, seg_state_seg_state. split; [done|]. split; [done|]. split; [done|].
      rewrite Hs1 in H3, H4. simpl in H3, H4. rewrite aput_length in H3. split; [done|].
      intros y Hy. rewrite H4 by set_solver. apply aget_aput_ne. set_solver.
Qed.

Lemma free_segs_spec h l : forall fuel s fs m,
  aget (msghdrs s) h = Some m ->
  length (msgmaps s) = Z.to_nat MSGSEG ->
  chain (aget (msgmaps s)) (msg_spot m) l -> chain (aget (msgmaps s)) (free_msgmaps s) fs ->
  NoDup (l ++ fs) -> 0 <= msg_ts m -> Z.of_nat (length l) = segs_of (msg_ts m) ->
  (Z.to_nat (msg_ts m) <= fuel)%nat ->
  exists maps',
    free_segs fuel h s =
      Ret tt (seg_state s h (hdr_set_body m 0 NIL) (nfree_msgmaps s + Z.of_nat (length l))
                (hd NIL (rev l ++ fs)) maps') /\
    chain (aget maps') (hd NIL (rev l ++ fs)) (rev l ++ fs) /\
    length maps' = length (msgmaps s) /\
    (forall x, x ∉ l -> aget maps' x = aget (msgmaps s) x).
Proof.
  induction l as [|x l IH]; intros fuel s fs m Hm Hlen Hl Hfs Hnd Hts Hseg Hf.
  - assert (Hz : msg_ts m = 0) by (apply segs_of_zero; [done|by rewrite <- Hseg]).
    exists (msgmaps s). inversion Hl as [Hspot|]. simpl. rewrite <- (chain_hd _ _ _ Hfs), Z.add_0_r.
    replace (hdr_set_body m 0 NIL) with m by (destruct m; simpl in *; unfold hdr_set_body; simpl; congruence).
    rewrite seg_state_same by done. split; [|done].
    destruct fuel; simpl; rewrite Hm, Hz; done.
  - apply chain_cons_inv in Hl as (Hx0 & Hx & nn & Hnn & Hl').
    pose proof (aget_Some_range _ _ _ Hnn) as Hr. rewrite Hlen in Hr.
    assert (Hpos : 0 < msg_ts m).
    { destruct (Z.eq_dec (msg_ts m) 0) as [E|]; [|lia]. rewrite E in Hseg. simpl in Hseg.
      change (segs_of 0) with 0 in Hseg. lia. }
    destruct fuel as [|fuel]; [lia|]. cbn [free_segs]. rewrite Hm.
    rewrite Hx0, (proj2 (Z.ltb_lt _ _)) by done. rewrite (proj2 (Z.ltb_ge _ _)) by lia.
    rewrite (proj2 (Z.leb_gt _ _)) by (unfold MSGSEG in *; lia). cbn [orb]. rewrite Hnn.
    cbn [msgmaps set_free set_maps nfree_msgmaps].
    set (ts' := if MSGSSZ <=? msg_ts m then msg_ts m - MSGSSZ else 0).
    set (s1 := put_hdr _ _ _).
    assert (Hs1 : s1 = seg_state s h (hdr_set_body m ts' nn) (nfree_msgmaps s + 1) x
                         (aput (msgmaps s) x (free_msgmaps s))) by done.
    change (NoDup (x :: (l ++ fs))) in Hnd. apply NoDup_cons in Hnd as [Hni Hnd].
    assert (Hts' : 0 <= ts' < msg_ts m).
    { unfold ts', MSGSSZ. destruct (Z.leb_spec 8 (msg_ts m)); lia. }
    destruct (IH fuel s1 (x :: fs) (hdr_set_body m ts' nn)) as (maps' & Heq & H1 & H2 & H3).
    + rewrite Hs1. simpl. by eapply aget_aput_eq.
    + rewrite Hs1. simpl. by rewrite aput_length.
    + rewrite Hs1. simpl. apply chain_put_out; [done|]. set_solver.
    + rewrite Hs1. simpl. apply chain_push; [done|set_solver|done].
    + assert (l ++ x :: fs ≡ₚ x :: l ++ fs) as -> by solve_Permutation.
      by apply NoDup_cons.
    + simpl. lia.
    + simpl. unfold ts'. rewrite segs_of_step by done. simpl in Hseg. lia.
    + simpl. lia.
    + exists maps'. rewrite Heq. cbn [rev]. rewrite <- !app_assoc. cbn [app].
      rewrite Hs1, seg_state_seg_state. simpl in H2, H3. rewrite aput_length in H2.
      split; [|split; [done|split; [done|]]].
      * f_equal. unfold seg_state, put_hdr, set_hdrs, set_maps, set_free. simpl. f_equal; lia.
      * intros y Hy. rewrite H3 by set_solver. apply aget_aput_ne. set_solver.
Qed.

(** The bytes of one segment, and the text stored in a list of segments. *)
Definition seg_bytes (pool : list Z) (x : Z) : list Z := pool_read pool (x * MSGSSZ) MSGSSZ.
Definition text_of (pool : list Z) (l : list Z) : list Z := mjoin (seg_bytes pool <$> l).

Lemma seg_bytes_length pool x :
  length pool = Z.to_nat MSGMAX -> 0 <= x < MSGSEG -> length (seg_bytes pool x) = 8%nat.
Proof.
  intros Hl Hx. unfold seg_bytes, pool_read. rewrite length_take, length_drop, Hl.
  unfold MSGMAX, MSGSEG, MSGSSZ in *. lia.
Qed.

Lemma pool_write_length pool off bytes :
  0 <= off -> off + Z.of_nat (length bytes) <= Z.of_nat (length pool) ->
  length (pool_write pool off bytes) = length pool.
Proof.
  intros Ho Hb. unfold pool_write. rewrite !length_app, length_take, length_drop. lia.
Qed.

Lemma lookup_pool_write pool off bytes (i : nat) :
  0 <= off -> off + Z.of_nat (length bytes) <= Z.of_nat (length pool) ->
  pool_write pool off bytes !! i =
    if decide (Z.to_nat off <= i < Z.to_nat off + length bytes)%nat
    then bytes !! (i - Z.to_nat off)%nat else pool !! i.
Proof.
  intros Ho Hb. unfold pool_write. case_decide as Hi.
  - rewrite lookup_app_r by (rewrite length_take; lia).
    rewrite length_take, lookup_app_l by lia. f_equal. lia.
  - destruct (decide (i < Z.to_nat off)%nat).
    + rewrite lookup_app_l by (rewrite length_take; lia). by apply lookup_take_lt.
    + rewrite lookup_app_r, length_take by (rewrite length_take; lia).
      rewrite lookup_app_r by lia. rewrite lookup_drop. f_equal. lia.
Qed.

Lemma lookup_seg_bytes pool x (i : nat) :
  seg_bytes pool x !! i =
    if decide (i < 8)%nat then pool !! (Z.to_nat (x * MSGSSZ) + i)%nat else None.
Proof.
  unfold seg_bytes, pool_read. change (Z.to_nat MSGSSZ) with 8%nat. case_decide as Hi.
  - rewrite lookup_take_lt by done. by rewrite lookup_drop.
  - apply lookup_ge_None. rewrite length_take. lia.
Qed.

(** Writing at the start of segment [x]. *)
Lemma seg_write_other pool x y chunk :
  length pool = Z.to_nat MSGMAX -> 0 <= x < MSGSEG -> 0 <= y -> x <> y -> (length chunk <= 8)%nat ->
  seg_bytes (pool_write pool (x * MSGSSZ) chunk) y = seg_bytes pool y.
Proof.
  intros Hl Hx Hy Hne Hc. apply list_eq. intros i. rewrite !lookup_seg_bytes.
  case_decide as Hi; [|done]. unfold MSGMAX, MSGSSZ, MSGSEG in *.
  rewrite lookup_pool_write by lia. rewrite decide_False; [done|]. lia.
Qed.

Lemma seg_write_same pool x chunk :
  length pool = Z.to_nat MSGMAX -> 0 <= x < MSGSEG -> (length chunk <= 8)%nat ->
  take (length chunk) (seg_bytes (pool_write pool (x * MSGSSZ) chunk) x) = chunk.
Proof.
  intros Hl Hx Hc. apply list_eq. intros i. destruct (decide (i < length chunk)%nat) as [Hi|Hi].
  - rewrite lookup_take_lt, lookup_seg_bytes by done. rewrite decide_True by lia.
    unfold MSGMAX, MSGSSZ, MSGSEG in *. rewrite lookup_pool_write by lia.
    rewrite decide_True by lia. f_equal. lia.
  - rewrite !(proj2 (lookup_ge_None _ _)); [done|lia|rewrite length_take; lia].
Qed.

Lemma text_of_ext pool pool' l :
  (forall x, x ∈ l -> seg_bytes pool' x = seg_bytes pool x) -> text_of pool' l = text_of pool l.
Proof.
  intros H. unfold text_of. f_equal. apply list_fmap_ext. intros i x Hx.
  apply H. by eapply list_elem_of_lookup_2.
Qed.

Lemma text_of_length pool l :
  length pool = Z.to_nat MSGMAX -> (forall x, x ∈ l -> 0 <= x < MSGSEG) ->
  length (text_of pool l) = (8 * length l)%nat.
Proof.
  intros Hl. induction l as [|x l IH]; intros Hr; [done|]. unfold text_of in *. csimpl.
  rewrite length_app, seg_bytes_length, IH by (done || (intros; apply Hr; set_solver)). lia.
Qed.

(** Segments of a chain inside the array. *)
Lemma chain_segs_range maps h l x :
  length maps = Z.to_nat MSGSEG -> chain (aget maps) h l -> x ∈ l -> 0 <= x < MSGSEG.
Proof.
  intros Hl Hc Hx. destruct (chain_in_range _ _ _ _ Hc Hx) as [y Hy%aget_Some_range].
  rewrite Hl in Hy. unfold MSGSEG in *. lia.
Qed.

Lemma set_mpool_same s : set_mpool s (msgpool s) = s.
Proof. by destruct s. Qed.

(** ** Copying in *)

Lemma copy_in_spec l : forall fuel next msgsz body s,
  length (msgmaps s) = Z.to_nat MSGSEG -> length (msgpool s) = Z.to_nat MSGMAX ->
  chain (aget (msgmaps s)) next l -> NoDup l ->
  0 <= msgsz -> Z.of_nat (length l) = segs_of msgsz -> msgsz <= Z.of_nat (length body) ->
  (Z.to_nat msgsz <= fuel)%nat ->
  exists pool', copy_in fuel next msgsz body s = Ret NIL (set_mpool s pool') /\
    length pool' = length (msgpool s) /\
    take (Z.to_nat msgsz) (text_of pool' l) = take (Z.to_nat msgsz) body /\
    (forall x, 0 <= x -> x ∉ l -> seg_bytes pool' x = seg_bytes (msgpool s) x).
Proof.
  induction l as [|x l IH]; intros fuel next msgsz body s Hmaps Hpool Hc Hnd Hm Hseg Hb Hf.
  - assert (msgsz = 0) as -> by (apply segs_of_zero; [done|by rewrite <- Hseg]).
    inversion Hc; subst. exists (msgpool s). rewrite set_mpool_same.
    destruct fuel; done.
  - destruct (chain_cons_inv _ _ _ _ Hc) as (-> & Hx & nn & Hnn & Hc').
    assert (Hxr : 0 <= x < MSGSEG) by (eapply chain_segs_range; [done|exact Hc|set_solver]).
    assert (Hpos : 0 < msgsz).
    { destruct (Z.eq_dec msgsz 0) as [->|]; [|lia]. change (segs_of 0) with 0 in Hseg.
      simpl in Hseg. lia. }
    apply NoDup_cons in Hnd as [Hni Hnd].
    destruct fuel as [|fuel]; [lia|]. cbn [copy_in].
    set (tlen := if MSGSSZ <? msgsz then MSGSSZ else msgsz).
    assert (Ht : 0 < tlen <= 8 /\ tlen <= msgsz /\ segs_of (msgsz - tlen) = segs_of msgsz - 1).
    { unfold tlen, MSGSSZ, segs_of. destruct (Z.ltb_spec 8 msgsz); Z.div_mod_to_equations; lia. }
    destruct Ht as (Ht & Htm & Hts).
    rewrite (proj2 (Z.ltb_lt _ _)), (proj2 (Z.leb_gt _ _)) by lia.
    rewrite (proj2 (Z.leb_gt _ _)), (proj2 (Z.ltb_ge _ _)) by lia.
    set (chunk := take (Z.to_nat tlen) body).
    assert (Hcl : length chunk = Z.to_nat tlen) by (unfold chunk; rewrite length_take; lia).
    set (pool1 := pool_write (msgpool s) (x * MSGSSZ) chunk). cbn [msgmaps set_mpool]. rewrite Hnn.
    assert (Hp1 : length pool1 = length (msgpool s)).
    { apply pool_write_length; unfold MSGMAX, MSGSSZ, MSGSEG in *; lia. }
    destruct (IH fuel nn (msgsz - tlen) (drop (Z.to_nat tlen) body) (set_mpool s pool1))
      as (pool' & Heq & Hlen & Htxt & Hout); try done; try lia.
    { simpl. by rewrite Hp1. }
    { rewrite Hts. simpl in Hseg. lia. }
    { rewrite length_drop. lia. }
    exists pool'. rewrite Heq. split; [done|]. split; [by rewrite Hlen|]. split.
    + change (text_of pool' (x :: l)) with (seg_bytes pool' x ++ text_of pool' l).
      rewrite Hout by done. change (msgpool (set_mpool s pool1)) with pool1.
      assert (Hsx : length (seg_bytes pool1 x) = 8%nat) by (apply seg_bytes_length; congruence).
      assert (Hsame : take (Z.to_nat tlen) (seg_bytes pool1 x) = chunk).
      { rewrite <- Hcl. apply seg_write_same; [done|done|lia]. }
      unfold tlen, MSGSSZ in *. destruct (Z.ltb_spec 8 msgsz) as [Hgt|Hle].
      * rewrite take_app, Hsx. rewrite (take_ge (seg_bytes pool1 x)) by lia.
        rewrite take_ge in Hsame by lia. rewrite Hsame.
        replace (Z.to_nat msgsz - 8)%nat with (Z.to_nat (msgsz - 8)) by lia. rewrite Htxt.
        unfold chunk. rewrite <- (take_drop (Z.to_nat 8) (take (Z.to_nat msgsz) body)).
        rewrite take_take, skipn_firstn_comm. f_equal; f_equal; lia.
      * rewrite take_app_le by lia. done.
    + intros y Hy Hyn. rewrite Hout by set_solver. apply seg_write_other; [done|done|done|set_solver|lia].
Qed.

(** ** Copying out *)

(** What the loop stores for [k] segments: [tlen] bytes of each. *)
Lemma copy_out_spec l : forall fuel len next msgsz s,
  length (msgmaps s) = Z.to_nat MSGSEG ->
  chain (aget (msgmaps s)) next l -> 0 <= len ->
  segs_of (Z.max 0 (msgsz - len)) <= Z.of_nat (length l) ->
  (Z.to_nat (msgsz - len) <= fuel)%nat ->
  copy_out fuel len next msgsz s =
    Ret (mjoin ((fun x => take (Z.to_nat (Z.min 8 msgsz)) (seg_bytes (msgpool s) x)) <$>
                take (Z.to_nat (segs_of (Z.max 0 (msgsz - len)))) l)) s.
Proof.
  induction l as [|x l IH]; intros fuel len next msgsz s Hmaps Hc Hlen Hseg Hf.
  - assert (Hz : Z.max 0 (msgsz - len) = 0).
    { apply segs_of_zero; [lia|]. pose proof (segs_of_nonneg (Z.max 0 (msgsz - len))). simpl in Hseg. lia. }
    rewrite Hz. destruct fuel; simpl; by rewrite (proj2 (Z.ltb_ge _ _)) by lia.
  - destruct (chain_cons_inv _ _ _ _ Hc) as (-> & Hx & nn & Hnn & Hc').
    assert (Hxr : 0 <= x < MSGSEG) by (eapply chain_segs_range; [done|exact Hc|set_solver]).
    destruct (Z.ltb_spec len msgsz) as [Hlt|Hge].
    + destruct fuel as [|fuel]; [lia|]. cbn [copy_out]. rewrite (proj2 (Z.ltb_lt _ _)) by done.
      rewrite (proj2 (Z.leb_gt _ _)) by lia. rewrite (proj2 (Z.leb_gt _ _)) by lia. rewrite Hnn.
      assert (Hstep : segs_of (Z.max 0 (msgsz - (len + MSGSSZ))) =
                      segs_of (Z.max 0 (msgsz - len)) - 1).
      { unfold segs_of, MSGSSZ. Z.div_mod_to_equations. lia. }
      assert (Hpos : 0 < segs_of (Z.max 0 (msgsz - len))) by (apply segs_of_pos; lia).
      rewrite (IH fuel (len + MSGSSZ) nn msgsz s) by
        (done || rewrite ?Hstep; simpl in Hseg; unfold MSGSSZ in *; lia).
      cbn [obind]. rewrite Hstep.
      replace (Z.to_nat (segs_of (Z.max 0 (msgsz - len)))) with
        (S (Z.to_nat (segs_of (Z.max 0 (msgsz - len)) - 1))) by lia.
      csimpl. do 2 f_equal. unfold seg_bytes, pool_read, MSGSSZ.
      rewrite take_take. f_equal. destruct (Z.ltb_spec 8 msgsz); lia.
    + replace (Z.max 0 (msgsz - len)) with 0 by lia. change (segs_of 0) with 0. simpl.
      destruct fuel; simpl; by rewrite (proj2 (Z.ltb_ge _ _)) by lia.
Qed.

Lemma mjoin_take_segs pool l k :
  length pool = Z.to_nat MSGMAX -> (forall x, x ∈ l -> 0 <= x < MSGSEG) ->
  mjoin (seg_bytes pool <$> take k l) = take (8 * k) (text_of pool l).
Proof.
  intros Hp. revert k. induction l as [|x l IH]; intros k Hr.
  - rewrite take_nil. unfold text_of. csimpl. by rewrite take_nil.
  - destruct k as [|k]; [done|]. csimpl. unfold text_of in *. csimpl.
    rewrite IH by (intros; apply Hr; set_solver).
    assert (Hs : length (seg_bytes pool x) = 8%nat) by (apply seg_bytes_length; [done|apply Hr; set_solver]).
    rewrite take_app, (take_ge (seg_bytes pool x)), Hs by (rewrite Hs; lia). do 2 f_equal. lia.
Qed.

(** The first [msgsz] bytes stored are the first [msgsz] bytes of the text; the
    loop stores whole segments once [msgsz] exceeds one segment. *)
Lemma copy_out_text pool l msgsz :
  length pool = Z.to_nat MSGMAX -> (forall x, x ∈ l -> 0 <= x < MSGSEG) ->
  0 <= msgsz -> segs_of msgsz <= Z.of_nat (length l) ->
  let bytes := mjoin ((fun x => take (Z.to_nat (Z.min 8 msgsz)) (seg_bytes pool x)) <$>
                      take (Z.to_nat (segs_of msgsz)) l) in
  take (Z.to_nat msgsz) bytes = take (Z.to_nat msgsz) (text_of pool l) /\
  Z.of_nat (length bytes) = if 8 <? msgsz then 8 * segs_of msgsz else msgsz.
Proof.
  intros Hp Hr Hm Hseg bytes.
  assert (Htl : length (text_of pool l) = (8 * length l)%nat) by (by apply text_of_length).
  destruct (Z.ltb_spec 8 msgsz) as [Hgt|Hle].
  - assert (Hb : bytes = take (8 * Z.to_nat (segs_of msgsz)) (text_of pool l)).
    { unfold bytes. rewrite Z.min_l by lia. rewrite <- mjoin_take_segs by done. f_equal.
      apply list_fmap_ext. intros i x _. unfold seg_bytes, pool_read. by rewrite take_take. }
    rewrite Hb, take_take, length_take, Htl. split; [f_equal|];
      unfold segs_of in *; Z.div_mod_to_equations; lia.
  - destruct (Z.eq_dec msgsz 0) as [->|Hne]; [done|].
    assert (Hone : segs_of msgsz = 1) by (unfold segs_of; Z.div_mod_to_equations; lia).
    destruct l as [|x l]; [simpl in Hseg; lia|].
    assert (Hs : length (seg_bytes pool x) = 8%nat) by (apply seg_bytes_length; [done|apply Hr; set_solver]).
    unfold bytes. rewrite Z.min_r by lia. rewrite Hone. change (Z.to_nat 1) with 1%nat. csimpl.
    rewrite app_nil_r, take_take, Nat.min_id, length_take, Hs.
    split; [|lia]. unfold text_of. csimpl. by rewrite take_app_le by lia.
Qed.
