(* ===== verification/SysvMsgInv.v ===== *)
(** * System V message queues: the invariant

    [core]: the headers in use (the predicate [U]) own disjoint lists of
    segments ([sg]), disjoint from the free segments [fs]; the free headers are
    [fh].  [qinv]: each queue is a chain of headers with matching counters.
    Taking a header with its segments and releasing one keep [core]. *)

From S2P Require Import Prelude Ipc SysvMsg SysvMsgCopy.

(** A header with its segments. *)
Record hdr_ok (maps : list Z) (m : msg) (l : list Z) : Prop := {
  ho_chain : chain (aget maps) (msg_spot m) l;
  ho_nodup : NoDup l;
  ho_len : Z.of_nat (length l) = segs_of (msg_ts m);
  ho_ts : 0 <= msg_ts m <= MSGMNB
}.

Record core (s : msgstate) (fs fh : list Z) (U : Z -> Prop) (sg : Z -> list Z) : Prop := {
  c_maps : length (msgmaps s) = Z.to_nat MSGSEG;
  c_pool : length (msgpool s) = Z.to_nat MSGMAX;
  c_hdrs : length (msghdrs s) = Z.to_nat MSGTQL;
  c_fs : chain (aget (msgmaps s)) (free_msgmaps s) fs;
  c_fs_nd : NoDup fs;
  c_nfree : nfree_msgmaps s = Z.of_nat (length fs);
  c_fh : chain (hnext (msghdrs s)) (free_msghdrs s) fh;
  c_fh_nd : NoDup fh;
  c_used : forall h, U h -> exists m, aget (msghdrs s) h = Some m /\ hdr_ok (msgmaps s) m (sg h);
  c_sep_h : forall h, U h -> h ∉ fh;
  c_sep_f : forall h x, U h -> x ∈ sg h -> x ∉ fs;
  c_sep_s : forall h k x, U h -> U k -> x ∈ sg h -> x ∈ sg k -> h = k
}.

Lemma core_ext s fs fh (U V : Z -> Prop) sg :
  core s fs fh U sg -> (forall h, V h -> U h) -> core s fs fh V sg.
Proof. intros [] H. split; eauto. Qed.

Lemma hdr_ok_ext maps maps' m l :
  hdr_ok maps m l -> (forall x, x ∈ l -> aget maps' x = aget maps x) -> hdr_ok maps' m l.
Proof. intros [] H. split; [by eapply chain_ext|done..]. Qed.

(** What stays when header [h] is taken or released. *)
Record hframe (h : Z) (s s' : msgstate) : Prop := {
  hf_pool : msgpool s' = msgpool s;
  hf_errno : msg_errno s' = msg_errno s;
  hf_woken : msg_woken s' = msg_woken s;
  hf_hdrs : forall k, k <> h -> aget (msghdrs s') k = aget (msghdrs s) k
}.

(** ** Release *)

Lemma core_free s fs fh U sg h :
  core s fs fh U sg -> U h ->
  exists s', msg_freehdr h s = Ret tt s' /\
    core s' (rev (sg h) ++ fs) (h :: fh) (fun k => U k /\ k <> h) sg /\
    hframe h s s' /\ msqids s' = msqids s.
Proof.
  intros Hc HU. destruct (c_used _ _ _ _ _ Hc h HU) as (m & Hm & [Hch Hnd Hlen Hts]).
  unfold msg_freehdr. rewrite Hm.
  destruct (free_segs_spec h (sg h) (Z.to_nat (msg_ts m)) s fs m) as (maps' & -> & H1 & H2 & H3);
    try done; try apply Hc; try lia.
  { apply NoDup_app. split; [done|]. split; [|apply Hc]. intros x Hx. by eapply c_sep_f. }
  cbn [obind]. unfold seg_state, put_hdr. simpl. rewrite (aget_aput_eq _ _ _ m) by done.
  cbn [msg_spot hdr_set_body]. change (negb (NIL =? -1)) with false. cbn iota.
  rewrite aput_aput. eexists. split; [done|]. split; [|split; [|done]].
  - split; simpl; rewrite ?aput_length; try apply Hc; try done.
    + by rewrite H2, (c_maps _ _ _ _ _ Hc).
    + apply NoDup_app. split; [by apply NoDup_rev_list|]. split; [|apply Hc].
      intros x Hx. rewrite elem_of_rev_iff in Hx. by apply (c_sep_f _ _ _ _ _ Hc h).
    + rewrite (c_nfree _ _ _ _ _ Hc), length_app, length_rev. lia.
    + econstructor.
      * by destruct (aget_Some_range _ _ _ Hm).
      * unfold hnext. by rewrite (aget_aput_eq _ _ _ m).
      * eapply chain_ext; [apply Hc|]. intros k Hk. apply hnext_put_out. intros ->.
        by apply (c_sep_h _ _ _ _ _ Hc k).
    + apply NoDup_cons. split; [by apply (c_sep_h _ _ _ _ _ Hc)|apply Hc].
    + intros k [HUk Hk]. destruct (c_used _ _ _ _ _ Hc k HUk) as (mk & Hmk & Hok).
      exists mk. rewrite aget_aput_ne by done. split; [done|]. eapply hdr_ok_ext; [done|].
      intros x Hx. apply H3. intros Hx'. apply Hk. by eapply (c_sep_s _ _ _ _ _ Hc k h x).
    + intros k [HUk Hk]. rewrite not_elem_of_cons. split; [done|]. by apply (c_sep_h _ _ _ _ _ Hc).
    + intros k x [HUk Hk] Hx. rewrite not_elem_of_app, elem_of_rev_iff. split.
      * intros Hx'. apply Hk. by eapply (c_sep_s _ _ _ _ _ Hc k h x).
      * by eapply (c_sep_f _ _ _ _ _ Hc).
    + intros k1 k2 x [? _] [? _]. by apply (c_sep_s _ _ _ _ _ Hc).
  - split; try done. intros k Hk. simpl. by rewrite aget_aput_ne.
Qed.

(** ** Allocation *)

Definition sgset (sg : Z -> list Z) (h : Z) (l : list Z) : Z -> list Z :=
  fun k => if decide (k = h) then l else sg k.

Lemma sgset_eq sg h l : sgset sg h l h = l.
Proof. unfold sgset. by rewrite decide_True. Qed.
Lemma sgset_ne sg h l k : k <> h -> sgset sg h l k = sg k.
Proof. intros. unfold sgset. by rewrite decide_False. Qed.

(** The tests that [msgsnd] makes before it takes a header. *)
Record can_send (s : msgstate) (d : msqid_ds) (msgsz : Z) : Prop := {
  cs_unlocked : locked d = false;
  cs_segs : segs_for msgsz <= nfree_msgmaps s;
  cs_bytes : u32 (msgsz + msg_cbytes d) <= msg_qbytes d;
  cs_hdr : free_msghdrs s <> NIL
}.

Lemma core_take s fs fh U sg q d msgsz mtype :
  core s fs fh U sg -> aget (msqids s) q = Some d -> can_send s d msgsz ->
  0 <= msgsz <= MSGMNB ->
  exists h fh' s' m, fh = h :: fh' /\ snd_take q msgsz mtype s = Ret h s' /\
    core s' (drop (Z.to_nat (segs_of msgsz)) fs) fh' (fun k => U k \/ k = h)
      (sgset sg h (rev (take (Z.to_nat (segs_of msgsz)) fs))) /\
    hframe h s s' /\ msqids s' = aput (msqids s) q (lock d) /\
    aget (msghdrs s') h = Some m /\ msg_type m = mtype /\ msg_ts m = msgsz.
Proof.
  intros Hc Hd [Hl Hs Hb Hh] Hsz. unfold snd_take. rewrite Hd, Hl.
  rewrite (proj2 (Z.ltb_ge _ _)) by done. rewrite (proj2 (Z.ltb_ge _ _)) by done.
  rewrite (proj2 (Z.eqb_neq _ _)) by done. rewrite segs_for_small in * by done.
  cbn [free_msghdrs put_q set_qids msghdrs].
  pose proof (c_fh _ _ _ _ _ Hc) as Hfh. destruct fh as [|h fh]; [by inversion Hfh|].
  apply chain_cons_inv in Hfh as (-> & Hh0 & nh & Hnh & Hfh).
  unfold hnext in Hnh. destruct (aget (msghdrs s) h) as [m|] eqn:Hm; [|done].
  injection Hnh as Hnh. rewrite u16_id by (wrap_unfold; unfold MSGMNB in *; lia).
  set (n := Z.to_nat (segs_of msgsz)).
  pose proof (segs_of_nonneg msgsz ltac:(lia)) as Hn0.
  assert (Hn : (n <= length fs)%nat) by (unfold n; rewrite (c_nfree _ _ _ _ _ Hc) in Hs; lia).
  set (s1 := put_hdr (set_fhdr _ _) h _).
  assert (Hts1 : n = length (take n fs)) by (rewrite length_take; lia).
  destruct (alloc_segs_spec h (take n fs) s1 (drop n fs) [] (hdr_set_body m msgsz (-1)))
    as (maps' & Heq & H1 & H2 & H3 & H4).
  { unfold s1. simpl. by eapply aget_aput_eq. }
  { unfold s1. simpl. apply Hc. }
  { rewrite take_drop. unfold s1. simpl. apply Hc. }
  { constructor. }
  { rewrite app_nil_r, take_drop. apply Hc. }
  { rewrite take_drop. unfold s1. simpl. apply Hc. }
  rewrite <- Hts1 in Heq. rewrite Heq. cbn [obind]. unfold seg_state, put_hdr. simpl.
  rewrite (aget_aput_eq _ _ _ (hdr_set_body m msgsz (-1))) by (by eapply aget_aput_eq).
  rewrite !aput_aput, app_nil_r in *. unfold set_hdrs. simpl.
  exists h, fh. do 2 eexists. split; [done|]. split; [done|]. split; [|split; [|split; [done|]]].
  - assert (Hnotin : h ∉ fh) by (by apply (NoDup_cons h fh), Hc).
    split; simpl; rewrite ?aput_length; try apply Hc; try done.
    + rewrite H3. unfold s1. simpl. apply Hc.
    + apply (sublist_NoDup _ fs); [apply Hc|apply sublist_drop].
    + rewrite <- Hnh in Hfh. eapply chain_ext; [done|]. intros k Hk. apply hnext_put_out. set_solver.
    + by apply (NoDup_cons h fh), Hc.
    + intros k [HUk| ->].
      * assert (k <> h) by (intros ->; apply (c_sep_h _ _ _ _ _ Hc h HUk); set_solver).
        rewrite sgset_ne, aget_aput_ne by done.
        destruct (c_used _ _ _ _ _ Hc k HUk) as (mk & Hmk & Hok). exists mk. split; [done|].
        eapply hdr_ok_ext; [done|]. intros x Hx. rewrite H4; [done|].
        intros Hx'%elem_of_take_inv. by apply (c_sep_f _ _ _ _ _ Hc k x).
      * rewrite sgset_eq, (aget_aput_eq _ _ _ m) by done. eexists. split; [done|]. split; try done.
        -- apply NoDup_rev_list, (sublist_NoDup _ fs); [apply Hc|apply sublist_take].
        -- simpl. rewrite length_rev, <- Hts1. unfold n. lia.
    + intros k [HUk| ->]; [|done]. intros Hk. apply (c_sep_h _ _ _ _ _ Hc k HUk). set_solver.
    + intros k x [HUk| ->].
      * rewrite sgset_ne by (intros ->; apply (c_sep_h _ _ _ _ _ Hc h HUk); set_solver).
        intros Hx Hd'%elem_of_drop_inv. by apply (c_sep_f _ _ _ _ _ Hc k x).
      * rewrite sgset_eq, elem_of_rev_iff. intros Hx Hx'.
        by apply (NoDup_take_drop fs n x (c_fs_nd _ _ _ _ _ Hc)).
    + assert (Hold : forall k x, U k -> x ∈ sgset sg h (rev (take n fs)) k ->
        x ∈ rev (take n fs) -> False).
      { intros k x HUk. rewrite sgset_ne by (intros ->; apply (c_sep_h _ _ _ _ _ Hc h HUk); set_solver).
        rewrite elem_of_rev_iff. intros Hx Hx'%elem_of_take_inv. by apply (c_sep_f _ _ _ _ _ Hc k x). }
      intros k1 k2 x [HU1| ->] [HU2| ->] Hx1 Hx2; [|exfalso..|done].
      * rewrite sgset_ne in Hx1, Hx2 by (intros ->; eapply (c_sep_h _ _ _ _ _ Hc h); [done|]; set_solver).
        by eapply (c_sep_s _ _ _ _ _ Hc).
      * rewrite sgset_eq in Hx2. by apply (Hold k1 x).
      * rewrite sgset_eq in Hx1. by apply (Hold k2 x).
  - split; try done. intros k Hk. simpl. by rewrite aget_aput_ne.
  - simpl. erewrite aget_aput_eq by done. done.
Qed.
