(* ===== verification/SysvMsgQueue.v ===== *)
(** * System V message queues: sending

    The abstract state of the facility is a list of messages (type and text)
    per queue, oldest first.  [mrep] relates the arrays of sysv_msg.c to it;
    [msgsnd] appends a message. *)

From S2P Require Import Prelude Ipc SysvMsg SysvMsgCopy SysvMsgInv.

(** ** The invariant on queues *)

Definition hdr_ts (hdrs : list msg) (h : Z) : Z := from_option msg_ts 0 (aget hdrs h).
Fixpoint ts_sum (hdrs : list msg) (l : list Z) : Z :=
  match l with [] => 0 | h :: l' => hdr_ts hdrs h + ts_sum hdrs l' end.

Record queue_links (hdrs : list msg) (d : msqid_ds) (l : list Z) : Prop := {
  ql_chain : chain (hnext hdrs) (msg_first d) l;
  ql_last : msg_last d = default NIL (last l)
}.

Record queue_ok (hdrs : list msg) (d : msqid_ds) (l : list Z) : Prop := {
  qo_links : queue_links hdrs d l;
  qo_cbytes : msg_cbytes d = ts_sum hdrs l;
  qo_qnum : msg_qnum d = Z.of_nat (length l);
  qo_qbytes : 0 < msg_qbytes d <= MSGMNB;
  qo_max : msg_cbytes d <= MSGMNB
}.

Record qinv (s : msgstate) (Q : Z -> list Z) : Prop := {
  qi_len : length (msqids s) = Z.to_nat MSGMNI;
  qi_q : forall q d, aget (msqids s) q = Some d ->
    (msg_qbytes d = 0 /\ Q q = []) \/ queue_ok (msghdrs s) d (Q q);
  qi_out : forall q, aget (msqids s) q = None -> Q q = [];
  qi_nd : forall q, NoDup (Q q);
  qi_disj : forall q1 q2 h, h ∈ Q q1 -> h ∈ Q q2 -> q1 = q2
}.

Definition queued (Q : Z -> list Z) (h : Z) : Prop := exists q, h ∈ Q q.

(** The message a header stands for. *)
Definition message : Type := Z * list Z.
Definition msg_of (hdrs : list msg) (pool : list Z) (sg : Z -> list Z) (h : Z) : message :=
  match aget hdrs h with
  | Some m => (msg_type m, take (Z.to_nat (msg_ts m)) (text_of pool (sg h)))
  | None => (0, [])
  end.

Definition mrep (s : msgstate) (A : Z -> list message) : Prop :=
  exists fs fh Q sg, core s fs fh (queued Q) sg /\ qinv s Q /\
    (forall q, A q = msg_of (msghdrs s) (msgpool s) sg <$> Q q) /\
    (forall q, Forall (fun m => 1 <= fst m) (A q)).

(** ** Extensionality *)

Lemma ts_sum_ext hdrs hdrs' l :
  (forall k, k ∈ l -> hdr_ts hdrs' k = hdr_ts hdrs k) -> ts_sum hdrs' l = ts_sum hdrs l.
Proof.
  induction l as [|h l IH]; intros H; [done|]. simpl.
  rewrite H, IH by (intros; apply H || set_solver; set_solver). done.
Qed.

Lemma ts_sum_app hdrs l1 l2 : ts_sum hdrs (l1 ++ l2) = ts_sum hdrs l1 + ts_sum hdrs l2.
Proof. induction l1 as [|h l IH]; simpl; [done|]. rewrite IH. lia. Qed.

Lemma queue_links_ext hdrs hdrs' d d' l :
  queue_links hdrs d l -> msg_first d' = msg_first d -> msg_last d' = msg_last d ->
  (forall k, k ∈ l -> aget hdrs' k = aget hdrs k) -> queue_links hdrs' d' l.
Proof.
  intros [] Hf Hl Hext. split; [|congruence]. rewrite Hf. eapply chain_ext; [done|].
  intros k Hk. unfold hnext. by rewrite Hext.
Qed.

Lemma queue_ok_ext hdrs hdrs' d d' l :
  queue_ok hdrs d l -> msg_first d' = msg_first d -> msg_last d' = msg_last d ->
  msg_cbytes d' = msg_cbytes d -> msg_qnum d' = msg_qnum d -> msg_qbytes d' = msg_qbytes d ->
  (forall k, k ∈ l -> aget hdrs' k = aget hdrs k) -> queue_ok hdrs' d' l.
Proof.
  intros [? Hcb ? ? ?] Hf Hl Hc Hn Hq Hext. split; [by eapply queue_links_ext|..]; rewrite ?Hc, ?Hn, ?Hq; try done.
  rewrite Hcb. symmetry. apply ts_sum_ext. intros k Hk. unfold hdr_ts. by rewrite Hext.
Qed.

(** Headers that agree up to their link. *)
Definition hdr_eqv (m m' : msg) : Prop :=
  msg_type m' = msg_type m /\ msg_ts m' = msg_ts m /\ msg_spot m' = msg_spot m.
Definition hdrs_eqv (hdrs hdrs' : list msg) : Prop :=
  forall k, option_Forall2 hdr_eqv (aget hdrs k) (aget hdrs' k).

Lemma hdrs_eqv_refl hdrs : hdrs_eqv hdrs hdrs.
Proof. intros k. destruct (aget hdrs k); by constructor. Qed.

Lemma hdrs_eqv_put hdrs h m m' :
  aget hdrs h = Some m -> hdr_eqv m m' -> hdrs_eqv hdrs (aput hdrs h m').
Proof.
  intros Hm He k. rewrite (aget_aput _ _ _ _ m Hm). destruct (Z.eqb_spec h k) as [->|].
  - rewrite Hm. by constructor.
  - apply hdrs_eqv_refl.
Qed.

Lemma hdrs_eqv_trans a b c : hdrs_eqv a b -> hdrs_eqv b c -> hdrs_eqv a c.
Proof.
  intros H1 H2 k. specialize (H1 k). specialize (H2 k).
  inversion H1 as [x y (? & ? & ?) E1 E2|E1 E2]; rewrite <- E2 in H2;
    inversion H2 as [? z (? & ? & ?)|]; subst; constructor.
  unfold hdr_eqv. split; [congruence|]. split; congruence.
Qed.

Lemma hdr_ts_eqv hdrs hdrs' k : hdrs_eqv hdrs hdrs' -> hdr_ts hdrs' k = hdr_ts hdrs k.
Proof. intros H. unfold hdr_ts. by destruct (H k) as [x y (_ & ? & _)|]. Qed.

Lemma msg_of_eqv hdrs hdrs' pool sg k :
  hdrs_eqv hdrs hdrs' -> msg_of hdrs' pool sg k = msg_of hdrs pool sg k.
Proof. intros H. unfold msg_of. by destruct (H k) as [x y (-> & -> & _)|]. Qed.

(** Changing links of headers that are not free. *)
Lemma core_relink s fs fh U sg hdrs' :
  core s fs fh U sg -> length hdrs' = length (msghdrs s) -> hdrs_eqv (msghdrs s) hdrs' ->
  (forall k, k ∈ fh -> aget hdrs' k = aget (msghdrs s) k) ->
  core (set_hdrs s hdrs') fs fh U sg.
Proof.
  intros Hc Hl He Hf. split; simpl; try apply Hc.
  - rewrite Hl. apply Hc.
  - eapply chain_ext; [apply Hc|]. intros k Hk. unfold hnext. by rewrite Hf.
  - intros h Hh. destruct (c_used _ _ _ _ _ Hc h Hh) as (m & Hm & []). pose proof (He h) as Hh'. rewrite Hm in Hh'.
    inversion Hh' as [? m' (H1 & H2 & H3)|]; subst. exists m'. split; [done|].
    split; rewrite ?H2, ?H3; done.
Qed.

(** [core] does not see the queue descriptors, [errno] and the wake-ups. *)
Lemma core_same s s' fs fh U sg :
  core s fs fh U sg -> nfree_msgmaps s' = nfree_msgmaps s -> free_msgmaps s' = free_msgmaps s ->
  free_msghdrs s' = free_msghdrs s -> length (msgpool s') = length (msgpool s) ->
  msgmaps s' = msgmaps s -> msghdrs s' = msghdrs s -> core s' fs fh U sg.
Proof.
  intros [] E1 E2 E3 E4 E5 E6. split; rewrite ?E1, ?E2, ?E3, ?E4, ?E5, ?E6; done.
Qed.

(** The text of a header survives changes outside its segments. *)
Lemma msg_of_ext hdrs hdrs' pool pool' sg sg' h :
  aget hdrs' h = aget hdrs h -> sg' h = sg h ->
  (forall x, x ∈ sg h -> seg_bytes pool' x = seg_bytes pool x) ->
  msg_of hdrs' pool' sg' h = msg_of hdrs pool sg h.
Proof.
  intros E1 E2 E3. unfold msg_of. rewrite E1, E2. destruct (aget hdrs h); [|done].
  by rewrite (text_of_ext pool).
Qed.

(** ** Enqueueing *)

Definition qset {A} (Q : Z -> list A) (q : Z) (l : list A) : Z -> list A :=
  fun k => if decide (k = q) then l else Q k.

Lemma qset_eq {A} (Q : Z -> list A) q l : qset Q q l q = l.
Proof. unfold qset. by rewrite decide_True. Qed.
Lemma qset_ne {A} (Q : Z -> list A) q l k : k <> q -> qset Q q l k = Q k.
Proof. intros. unfold qset. by rewrite decide_False. Qed.

(** Replacing one queue of the invariant. *)
Lemma qinv_update s s' Q q d d' l :
  qinv s Q -> aget (msqids s) q = Some d ->
  msqids s' = aput (msqids s) q d' ->
  (forall k h, k <> q -> h ∈ Q k -> aget (msghdrs s') h = aget (msghdrs s) h) ->
  ((msg_qbytes d' = 0 /\ l = []) \/ queue_ok (msghdrs s') d' l) ->
  NoDup l -> (forall h k, h ∈ l -> h ∈ Q k -> k = q) ->
  qinv s' (qset Q q l).
Proof.
  intros [Hlen Hqq Hout Hnds Hdj] Hd Hs' Hh Hok Hnd Hdisj. split.
  - by rewrite Hs', aput_length.
  - intros k e. rewrite Hs', (aget_aput _ _ _ _ d Hd). destruct (Z.eqb_spec q k) as [<-|Hne].
    + intros [= <-]. by rewrite qset_eq.
    + intros He. rewrite qset_ne by done. destruct (Hqq k e He) as [?|Hk]; [by left|right].
      eapply queue_ok_ext; [done..|]. intros h Hhk. by apply (Hh k).
  - intros k. rewrite Hs', (aget_aput _ _ _ _ d Hd). destruct (Z.eqb_spec q k); [done|].
    intros. rewrite qset_ne by done. auto.
  - intros k. unfold qset. case_decide; auto.
  - intros q1 q2 h. unfold qset. repeat case_decide; subst; eauto.
    intros. symmetry. eauto.
Qed.

Lemma chain_snoc nxt nxt' h l x :
  chain nxt h l -> NoDup l -> x ∉ l -> 0 <= x -> nxt' x = Some NIL ->
  (forall z, last l = Some z -> nxt' z = Some x) ->
  (forall z, z ∈ l -> last l <> Some z -> nxt' z = nxt z) ->
  chain nxt' (match l with [] => x | _ => h end) (l ++ [x]).
Proof.
  intros Hc. induction Hc as [|a b l Ha Hn Hc IH]; intros Hnd Hx Hx0 Hend Hlast Hext.
  - simpl. econstructor; [done|done|constructor].
  - apply NoDup_cons in Hnd as [Hni Hnd]. destruct l as [|c l].
    + simpl. econstructor; [done|by apply Hlast|]. econstructor; [done|done|constructor].
    + change (last (a :: c :: l)) with (last (c :: l)) in *. simpl. econstructor; [done| |].
      * rewrite Hext; [done|set_solver|]. intros Hl%last_Some_elem_of. by apply Hni.
      * apply IH; try done; [set_solver|]. intros z Hz Hzl. apply Hext; [set_solver|done].
Qed.

Lemma default_last_snoc (l : list Z) x : default NIL (last (l ++ [x])) = x.
Proof. by rewrite last_snoc. Qed.

(** The links after appending [h]. *)
Lemma enqueue_links s fs fh U sg Q q d h m :
  core s fs fh U sg -> qinv s Q -> (forall k, queued Q k -> U k) -> U h -> ~ queued Q h ->
  aget (msqids s) q = Some d -> queue_ok (msghdrs s) d (Q q) -> aget (msghdrs s) h = Some m ->
  exists hdrs' first,
    (let* (d0, s0) :=
       (if msg_first d =? NIL then Ret (ds_set_ends d h h) s
        else
          let? l := aget (msghdrs s) (msg_last d) in
          Ret (ds_set_ends d (msg_first d) h) (put_hdr s (msg_last d) (hdr_set_next l h))) in
     let? m0 := aget (msghdrs s0) h in
     Ret (d0, m0) (put_hdr s0 h (hdr_set_next m0 NIL))) =
      Ret (ds_set_ends d first h, m) (set_hdrs s hdrs') /\
    length hdrs' = length (msghdrs s) /\ hdrs_eqv (msghdrs s) hdrs' /\
    queue_links hdrs' (ds_set_ends d first h) (Q q ++ [h]) /\
    (forall k, k <> h -> k ∉ Q q -> aget hdrs' k = aget (msghdrs s) k).
Proof.
  intros Hc Hq Hsub HU Hnq Hd [[Hch Hl] _ _ _ _] Hm.
  assert (Hhq : h ∉ Q q) by (intros ?; apply Hnq; by exists q).
  assert (Hh0 : 0 <= h) by (by destruct (aget_Some_range _ _ _ Hm)).
  destruct (Z.eqb_spec (msg_first d) NIL) as [Hnil|Hnn].
  - apply (chain_head _ _ _ Hch) in Hnil. rewrite Hnil in *. cbn [obind]. rewrite Hm.
    exists (aput (msghdrs s) h (hdr_set_next m NIL)), h. split; [done|].
    split; [apply aput_length|]. split; [by eapply hdrs_eqv_put|]. split.
    + split; simpl; [|done]. econstructor; [done| |constructor].
      unfold hnext. by rewrite (aget_aput_eq _ _ _ m).
    + intros k Hk _. by rewrite aget_aput_ne.
  - assert (Hne : Q q <> []) by (intros E; apply Hnn; by apply (chain_head _ _ _ Hch)).
    destruct (last (Q q)) as [z|] eqn:Hz; [|by apply last_None in Hz]. simpl in Hl. subst.
    assert (Hzq : msg_last d ∈ Q q) by (by apply last_Some_elem_of).
    assert (Hzh : msg_last d <> h) by (intros E; apply Hhq; by rewrite <- E).
    destruct (c_used _ _ _ _ _ Hc (msg_last d)) as (l & Hlz & _); [apply Hsub; by exists q|].
    rewrite Hlz. cbn [obind]. simpl. rewrite aget_aput_ne, Hm by done.
    exists (aput (aput (msghdrs s) (msg_last d) (hdr_set_next l h)) h (hdr_set_next m NIL)), (msg_first d).
    split; [done|]. split; [by rewrite !aput_length|].
    assert (Hm' : aget (aput (msghdrs s) (msg_last d) (hdr_set_next l h)) h = Some m)
      by (by rewrite aget_aput_ne). split.
    { apply (hdrs_eqv_trans _ (aput (msghdrs s) (msg_last d) (hdr_set_next l h)));
        by eapply hdrs_eqv_put. }
    split.
    + split; simpl; [|by rewrite default_last_snoc].
      pose proof (chain_snoc (hnext (msghdrs s)) (hnext (aput (aput (msghdrs s) (msg_last d) (hdr_set_next l h)) h (hdr_set_next m NIL)))
        (msg_first d) (Q q) h Hch (qi_nd _ _ Hq q) Hhq Hh0) as Hsn.
      destruct (Q q) as [|a l']; [done|]. apply Hsn.
      * unfold hnext. by rewrite (aget_aput_eq _ _ _ m).
      * rewrite Hz. intros z [= <-]. unfold hnext. rewrite aget_aput_ne by done.
        by rewrite (aget_aput_eq _ _ _ l).
      * rewrite Hz. intros z Hzin Hzne. unfold hnext. rewrite !aget_aput_ne by (congruence || (intros E; apply Hhq; by rewrite E)).
        done.
    + intros k Hk Hkq. rewrite !aget_aput_ne by (congruence || (intros E; apply Hkq; by rewrite <- E)). done.
Qed.

(** The messages of a queue have non-negative sizes. *)
Lemma ts_sum_nonneg s fs fh U sg l :
  core s fs fh U sg -> (forall k, k ∈ l -> U k) -> 0 <= ts_sum (msghdrs s) l.
Proof.
  intros Hc. induction l as [|k l IH]; intros HU; simpl; [done|].
  destruct (c_used _ _ _ _ _ Hc k) as (mk & Hmk & []); [apply HU; set_solver|].
  specialize (IH ltac:(set_solver)). unfold hdr_ts. rewrite Hmk. simpl. lia.
Qed.

Lemma snd_enqueue_unfold pid now q h s d :
  aget (msqids s) q = Some d ->
  snd_enqueue pid now q h s =
    obind (let* (d0, s0) :=
       (if msg_first d =? NIL then Ret (ds_set_ends d h h) s
        else
          let? l := aget (msghdrs s) (msg_last d) in
          Ret (ds_set_ends d (msg_first d) h) (put_hdr s (msg_last d) (hdr_set_next l h))) in
     let? m0 := aget (msghdrs s0) h in
     Ret (d0, m0) (put_hdr s0 h (hdr_set_next m0 NIL)))
    (fun r s1 =>
       Ret tt (wake (put_q s1 q (ds_set_sent (ds_set_counts (fst r)
         (u32 (msg_cbytes (fst r) + msg_ts (snd r))) (u32 (msg_qnum (fst r) + 1))) pid now)) q)).
Proof.
  intros Hd. unfold snd_enqueue. rewrite Hd. destruct (msg_first d =? NIL); cbn [obind].
  - by destruct (aget (msghdrs s) h).
  - destruct (aget (msghdrs s) (msg_last d)); [|done]. cbn [obind]. by destruct (aget _ h).
Qed.

(** Appending header [h] to queue [q]. *)
Lemma snd_enqueue_spec pid now s fs fh U sg Q q d h m :
  core s fs fh U sg -> qinv s Q -> (forall k, queued Q k -> U k) -> U h -> ~ queued Q h ->
  aget (msqids s) q = Some d -> queue_ok (msghdrs s) d (Q q) -> aget (msghdrs s) h = Some m ->
  msg_cbytes d + msg_ts m <= msg_qbytes d ->
  exists s', snd_enqueue pid now q h s = Ret tt s' /\
    core s' fs fh U sg /\ qinv s' (qset Q q (Q q ++ [h])) /\
    hdrs_eqv (msghdrs s) (msghdrs s') /\ msgpool s' = msgpool s /\ msg_errno s' = msg_errno s /\
    exists d', aget (msqids s') q = Some d' /\ msg_qbytes d' = msg_qbytes d /\ msg_perm d' = msg_perm d.
Proof.
  intros Hc Hq Hsub HU Hnq Hd Hok Hm Hfit. rewrite (snd_enqueue_unfold _ _ _ _ _ d) by done.
  destruct (enqueue_links s fs fh U sg Q q d h m Hc Hq Hsub HU Hnq Hd Hok Hm)
    as (hdrs' & first & -> & Hlen & Heqv & Hlinks & Hout).
  cbn [obind fst snd]. eexists. split; [done|].
  assert (Hcore : core (set_hdrs s hdrs') fs fh U sg).
  { apply core_relink; try done. intros k Hk. apply Hout.
    - intros ->. by apply (c_sep_h _ _ _ _ _ Hc h).
    - intros Hkq. apply (c_sep_h _ _ _ _ _ Hc k); [|done]. apply Hsub. by exists q. }
  split; [by eapply core_same|].
  split; [|do 3 (split; [done|]); eexists; split; [by eapply aget_aput_eq|done]].
  destruct Hok as [_ Hcb Hqn Hqb Hmx].
  destruct (c_used _ _ _ _ _ Hc h HU) as (m0 & Hm0 & Hho). rewrite Hm in Hm0. injection Hm0 as <-.
  pose proof (ho_ts _ _ _ Hho) as Hts.
  assert (Hsum : ts_sum hdrs' (Q q ++ [h]) = msg_cbytes d + msg_ts m).
  { rewrite ts_sum_app, Hcb. f_equal.
    - apply ts_sum_ext. intros. by apply hdr_ts_eqv.
    - simpl. rewrite (hdr_ts_eqv _ _ _ Heqv). unfold hdr_ts. rewrite Hm. simpl. lia. }
  assert (Hpos : 0 <= msg_cbytes d).
  { rewrite Hcb. eapply ts_sum_nonneg; [done|]. intros k Hk. apply Hsub. by exists q. }
  assert (Hlq : (length (Q q) <= 40)%nat).
  { apply NoDup_index_length; [apply Hq|]. intros k Hk.
    destruct (c_used _ _ _ _ _ Hc k) as (mk & Hmk%aget_Some_range & _); [apply Hsub; by exists q|].
    rewrite (c_hdrs _ _ _ _ _ Hc) in Hmk. unfold MSGTQL in Hmk. lia. }
  eapply (qinv_update s _ Q q d); [done|done|reflexivity| | | |].
  - intros k h0 Hk Hh0. simpl. apply Hout.
    + intros ->. apply Hnq. by exists k.
    + intros Hqh. apply Hk. by eapply (qi_disj _ _ Hq).
  - right. simpl. unfold MSGMNB in *. split; simpl; try done.
    + by eapply queue_links_ext.
    + rewrite Hsum. apply u32_id. wrap_unfold. lia.
    + rewrite Hqn, length_app. simpl. rewrite u32_id by (wrap_unfold; lia). lia.
    + unfold MSGMNB. rewrite u32_id by (wrap_unfold; lia). lia.
  - apply NoDup_app. split; [apply Hq|]. split; [|apply NoDup_singleton].
    intros x Hx ->%list_elem_of_singleton. apply Hnq. by exists q.
  - intros k q' Hk%elem_of_app Hk'. destruct Hk as [Hk|Hk].
    + by eapply (qi_disj _ _ Hq).
    + apply list_elem_of_singleton in Hk as ->. exfalso. apply Hnq. by exists q'.
Qed.

(** ** [msgsnd] after the waiting loop *)

(** Changing fields of a descriptor the invariant does not mention. *)
Lemma qinv_touch s s' Q q d d' :
  qinv s Q -> aget (msqids s) q = Some d -> msqids s' = aput (msqids s) q d' ->
  msg_first d' = msg_first d -> msg_last d' = msg_last d -> msg_cbytes d' = msg_cbytes d ->
  msg_qnum d' = msg_qnum d -> msg_qbytes d' = msg_qbytes d ->
  (forall h, queued Q h -> aget (msghdrs s') h = aget (msghdrs s) h) ->
  qinv s' Q.
Proof.
  intros [Hlen Hqq Hout Hnds Hdj] Hd Hs' E1 E2 E3 E4 E5 Hh.
  split; try done; try (by rewrite Hs', aput_length).
  - intros k e. rewrite Hs', (aget_aput _ _ _ _ d Hd).
    assert (Hk : forall h, h ∈ Q k -> aget (msghdrs s') h = aget (msghdrs s) h)
      by (intros h ?; apply Hh; by exists k).
    destruct (Z.eqb_spec q k) as [<-|Hne].
    + intros [= <-]. destruct (Hqq q d Hd) as [[? ?]|Hok]; [left; by rewrite E5|right].
      by eapply queue_ok_ext.
    + intros He. destruct (Hqq k e He) as [?|Hok]; [by left|right]. by eapply queue_ok_ext.
  - intros k. rewrite Hs', (aget_aput _ _ _ _ d Hd). destruct (Z.eqb_spec q k); [done|]. auto.
Qed.

Lemma unlock_lock_fields d :
  msg_qbytes (unlock (lock d)) = msg_qbytes d.
Proof. done. Qed.

Section Send.
  Context (s : msgstate) (fs fh : list Z) (Q sg : Z -> list Z) (q : Z) (d : msqid_ds) (msgsz mtype : Z).
  Context (Hc : core s fs fh (queued Q) sg) (Hq : qinv s Q).
  Context (Hd : aget (msqids s) q = Some d) (Hqb : msg_qbytes d <> 0).
  Context (Hcs : can_send s d msgsz) (Hsz : 0 <= msgsz <= msg_qbytes d).

Lemma send_queue_ok : queue_ok (msghdrs s) d (Q q).
  Proof. by destruct (qi_q _ _ Hq q d Hd) as [[? _]|]. Qed.

Lemma send_size : 0 <= msgsz <= MSGMNB.
  Proof. pose proof (qo_qbytes _ _ _ send_queue_ok). lia. Qed.

  (** The state once a header has been taken: everything queued is untouched. *)
Lemma send_taken :
    exists h s1 m fs1 fh1 l, snd_take q msgsz mtype s = Ret h s1 /\
      core s1 fs1 fh1 (fun k => queued Q k \/ k = h) (sgset sg h l) /\ qinv s1 Q /\
      ~ queued Q h /\ hframe h s s1 /\ msqids s1 = aput (msqids s) q (lock d) /\
      aget (msghdrs s1) h = Some m /\ msg_type m = mtype /\ msg_ts m = msgsz /\
      hdr_ok (msgmaps s1) m l /\ (forall k x, queued Q k -> x ∈ sg k -> x ∉ l).
  Proof.
    destruct (core_take s fs fh (queued Q) sg q d msgsz mtype Hc Hd Hcs send_size)
      as (h & fh' & s1 & m & -> & Ht & Hc1 & Hfr & Hmq & Hm & Hty & Hts).
    assert (Hnq : ~ queued Q h).
    { intros Hqh. apply (c_sep_h _ _ _ _ _ Hc h Hqh). set_solver. }
    exists h, s1, m. do 3 eexists. split; [done|]. split; [exact Hc1|].
    destruct (c_used _ _ _ _ _ Hc1 h (or_intror eq_refl)) as (m0 & Hm0 & Hho).
    rewrite Hm in Hm0. injection Hm0 as <-. rewrite sgset_eq in Hho.
    split; [|do 7 (split; [done|])].
    - eapply (qinv_touch s s1 Q q d (lock d)); try done. intros k Hk. apply (hf_hdrs _ _ _ Hfr).
      by intros ->.
    - intros k x Hk Hx Hxl. assert (k <> h) by (by intros ->).
      assert (k = h); [|done].
      apply (c_sep_s _ _ _ _ _ Hc1 k h x); [by left|by right|by rewrite sgset_ne|by rewrite sgset_eq].
  Qed.
End Send.

(** [msgsnd] with a valid type appends the message to its queue. *)
Lemma snd_deliver_ok pid now s A q d msgsz mtype body :
  mrep s A -> aget (msqids s) q = Some d -> msg_qbytes d <> 0 -> can_send s d msgsz ->
  0 <= msgsz <= msg_qbytes d -> msgsz <= Z.of_nat (length body) -> 1 <= mtype ->
  exists s', snd_deliver pid now q msgsz mtype body s = Ret 0 s' /\
    mrep s' (qset A q (A q ++ [(mtype, take (Z.to_nat msgsz) body)])) /\
    msg_errno s' = msg_errno s /\
    exists d', aget (msqids s') q = Some d' /\ msg_qbytes d' = msg_qbytes d /\
      seq (msg_perm d') = seq (msg_perm d).
Proof.
  intros (fs & fh & Q & sg & Hc & Hq & HA & Hty) Hd Hqb Hcs Hsz Hbody Hmt.
  pose proof (send_queue_ok s Q q d Hq Hd Hqb) as Hok.
  destruct (send_taken s fs fh Q sg q d msgsz mtype Hc Hq Hd Hqb Hcs Hsz)
    as (h & s1 & m & fs1 & fh1 & l & Ht & Hc1 & Hq1 & Hnq & Hfr & Hmq & Hm & Hmty & Hmts & Hho & Hsep).
  unfold snd_deliver. rewrite Ht. cbn [obind]. rewrite (proj2 (Z.ltb_ge _ _)) by lia. rewrite Hm.
  destruct Hho as [Hch Hnd Hlen Hts].
  destruct (copy_in_spec l (Z.to_nat msgsz) (msg_spot m) msgsz body s1) as (pool' & -> & Hpl & Htxt & Hpo);
    try done; try apply Hc1; try lia.
  { by rewrite <- Hmts. }
  cbn [obind]. change (negb (NIL =? -1)) with false. cbn iota. unfold snd_unlock.
  change (msqids (set_mpool s1 pool')) with (msqids s1).
  assert (Hd1 : aget (msqids s1) q = Some (lock d)) by (rewrite Hmq; by eapply aget_aput_eq).
  rewrite Hd1. cbn [obind]. set (s3 := put_q (set_mpool s1 pool') q (unlock (lock d))).
  assert (Hd3 : aget (msqids s3) q = Some (unlock (lock d))) by (by eapply aget_aput_eq).
  rewrite Hd3, unlock_lock_fields, (proj2 (Z.eqb_neq _ _)) by done.
  assert (Hc3 : core s3 fs1 fh1 (fun k => queued Q k \/ k = h) (sgset sg h l)) by (by eapply core_same).
  assert (Hq3 : qinv s3 Q) by (by eapply (qinv_touch s1 s3 Q q (lock d) (unlock (lock d)))).
  assert (Hok3 : queue_ok (msghdrs s3) (unlock (lock d)) (Q q)).
  { eapply queue_ok_ext; try done. intros k Hk. apply (hf_hdrs _ _ _ Hfr). intros ->.
    apply Hnq. by exists q. }
  destruct (snd_enqueue_spec pid now s3 fs1 fh1 (fun k => queued Q k \/ k = h) (sgset sg h l) Q q
              (unlock (lock d)) h m) as (s' & -> & Hc' & Hq' & Heqv & Hp' & He' & d4 & Hd4 & Hqb4 & Hpm4);
    try done; [by left|by right| |].
  { assert (0 <= msg_cbytes d).
    { rewrite (qo_cbytes _ _ _ Hok). eapply ts_sum_nonneg; [done|]. intros k Hk. by exists q. }
    pose proof (qo_max _ _ _ Hok). pose proof (qo_qbytes _ _ _ Hok). rewrite Hmts.
    pose proof (cs_bytes _ _ _ Hcs) as Hb. unfold MSGMNB in *. simpl.
    rewrite u32_id in Hb by (wrap_unfold; lia). lia. }
  cbn [obind]. exists s'. split; [done|]. split.
  2: { split; [rewrite He'; apply (hf_errno _ _ _ Hfr)|]. exists d4. rewrite Hpm4. done. }
  assert (Hold : forall k, queued Q k ->
    msg_of (msghdrs s') (msgpool s') (sgset sg h l) k = msg_of (msghdrs s) (msgpool s) sg k).
  { intros k Hk. assert (k <> h) by (by intros ->).
    rewrite (msg_of_eqv _ _ _ _ _ Heqv), Hp'. apply msg_of_ext.
    - by apply (hf_hdrs _ _ _ Hfr).
    - by rewrite sgset_ne.
    - intros x Hx. simpl. rewrite Hpo; [by rewrite (hf_pool _ _ _ Hfr)| |by eapply Hsep].
      destruct (c_used _ _ _ _ _ Hc k Hk) as (mk & _ & []).
      eapply chain_segs_range in Hx; [|apply Hc|done]. lia. }
  assert (Hnew : msg_of (msghdrs s') (msgpool s') (sgset sg h l) h = (mtype, take (Z.to_nat msgsz) body)).
  { rewrite (msg_of_eqv _ _ _ _ _ Heqv), Hp'. unfold msg_of, s3. simpl. rewrite Hm, sgset_eq.
    rewrite Hmty, Hmts. by rewrite Htxt. }
  exists fs1, fh1, (qset Q q (Q q ++ [h])), (sgset sg h l). split; [|split; [done|split]].
  - eapply core_ext; [exact Hc'|]. intros k [q' Hk]. unfold qset in Hk. case_decide.
    + apply elem_of_app in Hk as [Hk|Hk%list_elem_of_singleton]; [left; by exists q|by right].
    + left. by exists q'.
  - intros k. unfold qset. case_decide as Hk; [|].
    + rewrite fmap_app. csimpl. rewrite Hnew, HA. f_equal. apply list_fmap_ext.
      intros i x Hx%list_elem_of_lookup_2. symmetry. apply Hold. by exists q.
    + rewrite HA. apply list_fmap_ext. intros i x Hx%list_elem_of_lookup_2. symmetry. apply Hold.
      by exists k.
  - intros k. unfold qset. case_decide; [|done]. apply Forall_app. split; [done|].
    by repeat constructor.
Qed.

(** With an invalid type the header and its segments go back to the free lists. *)
Lemma snd_deliver_badtype pid now s A q d msgsz mtype body :
  mrep s A -> aget (msqids s) q = Some d -> msg_qbytes d <> 0 -> can_send s d msgsz ->
  0 <= msgsz <= msg_qbytes d -> mtype < 1 ->
  exists s', snd_deliver pid now q msgsz mtype body s = Ret (-1) s' /\ mrep s' A /\
    msg_errno s' = EINVAL.
Proof.
  intros (fs & fh & Q & sg & Hc & Hq & HA & Hty) Hd Hqb Hcs Hsz Hmt.
  destruct (send_taken s fs fh Q sg q d msgsz mtype Hc Hq Hd Hqb Hcs Hsz)
    as (h & s1 & m & fs1 & fh1 & l & Ht & Hc1 & Hq1 & Hnq & Hfr & Hmq & Hm & Hmty & Hmts & Hho & Hsep).
  unfold snd_deliver. rewrite Ht. cbn [obind]. rewrite (proj2 (Z.ltb_lt _ _)) by lia.
  destruct (core_free _ _ _ _ _ h Hc1 (or_intror eq_refl)) as (s2 & -> & Hc2 & Hfr2 & Hmq2).
  cbn [obind]. unfold snd_unlock.
  assert (Hd2 : aget (msqids s2) q = Some (lock d)) by (rewrite Hmq2, Hmq; by eapply aget_aput_eq).
  rewrite Hd2. cbn [obind]. eexists. split; [done|]. split; [|done].
  assert (Hkeep : forall k, queued Q k -> aget (msghdrs s2) k = aget (msghdrs s) k).
  { intros k Hk. assert (k <> h) by (by intros ->).
    rewrite (hf_hdrs _ _ _ Hfr2), (hf_hdrs _ _ _ Hfr); done. }
  do 2 eexists. exists Q, (sgset sg h l). split; [|split; [|split; [|done]]].
  - eapply core_ext; [eapply core_same; [exact Hc2|done..]|].
    intros k Hk. split; [by left|by intros ->].
  - eapply (qinv_touch s _ Q q d (unlock (lock d))); try done.
    simpl. by rewrite Hmq2, Hmq, aput_aput.
  - intros k. rewrite HA. apply list_fmap_ext. intros i x Hx%list_elem_of_lookup_2.
    assert (Hxq : queued Q x) by (by exists k). symmetry. apply msg_of_ext; simpl.
    + by apply Hkeep.
    + apply sgset_ne. by intros ->.
    + intros y _. by rewrite (hf_pool _ _ _ Hfr2), (hf_pool _ _ _ Hfr).
Qed.
