(* ===== verification/SysvMsgRecv.v ===== *)
(** * System V message queues: receiving and removal

    [msgrcv] takes the first message of the wanted type out of the list of its
    queue; IPC_RMID empties the queue.  The panics of the code are not reached
    and the traversals end within [hdr_fuel] steps. *)

From S2P Require Import Prelude Ipc SysvMsg SysvMsgCopy SysvMsgInv SysvMsgQueue.

(** ** Choosing a message *)

(** The test of [msgrcv] on an abstract message. *)
Definition wanted (msgtyp : Z) (m : message) : bool :=
  (msgtyp =? 0) || (msgtyp =? fst m) || (fst m <=? s32 (- msgtyp)).

Definition hdr_wanted (msgtyp : Z) (hdrs : list msg) (h : Z) : bool :=
  (msgtyp =? 0) || from_option (type_match msgtyp) false (aget hdrs h).

Definition toobig (msgsz msgflg : Z) (m : msg) : bool :=
  (msgsz <? msg_ts m) && negb (bset msgflg MSG_NOERROR).

(** The descriptor and the links after [x] has been unlinked. *)
Record unlinked (s : msgstate) (d : msqid_ds) (pre : list Z) (post : list Z)
  (d' : msqid_ds) (hdrs' : list msg) : Prop := {
  un_len : length hdrs' = length (msghdrs s);
  un_eqv : hdrs_eqv (msghdrs s) hdrs';
  un_links : queue_links hdrs' d' (pre ++ post);
  un_out : forall k, k ∉ pre -> aget hdrs' k = aget (msghdrs s) k;
  un_ds : d' = ds_set_ends d (msg_first d') (msg_last d')
}.

Lemma put_q_same s q d : aget (msqids s) q = Some d -> put_q s q d = s.
Proof. intros H. unfold put_q. rewrite aput_same by done. by destruct s. Qed.

Lemma set_hdrs_same s : set_hdrs s (msghdrs s) = s.
Proof. by destruct s. Qed.

Lemma ds_set_ends_same d : ds_set_ends d (msg_first d) (msg_last d) = d.
Proof. by destruct d. Qed.

Lemma last_app_cons {A} (l1 l2 : list A) x : last (l1 ++ x :: l2) = last (x :: l2).
Proof. rewrite last_app. by destruct (last (x :: l2)) eqn:E; [|apply last_None in E]. Qed.

Lemma last_unlink (pre : list Z) x post :
  NoDup (pre ++ x :: post) ->
  (default NIL (last (pre ++ x :: post)) = x <-> post = []) /\
  (post <> [] -> last (pre ++ post) = last (pre ++ x :: post)).
Proof.
  intros Hnd. rewrite last_app_cons. destruct post as [|y post].
  - simpl. split; [done|done].
  - change (last (x :: y :: post)) with (last (y :: post)). rewrite last_app_cons.
    split; [|done]. split; [|done]. intros Hx.
    destruct (last (y :: post)) as [z|] eqn:Hz; [|by apply last_None in Hz].
    apply last_Some_elem_of in Hz. simpl in Hx. subst.
    apply NoDup_app in Hnd as (_ & _ & Hnd). by apply NoDup_cons in Hnd as [? _].
Qed.

Lemma rcv_unlink_spec s fs fh U sg Q q d pre x post m :
  core s fs fh U sg -> qinv s Q -> (forall k, queued Q k -> U k) ->
  aget (msqids s) q = Some d -> queue_links (msghdrs s) d (Q q) -> Q q = pre ++ x :: post ->
  aget (msghdrs s) x = Some m ->
  exists d' hdrs', rcv_unlink q (default NIL (last pre)) x m s =
      Ret tt (put_q (set_hdrs s hdrs') q d') /\ unlinked s d pre post d' hdrs'.
Proof.
  intros Hc Hq Hsub Hd [Hch Hl] HQ Hm. rewrite HQ in Hch, Hl.
  assert (Hnd : NoDup (pre ++ x :: post)) by (rewrite <- HQ; apply Hq).
  destruct (last_unlink pre x post Hnd) as [Hlast Hlast'].
  destruct (chain_app_inv _ _ _ _ Hch) as [Hcx Hpre].
  apply chain_cons_inv in Hcx as (_ & Hx0 & nx & Hnx & Hcp).
  assert (Hmn : msg_next m = nx) by (unfold hnext in Hnx; rewrite Hm in Hnx; by injection Hnx).
  assert (Hpost : nx = hd NIL post) by (by eapply chain_hd). cbn [hd] in Hpre.
  assert (Hlx : (x =? msg_last d) = true <-> post = []).
  { rewrite Z.eqb_eq, Hl, <- Hlast. split; congruence. }
  unfold rcv_unlink. rewrite Hd. destruct (last pre) as [p|] eqn:Hp; cbn [default from_option id].
  - assert (Hpin : p ∈ pre) by (by apply last_Some_elem_of).
    destruct (c_used _ _ _ _ _ Hc p) as (mp & Hmp & _); [apply Hsub; exists q; rewrite HQ; set_solver|].
    destruct (aget_Some_range _ _ _ Hmp) as [Hp0 _].
    rewrite (proj2 (Z.eqb_neq p NIL)) by (unfold NIL; lia). rewrite Hmp.
    set (hdrs' := aput (msghdrs s) p (hdr_set_next mp (msg_next m))).
    assert (Heq : hdrs_eqv (msghdrs s) hdrs') by (by eapply hdrs_eqv_put).
    assert (Hchain : chain (hnext hdrs') (msg_first d) (pre ++ post)).
    { eapply (chain_unlink (hnext (msghdrs s)) _ (msg_first d) (msg_first d) pre x nx post); try done.
      - rewrite Hp. split; [|done]. unfold hnext, hdrs'. rewrite (aget_aput_eq _ _ _ mp) by done.
        simpl. by rewrite Hmn.
      - intros z Hz Hne. apply hnext_put_out. congruence. }
    destruct (x =? msg_last d) eqn:Hxl.
    + exists (ds_set_ends d (msg_first d) p), hdrs'. split; [done|].
      assert (post = []) as -> by (by apply Hlx). rewrite app_nil_r in Hchain.
      split; try done; [by unfold hdrs'; rewrite aput_length| |].
      * rewrite app_nil_r. split; simpl; [done|by rewrite Hp].
      * intros k Hk. unfold hdrs'. rewrite aget_aput_ne; [done|]. by intros ->.
    + exists d, hdrs'. rewrite put_q_same by done. split; [done|].
      split; try done; [by unfold hdrs'; rewrite aput_length| | |by rewrite ds_set_ends_same].
      * split; [done|]. rewrite Hlast', Hl; [done|]. intros E. apply Hlx in E. congruence.
      * intros k Hk. unfold hdrs'. rewrite aget_aput_ne; [done|]. by intros ->.
  - apply last_None in Hp as ->. cbn [app] in *. change (NIL =? NIL) with true. cbn iota.
    destruct (x =? msg_last d) eqn:Hxl.
    + exists (ds_set_ends d NIL NIL), (msghdrs s). rewrite set_hdrs_same. split; [done|].
      assert (post = []) as -> by (by apply Hlx).
      split; try done; [apply hdrs_eqv_refl|]. split; [constructor|done].
    + exists (ds_set_ends d (msg_next m) (msg_last d)), (msghdrs s). rewrite set_hdrs_same.
      split; [done|]. split; try done; [apply hdrs_eqv_refl|]. split; simpl.
      * rewrite Hmn, Hpost. rewrite Hpost in Hcp. done.
      * rewrite Hlast', Hl; [done|]. intros E. apply Hlx in E. congruence.
Qed.

(** What the pass over queue [q] returns. *)
Definition select_post (s : msgstate) (d : msqid_ds) (q msgsz msgtyp msgflg : Z) (l : list Z)
  (r : outcome msgstate found) : Prop :=
  (Forall (fun h => hdr_wanted msgtyp (msghdrs s) h = false) l /\ r = Ret FoundNone s) \/
  exists pre x post m, l = pre ++ x :: post /\
    Forall (fun h => hdr_wanted msgtyp (msghdrs s) h = false) pre /\
    aget (msghdrs s) x = Some m /\ hdr_wanted msgtyp (msghdrs s) x = true /\
    if toobig msgsz msgflg m then r = Ret (FoundErr E2BIG) s
    else exists d' hdrs', r = Ret (FoundMsg x) (put_q (set_hdrs s hdrs') q d') /\
           unlinked s d pre post d' hdrs'.

Lemma rcv_typed_spec s fs fh U sg Q q d msgsz msgtyp msgflg :
  core s fs fh U sg -> qinv s Q -> (forall k, queued Q k -> U k) ->
  aget (msqids s) q = Some d -> queue_links (msghdrs s) d (Q q) -> msgtyp <> 0 ->
  forall rest pre fuel, Q q = pre ++ rest -> (length rest <= fuel)%nat ->
  Forall (fun h => hdr_wanted msgtyp (msghdrs s) h = false) pre ->
  select_post s d q msgsz msgtyp msgflg (Q q)
    (rcv_typed fuel q (default NIL (last pre)) (hd NIL rest) msgsz msgtyp msgflg s).
Proof.
  intros Hc Hq Hsub Hd Hlinks Hty. induction rest as [|x rest IH]; intros pre fuel HQ Hf Hpre.
  - left. rewrite app_nil_r in HQ. rewrite HQ. split; [done|]. by destruct fuel.
  - destruct fuel as [|fuel]; simpl in Hf; [lia|]. cbn [rcv_typed hd].
    destruct (c_used _ _ _ _ _ Hc x) as (m & Hm & _); [apply Hsub; exists q; rewrite HQ; set_solver|].
    destruct (aget_Some_range _ _ _ Hm) as [Hx0 _].
    rewrite (proj2 (Z.eqb_neq x NIL)) by (unfold NIL; lia). rewrite Hm.
    assert (Hw : hdr_wanted msgtyp (msghdrs s) x = type_match msgtyp m).
    { unfold hdr_wanted. rewrite Hm, (proj2 (Z.eqb_neq _ _)) by done. done. }
    destruct (type_match msgtyp m) eqn:Htm.
    + right. exists pre, x, rest, m. do 4 (split; [done|]). unfold toobig.
      destruct ((msgsz <? msg_ts m) && negb (bset msgflg MSG_NOERROR)); [done|].
      destruct (rcv_unlink_spec s fs fh U sg Q q d pre x rest m) as (d' & hdrs' & -> & Hun); try done.
      by exists d', hdrs'.
    + assert (Hnx : msg_next m = hd NIL rest).
      { destruct Hlinks as [Hch _]. rewrite HQ in Hch. destruct (chain_app_inv _ _ _ _ Hch) as [Hcx _].
        apply chain_cons_inv in Hcx as (_ & _ & nx & Hnx & Hcr). unfold hnext in Hnx.
        rewrite Hm in Hnx. injection Hnx as ->. by eapply chain_hd. }
      rewrite Hnx. specialize (IH (pre ++ [x]) fuel). rewrite last_snoc in IH. apply IH.
      * by rewrite <- app_assoc.
      * lia.
      * apply Forall_app. split; [done|]. by constructor.
Qed.

Lemma rcv_first_spec s fs fh U sg Q q d msgsz msgflg :
  core s fs fh U sg -> qinv s Q -> (forall k, queued Q k -> U k) ->
  aget (msqids s) q = Some d -> queue_links (msghdrs s) d (Q q) ->
  select_post s d q msgsz 0 msgflg (Q q) (rcv_first q msgsz msgflg s).
Proof.
  intros Hc Hq Hsub Hd Hlinks. pose proof Hlinks as [Hch Hl]. unfold rcv_first. rewrite Hd.
  rewrite (chain_hd _ _ _ Hch). destruct (Q q) as [|x rest] eqn:HQ; cbn [hd].
  - left. by split; [constructor|].
  - destruct (c_used _ _ _ _ _ Hc x) as (m & Hm & _); [apply Hsub; exists q; rewrite HQ; set_solver|].
    destruct (aget_Some_range _ _ _ Hm) as [Hx0 _].
    rewrite (proj2 (Z.eqb_neq x NIL)) by (unfold NIL; lia). rewrite Hm.
    right. exists [], x, rest, m. split; [done|]. split; [constructor|]. do 2 (split; [done|]).
    unfold toobig. destruct ((msgsz <? msg_ts m) && negb (bset msgflg MSG_NOERROR)); [done|].
    destruct (rcv_unlink_spec s fs fh U sg Q q d [] x rest m) as (d' & hdrs' & Heq & Hun); try done;
      [by rewrite HQ|].
    exists d', hdrs'. split; [|done].
    unfold rcv_unlink in Heq. rewrite Hd in Heq. cbn [last default from_option] in Heq.
    change (NIL =? NIL) with true in Heq. cbn iota in Heq.
    destruct (x =? msg_last d) eqn:Hxl.
    + apply Ret_inj in Heq as [_ Heq]. by rewrite Heq.
    + destruct (Z.eqb_spec (msg_next m) NIL) as [Hn|Hn]; [|apply Ret_inj in Heq as [_ Heq]; by rewrite Heq].
      exfalso. apply chain_cons_inv in Hch as (_ & _ & nx & Hnx & Hcr). unfold hnext in Hnx.
      rewrite Hm in Hnx. injection Hnx as <-. apply (chain_head _ _ _ Hcr) in Hn as ->.
      simpl in Hl. rewrite Hl in Hxl. by rewrite Z.eqb_refl in Hxl.
Qed.

Lemma queue_length s fs fh U sg Q q :
  core s fs fh U sg -> qinv s Q -> (forall k, queued Q k -> U k) -> (length (Q q) <= hdr_fuel)%nat.
Proof.
  intros Hc Hq Hsub. apply NoDup_index_length; [apply Hq|]. intros k Hk.
  destruct (c_used _ _ _ _ _ Hc k) as (mk & Hmk%aget_Some_range & _); [apply Hsub; by exists q|].
  by rewrite (c_hdrs _ _ _ _ _ Hc) in Hmk.
Qed.

Lemma rcv_select_spec s fs fh U sg Q q d msgsz msgtyp msgflg :
  core s fs fh U sg -> qinv s Q -> (forall k, queued Q k -> U k) ->
  aget (msqids s) q = Some d -> queue_links (msghdrs s) d (Q q) ->
  select_post s d q msgsz msgtyp msgflg (Q q) (rcv_select q msgsz msgtyp msgflg s).
Proof.
  intros Hc Hq Hsub Hd Hlinks. unfold rcv_select. destruct (Z.eqb_spec msgtyp 0) as [->|Hne].
  - by eapply rcv_first_spec.
  - rewrite Hd, (chain_hd _ _ _ (ql_chain _ _ _ Hlinks)).
    eapply (rcv_typed_spec s fs fh U sg Q q d msgsz msgtyp msgflg Hc Hq Hsub Hd Hlinks Hne (Q q) []);
      [done|by eapply queue_length|constructor].
Qed.

(** ** Delivering *)

(** The result of [msgrcv] for message [m] and a buffer of [msgsz] bytes: the
    text, cut to the buffer, starts the bytes stored. *)
Definition received (msgsz : Z) (m : message) (r : rcv_result) : Prop :=
  let n := Z.min msgsz (Z.of_nat (length (snd m))) in
  exists bytes, r = (n, Some (fst m, bytes)) /\
    take (Z.to_nat n) bytes = take (Z.to_nat n) (snd m) /\
    Z.of_nat (length bytes) = if 8 <? n then 8 * segs_of n else n.

Lemma msg_of_length s fs fh U sg h m :
  core s fs fh U sg -> U h -> aget (msghdrs s) h = Some m ->
  Z.of_nat (length (snd (msg_of (msghdrs s) (msgpool s) sg h))) = msg_ts m.
Proof.
  intros Hc HU Hm. destruct (c_used _ _ _ _ _ Hc h HU) as (m0 & Hm0 & [Hch Hnd Hlen Hts]).
  rewrite Hm in Hm0. injection Hm0 as <-. unfold msg_of. rewrite Hm. cbn [snd].
  rewrite length_take, text_of_length; [|apply Hc|].
  - unfold segs_of in Hlen. Z.div_mod_to_equations. lia.
  - intros x Hx. eapply chain_segs_range; [apply Hc|done|done].
Qed.

Section Deliver.
  Context (s : msgstate) (fs fh : list Z) (Q sg : Z -> list Z) (q : Z) (d : msqid_ds).
  Context (Hc : core s fs fh (queued Q) sg) (Hq : qinv s Q).
  Context (Hd : aget (msqids s) q = Some d) (Hok : queue_ok (msghdrs s) d (Q q)).
  Context (pre : list Z) (x : Z) (post : list Z) (m : msg) (HQ : Q q = pre ++ x :: post).
  Context (Hm : aget (msghdrs s) x = Some m).
  Context (d' : msqid_ds) (hdrs' : list msg) (Hun : unlinked s d pre post d' hdrs').

Let s1 := put_q (set_hdrs s hdrs') q d'.

Lemma deliver_queued : queued Q x.
  Proof using All. exists q. rewrite HQ. set_solver. Qed.

Lemma deliver_nodup : NoDup (pre ++ x :: post).
  Proof using All. rewrite <- HQ. apply Hq. Qed.

Lemma deliver_core : core s1 fs fh (queued Q) sg.
  Proof using All.
    eapply core_same; [eapply (core_relink s fs fh (queued Q) sg hdrs')|..]; try done; try apply Hun.
    intros k Hk. apply Hun. intros Hkp. apply (c_sep_h _ _ _ _ _ Hc k); [|done].
    exists q. rewrite HQ. set_solver.
  Qed.

Lemma deliver_hdr : aget (msghdrs s1) x = Some m.
  Proof using All.
    simpl. rewrite (un_out _ _ _ _ _ _ Hun); [done|]. intros Hx.
    pose proof deliver_nodup as (_ & H & _)%NoDup_app. apply (H x Hx). set_solver.
  Qed.

  (** The queue [pre ++ post] with the counters decremented. *)
Lemma deliver_queue_ok hdrs2 d2 :
    (forall k, k <> x -> aget hdrs2 k = aget hdrs' k) ->
    msg_first d2 = msg_first d' -> msg_last d2 = msg_last d' ->
    msg_cbytes d2 = u32 (msg_cbytes d - msg_ts m) -> msg_qnum d2 = u32 (msg_qnum d - 1) ->
    msg_qbytes d2 = msg_qbytes d ->
    queue_ok hdrs2 d2 (pre ++ post).
  Proof using All.
    intros Hout E1 E2 E3 E4 E5. pose proof deliver_nodup as Hnd.
    assert (Hxn : forall k, k ∈ pre ++ post -> k <> x).
    { intros k Hk ->. apply NoDup_app in Hnd as (_ & H1 & H2). apply NoDup_cons in H2 as [H2 _].
      apply elem_of_app in Hk as [Hk|Hk]; [|done]. apply (H1 x Hk). set_solver. }
    destruct Hok as [_ Hcb Hqn Hqb Hmx].
    assert (Hsum : msg_cbytes d = ts_sum hdrs2 (pre ++ post) + msg_ts m).
    { rewrite Hcb, HQ, ts_sum_app. simpl. unfold hdr_ts at 1. rewrite Hm. simpl.
      rewrite (ts_sum_ext (msghdrs s) hdrs2 (pre ++ post)), ts_sum_app; [lia|].
      intros k Hk. unfold hdr_ts at 1. rewrite Hout by auto. apply hdr_ts_eqv, Hun. }
    assert (Hnn : 0 <= ts_sum hdrs2 (pre ++ post)).
    { rewrite (ts_sum_ext (msghdrs s)).
      - eapply ts_sum_nonneg; [exact Hc|]. intros k Hk. exists q. rewrite HQ. set_solver.
      - intros k Hk. unfold hdr_ts at 1. rewrite Hout by auto. apply hdr_ts_eqv, Hun. }
    destruct (c_used _ _ _ _ _ Hc x deliver_queued) as (m0 & Hm0 & [_ _ _ Hts]).
    rewrite Hm in Hm0. injection Hm0 as <-.
    pose proof (queue_length s fs fh (queued Q) sg Q q Hc Hq ltac:(done)) as Hlq.
    rewrite HQ, !length_app in *. cbn [length] in *.
    change hdr_fuel with 40%nat in Hlq. unfold MSGMNB in *. split.
    - eapply queue_links_ext; [apply Hun|done|done|]. intros k Hk. apply Hout. auto.
    - rewrite E3, u32_id by (wrap_unfold; lia). lia.
    - rewrite E4, Hqn, length_app, u32_id by (wrap_unfold; lia). lia.
    - by rewrite E5.
    - rewrite E3, u32_id by (wrap_unfold; lia). unfold MSGMNB. lia.
  Qed.

Lemma rcv_deliver_spec pid now msgsz :
    0 <= msgsz ->
    exists r s', rcv_deliver pid now q x msgsz s1 = Ret r s' /\
      received msgsz (msg_of (msghdrs s) (msgpool s) sg x) r /\
      (exists fs' fh', core s' fs' fh' (queued (qset Q q (pre ++ post))) sg) /\
      qinv s' (qset Q q (pre ++ post)) /\ msg_errno s' = msg_errno s /\
      (forall k, queued (qset Q q (pre ++ post)) k ->
         msg_of (msghdrs s') (msgpool s') sg k = msg_of (msghdrs s) (msgpool s) sg k).
  Proof using All.
    intros Hsz. pose proof deliver_core as Hc1. pose proof deliver_hdr as Hm1.
    pose proof deliver_nodup as Hnd.
    unfold rcv_deliver. rewrite Hm1.
    assert (Hd1 : aget (msqids s1) q = Some d') by (by eapply aget_aput_eq). rewrite Hd1.
    set (d2 := ds_set_rcvd _ pid now). set (s2 := put_q s1 q d2).
    assert (Hc2 : core s2 fs fh (queued Q) sg) by (by eapply core_same).
    destruct (c_used _ _ _ _ _ Hc2 x deliver_queued) as (m0 & Hm0 & [Hch Hndx Hlen Hts]).
    assert (m0 = m) as -> by (change (msghdrs s2) with (msghdrs s1) in Hm0; congruence).
    set (n := if msg_ts m <? msgsz then msg_ts m else msgsz).
    assert (Hn : n = Z.min msgsz (msg_ts m)) by (unfold n; destruct (Z.ltb_spec (msg_ts m) msgsz); lia).
    assert (Hseg : segs_of n <= Z.of_nat (length (sg x))).
    { rewrite Hlen. unfold segs_of. apply Z.div_le_mono; lia. }
    assert (Hn0 : Z.max 0 (n - 0) = n) by lia.
    rewrite (copy_out_spec (sg x)); [|apply Hc2|done|lia|by rewrite Hn0|lia].
    cbn [obind]. rewrite Hn0.
    destruct (copy_out_text (msgpool s2) (sg x) n) as [Htxt Hblen]; [apply Hc2| |lia|done|].
    { intros y Hy. eapply chain_segs_range; [apply Hc2|done|done]. }
    destruct (core_free s2 fs fh (queued Q) sg x Hc2 deliver_queued) as (s3 & -> & Hc3 & Hfr & Hmq).
    cbn [obind]. do 2 eexists. split; [done|].
    assert (Hsub : forall k, queued (qset Q q (pre ++ post)) k -> queued Q k /\ k <> x).
    { intros k [q' Hk]. unfold qset in Hk. case_decide as Hq'.
      - split; [exists q; rewrite HQ; set_solver|]. intros ->.
        apply NoDup_app in Hnd as (_ & H1 & H2). apply NoDup_cons in H2 as [H2 _].
        apply elem_of_app in Hk as [Hk|Hk]; [|done]. apply (H1 x Hk). set_solver.
      - split; [by exists q'|]. intros ->. apply Hq'. eapply (qi_disj _ _ Hq); [done|].
        rewrite HQ. set_solver. }
    pose proof (msg_of_length s fs fh (queued Q) sg x m Hc deliver_queued Hm) as Hml.
    split; [|split; [|split; [|split]]].
    - unfold received. rewrite Hml, <- Hn. eexists. split.
      + f_equal; [apply s32_id; wrap_unfold; unfold MSGMNB in *; lia|].
        do 2 f_equal. unfold msg_of. by rewrite Hm.
      + split; [|exact Hblen]. rewrite Htxt. unfold msg_of. rewrite Hm. cbn [snd].
        rewrite take_take. f_equal. lia.
    - do 2 eexists. eapply core_ext; [eapply core_same; [exact Hc3|done..]|].
      intros k Hk. by apply Hsub.
    - eapply (qinv_update s _ Q q d d2); [done|done| | | | |].
      + simpl. rewrite Hmq. unfold s2, s1. simpl. by rewrite aput_aput.
      + intros k h Hk Hh. simpl. rewrite (hf_hdrs _ _ _ Hfr).
        * simpl. apply (un_out _ _ _ _ _ _ Hun). intros Hp. apply Hk.
          eapply (qi_disj _ _ Hq); [done|]. rewrite HQ. set_solver.
        * intros ->. apply Hk. eapply (qi_disj _ _ Hq); [done|]. rewrite HQ. set_solver.
      + right. apply deliver_queue_ok; try done.
        * intros k Hk. simpl. by apply (hf_hdrs _ _ _ Hfr).
        * unfold d2. rewrite (un_ds _ _ _ _ _ _ Hun). done.
        * unfold d2. rewrite (un_ds _ _ _ _ _ _ Hun). done.
        * unfold d2. rewrite (un_ds _ _ _ _ _ _ Hun). done.
      + apply (sublist_NoDup _ (pre ++ x :: post)); [done|]. by apply sublist_app; [|constructor].
      + intros h k Hh Hk. eapply (qi_disj _ _ Hq); [done|]. rewrite HQ. set_solver.
    - simpl. by rewrite (hf_errno _ _ _ Hfr).
    - intros k Hk. destruct (Hsub k Hk) as [HQk Hkx]. simpl.
      transitivity (msg_of (msghdrs s2) (msgpool s2) sg k).
      + apply msg_of_ext; [by apply (hf_hdrs _ _ _ Hfr)|done|].
        intros y _. by rewrite (hf_pool _ _ _ Hfr).
      + simpl. apply msg_of_eqv, Hun.
  Qed.
End Deliver.

(** ** The whole of [msgrcv] *)

(** The first message that passes the test, and the others in order. *)
Fixpoint pick (P : message -> bool) (l : list message) : option (message * list message) :=
  match l with
  | [] => None
  | m :: l' =>
      if P m then Some (m, l')
      else match pick P l' with Some (x, r) => Some (x, m :: r) | None => None end
  end.

Lemma pick_none P l : Forall (fun m => P m = false) l -> pick P l = None.
Proof. induction 1 as [|m l Hm Hl IH]; simpl; [done|]. by rewrite Hm, IH. Qed.

Lemma pick_split P pre x post :
  Forall (fun m => P m = false) pre -> P x = true -> pick P (pre ++ x :: post) = Some (x, pre ++ post).
Proof.
  intros Hpre Hx. induction Hpre as [|m l Hm Hl IH]; simpl; [by rewrite Hx|]. by rewrite Hm, IH.
Qed.

Lemma msqid_check_inv msqid s q d :
  msqid_check msqid s = Ret (Some (q, d)) s ->
  aget (msqids s) q = Some d /\ msg_qbytes d <> 0 /\ seq (msg_perm d) = IPCID_TO_SEQ q.
Proof.
  unfold msqid_check. set (i := IPCID_TO_IX msqid). destruct (_ || _); [done|].
  destruct (aget (msqids s) i) as [e|] eqn:Hi; [|done]. destruct (Z.eqb_spec (msg_qbytes e) 0); [done|].
  destruct (Z.eqb_spec (seq (msg_perm e)) (IPCID_TO_SEQ i)); [|done]. cbn [negb].
  by intros [= <- <-].
Qed.

(** What [msgrcv] does with the messages [l] of its queue. *)
Definition rcv_spec (A : Z -> list message) (q msgsz msgtyp msgflg : Z) (s : msgstate)
  (r : outcome msgstate rcv_result) : Prop :=
  match pick (wanted msgtyp) (A q) with
  | None =>
      r = if bset msgflg IPC_NOWAIT then Ret (-1, None) (set_merrno s EAGAIN) else Asleep s
  | Some (m, rest) =>
      if (msgsz <? Z.of_nat (length (snd m))) && negb (bset msgflg MSG_NOERROR)
      then r = Ret (-1, None) (set_merrno s E2BIG)
      else exists v s', r = Ret v s' /\ received msgsz m v /\ mrep s' (qset A q rest) /\
             msg_errno s' = msg_errno s
  end.

Lemma hdr_wanted_msg s fs fh Q sg msgtyp h :
  core s fs fh (queued Q) sg -> queued Q h ->
  hdr_wanted msgtyp (msghdrs s) h = wanted msgtyp (msg_of (msghdrs s) (msgpool s) sg h).
Proof.
  intros Hc Hh. destruct (c_used _ _ _ _ _ Hc h Hh) as (m & Hm & _).
  unfold hdr_wanted, wanted, msg_of. rewrite Hm. cbn [fst from_option]. unfold type_match.
  by rewrite orb_assoc.
Qed.

Lemma fmap_wanted s fs fh Q sg msgtyp l b :
  core s fs fh (queued Q) sg -> (forall h, h ∈ l -> queued Q h) ->
  Forall (fun h => hdr_wanted msgtyp (msghdrs s) h = b) l ->
  Forall (fun m => wanted msgtyp m = b) (msg_of (msghdrs s) (msgpool s) sg <$> l).
Proof.
  intros Hc Hl Hf. apply Forall_fmap, Forall_forall. intros h Hh. simpl.
  erewrite <- hdr_wanted_msg by eauto. eapply Forall_forall in Hf; [|done]. done.
Qed.

(** One turn of the loop, and the end of the call where it finds a message. *)
Lemma rcv_round pid now s A q d msgsz msgtyp msgflg :
  mrep s A -> aget (msqids s) q = Some d -> msg_qbytes d <> 0 -> 0 <= msgsz ->
  match pick (wanted msgtyp) (A q) with
  | None => rcv_select q msgsz msgtyp msgflg s = Ret FoundNone s
  | Some (m, rest) =>
      if (msgsz <? Z.of_nat (length (snd m))) && negb (bset msgflg MSG_NOERROR)
      then rcv_select q msgsz msgtyp msgflg s = Ret (FoundErr E2BIG) s
      else exists h s1 v s', rcv_select q msgsz msgtyp msgflg s = Ret (FoundMsg h) s1 /\
             rcv_deliver pid now q h msgsz s1 = Ret v s' /\ received msgsz m v /\ mrep s' (qset A q rest) /\
             msg_errno s' = msg_errno s
  end.
Proof.
  intros (fs & fh & Q & sg & Hc & Hq & HA & Hty) Hd Hqb Hsz.
  assert (Hok : queue_ok (msghdrs s) d (Q q)) by (by destruct (qi_q _ _ Hq q d Hd) as [[? _]|]).
  assert (HinQ : forall h, h ∈ Q q -> queued Q h) by (intros h ?; by exists q).
  rewrite HA.
  destruct (rcv_select_spec s fs fh (queued Q) sg Q q d msgsz msgtyp msgflg Hc Hq ltac:(done) Hd (qo_links _ _ _ Hok))
    as [[Hall Hsel]|(pre & x & post & m & HQ & Hpre & Hm & Hx & Hcase)].
  - by rewrite pick_none by (by eapply fmap_wanted).
  - assert (Hxq : queued Q x) by (apply HinQ; rewrite HQ; set_solver).
    rewrite HQ, fmap_app. csimpl. rewrite pick_split.
    2: { eapply fmap_wanted; [done| |done]. intros h Hh. apply HinQ. rewrite HQ. set_solver. }
    2: { by erewrite <- hdr_wanted_msg. }
    rewrite (msg_of_length s fs fh (queued Q) sg x m Hc Hxq Hm). unfold toobig in Hcase.
    destruct ((msgsz <? msg_ts m) && negb (bset msgflg MSG_NOERROR)); [done|].
    destruct Hcase as (d' & hdrs' & -> & Hun).
    destruct (rcv_deliver_spec s fs fh Q sg q d Hc Hq Hd Hok pre x post m HQ Hm d' hdrs' Hun pid now msgsz Hsz)
      as (v & s' & Hdel & Hr & (fs' & fh' & Hc') & Hq' & He & Hkeep).
    do 2 eexists. exists v, s'. split; [done|]. split; [done|]. split; [done|]. split; [|done].
    exists fs', fh', (qset Q q (pre ++ post)), sg. split; [done|]. split; [done|]. split.
    + intros k. unfold qset at 1. case_decide as Hk.
      * subst k. rewrite qset_eq, fmap_app. rewrite <- !fmap_app. apply list_fmap_ext.
        intros i h Hh%list_elem_of_lookup_2. symmetry. apply Hkeep. exists q. by rewrite qset_eq.
      * rewrite qset_ne, HA by done. apply list_fmap_ext.
        intros i h Hh%list_elem_of_lookup_2. symmetry. apply Hkeep. exists k. by rewrite qset_ne.
    + intros k. unfold qset. case_decide as Hk; [|done]. specialize (Hty q). rewrite HA, HQ in Hty.
      rewrite fmap_app in Hty. csimpl in Hty. apply Forall_app in Hty as [H1 H2].
      apply Forall_cons in H2 as [_ H2]. by apply Forall_app.
Qed.

Lemma msgrcv_ok pid now cred s A msqid q d msgsz msgtyp msgflg :
  mrep s A -> msqid_check msqid s = Ret (Some (q, d)) s -> 0 <= msgsz ->
  rcv_spec A q msgsz msgtyp msgflg s (msgrcv pid now cred [] msqid msgsz msgtyp msgflg s).
Proof.
  intros Hrep Hchk Hsz. unfold msgrcv, ix_msgrcv. rewrite Hchk. cbn [obind]. change (ipcperm _ _ _) with 0.
  cbn [Z.eqb negb]. apply msqid_check_inv in Hchk as (Hd & Hqb & _).
  pose proof (rcv_round pid now s A q d msgsz msgtyp msgflg Hrep Hd Hqb Hsz) as H. unfold rcv_spec. cbn [rcv_wait].
  destruct (pick _ _) as [[m rest]|].
  - destruct (_ && _); [by rewrite H|]. destruct H as (h & s1 & v & s' & -> & H). cbn [obind]. by exists v, s'.
  - rewrite H. cbn [obind]. by destruct (bset msgflg IPC_NOWAIT).
Qed.

(** ** Removal *)

Lemma rmid_msgs_spec sg q l : forall fuel s fs fh U h d,
  core s fs fh U sg -> chain (hnext (msghdrs s)) h l -> NoDup l -> (forall k, k ∈ l -> U k) ->
  (length l <= fuel)%nat -> (length l <= hdr_fuel)%nat -> aget (msqids s) q = Some d ->
  msg_cbytes d = ts_sum (msghdrs s) l -> msg_cbytes d <= MSGMNB ->
  msg_qnum d = Z.of_nat (length l) ->
  exists s' fs' fh' d', rmid_msgs fuel q h s = Ret tt s' /\
    core s' fs' fh' (fun k => U k /\ k ∉ l) sg /\ msqids s' = aput (msqids s) q d' /\
    msg_cbytes d' = 0 /\ msg_qnum d' = 0 /\ msgpool s' = msgpool s /\
    msg_errno s' = msg_errno s /\
    (forall k, k ∉ l -> aget (msghdrs s') k = aget (msghdrs s) k).
Proof.
  induction l as [|x l IH]; intros fuel s fs fh U h d Hc Hch Hnd HU Hf Hmax Hd Hcb Hmx Hqn.
  - inversion Hch; subst. exists s, fs, fh, d. split; [by destruct fuel|].
    split; [eapply core_ext; [done|naive_solver]|]. rewrite aput_same by done. done.
  - apply chain_cons_inv in Hch as (-> & Hx0 & nx & Hnx & Hch).
    destruct fuel as [|fuel]; simpl in Hf, Hmax; [lia|]. cbn [rmid_msgs].
    rewrite (proj2 (Z.eqb_neq x NIL)) by (unfold NIL; lia).
    assert (HUx : U x) by (apply HU; set_solver).
    destruct (c_used _ _ _ _ _ Hc x HUx) as (m & Hm & [_ _ _ Hts]). rewrite Hm, Hd.
    unfold hnext in Hnx. rewrite Hm in Hnx. injection Hnx as Hnx.
    set (d1 := ds_set_counts _ _ _). set (s1 := put_q s q d1).
    assert (Hc1 : core s1 fs fh U sg) by (by eapply core_same).
    destruct (core_free s1 fs fh U sg x Hc1 HUx) as (s2 & -> & Hc2 & Hfr & Hmq). cbn [obind].
    apply NoDup_cons in Hnd as [Hni Hnd]. rewrite Hnx.
    assert (Hsum : ts_sum (msghdrs s2) l = ts_sum (msghdrs s) l).
    { apply ts_sum_ext. intros k Hk. unfold hdr_ts. rewrite (hf_hdrs _ _ _ Hfr); [done|]. by intros ->. }
    assert (Hge : 0 <= ts_sum (msghdrs s) l) by (eapply ts_sum_nonneg; [done|]; set_solver).
    simpl in Hcb. unfold hdr_ts in Hcb. rewrite Hm in Hcb. simpl in Hcb.
    change hdr_fuel with 40%nat in *. unfold MSGMNB in *.
    destruct (IH fuel s2 (rev (sg x) ++ fs) (x :: fh) (fun k => U k /\ k <> x) nx d1)
      as (s' & fs' & fh' & d' & -> & Hc' & Hq' & Hz1 & Hz2 & Hp & He & Hk); try done; try lia.
    + eapply chain_ext; [done|]. intros k Hk. unfold hnext. rewrite (hf_hdrs _ _ _ Hfr); [done|].
      by intros ->.
    + intros k Hk. split; [apply HU; set_solver|by intros ->].
    + rewrite Hmq. by eapply aget_aput_eq.
    + simpl. rewrite Hsum, u32_id by (wrap_unfold; lia). lia.
    + simpl. rewrite u32_id by (wrap_unfold; lia). lia.
    + simpl. rewrite Hqn. simpl length. rewrite u32_id by (wrap_unfold; lia). lia.
    + exists s', fs', fh', d'. split; [done|]. split; [eapply core_ext; [done|]; set_solver|].
      rewrite Hq', Hmq. unfold s1. simpl. rewrite aput_aput. do 3 (split; [done|]).
      rewrite Hp, He, (hf_pool _ _ _ Hfr), (hf_errno _ _ _ Hfr). do 2 (split; [done|]).
      intros k Hkn. rewrite Hk by set_solver. apply (hf_hdrs _ _ _ Hfr). set_solver.
Qed.

(** IPC_RMID releases every message of the queue and frees the descriptor. *)
Lemma msg_rmid_spec s A q d :
  mrep s A -> aget (msqids s) q = Some d -> msg_qbytes d <> 0 ->
  exists s', msg_rmid q s = Ret tt s' /\ mrep s' (qset A q []) /\ msg_errno s' = msg_errno s /\
    (exists d', aget (msqids s') q = Some d' /\ msg_qbytes d' = 0) /\
    head (msg_woken s') = Some q.
Proof.
  intros (fs & fh & Q & sg & Hc & Hq & HA & Hty) Hd Hqb. unfold msg_rmid. rewrite Hd.
  destruct (qi_q _ _ Hq q d Hd) as [[? _]|[[Hch _] Hcb Hqn _ Hmx]]; [done|].
  destruct (rmid_msgs_spec sg q (Q q) hdr_fuel s fs fh (queued Q) (msg_first d) d)
    as (s' & fs' & fh' & d' & -> & Hc' & Hq' & Hz1 & Hz2 & Hp & He & Hk); try done.
  { apply Hq. } { intros k ?. by exists q. } { by eapply queue_length. } { by eapply queue_length. }
  cbn [obind]. assert (Hd' : aget (msqids s') q = Some d') by (rewrite Hq'; by eapply aget_aput_eq).
  rewrite Hd', Hz1, Hz2. cbn [Z.eqb negb]. eexists. split; [done|].
  assert (Hsub : forall k, queued (qset Q q []) k -> queued Q k /\ k ∉ Q q).
  { intros k [q' Hk']. unfold qset in Hk'. case_decide as E; [by apply elem_of_nil in Hk'|].
    split; [by exists q'|]. intros Hkq. apply E. by eapply (qi_disj _ _ Hq). }
  split; [|split; [done|split; [|done]]].
  - exists fs', fh', (qset Q q []), sg. split; [|split; [|split]].
    + eapply core_ext; [eapply core_same; [exact Hc'|done..]|]. done.
    + eapply (qinv_update s _ Q q d (ds_set_qbytes d' 0)); [done|done| | |by left|constructor|].
      * simpl. rewrite Hq'. by rewrite aput_aput.
      * intros k h Hkq Hh. simpl. apply Hk. intros ?. apply Hkq. by eapply (qi_disj _ _ Hq).
      * intros h k Hh. by apply elem_of_nil in Hh.
    + intros k. unfold qset. case_decide as E; [done|]. rewrite HA. apply list_fmap_ext.
      intros i h Hh%list_elem_of_lookup_2. symmetry. apply msg_of_ext; [|done|].
      * simpl. apply Hk. apply Hsub. exists k. by rewrite qset_ne.
      * intros x _. simpl. by rewrite Hp.
    + intros k. unfold qset. case_decide; [constructor|done].
  - simpl. exists (ds_set_qbytes d' 0). split; [by eapply aget_aput_eq|done].
Qed.
