(* ===== verification/SysvMsgTheorems.v ===== *)
(** * System V message queues: the theorems

    The properties of library/sysv_msg.c over the abstract state of one list of
    messages per queue, and what the system calls do from the state that
    [msginit] leaves. *)

From S2P Require Import Prelude Ipc SysvMsg SysvMsgCopy SysvMsgInv SysvMsgQueue SysvMsgRecv.

(** ** The initial state *)

Definition mperm0 : ipc_perm := mkPerm 0 0 0 0 0 0 0.
Definition msqid0 : msqid_ds := mkMsqid mperm0 NIL NIL 0 0 0 0 0 0 0 0.
Definition msg_static : msgstate :=
  mkMsgState 0 0 NIL (replicate (Z.to_nat MSGMAX) 0) (replicate (Z.to_nat MSGSEG) 0)
    (replicate (Z.to_nat MSGTQL) (mkMsg NIL 0 0 0)) (replicate (Z.to_nat MSGMNI) msqid0) 0 [].

Definition ret_state {S A} (o : outcome S A) (dflt : S) : S :=
  match o with Ret _ s => s | _ => dflt end.

Definition msg_boot : msgstate := ret_state (msginit msg_static) msg_static.

Lemma linked_length n : length (linked n) = Z.to_nat n.
Proof. unfold linked. by rewrite length_map, length_seq. Qed.

Lemma linked_get n i :
  0 <= i < n -> aget (linked n) i = Some (if i + 1 <? n then i + 1 else NIL).
Proof.
  intros Hi. unfold aget, linked. rewrite (proj2 (Z.leb_le _ _)) by lia.
  rewrite list_lookup_fmap, lookup_seq_lt by lia. simpl. f_equal.
  replace (Z.of_nat (Z.to_nat i)) with i by lia. done.
Qed.

Lemma linked_chain n nxt (k : nat) : forall i,
  (forall j, 0 <= j < n -> nxt j = Some (if j + 1 <? n then j + 1 else NIL)) ->
  0 <= i -> i + Z.of_nat k = n -> (0 < k)%nat ->
  chain nxt i ((fun j => i + Z.of_nat j) <$> List.seq 0 k).
Proof.
  induction k as [|k IH]; intros i Hn Hi Hk Hpos; [lia|].
  cbn [List.seq]. csimpl. rewrite Z.add_0_r. econstructor; [done|apply Hn; lia|].
  destruct k as [|k].
  - rewrite (proj2 (Z.ltb_ge _ _)) by lia. constructor.
  - rewrite (proj2 (Z.ltb_lt _ _)) by lia. rewrite <- (seq_shift (S k) 0).
    rewrite <- list_fmap_compose.
    replace ((fun j => i + Z.of_nat j) ∘ S <$> List.seq 0 (S k)) with
      ((fun j => i + 1 + Z.of_nat j) <$> List.seq 0 (S k)).
    + apply IH; [done|lia|lia|lia].
    + apply list_fmap_ext. intros ? x _. unfold compose. lia.
Qed.

Lemma mrep_boot : mrep msg_boot (fun _ => []).
Proof.
  assert (Hnd : forall (i : Z) k, NoDup ((fun j => i + Z.of_nat j) <$> List.seq 0 k)).
  { intros i k. apply NoDup_fmap_2_strong; [intros; lia|apply NoDup_seq]. }
  exists ((fun j => 0 + Z.of_nat j) <$> List.seq 0 2048), ((fun j => 0 + Z.of_nat j) <$> List.seq 0 40),
    (fun _ => []), (fun _ => []).
  assert (Hno : forall h, ~ queued (fun _ => []) h) by (intros h [q Hq]; by apply elem_of_nil in Hq).
  split; [|split; [|split; [done|intros; constructor]]].
  - split; try (intros h; intros; exfalso; by eapply Hno).
    + vm_compute. reflexivity.
    + vm_compute. reflexivity.
    + vm_compute. reflexivity.
    + apply (linked_chain 2048); [|done|done|lia]. intros j Hj. by apply linked_get.
    + apply Hnd.
    + by rewrite length_fmap, length_seq.
    + apply (linked_chain 40); [|done|done|lia]. intros j Hj. unfold hnext.
      change (msghdrs msg_boot) with
        (zip_with (fun m n => mkMsg n 0 (msg_ts m) (msg_spot m)) (replicate 40 (mkMsg NIL 0 0 0)) (linked 40)).
      pose proof (linked_get 40 j Hj) as Hl. unfold aget in *.
      rewrite (proj2 (Z.leb_le _ _)) in * by lia.
      rewrite lookup_zip_with, Hl, lookup_replicate_2 by lia. done.
    + apply Hnd.
  - split; try done.
    + intros q d Hd. left. split; [|done].
      assert (Hf : Forall (fun d => msg_qbytes d = 0) (msqids msg_boot)).
      { apply Forall_fmap, Forall_replicate. done. }
      by eapply Forall_aget in Hf.
    + intros. constructor.
    + intros ? ? h Hh. by apply elem_of_nil in Hh.
Qed.

(** ** The calls preserve the abstract state *)

Lemma mrep_touch s s' A q d d' :
  mrep s A -> aget (msqids s) q = Some d -> msqids s' = aput (msqids s) q d' ->
  msg_first d' = msg_first d -> msg_last d' = msg_last d -> msg_cbytes d' = msg_cbytes d ->
  msg_qnum d' = msg_qnum d ->
  (msg_qbytes d' = msg_qbytes d \/ (msg_qbytes d <> 0 /\ 0 < msg_qbytes d' <= MSGMNB)) ->
  nfree_msgmaps s' = nfree_msgmaps s -> free_msgmaps s' = free_msgmaps s ->
  free_msghdrs s' = free_msghdrs s -> msgpool s' = msgpool s -> msgmaps s' = msgmaps s ->
  msghdrs s' = msghdrs s -> mrep s' A.
Proof.
  intros (fs & fh & Q & sg & Hc & Hq & HA & Hty) Hd Hs' E1 E2 E3 E4 E5 F1 F2 F3 F4 F5 F6.
  exists fs, fh, Q, sg. split; [eapply core_same; [done..|by rewrite F4|done|done]|].
  split; [|split; [by rewrite F4, F6|done]].
  destruct Hq as [Hlen Hqq Hout Hnds Hdj]. split; try done; try (by rewrite Hs', aput_length).
  - intros k e. rewrite Hs', (aget_aput _ _ _ _ d Hd), F6. destruct (Z.eqb_spec q k) as [<-|Hne].
    + intros [= <-]. destruct (Hqq q d Hd) as [[? ?]|[Hlk ? ? ? ?]].
      * left. split; [|done]. destruct E5 as [->|[? _]]; done.
      * right. split; rewrite ?E3, ?E4; try done.
        -- by eapply queue_links_ext.
        -- destruct E5 as [->|[_ ?]]; done.
    + apply Hqq.
  - intros k. rewrite Hs', (aget_aput _ _ _ _ d Hd). destruct (Z.eqb_spec q k); [done|]. auto.
Qed.

Lemma mrep_same s s' A :
  mrep s A -> nfree_msgmaps s' = nfree_msgmaps s -> free_msgmaps s' = free_msgmaps s ->
  free_msghdrs s' = free_msghdrs s -> msgpool s' = msgpool s -> msgmaps s' = msgmaps s ->
  msghdrs s' = msghdrs s -> msqids s' = msqids s -> mrep s' A.
Proof.
  intros (fs & fh & Q & sg & Hc & [] & HA & Hty) F1 F2 F3 F4 F5 F6 F7.
  exists fs, fh, Q, sg. split; [eapply core_same; [done..|by rewrite F4|done|done]|].
  split; [|split; [by rewrite F4, F6|done]]. split; rewrite ?F7, ?F6; done.
Qed.

(** [need_more_resources] is the negation of [can_send]. *)
Lemma snd_blocked_false s d msgsz : snd_blocked d msgsz s = false <-> can_send s d msgsz.
Proof.
  unfold snd_blocked. rewrite !orb_false_iff, !Z.ltb_ge, Z.eqb_neq.
  split; [intros (((? & ?) & ?) & ?); by split|intros []; done].
Qed.

(** What [msgsnd] does, on every branch. *)
Definition snd_spec (A : Z -> list message) (q : Z) (d : msqid_ds) (mtype : Z) (body : list Z)
  (msgsz msgflg : Z) (s : msgstate) (r : outcome msgstate Z) : Prop :=
  if msg_qbytes d <? msgsz then r = Ret (-1) (set_merrno s EINVAL)
  else if snd_blocked d msgsz s then
    if bset msgflg IPC_NOWAIT then r = Ret (-1) (set_merrno s EAGAIN)
    else exists s', r = Asleep s' /\ mrep s' A
  else if mtype <? 1 then exists s', r = Ret (-1) s' /\ mrep s' A /\ msg_errno s' = EINVAL
  else exists s', r = Ret 0 s' /\
         mrep s' (qset A q (A q ++ [(mtype, take (Z.to_nat msgsz) body)])) /\
         msg_errno s' = msg_errno s.

Lemma msgsnd_ok pid now cred s A msqid q d mtype body msgsz msgflg :
  mrep s A -> msqid_check msqid s = Ret (Some (q, d)) s -> 0 <= msgsz ->
  msgsz <= Z.of_nat (length body) ->
  snd_spec A q d mtype body msgsz msgflg s
    (msgsnd pid now cred [] msqid mtype body msgsz msgflg s).
Proof.
  intros Hrep Hchk Hsz Hbody. unfold msgsnd, ix_msgsnd. rewrite Hchk. cbn [obind].
  change (ipcperm _ _ _) with 0. cbn [Z.eqb negb]. apply msqid_check_inv in Hchk as (Hd & Hqb & _).
  unfold snd_spec. cbn [snd_wait]. rewrite Hd.
  destruct (Z.ltb_spec (msg_qbytes d) msgsz) as [|Hle]; [done|].
  destruct (snd_blocked d msgsz s) eqn:Hbl.
  - destruct (bset msgflg IPC_NOWAIT); [done|]. cbn [obind]. eexists. split; [done|].
    destruct (negb (locked d)); [|done].
    eapply (mrep_touch s _ A q d (lock d)); try done. by left.
  - apply snd_blocked_false in Hbl. cbn [obind]. destruct (Z.ltb_spec mtype 1).
    + by eapply snd_deliver_badtype.
    + destruct (snd_deliver_ok pid now s A q d msgsz mtype body) as (s' & -> & Hr & He & _); try done.
      by exists s'.
Qed.

(** *** The calls with sleeps *)

(** What other processes do keeps the queues those of some lists of messages. *)
Definition env_ok (w : schedule) : Prop :=
  Forall (fun x => forall s A, mrep s A -> exists A', mrep (x.2 s) A') w.

(** [msgsnd] on the queue [q] for any schedule: in each turn it fails, delivers the
    message or sleeps; it looks at the queue again in the state it finds afterwards. *)
Fixpoint snd_run (w : schedule) (q mtype : Z) (body : list Z) (msgsz msgflg : Z) (s : msgstate)
  (r : outcome msgstate Z) : Prop :=
  exists d, aget (msqids s) q = Some d /\
  if msg_qbytes d <? msgsz then r = Ret (-1) (set_merrno s EINVAL)
  else if snd_blocked d msgsz s then
    if bset msgflg IPC_NOWAIT then r = Ret (-1) (set_merrno s EAGAIN)
    else
      let s1 := if locked d then s else put_q s q (lock d) in
      (forall A, mrep s A -> mrep s1 A) /\
      match w with
      | [] => r = Asleep s1
      | (eval, env) :: w =>
          exists d2, aget (msqids (env s1)) q = Some d2 /\
          let s2 := put_q (env s1) q (if locked d then d2 else unlock d2) in
          (forall A, mrep (env s1) A -> mrep s2 A) /\
          if negb (eval =? 0) then r = Ret (-1) (set_merrno s2 EINTR)
          else if msg_qbytes d2 =? 0 then r = Ret (-1) (set_merrno s2 EINVAL)
          else snd_run w q mtype body msgsz msgflg s2 r
      end
  else if mtype <? 1 then exists s', r = Ret (-1) s' /\ (forall A, mrep s A -> mrep s' A) /\ msg_errno s' = EINVAL
  else exists s', r = Ret 0 s' /\ msg_errno s' = msg_errno s /\
         forall A, mrep s A -> mrep s' (qset A q (A q ++ [(mtype, take (Z.to_nat msgsz) body)])).

Lemma mrep_lock s A q d (b : bool) :
  mrep s A -> aget (msqids s) q = Some d -> mrep (put_q s q (if b then d else lock d)) A.
Proof. intros H Hd. eapply (mrep_touch s _ A q d); try done; destruct b; try done; by left. Qed.

Lemma mrep_unlock s A q d (b : bool) :
  mrep s A -> aget (msqids s) q = Some d -> mrep (put_q s q (if b then d else unlock d)) A.
Proof. intros H Hd. eapply (mrep_touch s _ A q d); try done; destruct b; try done; by left. Qed.

Lemma mrep_queues s A q : mrep s A -> 0 <= q < MSGMNI -> is_Some (aget (msqids s) q).
Proof.
  intros (fs & fh & Q & sg & _ & Hq & _) H. apply aget_is_Some. pose proof (qi_len _ _ Hq) as Hl. unfold MSGMNI in *. lia.
Qed.

(** A turn that finds room. *)
Lemma snd_now pid now s A q d mtype body msgsz :
  mrep s A -> aget (msqids s) q = Some d -> msg_qbytes d <> 0 -> can_send s d msgsz ->
  0 <= msgsz <= msg_qbytes d -> msgsz <= Z.of_nat (length body) ->
  if mtype <? 1 then exists s', snd_deliver pid now q msgsz mtype body s = Ret (-1) s' /\
    (forall A, mrep s A -> mrep s' A) /\ msg_errno s' = EINVAL
  else exists s', snd_deliver pid now q msgsz mtype body s = Ret 0 s' /\ msg_errno s' = msg_errno s /\
         forall A, mrep s A -> mrep s' (qset A q (A q ++ [(mtype, take (Z.to_nat msgsz) body)])).
Proof.
  intros Hrep Hd Hqb Hcs Hsz Hbody. destruct (Z.ltb_spec mtype 1).
  - destruct (snd_deliver_badtype pid now s A q d msgsz mtype body) as (s' & Hr & _ & He); try done.
    exists s'. split; [done|]. split; [|done]. intros A0 HA0.
    destruct (snd_deliver_badtype pid now s A0 q d msgsz mtype body) as (s0 & Hr0 & Hm & _); try done.
    rewrite Hr in Hr0. by injection Hr0 as <-.
  - destruct (snd_deliver_ok pid now s A q d msgsz mtype body) as (s' & Hr & _ & He & _); try done.
    exists s'. split; [done|]. split; [done|]. intros A0 HA0.
    destruct (snd_deliver_ok pid now s A0 q d msgsz mtype body) as (s0 & Hr0 & Hm & _); try done.
    rewrite Hr in Hr0. by injection Hr0 as <-.
Qed.

Lemma snd_run_ok pid now q mtype body msgsz msgflg :
  0 <= q < MSGMNI -> 0 <= msgsz -> msgsz <= Z.of_nat (length body) ->
  forall w s A, env_ok w -> mrep s A -> (forall d, aget (msqids s) q = Some d -> msg_qbytes d <> 0) ->
  snd_run w q mtype body msgsz msgflg s
    (let* (r, s) := snd_wait w q msgsz msgflg s in
     match r with
     | Some e => fail e (-1) s
     | None => snd_deliver pid now q msgsz mtype body s
     end).
Proof.
  intros Hq Hsz Hbody. induction w as [|[eval env] w IH]; intros s A Hw Hrep Hqb;
    destruct (mrep_queues s A q Hrep Hq) as [d Hd]; cbn [snd_wait]; rewrite Hd; exists d; (split; [done|]); specialize (Hqb d Hd);
    (destruct (Z.ltb_spec (msg_qbytes d) msgsz) as [|Hle]; [done|]);
    (destruct (snd_blocked d msgsz s) eqn:Hbl;
     [destruct (bset msgflg IPC_NOWAIT); [done|]; cbv zeta;
      replace (if negb (locked d) then put_q s q (lock d) else s) with (if locked d then s else put_q s q (lock d)) by (by destruct (locked d));
      (split; [intros A0 HA0; destruct (locked d); [done|by apply (mrep_lock s A0 q d false)]|])
     |apply snd_blocked_false in Hbl; cbn [obind]; by apply (snd_now pid now s A q d)]); [done|].
  set (s1 := if locked d then s else put_q s q (lock d)).
  apply Forall_cons in Hw as [Henv Hw]. cbn [snd] in Henv.
  assert (mrep s1 A) as Hs1 by (unfold s1; destruct (locked d); [done|by apply (mrep_lock s A q d false)]).
  destruct (Henv s1 A Hs1) as [A2 Hs2]. destruct (mrep_queues _ _ q Hs2 Hq) as [d2 Hd2]. rewrite Hd2.
  exists d2. split; [done|].
  replace (if negb (locked d) then unlock d2 else d2) with (if locked d then d2 else unlock d2) by (by destruct (locked d)).
  split; [intros A0 HA0; by apply (mrep_unlock _ _ _ _ (locked d))|].
  destruct (negb (eval =? 0)); [done|].
  assert (msg_qbytes (if locked d then d2 else unlock d2) = msg_qbytes d2) as -> by (by destruct (locked d)).
  destruct (Z.eqb_spec (msg_qbytes d2) 0); [done|]. apply (IH _ A2); [done|by apply mrep_unlock|].
  intros d3. simpl. rewrite (aget_aput_eq _ _ _ _ Hd2). intros [= <-]. by destruct (locked d).
Qed.

(** The test of the identifier. *)
Lemma msqid_check_cases msqid s A :
  mrep s A -> msqid_check msqid s = Ret None s \/
    exists q d, msqid_check msqid s = Ret (Some (q, d)) s /\ 0 <= q < MSGMNI.
Proof.
  intros Hrep. unfold msqid_check. set (i := IPCID_TO_IX msqid). destruct (_ || _) eqn:Hr; [by left|].
  apply orb_false_iff in Hr as [Hr1%Z.ltb_ge Hr2%Z.leb_gt]. destruct (mrep_queues s A i Hrep) as [d ->]; [lia|].
  destruct (_ =? 0); [by left|]. destruct (negb _); [by left|]. right. exists i, d. split; [done|lia].
Qed.

(** C3. [msgsnd], for every identifier and every schedule of what other processes do
    while it sleeps: an identifier that is not valid is EINVAL.  On a valid queue it
    appends the message (type and the first [msgsz] bytes of the text) behind the
    messages of that queue and changes no other queue, when there is room; it fails
    with EINVAL for a message larger than the queue or a type below 1, and with
    EAGAIN, or sleeps, when the queue is locked or full or no header or segments are
    free, keeping every queue.  After the sleep it fails with EINTR when a signal has
    come, or with EINVAL when the queue has been removed, or starts again in the state
    it finds; in between it has changed no queue.  No panic of the code is reached and
    no access leaves the arrays; the text has at least [msgsz] bytes. *)
Theorem msgsnd_appends (pid now : Z) (cred : ucred) (w : schedule) (s : msgstate) (A : Z -> list message)
  (msqid mtype : Z) (body : list Z) (msgsz msgflg : Z) :
  mrep s A -> env_ok w -> 0 <= msgsz -> msgsz <= Z.of_nat (length body) ->
  match msqid_check msqid s with
  | Ret (Some (q, _)) _ => snd_run w q mtype body msgsz msgflg s (msgsnd pid now cred w msqid mtype body msgsz msgflg s)
  | Ret None _ => msgsnd pid now cred w msqid mtype body msgsz msgflg s = Ret (-1) (set_merrno s EINVAL)
  | _ => False
  end.
Proof.
  intros Hrep Hw Hsz Hbody. unfold msgsnd, ix_msgsnd.
  destruct (msqid_check_cases msqid s A Hrep) as [->|(q & d & Hchk & Hq)]; [done|]. rewrite Hchk. cbn [obind].
  change (ipcperm _ _ _) with 0. cbn [Z.eqb negb]. apply msqid_check_inv in Hchk as (Hd & Hqb & _).
  apply (snd_run_ok pid now q mtype body msgsz msgflg Hq Hsz Hbody w s A Hw Hrep). intros d'. rewrite Hd. by intros [= <-].
Qed.

(** A booted facility whose queue 0 was created (with sequence number 0). *)
Definition q0 : msqid_ds := mkMsqid mperm0 NIL NIL 0 0 MSGMNB 0 0 0 0 0.
Definition msg_one : msgstate := put_q msg_boot 0 q0.

Lemma mrep_create s A q d d' :
  mrep s A -> aget (msqids s) q = Some d -> msg_qbytes d = 0 ->
  msg_first d' = NIL -> msg_last d' = NIL -> msg_cbytes d' = 0 -> msg_qnum d' = 0 ->
  msg_qbytes d' = MSGMNB -> mrep (put_q s q d') A.
Proof.
  intros (fs & fh & Q & sg & Hc & Hq & HA & Hty) Hd Hz E1 E2 E3 E4 E5.
  assert (HQ : Q q = []).
  { destruct (qi_q _ _ Hq q d Hd) as [[_ ?]|[_ _ _ Hqb _]]; [done|lia]. }
  exists fs, fh, Q, sg. split; [by eapply core_same|]. split; [|done].
  destruct Hq as [Hlen Hqq Hout Hnds Hdj]. split; try done; simpl; try (by rewrite aput_length).
  - intros k e. rewrite (aget_aput _ _ _ _ d Hd). destruct (Z.eqb_spec q k) as [<-|Hne]; [|apply Hqq].
    intros [= <-]. right. rewrite HQ. split; rewrite ?E1, ?E2, ?E3, ?E4, ?E5; try done.
    split; [rewrite E1; constructor|done].
  - intros k. rewrite (aget_aput _ _ _ _ d Hd). destruct (Z.eqb_spec q k); [done|]. auto.
Qed.

Lemma mrep_one : mrep msg_one (fun _ => []).
Proof. eapply mrep_create; [apply mrep_boot|vm_compute; reflexivity|done..]. Qed.

(** Another process has locked the queue; it unlocks it while the call sleeps. *)
Definition locked_one : msgstate := put_q msg_one 0 (lock q0).
Definition unlocking (s : msgstate) : msgstate :=
  match aget (msqids s) 0 with Some d => put_q s 0 (unlock d) | None => s end.

Lemma unlocking_ok : env_ok [(0, unlocking)].
Proof.
  apply Forall_cons. split; [|done]. intros s A H. exists A. unfold unlocking. cbn [snd].
  destruct (aget (msqids s) 0) eqn:Hd; [|done]. by apply (mrep_unlock s A 0 _ false).
Qed.

Lemma msgsnd_appends_witness :
  snd_run [(0, unlocking)] 0 7 [65; 66; 67] 3 0 locked_one
    (msgsnd 1 0 (mkCred 0 0) [(0, unlocking)] 0 7 [65; 66; 67] 3 0 locked_one).
Proof.
  apply (msgsnd_appends 1 0 (mkCred 0 0) [(0, unlocking)] locked_one (fun _ => []) 0 7 [65; 66; 67] 3 0).
  - apply (mrep_lock msg_one _ 0 q0 false); [apply mrep_one|reflexivity].
  - apply unlocking_ok.
  - lia.
  - simpl. lia.
Defined.

(** [msgrcv] on the queue [q] for any schedule. *)
Fixpoint rcv_run (w : schedule) (q msgsz msgtyp msgflg : Z) (s : msgstate) (r : outcome msgstate rcv_result) : Prop :=
  forall A, mrep s A ->
  match pick (wanted msgtyp) (A q) with
  | Some (m, rest) =>
      if (msgsz <? Z.of_nat (length (snd m))) && negb (bset msgflg MSG_NOERROR)
      then r = Ret (-1, None) (set_merrno s E2BIG)
      else exists v s', r = Ret v s' /\ received msgsz m v /\ mrep s' (qset A q rest) /\
             msg_errno s' = msg_errno s
  | None =>
      if bset msgflg IPC_NOWAIT then r = Ret (-1, None) (set_merrno s EAGAIN)
      else
        match w with
        | [] => r = Asleep s
        | (eval, env) :: w =>
            if negb (eval =? 0) then r = Ret (-1, None) (set_merrno (env s) EINTR)
            else
              exists d, aget (msqids (env s)) q = Some d /\
              if (msg_qbytes d =? 0) || negb (seq (msg_perm d) =? IPCID_TO_SEQ q)
              then r = Ret (-1, None) (set_merrno (env s) EINVAL)
              else rcv_run w q msgsz msgtyp msgflg (env s) r
        end
  end.

Lemma rcv_run_ok pid now q msgsz msgtyp msgflg :
  0 <= q < MSGMNI -> 0 <= msgsz ->
  forall w s d, env_ok w -> aget (msqids s) q = Some d -> msg_qbytes d <> 0 ->
  rcv_run w q msgsz msgtyp msgflg s
    (let* (r, s) := rcv_wait w q msgsz msgtyp msgflg s in
     match r with
     | inl e => fail e (-1, None) s
     | inr h => rcv_deliver pid now q h msgsz s
     end).
Proof.
  intros Hq Hsz. induction w as [|[eval env] w IH]; intros s d Hw Hd Hqb A Hrep;
    pose proof (rcv_round pid now s A q d msgsz msgtyp msgflg Hrep Hd Hqb Hsz) as H; cbn [rcv_wait];
    (destruct (pick _ _) as [[m rest]|];
     [destruct (_ && _); [by rewrite H|]; destruct H as (h & s1 & v & s' & -> & H); cbn [obind]; by exists v, s'|]);
    rewrite H; cbn [obind]; (destruct (bset msgflg IPC_NOWAIT); [done|]); [done|].
  destruct (negb (eval =? 0)); [done|]. apply Forall_cons in Hw as [Henv Hw]. destruct (Henv s A Hrep) as [A' Hrep'].
  cbn [snd] in Hrep'. destruct (mrep_queues _ _ q Hrep' Hq) as [d' Hd']. rewrite Hd'. exists d'. split; [done|].
  destruct (Z.eqb_spec (msg_qbytes d') 0) as [|Hqb']; [done|]. cbn [orb]. destruct (negb _); [done|]. by apply (IH _ d').
Qed.

(** C4. [msgrcv], for every identifier and every schedule of what other processes do
    while it sleeps: an identifier that is not valid is EINVAL.  On a valid queue it
    takes out the oldest message that is wanted: any message for type 0, a message of
    that type for a positive type, one whose type does not exceed the absolute value
    for a negative type (the oldest, not one of the lowest type); every other message
    stays in order.  The text is cut to the buffer with MSG_NOERROR and the call fails
    with E2BIG, keeping the message, without it; with no wanted message it fails with
    EAGAIN or sleeps.  After the sleep it fails with EINTR or, when the queue is gone,
    with EINVAL, or looks again.  The bytes stored start with the text; for more than
    one segment the number of bytes stored is rounded up to whole segments. *)
Theorem msgrcv_takes_first_wanted (pid now : Z) (cred : ucred) (w : schedule) (s : msgstate)
  (A : Z -> list message) (msqid msgsz msgtyp msgflg : Z) :
  mrep s A -> env_ok w -> 0 <= msgsz ->
  match msqid_check msqid s with
  | Ret (Some (q, _)) _ => rcv_run w q msgsz msgtyp msgflg s (msgrcv pid now cred w msqid msgsz msgtyp msgflg s)
  | Ret None _ => msgrcv pid now cred w msqid msgsz msgtyp msgflg s = Ret (-1, None) (set_merrno s EINVAL)
  | _ => False
  end.
Proof.
  intros Hrep Hw Hsz. unfold msgrcv, ix_msgrcv.
  destruct (msqid_check_cases msqid s A Hrep) as [->|(q & d & Hchk & Hq)]; [done|]. rewrite Hchk. cbn [obind].
  change (ipcperm _ _ _) with 0. cbn [Z.eqb negb]. apply msqid_check_inv in Hchk as (Hd & Hqb & _).
  by apply (rcv_run_ok pid now q msgsz msgtyp msgflg Hq Hsz w s d).
Qed.

(** Another process interrupts the sleep without a message. *)
Lemma msgrcv_takes_first_wanted_witness :
  rcv_run [(0, fun s => s); (4, fun s => s)] 0 10 0 0 msg_one
    (msgrcv 1 0 (mkCred 0 0) [(0, fun s => s); (4, fun s => s)] 0 10 0 0 msg_one).
Proof.
  apply (msgrcv_takes_first_wanted 1 0 (mkCred 0 0) [(0, fun s => s); (4, fun s => s)] msg_one (fun _ => []) 0 10 0 0).
  - apply mrep_one.
  - repeat (apply Forall_cons; split; [intros s A H; by exists A|]). done.
  - lia.
Defined.

Lemma msqid_check_transfer msqid s s' q d d' :
  msqid_check msqid s = Ret (Some (q, d)) s -> aget (msqids s') q = Some d' ->
  msg_qbytes d' = msg_qbytes d -> seq (msg_perm d') = seq (msg_perm d) ->
  msqid_check msqid s' = Ret (Some (q, d')) s'.
Proof.
  unfold msqid_check. set (i := IPCID_TO_IX msqid). destruct (_ || _); [done|].
  destruct (aget (msqids s) i) as [e|]; [|done]. destruct (msg_qbytes e =? 0) eqn:Hqb; [done|].
  destruct (negb (seq (msg_perm e) =? IPCID_TO_SEQ i)) eqn:Hs; [done|].
  intros H Hd' E1 E2. apply Ret_inj in H as [H _]. injection H as <- <-.
  by rewrite Hd', E1, Hqb, E2, Hs.
Qed.

(** Round trip: a message sent to a queue with no other message of its
    type comes back from [msgrcv] for that type with the same type and text,
    and every queue is then as it was before the message was sent. *)
Theorem msgsnd_msgrcv_roundtrip (pid now : Z) (cred : ucred) (s : msgstate)
  (A : Z -> list message) (msqid q : Z) (d : msqid_ds) (mtype : Z) (body : list Z)
  (msgsz bufsz msgflg : Z) :
  mrep s A -> msqid_check msqid s = Ret (Some (q, d)) s -> can_send s d msgsz ->
  0 <= msgsz <= msg_qbytes d -> msgsz <= Z.of_nat (length body) -> msgsz <= bufsz ->
  1 <= mtype < 2 ^ 31 -> Forall (fun m => wanted mtype m = false) (A q) ->
  exists s1 s2 bytes,
    msgsnd pid now cred [] msqid mtype body msgsz msgflg s = Ret 0 s1 /\
    msgrcv pid now cred [] msqid bufsz mtype msgflg s1 = Ret (msgsz, Some (mtype, bytes)) s2 /\
    take (Z.to_nat msgsz) bytes = take (Z.to_nat msgsz) body /\
    exists A', mrep s2 A' /\ forall k, A' k = A k.
Proof.
  intros Hrep Hchk Hcs Hsz Hbody Hbuf Hmt Hno.
  destruct (msqid_check_inv _ _ _ _ Hchk) as (Hd & Hqb & _).
  assert (Hsnd : msgsnd pid now cred [] msqid mtype body msgsz msgflg s =
                 snd_deliver pid now q msgsz mtype body s).
  { unfold msgsnd, ix_msgsnd. rewrite Hchk. cbn [obind]. change (ipcperm _ _ _) with 0.
    cbn [Z.eqb negb snd_wait]. rewrite Hd, (proj2 (Z.ltb_ge _ _)) by lia.
    by rewrite (proj2 (snd_blocked_false _ _ _) Hcs). }
  destruct (snd_deliver_ok pid now s A q d msgsz mtype body) as (s1 & Heq & Hr & _ & d' & Hd' & E1 & E2);
    try done; try lia.
  set (m := (mtype, take (Z.to_nat msgsz) body)) in *.
  pose proof (msgrcv_ok pid now cred s1 _ msqid q d' bufsz mtype msgflg Hr
                (msqid_check_transfer _ _ _ _ _ _ Hchk Hd' E1 E2) ltac:(lia)) as Hrcv.
  unfold rcv_spec in Hrcv. rewrite qset_eq, pick_split in Hrcv; [|done|].
  2: { unfold wanted, m. cbn [fst]. by rewrite Z.eqb_refl, orb_true_r. }
  assert (Hlen : Z.of_nat (length (snd m)) = msgsz) by (unfold m; simpl; rewrite length_take; lia).
  rewrite Hlen, (proj2 (Z.ltb_ge _ _)) in Hrcv by lia.
  destruct Hrcv as (v & s2 & Hv & (bytes & -> & Htxt & _) & Hr2 & _).
  rewrite Hlen, Z.min_r in Htxt, Hv by lia.
  exists s1, s2, bytes. split; [by rewrite Hsnd|]. split; [done|]. split.
  - rewrite Htxt. unfold m. cbn [snd]. rewrite take_take. by rewrite Nat.min_id.
  - eexists. split; [exact Hr2|]. intros k. rewrite app_nil_r. unfold qset. case_decide as E; [by rewrite E|done].
Qed.

Lemma msgsnd_msgrcv_roundtrip_witness :
  exists s1 s2 bytes,
    msgsnd 1 0 (mkCred 0 0) [] 0 7 [65; 66; 67] 3 0 msg_one = Ret 0 s1 /\
    msgrcv 1 0 (mkCred 0 0) [] 0 10 7 0 s1 = Ret (3, Some (7, bytes)) s2 /\
    take (Z.to_nat 3) bytes = take (Z.to_nat 3) [65; 66; 67] /\
    exists A', mrep s2 A' /\ forall k, A' k = [].
Proof.
  apply (msgsnd_msgrcv_roundtrip 1 0 (mkCred 0 0) msg_one (fun _ => []) 0 0 q0 7 [65; 66; 67] 3 10 0).
  - apply mrep_one.
  - vm_compute. reflexivity.
  - apply snd_blocked_false. vm_compute. reflexivity.
  - simpl. unfold MSGMNB. lia.
  - simpl. lia.
  - lia.
  - lia.
  - constructor.
Defined.

(** Removing a queue frees its headers and segments, wakes the waiters and
    leaves every other queue alone; the counters of the removed queue end at
    zero, so neither of the two panics about them is reached. *)
Theorem rmid_frees_messages (now : Z) (cred : ucred) (s : msgstate) (A : Z -> list message)
  (msqid q : Z) (d ubuf : msqid_ds) :
  mrep s A -> msqid_check msqid s = Ret (Some (q, d)) s ->
  exists s', msgctl now cred msqid IPC_RMID ubuf s = Ret (CtlNum 0 ubuf) s' /\
    mrep s' (qset A q []) /\ msg_errno s' = msg_errno s /\
    (exists d', aget (msqids s') q = Some d' /\ msg_qbytes d' = 0) /\
    head (msg_woken s') = Some q.
Proof.
  intros Hrep Hchk. unfold msgctl, ix_msgctl. change (IPC_RMID =? GETMSGINFO) with false.
  change (IPC_RMID =? GETMSQIDSA) with false. cbn iota. rewrite Hchk. cbn [obind].
  change (IPC_RMID =? IPC_RMID) with true. change (ipcperm _ _ _) with 0. cbn [Z.eqb negb].
  apply msqid_check_inv in Hchk as (Hd & Hqb & _).
  destruct (msg_rmid_spec s A q d Hrep Hd Hqb) as (s' & -> & H). cbn [obind fst snd].
  by exists s'.
Qed.

Definition msg_sent : msgstate :=
  ret_state (msgsnd 1 0 (mkCred 0 0) [] 0 7 [65; 66; 67] 3 0 msg_one) msg_one.

Lemma mrep_sent : mrep msg_sent (qset (fun _ => []) 0 [(7, [65; 66; 67])]).
Proof.
  pose proof (msgsnd_ok 1 0 (mkCred 0 0) msg_one (fun _ => []) 0 0 q0 7 [65; 66; 67] 3 0 mrep_one
                ltac:(vm_compute; reflexivity) ltac:(lia) ltac:(simpl; lia)) as H.
  unfold snd_spec in H. change (msg_qbytes q0 <? 3) with false in H. cbn iota in H.
  assert (Hb : snd_blocked q0 3 msg_one = false) by (vm_compute; reflexivity).
  rewrite Hb in H. cbn iota in H. change (7 <? 1) with false in H. cbn iota in H.
  destruct H as (s' & Heq & Hr & _). unfold msg_sent. rewrite Heq. exact Hr.
Qed.

Lemma rmid_frees_messages_witness :
  exists s', msgctl 0 (mkCred 0 0) 0 IPC_RMID q0 msg_sent = Ret (CtlNum 0 q0) s' /\
    mrep s' (qset (qset (fun _ => []) 0 [(7, [65; 66; 67])]) 0 []) /\
    msg_errno s' = msg_errno msg_sent /\
    (exists d', aget (msqids s') 0 = Some d' /\ msg_qbytes d' = 0) /\
    head (msg_woken s') = Some 0.
Proof.
  eapply (rmid_frees_messages 0 (mkCred 0 0) msg_sent _ 0 0).
  - apply mrep_sent.
  - vm_compute. reflexivity.
Defined.

(** ** The states the calls lead to *)

Inductive msg_step : msgstate -> msgstate -> Prop :=
| step_msgget now cred k msgflg r s s' :
    msgget now cred k msgflg s = Ret r s' -> msg_step s s'
| step_msgctl now cred msqid cmd ubuf r s s' :
    msgctl now cred msqid cmd ubuf s = Ret r s' -> msg_step s s'
| step_msgsnd pid now cred msqid mtype body msgsz msgflg r s s' :
    msgsnd pid now cred [] msqid mtype body msgsz msgflg s = Ret r s' -> msg_step s s'
| step_msgrcv pid now cred msqid msgsz msgtyp msgflg r s s' :
    msgrcv pid now cred [] msqid msgsz msgtyp msgflg s = Ret r s' -> msg_step s s'.

(** Every queue was created at most once. *)
Record fresh (s : msgstate) : Prop := {
  fresh_rep : mrep s (fun _ => []);
  fresh_len : length (msqids s) = Z.to_nat MSGMNI;
  fresh_seq : forall q d, aget (msqids s) q = Some d ->
    seq (msg_perm d) = if msg_qbytes d =? 0 then 0 else 1
}.

Lemma fresh_boot : fresh msg_boot.
Proof.
  split; [apply mrep_boot|vm_compute; reflexivity|]. intros q d Hd.
  assert (Hf : Forall (fun d => seq (msg_perm d) = if msg_qbytes d =? 0 then 0 else 1) (msqids msg_boot)).
  { apply Forall_fmap, Forall_replicate. done. }
  by eapply Forall_aget in Hf.
Qed.

Lemma fresh_errno s e : fresh s -> fresh (set_merrno s e).
Proof. intros []. split; try done. by eapply mrep_same. Qed.

(** No identifier passes the validation. *)
Lemma fresh_check msqid s : fresh s -> msqid_check msqid s = Ret None s.
Proof.
  intros Hf. unfold msqid_check. destruct (_ || _) eqn:Hr; [done|].
  apply orb_false_iff in Hr as [Hr1 Hr2]. rewrite Z.ltb_ge in Hr1. rewrite Z.leb_gt in Hr2.
  destruct (aget_is_Some (msqids s) (IPCID_TO_IX msqid)) as [d Hd].
  { rewrite (fresh_len _ Hf). unfold MSGMNI in *. lia. }
  rewrite Hd, IPCID_TO_SEQ_of_ix, (fresh_seq _ Hf _ _ Hd). by destruct (msg_qbytes d =? 0).
Qed.

Lemma fresh_msgget now cred k msgflg s r s' :
  fresh s -> msgget now cred k msgflg s = Ret r s' -> fresh s'.
Proof.
  intros Hf. unfold msgget, ix_msgget.
  set (create := if (k =? IPC_PRIVATE) || bset msgflg IPC_CREAT then _ else _).
  assert (Hcr : create = Ret r s' -> fresh s').
  { unfold create. destruct (_ || _); [|intros [_ <-]%Ret_inj; by apply fresh_errno].
    destruct (first_idx _ (msqids s) 0) as [q|] eqn:Hq; [|intros [_ <-]%Ret_inj; by apply fresh_errno].
    apply first_idx_Some in Hq as (d & Hq0 & Hd & Hfree & _). rewrite Z.sub_0_r in Hd.
    apply andb_true_iff in Hfree as [Hz%Z.eqb_eq _]. rewrite Hd. intros [_ <-]%Ret_inj.
    pose proof (fresh_seq _ Hf _ _ Hd) as Hs. rewrite Hz in Hs. cbn [Z.eqb] in Hs. destruct Hf as [Hr Hl Hseq].
    split; simpl; [by eapply mrep_create|by rewrite aput_length|].
    intros i e. rewrite (aget_aput _ _ _ _ d Hd). destruct (Z.eqb_spec q i); [|apply Hseq].
    intros [= <-]. cbn [msg_perm seq msg_qbytes]. by rewrite Hs. }
  clearbody create. destruct (negb (k =? IPC_PRIVATE)); [|done]. destruct (first_idx _ (msqids s) 0) as [q|]; [|exact Hcr].
  destruct (aget (msqids s) q); [|done]. destruct (_ && _).
  - intros [_ <-]%Ret_inj. by apply fresh_errno.
  - change (ipcperm _ _ _) with 0. cbn [Z.eqb negb]. by intros [_ <-]%Ret_inj.
Qed.

Lemma fresh_step s s' : msg_step s s' -> fresh s -> fresh s'.
Proof.
  intros Hst Hf. destruct Hst as [now cred k msgflg r s s' H|now cred msqid cmd ubuf r s s' H
    |pid now cred msqid mtype body msgsz msgflg r s s' H|pid now cred msqid msgsz msgtyp msgflg r s s' H].
  - by eapply fresh_msgget.
  - unfold msgctl, ix_msgctl in H. rewrite fresh_check in H by done.
    destruct (cmd =? GETMSGINFO); [by apply Ret_inj in H as [_ <-]|].
    destruct (cmd =? GETMSQIDSA); [by apply Ret_inj in H as [_ <-]|].
    cbn [obind fail] in H. unfold fail in H. apply Ret_inj in H as [_ <-]. by apply fresh_errno.
  - unfold msgsnd, ix_msgsnd in H. rewrite fresh_check in H by done.
    apply Ret_inj in H as [_ <-]. by apply fresh_errno.
  - unfold msgrcv, ix_msgrcv in H. rewrite fresh_check in H by done.
    apply Ret_inj in H as [_ <-]. by apply fresh_errno.
Qed.

(** No message can be sent or received: in every state the system calls
    lead to from [msginit], all queues are empty, and [msgsnd] and [msgrcv] on
    any identifier, also on the one [msgget] has just returned, fail with
    EINVAL; the identifier is reduced to its index before its sequence
    number is extracted, so the number compared is 0, and a queue that exists
    has number 1. *)
Theorem msg_calls_always_einval (s : msgstate) (pid now : Z) (cred : ucred)
  (msqid mtype : Z) (body : list Z) (msgsz msgtyp msgflg : Z) :
  rtc msg_step msg_boot s ->
  mrep s (fun _ => []) /\
  msgsnd pid now cred [] msqid mtype body msgsz msgflg s = Ret (-1) (set_merrno s EINVAL) /\
  msgrcv pid now cred [] msqid msgsz msgtyp msgflg s = Ret (-1, None) (set_merrno s EINVAL).
Proof.
  intros Hreach. assert (Hf : fresh s).
  { revert Hreach. apply (rtc_ind_r fresh); [apply fresh_boot|]. intros ? ? _ ? ?.
    by eapply fresh_step. }
  split; [apply Hf|]. unfold msgsnd, msgrcv, ix_msgsnd, ix_msgrcv. by rewrite fresh_check.
Qed.

Definition msg_got : msgstate :=
  ret_state (msgget 0 (mkCred 0 0) IPC_PRIVATE 0x1ff msg_boot) msg_boot.

Lemma msg_calls_always_einval_witness :
  mrep msg_got (fun _ => []) /\
  msgsnd 1 0 (mkCred 0 0) [] (2 ^ 16) 7 [65] 1 0 msg_got = Ret (-1) (set_merrno msg_got EINVAL) /\
  msgrcv 1 0 (mkCred 0 0) [] (2 ^ 16) 1 7 0 msg_got = Ret (-1, None) (set_merrno msg_got EINVAL).
Proof.
  apply (msg_calls_always_einval msg_got 1 0 (mkCred 0 0) (2 ^ 16) 7 [65]).
  apply rtc_once. apply (step_msgget 0 (mkCred 0 0) IPC_PRIVATE 0x1ff (2 ^ 16)).
  vm_compute. reflexivity.
Defined.
