(* ===== verification/Signals.v ===== *)
(** * Signals: data and operations

    Models library/kern_sig.c with the signal part of struct user
    (include/user.h), the macros of include/sys/signal.h, [ffs] (string/ffs.c)
    and the two routines of library/machdep_68k.c it calls, [setrun] and
    [sendsig].  A signal mask is the 32-bit word as a non-negative [Z]; a
    handler is a [Z] (SIG_DFL is 0, SIG_IGN is 1).  What the code asks of the
    operating system for the process (exec signals, task switches, the wake-up
    of the parent) is appended to [os_calls]; a frame that [sendsig] pushes on
    the user stack is appended to [frames] (its registers and stack addresses
    are left out).  While the process waits, the rest of the system acts by a
    schedule, as for the System V calls. *)

From S2P Require Import Prelude.

Module Sig.

(** ** Data *)

Definition NSIG : Z := 33.
Definition SIGINT : Z := 2.
Definition SIGQUIT : Z := 3.
Definition SIGILL : Z := 4.
Definition SIGTRAP : Z := 5.
Definition SIGIOT : Z := 6.
Definition SIGEMT : Z := 7.
Definition SIGFPE : Z := 8.
Definition SIGKILL : Z := 9.
Definition SIGBUS : Z := 10.
Definition SIGSEGV : Z := 11.
Definition SIGSYS : Z := 12.
Definition SIGTERM : Z := 15.
Definition SIGURG : Z := 16.
Definition SIGSTOP : Z := 17.
Definition SIGTSTP : Z := 18.
Definition SIGCONT : Z := 19.
Definition SIGCHLD : Z := 20.
Definition SIGTTIN : Z := 21.
Definition SIGTTOU : Z := 22.
Definition SIGIO : Z := 23.
Definition SIGWINCH : Z := 28.
Definition SIGINFO : Z := 29.
Definition SIGMSG : Z := 32.

Definition SIG_DFL : Z := 0.
Definition SIG_IGN : Z := 1.
Definition SIG_CATCH : Z := 2.
Definition SIG_HOLD : Z := 3.

Definition SA_ONSTACK : Z := 0x1.
Definition SA_RESTART : Z := 0x2.
Definition SA_NOCLDSTOP : Z := 0x8.
Definition SV_ONSTACK : Z := SA_ONSTACK.
Definition SV_INTERRUPT : Z := SA_RESTART.
Definition SIG_BLOCK : Z := 1.
Definition SIG_UNBLOCK : Z := 2.
Definition SIG_SETMASK : Z := 3.

Definition STRC : Z := 0x10.
Definition SWTED : Z := 0x20.
Definition SNOCLDSTOP : Z := 0x80.
Definition SOMASK : Z := 0x200.
Definition SVFORK : Z := 0x1000.
Definition SSLEEP : Z := 1.
Definition SWAIT : Z := 2.
Definition SRUN : Z := 3.
Definition SSTOP : Z := 6.

Definition sigmask (m : Z) : Z := Z.shiftl 1 (m - 1).
Definition sigcantmask : Z := Z.lor (sigmask SIGKILL) (sigmask SIGSTOP).
Definition ttystopsigmask : Z := Z.lor (Z.lor (sigmask SIGTSTP) (sigmask SIGTTIN)) (sigmask SIGTTOU).
Definition stopsigmask : Z := Z.lor (sigmask SIGSTOP) ttystopsigmask.
Definition defaultignmask : Z :=
  Z.lor (Z.lor (Z.lor (Z.lor (Z.lor (Z.lor (sigmask SIGCONT) (sigmask SIGIO)) (sigmask SIGURG))
    (sigmask SIGCHLD)) (sigmask SIGWINCH)) (sigmask SIGINFO)) (sigmask SIGMSG).

Record sigaction_t := mkSA { sa_handler : Z; sa_mask : Z; sa_flags : Z }.
Record sigvec_t := mkSV { sv_handler : Z; sv_mask : Z; sv_flags : Z }.

Inductive wchan := WNone | WSelf | WSelect | WOther (a : Z).

(** The function a frame returns into. *)
Inductive catcher := Handler (h : Z) | SigExit | StoppedHandler.
Record frame := mkFrame {
  sf_handler : catcher; sf_signum : Z; sf_code : Z; sf_addr : Z;
  sc_onstack : Z; sc_mask : Z; new_onstack : Z; new_mask : Z
}.

Inductive os_call := SignalCtrlC | SignalZombie | WakeupSelf | SignalSleep | TaskSwitch
| SignalParent (sig : Z) | WakeupParent.

Record user := mkUser {
  u_signal : list Z;
  u_sigmask : list Z;
  u_sigonstack : Z;
  u_sigintr : Z;
  u_oldmask : Z;
  u_sigsp : Z;
  u_onstack : Z;
  u_sig : Z;
  u_code : Z;
  p_flag : Z;
  p_stat : Z;
  p_xstat : Z;
  p_sig : Z;
  p_sigmask : Z;
  p_sigignore : Z;
  p_sigcatch : Z;
  p_wchan : wchan;
  u_mask_state : Z;
  ru_nsignals : Z;
  u_errno : Z;
  p_pgrp : Z;
  p_pptr : Z;
  p_cptr : Z;
  p_osptr : Z;
  frames : list frame;
  os_calls : list os_call
}.

(** ** Field updates *)

Definition set_u_signal (p : user) v : user :=
    mkUser v (u_sigmask p) (u_sigonstack p) (u_sigintr p) (u_oldmask p) (u_sigsp p) (u_onstack p)
    (u_sig p) (u_code p) (p_flag p) (p_stat p) (p_xstat p) (p_sig p) (p_sigmask p) (p_sigignore p)
    (p_sigcatch p) (p_wchan p) (u_mask_state p) (ru_nsignals p) (u_errno p) (p_pgrp p) (p_pptr p)
    (p_cptr p) (p_osptr p) (frames p) (os_calls p).
Definition set_u_sigmask (p : user) v : user :=
    mkUser (u_signal p) v (u_sigonstack p) (u_sigintr p) (u_oldmask p) (u_sigsp p) (u_onstack p)
    (u_sig p) (u_code p) (p_flag p) (p_stat p) (p_xstat p) (p_sig p) (p_sigmask p) (p_sigignore p)
    (p_sigcatch p) (p_wchan p) (u_mask_state p) (ru_nsignals p) (u_errno p) (p_pgrp p) (p_pptr p)
    (p_cptr p) (p_osptr p) (frames p) (os_calls p).
Definition set_u_sigonstack (p : user) v : user :=
    mkUser (u_signal p) (u_sigmask p) v (u_sigintr p) (u_oldmask p) (u_sigsp p) (u_onstack p)
    (u_sig p) (u_code p) (p_flag p) (p_stat p) (p_xstat p) (p_sig p) (p_sigmask p) (p_sigignore p)
    (p_sigcatch p) (p_wchan p) (u_mask_state p) (ru_nsignals p) (u_errno p) (p_pgrp p) (p_pptr p)
    (p_cptr p) (p_osptr p) (frames p) (os_calls p).
Definition set_u_sigintr (p : user) v : user :=
    mkUser (u_signal p) (u_sigmask p) (u_sigonstack p) v (u_oldmask p) (u_sigsp p) (u_onstack p)
    (u_sig p) (u_code p) (p_flag p) (p_stat p) (p_xstat p) (p_sig p) (p_sigmask p) (p_sigignore p)
    (p_sigcatch p) (p_wchan p) (u_mask_state p) (ru_nsignals p) (u_errno p) (p_pgrp p) (p_pptr p)
    (p_cptr p) (p_osptr p) (frames p) (os_calls p).
Definition set_u_oldmask (p : user) v : user :=
    mkUser (u_signal p) (u_sigmask p) (u_sigonstack p) (u_sigintr p) v (u_sigsp p) (u_onstack p)
    (u_sig p) (u_code p) (p_flag p) (p_stat p) (p_xstat p) (p_sig p) (p_sigmask p) (p_sigignore p)
    (p_sigcatch p) (p_wchan p) (u_mask_state p) (ru_nsignals p) (u_errno p) (p_pgrp p) (p_pptr p)
    (p_cptr p) (p_osptr p) (frames p) (os_calls p).
Definition set_u_onstack (p : user) v : user :=
    mkUser (u_signal p) (u_sigmask p) (u_sigonstack p) (u_sigintr p) (u_oldmask p) (u_sigsp p) v
    (u_sig p) (u_code p) (p_flag p) (p_stat p) (p_xstat p) (p_sig p) (p_sigmask p) (p_sigignore p)
    (p_sigcatch p) (p_wchan p) (u_mask_state p) (ru_nsignals p) (u_errno p) (p_pgrp p) (p_pptr p)
    (p_cptr p) (p_osptr p) (frames p) (os_calls p).
Definition set_u_sig (p : user) v : user :=
    mkUser (u_signal p) (u_sigmask p) (u_sigonstack p) (u_sigintr p) (u_oldmask p) (u_sigsp p)
    (u_onstack p) v (u_code p) (p_flag p) (p_stat p) (p_xstat p) (p_sig p) (p_sigmask p)
    (p_sigignore p) (p_sigcatch p) (p_wchan p) (u_mask_state p) (ru_nsignals p) (u_errno p)
    (p_pgrp p) (p_pptr p) (p_cptr p) (p_osptr p) (frames p) (os_calls p).
Definition set_u_code (p : user) v : user :=
    mkUser (u_signal p) (u_sigmask p) (u_sigonstack p) (u_sigintr p) (u_oldmask p) (u_sigsp p)
    (u_onstack p) (u_sig p) v (p_flag p) (p_stat p) (p_xstat p) (p_sig p) (p_sigmask p)
    (p_sigignore p) (p_sigcatch p) (p_wchan p) (u_mask_state p) (ru_nsignals p) (u_errno p)
    (p_pgrp p) (p_pptr p) (p_cptr p) (p_osptr p) (frames p) (os_calls p).
Definition set_p_flag (p : user) v : user :=
    mkUser (u_signal p) (u_sigmask p) (u_sigonstack p) (u_sigintr p) (u_oldmask p) (u_sigsp p)
    (u_onstack p) (u_sig p) (u_code p) v (p_stat p) (p_xstat p) (p_sig p) (p_sigmask p)
    (p_sigignore p) (p_sigcatch p) (p_wchan p) (u_mask_state p) (ru_nsignals p) (u_errno p)
    (p_pgrp p) (p_pptr p) (p_cptr p) (p_osptr p) (frames p) (os_calls p).
Definition set_p_stat (p : user) v : user :=
    mkUser (u_signal p) (u_sigmask p) (u_sigonstack p) (u_sigintr p) (u_oldmask p) (u_sigsp p)
    (u_onstack p) (u_sig p) (u_code p) (p_flag p) v (p_xstat p) (p_sig p) (p_sigmask p)
    (p_sigignore p) (p_sigcatch p) (p_wchan p) (u_mask_state p) (ru_nsignals p) (u_errno p)
    (p_pgrp p) (p_pptr p) (p_cptr p) (p_osptr p) (frames p) (os_calls p).
Definition set_p_xstat (p : user) v : user :=
    mkUser (u_signal p) (u_sigmask p) (u_sigonstack p) (u_sigintr p) (u_oldmask p) (u_sigsp p)
    (u_onstack p) (u_sig p) (u_code p) (p_flag p) (p_stat p) v (p_sig p) (p_sigmask p)
    (p_sigignore p) (p_sigcatch p) (p_wchan p) (u_mask_state p) (ru_nsignals p) (u_errno p)
    (p_pgrp p) (p_pptr p) (p_cptr p) (p_osptr p) (frames p) (os_calls p).
Definition set_p_sig (p : user) v : user :=
    mkUser (u_signal p) (u_sigmask p) (u_sigonstack p) (u_sigintr p) (u_oldmask p) (u_sigsp p)
    (u_onstack p) (u_sig p) (u_code p) (p_flag p) (p_stat p) (p_xstat p) v (p_sigmask p)
    (p_sigignore p) (p_sigcatch p) (p_wchan p) (u_mask_state p) (ru_nsignals p) (u_errno p)
    (p_pgrp p) (p_pptr p) (p_cptr p) (p_osptr p) (frames p) (os_calls p).
Definition set_p_sigmask (p : user) v : user :=
    mkUser (u_signal p) (u_sigmask p) (u_sigonstack p) (u_sigintr p) (u_oldmask p) (u_sigsp p)
    (u_onstack p) (u_sig p) (u_code p) (p_flag p) (p_stat p) (p_xstat p) (p_sig p) v (p_sigignore
    p) (p_sigcatch p) (p_wchan p) (u_mask_state p) (ru_nsignals p) (u_errno p) (p_pgrp p) (p_pptr
    p) (p_cptr p) (p_osptr p) (frames p) (os_calls p).
Definition set_p_sigignore (p : user) v : user :=
    mkUser (u_signal p) (u_sigmask p) (u_sigonstack p) (u_sigintr p) (u_oldmask p) (u_sigsp p)
    (u_onstack p) (u_sig p) (u_code p) (p_flag p) (p_stat p) (p_xstat p) (p_sig p) (p_sigmask p) v
    (p_sigcatch p) (p_wchan p) (u_mask_state p) (ru_nsignals p) (u_errno p) (p_pgrp p) (p_pptr p)
    (p_cptr p) (p_osptr p) (frames p) (os_calls p).
Definition set_p_sigcatch (p : user) v : user :=
    mkUser (u_signal p) (u_sigmask p) (u_sigonstack p) (u_sigintr p) (u_oldmask p) (u_sigsp p)
    (u_onstack p) (u_sig p) (u_code p) (p_flag p) (p_stat p) (p_xstat p) (p_sig p) (p_sigmask p)
    (p_sigignore p) v (p_wchan p) (u_mask_state p) (ru_nsignals p) (u_errno p) (p_pgrp p) (p_pptr
    p) (p_cptr p) (p_osptr p) (frames p) (os_calls p).
Definition set_u_mask_state (p : user) v : user :=
    mkUser (u_signal p) (u_sigmask p) (u_sigonstack p) (u_sigintr p) (u_oldmask p) (u_sigsp p)
    (u_onstack p) (u_sig p) (u_code p) (p_flag p) (p_stat p) (p_xstat p) (p_sig p) (p_sigmask p)
    (p_sigignore p) (p_sigcatch p) (p_wchan p) v (ru_nsignals p) (u_errno p) (p_pgrp p) (p_pptr p)
    (p_cptr p) (p_osptr p) (frames p) (os_calls p).
Definition set_ru_nsignals (p : user) v : user :=
    mkUser (u_signal p) (u_sigmask p) (u_sigonstack p) (u_sigintr p) (u_oldmask p) (u_sigsp p)
    (u_onstack p) (u_sig p) (u_code p) (p_flag p) (p_stat p) (p_xstat p) (p_sig p) (p_sigmask p)
    (p_sigignore p) (p_sigcatch p) (p_wchan p) (u_mask_state p) v (u_errno p) (p_pgrp p) (p_pptr
    p) (p_cptr p) (p_osptr p) (frames p) (os_calls p).
Definition set_u_errno (p : user) v : user :=
    mkUser (u_signal p) (u_sigmask p) (u_sigonstack p) (u_sigintr p) (u_oldmask p) (u_sigsp p)
    (u_onstack p) (u_sig p) (u_code p) (p_flag p) (p_stat p) (p_xstat p) (p_sig p) (p_sigmask p)
    (p_sigignore p) (p_sigcatch p) (p_wchan p) (u_mask_state p) (ru_nsignals p) v (p_pgrp p)
    (p_pptr p) (p_cptr p) (p_osptr p) (frames p) (os_calls p).
Definition set_frames (p : user) v : user :=
    mkUser (u_signal p) (u_sigmask p) (u_sigonstack p) (u_sigintr p) (u_oldmask p) (u_sigsp p)
    (u_onstack p) (u_sig p) (u_code p) (p_flag p) (p_stat p) (p_xstat p) (p_sig p) (p_sigmask p)
    (p_sigignore p) (p_sigcatch p) (p_wchan p) (u_mask_state p) (ru_nsignals p) (u_errno p)
    (p_pgrp p) (p_pptr p) (p_cptr p) (p_osptr p) v (os_calls p).
Definition set_os_calls (p : user) v : user :=
    mkUser (u_signal p) (u_sigmask p) (u_sigonstack p) (u_sigintr p) (u_oldmask p) (u_sigsp p)
    (u_onstack p) (u_sig p) (u_code p) (p_flag p) (p_stat p) (p_xstat p) (p_sig p) (p_sigmask p)
    (p_sigignore p) (p_sigcatch p) (p_wchan p) (u_mask_state p) (ru_nsignals p) (u_errno p)
    (p_pgrp p) (p_pptr p) (p_cptr p) (p_osptr p) (frames p) v.
Definition set_sigstack (p : user) sp on : user :=
    mkUser (u_signal p) (u_sigmask p) (u_sigonstack p) (u_sigintr p) (u_oldmask p) sp on (u_sig p)
    (u_code p) (p_flag p) (p_stat p) (p_xstat p) (p_sig p) (p_sigmask p) (p_sigignore p)
    (p_sigcatch p) (p_wchan p) (u_mask_state p) (ru_nsignals p) (u_errno p) (p_pgrp p) (p_pptr p)
    (p_cptr p) (p_osptr p) (frames p) (os_calls p).


Definition os (c : os_call) (p : user) : user := set_os_calls p (os_calls p ++ [c]).

Definition schedule : Type := list (Z * (user -> user)).

(** ** ffs (68k version) *)

Fixpoint ffs_loop (fuel : nat) (d0 d1 : Z) : Z :=
  match fuel with
  | O => d0 + 1
  | S f => let d0 := d0 + 1 in if Z.testbit d1 d0 then d0 + 1 else ffs_loop f d0 d1
  end.
Definition ffs (d1 : Z) : Z := if d1 =? 0 then 0 else ffs_loop 32 (-1) d1.

(** ** setrun and sendsig (library/machdep_68k.c)

    [ext] is the part of the test of [setrun] that does not depend on the
    process: supervisor mode, another process, or task switching forbidden. *)
Definition setrun (ext : bool) (p : user) : user :=
  if ext || (p_stat p =? SSLEEP) || (p_stat p =? SWAIT) || (p_stat p =? SSTOP) then
    if p_stat p =? SWAIT then os SignalCtrlC p
    else if p_stat p =? SSTOP then os SignalZombie (set_p_stat p SRUN)
    else
      match p_wchan p with
      | WSelf => os WakeupSelf p
      | WSelect => os SignalSleep p
      | _ => if p_stat p =? SSLEEP then os SignalSleep p else p
      end
  else os TaskSwitch p.

Definition sendsig (p : user) (c : catcher) (sig mask code addr : Z) : user :=
  let oonstack := u_onstack p in
  let p := if (u_onstack p =? 0) && bset (u_sigonstack p) (sigmask sig)
           then set_u_onstack p 1 else p in
  set_frames p (frames p ++ [mkFrame c sig code addr oonstack mask (u_onstack p) (p_sigmask p)]).

(** ** setsigvec, sigaction, sigvec *)

Definition flag_if (c : bool) (m b : Z) : Z := if c then Z.lor m b else bclr m b.

Definition setsigvec (sig : Z) (sa : sigaction_t) (p : user) : outcome user unit :=
  let bit := sigmask sig in
  let? _h := aget (u_signal p) sig in
  let? _m := aget (u_sigmask p) sig in
  let p := set_u_signal p (aput (u_signal p) sig (sa_handler sa)) in
  let p := set_u_sigmask p (aput (u_sigmask p) sig (bclr (sa_mask sa) sigcantmask)) in
  let p := set_u_sigintr p (flag_if (Z.land (sa_flags sa) SA_RESTART =? 0) (u_sigintr p) bit) in
  let p := set_u_sigonstack p (flag_if (bset (sa_flags sa) SA_ONSTACK) (u_sigonstack p) bit) in
  let p := if sig =? SIGCHLD
           then set_p_flag p (flag_if (bset (sa_flags sa) SA_NOCLDSTOP) (p_flag p) SNOCLDSTOP)
           else p in
  if (sa_handler sa =? SIG_IGN) || (bset bit defaultignmask && (sa_handler sa =? SIG_DFL)) then
    let p := set_p_sig p (bclr (p_sig p) bit) in
    let p := if sig =? SIGCONT then p else set_p_sigignore p (Z.lor (p_sigignore p) bit) in
    Ret tt (set_p_sigcatch p (bclr (p_sigcatch p) bit))
  else
    let p := set_p_sigignore p (bclr (p_sigignore p) bit) in
    Ret tt (set_p_sigcatch p (flag_if (negb (sa_handler sa =? SIG_DFL)) (p_sigcatch p) bit)).

Definition bad_signal (sig : Z) : bool :=
  (sig <=? 0) || (NSIG <=? sig) || (sig =? SIGKILL) || (sig =? SIGSTOP).

(** [get]: whether [osa] is not NULL; the result carries what is stored in it. *)
Definition sigaction (sig : Z) (nsa : option sigaction_t) (get : bool) (p : user)
  : outcome user (Z * option sigaction_t) :=
  if bad_signal sig then Ret (-1, None) (set_u_errno p EINVAL)
  else
    let? h := aget (u_signal p) sig in
    let? m := aget (u_sigmask p) sig in
    let bit := sigmask sig in
    let flags := if bset (u_sigonstack p) bit then Z.lor 0 SA_ONSTACK else 0 in
    let flags := if Z.land (u_sigintr p) bit =? 0 then Z.lor flags SA_RESTART else flags in
    let flags := if bset (p_flag p) SNOCLDSTOP then Z.lor flags SA_NOCLDSTOP else flags in
    let osa := if get then Some (mkSA h m flags) else None in
    match nsa with
    | None => Ret (0, osa) p
    | Some sa => let* (_u, p) := setsigvec sig sa p in Ret (0, osa) p
    end.

Definition sigvec (sig : Z) (nsv : option sigvec_t) (get : bool) (p : user)
  : outcome user (Z * option sigvec_t) :=
  if bad_signal sig then Ret (-1, None) (set_u_errno p EINVAL)
  else
    let? h := aget (u_signal p) sig in
    let? m := aget (u_sigmask p) sig in
    let bit := sigmask sig in
    let flags := if bset (u_sigonstack p) bit then Z.lor 0 SV_ONSTACK else 0 in
    let flags := if bset (u_sigintr p) bit then Z.lor flags SV_INTERRUPT else flags in
    let flags := if bset (p_flag p) SNOCLDSTOP then Z.lor flags SA_NOCLDSTOP else flags in
    let osv := if get then Some (mkSV h m flags) else None in
    match nsv with
    | None => Ret (0, osv) p
    | Some sv =>
        let* (_u, p) := setsigvec sig
          (mkSA (sv_handler sv) (sv_mask sv) (Z.lxor (sv_flags sv) SA_RESTART)) p in
        Ret (0, osv) p
    end.

(** ** siginit, sigpending, sigstack, core *)

Definition siginit (p : user) : user := set_p_sigignore p (bclr defaultignmask (sigmask SIGCONT)).
Definition sigpending (p : user) : Z * Z := (0, p_sig p).
Definition sigstack (nss : option (Z * Z)) (p : user) : (Z * Z) * user :=
  ((u_sigsp p, u_onstack p),
   match nss with Some (sp, on) => set_sigstack p sp on | None => p end).
Definition core : Z := -1.

(** ** _psignal *)

Definition is_trap_sig (sig : Z) : bool :=
  (sig =? SIGILL) || (sig =? SIGBUS) || (sig =? SIGFPE) || (sig =? SIGTRAP) || (sig =? SIGEMT).

(** The conversion of an ignored or masked trap signal into a SIGILL. *)
Definition convert_trap (sig : Z) (p : user) : Z * user :=
  let mask := sigmask sig in
  if (bset mask (p_sigignore p) || bset mask (p_sigmask p)) && is_trap_sig sig then
    let mask := sigmask SIGILL in
    let p := set_p_sigignore p (bclr (p_sigignore p) mask) in
    let p := set_p_sigmask p (bclr (p_sigmask p) mask) in
    (SIGILL, set_p_sigcatch p (bclr (p_sigcatch p) mask))
  else (sig, p).

(** From the [switch] to the end, for the given action. *)
Definition post_signal (ext : bool) (sig action : Z) (p : user) : user :=
  let mask := sigmask sig in
  let p :=
    if sig =? SIGCONT then set_p_sig p (bclr (p_sig p) stopsigmask)
    else if (sig =? SIGTSTP) || (sig =? SIGTTIN) || (sig =? SIGTTOU) || (sig =? SIGSTOP)
    then set_p_sig p (bclr (p_sig p) (sigmask SIGCONT))
    else p in
  let p := set_p_sig p (Z.lor (p_sig p) mask) in
  if (action =? SIG_HOLD) && (negb (sig =? SIGCONT) || negb (p_stat p =? SSTOP)) then p
  else if (p_stat p =? SSTOP) && bset (p_flag p) STRC then p
  else setrun ext p.

Definition psignal (ext : bool) (sig : Z) (p : user) : user :=
  if bset (p_flag p) STRC then post_signal ext sig SIG_DFL p
  else
    let '(sig, p) := convert_trap sig p in
    let mask := sigmask sig in
    if bset (p_sigignore p) mask then p
    else
      let action := if bset (p_sigmask p) mask then SIG_HOLD
                    else if bset (p_sigcatch p) mask then SIG_CATCH else SIG_DFL in
      post_signal ext sig action p.

(** ** stop, stopped_process_handler *)

Definition stop (p : user) : user :=
  let p := set_p_stat p SSTOP in
  let p := set_p_flag p (bclr (p_flag p) SWTED) in
  os WakeupParent p.

Fixpoint wait_running (w : schedule) (p : user) : outcome user schedule :=
  if p_stat p =? SRUN then Ret w p
  else match w with
       | [] => Asleep p
       | (_, env) :: w' => wait_running w' (env p)
       end.

Definition stopped_process_handler (w : schedule) (p : user) : outcome user schedule :=
  wait_running w (stop (os (SignalParent SIGCHLD) p)).

(** ** issig *)

(** What becomes of a signal once it is chosen: returned or dropped. *)
Definition takes (sig handler : Z) : bool :=
  if handler =? SIG_DFL then
    if bset (sigmask sig) stopsigmask then false
    else if bset (sigmask sig) defaultignmask then false
    else true
  else if handler =? SIG_IGN then false
  else true.

(** The label [restart]: the signal the parent left in [p_xstat], or 0 when the
    search has to go on. *)
Definition issig_restart (mask : Z) (p : user) : Z * user :=
  let p := set_p_sig p (bclr (p_sig p) mask) in
  let sig := p_xstat p in
  if sig =? 0 then (0, p)
  else
    let mask := sigmask sig in
    let p := set_p_sig p (Z.lor (p_sig p) mask) in
    if bset (p_sigmask p) mask then (0, p) else (sig, p).

(** The loop; [sr] is the supervisor bit of the status register. *)
Fixpoint issig_loop (fuel : nat) (sr : bool) (w : schedule) (p : user) : outcome user (Z * schedule) :=
  match fuel with
  | O => Diverge
  | S f =>
      let mask := bclr (p_sig p) (p_sigmask p) in
      let mask := if bset (p_flag p) SVFORK then bclr mask stopsigmask else mask in
      if mask =? 0 then Ret (0, w) p
      else
        let sig := ffs mask in
        let mask := sigmask sig in
        let finish sig w p :=
          let? h := aget (u_signal p) sig in
          if takes sig h then Ret (sig, w) p
          else issig_loop f sr w (set_p_sig p (bclr (p_sig p) (sigmask sig))) in
        if bset mask (p_sigignore p) && (Z.land (p_flag p) STRC =? 0)
        then issig_loop f sr w (set_p_sig p (bclr (p_sig p) mask))
        else if negb (p_stat p =? SWAIT) && bset (p_flag p) STRC
                && (Z.land (p_flag p) SVFORK =? 0) then
          let p := set_p_xstat p sig in
          if sr then
            Ret (-1, w) (sendsig (set_u_mask_state p mask) StoppedHandler 0 0 0 0)
          else
            let* (w, p) := stopped_process_handler w p in
            let '(sig, p) := issig_restart mask p in
            if sig =? 0 then issig_loop f sr w p else finish sig w p
        else finish sig w p
  end.

Definition issig_fuel (w : schedule) : nat := 33 + 33 * length w.

Definition issig (sr : bool) (w : schedule) (p : user) : outcome user (Z * schedule) :=
  if negb (u_mask_state p =? 0) then
    let mask := u_mask_state p in
    let '(sig, p) := issig_restart mask (set_u_mask_state p 0) in
    if sig =? 0 then issig_loop (issig_fuel w) sr w p
    else
      let? h := aget (u_signal p) sig in
      if takes sig h then Ret (sig, w) p
      else issig_loop (issig_fuel w) sr w (set_p_sig p (bclr (p_sig p) (sigmask sig)))
  else issig_loop (issig_fuel w) sr w p.

Definition CURSIG (sr : bool) (w : schedule) (p : user) : outcome user (Z * schedule) :=
  if (p_sig p =? 0) || ((Z.land (p_flag p) STRC =? 0) && (bclr (p_sig p) (p_sigmask p) =? 0))
  then Ret (0, w) p else issig sr w p.

(** ** psig *)

Definition core_sig (sig : Z) : bool :=
  (sig =? SIGILL) || (sig =? SIGIOT) || (sig =? SIGBUS) || (sig =? SIGQUIT) || (sig =? SIGTRAP)
  || (sig =? SIGEMT) || (sig =? SIGFPE) || (sig =? SIGSEGV) || (sig =? SIGSYS).

(** The body of the loop for one signal. *)
Definition psig_one (sig : Z) (p : user) : outcome user unit :=
  let mask := sigmask sig in
  let p := set_p_sig p (bclr (p_sig p) mask) in
  let? action := aget (u_signal p) sig in
  if negb (action =? SIG_DFL) then
    let? m := aget (u_sigmask p) sig in
    let '(returnmask, p) :=
      if bset (p_flag p) SOMASK then (u_oldmask p, set_p_flag p (bclr (p_flag p) SOMASK))
      else (p_sigmask p, p) in
    let p := set_p_sigmask p (Z.lor (p_sigmask p) (Z.lor m mask)) in
    let p := set_ru_nsignals p (ru_nsignals p + 1) in
    let '(code, p) := if negb (u_sig p =? sig) then (0, p) else (u_code p, set_u_code p 0) in
    Ret tt (sendsig p (Handler action) sig returnmask code 0)
  else
    let p := if core_sig sig then set_u_sig p sig else p in
    Ret tt (sendsig p SigExit sig 0 0 0).

Fixpoint psig (fuel : nat) (sr : bool) (w : schedule) (sig : Z) (p : user) : outcome user unit :=
  if sig =? -1 then Ret tt p
  else
    match fuel with
    | O => Diverge
    | S f =>
        let* (_u, p) := psig_one sig p in
        let* (r, p) := CURSIG sr w p in
        if fst r =? 0 then Ret tt p else psig f sr (snd r) (fst r) p
    end.

(** ** sigprocmask, sigblock, sigsetmask, sigsuspend, sigpause *)

(** [if (CURSIG(p)) setrun(..)] *)
Definition run_if_signal (ext sr : bool) (w : schedule) (p : user) : outcome user schedule :=
  let* (r, p) := CURSIG sr w p in
  Ret (snd r) (if fst r =? 0 then p else setrun ext p).

Definition sigprocmask (ext sr : bool) (w : schedule) (how : Z) (mask : option Z) (p : user)
  : outcome user (Z * Z) :=
  let omask := p_sigmask p in
  match mask with
  | Some m =>
      let new := if how =? SIG_BLOCK then Some (Z.lor (p_sigmask p) (bclr m sigcantmask))
                 else if how =? SIG_UNBLOCK then Some (bclr (p_sigmask p) m)
                 else if how =? SIG_SETMASK then Some (bclr m sigcantmask)
                 else None in
      match new with
      | Some v =>
          let* (_w, p) := run_if_signal ext sr w (set_p_sigmask p v) in
          Ret (0, omask) p
      | None => Ret (-1, omask) (set_u_errno p EINVAL)
      end
  | None =>
      let* (_w, p) := run_if_signal ext sr w p in
      Ret (0, omask) p
  end.

Definition sigblock (mask : Z) (p : user) : Z * user :=
  (p_sigmask p, set_p_sigmask p (Z.lor (p_sigmask p) (bclr mask sigcantmask))).

Definition sigsetmask (ext sr : bool) (w : schedule) (mask : Z) (p : user) : outcome user Z :=
  let result := p_sigmask p in
  let* (_w, p) := run_if_signal ext sr w (set_p_sigmask p (bclr mask sigcantmask)) in
  Ret result p.

(** [while (ix_sleep(..) == 0);] *)
Fixpoint sleep_until_signal (w : schedule) (p : user) : outcome user schedule :=
  match w with
  | [] => Asleep p
  | (res, env) :: w' => if res =? 0 then sleep_until_signal w' (env p) else Ret w' (env p)
  end.

Definition sigsuspend (ext sr : bool) (w : schedule) (mask : Z) (p : user) : outcome user Z :=
  let p := set_u_oldmask p (p_sigmask p) in
  let p := set_p_flag p (Z.lor (p_flag p) SOMASK) in
  let p := set_p_sigmask p (bclr mask sigcantmask) in
  let* (w, p) := sleep_until_signal w p in
  let p := setrun ext p in
  let p := set_p_sigmask p (u_oldmask p) in
  let* (_w, p) := run_if_signal ext sr w p in
  Ret (-1) (set_u_errno p EINTR).

Definition sigpause (ext sr : bool) (w : schedule) (mask : Z) (p : user) : outcome user Z :=
  sigsuspend ext sr w mask p.

(** ** trapsignal (the current process) *)

Definition trapsignal (ext : bool) (sig code addr : Z) (p : user) : outcome user unit :=
  let mask := sigmask sig in
  if (Z.land (p_flag p) STRC =? 0) && bset (p_sigcatch p) mask && (Z.land (p_sigmask p) mask =? 0) then
    let? h := aget (u_signal p) sig in
    let? m := aget (u_sigmask p) sig in
    let p := set_ru_nsignals p (ru_nsignals p + 1) in
    let p := sendsig p (Handler h) sig (p_sigmask p) code addr in
    let p := set_p_sigmask p (Z.lor (p_sigmask p) (Z.lor m mask)) in
    Ret tt (setrun ext p)
  else Ret tt (psignal ext sig (set_u_code p code)).

(** ** Processes

    The processes known to the library by their task address, the running task
    and the tasks that were sent a CTRL-C directly.  [ext t] is the argument of
    [setrun] for task [t]. *)
Record world := mkWorld { procs : gmap Z user; this : Z; ctrl_c : list Z }.

Definition set_procs (w : world) v := mkWorld v (this w) (ctrl_c w).
Definition set_errno_w (w : world) (e : Z) : world :=
  set_procs w (alter (fun p => set_u_errno p e) (this w) (procs w)).

(** The exec lists of tasks, as addresses in front of the tail node of each
    list, and the node type stored at an address. *)
Record exec := mkExec {
  TaskWait : list Z; wait_tail : Z; TaskReady : list Z; ready_tail : Z; ln_Type : Z -> Z
}.
Definition NT_TASK : Z := 1.
Definition NT_PROCESS : Z := 13.

(** [for (n = head; n->ln_Succ; n = n->ln_Succ) if (n == p) break;]: the value
    of [n] after the loop. *)
Fixpoint scan (l : list Z) (tail p : Z) : Z :=
  match l with
  | [] => tail
  | n :: l' => if n =? p then n else scan l' tail p
  end.

Definition is_task (e : exec) (t : Z) : bool :=
  (ln_Type e t =? NT_TASK) || (ln_Type e t =? NT_PROCESS).

(** The [struct user] of a task is found when the task is in [procs]. *)
Definition pfind (e : exec) (w : world) (p : Z) : Z :=
  if negb (p =? 0) && (Z.land p 1 =? 0) then
    let execnode := scan (TaskWait e) (wait_tail e) p in
    let execnode := if execnode =? 0 then scan (TaskReady e) (ready_tail e) p else execnode in
    if execnode =? 0 then 0
    else if is_task e p then
      match procs w !! p with Some _ => p | None => 0 end
    else 0
  else if p =? 0 then this w
  else 0.

Definition psignal_w (ext : Z -> bool) (t sig : Z) (w : world) : outcome world unit :=
  let? p := procs w !! t in
  Ret tt (set_procs w (<[t := psignal (ext t) sig p]> (procs w))).

Definition kill (e : exec) (ext : Z -> bool) (pid signo : Z) (w : world) : outcome world Z :=
  if (signo <? 0) || (NSIG <=? signo) then Ret (-1) (set_errno_w w EINVAL)
  else if 0 <=? pid then
    let t := pfind e w pid in
    if t =? 0 then
      if (signo =? SIGINT) && negb (pid =? 0) && (Z.land pid 1 =? 0) && is_task e pid
      then Ret 0 (mkWorld (procs w) (this w) (ctrl_c w ++ [pid]))
      else Ret (-1) (set_errno_w w ESRCH)
    else if signo =? 0 then Ret 0 w
    else
      let* (_u, w) := psignal_w ext t signo w in
      Ret 0 w
  else Ret (-1) (set_errno_w w ESRCH).

Definition killpg (pgid signo : Z) (w : world) : Z * world :=
  (-1, set_errno_w w (if (signo <? 0) || (NSIG <=? signo) then EINVAL else ESRCH)).

(** [sigprocessgrp] with [test] set, for [p] and its older siblings: is every
    process below known? *)
Fixpoint grp_known (fuel : nat) (p : Z) (w : world) : outcome world bool :=
  if p =? 0 then Ret true w
  else
    match fuel with
    | O => Diverge
    | S f =>
        match procs w !! p with
        | None => Ret false w
        | Some u =>
            let* (b, w) := grp_known f (p_cptr u) w in
            if b : bool then grp_known f (p_osptr u) w else Ret false w
        end
    end.

(** [sigprocessgrp] without [test], for [p] and its older siblings: the
    descendants first. *)
Fixpoint grp_signal (fuel : nat) (ext : Z -> bool) (pgrp sig p : Z) (w : world) : outcome world unit :=
  if p =? 0 then Ret tt w
  else
    match fuel with
    | O => Diverge
    | S f =>
        let? u := procs w !! p in
        let* (_u, w) := grp_signal f ext pgrp sig (p_cptr u) w in
        let? u := procs w !! p in
        let* (_u, w) := (if p_pgrp u =? pgrp then psignal_w ext p sig w else Ret tt w) in
        let? u := procs w !! p in
        grp_signal f ext pgrp sig (p_osptr u) w
    end.

(** Climb to the oldest ancestor: [None] when an ancestor is not known. *)
Fixpoint grp_top (fuel : nat) (ok p : Z) (w : world) : outcome world (option Z) :=
  if (p =? 0) || (p =? 1) then Ret (Some ok) w
  else
    match fuel with
    | O => Diverge
    | S f =>
        match procs w !! p with
        | None => Ret None w
        | Some u => grp_top f p (p_pptr u) w
        end
    end.

Definition psignalgrp (fuel : nat) (ext : Z -> bool) (proc sig : Z) (w : world) : outcome world unit :=
  if proc =? 0 then Ret tt w
  else
    match procs w !! proc with
    | None => Ret tt w
    | Some u0 =>
        let* (top, w) := grp_top fuel proc (p_pptr u0) w in
        match top with
        | None => Ret tt w
        | Some ok =>
            let? u := procs w !! ok in
            let* (b, w) := grp_known fuel (p_cptr u) w in
            if b : bool then
              let* (_u, w) := grp_signal fuel ext (p_pgrp u0) sig (p_cptr u) w in
              let? u := procs w !! ok in
              if p_pgrp u =? p_pgrp u0 then psignal_w ext ok sig w else Ret tt w
            else Ret tt w
        end
    end.

End Sig.
