(* ===== verification/SignalsIssig.v ===== *)
(** * Signals: choosing the signal to deliver

    [ffs] finds the lowest bit; for a process that is not traced the loop of
    [issig] ends within 33 rounds and returns the lowest deliverable signal,
    dropping the pending signals below it that have no effect; [psig] then
    delivers in increasing order until nothing deliverable is left. *)

From S2P Require Import Prelude Signals.
Export Sig.

(** ** Bits *)

Lemma testbit_bclr a b i : 0 <= i -> Z.testbit (bclr a b) i = Z.testbit a i && negb (Z.testbit b i).
Proof. intros Hi. unfold bclr. by rewrite Z.land_spec, Z.lnot_spec. Qed.

Lemma sigmask_pow2 sig : 1 <= sig -> sigmask sig = 2 ^ (sig - 1).
Proof. intros. unfold sigmask. rewrite Z.shiftl_mul_pow2 by lia. lia. Qed.

Lemma testbit_sigmask sig i : 1 <= sig -> 0 <= i -> Z.testbit (sigmask sig) i = (i =? sig - 1).
Proof.
  intros Hs Hi. rewrite sigmask_pow2 by done. destruct (Z.eqb_spec i (sig - 1)) as [->|Hne].
  - apply Z.pow2_bits_true. lia.
  - by apply Z.pow2_bits_false.
Qed.

Lemma bset_sigmask m sig : 1 <= sig -> bset m (sigmask sig) = Z.testbit m (sig - 1).
Proof. intros. rewrite sigmask_pow2 by done. apply bset_pow2. lia. Qed.

Lemma bset_comm a b : bset a b = bset b a.
Proof. unfold bset. by rewrite Z.land_comm. Qed.

Lemma bset_land m b : (Z.land m b =? 0) = negb (bset m b).
Proof. unfold bset. by rewrite negb_involutive. Qed.

Definition is_word (z : Z) : Prop := 0 <= z < 2 ^ 32.

Lemma is_word_bits z : 0 <= z -> (forall i, 32 <= i -> Z.testbit z i = false) -> is_word z.
Proof.
  intros Hz Hb. split; [done|]. destruct (Z.eq_dec z 0) as [->|Hne]; [lia|].
  apply Z.log2_lt_pow2; [lia|]. destruct (Z_lt_le_dec (Z.log2 z) 32); [done|].
  pose proof (Z.bit_log2 z ltac:(lia)). rewrite Hb in *; [done|lia].
Qed.

Lemma word_high z i : is_word z -> 32 <= i -> Z.testbit z i = false.
Proof.
  intros [Hz Hlt] Hi. destruct (Z.eq_dec z 0) as [->|Hne]; [apply Z.bits_0|].
  apply Z.bits_above_log2; [done|]. apply Z.log2_lt_pow2 in Hlt; lia.
Qed.

Lemma bclr_word a b : is_word a -> is_word (bclr a b).
Proof.
  intros Ha. apply is_word_bits.
  - unfold bclr. apply Z.land_nonneg. left. apply Ha.
  - intros i Hi. rewrite testbit_bclr, (word_high a) by (done || lia). done.
Qed.

Lemma lor_word a b : is_word a -> is_word b -> is_word (Z.lor a b).
Proof.
  intros Ha Hb. apply is_word_bits.
  - apply Z.lor_nonneg. split; [apply Ha|apply Hb].
  - intros i Hi. by rewrite Z.lor_spec, !word_high.
Qed.

Lemma sigmask_word sig : 1 <= sig <= 32 -> is_word (sigmask sig).
Proof.
  intros H. rewrite sigmask_pow2 by lia. split; [apply Z.pow_nonneg; lia|].
  apply Z.pow_lt_mono_r; lia.
Qed.

Create HintDb bits.
#[export] Hint Resolve bclr_word lor_word sigmask_word : bits.
#[export] Hint Rewrite testbit_bclr Z.lor_spec Z.land_spec testbit_sigmask using lia : bits.

(** ** ffs *)

Lemma ffs_loop_spec fuel d0 d1 k :
  -1 <= d0 -> (forall j, 0 <= j <= d0 -> Z.testbit d1 j = false) ->
  d0 < k -> Z.testbit d1 k = true -> k <= d0 + Z.of_nat fuel ->
  let r := ffs_loop fuel d0 d1 in
  d0 + 1 < r <= k + 1 /\ Z.testbit d1 (r - 1) = true /\
  (forall j, 0 <= j < r - 1 -> Z.testbit d1 j = false).
Proof.
  revert d0. induction fuel as [|fuel IH]; intros d0 Hd Hlow Hk Hbit Hf r; [lia|].
  unfold r. simpl. destruct (Z.testbit d1 (d0 + 1)) eqn:Hb.
  - split; [lia|]. replace (d0 + 1 + 1 - 1) with (d0 + 1) by lia. split; [done|].
    intros j Hj. apply Hlow. lia.
  - assert (d0 + 1 < k) by (destruct (Z.eq_dec k (d0 + 1)) as [->|]; [congruence|lia]).
    destruct (IH (d0 + 1)) as (H1 & H2 & H3); try done; try lia.
    + intros j Hj. destruct (Z.eq_dec j (d0 + 1)) as [->|]; [done|]. apply Hlow. lia.
    + split; [lia|done].
Qed.

(** The lowest set bit of a word, counted from 1. *)
Lemma ffs_spec x :
  is_word x -> x <> 0 ->
  1 <= ffs x <= 32 /\ Z.testbit x (ffs x - 1) = true /\
  (forall j, 0 <= j < ffs x - 1 -> Z.testbit x j = false).
Proof.
  intros Hx Hne. unfold ffs. rewrite (proj2 (Z.eqb_neq _ _)) by done.
  assert (Hl : Z.testbit x (Z.log2 x) = true) by (apply Z.bit_log2; destruct Hx; lia).
  assert (0 <= Z.log2 x < 32).
  { split; [apply Z.log2_nonneg|]. apply Z.log2_lt_pow2; destruct Hx; lia. }
  destruct (ffs_loop_spec 32 (-1) x (Z.log2 x)) as (H1 & H2 & H3); try done; try lia.
  split; [lia|done].
Qed.

(** ** Deliverable signals *)

Definition untraced (p : user) : Prop := bset (p_flag p) STRC = false.

(** The signals that [issig] looks at. *)
Definition avail (p : user) : Z :=
  let mask := bclr (p_sig p) (p_sigmask p) in
  if bset (p_flag p) SVFORK then bclr mask stopsigmask else mask.

Definition handler_of (p : user) (sig : Z) : Z := default 0 (aget (u_signal p) sig).

Definition deliverable (p : user) (sig : Z) : bool :=
  Z.testbit (avail p) (sig - 1) && negb (Z.testbit (p_sigignore p) (sig - 1)) &&
  takes sig (handler_of p sig).

Record words (p : user) : Prop := {
  w_len : length (u_signal p) = Z.to_nat NSIG;
  w_len2 : length (u_sigmask p) = Z.to_nat NSIG;
  w_sig : is_word (p_sig p);
  w_untraced : untraced p
}.

Lemma avail_word p : is_word (p_sig p) -> is_word (avail p).
Proof. intros. unfold avail. case_match; auto with bits. Qed.

Lemma avail_bit p i :
  0 <= i -> Z.testbit (avail p) i =
    Z.testbit (p_sig p) i && negb (Z.testbit (p_sigmask p) i) &&
    negb (bset (p_flag p) SVFORK && Z.testbit stopsigmask i).
Proof.
  intros Hi. unfold avail. destruct (bset (p_flag p) SVFORK).
  - by rewrite !testbit_bclr by done.
  - rewrite testbit_bclr by done. simpl. by rewrite andb_true_r.
Qed.

Lemma avail_drop p sig i :
  1 <= sig -> 0 <= i ->
  Z.testbit (avail (set_p_sig p (bclr (p_sig p) (sigmask sig)))) i =
  Z.testbit (avail p) i && negb (i =? sig - 1).
Proof.
  intros Hs Hi. rewrite !avail_bit by done. simpl. rewrite testbit_bclr, testbit_sigmask by done.
  destruct (Z.testbit (p_sig p) i), (i =? sig - 1); simpl; rewrite ?andb_false_r, ?andb_true_r; done.
Qed.

Lemma words_drop p v : words p -> is_word v -> words (set_p_sig p v).
Proof. intros [] Hv. by split. Qed.

Lemma handler_get p sig : length (u_signal p) = Z.to_nat NSIG -> 1 <= sig <= 32 ->
  aget (u_signal p) sig = Some (handler_of p sig).
Proof.
  intros Hl Hs. unfold handler_of. destruct (aget_is_Some (u_signal p) sig) as [h Hh].
  { rewrite Hl. unfold NSIG. lia. } by rewrite Hh.
Qed.

(** What [issig] returns. *)
Definition issig_post (p : user) (r : Z) (ps : Z) : Prop :=
  (r = 0 \/ (1 <= r <= 32 /\ deliverable p r = true)) /\
  (forall j, 1 <= j <= 32 -> (r = 0 \/ j < r) -> deliverable p j = false) /\
  is_word ps /\
  (forall i, 0 <= i -> Z.testbit ps i =
     Z.testbit (p_sig p) i && negb (Z.testbit (avail p) i && ((r =? 0) || (i <? r - 1)))).

(** Dropping the lowest candidate [s], which is not deliverable. *)
Lemma issig_post_drop p s r ps :
  words p -> 1 <= s <= 32 -> Z.testbit (avail p) (s - 1) = true ->
  (forall j, 0 <= j < s - 1 -> Z.testbit (avail p) j = false) ->
  deliverable p s = false ->
  issig_post (set_p_sig p (bclr (p_sig p) (sigmask s))) r ps -> issig_post p r ps.
Proof.
  intros Hw Hs Hbit Hlow Hnd (H1 & H2 & H3 & H4).
  assert (Hdel : forall j, 1 <= j ->
    deliverable (set_p_sig p (bclr (p_sig p) (sigmask s))) j = deliverable p j && negb (j =? s)).
  { intros j Hj. unfold deliverable. rewrite avail_drop by lia.
    replace (j - 1 =? s - 1) with (j =? s)
      by (destruct (Z.eqb_spec j s), (Z.eqb_spec (j - 1) (s - 1)); lia || done). simpl.
    unfold handler_of. simpl.
    destruct (Z.testbit (avail p) (j - 1)), (j =? s); simpl; rewrite ?andb_false_r, ?andb_true_r; done. }
  assert (Hrs : r = 0 \/ s < r).
  { destruct H1 as [->|[Hr1 Hr2]]; [by left|right]. rewrite Hdel in Hr2 by lia.
    apply andb_true_iff in Hr2 as [Hr2 Hne]. apply negb_true_iff, Z.eqb_neq in Hne.
    destruct (Z_lt_le_dec r s); [|lia]. unfold deliverable in Hr2.
    rewrite Hlow in Hr2 by lia. done. }
  split; [|split; [|split; [done|]]].
  - destruct H1 as [->|[Hr1 Hr2]]; [by left|right]. split; [done|]. rewrite Hdel in Hr2 by lia.
    by apply andb_true_iff in Hr2 as [? _].
  - intros j Hj Hjr. specialize (H2 j Hj Hjr). rewrite Hdel in H2 by lia.
    destruct (Z.eqb_spec j s) as [Hjs|Hne]; [by rewrite Hjs|]. by rewrite andb_true_r in H2.
  - intros i Hi. rewrite H4, avail_drop by lia. simpl.
    rewrite testbit_bclr, testbit_sigmask by lia.
    destruct (Z.eqb_spec i (s - 1)) as [->|Hne]; simpl.
    + rewrite andb_false_r, Hbit. simpl. destruct Hrs as [->|Hlt]; simpl; [by rewrite andb_false_r|].
      rewrite (proj2 (Z.ltb_lt _ _)) by lia. by rewrite orb_true_r, andb_false_r.
    + by rewrite !andb_true_r.
Qed.

Lemma issig_loop_spec fuel : forall sr w p k,
  words p -> 0 <= k <= 32 -> (forall j, 0 <= j < k -> Z.testbit (avail p) j = false) ->
  (Z.to_nat (33 - k) <= fuel)%nat ->
  exists r ps, issig_loop fuel sr w p = Ret (r, w) (set_p_sig p ps) /\ issig_post p r ps.
Proof.
  induction fuel as [|fuel IH]; intros sr w p k Hw Hk Hlow Hf; [lia|].
  cbn [issig_loop]. fold (avail p). pose proof (w_untraced _ Hw) as Hu.
  destruct (Z.eqb_spec (avail p) 0) as [Hz|Hnz].
  - exists 0, (p_sig p). split; [f_equal; by destruct p|].
    split; [by left|]. split; [|split; [apply Hw|]].
    + intros j _ _. unfold deliverable. by rewrite Hz, Z.bits_0.
    + intros i Hi. by rewrite Hz, Z.bits_0, andb_true_r.
  - destruct (ffs_spec (avail p)) as (Hs & Hbit & Hmin); [apply avail_word, Hw|done|].
    set (s := ffs (avail p)) in *.
    assert (Hks : k <= s - 1).
    { destruct (Z_lt_le_dec (s - 1) k); [|lia]. rewrite Hlow in Hbit by lia. done. }
    pose proof (handler_get p s (w_len _ Hw) Hs) as Hh.
    set (p1 := set_p_sig p (bclr (p_sig p) (sigmask s))).
    assert (Hrec : deliverable p s = false ->
      exists r ps, issig_loop fuel sr w p1 = Ret (r, w) (set_p_sig p ps) /\ issig_post p r ps).
    { intros Hnd. destruct (IH sr w p1 s) as (r & ps & Heq & Hpost); [| |  |lia|].
      - apply words_drop; [done|]. apply bclr_word, Hw.
      - lia.
      - intros j Hj. unfold p1. rewrite avail_drop by lia.
        destruct (Z.eqb_spec j (s - 1)) as [->|]; [by rewrite andb_false_r|].
        rewrite Hmin by lia. done.
      - exists r, ps. split; [by rewrite Heq|]. by eapply issig_post_drop. }
    rewrite bset_land, Hu. cbn [negb]. rewrite !andb_true_r.
    rewrite bset_comm, bset_sigmask by lia. rewrite andb_false_r, andb_false_l.
    destruct (Z.testbit (p_sigignore p) (s - 1)) eqn:Hign.
    + apply Hrec. unfold deliverable. by rewrite Hign, andb_false_r.
    + rewrite Hh. destruct (takes s (handler_of p s)) eqn:Ht.
      * exists s, (p_sig p). split; [f_equal; by destruct p|].
        split; [|split; [|split; [apply Hw|]]].
        -- right. split; [done|]. unfold deliverable. by rewrite Hbit, Hign, Ht.
        -- intros j Hj [->|Hjs]; [lia|]. unfold deliverable. rewrite Hmin by lia. done.
        -- intros i Hi. rewrite (proj2 (Z.eqb_neq s 0)) by lia. simpl.
           destruct (Z.ltb_spec i (s - 1)); [by rewrite Hmin, andb_true_r by lia|].
           by rewrite andb_false_r, andb_true_r.
      * apply Hrec. unfold deliverable. by rewrite Ht, andb_false_r.
Qed.

Lemma issig_spec sr w p :
  words p -> u_mask_state p = 0 ->
  exists r ps, issig sr w p = Ret (r, w) (set_p_sig p ps) /\ issig_post p r ps.
Proof.
  intros Hw Hm. unfold issig. rewrite Hm. cbn [Z.eqb negb].
  apply (issig_loop_spec (issig_fuel w) sr w p 0); [done|lia|intros; lia|].
  unfold issig_fuel. lia.
Qed.

Lemma cursig_spec sr w p :
  words p -> u_mask_state p = 0 ->
  exists r ps, CURSIG sr w p = Ret (r, w) (set_p_sig p ps) /\ issig_post p r ps.
Proof.
  intros Hw Hm. unfold CURSIG.
  destruct ((p_sig p =? 0) || ((Z.land (p_flag p) STRC =? 0) && (bclr (p_sig p) (p_sigmask p) =? 0))) eqn:Hc;
    [|by apply issig_spec].
  assert (Hz : forall i, 0 <= i -> Z.testbit (avail p) i = false).
  { intros i Hi. rewrite avail_bit by done. apply orb_true_iff in Hc as [Hc|Hc].
    - apply Z.eqb_eq in Hc. by rewrite Hc, Z.bits_0.
    - apply andb_true_iff in Hc as [_ Hc]. apply Z.eqb_eq in Hc.
      apply (f_equal (fun x => Z.testbit x i)) in Hc. rewrite testbit_bclr, Z.bits_0 in Hc by done.
      by rewrite Hc. }
  exists 0, (p_sig p). split; [f_equal; by destruct p|].
  split; [by left|]. split; [|split; [apply Hw|]].
  - intros j Hj _. unfold deliverable. by rewrite Hz by lia.
  - intros i Hi. by rewrite Hz, andb_true_r.
Qed.

(** ** Delivery *)

Lemma bset_bclr_ne f a b k :
  0 <= k -> a = 2 ^ k -> Z.testbit b k = false -> bset (bclr f b) a = bset f a.
Proof.
  intros Hk -> Hb. rewrite !bset_pow2, testbit_bclr by done. by rewrite Hb, andb_true_r.
Qed.

(** What delivering one signal changes. *)
Record delivered (sig : Z) (p p' : user) : Prop := {
  dl_words : words p';
  dl_state : u_mask_state p' = u_mask_state p;
  dl_signal : u_signal p' = u_signal p;
  dl_ignore : p_sigignore p' = p_sigignore p;
  dl_avail : forall i, 0 <= i -> Z.testbit (avail p') i = true ->
    Z.testbit (avail p) i = true /\ i <> sig - 1;
  dl_frame : exists f, frames p' = frames p ++ [f] /\ sf_signum f = sig /\
    sf_handler f = (if handler_of p sig =? SIG_DFL then SigExit else Handler (handler_of p sig))
}.

Lemma sendsig_fields p c sig mask code addr :
  let p' := sendsig p c sig mask code addr in
  u_signal p' = u_signal p /\ u_sigmask p' = u_sigmask p /\ p_sig p' = p_sig p /\
  p_sigmask p' = p_sigmask p /\ p_sigignore p' = p_sigignore p /\ p_sigcatch p' = p_sigcatch p /\
  p_flag p' = p_flag p /\ u_mask_state p' = u_mask_state p /\ p_stat p' = p_stat p /\
  u_oldmask p' = u_oldmask p /\
  exists f, frames p' = frames p ++ [f] /\ sf_signum f = sig /\ sf_handler f = c /\ sc_mask f = mask.
Proof.
  unfold sendsig. destruct (_ && _); simpl; do 10 (split; [done|]); eexists; done.
Qed.

Lemma psig_one_spec sig p :
  words p -> 1 <= sig <= 32 -> exists p', psig_one sig p = Ret tt p' /\ delivered sig p p'.
Proof.
  intros Hw Hs. unfold psig_one. simpl. rewrite (handler_get p sig (w_len _ Hw) Hs).
  assert (Havail : forall q, p_flag q = p_flag p \/ p_flag q = bclr (p_flag p) SOMASK ->
    p_sig q = bclr (p_sig p) (sigmask sig) ->
    (forall i, 0 <= i -> Z.testbit (p_sigmask p) i = true -> Z.testbit (p_sigmask q) i = true) ->
    untraced q /\ forall i, 0 <= i -> Z.testbit (avail q) i = true ->
    Z.testbit (avail p) i = true /\ i <> sig - 1).
  { intros q Hf Hsg Hmk. assert (HF : bset (p_flag q) SVFORK = bset (p_flag p) SVFORK /\
      bset (p_flag q) STRC = bset (p_flag p) STRC).
    { destruct Hf as [->| ->]; [done|].
      rewrite (bset_bclr_ne _ SVFORK SOMASK 12), (bset_bclr_ne _ STRC SOMASK 4); done. }
    destruct HF as [HF1 HF2]. split; [unfold untraced; rewrite HF2; apply Hw|].
    intros i Hi. rewrite !avail_bit, HF1, Hsg, testbit_bclr, testbit_sigmask by lia.
    intros H. apply andb_true_iff in H as [H ->]. apply andb_true_iff in H as [H Hnm].
    apply andb_true_iff in H as [-> Hne]. apply negb_true_iff, Z.eqb_neq in Hne.
    rewrite andb_true_r. simpl. split; [|done]. apply negb_true_iff in Hnm.
    destruct (Z.testbit (p_sigmask p) i) eqn:E; [|done]. rewrite Hmk in Hnm; done. }
  destruct (negb (handler_of p sig =? SIG_DFL)) eqn:Hd.
  - destruct (aget_is_Some (u_sigmask p) sig) as [m Hm].
    { rewrite (w_len2 _ Hw). unfold NSIG. lia. }
    rewrite Hm.
    assert (Hmain : forall p1 rm code, u_signal p1 = u_signal p -> u_sigmask p1 = u_sigmask p ->
      p_sigignore p1 = p_sigignore p -> u_mask_state p1 = u_mask_state p ->
      frames p1 = frames p -> (p_flag p1 = p_flag p \/ p_flag p1 = bclr (p_flag p) SOMASK) ->
      p_sig p1 = bclr (p_sig p) (sigmask sig) ->
      p_sigmask p1 = Z.lor (p_sigmask p) (Z.lor m (sigmask sig)) ->
      delivered sig p (sendsig p1 (Handler (handler_of p sig)) sig rm code 0)).
    { intros p1 rm code E1 E2 E3 E4 E5 E6 E7 E8.
      destruct (sendsig_fields p1 (Handler (handler_of p sig)) sig rm code 0)
        as (F1 & F2 & F3 & F4 & F5 & F6 & F7 & F8 & _ & _ & f & F9 & F10 & F11 & _).
      destruct (Havail (sendsig p1 (Handler (handler_of p sig)) sig rm code 0)) as [Hun Hav].
      { by rewrite F7. } { by rewrite F3. }
      { intros i Hi Hb. rewrite F4, E8, Z.lor_spec, Hb. done. }
      split; try congruence; try done.
      - split; rewrite ?F1, ?F2, ?F3, ?E1, ?E2, ?E7; try apply Hw; [|done]. apply bclr_word, Hw.
      - exists f. split; [congruence|]. split; [done|]. apply negb_true_iff in Hd. by rewrite Hd. }
    destruct (bset (p_flag p) SOMASK).
    + destruct (negb (_ =? sig)); eexists; (split; [reflexivity|]); apply Hmain; try done; by right.
    + destruct (negb (_ =? sig)); eexists; (split; [reflexivity|]); apply Hmain; try done; by left.
  - apply negb_false_iff in Hd. eexists. split; [reflexivity|].
    set (p1 := set_p_sig p (bclr (p_sig p) (sigmask sig))).
    set (p2 := if core_sig sig then set_u_sig p1 sig else p1).
    destruct (sendsig_fields p2 SigExit sig 0 0 0)
      as (F1 & F2 & F3 & F4 & F5 & F6 & F7 & F8 & _ & _ & f & F9 & F10 & F11 & _).
    destruct (Havail (sendsig p2 SigExit sig 0 0 0)) as [Hun Hav].
    { left. rewrite F7. unfold p2. by case_match. } { rewrite F3. unfold p2. by case_match. }
    { intros i Hi Hb. rewrite F4. unfold p2. by case_match. }
    split; try done; try (by (rewrite ?F1, ?F5, ?F8; unfold p2; case_match)).
    + split; rewrite ?F1, ?F2, ?F3; unfold p2; try (by case_match; apply Hw).
      * case_match; apply bclr_word, Hw.
      * exact Hun.
    + exists f. rewrite Hd. split; [|done]. rewrite F9. unfold p2. by case_match.
Qed.

Definition ascending (l : list frame) : Prop :=
  forall i j f g, (i < j)%nat -> l !! i = Some f -> l !! j = Some g -> sf_signum f < sf_signum g.

Lemma psig_loop_spec fuel : forall sr w sig p,
  words p -> u_mask_state p = 0 -> 1 <= sig <= 32 ->
  (forall j, 0 <= j < sig - 1 -> Z.testbit (avail p) j = false) ->
  (Z.to_nat (33 - sig) <= fuel)%nat ->
  exists p' l, psig fuel sr w sig p = Ret tt p' /\ words p' /\
    (forall j, 1 <= j <= 32 -> deliverable p' j = false) /\
    frames p' = frames p ++ l /\ ascending l /\ (forall f, f ∈ l -> sig <= sf_signum f) /\
    (exists f, head l = Some f /\ sf_signum f = sig /\
       sf_handler f = (if handler_of p sig =? SIG_DFL then SigExit else Handler (handler_of p sig))).
Proof.
  induction fuel as [|fuel IH]; intros sr w sig p Hw Hm Hs Hlow Hf; [lia|].
  cbn [psig]. rewrite (proj2 (Z.eqb_neq sig (-1))) by lia.
  destruct (psig_one_spec sig p Hw Hs) as (p1 & -> & Hdl). cbn [obind].
  destruct (cursig_spec sr w p1 (dl_words _ _ _ Hdl)) as (r & ps & -> & Hpost).
  { by rewrite (dl_state _ _ _ Hdl). }
  cbn [obind fst snd]. destruct Hpost as (H1 & H2 & H3 & H4).
  destruct (dl_frame _ _ _ Hdl) as (f & Hfr & Hfs & Hfh).
  set (p2 := set_p_sig p1 ps).
  assert (Hw2 : words p2) by (apply words_drop; [apply Hdl|done]).
  assert (Hav2 : forall i, 0 <= i -> Z.testbit (avail p2) i =
    Z.testbit (avail p1) i && negb ((r =? 0) || (i <? r - 1))).
  { intros i Hi. pose proof (avail_bit p1 i Hi) as Ha1. unfold p2. rewrite avail_bit by done. simpl.
    rewrite H4, Ha1 by done.
    destruct (Z.testbit (p_sig p1) i), (Z.testbit (p_sigmask p1) i), (bset (p_flag p1) SVFORK && Z.testbit stopsigmask i),
      ((r =? 0) || (i <? r - 1)); done. }
  destruct (Z.eqb_spec r 0) as [Hr0|Hr0].
  - exists p2, [f]. split; [done|]. split; [done|]. split; [|split; [done|]].
    + intros j Hj. unfold deliverable. rewrite Hav2 by lia. by rewrite andb_false_r.
    + split; [|split].
      * intros i j f1 f2 Hij Hi Hj. apply lookup_lt_Some in Hj. simpl in Hj. lia.
      * intros g Hg%list_elem_of_singleton. subst. lia.
      * exists f. done.
  - destruct H1 as [?|[Hr Hdel]]; [done|].
    assert (Hrs : sig < r).
    { unfold deliverable in Hdel. apply andb_true_iff in Hdel as [Hdel _].
      apply andb_true_iff in Hdel as [Hdel _]. apply (dl_avail _ _ _ Hdl) in Hdel as [Ha Hne]; [|lia].
      destruct (Z_lt_le_dec sig r); [done|]. rewrite Hlow in Ha by lia. done. }
    destruct (IH sr w r p2) as (p' & l & -> & Hw' & Hnd & Hl & Hasc & Hge & _); try done; try lia.
    { unfold p2. simpl. by rewrite (dl_state _ _ _ Hdl). }
    { intros j Hj. rewrite Hav2 by lia. rewrite (proj2 (Z.ltb_lt _ _)) by lia.
      by rewrite orb_true_r, andb_false_r. }
    exists p', (f :: l). split; [done|]. split; [done|]. split; [done|]. split; [|split; [|split]].
    + rewrite Hl. unfold p2. simpl. rewrite Hfr. by rewrite <- app_assoc.
    + intros [|i] [|j] f1 f2 Hij Hi Hj; simpl in *; try lia.
      * injection Hi as <-. apply list_elem_of_lookup_2 in Hj. apply Hge in Hj. lia.
      * apply (Hasc i j f1 f2); [lia|done|done].
    + intros g Hg%elem_of_cons. destruct Hg as [->|Hg]; [lia|]. apply Hge in Hg. lia.
    + exists f. done.
Qed.
