(* ===== verification/SignalsInv.v ===== *)
(** * Signals: the invariant of the signal state

    SIGKILL and SIGSTOP are never blocked, ignored or caught, and a pending
    SIGCONT excludes pending stop signals; every call of kern_sig.c keeps that
    for a process that is not traced. *)

From S2P Require Import Prelude Signals SignalsIssig.

Definition no_cant (m : Z) : Prop := Z.testbit m 8 = false /\ Z.testbit m 16 = false.

(** Not both SIGCONT and a stop signal are pending. *)
Definition cont_or_stop (m : Z) : Prop :=
  Z.testbit m 18 = true -> forall i, 0 <= i -> Z.testbit stopsigmask i = true -> Z.testbit m i = false.

Record sig_wf (p : user) : Prop := {
  wf_words : words p;
  wf_state : u_mask_state p = 0;
  wf_mask : no_cant (p_sigmask p);
  wf_ignore : no_cant (p_sigignore p);
  wf_catch : no_cant (p_sigcatch p);
  wf_old : no_cant (u_oldmask p);
  wf_masks : Forall no_cant (u_sigmask p);
  wf_kill : handler_of p SIGKILL = SIG_DFL;
  wf_stop : handler_of p SIGSTOP = SIG_DFL;
  wf_cont : cont_or_stop (p_sig p)
}.

Lemma stop_bit i : Z.testbit stopsigmask i = (i =? 16) || (i =? 17) || (i =? 20) || (i =? 21).
Proof.
  destruct (Z_lt_le_dec i 0) as [Hn|Hn].
  { rewrite Z.testbit_neg_r by done. repeat (rewrite (proj2 (Z.eqb_neq i _)) by lia). done. }
  unfold stopsigmask, ttystopsigmask. rewrite !Z.lor_spec.
  rewrite !testbit_sigmask by (unfold SIGSTOP, SIGTSTP, SIGTTIN, SIGTTOU; lia). 
  unfold SIGSTOP, SIGTSTP, SIGTTIN, SIGTTOU. simpl. by rewrite !orb_assoc.
Qed.

Lemma no_cant_bclr m b : no_cant m -> no_cant (bclr m b).
Proof. intros [H1 H2]. split; rewrite testbit_bclr by lia; by rewrite ?H1, ?H2. Qed.

Lemma no_cant_clear m : no_cant (bclr m sigcantmask).
Proof.
  split; rewrite testbit_bclr by lia; unfold sigcantmask; rewrite Z.lor_spec, !testbit_sigmask by (vm_compute; done);
    by rewrite ?andb_false_r.
Qed.

Lemma no_cant_lor a b : no_cant a -> no_cant b -> no_cant (Z.lor a b).
Proof. intros [] []. split; rewrite Z.lor_spec; by apply orb_false_iff. Qed.

Lemma no_cant_sigmask sig : 1 <= sig -> sig <> SIGKILL -> sig <> SIGSTOP -> no_cant (sigmask sig).
Proof.
  unfold SIGKILL, SIGSTOP. intros H1 H2 H3.
  split; rewrite testbit_sigmask by lia; apply Z.eqb_neq; lia.
Qed.

Lemma no_cant_flag_if c m b : no_cant m -> no_cant b -> no_cant (flag_if c m b).
Proof. intros. unfold flag_if. case_match; [by apply no_cant_lor|by apply no_cant_bclr]. Qed.

Lemma cont_or_stop_sub m m' :
  cont_or_stop m -> (forall i, 0 <= i -> Z.testbit m' i = true -> Z.testbit m i = true) -> cont_or_stop m'.
Proof.
  intros Hm Hsub Hc i Hi Hs. destruct (Z.testbit m' i) eqn:E; [|done].
  apply Hsub in Hc; [|lia]. apply Hsub in E; [|done]. by rewrite (Hm Hc i Hi Hs) in E.
Qed.

Lemma cont_or_stop_bclr m b : cont_or_stop m -> cont_or_stop (bclr m b).
Proof.
  intros H. eapply cont_or_stop_sub; [done|]. intros i Hi. rewrite testbit_bclr by done.
  by intros [? _]%andb_true_iff.
Qed.

#[export] Hint Resolve no_cant_bclr no_cant_clear no_cant_lor no_cant_sigmask no_cant_flag_if
  cont_or_stop_bclr : bits.

(** ** Frames: calls that touch none of the fields of the invariant *)

Lemma wf_same p p' :
  sig_wf p -> u_signal p' = u_signal p -> u_sigmask p' = u_sigmask p -> p_sig p' = p_sig p ->
  p_sigmask p' = p_sigmask p -> p_sigignore p' = p_sigignore p -> p_sigcatch p' = p_sigcatch p ->
  u_oldmask p' = u_oldmask p -> untraced p' -> u_mask_state p' = u_mask_state p -> sig_wf p'.
Proof.
  intros [[] ] E1 E2 E3 E4 E5 E6 E7 E8 E9. unfold handler_of in *.
  split; unfold handler_of; rewrite ?E1, ?E2, ?E3, ?E4, ?E5, ?E6, ?E7, ?E9; try done.
  split; rewrite ?E1, ?E2, ?E3; done.
Qed.

Lemma setrun_wf ext p : sig_wf p -> sig_wf (setrun ext p).
Proof.
  intros H. eapply (wf_same p); try done; unfold setrun;
    repeat case_match; try done; apply (w_untraced _ (wf_words _ H)).
Qed.

Lemma wf_set_sig p v : sig_wf p -> is_word v -> cont_or_stop v -> sig_wf (set_p_sig p v).
Proof. intros [[]] Hv Hc. split; try done. Qed.

Lemma wf_set_mask p v : sig_wf p -> no_cant v -> sig_wf (set_p_sigmask p v).
Proof. intros [[]] Hv. split; try done. Qed.

(** Posting a pending bit. *)
Lemma post_signal_wf ext sig action p :
  sig_wf p -> 1 <= sig <= 32 -> sig_wf (post_signal ext sig action p).
Proof.
  intros Hw Hs. unfold post_signal.
  set (p1 := if sig =? SIGCONT then _ else _).
  assert (H1 : sig_wf p1 /\ (sig = SIGCONT -> forall i, 0 <= i -> Z.testbit stopsigmask i = true ->
      Z.testbit (p_sig p1) i = false) /\
    (Z.testbit stopsigmask (sig - 1) = true -> Z.testbit (p_sig p1) 18 = false)).
  { unfold p1. destruct (Z.eqb_spec sig SIGCONT) as [->|Hne].
    - split; [apply wf_set_sig; [done|apply bclr_word, Hw|apply cont_or_stop_bclr, Hw]|].
      split; [|by vm_compute]. intros _ i Hi Hb. simpl. rewrite testbit_bclr by done.
      by rewrite Hb, andb_false_r.
    - destruct ((sig =? SIGTSTP) || (sig =? SIGTTIN) || (sig =? SIGTTOU) || (sig =? SIGSTOP)) eqn:Hst.
      + split; [apply wf_set_sig; [done|apply bclr_word, Hw|apply cont_or_stop_bclr, Hw]|].
        split; [done|]. intros _. cbn [p_sig set_p_sig]. rewrite testbit_bclr by lia.
        rewrite testbit_sigmask by (vm_compute; done). by rewrite andb_false_r.
      + split; [done|]. split; [done|]. rewrite stop_bit. unfold SIGTSTP, SIGTTIN, SIGTTOU, SIGSTOP in Hst.
        intros Hb. exfalso. revert Hst Hb. rewrite !orb_false_iff, !orb_true_iff, !Z.eqb_neq, !Z.eqb_eq. lia. }
  clearbody p1. destruct H1 as (Hw1 & Hc1 & Hs1). set (p2 := set_p_sig p1 _).
  assert (Hw2 : sig_wf p2).
  { apply wf_set_sig; [done|apply lor_word; [apply Hw1|by apply sigmask_word]|].
    intros Hc i Hi Hb. rewrite Z.lor_spec, testbit_sigmask in Hc |- * by lia.
    destruct (Z.eqb_spec i (sig - 1)) as [->|Hne].
    - exfalso. rewrite Hs1 in Hc by done. rewrite orb_false_l in Hc. apply Z.eqb_eq in Hc.
      rewrite stop_bit, <- Hc in Hb. done.
    - rewrite orb_false_r. destruct (Z.eqb_spec 18 (sig - 1)) as [E|E].
      + apply Hc1; [unfold SIGCONT; lia|done|done].
      + rewrite orb_false_r in Hc. by apply (wf_cont _ Hw1). }
  case_match; [done|]. case_match; [done|]. by apply setrun_wf.
Qed.

Lemma convert_trap_wf sig p :
  sig_wf p -> 1 <= sig <= 32 ->
  sig_wf (snd (convert_trap sig p)) /\ 1 <= fst (convert_trap sig p) <= 32.
Proof.
  intros Hw Hs. unfold convert_trap. destruct (_ && _); [|done]. simpl. split; [|unfold SIGILL; lia].
  destruct Hw as [[]]. split; simpl; auto with bits. by split.
Qed.

Lemma psignal_wf ext sig p : sig_wf p -> 1 <= sig <= 32 -> sig_wf (psignal ext sig p).
Proof.
  intros Hw Hs. unfold psignal. rewrite (w_untraced _ (wf_words _ Hw)).
  destruct (convert_trap sig p) as [sig' p'] eqn:E. pose proof (convert_trap_wf sig p Hw Hs) as [H1 H2].
  rewrite E in H1, H2. simpl in H1, H2. case_match; [done|]. by apply post_signal_wf.
Qed.

Lemma setsigvec_wf sig sa p r p' :
  sig_wf p -> bad_signal sig = false -> setsigvec sig sa p = Ret r p' -> sig_wf p'.
Proof.
  intros Hw Hbad. unfold bad_signal in Hbad. rewrite !orb_false_iff in Hbad.
  destruct Hbad as (((H1 & H2) & H3) & H4). apply Z.leb_gt in H1, H2. apply Z.eqb_neq in H3, H4.
  unfold setsigvec. destruct (aget (u_signal p) sig) as [h|] eqn:Hh; [|done].
  destruct (aget (u_sigmask p) sig) as [m|]; [|done].
  assert (Hb : no_cant (sigmask sig)) by (apply no_cant_sigmask; [lia|done|done]).
  assert (Hhand : forall k, k <> sig -> default 0 (aget (aput (u_signal p) sig (sa_handler sa)) k) = handler_of p k).
  { intros k Hk. unfold handler_of. by rewrite aget_aput_ne. }
  assert (Hmasks : Forall no_cant (aput (u_sigmask p) sig (bclr (sa_mask sa) sigcantmask))).
  { apply Forall_aput; [apply Hw|]. auto with bits. }
  assert (Hfl : forall c, bset (flag_if c (p_flag p) SNOCLDSTOP) STRC = bset (p_flag p) STRC).
  { intros []; simpl; [|by apply (bset_bclr_ne _ STRC SNOCLDSTOP 4)].
    change STRC with (2 ^ 4). rewrite !bset_pow2, Z.lor_spec by lia. by rewrite orb_false_r. }
  destruct Hw as [[] ]. unfold handler_of in *. simpl.
  assert (Hflag : forall q : user, p_flag q = (if sig =? SIGCHLD
      then flag_if (bset (sa_flags sa) SA_NOCLDSTOP) (p_flag p) SNOCLDSTOP else p_flag p) -> untraced q).
  { intros q Hq. unfold untraced. rewrite Hq. destruct (sig =? SIGCHLD); [by rewrite Hfl|done]. }
  destruct ((sa_handler sa =? SIG_IGN) || (bset (sigmask sig) defaultignmask && (sa_handler sa =? SIG_DFL)));
    intros [_ <-]%Ret_inj; destruct (sig =? SIGCHLD) eqn:Echld; try destruct (sig =? SIGCONT) eqn:Econt;
    (split; unfold handler_of; simpl; rewrite ?Hhand by congruence; auto with bits;
     split; simpl; rewrite ?aput_length; auto with bits; apply Hflag; simpl; by rewrite ?Echld).
Qed.

(** ** Delivery *)

Lemma wf_post p r ps : sig_wf p -> issig_post p r ps -> sig_wf (set_p_sig p ps).
Proof.
  intros Hw (_ & _ & Hps & Hbits). apply wf_set_sig; [done|done|].
  eapply cont_or_stop_sub; [apply Hw|]. intros i Hi. rewrite Hbits by done.
  by intros [? _]%andb_true_iff.
Qed.

Lemma cursig_wf sr w p :
  sig_wf p -> exists r ps, CURSIG sr w p = Ret (r, w) (set_p_sig p ps) /\
    sig_wf (set_p_sig p ps) /\ issig_post p r ps.
Proof.
  intros Hw. destruct (cursig_spec sr w p (wf_words _ Hw) (wf_state _ Hw)) as (r & ps & Heq & Hp).
  exists r, ps. split; [done|]. split; [by eapply wf_post|done].
Qed.

Lemma sendsig_wf p c sig mask code addr : sig_wf p -> sig_wf (sendsig p c sig mask code addr).
Proof.
  intros Hw. destruct (sendsig_fields p c sig mask code addr)
    as (F1 & F2 & F3 & F4 & F5 & F6 & F7 & F8 & _ & F9 & _).
  eapply (wf_same p); try done. unfold untraced. rewrite F7. apply Hw.
Qed.

Lemma psig_one_wf sig p r p' :
  sig_wf p -> 1 <= sig <= 32 -> psig_one sig p = Ret r p' -> sig_wf p'.
Proof.
  intros Hw Hs. unfold psig_one. cbn [u_signal set_p_sig].
  rewrite (handler_get p sig (w_len _ (wf_words _ Hw)) Hs). cbn [u_sigmask set_p_sig].
  set (p1 := set_p_sig p _). assert (Hw1 : sig_wf p1).
  { apply wf_set_sig; [done|apply bclr_word, Hw|apply cont_or_stop_bclr, Hw]. }
  destruct (negb (handler_of p sig =? SIG_DFL)) eqn:Hd.
  - destruct (aget (u_sigmask p) sig) as [m|] eqn:Hm; [|done].
    assert (Hnm : no_cant (Z.lor m (sigmask sig))).
    { apply no_cant_lor; [by eapply Forall_aget; [apply Hw|]|]. apply negb_true_iff, Z.eqb_neq in Hd.
      apply no_cant_sigmask; [lia|..]; intros ->; apply Hd; apply Hw. }
    set (rp := if bset (p_flag p1) SOMASK then _ else _).
    assert (Hw2 : sig_wf (snd rp)).
    { unfold rp. destruct (bset (p_flag p1) SOMASK); [|done]. eapply (wf_same p1); try done.
      unfold untraced. cbn [p_flag set_p_flag snd]. rewrite (bset_bclr_ne _ STRC SOMASK 4) by done. apply Hw1. }
    destruct rp as [rm p2]. simpl in Hw2.
    set (p3 := set_ru_nsignals _ _). assert (Hw3 : sig_wf p3).
    { eapply (wf_same (set_p_sigmask p2 (Z.lor (p_sigmask p2) (Z.lor m (sigmask sig))))); try done; [|apply Hw2].
      apply wf_set_mask; [done|]. apply no_cant_lor; [apply Hw2|done]. }
    set (cp := if negb (u_sig p3 =? sig) then _ else _).
    assert (Hw4 : sig_wf (snd cp)).
    { unfold cp. destruct (negb (u_sig p3 =? sig)); [done|]. eapply (wf_same p3); try done. apply Hw3. }
    destruct cp as [code p4]. intros [_ <-]%Ret_inj. by apply sendsig_wf.
  - intros [_ <-]%Ret_inj. apply sendsig_wf. destruct (core_sig sig); [|done].
    eapply (wf_same p1); try done. apply Hw1.
Qed.

Lemma psig_wf fuel : forall sr w sig p p',
  sig_wf p -> 1 <= sig <= 32 -> psig fuel sr w sig p = Ret tt p' -> sig_wf p'.
Proof.
  induction fuel as [|fuel IH]; intros sr w sig p p' Hw Hs; cbn [psig];
    rewrite (proj2 (Z.eqb_neq sig (-1))) by lia; [done|]. intros H.
  apply obind_Ret_inv in H as (u & p1 & H1 & H). pose proof (psig_one_wf _ _ _ _ Hw Hs H1) as Hw1.
  destruct (cursig_wf sr w p1 Hw1) as (r & ps & Heq & Hw2 & Hp). rewrite Heq in H.
  cbn [obind fst snd] in H. destruct (Z.eqb_spec r 0).
  - by apply Ret_inj in H as [_ <-].
  - destruct Hp as [[?|[? _]] _]; [done|]. by eapply IH.
Qed.

Lemma run_if_signal_wf ext sr w p :
  sig_wf p -> exists p', run_if_signal ext sr w p = Ret w p' /\ sig_wf p'.
Proof.
  intros Hw. unfold run_if_signal. destruct (cursig_wf sr w p Hw) as (r & ps & -> & Hw1 & _).
  cbn [obind fst snd]. eexists. split; [done|]. case_match; [done|]. by apply setrun_wf.
Qed.

(** ** The calls as a step relation

    While [sigsuspend] sleeps, only signals arrive. *)
Definition arrivals (l : list (Z * list Z)) : schedule :=
  map (fun x => (fst x, fun q => fold_left (fun q s => psignal true s q) (snd x) q)) l.

Definition good_arrivals (l : list (Z * list Z)) : Prop :=
  Forall (fun x => Forall (fun s => 1 <= s <= 32) (snd x)) l.

Inductive sig_step : user -> user -> Prop :=
| step_sigaction sig nsa get r p p' : sigaction sig nsa get p = Ret r p' -> sig_step p p'
| step_sigvec sig nsv get r p p' : sigvec sig nsv get p = Ret r p' -> sig_step p p'
| step_sigprocmask ext sr how mask r p p' :
    sigprocmask ext sr [] how mask p = Ret r p' -> sig_step p p'
| step_sigblock mask p : sig_step p (snd (sigblock mask p))
| step_sigsetmask ext sr mask r p p' : sigsetmask ext sr [] mask p = Ret r p' -> sig_step p p'
| step_sigsuspend ext sr l mask r p p' :
    good_arrivals l -> sigsuspend ext sr (arrivals l) mask p = Ret r p' -> sig_step p p'
| step_psignal ext sig p : 1 <= sig <= 32 -> sig_step p (psignal ext sig p)
| step_trapsignal ext sig code addr r p p' :
    1 <= sig <= 32 -> trapsignal ext sig code addr p = Ret r p' -> sig_step p p'
| step_deliver sr fuel r p p1 p' :
    CURSIG sr [] p = Ret (r, []) p1 -> r <> 0 -> psig fuel sr [] r p1 = Ret tt p' -> sig_step p p'.

Lemma fold_psignal_wf l : forall p, Forall (fun s => 1 <= s <= 32) l -> sig_wf p ->
  sig_wf (fold_left (fun q s => psignal true s q) l p).
Proof.
  induction l as [|s l IH]; intros p Hl Hw; [done|]. apply Forall_cons in Hl as [Hs Hl]. simpl.
  apply IH; [done|]. by apply psignal_wf.
Qed.

Lemma sleep_wf l : forall p w p', good_arrivals l -> sig_wf p ->
  sleep_until_signal (arrivals l) p = Ret w p' -> sig_wf p'.
Proof.
  induction l as [|[res sigs] l IH]; intros p w p' Hl Hw; [done|].
  apply Forall_cons in Hl as [Hs Hl]. simpl. case_match.
  - apply IH; [done|]. by apply fold_psignal_wf.
  - intros [_ <-]%Ret_inj. by apply fold_psignal_wf.
Qed.

Lemma trapsignal_wf ext sig code addr p r p' :
  sig_wf p -> 1 <= sig <= 32 -> trapsignal ext sig code addr p = Ret r p' -> sig_wf p'.
Proof.
  intros Hw Hs. unfold trapsignal.
  destruct ((Z.land (p_flag p) STRC =? 0) && bset (p_sigcatch p) (sigmask sig)
            && (Z.land (p_sigmask p) (sigmask sig) =? 0)) eqn:Hc.
  - destruct (aget (u_signal p) sig) as [h|]; [|done].
    destruct (aget (u_sigmask p) sig) as [m|] eqn:Hm; [|done]. intros [_ <-]%Ret_inj.
    apply setrun_wf, wf_set_mask.
    + apply sendsig_wf. eapply (wf_same p); try done. apply Hw.
    + rewrite !andb_true_iff, bset_sigmask in Hc by lia. destruct Hc as [[_ Hc] _].
      destruct (sendsig_fields (set_ru_nsignals p (ru_nsignals p + 1)) (Handler h) sig
        (p_sigmask (set_ru_nsignals p (ru_nsignals p + 1))) code addr) as (_ & _ & _ & -> & _).
      apply no_cant_lor; [apply Hw|]. apply no_cant_lor; [by eapply Forall_aget; [apply Hw|]|].
      destruct (wf_catch _ Hw) as [H8 H16].
      apply no_cant_sigmask; [lia|..]; intros ->; [change (SIGKILL - 1) with 8 in Hc; by rewrite H8 in Hc|change (SIGSTOP - 1) with 16 in Hc; by rewrite H16 in Hc].
  - intros [_ <-]%Ret_inj. apply psignal_wf; [|done]. eapply (wf_same p); try done. apply Hw.
Qed.

Lemma wf_errno p e : sig_wf p -> sig_wf (set_u_errno p e).
Proof. intros Hw. eapply (wf_same p); try done. apply Hw. Qed.

Lemma sig_step_wf p p' : sig_step p p' -> sig_wf p -> sig_wf p'.
Proof.
  intros Hst Hw. destruct Hst as [sig nsa get r p p' H|sig nsv get r p p' H
    |ext sr how mask r p p' H|mask p|ext sr mask r p p' H|ext sr l mask r p p' Hl H
    |ext sig p Hs|ext sig code addr r p p' Hs H|sr fuel r p p1 p' H1 Hr H].
  - unfold sigaction in H. destruct (bad_signal sig) eqn:Hb; [apply Ret_inj in H as [_ <-]; by apply wf_errno|].
    destruct (aget (u_signal p) sig); [|done]. destruct (aget (u_sigmask p) sig); [|done].
    destruct nsa as [sa|]; [|by apply Ret_inj in H as [_ <-]].
    apply obind_Ret_inv in H as (? & p1 & H1 & [_ <-]%Ret_inj). by eapply setsigvec_wf.
  - unfold sigvec in H. destruct (bad_signal sig) eqn:Hb; [apply Ret_inj in H as [_ <-]; by apply wf_errno|].
    destruct (aget (u_signal p) sig); [|done]. destruct (aget (u_sigmask p) sig); [|done].
    destruct nsv as [sv|]; [|by apply Ret_inj in H as [_ <-]].
    apply obind_Ret_inv in H as (? & p1 & H1 & [_ <-]%Ret_inj). by eapply setsigvec_wf.
  - unfold sigprocmask in H. destruct mask as [m|].
    + set (new := if how =? SIG_BLOCK then _ else _) in H.
      assert (Hn : forall v, new = Some v -> no_cant v).
      { intros v. unfold new. destruct (how =? SIG_BLOCK); [intros [= <-]; apply no_cant_lor; [apply Hw|auto with bits]|].
        destruct (how =? SIG_UNBLOCK); [intros [= <-]; apply no_cant_bclr, Hw|].
        destruct (how =? SIG_SETMASK); [intros [= <-]; auto with bits|done]. }
      destruct new as [v|]; [|apply Ret_inj in H as [_ <-]; by apply wf_errno].
      destruct (run_if_signal_wf ext sr [] (set_p_sigmask p v)) as (p1 & Heq & Hw1); [by apply wf_set_mask; auto|].
      rewrite Heq in H. by apply Ret_inj in H as [_ <-].
    + destruct (run_if_signal_wf ext sr [] p Hw) as (p1 & Heq & Hw1).
      rewrite Heq in H. by apply Ret_inj in H as [_ <-].
  - simpl. apply wf_set_mask; [done|]. apply no_cant_lor; [apply Hw|auto with bits].
  - unfold sigsetmask in H.
    destruct (run_if_signal_wf ext sr [] (set_p_sigmask p (bclr mask sigcantmask))) as (p1 & Heq & Hw1);
      [apply wf_set_mask; auto with bits|]. rewrite Heq in H. by apply Ret_inj in H as [_ <-].
  - unfold sigsuspend in H. apply obind_Ret_inv in H as (w & p1 & H1 & H). apply sleep_wf in H1; [|done|].
    + set (p2 := set_p_sigmask _ _) in H. assert (Hw2 : sig_wf p2).
      { apply wf_set_mask; [by apply setrun_wf|]. apply (wf_old _ (setrun_wf ext _ H1)). }
      destruct (run_if_signal_wf ext sr w p2 Hw2) as (p3 & Heq & Hw3). rewrite Heq in H.
      apply Ret_inj in H as [_ <-]. by apply wf_errno.
    + apply wf_set_mask; [|auto with bits].
      assert (Hun : bset (Z.lor (p_flag p) SOMASK) STRC = false).
      { pose proof (w_untraced _ (wf_words _ Hw)) as Hu. unfold untraced in Hu.
        change STRC with (2 ^ 4) in *. rewrite bset_pow2 in Hu by lia.
        rewrite bset_pow2, Z.lor_spec, Hu by lia. done. }
      destruct Hw as [[] ]. by split.
  - by apply psignal_wf.
  - by eapply trapsignal_wf.
  - destruct (cursig_wf sr [] p Hw) as (r0 & ps & Heq & Hw1 & [[?|[? _]] _]); rewrite Heq in H1;
      apply Ret_inj in H1 as [[= <-] <-]; [done|]. by eapply psig_wf.
Qed.
