(* ===== verification/SignalsTheorems.v ===== *)
(** * Signals: the theorems

    The properties of library/kern_sig.c: the invariant on the reachable signal
    states, the choice and the delivery of signals, round trips of the calls
    that set actions and masks, and the processes a signal reaches. *)

From S2P Require Import Prelude Signals SignalsIssig SignalsInv.

(** ** Sample processes *)

Definition proc0 : user :=
  mkUser (replicate 33 0) (replicate 33 0) 0 0 0 0 0 0 0 0 SRUN 0 0 0 0 0 WNone 0 0 0 0 0 0 0 [] [].
Definition proc_init : user := siginit proc0.

Lemma proc_init_wf : sig_wf proc_init.
Proof.
  split; try (split; vm_compute; reflexivity); try (vm_compute; reflexivity).
  - split; try (vm_compute; reflexivity). split; vm_compute; congruence.
  - apply Forall_replicate. split; reflexivity.
  - intros H. vm_compute in H. discriminate H.
Qed.

(** C12. SIGKILL and SIGSTOP can not be blocked, ignored or caught: after any
    sequence of calls ([sigaction], [sigvec], [sigprocmask], [sigblock],
    [sigsetmask], [sigsuspend], arriving signals and traps, deliveries) neither
    is in the signal mask, in the sets of ignored and caught signals or in the
    mask of any handler, and both have the default action; and a pending
    SIGCONT excludes a pending stop signal. *)
Theorem kill_stop_uncatchable (p : user) :
  rtc sig_step proc_init p -> sig_wf p.
Proof.
  apply (rtc_ind_r sig_wf); [apply proc_init_wf|]. intros ? ? _ ? ?. by eapply sig_step_wf.
Qed.

Lemma kill_stop_uncatchable_witness :
  sig_wf (psignal true SIGCONT (snd (sigblock 0xffffffff proc_init))).
Proof.
  apply kill_stop_uncatchable. eapply rtc_l; [apply (step_sigblock 0xffffffff)|].
  apply rtc_once. apply step_psignal. unfold SIGCONT. lia.
Defined.

(** [issig] on a process that is not traced terminates and returns the
    lowest signal that is pending, not blocked, not ignored and has an effect
    (a handler, or a default action that is not to stop or to ignore), or 0
    when there is none; from the pending signals it removes exactly the
    unblocked ones below the result, which have no effect. *)
Theorem issig_lowest_deliverable (sr : bool) (w : schedule) (p : user) :
  words p -> u_mask_state p = 0 ->
  exists r ps, issig sr w p = Ret (r, w) (set_p_sig p ps) /\ issig_post p r ps.
Proof. apply issig_spec. Qed.

(** A process with a handler for SIGINT (2), and SIGINT and SIGTERM pending. *)
Definition proc_sig : user :=
  set_p_sigcatch (set_u_signal (set_p_sig proc_init (Z.lor (sigmask SIGINT) (sigmask SIGTERM)))
    (aput (replicate 33 0) SIGINT 1000)) (sigmask SIGINT).

Lemma proc_sig_words : words proc_sig.
Proof. split; try (vm_compute; reflexivity). split; vm_compute; congruence. Qed.

Lemma issig_lowest_deliverable_witness :
  exists r ps, issig false [] proc_sig = Ret (r, []) (set_p_sig proc_sig ps) /\ issig_post proc_sig r ps.
Proof. apply issig_lowest_deliverable; [apply proc_sig_words|reflexivity]. Defined.

(** [psig] terminates, pushes the frames of the signals it delivers in
    increasing order of their numbers (for the default action the frame that
    exits), starting with the given signal, and leaves no deliverable signal
    pending. *)
Theorem psig_delivers_all (sr : bool) (w : schedule) (sig : Z) (p : user) :
  words p -> u_mask_state p = 0 -> 1 <= sig <= 32 ->
  (forall j, 0 <= j < sig - 1 -> Z.testbit (avail p) j = false) ->
  exists p' l, psig 33 sr w sig p = Ret tt p' /\ words p' /\
    (forall j, 1 <= j <= 32 -> deliverable p' j = false) /\
    frames p' = frames p ++ l /\ ascending l /\ (forall f, f ∈ l -> sig <= sf_signum f) /\
    (exists f, head l = Some f /\ sf_signum f = sig /\
       sf_handler f = (if handler_of p sig =? SIG_DFL then SigExit else Handler (handler_of p sig))).
Proof. intros. apply psig_loop_spec; try done. lia. Qed.

Lemma psig_delivers_all_witness :
  exists p' l, psig 33 false [] SIGINT proc_sig = Ret tt p' /\
    frames p' = l /\ ascending l /\ (exists f, head l = Some f /\ sf_handler f = Handler 1000).
Proof.
  destruct (psig_delivers_all false [] SIGINT proc_sig) as (p' & l & H1 & _ & _ & H2 & H3 & _ & f & H4 & _ & H5).
  - apply proc_sig_words.
  - reflexivity.
  - unfold SIGINT. lia.
  - intros j Hj. assert (j = 0) as -> by (unfold SIGINT in Hj; lia). vm_compute. reflexivity.
  - exists p', l. split; [exact H1|]. split; [exact H2|]. split; [exact H3|]. exists f.
    split; [exact H4|exact H5].
Defined.

(** ** SIGKILL *)

Lemma wf_avail_kill p : sig_wf p -> Z.testbit (p_sig p) 8 = true -> deliverable p SIGKILL = true.
Proof.
  intros Hw Hb. unfold deliverable. change (SIGKILL - 1) with 8.
  rewrite avail_bit by lia. rewrite Hb, (proj1 (wf_mask _ Hw)), (proj1 (wf_ignore _ Hw)), (wf_kill _ Hw).
  rewrite stop_bit. by destruct (bset (p_flag p) SVFORK).
Qed.

Lemma setrun_sig ext p : p_sig (setrun ext p) = p_sig p.
Proof. unfold setrun. by repeat case_match. Qed.

Lemma psig_one_sig sig p r p' : psig_one sig p = Ret r p' -> p_sig p' = bclr (p_sig p) (sigmask sig).
Proof.
  unfold psig_one. cbn [u_signal set_p_sig]. destruct (aget (u_signal p) sig) as [h|]; [|done].
  destruct (negb (h =? SIG_DFL)).
  - destruct (aget _ sig); [|done]. destruct (bset _ SOMASK); destruct (negb _); intros [_ <-]%Ret_inj;
      match goal with |- p_sig (sendsig ?q ?c ?a ?b ?d ?e) = _ => by destruct (sendsig_fields q c a b d e) as (_ & _ & -> & _) end.
  - destruct (core_sig sig); intros [_ <-]%Ret_inj;
      match goal with |- p_sig (sendsig ?q ?c ?a ?b ?d ?e) = _ => by destruct (sendsig_fields q c a b d e) as (_ & _ & -> & _) end.
Qed.

Lemma psig_frames fuel : forall sr w sig p p', sig_wf p -> 1 <= sig <= 32 -> psig fuel sr w sig p = Ret tt p' ->
  exists l, frames p' = frames p ++ l.
Proof.
  induction fuel as [|fuel IH]; intros sr w sig p p' Hw Hs; cbn [psig];
    rewrite (proj2 (Z.eqb_neq sig (-1))) by lia; [done|]. intros H.
  destruct (psig_one_spec sig p (wf_words _ Hw) Hs) as (p1 & E1 & Hdl). rewrite E1 in H. cbn [obind] in H.
  pose proof (psig_one_wf _ _ _ _ Hw Hs E1) as Hw1. destruct (dl_frame _ _ _ Hdl) as (f & Hfr & _).
  destruct (cursig_wf sr w p1 Hw1) as (r & ps & E2 & Hw2 & [[->|[Hr _]] _]); rewrite E2 in H; cbn [obind fst snd] in H.
  - apply Ret_inj in H as [_ <-]. by exists [f].
  - rewrite (proj2 (Z.eqb_neq r 0)) in H by lia. destruct (IH sr w r _ p' Hw2 Hr H) as [l Hl].
    exists (f :: l). rewrite Hl. cbn [frames set_p_sig]. by rewrite Hfr, <- app_assoc.
Qed.

(** While SIGKILL is pending the next look finds a signal numbered at most 9, and
    SIGKILL stays pending. *)
Lemma cursig_kill sr w p : sig_wf p -> Z.testbit (p_sig p) 8 = true ->
  exists r ps, CURSIG sr w p = Ret (r, w) (set_p_sig p ps) /\ sig_wf (set_p_sig p ps) /\
    issig_post p r ps /\ 1 <= r <= SIGKILL /\ deliverable p r = true /\ Z.testbit ps 8 = true.
Proof.
  intros Hw Hb. pose proof (wf_avail_kill p Hw Hb) as Hk.
  destruct (cursig_wf sr w p Hw) as (r & ps & Heq & Hw' & Hpost). exists r, ps. pose proof Hpost as (H1 & H2 & _ & H4).
  assert (1 <= r <= SIGKILL /\ deliverable p r = true) as [Hr Hd].
  { destruct H1 as [->|[H1 H1']]; [rewrite H2 in Hk; [done|unfold SIGKILL; lia|by left]|]. split; [|done].
    destruct (Z_lt_le_dec SIGKILL r); [|lia]. rewrite H2 in Hk; [done|unfold SIGKILL; lia|by right]. }
  split_and!; try done; try lia. rewrite H4, Hb by lia. unfold SIGKILL in Hr.
  rewrite (proj2 (Z.eqb_neq r 0)), (proj2 (Z.ltb_ge 8 (r - 1))) by lia. by rewrite andb_false_r.
Qed.

(** The frame that ends the process: psig has it run sig_exit with SIGKILL. *)
Definition kill_frame (f : frame) : Prop := sf_signum f = SIGKILL /\ sf_handler f = SigExit.

Lemma psig_kills fuel : forall sr w sig p p', sig_wf p -> 1 <= sig <= SIGKILL ->
  Z.testbit (p_sig p) 8 = true -> psig fuel sr w sig p = Ret tt p' ->
  exists f, kill_frame f /\ f ∈ drop (length (frames p)) (frames p').
Proof.
  induction fuel as [|fuel IH]; intros sr w sig p p' Hw Hs Hb; cbn [psig];
    rewrite (proj2 (Z.eqb_neq sig (-1))) by lia; [done|]. intros H.
  assert (1 <= sig <= 32) as Hs32 by (unfold SIGKILL in Hs; lia).
  destruct (psig_one_spec sig p (wf_words _ Hw) Hs32) as (p1 & E1 & Hdl).
  rewrite E1 in H. cbn [obind] in H. pose proof (psig_one_wf _ _ _ _ Hw Hs32 E1) as Hw1.
  destruct (dl_frame _ _ _ Hdl) as (f & Hfr & Hfs & Hfh).
  destruct (cursig_wf sr w p1 Hw1) as (r & ps & E2 & Hw2 & Hpost). rewrite E2 in H. cbn [obind fst snd] in H.
  assert (forall q, frames p' = frames (set_p_sig p1 ps) ++ q -> f ∈ drop (length (frames p)) (frames p')) as Hf.
  { intros q ->. cbn [frames set_p_sig]. rewrite Hfr, <- app_assoc, drop_app_length. set_solver. }
  assert (exists q, frames p' = frames (set_p_sig p1 ps) ++ q) as [q Hq].
  { destruct (Z.eqb_spec r 0); [exists []; rewrite app_nil_r; by apply Ret_inj in H as [_ <-]|].
    destruct Hpost as [[?|[Hr _]] _]; [done|]. by apply (psig_frames fuel sr w r). }
  destruct (Z.eq_dec sig SIGKILL) as [->|Hne].
  { exists f. split; [|by apply (Hf q)]. split; [done|]. by rewrite Hfh, (wf_kill _ Hw). }
  assert (Z.testbit (p_sig p1) 8 = true) as Hb1.
  { rewrite (psig_one_sig _ _ _ _ E1), testbit_bclr, testbit_sigmask by lia. rewrite Hb. unfold SIGKILL in *.
    by rewrite (proj2 (Z.eqb_neq 8 (sig - 1))) by lia. }
  destruct (cursig_kill sr w p1 Hw1 Hb1) as (r' & ps' & E2' & _ & _ & Hr & _ & Hps). rewrite E2 in E2'.
  apply Ret_inj in E2' as [[= <-] Eps]. assert (ps = ps') as -> by exact (f_equal p_sig Eps).
  rewrite (proj2 (Z.eqb_neq r 0)) in H by lia.
  destruct (IH sr w r _ p' Hw2 Hr Hps H) as (g & Hg & Hin). exists g. split; [done|].
  cbn [frames set_p_sig] in Hin. rewrite Hfr, length_app, <- drop_drop in Hin. by eapply elem_of_drop_inv.
Qed.

(** C11. SIGKILL always gets through to a process that is not traced, whatever its
    masks and handlers are: it is pending right away, the next look for a signal finds
    one, numbered at most 9, and the delivery that follows ends with nothing deliverable
    left and has pushed, after those of the lower deliverable signals, the frame that
    ends the process (sig_exit with SIGKILL). *)
Theorem sigkill_is_delivered (ext sr : bool) (w : schedule) (p : user) :
  sig_wf p ->
  let p1 := psignal ext SIGKILL p in
  Z.testbit (p_sig p1) 8 = true /\
  exists r p2 p3, CURSIG sr w p1 = Ret (r, w) p2 /\ 1 <= r <= SIGKILL /\ deliverable p1 r = true /\
    psig 33 sr w r p2 = Ret tt p3 /\ (forall j, 1 <= j <= 32 -> deliverable p3 j = false) /\
    exists l f, frames p3 = frames p2 ++ l /\ f ∈ l /\ kill_frame f.
Proof.
  intros Hw p1. assert (Hw1 : sig_wf p1) by (apply psignal_wf; [done|unfold SIGKILL; lia]).
  assert (Hk : Z.testbit (p_sig p1) 8 = true).
  { unfold p1, psignal. rewrite (w_untraced _ (wf_words _ Hw)).
    assert (Hc : convert_trap SIGKILL p = (SIGKILL, p)).
    { unfold convert_trap. change (is_trap_sig SIGKILL) with false. by rewrite andb_false_r. }
    rewrite Hc. rewrite bset_sigmask by (unfold SIGKILL; lia). change (SIGKILL - 1) with 8.
    rewrite (proj1 (wf_ignore _ Hw)). unfold post_signal.
    change (SIGKILL =? SIGCONT) with false. cbn iota.
    change ((SIGKILL =? SIGTSTP) || (SIGKILL =? SIGTTIN) || (SIGKILL =? SIGTTOU) || (SIGKILL =? SIGSTOP)) with false.
    cbn iota. set (p2 := set_p_sig p _). assert (Hp2 : Z.testbit (p_sig p2) 8 = true).
    { unfold p2. cbn [p_sig set_p_sig]. rewrite Z.lor_spec. by rewrite orb_true_r. }
    destruct (_ && _); [done|]. destruct (_ && _); [done|]. by rewrite setrun_sig. }
  split; [done|]. destruct (cursig_kill sr w p1 Hw1 Hk) as (r & ps & Heq & Hw2 & (_ & _ & _ & H4) & Hr & Hd & Hps).
  destruct (psig_loop_spec 33 sr w r _ (wf_words _ Hw2) (wf_state _ Hw2)) as (p3 & l & E3 & _ & Hn & Hl & _);
    [unfold SIGKILL in Hr; lia| |lia|].
  { intros j Hj. rewrite avail_bit by lia. cbn [p_sig p_sigmask p_flag set_p_sig]. rewrite H4 by lia.
    rewrite (proj2 (Z.ltb_lt j (r - 1))), orb_true_r, andb_true_r by lia. rewrite avail_bit by lia.
    by destruct (Z.testbit (p_sig p1) j), (Z.testbit (p_sigmask p1) j), (bset (p_flag p1) SVFORK && Z.testbit stopsigmask j). }
  destruct (psig_kills 33 sr w r _ p3 Hw2 Hr Hps E3) as (f & Hf & Hin). rewrite Hl, drop_app_length in Hin.
  exists r, (set_p_sig p1 ps), p3. split_and!; try done; try lia. by exists l, f.
Qed.

Lemma sigkill_is_delivered_witness :
  exists r p2 p3, CURSIG false [] (psignal true SIGKILL proc_init) = Ret (r, []) p2 /\ r <= SIGKILL /\
    psig 33 false [] r p2 = Ret tt p3 /\ exists f, f ∈ frames p3 /\ kill_frame f.
Proof.
  destruct (sigkill_is_delivered true false [] proc_init) as (_ & r & p2 & p3 & E & Hr & _ & E3 & _ & l & f & Hl & Hin & Hf);
    [apply proc_init_wf|].
  exists r, p2, p3. split; [exact E|]. split; [apply Hr|]. split; [exact E3|]. exists f. split; [|exact Hf].
  rewrite Hl. apply elem_of_app. by right.
Defined.

(** ** Setting and reading back *)

Lemma sigset_bit c m sig :
  1 <= sig -> bset (flag_if c m (sigmask sig)) (sigmask sig) = c.
Proof.
  intros Hs. rewrite bset_sigmask by done. unfold flag_if. destruct c.
  - rewrite Z.lor_spec, testbit_sigmask by lia. by rewrite Z.eqb_refl, orb_true_r.
  - rewrite testbit_bclr, testbit_sigmask by lia. by rewrite Z.eqb_refl, andb_false_r.
Qed.

(** The flags that [sigaction] reports for the action [sa]. *)
Definition reported_flags (sa : sigaction_t) (nocldstop : bool) : Z :=
  Z.lor (Z.lor (if bset (sa_flags sa) SA_ONSTACK then SA_ONSTACK else 0)
               (if bset (sa_flags sa) SA_RESTART then SA_RESTART else 0))
        (if nocldstop then SA_NOCLDSTOP else 0).

(** Round trip of [sigaction]: setting an action and reading it back gives
    the handler, the mask without SIGKILL and SIGSTOP, and the SA_ONSTACK and
    SA_RESTART flags; SA_NOCLDSTOP is reported from the flag of the process,
    which only a call for SIGCHLD sets, so it is reported for every signal. *)
Theorem sigaction_roundtrip (sig : Z) (sa : sigaction_t) (p : user) :
  words p -> bad_signal sig = false ->
  exists p', sigaction sig (Some sa) false p = Ret (0, None) p' /\
    sigaction sig None true p' =
      Ret (0, Some (mkSA (sa_handler sa) (bclr (sa_mask sa) sigcantmask)
        (reported_flags sa (if sig =? SIGCHLD then bset (sa_flags sa) SA_NOCLDSTOP
                            else bset (p_flag p) SNOCLDSTOP)))) p'.
Proof.
  intros Hw Hbad. pose proof Hbad as Hbad'. unfold bad_signal in Hbad'. rewrite !orb_false_iff in Hbad'.
  destruct Hbad' as (((H1 & H2) & _) & _). apply Z.leb_gt in H1, H2. unfold NSIG in H2.
  destruct (aget_is_Some (u_signal p) sig) as [h Hh]; [rewrite (w_len _ Hw); unfold NSIG; lia|].
  destruct (aget_is_Some (u_sigmask p) sig) as [m Hm]; [rewrite (w_len2 _ Hw); unfold NSIG; lia|].
  assert (Hset : exists p', setsigvec sig sa p = Ret tt p' /\
    u_signal p' = aput (u_signal p) sig (sa_handler sa) /\
    u_sigmask p' = aput (u_sigmask p) sig (bclr (sa_mask sa) sigcantmask) /\
    u_sigintr p' = flag_if (Z.land (sa_flags sa) SA_RESTART =? 0) (u_sigintr p) (sigmask sig) /\
    u_sigonstack p' = flag_if (bset (sa_flags sa) SA_ONSTACK) (u_sigonstack p) (sigmask sig) /\
    p_flag p' = if sig =? SIGCHLD then flag_if (bset (sa_flags sa) SA_NOCLDSTOP) (p_flag p) SNOCLDSTOP
                else p_flag p).
  { unfold setsigvec. rewrite Hh, Hm.
    destruct (_ || _); destruct (sig =? SIGCHLD); try destruct (sig =? SIGCONT);
      eexists; split; try reflexivity; done. }
  destruct Hset as (p' & Hset & E1 & E2 & E3 & E4 & E5). exists p'.
  unfold sigaction. rewrite Hbad, Hh, Hm, Hset. split; [done|].
  rewrite E1, E2, E3, E4, E5. rewrite (aget_aput_eq _ _ _ h), (aget_aput_eq _ _ _ m) by done.
  rewrite bset_land, !sigset_bit by lia. do 3 f_equal. unfold reported_flags.
  assert (Hnc : bset (if sig =? SIGCHLD then flag_if (bset (sa_flags sa) SA_NOCLDSTOP) (p_flag p) SNOCLDSTOP
      else p_flag p) SNOCLDSTOP =
    if sig =? SIGCHLD then bset (sa_flags sa) SA_NOCLDSTOP else bset (p_flag p) SNOCLDSTOP).
  { destruct (sig =? SIGCHLD); [|done]. change SNOCLDSTOP with (sigmask 8). by apply sigset_bit. }
  rewrite Hnc, bset_land, negb_involutive.
  generalize (if sig =? SIGCHLD then bset (sa_flags sa) SA_NOCLDSTOP else bset (p_flag p) SNOCLDSTOP).
  intros b. destruct b, (bset (sa_flags sa) SA_ONSTACK), (bset (sa_flags sa) SA_RESTART); reflexivity.
Qed.

Lemma sigaction_roundtrip_witness :
  exists p', sigaction SIGINT (Some (mkSA 1000 0xff SA_RESTART)) false proc_init = Ret (0, None) p' /\
    sigaction SIGINT None true p' =
      Ret (0, Some (mkSA 1000 (bclr 0xff sigcantmask) (reported_flags (mkSA 1000 0xff SA_RESTART)
        (if SIGINT =? SIGCHLD then bset SA_RESTART SA_NOCLDSTOP
         else bset (p_flag proc_init) SNOCLDSTOP)))) p'.
Proof.
  apply (sigaction_roundtrip SIGINT (mkSA 1000 0xff SA_RESTART)); [apply proc_init_wf|reflexivity].
Defined.

(** ** Masked trap signals *)

Lemma post_signal_u ext sig action p :
  u_signal (post_signal ext sig action p) = u_signal p /\
  u_sigmask (post_signal ext sig action p) = u_sigmask p.
Proof.
  unfold post_signal, setrun. repeat (case_match; try done).
Qed.

Lemma psig_one_frame sig p h :
  aget (u_signal p) sig = Some h -> h <> SIG_DFL -> is_Some (aget (u_sigmask p) sig) ->
  exists p' f, psig_one sig p = Ret tt p' /\ frames p' = frames p ++ [f] /\
    sf_handler f = Handler h /\ sf_signum f = sig.
Proof.
  intros Hh Hne [m Hm]. unfold psig_one. cbn [u_signal set_p_sig]. rewrite Hh.
  rewrite (proj2 (Z.eqb_neq h SIG_DFL)) by done. cbn [negb u_sigmask set_p_sig]. rewrite Hm.
  set (rp := if bset _ SOMASK then _ else _).
  assert (Hrp : frames (snd rp) = frames p) by (unfold rp; by case_match). destruct rp as [rm p2].
  set (cp := if negb _ then _ else _).
  assert (Hcp : frames (snd cp) = frames p) by (unfold cp; by case_match). destruct cp as [code p4].
  destruct (sendsig_fields p4 (Handler h) sig rm code 0)
    as (_ & _ & _ & _ & _ & _ & _ & _ & _ & _ & f & F1 & F2 & F3 & _).
  exists (sendsig p4 (Handler h) sig rm code 0), f. split; [done|]. simpl in Hcp. by rewrite F1, Hcp.
Qed.

(** A trap signal that is blocked is turned into SIGILL, which the comment
    in [_psignal] calls reset to the default action that exits; but only the
    set of caught signals is reset, and [psig] looks at the handler, so a
    program with a handler for SIGILL runs that handler instead of exiting. *)
Theorem masked_trap_runs_sigill_handler (ext : bool) (p : user) (h : Z) :
  untraced p -> bset (p_sigmask p) (sigmask SIGBUS) = true ->
  aget (u_signal p) SIGILL = Some h -> h <> SIG_DFL -> is_Some (aget (u_sigmask p) SIGILL) ->
  exists p' f, psig_one SIGILL (psignal ext SIGBUS p) = Ret tt p' /\
    frames p' = frames (psignal ext SIGBUS p) ++ [f] /\
    sf_handler f = Handler h /\ sf_signum f = SIGILL.
Proof.
  intros Hu Hm Hh Hne Hm2. apply psig_one_frame; [| |].
  - unfold psignal. rewrite Hu. unfold convert_trap.
    rewrite (bset_comm (sigmask SIGBUS) (p_sigmask p)), Hm, orb_true_r.
    change (is_trap_sig SIGBUS) with true. cbn [andb].
    case_match; [done|]. by rewrite (proj1 (post_signal_u _ _ _ _)).
  - done.
  - unfold psignal. rewrite Hu. unfold convert_trap.
    rewrite (bset_comm (sigmask SIGBUS) (p_sigmask p)), Hm, orb_true_r.
    change (is_trap_sig SIGBUS) with true. cbn [andb].
    case_match; [done|]. by rewrite (proj2 (post_signal_u _ _ _ _)).
Qed.

(** SIGBUS blocked, a handler for SIGILL. *)
Definition proc_bus : user :=
  set_p_sigcatch (set_u_signal (set_p_sigmask proc_init (sigmask SIGBUS))
    (aput (replicate 33 0) SIGILL 1000)) (sigmask SIGILL).

Lemma masked_trap_runs_sigill_handler_witness :
  exists p' f, psig_one SIGILL (psignal true SIGBUS proc_bus) = Ret tt p' /\
    frames p' = frames (psignal true SIGBUS proc_bus) ++ [f] /\
    sf_handler f = Handler 1000 /\ sf_signum f = SIGILL.
Proof.
  apply masked_trap_runs_sigill_handler; try reflexivity.
  - unfold SIG_DFL. lia.
  - exists 0. reflexivity.
Defined.

(** ** Finding processes *)

(** The search of [pfind] through the lists of waiting and ready tasks has
    no effect: a search that fails leaves the address of the tail node of
    the list, which is never null, so whatever the lists hold the result is
    decided by the node type and the library's own table. *)
Theorem pfind_ignores_task_lists (e : exec) (w : world) (p : Z) :
  wait_tail e <> 0 -> (forall n, n ∈ TaskWait e -> n <> 0) ->
  pfind e w p = pfind (mkExec [] (wait_tail e) [] (ready_tail e) (ln_Type e)) w p.
Proof.
  intros Ht Hn.
  assert (Hs : scan (TaskWait e) (wait_tail e) p <> 0).
  { clear -Ht Hn. induction (TaskWait e) as [|n l IH]; simpl; [done|].
    case_match; [apply Hn; set_solver|]. apply IH. intros; apply Hn; set_solver. }
  unfold pfind. cbn [TaskWait wait_tail TaskReady ready_tail scan]. cbv zeta.
  rewrite !(proj2 (Z.eqb_neq _ 0) Hs), !(proj2 (Z.eqb_neq _ 0) Ht). reflexivity.
Qed.

Lemma pfind_ignores_task_lists_witness :
  pfind (mkExec [100; 200] 8 [300] 16 (fun _ => NT_TASK)) (mkWorld {[ 400 := proc_init ]} 100 []) 400 =
  pfind (mkExec [] 8 [] 16 (fun _ => NT_TASK)) (mkWorld {[ 400 := proc_init ]} 100 []) 400.
Proof.
  apply (pfind_ignores_task_lists (mkExec [100; 200] 8 [300] 16 (fun _ => NT_TASK))); simpl; [lia|].
  intros n Hn. repeat (apply elem_of_cons in Hn as [->|Hn]; [lia|]). by apply elem_of_nil in Hn.
Defined.

(** ** Process groups *)

Lemma setrun_pgrp ext p : p_pgrp (setrun ext p) = p_pgrp p.
Proof. unfold setrun. by repeat case_match. Qed.

Lemma post_signal_pgrp ext sig action p : p_pgrp (post_signal ext sig action p) = p_pgrp p.
Proof.
  unfold post_signal. set (p1 := if sig =? SIGCONT then _ else _).
  assert (H1 : p_pgrp p1 = p_pgrp p) by (unfold p1; by repeat case_match).
  destruct (_ && _); [done|]. destruct (_ && _); [done|]. by rewrite setrun_pgrp.
Qed.

Lemma psignal_pgrp ext sig p : p_pgrp (psignal ext sig p) = p_pgrp p.
Proof.
  unfold psignal. destruct (bset (p_flag p) STRC); [apply post_signal_pgrp|].
  assert (Hc : p_pgrp (snd (convert_trap sig p)) = p_pgrp p) by (unfold convert_trap; by case_match).
  destruct (convert_trap sig p) as [s1 p1]. simpl in Hc. case_match; [done|]. by rewrite post_signal_pgrp.
Qed.

(** Every process is as it was, or belongs to the group and received signals. *)
Definition group_only (grp sig : Z) (w w' : world) : Prop :=
  this w' = this w /\ ctrl_c w' = ctrl_c w /\
  forall t, option_Forall2 (fun p p' => p_pgrp p' = p_pgrp p /\
    (p' = p \/ (p_pgrp p = grp /\ rtc (fun a b => exists x, b = psignal x sig a) p p')))
    (procs w !! t) (procs w' !! t).

#[export] Instance group_only_preorder grp sig : PreOrder (group_only grp sig).
Proof.
  split.
  - intros w. split; [done|]. split; [done|]. intros t.
    destruct (procs w !! t); constructor. split; [done|by left].
  - intros w1 w2 w3 (A1 & A2 & A3) (B1 & B2 & B3).
    split; [congruence|]. split; [congruence|]. intros t. specialize (A3 t). specialize (B3 t).
    destruct (procs w1 !! t), (procs w2 !! t), (procs w3 !! t); inversion A3; inversion B3; subst; constructor.
    destruct H1 as [E1 H1], H4 as [E2 H4]. split; [congruence|].
    destruct H1 as [->|[G1 R1]]; [done|]. right. split; [done|].
    destruct H4 as [->|[_ R2]]; [done|]. by etrans.
Qed.

Lemma psignal_w_group ext t sig w w' p grp :
  procs w !! t = Some p -> p_pgrp p = grp -> psignal_w ext t sig w = Ret tt w' -> group_only grp sig w w'.
Proof.
  intros Hp Hg. unfold psignal_w. rewrite Hp. intros [_ <-]%Ret_inj.
  split; [done|]. split; [done|]. intros k. simpl. destruct (decide (k = t)) as [->|Hne].
  - rewrite lookup_insert_eq, Hp. constructor. split; [apply psignal_pgrp|right].
    split; [done|]. apply rtc_once. by exists (ext t).
  - rewrite lookup_insert_ne by done. destruct (procs w !! k); constructor. split; [done|by left].
Qed.

Lemma grp_signal_group fuel : forall ext grp sig p w w',
  grp_signal fuel ext grp sig p w = Ret tt w' -> group_only grp sig w w'.
Proof.
  induction fuel as [|fuel IH]; intros ext grp sig p w w'; cbn [grp_signal].
  { destruct (p =? 0); [|done]. by intros [_ <-]%Ret_inj. }
  destruct (p =? 0); [by intros [_ <-]%Ret_inj|].
  destruct (procs w !! p) as [u|]; [|done]. intros H.
  apply obind_Ret_inv in H as ([] & w1 & H1 & H). apply IH in H1.
  destruct (procs w1 !! p) as [u1|] eqn:Hu1; [|done].
  apply obind_Ret_inv in H as ([] & w2 & H2 & H).
  destruct (procs w2 !! p) as [u2|]; [|done]. apply IH in H.
  transitivity w1; [done|]. transitivity w2; [|done].
  destruct (Z.eqb_spec (p_pgrp u1) grp) as [E|E]; [by eapply psignal_w_group|].
  by apply Ret_inj in H2 as [_ <-].
Qed.

Lemma grp_top_same fuel : forall ok p w r w', grp_top fuel ok p w = Ret r w' -> w' = w.
Proof.
  induction fuel as [|fuel IH]; intros ok p w r w'; cbn [grp_top]; destruct (_ || _); try done;
    try (by intros [_ <-]%Ret_inj).
  destruct (procs w !! p); [apply IH|by intros [_ <-]%Ret_inj].
Qed.

Lemma grp_known_same fuel : forall p w r w', grp_known fuel p w = Ret r w' -> w' = w.
Proof.
  induction fuel as [|fuel IH]; intros p w r w'; cbn [grp_known]; destruct (p =? 0); try done;
    try (by intros [_ <-]%Ret_inj).
  destruct (procs w !! p) as [u|]; [|by intros [_ <-]%Ret_inj]. intros H.
  apply obind_Ret_inv in H as (b & w1 & ->%IH & H). destruct b; [by apply IH in H|by apply Ret_inj in H as [_ <-]].
Qed.

Lemma psignalgrp_group (fuel : nat) (ext : Z -> bool) (proc sig : Z) (w w' : world) (u : user) :
  procs w !! proc = Some u -> psignalgrp fuel ext proc sig w = Ret tt w' ->
  group_only (p_pgrp u) sig w w'.
Proof.
  intros Hu. unfold psignalgrp. destruct (proc =? 0); [by intros [_ <-]%Ret_inj|]. rewrite Hu. intros H.
  apply obind_Ret_inv in H as (top & w1 & ->%grp_top_same & H).
  destruct top as [ok|]; [|by apply Ret_inj in H as [_ <-]].
  destruct (procs w !! ok) as [uo|]; [|done].
  apply obind_Ret_inv in H as (b & w1 & ->%grp_known_same & H).
  destruct b; [|by apply Ret_inj in H as [_ <-]].
  apply obind_Ret_inv in H as ([] & w1 & H1%grp_signal_group & H).
  destruct (procs w1 !! ok) as [u1|] eqn:Hu1; [|done]. transitivity w1; [done|].
  destruct (Z.eqb_spec (p_pgrp u1) (p_pgrp u)); [by eapply psignal_w_group|by apply Ret_inj in H as [_ <-]].
Qed.

(** [_psignalgrp] reaches only the process group of the given process:
    every other process of the tree is unchanged, and a member of the group
    has received nothing but this signal. *)
Theorem psignalgrp_only_group (fuel : nat) (ext : Z -> bool) (proc sig : Z) (w w' : world) (u : user) :
  procs w !! proc = Some u -> psignalgrp fuel ext proc sig w = Ret tt w' ->
  group_only (p_pgrp u) sig w w'.
Proof. apply psignalgrp_group. Qed.

Definition tree_proc (grp parent child sibling : Z) : user :=
  mkUser (replicate 33 0) (replicate 33 0) 0 0 0 0 0 0 0 0 SRUN 0 0 0 0 0 WNone 0 0 0 grp parent child sibling [] [].

(** A parent (10) with two children (12, 14), the younger in another group. *)
Definition tree_world : world :=
  mkWorld (<[10 := tree_proc 5 0 14 0]> (<[12 := tree_proc 5 10 0 0]> {[14 := tree_proc 6 10 0 12]})) 10 [].

Definition tree_after : world :=
  match psignalgrp 10 (fun _ => true) 12 SIGINT tree_world with Ret _ w => w | _ => tree_world end.

Lemma psignalgrp_only_group_witness : group_only 5 SIGINT tree_world tree_after.
Proof.
  apply (psignalgrp_only_group 10 (fun _ => true) 12 SIGINT tree_world tree_after (tree_proc 5 10 0 0)).
  - reflexivity.
  - vm_compute. reflexivity.
Defined.
