(* ===== verification/Ixlist.v ===== *)
(** * Word memory and the doubly linked lists of library/list.c

    The memory of the library as 32-bit words at their addresses; every access
    the modelled code makes is to an aligned word, so two accesses touch the
    same word exactly when their addresses are equal.  A [struct ixlist] at
    address [l] is the words [l] (head) and [l + 4] (tail); a [struct ixnode]
    at [n] is the words [n] (next) and [n + 4] (prev); NULL is 0.

    [dll m l ns] says that in [m] the list at [l] links exactly the nodes [ns]
    in order, both ways; each operation of list.c is proved against the list
    operation it stands for. *)

From S2P Require Import Prelude.

(** ** Memory *)

Notation mem := (gmap Z Z) (only parsing).
Definition ld (m : mem) (a : Z) : Z := default 0 (m !! a).
Definition st (m : mem) (a v : Z) : mem := <[a := v]> m.

Lemma ld_st_eq m a v : ld (st m a v) a = v.
Proof. unfold ld, st. by rewrite lookup_insert_eq. Qed.

Lemma ld_st_ne m a b v : a <> b -> ld (st m a v) b = ld m b.
Proof. intros H. unfold ld, st. by rewrite lookup_insert_ne. Qed.

(** Rewrites every [ld (st ..) ..] whose addresses [lia] can compare. *)
Ltac ldst :=
  repeat first [rewrite ld_st_eq | rewrite ld_st_ne by lia].

Module Ixlist.

(** ** library/list.c *)

(** Offsets of struct ixlist and struct ixnode (include/user.h). *)
Definition l_head (l : Z) : Z := l.
Definition l_tail (l : Z) : Z := l + 4.
Definition n_next (n : Z) : Z := n.
Definition n_prev (n : Z) : Z := n + 4.

Definition ixnewlist (m : mem) (l : Z) : mem :=
  st (st m (l_tail l) 0) (l_head l) 0.

Definition ixinsert (m : mem) (l n after : Z) : mem :=
  if negb (l =? 0) && negb (n =? 0) then
    let m1 :=
      if negb (after =? 0) then
        let m := st m (n_prev n) after in
        let m := st m (n_next n) (ld m (n_next after)) in
        st m (n_next after) n
      else
        let m := st m (n_next n) (ld m (l_head l)) in
        let m := st m (n_prev n) 0 in
        st m (l_head l) n in
    if negb (ld m1 (n_next n) =? 0) then st m1 (n_prev (ld m1 (n_next n))) n
    else st m1 (l_tail l) n
  else m.

Definition ixaddtail (m : mem) (l n : Z) : mem := ixinsert m l n (ld m (l_tail l)).

Definition ixaddhead (m : mem) (l n : Z) : mem := ixinsert m l n 0.

Definition ixremove (m : mem) (l n : Z) : mem :=
  if negb (n =? 0) then
    let m1 :=
      if negb (ld m (n_prev n) =? 0) then st m (n_next (ld m (n_prev n))) (ld m (n_next n))
      else st m (l_head l) (ld m (n_next n)) in
    if negb (ld m1 (n_next n) =? 0) then st m1 (n_prev (ld m1 (n_next n))) (ld m1 (n_prev n))
    else st m1 (l_tail l) (ld m1 (n_prev n))
  else m.

Definition ixremhead (m : mem) (l : Z) : Z * mem :=
  if negb (l =? 0) then
    let node := ld m (l_head l) in
    (node, ixremove m l node)
  else (0, m).

(** ** What a list represents

    [dll m l ns]: wherever [ns] is cut in two, the link in front of the cut
    points to the first node behind it and the link behind the cut points back
    to the last node in front of it.  The header takes the part of the missing
    node at either end, at the same offsets. *)

Notation before pre l := (List.last pre l) (only parsing).
Notation behind post l := (hd l post) (only parsing).

Definition dll (m : mem) (l : Z) (ns : list Z) : Prop :=
  (forall n, n ∈ ns -> 0 < n) /\
  forall pre post, ns = pre ++ post ->
    ld m (before pre l) = hd 0 post /\ ld m (behind post l + 4) = List.last pre 0.

(** The words of the list: those of its header and of its nodes. *)
Definition owns (l : Z) (ns : list Z) (a : Z) : Prop :=
  exists n, n ∈ l :: ns /\ (a = n \/ a = n + 4).

(** The words of the header and the nodes are all different. *)
Definition apart (l : Z) (ns : list Z) : Prop :=
  NoDup (l :: ns) /\ forall n n', n ∈ l :: ns -> n' ∈ l :: ns -> n' <> n + 4.

Lemma last_in (pre : list Z) d : List.last pre d ∈ d :: pre.
Proof.
  destruct pre as [|x pre _] using rev_ind; [set_solver|]. rewrite List.last_last. set_solver.
Qed.

Lemma hd_in (post : list Z) d : hd d post ∈ d :: post.
Proof. destruct post; set_solver. Qed.

Lemma last_app_ne (a k : list Z) d : k <> [] -> List.last (a ++ k) d = List.last k 0.
Proof.
  intros H. destruct (exists_last H) as (k' & y & ->). by rewrite app_assoc, !List.last_last.
Qed.

Lemma hd_app_ne (k b : list Z) d : k <> [] -> hd d (k ++ b) = hd 0 k.
Proof. by destruct k. Qed.

Lemma last_in_ne (k : list Z) : k <> [] -> List.last k 0 ∈ k.
Proof. intros H. destruct (exists_last H) as (k' & y & ->). rewrite List.last_last. set_solver. Qed.

Lemma hd_in_ne (k : list Z) : k <> [] -> hd 0 k ∈ k.
Proof. destruct k; set_solver. Qed.

(** The three places of a cut of [a ++ mid ++ b]. *)
Lemma cut_cases (pre post a mid b : list Z) :
  pre ++ post = a ++ mid ++ b ->
  (exists p q, mid = p ++ q /\ pre = a ++ p /\ post = q ++ b) \/
  (exists k, k <> [] /\ b = k ++ post /\ pre = a ++ mid ++ k) \/
  (exists k, k <> [] /\ a = pre ++ k /\ post = k ++ mid ++ b).
Proof.
  intros H. apply app_eq_app in H as [k [[-> H]|[-> ->]]].
  - symmetry in H. apply app_eq_app in H as [k' [[-> ->]|[-> ->]]].
    + destruct k' as [|x k']; [left; exists mid, []; by rewrite !app_nil_r|].
      right; left. exists (x :: k'). done.
    + left. by exists k, k'.
  - destruct k as [|x k]; [left; exists [], mid; by rewrite !app_nil_r|].
    right; right. exists (x :: k). done.
Qed.

Lemma dll_ext m m' l ns :
  dll m l ns -> (forall a, owns l ns a -> ld m' a = ld m a) -> dll m' l ns.
Proof.
  intros [Hp Hc] Hm. split; [done|]. intros pre post E. destruct (Hc _ _ E) as [<- <-].
  split; apply Hm.
  - exists (before pre l). split; [|by left].
    pose proof (last_in pre l). rewrite E. set_solver.
  - exists (behind post l). split; [|by right]. pose proof (hd_in post l). rewrite E. set_solver.
Qed.

Lemma dll_nil m l : dll m l [] <-> ld m l = 0 /\ ld m (l + 4) = 0.
Proof.
  split; [intros [_ H]; by destruct (H [] [])|].
  intros [H1 H2]. split; [set_solver|]. intros pre post E.
  symmetry in E. apply app_eq_nil in E as [-> ->]. done.
Qed.

Lemma dll_head m l ns : dll m l ns -> ld m l = hd 0 ns.
Proof. intros [_ H]. by destruct (H [] ns). Qed.

Lemma dll_tail m l ns : dll m l ns -> ld m (l + 4) = List.last ns 0.
Proof. intros [_ H]. destruct (H ns []) as [_ H2]; [by rewrite app_nil_r|]. done. Qed.

Lemma apart_elem l ns n n' :
  apart l ns -> n ∈ l :: ns -> n' ∈ l :: ns -> n' <> n + 4 /\ n <> n' + 4.
Proof. intros [_ H] H1 H2. split; by apply H. Qed.

(** Taking [n] out. *)
Lemma ixremove_eq m l pre n post :
  dll m l (pre ++ n :: post) -> apart l (pre ++ n :: post) -> 0 < l ->
  ixremove m l n =
    st (st m (before pre l) (hd 0 post)) (behind post l + 4) (List.last pre 0).
Proof.
  intros [Hp Hc] Ha Hl.
  assert (Hn : 0 < n) by (apply Hp; set_solver).
  destruct (Hc pre (n :: post)) as [_ Hprev]; [done|].
  destruct (Hc (pre ++ [n]) post) as [Hnext _]; [by rewrite <- app_assoc|].
  rewrite List.last_last in Hnext. cbn [hd] in Hprev.
  unfold ixremove, n_prev, n_next, l_head, l_tail.
  rewrite (proj2 (Z.eqb_neq n 0)) by lia. cbn [negb]. rewrite Hprev, Hnext.
  pose proof (last_in pre l) as Hb.
  assert (Hne : List.last pre l <> n).
  { destruct Ha as [Hnd _]. intros E. rewrite E in Hb.
    change (l :: pre ++ n :: post) with ((l :: pre) ++ n :: post) in Hnd.
    apply NoDup_app in Hnd as (_ & Hnd & _). apply (Hnd n); set_solver. }
  assert (Hne4 : List.last pre l <> n + 4).
  { apply (apart_elem l (pre ++ n :: post)); [done|set_solver|set_solver]. }
  assert (E1 : (if negb (List.last pre 0 =? 0) then st m (List.last pre 0) (hd 0 post)
                else st m l (hd 0 post)) = st m (List.last pre l) (hd 0 post)).
  { destruct pre as [|x pre _] using rev_ind; [done|]. rewrite !List.last_last.
    rewrite (proj2 (Z.eqb_neq x 0)); [done|]. assert (0 < x) by (apply Hp; set_solver). lia. }
  rewrite E1, !ld_st_ne, Hprev, Hnext by done.
  destruct post as [|y post]; cbn [hd]; [done|].
  rewrite (proj2 (Z.eqb_neq y 0)); [done|]. assert (0 < y) by (apply Hp; set_solver). lia.
Qed.

Lemma fwd_ne_bwd l ns pre post :
  apart l ns -> pre ⊆ ns -> post ⊆ ns -> List.last pre l <> hd l post + 4.
Proof.
  intros Ha H1 H2. pose proof (last_in pre l). pose proof (hd_in post l).
  apply (apart_elem l ns); set_solver.
Qed.

(** Links in front of different cuts are different, and so are those behind. *)
Lemma fwd_ne_fwd (l : Z) (a k post : list Z) :
  NoDup (l :: a ++ k ++ post) -> k <> [] -> List.last (a ++ k) l <> List.last a l.
Proof.
  intros Hnd Hk E. rewrite last_app_ne in E by done.
  pose proof (last_in a l) as Hin. rewrite <- E in Hin.
  change (l :: a ++ k ++ post) with ((l :: a) ++ k ++ post) in Hnd.
  apply NoDup_app in Hnd as (_ & Hnd & _). apply (Hnd _ Hin).
  pose proof (last_in_ne k Hk). set_solver.
Qed.

Lemma bwd_ne_bwd (l : Z) (a k post : list Z) :
  NoDup (l :: a ++ k ++ post) -> k <> [] -> hd l (k ++ post) <> hd l post.
Proof.
  intros Hnd Hk E. rewrite hd_app_ne in E by done.
  pose proof (hd_in post l) as Hin. pose proof (hd_in_ne k Hk) as Hk'. rewrite <- E in Hin.
  apply NoDup_cons in Hnd as [Hl Hnd]. apply NoDup_app in Hnd as (_ & _ & Hnd).
  apply NoDup_app in Hnd as (_ & Hd & _).
  apply elem_of_cons in Hin as [Hin|Hin]; [|by apply (Hd _ Hk')].
  apply Hl. rewrite <- Hin. set_solver.
Qed.

Lemma owns_fwd l ns pre post : ns = pre ++ post -> owns l ns (List.last pre l).
Proof.
  intros ->. exists (List.last pre l). split; [|by left]. pose proof (last_in pre l) as H.
  rewrite elem_of_cons in *. rewrite elem_of_app. tauto.
Qed.

Lemma owns_bwd l ns pre post : ns = pre ++ post -> owns l ns (hd l post + 4).
Proof.
  intros ->. exists (hd l post). split; [|by right]. pose proof (hd_in post l) as H.
  rewrite elem_of_cons in *. rewrite elem_of_app. tauto.
Qed.

Lemma cut_ne l ns pre post pre' post' :
  apart l ns -> ns = pre ++ post -> ns = pre' ++ post' -> List.last pre l <> hd l post' + 4.
Proof.
  intros Ha E E'. apply (fwd_ne_bwd l ns); [done| |]; intros x Hx; [rewrite E|rewrite E'];
    apply elem_of_app; auto.
Qed.

(** Replacing the nodes [mid] between [a] and [b] by [mid']: if [mid'] is linked
    to both sides and all words that are not at the seams stay, the list has
    [mid'] in place of [mid]. *)
Lemma dll_splice m m' l a mid mid' b :
  dll m l (a ++ mid ++ b) -> apart l (a ++ mid' ++ b) ->
  (forall n, n ∈ mid' -> 0 < n) ->
  (forall p q, mid' = p ++ q ->
    ld m' (List.last (a ++ p) l) = hd 0 (q ++ b) /\
    ld m' (hd l (q ++ b) + 4) = List.last (a ++ p) 0) ->
  (forall w, owns l (a ++ b) w -> w <> List.last a l -> w <> hd l b + 4 -> ld m' w = ld m w) ->
  dll m' l (a ++ mid' ++ b).
Proof.
  intros [Hp Hc] Ha Hpos Hmid Hm. pose proof (proj1 Ha) as Hnd. split.
  { intros n. rewrite !elem_of_app. intros [?|[?|?]]; [|by apply Hpos|];
      apply Hp; rewrite !elem_of_app; tauto. }
  intros pre post E. symmetry in E.
  destruct (cut_cases _ _ _ _ _ E) as
    [(p & q & -> & -> & ->)|[(k & Hk & -> & ->)|(k & Hk & -> & ->)]]; [by apply Hmid| |].
  - destruct (Hc (a ++ mid ++ k) post) as [H1 H2]; [by rewrite <- !app_assoc|].
    assert (Hl : forall c d, List.last (c ++ k) d = List.last k 0) by (intros; by apply last_app_ne).
    rewrite app_assoc, Hl in H1, H2. rewrite app_assoc, !Hl. split; (etransitivity; [apply Hm|first [exact H1|exact H2]]).
    + rewrite <- (Hl a l). by apply owns_fwd with (post := post); rewrite <- app_assoc.
    + rewrite <- (Hl (a ++ mid') l), <- app_assoc. apply (fwd_ne_fwd l a (mid' ++ k) post).
      * by rewrite <- app_assoc.
      * by intros [_ ?]%app_eq_nil.
    + rewrite <- (Hl (a ++ mid') l), <- app_assoc.
      by eapply cut_ne with (pre' := a ++ mid'); [done| |]; rewrite <- !app_assoc.
    + by apply owns_bwd with (pre := a ++ k); rewrite <- app_assoc.
    + intros E'. symmetry in E'. revert E'.
      by eapply cut_ne with (pre' := a ++ mid' ++ k); [done| |]; rewrite <- ?app_assoc.
    + intros E'. apply (bwd_ne_bwd l (a ++ mid') k post); [by rewrite <- app_assoc|done|lia].
  - destruct (Hc pre (k ++ mid ++ b)) as [H1 H2]; [by rewrite <- !app_assoc|].
    assert (Hh : forall c d, hd d (k ++ c) = hd 0 k) by (intros; by apply hd_app_ne).
    rewrite Hh in H1, H2. rewrite !Hh. split; (etransitivity; [apply Hm|first [exact H1|exact H2]]).
    + by apply owns_fwd with (post := k ++ b); rewrite <- app_assoc.
    + intros E'. symmetry in E'. revert E'.
      apply (fwd_ne_fwd l pre k (mid' ++ b)); [by rewrite <- app_assoc in *|done].
    + by eapply cut_ne with (pre' := (pre ++ k) ++ mid'); [done| |]; rewrite <- ?app_assoc.
    + rewrite <- (Hh b l). by apply owns_bwd with (pre := pre); rewrite <- app_assoc.
    + rewrite <- (Hh (mid' ++ b) l). intros E'. symmetry in E'. revert E'.
      by eapply cut_ne with (pre' := pre); [done| |]; rewrite <- ?app_assoc.
    + rewrite <- (Hh (mid' ++ b) l). intros E'.
      apply (bwd_ne_bwd l pre (k ++ mid') b); rewrite <- ?app_assoc in *; [done| |lia].
      by intros [? _]%app_eq_nil.
Qed.

(** [ixremove] takes the node out and touches only words of the list that
    remains. *)
Lemma ixremove_spec m l pre n post :
  dll m l (pre ++ n :: post) -> apart l (pre ++ n :: post) -> 0 < l ->
  dll (ixremove m l n) l (pre ++ post) /\
  (forall w, ~ owns l (pre ++ post) w -> ld (ixremove m l n) w = ld m w).
Proof.
  intros Hd Ha Hl. rewrite (ixremove_eq _ _ pre n post) by done.
  assert (Hx : List.last pre l <> hd l post + 4)
    by (by eapply cut_ne with (pre' := pre ++ [n]); [done| |]; rewrite <- ?app_assoc).
  assert (Ha' : apart l (pre ++ post)).
  { destruct Ha as [Hnd Ha]. split.
    - eapply sublist_NoDup; [done|]. apply sublist_skip, sublist_app; [done|]. by apply sublist_cons.
    - intros x y. rewrite !elem_of_cons, !elem_of_app. intros.
      apply Ha; rewrite elem_of_cons, elem_of_app, elem_of_cons; tauto. }
  split.
  - apply (dll_splice m _ l pre [n] [] post); try done; [set_solver| |].
    + intros p q E. symmetry in E. apply app_eq_nil in E as [-> ->]. rewrite app_nil_r.
      rewrite ld_st_eq, ld_st_ne, ld_st_eq by done. done.
    + intros w _ H1 H2. by rewrite !ld_st_ne.
  - intros w Hw. rewrite !ld_st_ne; [done| |]; intros <-; apply Hw;
      [by eapply owns_fwd|by eapply owns_bwd].
Qed.

(** [ixremhead] returns the first node, or NULL. *)
Lemma ixremhead_nil m l : dll m l [] -> 0 < l -> ixremhead m l = (0, m).
Proof.
  intros Hd Hl. unfold ixremhead. rewrite (proj2 (Z.eqb_neq l 0)) by lia. cbn [negb].
  unfold l_head. rewrite (dll_head _ _ _ Hd). done.
Qed.

Lemma ixremhead_cons m l n ns :
  dll m l (n :: ns) -> 0 < l -> ixremhead m l = (n, ixremove m l n).
Proof.
  intros Hd Hl. unfold ixremhead. rewrite (proj2 (Z.eqb_neq l 0)) by lia. cbn [negb].
  unfold l_head. by rewrite (dll_head _ _ _ Hd).
Qed.

(** Putting [n] in at a cut. *)
Lemma ixinsert_eq m l n pre post :
  dll m l (pre ++ post) -> apart l (pre ++ n :: post) -> 0 < l -> 0 < n ->
  exists m0,
    ixinsert m l n (List.last pre 0) = st (st m0 (List.last pre l) n) (hd l post + 4) n /\
    ld m0 n = hd 0 post /\ ld m0 (n + 4) = List.last pre 0 /\
    (forall w, w <> n -> w <> n + 4 -> ld m0 w = ld m w).
Proof.
  intros [Hp Hc] Ha Hl Hn. destruct (Hc pre post) as [Hnext _]; [done|].
  assert (Hbn : List.last pre l <> n /\ List.last pre l <> n + 4 /\ n <> List.last pre l + 4).
  { pose proof (last_in pre l) as Hb. split.
    - intros E. rewrite E in Hb. destruct Ha as [Hnd _].
      change (l :: pre ++ n :: post) with ((l :: pre) ++ n :: post) in Hnd.
      apply NoDup_app in Hnd as (_ & Hnd & _). apply (Hnd n); set_solver.
    - apply and_comm, (apart_elem l (pre ++ n :: post)); [done|set_solver|set_solver]. }
  destruct Hbn as (Hb1 & Hb2 & Hb3).
  assert (Hfin : forall m1, ld m1 n = hd 0 post ->
    (if negb (ld m1 (n_next n) =? 0) then st m1 (n_prev (ld m1 (n_next n))) n
     else st m1 (l_tail l) n) = st m1 (hd l post + 4) n).
  { intros m1 E. unfold n_next. rewrite E. destruct post as [|y post]; [done|]. cbn [hd].
    rewrite (proj2 (Z.eqb_neq y 0)); [done|]. assert (0 < y) by (apply Hp; set_solver). lia. }
  unfold ixinsert. rewrite (proj2 (Z.eqb_neq l 0)), (proj2 (Z.eqb_neq n 0)) by lia. cbn [negb andb].
  destruct pre as [|x pre _] using rev_ind.
  - cbn [List.last Z.eqb negb] in *. unfold l_head.
    exists (st (st m n (hd 0 post)) (n + 4) 0). unfold n_next, n_prev in *. rewrite Hnext.
    rewrite Hfin by (rewrite !ld_st_ne by lia; apply ld_st_eq).
    split; [done|]. repeat split; intros; ldst; done.
  - rewrite !List.last_last in *. assert (0 < x) by (apply Hp; set_solver).
    rewrite (proj2 (Z.eqb_neq x 0)) by lia. cbn [negb].
    exists (st (st m (n + 4) x) n (hd 0 post)). unfold n_next, n_prev in *.
    rewrite (ld_st_ne m (n + 4) x) by lia. rewrite Hnext.
    rewrite Hfin by (rewrite !ld_st_ne by lia; apply ld_st_eq).
    split; [done|]. repeat split; intros; ldst; done.
Qed.

(** [ixinsert] after the last node of [pre] puts the node in at that place and
    touches only words of the resulting list. *)
Lemma ixinsert_spec m l n pre post :
  dll m l (pre ++ post) -> apart l (pre ++ n :: post) -> 0 < l -> 0 < n ->
  dll (ixinsert m l n (List.last pre 0)) l (pre ++ n :: post) /\
  (forall w, ~ owns l (pre ++ n :: post) w -> ld (ixinsert m l n (List.last pre 0)) w = ld m w).
Proof.
  intros Hd Ha Hl Hn. destruct (ixinsert_eq m l n pre post) as (m0 & -> & Hn0 & Hn4 & Hm0); try done.
  assert (Hnin : forall x, x ∈ l :: pre ++ post -> x <> n /\ x <> n + 4 /\ n <> x + 4).
  { intros x Hx. rewrite elem_of_cons, elem_of_app in Hx. split.
    - intros ->. destruct Ha as [Hnd _]. rewrite <- Permutation_middle in Hnd.
      apply NoDup_cons in Hnd as [H1 Hnd]. apply NoDup_cons in Hnd as [H2 _].
      rewrite !elem_of_cons, elem_of_app in *. naive_solver.
    - apply (apart_elem l (pre ++ n :: post)); [done| |];
        rewrite elem_of_cons, elem_of_app, elem_of_cons; tauto. }
  assert (Hx : List.last pre l <> hd l post + 4)
    by (by eapply cut_ne with (pre' := pre ++ [n]); [done| |]; rewrite <- ?app_assoc).
  destruct (Hnin (List.last pre l)) as (Hp1 & Hp2 & Hp3).
  { pose proof (last_in pre l). rewrite elem_of_cons, ?elem_of_app in *. tauto. }
  destruct (Hnin (hd l post)) as (Hb1 & Hb2 & Hb3).
  { pose proof (hd_in post l). rewrite elem_of_cons, ?elem_of_app in *. tauto. }
  split.
  - apply (dll_splice m _ l pre [] [n] post); try done.
    + by intros x ->%list_elem_of_singleton.
    + intros p q E. destruct p as [|x p].
      * cbn [app] in E. subst q. rewrite app_nil_r. cbn [hd app].
        rewrite ld_st_ne by done. rewrite ld_st_eq. rewrite !ld_st_ne by lia. done.
      * cbn [app] in E. injection E as -> E. symmetry in E. apply app_eq_nil in E as [-> ->].
        rewrite !List.last_last. cbn [app]. rewrite ld_st_eq. rewrite !ld_st_ne by lia. done.
    + intros w (x & Hxin & Hw) H1 H2. apply Hnin in Hxin. rewrite !ld_st_ne, Hm0 by lia. done.
  - intros w Hw.
    assert (w <> n /\ w <> n + 4) as [? ?].
    { split; intros ->; apply Hw; exists n; rewrite elem_of_cons, elem_of_app, elem_of_cons; tauto. }
    rewrite !ld_st_ne, Hm0; try done; intros <-; apply Hw;
      [by eapply owns_fwd|].
    eapply (owns_bwd l _ (pre ++ [n]) post). by rewrite <- app_assoc.
Qed.

(** [ixaddhead] and [ixaddtail]. *)
Lemma ixaddhead_spec m l n ns :
  dll m l ns -> apart l (n :: ns) -> 0 < l -> 0 < n ->
  dll (ixaddhead m l n) l (n :: ns) /\
  (forall w, ~ owns l (n :: ns) w -> ld (ixaddhead m l n) w = ld m w).
Proof. intros. by apply (ixinsert_spec m l n [] ns). Qed.

Lemma ixaddtail_spec m l n ns :
  dll m l ns -> apart l (ns ++ [n]) -> 0 < l -> 0 < n ->
  dll (ixaddtail m l n) l (ns ++ [n]) /\
  (forall w, ~ owns l (ns ++ [n]) w -> ld (ixaddtail m l n) w = ld m w).
Proof.
  intros Hd Ha Hl Hn. unfold ixaddtail, l_tail. rewrite (dll_tail _ _ _ Hd).
  apply (ixinsert_spec m l n ns []); by rewrite ?app_nil_r.
Qed.

(** [ixnewlist] makes the empty list. *)
Lemma ixnewlist_spec m l :
  dll (ixnewlist m l) l [] /\ (forall w, ~ owns l [] w -> ld (ixnewlist m l) w = ld m w).
Proof.
  unfold ixnewlist, l_head, l_tail. split.
  - apply dll_nil. rewrite ld_st_eq, ld_st_ne, ld_st_eq by lia. done.
  - intros w Hw. rewrite !ld_st_ne; [done| |]; intros <-; apply Hw; exists l; set_solver.
Qed.
End Ixlist.
Export Ixlist.
