(* ===== verification/Buddy.v ===== *)
(** * Buddy allocator: data and operations

    Models library/buddy-alloc.c on the word memory of [Ixlist]: the blocks,
    their headers and the free lists are words of memory, linked by the
    operations of library/list.c.  AllocMem and FreeMem belong to Exec: AllocMem
    is a parameter that chooses the address from the blocks that are held, and
    the state keeps the blocks held from Exec, so that freeing what is not held
    is a [Fault].  Forbid/Permit make each call one step. *)

From S2P Require Import Prelude Ixlist.

Module Buddy.

(** ** Constants *)

Definition MINLOG2 : Z := 4.
Definition MINSIZE : Z := Z.shiftl 1 MINLOG2.
Definition MAXLOG2 : Z := 16.
Definition MAXSIZE : Z := Z.shiftl 1 MAXLOG2.
Definition BUDDY_LIMIT : Z := Z.shiftl 1 (MAXLOG2 - 5).
Definition PRIVATE_POOL : Z := 0.
Definition PUBLIC_POOL : Z := 1.
Definition NUMPOOLS : Z := 2.
Definition MEMF_SWAP : Z := 0.
Definition MEMF_PUBLIC : Z := 1.

(** offsetof (struct free_block, next). *)
Definition OFF_NEXT : Z := 4.

(** ** struct free_list

    The array [free_list] is in the data segment of the library: exec_attr (4
    bytes), a mutex (128) and twelve lists (8 each) for each pool. *)

Definition SIZEOF_FREE_LIST : Z := 228.
Definition OFF_BUCKETS : Z := 132.

Definition exec_attr (pool : Z) : Z := if pool =? PUBLIC_POOL then MEMF_PUBLIC else MEMF_SWAP.

(** ** struct free_block

    The header word is [pool:2, exec_block:30] (the first field in the high
    bits); next, prev and index follow, and exist while the block is free. *)

Definition hd_pool (w : Z) : Z := Z.land (Z.shiftr w 30) 3.
Definition hd_exec (w : Z) : Z := Z.land w (Z.ones 30).
Definition hd_set_pool (w p : Z) : Z := Z.lor (Z.shiftl (Z.land p 3) 30) (Z.land w (Z.ones 30)).
Definition hd_set_exec (w e : Z) : Z :=
  Z.lor (Z.shiftl (Z.land (Z.shiftr w 30) 3) 30) (Z.land e (Z.ones 30)).

Definition fb_index (fb : Z) : Z := fb + 12.

(** ** State *)

Record bstate := mk_bstate {
  bm : mem;
  held : gmap Z Z;          (** blocks held from Exec: address and size *)
  clock : Z                 (** number of calls of AllocMem *)
}.

Definition set_bm (s : bstate) (m : mem) : bstate := mk_bstate m (held s) (clock s).

(** [fb->pool], [fb->exec_block] and the assignments to them. *)
Definition get_pool (m : mem) (fb : Z) : Z := hd_pool (ld m fb).
Definition get_exec (m : mem) (fb : Z) : Z := hd_exec (ld m fb).
Definition put_pool (m : mem) (fb p : Z) : mem := st m fb (hd_set_pool (ld m fb) p).
Definition put_exec (m : mem) (fb e : Z) : mem := st m fb (hd_set_exec (ld m fb) e).

Section Allocator.
(** Address of the array [free_list], and Exec's choice of an address: 0 when
    there is no memory. *)
Context (free_list : Z) (AllocMem : Z -> gmap Z Z -> Z -> Z -> Z).

Definition bucket (pool ind : Z) : Z :=
  free_list + SIZEOF_FREE_LIST * pool + OFF_BUCKETS + 8 * ind.

Definition exec_alloc (s : bstate) (size attr : Z) : Z * bstate :=
  let r := AllocMem (clock s) (held s) size attr in
  (r, mk_bstate (bm s) (if r =? 0 then held s else <[r := size]> (held s)) (clock s + 1)).

Definition exec_free (s : bstate) (a size : Z) : outcome bstate () :=
  match held s !! a with
  | Some sz => if sz =? size then Ret () (mk_bstate (bm s) (delete a (held s)) (clock s)) else Fault
  | None => Fault
  end.

(** ** init_buddy *)

Fixpoint new_buckets (n : nat) (i : Z) (m : mem) (pool : Z) : mem :=
  match n with
  | O => m
  | S n => new_buckets n (i + 1) (ixnewlist m (bucket pool i)) pool
  end.

Definition init_buddy (m : mem) : mem :=
  let n := Z.to_nat (MAXLOG2 - MINLOG2) in
  new_buckets n 0 (new_buckets n 0 m PRIVATE_POOL) PUBLIC_POOL.

(** ** Free lists *)

Definition unlink_block (m : mem) (free_pool ind block : Z) : Z * mem :=
  let fb := block in
  if fb =? 0 then
    let '(n, m) := ixremhead m (bucket free_pool ind) in
    if negb (n =? 0) then
      let fb := n - OFF_NEXT in
      (fb, put_pool m fb (free_pool + 1))
    else (0, m)
  else
    let m := put_pool m fb (free_pool + 1) in
    (fb, ixremove m (bucket free_pool (ld m (fb_index fb))) (fb + OFF_NEXT)).

Definition link_block (m : mem) (free_pool ind fb : Z) : mem :=
  let m := put_pool m fb 0 in
  let m := st m (fb_index fb) ind in
  ixaddhead m (bucket free_pool ind) (fb + OFF_NEXT).

(** ** log2 *)

Fixpoint log2_loop (fuel : nat) (size pow lower_bound : Z) : option Z :=
  match fuel with
  | O => None
  | S fuel =>
    if lower_bound <? size then Some pow
    else log2_loop fuel size (pow - 1) (Z.shiftr lower_bound 1)
  end.

Definition log2 (size : Z) : option Z := log2_loop 17 size MAXLOG2 (Z.shiftl 1 (MAXLOG2 - 1)).

(** ** get_block and free_block: the recursion goes up the twelve buckets *)

Fixpoint get_block (fuel : nat) (s : bstate) (free_pool index : Z) : outcome bstate Z :=
  match fuel with
  | O => Diverge
  | S fuel =>
    if index =? MAXLOG2 - MINLOG2 then
      let '(fb, s) := exec_alloc s MAXSIZE (exec_attr free_pool) in
      if fb =? 0 then Ret 0 s
      else
        let m := put_exec (bm s) fb (Z.shiftr (s32 fb) 2) in
        let m := put_pool m fb (free_pool + 1) in
        Ret fb (set_bm s m)
    else
      let '(fb, m) := unlink_block (bm s) free_pool index 0 in
      let s := set_bm s m in
      if negb (fb =? 0) then Ret fb s
      else
        let* (fb, s) := get_block fuel s free_pool (index + 1) in
        if negb (fb =? 0) then
          let buddy := u32 (fb + Z.shiftl 1 (index + MINLOG2)) in
          let m := put_exec (bm s) buddy (get_exec (bm s) fb) in
          let m := link_block m free_pool index buddy in
          Ret fb (set_bm s m)
        else Ret fb s
  end.

Definition buddy_of (m : mem) (index fb : Z) : Z :=
  let base := Z.shiftl (get_exec m fb) 2 in
  u32 (Z.lxor (u32 (fb - base)) (Z.shiftl 1 (index + MINLOG2)) + base).

Fixpoint free_block (fuel : nat) (s : bstate) (free_pool index fb : Z) : outcome bstate () :=
  match fuel with
  | O => Diverge
  | S fuel =>
    let buddy := buddy_of (bm s) index fb in
    if index =? MAXLOG2 - MINLOG2 then exec_free s fb MAXSIZE
    else if negb (get_pool (bm s) buddy =? 0) || negb (ld (bm s) (fb_index buddy) =? index) then
      Ret () (set_bm s (link_block (bm s) free_pool index fb))
    else
      let '(_, m) := unlink_block (bm s) free_pool index buddy in
      free_block fuel (set_bm s m) free_pool (index + 1) (if fb <? buddy then fb else buddy)
  end.

(** The depth of the recursion is at most the number of buckets and one. *)
Definition depth : nat := 13.

(** ** b_alloc and b_free *)

Definition b_alloc (s : bstate) (size pool : Z) : outcome bstate Z :=
  if negb ((0 <=? pool) && (pool <? NUMPOOLS)) then Fault
  else if size <? 0 then Ret 0 s
  else
    let size := if size <? MINSIZE then MINSIZE else size in
    if BUDDY_LIMIT - OFF_NEXT <=? size then
      let '(r, s) := exec_alloc s size (exec_attr pool) in Ret r s
    else
      let size := size + OFF_NEXT in
      match log2 size with
      | None => Diverge
      | Some l =>
        let bucket := u8 (l - MINLOG2) in
        let* (block, s) := get_block depth s pool bucket in
        Ret (if negb (block =? 0) then block + OFF_NEXT else block) s
      end.

Definition b_free (s : bstate) (a size : Z) : outcome bstate () :=
  let size := if size <? MINSIZE then MINSIZE else size in
  if BUDDY_LIMIT - OFF_NEXT <=? size then exec_free s a size
  else
    let size := size + OFF_NEXT in
    match log2 size with
    | None => Diverge
    | Some l =>
      let bucket := u8 (l - MINLOG2) in
      let fb := a - OFF_NEXT in
      let free_pool := get_pool (bm s) fb - 1 in
      if negb ((0 <=? free_pool) && (free_pool <? NUMPOOLS)) then Fault
      else free_block depth s free_pool bucket fb
    end.
End Allocator.

(** An Exec that hands out memory above everything held, for the examples. *)
Definition bump_top (held : gmap Z Z) : Z :=
  map_fold (fun a sz t => Z.max t (a + sz)) 8 held.
Definition AllocMem_bump (_ : Z) (held : gmap Z Z) (size attr : Z) : Z :=
  let r := (bump_top held + 7) / 8 * 8 in
  if r + size <=? 2 ^ 32 then r else 0.

(** The library after [init_buddy], with [free_list] at 1024. *)
Definition boot : bstate :=
  mk_bstate (init_buddy 1024 ∅) {[ 1024 := NUMPOOLS * SIZEOF_FREE_LIST ]} 0.

Example b_alloc_two :
  match b_alloc 1024 AllocMem_bump boot 100 1 with
  | Ret a s => match b_alloc 1024 AllocMem_bump s 10 1 with
    | Ret b s =>
      (a, b) = (1480 + 4, 1480 + 128 + 4) /\
      match b_free 1024 s a 100 with
      | Ret _ s => match b_free 1024 s b 10 with
        | Ret _ s => held s = held boot
        | _ => False end
      | _ => False end
    | _ => False end
  | _ => False end.
Proof. vm_compute. auto. Qed.
End Buddy.
