(* ===== verification/BuddyInv.v ===== *)
(** * Buddy allocator: the heap invariant

    The blocks that tile the chunks ([tiled]), the words of memory that
    represent them ([rep]), the absence of two free buddies ([coal]), and the
    six ways in which the operations change the tiling. *)

From S2P Require Import Prelude Ixlist Buddy.
Export Buddy.

(** ** The header word *)

Lemma hd_exec_mod w : hd_exec w = w mod 2 ^ 30.
Proof. unfold hd_exec. by rewrite Z.land_ones. Qed.

Lemma land3_mod w : Z.land w 3 = w mod 4.
Proof. change 3 with (Z.ones 2). by rewrite Z.land_ones. Qed.

Lemma header_word p e : Z.lor (Z.shiftl (Z.land p 3) 30) (Z.land e (Z.ones 30)) =
  p mod 4 * 2 ^ 30 + e mod 2 ^ 30.
Proof.
  rewrite land3_mod, Z.land_ones by lia. apply lor_shiftl_small; [lia|].
  apply Z.mod_pos_bound. lia.
Qed.

Lemma hd_pool_word p e : hd_pool (p mod 4 * 2 ^ 30 + e mod 2 ^ 30) = p mod 4.
Proof.
  unfold hd_pool. rewrite land3_mod, Z.shiftr_div_pow2 by lia.
  rewrite Z.div_add_l by lia. rewrite (Z.div_small (e mod 2 ^ 30)) by (apply Z.mod_pos_bound; lia).
  rewrite Z.add_0_r. apply Z.mod_mod. lia.
Qed.

Lemma hd_exec_word p e : hd_exec (p mod 4 * 2 ^ 30 + e mod 2 ^ 30) = e mod 2 ^ 30.
Proof.
  rewrite hd_exec_mod, Z.add_comm, Z.mod_add by lia. apply Z.mod_mod. lia.
Qed.

Lemma hd_pool_set_pool w p : 0 <= p < 4 -> hd_pool (hd_set_pool w p) = p.
Proof.
  intros H. unfold hd_set_pool. rewrite header_word, hd_pool_word. by apply Z.mod_small.
Qed.

Lemma hd_exec_set_pool w p : hd_exec (hd_set_pool w p) = hd_exec w.
Proof. unfold hd_set_pool. by rewrite header_word, hd_exec_word, hd_exec_mod. Qed.

Lemma hd_exec_set_exec_any w e : hd_exec (hd_set_exec w e) = Z.land e (Z.ones 30).
Proof.
  unfold hd_set_exec. fold (hd_pool w). replace (hd_pool w) with (Z.land (hd_pool w) 3).
  - by rewrite header_word, hd_exec_word, Z.land_ones.
  - unfold hd_pool. rewrite <- Z.land_assoc. done.
Qed.

Lemma hd_exec_set_exec w e : 0 <= e < 2 ^ 30 -> hd_exec (hd_set_exec w e) = e.
Proof. intros H. rewrite hd_exec_set_exec_any, Z.land_ones by lia. by apply Z.mod_small. Qed.

Lemma hd_set_pool_twice w p q : hd_set_pool (hd_set_pool w p) q = hd_set_pool w q.
Proof.
  unfold hd_set_pool. rewrite !header_word. f_equal.
  rewrite Z.add_comm, Z.mod_add by lia. apply Z.mod_mod. lia.
Qed.

(** The address stored in 30 bits comes back whole, for an aligned chunk. *)
Lemma exec_block_of_chunk c : 0 <= c < 2 ^ 32 ->
  Z.land (Z.shiftr (s32 c) 2) (Z.ones 30) = c / 4.
Proof.
  intros H. rewrite Z.land_ones, Z.shiftr_div_pow2 by lia. unfold s32.
  change (2 ^ 2) with 4. Z.div_mod_to_equations. lia.
Qed.

(** ** Sizes and alignment *)

Definition bsz (i : Z) : Z := 2 ^ (i + 4).

Lemma bsz_S i : 0 <= i -> bsz (i + 1) = 2 * bsz i.
Proof. intros H. unfold bsz. replace (i + 1 + 4) with (Z.succ (i + 4)) by lia. by rewrite Z.pow_succ_r by lia. Qed.

Lemma bsz_min i : 0 <= i -> 16 <= bsz i.
Proof. intros H. unfold bsz. change 16 with (2 ^ 4). apply Z.pow_le_mono_r; lia. Qed.

Lemma bsz_top : bsz 12 = 65536.
Proof. done. Qed.

Lemma bsz_divide i j : 0 <= i <= j -> (bsz i | bsz j).
Proof.
  intros H. unfold bsz. exists (2 ^ (j - i)). rewrite <- Z.pow_add_r by lia. f_equal. lia.
Qed.

Lemma shiftl_bsz i : 0 <= i -> Z.shiftl 1 (i + MINLOG2) = bsz i.
Proof. intros H. unfold MINLOG2, bsz. by rewrite Z.shiftl_1_l. Qed.

Lemma aligned_eq s x y : 0 < s -> (s | x) -> (s | y) -> y <= x < y + s -> x = y.
Proof. intros Hs [a ->] [b ->] H. assert (a = b) by nia. by subst. Qed.

Lemma aligned_within t s P Q d :
  0 < t -> (t | P) -> (t | Q) -> (t | s) -> 0 <= d < t -> Q <= P + d < Q + s ->
  Q <= P /\ P + t <= Q + s.
Proof.
  intros Ht [p ->] [q ->] [k ->] Hd H.
  assert (q <= p) by nia. assert (p + 1 <= q + k) by nia. split; nia.
Qed.

(** Offsets of buddies in their chunk. *)
Lemma lxor_bsz i o : 0 <= i -> 0 <= o -> (bsz i | o) ->
  ((bsz (i + 1) | o) /\ Z.lxor o (bsz i) = o + bsz i) \/
  ((bsz (i + 1) | o - bsz i) /\ bsz i <= o /\ Z.lxor o (bsz i) = o - bsz i).
Proof.
  intros Hi Ho [q ->]. rewrite bsz_S by done. pose proof (bsz_min i Hi).
  assert (E : forall x, Z.land (x * (2 * bsz i)) (bsz i) = 0).
  { intros x. unfold bsz. apply Z.bits_inj'. intros k Hk. rewrite Z.land_spec, Z.bits_0.
    destruct (Z.eq_dec k (i + 4)) as [->|Hne].
    - replace (x * (2 * 2 ^ (i + 4))) with (x * 2 ^ (i + 5))
        by (replace (i + 5) with (Z.succ (i + 4)) by lia; rewrite Z.pow_succ_r by lia; ring).
      by rewrite Z.mul_pow2_bits_low by lia.
    - rewrite Z.pow2_bits_false by lia. apply andb_false_r. }
  destruct (Z.Even_or_Odd q) as [[x ->]|[x ->]].
  - left. split; [exists x; ring|]. replace (2 * x * bsz i) with (x * (2 * bsz i)) by ring.
    symmetry. by apply Z.add_nocarry_lxor.
  - right. assert (0 <= x) by nia. split; [exists x; ring|]. split; [nia|].
    replace ((2 * x + 1) * bsz i) with (x * (2 * bsz i) + bsz i) by ring.
    rewrite Z.add_nocarry_lxor at 1 by done.
    rewrite Z.lxor_assoc, Z.lxor_nilpotent, Z.lxor_0_r. lia.
Qed.

(** ** The ghost view: chunks with their pools, blocks that tile them *)

Record blk := mk_blk { k_chunk : Z; k_idx : Z; k_free : bool }.

Definition mark (b : blk) (f : bool) : blk := mk_blk (k_chunk b) (k_idx b) f.
Definition bsize (b : blk) : Z := bsz (k_idx b).

Definition geo (a : Z) (b : blk) : Prop :=
  0 <= k_idx b <= 12 /\ k_chunk b <= a /\ a + bsize b <= k_chunk b + MAXSIZE /\
  (bsize b | a - k_chunk b).

Definition is_pool (p : Z) : Prop := p = 0 \/ p = 1.

Section Heap.
Context (free_list : Z).
Implicit Types (m : mem) (h C : gmap Z Z) (B : gmap Z blk) (a c x : Z) (b : blk).
Notation bucket := (bucket free_list).

Record tiled h C B : Prop := {
  t_static : h !! free_list = Some (NUMPOOLS * SIZEOF_FREE_LIST);
  t_held a sz : h !! a = Some sz -> 0 < a /\ 0 < sz /\ a + sz <= 2 ^ 32 /\ (8 | a);
  t_disj a a' sz sz' : h !! a = Some sz -> h !! a' = Some sz' -> a <> a' ->
    a + sz <= a' \/ a' + sz' <= a;
  t_chunk c p : C !! c = Some p -> h !! c = Some MAXSIZE /\ c <> free_list /\ is_pool p;
  t_geo a b : B !! a = Some b -> is_Some (C !! k_chunk b) /\ geo a b;
  t_bdisj a a' b b' : B !! a = Some b -> B !! a' = Some b' -> a <> a' ->
    a + bsize b <= a' \/ a' + bsize b' <= a;
  t_cover c p x : C !! c = Some p -> c <= x < c + MAXSIZE ->
    exists a b, B !! a = Some b /\ a <= x < a + bsize b
}.

Definition listed C B (p i n : Z) : Prop :=
  exists b, B !! (n - OFF_NEXT) = Some b /\ k_free b = true /\ k_idx b = i /\ C !! k_chunk b = Some p.

Record rep m C B : Prop := {
  r_header a b p : B !! a = Some b -> C !! k_chunk b = Some p ->
    get_pool m a = (if k_free b then 0 else p + 1) /\ get_exec m a = k_chunk b / 4;
  r_index a b : B !! a = Some b -> k_free b = true -> ld m (fb_index a) = k_idx b /\ k_idx b < 12;
  r_list p i : is_pool p -> 0 <= i < 12 ->
    exists ns, dll m (bucket p i) ns /\ NoDup ns /\ forall n, n ∈ ns <-> listed C B p i n
}.

(** The buddy of the block at [a]. *)
Definition buddy_addr a b : Z := k_chunk b + Z.lxor (a - k_chunk b) (bsize b).

Definition coal B : Prop :=
  forall a b b', B !! a = Some b -> B !! buddy_addr a b = Some b' -> k_idx b < 12 ->
    k_free b = true -> k_free b' = true -> k_idx b' <> k_idx b.

Definition heap_inv m h C B : Prop := tiled h C B /\ rep m C B /\ coal B.

(** The words the allocator keeps its data in. *)
Definition static_word w : Prop := free_list <= w < free_list + NUMPOOLS * SIZEOF_FREE_LIST.
Definition owned B w : Prop :=
  static_word w \/
  exists a b, B !! a = Some b /\ (w = a \/ (k_free b = true /\ a <= w < a + bsize b)).

(** ** Facts about the tiling *)

Lemma bucket_static p i : is_pool p -> 0 <= i < 12 ->
  free_list <= bucket p i /\ bucket p i + 8 <= free_list + NUMPOOLS * SIZEOF_FREE_LIST.
Proof. unfold Buddy.bucket, SIZEOF_FREE_LIST, OFF_BUCKETS, NUMPOOLS. intros [-> | ->] H; lia. Qed.

Lemma bucket_apart p i p' i' : is_pool p -> is_pool p' -> 0 <= i < 12 -> 0 <= i' < 12 ->
  (p, i) <> (p', i') -> bucket p i + 8 <= bucket p' i' \/ bucket p' i' + 8 <= bucket p i.
Proof.
  unfold Buddy.bucket, SIZEOF_FREE_LIST, OFF_BUCKETS.
  intros [-> | ->] [-> | ->] H1 H2 Hne; try lia;
    (destruct (Z.eq_dec i i') as [->|]; [done|lia]).
Qed.

Section Tiled.
Context h C B (T : tiled h C B).

Lemma free_list_pos : 0 < free_list.
Proof. by destruct (t_held _ _ _ T _ _ (t_static _ _ _ T)). Qed.

Lemma chunk_bounds c p : C !! c = Some p -> 0 < c /\ c + MAXSIZE <= 2 ^ 32 /\ (8 | c).
Proof.
  intros Hc. destruct (t_chunk _ _ _ T _ _ Hc) as (Hh & _ & _).
  destruct (t_held _ _ _ T _ _ Hh) as (? & ? & ? & ?). done.
Qed.

Lemma chunk_unique c c' p p' x :
  C !! c = Some p -> C !! c' = Some p' -> c <= x < c + MAXSIZE -> c' <= x < c' + MAXSIZE -> c = c'.
Proof.
  intros Hc Hc' Hx Hx'. destruct (Z.eq_dec c c') as [|Hne]; [done|].
  destruct (t_chunk _ _ _ T _ _ Hc) as (Hh & _ & _).
  destruct (t_chunk _ _ _ T _ _ Hc') as (Hh' & _ & _).
  destruct (t_disj _ _ _ T _ _ _ _ Hh Hh' Hne); lia.
Qed.

Lemma block_bounds a b : B !! a = Some b ->
  0 < a /\ 16 <= bsize b /\ a + bsize b <= 2 ^ 32 /\ k_chunk b <= a /\
  a + bsize b <= k_chunk b + MAXSIZE /\ 0 <= k_idx b <= 12.
Proof.
  intros Hb. destruct (t_geo _ _ _ T _ _ Hb) as [[p Hp] (Hi & H1 & H2 & _)].
  destruct (chunk_bounds _ _ Hp) as (? & ? & _).
  pose proof (bsz_min (k_idx b)) as Hm. unfold bsize in *. specialize (Hm ltac:(lia)). lia.
Qed.

Lemma block_not_static a b w : B !! a = Some b -> a <= w < a + bsize b -> ~ static_word w.
Proof.
  intros Hb Hw Hs. unfold static_word in Hs.
  destruct (t_geo _ _ _ T _ _ Hb) as [[p Hp] _]. pose proof (block_bounds _ _ Hb).
  destruct (t_chunk _ _ _ T _ _ Hp) as (Hh & Hne & _).
  destruct (t_disj _ _ _ T _ _ _ _ Hh (t_static _ _ _ T) Hne); lia.
Qed.

Lemma block_unique a a' b b' x :
  B !! a = Some b -> B !! a' = Some b' -> a <= x < a + bsize b -> a' <= x < a' + bsize b' -> a = a'.
Proof.
  intros Hb Hb' H1 H2. destruct (Z.eq_dec a a') as [|Hne]; [done|].
  destruct (t_bdisj _ _ _ T _ _ _ _ Hb Hb' Hne); lia.
Qed.

(** Where the buddy lies: the pair makes up one block of the next size. *)
Lemma buddy_cases a b : B !! a = Some b -> k_idx b < 12 ->
  k_chunk b <= buddy_addr a b /\ buddy_addr a b + bsize b <= k_chunk b + MAXSIZE /\
  (bsize b | buddy_addr a b - k_chunk b) /\
  ((buddy_addr a b = a + bsize b /\ (2 * bsize b | a - k_chunk b)) \/
   (buddy_addr a b = a - bsize b /\ (2 * bsize b | buddy_addr a b - k_chunk b))).
Proof.
  intros Hb Hi. destruct (t_geo _ _ _ T _ _ Hb) as [_ (Hr & H1 & H2 & Hd)].
  unfold buddy_addr, bsize in *.
  assert (HM : (2 * bsz (k_idx b) | MAXSIZE)).
  { rewrite <- bsz_S by lia. change MAXSIZE with (bsz 12). apply bsz_divide. lia. }
  pose proof (bsz_min (k_idx b) ltac:(lia)) as Hmin.
  destruct (lxor_bsz (k_idx b) (a - k_chunk b)) as [[Hx ->]|(Hx & Hle & ->)];
    [lia|lia|done| |]; rewrite bsz_S in Hx by lia.
  - destruct (aligned_within (2 * bsz (k_idx b)) MAXSIZE (a - k_chunk b) 0 0) as [_ ?];
      [lia|done|by apply Z.divide_0_r|done|lia|lia|].
    split; [lia|]. split; [lia|]. split; [|left; split; [lia|done]].
    replace (k_chunk b + _ - _) with (a - k_chunk b + bsz (k_idx b)) by ring.
    apply Z.divide_add_r; [done|apply Z.divide_refl].
  - split; [lia|]. split; [lia|]. split; [|right; split; [lia|]].
    + replace (k_chunk b + _ - _) with (a - k_chunk b - bsz (k_idx b)) by ring.
      apply Z.divide_sub_r; [done|apply Z.divide_refl].
    + by replace (k_chunk b + _ - _) with (a - k_chunk b - bsz (k_idx b)) by ring.
Qed.

(** At the address of the buddy a block starts, and it is not larger. *)
Lemma buddy_block a b : B !! a = Some b -> k_idx b < 12 ->
  exists b', B !! buddy_addr a b = Some b' /\ k_chunk b' = k_chunk b /\ k_idx b' <= k_idx b /\
    buddy_addr a b <> a.
Proof.
  intros Hb Hi. destruct (buddy_cases a b Hb Hi) as (Hlo & Hhi & Hal & Hpos).
  destruct (t_geo _ _ _ T _ _ Hb) as [[p Hp] (Hr & H1 & H2 & Hd)].
  pose proof (bsz_min (k_idx b) ltac:(lia)) as Hmin. fold (bsize b) in Hmin.
  set (a' := buddy_addr a b) in *.
  destruct (t_cover _ _ _ T _ _ a' Hp) as (a1 & b1 & Hb1 & Ha1); [lia|].
  destruct (t_geo _ _ _ T _ _ Hb1) as [[p1 Hp1] (Hr1 & G1 & G2 & Gd)].
  assert (k_chunk b1 = k_chunk b) as Ec.
  { apply (chunk_unique _ _ _ _ a' Hp1 Hp); unfold bsize in *; lia. }
  rewrite Ec in *. assert (Hne : a1 <> a).
  { intros ->. rewrite Hb in Hb1. injection Hb1 as <-. destruct Hpos as [[? _]|[? _]]; lia. }
  assert (Hle : k_idx b1 <= k_idx b).
  { destruct (Z_le_gt_dec (k_idx b1) (k_idx b)) as [|Hgt]; [done|exfalso].
    assert (H2s : (2 * bsize b | bsize b1)).
    { unfold bsize. rewrite <- bsz_S by lia. apply bsz_divide. lia. }
    assert (H2o : (2 * bsize b | a1 - k_chunk b)) by (etransitivity; eauto).
    assert (a1 <= a < a1 + bsize b1) as Hin.
    { destruct Hpos as [[E Hm]|[E Hm]].
      - destruct (aligned_within (2 * bsize b) (bsize b1) (a - k_chunk b) (a1 - k_chunk b) (bsize b));
          try done; lia.
      - destruct (aligned_within (2 * bsize b) (bsize b1) (a' - k_chunk b) (a1 - k_chunk b) 0);
          try done; lia. }
    apply Hne. eapply block_unique; eauto; lia. }
  assert (a' = a1) as <-.
  { assert (a' - k_chunk b = a1 - k_chunk b) as E; [|lia].
    apply (aligned_eq (bsize b1)); try done; [|etransitivity; [|exact Hal]|lia].
    - pose proof (block_bounds _ _ Hb1). lia.
    - apply bsz_divide. lia. }
  eauto.
Qed.

Lemma buddy_involutive a b b' : B !! a = Some b -> k_idx b < 12 ->
  B !! buddy_addr a b = Some b' -> k_idx b' = k_idx b -> buddy_addr (buddy_addr a b) b' = a.
Proof.
  intros Hb Hi Hb' E. destruct (buddy_block _ _ Hb Hi) as (b1 & Hb1 & Ec & _).
  rewrite Hb' in Hb1. injection Hb1 as <-. unfold buddy_addr, bsize. rewrite Ec, E.
  replace (k_chunk b + _ - k_chunk b) with (Z.lxor (a - k_chunk b) (bsz (k_idx b))) by ring.
  rewrite Z.lxor_assoc, Z.lxor_nilpotent, Z.lxor_0_r. ring.
Qed.

(** ** Words of the free lists *)

Lemma listed_block p i n : listed C B p i n ->
  exists b, B !! (n - OFF_NEXT) = Some b /\ k_free b = true /\ k_idx b = i /\
    n - OFF_NEXT <= n /\ n + 8 < n - OFF_NEXT + bsize b.
Proof.
  intros (b & Hb & Hf & Hi & _). exists b. pose proof (block_bounds _ _ Hb).
  unfold OFF_NEXT in *. repeat split; try done; lia.
Qed.

Lemma listed_apart p i ns : is_pool p -> 0 <= i < 12 -> NoDup ns ->
  (forall n, n ∈ ns -> listed C B p i n) -> apart (bucket p i) ns.
Proof.
  intros Hp Hi Hnd Hl. pose proof (bucket_static p i Hp Hi) as Hs.
  assert (Hn : forall n, n ∈ ns -> ~ static_word n /\ ~ static_word (n + 4)).
  { intros n (b & Hb & _ & _ & H)%Hl%listed_block. unfold OFF_NEXT in *.
    split; eapply block_not_static; try exact Hb; lia. }
  split; [apply NoDup_cons; split; [|done]; intros [H _]%Hn; unfold static_word in H; lia|].
  intros x y. rewrite !elem_of_cons.
  intros [-> | Hx] [-> | Hy]; [lia| | |].
  - destruct (Hn _ Hy) as [H _]. unfold static_word in H. lia.
  - destruct (Hn _ Hx) as [_ H]. unfold static_word in H. lia.
  - intros ->. apply Hl in Hx, Hy. apply listed_block in Hx as (b & Hb & _ & _ & H).
    apply listed_block in Hy as (b' & Hb' & _ & _ & H'). unfold OFF_NEXT in *.
    assert (x + 4 - 4 = x - 4); [|lia]. apply (block_unique _ _ b' b (x + 4) Hb' Hb); lia.
Qed.

(** A header word, an index word and a word of another free list are none of
    the words of the list of bucket [i]. *)
Lemma block_word_not_listed a b p i n k :
  B !! a = Some b -> listed C B p i n -> 0 <= k < 16 -> k <> 4 -> k <> 8 -> a + k <> n /\ a + k <> n + 4.
Proof.
  intros Hb (b' & Hb' & _ & _ & H)%listed_block Hk H4 H8. pose proof (block_bounds _ _ Hb).
  unfold OFF_NEXT in *.
  split; intros E; assert (a = n - 4) by (eapply (block_unique a (n - 4) b b' (a + k)); eauto; lia); lia.
Qed.

Lemma block_word_not_bucket a b p i k :
  B !! a = Some b -> is_pool p -> 0 <= i < 12 -> 0 <= k < 16 ->
  ~ (bucket p i <= a + k < bucket p i + 8).
Proof.
  intros Hb Hp Hi Hk H. pose proof (block_bounds _ _ Hb). pose proof (bucket_static p i Hp Hi).
  eapply (block_not_static a b (a + k)); [done|lia|]. unfold static_word. lia.
Qed.

Lemma block_word_other a b a' b' k :
  B !! a = Some b -> B !! a' = Some b' -> a <> a' -> 0 <= k < 16 -> ~ (a <= a' + k < a + 16).
Proof.
  intros Hb Hb' Hne Hk H. pose proof (block_bounds _ _ Hb). pose proof (block_bounds _ _ Hb').
  apply Hne. apply (block_unique _ _ _ _ (a' + k) Hb Hb'); lia.
Qed.
End Tiled.

(** ** Marking a block free or used *)

Lemma lookup_mark B a b f a' b' : B !! a = Some b -> <[a := mark b f]> B !! a' = Some b' ->
  exists b0, B !! a' = Some b0 /\ k_chunk b' = k_chunk b0 /\ k_idx b' = k_idx b0 /\
    (a' = a \/ b' = b0).
Proof.
  intros Hb. destruct (Z.eq_dec a' a) as [->|Hne].
  - rewrite lookup_insert_eq. intros [= <-]. exists b. auto.
  - rewrite lookup_insert_ne by done. eauto 6.
Qed.

Lemma tiled_mark h C B a b f : tiled h C B -> B !! a = Some b -> tiled h C (<[a := mark b f]> B).
Proof.
  intros T Hb. destruct T as [T1 T2 T3 T4 T5 T6 T7]. split; try done.
  - intros a' b' (b0 & H0 & Ec & Ei & _)%lookup_mark; [|done].
    unfold geo, bsize. rewrite Ec, Ei. by apply T5.
  - intros a1 a2 b1 b2 (b3 & H3 & Ec & Ei & _)%lookup_mark (b4 & H4 & Ec' & Ei' & _)%lookup_mark; try done.
    unfold bsize. rewrite Ei, Ei'. by apply T6.
  - intros c p x Hc Hx. destruct (T7 c p x Hc Hx) as (a' & b' & H & H').
    destruct (Z.eq_dec a' a) as [->|Hne].
    + exists a, (mark b f). rewrite lookup_insert_eq. rewrite Hb in H. injection H as <-. done.
    + exists a', b'. by rewrite lookup_insert_ne.
Qed.

Lemma coal_mark_used B a b : B !! a = Some b -> coal B -> coal (<[a := mark b false]> B).
Proof.
  intros Hb HC a1 b1 b2 H1 H2 Hi Hf1 Hf2.
  rewrite lookup_insert_Some in H1, H2.
  destruct H1 as [[_ <-]|[_ H1]]; [done|]. destruct H2 as [[_ <-]|[_ H2]]; [done|]. by eapply HC.
Qed.

Lemma coal_mark_free h C B a b : tiled h C B -> B !! a = Some b -> k_free b = false -> k_idx b < 12 ->
  (forall b', B !! buddy_addr a b = Some b' -> k_free b' = true -> k_idx b' <> k_idx b) ->
  coal B -> coal (<[a := mark b true]> B).
Proof.
  intros T Hb Hu Hi12 Hbud HC a1 b1 b2 H1 H2 Hi Hf1 Hf2 E.
  rewrite lookup_insert_Some in H1, H2. destruct H1 as [[<- <-]|[N1 H1]].
  - change (buddy_addr a (mark b true)) with (buddy_addr a b) in H2. cbn [k_idx mark] in *.
    destruct H2 as [[N _]|[_ H2]]; [|by eapply Hbud].
    destruct (buddy_block _ _ _ T _ _ Hb Hi) as (? & _ & _ & _ & H). done.
  - destruct H2 as [[E2 <-]|[N2 H2]]; [|by apply (HC a1 b1 b2)].
    cbn [k_idx mark] in E. assert (E3 : buddy_addr a b = a1).
    { rewrite E2 in Hb |- *. by apply (buddy_involutive _ _ _ T a1 b1 b). }
    apply (Hbud b1); [by rewrite E3|done|done].
Qed.

(** ** Changing one block in memory *)

Lemma rep_change m m' h C B a b (p : Z) (f : bool) :
  tiled h C B -> rep m C B -> B !! a = Some b -> C !! k_chunk b = Some p -> k_idx b < 12 ->
  get_pool m' a = (if f then 0 else p + 1) -> get_exec m' a = k_chunk b / 4 ->
  (f = true -> ld m' (fb_index a) = k_idx b) ->
  (exists ns, dll m' (bucket p (k_idx b)) ns /\ NoDup ns /\
     forall n, n ∈ ns <-> listed C (<[a := mark b f]> B) p (k_idx b) n) ->
  (forall w, ~ (a <= w < a + 16) ->
     ~ (bucket p (k_idx b) <= w < bucket p (k_idx b) + 8) ->
     (forall n, listed C B p (k_idx b) n -> w <> n /\ w <> n + 4) -> ld m' w = ld m w) ->
  rep m' C (<[a := mark b f]> B).
Proof.
  intros T R Hb Hp Hi12 Hpool Hexec Hidx Hlist Hfr.
  destruct (t_chunk _ _ _ T _ _ Hp) as (_ & _ & Hip).
  destruct (block_bounds _ _ _ T _ _ Hb) as (_ & _ & _ & _ & _ & Hi0 & _).
  assert (Hword : forall a' b' k, B !! a' = Some b' -> a' <> a -> 0 <= k < 16 -> k <> 4 -> k <> 8 ->
    ld m' (a' + k) = ld m (a' + k)).
  { intros a' b' k Hb' Hne Hk H4 H8. apply Hfr.
    - eapply (block_word_other _ _ _ T a b a' b'); eauto.
    - eapply block_word_not_bucket; eauto; lia.
    - intros n Hn. eapply block_word_not_listed; eauto. }
  split.
  - intros a' b' p' Hb' Hp'. rewrite lookup_insert_Some in Hb'. destruct Hb' as [[<- <-]|[Hne Hb']].
    + cbn [mark k_chunk] in Hp'. rewrite Hp in Hp'. injection Hp' as <-. done.
    + unfold get_pool, get_exec. pose proof (Hword a' b' 0 Hb') as Hw. rewrite Z.add_0_r in Hw.
      rewrite Hw by lia. by apply (r_header _ _ _ R).
  - intros a' b' Hb' Hf. rewrite lookup_insert_Some in Hb'. destruct Hb' as [[<- <-]|[Hne Hb']].
    + split; [by apply Hidx|done].
    + unfold fb_index. rewrite (Hword a' b' 12 Hb') by lia. by apply (r_index _ _ _ R).
  - intros p' i' Hip' Hi'. destruct (decide ((p', i') = (p, k_idx b))) as [[= -> ->]|Hne]; [done|].
    destruct (r_list _ _ _ R p' i' Hip' Hi') as (ns & Hd & Hnd & Hns).
    assert (Heq : forall n, listed C (<[a := mark b f]> B) p' i' n <-> listed C B p' i' n).
    { intros n. unfold listed. destruct (decide (n - OFF_NEXT = a)) as [->|Ha].
      - rewrite lookup_insert_eq.
        split; [intros (b0 & [= <-] & _ & Hi0' & Hp0)|intros (b0 & Hb0 & _ & Hi0' & Hp0)];
          exfalso; apply Hne; [cbn in *; congruence|].
        rewrite Hb in Hb0. injection Hb0 as <-. congruence.
      - by rewrite lookup_insert_ne by done. }
    exists ns. split; [|split; [done|intros n; by rewrite Hns, Heq]].
    eapply dll_ext; [exact Hd|]. intros w (n & Hn & Hw).
    assert (Hbk := bucket_static p' i' Hip' Hi'). assert (Hbk2 := bucket_static p (k_idx b) Hip ltac:(lia)).
    rewrite elem_of_cons in Hn. destruct Hn as [-> | Hn].
    + apply Hfr.
      * intros H. eapply (block_not_static _ _ _ T a b w); [done| |unfold static_word; lia].
        pose proof (block_bounds _ _ _ T _ _ Hb). lia.
      * destruct (bucket_apart p (k_idx b) p' i'); try done; lia.
      * intros n (b' & Hb' & _ & _ & H)%(listed_block _ _ _ T). unfold OFF_NEXT in *.
        assert (Hns' : ~ static_word n /\ ~ static_word (n + 4))
          by (split; eapply (block_not_static _ _ _ T); try exact Hb'; lia).
        unfold static_word in Hns'. lia.
    + apply Hns in Hn. assert (Hn' := Hn). apply (listed_block _ _ _ T) in Hn' as (b' & Hb' & _ & Hib & H).
      unfold OFF_NEXT in *.
      assert (Hna : n - 4 <> a).
      { intros E. destruct Hn as (b0 & Hb0 & _ & Hi0' & Hp0). unfold OFF_NEXT in *.
        rewrite E, Hb in *. congruence. }
      apply Hfr.
      * intros Hw'. apply Hna. pose proof (block_bounds _ _ _ T _ _ Hb).
        eapply (block_unique _ _ _ T (n - 4) a b' b w); eauto; lia.
      * intros Hw'. eapply (block_not_static _ _ _ T (n - 4) b' w); [done|lia|]. unfold static_word. lia.
      * intros n2 Hn2. assert (Hn2' := Hn2).
        apply (listed_block _ _ _ T) in Hn2' as (b2 & Hb2 & _ & Hib2 & H2). unfold OFF_NEXT in *.
        assert (n - 4 <> n2 - 4).
        { intros E. destruct Hn as (b0 & Hb0 & _ & Hi0' & Hp0), Hn2 as (b3 & Hb3 & _ & Hi3 & Hp3).
          unfold OFF_NEXT in *. rewrite E in *. congruence. }
        assert (Hx : ~ (n2 - 4 <= w < n2 - 4 + bsize b2)); [|lia].
        intros Hw'. apply H0. eapply (block_unique _ _ _ T _ _ b' b2 w); eauto; lia.
Qed.
End Heap.
