(* ===== verification/BuddyOps.v ===== *)
(** * Buddy allocator: what the operations do to the heap

    [unlink_block] marks a free block used, [link_block] marks a used block
    free; splitting, merging, taking a chunk from Exec and giving it back change
    the tiling.  Each keeps the heap invariant and writes only words the
    allocator owns. *)

From S2P Require Import Prelude Ixlist BuddyInv.

Section Heap.
Context (free_list : Z).
Implicit Types (m : mem) (h C : gmap Z Z) (B : gmap Z blk) (a c x w p i n : Z) (b : blk).
Notation bucket := (bucket free_list).
Notation tiled := (tiled free_list).
Notation rep := (rep free_list).
Notation heap_inv := (heap_inv free_list).
Notation owned := (owned free_list).
Notation static_word := (static_word free_list).

Lemma put_pool_ne m a p w : w <> a -> ld (put_pool m a p) w = ld m w.
Proof. intros H. unfold put_pool. by rewrite ld_st_ne. Qed.

Lemma get_put_pool m a p : 0 <= p < 4 -> get_pool (put_pool m a p) a = p.
Proof. intros H. unfold get_pool, put_pool. rewrite ld_st_eq. by apply hd_pool_set_pool. Qed.

Lemma get_exec_put_pool m a p : get_exec (put_pool m a p) a = get_exec m a.
Proof. unfold get_exec, put_pool. rewrite ld_st_eq. apply hd_exec_set_pool. Qed.

Lemma get_pool_ext m m' a : ld m' a = ld m a -> get_pool m' a = get_pool m a.
Proof. unfold get_pool. by intros ->. Qed.

Lemma get_exec_ext m m' a : ld m' a = ld m a -> get_exec m' a = get_exec m a.
Proof. unfold get_exec. by intros ->. Qed.

(** The words of a free list. *)
Lemma owns_listed C B p i ns w : (forall n, n ∈ ns -> listed C B p i n) -> owns (bucket p i) ns w ->
  bucket p i <= w < bucket p i + 8 \/ exists n, listed C B p i n /\ (w = n \/ w = n + 4).
Proof.
  intros Hl (n & Hn & Hw). rewrite elem_of_cons in Hn. destruct Hn as [-> | Hn]; [left; lia|].
  right. exists n. auto.
Qed.

Lemma header_not_owns h C B a b p i ns k :
  tiled h C B -> B !! a = Some b -> is_pool p -> 0 <= i < 12 -> 0 <= k < 16 -> k <> 4 -> k <> 8 ->
  (forall n, n ∈ ns -> listed C B p i n) -> ~ owns (bucket p i) ns (a + k).
Proof.
  intros T Hb Hp Hi Hk H4 H8 Hl [H|(n & Hn & H)]%(owns_listed C B); [| |done].
  - by eapply block_word_not_bucket.
  - edestruct block_word_not_listed as [H1 H2]; [done|done|exact Hn| | | |]; [exact Hk|done|done|].
    destruct H; contradiction.
Qed.

Lemma owns_owned h C B p i ns w : tiled h C B -> is_pool p -> 0 <= i < 12 ->
  (forall n, n ∈ ns -> listed C B p i n) -> owns (bucket p i) ns w -> owned B w.
Proof.
  intros T Hp Hi Hl [H|(n & Hn & H)]%(owns_listed C B); [| |done].
  - left. pose proof (bucket_static free_list p i Hp Hi). unfold BuddyInv.static_word. lia.
  - right. apply (listed_block _ _ _ _ T) in Hn as (b & Hb & Hf & _ & Hn). unfold OFF_NEXT in *.
    exists (n - 4), b. split; [done|]. right. split; [done|]. lia.
Qed.

(** ** Taking a free block out of its list *)

(** The place of a free block in its list. *)
Lemma list_of_block m h C B a b p :
  tiled h C B -> rep m C B -> B !! a = Some b -> k_free b = true -> C !! k_chunk b = Some p ->
  is_pool p /\ 0 <= k_idx b < 12 /\ exists pre post,
    dll m (bucket p (k_idx b)) (pre ++ (a + OFF_NEXT) :: post) /\
    apart (bucket p (k_idx b)) (pre ++ (a + OFF_NEXT) :: post) /\
    forall n, n ∈ pre ++ (a + OFF_NEXT) :: post <-> listed C B p (k_idx b) n.
Proof.
  intros T R Hb Hf Hp. destruct (r_index _ _ _ _ R _ _ Hb Hf) as [_ Hi12].
  destruct (block_bounds _ _ _ _ T _ _ Hb) as (_ & _ & _ & _ & _ & Hi0 & _).
  destruct (t_chunk _ _ _ _ T _ _ Hp) as (_ & _ & Hip). split; [done|]. split; [lia|].
  destruct (r_list _ _ _ _ R p (k_idx b) Hip ltac:(lia)) as (ns & Hd & Hnd & Hns).
  assert (Hin : a + OFF_NEXT ∈ ns).
  { apply Hns. exists b. replace (a + OFF_NEXT - OFF_NEXT) with a by ring. done. }
  apply list_elem_of_split in Hin as (pre & post & ->). exists pre, post. split; [done|].
  split; [|done]. eapply listed_apart; try done. intros n. apply Hns.
Qed.

Lemma bucket_pos h C B p i : tiled h C B -> is_pool p -> 0 <= i < 12 -> 0 < bucket p i.
Proof.
  intros T Hp Hi. pose proof (bucket_static free_list p i Hp Hi). pose proof (free_list_pos _ _ _ _ T). lia.
Qed.

Lemma listed_sublist C B p i (pre post : list Z) n0 :
  (forall n, n ∈ pre ++ n0 :: post <-> listed C B p i n) -> forall n, n ∈ pre ++ post -> listed C B p i n.
Proof. intros H n Hn. apply H. rewrite elem_of_app, elem_of_cons in *. tauto. Qed.

(** The list without the block represents the heap with the block used. *)
Lemma listed_mark_used C B a b p i (pre post : list Z) :
  NoDup (pre ++ (a + OFF_NEXT) :: post) ->
  (forall n, n ∈ pre ++ (a + OFF_NEXT) :: post <-> listed C B p i n) ->
  forall n, n ∈ pre ++ post <-> listed C (<[a := mark b false]> B) p i n.
Proof.
  intros Hnd Hns n. rewrite <- Permutation_middle in Hnd. apply NoDup_cons in Hnd as [Hna _].
  unfold listed. destruct (decide (n - OFF_NEXT = a)) as [E|E].
  - rewrite E, lookup_insert_eq. replace n with (a + OFF_NEXT) by lia.
    split; [intros; contradiction|]. by intros (? & [= <-] & ? & _).
  - rewrite lookup_insert_ne by done. fold (listed C B p i n). rewrite <- Hns.
    rewrite !elem_of_app, elem_of_cons. assert (n <> a + OFF_NEXT) by lia. tauto.
Qed.

Lemma unlink_at m h C B a b p :
  heap_inv m h C B -> B !! a = Some b -> k_free b = true -> C !! k_chunk b = Some p ->
  let m' := ixremove (put_pool m a (p + 1)) (bucket p (k_idx b)) (a + OFF_NEXT) in
  heap_inv m' h C (<[a := mark b false]> B) /\ (forall w, ~ owned B w -> ld m' w = ld m w) /\
  m' = put_pool (ixremove m (bucket p (k_idx b)) (a + OFF_NEXT)) a (p + 1).
Proof.
  intros (T & R & K) Hb Hf Hp m'. set (m1 := put_pool m a (p + 1)) in *.
  destruct (r_header _ _ _ _ R _ _ _ Hb Hp) as [_ Hexec].
  destruct (list_of_block _ _ _ _ _ _ _ T R Hb Hf Hp) as (Hip & Hi & pre & post & Hd & Hap & Hns).
  pose proof (bucket_pos _ _ _ _ _ T Hip Hi) as Hbp.
  assert (Hl2 := listed_sublist _ _ _ _ _ _ _ Hns).
  assert (Hno : forall ns', (forall n, n ∈ ns' -> listed C B p (k_idx b) n) ->
    ~ owns (bucket p (k_idx b)) ns' a).
  { intros ns' Hl'. rewrite <- (Z.add_0_r a). eapply header_not_owns; try done; lia. }
  assert (Hd1 : dll m1 (bucket p (k_idx b)) (pre ++ (a + OFF_NEXT) :: post)).
  { eapply dll_ext; [exact Hd|]. intros w Hw. apply put_pool_ne. intros ->.
    eapply Hno; [|exact Hw]. intros n. apply Hns. }
  destruct (ixremove_spec m1 (bucket p (k_idx b)) pre (a + OFF_NEXT) post) as [Hd' Hfr]; [done..|].
  fold m' in Hd', Hfr. assert (Ha : ld m' a = ld m1 a) by (apply Hfr; auto).
  split; [split; [by apply tiled_mark|split; [|by apply coal_mark_used]]|split].
  - apply (rep_change free_list m m' h C B a b p false); try done.
    + lia.
    + rewrite (get_pool_ext m1 m' a Ha). apply get_put_pool. destruct Hip; lia.
    + rewrite (get_exec_ext m1 m' a Ha). unfold m1. by rewrite get_exec_put_pool.
    + exists (pre ++ post). split; [done|]. destruct Hap as [[_ Hnd]%NoDup_cons _].
      split; [|by apply listed_mark_used].
      eapply sublist_NoDup; [done|]. apply sublist_app; [done|]. by apply sublist_cons.
    + intros w H1 H2 H3. rewrite Hfr; [apply put_pool_ne; lia|].
      intros [H|(n & Hn & H)]%(owns_listed C B); [by apply H2| |done].
      destruct (H3 n Hn), H; contradiction.
  - intros w Hw. rewrite Hfr; [apply put_pool_ne|].
    + intros ->. apply Hw. right. exists a, b. auto.
    + intros H. apply Hw. by eapply (owns_owned h C B p (k_idx b)).
  - unfold m'. rewrite !(ixremove_eq _ _ pre _ post) by done. unfold m1, put_pool.
    assert (Hf1 : a <> List.last pre (bucket p (k_idx b))).
    { intros E. eapply Hno; [exact Hl2|]. rewrite E. by eapply owns_fwd. }
    assert (Hf2 : a <> hd (bucket p (k_idx b)) post + 4).
    { intros E. eapply Hno; [exact Hl2|]. rewrite E. by eapply owns_bwd. }
    rewrite !(ld_st_ne _ _ a) by done. unfold st.
    rewrite (insert_insert_ne m _ a) by done. by rewrite (insert_insert_ne _ _ a) by done.
Qed.

(** [unlink_block] of a given block, and of the first block of a bucket. *)
Lemma unlink_block_at m h C B a b p :
  heap_inv m h C B -> B !! a = Some b -> k_free b = true -> C !! k_chunk b = Some p ->
  exists m', unlink_block free_list m p (k_idx b) a = (a, m') /\
    heap_inv m' h C (<[a := mark b false]> B) /\ (forall w, ~ owned B w -> ld m' w = ld m w).
Proof.
  intros H Hb Hf Hp. destruct (unlink_at _ _ _ _ _ _ _ H Hb Hf Hp) as (H1 & H2 & _).
  destruct H as (T & R & _). pose proof (block_bounds _ _ _ _ T _ _ Hb).
  unfold unlink_block. rewrite (proj2 (Z.eqb_neq a 0)) by lia.
  rewrite put_pool_ne by (unfold fb_index; lia).
  destruct (r_index _ _ _ _ R _ _ Hb Hf) as [-> _]. eauto.
Qed.

Lemma unlink_block_head m h C B p i :
  heap_inv m h C B -> is_pool p -> 0 <= i < 12 ->
  (exists a b m', B !! a = Some b /\ k_free b = true /\ k_idx b = i /\ C !! k_chunk b = Some p /\
    unlink_block free_list m p i 0 = (a, m') /\
    heap_inv m' h C (<[a := mark b false]> B) /\ (forall w, ~ owned B w -> ld m' w = ld m w)) \/
  (unlink_block free_list m p i 0 = (0, m) /\ forall n, ~ listed C B p i n).
Proof.
  intros H Hp Hi. destruct H as (T & R & K). pose proof (bucket_pos _ _ _ _ _ T Hp Hi) as Hbp.
  destruct (r_list _ _ _ _ R p i Hp Hi) as (ns & Hd & Hnd & Hns). unfold unlink_block. cbn [Z.eqb].
  destruct ns as [|n ns].
  - right. rewrite ixremhead_nil by done. split; [done|]. intros n Hn%Hns. set_solver.
  - left. rewrite (ixremhead_cons _ _ _ ns) by done.
    assert (Hn : 0 < n) by (eapply (proj1 Hd); apply elem_of_cons; auto).
    rewrite (proj2 (Z.eqb_neq n 0)) by lia. cbn [negb].
    assert (listed C B p i n) as (b & Hb & Hf & Hib & Hc) by (apply Hns, elem_of_cons; auto).
    destruct (unlink_at _ _ _ _ _ _ _ (conj T (conj R K)) Hb Hf Hc) as (H1 & H2 & H3).
    subst i. replace (n - OFF_NEXT + OFF_NEXT) with n in * by ring.
    exists (n - OFF_NEXT), b. eexists. rewrite <- H3. eauto 10.
Qed.

(** ** Putting a block on its free list *)

Lemma listed_mark_free C B a b p n : B !! a = Some b -> k_free b = false -> C !! k_chunk b = Some p ->
  listed C (<[a := mark b true]> B) p (k_idx b) n <-> n = a + OFF_NEXT \/ listed C B p (k_idx b) n.
Proof.
  intros Hb Hu Hp. unfold listed. destruct (decide (n - OFF_NEXT = a)) as [E|E].
  - rewrite E, lookup_insert_eq. split; [intros; left; lia|]. intros [_|(b0 & Hb0 & Hf & _)].
    + by exists (mark b true).
    + rewrite Hb in Hb0. injection Hb0 as <-. congruence.
  - rewrite lookup_insert_ne by done. split; [auto|]. intros [->|?]; [lia|done].
Qed.

Lemma link_block_spec m h C B a b p :
  heap_inv m h C B -> B !! a = Some b -> k_free b = false -> k_idx b < 12 -> C !! k_chunk b = Some p ->
  (forall b', B !! buddy_addr a b = Some b' -> k_free b' = true -> k_idx b' <> k_idx b) ->
  let m' := link_block free_list m p (k_idx b) a in
  heap_inv m' h C (<[a := mark b true]> B) /\
  (forall w, ~ owned (<[a := mark b true]> B) w -> ld m' w = ld m w).
Proof.
  intros (T & R & K) Hb Hu Hi12 Hp Hbud m'.
  destruct (block_bounds _ _ _ _ T _ _ Hb) as (Ha0 & Hsz & _ & _ & _ & Hi0 & _).
  destruct (t_chunk _ _ _ _ T _ _ Hp) as (_ & _ & Hip).
  destruct (r_header _ _ _ _ R _ _ _ Hb Hp) as [_ Hexec].
  destruct (r_list _ _ _ _ R p (k_idx b) Hip ltac:(lia)) as (ns & Hd & Hnd & Hns).
  pose proof (bucket_pos _ _ _ _ _ T Hip (conj Hi0 Hi12)) as Hbp.
  assert (T' := tiled_mark _ _ _ _ _ _ true T Hb).
  assert (Hb' : <[a := mark b true]> B !! a = Some (mark b true)) by apply lookup_insert_eq.
  set (m1 := put_pool m a 0). set (m2 := st m1 (fb_index a) (k_idx b)).
  assert (Hm2 : forall w, w <> a -> w <> a + 12 -> ld m2 w = ld m w).
  { intros w H1 H2. unfold m2, fb_index. rewrite ld_st_ne by lia. by apply put_pool_ne. }
  assert (Hl' : forall n, n ∈ (a + OFF_NEXT) :: ns ->
    listed C (<[a := mark b true]> B) p (k_idx b) n).
  { intros n. rewrite listed_mark_free, <- Hns, elem_of_cons by done. tauto. }
  assert (Hno : forall k, k = 0 \/ k = 12 -> ~ owns (bucket p (k_idx b)) ((a + OFF_NEXT) :: ns) (a + k)).
  { intros k Hk. eapply (header_not_owns h C _ a); [exact T'|exact Hb'| | |lia|lia|lia|exact Hl'];
      [done|lia]. }
  assert (Hna : a + OFF_NEXT ∉ ns).
  { intros (b0 & Hb0 & Hf & _)%Hns. replace (a + OFF_NEXT - OFF_NEXT) with a in Hb0 by ring.
    rewrite Hb in Hb0. injection Hb0 as <-. congruence. }
  destruct (ixaddhead_spec m2 (bucket p (k_idx b)) (a + OFF_NEXT) ns) as [Hd' Hfr].
  { eapply dll_ext; [exact Hd|]. intros w (n & Hn & Hw).
    assert (Hw' : owns (bucket p (k_idx b)) ((a + OFF_NEXT) :: ns) w).
    { exists n. rewrite !elem_of_cons in *. tauto. }
    apply Hm2; intros ->; [apply (Hno 0); [auto|by rewrite Z.add_0_r]|by apply (Hno 12); auto]. }
  { eapply listed_apart; [exact T'|done|lia| |exact Hl']. by apply NoDup_cons. }
  { done. }
  { unfold OFF_NEXT. lia. }
  change (ixaddhead m2 (bucket p (k_idx b)) (a + OFF_NEXT)) with m' in Hd', Hfr.
  assert (Ha : ld m' a = ld m1 a).
  { rewrite Hfr.
    - unfold m2, fb_index. by rewrite ld_st_ne by lia.
    - pose proof (Hno 0 (or_introl eq_refl)) as H. by rewrite Z.add_0_r in H. }
  split; [split; [done|split; [|by eapply coal_mark_free]]|].
  - apply (rep_change free_list m m' h C B a b p true); try done.
    + rewrite (get_pool_ext m1 m' a Ha). by apply get_put_pool.
    + rewrite (get_exec_ext m1 m' a Ha). unfold m1. by rewrite get_exec_put_pool.
    + intros _. unfold fb_index. rewrite Hfr by auto. unfold m2, fb_index. by rewrite ld_st_eq.
    + exists ((a + OFF_NEXT) :: ns). split; [done|]. split; [by apply NoDup_cons|].
      intros n. rewrite listed_mark_free, elem_of_cons, Hns by done. done.
    + intros w H1 H2 H3. rewrite Hfr; [apply Hm2; lia|]. intros (n & Hn & H).
      rewrite !elem_of_cons in Hn. unfold OFF_NEXT in *. destruct Hn as [-> | [-> | Hn]]; [lia|lia|].
      apply Hns in Hn. destruct (H3 n Hn), H; contradiction.
  - assert (Hown : forall w, a <= w < a + 16 -> owned (<[a := mark b true]> B) w).
    { intros w Hw. right. exists a, (mark b true). split; [done|]. right. split; [done|].
      change (bsize (mark b true)) with (bsize b). lia. }
    intros w Hw. rewrite Hfr.
    + apply Hm2; intros ->; apply Hw, Hown; lia.
    + intros H. apply Hw. eapply (owns_owned h C _ p (k_idx b)); [exact T'|done|lia|exact Hl'|done].
Qed.

(** ** Free blocks are the same: the coalescing invariant stays *)

Lemma coal_sub B B' : (forall a b, B' !! a = Some b -> k_free b = true -> B !! a = Some b) ->
  coal B -> coal B'.
Proof. intros H K a b b' Hb Hb' Hi Hf Hf'. apply (K a b b'); auto. Qed.

(** The free lists only depend on the free blocks. *)
Lemma rep_same_free m m' h C C' B B' :
  tiled h C B -> rep m C B ->
  (forall a b, k_free b = true -> B' !! a = Some b <-> B !! a = Some b) ->
  (forall a b, B !! a = Some b -> k_free b = true -> C' !! k_chunk b = C !! k_chunk b) ->
  (forall a b p, B' !! a = Some b -> k_free b = false -> C' !! k_chunk b = Some p ->
     get_pool m' a = p + 1 /\ get_exec m' a = k_chunk b / 4) ->
  (forall w, owned B w -> ld m' w = ld m w \/ exists b, B !! w = Some b /\ k_free b = false) ->
  rep m' C' B'.
Proof.
  intros T R Hfree HC Hused Hm. split.
  - intros a b p Hb Hp. destruct (k_free b) eqn:Hf; [|by apply Hused].
    apply Hfree in Hb; [|done]. rewrite (HC _ _ Hb Hf) in Hp.
    destruct (r_header _ _ _ _ R _ _ _ Hb Hp) as [H1 H2]. rewrite Hf in H1.
    destruct (Hm a) as [E|(b1 & Hb1 & Hf1)]; [right; exists a, b; auto| |congruence].
    by rewrite (get_pool_ext m), (get_exec_ext m).
  - intros a b Hb Hf. apply Hfree in Hb; [|done]. destruct (r_index _ _ _ _ R _ _ Hb Hf) as [H1 H2].
    split; [|done]. rewrite <- H1. pose proof (block_bounds _ _ _ _ T _ _ Hb).
    destruct (Hm (fb_index a)) as [E|(b1 & Hb1 & Hf1)]; [right; exists a, b|done|exfalso].
    + split; [done|]. right. split; [done|]. unfold fb_index. lia.
    + pose proof (block_bounds _ _ _ _ T _ _ Hb1). unfold fb_index in *.
      assert (a = a + 12) by (eapply (block_unique _ _ _ _ T a (a + 12) b b1 (a + 12)); eauto; lia). lia.
  - intros p i Hp Hi. destruct (r_list _ _ _ _ R p i Hp Hi) as (ns & Hd & Hnd & Hns).
    assert (Hl : forall n, listed C' B' p i n <-> listed C B p i n).
    { intros n. unfold listed. split; intros (b & Hb & Hf & Hx & Hc); exists b.
      - apply Hfree in Hb; [|done]. by rewrite <- (HC _ _ Hb Hf).
      - rewrite (HC _ _ Hb Hf). split; [by apply Hfree|done]. }
    exists ns. split; [|split; [done|intros n; by rewrite Hl]].
    eapply dll_ext; [exact Hd|]. intros w Hw.
    assert (Ho : owned B w) by (eapply owns_owned; try done; intros n; apply Hns).
    destruct (Hm w Ho) as [E|(b1 & Hb1 & Hf1)]; [done|exfalso].
    eapply (header_not_owns h C B w b1 p i ns 0); try done; [intros n; apply Hns|]. by rewrite Z.add_0_r.
Qed.

(** ** Splitting a used block *)

Definition split_blk B a c i : gmap Z blk :=
  <[a + bsz i := mk_blk c i false]> (<[a := mk_blk c i false]> B).

Lemma split_lookup B a c i a' b' : split_blk B a c i !! a' = Some b' ->
  (b' = mk_blk c i false /\ (a' = a \/ a' = a + bsz i)) \/
  (a' <> a /\ a' <> a + bsz i /\ B !! a' = Some b').
Proof.
  unfold split_blk. rewrite !lookup_insert_Some.
  intros [[<- <-]|[? [[<- <-]|[? H]]]]; [left; auto|left; auto|right; auto].
Qed.

Lemma split_lookup_hd B a c i : 0 <= i -> split_blk B a c i !! a = Some (mk_blk c i false) /\
  split_blk B a c i !! (a + bsz i) = Some (mk_blk c i false).
Proof.
  intros Hi. pose proof (bsz_min i Hi). unfold split_blk. rewrite lookup_insert_eq.
  by rewrite lookup_insert_ne, lookup_insert_eq by lia.
Qed.

Lemma tiled_split h C B a b i :
  tiled h C B -> B !! a = Some b -> k_idx b = i + 1 -> 0 <= i ->
  tiled h C (split_blk B a (k_chunk b) i).
Proof.
  intros T Hb Hbi Hi. pose proof (bsz_min i Hi) as Hm.
  assert (Hs : bsize b = 2 * bsz i) by (unfold bsize; rewrite Hbi; by apply bsz_S).
  destruct (split_lookup_hd B a (k_chunk b) i Hi) as [La Lb].
  destruct T as [T1 T2 T3 T4 T5 T6 T7]. split; try done.
  - intros a' b' [[-> Ha']|(_ & _ & H)]%split_lookup; [|by apply T5].
    destruct (T5 _ _ Hb) as [Hc (G1 & G2 & G3 & G4)]. split; [done|].
    unfold geo, bsize. cbn [k_idx k_chunk]. rewrite Hs in *. split; [lia|]. split; [lia|].
    split; [lia|]. assert (D : (bsz i | a - k_chunk b)).
    { etransitivity; [|exact G4]. apply Z.divide_factor_r. }
    destruct Ha' as [-> | ->]; [done|].
    replace (a + bsz i - k_chunk b) with (a - k_chunk b + bsz i) by ring.
    apply Z.divide_add_r; [done|apply Z.divide_refl].
  - intros a1 a2 b1 b2 [[-> H1]|(N1 & _ & H1)]%split_lookup [[-> H2]|(N2 & _ & H2)]%split_lookup Hne;
      unfold bsize at 1; cbn [k_idx].
    + unfold bsize. cbn [k_idx]. lia.
    + destruct (T6 _ _ _ _ Hb H2); lia.
    + destruct (T6 _ _ _ _ Hb H1); [lia| |]; unfold bsize in *; cbn [k_idx]; lia.
    + by apply T6.
  - intros c p x Hc Hx. destruct (T7 c p x Hc Hx) as (a' & b' & H & H').
    destruct (Z.eq_dec a' a) as [->|Hne].
    + rewrite Hb in H. injection H as <-. destruct (Z_lt_le_dec x (a + bsz i)).
      * exists a, (mk_blk (k_chunk b) i false). split; [done|]. unfold bsize. cbn [k_idx]. lia.
      * exists (a + bsz i), (mk_blk (k_chunk b) i false). split; [done|]. unfold bsize. cbn [k_idx]. lia.
    + exists a', b'. split; [|done]. unfold split_blk.
      rewrite !lookup_insert_ne; [done|done|]. intros <-. destruct (T6 _ _ _ _ Hb H); [lia|lia|].
      unfold bsize in *. lia.
Qed.

Lemma heap_split m m' h C B a b p i :
  heap_inv m h C B -> B !! a = Some b -> k_free b = false -> k_idx b = i + 1 -> 0 <= i ->
  C !! k_chunk b = Some p ->
  (forall w, w <> a + bsz i -> ld m' w = ld m w) ->
  get_pool m' (a + bsz i) = p + 1 -> get_exec m' (a + bsz i) = k_chunk b / 4 ->
  heap_inv m' h C (split_blk B a (k_chunk b) i).
Proof.
  intros (T & R & K) Hb Hu Hbi Hi Hp Hm Hpool Hexec. pose proof (bsz_min i Hi) as Hmin.
  assert (Hs : bsize b = 2 * bsz i) by (unfold bsize; rewrite Hbi; by apply bsz_S).
  assert (Hin : forall a1 b1, B !! a1 = Some b1 -> a1 <= a + bsz i < a1 + bsize b1 -> a1 = a).
  { intros a1 b1 H1 H. eapply (block_unique _ _ _ _ T a1 a b1 b); eauto; lia. }
  assert (Hfree : forall a1 b1, k_free b1 = true ->
    split_blk B a (k_chunk b) i !! a1 = Some b1 <-> B !! a1 = Some b1).
  { intros a1 b1 Hf. split.
    - by intros [[-> _]|(_ & _ & ?)]%split_lookup.
    - intros H1. pose proof (block_bounds _ _ _ _ T _ _ H1). unfold split_blk.
      rewrite !lookup_insert_ne; [done| |]; intros <-; [congruence|].
      assert (a + bsz i = a); [eapply Hin; eauto; lia|lia]. }
  split; [by apply tiled_split|split].
  - eapply rep_same_free; try done.
    + intros a1 b1 p1 [[-> [-> | ->]]|(N1 & N2 & H1)]%split_lookup Hf Hp1.
      * cbn [k_chunk] in *. rewrite Hp in Hp1. injection Hp1 as <-.
        destruct (r_header _ _ _ _ R _ _ _ Hb Hp) as [E1 E2]. rewrite Hu in E1.
        rewrite (get_pool_ext m), (get_exec_ext m) by (apply Hm; lia). done.
      * cbn [k_chunk] in *. rewrite Hp in Hp1. by injection Hp1 as <-.
      * destruct (r_header _ _ _ _ R _ _ _ H1 Hp1) as [E1 E2]. rewrite Hf in E1.
        by rewrite (get_pool_ext m), (get_exec_ext m) by (by apply Hm).
    + intros w Hw. left. apply Hm. intros ->. destruct Hw as [Hw|(a1 & b1 & H1 & [E|[Hf Hw]])].
      * eapply (block_not_static _ _ _ _ T a b); [done| |exact Hw]. lia.
      * pose proof (block_bounds _ _ _ _ T _ _ H1). assert (a1 = a); [eapply Hin; eauto; lia|lia].
      * rewrite (Hin _ _ H1 Hw) in H1. congruence.
  - eapply coal_sub; [|done]. intros a1 b1 H1 Hf. by apply Hfree.
Qed.

(** ** Merging two used buddies *)

Definition merge_blk B a a2 c i : gmap Z blk := <[a := mk_blk c (i + 1) false]> (delete a2 B).

Lemma tiled_merge h C B a b b2 :
  let a2 := a + bsize b in
  tiled h C B -> B !! a = Some b -> B !! a2 = Some b2 -> k_idx b2 = k_idx b -> k_idx b < 12 ->
  (2 * bsize b | a - k_chunk b) -> k_chunk b2 = k_chunk b ->
  tiled h C (merge_blk B a a2 (k_chunk b) (k_idx b)).
Proof.
  intros a2 T Hb Hb2 Hi2 Hi12 Hd Hc2.
  pose proof (block_bounds _ _ _ _ T _ _ Hb) as (_ & Hm & _ & _ & _ & Hi & _).
  pose proof (block_bounds _ _ _ _ T _ _ Hb2) as (_ & _ & _ & _ & Hend & _).
  assert (Hs2 : bsize b2 = bsize b) by (unfold bsize; by rewrite Hi2).
  assert (Hs : bsz (k_idx b + 1) = 2 * bsize b) by (by apply bsz_S).
  assert (Hl : forall a' b', merge_blk B a a2 (k_chunk b) (k_idx b) !! a' = Some b' ->
    (a' = a /\ b' = mk_blk (k_chunk b) (k_idx b + 1) false) \/ (a' <> a /\ a' <> a2 /\ B !! a' = Some b')).
  { intros a' b'. unfold merge_blk. rewrite lookup_insert_Some, lookup_delete_Some.
    intros [[<- <-]|(? & ? & ?)]; auto. }
  assert (Hpos : forall a1 b1, B !! a1 = Some b1 -> 16 <= bsize b1)
    by (intros a1 b1 H1; by destruct (block_bounds _ _ _ _ T _ _ H1) as (_ & ? & _)).
  destruct T as [T1 T2 T3 T4 T5 T6 T7]. split; try done.
  - intros a' b' [[-> ->]|(_ & _ & H)]%Hl; [|by apply T5].
    destruct (T5 _ _ Hb) as [Hc (G1 & G2 & G3 & G4)]. split; [done|].
    unfold geo, bsize. cbn [k_idx k_chunk]. rewrite Hs. rewrite Hc2 in *. unfold a2 in *.
    split; [lia|]. split; [lia|]. split; [lia|done].
  - assert (E : bsize (mk_blk (k_chunk b) (k_idx b + 1) false) = 2 * bsize b) by exact Hs.
    intros a1 a3 b1 b3 [[-> ->]|(N1 & M1 & H1)]%Hl [[-> ->]|(N3 & M3 & H3)]%Hl Hne;
      [done| | |by apply T6]; rewrite E.
    + pose proof (Hpos _ _ H3).
      destruct (T6 _ _ _ _ Hb H3), (T6 _ _ _ _ Hb2 H3); try done; unfold a2 in *; lia.
    + pose proof (Hpos _ _ H1).
      destruct (T6 _ _ _ _ Hb H1), (T6 _ _ _ _ Hb2 H1); try done; unfold a2 in *; lia.
  - intros c p x Hc Hx. destruct (T7 c p x Hc Hx) as (a' & b' & H & H').
    destruct (decide (a' = a \/ a' = a2)) as [E|E].
    + exists a, (mk_blk (k_chunk b) (k_idx b + 1) false). unfold merge_blk. rewrite lookup_insert_eq.
      split; [done|]. unfold bsize at 1. cbn [k_idx]. rewrite Hs. unfold a2 in *.
      destruct E as [-> | ->]; [rewrite Hb in H|rewrite Hb2 in H]; injection H as <-; lia.
    + exists a', b'. split; [|done]. unfold merge_blk.
      rewrite lookup_insert_ne by (intros ->; auto). by rewrite lookup_delete_ne by (intros ->; auto).
Qed.

Lemma heap_merge m h C B a b b2 :
  let a2 := a + bsize b in
  heap_inv m h C B -> B !! a = Some b -> k_free b = false -> B !! a2 = Some b2 -> k_free b2 = false ->
  k_idx b2 = k_idx b -> k_idx b < 12 -> (2 * bsize b | a - k_chunk b) -> k_chunk b2 = k_chunk b ->
  heap_inv m h C (merge_blk B a a2 (k_chunk b) (k_idx b)).
Proof.
  intros a2 (T & R & K) Hb Hu Hb2 Hu2 Hi2 Hi12 Hd Hc2.
  assert (Hfree : forall a1 b1, k_free b1 = true ->
    merge_blk B a a2 (k_chunk b) (k_idx b) !! a1 = Some b1 <-> B !! a1 = Some b1).
  { intros a1 b1 Hf. unfold merge_blk. rewrite lookup_insert_Some, lookup_delete_Some. split.
    - by intros [[_ <-]|(_ & _ & ?)].
    - intros H1. right. split; [intros <-; congruence|]. split; [intros <-; congruence|done]. }
  split; [by apply (tiled_merge h C B a b b2)|split].
  - eapply rep_same_free; try done; [|auto].
    intros a1 b1 p1 H1 Hf Hp1. unfold merge_blk in H1.
    rewrite lookup_insert_Some, lookup_delete_Some in H1. destruct H1 as [[<- <-]|(_ & _ & H1)].
    + destruct (r_header _ _ _ _ R _ _ _ Hb Hp1) as [E1 E2]. by rewrite Hu in E1.
    + destruct (r_header _ _ _ _ R _ _ _ H1 Hp1) as [E1 E2]. by rewrite Hf in E1.
  - eapply coal_sub; [|done]. intros a1 b1 H1 Hf. by apply Hfree.
Qed.

(** ** Chunks from Exec and back *)

(** The address is that of [size] bytes Exec may hand out. *)
Definition fresh_mem h a size : Prop :=
  0 < a /\ (8 | a) /\ a + size <= 2 ^ 32 /\
  forall a' sz, h !! a' = Some sz -> a + size <= a' \/ a' + sz <= a.

Lemma fresh_not_held h a size : (forall a' sz, h !! a' = Some sz -> 0 < sz) -> 0 < size ->
  fresh_mem h a size -> h !! a = None.
Proof.
  intros Hpos Hs (_ & _ & _ & H). destruct (h !! a) as [sz|] eqn:E; [|done].
  pose proof (Hpos _ _ E). destruct (H _ _ E); lia.
Qed.

(** Holding more memory, or giving some back, does not disturb the tiling. *)
Lemma tiled_hold h C B a size : tiled h C B -> 0 < size -> fresh_mem h a size ->
  tiled (<[a := size]> h) C B.
Proof.
  intros T Hs F. assert (Hnh : h !! a = None).
  { eapply fresh_not_held; [|done|done]. intros a' sz H. by apply (t_held _ _ _ _ T) in H as (_ & ? & _). }
  destruct F as (F1 & F2 & F3 & F4). destruct T as [T1 T2 T3 T4 T5 T6 T7]. split; try done.
  - rewrite lookup_insert_ne; [done|]. intros ->. congruence.
  - intros a1 sz1. rewrite lookup_insert_Some. intros [[<- <-]|[_ H]]; [done|by apply T2].
  - intros a1 a2 s1 s2. rewrite !lookup_insert_Some.
    intros [[<- <-]|[_ H1]] [[<- <-]|[_ H2]] Hne; [done| | |by eapply T3].
    + by apply F4.
    + destruct (F4 _ _ H1); auto.
  - intros c p Hc. destruct (T4 _ _ Hc) as (H & H'). split; [|done].
    rewrite lookup_insert_ne; [done|]. intros ->. congruence.
Qed.

Lemma tiled_release h C B a size : tiled h C B -> h !! a = Some size -> a <> free_list ->
  C !! a = None -> tiled (delete a h) C B.
Proof.
  intros T Ha Hnf Hnc. destruct T as [T1 T2 T3 T4 T5 T6 T7]. split; try done.
  - by rewrite lookup_delete_ne.
  - intros a1 sz1. rewrite lookup_delete_Some. intros [_ H]. by apply T2.
  - intros a1 a2 s1 s2. rewrite !lookup_delete_Some. intros [_ H1] [_ H2]. by apply T3.
  - intros c p Hc. destruct (T4 _ _ Hc) as (H & H'). split; [|done].
    rewrite lookup_delete_ne; [done|]. intros ->. congruence.
Qed.

Definition chunk_blk c : blk := mk_blk c 12 false.

Lemma heap_new_chunk m m' h C B c p :
  heap_inv m h C B -> fresh_mem h c MAXSIZE -> is_pool p ->
  (forall w, w <> c -> ld m' w = ld m w) -> get_pool m' c = p + 1 -> get_exec m' c = c / 4 ->
  heap_inv m' (<[c := MAXSIZE]> h) (<[c := p]> C) (<[c := chunk_blk c]> B) /\
  C !! c = None /\ B !! c = None.
Proof.
  intros (T & R & K) F Hip Hm Hpool Hexec.
  assert (Hnh : h !! c = None).
  { eapply (fresh_not_held h c MAXSIZE); [|done|done]. intros a' sz H. by apply (t_held _ _ _ _ T) in H as (_ & ? & _). }
  assert (T' := tiled_hold _ _ _ c MAXSIZE T ltac:(done) F).
  assert (Hnc : C !! c = None).
  { destruct (C !! c) eqn:E; [|done]. destruct (t_chunk _ _ _ _ T _ _ E). congruence. }
  assert (Hout : forall a1 b1 w, B !! a1 = Some b1 -> a1 <= w < a1 + bsize b1 ->
    ~ (c <= w < c + MAXSIZE)).
  { intros a1 b1 w H1 Hw Hc. destruct (t_geo _ _ _ _ T _ _ H1) as [[p1 Hp1] _].
    destruct (t_chunk _ _ _ _ T _ _ Hp1) as (Hh & _ & _). pose proof (block_bounds _ _ _ _ T _ _ H1).
    destruct F as (_ & _ & _ & F). destruct (F _ _ Hh); lia. }
  assert (Hnb : B !! c = None).
  { destruct (B !! c) as [b|] eqn:E; [|done]. pose proof (block_bounds _ _ _ _ T _ _ E).
    exfalso. eapply (Hout _ _ c E); [lia|]. change MAXSIZE with 65536. lia. }
  assert (Hch : forall a1 b1, B !! a1 = Some b1 -> k_chunk b1 <> c).
  { intros a1 b1 H1 E. destruct (t_geo _ _ _ _ T _ _ H1) as [[p1 Hp1] _]. congruence. }
  assert (Hbig : bsize (chunk_blk c) = MAXSIZE) by done.
  split; [|done]. split; [|split].
  - destruct T' as [T1 T2 T3 T4 T5 T6 T7]. destruct F as (F1 & F2 & F3 & F4). split; try done.
    + intros c1 p1. rewrite lookup_insert_Some. intros [[<- <-]|[_ H]]; [|by apply T4].
      split; [apply lookup_insert_eq|]. split; [|done]. intros ->.
      pose proof (t_static _ _ _ _ T). congruence.
    + intros a1 b1. rewrite lookup_insert_Some. intros [[<- <-]|[_ H]].
      * split; [exists p; apply lookup_insert_eq|]. split; [cbn; lia|]. cbn [k_chunk chunk_blk].
        rewrite Hbig, Z.sub_diag. split; [lia|]. split; [lia|apply Z.divide_0_r].
      * destruct (T5 _ _ H) as [? ?]. split; [|done]. rewrite lookup_insert_ne; [done|].
        intros E. by eapply Hch.
    + intros a1 a2 b1 b2. rewrite !lookup_insert_Some.
      intros [[<- <-]|[_ H1]] [[<- <-]|[_ H2]] Hne; [done| | |by apply T6].
      * pose proof (block_bounds _ _ _ _ T _ _ H2). pose proof (Hout _ _ a2 H2).
        pose proof (Hout _ _ (a2 + bsize b2 - 1) H2).
        pose proof (Hout _ _ c H2). rewrite Hbig; change MAXSIZE with 65536 in *; lia.
      * pose proof (block_bounds _ _ _ _ T _ _ H1). pose proof (Hout _ _ a1 H1).
        pose proof (Hout _ _ (a1 + bsize b1 - 1) H1).
        pose proof (Hout _ _ c H1). rewrite Hbig; change MAXSIZE with 65536 in *; lia.
    + intros c1 p1 x. rewrite lookup_insert_Some. intros [[<- <-]|[_ H]] Hx.
      * exists c, (chunk_blk c). by rewrite lookup_insert_eq.
      * destruct (T7 _ _ _ H Hx) as (a1 & b1 & H1 & H2). exists a1, b1.
        rewrite lookup_insert_ne; [done|]. intros <-. congruence.
  - eapply (rep_same_free m); try done.
    + intros a1 b1 Hf. rewrite lookup_insert_Some. split.
      * by intros [[_ <-]|[_ ?]].
      * intros H1. right. split; [|done]. intros <-. congruence.
    + intros a1 b1 H1 _. apply lookup_insert_ne. intros E. by eapply Hch.
    + intros a1 b1 p1. rewrite lookup_insert_Some. intros [[<- <-]|[_ H1]] Hf Hp1.
      * cbn [k_chunk chunk_blk] in *. rewrite lookup_insert_eq in Hp1. by injection Hp1 as <-.
      * rewrite lookup_insert_ne in Hp1 by (intros E; by eapply Hch).
        destruct (r_header _ _ _ _ R _ _ _ H1 Hp1) as [E1 E2]. rewrite Hf in E1.
        rewrite (get_pool_ext m), (get_exec_ext m); [done| |]; apply Hm; intros ->; congruence.
    + intros w Hw. left. apply Hm. intros ->. destruct Hw as [Hw|(a1 & b1 & H1 & Hw)].
      * unfold BuddyInv.static_word in Hw. destruct F as (_ & _ & _ & F).
        destruct (F _ _ (t_static _ _ _ _ T)); change MAXSIZE with 65536 in *; lia.
      * pose proof (block_bounds _ _ _ _ T _ _ H1).
        apply (Hout _ _ c H1); [destruct Hw as [->|[_ ?]]; lia|]. change MAXSIZE with 65536. lia.
  - eapply coal_sub; [|done]. intros a1 b1 H1 Hf. rewrite lookup_insert_Some in H1.
    by destruct H1 as [[_ <-]|[_ ?]].
Qed.

(** A chunk that is one used block goes back. *)
Lemma heap_drop_chunk m h C B a b :
  heap_inv m h C B -> B !! a = Some b -> k_free b = false -> k_idx b = 12 ->
  h !! a = Some MAXSIZE /\ k_chunk b = a /\ heap_inv m (delete a h) (delete a C) (delete a B).
Proof.
  intros (T & R & K) Hb Hu Hi.
  destruct (t_geo _ _ _ _ T _ _ Hb) as [[p Hp] (_ & G1 & G2 & _)].
  assert (Hs : bsize b = MAXSIZE) by (unfold bsize; by rewrite Hi).
  assert (Hc : k_chunk b = a) by lia. rewrite Hc in *.
  destruct (t_chunk _ _ _ _ T _ _ Hp) as (Hh & Hnf & _).
  assert (Hch : forall a1 b1, B !! a1 = Some b1 -> a1 <> a -> k_chunk b1 <> a).
  { intros a1 b1 H1 Hne E. destruct (t_geo _ _ _ _ T _ _ H1) as [_ (_ & H2 & H3 & _)].
    pose proof (block_bounds _ _ _ _ T _ _ H1). apply Hne.
    eapply (block_unique _ _ _ _ T a1 a b1 b a1); eauto; lia. }
  split; [done|]. split; [done|]. split; [|split].
  - destruct T as [T1 T2 T3 T4 T5 T6 T7]. split.
    + by rewrite lookup_delete_ne.
    + intros a1 sz1. rewrite lookup_delete_Some. intros [_ H]. by apply T2.
    + intros a1 a2 s1 s2. rewrite !lookup_delete_Some. intros [_ H1] [_ H2]. by apply T3.
    + intros c p1. rewrite !lookup_delete_Some. intros [Hne Hc1].
      destruct (T4 _ _ Hc1) as (? & ? & ?). auto.
    + intros a1 b1. rewrite lookup_delete_Some. intros [Hne H1]. destruct (T5 _ _ H1).
      split; [|done]. rewrite lookup_delete_ne; [done|]. intros E. by eapply (Hch a1 b1).
    + intros a1 a2 b1 b2. rewrite !lookup_delete_Some. intros [_ H1] [_ H2]. by apply T6.
    + intros c p1 x. rewrite lookup_delete_Some. intros [Hne Hc1] Hx.
      destruct (T7 _ _ _ Hc1 Hx) as (a1 & b1 & H1 & H2). exists a1, b1. split; [|done].
      rewrite lookup_delete_ne; [done|]. intros <-. rewrite Hb in H1. injection H1 as <-.
      destruct (T4 _ _ Hc1) as (Hh1 & _). destruct (T3 _ _ _ _ Hh Hh1); lia.
  - eapply (rep_same_free m); try done.
    + intros a1 b1 Hf. rewrite lookup_delete_Some. split; [by intros [_ ?]|].
      intros H1. split; [|done]. intros <-. congruence.
    + intros a1 b1 H1 Hf. apply lookup_delete_ne. intros E. apply (Hch a1 b1); [done| |done].
      intros ->. congruence.
    + intros a1 b1 p1. rewrite !lookup_delete_Some. intros [_ H1] Hf [_ Hp1].
      destruct (r_header _ _ _ _ R _ _ _ H1 Hp1) as [E1 E2]. by rewrite Hf in E1.
    + auto.
  - eapply coal_sub; [|done]. intros a1 b1 H1 Hf. by apply lookup_delete_Some in H1 as [_ ?].
Qed.
End Heap.
