(* ===== verification/BuddyBlocks.v ===== *)
(** * Buddy allocator: get_block, free_block and log2

    The recursions over the buckets, against the tiling: [get_block] returns a
    used block of its bucket (or nothing and no change), [free_block] leaves
    every other used block alone; neither runs out of fuel. *)

From S2P Require Import Prelude Ixlist BuddyInv BuddyOps.

(** ** log2 *)

Lemma log2_loop_spec fuel : forall size pow,
  0 <= pow -> (Z.to_nat pow < fuel)%nat -> 1 <= size <= 2 ^ pow ->
  log2_loop fuel size pow (Z.shiftr (2 ^ pow) 1) = Some (Z.log2_up size).
Proof.
  induction fuel as [|fuel IH]; intros size pow Hp Hf Hs; [lia|]. cbn [log2_loop].
  destruct (Z.eq_dec pow 0) as [->|Hne].
  - change (Z.shiftr (2 ^ 0) 1) with 0. rewrite (proj2 (Z.ltb_lt _ _)) by lia.
    f_equal. symmetry. apply Z.log2_up_eqn0. change (2 ^ 0) with 1 in Hs. lia.
  - assert (E : Z.shiftr (2 ^ pow) 1 = 2 ^ (pow - 1)).
    { rewrite Z.shiftr_div_pow2 by lia. replace pow with (Z.succ (pow - 1)) at 1 by lia.
      rewrite Z.pow_succ_r by lia. change (2 ^ 1) with 2. rewrite Z.mul_comm. apply Z.div_mul. lia. }
    rewrite E. destruct (Z.ltb_spec (2 ^ (pow - 1)) size).
    + f_equal. symmetry. apply Z.log2_up_unique; [lia|]. replace (Z.pred pow) with (pow - 1) by lia. lia.
    + apply IH; lia.
Qed.

Lemma log2_eq size : 1 <= size <= 65536 -> log2 size = Some (Z.log2_up size).
Proof. intros H. apply (log2_loop_spec 17 size 16); simpl; lia. Qed.

Section Heap.
Context (free_list : Z) (AllocMem : Z -> gmap Z Z -> Z -> Z -> Z).
Implicit Types (h C : gmap Z Z) (B : gmap Z blk) (a p i : Z) (b : blk) (s : bstate).
Notation heap_inv := (heap_inv free_list).
Notation owned := (owned free_list).

Definition inv s C B : Prop := heap_inv (bm s) (held s) C B.

(** AllocMem returns 0 or the address of memory that nobody holds. *)
Definition AllocMem_ok : Prop :=
  forall t h size attr, 0 < size -> AllocMem t h size attr = 0 \/ fresh_mem h (AllocMem t h size attr) size.

(** Used blocks other than [r] are the same before and after. *)
Definition same_used B B' (r : Z) : Prop :=
  forall a b, k_free b = false -> a <> r -> B' !! a = Some b <-> B !! a = Some b.

Definition not_used B (r : Z) : Prop := forall b, B !! r = Some b -> k_free b = true.

Definition same_words s B s' B' : Prop :=
  forall w, ~ owned B w -> ~ owned B' w -> ld (bm s') w = ld (bm s) w.

(** Memory obtained from Exec consists of new chunks only; memory given back
    consists of chunks only. *)
Record more_chunks s C s' C' : Prop := {
  mc_C : C ⊆ C';
  mc_held : held s ⊆ held s';
  mc_new x sz : held s' !! x = Some sz -> held s !! x = Some sz \/ is_Some (C' !! x);
  mc_fresh x : is_Some (C' !! x) -> is_Some (C !! x) \/ held s !! x = None
}.

Lemma more_chunks_refl s s' C : held s' = held s -> more_chunks s C s' C.
Proof. intros E. split; rewrite ?E; auto. Qed.

(** ** get_block *)

Definition got s C B p i r s' : Prop :=
  (r = 0 /\ bm s' = bm s /\ held s' = held s) \/
  (0 < r /\ exists C' B' b, inv s' C' B' /\ B' !! r = Some b /\ k_free b = false /\ k_idx b = i /\
     C' !! k_chunk b = Some p /\ same_used B B' r /\ not_used B r /\
     more_chunks s C s' C' /\ same_words s B s' B').

(** A new chunk. *)
Lemma get_block_top fuel s C B p : AllocMem_ok -> inv s C B -> is_pool p ->
  exists r s', get_block free_list AllocMem (S fuel) s p 12 = Ret r s' /\ got s C B p 12 r s'.
Proof.
  intros HA I Hp. cbn [get_block]. change (12 =? MAXLOG2 - MINLOG2) with true. cbn beta iota zeta.
  unfold exec_alloc. destruct (HA (clock s) (held s) MAXSIZE (exec_attr p)) as [E|F]; [done| |].
  - rewrite E. eexists _, _. split; [done|]. left. done.
  - set (c := AllocMem _ _ _ _) in *. assert (Hc0 : 0 < c) by apply F.
    rewrite (proj2 (Z.eqb_neq c 0)) by lia. eexists _, _. split; [done|]. right. split; [done|].
    set (m1 := put_exec (bm s) c (Z.shiftr (s32 c) 2)). cbn [bm held set_bm].
    assert (Hm1 : forall w, w <> c -> ld m1 w = ld (bm s) w)
      by (intros w Hw; unfold m1, put_exec; by rewrite ld_st_ne).
    assert (Hex : get_exec m1 c = c / 4).
    { unfold get_exec, m1, put_exec. rewrite ld_st_eq.
      assert (0 <= c < 2 ^ 32) by (destruct F as (_ & _ & F & _); change MAXSIZE with 65536 in F; lia).
      by rewrite hd_exec_set_exec_any, exec_block_of_chunk. }
    destruct (heap_new_chunk free_list (bm s) (put_pool m1 c (p + 1)) (held s) C B c p I F Hp) as (I' & Hnc & Hnb).
    { intros w Hw. rewrite put_pool_ne by done. by apply Hm1. }
    { apply get_put_pool. destruct Hp; lia. }
    { by rewrite get_exec_put_pool. }
    exists (<[c := p]> C), (<[c := chunk_blk c]> B), (chunk_blk c).
    assert (Hnh : held s !! c = None).
    { eapply (fresh_not_held (held s) c MAXSIZE); [|done|done]. intros a' sz H.
      apply (t_held _ _ _ _ (proj1 I)) in H. tauto. }
    split; [done|]. split; [apply lookup_insert_eq|]. split; [done|]. split; [done|].
    split; [apply lookup_insert_eq|]. split; [|split; [|split]].
    + intros a b _ Hne. by rewrite lookup_insert_ne.
    + intros b Hb. congruence.
    + split; cbn [held set_bm].
      * by apply insert_subseteq.
      * by apply insert_subseteq.
      * intros x sz. rewrite !lookup_insert_Some. intros [[<- _]|[_ ?]]; [|auto].
        right. rewrite lookup_insert_eq. eauto.
      * intros x [y Hy]. rewrite lookup_insert_Some in Hy. destruct Hy as [[<- _]|[_ Hy]]; eauto.
    + intros w _ Hw. cbn [bm set_bm]. rewrite put_pool_ne; [apply Hm1|]; intros ->; apply Hw; right;
        exists c, (chunk_blk c); (split; [apply lookup_insert_eq|auto]).
Qed.

Lemma put_pool_twice m a p q : put_pool (put_pool m a p) a q = put_pool m a q.
Proof.
  unfold put_pool, st. rewrite insert_insert_eq. f_equal.
  rewrite <- (hd_set_pool_twice (ld m a) p q). f_equal. unfold ld. by rewrite lookup_insert_eq.
Qed.

(** Splitting a block of the next size. *)
Lemma split_and_link s C B r b p i :
  inv s C B -> B !! r = Some b -> k_free b = false -> k_idx b = i + 1 -> 0 <= i < 12 ->
  C !! k_chunk b = Some p ->
  let buddy := u32 (r + Z.shiftl 1 (i + MINLOG2)) in
  let m := link_block free_list (put_exec (bm s) buddy (get_exec (bm s) r)) p i buddy in
  let B' := <[buddy := mk_blk (k_chunk b) i true]> (split_blk B r (k_chunk b) i) in
  buddy = r + bsz i /\ inv (set_bm s m) C B' /\
  (forall w, ~ owned B' w -> ld m w = ld (bm s) w).
Proof.
  intros I Hb Hu Hbi Hi Hp buddy m B'. assert (I0 := I). destruct I as (T & R & K).
  destruct (block_bounds _ _ _ _ T _ _ Hb) as (Hr0 & Hsz & Hend & _).
  assert (Hs : bsize b = 2 * bsz i) by (unfold bsize; rewrite Hbi; apply bsz_S; lia).
  pose proof (bsz_min i ltac:(lia)) as Hmin.
  assert (Hbud : buddy = r + bsz i).
  { unfold buddy. rewrite shiftl_bsz by lia. apply u32_id. unfold is_u32. lia. }
  destruct (r_header _ _ _ _ R _ _ _ Hb Hp) as [_ Hexec].
  destruct (t_chunk _ _ _ _ T _ _ Hp) as (_ & _ & Hip).
  destruct (chunk_bounds _ _ _ _ T _ _ Hp) as (Hc0 & Hc1 & _). change MAXSIZE with 65536 in Hc1.
  set (m0 := put_exec (bm s) buddy (get_exec (bm s) r)) in *.
  set (m1 := put_pool m0 buddy (p + 1)).
  assert (Hm : m = link_block free_list m1 p i buddy).
  { unfold m, m1, link_block. by rewrite put_pool_twice. }
  assert (Hw1 : forall w, w <> r + bsz i -> ld m1 w = ld (bm s) w).
  { intros w Hw. unfold m1, m0, put_exec. rewrite put_pool_ne, ld_st_ne by lia. done. }
  assert (I1 : heap_inv m1 (held s) C (split_blk B r (k_chunk b) i)).
  { apply (heap_split free_list (bm s) m1 (held s) C B r b p i); try done; [lia| |]; rewrite <- Hbud.
    - apply get_put_pool. destruct Hip; lia.
    - unfold m1. rewrite get_exec_put_pool. unfold m0, get_exec at 1, put_exec. rewrite ld_st_eq.
      rewrite hd_exec_set_exec; [done|]. rewrite Hexec. Z.div_mod_to_equations. lia. }
  destruct (split_lookup_hd B r (k_chunk b) i ltac:(lia)) as [L1 L2]. rewrite <- Hbud in L2.
  destruct (link_block_spec free_list m1 (held s) C (split_blk B r (k_chunk b) i) buddy
    (mk_blk (k_chunk b) i false) p I1 L2) as [H1 H2]; try done; [cbn; lia| |].
  - intros b' Hb' Hf. exfalso.
    assert (buddy_addr buddy (mk_blk (k_chunk b) i false) = r) as E; [|rewrite E, L1 in Hb'; by injection Hb' as <-].
    destruct (t_geo _ _ _ _ T _ _ Hb) as [_ (_ & G1 & _ & G2)]. rewrite Hs, <- bsz_S in G2 by lia.
    unfold buddy_addr, bsize. cbn [k_chunk k_idx].
    destruct (lxor_bsz i (buddy - k_chunk b)) as [[D _]|(D & _ & ->)]; [lia|lia| | |lia].
    + replace (buddy - k_chunk b) with (r - k_chunk b + bsz i) by lia.
      apply Z.divide_add_r; [|apply Z.divide_refl]. etransitivity; [|exact G2]. apply bsz_divide. lia.
    + exfalso. assert (D2 : (bsz (i + 1) | bsz i)).
      { replace (bsz i) with (buddy - k_chunk b - (r - k_chunk b)) by lia. by apply Z.divide_sub_r. }
      apply Z.divide_pos_le in D2; [|lia]. rewrite bsz_S in D2; lia.
  - change (k_idx (mk_blk (k_chunk b) i false)) with i in H1, H2. rewrite <- Hm in H1, H2.
    split; [done|]. split; [done|].
    intros w Hw. rewrite H2 by done. apply Hw1. intros ->. apply Hw. right.
    exists buddy, (mk_blk (k_chunk b) i true). split; [apply lookup_insert_eq|]. left. lia.
Qed.

Lemma same_used_mark B a b : B !! a = Some b -> k_free b = true ->
  same_used B (<[a := mark b false]> B) a /\ not_used B a.
Proof.
  intros Hb Hf. split.
  - intros a' b' _ Hne. by rewrite lookup_insert_ne.
  - intros b' Hb'. congruence.
Qed.

Lemma get_block_spec fuel : forall s C B p i,
  AllocMem_ok -> inv s C B -> is_pool p -> 0 <= i <= 12 -> (Z.to_nat (12 - i) < fuel)%nat ->
  exists r s', get_block free_list AllocMem fuel s p i = Ret r s' /\ got s C B p i r s'.
Proof.
  induction fuel as [|fuel IH]; intros s C B p i HA I Hp Hi Hf; [lia|].
  destruct (Z.eq_dec i 12) as [->|Hne]; [by apply get_block_top|].
  cbn [get_block]. change (MAXLOG2 - MINLOG2) with 12. rewrite (proj2 (Z.eqb_neq i 12)) by done.
  destruct (unlink_block_head free_list (bm s) (held s) C B p i I Hp ltac:(lia))
    as [(a & b & m' & Hb & Hfr & Hbi & Hc & -> & I' & Hw)|[-> Hnone]].
  - destruct (block_bounds _ _ _ _ (proj1 I) _ _ Hb) as (Ha & _).
    rewrite (proj2 (Z.eqb_neq a 0)) by lia. cbn [negb]. eexists _, _. split; [done|].
    right. split; [done|]. destruct (same_used_mark B a b Hb Hfr) as [H1 H2].
    exists C, (<[a := mark b false]> B), (mark b false).
    split; [done|]. split; [apply lookup_insert_eq|]. split; [done|]. split; [done|].
    split; [done|]. split; [done|]. split; [done|]. split; [by apply more_chunks_refl|].
    intros w Ho _. by apply Hw.
  - cbn [Z.eqb negb]. change (set_bm s (bm s)) with (mk_bstate (bm s) (held s) (clock s)).
    destruct (IH (mk_bstate (bm s) (held s) (clock s)) C B p (i + 1)) as (r & s1 & -> & Hgot);
      [done|done|done|lia|lia|]. cbn [obind].
    destruct Hgot as [(-> & E1 & E2)|(Hr & C' & B1 & b & I1 & Hb & Hu & Hbi & Hc & HS & HN & HM & HW)].
    + cbn [Z.eqb negb]. eexists _, _. split; [done|]. left. done.
    + rewrite (proj2 (Z.eqb_neq r 0)) by lia. cbn [negb]. eexists _, _. split; [done|].
      right. split; [done|].
      destruct (split_and_link s1 C' B1 r b p i I1 Hb Hu Hbi ltac:(lia) Hc) as (Ebud & I2 & Hw2).
      set (buddy := u32 _) in *. pose proof (bsz_min i ltac:(lia)) as Hmin.
      set (B2 := <[buddy := _]> _) in *.
      destruct (split_lookup_hd B1 r (k_chunk b) i ltac:(lia)) as [L1 L2].
      assert (Lr : B2 !! r = Some (mk_blk (k_chunk b) i false)).
      { unfold B2. rewrite lookup_insert_ne by lia. done. }
      assert (Hout : forall a1 b1, B1 !! a1 = Some b1 -> a1 <= buddy < a1 + bsize b1 -> a1 = r).
      { intros a1 b1 H1 H. eapply (block_unique _ _ _ _ (proj1 I1) a1 r b1 b); eauto.
        unfold bsize. rewrite Hbi, bsz_S by lia. lia. }
      exists C', B2, (mk_blk (k_chunk b) i false).
      split; [done|]. split; [done|]. split; [done|]. split; [done|]. split; [done|].
      split; [|split; [done|split]].
      * intros a1 b1 Hf1 Hne1. rewrite <- (HS a1 b1 Hf1 Hne1). unfold B2, split_blk.
        destruct (Z.eq_dec a1 buddy) as [->|Hnb].
        -- rewrite lookup_insert_eq. split; [intros [= <-]; done|].
           intros H1. exfalso. apply Hne1. apply (Hout _ _ H1).
           pose proof (block_bounds _ _ _ _ (proj1 I1) _ _ H1). lia.
        -- rewrite !lookup_insert_ne by lia. done.
      * destruct HM as [M1 M2 M3 M4]. split; done.
      * intros w Ho Ho2. etransitivity; [|apply (HW w); [done|]].
        -- cbn [bm set_bm]. by apply Hw2.
        -- intros [Hs|(a1 & b1 & H1 & Hwa)]; apply Ho2; [by left|right].
           destruct (Z.eq_dec a1 r) as [->|Hne1].
           ++ rewrite Hb in H1. injection H1 as <-. destruct Hwa as [->|[? _]]; [|congruence].
              exists r, (mk_blk (k_chunk b) i false). auto.
           ++ exists a1, b1. split; [|done]. unfold B2, split_blk.
              rewrite !lookup_insert_ne; [done|lia| |]; intros <-; apply Hne1, (Hout _ _ H1);
                pose proof (block_bounds _ _ _ _ (proj1 I1) _ _ H1); lia.
Qed.

(** ** free_block *)

Record fewer_chunks s C s' C' : Prop := {
  fc_C : C' ⊆ C;
  fc_held : held s' ⊆ held s;
  fc_lost x : is_Some (held s !! x) -> is_Some (held s' !! x) \/ is_Some (C !! x);
  fc_kept x : is_Some (held s' !! x) -> is_Some (C !! x) -> is_Some (C' !! x)
}.

Lemma fewer_chunks_refl s s' C : held s' = held s -> fewer_chunks s C s' C.
Proof. intros E. split; rewrite ?E; auto. Qed.

Definition freed s C B a s' : Prop :=
  exists C' B', inv s' C' B' /\ same_used B B' a /\ not_used B' a /\
    fewer_chunks s C s' C' /\ same_words s B s' B'.

Lemma buddy_of_eq s C B a b : inv s C B -> B !! a = Some b -> k_idx b < 12 ->
  buddy_of (bm s) (k_idx b) a = buddy_addr a b.
Proof.
  intros (T & R & _) Hb Hi. destruct (t_geo _ _ _ _ T _ _ Hb) as [[p Hp] (Hi0 & G1 & G2 & _)].
  destruct (r_header _ _ _ _ R _ _ _ Hb Hp) as [_ Hexec].
  destruct (chunk_bounds _ _ _ _ T _ _ Hp) as (Hc0 & Hc1 & [k Hk]). change MAXSIZE with 65536 in *.
  destruct (buddy_cases _ _ _ _ T _ _ Hb Hi) as (Hlo & Hhi & _). change MAXSIZE with 65536 in *.
  pose proof (bsz_min (k_idx b) ltac:(lia)).
  unfold buddy_of. rewrite Hexec, shiftl_bsz by lia.
  assert (E : Z.shiftl (k_chunk b / 4) 2 = k_chunk b).
  { rewrite Z.shiftl_mul_pow2 by lia. rewrite Hk. replace (k * 8) with (k * 2 * 4) by ring.
    rewrite Z.div_mul by lia. change (2 ^ 2) with 4. ring. }
  rewrite E. unfold buddy_addr, bsize in *. rewrite (u32_id (a - k_chunk b)) by (unfold is_u32; lia).
  rewrite u32_id; [ring|]. unfold is_u32. lia.
Qed.

(** The buddy the test looks at is a block of the tiling. *)
Lemma buddy_test s C B a b : inv s C B -> B !! a = Some b -> k_idx b < 12 ->
  exists b2, B !! buddy_addr a b = Some b2 /\ k_chunk b2 = k_chunk b /\
    if negb (get_pool (bm s) (buddy_addr a b) =? 0) || negb (ld (bm s) (fb_index (buddy_addr a b)) =? k_idx b)
    then k_free b2 = true -> k_idx b2 <> k_idx b
    else k_free b2 = true /\ k_idx b2 = k_idx b.
Proof.
  intros (T & R & _) Hb Hi. destruct (buddy_block _ _ _ _ T _ _ Hb Hi) as (b2 & Hb2 & Hc2 & _ & _).
  exists b2. split; [done|]. split; [done|].
  destruct (t_geo _ _ _ _ T _ _ Hb2) as [[p Hp] _].
  destruct (r_header _ _ _ _ R _ _ _ Hb2 Hp) as [Hpool _]. rewrite Hpool.
  destruct (t_chunk _ _ _ _ T _ _ Hp) as (_ & _ & Hip).
  destruct (k_free b2) eqn:Hf.
  - destruct (r_index _ _ _ _ R _ _ Hb2 Hf) as [-> _]. cbn [Z.eqb negb orb].
    destruct (Z.eqb_spec (k_idx b2) (k_idx b)); cbn [negb]; auto.
  - rewrite (proj2 (Z.eqb_neq (p + 1) 0)) by (destruct Hip; lia). done.
Qed.

(** Combining a block with its free buddy into one used block. *)
Lemma merge_buddies m h C B a b b2 p :
  heap_inv m h C B -> B !! a = Some b -> k_free b = false -> k_idx b < 12 -> C !! k_chunk b = Some p ->
  let a2 := buddy_addr a b in let lo := if a <? a2 then a else a2 in
  let hi := if a <? a2 then a2 else a in
  B !! a2 = Some b2 -> k_free b2 = true -> k_idx b2 = k_idx b -> k_chunk b2 = k_chunk b ->
  exists m', unlink_block free_list m p (k_idx b) a2 = (a2, m') /\
    heap_inv m' h C (merge_blk (<[a2 := mark b2 false]> B) lo hi (k_chunk b) (k_idx b)) /\
    (forall w, ~ owned B w -> ld m' w = ld m w).
Proof.
  intros I Hb Hu Hi Hp a2 lo hi Hb2 Hf2 Hi2 Hc2.
  assert (Hp2 : C !! k_chunk b2 = Some p) by (by rewrite Hc2).
  destruct (unlink_block_at _ _ _ _ _ _ _ _ I Hb2 Hf2 Hp2) as (m' & E & I' & Hw).
  rewrite Hi2 in E. exists m'. split; [done|]. split; [|done].
  destruct (buddy_block _ _ _ _ (proj1 I) _ _ Hb Hi) as (_ & _ & _ & _ & Hne). fold a2 in Hne.
  assert (Ha : <[a2 := mark b2 false]> B !! a = Some b) by (by rewrite lookup_insert_ne).
  assert (Ha2 : <[a2 := mark b2 false]> B !! a2 = Some (mark b2 false)) by apply lookup_insert_eq.
  destruct (block_bounds _ _ _ _ (proj1 I) _ _ Hb) as (_ & Hsz & _).
  destruct (buddy_cases _ _ _ _ (proj1 I) _ _ Hb Hi) as (_ & _ & _ & [[E2 Hd]|[E2 Hd]]); fold a2 in E2, Hd.
  - unfold lo, hi. rewrite (proj2 (Z.ltb_lt a a2)) by lia. rewrite E2 in *.
    by apply (heap_merge free_list m' h C _ a b (mark b2 false)).
  - unfold lo, hi. rewrite (proj2 (Z.ltb_ge a a2)) by lia.
    assert (Es : bsize (mark b2 false) = bsize b) by (unfold bsize; cbn [mark k_idx]; by rewrite Hi2).
    assert (E3 : a = a2 + bsize (mark b2 false)) by lia.
    rewrite E3. rewrite <- Hc2, <- Hi2.
    apply (heap_merge free_list m' h C _ a2 (mark b2 false) b); try done; cbn [mark k_idx k_chunk].
    + by rewrite <- E3.
    + by rewrite Hi2.
    + rewrite Es, Hc2. done.
Qed.

Lemma free_block_spec fuel : forall s C B a b p,
  inv s C B -> B !! a = Some b -> k_free b = false -> C !! k_chunk b = Some p ->
  (Z.to_nat (12 - k_idx b) < fuel)%nat ->
  exists s', free_block free_list fuel s p (k_idx b) a = Ret () s' /\ freed s C B a s'.
Proof.
  induction fuel as [|fuel IH]; intros s C B a b p I Hb Hu Hp Hf; [lia|].
  destruct (block_bounds _ _ _ _ (proj1 I) _ _ Hb) as (Ha & Hsz & _ & _ & _ & Hi0 & Hi).
  cbn [free_block]. change (MAXLOG2 - MINLOG2) with 12.
  destruct (Z.eqb_spec (k_idx b) 12) as [E12|Hne].
  - destruct (heap_drop_chunk free_list (bm s) (held s) C B a b I Hb Hu E12) as (Hh & Hc & I').
    unfold exec_free. rewrite Hh. rewrite Z.eqb_refl. eexists. split; [done|].
    exists (delete a C), (delete a B). split; [done|]. split; [|split; [|split]].
    + intros a1 b1 _ H1. by rewrite lookup_delete_ne.
    + intros b1 H1. by rewrite lookup_delete_eq in H1.
    + split; cbn [held].
      * apply delete_subseteq.
      * apply delete_subseteq.
      * intros x Hx. destruct (Z.eq_dec x a) as [->|Hxa].
        -- right. rewrite <- Hc. eauto.
        -- left. by rewrite lookup_delete_ne.
      * intros x Hx HC. rewrite lookup_delete_ne; [done|]. intros ->.
        rewrite lookup_delete_eq in Hx. by destruct Hx.
    + by intros w.
  - assert (Hlt : k_idx b < 12) by lia. rewrite (buddy_of_eq s C B a b I Hb Hlt).
    destruct (buddy_test s C B a b I Hb Hlt) as (b2 & Hb2 & Hc2 & Htest).
    destruct (negb _ || negb _).
    + destruct (link_block_spec free_list (bm s) (held s) C B a b p I Hb Hu Hlt Hp) as [I' Hw].
      { intros b' Hb'. rewrite Hb2 in Hb'. by injection Hb' as <-. }
      eexists. split; [done|]. exists C, (<[a := mark b true]> B). split; [done|]. split; [|split; [|split]].
      * intros a1 b1 _ H1. by rewrite lookup_insert_ne.
      * intros b1 H1. rewrite lookup_insert_eq in H1. by injection H1 as <-.
      * by apply fewer_chunks_refl.
      * intros w _ Ho. by apply Hw.
    + destruct Htest as [Hf2 Hi2].
      destruct (merge_buddies (bm s) (held s) C B a b b2 p I Hb Hu Hlt Hp Hb2 Hf2 Hi2 Hc2)
        as (m' & -> & I' & Hw).
      set (a2 := buddy_addr a b) in *.
      set (lo := if a <? a2 then a else a2). set (hi := if a <? a2 then a2 else a) in *. fold lo in I'.
      destruct (buddy_block _ _ _ _ (proj1 I) _ _ Hb Hlt) as (_ & _ & _ & _ & Hne2). fold a2 in Hne2.
      assert (Hlohi : (lo = a /\ hi = a2) \/ (lo = a2 /\ hi = a))
        by (unfold lo, hi; destruct (a <? a2); auto).
      clearbody lo hi.
      set (B2 := merge_blk _ lo hi _ _) in *.
      assert (Hlo : B2 !! lo = Some (mk_blk (k_chunk b) (k_idx b + 1) false)) by apply lookup_insert_eq.
      assert (Hhi : B2 !! hi = None).
      { unfold B2, merge_blk. rewrite lookup_insert_ne by (destruct Hlohi as [[-> ->]|[-> ->]]; congruence).
        apply lookup_delete_eq. }
      assert (Hoth : forall a1, a1 <> a -> a1 <> a2 -> B2 !! a1 = B !! a1).
      { intros a1 H1 H2. unfold B2, merge_blk.
        rewrite lookup_insert_ne, lookup_delete_ne, lookup_insert_ne; [done|congruence| |];
          destruct Hlohi as [[-> ->]|[-> ->]]; congruence. }
      destruct (IH (set_bm s m') C B2 lo (mk_blk (k_chunk b) (k_idx b + 1) false) p) as (s' & Hs' & Hfr);
        [done|done|done|done|cbn [k_idx]; lia|].
      cbn [k_idx] in Hs'. exists s'. split; [exact Hs'|].
      destruct Hfr as (C' & B' & I2 & HS & HN & HF & HW). exists C', B'. split; [done|].
      split; [|split; [|split]].
      * intros a1 b1 Hf1 Ha1. destruct (Z.eq_dec a1 a2) as [->|Ha2].
        -- split; intros H1; exfalso; [|congruence]. destruct Hlohi as [[-> ->]|[-> ->]].
           ++ apply HS in H1; [congruence|done|congruence].
           ++ apply HN in H1. congruence.
        -- rewrite <- Hoth by done. apply HS; [done|]. destruct Hlohi as [[-> _]|[-> _]]; done.
      * intros b1 H1. destruct Hlohi as [[-> ->]|[-> ->]]; [by apply HN|].
        destruct (k_free b1) eqn:Hf1; [done|]. apply HS in H1; [congruence|done|congruence].
      * destruct HF as [F1 F2 F3 F4]. by split.
      * intros w Ho Ho2. etransitivity; [apply (HW w); [|done]|by apply Hw].
        intros [Hs|(a1 & b1 & H1 & Hwa)]; apply Ho; [by left|right].
        destruct (Z.eq_dec a1 a) as [->|Ha1]; [|destruct (Z.eq_dec a1 a2) as [->|Ha2]].
        -- exists a, b. split; [done|]. left. destruct Hlohi as [[-> ->]|[-> ->]]; [|congruence].
           rewrite Hlo in H1. injection H1 as <-. destruct Hwa as [?|[? _]]; done.
        -- exists a2, b2. split; [done|]. destruct Hlohi as [[-> ->]|[-> ->]]; [congruence|].
           rewrite Hlo in H1. injection H1 as <-. destruct Hwa as [?|[? _]]; [by left|done].
        -- rewrite Hoth in H1 by done. eauto.
Qed.
End Heap.
