(* ===== verification/BuddyTheorems.v ===== *)
(** * Buddy allocator: theorems about b_alloc and b_free

    The client's view: the live allocations, with the sizes that were asked
    for.  Every sequence of calls by clients that free what they allocated with
    the size they asked for, and write only into their memory, keeps the live
    allocations apart and intact, never faults, and once nothing is live all
    memory is back with Exec. *)

From S2P Require Import Prelude Ixlist BuddyInv BuddyOps BuddyBlocks.

(** The size served for a request, and its bucket. *)
Definition norm (size : Z) : Z := if size <? MINSIZE then MINSIZE else size.
Definition large (size : Z) : Prop := BUDDY_LIMIT - OFF_NEXT <= norm size.
Definition cls (size : Z) : Z := Z.log2_up (norm size + OFF_NEXT) - MINLOG2.

Lemma norm_min size : 16 <= norm size.
Proof. unfold norm. change MINSIZE with 16. destruct (Z.ltb_spec size 16); lia. Qed.

Lemma cls_range size : ~ large size -> 1 <= cls size <= 7 /\ norm size + OFF_NEXT <= bsz (cls size).
Proof.
  unfold large, cls, OFF_NEXT, MINLOG2. change BUDDY_LIMIT with 2048. intros H. pose proof (norm_min size).
  assert (H1 : Z.log2_up 20 <= Z.log2_up (norm size + 4)) by (apply Z.log2_up_le_mono; lia).
  assert (H2 : Z.log2_up (norm size + 4) <= Z.log2_up 2048) by (apply Z.log2_up_le_mono; lia).
  change (Z.log2_up 20) with 5 in H1. change (Z.log2_up 2048) with 11 in H2. split; [lia|].
  unfold bsz. replace (Z.log2_up (norm size + 4) - 4 + 4) with (Z.log2_up (norm size + 4)) by ring.
  apply Z.log2_up_spec. lia.
Qed.

Lemma log2_cls size : ~ large size ->
  log2 (norm size + OFF_NEXT) = Some (Z.log2_up (norm size + OFF_NEXT)) /\
  u8 (Z.log2_up (norm size + OFF_NEXT) - MINLOG2) = cls size.
Proof.
  intros H. pose proof (cls_range _ H) as [H1 _]. pose proof (norm_min size). split.
  - apply log2_eq. unfold large, OFF_NEXT in *. change BUDDY_LIMIT with 2048 in H. lia.
  - fold (cls size). unfold u8. apply Z.mod_small. change (2 ^ 8) with 256. lia.
Qed.

Section Clients.
Context (free_list : Z) (AllocMem : Z -> gmap Z Z -> Z -> Z -> Z) (HA : AllocMem_ok AllocMem).
Implicit Types (h C live : gmap Z Z) (B : gmap Z blk) (a u p i w size : Z) (b : blk) (s : bstate).
Notation inv := (inv free_list).
Notation owned := (owned free_list).

(** [live]: address handed out and size asked for. *)
Record live_inv s C B live : Prop := {
  li_small u size : live !! u = Some size -> ~ large size ->
    exists b, B !! (u - OFF_NEXT) = Some b /\ k_free b = false /\ k_idx b = cls size;
  li_large u size : live !! u = Some size -> large size ->
    held s !! u = Some (norm size) /\ C !! u = None /\ u <> free_list;
  li_used a b : B !! a = Some b -> k_free b = false ->
    exists size, live !! (a + OFF_NEXT) = Some size /\ ~ large size;
  li_held x : is_Some (held s !! x) ->
    x = free_list \/ is_Some (C !! x) \/ exists size, live !! x = Some size /\ large size
}.

Definition ok s live : Prop := exists C B, inv s C B /\ live_inv s C B live.

Definition in_live live w : Prop :=
  exists u size, live !! u = Some size /\ u <= w < u + norm size.

Lemma large_dec size : {large size} + {~ large size}.
Proof. unfold large. destruct (Z_le_gt_dec (BUDDY_LIMIT - OFF_NEXT) (norm size)); [left|right]; lia. Qed.

(** Memory of a held block that is no chunk is away from the blocks. *)
Lemma held_apart s C B x sz a b :
  inv s C B -> held s !! x = Some sz -> C !! x = None -> B !! a = Some b ->
  x + sz <= a \/ a + bsize b <= x.
Proof.
  intros (T & _ & _) Hx Hn Hb. destruct (t_geo _ _ _ _ T _ _ Hb) as [[p Hp] _].
  destruct (t_chunk _ _ _ _ T _ _ Hp) as (Hh & _ & _). pose proof (block_bounds _ _ _ _ T _ _ Hb).
  destruct (t_disj _ _ _ _ T _ _ _ _ Hx Hh); [congruence| |]; lia.
Qed.

(** The words of live allocations are not the allocator's. *)
Lemma live_not_owned s C B live w : inv s C B -> live_inv s C B live -> in_live live w -> ~ owned B w.
Proof.
  intros I L (u & size & Hu & Hw). assert (T := proj1 I). destruct (large_dec size) as [Hl|Hl].
  - destruct (li_large _ _ _ _ L _ _ Hu Hl) as (Hh & Hn & Hf). intros [Hs|(a & b & Hb & Hwa)].
    + unfold static_word in Hs. destruct (t_disj _ _ _ _ T _ _ _ _ Hh (t_static _ _ _ _ T) Hf); lia.
    + pose proof (block_bounds _ _ _ _ T _ _ Hb).
      destruct (held_apart _ _ _ _ _ _ _ I Hh Hn Hb), Hwa as [->|[_ ?]]; lia.
  - destruct (li_small _ _ _ _ L _ _ Hu Hl) as (b & Hb & Hf & Hi).
    pose proof (cls_range _ Hl) as [_ Hsz]. unfold OFF_NEXT in *.
    assert (Hin : u - 4 <= w < u - 4 + bsize b) by (unfold bsize; rewrite Hi; lia).
    intros [Hs|(a & b1 & Hb1 & Hwa)]; [by eapply (block_not_static _ _ _ _ T (u - 4) b w)|].
    pose proof (block_bounds _ _ _ _ T _ _ Hb1).
    assert (a = u - 4) as ->.
    { eapply (block_unique _ _ _ _ T _ _ b1 b w); eauto. destruct Hwa as [->|[_ ?]]; lia. }
    rewrite Hb in Hb1. injection Hb1 as <-. destruct Hwa as [->|[? _]]; [lia|congruence].
Qed.

(** ** Allocation *)

Definition fresh_alloc s live r size s' : Prop :=
  0 < r /\ (4 | r) /\ live !! r = None /\ (forall w, r <= w < r + norm size -> ~ in_live live w) /\
  (forall w, r <= w < r + norm size -> ~ static_word free_list w) /\
  exists x hsz, held s' !! x = Some hsz /\ x <= r /\ r + norm size <= x + hsz.

Lemma ok_words s C B live s' B' w :
  inv s C B -> live_inv s C B live -> same_words free_list s B s' B' -> in_live live w ->
  ~ owned B' w -> ld (bm s') w = ld (bm s) w.
Proof. intros I L HW Hw Ho. apply HW; [|done]. by eapply live_not_owned. Qed.

Lemma block_align h C B a b : tiled free_list h C B -> B !! a = Some b -> (8 | a).
Proof.
  intros T Hb. destruct (t_geo _ _ _ _ T _ _ Hb) as [[p Hp] (Hi & _ & _ & Hd)].
  destruct (chunk_bounds _ _ _ _ T _ _ Hp) as (_ & _ & Hc).
  replace a with (a - k_chunk b + k_chunk b) by ring. apply Z.divide_add_r; [|done].
  etransitivity; [|exact Hd]. etransitivity; [|apply (bsz_divide 0); lia]. by exists 2.
Qed.

(** A key of [live] at the address of a block belongs to that block. *)
Lemma got_live s C B p i r s' size live :
  inv s C B -> live_inv s C B live -> ~ large size -> i = cls size ->
  0 < r -> got free_list s C B p i r s' ->
  ok s' (<[r + OFF_NEXT := size]> live) /\ fresh_alloc s live (r + OFF_NEXT) size s' /\
  (forall w, in_live live w -> ld (bm s') w = ld (bm s) w).
Proof.
  intros I L Hl -> Hr [(-> & _)|(_ & C' & B' & b & I' & Hb & Hu & Hi & Hp & HS & HN & HM & HW)]; [lia|].
  assert (T' := proj1 I'). pose proof (cls_range _ Hl) as [_ Hsz].
  destruct HM as [M1 M2 M3 M4].
  assert (Hbs : bsize b = bsz (cls size)) by (unfold bsize; by rewrite Hi).
  assert (Hnh : forall sz0, live !! (r + OFF_NEXT) = Some sz0 -> False).
  { intros sz0 H0. destruct (large_dec sz0) as [Hl0|Hl0].
    - destruct (li_large _ _ _ _ L _ _ H0 Hl0) as (Hh & Hn & Hf).
      assert (Hn' : C' !! (r + OFF_NEXT) = None).
      { destruct (C' !! (r + OFF_NEXT)) eqn:E; [|done]. destruct (M4 (r + OFF_NEXT)) as [[y Hy]|Hy]; [eauto| |];
          congruence. }
      pose proof (norm_min sz0). pose proof (block_bounds _ _ _ _ T' _ _ Hb). unfold OFF_NEXT in *.
      destruct (held_apart _ _ _ _ _ _ _ I' (lookup_weaken _ _ _ _ Hh M2) Hn' Hb); lia.
    - destruct (li_small _ _ _ _ L _ _ H0 Hl0) as (b0 & Hb0 & Hf0 & _).
      replace (r + OFF_NEXT - OFF_NEXT) with r in Hb0 by ring. apply HN in Hb0. congruence. }
  assert (Hfrom : forall u b0, B !! (u - OFF_NEXT) = Some b0 -> k_free b0 = false ->
    B' !! (u - OFF_NEXT) = Some b0 /\ u <> r + OFF_NEXT).
  { intros u b0 Hb0 Hf0. assert (u - OFF_NEXT <> r) by (intros E; rewrite E in Hb0; apply HN in Hb0; congruence).
    split; [by apply HS|lia]. }
  assert (L' : live_inv s' C' B' (<[r + OFF_NEXT := size]> live)).
  { split.
    - intros u sz0 H0 Hl0. rewrite lookup_insert_Some in H0. destruct H0 as [[<- <-]|[_ H0]].
      + exists b. by replace (r + OFF_NEXT - OFF_NEXT) with r by ring.
      + destruct (li_small _ _ _ _ L _ _ H0 Hl0) as (b0 & Hb0 & Hf0 & Hi0). exists b0.
        split; [by apply Hfrom|done].
    - intros u sz0 H0 Hl0. rewrite lookup_insert_Some in H0. destruct H0 as [[<- <-]|[_ H0]]; [done|].
      destruct (li_large _ _ _ _ L _ _ H0 Hl0) as (Hh & Hn & Hf). split; [by eapply lookup_weaken|].
      split; [|done]. destruct (C' !! u) eqn:E; [|done].
      destruct (M4 u) as [[y Hy]|Hy]; [eauto|congruence|congruence].
    - intros a b0 Hb0 Hf0. destruct (Z.eq_dec a r) as [->|Hne].
      + exists size. rewrite lookup_insert_eq. done.
      + apply HS in Hb0; [|done|done]. destruct (li_used _ _ _ _ L _ _ Hb0 Hf0) as (sz0 & H0 & Hl0).
        exists sz0. rewrite lookup_insert_ne by lia. done.
    - intros x [y Hx]. destruct (M3 _ _ Hx) as [Hx'|?]; [|auto].
      destruct (li_held _ _ _ _ L x) as [?|[[q Hq]|(sz0 & H0 & Hl0)]]; [eauto|auto| |].
      + right. left. exists q. by eapply lookup_weaken.
      + right. right. exists sz0. split; [|done]. rewrite lookup_insert_ne; [done|].
        intros <-. by eapply Hnh. }
  assert (Hwords : forall w, r + OFF_NEXT <= w < r + OFF_NEXT + norm size -> r <= w < r + bsize b)
    by (unfold OFF_NEXT in *; intros; lia).
  split; [by exists C', B'|]. split.
  - split; [unfold OFF_NEXT; lia|]. split; [|split; [|split; [|split]]].
    + apply Z.divide_add_r; [|by exists 1]. etransitivity; [|eapply block_align; [exact T'|exact Hb]]. by exists 2.
    + destruct (live !! (r + OFF_NEXT)) eqn:E; [|done]. exfalso. by eapply Hnh.
    + intros w Hw (u & sz0 & H0 & Hw0). destruct (large_dec sz0) as [Hl0|Hl0].
      * assert (H0' : <[r + OFF_NEXT := size]> live !! u = Some sz0).
        { rewrite lookup_insert_ne; [done|]. intros <-. by eapply Hnh. }
        destruct (li_large _ _ _ _ L' _ _ H0' Hl0) as (Hh & Hn & _).
        destruct (held_apart _ _ _ _ _ _ _ I' Hh Hn Hb); specialize (Hwords w Hw); lia.
      * destruct (li_small _ _ _ _ L _ _ H0 Hl0) as (b0 & Hb0 & Hf0 & Hi0).
        destruct (Hfrom _ _ Hb0 Hf0) as [Hb0' Hne]. apply Hne.
        assert (u - OFF_NEXT = r); [|lia].
        pose proof (cls_range _ Hl0) as [_ Hsz0]. unfold OFF_NEXT in *.
        eapply (block_unique _ _ _ _ T' _ _ b0 b w); eauto. unfold bsize. rewrite Hi0. lia.
    + intros w Hw. eapply (block_not_static _ _ _ _ T' r b w); eauto.
    + destruct (t_geo _ _ _ _ T' _ _ Hb) as [_ (_ & G1 & G2 & _)].
      exists (k_chunk b), MAXSIZE. destruct (t_chunk _ _ _ _ T' _ _ Hp) as (Hh & _).
      split; [done|]. unfold OFF_NEXT in *. lia.
  - intros w Hw. eapply ok_words; eauto. eapply live_not_owned; [exact I'|exact L'|].
    destruct Hw as (u & sz0 & H0 & Hw). exists u, sz0. split; [|done].
    rewrite lookup_insert_ne; [done|]. intros <-. by eapply Hnh.
Qed.

(** Going straight to Exec. *)
Lemma alloc_large s live size attr : ok s live -> large size ->
  exists r s', exec_alloc AllocMem s (norm size) attr = (r, s') /\ bm s' = bm s /\
    ((r = 0 /\ ok s' live) \/
     (r <> 0 /\ ok s' (<[r := size]> live) /\ fresh_alloc s live r size s')).
Proof.
  intros (C & B & I & L) Hl. unfold exec_alloc. pose proof (norm_min size) as Hm.
  destruct (HA (clock s) (held s) (norm size) attr) as [E|F]; [lia| |].
  { rewrite E. eexists _, _. split; [done|]. split; [done|]. left. split; [done|]. exists C, B.
    destruct L. done. }
  set (r := AllocMem _ _ _ _) in *. assert (Hr : 0 < r) by apply F.
  rewrite (proj2 (Z.eqb_neq r 0)) by lia. eexists _, _. split; [done|]. split; [done|]. right.
  split; [lia|]. destruct I as (T & R & K).
  assert (Hnh : held s !! r = None).
  { eapply (fresh_not_held (held s) r (norm size)); [|lia|done].
    intros a' sz H. apply (t_held _ _ _ _ T) in H. tauto. }
  assert (T' : tiled free_list (<[r := norm size]> (held s)) C B) by (apply tiled_hold; [done|lia|done]).
  assert (Hnc : C !! r = None).
  { destruct (C !! r) eqn:E; [|done]. destruct (t_chunk _ _ _ _ T _ _ E). congruence. }
  destruct F as (_ & F2 & _ & F4).
  assert (Hap : forall a b, B !! a = Some b -> r + norm size <= a \/ a + bsize b <= r).
  { intros a b Hb. destruct (t_geo _ _ _ _ T _ _ Hb) as [[p Hp] _].
    destruct (t_chunk _ _ _ _ T _ _ Hp) as (Hh & _ & _). pose proof (block_bounds _ _ _ _ T _ _ Hb).
    destruct (F4 _ _ Hh); lia. }
  assert (Hnl : forall sz0, live !! r = Some sz0 -> False).
  { intros sz0 H0. destruct (large_dec sz0) as [Hl0|Hl0].
    - destruct (li_large _ _ _ _ L _ _ H0 Hl0). congruence.
    - destruct (li_small _ _ _ _ L _ _ H0 Hl0) as (b & Hb & _). unfold OFF_NEXT in *.
      pose proof (block_bounds _ _ _ _ T _ _ Hb). destruct (Hap _ _ Hb); lia. }
  split.
  - exists C, B. split; [done|]. split; cbn [held].
    + intros u sz0 H0 Hl0. rewrite lookup_insert_Some in H0. destruct H0 as [[<- <-]|[_ H0]]; [done|].
      by eapply li_small.
    + intros u sz0 H0 Hl0. rewrite lookup_insert_Some in H0. destruct H0 as [[<- <-]|[Hne H0]].
      * split; [apply lookup_insert_eq|]. split; [done|]. intros ->.
        pose proof (t_static _ _ _ _ T). congruence.
      * rewrite lookup_insert_ne by done. by eapply li_large.
    + intros a b Hb Hf. destruct (li_used _ _ _ _ L _ _ Hb Hf) as (sz0 & H0 & Hl0). exists sz0.
      split; [|done]. rewrite lookup_insert_ne; [done|]. intros ->.
      pose proof (block_bounds _ _ _ _ T _ _ Hb). unfold OFF_NEXT in *. destruct (Hap _ _ Hb); lia.
    + intros x Hx. destruct (Z.eq_dec x r) as [->|Hne].
      * right. right. exists size. by rewrite lookup_insert_eq.
      * rewrite lookup_insert_ne in Hx |- * by done. by apply (li_held _ _ _ _ L).
  - split; [done|]. split; [etransitivity; [|exact F2]; by exists 2|]. split; [|split; [|split]].
    + destruct (live !! r) eqn:E; [|done]. exfalso. by eapply Hnl.
    + intros w Hw (u & sz0 & H0 & Hw0). destruct (large_dec sz0) as [Hl0|Hl0].
      * destruct (li_large _ _ _ _ L _ _ H0 Hl0) as (Hh & _). destruct (F4 _ _ Hh); lia.
      * destruct (li_small _ _ _ _ L _ _ H0 Hl0) as (b & Hb & _ & Hi).
        pose proof (cls_range _ Hl0) as [_ Hsz0].
        assert (bsize b = bsz (cls sz0)) by (unfold bsize; by rewrite Hi).
        unfold OFF_NEXT in *. destruct (Hap _ _ Hb); lia.
    + intros w Hw Hs. unfold static_word in Hs. destruct (F4 _ _ (t_static _ _ _ _ T)); lia.
    + exists r, (norm size). cbn [held]. rewrite lookup_insert_eq. split; [done|lia].
Qed.

Lemma alloc_ok s live size pool : ok s live -> is_pool pool ->
  exists r s', b_alloc free_list AllocMem s size pool = Ret r s' /\
    ((r = 0 /\ ok s' live) \/
     (r <> 0 /\ 0 <= size /\ ok s' (<[r := size]> live) /\ fresh_alloc s live r size s')) /\
    (forall w, in_live live w -> ld (bm s') w = ld (bm s) w).
Proof.
  intros Hok Hp. unfold b_alloc.
  replace ((0 <=? pool) && (pool <? NUMPOOLS)) with true by (destruct Hp; by subst). cbn [negb].
  destruct (Z.ltb_spec size 0).
  { eexists _, _. split; [done|]. split; [left|]; done. }
  change (if size <? MINSIZE then MINSIZE else size) with (norm size).
  destruct (Z.leb_spec (BUDDY_LIMIT - OFF_NEXT) (norm size)) as [Hl|Hl].
  - destruct (alloc_large s live size (exec_attr pool) Hok Hl) as (r & s' & -> & E & Hr).
    eexists _, _. split; [done|]. rewrite E. split; [|done].
    destruct Hr as [?|(? & ? & ?)]; [by left|by right].
  - assert (Hs : ~ large size) by (unfold large; lia). pose proof (cls_range _ Hs) as [Hc _].
    destruct (log2_cls _ Hs) as [-> E]. cbv zeta. rewrite E. destruct Hok as (C & B & I & L).
    destruct (get_block_spec free_list AllocMem depth s C B pool (cls size) HA I Hp) as (r & s1 & -> & Hgot);
      [lia|unfold depth; lia|]. cbn [obind].
    destruct (Z.eq_dec r 0) as [->|Hne].
    + cbn [Z.eqb negb]. eexists _, _. split; [done|].
      destruct Hgot as [(_ & E1 & E2)|[? _]]; [|lia]. rewrite E1. split; [|done]. left. split; [done|].
      exists C, B. unfold BuddyBlocks.inv. rewrite E1, E2. split; [done|]. destruct L. split; rewrite ?E2; done.
    + assert (0 < r) by (destruct Hgot as [[-> _]|[? _]]; lia).
      rewrite (proj2 (Z.eqb_neq r 0)) by done. cbn [negb]. eexists _, _. split; [done|].
      destruct (got_live _ _ _ _ _ _ _ size live I L Hs eq_refl H0 Hgot) as (H1 & H2 & H3).
      split; [|done]. right. unfold OFF_NEXT in *. split; [lia|done].
Qed.

(** ** Freeing *)

Lemma free_ok s live u size : ok s live -> live !! u = Some size ->
  exists s', b_free free_list s u size = Ret () s' /\ ok s' (delete u live) /\
    (forall w, in_live (delete u live) w -> ld (bm s') w = ld (bm s) w).
Proof.
  intros (C & B & I & L) Hu. unfold b_free.
  change (if size <? MINSIZE then MINSIZE else size) with (norm size).
  assert (Hsub : forall v sz, delete u live !! v = Some sz -> live !! v = Some sz /\ v <> u)
    by (intros v sz H; rewrite lookup_delete_Some in H; destruct H; auto).
  destruct (Z.leb_spec (BUDDY_LIMIT - OFF_NEXT) (norm size)) as [Hl|Hl].
  - destruct (li_large _ _ _ _ L _ _ Hu Hl) as (Hh & Hn & Hf). unfold exec_free.
    rewrite Hh, Z.eqb_refl. eexists. split; [done|]. split; [|done].
    destruct I as (T & R & K). exists C, B. split.
    { split; [by eapply tiled_release|done]. }
    split; cbn [held].
    + intros v sz [H _]%Hsub Hl0. by eapply li_small.
    + intros v sz [H Hne]%Hsub Hl0. rewrite lookup_delete_ne by done. by eapply li_large.
    + intros a b Hb Hfr. destruct (li_used _ _ _ _ L _ _ Hb Hfr) as (sz & H0 & Hl0). exists sz.
      split; [|done]. rewrite lookup_delete_ne; [done|]. intros ->. rewrite Hu in H0. injection H0 as <-. by apply Hl0.
    + intros x Hx. destruct (Z.eq_dec x u) as [->|Hne].
      { rewrite lookup_delete_eq in Hx. by destruct Hx. }
      rewrite lookup_delete_ne in Hx |- * by done. by apply (li_held _ _ _ _ L).
  - assert (Hs : ~ large size) by (unfold large; lia). pose proof (cls_range _ Hs) as [Hc _].
    destruct (log2_cls _ Hs) as [-> E]. cbv zeta. rewrite E.
    destruct (li_small _ _ _ _ L _ _ Hu Hs) as (b & Hb & Hf & Hi).
    destruct (t_geo _ _ _ _ (proj1 I) _ _ Hb) as [[p Hp] _].
    destruct (t_chunk _ _ _ _ (proj1 I) _ _ Hp) as (_ & _ & Hip).
    destruct (r_header _ _ _ _ (proj1 (proj2 I)) _ _ _ Hb Hp) as [Hpool _]. rewrite Hf in Hpool.
    rewrite Hpool. replace (p + 1 - 1) with p by ring.
    replace ((0 <=? p) && (p <? NUMPOOLS)) with true by (destruct Hip; by subst). cbn [negb].
    rewrite <- Hi.
    destruct (free_block_spec free_list depth s C B (u - OFF_NEXT) b p I Hb Hf Hp) as (s' & -> & Hfr);
      [unfold depth; lia|].
    destruct Hfr as (C' & B' & I' & HS & HN & [F1 F2 F3 F4] & HW). exists s'. split; [done|].
    assert (L' : live_inv s' C' B' (delete u live)).
    { split.
      - intros v sz [H Hne]%Hsub Hl0. destruct (li_small _ _ _ _ L _ _ H Hl0) as (b0 & Hb0 & Hf0 & Hi0).
        exists b0. split; [|done]. apply HS; [done|lia|done].
      - intros v sz [H Hne]%Hsub Hl0. destruct (li_large _ _ _ _ L _ _ H Hl0) as (Hh & Hn & Hnf).
        destruct (F3 v) as [[y Hy]|[y Hy]]; [eauto| |congruence].
        assert (held s !! v = Some y) by (by eapply lookup_weaken).
        split; [congruence|]. split; [|done]. by eapply lookup_weaken_None.
      - intros a b0 Hb0 Hf0. assert (a <> u - OFF_NEXT) by (intros ->; apply HN in Hb0; congruence).
        apply HS in Hb0; [|done|done]. destruct (li_used _ _ _ _ L _ _ Hb0 Hf0) as (sz & H0 & Hl0).
        exists sz. rewrite lookup_delete_ne by lia. done.
      - intros x [y Hx]. destruct (li_held _ _ _ _ L x) as [?|[?|(sz & H0 & Hl0)]].
        + eexists. by eapply lookup_weaken.
        + auto.
        + right. left. eauto.
        + right. right. exists sz. split; [|done]. rewrite lookup_delete_ne; [done|]. intros <-. rewrite Hu in H0. injection H0 as <-. done. }
    split; [by exists C', B'|]. intros w Hw. apply HW.
    + eapply live_not_owned; [exact I|exact L|]. destruct Hw as (v & sz & [H Hne]%Hsub & Hw). by exists v, sz.
    + by eapply live_not_owned.
Qed.

(** ** Writes by the clients and by the rest of the system *)

Lemma write_ok s live w v : ok s live ->
  in_live live w \/ (forall x sz, held s !! x = Some sz -> ~ (x <= w < x + sz)) ->
  ok (set_bm s (st (bm s) w v)) live.
Proof.
  intros (C & B & I & L) Hw. assert (Hno : ~ owned B w).
  { destruct Hw as [Hw|Hw]; [by eapply live_not_owned|]. destruct I as (T & _).
    intros [Hs|(a & b & Hb & Hwa)].
    - by apply (Hw _ _ (t_static _ _ _ _ T)).
    - destruct (t_geo _ _ _ _ T _ _ Hb) as [[p Hp] _]. destruct (t_chunk _ _ _ _ T _ _ Hp) as (Hh & _).
      pose proof (block_bounds _ _ _ _ T _ _ Hb). apply (Hw _ _ Hh).
      destruct Hwa as [->|[_ ?]]; lia. }
  exists C, B. split; [|by destruct L]. destruct I as (T & R & K). split; [done|]. split; [|done].
  cbn [bm set_bm]. eapply (rep_same_free free_list (bm s)); try done.
  - intros a b p Hb Hf Hp. destruct (r_header _ _ _ _ R _ _ _ Hb Hp) as [H1 H2]. rewrite Hf in H1.
    assert (w <> a) by (intros ->; apply Hno; right; exists a, b; auto).
    by rewrite (get_pool_ext (bm s)), (get_exec_ext (bm s)) by (by apply ld_st_ne).
  - intros w' Hw'. left. apply ld_st_ne. intros ->. done.
Qed.

(** ** Start and steps *)

Lemma new_buckets_zero n : forall i m pool p k,
  (ld m (bucket free_list p k) = 0 /\ ld m (bucket free_list p k + 4) = 0) \/
  (p = pool /\ i <= k < i + Z.of_nat n) ->
  ld (new_buckets free_list n i m pool) (bucket free_list p k) = 0 /\
  ld (new_buckets free_list n i m pool) (bucket free_list p k + 4) = 0.
Proof.
  induction n as [|n IH]; intros i m pool p k H; cbn [new_buckets]; [destruct H; [done|lia]|].
  apply IH. destruct (decide (p = pool /\ k = i)) as [[-> ->]|Hne].
  - left. split.
    + unfold ixnewlist, l_head. apply ld_st_eq.
    + unfold ixnewlist, l_head, l_tail. rewrite ld_st_ne by lia. apply ld_st_eq.
  - destruct H as [[H1 H2]|[H1 H2]]; [left|right; split; [done|]].
    + unfold ixnewlist, l_head, l_tail, ld, st in *.
      split; rewrite !lookup_insert; repeat case_decide; done.
    + assert (k <> i) by (intros ->; by apply Hne). lia.
Qed.

Definition start (m : mem) : bstate :=
  mk_bstate (init_buddy free_list m) {[ free_list := NUMPOOLS * SIZEOF_FREE_LIST ]} 0.

Definition placed : Prop :=
  0 < free_list /\ (8 | free_list) /\ free_list + NUMPOOLS * SIZEOF_FREE_LIST <= 2 ^ 32.

Lemma start_ok m : placed -> ok (start m) ∅.
Proof.
  intros (P1 & P2 & P3). exists ∅, ∅. split; [split; [|split]|].
  - split; cbn [held start]; try (intros ? ?; intros; by rewrite lookup_empty in * ).
    + apply lookup_singleton_eq.
    + intros a sz. rewrite lookup_singleton_Some. intros [<- <-]. done.
    + intros a a' sz sz'. rewrite !lookup_singleton_Some. intros [<- _] [<- _]. done.
  - split.
    + intros a b p H. by rewrite lookup_empty in H.
    + intros a b H. by rewrite lookup_empty in H.
    + intros p i Hp Hi. exists []. split; [|split; [constructor|]].
      * apply dll_nil. cbn [bm start]. unfold init_buddy. change (Z.to_nat (MAXLOG2 - MINLOG2)) with 12%nat.
        apply new_buckets_zero. destruct Hp as [-> | ->]; [left|right; split; [done|lia]].
        apply new_buckets_zero. right. split; [done|lia].
      * intros n. split; [set_solver|]. intros (b & H & _). by rewrite lookup_empty in H.
  - intros a b b' H. by rewrite lookup_empty in H.
  - split; cbn [held start]; try (intros ? ? H; by rewrite lookup_empty in H).
    intros x [sz Hx]. rewrite lookup_singleton_Some in Hx. destruct Hx as [<- _]. by left.
Qed.

(** A client calls [b_alloc] (the library passes pools 0 and 1), frees a live
    allocation with the size it asked for, or writes a word into its memory;
    the rest of the system writes outside the memory the library holds. *)
Inductive step : bstate * gmap Z Z -> bstate * gmap Z Z -> Prop :=
| step_alloc s live size pool r s' : is_pool pool ->
    b_alloc free_list AllocMem s size pool = Ret r s' ->
    step (s, live) (s', if r =? 0 then live else <[r := size]> live)
| step_free s live u size s' : live !! u = Some size ->
    b_free free_list s u size = Ret () s' -> step (s, live) (s', delete u live)
| step_write s live w v :
    in_live live w \/ (forall x sz, held s !! x = Some sz -> ~ (x <= w < x + sz)) ->
    step (s, live) (set_bm s (st (bm s) w v), live).

Definition reach (m : mem) (s : bstate) (live : gmap Z Z) : Prop :=
  rtc step (start m, ∅) (s, live).

Lemma reach_ok m s live : placed -> reach m s live -> ok s live.
Proof.
  intros P H. unfold reach in H.
  assert (Hgen : forall x y, rtc step x y -> ok x.1 x.2 -> ok y.1 y.2).
  { clear - HA. intros x y H. induction H as [|x y z Hs _ IH]; [done|]. intros Hx. apply IH.
    destruct Hs as [s live size pool r s' Hp E|s live u size s' Hu E|s live w v Hw]; cbn [fst snd] in *.
    - destruct (alloc_ok s live size pool Hx Hp) as (r1 & s1 & E1 & Hr & _).
      rewrite E in E1. apply Ret_inj in E1 as [<- <-].
      destruct Hr as [[-> ?]|(Hr & _ & ? & _)]; [done|]. by rewrite (proj2 (Z.eqb_neq r 0)).
    - destruct (free_ok s live u size Hx Hu) as (s1 & E1 & ? & _).
      rewrite E in E1. by apply Ret_inj in E1 as [_ <-].
    - by apply write_ok. }
  apply (Hgen _ _ H). by apply start_ok.
Qed.
End Clients.

(** ** An Exec for the examples *)

Lemma bump_top_spec h : 8 <= bump_top h /\ forall a sz, h !! a = Some sz -> a + sz <= bump_top h.
Proof.
  unfold bump_top. apply (map_fold_weak_ind (fun t h => 8 <= t /\ forall a sz, h !! a = Some sz -> a + sz <= t)).
  - split; [lia|]. intros a sz H. by rewrite lookup_empty in H.
  - intros a sz h' t Hn [H1 H2]. split; [lia|]. intros a1 s1. rewrite lookup_insert_Some.
    intros [[<- <-]|[_ H]]; [lia|]. specialize (H2 _ _ H). lia.
Qed.

Lemma AllocMem_bump_ok : AllocMem_ok AllocMem_bump.
Proof.
  intros t h size attr Hs. unfold AllocMem_bump. destruct (bump_top_spec h) as [H1 H2].
  destruct (Z.leb_spec ((bump_top h + 7) / 8 * 8 + size) (2 ^ 32)) as [Hle|]; [right|by left].
  assert (H3 : bump_top h <= (bump_top h + 7) / 8 * 8) by (Z.div_mod_to_equations; lia).
  split; [lia|]. split; [by eexists|]. split; [done|]. intros a sz H. right. specialize (H2 _ _ H). lia.
Qed.

Lemma placed_1024 : placed 1024.
Proof. split; [lia|]. split; [by exists 128|]. unfold NUMPOOLS, SIZEOF_FREE_LIST. lia. Qed.

(** ** Theorems *)

(** C13. In every reachable state of the library [b_alloc] terminates without
    fault; it returns 0, or the address of memory that lies in a block held
    from Exec, apart from all live allocations and from the allocator's own
    lists, and aligned to four bytes; and it changes no word of a live
    allocation. *)
Theorem b_alloc_disjoint (free_list : Z) (AllocMem : Z -> gmap Z Z -> Z -> Z -> Z)
    (m : mem) (s : bstate) (live : gmap Z Z) (size pool : Z) :
  AllocMem_ok AllocMem -> placed free_list -> reach free_list AllocMem m s live -> is_pool pool ->
  exists r s', b_alloc free_list AllocMem s size pool = Ret r s' /\
    (r = 0 \/ (0 <= size /\ fresh_alloc free_list s live r size s')) /\
    (forall w, in_live live w -> ld (bm s') w = ld (bm s) w).
Proof.
  intros HA P H Hp. destruct (alloc_ok free_list AllocMem HA s live size pool) as (r & s' & E & Hr & Hw);
    [by eapply reach_ok|done|]. exists r, s'. split; [done|]. split; [|done].
  destruct Hr as [[? _]|(_ & ? & _ & ?)]; auto.
Qed.

(** The state after one allocation of 100 bytes. *)
Definition one_alloc : outcome bstate Z := b_alloc 1024 AllocMem_bump (start 1024 ∅) 100 1.
Definition after_one : bstate := match one_alloc with Ret _ s => s | _ => start 1024 ∅ end.

Lemma one_alloc_eq : one_alloc = Ret 1484 after_one.
Proof. vm_compute. reflexivity. Qed.

Lemma reach_one : reach 1024 AllocMem_bump ∅ after_one {[ 1484 := 100 ]}.
Proof.
  apply rtc_once. apply (step_alloc 1024 AllocMem_bump (start 1024 ∅) ∅ 100 1 1484); [by right|].
  apply one_alloc_eq.
Qed.

Lemma b_alloc_disjoint_witness : exists r s',
  b_alloc 1024 AllocMem_bump after_one 10 0 = Ret r s' /\
  (r = 0 \/ (0 <= 10 /\ fresh_alloc 1024 after_one {[ 1484 := 100 ]} r 10 s')) /\
  (forall w, in_live {[ 1484 := 100 ]} w -> ld (bm s') w = ld (bm after_one) w).
Proof.
  apply (b_alloc_disjoint 1024 AllocMem_bump ∅); [apply AllocMem_bump_ok|apply placed_1024|apply reach_one|].
  by left.
Defined.

(** In every reachable state [b_free] of a live allocation terminates
    without fault and changes no word of any other live allocation. *)
Theorem b_free_keeps_others (free_list : Z) (AllocMem : Z -> gmap Z Z -> Z -> Z -> Z)
    (m : mem) (s : bstate) (live : gmap Z Z) (u size : Z) :
  AllocMem_ok AllocMem -> placed free_list -> reach free_list AllocMem m s live -> live !! u = Some size ->
  exists s', b_free free_list s u size = Ret () s' /\
    (forall w, in_live (delete u live) w -> ld (bm s') w = ld (bm s) w).
Proof.
  intros HA P H Hu. destruct (free_ok free_list s live u size) as (s' & E & _ & Hw);
    [by eapply reach_ok|done|]. eauto.
Qed.

Lemma b_free_keeps_others_witness : exists s',
  b_free 1024 after_one 1484 100 = Ret () s' /\
  (forall w, in_live (delete 1484 {[ 1484 := 100 ]}) w -> ld (bm s') w = ld (bm after_one) w).
Proof.
  apply (b_free_keeps_others 1024 AllocMem_bump ∅); [apply AllocMem_bump_ok|apply placed_1024|apply reach_one|].
  reflexivity.
Defined.

(** A block of a chunk whose blocks are all free has a free buddy of its size:
    take a smallest one. *)
Lemma all_free_chunk free_list h C B :
  tiled free_list h C B -> coal B -> (forall a b, B !! a = Some b -> k_free b = true /\ k_idx b < 12) -> C = ∅.
Proof.
  intros T K Hfree. apply map_eq. intros c. rewrite lookup_empty. destruct (C !! c) as [p|] eqn:Hc; [|done].
  exfalso.
  assert (Hmin : forall n a b, B !! a = Some b -> k_idx b < Z.of_nat n -> False).
  { induction n as [|n IH]; intros a b Hb Hn;
      destruct (block_bounds _ _ _ _ T _ _ Hb) as (_ & _ & _ & _ & _ & Hi & _); [lia|].
    destruct (Hfree _ _ Hb) as [Hf H12].
    destruct (buddy_block _ _ _ _ T _ _ Hb H12) as (b2 & Hb2 & _ & Hle & _).
    destruct (Z.eq_dec (k_idx b2) (k_idx b)) as [E|Hne].
    - apply (K a b b2 Hb Hb2 H12 Hf); [by apply (Hfree _ _ Hb2)|done].
    - apply (IH _ _ Hb2). lia. }
  destruct (t_cover _ _ _ _ T c p c Hc) as (a & b & Hb & _); [change MAXSIZE with 65536; lia|].
  apply (Hmin 12%nat a b Hb). apply (Hfree _ _ Hb).
Qed.

(** C14. No leak and full coalescing: whenever every allocation has been freed,
    all memory that was obtained from Exec has been given back. *)
Theorem all_freed_all_returned (free_list : Z) (AllocMem : Z -> gmap Z Z -> Z -> Z -> Z)
    (m : mem) (s : bstate) :
  AllocMem_ok AllocMem -> placed free_list -> reach free_list AllocMem m s ∅ ->
  held s = {[ free_list := NUMPOOLS * SIZEOF_FREE_LIST ]}.
Proof.
  intros HA P H. apply reach_ok in H as (C & B & (T & R & K) & L); [|done..].
  assert (Hfree : forall a b, B !! a = Some b -> k_free b = true /\ k_idx b < 12).
  { intros a b Hb. destruct (k_free b) eqn:Hf.
    - split; [done|]. by apply (r_index _ _ _ _ R _ _ Hb).
    - destruct (li_used _ _ _ _ _ L _ _ Hb Hf) as (sz & H0 & _). by rewrite lookup_empty in H0. }
  assert (C = ∅) as -> by (by eapply all_free_chunk).
  apply map_eq. intros x. destruct (Z.eq_dec x free_list) as [->|Hne].
  - rewrite lookup_singleton_eq. apply T.
  - rewrite lookup_singleton_ne by done. destruct (held s !! x) as [sz|] eqn:E; [|done].
    destruct (li_held _ _ _ _ _ L x) as [?|[[? H0]|(sz0 & H0 & _)]]; [eauto|done| |];
      by rewrite lookup_empty in H0.
Qed.

Definition after_free : bstate :=
  match b_free 1024 after_one 1484 100 with Ret _ s => s | _ => after_one end.

Lemma all_freed_all_returned_witness :
  held after_one !! 1480 = Some MAXSIZE /\ held after_free = {[ 1024 := NUMPOOLS * SIZEOF_FREE_LIST ]}.
Proof.
  split; [vm_compute; reflexivity|].
  apply (all_freed_all_returned 1024 AllocMem_bump ∅); [apply AllocMem_bump_ok|apply placed_1024|].
  eapply rtc_r; [apply reach_one|]. change ∅ with (delete 1484 ({[ 1484 := 100 ]} : gmap Z Z)).
  eapply step_free; [reflexivity|]. vm_compute. reflexivity.
Defined.

(** [log2] terminates for every size the allocator passes and rounds up:
    the result is the least power of two that holds the size.  Since the four
    bytes of the header are added after the size is raised to 16, the bucket is
    never 0: the smallest block handed out has 32 bytes, where the comment in
    struct free_block says 16. *)
Theorem log2_rounds_up (size : Z) :
  1 <= size <= MAXSIZE -> exists k,
    log2 size = Some k /\ size <= 2 ^ k /\ (forall j, 0 <= j -> size <= 2 ^ j -> k <= j) /\
    (size = norm (size - OFF_NEXT) + OFF_NEXT -> 1 <= k - MINLOG2).
Proof.
  intros H. exists (Z.log2_up size). change MAXSIZE with 65536 in H. split; [by apply log2_eq|].
  split; [|split].
  - destruct (Z.eq_dec size 1) as [->|]; [done|]. apply Z.log2_up_spec. lia.
  - intros j Hj Hs. rewrite <- (Z.log2_up_pow2 j Hj). by apply Z.log2_up_le_mono.
  - intros E. pose proof (norm_min (size - OFF_NEXT)). unfold OFF_NEXT, MINLOG2 in *.
    assert (Z.log2_up 20 <= Z.log2_up size) as Hl by (apply Z.log2_up_le_mono; lia).
    change (Z.log2_up 20) with 5 in Hl. lia.
Qed.

Lemma log2_rounds_up_witness : exists k,
  log2 20 = Some k /\ 20 <= 2 ^ k /\ (forall j, 0 <= j -> 20 <= 2 ^ j -> k <= j) /\
  (20 = norm (20 - OFF_NEXT) + OFF_NEXT -> 1 <= k - MINLOG2).
Proof. apply (log2_rounds_up 20). change MAXSIZE with 65536. lia. Defined.
