(* ===== verification/Unp.v ===== *)
(** * Pipes and UNIX domain streams: data and operations

    Models the stream layer of library/unp.c (struct sock_stream: a ring buffer
    with a lock), the end of a pipe ([__pclose] of library/pipe.c) and the
    closing, ioctl and select operations of UNIX domain sockets.  Memory is a
    map from addresses to structures, so that the use of a freed one is a
    [Fault]; [reader] and [writer] are offsets into the buffer.  While a call
    sleeps the rest of the system acts: an element of the schedule is the value
    [ix_sleep] returns and the change made in the meantime.  Wake-ups and
    signals that the code sends are appended to a log. *)

From S2P Require Import Prelude.

Module Unp.

(** ** Constants (include/sys/unix_socket.h, fcntl.h, file.h, ioctl) *)

Definition UNIX_SOCKET_SIZE : Z := 5120.
Definition UNF_NO_READER : Z := 0x1.
Definition UNF_NO_WRITER : Z := 0x2.
Definition UNF_LOCKED : Z := 0x4.
Definition UNF_WANT_LOCK : Z := 0x8.
Definition UNS_WAITING : Z := 0.
Definition UNS_ERROR : Z := -1.
Definition UNS_PROCESSING : Z := 1.
Definition UNS_ACCEPTED : Z := 2.
Definition FNDELAY : Z := 0x4.
Definition FASYNC : Z := 0x40.
Definition EPIPE : Z := 32.
Definition ENOTCONN : Z := 57.
Definition SIGPIPE : Z := 13.
Definition sigcantmask : Z := Z.lor (Z.shiftl 1 (9 - 1)) (Z.shiftl 1 (17 - 1)).

Inductive dtype := DTYPE_PIPE | DTYPE_USOCKET.

(** ** Data *)

Record sock_stream := mk_stream {
  buffer : list Z;
  reader : Z; writer : Z;
  flags : Z;
  task : Z
}.

Record unix_socket := mk_usock {
  state : Z;
  from_server : Z; to_server : Z;   (** addresses of streams, 0 for NULL *)
  unix_name : Z;
  server : Z                        (** address of a file *)
}.

Record ix_unix_name := mk_uname { un_next : Z; un_task : Z; queue_size : Z; queue : list Z }.

(** The union [f__fh] is the address of a stream (a pipe) or a socket. *)
Record file := mk_file {
  f_type : dtype;
  f_flags : Z;
  f_count : Z;
  f_ptr : Z;
  f_read : bool                     (** the read function is set *)
}.

Inductive event :=
| EWakeup (chan : Z)                (** ix_wakeup of a stream *)
| EWakeLock (chan : Z)              (** ix_wakeup of its flags *)
| ESignal (task : Z)                (** Signal (task, pipe signal) *)
| EPsignal (sig : Z)                (** _psignal of the running process *)
| ESetrun.

Record world := mk_world {
  streams : gmap Z sock_stream;
  socks : gmap Z unix_socket;
  files : gmap Z file;
  names : gmap Z ix_unix_name;
  ix_unix_names : Z;
  w_errno : Z;
  sigmask : Z;
  log : list event
}.

Definition schedule : Type := list (Z * (world -> world)).

Definition set_streams w v := mk_world v (socks w) (files w) (names w) (ix_unix_names w) (w_errno w) (sigmask w) (log w).
Definition set_socks w v := mk_world (streams w) v (files w) (names w) (ix_unix_names w) (w_errno w) (sigmask w) (log w).
Definition set_files w v := mk_world (streams w) (socks w) v (names w) (ix_unix_names w) (w_errno w) (sigmask w) (log w).
Definition set_names w v h := mk_world (streams w) (socks w) (files w) v h (w_errno w) (sigmask w) (log w).
Definition set_errno w v := mk_world (streams w) (socks w) (files w) (names w) (ix_unix_names w) v (sigmask w) (log w).
Definition set_mask w v := mk_world (streams w) (socks w) (files w) (names w) (ix_unix_names w) (w_errno w) v (log w).
Definition emit w e := mk_world (streams w) (socks w) (files w) (names w) (ix_unix_names w) (w_errno w) (sigmask w) (log w ++ [e]).

Definition put_stream w a s := set_streams w (<[a := s]> (streams w)).
Definition put_sock w a s := set_socks w (<[a := s]> (socks w)).
Definition put_file w a f := set_files w (<[a := f]> (files w)).
Definition free_stream w a := set_streams w (delete a (streams w)).

Definition set_flags s v := mk_stream (buffer s) (reader s) (writer s) v (task s).
Definition set_reader s v := mk_stream (buffer s) v (writer s) (flags s) (task s).
Definition set_data s b v := mk_stream b (reader s) v (flags s) (task s).
Definition set_task s v := mk_stream (buffer s) (reader s) (writer s) (flags s) v.
Definition set_fflags f v := mk_file (f_type f) v (f_count f) (f_ptr f) (f_read f).
Definition set_fcount f v := mk_file (f_type f) (f_flags f) v (f_ptr f) (f_read f).

(** syscall (SYS_sigsetmask, m): the old mask. *)
Definition sigsetmask (w : world) (m : Z) : Z * world :=
  (sigmask w, set_mask w (bclr (u32 m) sigcantmask)).

(** ** The ring *)

Definition can_read (s : sock_stream) : bool := negb (reader s =? writer s).
Definition can_write (s : sock_stream) : bool :=
  negb ((reader s =? writer s + 1) || ((reader s =? 0) && (writer s =? UNIX_SOCKET_SIZE - 1))).

(** bcopy out of and into the buffer; [None] outside it. *)
Definition copy_out (b : list Z) (off n : Z) : option (list Z) :=
  if (0 <=? off) && (0 <=? n) && (off + n <=? Z.of_nat (length b))
  then Some (take (Z.to_nat n) (drop (Z.to_nat off) b)) else None.

Definition copy_in (b : list Z) (off n : Z) (src : list Z) : option (list Z) :=
  if (0 <=? off) && (0 <=? n) && (off + n <=? Z.of_nat (length b)) && (n <=? Z.of_nat (length src))
  then Some (take (Z.to_nat off) b ++ take (Z.to_nat n) src ++ drop (Z.to_nat (off + n)) b) else None.

(** One round of the loop of [stream_read]: up to the end of the buffer, then
    from its start. *)
Definition read_pass (s : sock_stream) (len : Z) : option (list Z * sock_stream) :=
  match
    (if writer s <? reader s then
       let avail := UNIX_SOCKET_SIZE - reader s in
       let do_read := if len <? avail then len else avail in
       match copy_out (buffer s) (reader s) do_read with
       | None => None
       | Some bs =>
         let r := reader s + do_read in
         Some (bs, len - do_read, set_reader s (if r =? UNIX_SOCKET_SIZE then 0 else r))
       end
     else Some ([], len, s))
  with
  | None => None
  | Some (bs, len, s) =>
    if negb (len =? 0) && (reader s <? writer s) then
      let avail := writer s - reader s in
      let do_read := if len <? avail then len else avail in
      match copy_out (buffer s) (reader s) do_read with
      | None => None
      | Some bs' => Some (bs ++ bs', set_reader s (reader s + do_read))
      end
    else Some (bs, s)
  end.

(** One round of the loop of [stream_write]: the bytes not written yet. *)
Definition write_pass (s : sock_stream) (buf : list Z) : option (list Z * sock_stream) :=
  let len := Z.of_nat (length buf) in
  match
    (if reader s <=? writer s then
       let avail := UNIX_SOCKET_SIZE - 1 - writer s + (if 0 <? reader s then 1 else 0) in
       let do_write := if len <? avail then len else avail in
       match copy_in (buffer s) (writer s) do_write buf with
       | None => None
       | Some b =>
         let w := writer s + do_write in
         Some (drop (Z.to_nat do_write) buf, len - do_write,
               set_data s b (if w =? UNIX_SOCKET_SIZE then 0 else w))
       end
     else Some (buf, len, s))
  with
  | None => None
  | Some (buf, len, s) =>
    if writer s <? reader s - 1 then
      let avail := reader s - writer s - 1 in
      let do_write := if len <? avail then len else avail in
      match copy_in (buffer s) (writer s) do_write buf with
      | None => None
      | Some b => Some (drop (Z.to_nat do_write) buf, set_data s b (writer s + do_write))
      end
    else Some (buf, s)
  end.

(** ** Streams and their lock *)

(** What [init_stream] stores into the memory it got. *)
Definition init_stream (memory : list Z) : sock_stream := mk_stream memory 0 0 0 0.

Definition find_stream (w : world) (fp : Z) (read_stream : bool) : option Z :=
  match files w !! fp with
  | None => None
  | Some f =>
    match f_type f with
    | DTYPE_PIPE => Some (f_ptr f)
    | DTYPE_USOCKET =>
      match socks w !! f_ptr f with
      | None => None
      | Some us =>
        let rd := if negb (server us =? fp) then negb read_stream else read_stream in
        Some (if rd then to_server us else from_server us)
      end
    end
  end.

Fixpoint lock_stream (sched : schedule) (ss : Z) (w : world) : outcome world (Z * schedule) :=
  match streams w !! ss with
  | None => Fault
  | Some s =>
    if negb (bset (flags s) UNF_LOCKED) then
      Ret (ss, sched) (put_stream w ss (set_flags s (Z.lor (bclr (flags s) UNF_WANT_LOCK) UNF_LOCKED)))
    else
      let w := put_stream w ss (set_flags s (Z.lor (flags s) UNF_WANT_LOCK)) in
      match sched with
      | [] => Asleep w
      | (rc, env) :: sched =>
        let w := env w in
        lock_stream sched ss (if rc <? 0 then emit w ESetrun else w)
      end
  end.

Definition get_stream (sched : schedule) (fp : Z) (read_stream : bool) (w : world)
    : outcome world (Z * schedule) :=
  match find_stream w fp read_stream with
  | None => Fault
  | Some ss => if ss =? 0 then Ret (0, sched) w else lock_stream sched ss w
  end.

Definition release_stream (ss : Z) (w : world) : outcome world unit :=
  if ss =? 0 then Ret tt w
  else match streams w !! ss with
  | None => Fault
  | Some s =>
    let w := if bset (flags s) UNF_WANT_LOCK then emit w (EWakeLock ss) else w in
    Ret tt (put_stream w ss (set_flags s (bclr (flags s) (Z.lor UNF_WANT_LOCK UNF_LOCKED))))
  end.

(** Signal the task that selects on the stream, and wake the sleepers. *)
Definition notify (ss : Z) (s : sock_stream) (w : world) : world :=
  emit (if negb (task s =? 0) then emit w (ESignal (task s)) else w) (EWakeup ss).

(** ix_sleep on the stream with the lock released and signals unblocked, then
    the lock again: the result is the stream found anew. *)
Definition wait_stream (sched : schedule) (fp : Z) (read_stream : bool) (omask ss : Z) (w : world)
    : outcome world (Z * schedule * Z) :=
  let* (_u, w) := release_stream ss w in
  let '(_, w) := sigsetmask w omask in
  match sched with
  | [] => Asleep w
  | (rc, env) :: sched =>
    let w := env w in
    let w := if rc <? 0 then emit w ESetrun else w in
    let '(omask, w) := sigsetmask w (-1) in
    let* (r, w) := get_stream sched fp read_stream w in
    Ret (r, omask) w
  end.

Definition finish {A} (ss omask err : Z) (r : A) (w : world) : outcome world A :=
  let* (_u, w) := release_stream ss w in
  let '(_, w) := sigsetmask w omask in
  Ret r (set_errno w err).

(** ** stream_read

    The result is the value returned and the bytes stored at [buf]. *)
Fixpoint stream_read_loop (fuel : nat) (sched : schedule) (fp omask err ss len : Z)
    (acc : list Z) (w : world) : outcome world (Z * list Z) :=
  match fuel with
  | O => Diverge
  | S fuel =>
    let really_read := Z.of_nat (length acc) in
    if len =? 0 then finish ss omask err (really_read, acc) w
    else if ss =? 0 then finish ss omask 0 (really_read, acc) w
    else
      let? s := streams w !! ss in
      if negb (can_read s) then
        if negb (really_read =? 0) || bset (flags s) UNF_NO_WRITER then
          finish ss omask 0 (really_read, acc) w
        else
          let? f := files w !! fp in
          if bset (f_flags f) FNDELAY then finish ss omask EAGAIN (-1, acc) w
          else
            let* (r, w) := wait_stream sched fp true omask ss w in
            let '(ss, sched, omask) := r in
            stream_read_loop fuel sched fp omask err ss len acc w
      else
        match read_pass s len with
        | None => Fault
        | Some (bs, s) =>
          let w := notify ss s (put_stream w ss s) in
          stream_read_loop fuel sched fp omask err ss (len - Z.of_nat (length bs)) (acc ++ bs) w
        end
  end.

Definition stream_read (sched : schedule) (fp len : Z) (w : world) : outcome world (Z * list Z) :=
  let '(omask, w) := sigsetmask w (-1) in
  let err := w_errno w in
  let* (r, w) := get_stream sched fp true w in
  let '(ss, sched) := r in
  stream_read_loop (S (Z.to_nat len + length sched)) sched fp omask err ss len [] w.

(** ** stream_write: [buf] is what is left to write *)
Fixpoint stream_write_loop (fuel : nat) (sched : schedule) (fp omask err ss : Z)
    (buf : list Z) (really_written : Z) (w : world) : outcome world Z :=
  match fuel with
  | O => Diverge
  | S fuel =>
    if Z.of_nat (length buf) =? 0 then finish ss omask err really_written w
    else if ss =? 0 then finish ss omask EPIPE (-1) (emit w (EPsignal SIGPIPE))
    else
      let? s := streams w !! ss in
      if bset (flags s) UNF_NO_READER then finish ss omask EPIPE (-1) (emit w (EPsignal SIGPIPE))
      else if negb (can_write s) then
        let? f := files w !! fp in
        if bset (f_flags f) FNDELAY then
          if really_written =? 0 then finish ss omask EAGAIN (-1) w
          else finish ss omask err really_written w
        else
          let* (r, w) := wait_stream sched fp false omask ss w in
          let '(ss, sched, omask) := r in
          stream_write_loop fuel sched fp omask err ss buf really_written w
      else
        match write_pass s buf with
        | None => Fault
        | Some (rest, s) =>
          let w := notify ss s (put_stream w ss s) in
          stream_write_loop fuel sched fp omask err ss rest
            (really_written + (Z.of_nat (length buf) - Z.of_nat (length rest))) w
        end
  end.

Definition stream_write (sched : schedule) (fp : Z) (buf : list Z) (w : world) : outcome world Z :=
  let '(omask, w) := sigsetmask w (-1) in
  let err := w_errno w in
  let* (r, w) := get_stream sched fp false w in
  let '(ss, sched) := r in
  stream_write_loop (S (length buf + length sched)) sched fp omask err ss buf 0 w.

(** ** unp_read and unp_write: the connection must have been accepted *)
Definition not_accepted (fp : Z) (w : world) : option bool :=
  match files w !! fp with
  | None => None
  | Some f => match socks w !! f_ptr f with
    | None => None
    | Some us => Some (negb (state us =? UNS_ACCEPTED))
    end
  end.

Definition unp_read (sched : schedule) (fp len : Z) (w : world) : outcome world (Z * list Z) :=
  let? b := not_accepted fp w in
  if b then Ret (-1, []) (set_errno w ENOTCONN) else stream_read sched fp len w.

Definition unp_write (sched : schedule) (fp : Z) (buf : list Z) (w : world) : outcome world Z :=
  let? b := not_accepted fp w in
  if b then Ret (-1) (set_errno w ENOTCONN) else stream_write sched fp buf w.

Definition unp_send (sched : schedule) (fp : Z) (buf : list Z) (fl : Z) (w : world) : outcome world Z :=
  if negb (fl =? 0) then Ret (-1) (set_errno w 45) else unp_write sched fp buf w.

Definition unp_recv (sched : schedule) (fp len fl : Z) (w : world) : outcome world (Z * list Z) :=
  if negb (fl =? 0) then Ret (-1, []) (set_errno w 45) else unp_read sched fp len w.

(** ** Closing *)

Definition stream_is_closed (w : world) (ss : Z) : option bool :=
  if ss =? 0 then Some true
  else match streams w !! ss with
  | None => None
  | Some s => Some (Z.land (flags s) (Z.lor UNF_NO_READER UNF_NO_WRITER)
                    =? Z.lor UNF_NO_READER UNF_NO_WRITER)
  end.

(** Setting one of the two end-of-stream flags; the stream is freed by the
    second, otherwise the other end is told. *)
Definition end_stream (w : world) (ss : Z) (read_stream : bool) : option (Z * world) :=
  match streams w !! ss with
  | None => None
  | Some s =>
    let s := set_flags s (Z.lor (flags s) (if read_stream then UNF_NO_READER else UNF_NO_WRITER)) in
    let w := put_stream w ss s in
    match stream_is_closed w ss with
    | None => None
    | Some true => Some (0, free_stream w ss)
    | Some false => Some (ss, notify ss s w)
    end
  end.

(** Taking the name out of the list of bound names. *)
Fixpoint unlink_name_loop (fuel : nat) (un name next : Z) (w : world) : option world :=
  match fuel with
  | O => None
  | S fuel =>
    if un =? 0 then Some w
    else match names w !! un with
    | None => None
    | Some n =>
      if un_next n =? name then
        Some (set_names w (<[un := mk_uname next (un_task n) (queue_size n) (queue n)]> (names w))
                        (ix_unix_names w))
      else unlink_name_loop fuel (un_next n) name next w
    end
  end.

Definition unlink_name (w : world) (name : Z) : option world :=
  match names w !! name with
  | None => None
  | Some n =>
    match (if name =? ix_unix_names w then Some (set_names w (names w) (un_next n))
           else unlink_name_loop (S (size (names w))) (ix_unix_names w) name (un_next n) w) with
    | None => None
    | Some w => Some (set_names w (delete name (names w)) (ix_unix_names w))
    end
  end.

Definition sock_set_stream (us : unix_socket) (to : bool) (v : Z) : unix_socket :=
  if to then mk_usock (state us) (from_server us) v (unix_name us) (server us)
  else mk_usock (state us) v (to_server us) (unix_name us) (server us).
Definition sock_set_name (us : unix_socket) (v : Z) : unix_socket :=
  mk_usock (state us) (from_server us) (to_server us) v (server us).

Definition close_stream (fp : Z) (read_stream from_close : bool) (w : world) : outcome world unit :=
  let? f := files w !! fp in
  let a := f_ptr f in
  if a =? 0 then Ret tt w
  else
    let? us := socks w !! a in
    let to := if negb (server us =? fp) then negb read_stream else read_stream in
    let ss := if to then to_server us else from_server us in
    let? r := (if ss =? 0 then Some (ss, w) else end_stream w ss read_stream) in
    let '(ss, w) := r in
    let us := sock_set_stream us to ss in
    let w := put_sock w a us in
    let named := read_stream && negb (unix_name us =? 0) && (f_count f =? 0) in
    let? w := (if named then unlink_name w (unix_name us) else Some w) in
    let us := if named then sock_set_name us 0 else us in
    let w := put_sock w a us in
    let? c1 := stream_is_closed w (to_server us) in
    let? c2 := stream_is_closed w (from_server us) in
    if c1 && c2 && (unix_name us =? 0) && (f_count f =? 0) && from_close then
      Ret tt (set_socks (put_file w fp (mk_file (f_type f) (f_flags f) (f_count f) 0 (f_read f)))
                        (delete a (socks w)))
    else Ret tt w.

(** ffree: the structure goes back to the list of free files. *)
Definition ffree (w : world) (fp : Z) : world := set_files w (delete fp (files w)).

Definition unp_close (fp : Z) (w : world) : outcome world Z :=
  let? f := files w !! fp in
  let f := set_fcount f (f_count f - 1) in
  let w := put_file w fp f in
  let* (_u, w) :=
    (if (f_count f =? 0) && negb (f_ptr f =? 0) then
       let* (_u, w) := close_stream fp true false w in close_stream fp false false w
     else Ret tt w) in
  Ret 0 (if f_count f =? 0 then ffree w fp else w).

(** library/pipe.c *)
Definition pclose (fp : Z) (w : world) : outcome world Z :=
  let? f := files w !! fp in
  let f := set_fcount f (f_count f - 1) in
  let w := put_file w fp f in
  if f_count f =? 0 then
    let? r := end_stream w (f_ptr f) (f_read f) in
    let '(_, w) := r in
    Ret 0 (ffree w fp)
  else Ret 0 w.

Definition unp_shutdown (fp how : Z) (w : world) : outcome world Z :=
  if how =? 0 then let* (_u, w) := close_stream fp true false w in Ret 0 w
  else if how =? 1 then let* (_u, w) := close_stream fp false false w in Ret 0 w
  else if how =? 2 then
    let* (_u, w) := close_stream fp true false w in
    let* (_u, w) := close_stream fp false false w in Ret 0 w
  else Ret 0 w.

(** ** unp_ioctl *)

Inductive ioctl_cmd := FIONREAD | FIONBIO (on : bool) | FIOASYNC (on : bool) | FIOOTHER.

Definition fionread (s : sock_stream) : Z :=
  if reader s <? writer s then writer s - reader s
  else if writer s <? reader s then UNIX_SOCKET_SIZE - (reader s - writer s)
  else 0.

(** The result and what FIONREAD stores at its argument. *)
Definition unp_ioctl (sched : schedule) (fp : Z) (cmd : ioctl_cmd) (w : world)
    : outcome world (Z * option Z) :=
  let '(omask, w) := sigsetmask w (-1) in
  let* (r, w) := get_stream sched fp true w in
  let '(ss, _) := r in
  let* (r, w) :=
    match cmd with
    | FIONREAD =>
      if ss =? 0 then Ret (0, Some 0) w
      else match streams w !! ss with
      | None => Fault
      | Some s => Ret (0, Some (fionread s)) w
      end
    | FIONBIO on =>
      let? f := files w !! fp in
      Ret (if bset (f_flags f) FNDELAY then 1 else 0, None)
        (put_file w fp (set_fflags f (if on then Z.lor (f_flags f) FNDELAY else bclr (f_flags f) FNDELAY)))
    | FIOASYNC on =>
      let? f := files w !! fp in
      Ret (if bset (f_flags f) FASYNC then 1 else 0, None)
        (put_file w fp (set_fflags f (if on then Z.lor (f_flags f) FASYNC else bclr (f_flags f) FASYNC)))
    | FIOOTHER => Ret (0, None) w
    end in
  let* (_u, w) := release_stream ss w in
  let '(_, w) := sigsetmask w omask in
  Ret r w.

(** ** unp_select *)

Inductive select_cmd := SELCMD_PREPARE | SELCMD_CHECK | SELCMD_POLL.
Inductive select_mode := SELMODE_IN | SELMODE_OUT | SELMODE_EXC.

Definition is_in (m : select_mode) : bool := match m with SELMODE_IN => true | _ => false end.

Definition ready (m : select_mode) (s : sock_stream) : bool :=
  match m with
  | SELMODE_IN => can_read s || bset (flags s) UNF_NO_WRITER
  | SELMODE_OUT => can_write s || bset (flags s) UNF_NO_READER
  | SELMODE_EXC => false
  end.

(** [me] is the running task, [pipe_sig] its signal for pipes. *)
Definition unp_select (me pipe_sig fp : Z) (cmd : select_cmd) (m : select_mode) (w : world)
    : outcome world Z :=
  let? ss := find_stream w fp (is_in m) in
  let? f := files w !! fp in
  match f_type f, ss =? 0 with
  | DTYPE_USOCKET, true =>
    let? us := socks w !! f_ptr f in
    let name := unix_name us in
    if name =? 0 then Ret 0 w
    else
      let? n := names w !! name in
      let put t w := set_names w (<[name := mk_uname (un_next n) t (queue_size n) (queue n)]> (names w))
                               (ix_unix_names w) in
      match cmd with
      | SELCMD_PREPARE => Ret (Z.shiftl 1 pipe_sig) (put me w)
      | _ => Ret (if is_in m then (if negb (Z.of_nat (length (queue n)) =? 0) then 1 else 0) else 0) (put 0 w)
      end
  | _, _ =>
    let? s := streams w !! ss in
    match cmd with
    | SELCMD_PREPARE =>
      let s := set_task s me in
      let w := put_stream w ss s in
      Ret (Z.shiftl 1 pipe_sig) (if ready m s then emit w (ESignal me) else w)
    | _ =>
      let clear := match cmd with SELCMD_CHECK => task s =? me | _ => false end in
      let w := if clear then put_stream w ss (set_task s 0) else w in
      Ret (if ready m s then 1 else 0) w
    end
  end.
End Unp.
