(* ===== verification/UnpStream.v ===== *)
(** * Streams: the ring buffer and the loops of stream_read and stream_write

    [content] is the queue that a ring represents; one round of the read loop
    takes from its front, one round of the write loop appends to its end, both
    as much as there is to take or room for.  What the other processes do while a
    call sleeps is any change of the world that relates the queue before and
    after in a given way; against that the loops are followed round by round.
    They never fault and never run out of fuel. *)

From S2P Require Import Prelude Unp.
Export Unp.

(** ** Pieces of a list at C offsets *)

Definition sub (b : list Z) (o n : Z) : list Z := take (Z.to_nat n) (drop (Z.to_nat o) b).

Lemma sub_length b o n : 0 <= o -> 0 <= n -> o + n <= Z.of_nat (length b) ->
  length (sub b o n) = Z.to_nat n.
Proof. intros. unfold sub. rewrite length_take, length_drop. lia. Qed.

Lemma sub_split b o n m : 0 <= o -> 0 <= n -> 0 <= m -> sub b o (n + m) = sub b o n ++ sub b (o + n) m.
Proof.
  intros. unfold sub. rewrite !Z2Nat.inj_add by lia. rewrite <- drop_drop. by rewrite take_take_drop.
Qed.

Lemma sub_0 b o : sub b o 0 = [].
Proof. done. Qed.

Definition upd (b : list Z) (w : Z) (bs : list Z) : list Z :=
  take (Z.to_nat w) b ++ bs ++ drop (Z.to_nat (w + Z.of_nat (length bs))) b.

Section Upd.
Context (b : list Z) (w : Z) (bs : list Z).
Context (Hw : 0 <= w) (Hl : w + Z.of_nat (length bs) <= Z.of_nat (length b)).

Lemma upd_length : length (upd b w bs) = length b.
Proof. unfold upd. rewrite !length_app, length_take, length_drop. lia. Qed.

Lemma sub_upd_before o n : 0 <= o -> 0 <= n -> o + n <= w -> sub (upd b w bs) o n = sub b o n.
Proof.
  intros. unfold sub, upd. rewrite drop_app_le by (rewrite length_take; lia).
  rewrite take_app_le by (rewrite length_drop, length_take; lia).
  rewrite skipn_firstn_comm, take_take. f_equal. lia.
Qed.

Lemma sub_upd_at : sub (upd b w bs) w (Z.of_nat (length bs)) = bs.
Proof.
  unfold sub, upd. rewrite drop_app_length' by (rewrite length_take; lia).
  by rewrite take_app_length' by lia.
Qed.

Lemma sub_upd_after o n : w + Z.of_nat (length bs) <= o -> sub (upd b w bs) o n = sub b o n.
Proof.
  intros. unfold sub, upd. rewrite app_assoc.
  rewrite drop_app_ge by (rewrite length_app, length_take; lia).
  rewrite drop_drop, length_app, length_take. do 2 f_equal. lia.
Qed.
End Upd.

(** ** The queue *)

Definition SZ : Z := UNIX_SOCKET_SIZE.

Record ring_ok (s : sock_stream) : Prop := {
  rg_buf : Z.of_nat (length (buffer s)) = SZ;
  rg_reader : 0 <= reader s < SZ;
  rg_writer : 0 <= writer s < SZ
}.

Definition content (s : sock_stream) : list Z :=
  if reader s <=? writer s then sub (buffer s) (reader s) (writer s - reader s)
  else sub (buffer s) (reader s) (SZ - reader s) ++ sub (buffer s) 0 (writer s).

Definition count (s : sock_stream) : Z := Z.of_nat (length (content s)).

Lemma count_eq s : ring_ok s ->
  count s = if reader s <=? writer s then writer s - reader s else SZ - reader s + writer s.
Proof.
  intros [H1 H2 H3]. unfold count, content. destruct (Z.leb_spec (reader s) (writer s)).
  - rewrite sub_length by lia. lia.
  - rewrite length_app, !sub_length by lia. lia.
Qed.

Lemma can_read_spec s : ring_ok s -> can_read s = negb (count s =? 0).
Proof.
  intros H. rewrite count_eq by done. destruct H as [H1 H2 H3]. unfold can_read. f_equal.
  destruct (Z.leb_spec (reader s) (writer s)), (Z.eqb_spec (reader s) (writer s)); symmetry;
    rewrite ?Z.eqb_eq, ?Z.eqb_neq; lia.
Qed.

Lemma can_write_spec s : ring_ok s -> can_write s = (count s <? SZ - 1).
Proof.
  intros H. rewrite count_eq by done. destruct H as [H1 H2 H3]. unfold can_write. fold SZ.
  destruct (Z.leb_spec (reader s) (writer s)), (Z.eqb_spec (reader s) (writer s + 1)),
    (Z.eqb_spec (reader s) 0), (Z.eqb_spec (writer s) (SZ - 1)); cbn [orb andb negb]; symmetry;
    rewrite ?Z.ltb_lt, ?Z.ltb_ge; lia.
Qed.

Lemma fionread_spec s : ring_ok s -> fionread s = count s.
Proof.
  intros H. rewrite count_eq by done. destruct H as [H1 H2 H3]. unfold fionread. fold SZ.
  destruct (Z.leb_spec (reader s) (writer s)), (Z.ltb_spec (reader s) (writer s)),
    (Z.ltb_spec (writer s) (reader s)); lia.
Qed.

Lemma ring_copy_out_spec b o n : 0 <= o -> 0 <= n -> o + n <= Z.of_nat (length b) ->
  copy_out b o n = Some (sub b o n).
Proof.
  intros. unfold copy_out. rewrite !(proj2 (Z.leb_le _ _)) by lia. done.
Qed.

Lemma ring_copy_in_spec b o n src : 0 <= o -> 0 <= n -> o + n <= Z.of_nat (length b) ->
  n <= Z.of_nat (length src) -> copy_in b o n src = Some (upd b o (take (Z.to_nat n) src)).
Proof.
  intros. unfold copy_in. rewrite !(proj2 (Z.leb_le _ _)) by lia. cbn [andb]. unfold upd.
  rewrite length_take. do 4 f_equal. lia.
Qed.

Lemma min_if a b : (if a <? b then a else b) = Z.min a b.
Proof. destruct (Z.ltb_spec a b); lia. Qed.

(** ** Reading *)

Lemma read_linear s len : ring_ok s -> reader s <= writer s -> 0 <= len ->
  let k := Z.min len (writer s - reader s) in
  let s' := set_reader s (reader s + k) in
  copy_out (buffer s) (reader s) k = Some (take (Z.to_nat len) (content s)) /\
  ring_ok s' /\ content s' = drop (Z.to_nat len) (content s).
Proof.
  intros [H1 H2 H3] Hle Hlen k s'. assert (Hkd : k = Z.min len (writer s - reader s)) by done.
  assert (Hc : content s = sub (buffer s) (reader s) k ++ sub (buffer s) (reader s + k) (writer s - reader s - k)).
  { unfold content. rewrite (proj2 (Z.leb_le _ _)) by done.
    rewrite <- sub_split by lia. f_equal. lia. }
  assert (Hk : length (sub (buffer s) (reader s) k) = Z.to_nat k) by (apply sub_length; lia).
  split; [|split].
  - rewrite ring_copy_out_spec by lia. f_equal. rewrite Hc.
    destruct (Z_le_gt_dec len (writer s - reader s)).
    + rewrite take_app_length' by lia. done.
    + replace (writer s - reader s - k) with 0 by lia. rewrite sub_0, app_nil_r, take_ge; [done|lia].
  - split; unfold s'; cbn [set_reader buffer reader writer]; lia.
  - assert (Hr : content s' = sub (buffer s) (reader s + k) (writer s - reader s - k)).
    { unfold content, s'. cbn [set_reader buffer reader writer]. rewrite (proj2 (Z.leb_le _ _)) by lia.
      f_equal. lia. }
    rewrite Hr, Hc. destruct (Z_le_gt_dec len (writer s - reader s)).
    + rewrite drop_app_length' by lia. done.
    + replace (writer s - reader s - k) with 0 by lia. rewrite sub_0, app_nil_r, drop_ge; [done|lia].
Qed.

Lemma read_pass_linear s len : ring_ok s -> reader s <= writer s -> 0 <= len ->
  exists s', read_pass s len = Some (take (Z.to_nat len) (content s), s') /\ ring_ok s' /\
    content s' = drop (Z.to_nat len) (content s) /\ flags s' = flags s /\ task s' = task s.
Proof.
  intros H Hle Hlen. destruct (read_linear s len H Hle Hlen) as (E & H' & Hc).
  unfold read_pass. rewrite (proj2 (Z.ltb_ge _ _)) by lia.
  destruct (Z.eqb_spec len 0) as [->|Hne]; cbn [negb andb].
  { exists s. done. }
  destruct (Z.ltb_spec (reader s) (writer s)).
  - rewrite min_if, E. eexists. split; [done|]. split; [done|]. split; [done|done].
  - exists s. assert (content s = []) as ->.
    { unfold content. rewrite (proj2 (Z.leb_le _ _)) by lia. replace (writer s - reader s) with 0 by lia. done. }
    rewrite take_nil, drop_nil. done.
Qed.

Lemma read_pass_spec s len : ring_ok s -> 0 <= len ->
  exists s', read_pass s len = Some (take (Z.to_nat len) (content s), s') /\ ring_ok s' /\
    content s' = drop (Z.to_nat len) (content s) /\ flags s' = flags s /\ task s' = task s.
Proof.
  intros H Hlen. destruct (Z_le_gt_dec (reader s) (writer s)) as [Hle|Hgt]; [by apply read_pass_linear|].
  assert (H0 := H). destruct H as [H1 H2 H3]. unfold read_pass. rewrite (proj2 (Z.ltb_lt _ _)) by lia.
  fold SZ. rewrite min_if. set (k := Z.min len (SZ - reader s)). assert (Hkd : k = Z.min len (SZ - reader s)) by done.
  rewrite ring_copy_out_spec by lia.
  assert (Hc : content s = sub (buffer s) (reader s) k ++
    (sub (buffer s) (reader s + k) (SZ - reader s - k) ++ sub (buffer s) 0 (writer s))).
  { unfold content. rewrite (proj2 (Z.leb_gt _ _)) by lia. rewrite app_assoc. f_equal.
    rewrite <- sub_split by lia. f_equal. lia. }
  assert (Hk : length (sub (buffer s) (reader s) k) = Z.to_nat k) by (apply sub_length; lia).
  destruct (Z.eqb_spec (reader s + k) SZ) as [E|E].
  - (* the reader wraps around *)
    set (s1 := set_reader s 0). assert (H1' : ring_ok s1) by (split; cbn; lia).
    assert (Hc1 : content s1 = sub (buffer s) 0 (writer s)).
    { unfold content, s1. cbn [set_reader buffer reader writer]. rewrite (proj2 (Z.leb_le _ _)) by lia.
      f_equal. lia. }
    replace (SZ - reader s - k) with 0 in Hc by lia. rewrite sub_0, app_nil_l, <- Hc1 in Hc.
    destruct (read_pass_linear s1 (len - k) H1' ltac:(cbn; lia) ltac:(lia)) as (s' & Hp & Hok & Hcs & Hfl & Htk).
    unfold read_pass in Hp. rewrite (proj2 (Z.ltb_ge _ _)) in Hp by (cbn; lia).
    assert (Hgoal : take (Z.to_nat len) (content s) =
      sub (buffer s) (reader s) k ++ take (Z.to_nat (len - k)) (content s1)).
    { rewrite Hc. replace (Z.to_nat len) with (length (sub (buffer s) (reader s) k) + Z.to_nat (len - k))%nat by lia.
      by rewrite take_app_add. }
    assert (Hdrop : drop (Z.to_nat len) (content s) = drop (Z.to_nat (len - k)) (content s1)).
    { rewrite Hc. replace (Z.to_nat len) with (length (sub (buffer s) (reader s) k) + Z.to_nat (len - k))%nat by lia.
      by rewrite drop_app_add. }
    rewrite Hgoal, Hdrop. fold s1.
    destruct (negb (len - k =? 0) && (reader s1 <? writer s1)).
    + destruct (copy_out _ _ _); [|done]. injection Hp as <- <-. eexists. split; [done|]. auto.
    + injection Hp as E1 E2. subst s'. exists s1. rewrite <- E1, app_nil_r. auto.
  - (* all bytes come from the end of the buffer *)
    assert (Hlk : k = len) by lia. rewrite Hlk, Z.sub_diag. cbn [Z.eqb negb andb].
    exists (set_reader s (reader s + len)). split; [|split; [|split; [|done]]].
    + rewrite Hc, take_app_length' by lia. by rewrite Hlk.
    + split; cbn [set_reader buffer reader writer]; lia.
    + rewrite Hc, drop_app_length' by lia. unfold content. cbn [set_reader buffer reader writer].
      rewrite (proj2 (Z.leb_gt _ _)) by lia. rewrite Hlk. do 2 f_equal. lia.
Qed.

(** ** Writing *)

Lemma write_linear s buf w n : ring_ok s -> 0 <= n <= Z.of_nat (length buf) -> writer s + n <= SZ ->
  (reader s <= writer s /\ w = (if writer s + n =? SZ then 0 else writer s + n) /\
     (writer s + n = SZ -> 0 < reader s)) \/
  (writer s < reader s /\ writer s + n < reader s /\ w = writer s + n) ->
  let s' := set_data s (upd (buffer s) (writer s) (take (Z.to_nat n) buf)) w in
  ring_ok s' /\ content s' = content s ++ take (Z.to_nat n) buf.
Proof.
  intros [H1 H2 H3] Hn Hend Hcase s'. set (bs := take (Z.to_nat n) buf) in *.
  assert (Hbs : Z.of_nat (length bs) = n) by (unfold bs; rewrite length_take; lia).
  assert (Hlb : writer s + Z.of_nat (length bs) <= Z.of_nat (length (buffer s))) by lia.
  assert (Hat : forall o k, o = writer s -> k = n -> sub (upd (buffer s) (writer s) bs) o k = bs).
  { intros o k -> ->. rewrite <- Hbs. apply sub_upd_at; lia. }
  split.
  - split; unfold s'; cbn [set_data buffer reader writer]; [|done|].
    + rewrite upd_length by lia. done.
    + destruct Hcase as [(_ & -> & Hr)|(_ & ? & ->)]; [|lia].
      destruct (Z.eqb_spec (writer s + n) SZ); lia.
  - unfold content, s'. cbn [set_data buffer reader writer].
    destruct Hcase as [(Hle & -> & Hr)|(Hlt & Hgap & ->)].
    + rewrite (proj2 (Z.leb_le (reader s) (writer s))) by done.
      destruct (Z.eqb_spec (writer s + n) SZ) as [E|E].
      * rewrite (proj2 (Z.leb_gt _ _)) by (specialize (Hr E); lia). rewrite sub_0, app_nil_r.
        replace (SZ - reader s) with (writer s - reader s + n) by lia.
        rewrite sub_split by lia. f_equal; [apply sub_upd_before; lia|apply Hat; lia].
      * rewrite (proj2 (Z.leb_le _ _)) by lia.
        replace (writer s + n - reader s) with (writer s - reader s + n) by lia.
        rewrite sub_split by lia. f_equal; [apply sub_upd_before; lia|apply Hat; lia].
    + rewrite !(proj2 (Z.leb_gt _ _)) by lia. rewrite <- app_assoc. f_equal; [apply sub_upd_after; lia|].
      rewrite sub_split by lia. f_equal; [apply sub_upd_before; lia|apply Hat; lia].
Qed.

Lemma write_pass_spec s buf : ring_ok s ->
  let n := Z.min (Z.of_nat (length buf)) (SZ - 1 - count s) in
  exists s', write_pass s buf = Some (drop (Z.to_nat n) buf, s') /\ ring_ok s' /\
    content s' = content s ++ take (Z.to_nat n) buf /\ flags s' = flags s /\ task s' = task s.
Proof.
  intros H n. assert (Hnd : n = Z.min (Z.of_nat (length buf)) (SZ - 1 - count s)) by done.
  clearbody n. rewrite count_eq in Hnd by done. assert (H0 := H). destruct H as [H1 H2 H3].
  unfold write_pass. fold SZ. rewrite !min_if.
  destruct (Z.leb_spec (reader s) (writer s)) as [Hle|Hgt].
  - set (n1 := Z.min (Z.of_nat (length buf)) (SZ - 1 - writer s + (if 0 <? reader s then 1 else 0))).
    assert (Hn1 : 0 <= n1 <= Z.of_nat (length buf) /\ writer s + n1 <= SZ /\
      (writer s + n1 = SZ -> 0 < reader s) /\ n1 <= n /\
      (n1 < n -> writer s + n1 = SZ)).
    { unfold n1. destruct (Z.ltb_spec 0 (reader s)); lia. }
    destruct Hn1 as (Hn1 & Hend & Hr & Hle1 & Hlt1). clearbody n1.
    rewrite ring_copy_in_spec by lia.
    destruct (write_linear s buf (if writer s + n1 =? SZ then 0 else writer s + n1) n1 H0 Hn1 Hend)
      as [Hok1 Hc1]; [by left|].
    set (s1 := set_data s _ _) in *.
    destruct (Z.ltb_spec (writer s1) (reader s1 - 1)) as [Hgap|Hgap].
    + (* the writer wrapped around: the part in front of the reader *)
      assert (Hw1 : writer s1 = 0 /\ writer s + n1 = SZ).
      { unfold s1 in *. cbn [set_data writer reader] in *. destruct (Z.eqb_spec (writer s + n1) SZ); lia. }
      destruct Hw1 as [Hw1 Hfull].
      assert (Hr1 : reader s1 = reader s) by done. assert (Hb1 := rg_buf _ Hok1).
      rewrite min_if. set (n2 := Z.min _ _).
      assert (Hn2 : n2 = n - n1) by (unfold n2; rewrite Hr1, Hw1; lia). rewrite Hn2 in *. clear n2 Hn2.
      rewrite ring_copy_in_spec by (rewrite ?length_drop; lia).
      destruct (write_linear s1 (drop (Z.to_nat n1) buf) (writer s1 + (n - n1)) (n - n1) Hok1) as [Hok2 Hc2];
        [rewrite length_drop; lia|lia|right; lia|].
      eexists. split; [|split; [exact Hok2|split; [|by split]]].
      * rewrite drop_drop. repeat f_equal. lia.
      * rewrite Hc2, Hc1, <- app_assoc. f_equal. rewrite take_take_drop. f_equal. lia.
    + assert (Hnn : n1 = n).
      { destruct (Z_le_gt_dec n n1); [lia|]. exfalso.
        assert (Hw1 : writer s1 = 0)
          by (unfold s1; cbn [set_data writer]; by rewrite (proj2 (Z.eqb_eq _ _)) by lia).
        assert (Hr1 : reader s1 = reader s) by done. lia. }
      subst n1. exists s1. done.
  - destruct (Z.ltb_spec (writer s) (reader s - 1)) as [Hgap|Hgap].
    + rewrite min_if. set (n2 := Z.min _ _). assert (Hn2 : n2 = n) by (unfold n2; lia). rewrite Hn2. clear n2 Hn2.
      rewrite ring_copy_in_spec by lia.
      destruct (write_linear s buf (writer s + n) n H0) as [Hok Hc]; [lia|lia|right; lia|].
      eexists. split; [done|]. split; [exact Hok|]. split; [exact Hc|done].
    + assert (n = 0) as -> by lia. exists s. rewrite app_nil_r. done.
Qed.

(** ** The signal mask across a call *)

Definition clean (m : Z) : Z := bclr (u32 m) sigcantmask.

Lemma clean_clean m : clean (clean m) = clean m.
Proof.
  unfold clean, bclr, u32. rewrite <- !(Z.land_ones _ 32) by lia.
  rewrite <- !Z.land_assoc. f_equal.
Qed.

(** ** Worlds in which the stream can be used *)

Section Stream.
Context (ss fp : Z) (dir : bool) (Hss : ss <> 0).
(** How the others change the queue. *)
Context (R : list Z -> list Z -> Prop)
        (Rtrans : forall c c' c'', R c c' -> R c' c'' -> R c c'').

Record live_at (w : world) (s : sock_stream) : Prop := {
  la_stream : streams w !! ss = Some s;
  la_ring : ring_ok s;
  la_find : find_stream w fp dir = Some ss;
  la_file : is_Some (files w !! fp)
}.

Definition env_ok (env : world -> world) : Prop :=
  forall w s, live_at w s -> sigmask (env w) = sigmask w /\
    exists s', live_at (env w) s' /\ R (content s) (content s').

Lemma find_stream_ext w w' : files w' = files w -> socks w' = socks w ->
  find_stream w' fp dir = find_stream w fp dir.
Proof. intros H1 H2. unfold find_stream. by rewrite H1, H2. Qed.

Lemma live_at_put w s s' : live_at w s -> ring_ok s' -> live_at (put_stream w ss s') s'.
Proof. intros [H1 H2 H3 H4] Hr. split; try done. apply lookup_insert_eq. Qed.

Lemma live_at_same w w' s : live_at w s -> streams w' = streams w -> files w' = files w ->
  socks w' = socks w -> live_at w' s.
Proof.
  intros [H1 H2 H3 H4] Hs Hf Hk. split; rewrite ?Hs, ?Hf; try done. by rewrite (find_stream_ext w).
Qed.

Lemma ring_ok_flags s v : ring_ok s -> ring_ok (set_flags s v).
Proof. intros [H1 H2 H3]. by split. Qed.

(** What holds of the outcome of a call on a schedule [sched], started with the
    queue [c]: a result that satisfies [Q], or a process asleep with [Qs]. *)
Definition good {A} (Q : A -> world -> Prop) (Qs : world -> Prop) (o : outcome world A) : Prop :=
  match o with Ret a w => Q a w | Asleep w => Qs w | _ => False end.

Lemma good_bind {A B} (Q : A -> world -> Prop) (Q' : B -> world -> Prop) Qs (o : outcome world A) k :
  good Q Qs o -> (forall a w, Q a w -> good Q' Qs (k a w)) -> good Q' Qs (obind o k).
Proof. destruct o; simpl; auto; done. Qed.

Lemma good_mono {A} (Q Q' : A -> world -> Prop) (Qs Qs' : world -> Prop) (o : outcome world A) :
  (forall a w, Q a w -> Q' a w) -> (forall w, Qs w -> Qs' w) -> good Q Qs o -> good Q' Qs' o.
Proof. destruct o; simpl; auto; done. Qed.

(** [w'] is reached from the queue [c] by changes of the others only. *)
Definition reached (c : list Z) (w : world) : Prop :=
  exists s, live_at w s /\ R c (content s).

Definition sub_sched (l l' : schedule) : Prop :=
  (length l' <= length l)%nat /\ (Forall (fun e => env_ok e.2) l -> Forall (fun e => env_ok e.2) l').

Lemma lock_spec sched : forall w s c m,
  Forall (fun e => env_ok e.2) sched -> live_at w s -> R c (content s) -> sigmask w = m ->
  good (fun r w' => r.1 = ss /\ sub_sched sched r.2 /\ sigmask w' = m /\ reached c w')
       (reached c) (lock_stream sched ss w).
Proof.
  induction sched as [|[rc env] sched IH]; intros w s c m Hf Hw Hc Hm; cbn [lock_stream];
    rewrite (la_stream _ _ Hw); destruct (negb (bset (flags s) UNF_LOCKED)); cbn [good].
  - split; [done|]. split; [by split|]. split; [done|]. eexists.
    split; [eapply live_at_put; [exact Hw|]; apply ring_ok_flags, Hw|exact Hc].
  - eexists. split; [eapply live_at_put; [exact Hw|]; apply ring_ok_flags, Hw|exact Hc].
  - split; [done|]. split; [by split|]. split; [done|]. eexists.
    split; [eapply live_at_put; [exact Hw|]; apply ring_ok_flags, Hw|exact Hc].
  - inversion Hf as [|? ? He Hf']; subst. set (w1 := put_stream w ss _).
    assert (Hw1 : live_at w1 (set_flags s (Z.lor (flags s) UNF_WANT_LOCK))).
    { eapply live_at_put; [exact Hw|]. apply ring_ok_flags, Hw. }
    destruct (He _ _ Hw1) as (Hsm & s2 & Hw2 & HR). cbn [snd] in Hw2, Hsm.
    assert (Hgo : forall w3, streams w3 = streams (env w1) -> files w3 = files (env w1) ->
      socks w3 = socks (env w1) -> sigmask w3 = sigmask (env w1) ->
      good (fun r w' => r.1 = ss /\ sub_sched ((rc, env) :: sched) r.2 /\ sigmask w' = sigmask w /\ reached c w')
           (reached c) (lock_stream sched ss w3)).
    { intros w3 E1 E2 E3 E4.
      assert (H3 := IH w3 s2 c (sigmask w) Hf' (live_at_same _ _ _ Hw2 E1 E2 E3)
        (Rtrans _ _ _ Hc HR) ltac:(by rewrite E4, Hsm)).
      destruct (lock_stream sched ss w3); try done. cbn [good] in *.
      destruct H3 as (? & [Hl Hs] & ?). split; [done|]. split; [|done]. split; [simpl; lia|].
      intros HF. inversion HF. auto. }
    destruct (rc <? 0); by apply Hgo.
Qed.

Lemma release_spec w s : live_at w s ->
  exists w' s', release_stream ss w = Ret tt w' /\ live_at w' s' /\ content s' = content s /\
    flags s' = bclr (flags s) (Z.lor UNF_WANT_LOCK UNF_LOCKED) /\
    sigmask w' = sigmask w /\ (exists l, log w' = log w ++ l) /\ w_errno w' = w_errno w.
Proof.
  intros Hw. unfold release_stream. rewrite (proj2 (Z.eqb_neq ss 0)) by done.
  rewrite (la_stream _ _ Hw). set (w1 := if bset (flags s) UNF_WANT_LOCK then _ else _).
  assert (Hw1 : live_at w1 s) by (eapply live_at_same; [exact Hw|..]; unfold w1; by case_match).
  eexists _, _. split; [done|]. split; [eapply live_at_put; [exact Hw1|]; apply ring_ok_flags, Hw|].
  split; [done|]. split; [done|]. cbn [sigmask log put_stream set_streams w_errno].
  unfold w1. case_match; cbn [emit sigmask log w_errno]; split; try done; (split; [|done]);
    eexists; [done|by rewrite app_nil_r].
Qed.

(** Sleeping with the lock released. *)
Lemma wait_spec sched w s c omask :
  Forall (fun e => env_ok e.2) sched -> live_at w s -> R c (content s) ->
  good (fun r w' => r.1.1 = ss /\ (length r.1.2 < length sched)%nat /\
          Forall (fun e => env_ok e.2) r.1.2 /\ r.2 = clean omask /\ reached c w')
       (reached c) (wait_stream sched fp dir omask ss w).
Proof.
  intros Hf Hw Hc. unfold wait_stream.
  destruct (release_spec w s Hw) as (w1 & s1 & -> & Hw1 & Ec & _ & _ & _ & _). cbn [obind].
  unfold sigsetmask at 1. set (w2 := set_mask w1 _).
  assert (Hw2 : live_at w2 s1) by (by eapply live_at_same).
  rewrite <- Ec in Hc. destruct sched as [|[rc env] sched]; [by exists s1|].
  inversion Hf as [|? ? He Hf']; subst. destruct (He _ _ Hw2) as (Hsm & s3 & Hw3 & HR).
  cbn [snd] in Hsm, Hw3. set (w4 := if rc <? 0 then _ else _).
  assert (Hw4 : live_at w4 s3) by (eapply live_at_same; [exact Hw3|..]; unfold w4; by case_match).
  assert (Hm4 : sigmask w4 = clean omask).
  { transitivity (sigmask (env w2)); [unfold w4; by case_match|]. by rewrite Hsm. }
  unfold sigsetmask. set (w5 := set_mask w4 _).
  assert (Hw5 : live_at w5 s3) by (by eapply live_at_same).
  unfold get_stream. rewrite (la_find _ _ Hw5), (proj2 (Z.eqb_neq ss 0)) by done.
  eapply good_bind.
  - eapply lock_spec; [exact Hf'|exact Hw5| |done]. by eapply Rtrans.
  - intros [ss' sched'] w' (E & [Hl Hs] & _ & Hr). cbn [fst snd] in *. cbn [good fst snd].
    split; [done|]. split; [simpl; lia|]. split; [auto|]. done.
Qed.

(** The end of a call: lock released, mask restored, [errno] set. *)
Lemma finish_spec {A} w s omask err (r : A) : live_at w s ->
  exists w' s', finish ss omask err r w = Ret r w' /\ live_at w' s' /\ content s' = content s /\
    flags s' = bclr (flags s) (Z.lor UNF_WANT_LOCK UNF_LOCKED) /\
    sigmask w' = clean omask /\ w_errno w' = err /\ exists l, log w' = log w ++ l.
Proof.
  intros Hw. unfold finish. destruct (release_spec w s Hw) as (w1 & s1 & -> & Hw1 & Ec & Ef & Em & El & _).
  cbn [obind]. unfold sigsetmask. eexists _, s1. split; [done|].
  split; [by eapply live_at_same|]. done.
Qed.

Lemma live_at_notify w s s' : live_at w s -> ring_ok s' -> live_at (notify ss s' (put_stream w ss s')) s'.
Proof.
  intros Hw Hr. assert (H := live_at_put _ _ _ Hw Hr). unfold notify.
  case_match; by eapply live_at_same.
Qed.
End Stream.
