(* ===== verification/UnpTheorems.v ===== *)
(** * Streams: theorems

    A stream carries a sequence of bytes: what is written comes out in order,
    exactly once, whatever the processes at both ends do; and what the ends of
    a stream report to each other. *)

From S2P Require Import Prelude Unp UnpStream.

(** While a writer sleeps the others take bytes out of the stream; while a
    reader sleeps they put bytes in. *)
Definition taken (c c' : list Z) : Prop := exists o, c = o ++ c'.
Definition added (c c' : list Z) : Prop := exists i, c' = c ++ i.

Lemma taken_refl c : taken c c.
Proof. by exists []. Qed.
Lemma taken_trans c c' c'' : taken c c' -> taken c' c'' -> taken c c''.
Proof. intros [o ->] [o' ->]. exists (o ++ o'). by rewrite app_assoc. Qed.
Lemma added_refl c : added c c.
Proof. exists []. by rewrite app_nil_r. Qed.
Lemma added_trans c c' c'' : added c c' -> added c' c'' -> added c c''.
Proof. intros [o ->] [o' ->]. exists (o ++ o'). by rewrite app_assoc. Qed.

Lemma bset_bclr_other x m i : 0 <= i -> Z.testbit m i = false -> bset (bclr x m) (2 ^ i) = bset x (2 ^ i).
Proof.
  intros Hi Hm. rewrite !bset_pow2 by done. unfold bclr. rewrite Z.land_spec, Z.lnot_spec, Hm by done.
  apply andb_true_r.
Qed.

Lemma no_writer_kept x : bset (bclr x (Z.lor UNF_WANT_LOCK UNF_LOCKED)) UNF_NO_WRITER = bset x UNF_NO_WRITER.
Proof. by apply (bset_bclr_other _ _ 1). Qed.

Lemma unlocked_after x : bset (bclr x (Z.lor UNF_WANT_LOCK UNF_LOCKED)) UNF_LOCKED = false.
Proof.
  change UNF_LOCKED with (2 ^ 2) at 2. rewrite bset_pow2 by done. unfold bclr.
  rewrite Z.land_spec, Z.lnot_spec by done. apply andb_false_r.
Qed.

Section Loops.
Context (ss fp : Z) (Hss : ss <> 0).

Definition nonblocking (w : world) : Prop :=
  exists f, files w !! fp = Some f /\ bset (f_flags f) FNDELAY = true.

(** ** Writing *)

Notation wlive := (live_at ss fp false).
Notation wenv := (env_ok ss fp false taken).

(** The queue was [c], the bytes [d] were written. *)
Definition wrote (c d : list Z) (w : world) (s : sock_stream) : Prop :=
  wlive w s /\ exists o, c ++ d = o ++ content s.

Definition write_result (c buf : list Z) (m n : Z) (w : world) : Prop :=
  exists s k, (k <= length buf)%nat /\ wrote c (take k buf) w s /\ bset (flags s) UNF_LOCKED = false /\
    sigmask w = clean m /\
    ((n = Z.of_nat k /\ (k = length buf \/ nonblocking w)) \/
     (n = -1 /\ w_errno w = EPIPE /\ EPsignal SIGPIPE ∈ log w /\ bset (flags s) UNF_NO_READER = true) \/
     (n = -1 /\ k = O /\ w_errno w = EAGAIN /\ nonblocking w)).

Definition write_asleep (c buf : list Z) (w : world) : Prop :=
  exists s k, (k <= length buf)%nat /\ wrote c (take k buf) w s.

Lemma no_reader_kept x : bset (bclr x (Z.lor UNF_WANT_LOCK UNF_LOCKED)) UNF_NO_READER = bset x UNF_NO_READER.
Proof. by apply (bset_bclr_other _ _ 0). Qed.

Lemma files_finish {A} omask err (r : A) w w' : finish ss omask err r w = Ret r w' -> files w' = files w.
Proof.
  unfold finish, release_stream. destruct (ss =? 0).
  - cbn [obind]. unfold sigsetmask. by intros [_ <-]%Ret_inj.
  - destruct (streams w !! ss); [|done]. cbn [obind]. unfold sigsetmask.
    intros [_ <-]%Ret_inj. by case_match.
Qed.

(** Leaving the loop with the world as it is. *)
Lemma write_finish c buf k w s omask err n m :
  (k <= length buf)%nat -> wrote c (take k buf) w s -> clean omask = clean m ->
  (n = Z.of_nat k /\ (k = length buf \/ nonblocking w)) \/
  (n = -1 /\ err = EPIPE /\ EPsignal SIGPIPE ∈ log w /\ bset (flags s) UNF_NO_READER = true) \/
  (n = -1 /\ k = O /\ err = EAGAIN /\ nonblocking w) ->
  good (write_result c buf m) (write_asleep c buf) (finish ss omask err n w).
Proof.
  intros Hk [Hw [o Ho]] Hm Hcase.
  destruct (finish_spec ss fp false Hss w s omask err n Hw)
    as (w' & s' & E & Hw' & Ec & Ef & Em & Ee & [l El]).
  assert (Hfiles := files_finish _ _ _ _ _ E).
  rewrite E. exists s', k. split; [done|]. split; [split; [done|exists o; by rewrite Ec]|].
  split; [rewrite Ef; apply unlocked_after|]. split; [by rewrite Em|].
  unfold nonblocking in *. rewrite Hfiles, Ee, El, Ef, no_reader_kept.
  destruct Hcase as [?|[(? & ? & ? & ?)|?]]; [by left| |by right; right].
  right. left. split; [done|]. split; [done|]. split; [|done]. set_solver.
Qed.

Lemma write_loop_spec fuel : forall sched omask err c buf0 k w s m,
  Forall (fun e => wenv e.2) sched -> (k <= length buf0)%nat -> wrote c (take k buf0) w s ->
  clean omask = clean m -> (length (drop k buf0) + length sched < fuel)%nat ->
  good (write_result c buf0 m) (write_asleep c buf0)
    (stream_write_loop fuel sched fp omask err ss (drop k buf0) (Z.of_nat k) w).
Proof.
  induction fuel as [|fuel IH]; intros sched omask err c buf0 k w s m Hf Hk Hwr Hm Hfuel; [lia|].
  cbn [stream_write_loop]. assert (Hw := proj1 Hwr).
  destruct (Z.eqb_spec (Z.of_nat (length (drop k buf0))) 0) as [E0|E0].
  { eapply write_finish; try done. left. split; [done|]. left. rewrite length_drop in E0. lia. }
  rewrite (proj2 (Z.eqb_neq ss 0)) by done. rewrite (la_stream _ _ _ _ _ Hw).
  destruct (bset (flags s) UNF_NO_READER) eqn:Hnr.
  { eapply (write_finish c buf0 k _ s); try done.
    - destruct Hwr as [_ Ho]. split; [|done]. by eapply live_at_same.
    - right. left. split; [done|]. split; [done|]. split; [|done]. cbn [emit log]. set_solver. }
  destruct (can_write s) eqn:Hcw; cbn [negb].
  - (* a round of writing *)
    assert (Hring := la_ring _ _ _ _ _ Hw). rewrite can_write_spec in Hcw by done.
    apply Z.ltb_lt in Hcw. destruct (write_pass_spec s (drop k buf0) Hring)
      as (s' & -> & Hring' & Hc' & _). set (n := Z.min _ _) in *.
    assert (Hn : 1 <= n <= Z.of_nat (length (drop k buf0))) by lia.
    assert (Hwr' : wrote c (take (k + Z.to_nat n) buf0) (notify ss s' (put_stream w ss s')) s').
    { split; [by eapply live_at_notify|]. destruct Hwr as [_ [o Ho]]. exists o.
      rewrite Hc', app_assoc, <- Ho, <- app_assoc. f_equal. by rewrite take_take_drop. }
    rewrite drop_drop, !length_drop in *.
    replace (Z.of_nat k + (Z.of_nat (length buf0 - k) - Z.of_nat (length buf0 - (k + Z.to_nat n))))
      with (Z.of_nat (k + Z.to_nat n)) by lia.
    eapply IH; [done|lia|exact Hwr'|done|]. rewrite length_drop. lia.
  - destruct (la_file _ _ _ _ _ Hw) as [f Hfile]. rewrite Hfile.
    destruct (bset (f_flags f) FNDELAY) eqn:Hnd.
    { destruct (Z.eqb_spec (Z.of_nat k) 0); eapply write_finish; try done.
      - right. right. split; [done|]. split; [lia|]. split; [done|by exists f].
      - left. split; [done|]. right. by exists f. }
    destruct Hwr as [_ [o Ho]]. eapply good_bind.
    + eapply good_mono; [| |apply (wait_spec ss fp false Hss taken taken_trans sched w s (content s) omask);
        [done|done|apply taken_refl]]; [intros r w' H; exact H|].
      intros w' (s' & Hw' & [o' Ho']). exists s', k. split; [done|]. split; [done|].
      exists (o ++ o'). by rewrite <- app_assoc, <- Ho'.
    + intros [[ss' sched'] omask'] w' (E1 & E2 & Hf' & E3 & s' & Hw' & [o' Ho']). cbn [fst snd] in *.
      subst ss'. eapply IH; [done|done| | |lia].
      * split; [exact Hw'|]. exists (o ++ o'). by rewrite <- app_assoc, <- Ho'.
      * by rewrite E3, clean_clean.
Qed.

(** ** Reading *)

Notation rlive := (live_at ss fp true).
Notation renv := (env_ok ss fp true added).

(** The queue was [c], the bytes [d] were read. *)
Definition got (c d : list Z) (w : world) (s : sock_stream) : Prop :=
  rlive w s /\ exists i, c ++ i = d ++ content s.

Definition read_result (c : list Z) (len m : Z) (r : Z * list Z) (w : world) : Prop :=
  exists s, got c r.2 w s /\ bset (flags s) UNF_LOCKED = false /\ sigmask w = clean m /\
    Z.of_nat (length r.2) <= len /\
    ((r.1 = Z.of_nat (length r.2) /\
        (r.2 = [] -> len = 0 \/ (content s = [] /\ bset (flags s) UNF_NO_WRITER = true))) \/
     (r = (-1, []) /\ w_errno w = EAGAIN /\ content s = [] /\ nonblocking w)).

Lemma read_finish c len m r Qs w s omask err :
  got c r.2 w s -> clean omask = clean m -> Z.of_nat (length r.2) <= len ->
  ((r.1 = Z.of_nat (length r.2) /\
      (r.2 = [] -> len = 0 \/ (content s = [] /\ bset (flags s) UNF_NO_WRITER = true))) \/
   (r = (-1, []) /\ err = EAGAIN /\ content s = [] /\ nonblocking w)) ->
  good (read_result c len m) Qs (finish ss omask err r w).
Proof.
  intros [Hw [o Ho]] Hm Hlen Hcase.
  destruct (finish_spec ss fp true Hss w s omask err r Hw)
    as (w' & s' & E & Hw' & Ec & Ef & Em & Ee & [l El]).
  rewrite E. exists s'. split; [split; [done|exists o; by rewrite Ec]|].
  split; [rewrite Ef; apply unlocked_after|]. split; [by rewrite Em|]. split; [done|].
  unfold nonblocking in *. rewrite (files_finish _ _ _ _ _ E), Ee, Ef, Ec, no_writer_kept. done.
Qed.

Lemma read_loop_spec fuel : forall sched omask err c len acc w s m,
  Forall (fun e => renv e.2) sched -> got c acc w s -> Z.of_nat (length acc) <= len ->
  clean omask = clean m -> (Z.to_nat (len - Z.of_nat (length acc)) + length sched < fuel)%nat ->
  good (read_result c len m) (fun w => exists s, got c [] w s)
    (stream_read_loop fuel sched fp omask err ss (len - Z.of_nat (length acc)) acc w).
Proof.
  induction fuel as [|fuel IH]; intros sched omask err c len acc w s m Hf Hgot Hlen Hm Hfuel; [lia|].
  cbn [stream_read_loop]. assert (Hw := proj1 Hgot).
  destruct (Z.eqb_spec (len - Z.of_nat (length acc)) 0) as [E0|E0].
  { eapply read_finish; try done. left. split; [done|]. intros Hnil. left. cbn [snd] in Hnil.
    rewrite Hnil in *. cbn [length] in *. lia. }
  rewrite (proj2 (Z.eqb_neq ss 0)) by done. rewrite (la_stream _ _ _ _ _ Hw).
  assert (Hring := la_ring _ _ _ _ _ Hw).
  destruct (can_read s) eqn:Hcr; cbn [negb]; rewrite can_read_spec in Hcr by done.
  - (* a round of reading *)
    destruct (read_pass_spec s (len - Z.of_nat (length acc)) Hring ltac:(lia)) as (s' & -> & Hring' & Hc' & _).
    set (bs := take _ _) in *.
    assert (Hbs : (1 <= length bs)%nat /\ Z.of_nat (length bs) <= len - Z.of_nat (length acc)).
    { unfold bs. rewrite length_take. apply negb_true_iff, Z.eqb_neq in Hcr. unfold count in Hcr. lia. }
    replace (len - Z.of_nat (length acc) - Z.of_nat (length bs)) with (len - Z.of_nat (length (acc ++ bs)))
      by (rewrite length_app; lia).
    eapply IH; try done.
    + split; [by eapply live_at_notify|]. destruct Hgot as [_ [i Hi]]. exists i.
      rewrite Hi, Hc', <- app_assoc. f_equal. unfold bs. by rewrite take_drop.
    + rewrite length_app. lia.
    + rewrite length_app. lia.
  - apply negb_false_iff, Z.eqb_eq in Hcr. unfold count in Hcr.
    assert (Hnil : content s = []) by (apply length_zero_iff_nil; lia).
    destruct (negb (Z.of_nat (length acc) =? 0) || bset (flags s) UNF_NO_WRITER) eqn:Hend.
    { eapply read_finish; try done. left. split; [done|]. intros Ha. right. split; [done|].
      cbn [snd] in Ha. by rewrite Ha in Hend. }
    apply orb_false_iff in Hend as [Ha%negb_false_iff%Z.eqb_eq _].
    assert (acc = []) as -> by (apply length_zero_iff_nil; lia).
    destruct (la_file _ _ _ _ _ Hw) as [f Hfile]. rewrite Hfile.
    destruct (bset (f_flags f) FNDELAY) eqn:Hnd.
    { eapply read_finish; try done. right. split; [done|]. split; [done|]. split; [done|by exists f]. }
    destruct Hgot as [_ [i Hi]]. eapply good_bind.
    + eapply good_mono; [| |apply (wait_spec ss fp true Hss added added_trans sched w s (content s) omask);
        [done|done|apply added_refl]]; [intros r w' H; exact H|].
      intros w' (s' & Hw' & [i' Hi']). exists s'. split; [done|]. exists (i ++ i').
      by rewrite app_assoc, Hi, Hi', app_assoc.
    + intros [[ss' sched'] omask'] w' (E1 & E2 & Hf' & E3 & s' & Hw' & [i' Hi']). cbn [fst snd] in *.
      subst ss'. eapply IH; [done| |done| |lia].
      * split; [exact Hw'|]. exists (i ++ i'). by rewrite app_assoc, Hi, Hi', app_assoc.
      * by rewrite E3, clean_clean.
Qed.
End Loops.

(** ** Calls that do not have to wait *)

Section NoWait.
Context (ss fp : Z) (Hss : ss <> 0) (dir : bool).

(** Everything but the stream, the log, [errno] and the signal mask. *)
Definition same_rest (w w' : world) : Prop :=
  files w' = files w /\ socks w' = socks w /\ forall a, a <> ss -> streams w' !! a = streams w !! a.

Definition open_bits (x : Z) : Z * Z := (Z.land x UNF_NO_READER, Z.land x UNF_NO_WRITER).

Lemma open_bits_locked x : open_bits (Z.lor (bclr x UNF_WANT_LOCK) UNF_LOCKED) = open_bits x.
Proof.
  unfold open_bits, bclr. rewrite !Z.land_lor_distr_l, <- !Z.land_assoc.
  change (Z.land UNF_LOCKED UNF_NO_READER) with 0. change (Z.land UNF_LOCKED UNF_NO_WRITER) with 0.
  by rewrite !Z.lor_0_r.
Qed.

Lemma open_bits_released x : open_bits (bclr x (Z.lor UNF_WANT_LOCK UNF_LOCKED)) = open_bits x.
Proof. unfold open_bits, bclr. by rewrite <- !Z.land_assoc. Qed.

Lemma open_bits_bset x y : open_bits x = open_bits y ->
  bset x UNF_NO_READER = bset y UNF_NO_READER /\ bset x UNF_NO_WRITER = bset y UNF_NO_WRITER.
Proof. intros [= H1 H2]. unfold bset. by rewrite H1, H2. Qed.

(** An unlocked stream is got at once. *)
Lemma get_unlocked sched w s : live_at ss fp dir w s -> bset (flags s) UNF_LOCKED = false ->
  exists w' s', get_stream sched fp dir w = Ret (ss, sched) w' /\ live_at ss fp dir w' s' /\
    content s' = content s /\ open_bits (flags s') = open_bits (flags s) /\ same_rest w w' /\
    sigmask w' = sigmask w /\ w_errno w' = w_errno w /\ log w' = log w.
Proof.
  intros Hw Hu. unfold get_stream. rewrite (la_find _ _ _ _ _ Hw), (proj2 (Z.eqb_neq ss 0)) by done.
  assert (E : lock_stream sched ss w = Ret (ss, sched)
    (put_stream w ss (set_flags s (Z.lor (bclr (flags s) UNF_WANT_LOCK) UNF_LOCKED)))).
  { destruct sched as [|[rc env] sched]; cbn [lock_stream]; by rewrite (la_stream _ _ _ _ _ Hw), Hu. }
  rewrite E. eexists _, _. split; [done|].
  split; [eapply live_at_put; [exact Hw|]; apply ring_ok_flags, Hw|]. split; [done|].
  split; [apply open_bits_locked|]. split; [|done]. split; [done|]. split; [done|].
  intros a Ha. by apply lookup_insert_ne.
Qed.

Lemma finish_rest {A} w s omask err (r : A) : live_at ss fp dir w s ->
  exists w' s', finish ss omask err r w = Ret r w' /\ live_at ss fp dir w' s' /\
    content s' = content s /\ open_bits (flags s') = open_bits (flags s) /\
    bset (flags s') UNF_LOCKED = false /\ same_rest w w' /\
    sigmask w' = clean omask /\ w_errno w' = err /\ exists l, log w' = log w ++ l.
Proof.
  intros Hw. destruct (finish_spec ss fp dir Hss w s omask err r Hw)
    as (w' & s' & E & Hw' & Ec & Ef & Em & Ee & El).
  exists w', s'. split; [done|]. split; [done|]. split; [done|].
  split; [rewrite Ef; apply open_bits_released|]. split; [rewrite Ef; apply unlocked_after|].
  split; [|done]. unfold finish, release_stream in E. rewrite (proj2 (Z.eqb_neq ss 0)) in E by done.
  rewrite (la_stream _ _ _ _ _ Hw) in E. cbn [obind] in E. unfold sigsetmask in E.
  apply Ret_inj in E as [_ <-]. split; [by case_match|]. split; [by case_match|].
  intros a Ha. transitivity (streams (if bset (flags s) UNF_WANT_LOCK then emit w (EWakeLock ss) else w) !! a);
    [by apply lookup_insert_ne|by case_match].
Qed.

Lemma notify_rest w s s' : live_at ss fp dir w s -> ring_ok s' ->
  live_at ss fp dir (notify ss s' (put_stream w ss s')) s' /\
  same_rest w (notify ss s' (put_stream w ss s')).
Proof.
  intros Hw Hr. split; [by eapply live_at_notify|]. unfold notify.
  case_match; (split; [done|]; split; [done|]; intros a Ha; by apply lookup_insert_ne).
Qed.

Lemma same_rest_trans w w' w'' : same_rest w w' -> same_rest w' w'' -> same_rest w w''.
Proof.
  intros (H1 & H2 & H3) (K1 & K2 & K3). split; [congruence|]. split; [congruence|].
  intros a Ha. rewrite K3 by done. by apply H3.
Qed.

Lemma same_rest_live w w' s fp' dir' : same_rest w w' -> live_at ss fp dir w' s ->
  find_stream w fp' dir' = Some ss -> is_Some (files w !! fp') -> live_at ss fp' dir' w' s.
Proof.
  intros (H1 & H2 & H3) [K1 K2 K3 K4] Hf Hs. split; [done|done| |by rewrite H1].
  by rewrite (find_stream_ext fp' dir' w w').
Qed.
End NoWait.

(** A write that fits. *)
Lemma write_fits ss fp sched w s buf : ss <> 0 -> live_at ss fp false w s ->
  bset (flags s) UNF_LOCKED = false -> bset (flags s) UNF_NO_READER = false ->
  count s + Z.of_nat (length buf) <= SZ - 1 ->
  exists w' s', stream_write sched fp buf w = Ret (Z.of_nat (length buf)) w' /\
    live_at ss fp false w' s' /\ content s' = content s ++ buf /\
    open_bits (flags s') = open_bits (flags s) /\ bset (flags s') UNF_LOCKED = false /\ same_rest ss w w'.
Proof.
  intros Hss Hw Hu Hnr Hfit. unfold stream_write, sigsetmask. set (w0 := set_mask w _).
  assert (Hw0 : live_at ss fp false w0 s) by (by eapply live_at_same).
  destruct (get_unlocked ss fp Hss false sched w0 s Hw0 Hu) as (w1 & s1 & -> & Hw1 & Ec1 & Eb1 & Hs1 & _).
  cbn [obind]. destruct (open_bits_bset _ _ Eb1) as [Hr1 _]. rewrite Hnr in Hr1.
  cbn [stream_write_loop]. destruct (Z.eqb_spec (Z.of_nat (length buf)) 0) as [E|E].
  - destruct (finish_rest ss fp Hss false w1 s1 (sigmask w) (w_errno w0) 0 Hw1)
      as (w2 & s2 & E2 & Hw2 & Ec2 & Eb2 & Hu2 & Hs2 & _).
    rewrite E. exists w2, s2. split; [exact E2|]. split; [done|].
    assert (buf = []) as -> by (apply length_zero_iff_nil; lia).
    split; [by rewrite app_nil_r, Ec2|]. split; [congruence|]. split; [done|].
    by eapply same_rest_trans; [exact Hs1|].
  - rewrite (proj2 (Z.eqb_neq ss 0)), (la_stream _ _ _ _ _ Hw1), Hr1 by done.
    assert (Hring := la_ring _ _ _ _ _ Hw1).
    assert (Hcnt : count s1 = count s) by (unfold count; by rewrite Ec1).
    rewrite can_write_spec, (proj2 (Z.ltb_lt _ _)) by (done || lia). cbn [negb].
    destruct (write_pass_spec s1 buf Hring) as (s2 & -> & Hring2 & Ec2 & Ef2 & _).
    rewrite Hcnt, (Z.min_l (Z.of_nat (length buf))) in * by lia.
    rewrite Nat2Z.id in *. rewrite drop_ge, take_ge in * by lia.
    destruct (notify_rest ss fp false w1 s1 s2 Hw1 Hring2) as [Hw2 Hs2].
    destruct (length buf) as [|k] eqn:Hlen; [lia|]. cbn [Nat.add stream_write_loop].
    change (Z.of_nat (length (@nil Z)) =? 0) with true. cbn iota.
    match goal with |- exists w' s', finish _ ?om ?er ?n _ = _ /\ _ =>
      destruct (finish_rest ss fp Hss false _ s2 om er n Hw2) as (w3 & s3 & E3 & Hw3 & Ec3 & Eb3 & Hu3 & Hs3 & _);
      rewrite E3; exists w3, s3; replace n with (Z.of_nat (S k)) by (cbn [length]; lia) end.
    split; [done|]. split; [done|]. split; [by rewrite Ec3, Ec2, Ec1|].
    split; [rewrite Eb3, Ef2; exact Eb1|]. split; [done|].
    eapply same_rest_trans; [exact Hs1|]. by eapply same_rest_trans.
Qed.

(** A read from a stream that is not empty. *)
Lemma read_fits ss fp sched w s len : ss <> 0 -> live_at ss fp true w s ->
  bset (flags s) UNF_LOCKED = false -> content s <> [] -> 0 < len ->
  exists w' s', stream_read sched fp len w =
      Ret (Z.min len (count s), take (Z.to_nat len) (content s)) w' /\
    live_at ss fp true w' s' /\ content s' = drop (Z.to_nat len) (content s) /\
    open_bits (flags s') = open_bits (flags s) /\ bset (flags s') UNF_LOCKED = false /\ same_rest ss w w'.
Proof.
  intros Hss Hw Hu Hne Hlen. unfold stream_read, sigsetmask. set (w0 := set_mask w _).
  assert (Hw0 : live_at ss fp true w0 s) by (by eapply live_at_same).
  destruct (get_unlocked ss fp Hss true sched w0 s Hw0 Hu) as (w1 & s1 & -> & Hw1 & Ec1 & Eb1 & Hs1 & _).
  cbn [obind stream_read_loop length app]. rewrite (proj2 (Z.eqb_neq len 0)) by lia.
  rewrite (proj2 (Z.eqb_neq ss 0)), (la_stream _ _ _ _ _ Hw1) by done.
  assert (Hring := la_ring _ _ _ _ _ Hw1).
  assert (Hcnt : count s1 = count s) by (unfold count; by rewrite Ec1).
  assert (Hpos : 0 < count s) by (unfold count; destruct (content s); [done|simpl; lia]).
  rewrite can_read_spec, Hcnt, (proj2 (Z.eqb_neq (count s) 0)) by (done || lia). cbn [negb].
  destruct (read_pass_spec s1 len Hring ltac:(lia)) as (s2 & -> & Hring2 & Ec2 & Ef2 & _).
  rewrite Ec1 in Ec2 |- *. set (bs := take _ _) in *.
  assert (Hbs : Z.of_nat (length bs) = Z.min len (count s))
    by (unfold bs, count; rewrite length_take; lia).
  destruct (notify_rest ss fp true w1 s1 s2 Hw1 Hring2) as [Hw2 Hs2].
  set (w2 := notify ss s2 _) in *.
  assert (Hend : forall om er, exists w' s', finish ss om er (Z.of_nat (length bs), bs) w2 =
      Ret (Z.min len (count s), bs) w' /\ live_at ss fp true w' s' /\
      content s' = drop (Z.to_nat len) (content s) /\ open_bits (flags s') = open_bits (flags s) /\
      bset (flags s') UNF_LOCKED = false /\ same_rest ss w w').
  { intros om er. destruct (finish_rest ss fp Hss true w2 s2 om er (Z.of_nat (length bs), bs) Hw2)
      as (w3 & s3 & E3 & Hw3 & Ec3 & Eb3 & Hu3 & Hs3 & _). exists w3, s3. rewrite <- Hbs.
    split; [done|]. split; [done|]. split; [congruence|]. split; [rewrite Eb3, Ef2; exact Eb1|].
    split; [done|]. eapply same_rest_trans; [exact Hs1|]. by eapply same_rest_trans. }
  destruct (Z.to_nat len) as [|k] eqn:Hk; [lia|]. cbn [Nat.add stream_read_loop].
  destruct (len - Z.of_nat (length bs) =? 0) eqn:E0; [by apply Hend|].
  rewrite (proj2 (Z.eqb_neq ss 0)), (la_stream _ _ _ _ _ Hw2) by done.
  apply Z.eqb_neq in E0. rewrite can_read_spec by done.
  assert (count s2 = 0) as ->.
  { unfold count. rewrite Ec2, length_drop. unfold count in Hbs. lia. }
  cbn [Z.eqb negb]. rewrite (proj2 (Z.eqb_neq (Z.of_nat (length bs)) 0)) by lia. cbn [negb orb].
  by apply Hend.
Qed.

(** ** A pipe for the examples: file 100 reads, file 200 writes, stream 1000 *)

Definition pipe_world (s : sock_stream) : world :=
  mk_world {[ 1000 := s ]} ∅
    (<[100 := mk_file DTYPE_PIPE 1 1 1000 true]> {[ 200 := mk_file DTYPE_PIPE 2 1 1000 false ]})
    ∅ 0 0 0 [].

Definition empty_stream : sock_stream := init_stream (replicate (Z.to_nat UNIX_SOCKET_SIZE) 0).
(** 5119 bytes wait to be read: the ring is full. *)
Definition full_stream : sock_stream := set_data empty_stream (buffer empty_stream) 5119.

Lemma empty_ring : ring_ok empty_stream.
Proof. split; [by vm_compute|by vm_compute|by vm_compute]. Qed.

Lemma full_ring : ring_ok full_stream.
Proof. split; [by vm_compute|by vm_compute|by vm_compute]. Qed.

Lemma pipe_live_write s : ring_ok s -> live_at 1000 200 false (pipe_world s) s.
Proof. intros H. split; [done|done|done|by eexists]. Qed.

Lemma pipe_live_read s : ring_ok s -> live_at 1000 100 true (pipe_world s) s.
Proof. intros H. split; [done|done|done|by eexists]. Qed.

(** Another process reads 10 bytes, or writes three. *)
Definition other_reads (w : world) : world :=
  match streams w !! 1000 with
  | Some s => match read_pass s 10 with Some (_, s') => put_stream w 1000 s' | None => w end
  | None => w
  end.
Definition other_writes (w : world) : world :=
  match streams w !! 1000 with
  | Some s => match write_pass s [7; 8; 9] with Some (_, s') => put_stream w 1000 s' | None => w end
  | None => w
  end.

Lemma other_reads_ok : env_ok 1000 200 false taken other_reads.
Proof.
  intros w s Hw. unfold other_reads. rewrite (la_stream _ _ _ _ _ Hw).
  destruct (read_pass_spec s 10 (la_ring _ _ _ _ _ Hw) ltac:(lia)) as (s' & -> & Hr & Hc & _).
  split; [done|]. exists s'. split; [by eapply live_at_put|]. exists (take (Z.to_nat 10) (content s)).
  by rewrite Hc, take_drop.
Qed.

Lemma other_writes_ok : env_ok 1000 100 true added other_writes.
Proof.
  intros w s Hw. unfold other_writes. rewrite (la_stream _ _ _ _ _ Hw).
  destruct (write_pass_spec s [7; 8; 9] (la_ring _ _ _ _ _ Hw)) as (s' & -> & Hr & Hc & _).
  split; [done|]. exists s'. split; [by eapply live_at_put|]. by eexists.
Qed.

(** ** Theorems *)

(** C15. [stream_write], with other processes reading while it sleeps,
    terminates without fault; the bytes it has accepted, a prefix of the buffer,
    are behind the bytes that were in the stream, in order and exactly once: old
    bytes and accepted bytes together are the bytes taken out meanwhile and the
    bytes in the stream.  It accepts the whole buffer unless the descriptor is
    non-blocking, or fails with EPIPE and SIGPIPE when there is no reader, or
    with EAGAIN when nothing could be written; the lock is free and the signal
    mask restored. *)
Theorem stream_write_appends (ss fp : Z) (sched : schedule) (buf : list Z) (w : world) (s : sock_stream) :
  ss <> 0 -> live_at ss fp false w s -> Forall (fun e => env_ok ss fp false taken e.2) sched ->
  good (write_result ss fp (content s) buf (sigmask w)) (write_asleep ss fp (content s) buf)
    (stream_write sched fp buf w).
Proof.
  intros Hss Hw Hf. unfold stream_write, sigsetmask. set (w0 := set_mask w _).
  assert (Hw0 : live_at ss fp false w0 s) by (by eapply live_at_same).
  unfold get_stream. rewrite (la_find _ _ _ _ _ Hw0), (proj2 (Z.eqb_neq ss 0)) by done.
  eapply good_bind.
  - eapply good_mono; [| |apply (lock_spec ss fp false taken taken_trans sched w0 s (content s) _ Hf Hw0
      (taken_refl _) eq_refl)]; [intros r w' H; exact H|].
    intros w' (s' & Hw' & [o Ho]). exists s', O. split; [lia|]. split; [done|]. exists o. by rewrite app_nil_r.
  - intros [ss' sched'] w' (E & [Hl Hs] & _ & s' & Hw' & [o Ho]). cbn [fst snd] in *. subst ss'.
    apply (write_loop_spec ss fp Hss _ _ _ _ _ buf 0 _ s'); [auto|lia| |done|rewrite drop_0; lia].
    split; [done|]. exists o. by rewrite app_nil_r.
Qed.

Lemma stream_write_appends_witness :
  good (write_result 1000 200 (content full_stream) [1; 2; 3] 0) (write_asleep 1000 200 (content full_stream) [1; 2; 3])
    (stream_write [(0, other_reads)] 200 [1; 2; 3] (pipe_world full_stream)).
Proof.
  apply (stream_write_appends 1000 200 _ _ (pipe_world full_stream)); [lia|apply pipe_live_write, full_ring|].
  apply Forall_cons. split; [apply other_reads_ok|constructor].
Defined.

(** [stream_read], with other processes writing while it sleeps, terminates
    without fault; the bytes it returns are the first bytes of the stream, in
    order and exactly once: old bytes and bytes added meanwhile are the bytes
    returned and the bytes left in the stream.  It returns at most [len] bytes;
    none only when none were asked for or at the end of the stream (empty, no
    writer left), or fails with EAGAIN when the descriptor is non-blocking and
    the stream is empty; the lock is free and the signal mask restored. *)
Theorem stream_read_takes (ss fp : Z) (sched : schedule) (len : Z) (w : world) (s : sock_stream) :
  ss <> 0 -> 0 <= len -> live_at ss fp true w s -> Forall (fun e => env_ok ss fp true added e.2) sched ->
  good (read_result ss fp (content s) len (sigmask w)) (fun w' => exists s', got ss fp (content s) [] w' s')
    (stream_read sched fp len w).
Proof.
  intros Hss Hlen Hw Hf. unfold stream_read, sigsetmask. set (w0 := set_mask w _).
  assert (Hw0 : live_at ss fp true w0 s) by (by eapply live_at_same).
  unfold get_stream. rewrite (la_find _ _ _ _ _ Hw0), (proj2 (Z.eqb_neq ss 0)) by done.
  eapply good_bind.
  - eapply good_mono; [| |apply (lock_spec ss fp true added added_trans sched w0 s (content s) _ Hf Hw0
      (added_refl _) eq_refl)]; [intros r w' H; exact H|].
    intros w' (s' & Hw' & [i Hi]). exists s'. split; [done|]. by exists i.
  - intros [ss' sched'] w' (E & [Hl Hs] & _ & s' & Hw' & [i Hi]). cbn [fst snd] in *. subst ss'.
    pose proof (read_loop_spec ss fp Hss (S (Z.to_nat len + length sched')) sched' (sigmask w) (w_errno w0)
      (content s) len [] w' s' (sigmask w)) as H. cbn [length Z.of_nat] in H. rewrite Z.sub_0_r in H.
    apply H; [auto| |lia|done|lia]. split; [done|]. by exists i.
Qed.

Lemma stream_read_takes_witness :
  good (read_result 1000 100 [] 2 0) (fun w' => exists s', got 1000 100 [] [] w' s')
    (stream_read [(0, other_writes)] 100 2 (pipe_world empty_stream)).
Proof.
  apply (stream_read_takes 1000 100 _ 2 (pipe_world empty_stream) empty_stream);
    [lia|lia|apply pipe_live_read, empty_ring|].
  apply Forall_cons. split; [apply other_writes_ok|constructor].
Defined.

Example read_after_sleep :
  match stream_read [(0, other_writes)] 100 2 (pipe_world empty_stream) with
  | Ret r w => r = (2, [7; 8]) /\ log w = [EWakeup 1000]
  | _ => False
  end.
Proof. vm_compute. auto. Qed.

(** Round trip: up to 5119 bytes written to an empty pipe are read back as
    they were, without waiting, and the pipe is empty again. *)
Theorem pipe_roundtrip (ss wf rf : Z) (w : world) (s : sock_stream) (buf : list Z) :
  ss <> 0 -> live_at ss wf false w s -> find_stream w rf true = Some ss -> is_Some (files w !! rf) ->
  bset (flags s) UNF_LOCKED = false -> bset (flags s) UNF_NO_READER = false -> content s = [] ->
  0 < Z.of_nat (length buf) <= UNIX_SOCKET_SIZE - 1 ->
  exists w1 w2 s2, stream_write [] wf buf w = Ret (Z.of_nat (length buf)) w1 /\
    stream_read [] rf (Z.of_nat (length buf)) w1 = Ret (Z.of_nat (length buf), buf) w2 /\
    streams w2 !! ss = Some s2 /\ content s2 = [].
Proof.
  intros Hss Hw Hfr Hff Hu Hnr Hc Hlen.
  destruct (write_fits ss wf [] w s buf Hss Hw Hu Hnr) as (w1 & s1 & E1 & Hw1 & Ec1 & Eb1 & Hu1 & Hs1).
  { unfold count. rewrite Hc. unfold SZ. cbn [length]. lia. }
  assert (Hr1 := same_rest_live _ _ _ _ _ _ rf true Hs1 Hw1 Hfr Hff).
  rewrite Hc in Ec1. cbn [app] in Ec1.
  destruct (read_fits ss rf [] w1 s1 (Z.of_nat (length buf)) Hss Hr1 Hu1) as (w2 & s2 & E2 & Hw2 & Ec2 & _).
  { rewrite Ec1. intros ->. cbn [length] in Hlen. lia. }
  { lia. }
  exists w1, w2, s2. split; [exact E1|]. unfold count in E2. rewrite Ec1, Z.min_id, Nat2Z.id, firstn_all in E2.
  split; [exact E2|]. split; [apply Hw2|]. by rewrite Ec2, Ec1, Nat2Z.id, drop_all.
Qed.

Lemma pipe_roundtrip_witness : exists w1 w2 s2,
  stream_write [] 200 [1; 2; 3] (pipe_world empty_stream) = Ret 3 w1 /\
  stream_read [] 100 3 w1 = Ret (3, [1; 2; 3]) w2 /\ streams w2 !! 1000 = Some s2 /\ content s2 = [].
Proof.
  apply (pipe_roundtrip 1000 200 100 (pipe_world empty_stream) empty_stream [1; 2; 3]);
    try reflexivity; [lia|apply pipe_live_write, empty_ring|eexists; reflexivity|].
  unfold UNIX_SOCKET_SIZE. simpl. lia.
Defined.

(** Broken pipe: a write to a stream without reader fails at once with
    EPIPE and sends SIGPIPE to the writer, and puts nothing into the stream. *)
Theorem write_broken_pipe (ss fp : Z) (sched : schedule) (buf : list Z) (w : world) (s : sock_stream) :
  ss <> 0 -> live_at ss fp false w s -> bset (flags s) UNF_LOCKED = false ->
  bset (flags s) UNF_NO_READER = true -> buf <> [] ->
  exists w' s', stream_write sched fp buf w = Ret (-1) w' /\ w_errno w' = EPIPE /\
    EPsignal SIGPIPE ∈ log w' /\ streams w' !! ss = Some s' /\ content s' = content s.
Proof.
  intros Hss Hw Hu Hnr Hb. unfold stream_write, sigsetmask. set (w0 := set_mask w _).
  assert (Hw0 : live_at ss fp false w0 s) by (by eapply live_at_same).
  destruct (get_unlocked ss fp Hss false sched w0 s Hw0 Hu) as (w1 & s1 & -> & Hw1 & Ec1 & Eb1 & Hs1 & _).
  cbn [obind stream_write_loop]. destruct (open_bits_bset _ _ Eb1) as [Hr1 _]. rewrite Hnr in Hr1.
  destruct (Z.eqb_spec (Z.of_nat (length buf)) 0) as [E|_]; [destruct buf; [done|simpl in E; lia]|].
  rewrite (proj2 (Z.eqb_neq ss 0)), (la_stream _ _ _ _ _ Hw1), Hr1 by done.
  assert (Hw2 : live_at ss fp false (emit w1 (EPsignal SIGPIPE)) s1) by (by eapply live_at_same).
  destruct (finish_spec ss fp false Hss _ s1 (sigmask w) EPIPE (-1) Hw2)
    as (w3 & s3 & E3 & Hw3 & Ec3 & _ & _ & Ee & [l El]).
  exists w3, s3. split; [exact E3|]. split; [done|]. split; [rewrite El; cbn [emit log]; set_solver|].
  split; [apply Hw3|]. by rewrite Ec3.
Qed.

Definition no_reader_stream : sock_stream := set_flags empty_stream UNF_NO_READER.

Lemma write_broken_pipe_witness : exists w' s',
  stream_write [] 200 [1] (pipe_world no_reader_stream) = Ret (-1) w' /\ w_errno w' = EPIPE /\
  EPsignal SIGPIPE ∈ log w' /\ streams w' !! 1000 = Some s' /\ content s' = content no_reader_stream.
Proof.
  apply (write_broken_pipe 1000 200 [] [1] (pipe_world no_reader_stream) no_reader_stream);
    [lia|apply pipe_live_write, ring_ok_flags, empty_ring|reflexivity|reflexivity|discriminate].
Defined.

Lemma both_bits x : (Z.land x 3 =? 3) = Z.testbit x 0 && Z.testbit x 1.
Proof.
  destruct (Z.eqb_spec (Z.land x 3) 3) as [E|E].
  - assert (E0 := f_equal (fun y => Z.testbit y 0) E). assert (E1 := f_equal (fun y => Z.testbit y 1) E).
    cbv beta in E0, E1. rewrite Z.land_spec in E0, E1. change (Z.testbit 3 0) with true in E0.
    change (Z.testbit 3 1) with true in E1. rewrite andb_true_r in E0, E1. by rewrite E0, E1.
  - symmetry. apply not_true_iff_false. intros [H0 H1]%andb_true_iff. apply E.
    apply Z.bits_inj'. intros n Hn. rewrite Z.land_spec.
    destruct (Z.eq_dec n 0) as [->|]; [by rewrite H0|]. destruct (Z.eq_dec n 1) as [->|]; [by rewrite H1|].
    replace (Z.testbit 3 n) with false; [apply andb_false_r|].
    change 3 with (Z.ones 2). symmetry. apply Z.ones_spec_high. lia.
Qed.

(** The flags of the two ends. *)
Definition own_flag (read_stream : bool) : Z := if read_stream then UNF_NO_READER else UNF_NO_WRITER.
Definition other_flag (read_stream : bool) : Z := if read_stream then UNF_NO_WRITER else UNF_NO_READER.

Lemma own_flag_set x d : bset (Z.lor x (own_flag d)) (own_flag d) = true.
Proof.
  destruct d; unfold own_flag;
    [change UNF_NO_READER with (2 ^ 0)|change UNF_NO_WRITER with (2 ^ 1)];
    rewrite bset_pow2, Z.lor_spec by lia; apply orb_true_r.
Qed.

Lemma closed_iff_other x d :
  (Z.land (Z.lor x (own_flag d)) (Z.lor UNF_NO_READER UNF_NO_WRITER) =? Z.lor UNF_NO_READER UNF_NO_WRITER) =
  bset x (other_flag d).
Proof.
  change (Z.lor UNF_NO_READER UNF_NO_WRITER) with 3. rewrite both_bits, !Z.lor_spec.
  destruct d; unfold own_flag, other_flag.
  - change UNF_NO_WRITER with (2 ^ 1). rewrite bset_pow2 by lia.
    change (Z.testbit UNF_NO_READER 0) with true. change (Z.testbit UNF_NO_READER 1) with false.
    by rewrite orb_true_r, orb_false_r.
  - change UNF_NO_READER with (2 ^ 0). rewrite bset_pow2 by lia.
    change (Z.testbit UNF_NO_WRITER 0) with false. change (Z.testbit UNF_NO_WRITER 1) with true.
    by rewrite orb_true_r, orb_false_r, andb_true_r.
Qed.

(** Closing an end of a pipe: while duplicates are open only the count
    goes down; the last one releases the file and, if the other end is still
    open, marks the stream, keeps the bytes in it and wakes the other end; if
    the other end is closed already, the stream is freed.  No freed stream is
    used. *)
Theorem pipe_close (fp : Z) (w : world) (f : file) (s : sock_stream) :
  files w !! fp = Some f -> f_ptr f <> 0 -> streams w !! f_ptr f = Some s ->
  exists w', pclose fp w = Ret 0 w' /\
    if f_count f =? 1 then
      files w' !! fp = None /\
      if bset (flags s) (other_flag (f_read f)) then streams w' = delete (f_ptr f) (streams w)
      else exists s', streams w' = <[f_ptr f := s']> (streams w) /\ content s' = content s /\
             bset (flags s') (own_flag (f_read f)) = true /\ EWakeup (f_ptr f) ∈ log w'
    else files w' = <[fp := set_fcount f (f_count f - 1)]> (files w) /\ streams w' = streams w.
Proof.
  intros Hf Hp Hs. unfold pclose. rewrite Hf. cbn [set_fcount f_count f_ptr f_read].
  destruct (Z.eqb_spec (f_count f) 1) as [E|E].
  - rewrite E. cbn [Z.sub Z.add Z.opp Z.eqb]. change (1 - 1 =? 0) with true. cbn iota.
    unfold end_stream. cbn [put_file set_files streams]. rewrite Hs.
    fold (own_flag (f_read f)). set (s1 := set_flags s _).
    unfold stream_is_closed. rewrite (proj2 (Z.eqb_neq (f_ptr f) 0)) by done.
    cbn [put_stream set_streams streams]. rewrite lookup_insert_eq. cbn [flags set_flags s1].
    rewrite closed_iff_other. destruct (bset (flags s) (other_flag (f_read f))).
    + eexists. split; [done|]. cbn [ffree set_files files streams free_stream set_streams put_stream].
      split; [apply lookup_delete_eq|]. apply delete_insert_eq.
    + eexists. split; [done|]. cbn [ffree set_files files streams].
      split; [unfold notify; cbn [emit files]; apply lookup_delete_eq|].
      exists s1. split; [unfold notify; by case_match|]. split; [done|].
      split; [apply own_flag_set|]. unfold ffree, notify. cbn [set_files log emit]. set_solver.
  - rewrite (proj2 (Z.eqb_neq (f_count f - 1) 0)) by lia. eexists. split; [done|]. done.
Qed.

Lemma pipe_close_witness : exists w', pclose 100 (pipe_world empty_stream) = Ret 0 w' /\
  files w' !! 100 = None /\ exists s', streams w' = <[1000 := s']> (streams (pipe_world empty_stream)) /\
    content s' = content empty_stream /\ bset (flags s') (own_flag true) = true /\ EWakeup 1000 ∈ log w'.
Proof.
  apply (pipe_close 100 (pipe_world empty_stream) (mk_file DTYPE_PIPE 1 1 1000 true) empty_stream);
    [reflexivity|simpl; lia|reflexivity].
Defined.

Lemma end_stream_socks w ss b x w' : end_stream w ss b = Some (x, w') -> socks w' = socks w.
Proof.
  unfold end_stream. destruct (streams w !! ss); [|done].
  destruct (stream_is_closed _ _) as [[]|]; [| |done]; intros [= _ <-]; [done|]. unfold notify. by case_match.
Qed.

Lemma unlink_loop_socks fuel : forall un name next w w',
  unlink_name_loop fuel un name next w = Some w' -> socks w' = socks w.
Proof.
  induction fuel as [|fuel IH]; intros un name next w w'; cbn [unlink_name_loop]; [done|].
  destruct (un =? 0); [by intros [= <-]|]. destruct (names w !! un); [|done].
  destruct (_ =? _); [by intros [= <-]|]. apply IH.
Qed.

Lemma unlink_name_socks w name w' : unlink_name w name = Some w' -> socks w' = socks w.
Proof.
  unfold unlink_name. destruct (names w !! name) as [n|]; [|done]. destruct (name =? ix_unix_names w).
  - by intros [= <-].
  - destruct (unlink_name_loop _ _ _ _ _) as [w1|] eqn:E; [|done]. intros [= <-].
    by apply unlink_loop_socks in E.
Qed.

Lemma dom_put_sock (w : world) a us us' : socks w !! a = Some us -> dom (socks (put_sock w a us')) = dom (socks w).
Proof. intros H. cbn [put_sock set_socks socks]. apply dom_insert_lookup_L. by eexists. Qed.

Lemma close_stream_dom fp rd w w' : close_stream fp rd false w = Ret tt w' -> dom (socks w') = dom (socks w).
Proof.
  unfold close_stream. destruct (files w !! fp) as [f|]; [|done].
  destruct (f_ptr f =? 0); [by intros [_ <-]%Ret_inj|].
  destruct (socks w !! f_ptr f) as [us|] eqn:Hus; [|done].
  set (to := if negb _ then _ else _). set (ss := if to then _ else _).
  destruct (if ss =? 0 then Some (ss, w) else end_stream w ss rd) as [[ss1 w1]|] eqn:E1; [|done].
  assert (S1 : socks w1 = socks w).
  { destruct (ss =? 0); [by injection E1 as _ <-|by eapply end_stream_socks]. }
  set (w2 := put_sock w1 _ _).
  assert (S2 : dom (socks w2) = dom (socks w)).
  { unfold w2. rewrite <- S1. eapply dom_put_sock. by rewrite S1. }
  set (named := rd && _ && _).
  destruct (if named then _ else _) as [w3|] eqn:E3; [|done].
  assert (S3 : socks w3 = socks w2).
  { destruct named; [by eapply unlink_name_socks|by injection E3 as <-]. }
  set (w4 := put_sock w3 _ _).
  assert (S4 : dom (socks w4) = dom (socks w)).
  { rewrite <- S2, <- S3. unfold w4. eapply dom_put_sock. rewrite S3. apply lookup_insert_eq. }
  destruct (stream_is_closed w4 _); [|done]. destruct (stream_is_closed w4 _); [|done].
  rewrite andb_false_r. by intros [_ <-]%Ret_inj.
Qed.

(** The structure of a UNIX domain socket is never freed: [close_stream]
    frees it only when told that it is called from close, but [unp_close] passes
    FALSE, as [unp_shutdown] does; so closing a descriptor, the last one
    included, leaks the structure. *)
Theorem unix_sockets_never_freed (fp r : Z) (w w' : world) :
  unp_close fp w = Ret r w' -> dom (socks w') = dom (socks w).
Proof.
  unfold unp_close. destruct (files w !! fp) as [f|]; [|done]. cbn [set_fcount f_count f_ptr].
  intros ([] & w1 & H1 & H2)%obind_Ret_inv.
  assert (S1 : dom (socks w1) = dom (socks w)).
  { destruct (_ && _).
    - apply obind_Ret_inv in H1 as ([] & w2 & H1 & H3).
      apply close_stream_dom in H1, H3. by rewrite H3, H1.
    - by apply Ret_inj in H1 as [_ <-]. }
  apply Ret_inj in H2 as [_ <-]. destruct (_ =? 0); exact S1.
Qed.

(** A connected socket whose other end is gone, and its last descriptor. *)
Definition sock_world : world :=
  mk_world ∅ {[ 500 := mk_usock UNS_ACCEPTED 0 0 0 100 ]}
    {[ 100 := mk_file DTYPE_USOCKET 3 1 500 true ]} ∅ 0 0 0 [].
Definition sock_closed : world := match unp_close 100 sock_world with Ret _ w => w | _ => sock_world end.

Lemma unix_sockets_never_freed_witness :
  files sock_closed !! 100 = None /\ dom (socks sock_closed) = {[ 500 ]}.
Proof.
  split; [vm_compute; reflexivity|]. transitivity (dom (socks sock_world)).
  - apply (unix_sockets_never_freed 100 0). vm_compute. reflexivity.
  - apply dom_singleton_L.
Defined.

(** FIONREAD stores the number of bytes in the stream, and does not change
    it. *)
Theorem fionread_is_queue_length (ss fp : Z) (sched : schedule) (w : world) (s : sock_stream) :
  ss <> 0 -> live_at ss fp true w s -> bset (flags s) UNF_LOCKED = false ->
  exists w' s', unp_ioctl sched fp FIONREAD w = Ret (0, Some (Z.of_nat (length (content s)))) w' /\
    streams w' !! ss = Some s' /\ content s' = content s.
Proof.
  intros Hss Hw Hu. unfold unp_ioctl, sigsetmask at 1. set (w0 := set_mask w _).
  assert (Hw0 : live_at ss fp true w0 s) by (by eapply live_at_same).
  destruct (get_unlocked ss fp Hss true sched w0 s Hw0 Hu) as (w1 & s1 & -> & Hw1 & Ec1 & _).
  cbn [obind]. rewrite (proj2 (Z.eqb_neq ss 0)), (la_stream _ _ _ _ _ Hw1) by done. cbn [obind].
  destruct (release_spec ss fp true Hss w1 s1 Hw1) as (w2 & s2 & -> & Hw2 & Ec2 & _). cbn [obind].
  unfold sigsetmask. eexists _, s2. rewrite fionread_spec by apply Hw1.
  unfold count. rewrite Ec1. split; [done|]. split; [apply Hw2|congruence].
Qed.

Lemma fionread_is_queue_length_witness : exists w' s',
  unp_ioctl [] 100 FIONREAD (pipe_world full_stream) = Ret (0, Some (Z.of_nat (length (content full_stream)))) w' /\
  streams w' !! 1000 = Some s' /\ content s' = content full_stream.
Proof.
  apply (fionread_is_queue_length 1000 100); [lia|apply pipe_live_read, full_ring|reflexivity].
Defined.
