(* ===== verification/Descrip.v ===== *)
(** * Descriptors: data and operations

    Models library/kern_descrip.c with [close] (library/close.c), [pipe]
    (library/pipe.c) and [_set_socket_params] (library/socket.c): the table of
    open files of a process, the shared file structures with their counts, and
    the lists of used and free structures (the build uses USE_DYNFILETAB).
    Addresses are integers, 0 is NULL.  What kmalloc, the network library, the
    file system handler and the process flag answer are arguments.  A close
    handler is represented by its name; of the five handlers the model keeps the
    part they share, the count and the release of the structure, and logs which
    handler released what (the stream part of two of them is in [Unp]). *)

From S2P Require Import Prelude.

Module Descrip.

(** ** Constants *)

Definition NOFILE : Z := 512.
Definition FD_SETSIZE : Z := 256.
Definition UF_EXCLOSE : Z := 0x1.
Definition FREAD : Z := 0x1.
Definition FWRITE : Z := 0x2.
Definition O_NONBLOCK : Z := 0x4.
Definition O_ASYNC : Z := 0x40.
Definition O_APPEND : Z := 0x100.
Definition O_FSYNC : Z := 0x2000.
Definition FCNTLFLAGS : Z := Z.lor (Z.lor O_APPEND O_ASYNC) (Z.lor O_FSYNC O_NONBLOCK).
Definition FFLAGS (oflags : Z) : Z := oflags + 1.
Definition OFLAGS (fflags : Z) : Z := fflags - 1.
Definition DTYPE_FILE : Z := 1.
Definition DTYPE_PIPE : Z := 2.
Definition DTYPE_SOCKET : Z := 5.
Definition DTYPE_USOCKET : Z := 6.
Definition AF_INET : Z := 2.
Definition S_IFSOCK : Z := 0xc000.
Definition S_IFCHR : Z := 0x2000.
Definition EIO : Z := 5.

(** ** Data *)

Inductive handler := H_close | H_mclose | H_pclose | H_soo_close | H_unp_close.

Record stat := mk_stat { st_mode : Z; st_size : Z; st_blksize : Z }.

Record file := mk_file {
  f_name : Z;
  f_stb_dirty : Z;
  f_type : Z;
  f_flags : Z;
  f_count : Z;
  f_close : option handler;
  f_fh : Z;                         (** first word of the union: handle, stream or socket *)
  f_sock : Z * Z * Z;               (** domain, type and protocol in the union *)
  f_stb : stat
}.

(** The part of struct user the calls use. *)
Record user := mk_user {
  u_ofile : list Z;
  u_pofile : list Z;
  u_lastfile : Z
}.

Inductive event :=
| EReleased (h : handler) (fp : Z)
| EKfree (mem : Z)
| EIoctl (fd : Z) (nonblock : bool) (on : bool).

(** [parent] is [u_parent_userdata] of the running process. *)
Record world := mk_world {
  self : user;
  parent : option user;
  files : gmap Z file;
  used_files : list Z;
  free_files : list Z;
  w_errno : Z;
  log : list event
}.

Definition set_self w v := mk_world v (parent w) (files w) (used_files w) (free_files w) (w_errno w) (log w).
Definition set_files w v := mk_world (self w) (parent w) v (used_files w) (free_files w) (w_errno w) (log w).
Definition set_lists w us fs := mk_world (self w) (parent w) (files w) us fs (w_errno w) (log w).
Definition set_errno w v := mk_world (self w) (parent w) (files w) (used_files w) (free_files w) v (log w).
Definition emit w e := mk_world (self w) (parent w) (files w) (used_files w) (free_files w) (w_errno w) (log w ++ [e]).

(** [u] after [if (u.u_parent_userdata) u_ptr = u.u_parent_userdata]. *)
Definition cur (w : world) : user := match parent w with Some p => p | None => self w end.
Definition set_cur (w : world) (v : user) : world :=
  match parent w with
  | Some _ => mk_world (self w) (Some v) (files w) (used_files w) (free_files w) (w_errno w) (log w)
  | None => set_self w v
  end.

Definition put_ofile (u : user) (i v : Z) : user := mk_user (aput (u_ofile u) i v) (u_pofile u) (u_lastfile u).
Definition put_pofile (u : user) (i v : Z) : user := mk_user (u_ofile u) (aput (u_pofile u) i v) (u_lastfile u).
(** [if (i > u.u_lastfile) u.u_lastfile = i] *)
Definition bump_last (u : user) (i : Z) : user :=
  mk_user (u_ofile u) (u_pofile u) (if u_lastfile u <? i then i else u_lastfile u).

Definition set_count (f : file) (v : Z) : file :=
  mk_file (f_name f) (f_stb_dirty f) (f_type f) (f_flags f) v (f_close f) (f_fh f) (f_sock f) (f_stb f).
Definition set_fflags (f : file) (v : Z) : file :=
  mk_file (f_name f) (f_stb_dirty f) (f_type f) v (f_count f) (f_close f) (f_fh f) (f_sock f) (f_stb f).
Definition put_file (w : world) (fp : Z) (f : file) : world := set_files w (<[fp := f]> (files w)).

(** [errno = e; return -1] *)
Definition fail (w : world) (e : Z) : outcome world Z := Ret (-1) (set_errno w e).

(** [fp->f_count++] *)
Definition incr (w : world) (fp : Z) : option world :=
  match files w !! fp with
  | None => None
  | Some f => Some (put_file w fp (set_count f (f_count f + 1)))
  end.

(** ** getdtablesize, flock *)

Definition getdtablesize : Z := FD_SETSIZE.
Definition flock (fdes how : Z) : Z := 0.

(** ** Allocation of a descriptor *)

Fixpoint ufalloc_loop (n : nat) (want : Z) (u : user) : option (option Z) :=
  match n with
  | O => Some None
  | S n =>
    match aget (u_ofile u) want with
    | None => None
    | Some fp => if fp =? 0 then Some (Some want) else ufalloc_loop n (want + 1) u
    end
  end.

(** The result is the error and the descriptor. *)
Definition ufalloc (want : Z) (w : world) : outcome world (Z * Z) :=
  match ufalloc_loop (Z.to_nat (NOFILE - want)) want (cur w) with
  | None => Fault
  | Some None => Ret (EMFILE, -1) w
  | Some (Some i) => Ret (0, i) (set_cur w (bump_last (put_pofile (cur w) i 0) i))
  end.

(** The file structure: from the free list, or [mem], what kmalloc returns. *)
Definition file_alloc (mem : Z) (w : world) : option (Z * world) :=
  match free_files w with
  | fp :: rest => Some (fp, set_lists w (fp :: used_files w) rest)
  | [] =>
    if mem =? 0 then None
    else Some (mem, set_lists (put_file w mem (mk_file 0 0 0 0 0 None 0 (0, 0, 0) (mk_stat 0 0 0)))
                              (mem :: used_files w) [])
  end.

(** The result is the error, the file and the descriptor. *)
Definition falloc (mem : Z) (w : world) : outcome world (Z * Z * Z) :=
  let* (r, w) := ufalloc 0 w in
  let '(error, i) := r in
  if negb (error =? 0) then Ret (error, 0, -1) w
  else
    match file_alloc mem w with
    | None => Ret (ENOMEM, 0, -1) w
    | Some (fp, w) =>
      let? f := files w !! fp in
      let w := set_cur w (put_ofile (cur w) i fp) in
      Ret (0, fp, i) (put_file w fp (mk_file 0 0 0 (f_flags f) 1 (f_close f) 0 (0, 0, 0) (f_stb f)))
    end.

Definition ffree (fp : Z) (w : world) : world :=
  if fp =? 0 then w
  else set_lists w (filter (fun x => x <> fp) (used_files w)) (fp :: free_files w).

(** The common part of the close handlers: __close tests [f_count > 0] to keep
    the file, the others test [f_count == 0] to release it.  [net_close] is the
    answer of netcall (NET__tcp_close), which only soo_close returns. *)
Definition last_close (h : handler) (count : Z) : bool :=
  match h with H_close => count <=? 0 | _ => count =? 0 end.

Definition close_file (net_close : Z) (h : handler) (fp : Z) (w : world) : outcome world Z :=
  let? f := files w !! fp in
  let f := set_count f (f_count f - 1) in
  let w := put_file w fp f in
  if last_close h (f_count f) then
    Ret (match h with H_soo_close => net_close | _ => 0 end) (ffree fp (emit w (EReleased h fp)))
  else Ret 0 w.

(** ** library/socket.c *)

Definition _set_socket_params (f : file) (domain type protocol : Z) : file :=
  let ty := if domain =? AF_INET then DTYPE_SOCKET else DTYPE_USOCKET in
  mk_file (f_name f) (f_stb_dirty f) ty (Z.lor FREAD FWRITE) (f_count f)
    (Some (if ty =? DTYPE_SOCKET then H_soo_close else H_unp_close)) (f_fh f)
    (if ty =? DTYPE_SOCKET then (domain, type, protocol) else f_sock f)
    (mk_stat (Z.lor 438 S_IFSOCK) 256 256).

(** ** dup, dup2: these use the table of the process itself *)

(** The parameters are unsigned.  [net_dup] is the answer of netcall (NET__dup),
    -1 for an error. *)
Definition dup (mem net_dup i : Z) (w : world) : outcome world Z :=
  let i := u32 i in
  if NOFILE <=? i then fail w EBADF
  else
    let? fp := aget (u_ofile (self w)) i in
    if fp =? 0 then fail w EBADF
    else
      let? f := files w !! fp in
      if f_type f =? DTYPE_SOCKET then
        let* (r, w) := falloc mem w in
        let '(err, fp2, fd2) := r in
        if negb (err =? 0) then fail w err
        else
          let? f2 := files w !! fp2 in
          let f2 := mk_file (f_name f2) (f_stb_dirty f2) (f_type f2) (f_flags f2) (f_count f2) (f_close f2)
                            net_dup (f_sock f2) (f_stb f2) in
          if net_dup =? -1 then
            Ret (-1) (put_file (set_self w (put_ofile (self w) fd2 0)) fp2 (set_count f2 0))
          else
            let '(domain, type, protocol) := f_sock f in
            Ret fd2 (put_file w fp2 (_set_socket_params f2 domain type protocol))
      else
        let* (r, w) := ufalloc 0 w in
        let '(error, fd) := r in
        if negb (error =? 0) then fail w error
        else
          let? p := aget (u_pofile (self w)) i in
          let w := set_self w (put_pofile (put_ofile (self w) fd fp) fd (bclr p UF_EXCLOSE)) in
          let? w := incr w fp in
          Ret fd (set_self w (bump_last (self w) fd)).

Definition dup2 (net_close i j : Z) (w : world) : outcome world Z :=
  let i := u32 i in
  let j := u32 j in
  if NOFILE <=? i then fail w EBADF
  else
    let? fp := aget (u_ofile (self w)) i in
    if fp =? 0 then fail w EBADF
    else if (j <? 0) || (NOFILE <=? j) then fail w EBADF
    else if i =? j then Ret j w
    else
      let old_err := w_errno w in
      let? fj := aget (u_ofile (self w)) j in
      let* (_r, w) :=
        (if fj =? 0 then Ret 0 w
         else
           let? f := files w !! fj in
           match f_close f with Some h => close_file net_close h fj w | None => Ret 0 w end) in
      let? p := aget (u_pofile (self w)) i in
      let w := set_self w (put_pofile (put_ofile (self w) j fp) j (bclr p UF_EXCLOSE)) in
      let? w := incr w fp in
      Ret j (set_errno (set_self w (bump_last (self w) j)) old_err).

(** ** fcntl *)

Inductive fcntl_cmd :=
| F_DUPFD | F_GETFD | F_SETFD | F_GETFL | F_SETFL | F_INTERNALIZE | F_EXTERNALIZE | F_OTHER.

Definition fcntl (fdes : Z) (cmd : fcntl_cmd) (arg : Z) (w : world) : outcome world Z :=
  match cmd with
  | F_INTERNALIZE =>
    let* (r, w) := ufalloc 0 w in
    let '(error, i) := r in
    if negb (error =? 0) then fail w error
    else
      let w := set_cur w (put_pofile (put_ofile (cur w) i arg) i 0) in
      let? w := incr w arg in
      Ret i w
  | _ =>
    if NOFILE <=? fdes then fail w EBADF
    else
      let? fp := aget (u_ofile (cur w)) fdes in
      if fp =? 0 then fail w EBADF
      else
        let? pop := aget (u_pofile (cur w)) fdes in
        match cmd with
        | F_DUPFD =>
          if (arg <? 0) || (NOFILE <=? arg) then fail w EINVAL
          else
            let* (r, w) := ufalloc arg w in
            let '(error, i) := r in
            if negb (error =? 0) then fail w error
            else
              let? p := aget (u_pofile (cur w)) fdes in
              let w := set_cur w (put_pofile (put_ofile (cur w) i fp) i (bclr p UF_EXCLOSE)) in
              let? w := incr w fp in
              Ret i (set_cur w (bump_last (cur w) i))
        | F_GETFD => Ret (Z.land pop 1) w
        | F_SETFD => Ret 0 (set_cur w (put_pofile (cur w) fdes (Z.lor (bclr pop 1) (Z.land arg 1))))
        | F_GETFL => let? f := files w !! fp in Ret (OFLAGS (f_flags f)) w
        | F_SETFL =>
          let? f := files w !! fp in
          let f := set_fflags f (bclr (f_flags f) FCNTLFLAGS) in
          let f := set_fflags f (Z.lor (f_flags f) (Z.land (FFLAGS arg) FCNTLFLAGS)) in
          let w := put_file w fp f in
          Ret 0
            (if f_type f =? DTYPE_SOCKET then
               emit (emit w (EIoctl fdes false (bset (f_flags f) O_ASYNC)))
                    (EIoctl fdes true (bset (f_flags f) O_NONBLOCK))
             else w)
        | F_EXTERNALIZE => Ret fp w
        | _ => fail w EINVAL
        end
  end.

#[export] Instance fcntl_cmd_eq_dec : EqDecision fcntl_cmd.
Proof. solve_decision. Defined.

(** ** fstat

    [__fstat] is the answer of the file system handler about a file, [net_stat]
    that of netcall (NET__fstat) when the network library is there. *)
Definition fstat (__fstat : file -> stat) (net_stat : option (Z * stat)) (fdes : Z) (w : world)
    : outcome world (Z * option stat) :=
  let? fp := aget (u_ofile (cur w)) fdes in
  if (NOFILE <=? fdes) || (fp =? 0) then Ret (-1, None) (set_errno w EBADF)
  else
    let? f := files w !! fp in
    match (if f_type f =? DTYPE_SOCKET then net_stat else None) with
    | Some (r, sb) => Ret (r, Some sb) w
    | None =>
      let f := if bset (f_flags f) FWRITE && (f_type f =? DTYPE_FILE)
               then mk_file (f_name f) (f_stb_dirty f) (f_type f) (f_flags f) (f_count f) (f_close f)
                            (f_fh f) (f_sock f) (__fstat f)
               else f in
      Ret (0, Some (f_stb f)) (put_file w fp f)
    end.

(** ** close

    [execve_close] is the EXECVECLOSE bit of the process. *)
Definition close (net_close : Z) (execve_close : bool) (fd : Z) (w : world) : outcome world Z :=
  if (0 <=? fd) && (fd <? NOFILE) then
    let? fp := aget (u_ofile (cur w)) fd in
    if negb (fp =? 0) then
      let? own := aget (u_ofile (self w)) fd in
      let? p := aget (u_pofile (self w)) fd in
      if execve_close && negb (own =? 0) && (Z.land p UF_EXCLOSE =? 0) then Ret 0 w
      else
        let w := set_cur w (put_ofile (cur w) fd 0) in
        let? f := files w !! fp in
        match f_close f with
        | Some h => close_file net_close h fp w
        | None => fail w EIO
        end
    else fail w EBADF
  else fail w EBADF.

(** ** pipe

    [ss] is the stream ([init_stream], 0 for none), [mem1] and [mem2] what
    kmalloc returns for the two files.  The result carries the two
    descriptors. *)
Definition pipe_file (f : file) (flags ss : Z) : file :=
  mk_file (f_name f) (f_stb_dirty f) DTYPE_PIPE flags (f_count f) (Some H_pclose) ss (f_sock f)
    (mk_stat (Z.lor 438 S_IFCHR) 5120 512).

Definition pipe (ss mem1 mem2 : Z) (w : world) : outcome world (Z * Z * Z) :=
  if ss =? 0 then Ret (-1, -1, -1) (set_errno w EMFILE)
  else
    let* (r1, w) := falloc mem1 w in
    let '(err1, f1, fd1) := r1 in
    if negb (err1 =? 0) then Ret (-1, -1, -1) (set_errno (emit w (EKfree ss)) EMFILE)
    else
      let* (r2, w) := falloc mem2 w in
      let '(err2, f2, fd2) := r2 in
      let? c1 := files w !! f1 in
      if negb (err2 =? 0) then
        Ret (-1, fd1, -1) (set_errno (emit (ffree f1 (put_file w f1 (set_count c1 0))) (EKfree ss)) EMFILE)
      else
        let? c2 := files w !! f2 in
        let w := put_file w f1 (pipe_file c1 FREAD ss) in
        let w := put_file w f2 (pipe_file c2 FWRITE ss) in
        Ret (0, fd1, fd2) (set_errno w 0).
End Descrip.
