(* ===== verification/DescripInv.v ===== *)
(** * Descriptors: the reference counts

    The invariant that ties the count of every file structure to the table
    entries that point to it, kept as a ledger: [ext fp] counts the references
    held elsewhere, by other processes or by a call in progress, so that a call
    is a sequence of steps that move a reference between the table, the ledger
    and the count. *)

From S2P Require Import Prelude Descrip.
Import Descrip.

Module DescripInv.

(** ** The invariant

    The files of [pend] are being set up by the call in progress: their close
    handler may not be set yet. *)
Record inv (pend : list Z) (ext : Z -> Z) (w : world) : Prop := mk_inv {
  inv_parent : parent w = None;
  inv_len : Z.of_nat (length (u_ofile (self w))) = NOFILE;
  inv_plen : Z.of_nat (length (u_pofile (self w))) = NOFILE;
  inv_nodup : NoDup (used_files w ++ free_files w);
  inv_nonnull : 0 ∉ used_files w ++ free_files w;
  inv_struct : forall fp, fp ∈ used_files w ++ free_files w -> is_Some (files w !! fp);
  inv_refs : forall fp, fp <> 0 -> 0 < refs (u_ofile (self w)) fp -> fp ∈ used_files w;
  inv_ext : forall fp, 0 <= ext fp /\ (0 < ext fp -> fp ∈ used_files w);
  inv_count : forall fp f, fp ∈ used_files w -> files w !! fp = Some f ->
    f_count f = refs (u_ofile (self w)) fp + ext fp;
  inv_close : forall fp f, fp ∈ used_files w -> files w !! fp = Some f -> 0 < f_count f ->
    fp ∈ pend \/ is_Some (f_close f);
  inv_last : forall i fp, aget (u_ofile (self w)) i = Some fp -> fp <> 0 -> i <= u_lastfile (self w)
}.

Definition add1 (ext : Z -> Z) (a : Z) : Z -> Z := fun x => ext x + ind a x.

Lemma add1_eq ext a : add1 ext a a = ext a + 1.
Proof. unfold add1, ind. case_decide; [lia|done]. Qed.

(** A table entry points to a structure in use. *)
Lemma inv_open P ext w i fp :
  inv P ext w -> aget (u_ofile (self w)) i = Some fp -> fp <> 0 ->
  fp ∈ used_files w /\ exists f, files w !! fp = Some f /\ 0 < f_count f /\
    (P = [] -> is_Some (f_close f)).
Proof.
  intros Hinv Hi Hnz. pose proof (refs_aget _ _ _ Hi) as Hr.
  assert (fp ∈ used_files w) as Hu by (by apply (inv_refs _ _ _ Hinv)).
  split; [done|]. destruct (inv_struct _ _ _ Hinv fp) as [f Hf]; [set_solver|].
  assert (0 < f_count f) as Hc.
  { rewrite (inv_count _ _ _ Hinv _ _ Hu Hf). pose proof (inv_ext _ _ _ Hinv fp). lia. }
  exists f. repeat split; [done|done|]. intros ->.
  destruct (inv_close _ _ _ Hinv _ _ Hu Hf Hc) as [Hn|]; [|done]. by apply not_elem_of_nil in Hn.
Qed.

Lemma inv_read P ext w i :
  inv P ext w -> 0 <= i < NOFILE -> is_Some (aget (u_ofile (self w)) i) /\ is_Some (aget (u_pofile (self w)) i).
Proof.
  intros Hinv Hi. pose proof (inv_len _ _ _ Hinv). pose proof (inv_plen _ _ _ Hinv).
  split; apply aget_is_Some; lia.
Qed.

(** ** Steps of the ledger *)

(** Only the table of the process, the lists, the structures matter. *)
Lemma inv_same P ext w w' :
  inv P ext w -> parent w' = parent w -> self w' = self w -> files w' = files w ->
  used_files w' = used_files w -> free_files w' = free_files w -> inv P ext w'.
Proof.
  intros [] Hp Hs Hf Hu Hr. constructor; rewrite ?Hp, ?Hs, ?Hf, ?Hu, ?Hr; done.
Qed.

Lemma inv_emit P ext w e : inv P ext w -> inv P ext (emit w e).
Proof. intros H. by eapply inv_same. Qed.

Lemma inv_errno P ext w e : inv P ext w -> inv P ext (set_errno w e).
Proof. intros H. by eapply inv_same. Qed.

Lemma cur_self w : parent w = None -> cur w = self w.
Proof. unfold cur. by intros ->. Qed.

Lemma set_cur_self w u : parent w = None -> set_cur w u = set_self w u.
Proof. unfold set_cur. by intros ->. Qed.

(** The other fields of the table. *)
Lemma inv_user P ext w u :
  inv P ext w -> u_ofile u = u_ofile (self w) -> length (u_pofile u) = length (u_pofile (self w)) ->
  u_lastfile (self w) <= u_lastfile u -> inv P ext (set_self w u).
Proof.
  intros [] Ho Hpl Hl. constructor; cbn; rewrite ?Ho, ?Hpl; try done.
  intros i fp Hi Hnz. specialize (inv_last0 i fp Hi Hnz). lia.
Qed.

Lemma inv_pofile P ext w i v : inv P ext w -> inv P ext (set_self w (put_pofile (self w) i v)).
Proof. intros H. apply inv_user; cbn; auto using aput_length; lia. Qed.

Lemma bump_last_le u i : u_lastfile u <= u_lastfile (bump_last u i) /\ i <= u_lastfile (bump_last u i).
Proof. unfold bump_last. cbn. destruct (Z.ltb_spec (u_lastfile u) i); lia. Qed.

Lemma inv_bump P ext w i : inv P ext w -> inv P ext (set_self w (bump_last (self w) i)).
Proof. intros H. apply inv_user; cbn; auto. apply bump_last_le. Qed.

(** Redirecting an entry from [a] to [b]: the references move through the ledger. *)
Lemma inv_retarget P ext ext' w i a b :
  inv P ext w -> aget (u_ofile (self w)) i = Some a ->
  (b <> 0 -> b ∈ used_files w /\ i <= u_lastfile (self w)) ->
  (forall fp, fp <> 0 -> 0 <= ext' fp /\ ext' fp = ext fp + ind a fp - ind b fp) -> ext' 0 = 0 ->
  inv P ext' (set_self w (put_ofile (self w) i b)).
Proof.
  intros Hinv Hi Hb Hext H0. pose proof (refs_aget _ _ _ Hi) as Hra.
  assert (forall x, x ∈ used_files w -> x <> 0) as Hnz.
  { intros x Hx ->. apply (inv_nonnull _ _ _ Hinv). set_solver. }
  assert (forall fp, fp <> 0 ->
            refs (aput (u_ofile (self w)) i b) fp + ext' fp = refs (u_ofile (self w)) fp + ext fp) as Hsum.
  { intros fp Hfp. rewrite (refs_aput _ _ _ _ _ Hi). destruct (Hext fp Hfp). lia. }
  assert (forall fp, fp <> 0 -> 0 < refs (u_ofile (self w)) fp + ext fp -> fp ∈ used_files w) as Hused.
  { intros fp Hfp Hpos. destruct (Z.eq_dec (ext fp) 0) as [He|He].
    - apply (inv_refs _ _ _ Hinv); [done|]. lia.
    - destruct (inv_ext _ _ _ Hinv fp) as [Hp Hin]. apply Hin. lia. }
  pose proof Hinv as Hinv0. destruct Hinv0.
  constructor; cbn; rewrite ?aput_length; try done.
  - intros fp Hfp Hpos. apply Hused; [done|]. specialize (Hsum fp Hfp). destruct (Hext fp Hfp). lia.
  - intros fp. destruct (Z.eq_dec fp 0) as [->|Hfp]; [rewrite H0; lia|].
    destruct (Hext fp Hfp) as [Hp He]. split; [done|]. intros Hpos. apply Hused; [done|].
    rewrite <- Hsum by done. pose proof (refs_pos (aput (u_ofile (self w)) i b) fp). lia.
  - intros fp f Hu Hf. rewrite Hsum by auto. eauto.
  - intros j fp Hj Hfp. destruct (Z.eq_dec i j) as [<-|Hne].
    + rewrite (aget_aput_eq _ _ _ _ Hi) in Hj. injection Hj as ->. by apply Hb.
    + rewrite aget_aput_ne in Hj by done. eauto.
Qed.

Lemma inv_ext_zero P ext w : inv P ext w -> ext 0 = 0.
Proof.
  intros H. destruct (inv_ext _ _ _ H 0) as [Hp Hu]. destruct (Z.eq_dec (ext 0) 0) as [|He]; [done|].
  destruct (inv_nonnull _ _ _ H). apply elem_of_app. left. apply Hu. lia.
Qed.

(** Clearing an entry: its reference is now held by the call. *)
Lemma inv_take P ext w i a :
  inv P ext w -> aget (u_ofile (self w)) i = Some a -> a <> 0 ->
  inv P (add1 ext a) (set_self w (put_ofile (self w) i 0)).
Proof.
  intros H Hi Ha. eapply inv_retarget; [done|done|done| |].
  - intros fp Hfp. unfold add1. pose proof (ind_bounds a fp).
    destruct (inv_ext _ _ _ H fp). unfold ind at 4. case_decide; [congruence|]. lia.
  - unfold add1, ind. rewrite (inv_ext_zero _ _ _ H). case_decide; [congruence|done].
Qed.

(** Storing a reference held by the call in a free entry. *)
Lemma inv_place P ext w i a :
  inv P (add1 ext a) w -> aget (u_ofile (self w)) i = Some 0 -> i <= u_lastfile (self w) ->
  (forall x, 0 <= ext x) -> a <> 0 ->
  inv P ext (set_self w (put_ofile (self w) i a)).
Proof.
  intros H Hi Hl Hext Ha. eapply inv_retarget; [done|done| | |].
  - intros _. split; [|done]. apply (inv_ext _ _ _ H). rewrite add1_eq. specialize (Hext a). lia.
  - intros fp Hfp. split; [done|]. unfold add1, ind at 2. case_decide; [congruence|]. lia.
  - pose proof (inv_ext_zero _ _ _ H) as H0. unfold add1, ind in H0. case_decide; [congruence|lia].
Qed.

(** [fp->f_count++] *)
Lemma inv_incr P ext w a f :
  inv P ext w -> a ∈ used_files w -> files w !! a = Some f -> 0 < f_count f ->
  exists w', incr w a = Some w' /\ inv P (add1 ext a) w' /\
    w' = put_file w a (set_count f (f_count f + 1)).
Proof.
  intros Hinv Ha Hf Hc. unfold incr. rewrite Hf. eexists. split; [done|]. split; [|done].
  pose proof Hinv as Hinv0. destruct Hinv0. constructor; cbn; try done.
  - intros fp Hfp. destruct (decide (a = fp)) as [->|Hne].
    + by rewrite lookup_insert_eq.
    + rewrite lookup_insert_ne by done. auto.
  - intros fp. pose proof (ind_bounds a fp). destruct (inv_ext0 fp) as [Hp Hu]. unfold add1.
    split; [lia|]. unfold ind. case_decide; [by subst|]. intros ?. apply Hu. lia.
  - intros fp f' Hu. unfold add1, ind. case_decide as Hd.
    + subst fp. rewrite lookup_insert_eq. intros [= <-]. cbn. rewrite (inv_count0 _ _ Ha Hf). lia.
    + rewrite lookup_insert_ne by done. intros Hf'. rewrite (inv_count0 _ _ Hu Hf'). lia.
  - intros fp f' Hu. destruct (decide (a = fp)) as [->|Hd].
    + rewrite lookup_insert_eq. intros [= <-] _. cbn. eauto.
    + rewrite lookup_insert_ne by done. eauto.
Qed.

(** A structure changes but for its count; a close handler ends its set-up. *)
Lemma inv_put P P' ext w a f f' :
  inv P ext w -> files w !! a = Some f -> f_count f' = f_count f ->
  (f_close f' = f_close f \/ is_Some (f_close f')) ->
  (forall x, x ∈ P -> x ∈ P' \/ (x = a /\ is_Some (f_close f'))) ->
  inv P' ext (put_file w a f').
Proof.
  intros Hinv Hf Hc Hcl HP. pose proof Hinv as Hinv0. destruct Hinv0. constructor; cbn; try done.
  - intros fp Hfp. destruct (decide (a = fp)) as [->|Hne].
    + by rewrite lookup_insert_eq.
    + rewrite lookup_insert_ne by done. auto.
  - intros fp g Hu. destruct (decide (a = fp)) as [->|Hd].
    + rewrite lookup_insert_eq. intros [= <-]. rewrite Hc. auto.
    + rewrite lookup_insert_ne by done. auto.
  - intros fp g Hu. destruct (decide (a = fp)) as [->|Hd].
    + rewrite lookup_insert_eq. intros [= <-]. rewrite Hc. intros Hpos.
      destruct Hcl as [Hcl|]; [|by right].
      destruct (inv_close0 _ _ Hu Hf Hpos) as [Hin|]; [|right; by rewrite Hcl].
      destruct (HP _ Hin) as [|[_ Hs]]; [by left|by right].
    + rewrite lookup_insert_ne by done. intros Hg Hpos.
      destruct (inv_close0 _ _ Hu Hg Hpos) as [Hin|]; [|by right].
      destruct (HP _ Hin) as [|[-> _]]; [by left|done].
Qed.

(** ** Allocation *)

Definition lowest_free (l : list Z) (want i : Z) : Prop :=
  want <= i < NOFILE /\ aget l i = Some 0 /\
  forall j, want <= j < i -> exists fp, aget l j = Some fp /\ fp <> 0.

Definition none_free (l : list Z) (want : Z) : Prop :=
  forall j, want <= j < NOFILE -> exists fp, aget l j = Some fp /\ fp <> 0.

Lemma ufalloc_loop_spec u n want :
  Z.of_nat (length (u_ofile u)) = NOFILE -> 0 <= want -> n = Z.to_nat (NOFILE - want) ->
  (exists i, ufalloc_loop n want u = Some (Some i) /\ lowest_free (u_ofile u) want i) \/
  (ufalloc_loop n want u = Some None /\ none_free (u_ofile u) want).
Proof.
  intros Hlen. revert want. induction n as [|n IH]; intros want Hw Hn; cbn [ufalloc_loop].
  - right. split; [done|]. intros j Hj. lia.
  - destruct (aget_is_Some (u_ofile u) want) as [fp Hfp]; [lia|]. rewrite Hfp.
    destruct (Z.eqb_spec fp 0) as [->|Hne].
    + left. exists want. split; [done|]. repeat split; [lia|lia|done|]. lia.
    + assert (forall j, want <= j -> j < want + 1 -> exists fp, aget (u_ofile u) j = Some fp /\ fp <> 0) as H0.
      { intros j ??. replace j with want by lia. eauto. }
      destruct (IH (want + 1)) as [(i & Hi & Hr & Hz & Hl)|[Hi Hl]]; [lia|lia| |].
      * left. exists i. split; [done|]. repeat split; [lia|lia|done|]. intros j Hj.
        destruct (Z_lt_le_dec j (want + 1)); [apply H0; lia|apply Hl; lia].
      * right. split; [done|]. intros j Hj.
        destruct (Z_lt_le_dec j (want + 1)); [apply H0; lia|apply Hl; lia].
Qed.

Lemma ufalloc_spec P ext w want :
  inv P ext w -> 0 <= want ->
  (exists i, lowest_free (u_ofile (self w)) want i /\
     ufalloc want w = Ret (0, i) (set_self w (bump_last (put_pofile (self w) i 0) i))) \/
  (none_free (u_ofile (self w)) want /\ ufalloc want w = Ret (EMFILE, -1) w).
Proof.
  intros H Hw. pose proof (inv_len _ _ _ H) as Hlen. pose proof (inv_parent _ _ _ H) as Hp.
  unfold ufalloc. rewrite cur_self by done.
  destruct (ufalloc_loop_spec (self w) _ want Hlen Hw eq_refl) as [(i & -> & Hl)|[-> Hn]]; [left|by right].
  exists i. split; [done|]. by rewrite set_cur_self.
Qed.

Lemma inv_ufalloc P ext w i :
  inv P ext w -> inv P ext (set_self w (bump_last (put_pofile (self w) i 0) i)).
Proof.
  intros H. apply inv_user; cbn [put_pofile bump_last u_ofile u_pofile]; auto using aput_length.
  apply (bump_last_le (put_pofile (self w) i 0) i).
Qed.

(** A new structure enters the table. *)
Lemma inv_enter P ext w i fp f us fs :
  inv P ext w -> aget (u_ofile (self w)) i = Some 0 -> i <= u_lastfile (self w) ->
  fp <> 0 -> fp ∉ used_files w -> f_count f = 1 ->
  us = fp :: used_files w -> (forall x, x ∈ fs -> x ∈ free_files w) -> NoDup (us ++ fs) ->
  inv (fp :: P) ext
    (mk_world (put_ofile (self w) i fp) (parent w) (<[fp := f]> (files w)) us fs (w_errno w) (log w)).
Proof.
  intros Hinv Hi Hl Hnz Hnu Hc -> Hfs Hnd.
  assert (refs (u_ofile (self w)) fp = 0) as H0.
  { pose proof (refs_pos (u_ofile (self w)) fp). destruct (Z.eq_dec (refs (u_ofile (self w)) fp) 0); [done|].
    destruct Hnu. apply (inv_refs _ _ _ Hinv); [done|lia]. }
  assert (ext fp = 0) as He.
  { destruct (inv_ext _ _ _ Hinv fp) as [Hp Hin]. destruct (Z.eq_dec (ext fp) 0); [done|].
    destruct Hnu. apply Hin. lia. }
  assert (forall x, x <> 0 -> refs (aput (u_ofile (self w)) i fp) x = refs (u_ofile (self w)) x + ind fp x) as Hr.
  { intros x Hx. rewrite (refs_aput _ _ _ _ _ Hi). unfold ind at 1. case_decide; [congruence|lia]. }
  pose proof Hinv as Hinv0. destruct Hinv0. constructor; cbn; rewrite ?aput_length; try done.
  - intros [Hx|[Hx|Hx%Hfs]%elem_of_app]%elem_of_cons; [congruence| |]; apply inv_nonnull0; set_solver.
  - intros x Hx. destruct (decide (fp = x)) as [->|Hne]; [by rewrite lookup_insert_eq|].
    rewrite lookup_insert_ne by done. apply inv_struct0.
    apply elem_of_cons in Hx as [Hx|[Hx|Hx%Hfs]%elem_of_app]; [congruence| |]; set_solver.
  - intros x Hx Hpos. rewrite Hr in Hpos by done. destruct (decide (fp = x)) as [->|Hne]; [set_solver|].
    apply elem_of_cons. right. apply inv_refs0; [done|]. unfold ind in Hpos. case_decide; [done|lia].
  - intros x. destruct (inv_ext0 x) as [Hp Hin]. split; [done|]. intros ?%Hin. set_solver.
  - intros x g Hu. assert (x <> 0) as Hx0.
    { intros ->. apply elem_of_cons in Hu as [?|Hu]; [congruence|]. apply inv_nonnull0. set_solver. }
    rewrite Hr by done. unfold ind. case_decide as Hd.
    + subst x. rewrite lookup_insert_eq. intros [= <-]. lia.
    + rewrite lookup_insert_ne by done. intros Hg.
      rewrite (inv_count0 x g); [lia| |done]. apply elem_of_cons in Hu as [?|Hu]; [congruence|done].
  - intros x g Hu. destruct (decide (fp = x)) as [->|Hd]; [set_solver|].
    rewrite lookup_insert_ne by done. intros Hg Hpos. apply elem_of_cons in Hu as [?|Hu]; [congruence|].
    destruct (inv_close0 _ _ Hu Hg Hpos); [left; set_solver|by right].
  - intros j x Hj Hx. destruct (Z.eq_dec i j) as [<-|Hne]; [done|].
    rewrite aget_aput_ne in Hj by done. eauto.
Qed.
(** What kmalloc returns is 0 or memory not used for another structure. *)
Definition fresh_mem (mem : Z) (w : world) : Prop := mem <> 0 -> mem ∉ used_files w ++ free_files w.

(** A successful falloc: [fp] at [i], the lowest free descriptor. *)
Record falloced (mem : Z) (w : world) (fp i : Z) (w' : world) : Prop := {
  fa_lowest : lowest_free (u_ofile (self w)) 0 i;
  fa_new : fp <> 0 /\ fp ∉ used_files w;
  fa_source : fp ∈ free_files w \/ fp = mem;
  fa_table : u_ofile (self w') = aput (u_ofile (self w)) i fp;
  fa_used : used_files w' = fp :: used_files w;
  fa_free : forall x, x ∈ free_files w' -> x ∈ free_files w;
  fa_file : exists f, files w' !! fp = Some f /\ f_count f = 1 /\ f_type f = 0;
  fa_others : forall x, x <> fp -> files w' !! x = files w !! x;
  fa_misc : w_errno w' = w_errno w /\ log w' = log w
}.

Lemma falloc_spec P ext w mem :
  inv P ext w -> fresh_mem mem w ->
  (exists fp i w', falloc mem w = Ret (0, fp, i) w' /\ falloced mem w fp i w' /\ inv (fp :: P) ext w') \/
  (none_free (u_ofile (self w)) 0 /\ falloc mem w = Ret (EMFILE, 0, -1) w) \/
  (exists w', mem = 0 /\ free_files w = [] /\ falloc mem w = Ret (ENOMEM, 0, -1) w' /\ inv P ext w' /\
     u_ofile (self w') = u_ofile (self w) /\ files w' = files w /\ used_files w' = used_files w /\
     free_files w' = [] /\ w_errno w' = w_errno w /\ log w' = log w).
Proof.
  intros Hinv Hm. pose proof (inv_parent _ _ _ Hinv) as Hp. unfold falloc.
  destruct (ufalloc_spec _ _ _ 0 Hinv) as [(i & Hlow & ->)|[Hn ->]]; [lia| |].
  2: { right. left. done. }
  set (w1 := set_self w _). assert (inv P ext w1) as Hinv1 by apply inv_ufalloc, Hinv.
  assert (i <= u_lastfile (self w1)) as Hl by apply (bump_last_le (put_pofile (self w) i 0) i).
  assert (aget (u_ofile (self w1)) i = Some 0) as Hi by apply Hlow.
  cbn [obind negb Z.eqb]. unfold file_alloc. change (free_files w1) with (free_files w).
  change (used_files w1) with (used_files w).
  pose proof (inv_nodup _ _ _ Hinv) as Hnd. pose proof (inv_nonnull _ _ _ Hinv) as Hnn.
  destruct (free_files w) as [|fp rest] eqn:Hfree.
  - destruct (Z.eqb_spec mem 0) as [->|Hmem].
    { right. right. exists w1. split_and!; done. }
    left. specialize (Hm Hmem). rewrite Hfree in Hm. rewrite app_nil_r in *.
    cbn [files set_lists put_file set_files]. rewrite lookup_insert_eq.
    rewrite set_cur_self by done. eexists mem, i, _. split; [done|].
    unfold put_file, set_files, set_self. cbn. rewrite cur_self by done. cbn. rewrite insert_insert_eq.
    split.
    + constructor; cbn; try done.
      * by right.
      * set_solver.
      * eexists. rewrite lookup_insert_eq. done.
      * intros x Hx. by rewrite lookup_insert_ne.
    + refine (inv_enter P ext w1 i mem _ _ _ _ Hi Hl _ _ _ _ _ _); try done.
      * set_solver.
      * rewrite app_nil_r. by apply NoDup_cons.
  - left. destruct (inv_struct _ _ _ Hinv fp) as [f Hf]; [rewrite Hfree; set_solver|].
    cbn [files set_lists]. change (files w1) with (files w). rewrite Hf.
    rewrite set_cur_self by done. eexists fp, i, _. split; [done|].
    unfold put_file, set_files, set_self. cbn. rewrite cur_self by done. cbn.
    assert (fp <> 0) as Hnz. { intros ->. apply Hnn. set_solver. }
    assert (fp ∉ used_files w) as Hnu.
    { apply NoDup_app in Hnd as (_ & Hd & _). intros Hu. apply (Hd _ Hu). set_solver. }
    split.
    + constructor; cbn; try done.
      * left. rewrite Hfree. set_solver.
      * rewrite Hfree. set_solver.
      * eexists. rewrite lookup_insert_eq. done.
      * intros x Hx. by rewrite lookup_insert_ne.
    + refine (inv_enter P ext w1 i fp _ _ _ _ Hi Hl _ _ _ _ _ _); try done.
      * change (free_files w1) with (free_files w). rewrite Hfree. set_solver.
      * cbn. by rewrite Permutation_middle.
Qed.

(** ** Closing *)

Definition released (h : handler) (a : Z) (f : file) (w w' : world) : Prop :=
  (f_count f = 1 /\ used_files w' = filter (fun x => x <> a) (used_files w) /\
   free_files w' = a :: free_files w /\ log w' = log w ++ [EReleased h a]) \/
  (1 < f_count f /\ used_files w' = used_files w /\ free_files w' = free_files w /\ log w' = log w).

Lemma filter_ne_NoDup (us fs : list Z) a :
  NoDup (us ++ fs) -> a ∈ us -> NoDup (filter (fun x => x <> a) us ++ a :: fs).
Proof.
  intros (Hu & Hd & Hf)%NoDup_app Ha. apply NoDup_app. repeat split.
  - by apply NoDup_filter.
  - intros x [Hx Hxu]%list_elem_of_filter. specialize (Hd _ Hxu). set_solver.
  - apply NoDup_cons. split; [by apply Hd|done].
Qed.

Lemma inv_ffree P ext w a f :
  inv P ext w -> a ∈ used_files w -> files w !! a = Some f -> f_count f = 0 -> inv P ext (ffree a w).
Proof.
  intros Hinv Ha Hf Hc. assert (a <> 0) as Hnz.
  { intros ->. apply (inv_nonnull _ _ _ Hinv). set_solver. }
  assert (refs (u_ofile (self w)) a = 0 /\ ext a = 0) as [Hr He].
  { pose proof (inv_count _ _ _ Hinv _ _ Ha Hf). pose proof (refs_pos (u_ofile (self w)) a).
    destruct (inv_ext _ _ _ Hinv a). lia. }
  unfold ffree. rewrite (proj2 (Z.eqb_neq a 0)) by done.
  assert (forall x, x ∈ filter (fun x => x <> a) (used_files w) <-> x <> a /\ x ∈ used_files w) as Hin.
  { intros x. by rewrite list_elem_of_filter. }
  destruct Hinv. constructor; cbn; try done.
  - by apply filter_ne_NoDup.
  - intros [Hx%Hin|Hx]%elem_of_app; [apply inv_nonnull0; set_solver|].
    apply elem_of_cons in Hx as [?|?]; [congruence|]. apply inv_nonnull0. set_solver.
  - intros x Hx. apply inv_struct0. apply elem_of_app in Hx as [Hx%Hin|Hx]; [set_solver|].
    apply elem_of_cons in Hx as [->|?]; set_solver.
  - intros x Hx Hpos. apply Hin. split; [intros ->; lia|by apply inv_refs0].
  - intros x. destruct (inv_ext0 x) as [Hp Hu]. split; [done|]. intros Hpos. apply Hin.
    split; [intros ->; lia|auto].
  - intros x g [_ Hu]%Hin. auto.
  - intros x g [_ Hu]%Hin. auto.
Qed.

(** [fp->f_count--] for the reference the call holds; a structure whose count
    reaches 0 is not being set up any more. *)
Lemma inv_uncount P P' ext w a f f' :
  inv P (add1 ext a) w -> (forall x, 0 <= ext x) -> a ∈ used_files w -> files w !! a = Some f ->
  f_count f' = f_count f - 1 -> f_close f' = f_close f ->
  (forall x, x ∈ P -> x ∈ P' \/ (x = a /\ f_count f' = 0)) ->
  inv P' ext (put_file w a f').
Proof.
  intros Hinv Hext Ha Hf Hc Hcl HP. destruct Hinv. constructor; cbn; try done.
  - intros x Hx. destruct (decide (a = x)) as [->|Hne]; [by rewrite lookup_insert_eq|].
    rewrite lookup_insert_ne by done. auto.
  - intros x. split; [done|]. intros Hpos. apply inv_ext0. unfold add1. pose proof (ind_bounds a x). lia.
  - intros x g Hu. destruct (decide (a = x)) as [->|Hne].
    + rewrite lookup_insert_eq. intros [= <-]. rewrite Hc, (inv_count0 _ _ Ha Hf), add1_eq. lia.
    + rewrite lookup_insert_ne by done. intros Hg. rewrite (inv_count0 _ _ Hu Hg). unfold add1, ind.
      case_decide; [done|lia].
  - intros x g Hu. destruct (decide (a = x)) as [->|Hne].
    + rewrite lookup_insert_eq. intros [= <-] Hpos. rewrite Hcl.
      destruct (inv_close0 _ _ Ha Hf) as [Hin|]; [lia| |by right].
      destruct (HP _ Hin) as [|[_ ?]]; [by left|lia].
    + rewrite lookup_insert_ne by done. intros Hg Hpos.
      destruct (inv_close0 _ _ Hu Hg Hpos) as [Hin|]; [|by right].
      destruct (HP _ Hin) as [|[-> _]]; [by left|done].
Qed.

(** The close handler gives up the reference the call holds. *)
Lemma close_file_spec P ext w nc h a :
  inv P (add1 ext a) w -> (forall x, 0 <= ext x) -> a ∈ used_files w ->
  exists f r w', files w !! a = Some f /\ close_file nc h a w = Ret r w' /\ inv P ext w' /\
    self w' = self w /\ w_errno w' = w_errno w /\
    files w' = <[a := set_count f (f_count f - 1)]> (files w) /\ released h a f w w'.
Proof.
  intros Hinv Hext Ha. destruct (inv_struct _ _ _ Hinv a) as [f Hf]; [set_solver|].
  assert (1 <= f_count f) as Hc.
  { rewrite (inv_count _ _ _ Hinv _ _ Ha Hf), add1_eq. pose proof (refs_pos (u_ofile (self w)) a).
    specialize (Hext a). lia. }
  assert (inv P ext (put_file w a (set_count f (f_count f - 1)))) as Hinv1.
  { by apply (inv_uncount P P ext w a f); auto. }
  unfold close_file. rewrite Hf. cbn [set_count f_count]. exists f.
  destruct (last_close h (f_count f - 1)) eqn:Hl.
  - assert (f_count f = 1) as H1 by (destruct h; cbn in Hl; lia).
    eexists _, _. split_and!; [done|done| | | | |].
    + apply (inv_ffree _ _ _ _ (set_count f (f_count f - 1))); [by apply inv_emit|done| |cbn; lia].
      cbn. by rewrite lookup_insert_eq.
    + unfold ffree. by case_match.
    + unfold ffree. by case_match.
    + unfold ffree. by case_match.
    + left. unfold ffree. rewrite (proj2 (Z.eqb_neq a 0)); [done|].
      intros ->. apply (inv_nonnull _ _ _ Hinv). set_solver.
  - eexists _, _. split_and!; try done. right. split_and!; try done. destruct h; cbn in Hl; lia.
Qed.
End DescripInv.
