(* ===== verification/DescripOps.v ===== *)
(** * Descriptors: what the calls do

    One lemma per call: its result and the state it leaves on every branch,
    with the reference counts kept exact. *)

From S2P Require Import Prelude Descrip DescripInv.
Import Descrip DescripInv.

Module DescripOps.

(** The entry of a descriptor, and whether a call may use it. *)
Definition open_fd (w : world) (fd fp : Z) : Prop :=
  0 <= fd < NOFILE /\ aget (u_ofile (self w)) fd = Some fp /\ fp <> 0.

Definition closed_fd (w : world) (fd : Z) : Prop :=
  fd < 0 \/ NOFILE <= fd \/ aget (u_ofile (self w)) fd = Some 0.

Lemma open_or_closed P ext w fd : inv P ext w -> closed_fd w fd \/ exists fp, open_fd w fd fp.
Proof.
  intros H. destruct (decide (0 <= fd < NOFILE)) as [Hr|Hr]; [|left; unfold closed_fd; lia].
  destruct (inv_read _ _ _ fd H Hr) as [[fp Hfp] _].
  destruct (Z.eq_dec fp 0) as [->|Hne]; [left; right; by right|right; by exists fp].
Qed.

Lemma open_fd_used P ext w fd fp :
  inv P ext w -> open_fd w fd fp ->
  fp ∈ used_files w /\ exists f, files w !! fp = Some f /\ 0 < f_count f /\ (P = [] -> is_Some (f_close f)).
Proof. intros H (_ & Hi & Hnz). by eapply inv_open. Qed.

Lemma u32_nofile i : 0 <= i < NOFILE -> u32 i = i.
Proof. unfold NOFILE. wrap_lia. Qed.

(** ** dup, F_DUPFD: sharing a structure *)

(** The table gets [fp] at [i], a free entry, and the count goes up. *)
Lemma inv_share P ext w i fp f p :
  inv P ext w -> fp ∈ used_files w -> fp <> 0 -> files w !! fp = Some f -> 0 < f_count f ->
  aget (u_ofile (self w)) i = Some 0 -> i <= u_lastfile (self w) ->
  inv P ext (put_file (set_self w (put_pofile (put_ofile (self w) i fp) i p)) fp (set_count f (f_count f + 1))).
Proof.
  intros H Hu Hnz Hf Hc Hi Hl. destruct (inv_incr _ _ _ _ _ H Hu Hf Hc) as (w1 & _ & H1 & ->).
  assert (forall x, 0 <= ext x) as Hext by (intros x; apply (inv_ext _ _ _ H)).
  pose proof (inv_place _ _ _ i _ H1 Hi Hl Hext Hnz) as H2.
  apply (inv_pofile _ _ _ i p) in H2. exact H2.
Qed.

Lemma incr_self w u a f :
  files w !! a = Some f -> incr (set_self w u) a = Some (put_file (set_self w u) a (set_count f (f_count f + 1))).
Proof. intros Hf. unfold incr. cbn [files set_self]. by rewrite Hf. Qed.

Lemma dup_inv ext w mem net_dup i :
  inv [] ext w -> fresh_mem mem w -> exists r w', dup mem net_dup i w = Ret r w' /\ inv [] ext w'.
Proof.
  intros H Hm. unfold dup, fail. set (k := u32 i). assert (is_u32 k) as Hk by apply u32_range.
  destruct (Z.leb_spec NOFILE k); [eauto using inv_errno|].
  destruct (inv_read _ _ _ k H) as [[fp Hfp] [p Hp]]; [unfold is_u32 in Hk; lia|]. rewrite Hfp.
  destruct (Z.eqb_spec fp 0); [eauto using inv_errno|].
  destruct (inv_open _ _ _ _ _ H Hfp) as (Hu & f & Hf & Hc & _); [done|]. rewrite Hf.
  destruct (Z.eqb_spec (f_type f) DTYPE_SOCKET).
  - destruct (falloc_spec _ _ _ _ H Hm) as [(fp2 & fd2 & w1 & -> & Hfa & H1)|[[_ ->]|(w1 & _ & _ & -> & H1 & _)]];
      cbn [obind negb Z.eqb]; [|eauto using inv_errno|cbn; eauto using inv_errno].
    destruct (fa_file _ _ _ _ _ Hfa) as (f2 & Hf2 & Hc2 & _). rewrite Hf2.
    destruct (f_sock f) as [[domain type] protocol].
    destruct (Z.eqb_spec net_dup (-1)).
    + eexists _, _. split; [done|].
      assert (aget (u_ofile (self w1)) fd2 = Some fp2) as Hi2.
      { rewrite (fa_table _ _ _ _ _ Hfa). eapply aget_aput_eq, (fa_lowest _ _ _ _ _ Hfa). }
      destruct (fa_new _ _ _ _ _ Hfa) as [Hnz2 Hnu2].
      pose proof (inv_take _ _ _ _ _ H1 Hi2 Hnz2) as H3.
      assert (forall x, 0 <= ext x) as Hext by (intros x; apply (inv_ext _ _ _ H)).
      eapply (inv_uncount _ _ _ _ _ f2 _ H3 Hext); [|done|cbn; lia|done|].
      * cbn. rewrite (fa_used _ _ _ _ _ Hfa). set_solver.
      * intros x ->%list_elem_of_singleton. right. cbn. done.
    + eexists _, _. split; [done|].
      eapply (inv_put _ _ _ _ _ _ _ H1 Hf2); [done|cbn; right; eauto|].
      intros x ->%list_elem_of_singleton. right. cbn. eauto.
  - destruct (ufalloc_spec _ _ _ 0 H) as [(j & (Hj & Hj0 & _) & ->)|[_ ->]];
      [lia| |cbn; eauto using inv_errno].
    cbn [obind negb Z.eqb].
    set (w1 := set_self w _). assert (inv [] ext w1) as H1 by apply inv_ufalloc, H.
    destruct (inv_read _ _ _ k H1) as [_ [p1 Hp1]]; [unfold is_u32 in Hk; lia|]. rewrite Hp1.
    rewrite (incr_self w1 _ fp f Hf). eexists _, _. split; [done|]. apply inv_bump.
    apply inv_share; try done. apply (bump_last_le (put_pofile (self w) j 0) j).
Qed.

(** ** close *)

Lemma set_self_eta w u : set_self (set_self w u) (self w) = w.
Proof. by destruct w. Qed.

Lemma close_file_set_self nc h a w r w' u :
  close_file nc h a w = Ret r w' -> close_file nc h a (set_self w u) = Ret r (set_self w' u).
Proof.
  unfold close_file, ffree. cbn [files set_self]. destruct (files w !! a) as [f|]; [|done].
  destruct (last_close h (f_count (set_count f (f_count f - 1)))); intros [= <- <-]; [|done].
  by destruct (a =? 0).
Qed.

(** Giving up entry [fd]: [close_file] on the table without it. *)
Record closed (ext : Z -> Z) (w : world) (fd fp : Z) (f : file) (h : handler) (w' : world) : Prop := {
  cl_file : files w !! fp = Some f /\ f_close f = Some h;
  cl_inv : inv [] ext w';
  cl_self : self w' = put_ofile (self w) fd 0;
  cl_errno : w_errno w' = w_errno w;
  cl_files : files w' = <[fp := set_count f (f_count f - 1)]> (files w);
  cl_released : released h fp f w w'
}.

Lemma close_file_closed ext w nc fd fp :
  inv [] ext w -> open_fd w fd fp ->
  exists f h r w', closed ext w fd fp f h w' /\
    close_file nc h fp (set_self w (put_ofile (self w) fd 0)) = Ret r w'.
Proof.
  intros H (Hr & Hi & Hnz). pose proof (inv_take _ _ _ _ _ H Hi Hnz) as H1.
  destruct (inv_open _ _ _ _ _ H Hi Hnz) as (Hu & f & Hf & Hc & Hcl). destruct Hcl as [h Hh]; [done|].
  assert (forall x, 0 <= ext x) as Hext by (intros x; apply (inv_ext _ _ _ H)).
  destruct (close_file_spec _ _ _ nc h _ H1 Hext Hu) as (f' & r & w' & Hf' & Hcf & Hinv & Hs & He & Hfs & Hrel).
  cbn in Hf'. assert (f' = f) as -> by congruence.
  exists f, h, r, w'. split; [|done]. by constructor.
Qed.

Lemma close_spec ext w nc ex fd :
  inv [] ext w ->
  (closed_fd w fd /\ close nc ex fd w = Ret (-1) (set_errno w EBADF)) \/
  (exists fp p, open_fd w fd fp /\ aget (u_pofile (self w)) fd = Some p /\
     if ex && (Z.land p UF_EXCLOSE =? 0) then close nc ex fd w = Ret 0 w
     else exists f h r w', close nc ex fd w = Ret r w' /\ closed ext w fd fp f h w').
Proof.
  intros H. pose proof (inv_parent _ _ _ H) as Hp. unfold close, fail.
  destruct (open_or_closed _ _ _ fd H) as [Hcl|[fp Ho]].
  - left. split; [done|]. destruct ((0 <=? fd) && (fd <? NOFILE)) eqn:Hr; [|done].
    rewrite cur_self by done. destruct Hcl as [?|[?|Hz]]; [lia|lia|]. by rewrite Hz.
  - right. pose proof Ho as (Hr & Hi & Hnz).
    destruct (inv_read _ _ _ _ H Hr) as [_ [p Hpf]]. exists fp, p. split; [done|]. split; [done|].
    replace ((0 <=? fd) && (fd <? NOFILE)) with true by lia. rewrite cur_self by done.
    rewrite Hi, Hpf. rewrite (proj2 (Z.eqb_neq fp 0)) by done. cbn [negb]. rewrite andb_true_r.
    destruct (ex && (Z.land p UF_EXCLOSE =? 0)); [done|].
    rewrite set_cur_self by done. destruct (close_file_closed _ _ nc _ _ H Ho) as (f & h & r & w' & Hc & Hcf).
    destruct (cl_file _ _ _ _ _ _ _ Hc) as [Hf Hh]. cbn [files set_self]. rewrite Hf, Hh, Hcf. by exists f, h, r, w'.
Qed.

(** ** dup2 *)

(** The state after entry [j], free in [w1], has been made to share [fp]. *)
Definition shared (w1 : world) (fp j p : Z) (f : file) : world :=
  let w := put_file (set_self w1 (put_pofile (put_ofile (self w1) j fp) j p)) fp (set_count f (f_count f + 1)) in
  set_self w (bump_last (self w) j).

Lemma inv_shared ext w i fp j p f :
  inv [] ext w -> open_fd w i fp -> files w !! fp = Some f -> 0 <= j < NOFILE ->
  aget (u_ofile (self w)) j = Some 0 -> inv [] ext (shared w fp j p f).
Proof.
  intros H (Hr & Hi & Hnz) Hf Hj Hz.
  destruct (inv_open _ _ _ _ _ H Hi Hnz) as (Hu & f' & Hf' & Hc & _). assert (f' = f) as -> by congruence.
  pose proof (inv_bump _ _ _ j H) as H1.
  refine (inv_share _ _ _ j fp f p H1 Hu Hnz Hf Hc Hz _). apply bump_last_le.
Qed.

Lemma put_ofile_twice u j a b : put_ofile (put_ofile u j a) j b = put_ofile u j b.
Proof. unfold put_ofile. cbn. by rewrite aput_aput. Qed.

(** [w1] is the state after the old file of [j], if any, has been closed. *)
Lemma dup2_spec ext w nc i j :
  inv [] ext w -> is_u32 i -> is_u32 j ->
  (closed_fd w i \/ NOFILE <= j) /\ dup2 nc i j w = Ret (-1) (set_errno w EBADF) \/
  exists fp, open_fd w i fp /\ j < NOFILE /\
    ((i = j /\ dup2 nc i j w = Ret j w) \/
     (i <> j /\ exists w1 f p, inv [] ext w1 /\ open_fd w1 i fp /\ files w1 !! fp = Some f /\
        aget (u_pofile (self w)) i = Some p /\
        (closed_fd w j /\ w1 = w \/ exists fj g h, open_fd w j fj /\ closed ext w j fj g h w1) /\
        self w1 = put_ofile (self w) j 0 /\
        dup2 nc i j w = Ret j (set_errno (shared w1 fp j (bclr p UF_EXCLOSE) f) (w_errno w)))).
Proof.
  intros H Hi Hj. unfold dup2, fail. rewrite !u32_id by done.
  destruct (open_or_closed _ _ _ i H) as [Hcl|[fp Ho]].
  { left. split; [by left|]. destruct (Z.leb_spec NOFILE i); [done|].
    destruct Hcl as [?|[?|Hz]]; [wrap_lia|lia|]. by rewrite Hz. }
  pose proof Ho as (Hr & Hfp & Hnz). rewrite (proj2 (Z.leb_gt NOFILE i)) by lia. rewrite Hfp.
  rewrite (proj2 (Z.eqb_neq fp 0)) by done. rewrite (proj2 (Z.ltb_ge j 0)) by wrap_lia. cbn [orb].
  destruct (Z.leb_spec NOFILE j); [left; split; [by right|done]|]. right. exists fp. do 2 (split; [done|]).
  destruct (Z.eqb_spec i j) as [->|Hne]; [by left|]. right. split; [done|].
  assert (0 <= j < NOFILE) as Hjr by wrap_lia.
  destruct (inv_read _ _ _ _ H Hjr) as [[fj Hfj] _]. rewrite Hfj.
  destruct (inv_read _ _ _ _ H Hr) as [_ [p Hp]].
  destruct (Z.eqb_spec fj 0) as [->|Hfjnz].
  - destruct (open_fd_used _ _ _ _ _ H Ho) as (Hu & f & Hf & Hc & _).
    exists w, f, p. cbn [obind]. rewrite Hp, (incr_self w _ fp f Hf).
    split_and!; try done; [left; split; [by right; right|done]|].
    unfold put_ofile. rewrite aput_same by done. by destruct (self w).
  - assert (open_fd w j fj) as Hoj by done.
    destruct (close_file_closed _ _ nc _ _ H Hoj) as (g & h & r & w1 & Hc & Hcf).
    destruct (cl_file _ _ _ _ _ _ _ Hc) as [Hg Hh]. rewrite Hg, Hh.
    apply (close_file_set_self _ _ _ _ _ _ (self w)) in Hcf. rewrite set_self_eta in Hcf. rewrite Hcf.
    pose proof (cl_self _ _ _ _ _ _ _ Hc) as Hs. pose proof (cl_inv _ _ _ _ _ _ _ Hc) as Hinv.
    assert (open_fd w1 i fp) as Ho1.
    { split; [done|]. split; [|done]. rewrite Hs. cbn. by rewrite aget_aput_ne. }
    destruct (open_fd_used _ _ _ _ _ Hinv Ho1) as (Hu & f & Hf & Hcp & _).
    exists w1, f, p. cbn [obind self set_self]. rewrite Hp.
    rewrite (incr_self (set_self w1 (self w)) _ fp f) by done.
    split_and!; try done; [right; by exists fj, g, h|].
    unfold shared. rewrite Hs, put_ofile_twice. done.
Qed.

Lemma dup2_inv ext w nc i j : inv [] ext w -> exists r w', dup2 nc i j w = Ret r w' /\ inv [] ext w'.
Proof.
  intros H. assert (dup2 nc i j w = dup2 nc (u32 i) (u32 j) w) as ->.
  { unfold dup2. by rewrite !(u32_id (u32 _)) by apply u32_range. }
  destruct (dup2_spec ext w nc (u32 i) (u32 j) H) as [[_ ->]|(fp & Ho & Hj & [[_ ->]|(Hne & w1 & f & p & H1)])];
    [apply u32_range|apply u32_range|eauto using inv_errno|eauto|].
  destruct H1 as (H1 & Ho1 & Hf & Hp & _ & Hs & ->). eexists _, _. split; [done|]. apply inv_errno.
  assert (0 <= u32 j < NOFILE) as Hr by (pose proof (u32_range j); unfold is_u32 in *; lia).
  eapply inv_shared; [done|done|done|done|]. rewrite Hs. cbn.
  destruct (inv_read _ _ _ _ H Hr) as [[x Hx] _]. by eapply aget_aput_eq.
Qed.

(** ** fcntl, fstat *)

Lemma fcntl_inv ext w fdes cmd arg :
  inv [] ext w ->
  match cmd with
  | F_INTERNALIZE => arg ∈ used_files w /\ (exists f, files w !! arg = Some f /\ 0 < f_count f)
  | _ => 0 <= fdes
  end ->
  exists r w', fcntl fdes cmd arg w = Ret r w' /\ inv [] ext w'.
Proof.
  intros H Hok. pose proof (inv_parent _ _ _ H) as Hp.
  destruct (decide (cmd = F_INTERNALIZE)) as [->|Hne].
  { destruct Hok as (Hu & f & Hf & Hc). unfold fcntl, fail.
    destruct (ufalloc_spec _ _ _ 0 H) as [(j & (Hj & Hj0 & _) & ->)|[_ ->]];
      [lia| |cbn; eauto using inv_errno].
    cbn [obind negb Z.eqb]. set (w1 := set_self w _). assert (inv [] ext w1) as H1 by apply inv_ufalloc, H.
    rewrite set_cur_self, cur_self by done.
    rewrite (incr_self w1 _ arg f Hf). eexists _, _. split; [done|].
    apply inv_share; try done; [|apply (bump_last_le (put_pofile (self w) j 0) j)].
    intros ->. apply (inv_nonnull _ _ _ H). set_solver. }
  assert (0 <= fdes) as Hfd by (by destruct cmd). clear Hok.
  destruct (open_or_closed _ _ _ fdes H) as [Hcl|[fp Ho]].
  { assert (fcntl fdes cmd arg w = fail w EBADF) as ->; [|unfold fail; eauto using inv_errno].
    unfold fcntl. rewrite cur_self by done. destruct (Z.leb_spec NOFILE fdes); [by destruct cmd|].
    destruct Hcl as [?|[?|Hz]]; [lia|lia|]. rewrite Hz. by destruct cmd. }
  pose proof Ho as (Hr & Hi & Hnz). destruct (inv_read _ _ _ _ H Hr) as [_ [p Hpp]].
  destruct (open_fd_used _ _ _ _ _ H Ho) as (Hu & f & Hf & Hc & _).
  unfold fcntl, fail. rewrite cur_self by done. rewrite (proj2 (Z.leb_gt NOFILE fdes)) by lia.
  rewrite Hi, Hpp, (proj2 (Z.eqb_neq fp 0)) by done.
  destruct cmd; try done; rewrite ?Hf; eauto using inv_errno.
  - destruct ((arg <? 0) || (NOFILE <=? arg)) eqn:Ha; [eauto using inv_errno|].
    destruct (ufalloc_spec _ _ _ arg H) as [(j & (Hj & Hj0 & _) & ->)|[_ ->]];
      [lia| |cbn; eauto using inv_errno].
    cbn [obind negb Z.eqb]. set (w1 := set_self w _). assert (inv [] ext w1) as H1 by apply inv_ufalloc, H.
    rewrite (cur_self w1) by done.
    destruct (inv_read _ _ _ _ H1 Hr) as [_ [p1 Hp1]]. rewrite Hp1, set_cur_self by done.
    rewrite (incr_self w1 _ fp f Hf), cur_self, set_cur_self by done. eexists _, _. split; [done|]. apply inv_bump, inv_share; try done.
    apply (bump_last_le (put_pofile (self w) j 0) j).
  - rewrite set_cur_self by done. eexists _, _. split; [done|]. by apply inv_pofile.
  - eexists _, _. split; [done|].
    match goal with |- inv _ _ (if _ then _ else ?w1) => assert (inv [] ext w1) as H1 end.
    { eapply (inv_put [] [] _ _ _ f); [done|done|done|by left|]. intros x Hx. by apply not_elem_of_nil in Hx. }
    case_match; [|done]. by do 2 apply inv_emit.
Qed.

Lemma fstat_inv ext w __fstat net_stat fdes :
  inv [] ext w -> 0 <= fdes < NOFILE ->
  exists r w', fstat __fstat net_stat fdes w = Ret r w' /\ inv [] ext w'.
Proof.
  intros H Hr. unfold fstat. rewrite cur_self by (by eapply inv_parent).
  destruct (inv_read _ _ _ _ H Hr) as [[fp Hfp] _]. rewrite Hfp.
  rewrite (proj2 (Z.leb_gt NOFILE fdes)) by lia. cbn [orb].
  destruct (Z.eqb_spec fp 0); [eauto using inv_errno|].
  destruct (inv_open _ _ _ _ _ H Hfp) as (Hu & f & Hf & Hc & _); [done|]. rewrite Hf.
  destruct (if f_type f =? DTYPE_SOCKET then net_stat else None) as [[r sb]|]; [eauto|].
  eexists _, _. split; [done|].
  eapply (inv_put [] [] _ _ _ f); [done|done|by case_match|left; by case_match|].
  intros x Hx. by apply not_elem_of_nil in Hx.
Qed.

(** ** pipe *)

Lemma pipe_spec ext w ss mem1 mem2 :
  inv [] ext w -> fresh_mem mem1 w -> fresh_mem mem2 w -> mem1 <> mem2 \/ mem2 = 0 ->
  (exists w', pipe ss mem1 mem2 w = Ret (-1, -1, -1) w' /\ inv [] ext w' /\ w_errno w' = EMFILE /\
     (ss = 0 \/ none_free (u_ofile (self w)) 0 \/ mem1 = 0 /\ free_files w = [])) \/
  (exists fd fp w', pipe ss mem1 mem2 w = Ret (-1, fd, -1) w' /\ w_errno w' = EMFILE /\
     lowest_free (u_ofile (self w)) 0 fd /\ u_ofile (self w') = aput (u_ofile (self w)) fd fp /\
     parent w' = None /\ (exists f, files w' !! fp = Some f /\ f_count f = 0) /\
     fp <> 0 /\ (fp ∈ free_files w \/ fp = mem1) /\
     head (free_files w') = Some fp /\ fp ∉ used_files w' /\ (none_free (aput (u_ofile (self w)) fd fp) 0 \/ mem2 = 0)) \/
  (exists fd1 fd2 f1 f2 w', pipe ss mem1 mem2 w = Ret (0, fd1, fd2) w' /\ inv [] ext w' /\ w_errno w' = 0 /\
     lowest_free (u_ofile (self w)) 0 fd1 /\ fd1 < fd2 /\ f1 <> f2 /\
     f2 <> 0 /\ (f2 ∈ free_files w \/ f2 = mem2) /\
     open_fd w' fd1 f1 /\ open_fd w' fd2 f2 /\
     (exists a, files w' !! f1 = Some (pipe_file a FREAD ss) /\ f_count a = 1) /\
     (exists a, files w' !! f2 = Some (pipe_file a FWRITE ss) /\ f_count a = 1)).
Proof.
  intros H Hm1 Hm2 Hm. unfold pipe.
  destruct (Z.eqb_spec ss 0); [left; eexists; split_and!; [done|by apply inv_errno|done|by left]|].
  destruct (falloc_spec _ _ _ _ H Hm1) as [(f1 & fd1 & w1 & -> & Hfa & H1)|[[Hn0 ->]|(w1 & Hm0 & Hf0 & -> & H1 & _)]];
    cbn [obind negb Z.eqb].
  2, 3: left; eexists; split_and!; [done|by apply inv_errno, inv_emit|done|by auto].
  right. destruct (fa_new _ _ _ _ _ Hfa) as [Hnz1 Hnu1].
  assert (fresh_mem mem2 w1) as Hm2'.
  { intros Hn. specialize (Hm2 Hn). rewrite (fa_used _ _ _ _ _ Hfa). pose proof (fa_free _ _ _ _ _ Hfa).
    destruct (fa_source _ _ _ _ _ Hfa) as [?|?]; set_solver. }
  assert (aget (u_ofile (self w1)) fd1 = Some f1) as Hi1.
  { rewrite (fa_table _ _ _ _ _ Hfa). eapply aget_aput_eq, (fa_lowest _ _ _ _ _ Hfa). }
  destruct (fa_file _ _ _ _ _ Hfa) as (a1 & Ha1 & Hc1 & _).
  assert (forall w2, u_ofile (self w2) = u_ofile (self w1) -> parent w2 = None ->
            u_ofile (self (ffree f1 w2)) = aput (u_ofile (self w)) fd1 f1 /\ parent (ffree f1 w2) = None /\
            files (ffree f1 w2) = files w2 /\
            head (free_files (ffree f1 w2)) = Some f1 /\ f1 ∉ used_files (ffree f1 w2)) as Hfree.
  { intros w2 Ht Hp. unfold ffree. rewrite (proj2 (Z.eqb_neq f1 0)) by done. cbn.
    rewrite Ht. split_and!; try done; [apply (fa_table _ _ _ _ _ Hfa)|]. intros [? _]%list_elem_of_filter. done. }
  destruct (falloc_spec _ _ _ _ H1 Hm2') as [(f2 & fd2 & w2 & -> & Hfb & H2)|[[Hn ->]|(w2 & H0 & _ & -> & H2 & Ht & Hfs & Hu & _)]];
    cbn [obind negb Z.eqb].
  - right. destruct (fa_new _ _ _ _ _ Hfb) as [Hnz2 Hnu2]. rewrite (fa_used _ _ _ _ _ Hfa) in Hnu2.
    assert (f1 <> f2) as Hne by set_solver.
    rewrite (fa_others _ _ _ _ _ Hfb f1) by done. rewrite Ha1.
    destruct (fa_file _ _ _ _ _ Hfb) as (a2 & Ha2 & Hc2 & _). rewrite Ha2.
    destruct (fa_lowest _ _ _ _ _ Hfb) as (Hr2 & Hz2 & _).
    destruct (fa_lowest _ _ _ _ _ Hfa) as (Hr1 & Hz1 & Hlow1).
    assert (fd1 < fd2) as Hlt.
    { destruct (Z_lt_le_dec fd1 fd2) as [|Hle]; [done|]. destruct (Z.eq_dec fd1 fd2) as [Heq|Hneq].
      - rewrite <- Heq in Hz2. congruence.
      - rewrite (fa_table _ _ _ _ _ Hfa), aget_aput_ne in Hz2 by done.
        destruct (Hlow1 fd2) as (x & Hx & Hx0); [lia|]. congruence. }
    exists fd1, fd2, f1, f2. eexists. split; [done|]. split_and!; try done.
    + apply inv_errno. eapply (inv_put [f2]); [eapply (inv_put [f2; f1] [f2])|..].
      * exact H2.
      * by rewrite (fa_others _ _ _ _ _ Hfb f1).
      * done.
      * right. cbn. eauto.
      * intros x [->|Hx]%elem_of_cons; [left; set_solver|]. apply list_elem_of_singleton in Hx. right. cbn. eauto.
      * cbn. rewrite lookup_insert_ne by done. exact Ha2.
      * done.
      * right. cbn. eauto.
      * intros x ->%list_elem_of_singleton. right. cbn. eauto.
    + destruct (fa_source _ _ _ _ _ Hfb) as [Hs|Hs]; [left; by apply (fa_free _ _ _ _ _ Hfa)|by right].
    + split; [lia|]. cbn. rewrite (fa_table _ _ _ _ _ Hfb), aget_aput_ne by lia. done.
    + split; [lia|]. cbn. rewrite (fa_table _ _ _ _ _ Hfb). split; [|done]. by eapply aget_aput_eq.
    + exists a1. cbn. rewrite lookup_insert_ne, lookup_insert_eq by done. done.
    + exists a2. cbn. by rewrite lookup_insert_eq.
  - left. rewrite Ha1. exists fd1, f1. eexists. split; [done|].
    destruct (Hfree (put_file w1 f1 (set_count a1 0))) as (Ht&Hp&Hf&?&?); [done|eapply (inv_parent _ _ _ H1)|].
    split_and!; try done; [apply Hfa| |apply Hfa|left; by rewrite <- (fa_table _ _ _ _ _ Hfa)].
    eexists. cbn. rewrite Hf. cbn. by rewrite lookup_insert_eq.
  - left. rewrite Hfs, Ha1. exists fd1, f1. eexists. split; [done|].
    destruct (Hfree (put_file w2 f1 (set_count a1 0))) as (Ht2&Hp&Hf&?&?); [exact Ht|eapply (inv_parent _ _ _ H2)|].
    split_and!; try done; [apply Hfa| |apply Hfa|by right].
    eexists. cbn. rewrite Hf. cbn. by rewrite lookup_insert_eq.
Qed.
End DescripOps.
