(* ===== verification/DescripTheorems.v ===== *)
(** * Descriptors: theorems

    What the descriptor calls guarantee: exact reference counts, the descriptor
    numbers they choose, sharing and closing, and the two failure paths of the
    code that break the guarantee. *)

From S2P Require Import Prelude Descrip DescripInv DescripOps.
Import Descrip DescripInv DescripOps.


(** ** Any sequence of calls *)

Inductive call :=
| CDup (mem net_dup i : Z)
| CDup2 (net_close i j : Z)
| CFcntl (fdes : Z) (cmd : fcntl_cmd) (arg : Z)
| CFstat (__fstat : file -> stat) (net_stat : option (Z * stat)) (fdes : Z)
| CClose (net_close : Z) (execve_close : bool) (fd : Z)
| CPipe (ss mem1 mem2 : Z).

Definition run (c : call) (w : world) : outcome world Z :=
  match c with
  | CDup mem net_dup i => dup mem net_dup i w
  | CDup2 nc i j => dup2 nc i j w
  | CFcntl fdes cmd arg => fcntl fdes cmd arg w
  | CFstat fs ns fdes => let* (r, w) := fstat fs ns fdes w in Ret (fst r) w
  | CClose nc ex fd => close nc ex fd w
  | CPipe ss mem1 mem2 => let* (r, w) := pipe ss mem1 mem2 w in Ret (fst (fst r)) w
  end.

(** What the code takes for granted: memory from kmalloc is new, F_INTERNALIZE
    is given an open structure, fcntl and fstat an index inside the table. *)
Definition legal (c : call) (w : world) : Prop :=
  match c with
  | CDup mem _ _ => fresh_mem mem w
  | CDup2 _ _ _ | CClose _ _ _ => True
  | CFcntl fdes cmd arg =>
    match cmd with
    | F_INTERNALIZE => arg ∈ used_files w /\ exists f, files w !! arg = Some f /\ 0 < f_count f
    | _ => 0 <= fdes
    end
  | CFstat _ _ fdes => 0 <= fdes < NOFILE
  | CPipe _ mem1 mem2 => fresh_mem mem1 w /\ fresh_mem mem2 w /\ (mem1 <> mem2 \/ mem2 = 0)
  end.

Definition dangling (w : world) : Prop :=
  exists fd fp, aget (u_ofile (self w)) fd = Some fp /\ fp <> 0 /\ fp ∈ free_files w.

(** A pipe call that got one file and not the other. *)
Definition half_pipe (c : call) (w : world) : Prop :=
  exists ss mem1 mem2 fd w', c = CPipe ss mem1 mem2 /\ 0 <= fd /\ pipe ss mem1 mem2 w = Ret (-1, fd, -1) w'.

(** States reached by legal calls none of which is half a pipe. *)
Inductive reach (w0 : world) : world -> Prop :=
| reach_refl : reach w0 w0
| reach_step w c r w' : reach w0 w -> legal c w -> ~ half_pipe c w -> run c w = Ret r w' -> reach w0 w'.

Lemma run_inv ext w c :
  inv [] ext w -> legal c w ->
  exists r w', run c w = Ret r w' /\
    ((~ half_pipe c w /\ inv [] ext w') \/ (half_pipe c w /\ r = -1 /\ w_errno w' = EMFILE /\ dangling w')).
Proof.
  intros H Hl.
  assert (forall r w', run c w = Ret r w' -> inv [] ext w' ->
            match c with CPipe _ _ _ => False | _ => True end ->
            exists r w', run c w = Ret r w' /\
              ((~ half_pipe c w /\ inv [] ext w') \/
               (half_pipe c w /\ r = -1 /\ w_errno w' = EMFILE /\ dangling w'))) as Hnp.
  { intros r w' Hr Hi Hc. exists r, w'. split; [done|]. left. split; [|done].
    intros (ss & m1 & m2 & fd & w2 & -> & _). done. }
  destruct c; cbn [legal] in Hl.
  - destruct (dup_inv ext w mem net_dup i H Hl) as (r & w' & Hr & Hi). by eapply Hnp.
  - destruct (dup2_inv ext w net_close i j H) as (r & w' & Hr & Hi). by eapply Hnp.
  - destruct (fcntl_inv ext w fdes cmd arg H Hl) as (r & w' & Hr & Hi). by eapply Hnp.
  - destruct (fstat_inv ext w __fstat net_stat fdes H Hl) as (r & w' & Hr & Hi).
    apply (Hnp (fst r) w'); [cbn; by rewrite Hr|done|done].
  - destruct (close_spec ext w net_close execve_close fd H) as [[_ Hr]|(fp & p & _ & _ & Hr)].
    + eapply Hnp; [exact Hr|by apply inv_errno|done].
    + destruct (execve_close && (Z.land p UF_EXCLOSE =? 0)); [by eapply Hnp|].
      destruct Hr as (f & h & r & w' & Hr & Hc). eapply Hnp; [exact Hr|by eapply cl_inv|done].
  - clear Hnp. destruct Hl as (H1 & H2 & H3). cbn [run].
    destruct (pipe_spec ext w ss mem1 mem2 H H1 H2 H3)
      as [(w' & Hr & Hi & He & _)|[(fd & fp & w' & Hr & He & Hlow & Ht & _ & _ & Hnz & _ & Hh & _)
        |(fd1 & fd2 & f1 & f2 & w' & Hr & Hi & _)]]; rewrite Hr; cbn [obind fst].
    1, 3: eexists _, _; split; [done|]; left; split; [|done];
      intros (?&?&?&?&?& [= <- <- <-] & ? & Hr'); rewrite Hr in Hr'; injection Hr'; intros; subst; lia.
    eexists _, _. split; [done|]. right. destruct Hlow as (Hr0 & Hz & _). split_and!; try done.
    + exists ss, mem1, mem2, fd, w'. split_and!; [done|lia|done].
    + exists fd, fp. rewrite Ht. split; [by eapply aget_aput_eq|]. split; [done|].
      destruct (free_files w') as [|x l]; [done|]. injection Hh as ->. set_solver.
Qed.

Lemma reach_inv ext w0 w : inv [] ext w0 -> reach w0 w -> inv [] ext w.
Proof.
  intros H0. induction 1 as [|w c r w' _ IH Hl Hnh Hr]; [done|].
  destruct (run_inv ext w c IH Hl) as (r2 & w2 & Hr2 & [[_ ?]|[? _]]); [|done]. congruence.
Qed.

(** A process that has opened nothing. *)
Definition empty_world : world :=
  mk_world (mk_user (replicate 512 0) (replicate 512 0) 0) None ∅ [] [] 0 [].

Lemma aget_replicate n (x y : Z) i : aget (replicate n x) i = Some y -> y = x.
Proof. unfold aget. case_match; [|done]. by intros [-> _]%lookup_replicate. Qed.

Lemma empty_inv : inv [] (fun _ => 0) empty_world.
Proof.
  constructor; try done.
  - apply NoDup_nil_2.
  - apply not_elem_of_nil.
  - intros fp Hfp. by apply not_elem_of_nil in Hfp.
  - intros fp Hnz Hr. rewrite refs_not_elem in Hr; [done|]. by intros [-> _]%elem_of_replicate.
  - intros i fp Hi%aget_replicate. done.
Qed.

(** A process with one file, the structure at 1000, open on descriptor 0. *)
Definition test_file (count : Z) : file :=
  mk_file 0 0 DTYPE_FILE (Z.lor FREAD FWRITE) count (Some H_close) 0 (0, 0, 0) (mk_stat 0 0 0).
Definition w_one : world :=
  mk_world (mk_user (1000 :: replicate 511 0) (replicate 512 0) 0) None {[ 1000 := test_file 1 ]} [1000] [] 0 [].

Lemma w_one_inv : inv [] (fun _ => 0) w_one.
Proof.
  assert (forall x, x ∈ [1000] -> x = 1000) as H1 by set_solver.
  constructor; try done.
  - cbn -[replicate]. apply NoDup_singleton.
  - cbn -[replicate]. set_solver.
  - intros fp Hfp%H1. subst. by eexists.
  - cbn -[replicate]. intros fp Hnz. rewrite refs_cons. unfold ind. case_decide; [subst; set_solver|].
    rewrite refs_not_elem; [lia|]. intros [-> _]%elem_of_replicate. done.
  - cbn -[replicate]. intros fp f ->%H1 [= <-]. rewrite refs_cons, refs_not_elem; [done|].
    intros [? _]%elem_of_replicate. done.
  - cbn -[replicate]. intros fp f ->%H1 [= <-] _. right. by eexists.
  - cbn -[replicate]. intros i fp Hi Hnz. destruct (Z.eq_dec i 0) as [->|Hne]; [done|].
    unfold aget in Hi. destruct (Z.leb_spec 0 i); [|done].
    destruct (Z.to_nat i) as [|k] eqn:Hk; [lia|]. apply lookup_replicate in Hi as [-> _]. done.
Qed.

(** C16. In every state reached by descriptor calls of a process that does not use its
    parent's data, any legal call returns: dup, dup2, close and pipe on any descriptor,
    fcntl on one that is not negative, fstat on one inside the table (they read in front
    of or behind it otherwise, where fcntl(2) announces EBADF).  And unless it is a pipe call
    that gets only one of its two files, every descriptor still points to a
    structure in use whose count is exactly the number of descriptors that refer
    to it, the used and free structures are disjoint, and none that is referred
    to is in the free list. *)
Theorem descriptor_calls_keep_counts ext w0 w c :
  inv [] ext w0 -> reach w0 w -> legal c w ->
  exists r w', run c w = Ret r w' /\ (~ half_pipe c w -> inv [] ext w' /\ ~ dangling w').
Proof.
  intros H0 Hr Hl. pose proof (reach_inv _ _ _ H0 Hr) as H.
  destruct (run_inv ext w c H Hl) as (r & w' & Hrun & Hcase). exists r, w'. split; [done|]. intros Hnh.
  destruct Hcase as [[_ Hi]|[? _]]; [|done]. split; [done|].
  intros (fd & fp & Hfd & Hnz & Hfree). destruct (inv_open _ _ _ _ _ Hi Hfd Hnz) as [Hu _].
  pose proof (inv_nodup _ _ _ Hi) as (_ & Hd & _)%NoDup_app. by apply (Hd fp).
Qed.

Lemma descriptor_calls_keep_counts_witness :
  exists r w', run (CPipe 77 2000 3000) w_one = Ret r w' /\
    (~ half_pipe (CPipe 77 2000 3000) w_one -> inv [] (fun _ => 0) w' /\ ~ dangling w').
Proof.
  apply (descriptor_calls_keep_counts _ w_one); [exact w_one_inv|apply reach_refl|].
  cbn. unfold fresh_mem. cbn. split; [set_solver|]. split; [set_solver|lia].
Defined.

(** fcntl (F_DUPFD) on an open descriptor returns the lowest free descriptor
    not below the argument, which then shares the file with its close-on-exec
    bit off; it fails with EINVAL exactly for an argument outside the table and
    with EMFILE exactly when no descriptor from the argument on is free. *)
Theorem dupfd_lowest ext w fdes fp arg :
  inv [] ext w -> open_fd w fdes fp ->
  (~ 0 <= arg < NOFILE /\ fcntl fdes F_DUPFD arg w = Ret (-1) (set_errno w EINVAL)) \/
  (0 <= arg < NOFILE /\ none_free (u_ofile (self w)) arg /\
     fcntl fdes F_DUPFD arg w = Ret (-1) (set_errno w EMFILE)) \/
  (exists i f p w', fcntl fdes F_DUPFD arg w = Ret i w' /\ lowest_free (u_ofile (self w)) arg i /\
     u_ofile (self w') = aput (u_ofile (self w)) i fp /\
     aget (u_pofile (self w')) i = Some p /\ Z.land p UF_EXCLOSE = 0 /\ i <= u_lastfile (self w') /\
     files w !! fp = Some f /\ files w' = <[fp := set_count f (f_count f + 1)]> (files w) /\
     w_errno w' = w_errno w).
Proof.
  intros H Ho. pose proof Ho as (Hr & Hi & Hnz). pose proof (inv_parent _ _ _ H) as Hp.
  destruct (inv_read _ _ _ _ H Hr) as [_ [p Hpp]].
  destruct (open_fd_used _ _ _ _ _ H Ho) as (Hu & f & Hf & Hc & _).
  unfold fcntl, fail. rewrite cur_self by done. rewrite (proj2 (Z.leb_gt NOFILE fdes)) by lia.
  rewrite Hi, Hpp, (proj2 (Z.eqb_neq fp 0)) by done.
  destruct ((arg <? 0) || (NOFILE <=? arg)) eqn:Ha; [left; split; [lia|done]|]. right.
  destruct (ufalloc_spec _ _ _ arg H) as [(i & Hlow & ->)|[Hn ->]]; [lia| |left; split_and!; [lia|lia|done|done]].
  right. cbn [obind negb Z.eqb]. set (w1 := set_self w _). assert (inv [] ext w1) as H1 by apply inv_ufalloc, H.
  rewrite (cur_self w1) by done. destruct (inv_read _ _ _ _ H1 Hr) as [_ [p1 Hp1]].
  rewrite Hp1, set_cur_self by done. rewrite (incr_self w1 _ fp f Hf), cur_self, set_cur_self by done.
  exists i, f, (bclr p1 UF_EXCLOSE). eexists. split; [done|]. split; [done|]. split; [done|]. cbn.
  destruct Hlow as (Hri & _). destruct (inv_read _ _ _ i H) as [_ [q Hq]]; [lia|].
  split_and!; try done.
  - eapply aget_aput_eq. by eapply aget_aput_eq.
  - unfold bclr. rewrite <- Z.land_assoc. by rewrite (Z.land_comm (Z.lnot _)), Z.land_lnot_diag, Z.land_0_r.
  - set (z := if u_lastfile (self w) <? i then i else u_lastfile (self w)). destruct (Z.ltb_spec z i); lia.
Qed.

Lemma dupfd_lowest_witness :
  exists i f p w', fcntl 0 F_DUPFD 0 w_one = Ret i w' /\ lowest_free (u_ofile (self w_one)) 0 i /\
     u_ofile (self w') = aput (u_ofile (self w_one)) i 1000 /\
     aget (u_pofile (self w')) i = Some p /\ Z.land p UF_EXCLOSE = 0 /\ i <= u_lastfile (self w') /\
     files w_one !! 1000 = Some f /\ files w' = <[1000 := set_count f (f_count f + 1)]> (files w_one) /\
     w_errno w' = w_errno w_one.
Proof.
  destruct (dupfd_lowest (fun _ => 0) w_one 0 1000 0 w_one_inv) as [[? _]|[(_ & Hn & _)|Hx]].
  - by split_and!.
  - cbn in *. unfold NOFILE in *. lia.
  - destruct (Hn 1) as (fp & Hfp & Hnz); [done|]. vm_compute in Hfp. congruence.
  - exact Hx.
Defined.

(** dup2: with a closed source or a target outside the table it fails with
    EBADF and changes nothing; with equal descriptors it does nothing; otherwise
    the file open on the target is closed (its structure is freed exactly when
    this was its last reference), the target then shares the file of the source
    with the close-on-exec bit off, no other descriptor changes and errno is kept
    whatever the close did. *)
Theorem dup2_replaces ext w nc i j :
  inv [] ext w -> is_u32 i -> is_u32 j ->
  (closed_fd w i \/ NOFILE <= j) /\ dup2 nc i j w = Ret (-1) (set_errno w EBADF) \/
  exists fp, open_fd w i fp /\ j < NOFILE /\
    (i = j /\ dup2 nc i j w = Ret j w \/
     i <> j /\ exists w1 f w',
       (closed_fd w j /\ w1 = w \/ exists fj g h, open_fd w j fj /\ files w !! fj = Some g /\
          files w1 = <[fj := set_count g (f_count g - 1)]> (files w) /\ released h fj g w w1) /\
       dup2 nc i j w = Ret j w' /\ inv [] ext w' /\ w_errno w' = w_errno w /\
       u_ofile (self w') = aput (u_ofile (self w)) j fp /\
       (exists p, aget (u_pofile (self w')) j = Some p /\ Z.land p UF_EXCLOSE = 0) /\
       files w1 !! fp = Some f /\ files w' = <[fp := set_count f (f_count f + 1)]> (files w1) /\
       used_files w' = used_files w1 /\ free_files w' = free_files w1).
Proof.
  intros H Hi Hj.
  destruct (dup2_spec ext w nc i j H Hi Hj) as [?|(fp & Ho & Hjn & [?|(Hne & w1 & f & p & Hx)])]; [by left|..].
  { right. exists fp. split; [done|]. split; [done|]. by left. }
  right. exists fp. split; [done|]. split; [done|]. right. split; [done|].
  destruct Hx as (H1 & Ho1 & Hf & Hp & Hcase & Hs & Hd).
  assert (0 <= j < NOFILE) as Hjr by wrap_lia. destruct (inv_read _ _ _ _ H Hjr) as [[x Hx] [q Hq]].
  exists w1, f. eexists. split.
  { destruct Hcase as [?|(fj & g & h & Hoj & Hc)]; [by left|]. right. exists fj, g, h.
    destruct (cl_file _ _ _ _ _ _ _ Hc) as [Hg _]. pose proof (cl_files _ _ _ _ _ _ _ Hc).
    pose proof (cl_released _ _ _ _ _ _ _ Hc). done. }
  split; [exact Hd|]. split_and!; try done.
  - apply inv_errno. apply (inv_shared ext w1 i); try done. rewrite Hs. by eapply aget_aput_eq.
  - cbn. rewrite Hs. cbn. by rewrite aput_aput.
  - exists (bclr p UF_EXCLOSE). cbn. rewrite Hs. cbn. split; [by eapply aget_aput_eq|].
    unfold bclr. rewrite <- Z.land_assoc. by rewrite (Z.land_comm (Z.lnot _)), Z.land_lnot_diag, Z.land_0_r.
Qed.

(** The file of descriptor 0 becomes open on descriptor 3 as well: nothing is
    closed. *)
Lemma dup2_replaces_witness : exists w', dup2 0 0 3 w_one = Ret 3 w' /\ w_errno w' = 0.
Proof.
  destruct (dup2_replaces (fun _ => 0) w_one 0 0 3 w_one_inv) as [[[Hc|?] _]|(fp & _ & _ & [[? _]|(_ & w1 & f & w' & _ & Hd & _ & He & _)])];
    [by split|by split| |done|done|by exists w'].
  destruct Hc as [?|[?|Hc]]; [done|done|]. vm_compute in Hc. congruence.
Defined.

(** Subtracting one changes only the two low bits when one of them is set. *)
Lemma pred_high_bits x k : x mod 4 <> 0 -> 2 <= k -> Z.testbit (x - 1) k = Z.testbit x k.
Proof.
  intros Hx Hk. replace k with ((k - 2) + 2) by lia. rewrite <- !Z.div_pow2_bits by lia.
  f_equal. change (2 ^ 2) with 4. Z.div_mod_to_equations; lia.
Qed.

Lemma low_bits x y k : x mod 4 = y mod 4 -> 0 <= k < 2 -> Z.testbit x k = Z.testbit y k.
Proof.
  intros Hxy Hk. rewrite <- (Z.mod_pow2_bits_low x 2 k), <- (Z.mod_pow2_bits_low y 2 k) by lia.
  change (2 ^ 2) with 4. by rewrite Hxy.
Qed.

Lemma fcntlflags_low k : Z.testbit FCNTLFLAGS k = true -> 2 <= k.
Proof.
  intros Hk. destruct (Z_lt_le_dec k 0); [by rewrite Z.testbit_neg_r in Hk|].
  destruct (Z.eq_dec k 0) as [->|]; [done|]. destruct (Z.eq_dec k 1) as [->|]; [done|]. lia.
Qed.

Definition new_flags (f arg : Z) : Z := Z.lor (bclr f FCNTLFLAGS) (Z.land (FFLAGS arg) FCNTLFLAGS).

Lemma new_flags_bit f arg k :
  0 <= k -> Z.testbit (new_flags f arg) k =
    if Z.testbit FCNTLFLAGS k then Z.testbit (FFLAGS arg) k else Z.testbit f k.
Proof.
  intros Hk. unfold new_flags, bclr. rewrite Z.lor_spec, !Z.land_spec, Z.lnot_spec by done.
  destruct (Z.testbit FCNTLFLAGS k); cbn; by rewrite ?andb_false_r, ?andb_true_r, ?orb_false_r.
Qed.

Lemma new_flags_mod f arg : new_flags f arg mod 4 = f mod 4.
Proof.
  change 4 with (2 ^ 2). apply Z.bits_inj'. intros k Hk. destruct (Z_lt_le_dec k 2).
  - rewrite !Z.mod_pow2_bits_low, new_flags_bit by lia.
    destruct (Z.testbit FCNTLFLAGS k) eqn:HM; [|done]. apply fcntlflags_low in HM. lia.
  - by rewrite !Z.mod_pow2_bits_high by lia.
Qed.

Lemma new_flags_spec f arg :
  arg mod 4 <> 3 -> f mod 4 <> 0 ->
  Z.land (OFLAGS (new_flags f arg)) FCNTLFLAGS = Z.land arg FCNTLFLAGS /\
  bclr (OFLAGS (new_flags f arg)) FCNTLFLAGS = bclr (OFLAGS f) FCNTLFLAGS.
Proof.
  intros Ha Hf. assert (new_flags f arg mod 4 <> 0) as Hn by by rewrite new_flags_mod.
  unfold OFLAGS, bclr. split; apply Z.bits_inj'; intros k Hk; rewrite !Z.land_spec, ?Z.lnot_spec by done;
    destruct (Z.testbit FCNTLFLAGS k) eqn:HM; cbn [negb]; rewrite ?andb_false_r, ?andb_true_r; try done.
  - pose proof (fcntlflags_low _ HM). rewrite pred_high_bits, new_flags_bit, HM by done.
    unfold FFLAGS. rewrite <- (pred_high_bits (arg + 1)); [f_equal; lia| |done].
    Z.div_mod_to_equations; lia.
  - destruct (Z_lt_le_dec k 2).
    + apply low_bits; [|done]. rewrite Zminus_mod, new_flags_mod, <- Zminus_mod. done.
    + rewrite !pred_high_bits, new_flags_bit, HM by done. done.
Qed.

(** What fcntl (F_SETFL) sets is what F_GETFL reports: the settable flags are
    those of the argument, all other flags are as before.  The flags are stored
    with an offset of one, so this needs an argument with a legal access mode and
    a file open for reading or writing. *)
Theorem setfl_getfl ext w fdes fp f arg :
  inv [] ext w -> open_fd w fdes fp -> files w !! fp = Some f ->
  arg mod 4 <> 3 -> f_flags f mod 4 <> 0 ->
  exists w', fcntl fdes F_SETFL arg w = Ret 0 w' /\
    forall a, exists r, fcntl fdes F_GETFL a w' = Ret r w' /\
      Z.land r FCNTLFLAGS = Z.land arg FCNTLFLAGS /\
      bclr r FCNTLFLAGS = bclr (OFLAGS (f_flags f)) FCNTLFLAGS.
Proof.
  intros H Ho Hf Ha Hfl. pose proof Ho as (Hr & Hi & Hnz). pose proof (inv_parent _ _ _ H) as Hp.
  destruct (inv_read _ _ _ _ H Hr) as [_ [p Hpp]].
  unfold fcntl. rewrite cur_self by done. rewrite (proj2 (Z.leb_gt NOFILE fdes)) by lia.
  rewrite Hi, Hpp, (proj2 (Z.eqb_neq fp 0)), Hf by done. cbn [f_flags f_type set_fflags].
  fold (new_flags (f_flags f) arg). eexists. split; [done|]. intros a.
  set (f' := set_fflags (set_fflags f _) _). match goal with |- context [cur ?x] => set (w' := x) end.
  assert (parent w' = None /\ self w' = self w /\ files w' = <[fp := f']> (files w)) as (Hp' & Hs & Hfs).
  { unfold w'. by destruct (f_type f =? DTYPE_SOCKET). }
  rewrite cur_self, Hs, Hi, Hpp by done. rewrite (proj2 (Z.eqb_neq fp 0)), Hfs, lookup_insert_eq by done.
  eexists. split; [done|]. by apply new_flags_spec.
Qed.

(** O_NONBLOCK and O_APPEND on a file open for reading and writing. *)
Lemma setfl_getfl_witness : exists w', fcntl 0 F_SETFL (Z.lor O_NONBLOCK (Z.lor O_APPEND 2)) w_one = Ret 0 w'.
Proof.
  destruct (setfl_getfl (fun _ => 0) w_one 0 1000 (test_file 1) (Z.lor O_NONBLOCK (Z.lor O_APPEND 2)) w_one_inv)
    as (w' & Hw' & _); [by split_and!|done|done|done|by exists w'].
Defined.

Lemma lowest_free_unique l want i j : lowest_free l want i -> lowest_free l want j -> i = j.
Proof.
  intros (Hi & Hzi & Hli) (Hj & Hzj & Hlj). destruct (Z.lt_trichotomy i j) as [Hlt|[|Hlt]]; [|done|].
  - destruct (Hlj i) as (x & Hx & Hnz); [lia|]. congruence.
  - destruct (Hli j) as (x & Hx & Hnz); [lia|]. congruence.
Qed.

(** The lowest free entry after the lowest one has been taken. *)
Lemma lowest_free_next l i j x :
  lowest_free l 0 i -> lowest_free l (i + 1) j -> x <> 0 -> lowest_free (aput l i x) 0 j.
Proof.
  intros (Hi & Hzi & Hli) (Hj & Hzj & Hlj) Hx. split; [lia|]. rewrite aget_aput_ne by lia. split; [done|].
  intros k Hk. destruct (Z.eq_dec k i) as [->|Hne]; [exists x; split; [by eapply aget_aput_eq|done]|].
  rewrite aget_aput_ne by lia. destruct (Z_lt_le_dec k i); [apply Hli; lia|apply Hlj; lia].
Qed.

(** When pipe gets its first file and no memory for the second, it returns
    -1 with EMFILE but leaves the first descriptor in the table: it points to a
    structure in the free list, and the next file opened is given that very
    structure, so two unrelated descriptors then share a structure whose count
    is one. *)
Theorem pipe_failure_dangles ext w ss mem1 fd fd2 mem :
  inv [] ext w -> ss <> 0 -> mem1 <> 0 -> fresh_mem mem1 w -> free_files w = [] ->
  lowest_free (u_ofile (self w)) 0 fd -> lowest_free (u_ofile (self w)) (fd + 1) fd2 ->
  exists w' w2, pipe ss mem1 0 w = Ret (-1, fd, -1) w' /\ w_errno w' = EMFILE /\ dangling w' /\
    falloc mem w' = Ret (0, mem1, fd2) w2 /\ fd <> fd2 /\
    aget (u_ofile (self w2)) fd = Some mem1 /\ aget (u_ofile (self w2)) fd2 = Some mem1 /\
    exists f, files w2 !! mem1 = Some f /\ f_count f = 1.
Proof.
  intros H Hss Hm1 Hfresh Hfree Hlow Hlow2.
  assert (fresh_mem 0 w) as Hf0 by (by intros ?).
  destruct (pipe_spec ext w ss mem1 0 H Hfresh Hf0 (or_intror eq_refl))
    as [(w' & _ & _ & _ & [?|[Hn|[? _]]])|[Hx|Hx]]; [done| |done| |].
  - destruct Hlow as (Hr & Hz & _). destruct (Hn fd Hr) as (x & Hx & Hx0). congruence.
  - destruct Hx as (fd' & fp & w' & Hpipe & He & Hlow' & Ht & Hp & (f & Hf & Hc) & Hnz & Hsrc & Hh & Hu & _).
    assert (fd' = fd) as -> by by eapply lowest_free_unique.
    destruct Hsrc as [Hs| ->]; [rewrite Hfree in Hs; by apply not_elem_of_nil in Hs|].
    pose proof (lowest_free_next _ _ _ _ Hlow Hlow2 Hnz) as Hlow3. rewrite <- Ht in Hlow3.
    assert (Z.of_nat (length (u_ofile (self w'))) = NOFILE) as Hlen by (rewrite Ht, aput_length; eapply inv_len, H).
    exists w'. unfold falloc, ufalloc. rewrite cur_self by done.
    destruct (ufalloc_loop_spec (self w') _ 0 Hlen ltac:(lia) eq_refl) as [(i & -> & Hi)|[_ Hn]].
    2: { destruct Hlow3 as (Hr & Hz & _). destruct (Hn fd2 Hr) as (x & Hx & Hx0). congruence. }
    assert (i = fd2) as -> by by eapply lowest_free_unique.
    rewrite set_cur_self by done. cbn [obind negb Z.eqb]. unfold file_alloc.
    cbn [free_files set_self]. destruct (free_files w') as [|x rest] eqn:Hfl; [done|]. injection Hh as ->.
    cbn [files set_lists set_self]. rewrite Hf. rewrite set_cur_self by done.
    destruct Hlow as (Hr & Hz & _), Hlow2 as (Hr2 & Hz2 & _), Hlow3 as (_ & Hz3 & _).
    eexists. split; [done|]. split; [done|]. split.
    { exists fd, mem1. rewrite Ht, Hfl. split; [by eapply aget_aput_eq|]. split; [done|set_solver]. }
    split; [done|]. split; [lia|]. cbn. rewrite cur_self by done. cbn. split_and!.
    + rewrite aget_aput_ne by lia. rewrite Ht. by eapply aget_aput_eq.
    + by eapply aget_aput_eq.
    + eexists. by rewrite lookup_insert_eq.
  - destruct Hx as (fd1 & fd2' & f1 & f2 & w' & _ & _ & _ & _ & _ & _ & Hnz & [Hs|Hs] & _); [|done].
    rewrite Hfree in Hs. by apply not_elem_of_nil in Hs.
Qed.

Lemma pipe_failure_dangles_witness :
  exists w' w2, pipe 77 2000 0 w_one = Ret (-1, 1, -1) w' /\ w_errno w' = EMFILE /\ dangling w' /\
    falloc 3000 w' = Ret (0, 2000, 2) w2 /\ 1 <> 2 /\
    aget (u_ofile (self w2)) 1 = Some 2000 /\ aget (u_ofile (self w2)) 2 = Some 2000 /\
    exists f, files w2 !! 2000 = Some f /\ f_count f = 1.
Proof.
  apply (pipe_failure_dangles (fun _ => 0)); [exact w_one_inv|done|done| |done| |].
  - intros _. cbn. set_solver.
  - split; [done|]. split; [done|]. intros j Hj. assert (j = 0) as -> by lia. by exists 1000.
  - split; [done|]. split; [done|]. intros j Hj. lia.
Defined.
