(* ===== verification/Pool.v ===== *)
(** * The interface between the allocators

    What library/malloc.c and library/kmalloc.c use of library/buddy-alloc.c:
    operations that allocate and free memory of a given size, and the laws a
    client may rely on.  [Buddy] provides them ([Heap] is proved against the
    interface and does not depend on how blocks are found). *)

From S2P Require Import Prelude Ixlist.

(** The words of the memory and the two entry points. *)
Class PoolOps (S : Type) := {
  pwords : S -> mem;
  pset : S -> mem -> S;
  palloc : S -> Z -> Z -> outcome S Z;          (** b_alloc (size, pool) *)
  pfree : S -> Z -> Z -> outcome S ()           (** b_free (mem, size) *)
}.

(** The word at [w] is in a live allocation. *)
Definition covered (live : gmap Z Z) (w : Z) : Prop :=
  exists u size, live !! u = Some size /\ u <= w < u + size.

(** [r] is the address of new memory of [size] bytes. *)
Definition new_memory (live : gmap Z Z) (r size : Z) : Prop :=
  0 < r /\ (4 | r) /\ r + size <= 2 ^ 32 /\ live !! r = None /\
  forall w, r <= w < r + size -> ~ covered live w.

(** [pok s live]: a state whose live allocations (address and size asked for)
    are [live]. *)
Class PoolLaws (S : Type) `{!PoolOps S} (pok : S -> gmap Z Z -> Prop) := {
  pwords_pset s m : pwords (pset s m) = m;
  pset_pset s m m' : pset (pset s m) m' = pset s m';
  palloc_ok s live size pool : pok s live -> pool = 0 \/ pool = 1 ->
    exists r s', palloc s size pool = Ret r s' /\
      ((r = 0 /\ pok s' live) \/
       (r <> 0 /\ 0 <= size /\ pok s' (<[r := size]> live) /\ new_memory live r size)) /\
      (forall w, covered live w -> ld (pwords s') w = ld (pwords s) w);
  pfree_ok s live u size : pok s live -> live !! u = Some size ->
    exists s', pfree s u size = Ret () s' /\ pok s' (delete u live) /\
      (forall w, covered (delete u live) w -> ld (pwords s') w = ld (pwords s) w);
  pwrite_ok s live m : pok s live -> (forall w, ld m w = ld (pwords s) w \/ covered live w) ->
    pok (pset s m) live
}.

Definition ldw {S} `{!PoolOps S} (s : S) (a : Z) : Z := ld (pwords s) a.
Definition stw {S} `{!PoolOps S} (s : S) (a v : Z) : S := pset s (st (pwords s) a v).

Lemma covered_insert live r size w :
  live !! r = None -> covered (<[r := size]> live) w <-> (r <= w < r + size) \/ covered live w.
Proof.
  intros Hr. split.
  - intros (u & sz & Hu & Hw). rewrite lookup_insert_Some in Hu. destruct Hu as [[<- <-]|[_ Hu]]; [by left|].
    right. by exists u, sz.
  - intros [Hw|(u & sz & Hu & Hw)]; [exists r, size; by rewrite lookup_insert_eq|].
    exists u, sz. rewrite lookup_insert_ne; [done|]. intros <-. congruence.
Qed.

Lemma covered_delete live u w : covered (delete u live) w -> covered live w.
Proof. intros (v & sz & Hv & Hw). apply lookup_delete_Some in Hv as [_ Hv]. by exists v, sz. Qed.

Section Laws.
  Context {S : Type} `{HL : PoolLaws S pok}.

Lemma ldw_stw_eq (s : S) a v : ldw (stw s a v) a = v.
  Proof. unfold ldw, stw. rewrite pwords_pset. apply ld_st_eq. Qed.

Lemma ldw_stw_ne (s : S) a b v : a <> b -> ldw (stw s a v) b = ldw s b.
  Proof. intros H. unfold ldw, stw. rewrite pwords_pset. by apply ld_st_ne. Qed.

Lemma stw_comm (s : S) a b v w : a <> b -> stw (stw s a v) b w = stw (stw s b w) a v.
  Proof.
    intros H. unfold stw. rewrite !pset_pset, !pwords_pset. f_equal. unfold st. by apply insert_insert_ne.
  Qed.

Lemma stw_ok (s : S) live w v : pok s live -> covered live w -> pok (stw s w v) live.
  Proof.
    intros H Hw. apply pwrite_ok; [done|]. intros w'. destruct (Z.eq_dec w w') as [<-|Hne]; [by right|].
    left. by apply ld_st_ne.
  Qed.
End Laws.
