(* ===== verification/BuddyPool.v ===== *)
(** * The buddy allocator implements the allocation interface *)

From S2P Require Import Prelude Ixlist Pool BuddyInv BuddyOps BuddyBlocks BuddyTheorems.

Section BuddyPool.
  Context (free_list : Z) (AllocMem : Z -> gmap Z Z -> Z -> Z -> Z).

#[export] Instance buddy_ops : PoolOps bstate := {
    pwords := bm;
    pset := set_bm;
    palloc := b_alloc free_list AllocMem;
    pfree := b_free free_list
  }.

Lemma covered_in_live live w : covered live w -> in_live live w.
  Proof.
    intros (u & sz & Hu & Hw). exists u, sz. split; [done|]. unfold norm.
    destruct (Z.ltb_spec sz MINSIZE); lia.
  Qed.

Lemma fresh_new_memory s live r size s' C B :
    fresh_alloc free_list s live r size s' -> tiled free_list (held s') C B -> 0 <= size -> new_memory live r size.
  Proof.
    intros (H1 & H2 & H3 & H4 & _ & x & hsz & Hx & Hle & Hge) T Hs.
    assert (size <= norm size) by (unfold norm; destruct (Z.ltb_spec size MINSIZE); lia).
    destruct (t_held _ _ _ _ T _ _ Hx) as (_ & _ & Hb & _).
    split_and!; try done; [lia|]. intros w Hw Hc. apply (H4 w); [lia|]. by apply covered_in_live.
  Qed.

(** Any number of words of the live allocations may change at once. *)
Lemma write_all_ok s live m :
    ok free_list s live -> (forall w, ld m w = ld (bm s) w \/ in_live live w) -> ok free_list (set_bm s m) live.
  Proof.
    intros (C & B & I & L) Hw. exists C, B. split; [|by destruct L].
    assert (forall w, owned free_list B w -> ld m w = ld (bm s) w) as Hown.
    { intros w Ho. destruct (Hw w) as [?|Hl]; [done|]. destruct (live_not_owned _ _ _ _ _ _ I L Hl Ho). }
    destruct I as (T & R & K). split; [done|]. split; [|done].
    cbn [bm set_bm]. eapply (rep_same_free free_list (bm s)); try done.
    - intros a b p Hb Hf Hp. destruct (r_header _ _ _ _ R _ _ _ Hb Hp) as [H1 H2]. rewrite Hf in H1.
      assert (owned free_list B a) as Ho by (right; exists a, b; auto).
      by rewrite (get_pool_ext (bm s)), (get_exec_ext (bm s)) by auto.
    - intros w' Hw'. left. auto.
  Qed.

#[export] Instance buddy_laws : AllocMem_ok AllocMem -> PoolLaws bstate (ok free_list).
  Proof.
    intros HA. split.
    - done.
    - done.
    - intros s live size pool Hok Hp.
      destruct (alloc_ok free_list AllocMem HA s live size pool Hok) as (r & s' & E & Hr & Hw); [by destruct Hp; subst; [left|right]|].
      exists r, s'. split; [done|]. split; [|by intros w Hc; apply Hw, covered_in_live].
      destruct Hr as [?|(Hr & Hs & (C & B & I & L) & Hf)]; [by left|right].
      split; [done|]. split; [done|]. split; [by exists C, B|].
      eapply fresh_new_memory; [done|apply I|done].
    - intros s live u size Hok Hu. destruct (free_ok free_list s live u size Hok Hu) as (s' & E & Hok' & Hw).
      exists s'. split; [done|]. split; [done|]. intros w Hc. by apply Hw, covered_in_live.
    - intros s live m Hok Hc. apply write_all_ok; [done|]. intros w.
      destruct (Hc w); [by left|right; by apply covered_in_live].
  Qed.
End BuddyPool.
