(* ===== verification/Heap.v ===== *)
(** * The heap of a process: model and invariant

    Models library/malloc.c, library/kmalloc.c and stdlib/calloc.c on top of a [Pool].
    The headers of the blocks, their guards, the list of a process and its counter
    are words of memory.  The invariant [HeapInv]: each block of the process is a
    live allocation of the pool with its header, guards and list links in place, and
    the counter is their total. *)

From S2P Require Import Prelude Ixlist Pool.
Import Ixlist.

Module Heap.

(** ** Constants *)

Definition MAGIC1 : Z := 0x55555555.
Definition MAGIC2 : Z := 0xaaaaaaaa.
Definition MEMALIGN_MAGIC : Z := 0xdd.
Definition PAGESIZE : Z := 4096.
Definition ix_watch_availmem : Z := 0x40000.
Definition ix_catch_failed_malloc : Z := 0x80000.
Definition ix_kill_app_on_failed_malloc : Z := 0x100000.

(** struct mem_block: node (next, prev), size, magic[2], realblock[1]. *)
Definition SIZEOF_MEM_BLOCK : Z := 24.
Definition SIZEOF_MEMALIGN_PTR : Z := 4.
Definition OFF_SIZE : Z := 8.
Definition OFF_MAGIC : Z := 12.
Definition OFF_REALBLOCK : Z := 20.

(** struct malloc_data: the list and the number of bytes in use. *)
Definition OFF_USED : Z := 8.

(** [(size + 3) & ~3] on a 32-bit word. *)
Definition round4 (size : Z) : Z := Z.land (u32 (size + 3)) (u32 (Z.lnot 3)).

(** struct memalign_ptr: the magic in the high byte, the distance below. *)
Definition tag_magic (w : Z) : Z := Z.shiftr w 24.
Definition tag_alignment (w : Z) : Z := Z.land w (Z.ones 24).
Definition mk_tag (alignment : Z) : Z := Z.lor (Z.shiftl MEMALIGN_MAGIC 24) (Z.land alignment (Z.ones 24)).

(** ** blt_handler

    [ix_flags]: the flags of the library; [black]: what BlacklistedTaskFlags
    answers, [2^32 - 1] for a task that is not listed. *)
Record config := mk_config { ix_flags : Z; black : Z }.

Inductive verdict := Retry | Abort | GiveUp.

Definition set_from (ix bl f flags : Z) : Z :=
  let flags := if bset ix f then bor flags f else flags in
  if negb (bl =? 2 ^ 32 - 1) then
    if bset bl f then bor flags f else if bset flags f then bclr flags f else flags
  else flags.

(** The result is the verdict, *bltf, *flags and the answers left. *)
Definition blt_handler (cfg : config) (bltf flags : Z) (answers : list bool) : verdict * Z * Z * list bool :=
  let '(bltf, flags) :=
    if bltf =? 1 then
      (black cfg,
       set_from (ix_flags cfg) (black cfg) ix_kill_app_on_failed_malloc
         (set_from (ix_flags cfg) (black cfg) ix_catch_failed_malloc flags))
    else (bltf, flags) in
  let '(again, answers) :=
    if bset flags ix_catch_failed_malloc then
      match answers with [] => (false, []) | a :: answers => (a, answers) end
    else (false, answers) in
  (if again then Retry else if bset flags ix_kill_app_on_failed_malloc then Abort else GiveUp,
   bltf, flags, answers).

Section Malloc.
Context {S : Type} `{!PoolOps S}.
Context (cfg : config).

(** [mdp]: the address u.u_mdp of the malloc data in use. *)
Context (mdp : Z).

(** ** malloc *)

Fixpoint malloc_retry (fuel : nat) (bltf flags : Z) (answers : list bool) (size : Z) (s : S) : outcome S Z :=
  match fuel with
  | O => Diverge
  | Datatypes.S fuel =>
    let* (res, s) := palloc s (s32 (size + SIZEOF_MEM_BLOCK)) 0 in
    if negb (res =? 0) then
      let s := stw s (res + OFF_SIZE) size in
      let s := stw s (res + OFF_MAGIC) MAGIC1 in
      let s := stw s (res + OFF_MAGIC + 4) MAGIC1 in
      let s := stw s (res + OFF_REALBLOCK + size) MAGIC2 in
      let s := pset s (ixaddtail (pwords s) mdp res) in
      let s := stw s (mdp + OFF_USED) (u32 (ldw s (mdp + OFF_USED) + size)) in
      Ret (res + OFF_REALBLOCK) s
    else
      let '(v, bltf, flags, answers) := blt_handler cfg bltf flags answers in
      match v with
      | Retry => malloc_retry fuel bltf flags answers size s
      | Abort => Panic "abort"
      | GiveUp => Ret 0 s
      end
  end.

Definition malloc (answers : list bool) (size : Z) (s : S) : outcome S Z :=
  let size := u32 size in
  let size := if size =? 0 then 4 else size in
  if s32 size <=? 0 then Ret 0 s
  else malloc_retry (Datatypes.S (length answers)) 1 0 answers (round4 size) s.

(** ** free *)

Definition block_of (s : S) (p : Z) : Z :=
  let block := p - OFF_REALBLOCK in
  if tag_magic (ldw s (p - 4)) =? MEMALIGN_MAGIC then block - tag_alignment (ldw s (p - 4)) else block.

(** The checks of free and realloc; [None]: the block is intact. *)
Definition check_block (who : string) (s : S) (block : Z) : option string :=
  if bset block 1 || negb (ldw s (block + OFF_MAGIC) =? MAGIC1) || negb (ldw s (block + OFF_MAGIC + 4) =? MAGIC1)
  then Some (who ++ ": start of block corrupt!")%string
  else if negb (ldw s (block + OFF_REALBLOCK + ldw s (block + OFF_SIZE)) =? MAGIC2)
  then Some (who ++ ": end of block corrupt!")%string
  else None.

(** Takes the block out of the list and gives it back. *)
Definition drop_block (block : Z) (s : S) : outcome S () :=
  let s := pset s (ixremove (pwords s) mdp block) in
  let s := stw s (mdp + OFF_USED) (u32 (ldw s (mdp + OFF_USED) - ldw s (block + OFF_SIZE))) in
  pfree s block (s32 (ldw s (block + OFF_SIZE) + SIZEOF_MEM_BLOCK)).

Definition free (p : Z) (s : S) : outcome S () :=
  if p =? 0 then Ret () s
  else
    let block := block_of s p in
    if negb (p mod 4 =? 0) || (block mod 4 =? 2) then Fault
    else
      match check_block "free" s block with
      | Some msg => Panic msg
      | None => drop_block block s
      end.

(** ** memalign, valloc *)

Definition memalign (answers : list bool) (alignment size : Z) (s : S) : outcome S Z :=
  let* (p, s) := malloc answers (u32 (size + alignment + SIZEOF_MEMALIGN_PTR)) s in
  if p =? 0 then Ret p s
  else if Z.land p (alignment - 1) =? 0 then Ret p s
  else
    let al_start := u32 (Z.land (p + alignment - 1) (- alignment)) in
    if negb (al_start mod 4 =? 0) then Fault
    else Ret al_start (stw s (al_start - 4) (mk_tag (al_start - p))).

Definition valloc (answers : list bool) (size : Z) (s : S) : outcome S Z := memalign answers PAGESIZE size s.

(** ** realloc *)

(** CopyMemQuick: [n] words from [src] to [dst]. *)
Fixpoint copy_words (n : nat) (src dst : Z) (s : S) : S :=
  match n with
  | O => s
  | Datatypes.S n => copy_words n (src + 4) (dst + 4) (stw s dst (ldw s src))
  end.

Definition realloc (answers : list bool) (p size : Z) (s : S) : outcome S Z :=
  let size := u32 size in
  if p =? 0 then malloc answers size s
  else if size =? 0 then let* (_r, s) := free p s in Ret 0 s
  else
    let block := block_of s p in
    if negb (p mod 4 =? 0) || (block mod 4 =? 2) then Fault
    else
      match check_block "realloc" s block with
      | Some msg => Panic msg
      | None =>
        if size <=? ldw s (block + OFF_SIZE) then Ret p s
        else
          let* (res, s) := malloc answers size s in
          if negb (res =? 0) then
            let s := pset s (ixremove (pwords s) mdp block) in
            let s := copy_words (Z.to_nat (ldw s (block + OFF_SIZE) / 4)) p res s in
            let s := stw s (mdp + OFF_USED) (u32 (ldw s (mdp + OFF_USED) - ldw s (block + OFF_SIZE))) in
            let* (_r, s) := pfree s block (s32 (ldw s (block + OFF_SIZE) + SIZEOF_MEM_BLOCK)) in
            Ret res s
          else Ret res s
      end.

(** ** calloc *)

Fixpoint zero_words (n : nat) (p : Z) (s : S) : S :=
  match n with
  | O => s
  | Datatypes.S n => zero_words n (p + 4) (stw s p 0)
  end.

(** bzero: whole words, then the first bytes of the last word. *)
Definition bzero (p size : Z) (s : S) : S :=
  let s := zero_words (Z.to_nat (size / 4)) p s in
  let r := size mod 4 in
  if r =? 0 then s else stw s (p + size / 4 * 4) (Z.land (ldw s (p + size / 4 * 4)) (Z.ones (8 * (4 - r)))).

Definition calloc (answers : list bool) (num size : Z) (s : S) : outcome S Z :=
  let size := u32 (size * num) in
  let* (p, s) := malloc answers size s in
  Ret p (if negb (p =? 0) then bzero p size s else s).

(** ** all_free *)

Fixpoint all_free_loop (fuel : nat) (b : Z) (s : S) : outcome S () :=
  match fuel with
  | O => Diverge
  | Datatypes.S fuel =>
    if b =? 0 then Ret () s
    else
      let nb := ldw s (n_next b) in
      let* (_r, s) := pfree s b (s32 (ldw s (b + OFF_SIZE) + SIZEOF_MEM_BLOCK)) in
      all_free_loop fuel nb s
  end.

(** [own]: the address of u.u_md. *)
Definition all_free (fuel : nat) (own : Z) (s : S) : outcome S () :=
  let* (_r, s) := all_free_loop fuel (ldw s (l_head own)) s in
  Ret () (pset s (ixnewlist (pwords s) own)).

(** ** library/kmalloc.c *)

Definition kmalloc (size : Z) (s : S) : outcome S Z :=
  let size := round4 size in
  let* (res, s) := palloc s (s32 (size + 4)) 1 in
  if negb (res =? 0) then Ret (res + 4) (stw s res size) else Ret res s.

Definition kfree (p : Z) (s : S) : outcome S () :=
  if p =? 0 then Ret () s
  else pfree s (p - 4) (s32 (ldw s (p - 4) + 4)).

Definition krealloc (p size : Z) (s : S) : outcome S Z :=
  if p =? 0 then kmalloc size s
  else
    let size := round4 size in
    if size <=? ldw s (p - 4) then Ret p s
    else
      let* (res, s) := palloc s (s32 (size + 4)) 1 in
      if negb (res =? 0) then
        let s := stw s res size in
        let s := copy_words (Z.to_nat (ldw s (p - 4) / 4)) p (res + 4) s in
        let* (_r, s) := kfree p s in
        Ret (res + 4) s
      else Ret res s.
End Malloc.
End Heap.

Import Heap.

Section HeapInv.
  Context {S : Type} `{HL : PoolLaws S pok} (mdp : Z).
  Implicit Types (s : S) (L : gmap Z Z) (bs : list (Z * Z)) (b u w sz : Z).

Definition disj L : Prop :=
    forall u v a b, L !! u = Some a -> L !! v = Some b -> u <> v -> u + a <= v \/ v + b <= u.

Definition total bs : Z := foldr (fun (x : Z * Z) t => x.2 + t) 0 bs.

(** An intact block. *)
Record block_ok s b sz : Prop := {
    bk_size : ldw s (b + OFF_SIZE) = sz;
    bk_magic : ldw s (b + OFF_MAGIC) = MAGIC1 /\ ldw s (b + OFF_MAGIC + 4) = MAGIC1;
    bk_end : ldw s (b + OFF_REALBLOCK + sz) = MAGIC2
  }.

Definition fits b sz : Prop :=
    0 < b /\ (4 | b) /\ (4 | sz) /\ 0 < sz /\ sz + SIZEOF_MEM_BLOCK < 2 ^ 31 /\ b + sz + SIZEOF_MEM_BLOCK <= 2 ^ 32.

Record heap_ok s L bs : Prop := {
    h_pok : pok s L;
    h_pos u sz : L !! u = Some sz -> 0 < sz;
    h_disj : disj L;
    h_mdp : 0 < mdp /\ (4 | mdp);
    h_home : exists u sz, L !! u = Some sz /\ u <= mdp /\ mdp + 12 <= u + sz /\ u ∉ bs.*1;
    h_list : dll (pwords s) mdp (bs.*1);
    h_nodup : NoDup (bs.*1);
    h_live b sz : (b, sz) ∈ bs -> L !! b = Some (sz + SIZEOF_MEM_BLOCK) /\ fits b sz;
    h_block b sz : (b, sz) ∈ bs -> block_ok s b sz;
    h_used : ldw s (mdp + OFF_USED) = u32 (total bs)
  }.

(** ** Words and the allocations they lie in *)

Lemma covered_unique L u v a b w :
    disj L -> L !! u = Some a -> L !! v = Some b -> u <= w < u + a -> v <= w < v + b -> u = v.
  Proof. intros HD Hu Hv ??. destruct (Z.eq_dec u v) as [|Hne]; [done|]. destruct (HD u v a b); auto; lia. Qed.

Lemma disj_insert L r size : disj L -> (forall u sz, L !! u = Some sz -> 0 < sz) -> 0 < size ->
    new_memory L r size -> disj (<[r := size]> L).
  Proof.
    intros HD Hpos Hs (Hr & _ & _ & Hn & Hc).
    assert (forall v b, L !! v = Some b -> r + size <= v \/ v + b <= r) as Hap.
    { intros v b Hv. pose proof (Hpos _ _ Hv). destruct (Z_le_gt_dec (r + size) v); [by left|].
      destruct (Z_le_gt_dec (v + b) r); [by right|]. exfalso.
      apply (Hc (Z.max r v)); [lia|]. exists v, b. split; [done|lia]. }
    intros u v a b. rewrite !lookup_insert_Some. intros [[<- <-]|[Hu1 Hu]] [[<- <-]|[Hv1 Hv]] Hne; [done| | |].
    - destruct (Hap _ _ Hv); lia.
    - destruct (Hap _ _ Hu); lia.
    - by apply HD.
  Qed.

Lemma disj_delete L u : disj L -> disj (delete u L).
  Proof. intros HD v w a b. rewrite !lookup_delete_Some. intros [_ ?] [_ ?]. by apply HD. Qed.

(** The words that hold the bookkeeping. *)
Definition meta bs w : Prop :=
    (exists n, n ∈ mdp :: bs.*1 /\ (w = n \/ w = n + 4)) \/ w = mdp + OFF_USED \/
    exists b sz, (b, sz) ∈ bs /\
      (w = b + OFF_SIZE \/ w = b + OFF_MAGIC \/ w = b + OFF_MAGIC + 4 \/ w = b + OFF_REALBLOCK + sz).

(** Bookkeeping of a block is in the block, and that of the list in its home. *)
Lemma meta_cases s L bs w :
    heap_ok s L bs -> meta bs w ->
    (mdp <= w < mdp + 12) \/ exists b sz, (b, sz) ∈ bs /\
      (b <= w < b + OFF_REALBLOCK \/ w = b + OFF_REALBLOCK + sz).
  Proof.
    intros H [(n & Hn & Hw)|[->|(b & sz & Hb & Hw)]].
    - apply elem_of_cons in Hn as [->|Hn]; [left; lia|]. right.
      apply list_elem_of_fmap in Hn as ([b sz] & -> & Hb). exists b, sz. split; [done|]. unfold OFF_REALBLOCK. cbn in Hw. lia.
    - left. unfold OFF_USED. lia.
    - right. exists b, sz. split; [done|]. unfold OFF_SIZE, OFF_MAGIC, OFF_REALBLOCK in *. lia.
  Qed.

Lemma meta_covered s L bs w : heap_ok s L bs -> meta bs w -> covered L w.
  Proof.
    intros H Hm. destruct (meta_cases _ _ _ _ H Hm) as [Hw|(b & sz & Hb & Hw)].
    - destruct (h_home _ _ _ H) as (u & sz & Hu & ? & ? & _). exists u, sz. split; [done|lia].
    - destruct (h_live _ _ _ H _ _ Hb) as [Hl (_ & _ & _ & Hs & _)]. exists b, (sz + SIZEOF_MEM_BLOCK).
      unfold OFF_REALBLOCK, SIZEOF_MEM_BLOCK in *. split; [done|lia].
  Qed.

(** The data of a block, or any other live memory but the list header, is not bookkeeping. *)
Lemma data_not_meta s L bs b sz w :
    heap_ok s L bs -> (b, sz) ∈ bs -> b + OFF_REALBLOCK <= w < b + OFF_REALBLOCK + sz -> ~ meta bs w.
  Proof.
    intros H Hb Hw Hm. destruct (h_live _ _ _ H _ _ Hb) as [Hl _].
    assert (b <= w < b + (sz + SIZEOF_MEM_BLOCK)) as Hin by (unfold OFF_REALBLOCK, SIZEOF_MEM_BLOCK in *; lia).
    destruct (meta_cases _ _ _ _ H Hm) as [Hw2|(b2 & sz2 & Hb2 & Hw2)].
    - destruct (h_home _ _ _ H) as (u & su & Hu & ? & ? & Hnu).
      assert (u = b) as -> by (eapply (covered_unique L); [apply H| | | |]; eauto; lia).
      apply Hnu. apply list_elem_of_fmap. by exists (b, sz).
    - destruct (h_live _ _ _ H _ _ Hb2) as [Hl2 (_ & _ & _ & ? & _)].
      assert (b2 = b) as -> by (eapply (covered_unique L); [apply H|exact Hl2|exact Hl| |done];
        unfold OFF_REALBLOCK, SIZEOF_MEM_BLOCK in *; lia).
      assert (sz2 = sz) as -> by (rewrite Hl in Hl2; injection Hl2; lia). unfold OFF_REALBLOCK in *. lia.
  Qed.

(** ** Changes that keep the invariant *)

Lemma dll_meta s bs m :
    dll (pwords s) mdp (bs.*1) -> (forall w, meta bs w -> ld m w = ldw s w) -> dll m mdp (bs.*1).
  Proof. intros H Hm. eapply dll_ext; [exact H|]. intros a Ha. apply Hm. by left. Qed.

Lemma block_ext s s' b sz :
    block_ok s b sz ->
    (forall w, w = b + OFF_SIZE \/ w = b + OFF_MAGIC \/ w = b + OFF_MAGIC + 4 \/ w = b + OFF_REALBLOCK + sz ->
       ldw s' w = ldw s w) ->
    block_ok s' b sz.
  Proof. intros [Hs [H1 H2] He] Hw. split; [rewrite Hw; auto|rewrite !Hw; auto 6|rewrite Hw; auto 6]. Qed.

(** The state and the live allocations change, the bookkeeping does not. *)
Lemma heap_ext s L bs s' L' :
    heap_ok s L bs -> pok s' L' -> (forall u sz, L' !! u = Some sz -> 0 < sz) -> disj L' ->
    (forall u sz, L !! u = Some sz -> u ∈ bs.*1 \/ (u <= mdp < u + sz) -> L' !! u = Some sz) ->
    (forall w, meta bs w -> ldw s' w = ldw s w) -> heap_ok s' L' bs.
  Proof.
    intros H Hp Hpos Hd HL' Hw. split; try done.
    - apply H.
    - destruct (h_home _ _ _ H) as (u & sz & Hu & ? & ? & ?). exists u, sz. split; [|done].
      apply HL'; [done|]. right. lia.
    - by eapply dll_meta, Hw; apply H.
    - apply H.
    - intros b sz Hb. destruct (h_live _ _ _ H _ _ Hb) as [Hl ?]. split; [|done]. apply HL'; [done|].
      left. apply list_elem_of_fmap. by exists (b, sz).
    - intros b sz Hb. eapply block_ext; [by eapply h_block|]. intros w ?. apply Hw. right. right. by exists b, sz.
    - rewrite Hw; [by eapply h_used|]. right. by left.
  Qed.

Lemma heap_write s L bs w v : heap_ok s L bs -> covered L w -> ~ meta bs w -> heap_ok (stw s w v) L bs.
  Proof.
    intros H Hc Hm. eapply heap_ext; [exact H|apply stw_ok; [apply H|done]|apply H|apply H|done|].
    intros w' Hw'. apply ldw_stw_ne. intros ->. done.
  Qed.

(** ** The geometry of the list *)

Record geo L (ns : list Z) : Prop := {
    g_disj : disj L;
    g_home : exists u sz, L !! u = Some sz /\ u <= mdp /\ mdp + 12 <= u + sz /\ u ∉ ns;
    g_block n : n ∈ ns -> exists sz, L !! n = Some sz /\ SIZEOF_MEM_BLOCK <= sz;
    g_nodup : NoDup ns
  }.

Lemma heap_geo s L bs : heap_ok s L bs -> geo L (bs.*1).
  Proof.
    intros H. split; try apply H. intros n ([b sz] & -> & Hb)%list_elem_of_fmap.
    destruct (h_live _ _ _ H _ _ Hb) as [Hl (_ & _ & _ & ? & _)]. eexists. split; [done|]. lia.
  Qed.

(** The allocation a header or node lies in: its home for the header. *)
Lemma geo_place L ns n : geo L ns -> n ∈ mdp :: ns ->
    exists u sz, L !! u = Some sz /\ u <= n /\ n + 12 <= u + sz /\ ((n = mdp /\ u ∉ ns) \/ (n ∈ ns /\ u = n)).
  Proof.
    intros G [->|Hn]%elem_of_cons.
    - destruct (g_home _ _ G) as (u & sz & ? & ? & ? & ?). exists u, sz. split_and!; auto.
    - destruct (g_block _ _ G _ Hn) as (sz & Hs & Hz). exists n, sz. unfold SIZEOF_MEM_BLOCK in *.
      split_and!; auto; lia.
  Qed.

Lemma geo_same L ns n n' w :
    geo L ns -> n ∈ mdp :: ns -> n' ∈ mdp :: ns -> n <= w < n + 12 -> n' <= w < n' + 12 -> n = n'.
  Proof.
    intros G Hn Hn' Hw Hw'. destruct (geo_place _ _ _ G Hn) as (u & a & Hu & ? & ? & Hc).
    destruct (geo_place _ _ _ G Hn') as (v & b & Hv & ? & ? & Hc').
    assert (u = v) by (apply (covered_unique L u v a b w); [by eapply g_disj|done|done|lia|lia]).
    destruct Hc as [[-> Hnu]|[? ->]], Hc' as [[-> Hnv]|[? ->]]; subst; done.
  Qed.

Lemma geo_not_mdp L ns : geo L ns -> mdp ∉ ns.
  Proof.
    intros G Hin. destruct (g_home _ _ G) as (u & a & Hu & ? & ? & Hnu).
    destruct (g_block _ _ G _ Hin) as (sz & Hs & Hz). unfold SIZEOF_MEM_BLOCK in *.
    assert (u = mdp) by (eapply (covered_unique L _ _ _ _ mdp); [apply G|exact Hu|exact Hs|lia|lia]). by subst.
  Qed.

Lemma geo_apart L ns : geo L ns -> apart mdp ns.
  Proof.
    intros G. split.
    - apply NoDup_cons. split; [by eapply geo_not_mdp|apply G].
    - intros n n' Hn Hn' ->. assert (n = n + 4); [|lia]. apply (geo_same L ns _ _ (n + 4)); auto; lia.
  Qed.

Lemma geo_not_owned L ns b sz w :
    geo L ns -> b ∈ ns -> L !! b = Some sz -> b + 8 <= w < b + sz -> ~ owns mdp ns w.
  Proof.
    intros G Hb Hl Hw (n & Hn & Hwn). destruct (geo_place _ _ _ G Hn) as (u & a & Hu & ? & ? & Hc).
    assert (u = b) as -> by (apply (covered_unique L u b a sz w); [by eapply g_disj|done|done|lia|lia]).
    destruct Hc as [[_ ?]|[_ ->]]; [done|]. lia.
  Qed.

Lemma geo_used_not_owned L ns : geo L ns -> ~ owns mdp ns (mdp + OFF_USED).
  Proof.
    intros G (n & Hn & Hwn). unfold OFF_USED in *.
    assert (n = mdp); [|lia]. apply (geo_same L ns _ _ (mdp + 8)); auto; [set_solver|lia|lia].
  Qed.

Lemma geo_owned L ns w : geo L ns -> owns mdp ns w -> covered L w.
  Proof.
    intros G (n & Hn & Hw). destruct (geo_place _ _ _ G Hn) as (u & a & Hu & ? & ? & _).
    exists u, a. split; [done|]. lia.
  Qed.

#[export] Instance owns_dec l ns w : Decision (owns l ns w).
  Proof.
    destruct (decide (Exists (fun n => w = n \/ w = n + 4) (l :: ns))) as [H|H]; [left|right].
    - apply Exists_exists in H as (n & ? & ?). by exists n.
    - intros (n & ? & ?). apply H, Exists_exists. by exists n.
  Qed.

(** A list operation that touches only the words of the list. *)
Lemma pok_list s L ns m :
    pok s L -> geo L ns -> (forall w, ~ owns mdp ns w -> ld m w = ldw s w) -> pok (pset s m) L.
  Proof.
    intros Hp G Hf. apply pwrite_ok; [done|]. intros w.
    destruct (decide (owns mdp ns w)) as [Ho|Ho]; [right; by eapply geo_owned|left; by apply Hf].
  Qed.

Lemma ldw_pset s m w : ldw (pset s m) w = ld m w.
  Proof. unfold ldw. by rewrite pwords_pset. Qed.

(** The sum behind the counter. *)
Lemma total_app bs1 bs2 : total (bs1 ++ bs2) = total bs1 + total bs2.
  Proof. induction bs1 as [|x l IH]; [done|]. cbn [total app foldr] in *. unfold total in *. cbn [foldr app]. rewrite IH. lia. Qed.

Lemma u32_add_l a b : u32 (u32 a + b) = u32 (a + b).
  Proof. wrap_lia. Qed.

Lemma u32_sub_l a b : u32 (u32 a - b) = u32 (a - b).
  Proof. wrap_lia. Qed.
End HeapInv.
