(* ===== verification/HeapOps.v ===== *)
(** * Heap: the operations keep the invariant *)

From S2P Require Import Prelude Ixlist Pool Heap.
Import Ixlist Heap.

Section HeapOps.
  Context {S : Type} `{HL : PoolLaws S pok} (cfg : config) (mdp : Z).
  Implicit Types (s : S) (L : gmap Z Z) (bs : list (Z * Z)) (b u w sz : Z).
  Notation heap_ok := (heap_ok (pok := pok) mdp).
  Notation meta := (meta mdp).

Lemma meta_app bs1 bs2 w : meta (bs1 ++ bs2) w -> meta bs1 w \/ meta bs2 w.
  Proof.
    intros [(n & Hn & Hw)|[->|(b & sz & Hb & Hw)]].
    - rewrite fmap_app in Hn. apply elem_of_cons in Hn as [->|[Hn|Hn]%elem_of_app];
        [left|left|right]; left; exists n || exists mdp; split; auto; set_solver.
    - left. right. by left.
    - apply elem_of_app in Hb as [Hb|Hb]; [left|right]; right; right; by exists b, sz.
  Qed.

Lemma meta_mono bs1 bs2 w : (forall x, x ∈ bs1 -> x ∈ bs2) -> meta bs1 w -> meta bs2 w.
  Proof.
    intros Hsub [(n & Hn & Hw)|[->|(b & sz & Hb & Hw)]].
    - left. exists n. split; [|done]. apply elem_of_cons in Hn as [->|Hn]; [set_solver|].
      apply elem_of_cons. right. apply list_elem_of_fmap in Hn as (x & -> & Hx). apply list_elem_of_fmap. eauto.
    - right. by left.
    - right. right. exists b, sz. eauto.
  Qed.

Lemma fst_elem bs b sz : (b, sz) ∈ bs -> b ∈ bs.*1.
  Proof. intros H. apply list_elem_of_fmap. by exists (b, sz). Qed.

(** The words of a block behind its links are neither list words nor the counter. *)
Lemma block_word_kept s L bs b sz w ns :
    heap_ok s L bs -> geo mdp L ns -> L !! b = Some sz -> b ∈ ns -> b + 8 <= w < b + sz ->
    ~ owns mdp ns w /\ w <> mdp + OFF_USED.
  Proof.
    intros H G Hl Hb Hw. split; [by eapply geo_not_owned|]. intros ->.
    destruct (g_home _ _ _ G) as (u & a & Hu & ? & ? & Hnu). unfold OFF_USED in *.
    assert (u = b); [|by subst].
    apply (covered_unique L u b a sz (mdp + 8)); [by eapply g_disj|done|done|lia|lia].
  Qed.

(** ** A block enters the list *)

Definition linked_in (r size : Z) (s : S) : S :=
    let s := pset s (ixaddtail (pwords s) mdp r) in
    stw s (mdp + OFF_USED) (u32 (ldw s (mdp + OFF_USED) + size)).

Lemma insert_block s L bs r size :
    heap_ok s L bs -> L !! r = Some (size + SIZEOF_MEM_BLOCK) -> r ∉ bs.*1 -> fits r size ->
    ~ (r <= mdp < r + (size + SIZEOF_MEM_BLOCK)) -> block_ok s r size ->
    heap_ok (linked_in r size s) L (bs ++ [(r, size)]) /\
    (forall w, ~ meta (bs ++ [(r, size)]) w -> ldw (linked_in r size s) w = ldw s w).
  Proof.
    intros H Hr Hnr Hfit Hout Hblk.
    assert (0 < r) as Hr0 by apply Hfit. destruct (h_mdp _ _ _ _ H) as [Hm0 _].
    assert (geo mdp L (bs.*1 ++ [r])) as G.
    { pose proof (heap_geo _ _ _ _ H) as G. split.
      - apply G.
      - destruct (g_home _ _ _ G) as (u & sz & Hu & ? & ? & Hnu). exists u, sz. split_and!; try done.
        rewrite not_elem_of_app, list_elem_of_singleton. split; [done|]. intros ->. rewrite Hr in Hu.
        injection Hu as <-. lia.
      - intros n [Hn|Hn]%elem_of_app; [by apply G|]. apply list_elem_of_singleton in Hn as ->.
        eexists. split; [done|]. destruct Hfit as (_ & _ & _ & ? & _). lia.
      - apply NoDup_app. split; [apply G|]. split; [|apply NoDup_singleton]. set_solver. }
    destruct (ixaddtail_spec (pwords s) mdp r (bs.*1)) as [Hd Hf]; [apply H|by eapply geo_apart|done|done|].
    set (s1 := pset s (ixaddtail (pwords s) mdp r)).
    assert (forall w, ~ owns mdp (bs.*1 ++ [r]) w -> ldw s1 w = ldw s w) as Hf1.
    { intros w Hw. unfold s1. rewrite ldw_pset. by apply Hf. }
    assert (pok s1 L) as Hp1 by (eapply pok_list; [apply H|exact G|exact Hf]).
    assert (ldw s1 (mdp + OFF_USED) = u32 (total bs)) as Hu1.
    { rewrite Hf1 by (by eapply geo_used_not_owned). by eapply h_used. }
    assert (forall b sz, (b, sz) ∈ bs ++ [(r, size)] ->
              L !! b = Some (sz + SIZEOF_MEM_BLOCK) /\ fits b sz /\ block_ok s b sz) as Hall.
    { intros b sz [Hb|Hb]%elem_of_app.
      - destruct (h_live _ _ _ _ H _ _ Hb). split_and!; try done. by eapply h_block.
      - apply list_elem_of_singleton in Hb as [= -> ->]. done. }
    assert ((bs ++ [(r, size)]).*1 = bs.*1 ++ [r]) as Hfst by by rewrite fmap_app.
    change (linked_in r size s) with (stw s1 (mdp + OFF_USED) (u32 (ldw s1 (mdp + OFF_USED) + size))).
    split.
    - split.
      + apply stw_ok; [done|]. destruct (h_home _ _ _ _ H) as (u & sz & Hu & ? & ? & _). exists u, sz.
        unfold OFF_USED. split; [done|lia].
      + apply H.
      + apply H.
      + apply H.
      + rewrite Hfst. apply G.
      + rewrite Hfst. eapply dll_ext; [exact Hd|]. intros a Ha. change (ld (pwords (stw s1 (mdp + OFF_USED)
          (u32 (ldw s1 (mdp + OFF_USED) + size)))) a) with (ldw (stw s1 (mdp + OFF_USED) (u32 (ldw s1 (mdp + OFF_USED) + size))) a).
        rewrite ldw_stw_ne; [unfold s1; by rewrite ldw_pset|]. intros <-. by eapply geo_used_not_owned.
      + rewrite Hfst. apply G.
      + intros b sz Hb. by destruct (Hall _ _ Hb) as (? & ? & _).
      + intros b sz Hb. destruct (Hall _ _ Hb) as (Hl & (_ & _ & _ & ? & _) & Hok).
        eapply block_ext; [exact Hok|]. intros w Hw.
        destruct (block_word_kept s L bs b (sz + SIZEOF_MEM_BLOCK) w (bs.*1 ++ [r]) H G Hl) as [Hno Hnu].
        { rewrite <- Hfst. by eapply fst_elem. }
        { unfold OFF_SIZE, OFF_MAGIC, OFF_REALBLOCK, SIZEOF_MEM_BLOCK in *. lia. }
        rewrite ldw_stw_ne by done. by apply Hf1.
      + rewrite ldw_stw_eq, Hu1, u32_add_l, total_app. cbn. f_equal. lia.
    - intros w Hw. rewrite ldw_stw_ne; [|intros <-; apply Hw; right; by left].
      apply Hf1. intros (n & Hn & Hwn). apply Hw. left. exists n. by rewrite Hfst.
  Qed.

(** ** A block leaves the list *)

Definition linked_out (b sz : Z) (s : S) : S :=
    let s := pset s (ixremove (pwords s) mdp b) in
    stw s (mdp + OFF_USED) (u32 (ldw s (mdp + OFF_USED) - sz)).

Lemma geo_sub L ns ns' : geo mdp L ns -> sublist ns' ns -> geo mdp L ns'.
  Proof.
    intros G Hs. assert (forall x, x ∈ ns' -> x ∈ ns) as Hin by (intros x Hx; by eapply elem_of_submseteq, sublist_submseteq).
    split.
    - apply G.
    - destruct (g_home _ _ _ G) as (u & sz & ? & ? & ? & ?). exists u, sz. split_and!; auto.
    - intros n Hn. apply G. auto.
    - eapply sublist_NoDup; [apply G|done].
  Qed.

Lemma remove_block s L bs1 b sz bs2 :
    heap_ok s L (bs1 ++ (b, sz) :: bs2) ->
    heap_ok (linked_out b sz s) L (bs1 ++ bs2) /\
    (forall w, ~ meta (bs1 ++ bs2) w -> ldw (linked_out b sz s) w = ldw s w) /\
    ldw (pset s (ixremove (pwords s) mdp b)) (b + OFF_SIZE) = sz /\ ldw (linked_out b sz s) (b + OFF_SIZE) = sz.
  Proof.
    intros H. set (bs := bs1 ++ (b, sz) :: bs2) in *.
    destruct (h_mdp _ _ _ _ H) as [Hm0 _].
    assert (bs.*1 = bs1.*1 ++ b :: bs2.*1) as Hfst by (unfold bs; by rewrite fmap_app).
    assert ((bs1 ++ bs2).*1 = bs1.*1 ++ bs2.*1) as Hfst' by by rewrite fmap_app.
    pose proof (heap_geo _ _ _ _ H) as G0. rewrite Hfst in G0.
    assert (geo mdp L (bs1.*1 ++ bs2.*1)) as G.
    { eapply geo_sub; [exact G0|]. apply sublist_app; [done|]. by apply sublist_cons. }
    assert ((b, sz) ∈ bs) as Hb by (unfold bs; set_solver).
    assert (forall x, x ∈ bs1 ++ bs2 -> x ∈ bs) as Hsub by (unfold bs; set_solver).
    destruct (ixremove_spec (pwords s) mdp (bs1.*1) b (bs2.*1)) as [Hd Hf];
      [rewrite <- Hfst; apply H|by eapply geo_apart|done|].
    set (s1 := pset s (ixremove (pwords s) mdp b)) in *.
    assert (forall w, ~ owns mdp (bs1.*1 ++ bs2.*1) w -> ldw s1 w = ldw s w) as Hf1.
    { intros w Hw. unfold s1. rewrite ldw_pset. by apply Hf. }
    assert (pok s1 L) as Hp1 by (eapply pok_list; [apply H|exact G|exact Hf]).
    assert (ldw s1 (mdp + OFF_USED) = u32 (total bs)) as Hu1.
    { rewrite Hf1 by (by eapply geo_used_not_owned). by eapply h_used. }
    assert (forall c z w, (c, z) ∈ bs ->
              w = c + OFF_SIZE \/ w = c + OFF_MAGIC \/ w = c + OFF_MAGIC + 4 \/ w = c + OFF_REALBLOCK + z ->
              ldw s1 w = ldw s w /\ w <> mdp + OFF_USED) as Hkeep.
    { intros c z w Hc Hw. destruct (h_live _ _ _ _ H _ _ Hc) as [Hl (_ & _ & _ & ? & _)].
      destruct (block_word_kept s L bs c (z + SIZEOF_MEM_BLOCK) w _ H G0 Hl) as [Hno Hnu].
      { rewrite <- Hfst. by eapply fst_elem. }
      { unfold OFF_SIZE, OFF_MAGIC, OFF_REALBLOCK, SIZEOF_MEM_BLOCK in *. lia. }
      split; [|done]. apply Hf1. intros (n & Hn & Hwn). apply Hno. exists n. split; [|done].
      rewrite elem_of_cons, elem_of_app, elem_of_cons in *. tauto. }
    assert (ldw s1 (b + OFF_SIZE) = sz) as Hsz.
    { destruct (Hkeep b sz (b + OFF_SIZE) Hb) as [-> _]; [by left|]. by destruct (h_block _ _ _ _ H _ _ Hb). }
    change (linked_out b sz s) with (stw s1 (mdp + OFF_USED) (u32 (ldw s1 (mdp + OFF_USED) - sz))).
    split; [|split; [|split; [done|]]].
    - split.
      + apply stw_ok; [done|]. destruct (h_home _ _ _ _ H) as (u & a & Hu & ? & ? & _). exists u, a.
        unfold OFF_USED. split; [done|lia].
      + apply H.
      + apply H.
      + apply H.
      + rewrite Hfst'. apply G.
      + rewrite Hfst'. eapply dll_ext; [exact Hd|]. intros a Ha.
        match goal with |- ld (pwords ?x) a = _ => change (ldw x a = ld (ixremove (pwords s) mdp b) a) end.
        rewrite ldw_stw_ne; [unfold s1; by rewrite ldw_pset|]. intros <-. by eapply geo_used_not_owned.
      + rewrite Hfst'. apply G.
      + intros c z Hc. by apply H, Hsub.
      + intros c z Hc. eapply block_ext; [by eapply h_block, Hsub|]. intros w Hw.
        destruct (Hkeep c z w (Hsub _ Hc) Hw) as [<- ?]. by rewrite ldw_stw_ne.
      + rewrite ldw_stw_eq, Hu1, u32_sub_l. unfold bs. rewrite !total_app.
        change (total ((b, sz) :: bs2)) with (sz + total bs2). f_equal. lia.
    - intros w Hw. rewrite ldw_stw_ne; [|intros <-; apply Hw; right; by left].
      apply Hf1. intros (n & Hn & Hwn). apply Hw. left. exists n. by rewrite Hfst'.
    - destruct (Hkeep b sz (b + OFF_SIZE) Hb) as [_ ?]; [by left|]. by rewrite ldw_stw_ne.
  Qed.

(** ** Sizes *)

Lemma round4_eq x : 0 <= x -> x + 3 < 2 ^ 32 -> round4 x = (x + 3) / 4 * 4.
  Proof.
    intros H0 H1. unfold round4. rewrite u32_id by (unfold is_u32; lia).
    change (u32 (Z.lnot 3)) with (Z.shiftl (Z.ones 30) 2).
    change 4 with (2 ^ 2). rewrite <- Z.shiftl_mul_pow2, <- Z.shiftr_div_pow2 by lia.
    apply Z.bits_inj'. intros k Hk. rewrite Z.land_spec, !Z.shiftl_spec by done.
    destruct (Z_lt_le_dec k 2).
    - rewrite !(Z.testbit_neg_r _ (k - 2)) by lia. apply andb_false_r.
    - rewrite Z.shiftr_spec by lia. replace (k - 2 + 2) with k by lia.
      destruct (Z_lt_le_dec k 32).
      + rewrite Z.ones_spec_low by lia. apply andb_true_r.
      + rewrite Z.ones_spec_high by lia. rewrite andb_false_r. symmetry.
        destruct (Z.eq_dec (x + 3) 0) as [->|]; [by rewrite Z.bits_0|].
        apply Z.bits_above_log2; [lia|]. apply Z.log2_lt_pow2; [lia|].
        eapply Z.lt_le_trans; [exact H1|]. apply Z.pow_le_mono_r; lia.
  Qed.

Lemma round4_spec x : 0 < x < 2 ^ 31 -> (4 | round4 x) /\ x <= round4 x <= x + 3 /\ round4 x <= 2 ^ 31.
  Proof.
    intros H. rewrite round4_eq by lia. split; [by eexists|]. Z.div_mod_to_equations; lia.
  Qed.

(** ** The requesters *)

Definition kill_on : Prop :=
    bset (ix_flags cfg) ix_kill_app_on_failed_malloc = true \/
    (black cfg <> 2 ^ 32 - 1 /\ bset (black cfg) ix_kill_app_on_failed_malloc = true).

Lemma bset_bor_pow2 a i k : 0 <= i -> 0 <= k -> bset (bor a (2 ^ i)) (2 ^ k) = bset a (2 ^ k) || (i =? k).
  Proof.
    intros Hi Hk. rewrite !bset_pow2 by done. unfold bor. rewrite Z.lor_spec. f_equal.
    destruct (Z.eqb_spec i k) as [->|Hne]; [by apply Z.pow2_bits_true|by apply Z.pow2_bits_false].
  Qed.

Lemma bset_bclr_pow2 a i k : 0 <= i -> 0 <= k -> bset (bclr a (2 ^ i)) (2 ^ k) = bset a (2 ^ k) && negb (i =? k).
  Proof.
    intros Hi Hk. rewrite !bset_pow2 by done. unfold bclr. rewrite Z.land_spec, Z.lnot_spec by done. f_equal.
    f_equal. destruct (Z.eqb_spec i k) as [->|Hne]; [by apply Z.pow2_bits_true|by apply Z.pow2_bits_false].
  Qed.

Lemma set_from_kill i f flags :
    0 <= i -> f = 2 ^ i ->
    bset (set_from (ix_flags cfg) (black cfg) f flags) ix_kill_app_on_failed_malloc = true ->
    bset flags ix_kill_app_on_failed_malloc = true \/ kill_on.
  Proof.
    intros Hi ->. unfold kill_on, set_from. change ix_kill_app_on_failed_malloc with (2 ^ 20).
    destruct (Z.eqb_spec i 20) as [->|Hne].
    - destruct (bset (ix_flags cfg) (2 ^ 20)) eqn:E; [by auto|].
      destruct (Z.eqb_spec (black cfg) (2 ^ 32 - 1)); cbn [negb]; [by auto|].
      destruct (bset (black cfg) (2 ^ 20)) eqn:E2; [by auto|].
      destruct (bset flags (2 ^ 20)) eqn:E3; [by auto|]. intros H'. congruence.
    - intros H. left. revert H.
      destruct (bset (ix_flags cfg) (2 ^ i)), (Z.eqb_spec (black cfg) (2 ^ 32 - 1)), (bset (black cfg) (2 ^ i));
        cbn [negb]; rewrite ?bset_bor_pow2, ?(proj2 (Z.eqb_neq i 20)), ?orb_false_r by done; try done;
        try (case_match; rewrite ?bset_bclr_pow2, ?bset_bor_pow2, ?(proj2 (Z.eqb_neq i 20)), ?andb_true_r, ?orb_false_r by done;
             done).
  Qed.

Lemma blt_handler_spec bltf flags answers v bltf' flags' answers' :
    blt_handler cfg bltf flags answers = (v, bltf', flags', answers') ->
    (bset flags ix_kill_app_on_failed_malloc = true -> kill_on) ->
    (bset flags' ix_kill_app_on_failed_malloc = true -> kill_on) /\
    (v = Retry -> (length answers' < length answers)%nat) /\ (v = Abort -> kill_on).
  Proof.
    unfold blt_handler. intros E Hk.
    destruct (if bltf =? 1 then _ else _) as [b2 f2] eqn:E2.
    assert (bset f2 ix_kill_app_on_failed_malloc = true -> kill_on) as Hk2.
    { destruct (bltf =? 1); injection E2 as <- <-; [|done]. intros H.
      apply (set_from_kill 20) in H as [H|?]; [|done|done|done].
      apply (set_from_kill 19) in H as [H|?]; [auto|done|done|done]. }
    destruct (bset f2 ix_catch_failed_malloc); [destruct answers as [|[|] answers]|];
      injection E as <- <- <- <-; (split; [done|]); cbn [length];
      split; try done; try lia; destruct (bset f2 ix_kill_app_on_failed_malloc); try done; auto.
  Qed.

(** ** malloc *)

(** A successful malloc: the block of [p] is new, and other memory is as before. *)
Record malloced s L bs (p size : Z) s' : Prop := {
    mc_new : new_memory L (p - OFF_REALBLOCK) (size + SIZEOF_MEM_BLOCK);
    mc_ok : heap_ok s' (<[p - OFF_REALBLOCK := size + SIZEOF_MEM_BLOCK]> L) (bs ++ [(p - OFF_REALBLOCK, size)]);
    mc_words w : covered L w -> ~ meta bs w -> ldw s' w = ldw s w
  }.

Lemma write_block s L bs r size s1 :
    heap_ok s L bs -> fits r size ->
    new_memory L r (size + SIZEOF_MEM_BLOCK) -> pok s1 (<[r := size + SIZEOF_MEM_BLOCK]> L) ->
    (forall w, covered L w -> ldw s1 w = ldw s w) ->
    let s2 := stw s1 (r + OFF_SIZE) size in
    let s2 := stw s2 (r + OFF_MAGIC) MAGIC1 in
    let s2 := stw s2 (r + OFF_MAGIC + 4) MAGIC1 in
    let s2 := stw s2 (r + OFF_REALBLOCK + size) MAGIC2 in
    malloced s L bs (r + OFF_REALBLOCK) size (linked_in r size s2).
  Proof.
    intros H Hfit Hnew Hp1 Hw1. set (L' := <[r := size + SIZEOF_MEM_BLOCK]> L) in *.
    pose proof Hnew as (_ & _ & _ & Hrn & Hnc). pose proof Hfit as (_ & _ & _ & Hsz & _).
    assert (forall u sz, L' !! u = Some sz -> 0 < sz) as Hpos.
    { intros u sz. unfold L'. rewrite lookup_insert_Some. intros [[_ <-]|[_ Hu]]; [unfold SIZEOF_MEM_BLOCK; lia|].
      by eapply (h_pos _ _ _ _ H). }
    assert (heap_ok s1 L' bs) as H1.
    { eapply heap_ext; [exact H|done|done| | |].
      - apply disj_insert; try done; [apply H|intros; by eapply h_pos|unfold SIZEOF_MEM_BLOCK; lia].
      - intros u sz Hu _. unfold L'. rewrite lookup_insert_ne; [done|]. intros <-. congruence.
      - intros w Hm. by apply Hw1, (meta_covered _ _ _ _ _ H). }
    assert (forall w, r <= w < r + (size + SIZEOF_MEM_BLOCK) -> covered L' w /\ ~ meta bs w) as Hin.
    { intros w Hw. split; [exists r, (size + SIZEOF_MEM_BLOCK); split; [apply lookup_insert_eq|done]|].
      intros Hm. apply (Hnc w Hw). by eapply meta_covered. }
    assert (forall w, covered L w -> ~ (r <= w < r + (size + SIZEOF_MEM_BLOCK))) as Hout by (intros w Hc Hw; by eapply Hnc).
    intros s2 s3 s4 s5. unfold OFF_SIZE, OFF_MAGIC, OFF_REALBLOCK, SIZEOF_MEM_BLOCK in *.
    assert (heap_ok s5 L' bs) as H5.
    { unfold s5, s4, s3, s2. repeat (apply heap_write; [|apply Hin; lia|apply Hin; lia]). done. }
    assert (forall w, covered L w -> ldw s5 w = ldw s w) as Hw5.
    { intros w Hc. pose proof (Hout w Hc). unfold s5, s4, s3, s2. rewrite !ldw_stw_ne by lia. auto. }
    assert (r ∉ bs.*1) as Hnr.
    { intros ([b sz] & Hb & Hin2)%list_elem_of_fmap. cbn in Hb. subst b.
      destruct (h_live _ _ _ _ H _ _ Hin2) as [Hl _]. congruence. }
    destruct (insert_block s5 L' bs r size H5) as [Hok Hfr]; try done.
    - apply lookup_insert_eq.
    - intros Hm. apply (Hnc mdp Hm). destruct (h_home _ _ _ _ H) as (u & a & Hu & ? & ? & _). exists u, a.
      split; [done|lia].
    - unfold s5, s4, s3, s2. split; unfold OFF_SIZE, OFF_MAGIC, OFF_REALBLOCK;
        repeat first [rewrite ldw_stw_eq | rewrite ldw_stw_ne by lia]; done.
    - split; unfold OFF_REALBLOCK, SIZEOF_MEM_BLOCK; replace (r + 20 - 20) with r by lia; try done.
      intros w Hc Hm. rewrite Hfr; [by apply Hw5|]. intros [?|Hm2]%meta_app; [done|].
      apply (Hout w Hc). destruct Hm2 as [(n & Hn & Hw)|[->|(b & sz & Hb & Hw)]].
      + apply elem_of_cons in Hn as [->|Hn]; [|apply list_elem_of_singleton in Hn; subst; cbn in Hw; lia].
        exfalso. apply Hm. left. exists mdp. split; [set_solver|done].
      + exfalso. apply Hm. right. by left.
      + apply list_elem_of_singleton in Hb as [= -> ->].
        unfold OFF_SIZE, OFF_MAGIC, OFF_REALBLOCK in Hw. lia.
  Qed.

Definition unchanged s L bs s' : Prop :=
    heap_ok s' L bs /\ forall w, covered L w -> ldw s' w = ldw s w.

Lemma malloc_retry_ok s0 L bs size : (4 | size) -> 0 < size <= 2 ^ 31 -> heap_ok s0 L bs ->
    forall fuel bltf flags answers s,
    (length answers < fuel)%nat -> (bset flags ix_kill_app_on_failed_malloc = true -> kill_on) ->
    unchanged s0 L bs s ->
    (exists s', malloc_retry cfg mdp fuel bltf flags answers size s = Ret 0 s' /\ unchanged s0 L bs s') \/
    (exists p s', malloc_retry cfg mdp fuel bltf flags answers size s = Ret p s' /\ malloced s0 L bs p size s') \/
    (malloc_retry cfg mdp fuel bltf flags answers size s = Panic "abort" /\ kill_on).
  Proof.
    intros H4 Hsz H0. induction fuel as [|fuel IH]; intros bltf flags answers s Hf Hk [H Hsame]; [lia|].
    cbn [malloc_retry].
    destruct (palloc_ok s L (s32 (size + SIZEOF_MEM_BLOCK)) 0) as (r & s1 & -> & Hr & Hw); [apply H|by left|].
    cbn [obind]. destruct Hr as [[-> Hp1]|(Hr & Hs0 & Hp1 & Hnew)].
    - cbn [negb Z.eqb].
      assert (unchanged s0 L bs s1) as H1.
      { split; [|intros w Hc; unfold ldw in *; rewrite Hw by done; by apply Hsame].
        eapply heap_ext; [exact H|done|apply H|apply H|done|]. intros w Hm. apply Hw. by eapply meta_covered. }
      destruct (blt_handler cfg bltf flags answers) as [[[v b2] f2] a2] eqn:E.
      destruct (blt_handler_spec _ _ _ _ _ _ _ E Hk) as (Hk2 & Hlen & Hab).
      destruct v.
      + apply IH; [specialize (Hlen eq_refl); lia|done|done].
      + right. right. auto.
      + left. by exists s1.
    - rewrite (proj2 (Z.eqb_neq r 0)) by done. cbn [negb]. right. left.
      assert (s32 (size + SIZEOF_MEM_BLOCK) = size + SIZEOF_MEM_BLOCK) as Hs32.
      { unfold SIZEOF_MEM_BLOCK in *. wrap_lia. }
      rewrite Hs32 in *. pose proof Hnew as (Hr0 & Hr4 & Hr32 & _).
      eexists _, _. split; [done|].
      apply (write_block s0 L bs r size s1 H0); try done.
      + unfold fits, SIZEOF_MEM_BLOCK in *. split_and!; try done; try lia.
        unfold s32 in Hs32. Z.div_mod_to_equations; lia.
      + intros w Hc. unfold ldw in *. rewrite Hw by done. by apply Hsame.
  Qed.

(** The size malloc serves for a request. *)
Definition served (size : Z) : Z := let size := u32 size in round4 (if size =? 0 then 4 else size).

Lemma malloc_ok s L bs answers size :
    heap_ok s L bs ->
    (exists s', malloc cfg mdp answers size s = Ret 0 s' /\ unchanged s L bs s') \/
    (exists p s', malloc cfg mdp answers size s = Ret p s' /\ u32 size < 2 ^ 31 /\ malloced s L bs p (served size) s') \/
    (malloc cfg mdp answers size s = Panic "abort" /\ kill_on).
  Proof.
    intros H. unfold malloc, served. pose proof (u32_range size) as Hu. unfold is_u32 in Hu.
    set (z := if u32 size =? 0 then 4 else u32 size).
    assert (0 < z < 2 ^ 32 /\ u32 size <= z) as Hz by (unfold z; destruct (Z.eqb_spec (u32 size) 0); lia).
    destruct (Z.leb_spec (s32 z) 0) as [Hle|Hgt]; [left; exists s; by split|].
    assert (z < 2 ^ 31) as Hz31 by (unfold s32 in Hgt; Z.div_mod_to_equations; lia).
    destruct (round4_spec z) as (H4 & Hr & Hr2); [lia|].
    destruct (malloc_retry_ok s L bs (round4 z) H4) with (fuel := Datatypes.S (length answers)) (bltf := 1) (flags := 0)
      (answers := answers) (s := s) as [?|[(p & s' & ? & ?)|?]]; try done; try lia.
    - by left.
    - right. left. exists p, s'. split_and!; [done|lia|done].
    - by right; right.
  Qed.

Lemma served_ge size : u32 size < 2 ^ 31 -> u32 size <= served size.
  Proof.
    intros H. unfold served. pose proof (u32_range size) as Hu. unfold is_u32 in Hu.
    destruct (Z.eqb_spec (u32 size) 0) as [E|]; [rewrite E; by vm_compute|].
    destruct (round4_spec (u32 size)); lia.
  Qed.

(** ** free *)

(** [p] is a pointer the client may hold to the block: the data of the block, or
    an aligned address inside it with the tag of memalign in front. *)
Definition names s (p b sz : Z) : Prop :=
    p = b + OFF_REALBLOCK \/
    (b + OFF_REALBLOCK + 4 <= p < b + OFF_REALBLOCK + sz /\ (4 | p) /\ p - (b + OFF_REALBLOCK) < 2 ^ 24 /\
     ldw s (p - 4) = mk_tag (p - (b + OFF_REALBLOCK))).

Lemma mk_tag_spec a : 0 <= a < 2 ^ 24 -> tag_magic (mk_tag a) = MEMALIGN_MAGIC /\ tag_alignment (mk_tag a) = a.
  Proof.
    intros Ha. unfold tag_magic, tag_alignment, mk_tag. rewrite Z.land_ones, Z.mod_small by lia.
    rewrite lor_shiftl_small by lia. rewrite Z.shiftr_div_pow2, Z.land_ones by lia.
    rewrite Z.div_add_l, Z.div_small by lia. split; [lia|].
    rewrite Z.add_comm, Z.mod_add, Z.mod_small by lia. done.
  Qed.

Lemma names_block s L bs p b sz :
    heap_ok s L bs -> (b, sz) ∈ bs -> names s p b sz -> block_of s p = b /\ (4 | p) /\ 0 < p.
  Proof.
    intros H Hb Hn. destruct (h_live _ _ _ _ H _ _ Hb) as [_ (Hb0 & Hb4 & _ & _ & _ & _)].
    unfold block_of. destruct Hn as [->|(Hp & Hp4 & Hlt & Ht)].
    - destruct (h_block _ _ _ _ H _ _ Hb) as [_ [_ Hm] _].
      replace (b + OFF_REALBLOCK - 4) with (b + OFF_MAGIC + 4) by (unfold OFF_REALBLOCK, OFF_MAGIC; lia).
      rewrite Hm. change (tag_magic MAGIC1 =? MEMALIGN_MAGIC) with false.
      unfold OFF_REALBLOCK. split; [lia|]. split; [|lia]. apply Z.divide_add_r; [done|]. by exists 5.
    - rewrite Ht. destruct (mk_tag_spec (p - (b + OFF_REALBLOCK))) as [-> ->]; [lia|].
      change (MEMALIGN_MAGIC =? MEMALIGN_MAGIC) with true. cbn iota. unfold OFF_REALBLOCK in *. split_and!; [lia|done|lia].
  Qed.

Lemma div4_mod x : (4 | x) -> x mod 4 = 0.
  Proof. intros [k ->]. by apply Z_mod_mult. Qed.

Lemma div4_bset x : (4 | x) -> bset x 1 = false.
  Proof.
    intros [k ->]. unfold bset. change 1 with (Z.ones 1). rewrite Z.land_ones by lia.
    replace (k * 4) with (k * 2 * 2 ^ 1) by lia. rewrite Z_mod_mult. done.
  Qed.

Lemma check_block_ok who s L bs b sz : heap_ok s L bs -> (b, sz) ∈ bs -> check_block who s b = None.
  Proof.
    intros H Hb. destruct (h_live _ _ _ _ H _ _ Hb) as [_ (_ & Hb4 & _)].
    destruct (h_block _ _ _ _ H _ _ Hb) as [H1 [H2 H3] H4].
    unfold check_block. rewrite div4_bset, H2, H3, H1, H4 by done. done.
  Qed.

(** What giving back a block that has left the list does. *)
Lemma release_block s L bs b sz :
    heap_ok s L bs -> b ∉ bs.*1 -> L !! b = Some (sz + SIZEOF_MEM_BLOCK) -> ldw s (b + OFF_SIZE) = sz ->
    ~ (b <= mdp < b + (sz + SIZEOF_MEM_BLOCK)) -> 0 < sz -> sz + SIZEOF_MEM_BLOCK < 2 ^ 31 ->
    exists s', pfree s b (s32 (ldw s (b + OFF_SIZE) + SIZEOF_MEM_BLOCK)) = Ret () s' /\
      heap_ok s' (delete b L) bs /\ forall w, covered (delete b L) w -> ldw s' w = ldw s w.
  Proof.
    intros H Hb Hl Hs Hm H0 H31. rewrite Hs. unfold SIZEOF_MEM_BLOCK in *.
    rewrite s32_id by (unfold is_s32; lia).
    destruct (pfree_ok s L b (sz + 24)) as (s' & -> & Hp & Hw); [apply H|done|].
    exists s'. split; [done|]. split; [|done].
    assert (forall u a, L !! u = Some a -> u ∈ bs.*1 \/ u <= mdp < u + a -> delete b L !! u = Some a) as Hk.
    { intros u a Hu Hc. rewrite lookup_delete_ne; [done|]. intros <-. destruct Hc as [?|Hc]; [done|].
      rewrite Hl in Hu. injection Hu as <-. lia. }
    eapply heap_ext; [exact H|done| | |exact Hk|].
    - intros u a [_ Hu]%lookup_delete_Some. by eapply (h_pos _ _ _ _ H).
    - apply disj_delete, H.
    - intros w Hmw. apply Hw. destruct (meta_cases _ _ _ _ _ H Hmw) as [Hc|(c & z & Hc & Hwc)].
      + destruct (h_home _ _ _ _ H) as (u & a & Hu & ? & ? & ?). exists u, a. split; [|lia].
        apply Hk; [done|]. right. lia.
      + destruct (h_live _ _ _ _ H _ _ Hc) as [Hlc (_ & _ & _ & ? & _)]. exists c, (z + SIZEOF_MEM_BLOCK).
        split; [apply Hk; [done|left; by eapply fst_elem]|]. unfold OFF_REALBLOCK, SIZEOF_MEM_BLOCK in *. lia.
  Qed.

Lemma mdp_outside s L bs b sz :
    heap_ok s L bs -> (b, sz) ∈ bs -> ~ (b <= mdp < b + (sz + SIZEOF_MEM_BLOCK)).
  Proof.
    intros H Hb Hm. destruct (h_live _ _ _ _ H _ _ Hb) as [Hl _].
    destruct (h_home _ _ _ _ H) as (u & a & Hu & ? & ? & Hnu). apply Hnu.
    assert (u = b) as ->; [|by eapply fst_elem].
    apply (covered_unique L u b a (sz + SIZEOF_MEM_BLOCK) mdp); [apply H|done|done|lia|lia].
  Qed.

Lemma drop_block_ok s L bs1 b sz bs2 :
    heap_ok s L (bs1 ++ (b, sz) :: bs2) ->
    exists s', drop_block mdp b s = Ret () s' /\ heap_ok s' (delete b L) (bs1 ++ bs2) /\
      forall w, covered (delete b L) w -> ~ meta (bs1 ++ bs2) w -> ldw s' w = ldw s w.
  Proof.
    intros H. destruct (remove_block s L bs1 b sz bs2 H) as (H1 & Hf & Hs1 & Hs2).
    assert ((b, sz) ∈ bs1 ++ (b, sz) :: bs2) as Hb by set_solver.
    pose proof (mdp_outside _ _ _ _ _ H Hb) as Hout.
    destruct (h_live _ _ _ _ H _ _ Hb) as [Hl (_ & _ & _ & H0 & H31 & _)].
    assert (b ∉ (bs1 ++ bs2).*1) as Hnb.
    { pose proof (h_nodup _ _ _ _ H) as Hnd. rewrite fmap_app in *. cbn in Hnd.
      apply NoDup_app in Hnd as (_ & Hd & Hnd). apply NoDup_cons in Hnd as [Hn2 _].
      rewrite not_elem_of_app. split; [|done]. intros Hin. apply (Hd _ Hin). set_solver. }
    destruct (release_block _ _ _ _ sz H1 Hnb Hl Hs2 Hout H0 H31) as (s' & Hfree & Hok & Hw).
    exists s'. unfold drop_block. rewrite Hs1.
    change (stw (pset s (ixremove (pwords s) mdp b)) (mdp + OFF_USED)
      (u32 (ldw (pset s (ixremove (pwords s) mdp b)) (mdp + OFF_USED) - sz))) with (linked_out b sz s).
    split; [done|]. split; [done|]. intros w Hc Hm. rewrite Hw by done. by apply Hf.
  Qed.

Lemma heap_free_ok s L bs1 b sz bs2 p :
    heap_ok s L (bs1 ++ (b, sz) :: bs2) -> names s p b sz ->
    exists s', free mdp p s = Ret () s' /\ heap_ok s' (delete b L) (bs1 ++ bs2) /\
      forall w, covered (delete b L) w -> ~ meta (bs1 ++ bs2) w -> ldw s' w = ldw s w.
  Proof.
    intros H Hn. assert ((b, sz) ∈ bs1 ++ (b, sz) :: bs2) as Hb by set_solver.
    destruct (names_block _ _ _ _ _ _ H Hb Hn) as (Hbl & Hp4 & Hp0).
    destruct (h_live _ _ _ _ H _ _ Hb) as [_ (_ & Hb4 & _)].
    unfold free. rewrite (proj2 (Z.eqb_neq p 0)), Hbl, !div4_mod by (done || lia). cbn [Z.eqb negb orb].
    rewrite (check_block_ok _ _ _ _ _ _ H Hb). by apply (drop_block_ok s L bs1 b sz bs2).
  Qed.

(** ** memalign *)

Lemma land_low_pow2 p k : 0 <= k -> Z.land p (2 ^ k - 1) = p mod 2 ^ k.
  Proof. intros Hk. rewrite <- Z.land_ones by done. by rewrite Z.ones_equiv. Qed.

Lemma land_opp_pow2 x k : 0 <= k -> Z.land x (- 2 ^ k) = x / 2 ^ k * 2 ^ k.
  Proof.
    intros Hk. replace (- 2 ^ k) with (Z.lnot (Z.ones k)) by (rewrite Z.ones_equiv; unfold Z.lnot; lia).
    rewrite <- Z.ldiff_land, Z.ldiff_ones_r by done. by rewrite Z.shiftl_mul_pow2, Z.shiftr_div_pow2.
  Qed.

(** The first aligned address behind an address that is a multiple of four. *)
Lemma align_up p k : (4 | p) -> 0 <= k -> p mod 2 ^ k <> 0 ->
    let a := (p + 2 ^ k - 1) / 2 ^ k * 2 ^ k in
    2 < k /\ (4 | a) /\ p + 4 <= a <= p + 2 ^ k - 4.
  Proof.
    intros [q ->] Hk Hm a. assert (2 < k) as Hk2.
    { destruct (Z_lt_le_dec 2 k) as [|Hle]; [done|]. destruct Hm.
      assert (k = 0 \/ k = 1 \/ k = 2) as [->|[->| ->]] by lia; change (2 ^ 0) with 1; change (2 ^ 1) with 2;
        change (2 ^ 2) with 4; Z.div_mod_to_equations; lia. }
    assert (exists c, 2 ^ k = c * 4 /\ 0 < c) as (c & Hc & Hc0).
    { exists (2 ^ (k - 2)). split; [|apply Z.pow_pos_nonneg; lia]. replace k with (k - 2 + 2) at 1 by lia.
      by rewrite Z.pow_add_r by lia. }
    split; [done|]. unfold a. rewrite Hc in *. split.
    - exists ((q * 4 + c * 4 - 1) / (c * 4) * c). lia.
    - set (t := (q * 4 + c * 4 - 1) / (c * 4)).
      assert (t * (c * 4) <= q * 4 + c * 4 - 1 < t * (c * 4) + c * 4) as Ht.
      { unfold t. pose proof (Z.div_mod (q * 4 + c * 4 - 1) (c * 4)). pose proof (Z.mod_pos_bound (q * 4 + c * 4 - 1) (c * 4)).
        lia. }
      assert (t * (c * 4) <> q * 4) as Hne.
      { intros E. apply Hm. rewrite <- E. apply Z_mod_mult. }
      assert (t * c <> q) by (intros E; apply Hne; lia). nia.
  Qed.

Lemma memalign_ok s L bs answers k size :
    heap_ok s L bs -> 0 <= k < 24 -> 0 <= size -> size + 2 ^ k + SIZEOF_MEMALIGN_PTR < 2 ^ 31 ->
    (exists s', memalign cfg mdp answers (2 ^ k) size s = Ret 0 s' /\ unchanged s L bs s') \/
    (exists p b sz s', memalign cfg mdp answers (2 ^ k) size s = Ret p s' /\ p mod 2 ^ k = 0 /\
       new_memory L b (sz + SIZEOF_MEM_BLOCK) /\ heap_ok s' (<[b := sz + SIZEOF_MEM_BLOCK]> L) (bs ++ [(b, sz)]) /\
       names s' p b sz /\ p + size <= b + OFF_REALBLOCK + sz /\
       (forall w, covered L w -> ~ meta bs w -> ldw s' w = ldw s w)) \/
    (memalign cfg mdp answers (2 ^ k) size s = Panic "abort" /\ kill_on).
  Proof.
    intros H Hk Hs Hsum. unfold memalign, SIZEOF_MEMALIGN_PTR in *.
    assert (0 < 2 ^ k) as H2k by (apply Z.pow_pos_nonneg; lia).
    assert (2 ^ k < 2 ^ 24) as H2k24 by (apply Z.pow_lt_mono_r; lia).
    rewrite (u32_id (size + 2 ^ k + 4)) by (unfold is_u32; lia).
    destruct (malloc_ok s L bs answers (size + 2 ^ k + 4) H) as [(s' & -> & ?)|[(p & s' & -> & _ & HM)|[-> ?]]];
      cbn [obind].
    - left. rewrite Z.eqb_refl. by exists s'.
    - right. left. set (b := p - OFF_REALBLOCK) in *. set (sz := served (size + 2 ^ k + 4)) in *.
      assert (size + 2 ^ k + 4 <= sz) as Hsz.
      { unfold sz, served. rewrite u32_id by (unfold is_u32; lia). destruct (Z.eqb_spec (size + 2 ^ k + 4) 0); [lia|].
        destruct (round4_spec (size + 2 ^ k + 4)) as (_ & ? & _); lia. }
      pose proof (mc_ok _ _ _ _ _ _ HM) as H1. fold b in H1.
      assert ((b, sz) ∈ bs ++ [(b, sz)]) as Hb by set_solver.
      destruct (h_live _ _ _ _ H1 _ _ Hb) as [Hl (Hb0 & Hb4 & _ & _ & _ & Hb32)].
      assert (p = b + OFF_REALBLOCK) as Hp by (unfold b; lia).
      assert (4 | p) as Hp4. { rewrite Hp. apply Z.divide_add_r; [done|]. by exists 5. }
      unfold OFF_REALBLOCK, SIZEOF_MEM_BLOCK in *.
      rewrite (proj2 (Z.eqb_neq p 0)), land_low_pow2 by lia.
      destruct (Z.eqb_spec (p mod 2 ^ k) 0) as [Hm|Hm].
      + exists p, b, sz, s'. split_and!; try done; [apply HM|by left|unfold OFF_REALBLOCK; lia|apply HM].
      + destruct (align_up p k Hp4) as (Hk2 & Ha4 & Ha); [lia|done|].
        rewrite land_opp_pow2 by lia. set (a := (p + 2 ^ k - 1) / 2 ^ k * 2 ^ k) in *.
        rewrite (u32_id a) by (unfold is_u32; lia). rewrite (div4_mod a Ha4). cbn [negb Z.eqb].
        assert (forall w, b + 20 <= w < b + 20 + sz -> covered (<[b:=sz + 24]> L) w /\ ~ meta (bs ++ [(b, sz)]) w) as Hdata.
        { intros w Hw. split; [|by eapply data_not_meta].
          exists b, (sz + 24). split; [apply lookup_insert_eq|lia]. }
        exists a, b, sz. eexists. split; [done|]. split_and!; try done.
        * unfold a. apply Z_mod_mult.
        * apply HM.
        * apply heap_write; [done| |]; apply Hdata; lia.
        * right. rewrite ldw_stw_eq. unfold OFF_REALBLOCK. rewrite <- Hp. split_and!; try done; lia.
        * unfold OFF_REALBLOCK. lia.
        * intros w Hc Hmw. rewrite ldw_stw_ne; [by apply HM|]. intros <-.
          destruct (mc_new _ _ _ _ _ _ HM) as (_ & _ & _ & _ & Hnc). apply (Hnc (a - 4)); [|done].
          fold b. unfold OFF_REALBLOCK, SIZEOF_MEM_BLOCK. lia.
    - right. right. done.
  Qed.

(** ** realloc *)

(** [w] is one of the [n] words from [a] on. *)
Definition in_words (a : Z) (n : nat) w : Prop := exists i, 0 <= i < Z.of_nat n /\ w = a + 4 * i.

Lemma in_words_S a n w : in_words (a + 4) n w -> in_words a (Datatypes.S n) w.
  Proof. intros (i & Hi & ->). exists (i + 1). lia. Qed.

Lemma in_words_0 a n : in_words a (Datatypes.S n) a.
  Proof. exists 0. lia. Qed.

Lemma copy_words_stw n : forall src dst s a v,
    ~ in_words src n a -> ~ in_words dst n a -> copy_words n src dst (stw s a v) = stw (copy_words n src dst s) a v.
  Proof.
    induction n as [|n IH]; intros src dst s a v Hs Hd; [done|]. cbn [copy_words].
    assert (a <> src) by (intros ->; apply Hs, in_words_0). assert (a <> dst) by (intros ->; apply Hd, in_words_0).
    rewrite ldw_stw_ne by done. rewrite stw_comm by done.
    apply IH; intros Hin; [by apply Hs, in_words_S|by apply Hd, in_words_S].
  Qed.

Lemma copy_words_other n : forall src dst s w, ~ in_words dst n w -> ldw (copy_words n src dst s) w = ldw s w.
  Proof.
    induction n as [|n IH]; intros src dst s w Hw; [done|]. cbn [copy_words].
    rewrite IH by (intros ?; by apply Hw, in_words_S). apply ldw_stw_ne. intros ->. apply Hw, in_words_0.
  Qed.

Lemma copy_words_content n : forall src dst s i,
    (forall w, in_words src n w -> ~ in_words dst n w) -> 0 <= i < Z.of_nat n ->
    ldw (copy_words n src dst s) (dst + 4 * i) = ldw s (src + 4 * i).
  Proof.
    induction n as [|n IH]; intros src dst s i Hap Hi; [lia|]. cbn [copy_words].
    destruct (Z.eq_dec i 0) as [->|Hne].
    - rewrite copy_words_other by (intros (j & Hj & ?); lia).
      rewrite !Z.mul_0_r, !Z.add_0_r. apply ldw_stw_eq.
    - replace (dst + 4 * i) with (dst + 4 + 4 * (i - 1)) by lia. rewrite IH; [|clear IH|lia].
      + replace (src + 4 + 4 * (i - 1)) with (src + 4 * i) by lia. apply ldw_stw_ne. intros E.
        apply (Hap (src + 4 * i)); [exists i; lia|]. exists 0. lia.
      + intros w Hs Hd. apply (Hap w); by apply in_words_S.
  Qed.

Lemma copy_words_ok n : forall src dst s L bs, heap_ok s L bs ->
    (forall w, in_words dst n w -> covered L w /\ ~ meta bs w) -> heap_ok (copy_words n src dst s) L bs.
  Proof.
    induction n as [|n IH]; intros src dst s L bs H Hw; [done|]. cbn [copy_words].
    destruct (Hw dst (in_words_0 _ _)). apply IH; [by apply heap_write|]. intros w Hin. by apply Hw, in_words_S.
  Qed.

Lemma realloc_fits s L bs b sz p answers size :
    heap_ok s L bs -> (b, sz) ∈ bs -> names s p b sz -> 0 < u32 size <= sz ->
    realloc cfg mdp answers p size s = Ret p s.
  Proof.
    intros H Hb Hn Hs. destruct (names_block _ _ _ _ _ _ H Hb Hn) as (Hbl & Hp4 & Hp0).
    destruct (h_live _ _ _ _ H _ _ Hb) as [_ (_ & Hb4 & _)]. destruct (h_block _ _ _ _ H _ _ Hb) as [Hsz _ _].
    unfold realloc. rewrite (proj2 (Z.eqb_neq p 0)), (proj2 (Z.eqb_neq (u32 size) 0)) by lia.
    rewrite Hbl, !div4_mod by done. cbn [Z.eqb negb orb]. rewrite (check_block_ok _ _ _ _ _ _ H Hb), Hsz.
    by rewrite (proj2 (Z.leb_le _ _)) by lia.
  Qed.

(** The last part of realloc: the old block leaves the list, its data is copied
    to the new block and it is given back. *)
Lemma move_block s L bs1 b sz bs2 c z :
    heap_ok s L (bs1 ++ (b, sz) :: bs2) -> (c, z) ∈ bs1 ++ bs2 -> c <> b -> sz <= z ->
    let p := b + OFF_REALBLOCK in let q := c + OFF_REALBLOCK in
    let s1 := pset s (ixremove (pwords s) mdp b) in
    let s2 := copy_words (Z.to_nat (ldw s1 (b + OFF_SIZE) / 4)) p q s1 in
    let s3 := stw s2 (mdp + OFF_USED) (u32 (ldw s2 (mdp + OFF_USED) - ldw s2 (b + OFF_SIZE))) in
    exists s', pfree s3 b (s32 (ldw s3 (b + OFF_SIZE) + SIZEOF_MEM_BLOCK)) = Ret () s' /\
      heap_ok s' (delete b L) (bs1 ++ bs2) /\
      (forall i, 0 <= i < sz -> (4 | i) -> ldw s' (q + i) = ldw s (p + i)) /\
      (forall w, covered (delete b L) w -> ~ meta (bs1 ++ bs2) w -> ~ (q <= w < q + sz) -> ldw s' w = ldw s w).
  Proof.
    intros H Hc Hne Hle p q s1 s2 s3.
    destruct (remove_block s L bs1 b sz bs2 H) as (H1 & Hf & Hs1 & Hs2). fold s1 in Hs1.
    assert ((b, sz) ∈ bs1 ++ (b, sz) :: bs2) as Hb by set_solver.
    pose proof (mdp_outside _ _ _ _ _ H Hb) as Hout.
    destruct (h_live _ _ _ _ H _ _ Hb) as [Hl (Hb0 & Hb4 & Hsz4 & H0 & H31 & _)].
    destruct (h_live _ _ _ _ H1 _ _ Hc) as [Hlc (Hc0 & Hc4 & _ & Hz0 & _)].
    assert (b ∉ (bs1 ++ bs2).*1) as Hnb.
    { pose proof (h_nodup _ _ _ _ H) as Hnd. rewrite fmap_app in *. cbn in Hnd.
      apply NoDup_app in Hnd as (_ & Hd & Hnd). apply NoDup_cons in Hnd as [Hn2 _].
      rewrite not_elem_of_app. split; [|done]. intros Hin. apply (Hd _ Hin). set_solver. }
    assert (b + (sz + 24) <= c \/ c + (z + 24) <= b) as Hap.
    { unfold SIZEOF_MEM_BLOCK in *. apply (h_disj _ _ _ _ H b c); auto. }
    set (n := Z.to_nat (ldw s1 (b + OFF_SIZE) / 4)) in *.
    assert (Z.of_nat n * 4 = sz) as Hn.
    { unfold n. rewrite Hs1. destruct Hsz4 as [k Hk]. rewrite Hk, Z_div_mult by lia. lia. }
    assert (forall w, in_words q n w -> q <= w < q + sz) as Hq by (intros w (i & Hi & ->); lia).
    assert (forall w, in_words p n w -> p <= w < p + sz) as Hp by (intros w (i & Hi & ->); lia).
    pose proof (mdp_outside _ _ _ _ _ H1 Hc) as Houtc.
    destruct (h_home _ _ _ _ H) as (u & a & Hu & Hu1 & Hu2 & Hnu).
    assert (u <> b) as Hub by (intros ->; apply Hnu; by eapply fst_elem).
    assert (u <> c) as Huc.
    { intros ->. apply Hnu. rewrite fmap_app. cbn. apply fst_elem in Hc. rewrite fmap_app in Hc.
      rewrite elem_of_app, elem_of_cons in *. tauto. }
    assert (u + a <= b \/ b + (sz + 24) <= u) as Hapb by (apply (h_disj _ _ _ _ H u b); auto).
    assert (u + a <= c \/ c + (z + 24) <= u) as Hapc by (apply (h_disj _ _ _ _ H u c); auto).
    unfold OFF_REALBLOCK, SIZEOF_MEM_BLOCK, OFF_USED, OFF_SIZE in *.
    assert (forall w, w = mdp + 8 \/ w = b + 8 -> ldw s2 w = ldw s1 w) as H2.
    { intros w Hw. apply copy_words_other. intros Hin%Hq. unfold q in Hin. lia. }
    assert (s3 = copy_words n p q (linked_out b sz s)) as Hs3.
    { unfold s3. rewrite !H2, Hs1 by auto. unfold linked_out. fold s1. unfold OFF_USED. unfold s2.
      rewrite copy_words_stw; [done| |].
      - intros Hin%Hp. unfold p in Hin. lia.
      - intros Hin%Hq. unfold q in Hin. lia. }
    assert (heap_ok s3 L (bs1 ++ bs2)) as H3.
    { rewrite Hs3. apply copy_words_ok; [done|]. intros w Hin%Hq. unfold q in Hin. split.
      - exists c, (z + 24). split; [done|lia].
      - eapply data_not_meta; [exact H1|exact Hc|unfold OFF_REALBLOCK; lia]. }
    assert (ldw s3 (b + 8) = sz) as H3s.
    { rewrite Hs3, copy_words_other; [done|]. intros Hin%Hq. unfold q in Hin. lia. }
    destruct (release_block s3 L (bs1 ++ bs2) b sz H3 Hnb Hl H3s Hout H0 H31) as (s' & Hfree & Hok & Hw).
    exists s'. split; [exact Hfree|]. split; [done|]. split.
    - intros i Hi [k ->]. rewrite Hw.
      2: { exists c, (z + 24). split; [by rewrite lookup_delete_ne|]. unfold q. lia. }
      rewrite Hs3, Z.mul_comm, copy_words_content; [|intros w Hw1%Hp Hw2%Hq; unfold p, q in *; lia|lia].
      apply Hf. intros Hm. unfold p in Hm.
      assert ((b, sz) ∈ bs1 ++ (b, sz) :: bs2) by done.
      apply (data_not_meta _ _ _ _ b sz (b + 20 + 4 * k) H); [done|unfold OFF_REALBLOCK; lia|].
      eapply meta_mono; [|exact Hm]. intros x. rewrite !elem_of_app, elem_of_cons. tauto.
    - intros w Hcw Hm Hnq. rewrite Hw by done. rewrite Hs3, copy_words_other; [by apply Hf|]. intros Hin%Hq. lia.
  Qed.

(** The bookkeeping of one block lies in it. *)
Lemma meta_block bs1 b sz bs2 w : meta (bs1 ++ (b, sz) :: bs2) w -> 0 < sz ->
    meta (bs1 ++ bs2) w \/ b <= w < b + (sz + SIZEOF_MEM_BLOCK).
  Proof.
    intros [(n & Hn & Hw)|[->|(c & z & Hc & Hw)]] Hs.
    - rewrite fmap_app in Hn. cbn in Hn. rewrite elem_of_cons, elem_of_app, elem_of_cons in Hn.
      assert (n ∈ mdp :: (bs1 ++ bs2).*1 \/ n = b) as [Hin| ->].
      { rewrite fmap_app, elem_of_cons, elem_of_app. tauto. }
      + left. left. by exists n.
      + right. unfold SIZEOF_MEM_BLOCK. lia.
    - left. right. by left.
    - rewrite elem_of_app, elem_of_cons in Hc. assert ((c, z) ∈ bs1 ++ bs2 \/ (c, z) = (b, sz)) as [Hin|E].
      { rewrite elem_of_app. tauto. }
      + left. right. right. by exists c, z.
      + injection E as -> ->. right. unfold OFF_SIZE, OFF_MAGIC, OFF_REALBLOCK, SIZEOF_MEM_BLOCK in *. lia.
  Qed.

(** A successful realloc that had to move the block [b] to the one of [q]. *)
Record moved s L bs1 b sz bs2 (q z : Z) s' : Prop := {
    mv_new : new_memory L (q - OFF_REALBLOCK) (z + SIZEOF_MEM_BLOCK);
    mv_ok : heap_ok s' (delete b (<[q - OFF_REALBLOCK := z + SIZEOF_MEM_BLOCK]> L))
              (bs1 ++ bs2 ++ [(q - OFF_REALBLOCK, z)]);
    mv_data i : 0 <= i < sz -> (4 | i) -> ldw s' (q + i) = ldw s (b + OFF_REALBLOCK + i);
    mv_words w : covered (delete b L) w -> ~ meta (bs1 ++ bs2) w -> ldw s' w = ldw s w
  }.

Lemma realloc_grows s L bs1 b sz bs2 answers size :
    heap_ok s L (bs1 ++ (b, sz) :: bs2) -> sz < u32 size ->
    let p := b + OFF_REALBLOCK in
    (exists s', realloc cfg mdp answers p size s = Ret 0 s' /\ unchanged s L (bs1 ++ (b, sz) :: bs2) s') \/
    (exists q s', realloc cfg mdp answers p size s = Ret q s' /\ u32 size <= served size /\
       moved s L bs1 b sz bs2 q (served size) s') \/
    (realloc cfg mdp answers p size s = Panic "abort" /\ kill_on).
  Proof.
    intros H Hs p. assert ((b, sz) ∈ bs1 ++ (b, sz) :: bs2) as Hb by set_solver.
    assert (names s p b sz) as Hn by by left.
    destruct (names_block _ _ _ _ _ _ H Hb Hn) as (Hbl & Hp4 & Hp0).
    destruct (h_live _ _ _ _ H _ _ Hb) as [Hl (Hb0 & Hb4 & _ & Hsz0 & _)].
    destruct (h_block _ _ _ _ H _ _ Hb) as [Hbs [Hm1 Hm2] He].
    unfold realloc. rewrite (proj2 (Z.eqb_neq p 0)), (proj2 (Z.eqb_neq (u32 size) 0)) by lia.
    rewrite Hbl, !div4_mod by done. cbn [Z.eqb negb orb]. rewrite (check_block_ok _ _ _ _ _ _ H Hb), Hbs.
    rewrite (proj2 (Z.leb_gt _ _)) by lia.
    assert (u32 (u32 size) = u32 size) as Huu by (apply u32_id, u32_range).
    destruct (malloc_ok s L _ answers (u32 size) H) as [(s' & -> & ?)|[(q & s1 & -> & H31 & HM)|[-> ?]]];
      cbn [obind]; [left; by exists s'| |by right; right].
    right. left. rewrite Huu in H31. replace (served (u32 size)) with (served size) in HM by (unfold served; by rewrite Huu).
    pose proof (mc_ok _ _ _ _ _ _ HM) as H1. set (c := q - OFF_REALBLOCK) in *. set (z := served size) in *.
    assert (u32 size <= z) as Hz.
    { unfold z, served. rewrite (proj2 (Z.eqb_neq (u32 size) 0)) by lia. destruct (round4_spec (u32 size)); lia. }
    destruct (mc_new _ _ _ _ _ _ HM) as (Hc0 & _ & _ & Hcn & Hcov). fold c in Hc0, Hcn, Hcov.
    assert (c <> b) as Hcb by (intros E; rewrite E in Hcn; congruence).
    assert (q = c + OFF_REALBLOCK) as Hq by (unfold c; lia).
    rewrite (proj2 (Z.eqb_neq q 0)) by (unfold OFF_REALBLOCK in *; lia). cbn [negb].
    rewrite <- app_assoc in H1. change (((b, sz) :: bs2) ++ [(c, z)]) with ((b, sz) :: (bs2 ++ [(c, z)])) in H1.
    assert ((c, z) ∈ bs1 ++ bs2 ++ [(c, z)]) as Hcin by set_solver.
    destruct (move_block _ _ _ _ _ _ c z H1 Hcin Hcb) as (s' & Hf & Hok & Hd & Hw); [lia|].
    rewrite <- Hq in *. fold p in Hf, Hd. rewrite Hf. cbn [obind]. exists q, s'. split; [done|]. split; [done|].
    assert (forall w, covered L w -> ~ (c <= w < c + (z + SIZEOF_MEM_BLOCK))) as Hnc by (intros w Hcw Hw2; by eapply Hcov).
    assert (forall w, covered (delete b L) w -> ~ (b <= w < b + (sz + SIZEOF_MEM_BLOCK))) as Hnb.
    { intros w (u & a & Hu & Hwu) Hwb. apply lookup_delete_Some in Hu as [Hne Hu]. apply Hne.
      apply (covered_unique L b u (sz + SIZEOF_MEM_BLOCK) a w); [apply H|done|done|done|done]. }
    split; fold c; try done; [apply HM| |].
    - intros i Hi Hi4. rewrite Hd by done. fold p. apply HM.
      + exists b, (sz + SIZEOF_MEM_BLOCK). split; [done|]. unfold p, OFF_REALBLOCK, SIZEOF_MEM_BLOCK. lia.
      + eapply data_not_meta; [exact H|exact Hb|unfold p; lia].
    - intros w Hcw Hmw. pose proof (covered_delete _ _ _ Hcw) as Hcl. pose proof (Hnc w Hcl) as Hout.
      rewrite Hw.
      + apply HM; [done|]. intros [?|Hin]%meta_block; [done| |lia]. exact (Hnb w Hcw Hin).
      + destruct Hcw as (u & a & Hu & Hwu). apply lookup_delete_Some in Hu as [Hne Hu]. exists u, a.
        rewrite lookup_delete_ne, lookup_insert_ne by congruence. done.
      + rewrite app_assoc. intros Hm. change [(c, z)] with ((c, z) :: []) in Hm.
        apply meta_block in Hm; [|lia]. rewrite app_nil_r in Hm. by destruct Hm.
      + unfold OFF_REALBLOCK, SIZEOF_MEM_BLOCK in *. lia.
  Qed.

(** ** calloc *)

Lemma zero_words_ok n : forall p s L bs, heap_ok s L bs ->
    (forall w, in_words p n w -> covered L w /\ ~ meta bs w) -> heap_ok (zero_words n p s) L bs.
  Proof.
    induction n as [|n IH]; intros p s L bs H Hw; [done|]. cbn [zero_words].
    destruct (Hw p (in_words_0 _ _)). apply IH; [by apply heap_write|]. intros w Hin. by apply Hw, in_words_S.
  Qed.

Lemma zero_words_other n : forall p s w, ~ in_words p n w -> ldw (zero_words n p s) w = ldw s w.
  Proof.
    induction n as [|n IH]; intros p s w Hw; [done|]. cbn [zero_words].
    rewrite IH by (intros ?; by apply Hw, in_words_S). apply ldw_stw_ne. intros ->. apply Hw, in_words_0.
  Qed.

Lemma zero_words_zero n : forall p s w, in_words p n w -> ldw (zero_words n p s) w = 0.
  Proof.
    induction n as [|n IH]; intros p s w (i & Hi & ->); [lia|]. cbn [zero_words].
    destruct (Z.eq_dec i 0) as [->|Hne].
    - rewrite zero_words_other by (intros (j & Hj & ?); lia). rewrite Z.mul_0_r, Z.add_0_r. apply ldw_stw_eq.
    - apply IH. exists (i - 1). lia.
  Qed.

(** The byte [j] of the data at [p], a multiple of four. *)
Definition byte_at s (p j : Z) : Z := Z.land (Z.shiftr (ldw s (p + j / 4 * 4)) (8 * (3 - j mod 4))) 255.

Lemma masked_byte v r k : 0 <= k < r -> r < 4 -> Z.land (Z.shiftr (Z.land v (Z.ones (8 * (4 - r)))) (8 * (3 - k))) 255 = 0.
  Proof.
    intros Hk Hr. replace (Z.shiftr _ _) with 0; [done|]. symmetry. rewrite Z.land_ones, Z.shiftr_div_pow2 by lia.
    apply Z.div_small. pose proof (Z.mod_pos_bound v (2 ^ (8 * (4 - r)))) as Hb.
    assert (2 ^ (8 * (4 - r)) <= 2 ^ (8 * (3 - k))) by (apply Z.pow_le_mono_r; lia).
    assert (0 < 2 ^ (8 * (4 - r))) by (apply Z.pow_pos_nonneg; lia). lia.
  Qed.

Lemma bzero_ok s L bs p size :
    heap_ok s L bs -> 0 <= size -> (forall w, p <= w < p + size -> (4 | w - p) -> covered L w /\ ~ meta bs w) ->
    heap_ok (bzero p size s) L bs /\ (forall j, 0 <= j < size -> byte_at (bzero p size s) p j = 0) /\
    forall w, ~ (p <= w < p + size) -> ldw (bzero p size s) w = ldw s w.
  Proof.
    intros H Hs Hw. set (n := Z.to_nat (size / 4)). set (s1 := zero_words n p s).
    assert (Z.of_nat n = size / 4) as Hn by (unfold n; Z.div_mod_to_equations; lia).
    assert (forall w, in_words p n w -> p <= w < p + size /\ (4 | w - p)) as Hin.
    { intros w (i & Hi & ->). split; [Z.div_mod_to_equations; lia|]. exists i. lia. }
    assert (heap_ok s1 L bs) as H1.
    { apply zero_words_ok; [done|]. intros w [??]%Hin. by apply Hw. }
    assert (forall w, ~ (p <= w < p + size) -> ldw s1 w = ldw s w) as Hout.
    { intros w Hnw. apply zero_words_other. intros [? _]%Hin. done. }
    assert (forall j, 0 <= j < size / 4 * 4 -> ldw s1 (p + j / 4 * 4) = 0) as Hz.
    { intros j Hj. apply zero_words_zero. exists (j / 4). split; [Z.div_mod_to_equations; lia|lia]. }
    unfold bzero. fold n s1. destruct (Z.eqb_spec (size mod 4) 0) as [Hr|Hr].
    - split_and!; try done. intros j Hj. unfold byte_at. rewrite Hz, Z.shiftr_0_l; [done|]. Z.div_mod_to_equations; lia.
    - set (a := p + size / 4 * 4) in *.
      assert (p <= a < p + size) as Ha by (unfold a; Z.div_mod_to_equations; lia).
      split_and!.
      + apply heap_write; [done| |]; apply Hw; try done; exists (size / 4); unfold a; lia.
      + intros j Hj. unfold byte_at. destruct (Z_lt_le_dec j (size / 4 * 4)).
        * rewrite ldw_stw_ne by (unfold a; Z.div_mod_to_equations; lia). by rewrite Hz, Z.shiftr_0_l by lia.
        * replace (p + j / 4 * 4) with a by (unfold a; Z.div_mod_to_equations; lia). rewrite ldw_stw_eq.
          apply masked_byte; Z.div_mod_to_equations; lia.
      + intros w Hnw. rewrite ldw_stw_ne by (intros <-; done). by apply Hout.
  Qed.

Lemma calloc_ok s L bs answers num size :
    heap_ok s L bs ->
    (exists s', calloc cfg mdp answers num size s = Ret 0 s' /\ heap_ok s' L bs) \/
    (exists b sz s', calloc cfg mdp answers num size s = Ret (b + OFF_REALBLOCK) s' /\ sz = served (u32 (size * num)) /\
       new_memory L b (sz + SIZEOF_MEM_BLOCK) /\ heap_ok s' (<[b := sz + SIZEOF_MEM_BLOCK]> L) (bs ++ [(b, sz)]) /\
       u32 (size * num) < 2 ^ 31 /\ forall j, 0 <= j < u32 (size * num) -> byte_at s' (b + OFF_REALBLOCK) j = 0) \/
    (calloc cfg mdp answers num size s = Panic "abort" /\ kill_on).
  Proof.
    intros H. unfold calloc. set (n := u32 (size * num)).
    assert (u32 n = n) as Hnn by apply u32_id, u32_range. assert (0 <= n) as Hn0 by apply (u32_range (size * num)).
    destruct (malloc_ok s L bs answers n H) as [(s' & -> & ? & _)|[(p & s1 & -> & H31 & HM)|[-> ?]]];
      cbn [obind]; [left; by exists s'| |by right; right].
    right. left. rewrite Hnn in H31. pose proof (mc_ok _ _ _ _ _ _ HM) as H1.
    destruct (mc_new _ _ _ _ _ _ HM) as (Hb0 & _). set (b := p - OFF_REALBLOCK) in *.
    assert (p = b + OFF_REALBLOCK) as Hp by (unfold b; lia).
    assert (n <= served n) as Hsz by (rewrite <- Hnn at 1; apply served_ge; by rewrite Hnn).
    rewrite (proj2 (Z.eqb_neq p 0)) by (unfold OFF_REALBLOCK in *; lia). cbn [negb].
    assert ((b, served n) ∈ bs ++ [(b, served n)]) as Hb by set_solver.
    destruct (h_live _ _ _ _ H1 _ _ Hb) as [Hl _].
    destruct (bzero_ok s1 _ _ p n H1 Hn0) as (H2 & Hz & _).
    { intros w Hw _. split.
      - exists b, (served n + SIZEOF_MEM_BLOCK). split; [done|]. unfold OFF_REALBLOCK, SIZEOF_MEM_BLOCK in *. lia.
      - eapply data_not_meta; [exact H1|exact Hb|lia]. }
    exists b, (served n), (bzero p n s1). rewrite <- Hp. split_and!; try done. apply HM.
  Qed.

(** ** all_free *)

Definition without bs L : gmap Z Z := foldl (fun L (x : Z * Z) => delete x.1 L) L bs.

Lemma without_lookup bs : forall L u, without bs L !! u = if decide (u ∈ bs.*1) then None else L !! u.
  Proof.
    induction bs as [|[c z] bs IH]; intros L u; [done|].
    change (without bs (delete c L) !! u = if decide (u ∈ c :: bs.*1) then None else L !! u). rewrite IH.
    destruct (decide (u ∈ bs.*1)) as [Hu|Hu], (decide (u ∈ c :: bs.*1)) as [Hc|Hc];
      rewrite elem_of_cons in Hc; try done; try tauto.
    - destruct Hc as [->|]; [apply lookup_delete_eq|done].
    - apply lookup_delete_ne. intros ->. tauto.
  Qed.

Lemma all_free_loop_ok bs : forall fuel s L, pok s L -> disj L ->
    (forall b sz, (b, sz) ∈ bs -> L !! b = Some (sz + SIZEOF_MEM_BLOCK) /\ fits b sz /\ ldw s (b + OFF_SIZE) = sz) ->
    (forall pre b sz post, bs = pre ++ (b, sz) :: post -> ldw s b = hd 0 (post.*1)) ->
    NoDup (bs.*1) -> (length bs < fuel)%nat ->
    exists s', all_free_loop fuel (hd 0 (bs.*1)) s = Ret () s' /\ pok s' (without bs L) /\
      forall w, covered (without bs L) w -> ldw s' w = ldw s w.
  Proof.
    induction bs as [|[b sz] bs IH]; intros [|fuel] s L Hp Hd Hb Hn Hnd Hf; cbn [length] in Hf; try lia.
    { exists s. by split. }
    destruct (Hb b sz) as (Hl & (Hb0 & _ & _ & Hs0 & H31 & _) & Hsz); [by apply elem_of_cons; left|].
    cbn [all_free_loop hd fmap list_fmap fst]. rewrite (proj2 (Z.eqb_neq b 0)) by lia.
    rewrite Hsz. unfold n_next. rewrite (Hn [] b sz bs eq_refl).
    unfold SIZEOF_MEM_BLOCK in *. rewrite s32_id by (unfold is_s32; lia).
    destruct (pfree_ok s L b (sz + 24)) as (s1 & -> & Hp1 & Hw1); [done|done|]. cbn [obind].
    apply NoDup_cons in Hnd as [Hnb Hnd].
    assert (forall c z, (c, z) ∈ bs -> delete b L !! c = Some (z + 24) /\ 0 < z) as Hrest.
    { intros c z Hc. destruct (Hb c z) as (Hlc & (_ & _ & _ & ? & _) & _); [by apply elem_of_cons; right|].
      rewrite lookup_delete_ne; [done|]. intros <-. apply Hnb. by eapply fst_elem. }
    assert (forall c z w, (c, z) ∈ bs -> c <= w < c + 12 -> ldw s1 w = ldw s w) as Hkeep.
    { intros c z w Hc Hw. apply Hw1. destruct (Hrest c z Hc). exists c, (z + 24). split; [done|lia]. }
    destruct (IH fuel s1 (delete b L)) as (s' & -> & Hp' & Hw'); try done.
    - by apply disj_delete.
    - intros c z Hc. destruct (Hb c z) as (_ & Hfit & Hcs); [by apply elem_of_cons; right|]. destruct (Hrest c z Hc) as [? _].
      split_and!; try done. rewrite (Hkeep c z); [done|done|]. unfold OFF_SIZE. lia.
    - intros pre c z post ->. rewrite (Hkeep c z); [|apply elem_of_app; right; by apply elem_of_cons; left|lia]. by apply (Hn ((b, sz) :: pre) c z post).
    - lia.
    - exists s'. split; [done|]. split; [done|]. intros w Hc. rewrite Hw' by done. apply Hw1.
      destruct Hc as (u & a & Hu & Hwu). change (without bs (delete b L) !! u = Some a) in Hu. rewrite without_lookup in Hu. case_decide; [done|].
      by exists u, a.
  Qed.

Lemma all_free_ok s L bs fuel :
    heap_ok s L bs -> (length bs < fuel)%nat ->
    exists s', all_free fuel mdp s = Ret () s' /\ pok s' (without bs L) /\ dll (pwords s') mdp [] /\
      forall w, covered (without bs L) w -> w <> mdp -> w <> mdp + 4 -> ldw s' w = ldw s w.
  Proof.
    intros H Hf. pose proof (h_list _ _ _ _ H) as Hd.
    destruct (all_free_loop_ok bs fuel s L) as (s1 & Hloop & Hp1 & Hw1); try (by apply H); try done.
    - intros b sz Hb. destruct (h_live _ _ _ _ H _ _ Hb). split_and!; try done.
      by destruct (h_block _ _ _ _ H _ _ Hb).
    - intros pre b sz post ->. destruct Hd as [_ Hd]. rewrite fmap_app in Hd. cbn in Hd.
      destruct (Hd (pre.*1 ++ [b]) (post.*1)) as [Hb _]; [by rewrite <- app_assoc|].
      by rewrite List.last_last in Hb.
    - destruct (h_home _ _ _ _ H) as (u & a & Hu & Hu1 & Hu2 & Hnu).
      destruct (ixnewlist_spec (pwords s1) mdp) as [Hnil Hfr].
      unfold all_free, l_head. change (ldw s mdp) with (ld (pwords s) mdp). rewrite (dll_head _ _ _ Hd), Hloop.
      cbn [obind]. eexists. split; [done|]. rewrite pwords_pset. split; [|split; [done|]].
      + apply pwrite_ok; [done|]. intros w. destruct (decide (owns mdp [] w)) as [Ho|Ho]; [right|left; by apply Hfr].
        destruct Ho as (n & Hn & Hw). apply list_elem_of_singleton in Hn as ->.
        exists u, a. rewrite without_lookup. case_decide; [done|]. split; [done|lia].
      + intros w Hc H1 H2. rewrite ldw_pset. rewrite Hfr; [by apply Hw1|].
        intros (n & Hn & Hw). apply list_elem_of_singleton in Hn as ->. lia.
  Qed.

(** ** A process without blocks *)

Lemma heap_init s L u a :
    pok s L -> (forall v b, L !! v = Some b -> 0 < b) -> disj L -> 0 < mdp -> (4 | mdp) ->
    L !! u = Some a -> u <= mdp -> mdp + 12 <= u + a ->
    heap_ok (stw (pset s (ixnewlist (pwords s) mdp)) (mdp + OFF_USED) 0) L [].
  Proof.
    intros Hp Hpos Hd H0 H4 Hu H1 H2. destruct (ixnewlist_spec (pwords s) mdp) as [Hnil Hfr].
    set (s1 := pset s _). assert (pok s1 L) as Hp1.
    { apply pwrite_ok; [done|]. intros w. destruct (decide (owns mdp [] w)) as [Ho|Ho]; [right|left; by apply Hfr].
      destruct Ho as (n & Hn & Hw). apply list_elem_of_singleton in Hn as ->. exists u, a. split; [done|lia]. }
    unfold OFF_USED. split; try done.
    - apply stw_ok; [done|]. exists u, a. split; [done|lia].
    - exists u, a. split_and!; try done. apply not_elem_of_nil.
    - eapply dll_ext; [exact Hnil|]. intros w (n & Hn & Hw). apply list_elem_of_singleton in Hn as ->.
      change (ldw (stw s1 (mdp + 8) 0) w = ld (ixnewlist (pwords s) mdp) w).
      rewrite ldw_stw_ne by lia. unfold s1. by rewrite ldw_pset.
    - apply NoDup_nil_2.
    - intros b sz Hb. by apply not_elem_of_nil in Hb.
    - intros b sz Hb. by apply not_elem_of_nil in Hb.
    - unfold OFF_USED. rewrite ldw_stw_eq. done.
  Qed.
End HeapOps.
