(* ===== verification/HeapTheorems.v ===== *)
(** * Heap: theorems

    What malloc, free, memalign, realloc and all_free promise their client, for
    any allocator that keeps the laws of [Pool]; the buddy allocator is one, and
    the examples run on it. *)

From S2P Require Import Prelude Ixlist Pool Heap HeapOps Buddy BuddyTheorems BuddyPool.
Import Heap Buddy.Buddy.

Section Promises.
  Context {S : Type} `{HL : PoolLaws S pok} (cfg : config) (mdp : Z).
  Implicit Types (s : S) (L : gmap Z Z) (bs : list (Z * Z)).
  Notation heap_ok := (heap_ok (pok := pok) mdp).

(** C17. malloc returns NULL and leaves every live word as it was, or the data of a
    new block, at least as large as asked for, apart from all live memory: the
    process's list, counter and guards stay intact, the new block is at the end of
    the list, and no other memory changes.  It ends the process only when the
    kill flag is set for it, whatever the user answers to the requesters. *)
Theorem malloc_new_block s L bs answers size :
    heap_ok s L bs ->
    (exists s', malloc cfg mdp answers size s = Ret 0 s' /\ heap_ok s' L bs /\
       forall w, covered L w -> ldw s' w = ldw s w) \/
    (exists b sz s', malloc cfg mdp answers size s = Ret (b + OFF_REALBLOCK) s' /\ u32 size <= sz /\
       new_memory L b (sz + SIZEOF_MEM_BLOCK) /\
       heap_ok s' (<[b := sz + SIZEOF_MEM_BLOCK]> L) (bs ++ [(b, sz)]) /\
       forall w, covered L w -> ~ meta mdp bs w -> ldw s' w = ldw s w) \/
    (malloc cfg mdp answers size s = Panic "abort" /\ kill_on cfg).
  Proof.
    intros H. destruct (malloc_ok cfg mdp s L bs answers size H) as [(s' & E & H1 & H2)|[(p & s' & E & H31 & HM)|?]].
    - left. by exists s'.
    - right. left. exists (p - OFF_REALBLOCK), (served size), s'. destruct HM.
      replace (p - OFF_REALBLOCK + OFF_REALBLOCK) with p by lia. split_and!; try done.
      by apply served_ge.
    - by right; right.
  Qed.

(** Freeing a pointer to a block, as malloc or memalign returned it, never
    panics: the block leaves the list and the pool, and no other live memory but
    the list's own words changes. *)
Theorem free_gives_back s L bs1 b sz bs2 p :
    heap_ok s L (bs1 ++ (b, sz) :: bs2) -> names s p b sz ->
    exists s', free mdp p s = Ret () s' /\ heap_ok s' (delete b L) (bs1 ++ bs2) /\
      forall w, covered (delete b L) w -> ~ meta mdp (bs1 ++ bs2) w -> ldw s' w = ldw s w.
  Proof. apply heap_free_ok. Qed.

(** realloc of a block to a size above zero: when the block is large enough
    it is returned as it is; otherwise the result is NULL and the old block is
    kept, or a new block large enough whose first bytes are the data of the old
    one, which has been freed.  No other data changes. *)
Theorem realloc_keeps_contents s L bs1 b sz bs2 answers size :
    heap_ok s L (bs1 ++ (b, sz) :: bs2) -> 0 < u32 size ->
    let p := b + OFF_REALBLOCK in
    (u32 size <= sz /\ realloc cfg mdp answers p size s = Ret p s) \/
    (sz < u32 size /\ exists s', realloc cfg mdp answers p size s = Ret 0 s' /\
       heap_ok s' L (bs1 ++ (b, sz) :: bs2) /\ forall w, covered L w -> ldw s' w = ldw s w) \/
    (sz < u32 size /\ exists c z s', realloc cfg mdp answers p size s = Ret (c + OFF_REALBLOCK) s' /\
       u32 size <= z /\ new_memory L c (z + SIZEOF_MEM_BLOCK) /\
       heap_ok s' (delete b (<[c := z + SIZEOF_MEM_BLOCK]> L)) (bs1 ++ bs2 ++ [(c, z)]) /\
       (forall i, 0 <= i < sz -> (4 | i) -> ldw s' (c + OFF_REALBLOCK + i) = ldw s (p + i)) /\
       forall w, covered (delete b L) w -> ~ meta mdp (bs1 ++ bs2) w -> ldw s' w = ldw s w) \/
    (sz < u32 size /\ realloc cfg mdp answers p size s = Panic "abort" /\ kill_on cfg).
  Proof.
    intros H H0 p. assert ((b, sz) ∈ bs1 ++ (b, sz) :: bs2) as Hb by (rewrite elem_of_app, elem_of_cons; auto).
    destruct (Z_le_gt_dec (u32 size) sz) as [Hle|Hgt].
    - left. split; [done|]. eapply realloc_fits; [exact H|exact Hb|by left|lia].
    - right. destruct (realloc_grows cfg mdp s L bs1 b sz bs2 answers size H ltac:(lia))
        as [(s' & E & H1 & H2)|[(q & s' & E & Hz & HM)|[E Hk]]].
      + left. split; [lia|]. by exists s'.
      + right. left. split; [lia|]. exists (q - OFF_REALBLOCK), (served size), s'. destruct HM.
        replace (q - OFF_REALBLOCK + OFF_REALBLOCK) with q by lia. done.
      + right. right. split; [lia|done].
  Qed.

(** memalign with a power of two returns NULL, or an address that is a
    multiple of it with [size] bytes behind it inside a new block of the process;
    the address names its block, so that free gives back the whole block. *)
Theorem memalign_aligned s L bs answers k size :
    heap_ok s L bs -> 0 <= k < 24 -> 0 <= size -> size + 2 ^ k + SIZEOF_MEMALIGN_PTR < 2 ^ 31 ->
    (exists s', memalign cfg mdp answers (2 ^ k) size s = Ret 0 s' /\ heap_ok s' L bs) \/
    (exists p b sz s', memalign cfg mdp answers (2 ^ k) size s = Ret p s' /\ p mod 2 ^ k = 0 /\
       b + OFF_REALBLOCK <= p /\ p + size <= b + OFF_REALBLOCK + sz /\
       new_memory L b (sz + SIZEOF_MEM_BLOCK) /\
       heap_ok s' (<[b := sz + SIZEOF_MEM_BLOCK]> L) (bs ++ [(b, sz)]) /\
       exists s2, free mdp p s' = Ret () s2 /\ heap_ok s2 L bs) \/
    (memalign cfg mdp answers (2 ^ k) size s = Panic "abort" /\ kill_on cfg).
  Proof.
    intros H Hk Hs Hsum.
    destruct (memalign_ok cfg mdp s L bs answers k size H Hk Hs Hsum)
      as [(s' & E & H1 & _)|[(p & b & sz & s' & E & Hm & Hnew & H1 & Hn & Hin & _)|?]].
    - left. by exists s'.
    - right. left. exists p, b, sz, s'.
      destruct (heap_free_ok mdp s' _ bs b sz [] p H1 Hn) as (s2 & Ef & H2 & _).
      split_and!; try done.
      + destruct Hn as [->|[? _]]; lia.
      + exists s2. split; [done|]. rewrite app_nil_r in H2.
        rewrite delete_insert_id in H2; [done|]. by destruct Hnew as (_ & _ & _ & ? & _).
    - by right; right.
  Qed.

(** calloc returns NULL, or a new block whose first [size * num] bytes, the
    product taken in 32 bits, are zero. *)
Theorem calloc_zeroes s L bs answers num size :
    heap_ok s L bs ->
    (exists s', calloc cfg mdp answers num size s = Ret 0 s' /\ heap_ok s' L bs) \/
    (exists b sz s', calloc cfg mdp answers num size s = Ret (b + OFF_REALBLOCK) s' /\
       u32 (size * num) <= sz /\ new_memory L b (sz + SIZEOF_MEM_BLOCK) /\
       heap_ok s' (<[b := sz + SIZEOF_MEM_BLOCK]> L) (bs ++ [(b, sz)]) /\
       forall j, 0 <= j < u32 (size * num) -> byte_at s' (b + OFF_REALBLOCK) j = 0) \/
    (calloc cfg mdp answers num size s = Panic "abort" /\ kill_on cfg).
  Proof.
    intros H. destruct (calloc_ok cfg mdp s L bs answers num size H)
      as [(s' & E & H1)|[(b & sz & s' & E & -> & Hn & Hok & H31 & Hz)|?]]; [left; by exists s'| |by right; right].
    right. left. exists b, (served (u32 (size * num))), s'. split_and!; try done.
    rewrite <- (u32_id (u32 (size * num))) at 1 by apply u32_range. apply served_ge.
    by rewrite (u32_id (u32 (size * num))) by apply u32_range.
  Qed.

(** all_free, run when a process ends, gives every block of its list back to
    the pool, leaves the list empty, changes no other live memory and terminates:
    the loop makes one turn for each block. *)
Theorem all_free_releases_all s L bs :
    heap_ok s L bs ->
    exists s', all_free (Datatypes.S (length bs)) mdp s = Ret () s' /\ pok s' (without bs L) /\
      (forall b sz, (b, sz) ∈ bs -> without bs L !! b = None) /\ Ixlist.dll (pwords s') mdp [] /\
      forall w, covered (without bs L) w -> w <> mdp -> w <> mdp + 4 -> ldw s' w = ldw s w.
  Proof.
    intros H. destruct (all_free_ok mdp s L bs (Datatypes.S (length bs)) H ltac:(lia)) as (s' & E & Hp & Hd & Hw).
    exists s'. split_and!; try done. intros b sz Hb. rewrite without_lookup.
    case_decide as Hn; [done|]. destruct Hn. by eapply fst_elem.
  Qed.
End Promises.

(** ** Two errors *)

Section Errors.
  Context {S : Type} `{HL : PoolLaws S pok} (cfg : config) (mdp : Z).
  Implicit Types (s : S) (L : gmap Z Z) (bs : list (Z * Z)).
  Notation heap_ok := (heap_ok (pok := pok) mdp).

(** realloc of a pointer that memalign moved inside its block compares the
    new size with the size of the whole block: it returns the pointer although
    fewer bytes than asked for are left behind it. *)
Theorem realloc_aligned_too_small s L bs b sz p answers size :
    heap_ok s L bs -> (b, sz) ∈ bs -> names s p b sz -> p <> b + OFF_REALBLOCK ->
    b + OFF_REALBLOCK + sz - p < u32 size <= sz -> 0 < u32 size ->
    realloc cfg mdp answers p size s = Ret p s /\ b + OFF_REALBLOCK + sz < p + u32 size.
  Proof. intros H Hb Hn _ Hs H0. split; [eapply realloc_fits; eauto; lia|lia]. Qed.

(** calloc multiplies its arguments in 32 bits: when the product overflows it
    still succeeds with a block that is too small for the elements asked for. *)
Theorem calloc_overflow s L bs answers num size p s' :
    heap_ok s L bs -> calloc cfg mdp answers num size s = Ret p s' -> p <> 0 ->
    2 ^ 32 + 4 <= size * num -> u32 (size * num) < 2 ^ 31 ->
    exists b sz, p = b + OFF_REALBLOCK /\ new_memory L b (sz + SIZEOF_MEM_BLOCK) /\
      heap_ok s' (<[b := sz + SIZEOF_MEM_BLOCK]> L) (bs ++ [(b, sz)]) /\ sz < size * num.
  Proof.
    intros H E Hp Hbig Hsmall.
    destruct (calloc_ok cfg mdp s L bs answers num size H) as [(s2 & E2 & _)|[(b & sz & s2 & E2 & Hsz & Hnew & Hok & _)|[E2 _]]];
      rewrite E2 in E; try done; apply Ret_inj in E as [<- <-]; [done|].
    exists b, sz. split_and!; try done. subst sz. unfold served. rewrite (u32_id (u32 _)) by apply u32_range.
    pose proof (u32_range (size * num)) as Hu. unfold is_u32 in Hu. destruct (Z.eqb_spec (u32 (size * num)) 0).
    - assert (round4 4 = 4) as -> by by vm_compute. lia.
    - destruct (round4_spec (u32 (size * num))) as (_ & ? & _); [lia|]. lia.
  Qed.
End Errors.

(** ** kmalloc *)

Section Kernel.
  Context {S : Type} `{HL : PoolLaws S pok}.
  Implicit Types (s : S) (L : gmap Z Z).

(** kmalloc returns NULL, or new memory of the size rounded up to whole words
    with its length in front of it; kfree gives exactly that memory back, and no
    other live word has changed. *)
Theorem kmalloc_kfree s L size :
    pok s L -> 0 <= size -> size + 8 < 2 ^ 31 ->
    (exists s', kmalloc size s = Ret 0 s' /\ pok s' L) \/
    (exists p s' s2, kmalloc size s = Ret p s' /\ new_memory L (p - 4) (round4 size + 4) /\
       size <= round4 size /\ pok s' (<[p - 4 := round4 size + 4]> L) /\
       kfree p s' = Ret () s2 /\ pok s2 L /\ forall w, covered L w -> ldw s2 w = ldw s w).
  Proof.
    intros Hp H0 H1. unfold kmalloc.
    assert (size <= round4 size <= size + 3) as Hr by (rewrite round4_eq by lia; Z.div_mod_to_equations; lia).
    rewrite s32_id by (unfold is_s32; lia).
    destruct (palloc_ok s L (round4 size + 4) 1) as (r & s1 & -> & Hcase & Hw); [done|by right|]. cbn [obind].
    destruct Hcase as [[-> Hp1]|(Hr0 & _ & Hp1 & Hnew)]; [left; by exists s1|]. right.
    rewrite (proj2 (Z.eqb_neq r 0)) by done. cbn [negb].
    pose proof Hnew as (Hpos & _ & _ & Hn & Hnc).
    set (L1 := <[r := round4 size + 4]> L) in *.
    assert (covered L1 r) as Hc by (exists r, (round4 size + 4); split; [apply lookup_insert_eq|lia]).
    pose proof (stw_ok s1 L1 r (round4 size) Hp1 Hc) as Hp2.
    exists (r + 4), (stw s1 r (round4 size)). replace (r + 4 - 4) with r by lia.
    unfold kfree. rewrite (proj2 (Z.eqb_neq (r + 4) 0)) by lia. replace (r + 4 - 4) with r by lia.
    rewrite ldw_stw_eq, s32_id by (unfold is_s32; lia).
    destruct (pfree_ok _ L1 r (round4 size + 4) Hp2) as (s2 & E & Hp3 & Hw2); [apply lookup_insert_eq|].
    exists s2. split_and!; try done; [lia|unfold L1 in Hp3; by rewrite delete_insert_id in Hp3|].
    intros w Hcw. unfold L1 in Hw2. rewrite delete_insert_id in Hw2 by done. unfold ldw in *. rewrite Hw2 by done.
    change (ldw (stw s1 r (round4 size)) w = ldw s w). rewrite ldw_stw_ne; [by apply Hw|].
    intros <-. apply (Hnc r); [lia|done].
  Qed.
End Kernel.

(** ** On the buddy allocator

    A process whose struct user is the allocation of [after_one]. *)

#[local] Instance W_ops : PoolOps bstate := buddy_ops 1024 AllocMem_bump.
#[local] Instance W_laws : PoolLaws bstate (ok 1024) := buddy_laws 1024 AllocMem_bump AllocMem_bump_ok.

Definition no_kill : config := mk_config 0 (2 ^ 32 - 1).
Definition live0 : gmap Z Z := {[ 1484 := 100 ]}.
Definition proc0 : bstate :=
  stw (pset after_one (Ixlist.ixnewlist (pwords after_one) 1484)) (1484 + OFF_USED) 0.

Lemma proc0_ok : heap_ok (pok := ok 1024) 1484 proc0 live0 [].
Proof.
  apply (heap_init (pok := ok 1024) 1484 after_one live0 1484 100); try done.
  - eapply reach_ok; [apply AllocMem_bump_ok|apply placed_1024|apply reach_one].
  - intros v b Hv. unfold live0 in Hv. apply lookup_singleton_Some in Hv. lia.
  - intros u v a b Hu Hv. unfold live0 in *. apply lookup_singleton_Some in Hu as [<- _].
    apply lookup_singleton_Some in Hv as [<- _]. done.
  - by exists 371.
Qed.

Definition proc1 : bstate := match malloc no_kill 1484 [] 10 proc0 with Ret _ s => s | _ => proc0 end.
Definition live1 : gmap Z Z := <[67020 := 36]> live0.

Lemma malloc_10 : malloc no_kill 1484 [] 10 proc0 = Ret 67040 proc1.
Proof. vm_compute. reflexivity. Qed.

Lemma proc1_ok : heap_ok (pok := ok 1024) 1484 proc1 live1 [(67020, 12)].
Proof.
  destruct (malloc_ok (pok := ok 1024) no_kill 1484 proc0 live0 [] [] 10 proc0_ok)
    as [(s' & E & _)|[(p & s' & E & _ & HM)|[E _]]]; rewrite malloc_10 in E; [done| |done].
  apply Ret_inj in E as [<- <-]. apply HM.
Qed.

Lemma malloc_new_block_witness : exists b sz s',
  malloc no_kill 1484 [] 10 proc0 = Ret (b + OFF_REALBLOCK) s' /\ u32 10 <= sz.
Proof.
  destruct (malloc_new_block (pok := ok 1024) no_kill 1484 proc0 live0 [] [] 10 proc0_ok)
    as [(s' & E & _)|[(b & sz & s' & E & Hs & _)|[E _]]].
  - rewrite malloc_10 in E. apply Ret_inj in E as [E _]. discriminate E.
  - exists b, sz, s'. exact (conj E Hs).
  - rewrite malloc_10 in E. discriminate E.
Defined.

Lemma free_gives_back_witness : exists s', free 1484 67040 proc1 = Ret () s' /\
  heap_ok (pok := ok 1024) 1484 s' (delete 67020 live1) [].
Proof.
  destruct (free_gives_back (pok := ok 1024) 1484 proc1 live1 [] 67020 12 [] 67040 proc1_ok) as (s' & E & H & _).
  - left. reflexivity.
  - exists s'. exact (conj E H).
Defined.

(** Growing the block of 12 bytes to 100 either fails or moves it. *)
Lemma realloc_keeps_contents_witness : exists q s', realloc no_kill 1484 [] 67040 100 proc1 = Ret q s' /\ q <> 67040.
Proof.
  destruct (realloc_keeps_contents (pok := ok 1024) no_kill 1484 proc1 live1 [] 67020 12 [] [] 100 proc1_ok)
    as [[H _]|[(_ & s' & E & _)|[(_ & c & z & s' & E & _ & Hn & _)|(_ & _ & H)]]].
  - vm_compute. reflexivity.
  - exfalso. vm_compute in H. apply H. reflexivity.
  - exists 0, s'. split; [exact E|discriminate].
  - exists (c + OFF_REALBLOCK), s'. split; [exact E|]. intros Hc.
    assert (c = 67020) as -> by (unfold OFF_REALBLOCK in Hc; lia). destruct Hn as (_ & _ & _ & Hn & _).
    vm_compute in Hn. discriminate Hn.
  - exfalso. destruct H as [H|[H _]]; [discriminate H|apply H; reflexivity].
Defined.

Lemma memalign_aligned_witness : exists p s', memalign no_kill 1484 [] 4096 16 proc0 = Ret p s' /\ p mod 4096 = 0.
Proof.
  destruct (memalign_aligned (pok := ok 1024) no_kill 1484 proc0 live0 [] [] 12 16 proc0_ok)
    as [(s' & E & _)|[(p & b & sz & s' & E & Hm & _)|[_ H]]].
  - lia.
  - lia.
  - unfold SIZEOF_MEMALIGN_PTR. lia.
  - exists 0, s'. split; [exact E|reflexivity].
  - exists p, s'. exact (conj E Hm).
  - exfalso. destruct H as [H|[H _]]; [discriminate H|apply H; reflexivity].
Defined.

Lemma calloc_zeroes_witness : exists p s', calloc no_kill 1484 [] 3 5 proc0 = Ret p s'.
Proof.
  destruct (calloc_zeroes (pok := ok 1024) no_kill 1484 proc0 live0 [] [] 3 5 proc0_ok)
    as [(s' & E & _)|[(b & sz & s' & E & _)|[_ H]]].
  - exists 0, s'. exact E.
  - eexists _, s'. exact E.
  - exfalso. destruct H as [H|[H _]]; [discriminate H|apply H; reflexivity].
Defined.

Lemma all_free_releases_all_witness : exists s', all_free 2 1484 proc1 = Ret () s' /\
  Ixlist.dll (pwords s') 1484 [].
Proof.
  destruct (all_free_releases_all (pok := ok 1024) 1484 proc1 live1 [(67020, 12)] proc1_ok)
    as (s' & E & _ & _ & Hd & _). exists s'. exact (conj E Hd).
Defined.

(** A page for 16 bytes, in a block of 4116 bytes at 67016 of which 1520 are left
    behind the page boundary. *)
Definition procm : bstate := match malloc no_kill 1484 [] 4116 proc0 with Ret _ s => s | _ => proc0 end.
Definition proc2 : bstate := stw procm 69628 (mk_tag 2596).
Definition live2 : gmap Z Z := <[67016 := 4140]> live0.

Lemma malloc_4116 : malloc no_kill 1484 [] 4116 proc0 = Ret 67036 procm.
Proof. vm_compute. reflexivity. Qed.

Lemma memalign_page : memalign no_kill 1484 [] 4096 16 proc0 = Ret 69632 proc2.
Proof. vm_compute. reflexivity. Qed.

Lemma procm_ok : heap_ok (pok := ok 1024) 1484 procm live2 [(67016, 4116)].
Proof.
  destruct (malloc_ok (pok := ok 1024) no_kill 1484 proc0 live0 [] [] 4116 proc0_ok)
    as [(s' & E & _)|[(p & s' & E & _ & HM)|[E _]]]; rewrite malloc_4116 in E; [done| |done].
  apply Ret_inj in E as [<- <-]. apply HM.
Qed.

Lemma proc2_ok : heap_ok (pok := ok 1024) 1484 proc2 live2 [(67016, 4116)].
Proof.
  apply heap_write; [apply procm_ok| |].
  - exists 67016, 4140. split; [done|lia].
  - eapply data_not_meta; [apply procm_ok|by apply list_elem_of_singleton|unfold OFF_REALBLOCK; lia].
Qed.

Lemma realloc_aligned_too_small_witness :
  realloc no_kill 1484 [] 69632 4000 proc2 = Ret 69632 proc2 /\ 67016 + OFF_REALBLOCK + 4116 < 69632 + u32 4000.
Proof.
  apply (realloc_aligned_too_small (pok := ok 1024) no_kill 1484 proc2 live2 [(67016, 4116)] 67016 4116);
    [apply proc2_ok|apply list_elem_of_singleton; reflexivity| |discriminate|vm_compute; split; congruence|reflexivity].
  right. unfold OFF_REALBLOCK, proc2. rewrite ldw_stw_eq. split; [lia|]. split; [exists 17408; reflexivity|].
  split; [lia|reflexivity].
Defined.

Definition procc : bstate := match calloc no_kill 1484 [] 858993461 5 proc0 with Ret _ s => s | _ => proc0 end.

Lemma calloc_big : calloc no_kill 1484 [] 858993461 5 proc0 = Ret 67040 procc.
Proof. vm_compute. reflexivity. Qed.

Lemma calloc_overflow_witness : exists b sz, 67040 = b + OFF_REALBLOCK /\ sz < 5 * 858993461.
Proof.
  destruct (calloc_overflow (pok := ok 1024) no_kill 1484 proc0 live0 [] [] 858993461 5 67040 procc proc0_ok calloc_big)
    as (b & sz & Hb & _ & _ & Hs); [discriminate|lia|reflexivity|].
  exists b, sz. exact (conj Hb Hs).
Defined.

Lemma kmalloc_kfree_witness : exists p s', kmalloc 50 after_one = Ret p s'.
Proof.
  destruct (kmalloc_kfree (pok := ok 1024) after_one live0 50)
    as [(s' & E & _)|(p & s' & s2 & E & _)].
  - eapply reach_ok; [apply AllocMem_bump_ok|apply placed_1024|apply reach_one].
  - lia.
  - lia.
  - exists 0, s'. exact E.
  - exists p, s'. exact E.
Defined.
