(* ===== verification/Timers.v ===== *)
(** * Timers: interval timers and resource usage

    Models library/kern_time.c (its compiled first half), ix_timer and addupc
    (library/ix_timer.c, library/trap.S), profil (library/profil.c), ruadd
    (library/vfork.c) and the timer part of struct user.  The timer interrupt
    gives a signal to the process with [Sig.psignal]; the result of [ix_timer]
    lists the signals it has sent.  [timer_resolution] is the time between two
    interrupts in microseconds, fixed when the library is initialised. *)

From S2P Require Import Prelude Signals.
Import Sig.

Module Timers.

(** ** Data *)

Definition ITIMER_REAL : Z := 0.
Definition ITIMER_VIRTUAL : Z := 1.
Definition ITIMER_PROF : Z := 2.
Definition SIGALRM : Z := 14.
Definition SIGVTALRM : Z := 26.
Definition SIGPROF : Z := 27.

Record timeval := mkTv { tv_sec : Z; tv_usec : Z }.
Record itimerval := mkIt { it_interval : timeval; it_value : timeval }.

(** struct uprof, [pr_base] as the shorts it points to. *)
Record uprof := mkProf { pr_buf : list Z; pr_size : Z; pr_off : Z; pr_scale : Z }.

(** struct rusage, the fields from [ru_first] to [ru_last] as an array. *)
Record rusage := mkRu { ru_utime : timeval; ru_stime : timeval; ru_maxrss : Z; ru_counts : list Z }.

Record tproc := mkT {
  u_timer : list itimerval; u_ru : rusage; u_prof : uprof; u_prof_last_pc : Z;
  u_start_pc : Z; u_end_pc : Z; u_sigs : user
}.

Definition set_u_timer (p : tproc) v : tproc :=
  mkT v (u_ru p) (u_prof p) (u_prof_last_pc p) (u_start_pc p) (u_end_pc p) (u_sigs p).
Definition set_u_ru (p : tproc) v : tproc :=
  mkT (u_timer p) v (u_prof p) (u_prof_last_pc p) (u_start_pc p) (u_end_pc p) (u_sigs p).
Definition set_u_prof (p : tproc) v : tproc :=
  mkT (u_timer p) (u_ru p) v (u_prof_last_pc p) (u_start_pc p) (u_end_pc p) (u_sigs p).
Definition set_u_sigs (p : tproc) v : tproc :=
  mkT (u_timer p) (u_ru p) (u_prof p) (u_prof_last_pc p) (u_start_pc p) (u_end_pc p) v.

Definition timerisset (t : timeval) : bool := negb (tv_sec t =? 0) || negb (tv_usec t =? 0).

(** ** Arithmetic on timevals *)

Definition timevalfix (t : timeval) : timeval :=
  let t := if tv_usec t <? 0 then mkTv (s32 (tv_sec t - 1)) (s32 (tv_usec t + 1000000)) else t in
  if 1000000 <=? tv_usec t then mkTv (s32 (tv_sec t + 1)) (s32 (tv_usec t - 1000000)) else t.

Definition timevaladd (t1 t2 : timeval) : timeval :=
  timevalfix (mkTv (s32 (tv_sec t1 + tv_sec t2)) (s32 (tv_usec t1 + tv_usec t2))).

Definition timevalsub (t1 t2 : timeval) : timeval :=
  timevalfix (mkTv (s32 (tv_sec t1 - tv_sec t2)) (s32 (tv_usec t1 - tv_usec t2))).

(** [ruadd]: the loop runs [&ru_last - &ru_first] times, so it leaves out the
    last of the fields. *)
Fixpoint ruadd_loop (i : nat) (ip ip2 : list Z) : list Z :=
  match i, ip, ip2 with
  | S i, a :: ip, b :: ip2 => s32 (a + b) :: ruadd_loop i ip ip2
  | _, _, _ => ip
  end.

Definition ruadd (ru ru2 : rusage) : rusage :=
  mkRu (timevaladd (ru_utime ru) (ru_utime ru2)) (timevaladd (ru_stime ru) (ru_stime ru2))
    (if ru_maxrss ru <? ru_maxrss ru2 then ru_maxrss ru2 else ru_maxrss ru)
    (ruadd_loop (length (ru_counts ru) - 1) (ru_counts ru) (ru_counts ru2)).

(** ** itimerdecr

    The result is the return value and the timer. *)

Definition itimer_expire (usec : Z) (itp : itimerval) : Z * itimerval :=
  let iv := it_interval itp in
  if timerisset iv then
    let v := mkTv (tv_sec iv) (s32 (tv_usec iv - usec)) in
    let v := if tv_usec v <? 0 then mkTv (s32 (tv_sec v - 1)) (s32 (tv_usec v + 1000000)) else v in
    (0, mkIt iv v)
  else (0, mkIt iv (mkTv (tv_sec (it_value itp)) 0)).

Definition itimerdecr (itp : itimerval) (usec : Z) : Z * itimerval :=
  let v := it_value itp in
  if (tv_usec v <? usec) && (tv_sec v =? 0) then itimer_expire (s32 (usec - tv_usec v)) itp
  else
    let v := if tv_usec v <? usec then mkTv (s32 (tv_sec v - 1)) (s32 (tv_usec v + 1000000)) else v in
    let v := mkTv (tv_sec v) (s32 (tv_usec v - usec)) in
    let itp := mkIt (it_interval itp) v in
    if timerisset v then (1, itp) else itimer_expire 0 itp.

(** ** addupc and profil *)

Definition addupc (pc : Z) (prof : uprof) (ticks : Z) : option uprof :=
  let d := s32 pc - s32 (pr_off prof) in
  if d <? 0 then Some prof
  else
    let d := Z.shiftr d 1 in
    let d := Z.shiftr (u32 (d * Z.shiftr (u32 (pr_scale prof)) 1)) 14 in
    let d := bclr d 1 in
    if s32 (pr_size prof) <=? d then Some prof
    else
      match aget (pr_buf prof) (d / 2) with
      | None => None
      | Some n => Some (mkProf (aput (pr_buf prof) (d / 2) (u16 (n + ticks))) (pr_size prof) (pr_off prof) (pr_scale prof))
      end.

Definition profil (buff : list Z) (bufsiz offset scale : Z) (p : tproc) : tproc :=
  set_u_prof p (mkProf buff bufsiz offset scale).

Section Resolution.
Context (timer_resolution : Z).

(** ** getitimer, setitimer *)

(** The error, if any, and the value after rounding. *)
Definition itimerfix (tv : timeval) : option Z * timeval :=
  if (tv_sec tv <? 0) || (100000000 <? tv_sec tv) || (tv_usec tv <? 0) || (1000000 <=? tv_usec tv)
  then (Some EINVAL, tv)
  else if (tv_sec tv =? 0) && negb (tv_usec tv =? 0) && (tv_usec tv <? timer_resolution)
  then (None, mkTv (tv_sec tv) timer_resolution)
  else (None, tv).

Definition fail (e : Z) (p : tproc) : tproc := set_u_sigs p (set_u_errno (u_sigs p) e).

(** [itv]: whether the pointer is not NULL; the result carries what is stored. *)
Definition getitimer (which : Z) (itv : bool) (p : tproc) : outcome tproc (Z * option itimerval) :=
  if (ITIMER_PROF <? u32 which) || negb itv then Ret (-1, None) (fail EINVAL p)
  else let? t := aget (u_timer p) (u32 which) in Ret (0, Some t) p.

(** The result carries what is stored in [oitv] and in [itv], which the
    rounding changes in place. *)
Definition setitimer (which : Z) (itv : option itimerval) (oitv : bool) (p : tproc)
  : outcome tproc (Z * option itimerval * option itimerval) :=
  if ITIMER_PROF <? u32 which then Ret (-1, None, itv) (fail EINVAL p)
  else
    let* (r, p) := if oitv then getitimer which true p else Ret (0, None) p in
    if negb (r.1 =? 0) then Ret (-1, r.2, itv) p
    else
      match itv with
      | None => Ret (0, r.2, None) p
      | Some it =>
        let '(e, v) := itimerfix (it_value it) in
        match e with
        | Some e => Ret (-1, r.2, Some it) (fail EINVAL (fail e p))
        | None =>
          let it := mkIt (it_interval it) v in
          let '(e, i) := itimerfix (it_interval it) in
          match e with
          | Some e => Ret (-1, r.2, Some it) (fail EINVAL (fail e p))
          | None =>
            let it := mkIt i (it_value it) in
            Ret (0, r.2, Some it) (set_u_timer p (aput (u_timer p) (u32 which) it))
          end
        end
      end.

(** ** ix_timer *)

(** [if (timerisset (&tim->it_value) && !itimerdecr (tim, resolution))
    _psignal (me, sig)] *)
Definition decr_timer (which sig : Z) (p : tproc) : outcome tproc (list Z) :=
  let? tim := aget (u_timer p) which in
  if timerisset (it_value tim) then
    let '(r, tim) := itimerdecr tim timer_resolution in
    let p := set_u_timer p (aput (u_timer p) which tim) in
    if r =? 0 then Ret [sig] (set_u_sigs p (psignal true sig (u_sigs p))) else Ret [] p
  else Ret [] p.

Definition charge (is_user : bool) (ru : rusage) : rusage :=
  let tv := if is_user then ru_utime ru else ru_stime ru in
  let tv := mkTv (tv_sec tv) (s32 (tv_usec tv + timer_resolution)) in
  let tv := if 1000000 <=? tv_usec tv then mkTv (s32 (tv_sec tv + 1)) (s32 (tv_usec tv - 1000000)) else tv in
  if is_user then mkRu tv (ru_stime ru) (ru_maxrss ru) (ru_counts ru)
  else mkRu (ru_utime ru) tv (ru_maxrss ru) (ru_counts ru).

Definition ix_profile_method_mask : Z := 0xC000.
Definition IX_PROFILE_PROGRAM : Z := 0.
Definition IX_PROFILE_TASK : Z := 0x4000.
Definition IX_PROFILE_ALWAYS : Z := 0x8000.

Definition profile (ix_flags current_pc : Z) (current : bool) (p : tproc) : outcome tproc () :=
  let hit pc := let? prof := addupc pc (u_prof p) 1 in Ret tt (set_u_prof p prof) in
  let m := Z.land ix_flags ix_profile_method_mask in
  if m =? IX_PROFILE_PROGRAM then if negb (pr_scale (u_prof p) =? 0) then hit current_pc else Ret tt p
  else if m =? IX_PROFILE_TASK then
    if current && negb (pr_scale (u_prof p) =? 0) then hit (u_prof_last_pc p) else Ret tt p
  else if m =? IX_PROFILE_ALWAYS then
    if negb (pr_scale (u_prof p) =? 0) then hit (u_prof_last_pc p) else Ret tt p
  else Ret tt p.

Definition in_program (p : tproc) (pc : Z) : bool := (u_start_pc p <=? pc) && (pc <? u_end_pc p).

(** One interrupt: [current] when the interrupted task is the process itself,
    at [current_pc]. *)
Definition ix_timer (ix_flags current_pc : Z) (current : bool) (p : tproc) : outcome tproc (list Z) :=
  let* (s1, p) := decr_timer ITIMER_REAL SIGALRM p in
  let* (s2, p) :=
    if current then
      let is_user := in_program p current_pc in
      let* (s2, p) := if is_user then decr_timer ITIMER_VIRTUAL SIGVTALRM p else Ret [] p in
      let* (s3, p) := decr_timer ITIMER_PROF SIGPROF p in
      Ret (s2 ++ s3) (set_u_ru p (charge is_user (u_ru p)))
    else Ret [] p in
  let* (_u, p) := profile ix_flags current_pc current p in
  Ret (s1 ++ s2) p.

(** A run of interrupts: each with the task that it interrupts. *)
Fixpoint run_timer (ix_flags : Z) (ticks : list (bool * Z)) (p : tproc) : outcome tproc (list Z) :=
  match ticks with
  | [] => Ret [] p
  | (current, pc) :: ticks =>
    let* (s1, p) := ix_timer ix_flags pc current p in
    let* (s2, p) := run_timer ix_flags ticks p in
    Ret (s1 ++ s2) p
  end.
End Resolution.
End Timers.
