(* ===== verification/TimersTheorems.v ===== *)
(** * Timers: theorems

    An interval timer counts its microseconds exactly, however the interrupts
    fall: the k-th signal is sent by the first interrupt not before
    [value + k * interval]. *)

From S2P Require Import Prelude Signals Timers.
Import Sig Timers.

(** Removes the conversions of values that are in range. *)
Ltac s32s := repeat match goal with |- context[s32 ?x] => rewrite (s32_id x) by (unfold is_s32; lia) end.

(** ** Timevals *)

Definition usecs (t : timeval) : Z := tv_sec t * 1000000 + tv_usec t.

(** A normalised time, not before the beginning, and one that may be. *)
Definition tv_norm (t : timeval) : Prop := 0 <= tv_usec t < 1000000 /\ 0 <= tv_sec t < 2 ^ 31.
Definition tv_wf (t : timeval) : Prop := 0 <= tv_usec t < 1000000 /\ is_s32 (tv_sec t).

Lemma tv_norm_wf t : tv_norm t -> tv_wf t.
Proof. unfold tv_norm, tv_wf, is_s32. lia. Qed.

Lemma usecs_nonneg t : tv_norm t -> 0 <= usecs t.
Proof. unfold tv_norm, usecs. lia. Qed.

Lemma usecs_inj t1 t2 : tv_wf t1 -> tv_wf t2 -> usecs t1 = usecs t2 -> t1 = t2.
Proof.
  destruct t1 as [s1 u1], t2 as [s2 u2]. unfold tv_wf, usecs. cbn. intros Ha Hb H.
  assert (s1 = s2) as -> by lia. f_equal. lia.
Qed.

Lemma timerisset_usecs t : tv_norm t -> timerisset t = negb (usecs t =? 0).
Proof.
  unfold tv_norm, timerisset, usecs. intros [].
  destruct (Z.eqb_spec (tv_sec t) 0), (Z.eqb_spec (tv_usec t) 0), (Z.eqb_spec (tv_sec t * 1000000 + tv_usec t) 0); cbn; lia.
Qed.

(** [timevalfix] keeps the meaning and normalises one carry or borrow. *)
Lemma timevalfix_spec t :
  -1000000 <= tv_usec t < 2000000 -> - 2 ^ 31 + 1 <= tv_sec t < 2 ^ 31 - 1 ->
  tv_wf (timevalfix t) /\ usecs (timevalfix t) = usecs t.
Proof.
  destruct t as [s u]. unfold timevalfix, tv_wf, usecs, is_s32. cbn [tv_sec tv_usec]. intros Hu Hs.
  destruct (Z.ltb_spec u 0); cbn [tv_sec tv_usec].
  - s32s. destruct (Z.leb_spec 1000000 (u + 1000000)); cbn [tv_sec tv_usec]; [lia|].
    split; lia.
  - destruct (Z.leb_spec 1000000 u); cbn [tv_sec tv_usec]; [|lia]. s32s. lia.
Qed.

Lemma timevaladd_spec t1 t2 :
  tv_wf t1 -> tv_wf t2 -> - 2 ^ 31 + 1 <= tv_sec t1 + tv_sec t2 < 2 ^ 31 - 1 ->
  tv_wf (timevaladd t1 t2) /\ usecs (timevaladd t1 t2) = usecs t1 + usecs t2.
Proof.
  intros H1 H2 Hs. unfold timevaladd. unfold tv_wf in H1, H2.
  s32s. destruct (timevalfix_spec (mkTv (tv_sec t1 + tv_sec t2) (tv_usec t1 + tv_usec t2))) as [? ->];
    cbn; [lia|lia|]. split; [done|]. unfold usecs. cbn. lia.
Qed.

Lemma timevalsub_spec t1 t2 :
  tv_wf t1 -> tv_wf t2 -> - 2 ^ 31 + 1 <= tv_sec t1 - tv_sec t2 < 2 ^ 31 - 1 ->
  tv_wf (timevalsub t1 t2) /\ usecs (timevalsub t1 t2) = usecs t1 - usecs t2.
Proof.
  intros H1 H2 Hs. unfold timevalsub. unfold tv_wf in H1, H2.
  s32s. destruct (timevalfix_spec (mkTv (tv_sec t1 - tv_sec t2) (tv_usec t1 - tv_usec t2))) as [? ->];
    cbn; [lia|lia|]. split; [done|]. unfold usecs. cbn. lia.
Qed.

(** ** One step of a timer *)

Section Decr.
Context (res : Z) (Hres : 0 < res < 1000000).

(** What setitimer stores: the interval is 0 or not below the resolution. *)
Definition itimer_ok (it : itimerval) : Prop :=
  tv_norm (it_value it) /\ tv_norm (it_interval it) /\
  (usecs (it_interval it) = 0 \/ res <= usecs (it_interval it)).

(** A countdown of [v] microseconds, reloaded with [i]: the step of [res]. *)
Definition step_value (v i : Z) : Z :=
  if v =? 0 then 0 else if res <? v then v - res else if i =? 0 then 0 else i - (res - v).
Definition step_fires (v : Z) : bool := negb (v =? 0) && (v <=? res).

Lemma itimer_expire_spec c it :
  itimer_ok it -> 0 <= c < res -> (usecs (it_interval it) = 0 -> tv_sec (it_value it) = 0) ->
  let '(r, it') := itimer_expire c it in
  r = 0 /\ it_interval it' = it_interval it /\ tv_norm (it_value it') /\
  usecs (it_value it') = if usecs (it_interval it) =? 0 then 0 else usecs (it_interval it) - c.
  Proof.
    intros (Hv & Hi & Hr) Hc H0. unfold itimer_expire. rewrite timerisset_usecs by done.
    destruct (Z.eqb_spec (usecs (it_interval it)) 0) as [E|E]; cbn [negb].
    - rewrite H0 by done. split_and!; cbn; try done; unfold tv_norm, usecs in *; cbn; lia.
    - unfold tv_norm, usecs in *. destruct (it_interval it) as [s u]. cbn [tv_sec tv_usec it_value it_interval] in *.
      s32s. destruct (Z.ltb_spec (u - c) 0); cbn [tv_sec tv_usec it_value].
      + s32s. split_and!; try done; lia.
      + split_and!; try done; lia.
  Qed.

(** What itimerdecr promises of its result for the timer [it]. *)
Definition decr_result (it : itimerval) (x : Z * itimerval) : Prop :=
  itimer_ok (x.2) /\ it_interval (x.2) = it_interval it /\
  usecs (it_value (x.2)) = step_value (usecs (it_value it)) (usecs (it_interval it)) /\
  x.1 = if step_fires (usecs (it_value it)) then 0 else 1.

(** The timer ends [c] microseconds before the interrupt. *)
Lemma expire_result c it it2 :
  itimer_ok it -> 0 < usecs (it_value it) -> 0 <= c -> usecs (it_value it) = res - c ->
  itimer_ok it2 -> it_interval it2 = it_interval it -> tv_sec (it_value it2) = 0 ->
  decr_result it (itimer_expire c it2).
  Proof.
    intros Hok Hpos Hc Hv Hok2 Hii Hs2.
    pose proof (itimer_expire_spec c it2 Hok2 ltac:(lia) (fun _ => Hs2)) as He.
    unfold decr_result. destruct (itimer_expire c it2) as [r it']. destruct He as (-> & Hi' & Hn & Hu).
    rewrite Hii in *. cbn [fst snd].
    assert (step_fires (usecs (it_value it)) = true) as Hf.
    { unfold step_fires. rewrite (proj2 (Z.eqb_neq _ 0)), (proj2 (Z.leb_le _ _)) by lia. done. }
    rewrite Hf, Hu. destruct Hok as (_ & ? & ?). split_and!; try done; [by unfold itimer_ok; rewrite Hi'|].
    unfold step_value. rewrite (proj2 (Z.eqb_neq (usecs (it_value it)) 0)), (proj2 (Z.ltb_ge _ _)) by lia.
    case_match; lia.
  Qed.

(** The timer is left with [s' * 1000000 + u'] microseconds. *)
Lemma counted_result it s' u' :
  itimer_ok it -> 0 < usecs (it_value it) -> 0 <= u' < 1000000 -> 0 <= s' < 2 ^ 31 ->
  s' * 1000000 + u' = usecs (it_value it) - res ->
  let it' := mkIt (it_interval it) (mkTv s' u') in
  decr_result it (if timerisset (it_value it') then (1, it') else itimer_expire 0 it').
  Proof.
    intros Hok Hpos Hu Hs Heq it'. pose proof Hok as (_ & Hi & Hr).
    assert (tv_norm (mkTv s' u')) as Hn by (split; cbn; lia).
    assert (itimer_ok it') as Hok' by done.
    cbn [it_value it']. rewrite timerisset_usecs by done. unfold usecs at 1. cbn [tv_sec tv_usec].
    destruct (Z.eqb_spec (s' * 1000000 + u') 0) as [E|E]; cbn [negb].
    - apply expire_result; try done; cbn; lia.
    - unfold decr_result, step_value, step_fires. cbn [fst snd].
      rewrite (proj2 (Z.eqb_neq (usecs (it_value it)) 0)) by lia.
      rewrite (proj2 (Z.ltb_lt _ _)), (proj2 (Z.leb_gt _ _)) by lia. done.
  Qed.

Lemma itimerdecr_spec it : itimer_ok it -> usecs (it_value it) <> 0 -> decr_result it (itimerdecr it res).
  Proof.
    intros Hok H0. pose proof Hok as (Hv & _ & _).
    assert (0 < usecs (it_value it)) as Hpos by (pose proof (usecs_nonneg _ Hv); lia).
    pose proof Hv as [Hv1 Hv2]. pose proof Hpos as Hpos'. unfold usecs in Hpos'. unfold itimerdecr.
    destruct (Z.ltb_spec (tv_usec (it_value it)) res); cbn [andb].
    - destruct (Z.eqb_spec (tv_sec (it_value it)) 0) as [Hs|Hs]; cbn [tv_sec tv_usec]; s32s.
      + apply expire_result; try done; [lia|]. unfold usecs. lia.
      + apply counted_result; try done; unfold usecs; lia.
    - cbn [tv_sec tv_usec]. s32s. apply counted_result; try done; unfold usecs; lia.
  Qed.

(** ** Many steps *)

(** After [t] microseconds: how often the countdown has ended, and what is left. *)
Definition expiries (v i t : Z) : Z :=
  if v =? 0 then 0 else if t <? v then 0 else if i =? 0 then 1 else 1 + (t - v) / i.
Definition remaining (v i t : Z) : Z :=
  if v =? 0 then 0 else if t <? v then v - t else if i =? 0 then 0 else i - (t - v) mod i.

Lemma step_nonneg v i : 0 <= v -> i = 0 \/ res <= i -> 0 <= step_value v i.
  Proof. unfold step_value. intros. repeat case_match; lia. Qed.

Lemma expiries_step v i t :
  0 <= v -> i = 0 \/ res <= i -> 0 <= t ->
  expiries v i (t + res) = (if step_fires v then 1 else 0) + expiries (step_value v i) i t /\
  remaining v i (t + res) = remaining (step_value v i) i t.
  Proof.
    intros Hv Hi Ht. unfold expiries, remaining, step_value, step_fires.
    destruct (Z.eqb_spec v 0) as [->|]; [done|]. cbn [negb andb].
    destruct (Z.ltb_spec res v) as [Hlt|Hge].
    - rewrite (proj2 (Z.leb_gt v res)), (proj2 (Z.eqb_neq (v - res) 0)) by lia.
      destruct (Z.ltb_spec (t + res) v), (Z.ltb_spec t (v - res)); try lia.
      replace (t + res - v) with (t - (v - res)) by lia. destruct (i =? 0); lia.
    - rewrite (proj2 (Z.leb_le v res)), (proj2 (Z.ltb_ge (t + res) v)) by lia.
      destruct (Z.eqb_spec i 0) as [->|Hi0]; [done|].
      rewrite (proj2 (Z.eqb_neq (i - (res - v)) 0)) by lia.
      destruct (Z.ltb_spec t (i - (res - v))).
      + rewrite Z.div_small, Z.mod_small by lia. lia.
      + replace (t + res - v) with (t - (i - (res - v)) + 1 * i) by lia.
        rewrite Z.div_add, Z.mod_add by lia. lia.
  Qed.

Lemma expiries_zero v i : 0 <= v -> expiries v i 0 = 0 /\ remaining v i 0 = v.
  Proof.
    intros Hv. unfold expiries, remaining. destruct (Z.eqb_spec v 0) as [->|]; [done|].
    rewrite (proj2 (Z.ltb_lt 0 v)) by lia. lia.
  Qed.
End Decr.

(** ** One interrupt *)

Definition sig_of (which : Z) : Z :=
  if which =? ITIMER_REAL then SIGALRM else if which =? ITIMER_VIRTUAL then SIGVTALRM else SIGPROF.

Definition posted (sig : Z) (sigs : list Z) : Z := Z.of_nat (length (filter (eq sig) sigs)).

Lemma posted_app sig l1 l2 : posted sig (l1 ++ l2) = posted sig l1 + posted sig l2.
Proof. unfold posted. rewrite filter_app, length_app. lia. Qed.

Definition post_all (sigs : list Z) (u : user) : user := fold_left (fun u s => psignal true s u) sigs u.

Lemma post_all_app l1 l2 u : post_all (l1 ++ l2) u = post_all l2 (post_all l1 u).
Proof. apply fold_left_app. Qed.

(** Which timers an interrupt counts for. *)
Definition counts_for (p : tproc) (current : bool) (pc : Z) (which : Z) : bool :=
  if which =? ITIMER_REAL then true
  else if which =? ITIMER_VIRTUAL then current && in_program p pc
  else (which =? ITIMER_PROF) && current.

Section Tick.
Context (res : Z) (Hres : 0 < res < 1000000).
Implicit Types (p : tproc) (e : Z -> bool).
Notation itimer_ok := (itimer_ok res).

(** The timers for which [e] holds have made one step, and nothing but them and
    the signals sent has changed. *)
Record ticked e p (sigs : list Z) p' : Prop := {
  tk_timers w it : aget (u_timer p) w = Some it -> itimer_ok it -> exists it',
    aget (u_timer p') w = Some it' /\ itimer_ok it' /\ it_interval it' = it_interval it /\
    usecs (it_value it') = if e w then step_value res (usecs (it_value it)) (usecs (it_interval it)) else usecs (it_value it);
  tk_posted w it : aget (u_timer p) w = Some it -> itimer_ok it ->
    posted (sig_of w) sigs = if e w && step_fires res (usecs (it_value it)) then 1 else 0;
  tk_only s : s ∈ sigs -> s = SIGALRM \/ s = SIGVTALRM \/ s = SIGPROF;
  tk_length : length (u_timer p') = length (u_timer p);
  tk_sigs : u_sigs p' = post_all sigs (u_sigs p);
  tk_pc pc : in_program p' pc = in_program p pc
}.

Lemma ticked_refl p : ticked (fun _ => false) p [] p.
  Proof. split; try done; [|intros; by apply not_elem_of_nil in H]. intros w it Hw. exists it. done. Qed.

Lemma ticked_trans e1 e2 p s1 p1 s2 p2 :
  ticked e1 p s1 p1 -> ticked e2 p1 s2 p2 -> (forall w, e1 w && e2 w = false) ->
  ticked (fun w => e1 w || e2 w) p (s1 ++ s2) p2.
  Proof.
    intros H1 H2 Hd. split.
    - intros w it Hw Hok. destruct (tk_timers _ _ _ _ H1 w it Hw Hok) as (i1 & Hw1 & Hok1 & Hi1 & Hv1).
      destruct (tk_timers _ _ _ _ H2 w i1 Hw1 Hok1) as (i2 & Hw2 & Hok2 & Hi2 & Hv2).
      exists i2. split_and!; try done; [congruence|]. rewrite Hv2, Hi1, Hv1. specialize (Hd w).
      destruct (e1 w), (e2 w); done.
    - intros w it Hw Hok. destruct (tk_timers _ _ _ _ H1 w it Hw Hok) as (i1 & Hw1 & Hok1 & _ & Hv1).
      rewrite posted_app, (tk_posted _ _ _ _ H1 w it Hw Hok), (tk_posted _ _ _ _ H2 w i1 Hw1 Hok1), Hv1.
      specialize (Hd w). destruct (e1 w), (e2 w); cbn; try done. lia.
    - intros s [Hs|Hs]%elem_of_app; [by eapply (tk_only _ _ _ _ H1)|by eapply (tk_only _ _ _ _ H2)].
    - rewrite (tk_length _ _ _ _ H2). apply H1.
    - rewrite (tk_sigs _ _ _ _ H2), (tk_sigs _ _ _ _ H1). symmetry. apply post_all_app.
    - intros pc. rewrite (tk_pc _ _ _ _ H2). apply H1.
  Qed.

Lemma ticked_ext e e' p s p' : ticked e p s p' -> (forall w, e w = e' w) -> ticked e' p s p'.
  Proof. intros [] He. split; try done; intros; rewrite <- He; eauto. Qed.

Lemma timer_index w p it : length (u_timer p) = 3%nat -> aget (u_timer p) w = Some it -> w = 0 \/ w = 1 \/ w = 2.
  Proof. intros Hl Hw%aget_Some_range. lia. Qed.

Lemma sig_of_inj w v : (w = 0 \/ w = 1 \/ w = 2) -> (v = 0 \/ v = 1 \/ v = 2) -> sig_of w = sig_of v -> w = v.
  Proof. intros [->|[->| ->]] [->|[->| ->]]; done. Qed.

Lemma posted_one w v : posted (sig_of w) [sig_of v] = if sig_of w =? sig_of v then 1 else 0.
  Proof. unfold posted. rewrite filter_cons. case_decide; destruct (Z.eqb_spec (sig_of w) (sig_of v)); done. Qed.

Lemma decr_timer_spec which p it :
  length (u_timer p) = 3%nat -> aget (u_timer p) which = Some it -> itimer_ok it ->
  exists sigs p', decr_timer res which (sig_of which) p = Ret sigs p' /\ ticked (Z.eqb which) p sigs p' /\
    u_ru p' = u_ru p /\ u_prof p' = u_prof p.
  Proof.
    intros Hl Hw Hok. unfold decr_timer. rewrite Hw. pose proof Hok as (Hv & _).
    pose proof (timer_index _ _ _ Hl Hw) as Hwr.
    rewrite timerisset_usecs by done. destruct (Z.eqb_spec (usecs (it_value it)) 0) as [E|E]; cbn [negb].
    - exists [], p. split; [done|]. split; [|done]. split; try done; [| |intros s Hs; by apply not_elem_of_nil in Hs].
      + intros w i Hi Hoki. exists i. split_and!; try done. destruct (Z.eqb_spec which w) as [<-|]; [|done].
        assert (i = it) as -> by congruence. unfold step_value. by rewrite E.
      + intros w i Hi Hoki. destruct (Z.eqb_spec which w) as [<-|]; [|done].
        assert (i = it) as -> by congruence. unfold step_fires. by rewrite E.
    - pose proof (itimerdecr_spec res Hres it Hok E) as Hd.
      destruct (itimerdecr it res) as [r it'] eqn:Ed. destruct Hd as (Hok' & Hi' & Hu' & Hr). cbn [fst snd] in *.
      set (p1 := set_u_timer p (aput (u_timer p) which it')).
      assert (forall sigs p', u_timer p' = u_timer p1 -> (forall pc, in_program p' pc = in_program p pc) ->
        sigs = (if step_fires res (usecs (it_value it)) then [sig_of which] else []) ->
        u_sigs p' = post_all sigs (u_sigs p) -> ticked (Z.eqb which) p sigs p') as Hmk.
      { intros sigs p' Ht Hpc Hs Hsig. split; try done; rewrite ?Ht; cbn [u_timer p1 set_u_timer].
        - intros w i Hi Hoki. rewrite (aget_aput _ _ _ _ _ Hw). destruct (Z.eqb_spec which w) as [<-|]; [|by exists i].
          exists it'. assert (i = it) as -> by congruence. done.
        - intros w i Hi Hoki. rewrite Hs. destruct (Z.eqb_spec which w) as [<-|Hne].
          + assert (i = it) as -> by congruence. destruct (step_fires _ _); [|done].
            rewrite posted_one. by rewrite Z.eqb_refl.
          + destruct (step_fires _ _); [|done]. rewrite posted_one.
            destruct (Z.eqb_spec (sig_of w) (sig_of which)) as [Hc|]; [|done].
            destruct Hne. symmetry. apply sig_of_inj; try done. by eapply timer_index.
        - intros s. rewrite Hs. case_match; [|by intros ?%not_elem_of_nil]. intros ->%list_elem_of_singleton.
          destruct Hwr as [->|[->| ->]]; auto.
        - apply aput_length. }
      destruct (step_fires res (usecs (it_value it))) eqn:Ef; subst r; cbn [Z.eqb].
      + eexists _, _. split; [done|]. split; [|done]. apply Hmk; done.
      + eexists _, _. split; [done|]. split; [|done]. apply Hmk; done.
  Qed.

(** ** Profiling and CPU time *)

(** The buffer is as long as its size says. *)
Definition prof_ok (prof : uprof) : Prop := s32 (pr_size prof) <= 2 * Z.of_nat (length (pr_buf prof)).

Lemma bclr1 d : bclr d 1 = d / 2 * 2.
  Proof.
    unfold bclr. rewrite Z.mul_comm. replace (2 * (d / 2)) with (Z.shiftl (Z.shiftr d 1) 1)
      by (rewrite Z.shiftl_mul_pow2, Z.shiftr_div_pow2 by lia; change (2 ^ 1) with 2; lia).
    apply Z.bits_inj'. intros n Hn. rewrite Z.land_spec, Z.lnot_spec, Z.shiftl_spec by done.
    destruct (Z.eq_dec n 0) as [->|].
    - rewrite (Z.testbit_neg_r (Z.shiftr d 1) (0 - 1)) by lia. cbn. apply andb_false_r.
    - rewrite Z.shiftr_spec by lia. replace (n - 1 + 1) with n by lia.
      replace (Z.testbit 1 n) with false; [apply andb_true_r|]. symmetry. apply (Z.pow2_bits_false 0). lia.
  Qed.

(** addupc counts at an even offset inside the buffer, or not at all. *)
Lemma addupc_spec pc prof ticks :
  prof_ok prof -> exists prof', addupc pc prof ticks = Some prof' /\ prof_ok prof' /\
    (prof' = prof \/ exists k n, 0 <= 2 * k < s32 (pr_size prof) /\ aget (pr_buf prof) k = Some n /\
       prof' = mkProf (aput (pr_buf prof) k (u16 (n + ticks))) (pr_size prof) (pr_off prof) (pr_scale prof)).
  Proof.
    intros Hok. unfold addupc. case_match; [by exists prof; auto|]. rewrite bclr1.
    set (d := Z.shiftr (u32 _) 14). assert (0 <= d) as Hd by (apply Z.shiftr_nonneg, u32_range).
    destruct (Z.leb_spec (s32 (pr_size prof)) (d / 2 * 2)); [by exists prof; auto|].
    rewrite Z.div_mul by lia. unfold prof_ok in Hok.
    destruct (aget_is_Some (pr_buf prof) (d / 2)) as [n Hn]; [Z.div_mod_to_equations; lia|]. rewrite Hn.
    eexists. split; [done|]. split; [unfold prof_ok; cbn; by rewrite aput_length|]. right.
    exists (d / 2), n. split_and!; try done; Z.div_mod_to_equations; lia.
  Qed.

Lemma profile_spec fl pc c p :
  prof_ok (u_prof p) -> exists prof, profile fl pc c p = Ret tt (set_u_prof p prof) /\ prof_ok prof.
  Proof.
    intros Hok. assert (p = set_u_prof p (u_prof p)) as Hp by by destruct p.
    assert (forall pc', exists prof, (let? prof := addupc pc' (u_prof p) 1 in Ret tt (set_u_prof p prof)) =
      Ret tt (set_u_prof p prof) /\ prof_ok prof) as Hhit.
    { intros pc'. destruct (addupc_spec pc' (u_prof p) 1 Hok) as (prof & -> & Hok' & _). by exists prof. }
    unfold profile. cbv zeta. set (m := Z.land fl _).
    destruct (m =? IX_PROFILE_PROGRAM), (m =? IX_PROFILE_TASK), (m =? IX_PROFILE_ALWAYS), c, (pr_scale (u_prof p) =? 0);
      cbn [negb andb]; first [apply Hhit | exists (u_prof p); by rewrite <- Hp].
  Qed.

Lemma ticked_same e p sigs p1 p' :
  ticked e p sigs p1 -> u_timer p' = u_timer p1 -> u_sigs p' = u_sigs p1 ->
  u_start_pc p' = u_start_pc p1 -> u_end_pc p' = u_end_pc p1 -> ticked e p sigs p'.
  Proof.
    intros [] Ht Hs H1 H2. split; rewrite ?Ht, ?Hs; try done.
    intros pc. rewrite <- tk_pc0. unfold in_program. by rewrite H1, H2.
  Qed.

Lemma aget3 {A} (l : list A) w : length l = 3%nat -> w = 0 \/ w = 1 \/ w = 2 -> exists x, aget l w = Some x.
  Proof. intros Hl Hw. destruct (aget_is_Some l w) as [x ?]; [lia|]. by exists x. Qed.

Definition timers_ok p : Prop :=
  length (u_timer p) = 3%nat /\ Forall itimer_ok (u_timer p) /\ prof_ok (u_prof p).

Lemma decr_timer_ok which p :
  timers_ok p -> which = 0 \/ which = 1 \/ which = 2 ->
  exists sigs p', decr_timer res which (sig_of which) p = Ret sigs p' /\ ticked (Z.eqb which) p sigs p' /\
    timers_ok p' /\ u_ru p' = u_ru p.
  Proof.
    intros (Hl & Hf & Hp) Hw. destruct (aget3 (u_timer p) which Hl Hw) as [it Hit].
    destruct (decr_timer_spec which p it Hl Hit) as (sigs & p' & E & Ht & Hru & Hpr); [by eapply Forall_aget|].
    exists sigs, p'. split_and!; try done. split_and!.
    - by rewrite (tk_length _ _ _ _ Ht).
    - apply Forall_forall. intros x (k & Hk)%list_elem_of_lookup.
      pose proof (lookup_lt_Some _ _ _ Hk) as Hlt. rewrite (tk_length _ _ _ _ Ht), Hl in Hlt.
      destruct (aget3 (u_timer p) (Z.of_nat k) Hl ltac:(lia)) as [it0 H0].
      destruct (tk_timers _ _ _ _ Ht _ _ H0) as (x' & Hx & Hok & _); [by eapply Forall_aget|].
      unfold aget in Hx. rewrite (proj2 (Z.leb_le _ _)), Nat2Z.id in Hx by lia. congruence.
    - by rewrite Hpr.
  Qed.

(** The part of the interrupt for the process that runs. *)
Lemma current_timers_spec pc p :
  timers_ok p -> exists s2 p2,
    (let* (s2, p') := if in_program p pc then decr_timer res ITIMER_VIRTUAL SIGVTALRM p else Ret [] p in
     let* (s3, p') := decr_timer res ITIMER_PROF SIGPROF p' in
     Ret (s2 ++ s3) (set_u_ru p' (charge res (in_program p pc) (u_ru p')))) = Ret s2 p2 /\
    ticked (fun w => (w =? 1) && in_program p pc || (w =? 2)) p s2 p2 /\ timers_ok p2 /\
    u_ru p2 = charge res (in_program p pc) (u_ru p).
  Proof.
    intros Hok.
    assert (exists s2 p2, (if in_program p pc then decr_timer res ITIMER_VIRTUAL SIGVTALRM p else Ret [] p) = Ret s2 p2 /\
      ticked (fun w => (w =? 1) && in_program p pc) p s2 p2 /\ timers_ok p2 /\ u_ru p2 = u_ru p)
      as (s2 & p2 & E2 & T2 & Hok2 & Hru2).
    { destruct (in_program p pc).
      - destruct (decr_timer_ok 1 p Hok) as (s2 & p2 & E & T2 & ? & ?); [by auto|]. exists s2, p2. split_and!; try done.
        eapply ticked_ext; [done|]. intros w. rewrite andb_true_r. apply Z.eqb_sym.
      - exists [], p. split_and!; try done. eapply ticked_ext; [apply ticked_refl|]. intros w. by rewrite andb_false_r. }
    rewrite E2. cbn [obind]. destruct (decr_timer_ok 2 p2 Hok2) as (s3 & p3 & E & T3 & Hok3 & Hru3); [by auto|].
    change (sig_of 2) with SIGPROF in E. change ITIMER_PROF with 2. rewrite E. cbn [obind].
    eexists _, _. split; [done|]. split_and!; [|done|cbn; congruence].
    apply (ticked_same _ _ _ p3); [|done..]. eapply ticked_ext; [apply (ticked_trans _ _ _ _ _ _ _ T2 T3)|].
    - intros w. destruct (Z.eqb_spec w 1) as [->|]; [|done]. by destruct (in_program p pc).
    - intros w. cbv beta. by rewrite (Z.eqb_sym 2 w).
  Qed.

Lemma ix_timer_spec fl pc c p :
  timers_ok p -> exists sigs p', ix_timer res fl pc c p = Ret sigs p' /\
    ticked (counts_for p c pc) p sigs p' /\ timers_ok p' /\
    u_ru p' = if c then charge res (in_program p pc) (u_ru p) else u_ru p.
  Proof.
    intros Hok. unfold ix_timer. change SIGALRM with (sig_of 0). change ITIMER_REAL with 0.
    destruct (decr_timer_ok 0 p Hok) as (s1 & p1 & -> & T1 & Hok1 & Hru1); [by left|]. cbn [obind].
    assert (exists s2 p2, (if c then
      let* (s2, p') := if in_program p1 pc then decr_timer res ITIMER_VIRTUAL SIGVTALRM p1 else Ret [] p1 in
      let* (s3, p') := decr_timer res ITIMER_PROF SIGPROF p' in
      Ret (s2 ++ s3) (set_u_ru p' (charge res (in_program p1 pc) (u_ru p'))) else Ret [] p1) = Ret s2 p2 /\
      ticked (fun w => c && ((w =? 1) && in_program p pc || (w =? 2))) p1 s2 p2 /\ timers_ok p2 /\
      u_ru p2 = if c then charge res (in_program p pc) (u_ru p) else u_ru p) as (s2 & p2 & -> & T2 & Hok2 & Hru2).
    { destruct c.
      - destruct (current_timers_spec pc p1 Hok1) as (s2 & p2 & -> & T2 & Hok2 & Hru2).
        rewrite (tk_pc _ _ _ _ T1) in *. exists s2, p2. rewrite <- Hru1. done.
      - exists [], p1. split_and!; try done. apply ticked_refl. }
    cbn [obind]. destruct (profile_spec fl pc c p2) as (prof & -> & Hprof); [by destruct Hok2 as (_ & _ & ?)|].
    cbn [obind]. eexists _, _. split; [done|]. split_and!; [|by destruct Hok2 as (? & ? & _)|done].
    apply (ticked_same _ _ _ p2); [|done..]. eapply ticked_ext; [apply (ticked_trans _ _ _ _ _ _ _ T1 T2)|].
    - intros w. destruct (Z.eqb_spec 0 w) as [<-|]; [|done]. by rewrite andb_false_r.
    - intros w. unfold counts_for. rewrite (Z.eqb_sym 0 w). change ITIMER_REAL with 0. change ITIMER_VIRTUAL with 1.
      change ITIMER_PROF with 2. destruct (Z.eqb_spec w 0) as [->|]; [done|].
      destruct (Z.eqb_spec w 1) as [->|]; cbn; [by rewrite orb_false_r|]. apply andb_comm.
  Qed.

(** ** A run of interrupts *)

Fixpoint counted p (which : Z) (ticks : list (bool * Z)) : Z :=
  match ticks with
  | [] => 0
  | (c, pc) :: ticks => (if counts_for p c pc which then 1 else 0) + counted p which ticks
  end.

Lemma counted_nonneg p w ticks : 0 <= counted p w ticks.
  Proof. induction ticks as [|[c pc] ticks IH]; cbn; [lia|]. destruct (counts_for _ _ _ _); lia. Qed.

Lemma counted_same p p' w ticks :
  (forall pc, in_program p' pc = in_program p pc) -> counted p' w ticks = counted p w ticks.
  Proof.
    intros H. induction ticks as [|[c pc] ticks IH]; cbn; [done|]. unfold counts_for. by rewrite H, IH.
  Qed.

(** After a run every timer and the signals sent are those of the countdown. *)
Record ran p (ticks : list (bool * Z)) (sigs : list Z) p' : Prop := {
  rn_timers w it : aget (u_timer p) w = Some it -> exists it',
    aget (u_timer p') w = Some it' /\ itimer_ok it' /\ it_interval it' = it_interval it /\
    usecs (it_value it') = remaining (usecs (it_value it)) (usecs (it_interval it)) (res * counted p w ticks);
  rn_posted w it : aget (u_timer p) w = Some it ->
    posted (sig_of w) sigs = expiries (usecs (it_value it)) (usecs (it_interval it)) (res * counted p w ticks);
  rn_only s : s ∈ sigs -> s = SIGALRM \/ s = SIGVTALRM \/ s = SIGPROF;
  rn_sigs : u_sigs p' = post_all sigs (u_sigs p)
}.

(** One interrupt in front of a run. *)
Lemma counted_step c pc ticks p s1 p1 :
  ticked (counts_for p c pc) p s1 p1 -> forall w it,
  aget (u_timer p) w = Some it -> itimer_ok it ->
  let n p ticks := res * counted p w ticks in
  exists it1, aget (u_timer p1) w = Some it1 /\ it_interval it1 = it_interval it /\
    expiries (usecs (it_value it)) (usecs (it_interval it)) (n p ((c, pc) :: ticks)) =
      posted (sig_of w) s1 + expiries (usecs (it_value it1)) (usecs (it_interval it1)) (n p1 ticks) /\
    remaining (usecs (it_value it)) (usecs (it_interval it)) (n p ((c, pc) :: ticks)) =
      remaining (usecs (it_value it1)) (usecs (it_interval it1)) (n p1 ticks).
  Proof.
    intros T w it Hw Hi n. destruct (tk_timers _ _ _ _ T w it Hw Hi) as (it1 & Hw1 & _ & Hi1 & Hv1).
    exists it1. split; [done|]. split; [done|]. unfold n.
    rewrite (tk_posted _ _ _ _ T w it Hw Hi), Hv1, Hi1, (counted_same p p1) by apply (tk_pc _ _ _ _ T).
    cbn [counted]. destruct (counts_for p c pc w); cbn [andb]; [|done].
    pose proof (counted_nonneg p w ticks). destruct Hi as (Hv & _ & Hr).
    replace (res * (1 + counted p w ticks)) with (res * counted p w ticks + res) by lia.
    apply expiries_step; [by apply usecs_nonneg|done|lia].
  Qed.

Lemma run_timer_spec fl ticks p :
  timers_ok p -> exists sigs p', run_timer res fl ticks p = Ret sigs p' /\ timers_ok p' /\ ran p ticks sigs p'.
  Proof.
    revert p. induction ticks as [|[c pc] ticks IH]; intros p Hok; cbn [run_timer].
    - exists [], p. split_and!; try done. split; try done.
      + intros w it Hw. destruct Hok as (_ & Hf & _). pose proof (Forall_aget _ _ _ _ Hf Hw) as Hi.
        exists it. split_and!; try done. cbn. rewrite Z.mul_0_r. destruct Hi as (Hv & _).
        destruct (expiries_zero (usecs (it_value it)) (usecs (it_interval it)) (usecs_nonneg _ Hv)). done.
      + intros w it Hw. destruct Hok as (_ & Hf & _). pose proof (Forall_aget _ _ _ _ Hf Hw) as (Hv & _).
        cbn. rewrite Z.mul_0_r. destruct (expiries_zero (usecs (it_value it)) (usecs (it_interval it)) (usecs_nonneg _ Hv)). done.
      + intros s Hs. by apply not_elem_of_nil in Hs.
    - destruct (ix_timer_spec fl pc c p Hok) as (s1 & p1 & -> & T & Hok1 & _). cbn [obind].
      destruct (IH p1 Hok1) as (s2 & p2 & -> & Hok2 & R). cbn [obind].
      eexists _, _. split; [done|]. split; [done|]. pose proof Hok as (_ & Hf & _).
      pose proof (fun w it Hw => counted_step c pc ticks p s1 p1 T w it Hw (Forall_aget _ _ _ _ Hf Hw)) as Hstep.
      split.
      + intros w it Hw. destruct (Hstep w it Hw) as (it1 & Hw1 & Hi1 & _ & Hr1).
        destruct (rn_timers _ _ _ _ R w it1 Hw1) as (it2 & Hw2 & Hok' & Hi2 & Hv2).
        exists it2. split_and!; try done; congruence.
      + intros w it Hw. destruct (Hstep w it Hw) as (it1 & Hw1 & Hi1 & He1 & _).
        rewrite posted_app, (rn_posted _ _ _ _ R w it1 Hw1). done.
      + intros s [Hs|Hs]%elem_of_app; [by eapply (tk_only _ _ _ _ T)|by eapply (rn_only _ _ _ _ R)].
      + rewrite (rn_sigs _ _ _ _ R), (tk_sigs _ _ _ _ T). symmetry. apply post_all_app.
  Qed.

(** ** CPU time *)

Lemma charge_spec is_user ru :
  tv_norm (ru_utime ru) -> tv_norm (ru_stime ru) ->
  usecs (ru_utime ru) < (2 ^ 31 - 1) * 1000000 -> usecs (ru_stime ru) < (2 ^ 31 - 1) * 1000000 ->
  let ru' := charge res is_user ru in
  tv_norm (ru_utime ru') /\ tv_norm (ru_stime ru') /\
  usecs (ru_utime ru') = usecs (ru_utime ru) + (if is_user then res else 0) /\
  usecs (ru_stime ru') = usecs (ru_stime ru) + (if is_user then 0 else res).
  Proof.
    intros Hu Hs Bu Bs. unfold charge.
    assert (forall t, tv_norm t -> usecs t < (2 ^ 31 - 1) * 1000000 ->
      let tv := mkTv (tv_sec t) (s32 (tv_usec t + res)) in
      let tv := if 1000000 <=? tv_usec tv then mkTv (s32 (tv_sec tv + 1)) (s32 (tv_usec tv - 1000000)) else tv in
      tv_norm tv /\ usecs tv = usecs t + res) as H.
    { intros t [] B. unfold usecs in *. cbn. s32s. destruct (Z.leb_spec 1000000 (tv_usec t + res)); cbn; s32s;
        unfold tv_norm; cbn; lia. }
    destruct is_user; cbv zeta; cbn [ru_utime ru_stime]; [destruct (H _ Hu Bu)|destruct (H _ Hs Bs)]; split_and!; try done; lia.
  Qed.

Lemma run_timer_ru fl ticks p sigs p' :
  timers_ok p -> run_timer res fl ticks p = Ret sigs p' ->
  tv_norm (ru_utime (u_ru p)) -> tv_norm (ru_stime (u_ru p)) ->
  usecs (ru_utime (u_ru p)) + res * Z.of_nat (length ticks) < (2 ^ 31 - 1) * 1000000 ->
  usecs (ru_stime (u_ru p)) + res * Z.of_nat (length ticks) < (2 ^ 31 - 1) * 1000000 ->
  tv_norm (ru_utime (u_ru p')) /\ tv_norm (ru_stime (u_ru p')) /\
  usecs (ru_utime (u_ru p')) = usecs (ru_utime (u_ru p)) + res * counted p ITIMER_VIRTUAL ticks /\
  usecs (ru_stime (u_ru p')) = usecs (ru_stime (u_ru p)) + res * (counted p ITIMER_PROF ticks - counted p ITIMER_VIRTUAL ticks).
  Proof.
    revert p sigs p'. induction ticks as [|[c pc] ticks IH]; intros p sigs p' Hok E Hu Hs Bu Bs; cbn [run_timer] in E.
    - apply Ret_inj in E as [_ <-]. cbn. rewrite Z.sub_diag, !Z.mul_0_r, !Z.add_0_r. done.
    - destruct (ix_timer_spec fl pc c p Hok) as (s1 & p1 & E1 & T & Hok1 & Hru). rewrite E1 in E. cbn [obind] in E.
      apply obind_Ret_inv in E as (s2 & p2 & E & [_ <-]%Ret_inj).
      cbn [length] in Bu, Bs.
      assert (tv_norm (ru_utime (u_ru p1)) /\ tv_norm (ru_stime (u_ru p1)) /\
        usecs (ru_utime (u_ru p1)) = usecs (ru_utime (u_ru p)) + (if c && in_program p pc then res else 0) /\
        usecs (ru_stime (u_ru p1)) = usecs (ru_stime (u_ru p)) + (if c && negb (in_program p pc) then res else 0))
        as (Hu1 & Hs1 & Eu & Es).
      { rewrite Hru. destruct c; [|cbn [andb]; split_and!; try done; lia].
        destruct (charge_spec (in_program p pc) (u_ru p) Hu Hs) as (? & ? & -> & ->); [lia|lia|].
        cbn [andb]. by destruct (in_program p pc). }
      destruct (IH p1 _ _ Hok1 E Hu1 Hs1) as (Hu2 & Hs2 & -> & ->).
      { rewrite Eu. destruct (c && in_program p pc); lia. }
      { rewrite Es. destruct (c && negb (in_program p pc)); lia. }
      split_and!; try done; rewrite ?Eu, ?Es, !(counted_same p p1) by apply (tk_pc _ _ _ _ T);
        cbn [counted]; change (counts_for p c pc ITIMER_VIRTUAL) with (c && in_program p pc);
        change (counts_for p c pc ITIMER_PROF) with c; destruct c, (in_program p pc); cbn [andb negb]; lia.
  Qed.
End Tick.

(** ** The signals sent *)

Lemma psignal_timer sig u :
  sig = SIGALRM \/ sig = SIGVTALRM \/ sig = SIGPROF ->
  let u' := psignal true sig u in
  p_sigignore u' = p_sigignore u /\ p_flag u' = p_flag u /\
  p_sig u' = if negb (bset (p_flag u) STRC) && bset (p_sigignore u) (sigmask sig) then p_sig u
             else Z.lor (p_sig u) (sigmask sig).
Proof.
  intros Hs. unfold psignal, post_signal, convert_trap, is_trap_sig, setrun.
  assert (forall m, (bset m (p_sigignore u) || bset m (p_sigmask u)) && false = false) as Hf by (intros; apply andb_false_r).
  destruct Hs as [->|[->| ->]]; cbn -[Z.lor sigmask bset]; rewrite ?Hf; cbn -[Z.lor sigmask bset];
    repeat case_match; done.
Qed.

Lemma bset_lor m x b : bset (Z.lor m x) b = bset m b || bset x b.
Proof.
  unfold bset. rewrite Z.land_lor_distr_l, <- negb_andb. f_equal.
  destruct (Z.eqb_spec (Z.lor (Z.land m b) (Z.land x b)) 0) as [E|E].
  - apply Z.lor_eq_0_iff in E as [-> ->]. done.
  - destruct (Z.eqb_spec (Z.land m b) 0) as [E1|]; [|done]. rewrite E1 in E. cbn in E.
    symmetry. by apply Z.eqb_neq.
Qed.

Definition timer_sig (s : Z) : Prop := s = SIGALRM \/ s = SIGVTALRM \/ s = SIGPROF.

Lemma psignal_keeps_pending s u b : timer_sig s -> bset (p_sig u) b = true -> bset (p_sig (psignal true s u)) b = true.
Proof.
  intros Hs Hb. destruct (psignal_timer s u Hs) as (_ & _ & ->). case_match; [done|]. by rewrite bset_lor, Hb.
Qed.

Lemma post_all_keeps sigs u b :
  (forall s, s ∈ sigs -> timer_sig s) -> bset (p_sig u) b = true -> bset (p_sig (post_all sigs u)) b = true.
Proof.
  revert u. induction sigs as [|s sigs IH]; intros u Hall Hb; [done|]. unfold post_all in *. cbn [fold_left].
  apply IH; [intros; apply Hall; by right|]. apply psignal_keeps_pending; [apply Hall; left|done].
Qed.

(** A signal that is not ignored is pending once it has been sent. *)
Lemma post_all_pending sigs u sig :
  (forall s, s ∈ sigs -> timer_sig s) -> sig ∈ sigs -> bset (p_sigignore u) (sigmask sig) = false ->
  bset (p_sig (post_all sigs u)) (sigmask sig) = true.
Proof.
  revert u. induction sigs as [|s sigs IH]; intros u Hall Hin Hig; [by apply not_elem_of_nil in Hin|].
  assert (timer_sig s) as Hs by (apply Hall; left).
  destruct (psignal_timer s u Hs) as (Ei & _ & Ep). unfold post_all in *. cbn [fold_left].
  assert (forall s', s' ∈ sigs -> timer_sig s') as Hall' by (intros; apply Hall; by right).
  apply elem_of_cons in Hin as [->|Hin]; [|apply IH; try done; by rewrite Ei].
  assert (bset (p_sig (psignal true s u)) (sigmask s) = true) as Hp.
  { rewrite Ep, Hig, andb_false_r, bset_lor. apply orb_true_intro. right.
    unfold bset. rewrite Z.land_diag. by destruct Hs as [->|[->| ->]]. }
  by apply post_all_keeps.
Qed.

Section Resolution.
Context (res : Z) (Hres : 0 < res < 1000000).
Implicit Types (p : tproc) (it : itimerval).
Notation timers_ok := (timers_ok res).

(** What setitimer accepts, and what it makes of it. *)
Definition valid_tv (t : timeval) : Prop := 0 <= tv_sec t <= 100000000 /\ 0 <= tv_usec t < 1000000.
Definition rounded (t : timeval) : timeval :=
  if (0 <? usecs t) && (usecs t <? res) then mkTv 0 res else t.
Definition rounded_it it : itimerval := mkIt (rounded (it_interval it)) (rounded (it_value it)).

Lemma itimerfix_valid t : valid_tv t -> itimerfix res t = (None, rounded t).
  Proof.
    destruct t as [s u]. intros [Hs Hu]. cbn in Hs, Hu. unfold itimerfix, rounded, usecs. cbn [tv_sec tv_usec].
    rewrite (proj2 (Z.ltb_ge s 0)), (proj2 (Z.ltb_ge 100000000 s)), (proj2 (Z.ltb_ge u 0)), (proj2 (Z.leb_gt 1000000 u)) by lia.
    cbn [orb]. destruct (Z.eqb_spec s 0) as [->|]; cbn [andb].
    - destruct (Z.eqb_spec u 0) as [->|]; cbn [andb negb]; [done|].
      rewrite (proj2 (Z.ltb_lt 0 _)) by lia. cbn [andb]. replace (0 * 1000000 + u) with u by lia. by destruct (u <? res).
    - rewrite (proj2 (Z.ltb_ge (s * 1000000 + u) res)) by lia. by rewrite andb_false_r.
  Qed.

Lemma itimerfix_invalid t : ~ valid_tv t -> itimerfix res t = (Some EINVAL, t).
  Proof.
    destruct t as [s u]. unfold valid_tv, itimerfix. cbn. intros H.
    destruct (Z.ltb_spec s 0), (Z.ltb_spec 100000000 s), (Z.ltb_spec u 0), (Z.leb_spec 1000000 u); cbn; try done; lia.
  Qed.

Lemma rounded_norm t : valid_tv t -> tv_norm (rounded t) /\ (usecs (rounded t) = 0 \/ res <= usecs (rounded t)).
  Proof.
    destruct t as [s u]. intros [Hs Hu]. cbn in Hs, Hu. unfold rounded, tv_norm.
    destruct (Z.ltb_spec 0 (usecs (mkTv s u))), (Z.ltb_spec (usecs (mkTv s u)) res);
      unfold usecs in *; cbn in *; lia.
  Qed.

Lemma rounded_ok it : valid_tv (it_value it) -> valid_tv (it_interval it) -> itimer_ok res (rounded_it it).
  Proof. intros Hv Hi. destruct (rounded_norm _ Hv), (rounded_norm _ Hi). done. Qed.

Instance valid_tv_dec t : Decision (valid_tv t).
  Proof. unfold valid_tv. apply _. Defined.

Lemma setitimer_stores which it oitv p :
  timers_ok p -> 0 <= which <= ITIMER_PROF -> valid_tv (it_value it) -> valid_tv (it_interval it) ->
  exists old, setitimer res which (Some it) oitv p =
    Ret (0, old, Some (rounded_it it)) (set_u_timer p (aput (u_timer p) which (rounded_it it))) /\
  old = (if oitv then aget (u_timer p) which else None).
  Proof.
    intros Hok Hw Hv Hi. destruct Hok as (Hl & _ & _).
    destruct (aget3 (u_timer p) which Hl) as [t0 Ht0]; [unfold ITIMER_PROF in *; lia|].
    unfold setitimer, getitimer. change ITIMER_PROF with 2 in *. rewrite u32_id by (unfold is_u32; lia).
    rewrite (proj2 (Z.ltb_ge 2 which)) by lia. rewrite Ht0. exists (if oitv then Some t0 else None).
    destruct oitv; cbn [obind orb negb fst snd Z.eqb];
      rewrite (itimerfix_valid _ Hv); cbn [it_interval]; rewrite (itimerfix_valid _ Hi); done.
  Qed.

Lemma timers_ok_aput which it p :
  timers_ok p -> itimer_ok res it -> timers_ok (set_u_timer p (aput (u_timer p) which it)).
  Proof.
    intros (Hl & Hf & Hp) Hi. split_and!; cbn; [by rewrite aput_length|by apply Forall_aput|done].
  Qed.

(** C19. setitimer on every branch: a timer that does not exist, a NULL pointer, a
    value or interval out of range (EINVAL, the timers as before), and otherwise
    the timer set to the given times, rounded up to the resolution, which
    getitimer reports and the next setitimer returns; the timers stay well
    formed. *)
Theorem setitimer_getitimer which itv oitv p :
    timers_ok p -> is_u32 which ->
    (ITIMER_PROF < which /\ setitimer res which itv oitv p = Ret (-1, None, itv) (fail EINVAL p)) \/
    (which <= ITIMER_PROF /\ itv = None /\ exists old, setitimer res which itv oitv p = Ret (0, old, None) p) \/
    (which <= ITIMER_PROF /\ exists it, itv = Some it /\ ~ (valid_tv (it_value it) /\ valid_tv (it_interval it)) /\
       exists old it' p', setitimer res which itv oitv p = Ret (-1, old, Some it') p' /\
         u_timer p' = u_timer p /\ u_errno (u_sigs p') = EINVAL) \/
    (which <= ITIMER_PROF /\ exists it, itv = Some it /\ valid_tv (it_value it) /\ valid_tv (it_interval it) /\
       exists old p', setitimer res which itv oitv p = Ret (0, old, Some (rounded_it it)) p' /\ timers_ok p' /\
         getitimer which true p' = Ret (0, Some (rounded_it it)) p' /\
         forall w, w <> which -> aget (u_timer p') w = aget (u_timer p) w).
  Proof.
    intros Hok Hw. destruct (Z_lt_le_dec ITIMER_PROF which) as [Hgt|Hle].
    { left. split; [done|]. unfold setitimer. rewrite u32_id, (proj2 (Z.ltb_lt _ _)) by done. done. }
    right. pose proof Hok as (Hl & _ & _). destruct (aget3 (u_timer p) which Hl) as [t0 Ht0]; [unfold ITIMER_PROF, is_u32 in *; lia|].
    destruct itv as [it|].
    2: { left. split_and!; try done. unfold setitimer, getitimer. rewrite u32_id, (proj2 (Z.ltb_ge _ _)) by done.
         rewrite Ht0. destruct oitv; by eexists. }
    right. destruct (decide (valid_tv (it_value it))) as [Hv|Hv]; [destruct (decide (valid_tv (it_interval it))) as [Hi|Hi]|].
    - right. split; [done|]. exists it. split_and!; try done.
      destruct (setitimer_stores which it oitv p Hok) as (old & E & _); [unfold is_u32 in *; lia|done|done|].
      eexists old, _. split; [exact E|]. split_and!.
      + apply timers_ok_aput; [done|by apply rounded_ok].
      + unfold getitimer. rewrite u32_id, (proj2 (Z.ltb_ge _ _)) by done. cbn [orb negb u_timer set_u_timer].
        by rewrite (aget_aput_eq _ _ _ _ Ht0).
      + intros w Hne. cbn. by apply aget_aput_ne.
    - left. split; [done|]. exists it. split_and!; [done|tauto|]. unfold setitimer, getitimer.
      rewrite u32_id, (proj2 (Z.ltb_ge _ _)), Ht0 by done.
      destruct oitv; cbn [obind orb negb fst snd Z.eqb]; rewrite (itimerfix_valid _ Hv); cbn [it_interval];
        rewrite (itimerfix_invalid _ Hi); eexists _, _, _; split_and!; done.
    - left. split; [done|]. exists it. split_and!; [done|tauto|]. unfold setitimer, getitimer.
      rewrite u32_id, (proj2 (Z.ltb_ge _ _)), Ht0 by done.
      destruct oitv; cbn [obind orb negb fst snd Z.eqb]; rewrite (itimerfix_invalid _ Hv);
        eexists _, _, _; split_and!; done.
  Qed.

(** C18. An interval timer is the exact countdown of its microseconds: after it has
    been set, any run of interrupts returns, and with [t] the time of those that
    count for the timer it has sent its signal once for each [k] with
    [value + k * interval <= t] (the reference [expiries]) and has the time to the
    next one left; what the reload carries over keeps it from drifting. *)
Theorem timer_never_drifts fl which it oitv p ticks :
    timers_ok p -> 0 <= which <= ITIMER_PROF -> valid_tv (it_value it) -> valid_tv (it_interval it) ->
    exists old p1 sigs p2 it2,
      setitimer res which (Some it) oitv p = Ret (0, old, Some (rounded_it it)) p1 /\
      run_timer res fl ticks p1 = Ret sigs p2 /\ aget (u_timer p2) which = Some it2 /\
      let v := usecs (rounded (it_value it)) in let i := usecs (rounded (it_interval it)) in
      let t := res * counted p1 which ticks in
      posted (sig_of which) sigs = expiries v i t /\ usecs (it_value it2) = remaining v i t /\
      it_interval it2 = rounded (it_interval it).
  Proof.
    intros Hok Hw Hv Hi. destruct (setitimer_stores which it oitv p Hok Hw Hv Hi) as (old & E & _).
    set (p1 := set_u_timer p _) in E.
    assert (timers_ok p1) as Hok1 by (apply timers_ok_aput; [done|by apply rounded_ok]).
    assert (aget (u_timer p1) which = Some (rounded_it it)) as Ht1.
    { destruct Hok as (Hl & _). destruct (aget3 (u_timer p) which Hl) as [t0 Ht0]; [unfold ITIMER_PROF in *; lia|].
      cbn. by eapply aget_aput_eq. }
    destruct (run_timer_spec res Hres fl ticks p1 Hok1) as (sigs & p2 & Er & _ & R).
    destruct (rn_timers _ _ _ _ _ R which _ Ht1) as (it2 & Ht2 & _ & Hi2 & Hv2).
    exists old, p1, sigs, p2, it2. split_and!; try done. by rewrite (rn_posted _ _ _ _ _ R which _ Ht1).
  Qed.

(** A timer that is set comes due: when the interrupts that count for it have
    taken its time, its signal is pending for the process, unless the process
    ignores it. *)
Theorem timer_comes_due fl which it oitv p ticks :
    timers_ok p -> 0 <= which <= ITIMER_PROF -> valid_tv (it_value it) -> valid_tv (it_interval it) ->
    bset (p_sigignore (u_sigs p)) (sigmask (sig_of which)) = false ->
    0 < usecs (it_value it) -> usecs (rounded (it_value it)) <= res * counted p which ticks ->
    exists old p1 sigs p2, setitimer res which (Some it) oitv p = Ret (0, old, Some (rounded_it it)) p1 /\
      run_timer res fl ticks p1 = Ret sigs p2 /\ bset (p_sig (u_sigs p2)) (sigmask (sig_of which)) = true.
  Proof.
    intros Hok Hw Hv Hi Hig Hpos Hdue. destruct (setitimer_stores which it oitv p Hok Hw Hv Hi) as (old & E & _).
    set (p1 := set_u_timer p _) in E.
    assert (timers_ok p1) as Hok1 by (apply timers_ok_aput; [done|by apply rounded_ok]).
    assert (aget (u_timer p1) which = Some (rounded_it it)) as Ht1.
    { destruct Hok as (Hl & _). destruct (aget3 (u_timer p) which Hl) as [t0 Ht0]; [unfold ITIMER_PROF in *; lia|].
      cbn. by eapply aget_aput_eq. }
    destruct (run_timer_spec res Hres fl ticks p1 Hok1) as (sigs & p2 & Er & _ & R).
    exists old, p1, sigs, p2. split_and!; try done. rewrite (rn_sigs _ _ _ _ _ R).
    apply post_all_pending; [apply R| |done].
    pose proof (rn_posted _ _ _ _ _ R which _ Ht1) as Hn. cbn [rounded_it it_value it_interval] in Hn.
    rewrite (counted_same p p1) in Hn by done.
    assert (0 < usecs (rounded (it_value it))) as Hpos'.
    { unfold rounded. case_match; [unfold usecs; cbn; lia|lia]. }
    unfold expiries in Hn. rewrite (proj2 (Z.eqb_neq _ 0)), (proj2 (Z.ltb_ge _ _)) in Hn by lia.
    assert (0 < posted (sig_of which) sigs) as Hp.
    { rewrite Hn. case_match; [lia|]. destruct (rounded_norm _ Hi) as [Hin _]. pose proof (usecs_nonneg _ Hin).
      apply Z.add_pos_nonneg; [lia|]. apply Z.div_pos; lia. }
    unfold posted in Hp. destruct (filter _ sigs) as [|x l] eqn:Ef; [cbn in Hp; lia|].
    assert (x ∈ filter (eq (sig_of which)) sigs) as [Hx Hin]%list_elem_of_filter by (rewrite Ef; left). by rewrite Hx.
  Qed.

(** The timer interrupts account for the time of the process exactly: each
    one that interrupts it adds the resolution to its user time, when it runs in
    its program, or else to its system time; both stay normalised. *)
Theorem cpu_time_exact fl p ticks :
    timers_ok p -> tv_norm (ru_utime (u_ru p)) -> tv_norm (ru_stime (u_ru p)) ->
    usecs (ru_utime (u_ru p)) + res * Z.of_nat (length ticks) < (2 ^ 31 - 1) * 1000000 ->
    usecs (ru_stime (u_ru p)) + res * Z.of_nat (length ticks) < (2 ^ 31 - 1) * 1000000 ->
    exists sigs p', run_timer res fl ticks p = Ret sigs p' /\
      tv_norm (ru_utime (u_ru p')) /\ tv_norm (ru_stime (u_ru p')) /\
      usecs (ru_utime (u_ru p')) = usecs (ru_utime (u_ru p)) + res * counted p ITIMER_VIRTUAL ticks /\
      usecs (ru_stime (u_ru p')) =
        usecs (ru_stime (u_ru p)) + res * (counted p ITIMER_PROF ticks - counted p ITIMER_VIRTUAL ticks).
  Proof.
    intros Hok Hu Hs Bu Bs. destruct (run_timer_spec res Hres fl ticks p Hok) as (sigs & p' & E & _).
    exists sigs, p'. split; [done|]. by eapply (run_timer_ru res Hres).
  Qed.
End Resolution.

(** timevaladd and timevalsub are inverse to each other on normalised times. *)
Lemma timevalsub_add t1 t2 :
  tv_wf t1 -> tv_wf t2 -> -2 ^ 30 < tv_sec t1 < 2 ^ 30 - 1 -> -2 ^ 30 < tv_sec t2 < 2 ^ 30 - 1 ->
  timevalsub (timevaladd t1 t2) t2 = t1.
Proof.
  intros H1 H2 B1 B2. destruct (timevaladd_spec t1 t2 H1 H2) as [Ha Ea]; [lia|].
  assert (-2 ^ 31 + 1 <= tv_sec (timevaladd t1 t2) - tv_sec t2 < 2 ^ 31 - 1) as B.
  { unfold tv_wf in *. unfold usecs in Ea. lia. }
  destruct (timevalsub_spec _ t2 Ha H2 B) as [Hb Eb]. apply usecs_inj; [done|done|lia].
Qed.

(** ruadd leaves out the involuntary context switches, the last of its fields. *)
Lemma ruadd_nivcsw ru ru2 cs c cs2 c2 :
  ru_counts ru = cs ++ [c] -> ru_counts ru2 = cs2 ++ [c2] -> length cs2 = length cs ->
  ru_counts (ruadd ru ru2) = zip_with (fun a b => s32 (a + b)) cs cs2 ++ [c].
Proof.
  unfold ruadd. cbn. intros -> -> Hl. rewrite length_app. cbn. replace (length cs + 1 - 1)%nat with (length cs) by lia.
  revert cs2 Hl. induction cs as [|a cs IH]; intros [|b cs2] Hl; try done. cbn. f_equal. apply IH. by injection Hl.
Qed.

(** ** A process with a 50 Hz clock *)

Definition user0 : user :=
  siginit (mkUser (replicate 33 0) (replicate 33 0) 0 0 0 0 0 0 0 0 SRUN 0 0 0 0 0 WNone 0 0 0 0 0 0 0 [] []).
Definition tv0 : timeval := mkTv 0 0.
Definition clock0 : tproc :=
  mkT (replicate 3 (mkIt tv0 tv0)) (mkRu tv0 tv0 0 (replicate 13 0)) (mkProf (replicate 4 0) 8 4096 0x10000) 4096
    4096 8192 user0.

Lemma clock0_ok : timers_ok 20000 clock0.
Proof.
  split_and!; [reflexivity| |unfold prof_ok; vm_compute; congruence].
  repeat constructor; cbn; try lia; left; reflexivity.
Qed.

Definition every_30ms : itimerval := mkIt (mkTv 0 30000) (mkTv 0 1000).
Definition ticks5 : list (bool * Z) := replicate 5 (true, 4100).

(** Rounded up to 20 ms, then every 30 ms: at 20, 50 and 80 of 100 ms. *)
Example alarms_30ms : expiries 20000 30000 100000 = 3 /\ remaining 20000 30000 100000 = 10000.
Proof. done. Qed.

Lemma setitimer_getitimer_witness :
  exists old p', setitimer 20000 0 (Some every_30ms) true clock0 = Ret (0, old, Some (rounded_it 20000 every_30ms)) p' /\
    timers_ok 20000 p'.
Proof.
  destruct (setitimer_getitimer 20000 ltac:(lia) 0 (Some every_30ms) true clock0 clock0_ok)
    as [[H _]|[(_ & H & _)|[(_ & it & H & Hn & _)|(_ & it & H & _ & _ & old & p' & E & Hok & _)]]].
  - unfold is_u32. lia.
  - unfold ITIMER_PROF in H. lia.
  - discriminate H.
  - exfalso. injection H as <-. apply Hn. unfold valid_tv. cbn. lia.
  - injection H as <-. exists old, p'. exact (conj E Hok).
Defined.

Lemma timer_never_drifts_witness : exists old p1 sigs p2,
  setitimer 20000 0 (Some every_30ms) false clock0 = Ret (0, old, Some (rounded_it 20000 every_30ms)) p1 /\
  run_timer 20000 0 ticks5 p1 = Ret sigs p2 /\ posted SIGALRM sigs = 3.
Proof.
  destruct (timer_never_drifts 20000 ltac:(lia) 0 0 every_30ms false clock0 ticks5 clock0_ok)
    as (old & p1 & sigs & p2 & it2 & E & Er & _ & Hn & _); [unfold ITIMER_PROF; lia|unfold valid_tv; cbn; lia..|].
  exists old, p1, sigs, p2. split; [exact E|]. split; [exact Er|].
  change SIGALRM with (sig_of 0). rewrite Hn. vm_compute. reflexivity.
Defined.

Lemma timer_comes_due_witness : exists old p1 sigs p2,
  setitimer 20000 1 (Some every_30ms) false clock0 = Ret (0, old, Some (rounded_it 20000 every_30ms)) p1 /\
  run_timer 20000 0 ticks5 p1 = Ret sigs p2 /\ bset (p_sig (u_sigs p2)) (sigmask SIGVTALRM) = true.
Proof.
  apply (timer_comes_due 20000 ltac:(lia) 0 1 every_30ms false clock0 ticks5 clock0_ok);
    [unfold ITIMER_PROF; lia|unfold valid_tv; cbn; lia..|reflexivity|reflexivity|vm_compute; congruence].
Defined.

Lemma cpu_time_exact_witness : exists sigs p', run_timer 20000 0 ticks5 clock0 = Ret sigs p' /\
  usecs (ru_utime (u_ru p')) = 100000.
Proof.
  destruct (cpu_time_exact 20000 ltac:(lia) 0 clock0 ticks5 clock0_ok) as (sigs & p' & E & _ & _ & Hu & _).
  - unfold tv_norm. cbn. lia.
  - unfold tv_norm. cbn. lia.
  - reflexivity.
  - reflexivity.
  - exists sigs, p'. split; [exact E|]. rewrite Hu. reflexivity.
Defined.
