(* ===== verification/Kmem.v ===== *)
(** * The interface of the kernel allocator

    What the System V shared memory uses of library/kmalloc.c: blocks that are
    allocated, resized and freed by their address alone.  [HeapKmem] shows that
    the routines of [Heap] keep these laws on any allocation pool. *)

From S2P Require Import Prelude.

Class KmemOps (S : Type) := {
  km_alloc : Z -> S -> outcome S Z;             (** kmalloc (size) *)
  km_realloc : Z -> Z -> S -> outcome S Z;      (** krealloc (mem, size) *)
  km_free : Z -> S -> outcome S ()              (** kfree (mem) *)
}.

(** [kok s K]: a state whose live blocks are at the addresses [K]. *)
Class KmemLaws (S : Type) `{!KmemOps S} (kok : S -> gset Z -> Prop) := {
  km_addr s K p : kok s K -> p ∈ K -> 0 < p /\ (4 | p);
  km_alloc_ok s K n : kok s K -> 0 <= n < 2 ^ 31 ->
    exists p s', km_alloc n s = Ret p s' /\ ((p = 0 /\ kok s' K) \/ (p <> 0 /\ p ∉ K /\ kok s' ({[p]} ∪ K)));
  km_free_ok s K p : kok s K -> p ∈ K -> exists s', km_free p s = Ret () s' /\ kok s' (K ∖ {[p]});
  km_realloc_ok s K p n : kok s K -> p = 0 \/ p ∈ K -> 0 <= n < 2 ^ 31 ->
    exists r s', km_realloc p n s = Ret r s' /\
      ((r = 0 /\ kok s' K) \/ (r <> 0 /\ (r ∉ K \/ r = p) /\ kok s' ({[r]} ∪ K ∖ {[p]})))
}.
