(* ===== verification/HeapKmem.v ===== *)
(** * kmalloc, krealloc and kfree keep the laws of [Kmem] *)

From S2P Require Import Prelude Ixlist Pool Heap HeapOps Kmem.
Import Heap.

Section HeapKmem.
  Context {S : Type} `{HL : PoolLaws S pok}.
  Implicit Types (s : S) (L : gmap Z Z) (K : gset Z) (p : Z).

#[export] Instance heap_kmem_ops : KmemOps S := { km_alloc := kmalloc; km_realloc := krealloc; km_free := kfree }.

(** A block: its length is in front of it. *)
Definition kblock s L p : Prop :=
    0 < p /\ (4 | p) /\ exists sz, ldw s (p - 4) = sz /\ 0 <= sz /\ sz + 4 < 2 ^ 31 /\ L !! (p - 4) = Some (sz + 4).

Definition heap_kok s K : Prop := exists L, pok s L /\ disj L /\ (forall u sz, L !! u = Some sz -> 0 < sz) /\
    forall p, p ∈ K -> kblock s L p.

Lemma kblock_covered s L p : kblock s L p -> covered L (p - 4).
  Proof. intros (_ & _ & sz & _ & ? & _ & HL'). exists (p - 4), (sz + 4). split; [done|lia]. Qed.

(** Other words and other allocations do not matter to a block. *)
Lemma kblock_keep s s' L L' p :
    kblock s L p -> ldw s' (p - 4) = ldw s (p - 4) -> L' !! (p - 4) = L !! (p - 4) -> kblock s' L' p.
  Proof. intros (H1 & H2 & sz & Hw & H3) Hs Hl. do 2 (split; [done|]). exists sz. by rewrite Hs, Hl. Qed.

(** New memory of [sz + 4] bytes becomes a block. *)
Lemma kok_insert s s1 L K r sz :
    pok s L -> disj L -> (forall u sz, L !! u = Some sz -> 0 < sz) -> (forall p, p ∈ K -> kblock s L p) ->
    pok s1 (<[r := sz + 4]> L) -> new_memory L r (sz + 4) -> 0 <= sz -> sz + 4 < 2 ^ 31 ->
    (forall w, covered L w -> ldw s1 w = ldw s w) ->
    (r + 4) ∉ K /\ heap_kok (stw s1 r sz) ({[r + 4]} ∪ K).
  Proof.
    intros Hp Hd Hpos HK Hp1 Hnew H0 H31 Hw. pose proof Hnew as (Hr & H4 & Hb & Hn & Hc).
    assert (covered (<[r := sz + 4]> L) r) as Hcr by (exists r, (sz + 4); split; [apply lookup_insert_eq|lia]).
    assert (r + 4 ∉ K) as HrK.
    { intros Hin. destruct (HK _ Hin) as (_ & _ & z & _ & _ & _ & HL'). replace (r + 4 - 4) with r in HL' by lia. congruence. }
    split; [done|]. exists (<[r := sz + 4]> L). split_and!.
    - by apply stw_ok.
    - apply disj_insert; try done. lia.
    - intros u z [[<- <-]|[_ Hu]]%lookup_insert_Some; [lia|eauto].
    - intros p [->%elem_of_singleton|HpK]%elem_of_union.
      + split; [lia|]. split; [apply Z.divide_add_r; [done|by exists 1]|]. exists sz. replace (r + 4 - 4) with r by lia. rewrite ldw_stw_eq, lookup_insert_eq. done.
      + assert (p - 4 <> r) as Hne by (intros <-; apply HrK; by replace (p - 4 + 4) with p by lia).
        eapply kblock_keep; [by apply HK| |by rewrite lookup_insert_ne by done].
        rewrite ldw_stw_ne by done. apply Hw. by eapply kblock_covered, HK.
  Qed.

Lemma copy_words_pok n : forall src dst s L, pok s L -> (forall w, dst <= w < dst + 4 * Z.of_nat n -> covered L w) ->
    pok (copy_words n src dst s) L.
  Proof.
    induction n as [|n IH]; intros src dst s L Hp Hc; [done|]. cbn [copy_words].
    apply IH; [apply stw_ok; [done|apply Hc; lia]|]. intros w Hw. apply Hc. lia.
  Qed.

Lemma copy_words_frame n : forall src dst s w, ~ (dst <= w < dst + 4 * Z.of_nat n) -> ldw (copy_words n src dst s) w = ldw s w.
  Proof.
    induction n as [|n IH]; intros src dst s w Hw; [done|]. cbn [copy_words].
    rewrite IH by lia. apply ldw_stw_ne. lia.
  Qed.

Lemma kmalloc_law s K n : heap_kok s K -> 0 <= n < 2 ^ 31 ->
    exists p s', kmalloc n s = Ret p s' /\ ((p = 0 /\ heap_kok s' K) \/ (p <> 0 /\ p ∉ K /\ heap_kok s' ({[p]} ∪ K))).
  Proof.
    intros (L & Hp & Hd & Hpos & HK) Hn. unfold kmalloc.
    assert (0 <= round4 n <= 2 ^ 31) as Hr by (rewrite round4_eq by lia; Z.div_mod_to_equations; lia).
    destruct (palloc_ok s L (s32 (round4 n + 4)) 1) as (r & s1 & -> & Hcase & Hw); [done|by right|]. cbn [obind].
    destruct Hcase as [[-> Hp1]|(Hr0 & Hs0 & Hp1 & Hnew)].
    - exists 0, s1. split; [done|]. left. split; [done|]. exists L. split_and!; try done.
      intros p HpK. eapply kblock_keep; [by apply HK| |done]. apply Hw. by eapply kblock_covered, HK.
    - rewrite (proj2 (Z.eqb_neq r 0)) by done. cbn [negb].
      assert (s32 (round4 n + 4) = round4 n + 4 /\ round4 n + 4 < 2 ^ 31) as [Es H31].
      { unfold s32 in *. revert Hs0. generalize (round4 n), Hr. clear. intros x Hx Hs. Z.div_mod_to_equations. lia. }
      rewrite Es in *. destruct (kok_insert s s1 L K r (round4 n)) as [HrK Hok]; try done; [lia|].
      exists (r + 4), (stw s1 r (round4 n)). split; [done|]. right. split; [|done].
      destruct Hnew as (? & _). lia.
  Qed.

Lemma kfree_law s K p : heap_kok s K -> p ∈ K -> exists s', kfree p s = Ret () s' /\ heap_kok s' (K ∖ {[p]}).
  Proof.
    intros (L & Hp & Hd & Hpos & HK) HpK. destruct (HK p HpK) as (H0 & H4 & sz & Hw & Hs & H31 & HL').
    unfold kfree. rewrite (proj2 (Z.eqb_neq p 0)), Hw, s32_id by (unfold is_s32; lia).
    destruct (pfree_ok s L (p - 4) (sz + 4) Hp HL') as (s' & E & Hp' & Hw'). exists s'. split; [done|].
    exists (delete (p - 4) L). split_and!; [done| | |].
    - intros u v a b [_ Hu]%lookup_delete_Some [_ Hv]%lookup_delete_Some. by apply Hd.
    - intros u z [_ Hu]%lookup_delete_Some. by eapply Hpos.
    - intros q [HqK Hne]%elem_of_difference. rewrite elem_of_singleton in Hne. pose proof (HK q HqK) as Hq.
      assert (delete (p - 4) L !! (q - 4) = L !! (q - 4)) as Hd' by (apply lookup_delete_ne; lia).
      eapply kblock_keep; [done| |done]. apply Hw'. destruct Hq as (_ & _ & z & _ & ? & _ & Hq).
      exists (q - 4), (z + 4). rewrite Hd'. split; [done|lia].
  Qed.

(** Copying into a block keeps all blocks. *)
Lemma kok_copy s K q sz m src :
    heap_kok s K -> q ∈ K -> ldw s (q - 4) = sz -> 4 * Z.of_nat m <= sz -> heap_kok (copy_words m src q s) K.
  Proof.
    intros (L & Hp & Hd & Hpos & HK) HqK Hsz Hm. destruct (HK q HqK) as (H0 & H4 & z & Hw & Hz & _ & HL').
    assert (z = sz) as -> by congruence.
    exists L. split_and!; try done.
    - apply copy_words_pok; [done|]. intros w Hw'. exists (q - 4), (sz + 4). split; [done|lia].
    - intros p HpK. pose proof (HK p HpK) as (Hp0 & Hp4 & y & Hy & Hy0 & _ & HLp).
      eapply kblock_keep; [by apply HK| |done]. apply copy_words_frame. intros Hin.
      destruct (Z.eq_dec (p - 4) (q - 4)) as [E|Hne]; [lia|]. destruct (Hd _ _ _ _ HLp HL' Hne); lia.
  Qed.

Lemma krealloc_law s K p n : heap_kok s K -> p = 0 \/ p ∈ K -> 0 <= n < 2 ^ 31 ->
    exists r s', krealloc p n s = Ret r s' /\
      ((r = 0 /\ heap_kok s' K) \/ (r <> 0 /\ (r ∉ K \/ r = p) /\ heap_kok s' ({[r]} ∪ K ∖ {[p]}))).
  Proof.
    intros Hok [->|HpK] Hn.
    - unfold krealloc. cbn [Z.eqb]. destruct (kmalloc_law s K n Hok Hn) as (r & s' & E & Hr).
      exists r, s'. split; [done|]. destruct Hr as [?|(Hr0 & HrK & Hok')]; [by left|right].
      split; [done|]. split; [by left|]. destruct Hok as (L & _ & _ & _ & HK).
      assert (0 ∉ K) by (intros H; destruct (HK _ H); lia).
      by replace (K ∖ {[0]}) with K by set_solver.
    - pose proof Hok as (L & Hp & Hd & Hpos & HK). destruct (HK p HpK) as (H0 & H4 & sz & Hw & Hs & H31 & HL').
      unfold krealloc. rewrite (proj2 (Z.eqb_neq p 0)), Hw by lia.
      destruct (Z.leb_spec (round4 n) sz) as [Hle|Hgt].
      { exists p, s. split; [done|]. right. split; [lia|]. split; [by right|].
        replace ({[p]} ∪ K ∖ {[p]}) with K; [done|]. apply leibniz_equiv. intros x. rewrite elem_of_union, elem_of_difference, elem_of_singleton.
        destruct (decide (x = p)); naive_solver. }
      assert (0 <= round4 n <= 2 ^ 31) as Hr by (rewrite round4_eq by lia; Z.div_mod_to_equations; lia).
      destruct (palloc_ok s L (s32 (round4 n + 4)) 1) as (r & s1 & -> & Hcase & Hw1); [done|by right|]. cbn [obind].
      destruct Hcase as [[-> Hp1]|(Hr0 & Hs0 & Hp1 & Hnew)].
      { exists 0, s1. split; [done|]. left. split; [done|]. exists L. split_and!; try done.
        intros q HqK. eapply kblock_keep; [by apply HK| |done]. apply Hw1. by eapply kblock_covered, HK. }
      rewrite (proj2 (Z.eqb_neq r 0)) by done. cbn [negb].
      assert (s32 (round4 n + 4) = round4 n + 4 /\ round4 n + 4 < 2 ^ 31) as [Es H31'].
      { unfold s32 in *. revert Hs0. generalize (round4 n), Hr. clear. intros x Hx Hs. Z.div_mod_to_equations. lia. }
      rewrite Es in *. destruct (kok_insert s s1 L K r (round4 n)) as [HrK Hok']; try done; [lia|].
      pose proof Hnew as (Hr1 & _ & _ & Hn0 & _).
      assert (p - 4 <> r) as Hne by congruence.
      set (s2 := stw s1 r (round4 n)) in *.
      assert (ldw s2 (p - 4) = sz) as Hw2.
      { unfold s2. rewrite ldw_stw_ne by done. rewrite <- Hw. apply Hw1. by eapply kblock_covered, HK. }
      rewrite Hw2. set (s3 := copy_words _ p (r + 4) s2).
      assert (heap_kok s3 ({[r + 4]} ∪ K)) as Hok3.
      { eapply kok_copy; [done|set_solver| |].
        - replace (r + 4 - 4) with r by lia. apply ldw_stw_eq.
        - rewrite Z2Nat.id; Z.div_mod_to_equations; lia. }
      destruct (kfree_law s3 _ p Hok3) as (s4 & -> & Hok4); [set_solver|]. cbn [obind].
      exists (r + 4), s4. split; [done|]. right. split; [lia|]. split; [by left|].
      assert (r + 4 <> p) by (intros <-; done).
      replace ({[r + 4]} ∪ K ∖ {[p]}) with (({[r + 4]} ∪ K) ∖ {[p]}) by set_solver. done.
  Qed.

#[export] Instance heap_kmem_laws : KmemLaws S heap_kok.
  Proof.
    split.
    - intros s K p (L & _ & _ & _ & HK) Hp. destruct (HK p Hp) as (? & ? & _). done.
    - apply kmalloc_law.
    - apply kfree_law.
    - apply krealloc_law.
  Qed.
End HeapKmem.
