(* ===== verification/Shm.v ===== *)
(** * System V shared memory

    Models library/shm.c on the kernel allocator of [Kmem].  The list of
    segments is the list of its nodes in order, each with its address: a pointer
    to a structure is that address, and an access through a pointer whose node
    is no longer in the list is a [Fault].  A process is its pid, with the array
    of its attachments in struct user.  Results are [inl] of the error number, or
    [inr] of the value returned. *)

From S2P Require Import Prelude Ipc Kmem.

Module Shm.

(** ** Data *)

Definition SHM_RDONLY : Z := 0x1000.
Definition SHMSEG_REMOVED : Z := 0x0400.
Definition SHMSEG_ALLOCATED : Z := 0x0800.
Definition ACCESSPERMS : Z := 0x1ff.
Definition IPC_GETLIST : Z := 3.
Definition SIZEOF_SHM_LIST : Z := 50.

Record shmid_ds := mkDs {
  shm_perm : ipc_perm; shm_segsz : Z; shm_lpid : Z; shm_cpid : Z; shm_nattch : Z;
  shm_atime : Z; shm_dtime : Z; shm_ctime : Z; shm_internal : Z
}.

Definition ds_set_perm (d : shmid_ds) v : shmid_ds :=
  mkDs v (shm_segsz d) (shm_lpid d) (shm_cpid d) (shm_nattch d) (shm_atime d) (shm_dtime d) (shm_ctime d) (shm_internal d).
Definition ds_set_ctime (d : shmid_ds) v : shmid_ds :=
  mkDs (shm_perm d) (shm_segsz d) (shm_lpid d) (shm_cpid d) (shm_nattch d) (shm_atime d) (shm_dtime d) v (shm_internal d).
Definition ds_set_nattch (d : shmid_ds) v : shmid_ds :=
  mkDs (shm_perm d) (shm_segsz d) (shm_lpid d) (shm_cpid d) v (shm_atime d) (shm_dtime d) (shm_ctime d) (shm_internal d).
Definition ds_attached (d : shmid_ds) (pid now : Z) : shmid_ds :=
  mkDs (shm_perm d) (shm_segsz d) pid (shm_cpid d) (s16 (shm_nattch d + 1)) now (shm_dtime d) (shm_ctime d) (shm_internal d).
Definition ds_detached (d : shmid_ds) (now : Z) : shmid_ds :=
  mkDs (shm_perm d) (shm_segsz d) (shm_lpid d) (shm_cpid d) (s16 (shm_nattch d - 1)) (shm_atime d) now (shm_ctime d) (shm_internal d).

Definition perm_set_key (p : ipc_perm) k : ipc_perm :=
  mkPerm (cuid p) (cgid p) (uid p) (gid p) (mode p) (seq p) k.

(** The shm fields of struct user; [u_shments] is what [u_shmarray] points to,
    unwritten entries being 0. *)
Record shmuser := mkShmUser { u_shmsize : Z; u_shmused : Z; u_shmarray : Z; u_shments : list Z }.

Record shmworld (S : Type) := mkShm {
  shmlist : list (Z * shmid_ds); shmseq : Z; users : gmap Z shmuser; kmem : S
}.
Arguments mkShm {S}.
Arguments shmlist {S}.
Arguments shmseq {S}.
Arguments users {S}.
Arguments kmem {S}.

(** The address of [shm_perm] is that of the node. *)
Definition IPC_SHMID (a : Z) (p : ipc_perm) : Z := s32 (Z.lor (Z.shiftl (seq p) 18) (Z.land a 0x3fffc)).

Section Ops.
Context {S : Type} `{!KmemOps S}.
Notation world := (shmworld S).

Definition set_shmlist (w : world) l : world := mkShm l (shmseq w) (users w) (kmem w).
Definition set_shmseq (w : world) n : world := mkShm (shmlist w) n (users w) (kmem w).
Definition set_users (w : world) us : world := mkShm (shmlist w) (shmseq w) us (kmem w).
Definition set_kmem (w : world) k : world := mkShm (shmlist w) (shmseq w) (users w) k.
Definition put_user (w : world) pid u : world := set_users w (<[pid := u]> (users w)).

(** An allocator call inside the world. *)
Definition lift {A} (f : S -> outcome S A) (w : world) : outcome world A :=
  match f (kmem w) with
  | Ret a k => Ret a (set_kmem w k)
  | Asleep k => Asleep (set_kmem w k)
  | Panic m => Panic m
  | Fault => Fault
  | Diverge => Diverge
  end.

(** ** Access through a pointer *)

Fixpoint get_ds (l : list (Z * shmid_ds)) (a : Z) : option shmid_ds :=
  match l with
  | [] => None
  | (b, d) :: l => if b =? a then Some d else get_ds l a
  end.

Fixpoint upd_ds (l : list (Z * shmid_ds)) (a : Z) (d : shmid_ds) : list (Z * shmid_ds) :=
  match l with
  | [] => []
  | (b, d0) :: l => if b =? a then (b, d) :: l else (b, d0) :: upd_ds l a d
  end.

Definition put_ds (w : world) (a : Z) (d : shmid_ds) : world := set_shmlist w (upd_ds (shmlist w) a d).

(** ** The three searches *)

Definition shm_find_ds_by_key (k : Z) (w : world) : option (Z * shmid_ds) :=
  List.find (fun x => key (shm_perm x.2) =? k) (shmlist w).
Definition shm_find_ds_by_shmid (shmid : Z) (w : world) : option (Z * shmid_ds) :=
  List.find (fun x => IPC_SHMID x.1 (shm_perm x.2) =? shmid) (shmlist w).
Definition shm_find_ds_by_addr (addr : Z) (w : world) : option (Z * shmid_ds) :=
  List.find (fun x => shm_internal x.2 =? addr) (shmlist w).

(** ** shmget *)

Definition shmget_allocate_segment (me now : Z) (cred : ucred) (k size shmflg : Z) (w : world)
  : outcome world (Z + Z) :=
  if size <? 1 then Ret (inl EINVAL) w
  else
    let* (l, w) := lift (km_alloc SIZEOF_SHM_LIST) w in
    if l =? 0 then Ret (inl ENOSPC) w
    else
      let* (data, w) := lift (km_alloc size) w in
      if data =? 0 then
        let* (_u, w) := lift (km_free l) w in Ret (inl ENOSPC) w
      else
        let w := set_shmseq w (u16 (shmseq w + 1)) in
        let perm := mkPerm (u16 (cr_uid cred)) (u16 (cr_gid cred)) (u16 (cr_uid cred)) (u16 (cr_gid cred))
                      (u16 (Z.lor (Z.land shmflg ACCESSPERMS) SHMSEG_ALLOCATED)) (shmseq w) k in
        let d := mkDs perm size 0 me 0 0 0 now data in
        Ret (inr (IPC_SHMID l perm)) (set_shmlist w ((l, d) :: shmlist w)).

Definition shmget (me now : Z) (cred : ucred) (k size shmflg : Z) (w : world) : outcome world (Z + Z) :=
  if negb (k =? IPC_PRIVATE) then
    match shm_find_ds_by_key k w with
    | None =>
      if negb (bset shmflg IPC_CREAT) then Ret (inl ENOENT) w
      else shmget_allocate_segment me now cred k size shmflg w
    | Some (l, d) =>
      let e := ipcperm cred (shm_perm d) shmflg in
      if negb (e =? 0) then Ret (inl e) w
      else if negb (size =? 0) && (shm_segsz d <? size) then Ret (inl EINVAL) w
      else if Z.land shmflg (Z.lor IPC_CREAT IPC_EXCL) =? Z.lor IPC_CREAT IPC_EXCL then Ret (inl EEXIST) w
      else Ret (inr (IPC_SHMID l (shm_perm d))) w
    end
  else shmget_allocate_segment me now cred k size shmflg w.

(** ** shmat *)

(** [u.u_shmarray[u.u_shmused++] = ds], in an array with room made for it. *)
Definition add_attach (me l : Z) (w : world) : outcome world () :=
  let? u := users w !! me in
  let* (u, w) :=
    if u_shmused u =? u_shmsize u then
      let size := s32 (u_shmsize u + 256) in
      let* (p, w) := lift (km_realloc (u_shmarray u) (u32 (4 * size))) w in
      Ret (mkShmUser size (u_shmused u) p (u_shments u ++ replicate (Z.to_nat size - length (u_shments u)) 0)) w
    else Ret u w in
  if u_shmarray u =? 0 then Fault
  else
    let? _x := aget (u_shments u) (u_shmused u) in
    Ret tt (put_user w me (mkShmUser (u_shmsize u) (u_shmused u + 1) (u_shmarray u)
      (aput (u_shments u) (u_shmused u) l))).

Definition shmat (me now : Z) (cred : ucred) (shmid shmaddr shmflg : Z) (w : world) : outcome world (Z + Z) :=
  match shm_find_ds_by_shmid shmid w with
  | None => Ret (inl EINVAL) w
  | Some (l, d) =>
    if negb (shmaddr =? 0) && negb (shmaddr =? shm_internal d) then Ret (inl EINVAL) w
    else
      let e := ipcperm cred (shm_perm d) (if bset shmflg SHM_RDONLY then IPC_R else Z.lor IPC_R IPC_W) in
      if negb (e =? 0) then Ret (inl e) w
      else
        let w := put_ds w l (ds_attached d me now) in
        let* (_u, w) := add_attach me l w in
        Ret (inr (shm_internal d)) w
  end.

(** ** Detaching *)

Definition shm_deallocate_segment (l : Z) (w : world) : outcome world () :=
  let? d := get_ds (shmlist w) l in
  let* (_u, w) := lift (km_free (shm_internal d)) w in
  let w := set_shmlist w (filter (fun x => x.1 <> l) (shmlist w)) in
  let* (_u, w) := lift (km_free l) w in
  Ret tt w.

Definition shm_delete_mapping (now l : Z) (w : world) : outcome world () :=
  let? d := get_ds (shmlist w) l in
  let d := ds_detached d now in
  let w := put_ds w l d in
  if (shm_nattch d <=? 0) && bset (mode (shm_perm d)) SHMSEG_REMOVED
  then shm_deallocate_segment l w else Ret tt w.

(** [memcpy(&a[i], &a[i + 1], 4 * n)] *)
Definition memcpy_down (a : list Z) (i n : nat) : list Z :=
  take i a ++ take n (drop (i + 1) a) ++ drop (i + n) a.

Definition shmdt (me now addr : Z) (w : world) : outcome world (Z + Z) :=
  match shm_find_ds_by_addr addr w with
  | None => Ret (inl EINVAL) w
  | Some (l, _) =>
    let? u := users w !! me in
    let w :=
      match first_idx (Z.eqb l) (take (Z.to_nat (u_shmused u)) (u_shments u)) 0 with
      | Some i =>
        let used := u_shmused u - 1 in
        put_user w me (mkShmUser (u_shmsize u) used (u_shmarray u)
          (memcpy_down (u_shments u) (Z.to_nat i) (Z.to_nat (used - i))))
      | None => w
      end in
    let* (_u, w) := shm_delete_mapping now l w in
    Ret (inr 0) w
  end.

(** ** shmctl

    [buf]: what the caller's structure holds; the result carries what IPC_STAT
    stores in it. *)
Definition shmctl (now : Z) (cred : ucred) (shmid cmd : Z) (buf : shmid_ds) (w : world)
  : outcome world ((Z + Z) * option shmid_ds) :=
  if cmd =? IPC_GETLIST then Ret (inr (match shmlist w with [] => 0 | (l, _) :: _ => l end), None) w
  else
    match shm_find_ds_by_shmid shmid w with
    | None => Ret (inl EINVAL, None) w
    | Some (l, d) =>
      if cmd =? IPC_STAT then
        let e := ipcperm cred (shm_perm d) IPC_R in
        if negb (e =? 0) then Ret (inl e, None) w else Ret (inr 0, Some d) w
      else if cmd =? IPC_SET then
        let e := ipcperm cred (shm_perm d) IPC_M in
        if negb (e =? 0) then Ret (inl e, None) w
        else
          let b := shm_perm buf in
          let d := ds_set_perm d (perm_set_owner (shm_perm d) (uid b) (gid b) (mode_replace (mode (shm_perm d)) (mode b))) in
          Ret (inr 0, None) (put_ds w l (ds_set_ctime d now))
      else if cmd =? IPC_RMID then
        let e := ipcperm cred (shm_perm d) IPC_M in
        if negb (e =? 0) then Ret (inl e, None) w
        else
          let p := perm_set_key (shm_perm d) IPC_PRIVATE in
          let d := ds_set_perm d (perm_set_mode p (u16 (Z.lor (mode p) SHMSEG_REMOVED))) in
          let w := put_ds w l d in
          if shm_nattch d <=? 0 then
            let* (_u, w) := shm_deallocate_segment l w in Ret (inr 0, None) w
          else Ret (inr 0, None) w
      else Ret (inl EINVAL, None) w
    end.

(** ** shmfork, shmexit *)

Fixpoint count_attaches (ents : list Z) (w : world) : outcome world () :=
  match ents with
  | [] => Ret tt w
  | l :: ents =>
    let? d := get_ds (shmlist w) l in
    count_attaches ents (put_ds w l (ds_set_nattch d (s16 (shm_nattch d + 1))))
  end.

(** The result is 0, or -1 when there is no memory for the array. *)
Definition shmfork (parent child : Z) (w : world) : outcome world Z :=
  let? p := users w !! parent in
  let? c := users w !! child in
  if negb (u_shmused p =? 0) then
    let* (arr, w) := lift (km_alloc (u32 (u_shmused p * 4))) w in
    if arr =? 0 then Ret (-1) w
    else
      let ents := take (Z.to_nat (u_shmused p)) (u_shments p) in
      let w := put_user w child (mkShmUser (u_shmused p) (u_shmused p) arr ents) in
      let* (_u, w) := count_attaches ents w in
      Ret 0 w
  else Ret 0 w.

Fixpoint delete_mappings (now : Z) (ents : list Z) (w : world) : outcome world () :=
  match ents with
  | [] => Ret tt w
  | l :: ents => let* (_u, w) := shm_delete_mapping now l w in delete_mappings now ents w
  end.

(** The struct user of the process ends with the call. *)
Definition shmexit (me now : Z) (w : world) : outcome world () :=
  let? p := users w !! me in
  let* (_u, w) := delete_mappings now (take (Z.to_nat (u_shmused p)) (u_shments p)) w in
  let* (_u, w) := if negb (u_shmsize p =? 0) then lift (km_free (u_shmarray p)) w else Ret tt w in
  Ret tt (set_users w (delete me (users w))).
End Ops.
End Shm.
