(* ===== verification/ShmInv.v ===== *)
(** * Shared memory: the attach counts

    The invariant that ties the count of every segment to the attachments in the
    arrays of all processes.  As for the descriptors, [ext] is a ledger of the
    references a call holds while it moves them between an array and a count. *)

From S2P Require Import Prelude Ipc Kmem Shm.
Import Shm.

(** ** Attachments of all processes *)

Definition atts (u : shmuser) : list Z := take (Z.to_nat (u_shmused u)) (u_shments u).

Definition refs_all (us : gmap Z shmuser) (a : Z) : Z := map_fold (fun _ u n => refs (atts u) a + n) 0 us.

Lemma refs_all_delete us p u a :
  us !! p = Some u -> refs_all us a = refs (atts u) a + refs_all (delete p us) a.
Proof.
  intros H. unfold refs_all. rewrite (map_fold_delete_L (fun (_ : Z) u n => refs (atts u) a + n) 0 p u us); try done. intros. lia.
Qed.

Lemma refs_all_insert us p u a : refs_all (<[p := u]> us) a = refs (atts u) a + refs_all (delete p us) a.
Proof.
  rewrite (refs_all_delete _ p u) by apply lookup_insert_eq. by rewrite delete_insert_eq.
Qed.

Lemma refs_all_put us p u u' a :
  us !! p = Some u -> refs_all (<[p := u']> us) a = refs_all us a - refs (atts u) a + refs (atts u') a.
Proof. intros H. rewrite refs_all_insert, (refs_all_delete us p u a H). lia. Qed.

Lemma refs_all_pos us a : 0 <= refs_all us a.
Proof.
  unfold refs_all. apply (map_fold_weak_ind (fun n _ => 0 <= n)); [done|].
  intros i x m r _ Hr. pose proof (refs_pos (atts x) a). lia.
Qed.

Lemma refs_all_of us p u a : us !! p = Some u -> refs (atts u) a <= refs_all us a.
Proof. intros H. rewrite (refs_all_delete us p u a H). pose proof (refs_all_pos (delete p us) a). lia. Qed.

(** ** Segments *)

Definition seg_blocks (l : list (Z * shmid_ds)) : list Z := flat_map (fun x => [x.1; shm_internal x.2]) l.

Lemma seg_blocks_elem l b : b ∈ seg_blocks l <-> exists a d, (a, d) ∈ l /\ (b = a \/ b = shm_internal d).
Proof.
  induction l as [|[a d] l IH]; cbn.
  - split; [by intros ?%not_elem_of_nil|]. intros (a & d & H & _). by apply not_elem_of_nil in H.
  - rewrite !elem_of_cons, IH. split.
    + intros [->|[->|(a' & d' & H & Hb)]]; [exists a, d; rewrite elem_of_cons; auto..|].
      exists a', d'. rewrite elem_of_cons. auto.
    + intros (a' & d' & [[= -> ->]|H]%elem_of_cons & [->| ->]); eauto 10.
Qed.

Lemma seg_addr_in l a d : (a, d) ∈ l -> a ∈ seg_blocks l /\ shm_internal d ∈ seg_blocks l.
Proof. intros H. split; apply seg_blocks_elem; eauto 10. Qed.

Lemma seg_internal_ne l a d : NoDup (seg_blocks l) -> (a, d) ∈ l -> shm_internal d <> a.
Proof.
  intros Hnd (l1 & l2 & ->)%list_elem_of_split E. unfold seg_blocks in Hnd. rewrite flat_map_app in Hnd. cbn in Hnd.
  apply NoDup_app in Hnd as (_ & _ & [Hx _]%NoDup_cons). apply Hx. rewrite E. left.
Qed.

Lemma NoDup_seg_fst l : NoDup (seg_blocks l) -> NoDup l.*1.
Proof.
  induction l as [|[a d] l IH]; cbn; [constructor|]. intros [H1 [_ Hl]%NoDup_cons]%NoDup_cons.
  apply NoDup_cons. split; [|by apply IH]. intros ([b d'] & -> & Hin)%list_elem_of_fmap.
  apply H1. right. apply (seg_addr_in _ _ _ Hin).
Qed.

Lemma get_ds_elem l a d : NoDup l.*1 -> get_ds l a = Some d <-> (a, d) ∈ l.
Proof.
  induction l as [|[b d0] l IH]; cbn.
  - intros _. split; [done|]. by intros ?%not_elem_of_nil.
  - intros [Hn Hd]%NoDup_cons. destruct (Z.eqb_spec b a) as [->|Hne].
    + split; [intros [= ->]; left|]. intros [[= ->]|Hin]%elem_of_cons; [done|]. destruct Hn.
      apply list_elem_of_fmap. by exists (a, d).
    + rewrite (IH Hd), elem_of_cons. split; [by right|]. intros [[= -> ->]|?]; done.
Qed.

Lemma get_ds_Some l a : a ∈ l.*1 -> exists d, get_ds l a = Some d.
Proof.
  induction l as [|[b d0] l IH]; cbn; [by intros ?%not_elem_of_nil|]. intros [->|Hin]%elem_of_cons.
  - rewrite Z.eqb_refl. eauto.
  - destruct (b =? a); eauto.
Qed.

Lemma get_upd_ds l a d b :
  a ∈ l.*1 -> get_ds (upd_ds l a d) b = if a =? b then Some d else get_ds l b.
Proof.
  induction l as [|[c d0] l IH]; cbn; [by intros ?%not_elem_of_nil|]. intros H.
  destruct (Z.eqb_spec c a) as [->|Hne]; cbn.
  - destruct (Z.eqb_spec a b); done.
  - apply elem_of_cons in H as [->|H]; [done|]. rewrite IH by done.
    destruct (Z.eqb_spec c b) as [->|], (Z.eqb_spec a b) as [->|]; done.
Qed.

Lemma upd_ds_fst l a d : (upd_ds l a d).*1 = l.*1.
Proof. induction l as [|[c d0] l IH]; cbn; [done|]. destruct (c =? a); cbn; by rewrite ?IH. Qed.

Lemma upd_ds_blocks l a d d0 :
  get_ds l a = Some d0 -> shm_internal d = shm_internal d0 -> seg_blocks (upd_ds l a d) = seg_blocks l.
Proof.
  induction l as [|[c d1] l IH]; cbn; [done|]. destruct (Z.eqb_spec c a) as [->|Hne]; cbn.
  - by intros [= ->] ->.
  - intros H E. unfold seg_blocks in IH. by rewrite IH.
Qed.

Lemma filter_get l a b : get_ds (filter (fun x : Z * shmid_ds => x.1 <> a) l) b = if a =? b then None else get_ds l b.
Proof.
  induction l as [|[c d] l IH]; [cbn; by case_match|]. rewrite filter_cons. cbn [get_ds].
  case_decide as Hc; cbn [get_ds]; rewrite IH; cbn [fst] in Hc.
  - destruct (Z.eqb_spec c b) as [->|], (Z.eqb_spec a b) as [->|]; done.
  - destruct (Z.eqb_spec c b) as [->|], (Z.eqb_spec a b) as [->|]; done || (destruct Hc; congruence).
Qed.

Lemma filter_upd l a d : filter (fun x : Z * shmid_ds => x.1 <> a) (upd_ds l a d) = filter (fun x : Z * shmid_ds => x.1 <> a) l.
Proof.
  induction l as [|[c dc] l IH]; [done|]. cbn [upd_ds]. destruct (Z.eqb_spec c a) as [->|Hne].
  - rewrite !filter_cons. cbn [fst]. by rewrite !decide_False by tauto.
  - rewrite !filter_cons. cbn [fst]. by rewrite !decide_True, IH by done.
Qed.

Lemma filter_blocks l a d :
  NoDup (seg_blocks l) -> get_ds l a = Some d ->
  NoDup (seg_blocks (filter (fun x : Z * shmid_ds => x.1 <> a) l)) /\
  forall b, b ∈ seg_blocks (filter (fun x : Z * shmid_ds => x.1 <> a) l) <->
    b ∈ seg_blocks l /\ b <> a /\ b <> shm_internal d.
Proof.
  intros Hnd Hg. assert ((a, d) ∈ l) as Had by (apply get_ds_elem; [by apply NoDup_seg_fst|done]).
  assert (forall b d', (b, d') ∈ l -> b <> a -> b <> shm_internal d /\ shm_internal d' <> a /\ shm_internal d' <> shm_internal d) as Hap.
  { intros b d' Hb Hne. clear Hg. induction l as [|[c dc] l IH]; [by apply not_elem_of_nil in Hb|].
    cbn in Hnd. apply NoDup_cons in Hnd as [H1 [H2 Hnd]%NoDup_cons]. rewrite elem_of_cons in H1.
    apply elem_of_cons in Had as [[= -> ->]|Had], Hb as [[= -> ->]|Hb]; [done| | |by apply IH]; fold (seg_blocks l) in *.
    - destruct (seg_addr_in _ _ _ Hb). split_and!; [intros ->|intros E|intros E]; rewrite ?E in *; tauto.
    - destruct (seg_addr_in _ _ _ Had). split_and!; [intros E|intros E|intros E]; rewrite ?E in *; tauto. }
  split.
  - clear Had Hg. clear Hap. induction l as [|[c dc] l IH]; [constructor|]. cbn in Hnd.
    apply NoDup_cons in Hnd as [H1 [H2 Hnd]%NoDup_cons]. rewrite filter_cons. case_decide; [|by apply IH].
    assert (forall x, x ∈ seg_blocks (filter (fun x : Z * shmid_ds => x.1 <> a) l) -> x ∈ seg_blocks l) as Hsub.
    { intros x (b & d' & [_ Hin]%list_elem_of_filter & Hx)%seg_blocks_elem. apply seg_blocks_elem. eauto. }
    cbn. apply NoDup_cons. split.
    + rewrite elem_of_cons in *. intros [?|?%Hsub]; tauto.
    + apply NoDup_cons. split; [|by apply IH]. intros ?%Hsub. tauto.
  - intros b. rewrite !seg_blocks_elem. split.
    + intros (c & dc & [Hne Hin]%list_elem_of_filter & Hb). cbn in Hne. destruct (Hap _ _ Hin Hne) as (? & ? & ?).
      split; [by eauto|]. destruct Hb as [->| ->]; done.
    + intros ((c & dc & Hin & Hb) & Hna & Hni). exists c, dc. split; [|done]. apply list_elem_of_filter. split; [|done].
      cbn. intros ->. assert (get_ds l a = Some dc) by (apply get_ds_elem; [by apply NoDup_seg_fst|done]).
      assert (dc = d) as -> by congruence. destruct Hb; done.
Qed.

(** ** The invariant *)

Section Inv.
Context {S : Type} `{HK : KmemLaws S kok}.
Notation world := (shmworld S).
Implicit Types (w : world) (K : gset Z) (ext : Z -> Z) (u : shmuser).

Record user_ok K (l : list (Z * shmid_ds)) u : Prop := {
  uo_used : 0 <= u_shmused u <= u_shmsize u;
  uo_size : u_shmsize u < 2 ^ 28;
  uo_ents : Z.of_nat (length (u_shments u)) = u_shmsize u;
  uo_array : (u_shmsize u = 0 /\ u_shmarray u = 0) \/ (0 < u_shmsize u /\ u_shmarray u ∈ K /\ u_shmarray u ∉ seg_blocks l)
}.

Record shm_core ext K w : Prop := {
  so_kmem : kok (kmem w) K;
  so_nodup : NoDup (seg_blocks (shmlist w));
  so_in b : b ∈ seg_blocks (shmlist w) -> b ∈ K;
  so_user p u : users w !! p = Some u -> user_ok K (shmlist w) u;
  so_arrays p q u v : users w !! p = Some u -> users w !! q = Some v -> p <> q ->
    u_shmarray u = u_shmarray v -> u_shmsize u = 0;
  so_count l d : get_ds (shmlist w) l = Some d -> shm_nattch d = refs_all (users w) l + ext l;
  so_range l d : get_ds (shmlist w) l = Some d -> shm_nattch d < 2 ^ 15;
  so_refs l : 0 < refs_all (users w) l + ext l -> l ∈ (shmlist w).*1;
  so_ext l : 0 <= ext l
}.

(** A segment that is marked as removed is still attached, but for [skip]. *)
Definition alive (skip : Z) w : Prop :=
  forall l d, get_ds (shmlist w) l = Some d -> l <> skip -> bset (mode (shm_perm d)) SHMSEG_REMOVED = true -> 0 < shm_nattch d.

Definition shm_inv ext K w : Prop := shm_core ext K w /\ alive 0 w.
Definition shm_ok K w : Prop := shm_inv (fun _ => 0) K w.
Definition bump ext (a : Z) (n : Z) : Z -> Z := fun x => ext x + n * ind a x.

Lemma bump_eq ext a n : bump ext a n a = ext a + n.
  Proof. unfold bump, ind. case_decide; [lia|done]. Qed.
Lemma bump_ne ext a n x : x <> a -> bump ext a n x = ext x.
  Proof. intros. unfold bump, ind. case_decide; [congruence|lia]. Qed.

Lemma core_get ext K w l : shm_core ext K w -> 0 < refs_all (users w) l + ext l -> exists d, get_ds (shmlist w) l = Some d.
  Proof. intros H Hr. apply get_ds_Some. by eapply so_refs. Qed.

Lemma seg_nonzero ext K w l d : shm_core ext K w -> get_ds (shmlist w) l = Some d -> l <> 0 /\ shm_internal d <> 0.
  Proof.
    intros H Hd. apply get_ds_elem in Hd; [|apply NoDup_seg_fst, H]. destruct (seg_addr_in _ _ _ Hd) as [H1 H2].
    apply (so_in _ _ _ H) in H1, H2. pose proof (km_addr _ _ _ (so_kmem _ _ _ H) H1).
    pose proof (km_addr _ _ _ (so_kmem _ _ _ H) H2). lia.
  Qed.

(** ** Steps *)

(** The structure of a segment is rewritten, its count changing by [n]. *)
Lemma core_put_ds ext K w l d0 d n :
  shm_core ext K w -> get_ds (shmlist w) l = Some d0 -> shm_internal d = shm_internal d0 ->
  shm_nattch d = shm_nattch d0 + n -> shm_nattch d < 2 ^ 15 -> 0 <= ext l + n -> shm_core (bump ext l n) K (put_ds w l d).
  Proof.
    intros H Hd Hi Hn Hr He. assert (l ∈ (shmlist w).*1) as Hl.
    { apply list_elem_of_fmap. exists (l, d0). split; [done|]. apply get_ds_elem; [apply NoDup_seg_fst, H|done]. }
    assert (seg_blocks (upd_ds (shmlist w) l d) = seg_blocks (shmlist w)) as Hb by by eapply upd_ds_blocks.
    assert (forall x, 0 <= bump ext l n x) as Hpos.
    { intros x. destruct (Z.eq_dec x l) as [->|]; [by rewrite bump_eq|]. rewrite bump_ne by done. apply H. }
    split; cbn [kmem shmlist users put_ds set_shmlist]; rewrite ?Hb; try by apply H.
    - intros p u Hu. destruct (so_user _ _ _ H p u Hu) as [? ? ? ?]. split; try done. by rewrite Hb.
    - intros x dx. rewrite get_upd_ds by done. destruct (Z.eqb_spec l x) as [<-|].
      + intros [= <-]. rewrite bump_eq, Hn, (so_count _ _ _ H _ _ Hd). lia.
      + intros Hx. rewrite bump_ne by done. by apply H.
    - intros x dx. rewrite get_upd_ds by done. destruct (Z.eqb_spec l x) as [<-|]; [by intros [= <-]|apply H].
    - intros x Hx. rewrite upd_ds_fst. destruct (Z.eq_dec x l) as [->|Hne]; [done|].
      rewrite bump_ne in Hx by done. by apply (so_refs _ _ _ H).
    - apply Hpos.
  Qed.

Lemma alive_put_ds skip w l d :
  l ∈ (shmlist w).*1 -> alive skip w ->
  (l <> skip -> bset (mode (shm_perm d)) SHMSEG_REMOVED = true -> 0 < shm_nattch d) -> alive skip (put_ds w l d).
  Proof.
    intros Hl Ha Hd x dx. cbn. rewrite get_upd_ds by done. destruct (Z.eqb_spec l x) as [<-|]; [by intros [= <-]|apply Ha].
  Qed.

(** Nobody refers to the segment any more: it is freed. *)
Lemma deallocate_spec ext K w l d :
  shm_core ext K w -> alive l w -> get_ds (shmlist w) l = Some d -> refs_all (users w) l + ext l = 0 ->
  exists w', shm_deallocate_segment l w = Ret tt w' /\ shm_inv ext (K ∖ {[shm_internal d]} ∖ {[l]}) w' /\
    users w' = users w /\ shmlist w' = filter (fun x => x.1 <> l) (shmlist w) /\ shmseq w' = shmseq w.
  Proof.
    intros H Ha Hd H0. pose proof (NoDup_seg_fst _ (so_nodup _ _ _ H)) as Hnd.
    assert ((l, d) ∈ shmlist w) as Hin by by apply get_ds_elem.
    destruct (seg_addr_in _ _ _ Hin) as [Hl Hi]. pose proof (so_in _ _ _ H _ Hl) as HlK. pose proof (so_in _ _ _ H _ Hi) as HiK.
    pose proof (seg_internal_ne _ _ _ (so_nodup _ _ _ H) Hin) as Hne.
    unfold shm_deallocate_segment, lift. rewrite Hd.
    destruct (km_free_ok _ _ _ (so_kmem _ _ _ H) HiK) as (k1 & -> & Hk1). cbn [obind set_kmem set_shmlist kmem].
    destruct (km_free_ok _ _ l Hk1) as (k2 & -> & Hk2); [set_solver|]. cbn [obind].
    eexists. split; [done|]. split; [|done].
    destruct (filter_blocks _ _ _ (so_nodup _ _ _ H) Hd) as [Hnd' Hf].
    split; [split; cbn [kmem shmlist users set_kmem set_shmlist]|]; try done; try by apply H.
    - intros b (Hb & H1 & H2)%Hf. apply (so_in _ _ _ H) in Hb. set_solver.
    - intros p u Hu. destruct (so_user _ _ _ H p u Hu) as [? ? ? [?|(? & ? & Hn)]]; split; try done; [by left|right].
      split; [done|]. split; [|intros ?%Hf; tauto]. apply elem_of_difference. rewrite elem_of_singleton.
      split; [apply elem_of_difference; rewrite elem_of_singleton; split; [done|]|]; intros E; apply Hn; by rewrite E.
    - intros x dx. rewrite filter_get. destruct (Z.eqb_spec l x); [done|]. apply H.
    - intros x dx. rewrite filter_get. destruct (Z.eqb_spec l x); [done|]. apply H.
    - intros x Hx. assert (x <> l) as Hxl by (intros ->; lia). apply (so_refs _ _ _ H) in Hx.
      apply list_elem_of_fmap in Hx as ([y dy] & -> & Hy). apply list_elem_of_fmap. exists (y, dy). split; [done|].
      apply list_elem_of_filter. done.
    - intros x dx. cbn. rewrite filter_get. destruct (Z.eqb_spec l x); [done|]. intros Hx _. apply (Ha x dx Hx). congruence.
  Qed.

(** A reference of the ledger is given up: the last one of a removed segment
    frees it. *)
Definition detached ext K w l d now K' w' : Prop :=
  users w' = users w /\ shmseq w' = shmseq w /\
  if (shm_nattch d =? 1) && bset (mode (shm_perm d)) SHMSEG_REMOVED
  then K' = K ∖ {[shm_internal d]} ∖ {[l]} /\ shmlist w' = filter (fun x => x.1 <> l) (shmlist w)
  else K' = K /\ shmlist w' = upd_ds (shmlist w) l (ds_detached d now).

Lemma delete_mapping_spec ext K w l now :
  shm_inv ext K w -> 0 < ext l ->
  exists d K' w', get_ds (shmlist w) l = Some d /\ shm_delete_mapping now l w = Ret tt w' /\
    shm_inv (bump ext l (-1)) K' w' /\ detached ext K w l d now K' w'.
  Proof.
    intros [H Ha] He. destruct (core_get _ _ _ l H) as [d Hd]; [pose proof (refs_all_pos (users w) l); lia|].
    pose proof (so_count _ _ _ H _ _ Hd) as Hc. pose proof (so_range _ _ _ H _ _ Hd) as Hr.
    pose proof (refs_all_pos (users w) l) as Hpos.
    assert (shm_nattch (ds_detached d now) = shm_nattch d - 1) as Hn.
    { cbn. unfold s16. Z.div_mod_to_equations. lia. }
    assert (l ∈ (shmlist w).*1) as Hl by (apply (so_refs _ _ _ H); lia).
    pose proof (core_put_ds ext K w l d (ds_detached d now) (-1) H Hd eq_refl ltac:(lia) ltac:(lia) ltac:(lia)) as H1.
    exists d. unfold shm_delete_mapping. rewrite Hd. unfold detached. rewrite Hn.
    change (mode (shm_perm (ds_detached d now))) with (mode (shm_perm d)).
    replace (shm_nattch d - 1 <=? 0) with (shm_nattch d =? 1) by (destruct (Z.eqb_spec (shm_nattch d) 1), (Z.leb_spec (shm_nattch d - 1) 0); lia).
    destruct ((shm_nattch d =? 1) && bset (mode (shm_perm d)) SHMSEG_REMOVED) eqn:Ec.
    - apply andb_prop in Ec as [E1%Z.eqb_eq _].
      destruct (deallocate_spec (bump ext l (-1)) K (put_ds w l (ds_detached d now)) l (ds_detached d now)) as (w' & E & Hi & Hu & Hsl & Hsq).
      + done.
      + apply alive_put_ds; [done| |done]. intros x dx Hx _. apply (Ha x dx Hx). by apply (seg_nonzero _ _ _ _ _ H Hx).
      + cbn. by rewrite get_upd_ds, Z.eqb_refl by done.
      + cbn. rewrite bump_eq. lia.
      + exists (K ∖ {[shm_internal d]} ∖ {[l]}), w'. split_and!; try done. rewrite Hsl. apply filter_upd.
    - exists K, (put_ds w l (ds_detached d now)). split_and!; try done. split; [done|].
      apply alive_put_ds; [done|done|]. intros _ HR. rewrite Hn. cbn in HR. rewrite HR, andb_true_r in Ec.
      apply Z.eqb_neq in Ec. lia.
  Qed.
End Inv.
