(* ===== verification/ShmOps.v ===== *)
(** * Shared memory: the calls keep the invariant *)

From S2P Require Import Prelude Ipc Kmem Shm ShmInv.
Import Shm.

(** ** The array of a process *)

Lemma atts_split (ents : list Z) used i l :
  Z.of_nat (length ents) >= used -> aget (take (Z.to_nat used) ents) i = Some l ->
  0 <= i < used /\
  take (Z.to_nat used) ents = take (Z.to_nat i) ents ++ l :: take (Z.to_nat (used - 1 - i)) (drop (Z.to_nat i + 1) ents).
Proof.
  intros Hl Hi. pose proof (aget_Some_range _ _ _ Hi) as Hr. rewrite length_take in Hr.
  assert (0 <= i < used) as Hiu by lia. split; [done|].
  unfold aget in Hi. rewrite (proj2 (Z.leb_le _ _)) in Hi by lia.
  rewrite lookup_take in Hi by lia. case_decide; [|done].
  rewrite <- (take_drop (Z.to_nat i) (take (Z.to_nat used) ents)).
  rewrite take_take. replace (Z.to_nat i `min` Z.to_nat used)%nat with (Z.to_nat i) by lia. f_equal.
  replace (Z.to_nat used) with (Z.to_nat i + S (Z.to_nat (used - 1 - i)))%nat by lia.
  rewrite <- take_drop_commute. rewrite (drop_S ents l) by done. cbn [take]. by rewrite Nat.add_1_r.
Qed.

Lemma memcpy_down_length (ents : list Z) i n : (i + 1 + n <= length ents)%nat -> length (memcpy_down ents i n) = length ents.
Proof. intros H. unfold memcpy_down. rewrite !length_app, !length_take, !length_drop. lia. Qed.

(** Removing entry [i] of the attachments. *)
Lemma memcpy_down_atts (ents : list Z) used i l :
  Z.of_nat (length ents) >= used -> aget (take (Z.to_nat used) ents) i = Some l ->
  let n := used - 1 - i in
  let ents' := memcpy_down ents (Z.to_nat i) (Z.to_nat n) in
  length ents' = length ents /\
  forall x, refs (take (Z.to_nat used) ents) x = refs (take (Z.to_nat (used - 1)) ents') x + ind l x.
Proof.
  intros Hl Hi n ents'. destruct (atts_split _ _ _ _ Hl Hi) as [Hr E].
  split; [apply memcpy_down_length; lia|]. intros x. rewrite E.
  unfold ents', memcpy_down. rewrite app_assoc, take_app_le.
  - rewrite (take_ge (take _ _ ++ _)) by (rewrite length_app, !length_take, length_drop; lia).
    rewrite !refs_app, refs_cons. unfold n. lia.
  - rewrite length_app, !length_take, length_drop. lia.
Qed.

Lemma refs_take_aput (ents : list Z) used l x :
  0 <= used -> used < Z.of_nat (length ents) ->
  refs (take (Z.to_nat (used + 1)) (aput ents used l)) x = refs (take (Z.to_nat used) ents) x + ind l x.
Proof.
  intros H0 H1. unfold aput. rewrite (proj2 (Z.leb_le 0 used)) by done.
  replace (Z.to_nat (used + 1)) with (S (Z.to_nat used)) by lia.
  rewrite (take_S_r _ _ l) by (apply list_lookup_insert_eq; lia).
  rewrite take_insert_ge by lia. rewrite refs_app, refs_cons. change (refs [] x) with 0. lia.
Qed.

Lemma first_idx_is_Some {A} (P : A -> bool) l i x : x ∈ l -> P x = true -> exists k, first_idx P l i = Some k.
Proof.
  intros Hx HP. destruct (first_idx P l i) eqn:E; [eauto|]. apply first_idx_None in E.
  eapply Forall_forall in E; [|done]. congruence.
Qed.

Section Ops.
Context {S : Type} `{HK : KmemLaws S kok}.
Notation world := (shmworld S).
Notation shm_core := (shm_core (kok := kok)).
Notation shm_inv := (shm_inv (kok := kok)).
Notation shm_ok := (shm_ok (kok := kok)).
Implicit Types (w : world) (K : gset Z) (ext : Z -> Z) (u : shmuser).

(** The array of one process is replaced, with the memory it lies in. *)
Lemma core_put_user ext ext' K K' w k p u u' :
  shm_core ext K w -> users w !! p = Some u -> kok k K' -> user_ok K' (shmlist w) u' ->
  (forall b, b ∈ K -> b <> u_shmarray u -> b ∈ K') ->
  (u_shmarray u' = u_shmarray u \/ forall q v, users w !! q = Some v -> u_shmarray v <> u_shmarray u') ->
  (forall x, ext' x = ext x + refs (atts u) x - refs (atts u') x) -> (forall x, 0 <= ext' x) ->
  (0 < u_shmsize u -> 0 < u_shmsize u') ->
  shm_core ext' K' (put_user (set_kmem w k) p u').
  Proof.
    intros H Hu Hk Hok HKK Ha He Hpos Hsz.
    assert (forall x, refs_all (<[p:=u']> (users w)) x + ext' x = refs_all (users w) x + ext x) as Hrefs.
    { intros x. rewrite (refs_all_put _ _ _ _ _ Hu), He. lia. }
    pose proof (so_user _ _ _ H p u Hu) as Hold.
    assert (forall q v, users w !! q = Some v -> p <> q -> u_shmsize v = 0 /\ u_shmarray v = 0 \/
      u_shmarray v ∈ K /\ u_shmarray v <> u_shmarray u) as Hother.
    { intros q v Hv Hne. destruct (so_user _ _ _ H q v Hv) as [_ _ _ [?|(Hs & HvK & _)]]; [by left|].
      right. split; [done|]. intros E. pose proof (so_arrays _ _ _ H q p v u Hv Hu ltac:(congruence) E). lia. }
    assert (forall q v, users w !! q = Some v -> p <> q -> u_shmarray v = u_shmarray u' -> u_shmsize v = 0) as Hdist.
    { intros q v Hv Hne E. destruct (Hother q v Hv Hne) as [[? _]|[HvK Hv']]; [done|].
      destruct Ha as [Ha|Ha]; [congruence|]. by destruct (Ha q v Hv). }
    split; cbn [kmem shmlist users put_user set_users set_kmem]; try done; try by apply H.
    - intros b Hb. apply HKK; [by apply (so_in _ _ _ H)|]. intros ->.
      destruct Hold as [_ _ _ [[_ E]|(_ & _ & ?)]]; [|done].
      rewrite E in Hb. apply (so_in _ _ _ H) in Hb. pose proof (km_addr _ _ _ (so_kmem _ _ _ H) Hb). lia.
    - intros q v [[<- <-]|[Hne Hv]]%lookup_insert_Some; [done|].
      destruct (so_user _ _ _ H q v Hv) as [? ? ? [?|(? & ? & ?)]]; split; try done; [by left|right].
      split; [done|]. split; [|done]. apply HKK; [done|]. intros E.
      destruct (Hother q v Hv Hne) as [[? _]|[_ ?]]; [lia|done].
    - intros q r v v' [[<- <-]|[Hq Hv]]%lookup_insert_Some [[<- <-]|[Hr Hv']]%lookup_insert_Some Hne E; [done| | |].
      + destruct (Hother r v' Hv' Hr) as [[Hz Hz0]|[HvK Hv'']].
        * destruct Hok as [_ _ _ [[? _]|(_ & HuK & _)]]; [done|]. rewrite E, Hz0 in HuK.
          pose proof (km_addr _ _ _ Hk HuK). lia.
        * exfalso. destruct Ha as [Ha|Ha]; [congruence|]. by destruct (Ha r v' Hv').
      + by eapply Hdist.
      + by eapply (so_arrays _ _ _ H q r).
    - intros l d Hd. rewrite (so_count _ _ _ H _ _ Hd). specialize (Hrefs l). lia.
    - intros l Hl. apply (so_refs _ _ _ H). specialize (Hrefs l). lia.
  Qed.

Lemma shm_core_ext ext ext' K w : shm_core ext K w -> (forall x, ext' x = ext x) -> shm_core ext' K w.
  Proof. intros [] He. split; try done; intros; rewrite ?He in *; eauto. Qed.

(** ** Taking an attachment out of an array *)

Lemma set_kmem_id w : set_kmem w (kmem w) = w.
  Proof. by destruct w. Qed.

Definition without_att (u : shmuser) (i : Z) : shmuser :=
  mkShmUser (u_shmsize u) (u_shmused u - 1) (u_shmarray u)
    (memcpy_down (u_shments u) (Z.to_nat i) (Z.to_nat (u_shmused u - 1 - i))).

Lemma inv_take_att ext K w p u i l :
  shm_inv ext K w -> users w !! p = Some u -> aget (atts u) i = Some l ->
  shm_inv (bump ext l 1) K (put_user w p (without_att u i)) /\
  forall x, refs (atts (without_att u i)) x = refs (atts u) x - ind l x.
  Proof.
    intros [H Ha] Hu Hi. pose proof (so_user _ _ _ H p u Hu) as Hok. pose proof Hok as [Hus Hsz Hen Har].
    destruct (memcpy_down_atts (u_shments u) (u_shmused u) i l ltac:(lia) Hi) as [Hlen Hrefs].
    pose proof (aget_Some_range _ _ _ Hi) as Hr. unfold atts in Hr. rewrite length_take in Hr.
    assert (forall x, refs (atts (without_att u i)) x = refs (atts u) x - ind l x) as Hr'.
    { intros x. unfold atts at 2. rewrite Hrefs. unfold atts, without_att. cbn. lia. }
    split; [|done]. split; [|exact Ha].
    rewrite <- (set_kmem_id w). eapply (core_put_user ext _ K K w (kmem w) p u); try done; try apply H.
    - split; cbn; try lia. done.
    - by left.
    - intros x. rewrite Hr'. unfold bump. lia.
    - intros x. unfold bump. pose proof (so_ext _ _ _ H x). pose proof (ind_bounds l x). lia.
  Qed.

(** ** Entering an attachment *)

Lemma add_attach_spec ext K w p u l :
  shm_inv ext K w -> users w !! p = Some u -> 0 < ext l -> u_shmsize u + 256 < 2 ^ 28 ->
  (add_attach p l w = Fault /\ u_shmused u = u_shmsize u /\
     exists k, km_realloc (u_shmarray u) (4 * (u_shmsize u + 256)) (kmem w) = Ret 0 k) \/
  (exists K' w' u', add_attach p l w = Ret tt w' /\ shm_inv (bump ext l (-1)) K' w' /\
     shmlist w' = shmlist w /\ shmseq w' = shmseq w /\ users w' = <[p := u']> (users w) /\
     (forall x, refs (atts u') x = refs (atts u) x + ind l x)).
  Proof.
    intros [H Ha] Hu He Hsz. pose proof (so_user _ _ _ H p u Hu) as Hok. pose proof Hok as [Hus _ Hen Har].
    assert (forall x, 0 <= bump ext l (-1) x) as Hpos.
    { intros x. pose proof (so_ext _ _ _ H x). destruct (Z.eq_dec x l) as [->|]; [rewrite bump_eq; lia|by rewrite bump_ne]. }
    unfold add_attach. rewrite Hu. destruct (Z.eqb_spec (u_shmused u) (u_shmsize u)) as [Efull|Hroom].
    - rewrite s32_id by (unfold is_s32; lia). rewrite u32_id by (unfold is_u32; lia). unfold lift.
      destruct (km_realloc_ok (kmem w) K (u_shmarray u) (4 * (u_shmsize u + 256)) (so_kmem _ _ _ H)) as (r & k & Er & Hr);
        [tauto|lia|]. rewrite Er. cbn [obind u_shmarray]. destruct Hr as [[-> _]|(Hr0 & HrK & Hk)].
      { left. split_and!; eauto. }
      right. rewrite (proj2 (Z.eqb_neq r 0)) by done. cbn [u_shments u_shmused u_shmsize].
      set (ents := u_shments u ++ _).
      assert (Z.of_nat (length ents) = u_shmsize u + 256) as Hlen.
      { unfold ents. rewrite length_app, length_replicate. lia. }
      destruct (aget_is_Some ents (u_shmused u)) as [x0 ->]; [lia|].
      eexists _, _, _. split; [done|].
      assert (forall x, refs (take (Z.to_nat (u_shmused u + 1)) (aput ents (u_shmused u) l)) x = refs (atts u) x + ind l x) as Hrefs.
      { intros x. rewrite refs_take_aput by lia. unfold ents, atts. by rewrite take_app_le by lia. }
      split; [|split_and!; try done]. split; [|exact Ha].
      eapply (core_put_user ext _ K _ w k p u); try done.
      + split; cbn; [lia|lia|by rewrite aput_length|]. right. split; [lia|]. split; [set_solver|].
        destruct HrK as [HrK| ->].
        * intros Hin. apply HrK. by apply (so_in _ _ _ H).
        * destruct Har as [[_ E]|(_ & _ & ?)]; [congruence|done].
      + intros b Hb Hne. apply elem_of_union. right. set_solver.
      + cbn. destruct HrK as [?| ->]; [right|by left]. intros q v Hv E.
        destruct (so_user _ _ _ H q v Hv) as [_ _ _ [[_ ?]|(_ & ? & _)]]; congruence.
      + intros x. unfold atts at 2. cbn [u_shmused u_shments]. rewrite Hrefs. unfold bump. lia.
      + cbn. lia.
    - cbn [obind]. destruct Har as [[Hz _]|(Hz & HaK & Hab)]; [lia|].
      pose proof (km_addr _ _ _ (so_kmem _ _ _ H) HaK) as [Hap _].
      rewrite (proj2 (Z.eqb_neq (u_shmarray u) 0)) by lia.
      destruct (aget_is_Some (u_shments u) (u_shmused u)) as [x0 ->]; [lia|].
      right. exists K. eexists _, _. split; [done|].
      assert (forall x, refs (take (Z.to_nat (u_shmused u + 1)) (aput (u_shments u) (u_shmused u) l)) x = refs (atts u) x + ind l x) as Hrefs.
      { intros x. by rewrite refs_take_aput by lia. }
      split; [|split_and!; try done]. split; [|exact Ha]. rewrite <- (set_kmem_id w) at 1.
      eapply (core_put_user ext _ K K w (kmem w) p u); try done; try apply H.
      + split; cbn; [lia|lia|by rewrite aput_length|]. right. done.
      + by left.
      + intros x. unfold atts at 2. cbn [u_shmused u_shments]. rewrite Hrefs. unfold bump. lia.
  Qed.

(** ** The other memory *)

Lemma core_kmem ext K K' w k :
  shm_core ext K w -> kok k K' -> (forall b, b ∈ seg_blocks (shmlist w) -> b ∈ K') ->
  (forall q v, users w !! q = Some v -> 0 < u_shmsize v -> u_shmarray v ∈ K') -> shm_core ext K' (set_kmem w k).
  Proof.
    intros H Hk Hs Hu. split; cbn [kmem shmlist users set_kmem]; try done; try by apply H.
    intros q v Hv. destruct (so_user _ _ _ H q v Hv) as [? ? ? [?|(? & ? & ?)]]; split; try done; [by left|right].
    split_and!; try done. by eapply Hu.
  Qed.

Lemma core_array ext K w q v :
  shm_core ext K w -> users w !! q = Some v -> 0 < u_shmsize v -> u_shmarray v ∈ K /\ u_shmarray v ∉ seg_blocks (shmlist w).
  Proof. intros H Hv Hs. destruct (so_user _ _ _ H q v Hv) as [? ? ? [?|(? & ? & ?)]]; [lia|done]. Qed.

(** ** Searches *)

Lemma find_node ext K w (P : Z * shmid_ds -> bool) l d :
  shm_core ext K w -> List.find P (shmlist w) = Some (l, d) -> get_ds (shmlist w) l = Some d /\ P (l, d) = true.
  Proof.
    intros H [Hin HP]%List.find_some. split; [|done]. apply get_ds_elem; [apply NoDup_seg_fst, H|]. by apply list_elem_of_In.
  Qed.

(** ** shmat, shmdt *)

Lemma shmat_spec K w me now cred shmid shmaddr shmflg u l d :
  shm_ok K w -> users w !! me = Some u -> u_shmsize u + 256 < 2 ^ 28 ->
  shm_find_ds_by_shmid shmid w = Some (l, d) -> shm_nattch d + 1 < 2 ^ 15 -> shmaddr = 0 \/ shmaddr = shm_internal d ->
  (shmat me now cred shmid shmaddr shmflg w = Fault /\ u_shmused u = u_shmsize u /\
     exists k, km_realloc (u_shmarray u) (4 * (u_shmsize u + 256)) (kmem w) = Ret 0 k) \/
  (exists K' w' u', shmat me now cred shmid shmaddr shmflg w = Ret (inr (shm_internal d)) w' /\ shm_ok K' w' /\
     shmlist w' = upd_ds (shmlist w) l (ds_attached d me now) /\ shmseq w' = shmseq w /\
     users w' = <[me := u']> (users w) /\ (forall x, refs (atts u') x = refs (atts u) x + ind l x)).
  Proof.
    intros [H Ha] Hu Hsz Hf Hn Hadr. destruct (find_node _ _ _ _ _ _ H Hf) as [Hd _].
    pose proof (so_count _ _ _ H _ _ Hd) as Hc. cbv beta in Hc. pose proof (refs_all_pos (users w) l) as Hp.
    assert (shm_nattch (ds_attached d me now) = shm_nattch d + 1) as Hs by (cbn; apply s16_id; unfold is_s16; lia).
    assert (shm_inv (bump (fun _ => 0) l 1) K (put_ds w l (ds_attached d me now))) as Hinv.
    { split; [apply (core_put_ds _ _ _ l d); try done; lia|].
      apply alive_put_ds; [|done|intros; rewrite Hs; lia]. apply list_elem_of_fmap. exists (l, d). split; [done|].
      apply get_ds_elem; [apply NoDup_seg_fst, H|done]. }
    unfold shmat. rewrite Hf.
    replace (negb (shmaddr =? 0) && negb (shmaddr =? shm_internal d)) with false
      by (destruct Hadr as [->| ->]; [done|by rewrite Z.eqb_refl, andb_false_r]).
    unfold ipcperm. cbn [Z.eqb negb].
    destruct (add_attach_spec _ _ _ me u l Hinv Hu) as [(E & Hfull & Hk)|(K' & w' & u' & E & Hi & Hl & Hq & Hus & Hr)]; [rewrite bump_eq; lia|done| |].
    - left. rewrite E. done.
    - right. exists K', w', u'. rewrite E. cbn [obind]. split_and!; try done.
      destruct Hi as [Hcore Hal]. split; [|done]. eapply shm_core_ext; [done|]. intros x. unfold bump. lia.
  Qed.

Lemma shmdt_spec K w me now addr u l d :
  shm_ok K w -> users w !! me = Some u -> shm_find_ds_by_addr addr w = Some (l, d) -> l ∈ atts u ->
  exists K' w' u', shmdt me now addr w = Ret (inr 0) w' /\ shm_ok K' w' /\
    users w' = <[me := u']> (users w) /\ shmseq w' = shmseq w /\
    (forall x, refs (atts u') x = refs (atts u) x - ind l x) /\
    if (shm_nattch d =? 1) && bset (mode (shm_perm d)) SHMSEG_REMOVED
    then K' = K ∖ {[shm_internal d]} ∖ {[l]} /\ shmlist w' = filter (fun x => x.1 <> l) (shmlist w)
    else K' = K /\ shmlist w' = upd_ds (shmlist w) l (ds_detached d now).
  Proof.
    intros Hok Hu Hf Hl. pose proof Hok as [H _]. destruct (find_node _ _ _ _ _ _ H Hf) as [Hd _].
    unfold shmdt. rewrite Hf, Hu. destruct (first_idx_is_Some (Z.eqb l) (atts u) 0 l Hl (Z.eqb_refl l)) as [i Hi].
    unfold atts in Hi. rewrite Hi. destruct (first_idx_Some _ _ _ _ Hi) as (x & _ & Hx & E%Z.eqb_eq & _). subst x.
    rewrite Z.sub_0_r in Hx. destruct (inv_take_att _ _ _ _ _ _ _ Hok Hu Hx) as [Hinv Hr].
    fold (without_att u i).
    destruct (delete_mapping_spec _ _ _ l now Hinv) as (d' & K' & w' & Hd' & -> & Hi' & Hus & Hq & Hdet); [rewrite bump_eq; lia|].
    cbn in Hd'. assert (d' = d) as -> by congruence. cbn [obind].
    exists K', w', (without_att u i). split_and!; try done.
    destruct Hi' as [Hc Ha]. split; [|done]. eapply shm_core_ext; [done|]. intros y. unfold bump. lia.
  Qed.

(** ** Loops over the attachments of a process *)

(** [detach_all ents w w']: what is left of the list. *)
Lemma delete_mappings_spec now ents : forall ext K w,
  shm_inv ext K w -> (forall x, refs ents x <= ext x) ->
  exists K' w', delete_mappings now ents w = Ret tt w' /\ shm_inv (fun x => ext x - refs ents x) K' w' /\
    users w' = users w /\ shmseq w' = shmseq w /\
    (forall b, b ∈ K -> b ∉ seg_blocks (shmlist w) -> b ∈ K') /\
    (forall b, b ∈ seg_blocks (shmlist w') -> b ∈ seg_blocks (shmlist w)).
  Proof.
    induction ents as [|l ents IH]; intros ext K w Hinv He; cbn [delete_mappings].
    - exists K, w. split_and!; try done. destruct Hinv as [H Ha]. split; [|done].
      eapply shm_core_ext; [done|]. intros x. change (refs [] x) with 0. lia.
    - destruct (delete_mapping_spec ext K w l now Hinv) as (d & K1 & w1 & Hd & -> & Hi1 & Hu1 & Hq1 & Hdet).
      { specialize (He l). rewrite refs_cons in He. pose proof (refs_pos ents l). unfold ind in He. case_decide; [lia|done]. }
      cbn [obind]. destruct (IH _ _ _ Hi1) as (K2 & w2 & -> & Hi2 & Hu2 & Hq2 & Hk2 & Hs2).
      { intros x. specialize (He x). rewrite refs_cons in He. unfold bump. lia. }
      destruct Hinv as [H _].
      assert ((l, d) ∈ shmlist w) as Hin by (apply get_ds_elem; [apply NoDup_seg_fst, H|done]).
      destruct (seg_addr_in _ _ _ Hin) as [Hlb Hib].
      assert (forall b, b ∈ seg_blocks (shmlist w1) -> b ∈ seg_blocks (shmlist w)) as Hs1.
      { intros b. destruct (_ && _).
        - destruct Hdet as [_ ->]. intros ?%(filter_blocks _ _ _ (so_nodup _ _ _ H) Hd). tauto.
        - destruct Hdet as [_ ->]. by rewrite (upd_ds_blocks _ _ _ _ Hd) by done. }
      exists K2, w2. split_and!; try done; try congruence.
      + destruct Hi2 as [Hc2 Ha2]. split; [|done]. eapply shm_core_ext; [done|]. intros x. rewrite refs_cons. unfold bump. lia.
      + intros b Hb Hnb. apply Hk2; [|intros ?%Hs1; done]. destruct (_ && _).
        * destruct Hdet as [-> _]. apply elem_of_difference. rewrite elem_of_singleton. split; [|by intros ->].
          apply elem_of_difference. rewrite elem_of_singleton. split; [done|by intros ->].
        * destruct Hdet as [-> _]. done.
      + intros b ?%Hs2. by apply Hs1.
  Qed.

Lemma count_attaches_spec ents : forall ext K w,
  shm_inv ext K w -> (forall l, l ∈ ents -> exists d, get_ds (shmlist w) l = Some d /\ shm_nattch d + refs ents l < 2 ^ 15) ->
  exists w', count_attaches ents w = Ret tt w' /\ shm_inv (fun x => ext x + refs ents x) K w' /\
    users w' = users w /\ shmseq w' = shmseq w /\ kmem w' = kmem w /\ seg_blocks (shmlist w') = seg_blocks (shmlist w).
  Proof.
    induction ents as [|l ents IH]; intros ext K w Hinv He; cbn [count_attaches].
    - exists w. split_and!; try done. destruct Hinv as [H Ha]. split; [|done].
      eapply shm_core_ext; [done|]. intros x. change (refs [] x) with 0. lia.
    - destruct (He l) as (d & Hd & Hb); [by left|]. rewrite Hd. rewrite refs_cons in Hb.
      pose proof (refs_pos ents l) as Hp. unfold ind in Hb. case_decide as Hll; [clear Hll|done].
      destruct Hinv as [H Ha]. pose proof (so_count _ _ _ H _ _ Hd) as Hc. pose proof (so_ext _ _ _ H l) as Hel.
      pose proof (refs_all_pos (users w) l) as Hpa.
      set (d1 := ds_set_nattch d (s16 (shm_nattch d + 1))).
      assert (shm_nattch d1 = shm_nattch d + 1) as Hn by (cbn; apply s16_id; unfold is_s16; lia).
      assert (l ∈ (shmlist w).*1) as Hl.
      { apply list_elem_of_fmap. exists (l, d). split; [done|]. apply get_ds_elem; [apply NoDup_seg_fst, H|done]. }
      assert (shm_inv (bump ext l 1) K (put_ds w l d1)) as Hinv1.
      { split; [apply (core_put_ds _ _ _ l d); try done; lia|]. apply alive_put_ds; [done|done|]. intros. lia. }
      destruct (IH _ _ _ Hinv1) as (w' & -> & Hi' & Hu & Hq & Hk & Hs).
      { intros x Hx. destruct (He x) as (dx & Hdx & Hbx); [by right|]. rewrite refs_cons in Hbx.
        cbn. rewrite get_upd_ds by done. destruct (Z.eqb_spec l x) as [<-|Hne].
        - exists d1. split; [done|]. assert (dx = d) as -> by congruence. unfold ind in Hbx. case_decide; [lia|done].
        - exists dx. split; [done|]. unfold ind in Hbx. case_decide; [done|lia]. }
      exists w'. split_and!; try done.
      + destruct Hi' as [Hc' Ha']. split; [|done]. eapply shm_core_ext; [done|]. intros x. rewrite refs_cons. unfold bump. lia.
      + rewrite Hs. cbn. by apply (upd_ds_blocks _ _ _ d).
  Qed.

(** They do not look at the processes. *)
Definition over (us : gmap Z shmuser) (m : outcome world ()) : outcome world () :=
  match m with
  | Ret a w => Ret a (set_users w us)
  | Asleep w => Asleep (set_users w us)
  | Panic s => Panic s
  | Fault => Fault
  | Diverge => Diverge
  end.

Lemma delete_mapping_over now l w us :
  shm_delete_mapping now l (set_users w us) = over us (shm_delete_mapping now l w).
  Proof.
    unfold shm_delete_mapping, shm_deallocate_segment, lift. cbn [shmlist kmem set_users].
    destruct (get_ds (shmlist w) l) as [d|]; [|done]. destruct (_ && _); [|done].
    cbn [shmlist put_ds set_shmlist kmem]. destruct (get_ds _ l) as [d'|]; [|done].
    destruct (km_free _ _); cbn [obind over]; try done. cbn [shmlist set_kmem set_shmlist kmem].
    by destruct (km_free _ _).
  Qed.

Lemma delete_mappings_over now ents : forall w us,
  delete_mappings now ents (set_users w us) = over us (delete_mappings now ents w).
  Proof.
    induction ents as [|l ents IH]; intros w us; cbn [delete_mappings]; [done|].
    rewrite delete_mapping_over. destruct (shm_delete_mapping now l w); cbn [over obind]; done.
  Qed.

Lemma count_attaches_over ents : forall w us, count_attaches ents (set_users w us) = over us (count_attaches ents w).
  Proof.
    induction ents as [|l ents IH]; intros w us; cbn [count_attaches]; [done|]. cbn [shmlist set_users].
    destruct (get_ds (shmlist w) l) as [d|]; [|done].
    exact (IH (put_ds w l (ds_set_nattch d (s16 (shm_nattch d + 1)))) us).
  Qed.
End Ops.
