(* ===== verification/ShmTheorems.v ===== *)
(** * Shared memory: theorems

    Proved for any kernel allocator that keeps the laws of [Kmem]; the examples
    run on kmalloc over the buddy allocator. *)

From S2P Require Import Prelude Ipc Ixlist Buddy BuddyTheorems Pool BuddyPool Heap Kmem HeapKmem Shm ShmInv ShmOps.
Import Shm Buddy.Buddy.

(** The bit of a removed segment in the modes the calls build. *)
Lemma removed_created flg : bset (u16 (Z.lor (Z.land flg ACCESSPERMS) SHMSEG_ALLOCATED)) SHMSEG_REMOVED = false.
Proof.
  change SHMSEG_REMOVED with (2 ^ 10). rewrite bset_pow2 by lia. unfold u16.
  rewrite Z.mod_pow2_bits_low, Z.lor_spec, Z.land_spec by lia. change (Z.testbit ACCESSPERMS 10) with false.
  by rewrite andb_false_r.
Qed.

Lemma removed_replaced old new : bset (mode_replace old new) SHMSEG_REMOVED = bset old SHMSEG_REMOVED.
Proof.
  change SHMSEG_REMOVED with (2 ^ 10). rewrite !bset_pow2 by lia. unfold mode_replace, u16, bclr.
  rewrite Z.mod_pow2_bits_low, Z.lor_spec, !Z.land_spec, Z.lnot_spec by lia.
  change (Z.testbit 0x1ff 10) with false. cbn. by rewrite andb_true_r, andb_false_r, orb_false_r.
Qed.

Section Calls.
Context {S : Type} `{HK : KmemLaws S kok}.
Notation world := (shmworld S).
Notation shm_core := (shm_core (kok := kok)).
Notation shm_inv := (shm_inv (kok := kok)).
Notation shm_ok := (shm_ok (kok := kok)).
Implicit Types (w : world) (K : gset Z) (ext : Z -> Z) (u : shmuser).

(** ** shmget *)

Lemma allocate_spec K w me now cred k size shmflg :
  shm_ok K w -> 1 <= size < 2 ^ 31 ->
  (exists K' k', shmget_allocate_segment me now cred k size shmflg w = Ret (inl ENOSPC) (set_kmem w k') /\
     shm_ok K' (set_kmem w k')) \/
  (exists l d w', shmget_allocate_segment me now cred k size shmflg w = Ret (inr (IPC_SHMID l (shm_perm d))) w' /\
     shm_ok ({[shm_internal d]} ∪ ({[l]} ∪ K)) w' /\ l ∉ K /\ shm_internal d ∉ K /\ l <> shm_internal d /\
     shmlist w' = (l, d) :: shmlist w /\ users w' = users w /\ shmseq w' = u16 (shmseq w + 1) /\
     shm_segsz d = size /\ key (shm_perm d) = k /\ seq (shm_perm d) = shmseq w' /\ shm_nattch d = 0 /\
     bset (mode (shm_perm d)) SHMSEG_REMOVED = false).
  Proof.
    intros [H Ha] Hsz. unfold shmget_allocate_segment, lift. rewrite (proj2 (Z.ltb_ge size 1)) by lia.
    assert (forall k' K', kok k' K' -> (forall b, b ∈ K -> b ∈ K') -> shm_ok K' (set_kmem w k')) as Hmono.
    { intros k' K' Hk' Hsub. split; [|done]. apply (core_kmem _ K); try done.
      - intros b Hb. by apply Hsub, (so_in _ _ _ H).
      - intros q v Hv Hs. apply Hsub. by eapply (core_array _ _ _ _ _ H). }
    destruct (km_alloc_ok (kmem w) K SIZEOF_SHM_LIST (so_kmem _ _ _ H)) as (l & k1 & -> & Hl); [unfold SIZEOF_SHM_LIST; lia|].
    cbn [obind]. destruct Hl as [[-> Hk1]|(Hl0 & HlK & Hk1)]; [left; exists K, k1; split; [done|by apply Hmono]|].
    rewrite (proj2 (Z.eqb_neq l 0)) by done. cbn [kmem set_kmem].
    destruct (km_alloc_ok k1 _ size Hk1) as (dat & k2 & -> & Hd); [lia|].
    cbn [obind]. destruct Hd as [[-> Hk2]|(Hd0 & HdK & Hk2)].
    - cbn [Z.eqb kmem set_kmem]. destruct (km_free_ok k2 _ l Hk2) as (k3 & -> & Hk3); [set_solver|]. cbn [obind].
      left. exists (({[l]} ∪ K) ∖ {[l]}), k3. split; [done|]. apply Hmono; [done|].
      intros b Hb. apply elem_of_difference. rewrite elem_of_singleton. split; [set_solver|]. by intros ->.
    - rewrite (proj2 (Z.eqb_neq dat 0)) by done. right. set (sq := u16 (shmseq w + 1)).
      set (d := mkDs _ _ _ _ _ _ _ _ _). exists l, d. eexists. split; [done|].
      assert (dat ∉ K /\ dat <> l) as [HdK' Hdl] by set_solver.
      assert (Hok' : shm_ok ({[dat]} ∪ ({[l]} ∪ K)) (set_kmem w k2)) by (apply Hmono; [done|set_solver]).
      split; [|split_and!; first [done|by apply not_eq_sym|apply removed_created]].
      assert (l ∉ seg_blocks (shmlist w) /\ dat ∉ seg_blocks (shmlist w)) as [Hls Hds]
        by (split; intros Hin%(so_in _ _ _ H); done).
      assert (l ∉ (shmlist w).*1) as Hlf.
      { intros ([a da] & -> & Hin)%list_elem_of_fmap. destruct (seg_addr_in _ _ _ Hin). done. }
      assert (refs_all (users w) l = 0) as Hr0.
      { destruct (Z.eq_dec (refs_all (users w) l) 0) as [|Hne]; [done|]. destruct Hlf. apply (so_refs _ _ _ H).
        pose proof (refs_all_pos (users w) l). lia. }
      destruct Hok' as [Hc _]. split.
      + split; cbn [kmem shmlist users set_shmlist set_shmseq set_kmem get_ds]; try done; try by apply Hc.
        * cbn. apply NoDup_cons. rewrite elem_of_cons. split; [intros [?|?]; [congruence|done]|].
          apply NoDup_cons. split; [done|apply H].
        * intros b. cbn. rewrite !elem_of_cons. intros [->|[->|Hb%(so_in _ _ _ H)]]; set_solver.
        * intros q v Hv. destruct (so_user _ _ _ Hc q v Hv) as [? ? ? [?|(? & ? & ?)]]; split; try done; [by left|right].
          split_and!; try done. cbn. rewrite !elem_of_cons. intros [E|[E|?]]; [| |done].
          -- destruct (core_array _ _ _ _ _ H Hv) as [? _]; [done|]. congruence.
          -- destruct (core_array _ _ _ _ _ H Hv) as [? _]; [done|]. congruence.
        * intros x dx. destruct (Z.eqb_spec l x) as [<-|]; [intros [= <-]; cbn; lia|apply H].
        * intros x dx. destruct (Z.eqb_spec l x) as [<-|]; [intros [= <-]; cbn; lia|apply H].
        * intros x Hx. cbn. apply elem_of_cons. right. by apply (so_refs _ _ _ H).
      + intros x dx. cbn [shmlist set_shmlist get_ds]. destruct (Z.eqb_spec l x) as [<-|]; [|apply Ha].
        intros [= <-] _. cbn [d shm_perm mode]. by rewrite removed_created.
  Qed.

(** ** shmfork *)

(** A new process, with struct user cleared. *)
Definition no_shm : shmuser := mkShmUser 0 0 0 [].

Lemma att_segment ext K w p u l : shm_core ext K w -> users w !! p = Some u -> l ∈ atts u ->
  exists d, get_ds (shmlist w) l = Some d.
  Proof.
    intros H Hu Hl. apply (core_get _ _ _ _ H). pose proof (refs_elem _ _ Hl). pose proof (refs_all_of _ _ _ l Hu).
    pose proof (so_ext _ _ _ H l). lia.
  Qed.

Lemma shmfork_spec K w parent child u :
  shm_ok K w -> users w !! parent = Some u -> users w !! child = Some no_shm -> parent <> child ->
  (forall l d, get_ds (shmlist w) l = Some d -> shm_nattch d + refs (atts u) l < 2 ^ 15) ->
  (exists k', shmfork parent child w = Ret (-1) (set_kmem w k') /\ shm_ok K (set_kmem w k')) \/
  (exists K' w' c, shmfork parent child w = Ret 0 w' /\ shm_ok K' w' /\ users w' = <[child := c]> (users w) /\
     shmseq w' = shmseq w /\ seg_blocks (shmlist w') = seg_blocks (shmlist w) /\ forall x, refs (atts c) x = refs (atts u) x).
  Proof.
    intros Hok Hp Hc Hne Hb. pose proof Hok as [H Ha]. unfold shmfork. rewrite Hp, Hc.
    pose proof (so_user _ _ _ H _ _ Hp) as [Hus Hsz Hen _].
    destruct (Z.eqb_spec (u_shmused u) 0) as [E0|Hn0]; cbn [negb].
    - right. exists K, w, no_shm. split_and!; try done; [by rewrite insert_id|].
      intros x. unfold atts. rewrite E0. done.
    - rewrite u32_id by (unfold is_u32; lia). unfold lift.
      destruct (km_alloc_ok (kmem w) K (u_shmused u * 4) (so_kmem _ _ _ H)) as (arr & k1 & -> & Har); [lia|].
      cbn [obind]. destruct Har as [[-> Hk1]|(Har0 & HaK & Hk1)].
      { left. exists k1. split; [done|]. split; [|done]. apply (core_kmem _ K); try done; [apply H|].
        intros q v Hv Hs. by eapply (core_array _ _ _ _ _ H). }
      rewrite (proj2 (Z.eqb_neq arr 0)) by done. right. fold (atts u).
      set (c := mkShmUser (u_shmused u) (u_shmused u) arr (atts u)).
      assert (length (atts u) = Z.to_nat (u_shmused u)) as Hla by (unfold atts; rewrite length_take; lia).
      assert (shm_ok ({[arr]} ∪ K) (set_kmem w k1)) as Hok1.
      { split; [|done]. apply (core_kmem _ K); try done.
        - intros b Hb'%(so_in _ _ _ H). set_solver.
        - intros q v Hv Hs. destruct (core_array _ _ _ _ _ H Hv Hs). set_solver. }
      destruct (count_attaches_spec (atts u) _ _ _ Hok1) as (w2 & Ec & [H2 Ha2] & Hu2 & Hq2 & Hk2 & Hs2).
      { intros l Hl. destruct (att_segment _ _ _ _ _ _ H Hp Hl) as [d Hd]. exists d. split; [done|]. by apply Hb. }
      change (put_user (set_kmem w k1) child c) with (set_users (set_kmem w k1) (<[child:=c]> (users w))).
      rewrite count_attaches_over, Ec. cbn [over obind]. exists ({[arr]} ∪ K). eexists _, c. split; [done|].
      split; [|split_and!; try done]; [|intros x; unfold atts at 1; cbn; by rewrite take_ge by lia].
      split; [|exact Ha2]. cbn in Hu2.
      replace (set_users w2 (<[child:=c]> (users w))) with (put_user (set_kmem w2 (kmem w2)) child c)
        by (unfold put_user; rewrite set_kmem_id, Hu2; done).
      eapply (core_put_user _ _ ({[arr]} ∪ K) _ w2 (kmem w2) child no_shm); try done.
      + by rewrite Hu2.
      + apply H2.
      + split; cbn; [lia|lia|lia|]. right. split; [lia|]. split; [set_solver|]. rewrite Hs2. cbn.
        intros Hin%(so_in _ _ _ H). done.
      + right. intros q v Hv. rewrite Hu2 in Hv. cbn.
        destruct (so_user _ _ _ H q v Hv) as [_ _ _ [[_ ?]|(_ & ? & _)]]; congruence.
      + intros x. change (refs (atts no_shm) x) with 0. unfold atts at 2. cbn [u_shmused u_shments c].
        rewrite (take_ge (atts u)) by lia. lia.
  Qed.

(** ** shmexit *)

Lemma shmexit_spec K w me now u :
  shm_ok K w -> users w !! me = Some u ->
  exists K' w', shmexit me now w = Ret tt w' /\ shm_ok K' w' /\ users w' = delete me (users w) /\ shmseq w' = shmseq w /\
    (forall b, b ∈ seg_blocks (shmlist w') -> b ∈ seg_blocks (shmlist w)).
  Proof.
    intros [H Ha] Hu. unfold shmexit. rewrite Hu. fold (atts u).
    set (w0 := set_users w (delete me (users w))).
    assert (shm_inv (fun x => refs (atts u) x) K w0) as Hinv0.
    { split; [|done]. split; cbn [w0 kmem shmlist users set_users]; try apply H.
      - intros q v [_ Hv]%lookup_delete_Some. by apply (so_user _ _ _ H q).
      - intros q r v v' [_ Hv]%lookup_delete_Some [_ Hv']%lookup_delete_Some. by apply (so_arrays _ _ _ H q r).
      - intros l d Hd. rewrite (so_count _ _ _ H _ _ Hd), (refs_all_delete _ _ _ l Hu). lia.
      - intros l Hl. apply (so_refs _ _ _ H). rewrite (refs_all_delete _ _ _ l Hu). lia.
      - intros l. apply refs_pos. }
    destruct (delete_mappings_spec now (atts u) _ _ _ Hinv0) as (K1 & w1 & E & Hi1 & Hu1 & Hq1 & HK1 & Hs1); [done|].
    unfold w0 in E. rewrite delete_mappings_over in E.
    destruct (delete_mappings now (atts u) w) as [[] wr|wr| | |] eqn:Er; cbn [over] in E; try done.
    injection E as E. cbn [obind].
    assert (shm_ok K1 (set_users wr (delete me (users w)))) as Hok1.
    { rewrite E. destruct Hi1 as [Hc1 Ha1]. split; [|done]. eapply shm_core_ext; [done|]. intros x. cbn. lia. }
    pose proof (so_user _ _ _ H _ _ Hu) as [Hus _ _ Har].
    assert (shmseq wr = shmseq w1 /\ shmlist wr = shmlist w1 /\ kmem wr = kmem w1) as (Hq & Hl & Hkm) by by rewrite <- E.
    rewrite Hq1 in Hq. cbn in Hq.
    assert (users wr = users w) as Hur.
    { pose proof (delete_mappings_over now (atts u) w (users w)) as Ho. rewrite Er in Ho.
      replace (set_users w (users w)) with w in Ho by by destruct w. rewrite Er in Ho. cbn in Ho. injection Ho as Ho. by rewrite Ho. }
    destruct (Z.eqb_spec (u_shmsize u) 0) as [Ez|Hz]; cbn [negb obind].
    - exists K1. eexists. split; [done|]. rewrite Hur. split_and!; try done. cbn. rewrite Hl. done.
    - destruct Har as [[? _]|(_ & HuK & Hnb)]; [lia|]. unfold lift. rewrite Hkm.
      pose proof (HK1 _ HuK Hnb) as HuK1. destruct Hok1 as [Hc1 Ha1].
      destruct (km_free_ok (kmem w1) K1 (u_shmarray u)) as (k2 & -> & Hk2); [rewrite <- Hkm; apply Hc1|done|].
      cbn [obind]. rewrite <- Hl in Hs1. exists (K1 ∖ {[u_shmarray u]}). eexists. split; [done|].
      split_and!; try done; [|by cbn; rewrite Hur]. cbn [users set_kmem]. rewrite Hur. split; [|exact Ha1].
      change (set_users (set_kmem wr k2) (delete me (users w))) with (set_kmem (set_users wr (delete me (users w))) k2).
      apply (core_kmem _ K1); try done; cbn [shmlist users set_users].
      + intros b Hb. apply elem_of_difference. rewrite elem_of_singleton. split; [by apply (so_in _ _ _ Hc1)|].
        intros ->. by apply Hnb, Hs1.
      + intros q v Hv Hs. apply elem_of_difference. rewrite elem_of_singleton.
        split; [by eapply (core_array _ _ _ _ _ Hc1)|]. apply lookup_delete_Some in Hv as [Hqne Hv]. intros Eq.
        pose proof (so_arrays _ _ _ H q me v u Hv Hu ltac:(congruence) Eq). lia.
  Qed.

(** ** shmctl *)

Lemma shmctl_spec K w now cred shmid cmd buf :
  shm_ok K w -> exists r K' w', shmctl now cred shmid cmd buf w = Ret r w' /\ shm_ok K' w' /\ users w' = users w /\
    shmseq w' = shmseq w.
  Proof.
    intros [H Ha]. unfold shmctl. destruct (cmd =? IPC_GETLIST); [by eexists _, K, w|].
    destruct (shm_find_ds_by_shmid shmid w) as [[l d]|] eqn:Hf; [|by eexists _, K, w].
    destruct (find_node _ _ _ _ _ _ H Hf) as [Hd _]. unfold ipcperm. cbn [Z.eqb negb].
    assert (l ∈ (shmlist w).*1) as Hl.
    { apply list_elem_of_fmap. exists (l, d). split; [done|]. apply get_ds_elem; [apply NoDup_seg_fst, H|done]. }
    assert (forall d', shm_internal d' = shm_internal d -> shm_nattch d' = shm_nattch d ->
      shm_core (fun _ => 0) K (put_ds w l d')) as Hput.
    { intros d' Hi Hn. eapply shm_core_ext; [apply (core_put_ds _ _ _ l d d' 0 H Hd); try done; try lia|].
      - rewrite Hn. by apply (so_range _ _ _ H l).
      - intros x. unfold bump. lia. }
    destruct (cmd =? IPC_STAT); [by eexists _, K, w|]. destruct (cmd =? IPC_SET).
    { eexists _, K, _. split; [done|]. split; [|done]. split; [by apply Hput|]. apply alive_put_ds; [done|done|].
      intros Hl0. cbn. rewrite removed_replaced. by apply (Ha l d). }
    destruct (cmd =? IPC_RMID); [|by eexists _, K, w].
    set (d' := ds_set_perm d _). cbn [shm_nattch ds_set_perm d'].
    destruct (Z.leb_spec (shm_nattch d) 0) as [Hle|Hgt].
    - pose proof (so_count _ _ _ H _ _ Hd) as Hc. cbv beta in Hc. pose proof (refs_all_pos (users w) l).
      destruct (deallocate_spec (fun _ => 0) K (put_ds w l d') l d') as (w' & -> & Hi & Hu & _ & Hq).
      + by apply Hput.
      + apply alive_put_ds; [done| |done]. intros x dx Hx _. apply (Ha x dx Hx). by apply (seg_nonzero _ _ _ _ _ H Hx).
      + cbn. by rewrite get_upd_ds, Z.eqb_refl by done.
      + cbn. lia.
      + cbn [obind]. eexists _, _, w'. split_and!; done.
    - eexists _, K, _. split; [done|]. split; [|done]. split; [by apply Hput|]. apply alive_put_ds; [done|done|].
      intros _ _. cbn. lia.
  Qed.
End Calls.

(** ** The calls a process may make *)

Inductive shm_call :=
| Get (k size shmflg : Z) | At (shmid shmaddr shmflg : Z) | Dt (addr : Z)
| Ctl (shmid cmd : Z) (buf : shmid_ds) | Fork (child : Z) | Exit.

Section Theorems.
Context {S : Type} `{HK : KmemLaws S kok}.
Notation world := (shmworld S).
Notation shm_ok := (shm_ok (kok := kok)).
Implicit Types (w : world) (K : gset Z) (u : shmuser).

Definition drop_result {A} (m : outcome world A) : outcome world () := let* (_r, w) := m in Ret tt w.

(** A new process starts with its struct user cleared. *)
Definition run_call (me now : Z) (cred : ucred) (c : shm_call) w : outcome world () :=
  match c with
  | Get k size flg => drop_result (shmget me now cred k size flg w)
  | At id addr flg => drop_result (shmat me now cred id addr flg w)
  | Dt addr => drop_result (shmdt me now addr w)
  | Ctl id cmd buf => drop_result (shmctl now cred id cmd buf w)
  | Fork child => drop_result (shmfork me child (put_user w child no_shm))
  | Exit => shmexit me now w
  end.

(** The process exists, no count overflows, and a process detaches only what it
    has attached. *)
Definition allowed (me : Z) (c : shm_call) w : Prop :=
  exists u, users w !! me = Some u /\
  match c with
  | Get _ size _ => is_s32 size
  | At _ _ _ => u_shmsize u + 256 < 2 ^ 28 /\ forall l d, get_ds (shmlist w) l = Some d -> shm_nattch d + 1 < 2 ^ 15
  | Dt addr => forall l d, shm_find_ds_by_addr addr w = Some (l, d) -> l ∈ atts u
  | Ctl _ _ _ => True
  | Fork child => users w !! child = None /\
      forall l d, get_ds (shmlist w) l = Some d -> shm_nattch d + refs (atts u) l < 2 ^ 15
  | Exit => True
  end.

(** Every count is the number of attachments, and every attachment is to a
    segment whose two blocks are allocated. *)
Definition counted_and_live K w : Prop :=
  (forall l d, get_ds (shmlist w) l = Some d -> shm_nattch d = refs_all (users w) l /\ l ∈ K /\ shm_internal d ∈ K) /\
  (forall p u l, users w !! p = Some u -> l ∈ atts u -> exists d, get_ds (shmlist w) l = Some d).

Lemma ok_counted K w : shm_ok K w -> counted_and_live K w.
  Proof.
    intros [H _]. split.
    - intros l d Hd. pose proof (so_count _ _ _ H _ _ Hd) as Hc. cbv beta in Hc. split; [lia|].
      apply get_ds_elem in Hd; [|apply NoDup_seg_fst, H]. destruct (seg_addr_in _ _ _ Hd).
      split; by apply (so_in _ _ _ H).
    - intros p u l Hu Hl. by eapply att_segment.
  Qed.

(** Adding a process that has no attachments. *)
Lemma ok_new_user K w p : shm_ok K w -> users w !! p = None -> shm_ok K (put_user w p no_shm).
  Proof.
    intros [H Ha] Hn. split; [|exact Ha].
    assert (forall x, refs_all (<[p:=no_shm]> (users w)) x = refs_all (users w) x) as Hr.
    { intros x. rewrite refs_all_insert, delete_id by done. done. }
    split; cbn [kmem shmlist users put_user set_users]; try apply H.
    - intros q v [[<- <-]|[_ Hv]]%lookup_insert_Some; [|by apply (so_user _ _ _ H q)].
      split; cbn; [lia|lia|done|by left].
    - intros q r v v' [[<- <-]|[Hq Hv]]%lookup_insert_Some [[<- <-]|[Hr' Hv']]%lookup_insert_Some Hne E; try done.
      + destruct (so_user _ _ _ H q v Hv) as [_ _ _ [[? _]|(_ & HaK & _)]]; [done|].
        cbn in E. rewrite E in HaK. pose proof (km_addr _ _ _ (so_kmem _ _ _ H) HaK). lia.
      + by apply (so_arrays _ _ _ H q r v v').
    - intros l d Hd. rewrite Hr. by apply H.
    - intros l. rewrite Hr. apply H.
  Qed.

(** C20. While processes only detach what they have attached, every shared memory
    call returns and keeps the invariant, by which each segment's count is the
    number of attachments to it in all processes, no attachment dangles and no
    removed segment without attachments is left; the one exception is shmat with
    a full array and no memory for a larger one, which writes through NULL. *)
Theorem shm_calls_keep_counts K w me now cred c :
    shm_ok K w -> allowed me c w ->
    (exists K' w', run_call me now cred c w = Ret tt w' /\ shm_ok K' w' /\ counted_and_live K' w') \/
    (run_call me now cred c w = Fault /\ exists id addr flg u k, c = At id addr flg /\ users w !! me = Some u /\
       u_shmused u = u_shmsize u /\ km_realloc (u_shmarray u) (4 * (u_shmsize u + 256)) (kmem w) = Ret 0 k).
  Proof.
    intros Hok (u & Hu & Hc).
    assert (forall m : outcome world (), (exists K' w', m = Ret tt w' /\ shm_ok K' w') ->
      exists K' w', m = Ret tt w' /\ shm_ok K' w' /\ counted_and_live K' w') as Hdone.
    { intros m (K' & w' & E & Hok'). exists K', w'. split_and!; try done. by apply ok_counted. }
    destruct c as [k size flg|id addr flg|addr|id cmd buf|child|]; cbn [run_call].
    - left. apply Hdone. unfold shmget. unfold drop_result.
      assert (exists K' w', drop_result (shmget_allocate_segment me now cred k size flg w) = Ret tt w' /\ shm_ok K' w') as Hal.
      { destruct (Z_lt_le_dec size 1) as [Hlt|Hge].
        - unfold shmget_allocate_segment. rewrite (proj2 (Z.ltb_lt size 1)) by done. by exists K, w.
        - unfold is_s32 in Hc. destruct (allocate_spec K w me now cred k size flg Hok ltac:(lia))
            as [(K' & k' & -> & Hok')|(l & d & w' & -> & Hok' & _)]; eexists _, _; done. }
      destruct (negb (k =? IPC_PRIVATE)); [|done]. destruct (shm_find_ds_by_key k w) as [[l d]|]; cbn.
      + repeat case_match; by exists K, w.
      + destruct (negb (bset flg IPC_CREAT)); [by exists K, w|done].
    - destruct Hc as [Hsz Hn]. destruct (shm_find_ds_by_shmid id w) as [[l d]|] eqn:Hf.
      2: { left. apply Hdone. exists K, w. unfold shmat. by rewrite Hf. }
      destruct (decide (addr = 0 \/ addr = shm_internal d)) as [Ha|Ha].
      + pose proof Hok as [H _]. destruct (find_node _ _ _ _ _ _ H Hf) as [Hd _].
        destruct (shmat_spec K w me now cred id addr flg u l d Hok Hu Hsz Hf (Hn _ _ Hd) Ha)
          as [(E & Hfull & k & Hk)|(K' & w' & u' & E & Hok' & _)]; rewrite E.
        * right. split; [done|]. exists id, addr, flg, u, k. done.
        * left. apply Hdone. by exists K', w'.
      + left. apply Hdone. exists K, w. unfold shmat. rewrite Hf.
        destruct (Z.eqb_spec addr 0), (Z.eqb_spec addr (shm_internal d)); cbn; try done; tauto.
    - left. apply Hdone. destruct (shm_find_ds_by_addr addr w) as [[l d]|] eqn:Hf.
      + destruct (shmdt_spec K w me now addr u l d Hok Hu Hf (Hc l d eq_refl)) as (K' & w' & u' & -> & Hok' & _).
        by exists K', w'.
      + exists K, w. unfold shmdt. by rewrite Hf.
    - left. apply Hdone. destruct (shmctl_spec K w now cred id cmd buf Hok) as (r & K' & w' & -> & Hok' & _). by exists K', w'.
    - left. apply Hdone. destruct Hc as [Hn Hb]. assert (me <> child) as Hne by congruence.
      destruct (shmfork_spec K (put_user w child no_shm) me child u) as [(k' & -> & Hok')|(K' & w' & c & -> & Hok' & _)];
        try (by eexists _, _).
      + by apply ok_new_user.
      + cbn. by rewrite lookup_insert_ne by done.
      + apply lookup_insert_eq.
      + done.
      + done.
    - left. apply Hdone. destruct (shmexit_spec K w me now u Hok Hu) as (K' & w' & -> & Hok' & _). by exists K', w'.
  Qed.

(** shmdt of a segment the process has attached returns 0 and takes one of its
    attachments away; the segment, its structure and its memory are freed exactly
    when it is marked as removed and this was the last attachment of all
    processes, and otherwise only its count and detach time change. *)
Theorem shmdt_frees_last K w me now addr u l d :
    shm_ok K w -> users w !! me = Some u -> shm_find_ds_by_addr addr w = Some (l, d) -> l ∈ atts u ->
    exists K' w' u', shmdt me now addr w = Ret (inr 0) w' /\ shm_ok K' w' /\
      users w' = <[me := u']> (users w) /\ (forall x, refs (atts u') x = refs (atts u) x - ind l x) /\
      ((refs_all (users w) l = 1 /\ bset (mode (shm_perm d)) SHMSEG_REMOVED = true /\
        K' = K ∖ {[shm_internal d]} ∖ {[l]} /\ shmlist w' = filter (fun x => x.1 <> l) (shmlist w)) \/
       ((1 < refs_all (users w) l \/ bset (mode (shm_perm d)) SHMSEG_REMOVED = false) /\
        K' = K /\ shmlist w' = upd_ds (shmlist w) l (ds_detached d now))).
  Proof.
    intros Hok Hu Hf Hl. pose proof Hok as [H _]. destruct (find_node _ _ _ _ _ _ H Hf) as [Hd _].
    pose proof (so_count _ _ _ H _ _ Hd) as Hc. cbv beta in Hc. pose proof (refs_all_of _ _ _ l Hu). pose proof (refs_elem _ _ Hl).
    destruct (shmdt_spec K w me now addr u l d Hok Hu Hf Hl) as (K' & w' & u' & E & Hok' & Hus & _ & Hr & Hcase).
    exists K', w', u'. split_and!; try done.
    destruct (Z.eqb_spec (shm_nattch d) 1) as [E1|Hn1]; cbn [andb] in Hcase.
    - destruct (bset (mode (shm_perm d)) SHMSEG_REMOVED) eqn:Hrm.
      + left. destruct Hcase. split_and!; try done. lia.
      + right. destruct Hcase. split; [by right|done].
    - right. destruct Hcase. split; [left; lia|done].
  Qed.

(** What shmget, when it creates a segment, puts in front of the list. *)
Lemma shmget_creates K w me now cred k size flg id w1 :
    shm_ok K w -> size < 2 ^ 31 -> k = IPC_PRIVATE \/ shm_find_ds_by_key k w = None ->
    shmget me now cred k size flg w = Ret (inr id) w1 ->
    exists l d, id = IPC_SHMID l (shm_perm d) /\ shm_ok ({[shm_internal d]} ∪ ({[l]} ∪ K)) w1 /\ l ∉ K /\
      shmlist w1 = (l, d) :: shmlist w /\ users w1 = users w /\ shm_nattch d = 0.
  Proof.
    intros Hok Hsz Hk E.
    assert (shmget_allocate_segment me now cred k size flg w = Ret (inr id) w1) as Ea.
    { unfold shmget in E. destruct (Z.eqb_spec k IPC_PRIVATE) as [->|Hne]; [done|]. cbn [negb] in E.
      destruct Hk as [?|Hn]; [done|]. rewrite Hn in E. by destruct (negb (bset flg IPC_CREAT)). }
    destruct (Z_lt_le_dec size 1) as [Hlt|Hge].
    { unfold shmget_allocate_segment in Ea. rewrite (proj2 (Z.ltb_lt size 1)) in Ea by done. done. }
    destruct (allocate_spec K w me now cred k size flg Hok ltac:(lia))
      as [(K' & k' & E' & _)|(l & d & w' & E' & Hok' & Hl & _ & _ & Hls & Hus & _ & _ & _ & _ & Hn & _)]; rewrite E' in Ea; [done|].
    apply Ret_inj in Ea as [[= <-] <-]. exists l, d. done.
  Qed.

(** The life of a segment: shmget creates it, shmat with the identifier it
    returned attaches it, shmctl can then mark it as removed without taking it
    away from the process, and shmdt of its address makes the list of segments
    and the attachments what they were before. *)
Theorem shm_lifecycle K w me now cred k size flg id w1 u buf :
    shm_ok K w -> users w !! me = Some u -> u_shmsize u + 256 < 2 ^ 28 -> size < 2 ^ 31 ->
    k = IPC_PRIVATE \/ shm_find_ds_by_key k w = None ->
    shmget me now cred k size flg w = Ret (inr id) w1 ->
    exists l d, shmlist w1 = (l, d) :: shmlist w /\
      (shmat me now cred id 0 0 w1 = Fault \/
       exists w2 w3 w4 u4, shmat me now cred id 0 0 w1 = Ret (inr (shm_internal d)) w2 /\
         shmctl now cred id IPC_RMID buf w2 = Ret (inr 0, None) w3 /\
         (exists d3, get_ds (shmlist w3) l = Some d3 /\ shm_internal d3 = shm_internal d /\ shm_nattch d3 = 1) /\
         shmdt me now (shm_internal d) w3 = Ret (inr 0) w4 /\ shmlist w4 = shmlist w /\
         users w4 = <[me := u4]> (users w) /\ forall x, refs (atts u4) x = refs (atts u) x).
  Proof.
    intros Hok Hu Hsz Hsize Hk E. destruct (shmget_creates _ _ _ _ _ _ _ _ _ _ Hok Hsize Hk E) as (l & d & -> & Hok1 & HlK & Hl1 & Hu1 & Hn).
    exists l, d. split; [done|].
    assert (l ∉ (shmlist w).*1) as Hlf.
    { pose proof Hok as [H _]. intros ([a da] & -> & Hin)%list_elem_of_fmap. destruct (seg_addr_in _ _ _ Hin) as [Hs _].
      apply HlK. by apply (so_in _ _ _ H). }
    assert (shm_find_ds_by_shmid (IPC_SHMID l (shm_perm d)) w1 = Some (l, d)) as Hf.
    { unfold shm_find_ds_by_shmid. rewrite Hl1. cbn. by rewrite Z.eqb_refl. }
    destruct (shmat_spec _ w1 me now cred _ 0 0 u l d Hok1 ltac:(by rewrite Hu1) Hsz Hf ltac:(lia) ltac:(by left))
      as [(Ef & _)|(K2 & w2 & u2 & E2 & Hok2 & Hl2 & _ & Hus2 & Hr2)]; [by left|right].
    rewrite Hl1 in Hl2. cbn in Hl2. rewrite Z.eqb_refl in Hl2. set (d2 := ds_attached d me now) in Hl2.
    assert (shm_nattch d2 = 1) as Hn2 by (cbn; by rewrite Hn).
    set (p3 := perm_set_key (shm_perm d2) IPC_PRIVATE).
    set (d3 := ds_set_perm d2 (perm_set_mode p3 (u16 (Z.lor (mode p3) SHMSEG_REMOVED)))).
    set (w3 := set_shmlist w2 ((l, d3) :: shmlist w)).
    assert (shmctl now cred (IPC_SHMID l (shm_perm d)) IPC_RMID buf w2 = Ret (inr 0, None) w3) as E3.
    { unfold shmctl. unfold shm_find_ds_by_shmid. rewrite Hl2. cbn [List.find fst snd].
      change (shm_perm d2) with (shm_perm d). rewrite Z.eqb_refl. cbn [ipcperm Z.eqb negb IPC_RMID IPC_GETLIST IPC_STAT IPC_SET].
      fold p3. fold d3. change (shm_nattch d3) with (shm_nattch d2). rewrite Hn2. cbn [Z.leb].
      unfold put_ds. rewrite Hl2. cbn [upd_ds]. rewrite Z.eqb_refl. done. }
    destruct (shmctl_spec K2 w2 now cred (IPC_SHMID l (shm_perm d)) IPC_RMID buf Hok2) as (r3 & K3 & w3' & E3' & Hok3 & Hus3 & _).
    rewrite E3 in E3'. apply Ret_inj in E3' as [<- <-].
    assert (shm_find_ds_by_addr (shm_internal d) w3 = Some (l, d3)) as Hf3.
    { unfold shm_find_ds_by_addr. cbn [w3 shmlist set_shmlist List.find snd]. change (shm_internal d3) with (shm_internal d). by rewrite Z.eqb_refl. }
    assert (l ∈ atts u2) as Hl2u.
    { destruct (decide (l ∈ atts u2)) as [|Hno]; [done|]. pose proof (refs_not_elem _ _ Hno) as H0. specialize (Hr2 l).
      pose proof (refs_pos (atts u) l). unfold ind in Hr2. case_decide; [lia|done]. }
    assert (users w3 !! me = Some u2) as Hu3 by (cbn; rewrite Hus2; apply lookup_insert_eq).
    destruct (shmdt_spec K3 w3 me now (shm_internal d) u2 l d3 Hok3 Hu3 Hf3 Hl2u) as (K4 & w4 & u4 & E4 & _ & Hus4 & _ & Hr4 & Hcase).
    assert (bset (mode (shm_perm d3)) SHMSEG_REMOVED = true) as Hrm.
    { cbn. change SHMSEG_REMOVED with (2 ^ 10). rewrite bset_pow2 by lia. unfold u16.
      rewrite Z.mod_pow2_bits_low, Z.lor_spec, Z.pow2_bits_true by lia. apply orb_true_r. }
    change (shm_nattch d3) with (shm_nattch d2) in Hcase. rewrite Hn2, Hrm in Hcase. cbn [Z.eqb andb] in Hcase. destruct Hcase as [_ Hl4].
    exists w2, w3, w4, u4. split_and!; try done.
    - exists d3. cbn. by rewrite Z.eqb_refl.
    - rewrite Hl4. cbn [w3 shmlist set_shmlist]. rewrite filter_cons. cbn [fst]. rewrite decide_False by tauto.
      clear -Hlf. induction (shmlist w) as [|[c dc] t IH]; [done|]. rewrite filter_cons. cbn in Hlf.
      apply not_elem_of_cons in Hlf as [Hc Ht]. cbn [fst]. rewrite decide_True by congruence. f_equal. by apply IH.
    - rewrite Hus4. cbn. rewrite Hus2, Hu1. by rewrite insert_insert_eq.
    - intros x. rewrite Hr4, Hr2. lia.
  Qed.

(** shmdt does not check that the calling process has attached the segment: by
    it a process takes the last attachment of a removed segment away from another
    one, the segment is freed, and the other process is left with a pointer to a
    freed structure, through which its exit writes. *)
Theorem shmdt_unattached_dangles K w p q now addr up uq l d :
    shm_ok K w -> users w !! p = Some up -> users w !! q = Some uq -> p <> q ->
    shm_find_ds_by_addr addr w = Some (l, d) -> atts up = [l] -> l ∉ atts uq ->
    shm_nattch d = 1 -> bset (mode (shm_perm d)) SHMSEG_REMOVED = true ->
    exists w', shmdt q now addr w = Ret (inr 0) w' /\ get_ds (shmlist w') l = None /\ users w' = users w /\
      shmexit p now w' = Fault.
  Proof.
    intros [H Ha] Hp Hq Hne Hf Hup Huq Hn Hrm. destruct (find_node _ _ _ _ _ _ H Hf) as [Hd _].
    unfold shmdt. rewrite Hf, Hq. fold (atts uq).
    assert (first_idx (Z.eqb l) (atts uq) 0 = None) as ->.
    { destruct (first_idx (Z.eqb l) (atts uq) 0) eqn:E; [|done]. apply first_idx_Some in E as (x & _ & Hx & <-%Z.eqb_eq & _).
      by apply aget_elem_of in Hx. }
    unfold shm_delete_mapping. rewrite Hd. cbn [shm_nattch ds_detached shm_perm]. rewrite Hn, Hrm. 
    change (s16 (1 - 1) <=? 0) with true. cbn [andb].
    unfold shm_deallocate_segment, lift. cbn [shmlist put_ds set_shmlist kmem].
    assert ((l, d) ∈ shmlist w) as Hin by (apply get_ds_elem; [apply NoDup_seg_fst, H|done]).
    assert (l ∈ (shmlist w).*1) as Hl by (apply list_elem_of_fmap; by exists (l, d)).
    rewrite get_upd_ds, Z.eqb_refl by done. cbn [shm_internal ds_detached].
    destruct (seg_addr_in _ _ _ Hin) as [Hls Hds].
    destruct (km_free_ok (kmem w) K _ (so_kmem _ _ _ H) (so_in _ _ _ H _ Hds)) as (k1 & -> & Hk1). cbn [obind kmem set_kmem set_shmlist].
    pose proof (seg_internal_ne _ _ _ (so_nodup _ _ _ H) Hin) as Hld.
    destruct (km_free_ok k1 _ l Hk1) as (k2 & -> & _).
    { apply elem_of_difference. rewrite elem_of_singleton. split; [by apply (so_in _ _ _ H)|by apply not_eq_sym]. }
    cbn [obind]. eexists. split; [done|]. match goal with |- get_ds (shmlist ?x) l = None /\ _ => set (wf := x) end.
    assert (get_ds (shmlist wf) l = None) as Hno by (cbn; by rewrite filter_upd, filter_get, Z.eqb_refl).
    split_and!; [done|done|]. unfold shmexit. change (users wf) with (users w). rewrite Hp. fold (atts up). rewrite Hup.
    cbn [delete_mappings]. unfold shm_delete_mapping at 1. by rewrite Hno.
  Qed.
End Theorems.

(** ** On kmalloc and the buddy allocator: processes 1 and 2 *)

#[local] Instance M_ops : PoolOps bstate := buddy_ops 1024 AllocMem_bump.
#[local] Instance M_laws : PoolLaws bstate (ok 1024) := buddy_laws 1024 AllocMem_bump AllocMem_bump_ok.
Notation mok := (shm_ok (kok := heap_kok (pok := ok 1024))).

Definition root_cred : ucred := mkCred 0 0.
Definition sh0 : shmworld bstate := mkShm [] 0 {[ 1 := no_shm; 2 := no_shm ]} after_one.

Lemma no_refs a : refs_all {[ 1 := no_shm; 2 := no_shm ]} a = 0.
Proof. done. Qed.

Lemma sh0_user p u : users sh0 !! p = Some u -> u = no_shm.
Proof. cbn. intros [[_ <-]|[_ [_ <-]%lookup_singleton_Some]]%lookup_insert_Some; done. Qed.

Lemma sh0_ok : mok ∅ sh0.
Proof.
  split; [|by intros l d]. split; try done.
  - exists {[ 1484 := 100 ]}. split_and!.
    + eapply reach_ok; [apply AllocMem_bump_ok|apply placed_1024|apply reach_one].
    + intros u v a b [<- _]%lookup_singleton_Some [<- _]%lookup_singleton_Some. done.
    + intros u sz [_ <-]%lookup_singleton_Some. lia.
    + intros p Hp. by apply not_elem_of_empty in Hp.
  - constructor.
  - intros b Hb. by apply not_elem_of_nil in Hb.
  - intros p u ->%sh0_user. split; cbn; [lia|lia|done|by left].
  - intros p q u v ->%sh0_user. done.
Qed.

Definition step_of {A} (m : outcome (shmworld bstate) A) : shmworld bstate := match m with Ret _ w => w | _ => sh0 end.
Definition sh1 : shmworld bstate := step_of (shmget 1 10 root_cred 7 100 0x3b6 sh0).
Definition sh1_id : Z := 263760.
Definition sh2 : shmworld bstate := step_of (shmat 1 10 root_cred sh1_id 0 0 sh1).
Definition sh3 : shmworld bstate := step_of (shmctl 10 root_cred sh1_id IPC_RMID (mkDs (mkPerm 0 0 0 0 0 0 0) 0 0 0 0 0 0 0 0) sh2).

Definition no_ds : shmid_ds := mkDs (mkPerm 0 0 0 0 0 0 0) 0 0 0 0 0 0 0 0.

Lemma get_sh1 : shmget 1 10 root_cred 7 100 0x3b6 sh0 = Ret (inr sh1_id) sh1.
Proof. vm_compute. reflexivity. Qed.
Lemma at_sh2 : shmat 1 10 root_cred sh1_id 0 0 sh1 = Ret (inr 1744) sh2.
Proof. vm_compute. reflexivity. Qed.
Lemma rmid_sh3 : shmctl 10 root_cred sh1_id IPC_RMID no_ds sh2 = Ret (inr 0, None) sh3.
Proof. vm_compute. reflexivity. Qed.

Lemma sh1_ok : exists K, mok K sh1.
Proof.
  destruct (shmget_creates ∅ sh0 1 10 root_cred 7 100 0x3b6 sh1_id sh1 sh0_ok) as (l & d & _ & Hok & _);
    [lia|by right|apply get_sh1|]. by eexists.
Qed.

(** Segment 1616 with its memory at 1744. *)
Lemma sh2_facts : exists u d, users sh2 !! 1 = Some u /\ atts u = [1616] /\ get_ds (shmlist sh2) 1616 = Some d /\
  shm_nattch d = 1 /\ u_shmsize u = 256 /\ shm_find_ds_by_addr 1744 sh2 = Some (1616, d) /\ users sh2 !! 2 = Some no_shm.
Proof. vm_compute. eexists _, _. split_and!; reflexivity. Qed.
Lemma sh3_facts : exists u d, users sh3 !! 1 = Some u /\ atts u = [1616] /\ get_ds (shmlist sh3) 1616 = Some d /\
  shm_nattch d = 1 /\ bset (mode (shm_perm d)) SHMSEG_REMOVED = true /\ shm_find_ds_by_addr 1744 sh3 = Some (1616, d) /\
  users sh3 !! 2 = Some no_shm.
Proof. vm_compute. eexists _, _. split_and!; reflexivity. Qed.

Lemma sh1_facts : exists d, users sh1 !! 1 = Some no_shm /\ shm_find_ds_by_shmid sh1_id sh1 = Some (1616, d) /\ shm_nattch d = 0.
Proof. vm_compute. eexists. split_and!; reflexivity. Qed.

Lemma sh2_ok : exists K, mok K sh2.
Proof.
  destruct sh1_ok as [K Hok]. destruct sh1_facts as (d & Hu & Hf & Hn).
  destruct (shmat_spec K sh1 1 10 root_cred sh1_id 0 0 no_shm 1616 d Hok Hu) as [(E & _)|(K' & w' & u' & E & Hok' & _)].
  - done.
  - done.
  - rewrite Hn. done.
  - by left.
  - rewrite at_sh2 in E. done.
  - rewrite at_sh2 in E. apply Ret_inj in E as [_ <-]. by exists K'.
Qed.

Lemma sh3_ok : exists K, mok K sh3.
Proof.
  destruct sh2_ok as [K Hok].
  destruct (shmctl_spec K sh2 10 root_cred sh1_id IPC_RMID no_ds Hok) as (r & K' & w' & E & Hok' & _).
  rewrite rmid_sh3 in E. apply Ret_inj in E as [_ <-]. by exists K'.
Qed.

Lemma shm_calls_keep_counts_witness : exists K' w', run_call 1 10 root_cred (Fork 3) sh2 = Ret tt w' /\ counted_and_live K' w'.
Proof.
  destruct sh2_ok as [K Hok]. destruct sh2_facts as (u & d & Hu & Ha & Hd & Hn & _ & Hf & _).
  destruct (shm_calls_keep_counts K sh2 1 10 root_cred (Fork 3) Hok) as [(K' & w' & E & _ & Hc)|(_ & id & addr & flg & u' & k & Hx & _)].
  - exists u. split; [exact Hu|]. split; [reflexivity|]. intros l d' Hd'. rewrite Ha.
    assert (l = 1616 /\ shm_nattch d' = 1) as [-> ->].
    { assert (shmlist sh2 = [(1616, d)]) as Hl.
      { change (shmlist sh2) with ([(1616, default no_ds (get_ds (shmlist sh2) 1616))]). by rewrite Hd. }
      rewrite Hl in Hd'. cbn [get_ds] in Hd'. destruct (Z.eqb_spec 1616 l) as [<-|]; [|discriminate Hd'].
      injection Hd' as <-. exact (conj eq_refl Hn). }
    reflexivity.
  - exists K', w'. exact (conj E Hc).
  - discriminate Hx.
Defined.

Lemma shmdt_frees_last_witness : exists K' w', shmdt 1 11 1744 sh3 = Ret (inr 0) w' /\ mok K' w'.
Proof.
  destruct sh3_ok as [K Hok]. destruct sh3_facts as (u & d & Hu & Ha & Hd & Hn & Hr & Hf & _).
  destruct (shmdt_frees_last K sh3 1 11 1744 u 1616 d Hok Hu Hf) as (K' & w' & u' & E & Hok' & _).
  - rewrite Ha. left.
  - exists K', w'. exact (conj E Hok').
Defined.

Lemma shm_lifecycle_witness : exists l d w2, shmlist sh1 = (l, d) :: shmlist sh0 /\
  shmat 1 10 root_cred sh1_id 0 0 sh1 = Ret (inr (shm_internal d)) w2.
Proof.
  destruct (shm_lifecycle ∅ sh0 1 10 root_cred 7 100 0x3b6 sh1_id sh1 no_shm no_ds sh0_ok)
    as (l & d & Hl & [E|(w2 & w3 & w4 & u4 & E & _)]).
  - reflexivity.
  - reflexivity.
  - reflexivity.
  - right. reflexivity.
  - apply get_sh1.
  - rewrite at_sh2 in E. discriminate E.
  - exists l, d, w2. exact (conj Hl E).
Defined.

Lemma shmdt_unattached_dangles_witness : exists w', shmdt 2 11 1744 sh3 = Ret (inr 0) w' /\ shmexit 1 11 w' = Fault.
Proof.
  destruct sh3_ok as [K Hok]. destruct sh3_facts as (u & d & Hu & Ha & Hd & Hn & Hr & Hf & Hu2).
  destruct (shmdt_unattached_dangles K sh3 1 2 11 1744 u no_shm 1616 d Hok Hu Hu2) as (w' & E & _ & _ & Ef).
  - discriminate.
  - exact Hf.
  - exact Ha.
  - apply not_elem_of_nil.
  - exact Hn.
  - exact Hr.
  - exists w'. exact (conj E Ef).
Defined.
