(* ===== verification/Sleep.v ===== *)
(** * Sleeping, waking up and the library's mutexes

    Models library/ix_sleep.c and library/ix_sem.c.  The world holds the sleep
    queues and the tasks: their struct user ([Sig.user]), the exec signals they
    have received and, while they wait, the signals they wait for.  [tsleep] runs
    with task switching forbidden from the queueing to [Wait] and again from
    there to the end, so it is two steps: [tsleep_begin] up to [Wait] and
    [tsleep_end], which can run once a signal waited for has arrived.  The
    timeout, which no caller uses, is left out. *)

From S2P Require Import Prelude Signals.
Import Sig.

Module Sleep.

Definition IX_NUM_SLEEP_QUEUES : Z := 31.
Definition SIGBREAKF_CTRL_C : Z := 2 ^ 12.

(** ** Data *)

(** [t_self]: the address of the struct user; [t_waits]: the mask given to
    [Wait], while the task is in [tsleep]. *)
Record task := mkTask { t_user : user; t_self : Z; t_sleep_sig : Z; t_recvd : Z; t_waits : option Z }.
Record sleep_msg := mkMsg { sm_task : Z; sm_signal : Z; sm_waitchan : Z }.
Record sleepworld := mkSleep { queues : list (list sleep_msg); tasks : gmap Z task }.

Definition set_t_user (t : task) v : task := mkTask v (t_self t) (t_sleep_sig t) (t_recvd t) (t_waits t).
Definition set_t_recvd (t : task) v : task := mkTask (t_user t) (t_self t) (t_sleep_sig t) v (t_waits t).
Definition set_t_waits (t : task) v : task := mkTask (t_user t) (t_self t) (t_sleep_sig t) (t_recvd t) v.
Definition set_queues (w : sleepworld) q : sleepworld := mkSleep q (tasks w).
Definition set_tasks (w : sleepworld) ts : sleepworld := mkSleep (queues w) ts.
Definition put_task (w : sleepworld) me t : sleepworld := set_tasks w (<[me := t]> (tasks w)).

Definition set_p_wchan (p : user) v : user :=
    mkUser (u_signal p) (u_sigmask p) (u_sigonstack p) (u_sigintr p) (u_oldmask p) (u_sigsp p) (u_onstack p)
    (u_sig p) (u_code p) (p_flag p) (p_stat p) (p_xstat p) (p_sig p) (p_sigmask p) (p_sigignore p)
    (p_sigcatch p) v (u_mask_state p) (ru_nsignals p) (u_errno p) (p_pgrp p) (p_pptr p)
    (p_cptr p) (p_osptr p) (frames p) (os_calls p).

(** ** ix_hash, ix_wakeup *)

Definition ix_hash (waitchan : Z) : Z :=
  let c := u32 waitchan in
  u16 (Z.lxor (Z.shiftr c 16) (Z.land c 0xffff)) mod IX_NUM_SLEEP_QUEUES.

(** exec's [Signal]. *)
Definition Signal (t sigs : Z) (ts : gmap Z task) : gmap Z task :=
  alter (fun k => set_t_recvd k (bor (t_recvd k) sigs)) t ts.

Fixpoint wakeup_loop (waitchan : Z) (l : list sleep_msg) (ts : gmap Z task) : gmap Z task :=
  match l with
  | [] => ts
  | sm :: l =>
    wakeup_loop waitchan l (if sm_waitchan sm =? waitchan then Signal (sm_task sm) (Z.shiftl 1 (sm_signal sm)) ts else ts)
  end.

Definition ix_wakeup (waitchan : Z) (w : sleepworld) : outcome sleepworld () :=
  let? the_list := aget (queues w) (ix_hash waitchan) in
  Ret tt (set_tasks w (wakeup_loop waitchan the_list (tasks w))).

(** ** Unix signals to sleeping tasks

    What setrun (library/machdep_68k.c) asked exec for while a signal was
    posted: the calls that [psignal] has appended. *)
Definition os_signal (t : Z) (c : os_call) (w : sleepworld) : outcome sleepworld () :=
  let? k := tasks w !! t in
  match c with
  | SignalSleep => Ret tt (set_tasks w (Signal t (Z.shiftl 1 (t_sleep_sig k)) (tasks w)))
  | SignalCtrlC => Ret tt (set_tasks w (Signal t SIGBREAKF_CTRL_C (tasks w)))
  | WakeupSelf => ix_wakeup (t_self k) w
  | _ => Ret tt w
  end.

Fixpoint os_signals (t : Z) (l : list os_call) (w : sleepworld) : outcome sleepworld () :=
  match l with
  | [] => Ret tt w
  | c :: l => let* (_u, w) := os_signal t c w in os_signals t l w
  end.

(** The struct user of the task becomes [p]. *)
Definition set_user_of (t : Z) (p : user) (w : sleepworld) : outcome sleepworld () :=
  let? k := tasks w !! t in
  os_signals t (drop (length (os_calls (t_user k))) (os_calls p)) (put_task w t (set_t_user k p)).

Definition psignal_task (ext : bool) (t sig : Z) (w : sleepworld) : outcome sleepworld () :=
  let? k := tasks w !! t in
  set_user_of t (psignal ext sig (t_user k)) w.

Fixpoint set_users_of (l : list (Z * user)) (w : sleepworld) : outcome sleepworld () :=
  match l with
  | [] => Ret tt w
  | (t, p) :: l => let* (_u, w) := set_user_of t p w in set_users_of l w
  end.

(** [_psignalgrp], on the processes that have a task here. *)
Definition psignalgrp_tasks (fuel : nat) (ext : Z -> bool) (proc sig : Z) (w : sleepworld) : outcome sleepworld () :=
  match psignalgrp fuel ext proc sig (mkWorld (t_user <$> tasks w) proc []) with
  | Ret _ sw => set_users_of (map_to_list (procs sw)) w
  | Asleep _ => Fault
  | Panic m => Panic m
  | Fault => Fault
  | Diverge => Diverge
  end.

Section Tsleep.
(** [select_addr]: the address of the function select, its wait channel. *)
Context (select_addr : Z).

Definition wchan_of (k : task) (waitchan : Z) : wchan :=
  if waitchan =? t_self k then WSelf else if waitchan =? select_addr then WSelect else WOther waitchan.

(** ** tsleep, up to [Wait]

    [Some (-1)]: it has returned; [None]: the task waits. *)
Definition tsleep_begin (sr : bool) (me waitchan : Z) (w : sleepworld) : outcome sleepworld (option Z) :=
  let? k := tasks w !! me in
  match CURSIG sr [] (t_user k) with
  | Ret (r, _) p =>
    if negb (r =? 0) then Ret (Some (-1)) (put_task w me (set_t_user k (set_u_errno p EINTR)))
    else
      let p := set_p_wchan (set_p_stat p SSLEEP) (wchan_of k (u32 waitchan)) in
      let sm := mkMsg me (t_sleep_sig k) (u32 waitchan) in
      let wait_sigs := bor (Z.shiftl 1 (sm_signal sm)) SIGBREAKF_CTRL_C in
      let? q := aget (queues w) (ix_hash (u32 waitchan)) in
      Ret None (put_task (set_queues w (aput (queues w) (ix_hash (u32 waitchan)) (q ++ [sm]))) me
        (set_t_waits (set_t_user k p) (Some wait_sigs)))
  | Asleep p => Asleep (put_task w me (set_t_user k p))
  | Panic m => Panic m
  | Fault => Fault
  | Diverge => Diverge
  end.

(** ** tsleep, from the return of [Wait] on *)

Definition ready (k : task) : bool :=
  match t_waits k with Some m => bset (t_recvd k) m | None => false end.

(** [Wait] returns the signals that have arrived and clears them. *)
Definition tsleep_end (sr : bool) (fuel : nat) (ext : Z -> bool) (pgrp : Z) (me waitchan : Z) (w : sleepworld)
  : outcome sleepworld Z :=
  let? k := tasks w !! me in
  let? wait_sigs := t_waits k in
  let res := Z.land (t_recvd k) wait_sigs in
  let w := put_task w me (set_t_recvd k (bclr (t_recvd k) res)) in
  let* (_u, w) :=
    if (bset (p_sigignore (t_user k)) (sigmask SIGMSG) || negb (bset (p_sigcatch (t_user k)) (sigmask SIGMSG)))
       && bset res SIGBREAKF_CTRL_C
    then psignalgrp_tasks fuel ext pgrp SIGINT w else Ret tt w in
  let? k := tasks w !! me in
  let k := set_t_recvd k (bclr (t_recvd k) res) in
  match CURSIG sr [] (t_user k) with
  | Ret (r, _) p =>
    let res := if r =? 0 then 0 else -1 in
    let? q := aget (queues w) (ix_hash (u32 waitchan)) in
    let q := filter (fun sm => sm_task sm <> me) q in
    let p := set_p_stat (set_p_wchan p WNone) SRUN in
    let p := if res =? 0 then p else set_u_errno p EINTR in
    Ret res (put_task (set_queues w (aput (queues w) (ix_hash (u32 waitchan)) q)) me (set_t_waits (set_t_user k p) None))
  | Asleep p => Asleep (put_task w me (set_t_user k p))
  | Panic m => Panic m
  | Fault => Fault
  | Diverge => Diverge
  end.
End Tsleep.

(** ** Mutexes (library/ix_sem.c)

    exec's SignalSemaphore: the owner and how often it has obtained it.
    [ObtainSemaphore] waits while another task is the owner: [None]. *)

Record semaphore := mkSema { ss_Owner : option Z; ss_NestCount : Z }.
Record mutex := mkMutex { initialized : bool; oldmask : Z; sem : semaphore }.

Definition obtain (t : Z) (s : semaphore) : option semaphore :=
  match ss_Owner s with
  | None => Some (mkSema (Some t) 1)
  | Some o => if o =? t then Some (mkSema (Some t) (ss_NestCount s + 1)) else None
  end.

Definition release (s : semaphore) : semaphore :=
  if ss_NestCount s =? 1 then mkSema None 0 else mkSema (ss_Owner s) (ss_NestCount s - 1).

Definition init (m : mutex) : mutex :=
  if initialized m then m else mkMutex true (oldmask m) (mkSema None 0).

(** The result is the mutex and the signal mask of the task; [None]: the task
    waits, with all signals blocked. *)
Definition ix_mutex_lock (t p_sigmask : Z) (m : mutex) : option (mutex * Z) :=
  let old := p_sigmask in
  let m := init m in
  let p_sigmask := 2 ^ 32 - 1 in
  match obtain t (sem m) with
  | None => None
  | Some s => Some (mkMutex true (if ss_NestCount s =? 1 then old else oldmask m) s, p_sigmask)
  end.

(** The result, the error number if any, the mutex and the mask. *)
Definition ix_mutex_attempt_lock (t p_sigmask : Z) (m : mutex) : Z * option Z * mutex * Z :=
  let old := p_sigmask in
  let m := init m in
  match obtain t (sem m) with
  | Some s => (0, None, mkMutex true (if ss_NestCount s =? 1 then old else oldmask m) s, 2 ^ 32 - 1)
  | None => (-1, Some EAGAIN, m, old)
  end.

Definition ix_mutex_unlock (p_sigmask : Z) (m : mutex) : mutex * Z :=
  let old := p_sigmask in
  let m := init m in
  let old := if ss_NestCount (sem m) =? 1 then oldmask m else old in
  let s := if negb (ss_NestCount (sem m) =? 0) then release (sem m) else sem m in
  (mkMutex true (oldmask m) s, old).
End Sleep.
