(* ===== verification/SleepInv.v ===== *)
(** * Sleeping: the invariant

    Every message of a sleep queue belongs to a task that waits, in the queue of
    its channel; what other tasks and interrupts do meanwhile only adds to the
    signals it has received. *)

From S2P Require Import Prelude Signals SignalsIssig SignalsInv SignalsTheorems Sleep.
Import Sig Sleep.

(** ** Bits *)

Lemma ix_hash_range c : 0 <= ix_hash c < IX_NUM_SLEEP_QUEUES.
Proof. unfold ix_hash, IX_NUM_SLEEP_QUEUES. apply Z.mod_pos_bound. lia. Qed.

Lemma bset_lor_l m x b : bset m b = true -> bset (Z.lor m x) b = true.
Proof.
  unfold bset. rewrite !negb_true_iff, !Z.eqb_neq. intros H E. apply H.
  rewrite Z.land_lor_distr_l in E. by apply Z.lor_eq_0_iff in E as [E _].
Qed.

(** ** What may happen to a waiting task *)

(** Signals: the process stays well formed, and one that sleeps goes on sleeping
    on its channel. *)
Record user_upd (p p' : user) : Prop := {
  uu_wf : sig_wf p -> sig_wf p';
  uu_sleep : p_stat p = SSLEEP -> p_stat p' = SSLEEP /\ p_wchan p' = p_wchan p
}.

#[export] Instance user_upd_preorder : PreOrder user_upd.
Proof.
  split; [by intros p|]. intros p1 p2 p3 [A1 A2] [B1 B2]. split; [auto|].
  intros H. destruct (A2 H) as [H1 E1]. destruct (B2 H1) as [H2 E2]. split; congruence.
Qed.

Lemma setrun_upd ext p : user_upd p (setrun ext p).
Proof.
  split; [apply setrun_wf|]. intros H. unfold setrun. rewrite H. cbn. rewrite orb_true_r. cbn.
  destruct (p_wchan p) eqn:E; cbn; by rewrite ?E.
Qed.

Lemma psignal_upd ext sig p : 1 <= sig <= 32 -> user_upd p (psignal ext sig p).
Proof.
  intros Hs. split; [by intros; apply psignal_wf|]. intros H. unfold psignal, post_signal.
  assert (forall q, p_stat q = SSLEEP -> p_wchan q = p_wchan p -> p_stat (setrun ext q) = SSLEEP /\ p_wchan (setrun ext q) = p_wchan p) as Hrun.
  { intros q Hq Hw. destruct (uu_sleep _ _ (setrun_upd ext q) Hq). split; congruence. }
  assert (p_stat (convert_trap sig p).2 = SSLEEP /\ p_wchan (convert_trap sig p).2 = p_wchan p) as [H1 H2]
    by (unfold convert_trap; by case_match).
  destruct (convert_trap sig p) as [s1 p1]. cbn [snd] in *.
  repeat case_match; try done; apply Hrun; done.
Qed.

Lemma rtc_psignal_upd sig p p' : 1 <= sig <= 32 -> rtc (fun a b => exists x, b = psignal x sig a) p p' -> user_upd p p'.
Proof.
  intros Hs. induction 1 as [|a b c [x ->] _ IH]; [done|]. etrans; [by apply psignal_upd|done].
Qed.

Definition grown (k k' : task) : Prop := exists r, k' = set_t_recvd k (Z.lor (t_recvd k) r).

Lemma grown_refl k : grown k k.
Proof. exists 0. rewrite Z.lor_0_r. by destruct k. Qed.

Lemma grown_trans k1 k2 k3 : grown k1 k2 -> grown k2 k3 -> grown k1 k3.
Proof. intros [r1 ->] [r2 ->]. exists (Z.lor r1 r2). unfold set_t_recvd. cbn. by rewrite Z.lor_assoc. Qed.

Record task_upd (k k' : task) : Prop := {
  tu_self : t_self k' = t_self k;
  tu_sig : t_sleep_sig k' = t_sleep_sig k;
  tu_waits : t_waits k' = t_waits k;
  tu_recvd : exists r, t_recvd k' = Z.lor (t_recvd k) r;
  tu_user : user_upd (t_user k) (t_user k')
}.

#[export] Instance task_upd_preorder : PreOrder task_upd.
Proof.
  split.
  - intros k. split; try done. exists 0. by rewrite Z.lor_0_r.
  - intros k1 k2 k3 [A1 A2 A3 [a A4] A5] [B1 B2 B3 [b B4] B5]. split; try congruence.
    + exists (Z.lor a b). by rewrite B4, A4, Z.lor_assoc.
    + by transitivity (t_user k2).
Qed.

Lemma grown_upd k k' : grown k k' -> task_upd k k'.
Proof. intros [r ->]. split; try done. by exists r. Qed.

(** Only signals were received. *)
Definition signalled (w w' : sleepworld) : Prop :=
  queues w' = queues w /\ forall t, option_Forall2 grown (tasks w !! t) (tasks w' !! t).

Definition evolves (w w' : sleepworld) : Prop :=
  queues w' = queues w /\ forall t, option_Forall2 task_upd (tasks w !! t) (tasks w' !! t).

#[export] Instance signalled_preorder : PreOrder signalled.
Proof.
  split.
  - intros w. split; [done|]. intros t. destruct (tasks w !! t); constructor. apply grown_refl.
  - intros w1 w2 w3 [A1 A2] [B1 B2]. split; [congruence|]. intros t. specialize (A2 t). specialize (B2 t).
    destruct (tasks w1 !! t), (tasks w2 !! t), (tasks w3 !! t); inversion A2; inversion B2; subst; constructor.
    by eapply grown_trans.
Qed.

#[export] Instance evolves_preorder : PreOrder evolves.
Proof.
  split.
  - intros w. split; [done|]. intros t. destruct (tasks w !! t); by constructor.
  - intros w1 w2 w3 [A1 A2] [B1 B2]. split; [congruence|]. intros t. specialize (A2 t). specialize (B2 t).
    destruct (tasks w1 !! t), (tasks w2 !! t), (tasks w3 !! t); inversion A2; inversion B2; subst; constructor.
    by etrans.
Qed.

Lemma signalled_evolves w w' : signalled w w' -> evolves w w'.
Proof.
  intros [H1 H2]. split; [done|]. intros t. specialize (H2 t).
  destruct (tasks w !! t), (tasks w' !! t); inversion H2; subst; constructor. by apply grown_upd.
Qed.

Lemma signalled_get w w' t k : signalled w w' -> tasks w !! t = Some k -> exists k', tasks w' !! t = Some k' /\ grown k k'.
Proof. intros [_ H] Hk. specialize (H t). rewrite Hk in H. inversion H; subst. eauto. Qed.

Lemma evolves_get w w' t k : evolves w w' -> tasks w !! t = Some k -> exists k', tasks w' !! t = Some k' /\ task_upd k k'.
Proof. intros [_ H] Hk. specialize (H t). rewrite Hk in H. inversion H; subst. eauto. Qed.

Lemma evolves_back w w' t k' : evolves w w' -> tasks w' !! t = Some k' -> exists k, tasks w !! t = Some k /\ task_upd k k'.
Proof. intros [_ H] Hk. specialize (H t). rewrite Hk in H. inversion H; subst. eauto. Qed.

Lemma Signal_signalled w t s : signalled w (set_tasks w (Signal t s (tasks w))).
Proof.
  split; [done|]. intros x. cbn. unfold Signal. rewrite lookup_alter. case_decide; subst.
  - destruct (tasks w !! x); constructor. by exists s.
  - destruct (tasks w !! x); constructor. apply grown_refl.
Qed.

(** ** ix_wakeup *)

Definition sleeps_on (chan : Z) (t : Z) (l : list sleep_msg) : bool :=
  existsb (fun sm => (sm_task sm =? t) && (sm_waitchan sm =? chan)) l.

Lemma wakeup_loop_lookup chan l s t : forall ts,
  (forall sm, sm ∈ l -> sm_task sm = t -> sm_signal sm = s) ->
  wakeup_loop chan l ts !! t =
  (fun k => if sleeps_on chan t l then set_t_recvd k (Z.lor (t_recvd k) (Z.shiftl 1 s)) else k) <$> ts !! t.
Proof.
  induction l as [|sm l IH]; intros ts Hs; cbn [wakeup_loop sleeps_on existsb].
  - by rewrite option_fmap_id.
  - rewrite IH by (intros; apply Hs; [by right|done]). fold (sleeps_on chan t l).
    destruct (Z.eqb_spec (sm_waitchan sm) chan); [|by rewrite andb_false_r].
    rewrite andb_true_r. unfold Signal. rewrite lookup_alter. destruct (Z.eqb_spec (sm_task sm) t) as [E|Hne].
    + rewrite decide_True by done. rewrite (Hs sm) by first [done|left]. rewrite E. destruct (ts !! t) as [k|]; [|done]. cbn. f_equal.
      destruct (sleeps_on chan t l); [|done]. unfold bor, set_t_recvd. cbn. by rewrite <- Z.lor_assoc, Z.lor_diag.
    + rewrite decide_False by done. cbn. done.
Qed.

Lemma wakeup_loop_signalled chan l : forall q ts, signalled (mkSleep q ts) (mkSleep q (wakeup_loop chan l ts)).
Proof.
  induction l as [|sm l IH]; intros q ts; cbn [wakeup_loop]; [done|]. etrans; [|apply IH].
  destruct (sm_waitchan sm =? chan); [|done]. apply (Signal_signalled (mkSleep q ts)).
Qed.

Lemma ix_wakeup_spec chan w : length (queues w) = Z.to_nat IX_NUM_SLEEP_QUEUES ->
  exists l w', aget (queues w) (ix_hash chan) = Some l /\ ix_wakeup chan w = Ret tt w' /\ signalled w w' /\
    tasks w' = wakeup_loop chan l (tasks w).
Proof.
  intros Hl. pose proof (ix_hash_range chan). destruct (aget_is_Some (queues w) (ix_hash chan)) as [l Hq]; [lia|].
  exists l. unfold ix_wakeup. rewrite Hq. eexists. split_and!; try done. destruct w. apply wakeup_loop_signalled.
Qed.

(** ** Unix signals *)

Lemma os_signal_spec t c w k : length (queues w) = Z.to_nat IX_NUM_SLEEP_QUEUES -> tasks w !! t = Some k ->
  exists w', os_signal t c w = Ret tt w' /\ signalled w w'.
Proof.
  intros Hl Hk. unfold os_signal. rewrite Hk.
  destruct c; try (eexists; split; [done|]; first [apply Signal_signalled|done]).
  destruct (ix_wakeup_spec (t_self k) w Hl) as (l & w' & _ & -> & Hs & _). by exists w'.
Qed.

Lemma os_signals_spec t l : forall w k, length (queues w) = Z.to_nat IX_NUM_SLEEP_QUEUES -> tasks w !! t = Some k ->
  exists w', os_signals t l w = Ret tt w' /\ signalled w w'.
Proof.
  induction l as [|c l IH]; intros w k Hl Hk; cbn [os_signals]; [by exists w|].
  destruct (os_signal_spec t c w k Hl Hk) as (w1 & -> & H1). cbn [obind].
  destruct (signalled_get _ _ _ _ H1 Hk) as (k1 & Hk1 & _).
  destruct (IH w1 k1) as (w2 & -> & H2); [by destruct H1 as [-> _]|done|]. exists w2. split; [done|]. by etrans.
Qed.

(** The struct user of one task changes; the users of the others do not. *)
Lemma set_user_of_spec t p w k :
  length (queues w) = Z.to_nat IX_NUM_SLEEP_QUEUES -> tasks w !! t = Some k -> user_upd (t_user k) p ->
  exists w', set_user_of t p w = Ret tt w' /\ evolves w w' /\
    (exists k', tasks w' !! t = Some k' /\ t_user k' = p) /\
    forall x kx, x <> t -> tasks w !! x = Some kx -> exists kx', tasks w' !! x = Some kx' /\ t_user kx' = t_user kx.
Proof.
  intros Hl Hk Hp. unfold set_user_of. rewrite Hk. set (w0 := put_task w t (set_t_user k p)).
  assert (tasks w0 !! t = Some (set_t_user k p)) as Hk0 by apply lookup_insert_eq.
  assert (evolves w w0) as H0.
  { split; [done|]. intros x. cbn. destruct (decide (x = t)) as [->|Hne].
    - rewrite Hk, lookup_insert_eq. constructor. split; try done. exists 0. by rewrite Z.lor_0_r.
    - rewrite lookup_insert_ne by done. by destruct (tasks w !! x); constructor. }
  destruct (os_signals_spec t (drop (length (os_calls (t_user k))) (os_calls p)) w0 _ Hl Hk0) as (w' & -> & H1).
  exists w'. split; [done|]. split; [by etrans; [|apply signalled_evolves]|]. split.
  - destruct (signalled_get _ _ _ _ H1 Hk0) as (k' & Hk' & [r ->]). eexists. by split.
  - intros x kx Hne Hx. assert (tasks w0 !! x = Some kx) as Hx0 by (cbn; by rewrite lookup_insert_ne).
    destruct (signalled_get _ _ _ _ H1 Hx0) as (k' & Hk' & [r ->]). eexists. by split.
Qed.

Lemma psignal_task_spec ext t sig w k :
  length (queues w) = Z.to_nat IX_NUM_SLEEP_QUEUES -> tasks w !! t = Some k -> 1 <= sig <= 32 ->
  exists w', psignal_task ext t sig w = Ret tt w' /\ evolves w w'.
Proof.
  intros Hl Hk Hs. unfold psignal_task. rewrite Hk.
  destruct (set_user_of_spec t _ w k Hl Hk (psignal_upd ext sig (t_user k) Hs)) as (w' & -> & H & _). by exists w'.
Qed.

Lemma set_users_of_spec l : forall w,
  length (queues w) = Z.to_nat IX_NUM_SLEEP_QUEUES -> NoDup l.*1 ->
  (forall t p, (t, p) ∈ l -> exists k, tasks w !! t = Some k /\ user_upd (t_user k) p) ->
  exists w', set_users_of l w = Ret tt w' /\ evolves w w'.
Proof.
  induction l as [|[t p] l IH]; intros w Hl Hnd Hp; cbn [set_users_of]; [by exists w|].
  apply NoDup_cons in Hnd as [Hn Hnd]. destruct (Hp t p) as (k & Hk & Hu); [by left|].
  destruct (set_user_of_spec t p w k Hl Hk Hu) as (w1 & -> & H1 & _ & Hother). cbn [obind].
  destruct (IH w1) as (w2 & -> & H2); [by destruct H1 as [-> _]|done| |exists w2; split; [done|by etrans]].
  intros x px Hx. destruct (Hp x px) as (kx & Hkx & Hux); [by right|].
  destruct (Hother x kx) as (kx' & Hkx' & E); [|done|].
  - intros ->. apply Hn. apply list_elem_of_fmap. by exists (t, px).
  - exists kx'. split; [done|]. by rewrite E.
Qed.

Lemma psignalgrp_tasks_spec fuel ext proc sig w w' :
  length (queues w) = Z.to_nat IX_NUM_SLEEP_QUEUES -> 1 <= sig <= 32 ->
  psignalgrp_tasks fuel ext proc sig w = Ret tt w' -> evolves w w'.
Proof.
  intros Hl Hs. unfold psignalgrp_tasks. set (sw := mkWorld _ _ _).
  destruct (psignalgrp fuel ext proc sig sw) as [u sw'| | | |] eqn:E; try done. intros H.
  destruct u.
  assert (forall t, option_Forall2 user_upd (procs sw !! t) (procs sw' !! t)) as Hsw.
  { destruct (procs sw !! proc) as [u0|] eqn:Hu0.
    - destruct (psignalgrp_group _ _ _ _ _ _ _ Hu0 E) as (_ & _ & Hg). intros t. specialize (Hg t).
      destruct (procs sw !! t), (procs sw' !! t); inversion Hg as [? ? [_ Hr]|]; subst; constructor.
      destruct Hr as [->|[_ Hr]]; [done|]. by eapply rtc_psignal_upd.
    - assert (sw' = sw) as ->.
      { unfold psignalgrp in E. rewrite Hu0 in E. destruct (proc =? 0); by apply Ret_inj in E as [_ <-]. }
      intros t. by destruct (procs sw !! t); constructor. }
  destruct (set_users_of_spec (map_to_list (procs sw')) w Hl) as (w2 & E2 & H2).
  - apply NoDup_fst_map_to_list.
  - intros t p Hp%elem_of_map_to_list. specialize (Hsw t). rewrite Hp in Hsw.
    cbn in Hsw. rewrite lookup_fmap in Hsw. destruct (tasks w !! t) as [k|] eqn:Hk; inversion Hsw; subst.
    exists k. done.
  - rewrite E2 in H. by apply Ret_inj in H as [_ <-].
Qed.

(** ** The invariant *)

Section Inv.
Context (select_addr : Z).
Notation wchan_of := (wchan_of select_addr).

Definition wait_mask (k : task) : Z := Z.lor (Z.shiftl 1 (t_sleep_sig k)) SIGBREAKF_CTRL_C.

(** The message [sm] of queue [h] is that of a waiting task. *)
Record msg_ok (w : sleepworld) (h : Z) (sm : sleep_msg) : Prop := {
  mo_hash : ix_hash (sm_waitchan sm) = h;
  mo_chan : is_u32 (sm_waitchan sm);
  mo_task : exists k, tasks w !! sm_task sm = Some k /\ sm_signal sm = t_sleep_sig k /\
    t_waits k = Some (wait_mask k) /\ p_stat (t_user k) = SSLEEP /\ p_wchan (t_user k) = wchan_of k (sm_waitchan sm)
}.

Record sleep_ok (w : sleepworld) : Prop := {
  sk_len : length (queues w) = Z.to_nat IX_NUM_SLEEP_QUEUES;
  sk_msg h q sm : aget (queues w) h = Some q -> sm ∈ q -> msg_ok w h sm;
  sk_once h q : aget (queues w) h = Some q -> NoDup (sm_task <$> q);
  sk_unique h h' q q' sm sm' : aget (queues w) h = Some q -> aget (queues w) h' = Some q' -> sm ∈ q -> sm' ∈ q' ->
    sm_task sm = sm_task sm' -> h = h';
  sk_waits t k : tasks w !! t = Some k -> t_waits k <> None -> exists h q sm,
    aget (queues w) h = Some q /\ sm ∈ q /\ sm_task sm = t;
  sk_task t k : tasks w !! t = Some k -> sig_wf (t_user k) /\ 0 <= t_sleep_sig k < 32
}.

Lemma NoDup_fmap_inj (q : list sleep_msg) a b : NoDup (sm_task <$> q) -> a ∈ q -> b ∈ q -> sm_task a = sm_task b -> a = b.
Proof.
  induction q as [|c q IH]; [by intros _ ?%not_elem_of_nil|]. cbn. intros [Hn Hd]%NoDup_cons Ha Hb E.
  apply elem_of_cons in Ha as [->|Ha], Hb as [->|Hb]; try done.
  - destruct Hn. rewrite E. by apply list_elem_of_fmap_2.
  - destruct Hn. rewrite <- E. by apply list_elem_of_fmap_2.
  - by apply IH.
Qed.

(** A task has one message in all queues. *)
Lemma msg_unique w h h' q q' sm sm' : sleep_ok w ->
  aget (queues w) h = Some q -> aget (queues w) h' = Some q' -> sm ∈ q -> sm' ∈ q' -> sm_task sm = sm_task sm' -> sm = sm'.
Proof.
  intros H Hq Hq' Hs Hs' E. assert (h = h') as -> by by eapply (sk_unique _ H h h' q q').
  assert (q' = q) as -> by congruence. eapply NoDup_fmap_inj; [by eapply (sk_once _ H)|done..].
Qed.

(** [t] is in [tsleep] on [chan]. *)
Definition asleep (w : sleepworld) (t chan : Z) : Prop :=
  exists q sm, aget (queues w) (ix_hash chan) = Some q /\ sm ∈ q /\ sm_task sm = t /\ sm_waitchan sm = chan.

Lemma asleep_task w t chan : sleep_ok w -> asleep w t chan ->
  exists k, tasks w !! t = Some k /\ t_waits k = Some (wait_mask k) /\ p_stat (t_user k) = SSLEEP /\
    p_wchan (t_user k) = wchan_of k chan.
Proof.
  intros H (q & sm & Hq & Hs & <- & <-). destruct (sk_msg _ H _ _ _ Hq Hs) as [_ _ (k & Hk & _ & ? & ? & ?)]. by exists k.
Qed.

(** All but the signals received is as for [evolves]. *)
Definition keeps (w w' : sleepworld) : Prop :=
  queues w' = queues w /\ forall t, option_Forall2 (fun k k' => t_self k' = t_self k /\ t_sleep_sig k' = t_sleep_sig k /\
    t_waits k' = t_waits k /\ user_upd (t_user k) (t_user k')) (tasks w !! t) (tasks w' !! t).

Lemma evolves_keeps w w' : evolves w w' -> keeps w w'.
Proof.
  intros [Hq H]. split; [done|]. intros t. specialize (H t).
  destruct (tasks w !! t), (tasks w' !! t); inversion H as [? ? []|]; subst; by constructor.
Qed.

Lemma keeps_ok w w' : keeps w w' -> sleep_ok w -> sleep_ok w'.
Proof.
  intros [Hq He] H. split; rewrite ?Hq; try by apply H.
  - intros h q sm Hh Hs. destruct (sk_msg _ H _ _ _ Hh Hs) as [H1 H2 (k & Hk & E1 & E2 & E3 & E4)].
    split; try done. specialize (He (sm_task sm)). rewrite Hk in He. inversion He as [? k' (U1 & U2 & U3 & [_ U5]) Hk' Hk2|]; subst.
    destruct (U5 E3) as [U6 U7]. exists k'. split; [done|]. split; [congruence|].
    split; [rewrite U3, E2; unfold wait_mask; by rewrite U2|]. split; [done|].
    rewrite U7, E4. unfold Sleep.wchan_of. by rewrite U1.
  - intros t k' Hk' Hw. specialize (He t). rewrite Hk' in He. inversion He as [k ? (_ & _ & U3 & _) Hk|]; subst.
    rewrite U3 in Hw. destruct (sk_waits _ H t k) as (h & q & sm & ?); [done|done|]. by exists h, q, sm.
  - intros t k' Hk'. specialize (He t). rewrite Hk' in He. inversion He as [k ? (_ & U2 & _ & [U5 _]) Hk|]; subst.
    destruct (sk_task _ H t k); [done|]. rewrite U2. auto.
Qed.

Lemma evolves_ok w w' : evolves w w' -> sleep_ok w -> sleep_ok w'.
Proof. intros H%evolves_keeps. by apply keeps_ok. Qed.

Lemma evolves_asleep w w' t chan : evolves w w' -> asleep w t chan -> asleep w' t chan.
Proof. intros [Hq _] (q & sm & H & Hs). exists q, sm. by rewrite Hq. Qed.

Lemma upd_ready k k' : task_upd k k' -> ready k = true -> ready k' = true.
Proof.
  intros [_ _ U3 [r U4] _]. unfold ready. rewrite U3, U4. destruct (t_waits k); [|done]. apply bset_lor_l.
Qed.

(** ** tsleep *)

Lemma sig_wf_stat p v : sig_wf p -> sig_wf (set_p_stat p v).
Proof. intros [[] ]. by split. Qed.
Lemma sig_wf_wchan p v : sig_wf p -> sig_wf (set_p_wchan p v).
Proof. intros [[] ]. by split. Qed.

Lemma put_task_lookup w me k t : tasks (put_task w me k) !! t = if decide (t = me) then Some k else tasks w !! t.
Proof. cbn. case_decide; subst; [apply lookup_insert_eq|by apply lookup_insert_ne]. Qed.

(** Messages of other tasks are not touched by a change of [me]. *)
Lemma msg_ok_other w w' me h sm :
  msg_ok w h sm -> sm_task sm <> me -> (forall t, t <> me -> tasks w' !! t = tasks w !! t) -> msg_ok w' h sm.
Proof. intros [H1 H2 (k & Hk & Hm)] Hne Ho. split; [done|done|]. exists k. by rewrite Ho. Qed.

Lemma no_message w me k h q sm :
  sleep_ok w -> tasks w !! me = Some k -> t_waits k = None -> aget (queues w) h = Some q -> sm ∈ q -> sm_task sm <> me.
Proof.
  intros H Hk Hw Hq Hs E. destruct (sk_msg _ H _ _ _ Hq Hs) as [_ _ (k0 & Hk0 & _ & Hw0 & _)]. congruence.
Qed.

(** A task that does not wait changes. *)
Lemma put_running_ok w me k k' :
  sleep_ok w -> tasks w !! me = Some k -> t_waits k = None -> t_waits k' = None -> sig_wf (t_user k') ->
  0 <= t_sleep_sig k' < 32 -> sleep_ok (put_task w me k').
Proof.
  intros H Hk Hw Hw' Hwf Hss.
  assert (forall t, t <> me -> tasks (put_task w me k') !! t = tasks w !! t) as Ho.
  { intros t Hne. by rewrite put_task_lookup, decide_False by done. }
  split; try by apply H.
  - intros h q sm Hq Hs. eapply msg_ok_other; [by eapply (sk_msg _ H)|by eapply no_message|done].
  - intros t k0. rewrite put_task_lookup. case_decide; [intros [= <-]; by rewrite Hw'|apply H].
  - intros t k0. rewrite put_task_lookup. case_decide; [by intros [= <-]|apply H].
Qed.

(** A task enters a queue. *)
Lemma enqueue_ok w me k k' chan q :
  sleep_ok w -> tasks w !! me = Some k -> t_waits k = None -> aget (queues w) (ix_hash chan) = Some q -> is_u32 chan ->
  t_waits k' = Some (wait_mask k') -> p_stat (t_user k') = SSLEEP -> p_wchan (t_user k') = wchan_of k' chan ->
  sig_wf (t_user k') -> 0 <= t_sleep_sig k' < 32 ->
  let w' := put_task (set_queues w (aput (queues w) (ix_hash chan) (q ++ [mkMsg me (t_sleep_sig k') chan]))) me k' in
  sleep_ok w' /\ asleep w' me chan /\ forall t c, asleep w t c -> asleep w' t c.
Proof.
  intros H Hk Hw Hq Hc E1 E2 E3 Hwf Hss w'. set (sm := mkMsg me (t_sleep_sig k') chan).
  assert (forall j, aget (queues w') j = if ix_hash chan =? j then Some (q ++ [sm]) else aget (queues w) j) as Hget
    by (intros j; cbn [w' queues put_task set_tasks set_queues]; by apply (aget_aput _ _ _ _ q)).
  assert (forall t, tasks w' !! t = if decide (t = me) then Some k' else tasks w !! t) as Htask
    by (intros t; unfold w'; by rewrite put_task_lookup).
  assert (sm ∈ q ++ [sm]) as Hin by (apply elem_of_app; right; by apply list_elem_of_singleton).
  assert (forall h q' sm', aget (queues w') h = Some q' -> sm' ∈ q' ->
    (sm' = sm /\ h = ix_hash chan) \/ (sm_task sm' <> me /\ exists q0, aget (queues w) h = Some q0 /\ sm' ∈ q0)) as Hmsg.
  { intros h q' sm'. rewrite Hget. destruct (Z.eqb_spec (ix_hash chan) h) as [<-|].
    - intros [= <-] [Hs|Hs]%elem_of_app; [|left; by apply list_elem_of_singleton in Hs].
      right. split; [by eapply no_message|]. by exists q.
    - intros Hq' Hs. right. split; [by eapply no_message|]. by exists q'. }
  assert (forall h q0 s0, aget (queues w) h = Some q0 -> s0 ∈ q0 -> exists q1, aget (queues w') h = Some q1 /\ s0 ∈ q1) as Hkeep.
  { intros h q0 s0 Hq0 Hs0. rewrite Hget. destruct (Z.eqb_spec (ix_hash chan) h) as [<-|]; [|by exists q0].
    eexists. split; [done|]. apply elem_of_app. left. congruence. }
  assert (aget (queues w') (ix_hash chan) = Some (q ++ [sm])) as Hnew by by rewrite Hget, Z.eqb_refl.
  split; [|split; [by exists (q ++ [sm]), sm|]].
  - split.
    + cbn. rewrite aput_length. apply H.
    + intros h q' sm' Hq' Hs. destruct (Hmsg _ _ _ Hq' Hs) as [[-> ->]|(Hne & q0 & Hq0 & Hs0)].
      * split; [done|done|]. exists k'. by rewrite Htask, decide_True.
      * apply (msg_ok_other w _ me); [by eapply (sk_msg _ H)|done|]. intros. by rewrite Htask, decide_False.
    + intros h q'. rewrite Hget. destruct (Z.eqb_spec (ix_hash chan) h); [|apply H]. intros [= <-].
      rewrite fmap_app. apply NoDup_app. split; [by eapply (sk_once _ H)|]. split; [|apply NoDup_singleton].
      intros x (sm' & -> & Hs')%list_elem_of_fmap. cbn. intros E%list_elem_of_singleton. by eapply (no_message w me k).
    + intros h h' q1 q2 s1 s2 Hq1 Hq2 Hs1 Hs2 E.
      destruct (Hmsg _ _ _ Hq1 Hs1) as [[-> ->]|(Hn1 & q10 & Hq10 & Hs10)], (Hmsg _ _ _ Hq2 Hs2) as [[-> ->]|(Hn2 & q20 & Hq20 & Hs20)].
      * done.
      * destruct Hn2. by rewrite <- E.
      * destruct Hn1. by rewrite E.
      * by apply (sk_unique _ H h h' q10 q20 s1 s2).
    + intros t k0. rewrite Htask. case_decide as Ht; [subst t; intros _ _; by exists (ix_hash chan), (q ++ [sm]), sm|].
      intros Hk0 Hw0. destruct (sk_waits _ H t k0 Hk0 Hw0) as (h & q0 & s0 & Hq0 & Hs0 & E).
      destruct (Hkeep _ _ _ Hq0 Hs0) as (q1 & ? & ?). by exists h, q1, s0.
    + intros t k0. rewrite Htask. case_decide; [by intros [= <-]|apply H].
  - intros t c (q0 & s0 & Hq0 & Hs0 & Et & Ec). destruct (Hkeep _ _ _ Hq0 Hs0) as (q1 & ? & ?). by exists q1, s0.
Qed.

(** A task leaves its queue. *)
Lemma dequeue_ok w me chan k' q :
  sleep_ok w -> asleep w me chan -> aget (queues w) (ix_hash chan) = Some q ->
  t_waits k' = None -> sig_wf (t_user k') -> 0 <= t_sleep_sig k' < 32 ->
  let w' := put_task (set_queues w (aput (queues w) (ix_hash chan) (filter (fun sm => sm_task sm <> me) q))) me k' in
  sleep_ok w' /\ (forall t c, t <> me -> asleep w t c -> asleep w' t c) /\ forall c, ~ asleep w' me c.
Proof.
  intros H (q' & sm & Hq' & Hs & Et & Ec) Hq E1 Hwf Hss w'. assert (q' = q) as -> by congruence. clear Hq'.
  assert (forall j, aget (queues w') j = if ix_hash chan =? j then Some (filter (fun sm => sm_task sm <> me) q) else aget (queues w) j) as Hget
    by (intros j; cbn [w' queues put_task set_tasks set_queues]; by apply (aget_aput _ _ _ _ q)).
  assert (forall t, tasks w' !! t = if decide (t = me) then Some k' else tasks w !! t) as Htask
    by (intros t; unfold w'; by rewrite put_task_lookup).
  assert (forall h q1 s1, aget (queues w') h = Some q1 -> s1 ∈ q1 -> sm_task s1 <> me /\
    exists q0, aget (queues w) h = Some q0 /\ s1 ∈ q0) as Hmsg.
  { intros h q1 s1. rewrite Hget. destruct (Z.eqb_spec (ix_hash chan) h) as [<-|Hne].
    - intros [= <-] [Hn Hs1]%list_elem_of_filter. eauto.
    - intros Hq1 Hs1. split; [|by exists q1]. intros E. apply Hne.
      by apply (sk_unique _ H _ _ q q1 sm s1); [..|congruence]. }
  assert (forall h q0 s0, aget (queues w) h = Some q0 -> s0 ∈ q0 -> sm_task s0 <> me ->
    exists q1, aget (queues w') h = Some q1 /\ s0 ∈ q1) as Hkeep.
  { intros h q0 s0 Hq0 Hs0 Hne. rewrite Hget. destruct (Z.eqb_spec (ix_hash chan) h) as [<-|]; [|by exists q0].
    eexists. split; [done|]. apply list_elem_of_filter. split; [done|congruence]. }
  split; [|split].
  - split.
    + cbn. rewrite aput_length. apply H.
    + intros h q1 s1 Hq1 Hs1. destruct (Hmsg _ _ _ Hq1 Hs1) as (Hne & q0 & Hq0 & Hs0).
      apply (msg_ok_other w _ me); [by eapply (sk_msg _ H)|done|]. intros. by rewrite Htask, decide_False.
    + intros h q1. rewrite Hget. destruct (Z.eqb_spec (ix_hash chan) h); [|apply H]. intros [= <-].
      eapply sublist_NoDup; [by eapply (sk_once _ H)|]. apply fmap_sublist, sublist_filter.
    + intros h h' q1 q2 s1 s2 Hq1 Hq2 Hs1 Hs2 E.
      destruct (Hmsg _ _ _ Hq1 Hs1) as (_ & q10 & ? & ?), (Hmsg _ _ _ Hq2 Hs2) as (_ & q20 & ? & ?).
      by apply (sk_unique _ H h h' q10 q20 s1 s2).
    + intros t k0. rewrite Htask. case_decide as Ht; [intros [= <-]; by rewrite E1|].
      intros Hk0 Hw0. destruct (sk_waits _ H t k0 Hk0 Hw0) as (h & q0 & s0 & Hq0 & Hs0 & E).
      destruct (Hkeep _ _ _ Hq0 Hs0) as (q1 & ? & ?); [congruence|]. by exists h, q1, s0.
    + intros t k0. rewrite Htask. case_decide; [by intros [= <-]|apply H].
  - intros t c Hne (q0 & s0 & Hq0 & Hs0 & Ett & Ecc). destruct (Hkeep _ _ _ Hq0 Hs0) as (q1 & ? & ?); [congruence|]. by exists q1, s0.
  - intros c (q0 & s0 & Hq0 & Hs0 & Ett & _). by destruct (Hmsg _ _ _ Hq0 Hs0) as [? _].
Qed.

Lemma tsleep_begin_spec sr me chan w k :
  sleep_ok w -> tasks w !! me = Some k -> t_waits k = None ->
  exists r w', tsleep_begin select_addr sr me chan w = Ret r w' /\ sleep_ok w' /\
    ((r = Some (-1) /\ queues w' = queues w) \/ (r = None /\ asleep w' me (u32 chan))) /\
    (forall t c, asleep w t c -> asleep w' t c) /\ forall t, t <> me -> tasks w' !! t = tasks w !! t.
Proof.
  intros H Hk Hw. unfold tsleep_begin. rewrite Hk. destruct (sk_task _ H _ _ Hk) as [Hwf Hss].
  destruct (cursig_wf sr [] (t_user k) Hwf) as (r & ps & -> & Hwf1 & _).
  destruct (Z.eqb_spec r 0) as [->|Hr]; cbn [negb].
  - pose proof (ix_hash_range (u32 chan)) as Hh. pose proof (sk_len _ H) as Hlen.
    destruct (aget_is_Some (queues w) (ix_hash (u32 chan))) as [q Hq]; [lia|]. rewrite Hq.
    set (k' := set_t_waits _ _).
    destruct (enqueue_ok w me k k' (u32 chan) q H Hk Hw Hq (u32_range _)) as (H1 & H2 & H3); try done.
    { by apply sig_wf_wchan, sig_wf_stat. }
    eexists _, _. split; [done|]. split_and!; [done|by right|done|].
    intros t Hne. apply (lookup_insert_ne (tasks w)). by apply not_eq_sym.
  - eexists _, _. split; [done|]. split_and!; [|by left|done|].
    + eapply put_running_ok; try done. by apply wf_errno.
    + intros t Hne. by rewrite put_task_lookup, decide_False by done.
Qed.

Lemma tsleep_begin_user sr me chan w k r w' :
  sleep_ok w -> tasks w !! me = Some k -> tsleep_begin select_addr sr me chan w = Ret r w' -> t_waits k = None ->
  exists k', tasks w' !! me = Some k' /\ t_recvd k' = t_recvd k /\ t_sleep_sig k' = t_sleep_sig k.
Proof.
  intros H Hk. unfold tsleep_begin. rewrite Hk. destruct (sk_task _ H _ _ Hk) as [Hwf _].
  destruct (cursig_wf sr [] (t_user k) Hwf) as (r0 & ps & -> & _).
  destruct (negb (r0 =? 0)); [intros [_ <-]%Ret_inj _; eexists; split; [apply lookup_insert_eq|done]|].
  destruct (aget _ _); [|done]. intros [_ <-]%Ret_inj _. eexists. split; [apply lookup_insert_eq|done].
Qed.

(** What is left when a task comes back from [Wait]: [res], the signals that had
    arrived, is cleared again after CTRL-C has been passed on. *)
Lemma tsleep_end_spec sr fuel ext pgrp me chan w k r w' :
  sleep_ok w -> asleep w me (u32 chan) -> tasks w !! me = Some k ->
  tsleep_end sr fuel ext pgrp me chan w = Ret r w' ->
  sleep_ok w' /\ (forall c, ~ asleep w' me c) /\ (r = 0 \/ r = -1) /\
  (exists k', tasks w' !! me = Some k' /\ t_waits k' = None /\ p_stat (t_user k') = SRUN /\ p_wchan (t_user k') = WNone) /\
  (forall t c, t <> me -> asleep w t c -> asleep w' t c) /\
  forall t kt, t <> me -> tasks w !! t = Some kt -> exists kt', tasks w' !! t = Some kt' /\ task_upd kt kt'.
Proof.
  intros H Has Hk. unfold tsleep_end. rewrite Hk.
  destruct (asleep_task _ _ _ H Has) as (k1 & Hk1 & Hw & _). assert (k1 = k) as -> by congruence. rewrite Hw.
  set (res := Z.land _ _). set (w0 := put_task w me _).
  assert (keeps w w0) as K0.
  { split; [done|]. intros t. unfold w0. rewrite put_task_lookup. case_decide as Ht; [subst; rewrite Hk; by constructor|].
    by destruct (tasks w !! t); constructor. }
  intros E. apply obind_Ret_inv in E as ([] & w1 & E1 & E).
  assert (evolves w0 w1) as Hev.
  { destruct (_ && _); [|by apply Ret_inj in E1 as [_ <-]]. eapply (psignalgrp_tasks_spec _ _ _ SIGINT); [apply H|unfold SIGINT; lia|done]. }
  pose proof (keeps_ok _ _ K0 H) as H0. pose proof (evolves_ok _ _ Hev H0) as H1.
  assert (asleep w0 me (u32 chan)) as Has0 by exact Has.
  pose proof (evolves_asleep _ _ _ _ Hev Has0) as Has1.
  destruct (tasks w1 !! me) as [k1|] eqn:Hk1'; [|done]. destruct (sk_task _ H1 _ _ Hk1') as [Hwf1 Hss1]. cbn [t_user set_t_recvd] in E.
  destruct (cursig_wf sr [] (t_user k1) Hwf1) as (r0 & ps & Ec & Hwf2 & _). rewrite Ec in E.
  destruct (aget (queues w1) (ix_hash (u32 chan))) as [q|] eqn:Hq; [|done]. apply Ret_inj in E as [<- <-].
  set (p := if _ =? 0 then _ else _). set (k' := set_t_waits _ None).
  assert (sig_wf p /\ p_stat p = SRUN /\ p_wchan p = WNone) as (Hpw & Hps & Hpc).
  { assert (sig_wf (set_p_stat (set_p_wchan (set_p_sig (t_user k1) ps) WNone) SRUN)) as Hb by by apply sig_wf_stat, sig_wf_wchan.
    unfold p. destruct (r0 =? 0); cbn [Z.eqb]; split_and!; try done. by apply wf_errno. }
  destruct (dequeue_ok w1 me (u32 chan) k' q H1 Has1 Hq) as (D1 & D2 & D3); try done.
  split_and!; [done|done|destruct (r0 =? 0); auto| | |].
  - exists k'. split; [apply lookup_insert_eq|done].
  - intros t c Hne Hc. apply D2; [done|]. by eapply evolves_asleep.
  - intros t kt Hne Ht. assert (tasks w0 !! t = Some kt) as Ht0 by (unfold w0; by rewrite put_task_lookup, decide_False).
    destruct (evolves_get _ _ _ _ Hev Ht0) as (kt' & Ht' & U). exists kt'. split; [|done].
    rewrite put_task_lookup, decide_False by done. done.
Qed.
End Inv.
