(* ===== verification/SleepTheorems.v ===== *)
(** * Sleeping, waking up and mutexes: theorems

    The invariant of the sleep queues over every run of the tasks, what a wake-up
    does and that it is not lost, and what the library's mutexes do to the signal
    mask. *)

From S2P Require Import Prelude Signals SignalsIssig SignalsInv SignalsTheorems Sleep SleepInv.
Import Sig Sleep.

(** ** Runs

    The steps of the tasks and of interrupts; the label is the task that goes
    to sleep or comes back. *)
Inductive sleep_step (select_addr : Z) : option Z -> sleepworld -> sleepworld -> Prop :=
| step_begin sr me chan w k r w' :
    tasks w !! me = Some k -> t_waits k = None -> tsleep_begin select_addr sr me chan w = Ret r w' ->
    sleep_step select_addr (Some me) w w'
| step_end sr fuel ext pgrp me chan w k r w' :
    asleep w me (u32 chan) -> tasks w !! me = Some k -> ready k = true ->
    tsleep_end sr fuel ext pgrp me chan w = Ret r w' ->
    sleep_step select_addr (Some me) w w'
| step_wakeup chan w w' :
    ix_wakeup chan w = Ret tt w' -> sleep_step select_addr None w w'
| step_psignal ext t sig w k w' :
    tasks w !! t = Some k -> 1 <= sig <= 32 -> psignal_task ext t sig w = Ret tt w' ->
    sleep_step select_addr None w w'.

(** Steps that are not those of [me] in [tsleep]. *)
Definition step_of_others select_addr (me : Z) (w w' : sleepworld) : Prop :=
  exists a, a <> Some me /\ sleep_step select_addr a w w'.

Definition any_sleep_step select_addr (w w' : sleepworld) : Prop := exists a, sleep_step select_addr a w w'.

(** What a step leaves to a sleeping task other than its actor. *)
Lemma sleep_step_spec select_addr a w w' :
  sleep_ok select_addr w -> sleep_step select_addr a w w' ->
  sleep_ok select_addr w' /\
  forall t c, a <> Some t -> asleep w t c ->
    asleep w' t c /\ forall k, tasks w !! t = Some k -> exists k', tasks w' !! t = Some k' /\ task_upd k k'.
Proof.
  intros H Hs. destruct Hs as [sr me chan w k r w' Hk Hw E|sr fuel ext pgrp me chan w k r w' Has Hk Hr E|chan w w' E|ext t sig w k w' Hk Hsig E].
  - destruct (tsleep_begin_spec select_addr sr me chan w k H Hk Hw) as (r1 & w1 & E1 & H1 & _ & Hkeep & Ho).
    rewrite E1 in E. apply Ret_inj in E as [_ <-]. split; [done|]. intros t c Ha Has. split; [by apply Hkeep|].
    intros k0 Hk0. exists k0. rewrite Ho by (intros ->; by apply Ha). by split.
  - destruct (tsleep_end_spec select_addr sr fuel ext pgrp me chan w k r w' H Has Hk E) as (H1 & _ & _ & _ & Hkeep & Ho).
    split; [done|]. intros t c Ha Hast. assert (t <> me) by (intros ->; by apply Ha). split; [by apply Hkeep|].
    intros k0 Hk0. by apply Ho.
  - destruct (ix_wakeup_spec chan w (sk_len _ _ H)) as (l & w1 & _ & E1 & Hs & _). rewrite E1 in E. apply Ret_inj in E as [_ <-].
    pose proof (signalled_evolves _ _ Hs) as Hev. split; [by eapply evolves_ok|]. intros t c _ Has.
    split; [by eapply evolves_asleep|]. intros k. by apply evolves_get.
  - destruct (psignal_task_spec ext t sig w k (sk_len _ _ H) Hk Hsig) as (w1 & E1 & Hev). rewrite E1 in E. apply Ret_inj in E as [_ <-].
    split; [by eapply evolves_ok|]. intros t0 c _ Has. split; [by eapply evolves_asleep|]. intros k0. by apply evolves_get.
Qed.

Lemma others_keep_ready select_addr me c w w' :
  rtc (step_of_others select_addr me) w w' -> sleep_ok select_addr w -> asleep w me c ->
  (exists k, tasks w !! me = Some k /\ ready k = true) ->
  sleep_ok select_addr w' /\ asleep w' me c /\ exists k', tasks w' !! me = Some k' /\ ready k' = true.
Proof.
  induction 1 as [|w w1 w2 (a & Ha & Hs) _ IH]; [done|]. intros H Has (k & Hk & Hr).
  destruct (sleep_step_spec _ _ _ _ H Hs) as [H1 Ho]. destruct (Ho me c Ha Has) as [Has1 Hu].
  destruct (Hu k Hk) as (k1 & Hk1 & U). apply IH; [done|done|]. exists k1. split; [done|]. by eapply upd_ready.
Qed.

(** ** The sleep queues *)

(** No task sleeps and the 31 queues are empty. *)
Definition sleep_init (ts : gmap Z task) : sleepworld := mkSleep (replicate (Z.to_nat IX_NUM_SLEEP_QUEUES) []) ts.

Definition awake_tasks (ts : gmap Z task) : Prop :=
  forall t k, ts !! t = Some k -> t_waits k = None /\ sig_wf (t_user k) /\ 0 <= t_sleep_sig k < 32.

Lemma sleep_init_ok select_addr ts : awake_tasks ts -> sleep_ok select_addr (sleep_init ts).
Proof.
  intros Ha. assert (forall h q, aget (queues (sleep_init ts)) h = Some q -> q = []) as He.
  { intros h q. unfold aget, sleep_init. cbn. case_match; [|done].
    by intros [-> _]%lookup_replicate. }
  split; [exact (length_replicate _ _)| | | | |].
  - intros h q sm ->%He Hs. by apply not_elem_of_nil in Hs.
  - intros h q ->%He. constructor.
  - intros h h' q q' sm sm' ->%He _ Hs. by apply not_elem_of_nil in Hs.
  - intros t k Hk Hw. by destruct (Ha t k Hk).
  - intros t k Hk. by destruct (Ha t k Hk).
Qed.

(** In every state that going to sleep, coming back, wake-ups and signals lead to
    from empty sleep queues, each message of a queue is that of one task, which
    waits in [tsleep] for its sleep signal or CTRL-C with SSLEEP and the
    message's channel, is in the queue its channel hashes to and in no other;
    and a task that waits has its message in a queue. *)
Theorem sleep_queues_invariant select_addr ts w :
  awake_tasks ts -> rtc (any_sleep_step select_addr) (sleep_init ts) w -> sleep_ok select_addr w.
Proof.
  intros Ha%(sleep_init_ok select_addr) Hr. induction Hr as [|w1 w2 w3 (a & Hs) _ IH]; [done|].
  apply IH. by destruct (sleep_step_spec _ _ _ _ Ha Hs).
Qed.

Lemma sleeps_on_spec w chan t l : aget (queues w) (ix_hash chan) = Some l -> sleeps_on chan t l = true <-> asleep w t chan.
Proof.
  intros Hl. unfold sleeps_on. rewrite existsb_exists. split.
  - intros (sm & Hs%list_elem_of_In & [E1%Z.eqb_eq E2%Z.eqb_eq]%andb_true_iff). by exists l, sm.
  - intros (q & sm & Hq & Hs & E1 & E2). assert (q = l) as -> by congruence. exists sm. split; [by apply list_elem_of_In|].
    apply andb_true_iff. split; by apply Z.eqb_eq.
Qed.

Lemma ready_after_signal k : t_waits k = Some (wait_mask k) -> 0 <= t_sleep_sig k < 32 ->
  ready (set_t_recvd k (Z.lor (t_recvd k) (Z.shiftl 1 (t_sleep_sig k)))) = true.
Proof.
  intros E Hs. unfold ready. cbn. rewrite E. unfold bset, wait_mask. apply negb_true_iff, Z.eqb_neq. intros E0.
  assert (Z.testbit 0 (t_sleep_sig k) = true) as HH; [|by rewrite Z.bits_0 in HH].
  assert (Z.testbit (Z.shiftl 1 (t_sleep_sig k)) (t_sleep_sig k) = true) as Hb
    by (rewrite Z.shiftl_spec, Z.sub_diag by lia; done).
  rewrite <- E0, Z.land_spec, !Z.lor_spec, Hb. by rewrite orb_true_r.
Qed.

(** What a wake-up does to each task. *)
Lemma ix_wakeup_tasks select_addr chan w : sleep_ok select_addr w ->
  exists w', ix_wakeup chan w = Ret tt w' /\ queues w' = queues w /\ sleep_ok select_addr w' /\
  forall t k, tasks w !! t = Some k ->
    (asleep w t chan -> exists k', tasks w' !! t = Some k' /\ ready k' = true /\
       k' = set_t_recvd k (Z.lor (t_recvd k) (Z.shiftl 1 (t_sleep_sig k)))) /\
    (~ asleep w t chan -> tasks w' !! t = Some k).
Proof.
  intros H. destruct (ix_wakeup_spec chan w (sk_len _ _ H)) as (l & w' & Hl & E & Hs & Ht).
  exists w'. split; [done|]. split; [apply Hs|]. split; [eapply evolves_ok; [by apply signalled_evolves|done]|].
  intros t k Hk. assert (forall sm, sm ∈ l -> sm_task sm = t -> sm_signal sm = t_sleep_sig k) as Hsig.
  { intros sm Hsm <-. destruct (sk_msg _ _ H _ _ _ Hl Hsm) as [_ _ (k0 & Hk0 & E0 & _)]. congruence. }
  rewrite Ht, (wakeup_loop_lookup chan l (t_sleep_sig k) t (tasks w) Hsig), Hk. cbn [fmap option_fmap option_map].
  pose proof (sleeps_on_spec w chan t l Hl) as Hso. split.
  - intros Has. pose proof (proj2 Hso Has) as ->. eexists. split; [done|]. split; [|done].
    destruct (asleep_task _ _ _ _ H Has) as (k0 & Hk0 & Hw & _). apply ready_after_signal; [congruence|].
    by apply (sk_task _ _ H t k).
  - intros Hna. destruct (sleeps_on chan t l); [|done]. by destruct Hna; apply Hso.
Qed.

(** [ix_wakeup] returns; each task that sleeps on the channel has then received
    its sleep signal and can come back from [Wait]; every other task, those of
    the same hash queue included, is as it was, and so are the queues. *)
Theorem wakeup_reaches_all select_addr chan w :
  sleep_ok select_addr w ->
  exists w', ix_wakeup chan w = Ret tt w' /\ queues w' = queues w /\
  forall t k, tasks w !! t = Some k ->
    (asleep w t chan -> exists k', tasks w' !! t = Some k' /\ ready k' = true /\
       k' = set_t_recvd k (Z.lor (t_recvd k) (Z.shiftl 1 (t_sleep_sig k)))) /\
    (~ asleep w t chan -> tasks w' !! t = Some k).
Proof. intros H. destruct (ix_wakeup_tasks _ chan w H) as (w' & E & Eq & _ & Ht). by exists w'. Qed.

(** [tsleep_end] returns when CTRL-C has not arrived. *)
Lemma tsleep_end_returns select_addr sr fuel ext pgrp me chan w k :
  sleep_ok select_addr w -> asleep w me (u32 chan) -> tasks w !! me = Some k -> bset (t_recvd k) SIGBREAKF_CTRL_C = false ->
  exists r w', tsleep_end sr fuel ext pgrp me chan w = Ret r w'.
Proof.
  intros H Has Hk Hc. unfold tsleep_end. rewrite Hk. destruct (asleep_task _ _ _ _ H Has) as (k0 & Hk0 & Hw & _).
  assert (k0 = k) as -> by congruence. rewrite Hw.
  assert (bset (Z.land (t_recvd k) (wait_mask k)) SIGBREAKF_CTRL_C = false) as Hres.
  { unfold bset in *. apply negb_false_iff, Z.eqb_eq in Hc. apply negb_false_iff, Z.eqb_eq.
    by rewrite <- Z.land_assoc, (Z.land_comm (wait_mask k)), Z.land_assoc, Hc, Z.land_0_l. }
  rewrite Hres, andb_false_r. cbn [obind].
  rewrite put_task_lookup, decide_True by done. destruct (sk_task _ _ H _ _ Hk) as [Hwf _].
  destruct (cursig_wf sr [] (t_user k) Hwf) as (r0 & ps & E & _). cbn [t_user set_t_recvd]. rewrite E.
  destruct (aget_is_Some (queues w) (ix_hash (u32 chan))) as [q Hq].
  { pose proof (ix_hash_range (u32 chan)). rewrite (sk_len _ _ H). lia. }
  cbn [queues put_task set_tasks]. rewrite Hq. by eexists _, _.
Qed.

(** C40. A wake-up is not lost, for tasks that are not traced: whatever the other
    tasks, interrupts and signals do after it, before the sleeper runs again, the sleeper
    is still in its queue and Wait can return; when it runs and CTRL-C has not arrived as
    well, [tsleep] returns 0 or -1, and the task runs and is in no queue.  (With CTRL-C
    it sends SIGINT to its process group first.) *)
Theorem no_lost_wakeup select_addr sr fuel ext pgrp me chan w w1 w2 :
  sleep_ok select_addr w -> asleep w me (u32 chan) -> ix_wakeup (u32 chan) w = Ret tt w1 ->
  rtc (step_of_others select_addr me) w1 w2 ->
  asleep w2 me (u32 chan) /\
  exists k2, tasks w2 !! me = Some k2 /\ ready k2 = true /\
  (bset (t_recvd k2) SIGBREAKF_CTRL_C = false ->
   exists r w3 k3, tsleep_end sr fuel ext pgrp me chan w2 = Ret r w3 /\ (r = 0 \/ r = -1) /\
     tasks w3 !! me = Some k3 /\ t_waits k3 = None /\ p_stat (t_user k3) = SRUN /\ forall c, ~ asleep w3 me c).
Proof.
  intros H Has E Hr. destruct (ix_wakeup_tasks _ (u32 chan) w H) as (w1' & E' & Eq & H1 & Ht).
  rewrite E' in E. apply Ret_inj in E as [_ <-]. destruct (asleep_task _ _ _ _ H Has) as (k & Hk & _).
  destruct (Ht me k Hk) as [(k1 & Hk1 & Hrd & _) _]; [done|].
  assert (asleep w1' me (u32 chan)) as Has1 by (destruct Has as (q & sm & Hq & Hs); exists q, sm; by rewrite Eq).
  destruct (others_keep_ready _ _ _ _ _ Hr H1 Has1) as (H2 & Has2 & k2 & Hk2 & Hrd2); [by exists k1|].
  split; [done|]. exists k2. split; [done|]. split; [done|]. intros Hc.
  destruct (tsleep_end_returns _ sr fuel ext pgrp me chan w2 k2 H2 Has2 Hk2 Hc) as (r & w3 & E3).
  destruct (tsleep_end_spec _ _ _ _ _ _ _ _ _ _ _ H2 Has2 Hk2 E3) as (_ & Hn & Hrr & (k3 & ? & ? & ? & _) & _).
  by exists r, w3, k3.
Qed.

(** ** Samples *)

Definition sample_task (self sig : Z) : task := mkTask proc_init self sig 0 None.
Definition two_tasks : gmap Z task := <[1 := sample_task 100 4]> {[2 := sample_task 200 5]}.

Lemma sample_task_awake self sig : 0 <= sig < 32 ->
  t_waits (sample_task self sig) = None /\ sig_wf (t_user (sample_task self sig)) /\ 0 <= t_sleep_sig (sample_task self sig) < 32.
Proof. intros H. split; [done|]. split; [apply proc_init_wf|done]. Qed.

Lemma two_tasks_awake : awake_tasks two_tasks.
Proof.
  intros t k. unfold two_tasks. destruct (decide (t = 1)) as [->|Hne].
  - rewrite lookup_insert_eq. intros [= <-]. by apply sample_task_awake.
  - rewrite lookup_insert_ne by done. intros [<- <-]%lookup_singleton_Some. by apply sample_task_awake.
Qed.

(** Task 1 sleeps on 0x1234. *)
Definition one_sleeps : sleepworld :=
  match tsleep_begin 7 false 1 0x1234 (sleep_init two_tasks) with Ret _ w => w | _ => sleep_init ∅ end.
Definition one_sleeps_q : list sleep_msg := [mkMsg 1 4 0x1234].

Lemma one_sleeps_step : any_sleep_step 7 (sleep_init two_tasks) one_sleeps.
Proof.
  exists (Some 1). apply (step_begin 7 false 1 0x1234 _ (sample_task 100 4) None); [reflexivity|reflexivity|].
  unfold one_sleeps. destruct (tsleep_begin 7 false 1 0x1234 (sleep_init two_tasks)) as [r w|?|?| |] eqn:E; [|vm_compute in E; discriminate E..].
  enough (r = None) as -> by done.
  assert (match tsleep_begin 7 false 1 0x1234 (sleep_init two_tasks) with Ret None _ => true | _ => false end = true) as Hb by (vm_compute; reflexivity).
  rewrite E in Hb. by destruct r.
Qed.

Lemma one_sleeps_ok : sleep_ok 7 one_sleeps.
Proof. destruct one_sleeps_step as (a & Hs). eapply sleep_step_spec, Hs. apply sleep_init_ok, two_tasks_awake. Qed.

Lemma one_asleep : asleep one_sleeps 1 (u32 0x1234).
Proof.
  exists one_sleeps_q, (mkMsg 1 4 0x1234). split; [vm_compute; reflexivity|]. split; [left|]. split; reflexivity.
Qed.

Lemma sleep_queues_invariant_witness : sleep_ok 7 one_sleeps.
Proof. apply (sleep_queues_invariant 7 two_tasks); [apply two_tasks_awake|]. apply rtc_once, one_sleeps_step. Defined.

Definition woken : sleepworld := match ix_wakeup (u32 0x1234) one_sleeps with Ret _ w => w | _ => one_sleeps end.

Lemma woken_eq : ix_wakeup (u32 0x1234) one_sleeps = Ret tt woken.
Proof.
  destruct (ix_wakeup_spec (u32 0x1234) one_sleeps (sk_len _ _ one_sleeps_ok)) as (l & w & _ & E & _).
  unfold woken. by rewrite E.
Qed.

Lemma wakeup_reaches_all_witness : exists w', ix_wakeup 0x1234 one_sleeps = Ret tt w' /\ queues w' = queues one_sleeps /\
  forall t k, tasks one_sleeps !! t = Some k ->
    (asleep one_sleeps t 0x1234 -> exists k', tasks w' !! t = Some k' /\ ready k' = true /\
       k' = set_t_recvd k (Z.lor (t_recvd k) (Z.shiftl 1 (t_sleep_sig k)))) /\
    (~ asleep one_sleeps t 0x1234 -> tasks w' !! t = Some k).
Proof. apply (wakeup_reaches_all 7 0x1234 one_sleeps one_sleeps_ok). Defined.

(** After the wake-up another task goes to sleep on the same channel. *)
Lemma two_begins_step : exists w2, step_of_others 7 1 woken w2.
Proof.
  destruct (ix_wakeup_tasks 7 (u32 0x1234) one_sleeps one_sleeps_ok) as (w & E & _ & Hok & _).
  assert (w = woken) as -> by (rewrite woken_eq in E; by apply Ret_inj in E as [_ ->]).
  assert (tasks woken !! 2 = Some (sample_task 200 5)) as Hk by (vm_compute; reflexivity).
  destruct (tsleep_begin_spec 7 false 2 0x1234 woken _ Hok Hk eq_refl) as (r & w2 & E2 & _).
  exists w2, (Some 2). split; [done|]. by eapply step_begin.
Qed.

Lemma no_lost_wakeup_witness : exists w2, asleep w2 1 (u32 0x1234) /\
  exists k2, tasks w2 !! 1 = Some k2 /\ ready k2 = true /\
  (bset (t_recvd k2) SIGBREAKF_CTRL_C = false ->
   exists r w3 k3, tsleep_end false 10 (fun _ => true) 1 1 0x1234 w2 = Ret r w3 /\ (r = 0 \/ r = -1) /\
     tasks w3 !! 1 = Some k3 /\ t_waits k3 = None /\ p_stat (t_user k3) = SRUN /\ forall c, ~ asleep w3 1 c).
Proof.
  destruct two_begins_step as (w2 & Hs). exists w2.
  exact (no_lost_wakeup 7 false 10 (fun _ => true) 1 1 0x1234 one_sleeps woken w2 one_sleeps_ok one_asleep woken_eq (rtc_once _ _ Hs)).
Defined.

(** ** Mutexes *)

Definition ALL_SIGNALS : Z := 2 ^ 32 - 1.

(** A mutex of static storage, not initialized. *)
Definition mutex0 : mutex := mkMutex false 0 (mkSema None 0).
Definition mutex_at (ms : gmap Z mutex) i : mutex := default mutex0 (ms !! i).
(** The semaphore as the next call sees it. *)
Definition sem_at (ms : gmap Z mutex) i : semaphore := sem (init (mutex_at ms i)).

Inductive mutex_op := Lock (i : Z) | Unlock (i : Z).

(** The calls of task [t], on its signal mask; [None]: it waits for good. *)
Fixpoint run_mutexes (t : Z) (l : list mutex_op) (ms : gmap Z mutex) (mask : Z) : option (gmap Z mutex * Z) :=
  match l with
  | [] => Some (ms, mask)
  | Lock i :: l =>
    match ix_mutex_lock t mask (mutex_at ms i) with
    | Some (m, mask) => run_mutexes t l (<[i := m]> ms) mask
    | None => None
    end
  | Unlock i :: l => let (m, mask) := ix_mutex_unlock mask (mutex_at ms i) in run_mutexes t l (<[i := m]> ms) mask
  end.

(** Each lock is undone by a later unlock, the last one taken first. *)
Inductive nested : list mutex_op -> Prop :=
| nested_nil : nested []
| nested_lock i body l : nested body -> nested l -> nested (Lock i :: body ++ Unlock i :: l).

Lemma run_mutexes_app t l1 l2 : forall ms mask,
  run_mutexes t (l1 ++ l2) ms mask =
  match run_mutexes t l1 ms mask with Some (ms, mask) => run_mutexes t l2 ms mask | None => None end.
Proof.
  induction l1 as [|[i|i] l1 IH]; intros ms mask; cbn [run_mutexes app]; [done| |].
  - destruct (ix_mutex_lock t mask (mutex_at ms i)) as [[m k]|]; [apply IH|done].
  - destruct (ix_mutex_unlock mask (mutex_at ms i)). apply IH.
Qed.

(** [t] holds [i], or nobody does. *)
Definition mine_or_free (t : Z) (s : semaphore) : Prop :=
  (ss_Owner s = None /\ ss_NestCount s = 0) \/ (ss_Owner s = Some t /\ 0 < ss_NestCount s).

(** The state of the mutexes while [t] runs and the others do not: the mask is
    full while a mutex is held. *)
Record mutexes_ok (t : Z) (ms : gmap Z mutex) (mask : Z) : Prop := {
  mx_mine i : mine_or_free t (sem_at ms i);
  mx_mask i : 0 < ss_NestCount (sem_at ms i) -> mask = ALL_SIGNALS
}.

(** The semaphores are the same, and so is the mask saved in those held. *)
Definition same_mutexes (ms ms' : gmap Z mutex) : Prop :=
  forall i, sem_at ms' i = sem_at ms i /\
    (0 < ss_NestCount (sem_at ms i) -> oldmask (mutex_at ms' i) = oldmask (mutex_at ms i)).

#[export] Instance same_mutexes_preorder : PreOrder same_mutexes.
Proof.
  split; [by intros ms i|]. intros a b c H1 H2 i. destruct (H1 i) as [E1 O1], (H2 i) as [E2 O2].
  split; [congruence|]. intros Hn. rewrite O2, O1; [done..|]. by rewrite E1.
Qed.

Lemma same_mutexes_ok t ms ms' mask : same_mutexes ms ms' -> mutexes_ok t ms mask -> mutexes_ok t ms' mask.
Proof. intros Hs [H1 H2]. split; intros i; destruct (Hs i) as [-> _]; [apply H1|apply H2]. Qed.

Lemma mutex_at_insert ms i m j : mutex_at (<[i := m]> ms) j = if decide (j = i) then m else mutex_at ms j.
Proof. unfold mutex_at. case_decide; subst; [by rewrite lookup_insert_eq|by rewrite lookup_insert_ne]. Qed.

Lemma sem_at_insert ms i m j : initialized m = true -> sem_at (<[i := m]> ms) j = if decide (j = i) then sem m else sem_at ms j.
Proof. intros H. unfold sem_at. rewrite mutex_at_insert. case_decide; [|done]. unfold init. by rewrite H. Qed.

(** The semaphore after one more lock. *)
Definition taken (t : Z) (s : semaphore) : semaphore := mkSema (Some t) (ss_NestCount s + 1).

Lemma obtain_mine t s : mine_or_free t s -> obtain t s = Some (taken t s).
Proof.
  intros [[Ho Hn]|[Ho Hn]]; unfold obtain, taken; rewrite Ho; [by rewrite Hn|by rewrite Z.eqb_refl].
Qed.

Lemma release_taken t s : mine_or_free t s -> release (taken t s) = s.
Proof.
  destruct s as [o n]. intros [[Ho Hn]|[Ho Hn]]; cbn in *; subst; [done|]. unfold release, taken. cbn.
  destruct (Z.eqb_spec (n + 1) 1); [lia|]. f_equal. lia.
Qed.

Lemma mutex_lock_spec t ms mask i : mutexes_ok t ms mask ->
  exists m, ix_mutex_lock t mask (mutex_at ms i) = Some (m, ALL_SIGNALS) /\ initialized m = true /\
    sem m = taken t (sem_at ms i) /\ mutexes_ok t (<[i := m]> ms) ALL_SIGNALS /\
    oldmask m = if ss_NestCount (sem_at ms i) =? 0 then mask else oldmask (mutex_at ms i).
Proof.
  intros [H1 H2]. unfold ix_mutex_lock. fold (sem_at ms i). rewrite (obtain_mine _ _ (H1 i)).
  eexists. split; [done|]. split; [done|]. split; [done|]. split.
  - split; [|done]. intros j. rewrite sem_at_insert by done. case_decide; [|apply H1]. right. cbn. split; [done|].
    destruct (H1 i) as [[_ ->]|[_ ?]]; lia.
  - cbn. replace (ss_NestCount (sem_at ms i) + 1 =? 1) with (ss_NestCount (sem_at ms i) =? 0)
      by (destruct (Z.eqb_spec (ss_NestCount (sem_at ms i)) 0), (Z.eqb_spec (ss_NestCount (sem_at ms i) + 1) 1); lia).
    destruct (_ =? 0); [done|]. unfold init. by destruct (initialized (mutex_at ms i)).
Qed.

Lemma mutex_unlock_spec t ms i s : sem_at ms i = taken t s -> mine_or_free t s ->
  exists m, ix_mutex_unlock ALL_SIGNALS (mutex_at ms i) =
      (m, if ss_NestCount s =? 0 then oldmask (mutex_at ms i) else ALL_SIGNALS) /\
    initialized m = true /\ sem m = s /\ oldmask m = oldmask (mutex_at ms i).
Proof.
  intros E Hs. unfold ix_mutex_unlock. fold (sem_at ms i). rewrite E.
  assert (oldmask (init (mutex_at ms i)) = oldmask (mutex_at ms i)) as -> by (unfold init; by destruct (initialized (mutex_at ms i))).
  assert (negb (ss_NestCount (taken t s) =? 0) = true) as ->
    by (destruct Hs as [[_ Hn]|[_ Hn]]; cbn; rewrite ?Hn; [done|]; destruct (Z.eqb_spec (ss_NestCount s + 1) 0); [lia|done]).
  eexists. split; [f_equal|split; [done|split; [by apply release_taken|done]]].
  destruct (Z.eqb_spec (ss_NestCount (taken t s)) 1), (Z.eqb_spec (ss_NestCount s) 0); cbn in *; try done; lia.
Qed.

(** Properly nested critical sections, of any depth and with the same mutex
    locked again, return without waiting while no other task holds a mutex, and
    leave the signal mask and the mutexes as they were. *)
Theorem nested_locks_restore (t : Z) (l : list mutex_op) (ms : gmap Z mutex) (mask : Z) :
  nested l -> mutexes_ok t ms mask ->
  exists ms', run_mutexes t l ms mask = Some (ms', mask) /\ same_mutexes ms ms'.
Proof.
  intros Hl. revert ms mask. induction Hl as [|i body l _ IHb _ IHl]; intros ms mask H; [by exists ms|].
  cbn [run_mutexes]. destruct (mutex_lock_spec t ms mask i H) as (m & -> & Hi & Hsem & H1 & Hold).
  rewrite run_mutexes_app. destruct (IHb _ _ H1) as (ms2 & -> & Hs2).
  assert (sem_at ms2 i = taken t (sem_at ms i)) as E2.
  { destruct (Hs2 i) as [-> _]. by rewrite sem_at_insert, decide_True. }
  cbn [run_mutexes]. destruct (mutex_unlock_spec t ms2 i _ E2 (mx_mine _ _ _ H i)) as (m3 & -> & Hi3 & Hsem3 & Hold3).
  assert (oldmask (mutex_at ms2 i) = oldmask m) as Eo.
  { destruct (Hs2 i) as [_ ->]; [by rewrite mutex_at_insert, decide_True|]. rewrite sem_at_insert, decide_True, Hsem by done.
    cbn. destruct (mx_mine _ _ _ H i) as [[_ ->]|[_ ?]]; lia. }
  assert ((if ss_NestCount (sem_at ms i) =? 0 then oldmask (mutex_at ms2 i) else ALL_SIGNALS) = mask) as ->.
  { rewrite Eo, Hold. destruct (Z.eqb_spec (ss_NestCount (sem_at ms i)) 0); [done|]. symmetry. apply (mx_mask _ _ _ H i).
    destruct (mx_mine _ _ _ H i) as [[_ ?]|[_ ?]]; lia. }
  assert (same_mutexes ms (<[i := m3]> ms2)) as Hs3.
  { intros j. rewrite sem_at_insert, mutex_at_insert by done. case_decide as Hj; [subst j|].
    - split; [done|]. intros Hn. rewrite Hold3, Eo, Hold. destruct (Z.eqb_spec (ss_NestCount (sem_at ms i)) 0); [lia|done].
    - destruct (Hs2 j) as [E O]. rewrite sem_at_insert, decide_False in E, O by done.
      rewrite mutex_at_insert, decide_False in O by done. by split. }
  destruct (IHl (<[i := m3]> ms2) mask) as (ms4 & E4 & Hs4); [by eapply same_mutexes_ok|].
  exists ms4. split; [done|]. by etrans.
Qed.

Lemma no_mutex_ok t mask : mutexes_ok t ∅ mask.
Proof.
  assert (forall i, sem_at ∅ i = mkSema None 0) as E by (intros i; unfold sem_at, mutex_at; by rewrite lookup_empty).
  split; intros i; rewrite E; [by left|intros H; by discriminate H].
Qed.

Definition nested_sample : list mutex_op := [Lock 1; Lock 2; Lock 1; Unlock 1; Unlock 2; Unlock 1].

Lemma nested_locks_restore_witness :
  exists ms', run_mutexes 5 nested_sample ∅ 6 = Some (ms', 6) /\ same_mutexes ∅ ms'.
Proof.
  apply nested_locks_restore.
  - apply (nested_lock 1 [Lock 2; Lock 1; Unlock 1; Unlock 2] []); [|constructor].
    apply (nested_lock 2 [Lock 1; Unlock 1] []); [|constructor]. apply (nested_lock 1 [] []); constructor.
  - apply no_mutex_ok.
Defined.

(** Two mutexes unlocked in the order they were locked: the signals of the
    task's own mask are unblocked while the second mutex is still held, and all
    signals stay blocked at the end. *)
Theorem crossed_unlock_blocks_all (t mask a b : Z) :
  a <> b ->
  (exists ms1, run_mutexes t [Lock a; Lock b; Unlock a] ∅ mask = Some (ms1, mask) /\ ss_Owner (sem_at ms1 b) = Some t) /\
  exists ms2, run_mutexes t [Lock a; Lock b; Unlock a; Unlock b] ∅ mask = Some (ms2, ALL_SIGNALS) /\
    forall i, ss_Owner (sem_at ms2 i) = None.
Proof.
  intros Hab.
  assert (forall i, mutex_at ∅ i = mutex0) as E0 by (intros i; unfold mutex_at; by rewrite lookup_empty).
  cbn. rewrite E0. cbn. rewrite mutex_at_insert, decide_False, E0 by congruence. cbn.
  rewrite !mutex_at_insert, !(decide_False (P := a = b)), !(decide_False (P := b = a)), !(decide_True (P := b = b)),
    !(decide_True (P := a = a)) by congruence. cbn.
  split; eexists; (split; [done|]).
  - unfold sem_at. by rewrite !mutex_at_insert, (decide_False (P := b = a)), decide_True by congruence.
  - intros i. unfold sem_at. rewrite !mutex_at_insert. repeat case_decide; done.
Qed.

Lemma crossed_unlock_blocks_all_witness :
  (exists ms1, run_mutexes 5 [Lock 1; Lock 2; Unlock 1] ∅ 6 = Some (ms1, 6) /\ ss_Owner (sem_at ms1 2) = Some 5) /\ exists ms2, run_mutexes 5 [Lock 1; Lock 2; Unlock 1; Unlock 2] ∅ 6 = Some (ms2, ALL_SIGNALS) /\ forall i, ss_Owner (sem_at ms2 i) = None.
Proof. apply crossed_unlock_blocks_all. discriminate. Defined.
