(* ===== verification/Proc.v ===== *)
(** * Processes: the process tree, exit and wait

    Models the part of library/vfork.c that keeps the process tree (the links a
    child sets up in [launcher], [send_death_msg], [proc_reparent], [wait4]),
    the same part of library/ix_open_68k.c and library/ix_close_68k.c,
    PT_TRACE_ME, PT_ATTACH, PT_DETACH and PT_KILL of library/ptrace.c, and the
    calls on process groups and sessions of library/misc.c.  A process is its
    task address, 0 is NULL and 1 stands for init; its struct user is that of
    [Signals] with the fields this part adds.  Forbid makes each definition one
    step; where the code sleeps the step ends.  Wake-ups and the reply to a
    parent in vfork are appended to a log; what [ix_sleep] does besides is in
    [Sleep]. *)

From S2P Require Import Prelude Signals Timers.
Import Sig.

Module Proc.

Definition SFREEA4 : Z := 0x100.
Definition SZOMB : Z := 5.
Definition WNOHANG : Z := 1.
Definition WUNTRACED : Z := 2.
Definition ECHILD : Z := 10.
Definition ENOMEM : Z := 12.
Definition ESRCH : Z := 3.
Definition EPERM : Z := 1.
Definition W_STOPCODE (sig : Z) : Z := Z.lor (Z.shiftl sig 8) 0x7f.

(** ** Data *)

(** [dm_addr]: the address of the message. *)
Record death_msg := mkDM { dm_addr : Z; dm_child : Z; dm_pgrp : Z; dm_status : Z; dm_rusage : Timers.rusage }.
Record session := mkSession { s_count : Z; s_pgrp : Z }.

Record proc := mkProc {
  pu : user; p_opptr : Z; p_ysptr : Z; p_vfork_msg : Z; u_session : Z;
  p_ru : Timers.rusage; p_cru : Timers.rusage; p_zombies : list death_msg
}.

(** The channels [ix_wakeup] is called on. *)
Inductive event := EWakeUser (t : Z) | EWakeTask (t : Z) | EWakeMsg (dm : Z) | EReply (vm : Z).

Record ptree := mkTree { ps : gmap Z proc; sessions : gmap Z session; log : list event }.

Definition set_pu (k : proc) v : proc := mkProc v (p_opptr k) (p_ysptr k) (p_vfork_msg k) (u_session k) (p_ru k) (p_cru k) (p_zombies k).
Definition set_p_opptr (k : proc) v : proc := mkProc (pu k) v (p_ysptr k) (p_vfork_msg k) (u_session k) (p_ru k) (p_cru k) (p_zombies k).
Definition set_p_ysptr (k : proc) v : proc := mkProc (pu k) (p_opptr k) v (p_vfork_msg k) (u_session k) (p_ru k) (p_cru k) (p_zombies k).
Definition set_u_session (k : proc) v : proc := mkProc (pu k) (p_opptr k) (p_ysptr k) (p_vfork_msg k) v (p_ru k) (p_cru k) (p_zombies k).
Definition set_p_zombies (k : proc) v : proc := mkProc (pu k) (p_opptr k) (p_ysptr k) (p_vfork_msg k) (u_session k) (p_ru k) (p_cru k) v.

(** The links of a struct user, and its process group. *)
Definition set_links (p : user) (pgrp pptr cptr osptr : Z) : user :=
  mkUser (u_signal p) (u_sigmask p) (u_sigonstack p) (u_sigintr p) (u_oldmask p) (u_sigsp p) (u_onstack p)
    (u_sig p) (u_code p) (p_flag p) (p_stat p) (p_xstat p) (p_sig p) (p_sigmask p) (p_sigignore p)
    (p_sigcatch p) (p_wchan p) (u_mask_state p) (ru_nsignals p) (u_errno p) pgrp pptr cptr osptr
    (frames p) (os_calls p).
Definition set_p_pgrp (k : proc) v : proc := set_pu k (set_links (pu k) v (p_pptr (pu k)) (p_cptr (pu k)) (p_osptr (pu k))).
Definition set_p_pptr (k : proc) v : proc := set_pu k (set_links (pu k) (p_pgrp (pu k)) v (p_cptr (pu k)) (p_osptr (pu k))).
Definition set_p_cptr (k : proc) v : proc := set_pu k (set_links (pu k) (p_pgrp (pu k)) (p_pptr (pu k)) v (p_osptr (pu k))).
Definition set_p_osptr (k : proc) v : proc := set_pu k (set_links (pu k) (p_pgrp (pu k)) (p_pptr (pu k)) (p_cptr (pu k)) v).
Definition set_wchan (p : user) v : user :=
  mkUser (u_signal p) (u_sigmask p) (u_sigonstack p) (u_sigintr p) (u_oldmask p) (u_sigsp p) (u_onstack p)
    (u_sig p) (u_code p) (p_flag p) (p_stat p) (p_xstat p) (p_sig p) (p_sigmask p) (p_sigignore p)
    (p_sigcatch p) v (u_mask_state p) (ru_nsignals p) (u_errno p) (p_pgrp p) (p_pptr p) (p_cptr p) (p_osptr p)
    (frames p) (os_calls p).

Definition set_ps (w : ptree) v : ptree := mkTree v (sessions w) (log w).
Definition set_sessions (w : ptree) v : ptree := mkTree (ps w) v (log w).
Definition emit (w : ptree) (e : event) : ptree := mkTree (ps w) (sessions w) (log w ++ [e]).
Definition put (w : ptree) (t : Z) (k : proc) : ptree := set_ps w (<[t := k]> (ps w)).

(** A store through the pointer to a struct user. *)
Definition upd (t : Z) (f : proc -> proc) (w : ptree) : outcome ptree () :=
  let? k := ps w !! t in Ret tt (put w t (f k)).

(** A store behind a test of the pointer. *)
Definition upd_if (t : Z) (f : proc -> proc) (w : ptree) : outcome ptree () :=
  if t =? 0 then Ret tt w else upd t f w.

Definition upd_user (t : Z) (f : user -> user) : ptree -> outcome ptree () := upd t (fun k => set_pu k (f (pu k))).

(** [psignal] and [setrun] on a process; [ext t] is as in [Signals]. *)
Definition psignal_proc (ext : Z -> bool) (t sig : Z) : ptree -> outcome ptree () := upd_user t (psignal (ext t) sig).

Definition fail (me e : Z) (w : ptree) : outcome ptree Z :=
  let* (_u, w) := upd_user me (fun p => set_u_errno p e) w in Ret (-1) w.

(** The processes as [Signals] sees them. *)
Definition users (me : Z) (w : ptree) : world := mkWorld (pu <$> ps w) me [].
Definition find_task (e : exec) (me pid : Z) (w : ptree) : Z := pfind e (users me w) pid.

(** ** A process opens the library (ix_open)

    The structure has been cleared and [siginit] has run. *)
Definition no_rusage : Timers.rusage := Timers.mkRu (Timers.mkTv 0 0) (Timers.mkTv 0 0) 0 (replicate 14 0).

Definition user_zero : user :=
  mkUser (replicate 33 0) (replicate 33 0) 0 0 0 0 0 0 0 0 0 0 0 0 0 0 WNone 0 0 0 0 0 0 0 [] [].

Definition new_proc (me : Z) : proc :=
  mkProc (set_links (siginit user_zero) me 1 0 0) 0 0 0 0 no_rusage no_rusage [].

Definition ix_open (me : Z) (w : ptree) : ptree := put w me (new_proc me).

(** ** A child of vfork links itself to its parent (launcher)

    [inherit]: the part of struct user that is copied from the parent (the
    signal actions, masks and pending signals, the state). *)
Definition inherit (pk mu : user) : user :=
  mkUser (u_signal pk) (u_sigmask pk) (u_sigonstack pk) (u_sigintr pk) (u_oldmask pk) (u_sigsp pk) (u_onstack pk)
    (u_sig pk) (u_code pk) (bclr (p_flag pk) (Z.lor SFREEA4 STRC)) (p_stat pk) 0 (p_sig pk) (p_sigmask pk) (p_sigignore pk)
    (p_sigcatch pk) (p_wchan pk) (u_mask_state mu) 0 (u_errno pk) (p_pgrp mu) (p_pptr mu) (p_cptr mu)
    (p_osptr mu) (frames mu) (os_calls mu).

Definition session_add (s : Z) (w : ptree) : outcome ptree () :=
  if s =? 0 then Ret tt w
  else let? se := sessions w !! s in Ret tt (set_sessions w (<[s := mkSession (s_count se + 1) (s_pgrp se)]> (sessions w))).

Definition launch (me parent vm : Z) (w : ptree) : outcome ptree () :=
  let? pk := ps w !! parent in
  let* (_u, w) := upd me (fun k => set_p_osptr k (p_cptr (pu pk))) w in
  let* (_u, w) := upd me (fun k => set_p_ysptr k 0) w in
  let* (_u, w) := upd_if (p_cptr (pu pk)) (fun k => set_p_ysptr k me) w in
  let* (_u, w) := upd parent (fun k => set_p_cptr k me) w in
  let* (_u, w) := upd me (fun k => set_u_session k (u_session pk)) w in
  let* (_u, w) := session_add (u_session pk) w in
  let* (_u, w) := upd me (fun k => set_p_pgrp k (p_pgrp (pu pk))) w in
  let* (_u, w) := upd me (fun k => set_p_pptr k parent) w in
  let? pk := ps w !! parent in
  upd me (fun k => mkProc (inherit (pu pk) (pu k)) (p_opptr k) (p_ysptr k) vm (u_session k) no_rusage no_rusage (p_zombies k)) w.

(** ** ix_sleep, as far as the struct user goes

    The result of [sleep_begin]: does the task sleep?  It does not when a signal
    is pending; then [tsleep] has returned -1 at once. *)
Definition sleep_begin (sr : bool) (me : Z) (chan : wchan) (w : ptree) : outcome ptree bool :=
  let? k := ps w !! me in
  match CURSIG sr [] (pu k) with
  | Ret (r, _) p =>
    if negb (r =? 0) then Ret false (put w me (set_pu k (set_u_errno p EINTR)))
    else Ret true (put w me (set_pu k (set_wchan (set_p_stat p SSLEEP) chan)))
  | Asleep p => Asleep (put w me (set_pu k p))
  | Panic m => Panic m
  | Fault => Fault
  | Diverge => Diverge
  end.

Definition sleep_end (sr : bool) (me : Z) (w : ptree) : outcome ptree () :=
  let? k := ps w !! me in
  match CURSIG sr [] (pu k) with
  | Ret (r, _) p =>
    let p := set_p_stat (set_wchan p WNone) SRUN in
    Ret tt (put w me (set_pu k (if r =? 0 then p else set_u_errno p EINTR)))
  | Asleep p => Asleep (put w me (set_pu k p))
  | Panic m => Panic m
  | Fault => Fault
  | Diverge => Diverge
  end.

(** ** send_death_msg

    [dm]: the address kmalloc returns, or 0.  The result is that of
    [sleep_begin], false when the process does not sleep. *)
Definition death_of (dm me : Z) (mu : proc) : death_msg :=
  mkDM dm me (p_pgrp (pu mu)) (p_xstat (pu mu)) (Timers.ruadd (p_ru mu) (p_cru mu)).

Definition send_death_msg (sr : bool) (ext : Z -> bool) (dm me : Z) (w : ptree) : outcome ptree bool :=
  let? mu := ps w !! me in
  let parent := p_pptr (pu mu) in
  let* (_u, w) := (if dm =? 0 then Ret tt w
                   else upd parent (fun k => set_p_zombies k (p_zombies k ++ [death_of dm me mu])) w) in
  let* (_u, w) := psignal_proc ext parent SIGCHLD w in
  let? pk := ps w !! parent in
  let w := match p_wchan (pu pk) with WSelf => if p_stat (pu pk) =? SSLEEP then emit w (EWakeUser parent) else w | _ => w end in
  let w := if p_vfork_msg mu =? 0 then w else emit w (EReply (p_vfork_msg mu)) in
  if dm =? 0 then Ret false w else sleep_begin sr me (WOther dm) w.

(** ** proc_reparent *)

Definition proc_reparent (child parent : Z) (w : ptree) : outcome ptree () :=
  let? cu := ps w !! child in
  let pptr := p_pptr (pu cu) in
  if pptr =? parent then Ret tt w
  else
    let o := p_osptr (pu cu) in
    let y := p_ysptr cu in
    let* (_u, w) := upd_if y (fun k => set_p_osptr k o) w in
    let* (_u, w) := upd_if o (fun k => set_p_ysptr k y) w in
    let* (_u, w) := (if (pptr =? 0) || (pptr =? 1) then Ret tt w
                     else upd pptr (fun k => if p_cptr (pu k) =? child then set_p_cptr k o else k) w) in
    if parent =? 1 then Ret tt w
    else
      let? pk := ps w !! parent in
      let o := p_cptr (pu pk) in
      let* (_u, w) := upd_if o (fun k => set_p_ysptr k child) w in
      let* (_u, w) := upd child (fun k => set_p_ysptr (set_p_osptr k o) 0) w in
      let* (_u, w) := upd parent (fun k => set_p_cptr k child) w in
      upd child (fun k => set_p_pptr k parent) w.

(** ** wait4 *)

Definition wants (pid mypgrp child pgrp : Z) : bool :=
  (pid =? -1) || ((pid =? 0) && (pgrp =? mypgrp)) || ((pid <? -1) && (pgrp =? - pid)) || (pid =? child).

Definition zombie_for (pid mypgrp : Z) (l : list death_msg) : option death_msg :=
  find (fun dm => wants pid mypgrp (dm_child dm) (dm_pgrp dm)) l.

Fixpoint possible_childs (fuel : nat) (pid mypgrp cptr : Z) (w : ptree) : outcome ptree bool :=
  if cptr =? 0 then Ret false w
  else
    match fuel with
    | O => Diverge
    | S fuel =>
      let? k := ps w !! cptr in
      if negb (p_stat (pu k) =? SZOMB) && wants pid mypgrp cptr (p_pgrp (pu k)) then Ret true w
      else possible_childs fuel pid mypgrp (p_osptr (pu k)) w
    end.

(** The traced children: the first one that has stopped, with its status. *)
Definition traced_match (pid mypgrp p pgrp : Z) : bool :=
  (pid =? -1) || (p =? pid) || (pgrp =? - pid) || ((pid =? 0) && (mypgrp =? pgrp)).

Fixpoint traced_child (fuel : nat) (pid options mypgrp p : Z) (w : ptree) : outcome ptree (option (Z * Z)) :=
  if p =? 0 then Ret None w
  else
    match fuel with
    | O => Diverge
    | S fuel =>
      let? k := ps w !! p in
      let u := pu k in
      if traced_match pid mypgrp p (p_pgrp u) && (p_stat u =? SSTOP) && negb (bset (p_flag u) SWTED)
         && (bset (p_flag u) STRC || bset options WUNTRACED)
      then Ret (Some (p, W_STOPCODE (p_xstat u))) (put w p (set_pu k (set_p_flag u (bor (p_flag u) SWTED))))
      else traced_child fuel pid options mypgrp (p_osptr u) w
    end.

(** [WRet r status rusage]: wait4 returns [r], what it stored is given;
    [WSleep]: this round ends in [ix_sleep]. *)
Inductive wait_result := WRet (r : Z) (status : option Z) (ru : option Timers.rusage) | WSleep.

Definition fuel_of (w : ptree) : nat := S (size (ps w)).

(** The message is taken out of the list and freed. *)
Definition reap (me : Z) (dm : death_msg) (w : ptree) : outcome ptree wait_result :=
  let* (_u, w) := upd me (fun k => set_p_zombies k (filter (fun d => dm_addr d <> dm_addr dm) (p_zombies k))) w in
  let* (_u, w) := upd_user (dm_child dm) (fun p => set_p_stat p SZOMB) w in
  Ret (WRet (dm_child dm) (Some (dm_status dm)) (Some (dm_rusage dm))) (emit w (EWakeMsg (dm_addr dm))).

(** A dead child that was attached is given back to its old parent [t]. *)
Definition give_back (ext : Z -> bool) (child t : Z) (w : ptree) : outcome ptree wait_result :=
  let* (_u, w) := proc_reparent child t w in
  let* (_u, w) := upd child (fun k => set_p_opptr k 0) w in
  let* (_u, w) := psignal_proc ext t SIGCHLD w in
  Ret (WRet child None None) (emit w (EWakeTask t)).

(** No child has died: a traced child that has stopped, or why there is nothing
    to wait for. *)
Definition wait_living (me pid options : Z) (w : ptree) : outcome ptree wait_result :=
  let? k := ps w !! me in
  let* (b, w) := possible_childs (fuel_of w) pid (p_pgrp (pu k)) (p_cptr (pu k)) w in
  let* (r, w) := traced_child (fuel_of w) pid options (p_pgrp (pu k)) (p_cptr (pu k)) w in
  match r with
  | Some (p, st) => Ret (WRet p (Some st) None) w
  | None =>
    if negb b then let* (r, w) := fail me ECHILD w in Ret (WRet r None None) w
    else if bset options WNOHANG then Ret (WRet 0 None None) w
    else Ret WSleep w
  end.

Definition wait4_round (e : exec) (ext : Z -> bool) (me pid options : Z) (w : ptree) : outcome ptree wait_result :=
  let? k := ps w !! me in
  match zombie_for pid (p_pgrp (pu k)) (p_zombies k) with
  | Some dm =>
    let? cu := ps w !! dm_child dm in
    let t := if p_opptr cu =? 0 then 0 else find_task e me (p_opptr cu) w in
    if t =? 0 then reap me dm w else give_back ext (dm_child dm) t w
  | None => wait_living me pid options w
  end.

(** After the sleep: a signal that can be delivered makes the task switch. *)
Definition wait4_resume (sr : bool) (ext : Z -> bool) (me : Z) (w : ptree) : outcome ptree () :=
  let? k := ps w !! me in
  match CURSIG sr [] (pu k) with
  | Ret (r, _) p => Ret tt (put w me (set_pu k (if r =? 0 then p else setrun (ext me) p)))
  | Asleep p => Asleep (put w me (set_pu k p))
  | Panic m => Panic m
  | Fault => Fault
  | Diverge => Diverge
  end.

(** The schedule is what the rest of the system does each time wait4 has found
    nothing. *)
Fixpoint wait4 (sched : list (ptree -> ptree)) (e : exec) (sr : bool) (ext : Z -> bool) (me pid options : Z) (w : ptree)
  : outcome ptree wait_result :=
  let* (r, w) := wait4_round e ext me pid options w in
  match r with
  | WRet _ _ _ => Ret r w
  | WSleep =>
    let* (b, w) := sleep_begin sr me WSelf w in
    match sched with
    | [] => Asleep w
    | f :: sched =>
      let* (_u, w) := (if b : bool then sleep_end sr me (f w) else Ret tt (f w)) in
      let* (_u, w) := wait4_resume sr ext me w in
      wait4 sched e sr ext me pid options w
    end
  end.

(** ** ix_close *)

Fixpoint orphan_loop (fuel : nat) (child : Z) (w : ptree) : outcome ptree () :=
  if child =? 0 then Ret tt w
  else
    match fuel with
    | O => Diverge
    | S fuel =>
      let? cu := ps w !! child in
      orphan_loop fuel (p_osptr (pu cu)) (put w child (set_p_pptr cu 1))
    end.

Definition session_leave (me s : Z) (w : ptree) : outcome ptree () :=
  if s =? 0 then Ret tt w
  else
    let? se := sessions w !! s in
    let pg := if s_pgrp se =? me then 0 else s_pgrp se in
    if s_count se <=? 1 then Ret tt (set_sessions w (delete s (sessions w)))
    else Ret tt (set_sessions w (<[s := mkSession (s_count se - 1) pg]> (sessions w))).

Fixpoint free_zombies (l : list death_msg) (w : ptree) : ptree :=
  match l with
  | [] => w
  | dm :: l => free_zombies l (emit w (EWakeMsg (dm_addr dm)))
  end.

Definition ix_close (me : Z) (w : ptree) : outcome ptree () :=
  let? k := ps w !! me in
  let* (_u, w) := orphan_loop (fuel_of w) (p_cptr (pu k)) w in
  let* (_u, w) := upd me (fun k => set_p_cptr k 0) w in
  let* (_u, w) := session_leave me (u_session k) w in
  let? k := ps w !! me in
  let* (_u, w) := upd_if (p_ysptr k) (fun y => set_p_osptr y (p_osptr (pu k))) w in
  let* (_u, w) := upd_if (p_osptr (pu k)) (fun o => set_p_ysptr o (p_ysptr k)) w in
  let* (_u, w) :=
    (if (p_pptr (pu k) =? 0) || (p_pptr (pu k) =? 1) then Ret tt w
     else upd (p_pptr (pu k)) (fun p => if p_cptr (pu p) =? me then set_p_cptr p (p_osptr (pu k)) else p) w) in
  let? k := ps w !! me in
  let w := free_zombies (p_zombies k) w in
  Ret tt (set_ps w (delete me (ps w))).

(** ** ptrace *)

Definition pt_trace_me (me : Z) (w : ptree) : outcome ptree Z :=
  let* (_u, w) := upd_user me (fun p => set_p_flag p (bor (p_flag p) STRC)) w in Ret 0 w.

Definition pt_attach (e : exec) (ext : Z -> bool) (me pid : Z) (w : ptree) : outcome ptree Z :=
  let task := if pid =? 0 then 0 else find_task e me pid w in
  if task =? 0 then fail me ESRCH w
  else
    let? t := ps w !! task in
    if task =? me then fail me EPERM w
    else if bset (p_flag (pu t)) STRC then fail me EPERM w
    else
      let* (_u, w) := upd_user task (fun p => set_p_xstat (set_p_flag p (bor (p_flag p) STRC)) 0) w in
      let* (_u, w) := (if p_pptr (pu t) =? me then Ret tt w
                       else let* (_u, w) := upd task (fun k => set_p_opptr k (p_pptr (pu k))) w in
                            proc_reparent task me w) in
      let* (_u, w) := psignal_proc ext task SIGSTOP w in
      Ret 0 w.

(** May [me] act on its traced child [task]?  The result is the error. *)
Definition pt_allowed (me task : Z) (w : ptree) : option Z :=
  match ps w !! task with
  | None => Some ESRCH
  | Some t =>
    if negb (bset (p_flag (pu t)) STRC) || negb (p_pptr (pu t) =? me)
       || negb (p_stat (pu t) =? SSTOP) || negb (bset (p_flag (pu t)) SWTED)
    then Some EPERM else None
  end.

(** The end of several requests: [data] is the signal to go on with. *)
Definition pt_sendsig (ext : Z -> bool) (task data : Z) (w : ptree) : outcome ptree Z :=
  let* (_u, w) := upd_user task (fun p => setrun (ext task) (set_p_xstat p data)) w in Ret 0 w.

Definition pt_detach (e : exec) (ext : Z -> bool) (me task data : Z) (w : ptree) : outcome ptree Z :=
  match pt_allowed me task w with
  | Some err => fail me err w
  | None =>
    let* (_u, w) := upd_user task (fun p => set_p_flag p (bclr (p_flag p) STRC)) w in
    let? t := ps w !! task in
    let* (_u, w) :=
      (if negb (p_opptr t =? p_pptr (pu t)) && negb (p_opptr t =? 0) && negb (find_task e me (p_opptr t) w =? 0)
       then proc_reparent task (p_opptr t) w else Ret tt w) in
    let* (_u, w) := upd task (fun k => set_p_opptr k 0) w in
    let* (_u, w) := upd_user task (fun p => set_p_flag p (bclr (p_flag p) SWTED)) w in
    let? t := ps w !! task in
    if p_stat (pu t) =? SSTOP then pt_sendsig ext task data w
    else if negb (data =? 0) then let* (_u, w) := psignal_proc ext task data w in Ret 0 w
    else Ret 0 w
  end.

Definition pt_kill (ext : Z -> bool) (me task : Z) (w : ptree) : outcome ptree Z :=
  match pt_allowed me task w with
  | Some err => fail me err w
  | None =>
    let* (_u, w) := upd_user task (fun p => set_p_flag p (bclr (p_flag p) STRC)) w in
    pt_sendsig ext task SIGKILL w
  end.

(** ** Process groups and sessions *)

Definition getppid (me : Z) (w : ptree) : outcome ptree Z := let? k := ps w !! me in Ret (p_pptr (pu k)) w.
Definition getpgrp (me : Z) (w : ptree) : outcome ptree Z := let? k := ps w !! me in Ret (p_pgrp (pu k)) w.

Definition setpgid (me pid pgrp : Z) (w : ptree) : outcome ptree Z :=
  let* (_u, w) := upd (if pid =? 0 then me else pid) (fun k => set_p_pgrp k pgrp) w in Ret 0 w.

(** [s]: what kmalloc returns. *)
Definition setsid (s me : Z) (w : ptree) : outcome ptree Z :=
  let? k := ps w !! me in
  let old := u_session k in
  let? se := (if old =? 0 then Some (mkSession 2 0) else sessions w !! old) in
  if negb (old =? 0) && (s_count se <=? 1) then fail me EPERM w
  else if s =? 0 then fail me ENOMEM w
  else
    let w := if old =? 0 then w else set_sessions w (<[old := mkSession (s_count se - 1) (s_pgrp se)]> (sessions w)) in
    let w := set_sessions w (<[s := mkSession 1 me]> (sessions w)) in
    let* (_u, w) := upd me (fun k => set_p_pgrp (set_u_session k s) me) w in
    Ret me w.
End Proc.
