(* ===== verification/ProcTree.v ===== *)
(** * Processes: ancestors, descendants and signals to a group

    The parent, child and sibling links as a structure of their own, and the
    changes the calls make to them.  The chain of ancestors of each process ends at init; seen from above, the
    children and older siblings of a process form a finite tree, which the
    recursion of [sigprocessgrp] walks once. *)

From S2P Require Import Prelude Signals.
Import Sig.

Record link := mkLink { l_p : Z; l_c : Z; l_o : Z; l_y : Z }.
Definition set_l_p v (k : link) : link := mkLink v (l_c k) (l_o k) (l_y k).
Definition set_l_c v (k : link) : link := mkLink (l_p k) v (l_o k) (l_y k).
Definition set_l_o v (k : link) : link := mkLink (l_p k) (l_c k) v (l_y k).
Definition set_l_y v (k : link) : link := mkLink (l_p k) (l_c k) (l_o k) v.

Notation links := (gmap Z link).

(** ** One list

    The siblings [l], children of [par], between the younger sibling [y] and the
    older one [n]. *)
Fixpoint seg (L : links) (par y : Z) (l : list Z) (n : Z) : Prop :=
  match l with
  | [] => True
  | c :: l' => (exists k, L !! c = Some k /\ l_p k = par /\ l_y k = y /\ l_o k = hd n l') /\ seg L par c l' n
  end.

Lemma hd_app (n : Z) l1 l2 : hd n (l1 ++ l2) = hd (hd n l2) l1.
Proof. by destruct l1. Qed.

Lemma last_cons (y c : Z) l : List.last (c :: l) y = List.last l c.
Proof.
  revert c y. induction l as [|d l IH]; intros c y; [done|].
  change (List.last (d :: l) y = List.last (d :: l) c). by rewrite !IH.
Qed.

Lemma seg_app L par l1 l2 n : forall y,
  seg L par y (l1 ++ l2) n <-> seg L par y l1 (hd n l2) /\ seg L par (List.last l1 y) l2 n.
Proof.
  induction l1 as [|c l1 IH]; intros y; [cbn; tauto|].
  rewrite last_cons. cbn [seg app]. rewrite IH, hd_app. tauto.
Qed.

(** A change that keeps the three links of the members. *)
Lemma seg_ext (L L' : links) par l n : forall y,
  (forall c k, c ∈ l -> L !! c = Some k -> exists k', L' !! c = Some k' /\ l_p k' = l_p k /\ l_o k' = l_o k /\ l_y k' = l_y k) ->
  seg L par y l n -> seg L' par y l n.
Proof.
  induction l as [|c l IH]; intros y H; [done|]. intros [(k & Hk & E1 & E2 & E3) Hs]. split.
  - destruct (H c k) as (k' & Hk' & F1 & F2 & F3); [left|done|]. exists k'. split; [done|]. split_and!; congruence.
  - apply IH; [|done]. intros c' k' Hc. apply H. by right.
Qed.

Lemma seg_frame (L : links) f t par y l n : t ∉ l -> seg L par y l n -> seg (alter f t L) par y l n.
Proof.
  intros Ht. apply seg_ext. intros c k Hc Hk. exists k. rewrite lookup_alter_ne by congruence. done.
Qed.

Lemma seg_alter_keep (L : links) f t par y l n :
  (forall k, l_p (f k) = l_p k /\ l_o (f k) = l_o k /\ l_y (f k) = l_y k) ->
  seg L par y l n -> seg (alter f t L) par y l n.
Proof.
  intros Hf. apply seg_ext. intros c k Hc Hk. destruct (decide (c = t)) as [->|Hne].
  - exists (f k). rewrite lookup_alter_eq, Hk. split; [done|]. apply Hf.
  - exists k. by rewrite lookup_alter_ne by congruence.
Qed.

Lemma seg_set_o (L : links) par y l c n n' : NoDup (l ++ [c]) ->
  seg L par y (l ++ [c]) n -> seg (alter (set_l_o n') c L) par y (l ++ [c]) n'.
Proof.
  intros [_ [Hn _]]%NoDup_app. rewrite !seg_app. intros [H1 [(k & Hk & E1 & E2 & E3) _]]. cbn [hd]. split.
  - apply seg_frame; [|done]. intros Hc. apply (Hn c Hc). by apply list_elem_of_singleton.
  - split; [|done]. exists (set_l_o n' k). by rewrite lookup_alter_eq, Hk.
Qed.

Lemma seg_set_y (L : links) par y y' l c n : NoDup (c :: l) ->
  seg L par y (c :: l) n -> seg (alter (set_l_y y') c L) par y' (c :: l) n.
Proof.
  intros [Hn _]%NoDup_cons [(k & Hk & E1 & E2 & E3) Hs]. split.
  - exists (set_l_y y' k). by rewrite lookup_alter_eq, Hk.
  - by apply seg_frame.
Qed.

Lemma seg_elem L par l n c : forall y, seg L par y l n -> c ∈ l -> exists k, L !! c = Some k /\ l_p k = par.
Proof.
  induction l as [|d l IH]; intros y; [by intros _ ?%not_elem_of_nil|].
  intros [(k & Hk & E & _) Hs] [->|Hc]%elem_of_cons; [by exists k|by eapply IH].
Qed.

(** The two stores that take [c] out of a list, and one in front of it. *)
Definition unlink_sib (o y : Z) (L : links) : links := alter (set_l_y y) o (alter (set_l_o o) y L).

Lemma snoc_cases (l : list Z) : l = [] \/ exists l' x, l = l' ++ [x].
Proof. induction l as [|x l _] using rev_ind; [by left|right; by exists l, x]. Qed.

Lemma last_snoc (l : list Z) x d : List.last (l ++ [x]) d = x.
Proof. apply List.last_last. Qed.

Lemma seg_unlink (L : links) par l1 c l2 :
  NoDup (l1 ++ c :: l2) -> 0 ∉ l1 ++ c :: l2 -> seg L par 0 (l1 ++ c :: l2) 0 ->
  seg (unlink_sib (hd 0 l2) (List.last l1 0) L) par 0 (l1 ++ l2) 0.
Proof.
  intros Hnd H0 [H1 H2]%seg_app. cbn [hd] in H1. destruct H2 as [_ H2].
  apply NoDup_app in Hnd as (N1 & N12 & [Nc N2]%NoDup_cons).
  assert (0 ∉ l1 /\ 0 ∉ l2) as [Z1 Z2] by (rewrite elem_of_app, elem_of_cons in H0; tauto).
  unfold unlink_sib. apply seg_app. split.
  - apply seg_frame.
    { destruct l2 as [|d l2]; [done|]. cbn. intros Hd. apply (N12 d Hd). right. left. }
    destruct (snoc_cases l1) as [->|(l & x & ->)]; [done|]. rewrite last_snoc. by eapply seg_set_o.
  - destruct l2 as [|d l2]; [done|]. cbn [hd]. eapply (seg_set_y _ _ c); [done|]. apply seg_frame; [|done].
    destruct (snoc_cases l1) as [->|(l & x & ->)]; [done|]. rewrite last_snoc. intros Hx.
    apply (N12 x); [apply elem_of_app; right; by apply list_elem_of_singleton|by right].
Qed.

(** [c] and what is around it in a list. *)
Lemma seg_around L par l1 c l2 k : seg L par 0 (l1 ++ c :: l2) 0 -> L !! c = Some k ->
  l_o k = hd 0 l2 /\ l_y k = List.last l1 0.
Proof. intros [_ [(k' & Hk' & _ & E1 & E2) _]]%seg_app Hk. rewrite Hk in Hk'. injection Hk' as <-. done. Qed.

(** ** All lists

    [kids t]: the children of [t].  [orph]: the lists of those whose parent is
    init.  [x]: a process that is in no list at the moment. *)
Record forest (L : links) (kids : Z -> list Z) (orph : list (list Z)) (x : option Z) : Prop := {
  fo_id t k : L !! t = Some k -> 1 < t;
  fo_kids t k : L !! t = Some k -> l_c k = hd 0 (kids t) /\ seg L t 0 (kids t) 0 /\ NoDup (kids t);
  fo_orph l : l ∈ orph -> seg L 1 0 l 0;
  fo_once : NoDup (concat orph);
  fo_home c k : L !! c = Some k -> x <> Some c ->
    (l_p k = 1 /\ c ∈ concat orph) \/ (exists q, L !! l_p k = Some q /\ c ∈ kids (l_p k));
  fo_loose c : x = Some c -> c ∉ concat orph /\ forall t k, L !! t = Some k -> c ∉ kids t
}.

Definition forest_ok (L : links) (x : option Z) : Prop := exists kids orph, forest L kids orph x.

Lemma elem_of_concat (c : Z) ls : c ∈ concat ls <-> exists l, l ∈ ls /\ c ∈ l.
Proof.
  rewrite list_elem_of_In, in_concat. split; intros (l & H1 & H2); exists l; by rewrite !list_elem_of_In in *.
Qed.

Section Forest.
Context {L : links} {kids : Z -> list Z} {orph : list (list Z)} {x : option Z} (F : forest L kids orph x).

Lemma kid_parent t k c : L !! t = Some k -> c ∈ kids t -> exists kc, L !! c = Some kc /\ l_p kc = t.
Proof. intros Hk Hc. destruct (fo_kids _ _ _ _ F t k Hk) as (_ & Hs & _). by eapply seg_elem. Qed.

Lemma orphan_parent l c : l ∈ orph -> c ∈ l -> exists kc, L !! c = Some kc /\ l_p kc = 1.
Proof. intros Hl Hc. eapply seg_elem; [by apply (fo_orph _ _ _ _ F)|done]. Qed.

Lemma no_zero : L !! 0 = None.
Proof. destruct (L !! 0) as [k|] eqn:E; [|done]. pose proof (fo_id _ _ _ _ F _ _ E). lia. Qed.

Lemma zero_not_kid t k : L !! t = Some k -> 0 ∉ kids t.
Proof. intros Hk H0. destruct (kid_parent t k 0 Hk H0) as (kc & Hc & _). by rewrite no_zero in Hc. Qed.

Lemma zero_not_orphan l : l ∈ orph -> 0 ∉ l.
Proof. intros Hl H0. destruct (orphan_parent l 0 Hl H0) as (kc & Hc & _). by rewrite no_zero in Hc. Qed.

Lemma kids_disjoint t t' k k' c : L !! t = Some k -> L !! t' = Some k' -> t <> t' -> c ∈ kids t -> c ∉ kids t'.
Proof.
  intros Hk Hk' Hne Hc Hc'. destruct (kid_parent _ _ _ Hk Hc) as (kc & E & E1), (kid_parent _ _ _ Hk' Hc') as (kc' & E' & E2).
  congruence.
Qed.

Lemma kid_not_orphan t k l c : L !! t = Some k -> l ∈ orph -> c ∈ kids t -> c ∉ l.
Proof.
  intros Hk Hl Hc Hc'. destruct (kid_parent _ _ _ Hk Hc) as (kc & E & E1), (orphan_parent _ _ Hl Hc') as (kc' & E' & E2).
  pose proof (fo_id _ _ _ _ F _ _ Hk). assert (t = 1) by congruence. lia.
Qed.
End Forest.

(** The neighbours of [c] in its list, or 0. *)
Lemma around_in (l1 l2 : list Z) c v : v = hd 0 l2 \/ v = List.last l1 0 -> v = 0 \/ v ∈ l1 ++ c :: l2.
Proof.
  intros [->| ->].
  - destruct l2 as [|d l2]; [by left|right]. apply elem_of_app. right. right. left.
  - destruct (snoc_cases l1) as [->|(l & y & ->)]; [by left|right]. rewrite last_snoc.
    apply elem_of_app. left. apply elem_of_app. right. by apply list_elem_of_singleton.
Qed.

(** The stores around [c] leave the lists alone that share nothing with its own. *)
Lemma unlink_sib_frame (L : links) par l1 l2 c l y n :
  0 ∉ l -> (forall d, d ∈ l1 ++ c :: l2 -> d ∉ l) -> seg L par y l n ->
  seg (unlink_sib (hd 0 l2) (List.last l1 0) L) par y l n.
Proof.
  intros H0 Hd Hs. unfold unlink_sib. apply seg_frame; [|apply seg_frame; [|done]].
  - destruct (around_in l1 l2 c (hd 0 l2)) as [->|Hin]; [by left|done|by apply Hd].
  - destruct (around_in l1 l2 c (List.last l1 0)) as [->|Hin]; [by right|done|by apply Hd].
Qed.

(** What the stores do to a single process. *)
Definition same_but_sib (k k' : link) : Prop := l_p k' = l_p k /\ l_c k' = l_c k.

Lemma unlink_sib_lookup o y (L : links) t :
  option_Forall2 same_but_sib (L !! t) (unlink_sib o y L !! t).
Proof.
  unfold unlink_sib. rewrite !lookup_alter. repeat case_decide; subst; destruct (L !! _); by constructor.
Qed.

Lemma unlink_sib_back o y (L : links) t k' :
  unlink_sib o y L !! t = Some k' -> exists k, L !! t = Some k /\ same_but_sib k k'.
Proof. intros Hk. pose proof (unlink_sib_lookup o y L t) as H. rewrite Hk in H. inversion H; subst; eauto. Qed.

Lemma unlink_sib_get o y (L : links) t k :
  L !! t = Some k -> exists k', unlink_sib o y L !! t = Some k' /\ same_but_sib k k'.
Proof. intros Hk. pose proof (unlink_sib_lookup o y L t) as H. rewrite Hk in H. inversion H; subst; eauto. Qed.

(** ** A process leaves its list *)

Definition fix_head (c o : Z) (q : link) : link := if l_c q =? c then set_l_c o q else q.

Definition unlink (c : Z) (k : link) (L : links) : links :=
  let L := unlink_sib (l_o k) (l_y k) L in
  if l_p k =? 1 then L else alter (fix_head c (l_o k)) (l_p k) L.

Lemma NoDup_drop (l1 l2 : list Z) c : NoDup (l1 ++ c :: l2) -> NoDup (l1 ++ l2) /\ c ∉ l1 ++ l2.
Proof.
  intros H. rewrite <- Permutation_middle in H. by apply NoDup_cons in H as [? ?].
Qed.

Lemma forest_unlink_orphan L kids orph c k :
  forest L kids orph None -> L !! c = Some k -> l_p k = 1 -> forest_ok (unlink c k L) (Some c).
Proof.
  intros F Hk Hp. unfold unlink. rewrite Hp. cbn [Z.eqb Pos.eqb].
  destruct (fo_home _ _ _ _ F c k Hk) as [[_ Hc]|(q & Hq & _)]; [done| |].
  2:{ rewrite Hp in Hq. pose proof (fo_id _ _ _ _ F _ _ Hq). lia. }
  apply elem_of_concat in Hc as (l & Hl & Hc).
  apply list_elem_of_split in Hl as (a & b & ->). apply list_elem_of_split in Hc as (l1 & l2 & ->).
  pose proof (fo_orph _ _ _ _ F (l1 ++ c :: l2)) as Hs. specialize (Hs ltac:(apply elem_of_app; right; left)).
  destruct (seg_around _ _ _ _ _ _ Hs Hk) as [-> ->]. pose proof (fo_once _ _ _ _ F) as Hnd.
  rewrite concat_app in Hnd. cbn [concat] in Hnd. apply NoDup_app in Hnd as (Na & Nab & (Nl & Nlb & Nb)%NoDup_app).
  destruct (NoDup_drop _ _ _ Nl) as [Nl' Nc].
  assert (forall l', l' ∈ a \/ l' ∈ b -> forall d, d ∈ l1 ++ c :: l2 -> d ∉ l') as Hdis.
  { intros l' [Hl'|Hl'] d Hd Hd'.
    - apply (Nab d); [apply elem_of_concat; by exists l'|]. apply elem_of_app. by left.
    - apply (Nlb d Hd). apply elem_of_concat. by exists l'. }
  exists kids, (a ++ (l1 ++ l2) :: b). split.
  - intros t kt (k0 & H0 & _)%unlink_sib_back. by eapply (fo_id _ _ _ _ F).
  - intros t kt (k0 & H0 & [_ Ec])%unlink_sib_back. destruct (fo_kids _ _ _ _ F t k0 H0) as (E1 & E2 & E3).
    split; [congruence|]. split; [|done]. apply (unlink_sib_frame _ _ _ _ c); [by eapply (zero_not_kid F)| |done].
    intros d Hd Hk'. apply (kid_not_orphan F t k0 (l1 ++ c :: l2) d H0); [|done|done]. apply elem_of_app. right. left.
  - intros l' [Hl'|[->|Hl']%elem_of_cons]%elem_of_app.
    + assert (l' ∈ a ++ (l1 ++ c :: l2) :: b) as Hin by (apply elem_of_app; by left).
      apply (unlink_sib_frame _ _ _ _ c); [by eapply (zero_not_orphan F)|apply Hdis; by left|by apply (fo_orph _ _ _ _ F)].
    + apply (seg_unlink _ _ _ c); [done| |done]. eapply (zero_not_orphan F). apply elem_of_app. right. left.
    + assert (l' ∈ a ++ (l1 ++ c :: l2) :: b) as Hin by (apply elem_of_app; right; by right).
      apply (unlink_sib_frame _ _ _ _ c); [by eapply (zero_not_orphan F)|apply Hdis; by right|by apply (fo_orph _ _ _ _ F)].
  - eapply sublist_NoDup; [apply (fo_once _ _ _ _ F)|]. rewrite !concat_app. cbn [concat].
    apply sublist_app; [done|]. apply sublist_app; [|done]. apply sublist_app; [done|]. by apply sublist_cons.
  - intros d kd (k0 & H0 & [Ep _])%unlink_sib_back Hne. rewrite Ep.
    destruct (fo_home _ _ _ _ F d k0 H0) as [[E Hd]|(q & Hq & Hd)]; [done| |].
    + left. split; [done|]. revert Hd. rewrite !concat_app. cbn [concat]. rewrite !elem_of_app, elem_of_cons.
      assert (d <> c) by congruence. tauto.
    + right. destruct (unlink_sib_get (hd 0 l2) (List.last l1 0) _ _ _ Hq) as (q' & Hq' & _). eauto.
  - intros d [= <-]. split.
    + rewrite concat_app. cbn [concat]. rewrite !elem_of_app. intros [H|[H|H]].
      * apply (Nab c H). apply elem_of_app. left. apply elem_of_app. right. left.
      * apply Nc. by apply elem_of_app.
      * apply (Nlb c); [|done]. apply elem_of_app. right. left.
    + intros t kt (k0 & H0 & _)%unlink_sib_back Hc. destruct (kid_parent F t k0 c H0 Hc) as (kc & Hkc & E).
      assert (t = 1) by congruence. pose proof (fo_id _ _ _ _ F _ _ H0). lia.
Qed.

Lemma fix_head_keep c o q : l_p (fix_head c o q) = l_p q /\ l_o (fix_head c o q) = l_o q /\ l_y (fix_head c o q) = l_y q.
Proof. unfold fix_head. by case_match. Qed.

Lemma fix_head_hd (l1 l2 : list Z) c q : NoDup (l1 ++ c :: l2) -> l_c q = hd 0 (l1 ++ c :: l2) ->
  l_c (fix_head c (hd 0 l2) q) = hd 0 (l1 ++ l2).
Proof.
  intros Hnd E. unfold fix_head. rewrite E. destruct l1 as [|d l1]; cbn in *.
  - by rewrite Z.eqb_refl.
  - destruct (Z.eqb_spec d c) as [->|]; [|by rewrite E]. apply NoDup_cons in Hnd as [Hn _]. destruct Hn.
    apply elem_of_app. right. left.
Qed.

Lemma forest_unlink_kid L kids orph c k :
  forest L kids orph None -> L !! c = Some k -> l_p k <> 1 -> forest_ok (unlink c k L) (Some c).
Proof.
  intros F Hk Hp. unfold unlink. destruct (Z.eqb_spec (l_p k) 1); [done|]. clear n.
  destruct (fo_home _ _ _ _ F c k Hk) as [[? _]|(q & Hq & Hc)]; [done|done|].
  set (p := l_p k) in *. destruct (fo_kids _ _ _ _ F p q Hq) as (Eh & Hs & Hnd).
  apply list_elem_of_split in Hc as (l1 & l2 & Ek). rewrite Ek in Eh, Hs, Hnd.
  destruct (seg_around _ _ _ _ _ _ Hs Hk) as [-> ->]. destruct (NoDup_drop _ _ _ Hnd) as [Nl' Nc].
  assert (forall t kt, alter (fix_head c (hd 0 l2)) p (unlink_sib (hd 0 l2) (List.last l1 0) L) !! t = Some kt ->
    exists k0, L !! t = Some k0 /\ l_p kt = l_p k0 /\ l_c kt = if decide (t = p) then hd 0 (l1 ++ l2) else l_c k0) as Hback.
  { intros t kt. rewrite lookup_alter. case_decide as E.
    - subst t. destruct (unlink_sib_get (hd 0 l2) (List.last l1 0) _ _ _ Hq) as (q' & -> & [E1 E2]). cbn. intros [= <-].
      exists q. destruct (fix_head_keep c (hd 0 l2) q') as [-> _]. rewrite decide_True by done. split; [done|]. split; [done|].
      apply fix_head_hd; [done|]. congruence.
    - intros (k0 & H0 & [E1 E2])%unlink_sib_back. exists k0. rewrite decide_False by done. done. }
  assert (0 ∉ l1 ++ c :: l2) as H0 by (rewrite <- Ek; by eapply (zero_not_kid F)).
  exists (fun t => if decide (t = p) then l1 ++ l2 else kids t), orph. split.
  - intros t kt (k0 & Hk0 & _)%Hback. by eapply (fo_id _ _ _ _ F).
  - intros t kt (k0 & Hk0 & _ & Ec)%Hback. destruct (fo_kids _ _ _ _ F t k0 Hk0) as (E1 & E2 & E3).
    case_decide as E; rewrite Ec.
    + split; [done|]. split; [|done]. apply seg_alter_keep; [apply fix_head_keep|]. rewrite E. by apply (seg_unlink _ _ _ c).
    + split; [done|]. split; [|done]. apply seg_alter_keep; [apply fix_head_keep|].
      apply (unlink_sib_frame _ _ _ _ c); [by eapply (zero_not_kid F)| |done].
      intros d Hd. rewrite <- Ek in Hd. by apply (kids_disjoint F p t q k0).
  - intros l Hl. apply seg_alter_keep; [apply fix_head_keep|].
    apply (unlink_sib_frame _ _ _ _ c); [by eapply (zero_not_orphan F)| |by apply (fo_orph _ _ _ _ F)].
    intros d Hd. rewrite <- Ek in Hd. by apply (kid_not_orphan F p q l d).
  - apply (fo_once _ _ _ _ F).
  - intros d kd (k0 & Hk0 & Ep & _)%Hback Hne. rewrite Ep.
    destruct (fo_home _ _ _ _ F d k0 Hk0) as [?|(q' & Hq' & Hd)]; [done|by left|]. right.
    destruct (unlink_sib_get (hd 0 l2) (List.last l1 0) _ _ _ Hq') as (q1 & Hq1 & _).
    assert (is_Some (alter (fix_head c (hd 0 l2)) p (unlink_sib (hd 0 l2) (List.last l1 0) L) !! l_p k0)) as [q2 Hq2].
    { apply lookup_alter_is_Some. by rewrite Hq1. }
    exists q2. split; [done|]. case_decide as E; [|done]. rewrite E, Ek in Hd. revert Hd.
    rewrite !elem_of_app, elem_of_cons. assert (d <> c) by congruence. tauto.
  - intros d [= <-]. split.
    + intros (l & Hl & Hc)%elem_of_concat. apply (kid_not_orphan F p q l c); [done|done| |done].
      rewrite Ek. apply elem_of_app. right. left.
    + intros t kt (k0 & Hk0 & _)%Hback. case_decide as E; [done|]. apply (kids_disjoint F p t q k0 c); [done|done|done|].
      rewrite Ek. apply elem_of_app. right. left.
Qed.

Lemma unlink_parent c k (L : links) t l : L !! t = Some l -> exists l', unlink c k L !! t = Some l' /\ l_p l' = l_p l.
Proof.
  intros Hl. unfold unlink. destruct (unlink_sib_get (l_o k) (l_y k) L t l Hl) as (q & Hq & [Eq _]).
  case_match; [by exists q|]. destruct (decide (t = l_p k)) as [->|Hne].
  - exists (fix_head c (l_o k) q). rewrite lookup_alter_eq, Hq. split; [done|]. rewrite <- Eq. apply fix_head_keep.
  - exists q. by rewrite lookup_alter_ne by congruence.
Qed.

Lemma forest_unlink L c k : forest_ok L None -> L !! c = Some k -> forest_ok (unlink c k L) (Some c).
Proof.
  intros (kids & orph & F) Hk. destruct (Z.eq_dec (l_p k) 1); [by eapply forest_unlink_orphan|by eapply forest_unlink_kid].
Qed.

(** ** A process enters a list *)

Definition push (c p o : Z) (L : links) : links :=
  alter (set_l_p p) c (alter (set_l_c c) p (alter (fun k => set_l_y 0 (set_l_o o k)) c (alter (set_l_y c) o L))).

Lemma push_frame L par c p o l y n : o ∉ l -> c ∉ l -> seg L par y l n -> seg (push c p o L) par y l n.
Proof.
  intros Ho Hc Hs. unfold push. apply seg_frame; [done|]. apply seg_alter_keep; [done|].
  apply seg_frame; [done|]. by apply seg_frame.
Qed.

(** The fields of a process after [push]. *)
Definition push_link (c p o t : Z) (k : link) : link :=
  mkLink (if decide (t = c) then p else l_p k) (if decide (t = p) then c else l_c k)
    (if decide (t = c) then o else l_o k) (if decide (t = c) then 0 else if decide (t = o) then c else l_y k).

Lemma push_lookup c p o (L : links) t : push c p o L !! t = push_link c p o t <$> L !! t.
Proof.
  unfold push, push_link. repeat rewrite lookup_alter.
  repeat case_decide; subst; try congruence; destruct (L !! _) as [[]|]; reflexivity.
Qed.

Lemma push_back c p o (L : links) t k' : push c p o L !! t = Some k' -> exists k, L !! t = Some k /\ k' = push_link c p o t k.
Proof. rewrite push_lookup. destruct (L !! t); [|done]. intros [= <-]. eauto. Qed.

Lemma forest_push L kids orph c p kc kp :
  forest L kids orph (Some c) -> L !! c = Some kc -> L !! p = Some kp -> p <> c ->
  forest (push c p (l_c kp) L) (fun t => if decide (t = p) then c :: kids p else kids t) orph None.
Proof.
  intros F Hc Hp Hne. destruct (fo_loose _ _ _ _ F c eq_refl) as [Lo Lk].
  destruct (fo_kids _ _ _ _ F p kp Hp) as (Eh & Hs & Hnd). rewrite Eh. set (o := hd 0 (kids p)).
  pose proof (Lk p kp Hp) as Hcp.
  assert (o = 0 \/ o ∈ kids p) as Ho by (unfold o; destruct (kids p); [by left|right; left]).
  split.
  - intros t k' (k & Hk & _)%push_back. by eapply (fo_id _ _ _ _ F).
  - intros t k' (k & Hk & ->)%push_back. destruct (fo_kids _ _ _ _ F t k Hk) as (E1 & E2 & E3). case_decide as Et.
    + subst t. split; [unfold push_link; cbn; by rewrite decide_True|]. split; [|by apply NoDup_cons]. cbn [seg]. split.
      * exists (push_link c p o c kc). rewrite push_lookup, Hc. split; [done|]. unfold push_link. cbn.
        by rewrite !(decide_True (P := c = c)).
      * unfold push. apply seg_frame; [done|]. apply seg_alter_keep; [done|]. apply seg_frame; [done|].
        unfold o. destruct (kids p) as [|d l]; [done|]. by eapply seg_set_y.
    + split; [unfold push_link; cbn; by rewrite decide_False|]. split; [|done]. apply push_frame; [|by eapply Lk|done].
      destruct Ho as [->|Ho]; [by eapply (zero_not_kid F)|]. by apply (kids_disjoint F p t kp k).
  - intros l Hl. apply push_frame; [| |by apply (fo_orph _ _ _ _ F)].
    + destruct Ho as [->|Ho]; [by eapply (zero_not_orphan F)|]. by apply (kid_not_orphan F p kp l o).
    + intros Hcl. apply Lo, elem_of_concat. by exists l.
  - apply (fo_once _ _ _ _ F).
  - intros d k' (k & Hk & ->)%push_back _. unfold push_link. cbn. destruct (decide (d = c)) as [->|Hdc].
    + right. rewrite push_lookup, Hp. cbn. eexists. split; [done|]. rewrite decide_True by done. left.
    + destruct (fo_home _ _ _ _ F d k Hk) as [?|(q & Hq & Hd)]; [congruence|by left|]. right.
      rewrite push_lookup, Hq. cbn. eexists. split; [done|]. case_decide as E; [right; by rewrite <- E|done].
  - intros d [=].
Qed.

(** ** A process opens the library, and closes it *)

Lemma forest_open L kids orph t :
  forest L kids orph None -> L !! t = None -> 1 < t ->
  forest (<[t := mkLink 1 0 0 0]> L) (fun q => if decide (q = t) then [] else kids q) ([t] :: orph) None.
Proof.
  intros F Ht H1.
  assert (forall par l y n, t ∉ l -> seg L par y l n -> seg (<[t := mkLink 1 0 0 0]> L) par y l n) as Hf.
  { intros par l y n Hn. apply seg_ext. intros c k Hc Hk. exists k. by rewrite lookup_insert_ne by congruence. }
  assert (forall q k, L !! q = Some k -> t ∉ kids q) as Hnk.
  { intros q k Hq Hin. destruct (kid_parent F q k t Hq Hin) as (kc & Hkc & _). congruence. }
  assert (forall l, l ∈ orph -> t ∉ l) as Hno.
  { intros l Hl Hin. destruct (orphan_parent F l t Hl Hin) as (kc & Hkc & _). congruence. }
  split.
  - intros q k. destruct (decide (q = t)) as [->|]; [done|]. rewrite lookup_insert_ne by done. apply F.
  - intros q k. case_decide as E.
    + subst q. rewrite lookup_insert_eq. intros [= <-]. split; [done|]. split; [done|constructor].
    + rewrite lookup_insert_ne by done. intros Hq. destruct (fo_kids _ _ _ _ F q k Hq) as (E1 & E2 & E3).
      split; [done|]. split; [|done]. apply Hf; [by eapply Hnk|done].
  - intros l [->|Hl]%elem_of_cons.
    + cbn. split; [|done]. exists (mkLink 1 0 0 0). by rewrite lookup_insert_eq.
    + apply Hf; [by apply Hno|by apply (fo_orph _ _ _ _ F)].
  - cbn. apply NoDup_cons. split; [|apply (fo_once _ _ _ _ F)]. intros (l & Hl & Hin)%elem_of_concat. by apply (Hno l).
  - intros c k. destruct (decide (c = t)) as [->|Hne].
    + rewrite lookup_insert_eq. intros [= <-] _. left. split; [done|]. left.
    + rewrite lookup_insert_ne by done. intros Hk _. destruct (fo_home _ _ _ _ F c k Hk) as [[? ?]|(q & Hq & Hc)]; [done| |].
      * left. split; [done|]. by right.
      * right. exists q. assert (l_p k <> t) as Hpt by congruence. rewrite lookup_insert_ne by done. split; [done|].
        by rewrite decide_False.
  - intros c [=].
Qed.

Lemma forest_delete L kids orph c : forest L kids orph (Some c) -> kids c = [] -> forest (delete c L) kids orph None.
Proof.
  intros F Hkc. destruct (fo_loose _ _ _ _ F c eq_refl) as [Lo Lk].
  assert (forall t k, delete c L !! t = Some k -> L !! t = Some k /\ t <> c) as Hb
    by (intros t k [? ?]%lookup_delete_Some; split; [done|congruence]).
  assert (forall par l y n, c ∉ l -> seg L par y l n -> seg (delete c L) par y l n) as Hf.
  { intros par l y n Hn. apply seg_ext. intros d k Hd Hk. exists k. rewrite lookup_delete_ne by congruence. done. }
  split.
  - intros t k [Hk _]%Hb. by eapply (fo_id _ _ _ _ F).
  - intros t k [Hk _]%Hb. destruct (fo_kids _ _ _ _ F t k Hk) as (E1 & E2 & E3). split; [done|]. split; [|done].
    apply Hf; [by eapply Lk|done].
  - intros l Hl. apply Hf; [|by apply (fo_orph _ _ _ _ F)]. intros Hc. apply Lo, elem_of_concat. by exists l.
  - apply (fo_once _ _ _ _ F).
  - intros d k [Hk Hne]%Hb _. destruct (fo_home _ _ _ _ F d k Hk) as [?|(q & Hq & Hd)]; [congruence|by left|]. right.
    exists q. rewrite lookup_delete_ne; [done|]. intros E. rewrite <- E, Hkc in Hd. by apply not_elem_of_nil in Hd.
  - intros d [=].
Qed.

(** ** The children of a process become those of init *)

Fixpoint orphans (l : list Z) (L : links) : links :=
  match l with [] => L | c :: l => orphans l (alter (set_l_p 1) c L) end.

Lemma orphans_lookup l t : forall L,
  orphans l L !! t = (fun k => if decide (t ∈ l) then set_l_p 1 k else k) <$> L !! t.
Proof.
  induction l as [|c l IH]; intros L; cbn [orphans].
  - destruct (L !! t); [|done]. cbn. by rewrite decide_False by apply not_elem_of_nil.
  - rewrite IH, lookup_alter. destruct (decide (c = t)) as [->|E].
    + destruct (L !! t); [|done]. cbn. rewrite (decide_True (P := t ∈ t :: l)) by left. by case_decide.
    + destruct (L !! t); [|done]. cbn. case_decide as E1.
      * rewrite decide_True by (by right). done.
      * rewrite decide_False; [done|]. rewrite elem_of_cons. intros [->|?]; done.
Qed.

Lemma orphans_seg l : forall L t y n, NoDup l -> seg L t y l n -> seg (orphans l L) 1 y l n.
Proof.
  intros L t y n Hnd. assert (forall c, c ∈ l -> c ∈ l) as Hsub by done. revert Hsub.
  generalize l at 2 4 as all. clear Hnd. revert y.
  induction l as [|c l IH]; intros y all Hsub Hs; [done|]. destruct Hs as [(k & Hk & E1 & E2 & E3) Hs]. split.
  - exists (set_l_p 1 k). rewrite orphans_lookup, Hk. cbn. rewrite decide_True by (apply Hsub; left). done.
  - apply IH; [|done]. intros d Hd. apply Hsub. by right.
Qed.

Lemma forest_orphans L kids orph t k :
  forest L kids orph None -> L !! t = Some k ->
  forest (alter (set_l_c 0) t (orphans (kids t) L)) (fun q => if decide (q = t) then [] else kids q) (kids t :: orph) None.
Proof.
  intros F Hk. destruct (fo_kids _ _ _ _ F t k Hk) as (_ & Hs & Hnd).
  assert (forall q kq, alter (set_l_c 0) t (orphans (kids t) L) !! q = Some kq -> exists k0, L !! q = Some k0 /\
    l_p kq = (if decide (q ∈ kids t) then 1 else l_p k0) /\ l_c kq = (if decide (q = t) then 0 else l_c k0)) as Hb.
  { intros q kq. rewrite lookup_alter, !orphans_lookup. destruct (decide (t = q)) as [<-|E].
    - rewrite Hk. cbn. intros [= <-]. exists k. split; [done|]. by repeat case_decide.
    - destruct (L !! q) as [k0|]; [|done]. cbn. intros [= <-]. exists k0. split; [done|]. by repeat case_decide. }
  assert (forall l par y n, (forall c, c ∈ l -> c ∉ kids t) -> seg L par y l n ->
    seg (alter (set_l_c 0) t (orphans (kids t) L)) par y l n) as Hf.
  { intros l par y n Hn Hl. apply seg_alter_keep; [done|]. revert Hl. apply seg_ext. intros c kc Hc Hkc. exists kc.
    rewrite orphans_lookup, Hkc. cbn. rewrite decide_False by (by apply Hn). done. }
  split.
  - intros q kq (k0 & H0 & _)%Hb. by eapply (fo_id _ _ _ _ F).
  - intros q kq (k0 & H0 & _ & Ec)%Hb. destruct (fo_kids _ _ _ _ F q k0 H0) as (E1 & E2 & E3).
    case_decide as E; [split; [done|split; [done|constructor]]|]. split; [congruence|]. split; [|done].
    apply Hf; [|done]. intros c Hc Hc'. by apply (kids_disjoint F q t k0 k c).
  - intros l [->|Hl]%elem_of_cons.
    + apply seg_alter_keep; [done|]. by eapply orphans_seg.
    + apply Hf; [|by apply (fo_orph _ _ _ _ F)]. intros c Hc Hc'. by apply (kid_not_orphan F t k l c).
  - cbn. apply NoDup_app. split; [done|]. split; [|apply (fo_once _ _ _ _ F)].
    intros c Hc (l & Hl & Hc')%elem_of_concat. by apply (kid_not_orphan F t k l c).
  - intros c kc (k0 & H0 & Ep & _)%Hb _. rewrite Ep. case_decide as E.
    + left. split; [done|]. cbn. apply elem_of_app. by left.
    + destruct (fo_home _ _ _ _ F c k0 H0) as [[? ?]|(q & Hq & Hc)]; [done| |].
      * left. split; [done|]. cbn. apply elem_of_app. by right.
      * right. assert (l_p k0 <> t) as Hpt by (intros E1; apply E; by rewrite <- E1).
        rewrite lookup_alter_ne, orphans_lookup, Hq by congruence. cbn. eexists. split; [done|]. by rewrite decide_False.
  - intros c [=].
Qed.

(** ** Ancestors *)

(** The ancestors of [c], the parent first. *)
Inductive anc (L : links) : Z -> list Z -> Prop :=
| anc_init c k : L !! c = Some k -> l_p k = 1 -> anc L c []
| anc_kid c k l : L !! c = Some k -> l_p k <> 1 -> anc L (l_p k) l -> anc L c (l_p k :: l).

Definition acyclic (L : links) : Prop := forall c k, L !! c = Some k -> exists l, anc L c l.

(** The oldest ancestor. *)
Definition root_of (c : Z) (l : list Z) : Z := List.last l c.

Lemma anc_dom L c l : anc L c l -> is_Some (L !! c).
Proof. intros [? k H|? k ? H]; by exists k. Qed.

Lemma anc_fun L c l l' : anc L c l -> anc L c l' -> l = l'.
Proof.
  intros H. revert l'. induction H as [c k Hk Hp|c k l Hk Hp _ IH]; intros l' H'; inversion H' as [? k' Hk'|? k' ? Hk' ? H'']; subst.
  - done.
  - congruence.
  - congruence.
  - assert (k' = k) as -> by congruence. f_equal. by apply IH.
Qed.

Lemma anc_suffix L c l1 p l2 : anc L c (l1 ++ p :: l2) -> anc L p l2.
Proof.
  revert c. induction l1 as [|a l1 IH]; intros c; cbn; inversion 1; subst; [done|]. by eapply IH.
Qed.

Lemma anc_notin L c l : anc L c l -> c ∉ l.
Proof.
  intros H Hc. apply list_elem_of_split in Hc as (l1 & l2 & ->). pose proof (anc_suffix _ _ _ _ _ H) as H2.
  pose proof (anc_fun _ _ _ _ H H2) as E. apply (f_equal length) in E. rewrite length_app in E. cbn in E. lia.
Qed.

Lemma anc_NoDup L c l : anc L c l -> NoDup (c :: l).
Proof.
  induction 1 as [c k Hk Hp|c k l Hk Hp H IH]; [apply NoDup_singleton|].
  apply NoDup_cons. split; [|done]. apply (anc_notin L). by econstructor.
Qed.

Lemma anc_all_dom L c l : anc L c l -> forall p, p ∈ c :: l -> is_Some (L !! p).
Proof.
  induction 1 as [c k Hk Hp|c k l Hk Hp H IH]; intros p [->|Hin]%elem_of_cons; try (by exists k); [by apply not_elem_of_nil in Hin|by apply IH].
Qed.

Lemma anc_length L c l : anc L c l -> (length l < size L)%nat.
Proof.
  intros H. assert (c :: l ⊆+ elements (dom L)) as Hs.
  { apply NoDup_submseteq; [by eapply anc_NoDup|]. intros p Hp. apply elem_of_elements, elem_of_dom. by eapply anc_all_dom. }
  apply submseteq_length in Hs. cbn in Hs. rewrite <- size_dom. unfold size, set_size. cbn. lia.
Qed.

(** Two ancestors-or-self of [t] with the same parent are equal. *)
Lemma anc_sibling L t l c a l1 b l2 : anc L t l ->
  t :: l = l1 ++ a :: c :: l2 -> forall l1' l2', t :: l = l1' ++ b :: c :: l2' -> a = b.
Proof.
  intros H%anc_NoDup E l1' l2' E'. rewrite E in H, E'. clear E t l.
  revert l1' E'. induction l1 as [|x l1 IH]; intros [|x' l1'] E'; cbn in *; simplify_eq; try done.
  - assert (c ∈ l1' ++ b :: c :: l2') as Hc by (apply elem_of_app; right; right; left).
    destruct l1'; cbn in *; simplify_eq; apply NoDup_cons in H as [_ [Hn _]%NoDup_cons]; destruct Hn.
    + left.
    + apply elem_of_app; right; right; left.
  - destruct l1; cbn in *; simplify_eq; apply NoDup_cons in H as [_ [Hn _]%NoDup_cons]; destruct Hn.
    + left.
    + apply elem_of_app; right; right; left.
  - apply NoDup_cons in H as [_ H]. by eapply IH.
Qed.

(** ** Changes of the links *)

(** The parents are the same. *)
Lemma anc_same L L' c l : (forall t k, L !! t = Some k -> exists k', L' !! t = Some k' /\ l_p k' = l_p k) ->
  anc L c l -> anc L' c l.
Proof.
  intros He. induction 1 as [c k Hk Hp|c k l Hk Hp _ IH]; destruct (He _ _ Hk) as (k' & Hk' & Ep).
  - apply (anc_init _ _ k'); congruence.
  - rewrite <- Ep in *. by apply (anc_kid _ _ k').
Qed.

Lemma acyclic_same L L' :
  (forall t k, L !! t = Some k -> exists k', L' !! t = Some k' /\ l_p k' = l_p k) ->
  (forall t k', L' !! t = Some k' -> is_Some (L !! t)) -> acyclic L -> acyclic L'.
Proof.
  intros He Hb Ha c k' Hk'. destruct (Hb c k' Hk') as [k Hk]. destruct (Ha c k Hk) as (l & H). exists l. by eapply anc_same.
Qed.

(** [c] gets the parent [p], which is not below it. *)
Lemma acyclic_move L L' c p lp :
  acyclic L -> anc L p lp -> c ∉ p :: lp -> p <> 1 ->
  (forall t k, L !! t = Some k -> exists k', L' !! t = Some k' /\ l_p k' = if decide (t = c) then p else l_p k) ->
  (forall t k', L' !! t = Some k' -> is_Some (L !! t)) -> acyclic L'.
Proof.
  intros Ha Hp Hc Hp1 He Hb.
  assert (forall t l, anc L t l -> c ∉ t :: l -> anc L' t l) as Hsame.
  { induction 1 as [t k Hk Hp0|t k l Hk Hp0 _ IH]; intros Hn; destruct (He _ _ Hk) as (k' & Hk' & Ep);
      rewrite decide_False in Ep by (intros ->; apply Hn; left).
    - apply (anc_init _ _ k'); congruence.
    - rewrite <- Ep in *. apply (anc_kid _ _ k'); [done..|]. apply IH. rewrite elem_of_cons in Hn. tauto. }
  assert (forall t l, anc L t l -> exists l', anc L' t l') as Hall.
  { induction 1 as [t k Hk Hp0|t k l Hk Hp0 _ [l' IH]]; destruct (He _ _ Hk) as (k' & Hk' & Ep); case_decide as Et.
    - eexists. eapply anc_kid; [done|congruence|]. rewrite Ep. by apply Hsame.
    - exists []. apply (anc_init _ _ k'); congruence.
    - eexists. eapply anc_kid; [done|congruence|]. rewrite Ep. by apply Hsame.
    - eexists. apply (anc_kid _ _ k'); [done|congruence|]. by rewrite Ep. }
  intros t k' Hk'. destruct (Hb t k' Hk') as [k Hk]. destruct (Ha t k Hk) as (l & Hl). by eapply Hall.
Qed.

(** Some processes become children of init. *)
Lemma acyclic_cut L L' :
  acyclic L ->
  (forall t k, L !! t = Some k -> exists k', L' !! t = Some k' /\ (l_p k' = 1 \/ l_p k' = l_p k)) ->
  (forall t k', L' !! t = Some k' -> is_Some (L !! t)) -> acyclic L'.
Proof.
  intros Ha He Hb.
  assert (forall t l, anc L t l -> exists l', anc L' t l') as Hall.
  { induction 1 as [t k Hk Hp0|t k l Hk Hp0 _ [l' IH]]; destruct (He _ _ Hk) as (k' & Hk' & [Ep|Ep]).
    - exists []. by apply (anc_init _ _ k').
    - exists []. apply (anc_init _ _ k'); congruence.
    - exists []. by apply (anc_init _ _ k').
    - eexists. apply (anc_kid _ _ k'); [done|congruence|]. by rewrite Ep. }
  intros t k' Hk'. destruct (Hb t k' Hk') as [k Hk]. destruct (Ha t k Hk) as (l & Hl). by eapply Hall.
Qed.

(** A process without children goes. *)
Lemma acyclic_delete L c : acyclic L -> (forall t k, L !! t = Some k -> l_p k <> c) -> acyclic (delete c L).
Proof.
  intros Ha Hn t k [Hne Hk]%lookup_delete_Some. destruct (Ha t k Hk) as (l & Hl). exists l. clear k Hk.
  induction Hl as [t k Hk Hp|t k l Hk Hp _ IH].
  - apply (anc_init _ _ k); [|done]. by rewrite lookup_delete_ne.
  - apply (anc_kid _ _ k); [by rewrite lookup_delete_ne|done|]. apply IH. intros E. by eapply (Hn t k).
Qed.

(** ** The tree below a process, as the code walks it *)

(** [ftree P p l]: the walk over the processes below [p] and its older siblings,
    descendants first, visits [l]. *)
Inductive ftree (P : gmap Z user) : Z -> list Z -> Prop :=
| ft_nil : ftree P 0 []
| ft_node p u l1 l2 : p <> 0 -> P !! p = Some u -> ftree P (p_cptr u) l1 -> ftree P (p_osptr u) l2 ->
    ftree P p (l1 ++ p :: l2).

Definition keeps_tree (u u' : user) : Prop :=
  p_cptr u' = p_cptr u /\ p_osptr u' = p_osptr u /\ p_pptr u' = p_pptr u /\ p_pgrp u' = p_pgrp u.

Lemma ftree_ext P P' p l : (forall t u, P !! t = Some u -> exists u', P' !! t = Some u' /\ keeps_tree u u') ->
  ftree P p l -> ftree P' p l.
Proof.
  intros He. induction 1 as [|p u l1 l2 Hp Hu _ IH1 _ IH2]; [constructor|].
  destruct (He _ _ Hu) as (u' & Hu' & E1 & E2 & _). apply (ft_node _ _ u'); [done|done| |]; by rewrite ?E1, ?E2.
Qed.

Lemma setrun_keeps ext p : keeps_tree p (setrun ext p).
Proof. unfold setrun, keeps_tree. by repeat case_match. Qed.

Lemma keeps_trans p1 p2 p3 : keeps_tree p1 p2 -> keeps_tree p2 p3 -> keeps_tree p1 p3.
Proof. intros (A1 & A2 & A3 & A4) (B1 & B2 & B3 & B4). split_and!; congruence. Qed.

Lemma post_signal_keeps ext sig action p : keeps_tree p (post_signal ext sig action p).
Proof.
  unfold post_signal. set (p1 := if sig =? SIGCONT then _ else _).
  assert (H1 : keeps_tree p p1) by (unfold p1, keeps_tree; by repeat case_match).
  assert (H2 : keeps_tree p (set_p_sig p1 (Z.lor (p_sig p1) (sigmask sig)))) by exact H1.
  destruct (_ && _); [done|]. destruct (_ && _); [done|]. by eapply keeps_trans; [|apply setrun_keeps].
Qed.

Lemma psignal_keeps ext sig p : keeps_tree p (psignal ext sig p).
Proof.
  unfold psignal. destruct (bset (p_flag p) STRC); [apply post_signal_keeps|].
  assert (keeps_tree p (snd (convert_trap sig p))) as Hc by (unfold convert_trap, keeps_tree; by case_match).
  destruct (convert_trap sig p) as [s1 p1]. cbn [snd] in Hc. case_match; [done|].
  by eapply keeps_trans; [|apply post_signal_keeps].
Qed.

(** What the walk leaves: the members of [l] that are in the group have
    received the signal. *)
Definition signalled_in (ext : Z -> bool) (pgrp sig : Z) (l : list Z) (t : Z) (u : user) : user :=
  if bool_decide (t ∈ l) && (p_pgrp u =? pgrp) then psignal (ext t) sig u else u.

Lemma signalled_in_keeps ext pgrp sig l t u : keeps_tree u (signalled_in ext pgrp sig l t u).
Proof. unfold signalled_in. case_match; [apply psignal_keeps|done]. Qed.

Lemma signalled_in_pgrp ext pgrp sig l t u : p_pgrp (signalled_in ext pgrp sig l t u) = p_pgrp u.
Proof. apply signalled_in_keeps. Qed.

(** Two lists without common members, one after the other. *)
Lemma signalled_in_app ext pgrp sig l1 l2 t u : (forall x, x ∈ l1 -> x ∉ l2) ->
  signalled_in ext pgrp sig l2 t (signalled_in ext pgrp sig l1 t u) = signalled_in ext pgrp sig (l1 ++ l2) t u.
Proof.
  intros Hd. unfold signalled_in at 1. rewrite signalled_in_pgrp. unfold signalled_in.
  destruct (p_pgrp u =? pgrp); [|by rewrite !andb_false_r]. rewrite !andb_true_r.
  repeat case_bool_decide; rewrite ?elem_of_app in *; try done; try tauto. exfalso. by eapply Hd.
Qed.

Record walk_post (ext : Z -> bool) (pgrp sig : Z) (l : list Z) (w w' : world) : Prop := {
  wp_this : this w' = this w;
  wp_ctrl : ctrl_c w' = ctrl_c w;
  wp_procs t : procs w' !! t = signalled_in ext pgrp sig l t <$> procs w !! t
}.

Lemma walk_app ext pgrp sig l1 l2 w1 w2 w3 : (forall x, x ∈ l1 -> x ∉ l2) ->
  walk_post ext pgrp sig l1 w1 w2 -> walk_post ext pgrp sig l2 w2 w3 -> walk_post ext pgrp sig (l1 ++ l2) w1 w3.
Proof.
  intros Hd [A1 A2 A3] [B1 B2 B3]. split; [congruence|congruence|]. intros t. rewrite B3, A3.
  destruct (procs w1 !! t); [|done]. cbn. f_equal. by apply signalled_in_app.
Qed.

Lemma walk_nil ext pgrp sig w : walk_post ext pgrp sig [] w w.
Proof. split; try done. intros t. destruct (procs w !! t); [|done]. cbn. f_equal. Qed.

Lemma walk_keeps ext pgrp sig l w w' t u : walk_post ext pgrp sig l w w' -> procs w !! t = Some u ->
  exists u', procs w' !! t = Some u' /\ keeps_tree u u'.
Proof.
  intros [_ _ H] Hu. specialize (H t). rewrite Hu in H. cbn in H. eexists. split; [done|]. apply signalled_in_keeps.
Qed.

(** One process. *)
Lemma walk_one ext pgrp sig t u w : procs w !! t = Some u ->
  exists w', (if p_pgrp u =? pgrp then psignal_w ext t sig w else Ret tt w) = Ret tt w' /\ walk_post ext pgrp sig [t] w w'.
Proof.
  intros Hu. unfold psignal_w. rewrite Hu. destruct (p_pgrp u =? pgrp) eqn:Eg; (eexists; split; [done|]); split; try done;
    intros x; cbn; unfold signalled_in.
  - destruct (decide (x = t)) as [->|Hne].
    + rewrite lookup_insert_eq, Hu. cbn. rewrite Eg, bool_decide_true by left. done.
    + rewrite lookup_insert_ne by done. rewrite bool_decide_false by (intros ?%list_elem_of_singleton; done).
      by destruct (procs w !! x).
  - destruct (procs w !! x) as [ux|] eqn:Hx; [|done]. cbn. f_equal. case_bool_decide as Hin; [|done].
    apply list_elem_of_singleton in Hin as ->. assert (ux = u) as -> by congruence. by rewrite Eg.
Qed.

Lemma grp_known_spec P p l : ftree P p l -> forall fuel w, procs w = P -> (length l <= fuel)%nat ->
  grp_known fuel p w = Ret true w.
Proof.
  induction 1 as [|p u l1 l2 Hp Hu _ IH1 _ IH2]; intros [|fuel] w <- Hf; try done; rewrite ?length_app in Hf; cbn in Hf; [lia|].
  cbn [grp_known]. destruct (Z.eqb_spec p 0); [done|]. rewrite Hu, IH1 by first [done|lia]. cbn [obind].
  by rewrite IH2 by first [done|lia].
Qed.

Lemma grp_signal_spec ext pgrp sig P p l : ftree P p l -> NoDup l -> forall fuel w,
  (forall t u, P !! t = Some u -> exists u', procs w !! t = Some u' /\ keeps_tree u u') -> (length l <= fuel)%nat ->
  exists w', grp_signal fuel ext pgrp sig p w = Ret tt w' /\ walk_post ext pgrp sig l w w'.
Proof.
  induction 1 as [|p u l1 l2 Hp Hu _ IH1 _ IH2]; intros Hnd fuel w HP Hf.
  { exists w. split; [by destruct fuel|apply walk_nil]. }
  apply NoDup_app in Hnd as (N1 & N12 & [Np N2]%NoDup_cons).
  destruct fuel as [|fuel]; rewrite length_app in Hf; cbn in Hf; [lia|].
  cbn [grp_signal]. destruct (Z.eqb_spec p 0); [done|]. clear n.
  destruct (HP p u Hu) as (u0 & Hu0 & K0). rewrite Hu0. destruct K0 as (E1 & E2 & _). rewrite E1.
  destruct (IH1 N1 fuel w HP) as (w1 & -> & W1); [lia|]. cbn [obind].
  destruct (walk_keeps _ _ _ _ _ _ _ _ W1 Hu0) as (u1 & Hu1 & K1). rewrite Hu1.
  destruct (walk_one ext pgrp sig p u1 w1 Hu1) as (w2 & -> & W2). cbn [obind].
  destruct (walk_keeps _ _ _ _ _ _ _ _ W2 Hu1) as (u2 & Hu2 & K2). rewrite Hu2.
  assert (p_osptr u2 = p_osptr u) as -> by (destruct K2 as (_ & -> & _), K1 as (_ & -> & _); done).
  destruct (IH2 N2 fuel w2) as (w3 & -> & W3); [|lia|].
  { intros t ut Ht. destruct (HP t ut Ht) as (a & Ha & Ka). destruct (walk_keeps _ _ _ _ _ _ _ _ W1 Ha) as (b & Hb & Kb).
    destruct (walk_keeps _ _ _ _ _ _ _ _ W2 Hb) as (c & Hc & Kc). exists c. split; [done|].
    eapply keeps_trans; [done|]. by eapply keeps_trans. }
  exists w3. split; [done|]. eapply (walk_app _ _ _ l1 (p :: l2)); [done|done|].
  apply (walk_app _ _ _ [p] l2 w1 w2); [|done|done]. intros x ->%list_elem_of_singleton. done.
Qed.

(** ** From the links to the tree *)

Section Links.
Context (L : links) (kids : Z -> list Z) (orph : list (list Z)) (F : forest L kids orph None).
Context (Hac : acyclic L).
Context (P : gmap Z user) (HP : forall t k, L !! t = Some k -> exists u, P !! t = Some u /\ p_cptr u = l_c k /\ p_osptr u = l_o k).

(** [t] is strictly below [c]. *)
Definition below (c t : Z) : Prop := exists l, anc L t l /\ c ∈ l.

(** The chain of a descendant goes through one of the children. *)
Lemma below_kid c k t : L !! c = Some k -> below c t <-> exists d, d ∈ kids c /\ (t = d \/ below d t).
Proof.
  intros Hk. split.
  - intros (l & Hl & Hc). induction Hl as [t kt Hkt Hp|t kt l Hkt Hp Hl IH]; [by apply not_elem_of_nil in Hc|].
    destruct (decide (c = l_p kt)) as [->|Hne].
    + destruct (fo_home _ _ _ _ F t kt Hkt) as [[? _]|(q & Hq & Hin)]; [done|done|]. exists t. split; [done|by left].
    + apply elem_of_cons in Hc as [?|Hc]; [done|]. destruct (IH Hc) as (d & Hd & Hor). exists d. split; [done|right].
      exists (l_p kt :: l). split; [by eapply anc_kid|]. destruct Hor as [<-|(l' & Hl' & Hin)]; [left|].
      right. assert (l' = l) as -> by (by eapply anc_fun). done.
  - intros (d & Hd & Hor). destruct (kid_parent F c k d Hk Hd) as (kd & Hkd & <-).
    pose proof (fo_id _ _ _ _ F _ _ Hk) as Hid. destruct (Hac d kd Hkd) as (ld & Hld).
    assert (l_p kd ∈ ld) as Hin by (inversion Hld as [? k' Hk'|? k' ? Hk' ? ?]; subst; [assert (k' = kd) by congruence; subst; lia|assert (k' = kd) as -> by congruence; left]).
    destruct Hor as [->|(l & Hl & Hdl)]; [by exists ld|]. exists l. split; [done|].
    apply list_elem_of_split in Hdl as (l1 & l2 & ->). pose proof (anc_suffix _ _ _ _ _ Hl) as H2.
    assert (l2 = ld) as -> by (by eapply anc_fun). apply elem_of_app. right. by right.
Qed.

(** Nothing is below two siblings, and no sibling below another. *)
Lemma kid_chain c k d t : L !! c = Some k -> d ∈ kids c -> t = d \/ below d t ->
  exists l l1 l2, anc L t l /\ t :: l = l1 ++ d :: c :: l2.
Proof.
  intros Hk Hd Hor. destruct (kid_parent F c k d Hk Hd) as (kd & Hkd & E). pose proof (fo_id _ _ _ _ F _ _ Hk) as Hid.
  destruct (Hac d kd Hkd) as (ld & Hld). assert (exists l2, ld = c :: l2) as (l2 & ->).
  { inversion Hld as [? k' Hk'|? k' l Hk' ? ?]; subst; assert (k' = kd) as -> by congruence; [lia|by exists l]. }
  destruct Hor as [->|(l & Hl & Hdl)]; [by exists (c :: l2), [], l2|].
  apply list_elem_of_split in Hdl as (l1 & l3 & ->). pose proof (anc_suffix _ _ _ _ _ Hl) as H2.
  assert (l3 = c :: l2) as -> by (by eapply anc_fun). exists (l1 ++ d :: c :: l2), (t :: l1), l2. done.
Qed.

Lemma kids_apart c k d d' t : L !! c = Some k -> d ∈ kids c -> d' ∈ kids c ->
  t = d \/ below d t -> t = d' \/ below d' t -> d = d'.
Proof.
  intros Hk Hd Hd' H H'. destruct (kid_chain _ _ _ _ Hk Hd H) as (l & l1 & l2 & Hl & E).
  destruct (kid_chain _ _ _ _ Hk Hd' H') as (l' & l1' & l2' & Hl' & E').
  assert (l' = l) as -> by (by eapply anc_fun). by eapply (anc_sibling L t l c d l1 d' l2).
Qed.

Lemma ftree_siblings c k : L !! c = Some k ->
  (forall d, d ∈ kids c -> exists kd m, L !! d = Some kd /\ ftree P (l_c kd) m /\ NoDup m /\ forall t, t ∈ m <-> below d t) ->
  forall s y, (forall d, d ∈ s -> d ∈ kids c) -> NoDup s -> seg L c y s 0 ->
  exists m, ftree P (hd 0 s) m /\ NoDup m /\ forall t, t ∈ m <-> exists d, d ∈ s /\ (t = d \/ below d t).
Proof.
  intros Hk Hkids. induction s as [|d s IH]; intros y Hsub Hnd Hs.
  { exists []. split; [constructor|]. split; [constructor|]. intros t. split; [by intros ?%not_elem_of_nil|].
    intros (d & ?%not_elem_of_nil & _). done. }
  apply NoDup_cons in Hnd as [Hn Hnd]. destruct Hs as [(kd & Hkd & _ & _ & Eo) Hs].
  destruct (Hkids d) as (kd' & m1 & Hkd' & F1 & N1 & M1); [apply Hsub; left|]. assert (kd' = kd) as -> by congruence.
  destruct (IH d) as (m2 & F2 & N2 & M2); [intros; apply Hsub; by right|done|done|].
  destruct (HP _ _ Hkd) as (u & Hu & E1 & E2). pose proof (fo_id _ _ _ _ F _ _ Hkd).
  exists (m1 ++ d :: m2). cbn [hd]. split; [|split].
  - apply (ft_node _ _ u); [lia|done|by rewrite E1|by rewrite E2, Eo].
  - assert (forall x, x ∈ m2 -> x = d \/ below d x -> False) as Hap.
    { intros x (d' & Hd' & Hx')%M2 Hx. assert (d = d') as <-; [|done].
      eapply (kids_apart c k d d' x); [done|apply Hsub; left|apply Hsub; by right|done|done]. }
    apply NoDup_app. split; [done|]. split.
    + intros x Hx [->|Hx2]%elem_of_cons; [|apply (Hap x Hx2); right; by apply M1].
      apply M1 in Hx as (l & Hl & Hin). by apply (anc_notin L d l).
    + apply NoDup_cons. split; [|done]. intros Hd. apply (Hap d Hd). by left.
  - intros t. rewrite elem_of_app, elem_of_cons, M1, M2. split.
    + intros [Ht|[->|(d' & Hd' & Ht)]]; [exists d; split; [left|by right]|exists d; split; [left|by left]|exists d'; split; [by right|done]].
    + intros (d' & [->|Hd']%elem_of_cons & Ht); [destruct Ht; tauto|]. right. right. by exists d'.
Qed.

Lemma ftree_below n : forall c k l, L !! c = Some k -> anc L c l -> (size L - length l <= n)%nat ->
  exists m, ftree P (l_c k) m /\ NoDup m /\ forall t, t ∈ m <-> below c t.
Proof.
  induction n as [|n IH]; intros c k l Hk Hl Hn; [pose proof (anc_length _ _ _ Hl); lia|].
  destruct (fo_kids _ _ _ _ F c k Hk) as (-> & Hs & Hnd).
  destruct (ftree_siblings c k Hk) with (s := kids c) (y := 0) as (m & Hm & Nm & Mm); [|done|done|done|].
  - intros d Hd. destruct (kid_parent F c k d Hk Hd) as (kd & Hkd & E). exists kd.
    pose proof (fo_id _ _ _ _ F _ _ Hk). assert (anc L d (c :: l)) as Hdl.
    { rewrite <- E. eapply anc_kid; [done|lia|]. by rewrite E. }
    destruct (IH d kd (c :: l) Hkd Hdl) as (m & ? & ? & ?); [|by exists m].
    pose proof (anc_length _ _ _ Hl). cbn. lia.
  - exists m. split; [done|]. split; [done|]. intros t. rewrite Mm. by rewrite (below_kid c k t Hk).
Qed.
End Links.

(** ** _psignalgrp *)

(** Two processes with the same oldest ancestor. *)
Definition same_tree (L : links) (a b : Z) : Prop :=
  exists la lb, anc L a la /\ anc L b lb /\ root_of a la = root_of b lb.

Lemma root_anc L c l : anc L c l -> anc L (root_of c l) [].
Proof.
  unfold root_of. induction 1 as [c k Hk Hp|c k l Hk Hp _ IH]; [by apply (anc_init _ _ k)|]. by rewrite last_cons.
Qed.

Lemma below_root L c l t : anc L c l -> (t = root_of c l \/ below L (root_of c l) t) <-> same_tree L t c.
Proof.
  intros Hc. pose proof (root_anc _ _ _ Hc) as Hr. split.
  - intros [->|(lt & Ht & Hin)]; [by exists [], l|]. exists lt, l. split; [done|]. split; [done|].
    apply list_elem_of_split in Hin as (l1 & l2 & ->). pose proof (anc_suffix _ _ _ _ _ Ht) as H2.
    assert (l2 = []) as -> by (by eapply anc_fun). unfold root_of at 1. by rewrite last_snoc.
  - intros (lt & lc & Ht & Hc' & E). assert (lc = l) as -> by (by eapply anc_fun). rewrite <- E. unfold root_of.
    destruct (snoc_cases lt) as [->|(l1 & x & ->)]; [by left|]. right. exists (l1 ++ [x]). split; [done|].
    rewrite last_snoc. apply elem_of_app. right. by apply list_elem_of_singleton.
Qed.

(** The struct users of a map of links. *)
Definition matches (L : links) (P : gmap Z user) : Prop :=
  forall t, option_Forall2 (fun k u => p_pptr u = l_p k /\ p_cptr u = l_c k /\ p_osptr u = l_o k) (L !! t) (P !! t).

Lemma matches_get L P t k : matches L P -> L !! t = Some k -> exists u, P !! t = Some u /\ p_pptr u = l_p k /\ p_cptr u = l_c k /\ p_osptr u = l_o k.
Proof. intros H Hk. specialize (H t). rewrite Hk in H. inversion H; subst; eauto. Qed.

Lemma matches_back L P t u : matches L P -> P !! t = Some u -> exists k, L !! t = Some k.
Proof. intros H Hk. specialize (H t). rewrite Hk in H. inversion H; subst; eauto. Qed.

Lemma grp_top_spec L w c l : (forall t k, L !! t = Some k -> 1 < t) -> matches L (procs w) -> anc L c l -> forall fuel u,
  procs w !! c = Some u -> (length l <= fuel)%nat -> grp_top fuel c (p_pptr u) w = Ret (Some (root_of c l)) w.
Proof.
  intros Hid HP. induction 1 as [c k Hk Hp|c k l Hk Hp Hl IH]; intros fuel u Hu Hf;
    destruct (matches_get _ _ _ _ HP Hk) as (u' & Hu' & E & _); assert (u' = u) as -> by congruence; rewrite E.
  - rewrite Hp. by destruct fuel.
  - destruct fuel as [|fuel]; cbn in Hf; [lia|]. destruct (anc_dom _ _ _ Hl) as [kp Hkp]. pose proof (Hid _ _ Hkp).
    cbn [grp_top]. destruct (Z.eqb_spec (l_p k) 0), (Z.eqb_spec (l_p k) 1); try lia. cbn [orb].
    destruct (matches_get _ _ _ _ HP Hkp) as (up & Hup & _). rewrite Hup, (IH fuel up Hup) by lia.
    unfold root_of. by rewrite last_cons.
Qed.

(** On a consistent tree [_psignalgrp] ends, and exactly the processes of the
    tree that are in the group have received the signal. *)
Lemma psignalgrp_tree L kids orph fuel ext proc sig w u :
  forest L kids orph None -> acyclic L -> matches L (procs w) ->
  procs w !! proc = Some u -> (size L <= fuel)%nat ->
  exists m w', psignalgrp fuel ext proc sig w = Ret tt w' /\ walk_post ext (p_pgrp u) sig m w w' /\
    forall t, t ∈ m <-> same_tree L t proc.
Proof.
  intros F Hac HP Hu Hf. destruct (matches_back _ _ _ _ HP Hu) as [k Hk]. destruct (Hac proc k Hk) as (l & Hl).
  pose proof (fo_id _ _ _ _ F _ _ Hk). pose proof (anc_length _ _ _ Hl).
  unfold psignalgrp. destruct (Z.eqb_spec proc 0); [lia|]. rewrite Hu.
  rewrite (grp_top_spec L w proc l) by first [done|lia|apply (fo_id _ _ _ _ F)]. cbn [obind].
  set (r := root_of proc l). pose proof (root_anc _ _ _ Hl) as Hr. destruct (anc_dom _ _ _ Hr) as [kr Hkr].
  destruct (matches_get _ _ _ _ HP Hkr) as (ur & Hur & _ & E1 & _). fold r in Hur. rewrite Hur.
  destruct (ftree_below L kids orph F Hac (procs w)) with (n := size L) (c := r) (k := kr) (l := @nil Z) as (m & Hm & Nm & Mm); try done.
  { intros t kt Ht. destruct (matches_get _ _ _ _ HP Ht) as (ut & Hut & _ & ? & ?). by exists ut. }
  { cbn. lia. }
  rewrite <- E1 in Hm. assert (length m <= fuel)%nat as Hlen.
  { transitivity (size L); [|done]. rewrite <- size_dom. transitivity (length (elements (dom L))); [|done].
    apply submseteq_length, NoDup_submseteq; [done|]. intros t (lt & Ht & _)%Mm. apply elem_of_elements, elem_of_dom. by eapply anc_dom. }
  rewrite (grp_known_spec (procs w) _ m Hm) by done. cbn [obind].
  destruct (grp_signal_spec ext (p_pgrp u) sig (procs w) _ m Hm Nm fuel w) as (w1 & -> & W1); [|done|].
  { intros t ut Ht. exists ut. split; [done|]. by split_and!. }
  cbn [obind]. destruct (walk_keeps _ _ _ _ _ _ _ _ W1 Hur) as (u1 & Hu1 & K1). rewrite Hu1.
  destruct (walk_one ext (p_pgrp u) sig r u1 w1 Hu1) as (w2 & -> & W2).
  exists (m ++ [r]), w2. split; [done|]. split.
  - eapply walk_app; [|done|done]. intros x Hx ->%list_elem_of_singleton. apply Mm in Hx as (lx & Hlx & Hin). by apply (anc_notin L r lx).
  - intros t. rewrite elem_of_app, list_elem_of_singleton, Mm, <- (below_root L proc l t Hl). tauto.
Qed.
