(* ===== verification/ProcInv.v ===== *)
(** * Processes: the calls and the sibling lists

    Each call is the stores it makes to the map of processes, and those are the
    changes of the links in [ProcTree]. *)

From S2P Require Import Prelude Signals Timers ProcTree Proc.
Import Sig Proc.

Lemma opt2_get {A} (R : A -> A -> Prop) x y a : option_Forall2 R x y -> x = Some a -> exists b, y = Some b /\ R a b.
Proof. intros H ->. inversion H; subst; eauto. Qed.

Lemma opt2_back {A} (R : A -> A -> Prop) x y b : option_Forall2 R x y -> y = Some b -> exists a, x = Some a /\ R a b.
Proof. intros H ->. inversion H; subst; eauto. Qed.

Definition link_of (k : proc) : link := mkLink (p_pptr (pu k)) (p_cptr (pu k)) (p_osptr (pu k)) (p_ysptr k).
Definition lk (w : ptree) : links := link_of <$> ps w.

Lemma lk_get w t k : ps w !! t = Some k -> lk w !! t = Some (link_of k).
Proof. intros H. unfold lk. by rewrite lookup_fmap, H. Qed.

Lemma lk_back w t l : lk w !! t = Some l -> exists k, ps w !! t = Some k /\ l = link_of k.
Proof. unfold lk. rewrite lookup_fmap. destruct (ps w !! t); [|done]. intros [= <-]. eauto. Qed.

(** ** Stores *)

(** A store to a process, in the map. *)
Definition store (t : Z) (f : proc -> proc) (w : ptree) : ptree := set_ps w (alter f t (ps w)).

Lemma upd_store t f w : is_Some (ps w !! t) -> upd t f w = Ret tt (store t f w).
Proof.
  intros [k Hk]. unfold upd, store. rewrite Hk. unfold put. do 2 f_equal. apply map_eq. intros x.
  destruct (decide (x = t)) as [->|Hne]; [by rewrite lookup_insert_eq, lookup_alter_eq, Hk|].
  by rewrite lookup_insert_ne, lookup_alter_ne.
Qed.

(** A pointer that is NULL or valid. *)
Definition ptr_ok (w : ptree) (t : Z) : Prop := t = 0 \/ is_Some (ps w !! t).

Lemma upd_if_store t f w : ps w !! 0 = None -> ptr_ok w t -> upd_if t f w = Ret tt (store t f w).
Proof.
  intros H0 [->|Hs]; unfold upd_if.
  - cbn. unfold store. f_equal. destruct w as [p s l]. unfold set_ps. cbn in *. f_equal. apply map_eq. intros x.
    destruct (decide (x = 0)) as [->|Hne]; [by rewrite lookup_alter_eq, H0|by rewrite lookup_alter_ne].
  - destruct (Z.eqb_spec t 0) as [->|]; [destruct Hs; congruence|]. by apply upd_store.
Qed.

Lemma store_is_Some t f w x : is_Some (ps (store t f w) !! x) <-> is_Some (ps w !! x).
Proof. apply lookup_alter_is_Some. Qed.

Lemma store_None t f w x : ps (store t f w) !! x = None <-> ps w !! x = None.
Proof. rewrite !eq_None_not_Some. by rewrite store_is_Some. Qed.

Lemma store_ptr_ok t f w x : ptr_ok (store t f w) x <-> ptr_ok w x.
Proof. unfold ptr_ok. by rewrite store_is_Some. Qed.

Lemma lk_store t f g w : (forall k, link_of (f k) = g (link_of k)) -> lk (store t f w) = alter g t (lk w).
Proof.
  intros Hf. unfold lk, store. cbn. apply map_eq. intros x. rewrite lookup_fmap, !lookup_alter, !lookup_fmap.
  case_decide as E; [|done]. subst. destruct (ps w !! _); [|done]. cbn. by rewrite Hf.
Qed.

Lemma lk_store_same t f w : (forall k, link_of (f k) = link_of k) -> lk (store t f w) = lk w.
Proof.
  intros Hf. rewrite (lk_store _ _ id) by done. apply map_eq. intros x. rewrite lookup_alter.
  case_decide as E; [|done]. subst. by destruct (lk w !! _).
Qed.

Lemma lk_emit w e : lk (emit w e) = lk w.
Proof. done. Qed.

#[export] Hint Rewrite store_is_Some store_ptr_ok store_None : store.

(** Only links change. *)
Definition same_rest (k k' : proc) : Prop :=
  exists pp pc po y, k' = mkProc (set_links (pu k) (p_pgrp (pu k)) pp pc po) (p_opptr k) y (p_vfork_msg k) (u_session k)
    (p_ru k) (p_cru k) (p_zombies k).

#[export] Instance same_rest_preorder : PreOrder same_rest.
Proof.
  split.
  - intros k. exists (p_pptr (pu k)), (p_cptr (pu k)), (p_osptr (pu k)), (p_ysptr k). destruct k as [u]. by destruct u.
  - intros k1 k2 k3 (a1 & a2 & a3 & a4 & ->) (b1 & b2 & b3 & b4 & ->). by exists b1, b2, b3, b4.
Qed.

Definition links_only (w w' : ptree) : Prop :=
  sessions w' = sessions w /\ log w' = log w /\ forall t, option_Forall2 same_rest (ps w !! t) (ps w' !! t).

#[export] Instance links_only_preorder : PreOrder links_only.
Proof.
  split.
  - intros w. split; [done|]. split; [done|]. intros t. by destruct (ps w !! t); constructor.
  - intros w1 w2 w3 (A1 & A2 & A3) (B1 & B2 & B3). split; [congruence|]. split; [congruence|]. intros t.
    specialize (A3 t). specialize (B3 t). destruct (ps w1 !! t), (ps w2 !! t), (ps w3 !! t); inversion A3; inversion B3; subst; constructor.
    by etrans.
Qed.

Lemma store_links_only t f w : (forall k, same_rest k (f k)) -> links_only w (store t f w).
Proof.
  intros Hf. split; [done|]. split; [done|]. intros x. cbn. rewrite lookup_alter. case_decide; subst.
  - destruct (ps w !! x); by constructor.
  - by destruct (ps w !! x); constructor.
Qed.

Ltac by_same_rest := intros; match goal with |- same_rest ?k _ => destruct k as [[]] end;
  unfold set_p_osptr, set_p_ysptr, set_p_cptr, set_p_pptr, set_pu; cbn; repeat case_match; eexists _, _, _, _; reflexivity.

(** ** Neighbours *)

Lemma forest_zero w kids orph x : forest (lk w) kids orph x -> ps w !! 0 = None.
Proof. intros F. pose proof (no_zero F) as H. unfold lk in H. rewrite lookup_fmap in H. by destruct (ps w !! 0). Qed.

Lemma lk_is_Some w t : is_Some (lk w !! t) <-> is_Some (ps w !! t).
Proof. unfold lk. rewrite lookup_fmap. by rewrite fmap_is_Some. Qed.

Lemma ptr_of_list w (l : list Z) t : t = 0 \/ t ∈ l -> (forall c, c ∈ l -> is_Some (lk w !! c)) -> ptr_ok w t.
Proof. intros [->|Ht] H; [by left|right]. apply lk_is_Some. auto. Qed.

Lemma forest_around w kids orph c k : forest (lk w) kids orph None -> ps w !! c = Some k ->
  ptr_ok w (p_osptr (pu k)) /\ ptr_ok w (p_ysptr k) /\ ptr_ok w (p_cptr (pu k)) /\
  (p_pptr (pu k) = 1 \/ 1 < p_pptr (pu k) /\ is_Some (ps w !! p_pptr (pu k))).
Proof.
  intros F Hk. pose proof (lk_get _ _ _ Hk) as Hl.
  assert (exists par l1 l2, seg (lk w) par 0 (l1 ++ c :: l2) 0) as (par & l1 & l2 & Hs).
  { destruct (fo_home _ _ _ _ F c _ Hl) as [[_ Hc]|(q & Hq & Hc)]; [done| |].
    - apply elem_of_concat in Hc as (l & Hl' & Hc). apply list_elem_of_split in Hc as (l1 & l2 & ->).
      exists 1, l1, l2. by apply (fo_orph _ _ _ _ F).
    - apply list_elem_of_split in Hc as (l1 & l2 & E). destruct (fo_kids _ _ _ _ F _ _ Hq) as (_ & Hs & _).
      rewrite E in Hs. eauto. }
  destruct (seg_around _ _ _ _ _ _ Hs Hl) as [Eo Ey]. cbn in Eo, Ey.
  assert (forall d, d ∈ l1 ++ c :: l2 -> is_Some (lk w !! d)) as Hin.
  { intros d Hd. destruct (seg_elem _ _ _ _ _ _ Hs Hd) as (kd & Hkd & _). by exists kd. }
  split; [|split; [|split]].
  - eapply ptr_of_list; [|exact Hin]. apply around_in. by left.
  - eapply ptr_of_list; [|exact Hin]. apply around_in. by right.
  - destruct (fo_kids _ _ _ _ F c _ Hl) as (E & Hkids & _). cbn in E. rewrite E.
    eapply (ptr_of_list w (kids c)); [destruct (kids c); [by left|right; left]|].
    intros d Hd. destruct (seg_elem _ _ _ _ _ _ Hkids Hd) as (kd & Hkd & _). by exists kd.
  - destruct (fo_home _ _ _ _ F c _ Hl) as [[E _]|(q & Hq & _)]; [done|by left|right]. cbn in Hq.
    split; [by eapply (fo_id _ _ _ _ F)|]. apply lk_is_Some. by exists q.
Qed.

(** ** Leaving a list and entering one *)

(** The stores of [proc_reparent] and of [ix_close] around a process. *)
Definition unlink_stores (c : Z) (k : proc) (w : ptree) : ptree :=
  let o := p_osptr (pu k) in
  let y := p_ysptr k in
  let w := store o (fun k => set_p_ysptr k y) (store y (fun k => set_p_osptr k o) w) in
  if p_pptr (pu k) =? 1 then w
  else store (p_pptr (pu k)) (fun q => if p_cptr (pu q) =? c then set_p_cptr q o else q) w.

Lemma lk_unlink_stores c k w : lk (unlink_stores c k w) = unlink c (link_of k) (lk w).
Proof.
  unfold unlink_stores, unlink, unlink_sib. cbn [l_p l_o l_y link_of].
  assert (forall o y w, lk (store o (fun k => set_p_ysptr k y) (store y (fun k => set_p_osptr k o) w)) =
    alter (set_l_y y) o (alter (set_l_o o) y (lk w))) as E.
  { intros o y v. rewrite (lk_store _ _ (set_l_y y)) by done. f_equal. by apply lk_store. }
  destruct (p_pptr (pu k) =? 1); [apply E|]. rewrite (lk_store _ _ (fix_head c (p_osptr (pu k)))); [by rewrite E|].
  intros q. unfold fix_head. cbn. by case_match.
Qed.

Lemma unlink_stores_links_only c k w : links_only w (unlink_stores c k w).
Proof.
  unfold unlink_stores.
  assert (forall o y, links_only w (store o (fun k => set_p_ysptr k y) (store y (fun k => set_p_osptr k o) w))) as E.
  { intros o y. etrans; apply store_links_only; by_same_rest. }
  case_match; [done|]. etrans; [apply E|]. apply store_links_only. by_same_rest.
Qed.

(** What the code writes around [c] is [unlink_stores]. *)
Lemma unlink_code (B : Type) w kids orph c k (f : ptree -> outcome ptree B) :
  forest (lk w) kids orph None -> ps w !! c = Some k ->
  (let* (_u, w) := upd_if (p_ysptr k) (fun q => set_p_osptr q (p_osptr (pu k))) w in
   let* (_u, w) := upd_if (p_osptr (pu k)) (fun q => set_p_ysptr q (p_ysptr k)) w in
   let* (_u, w) := (if (p_pptr (pu k) =? 0) || (p_pptr (pu k) =? 1) then Ret tt w
     else upd (p_pptr (pu k)) (fun q => if p_cptr (pu q) =? c then set_p_cptr q (p_osptr (pu k)) else q) w) in f w)
  = f (unlink_stores c k w).
Proof.
  intros F Hk. destruct (forest_around _ _ _ _ _ F Hk) as (Ho & Hy & _ & Hp). pose proof (forest_zero _ _ _ _ F) as H0.
  rewrite upd_if_store by done. cbn [obind]. rewrite upd_if_store; [|by rewrite store_None|by rewrite store_ptr_ok]. cbn [obind].
  unfold unlink_stores. destruct (Z.eqb_spec (p_pptr (pu k)) 1) as [E|E].
  - rewrite orb_true_r. done.
  - destruct Hp as [?|[Hlt Hs]]; [done|]. destruct (Z.eqb_spec (p_pptr (pu k)) 0); [lia|]. cbn [orb].
    rewrite upd_store; [done|]. by rewrite !store_is_Some.
Qed.

(** The stores that put [c] in front of the children of [p]. *)
Definition push_stores (c p o : Z) (w : ptree) : ptree :=
  store c (fun k => set_p_pptr k p) (store p (fun k => set_p_cptr k c)
    (store c (fun k => set_p_ysptr (set_p_osptr k o) 0) (store o (fun k => set_p_ysptr k c) w))).

Lemma lk_push_stores c p o w : lk (push_stores c p o w) = push c p o (lk w).
Proof.
  unfold push_stores, push. rewrite (lk_store _ _ (set_l_p p)) by done. f_equal.
  rewrite (lk_store _ _ (set_l_c c)) by done. f_equal.
  rewrite (lk_store _ _ (fun k => set_l_y 0 (set_l_o o k))) by done. f_equal. by apply lk_store.
Qed.

Lemma push_stores_links_only c p o w : links_only w (push_stores c p o w).
Proof. unfold push_stores. do 3 (etrans; [|apply store_links_only; by_same_rest]). apply store_links_only. by_same_rest. Qed.

Lemma loose_head w kids orph c p k : forest (lk w) kids orph (Some c) -> ps w !! p = Some k -> ptr_ok w (p_cptr (pu k)).
Proof.
  intros F Hk. destruct (fo_kids _ _ _ _ F p _ (lk_get _ _ _ Hk)) as (E & Hs & _). cbn in E. rewrite E.
  eapply (ptr_of_list w (kids p)); [destruct (kids p); [by left|right; left]|].
  intros d Hd. destruct (seg_elem _ _ _ _ _ _ Hs Hd) as (kd & Hkd & _). by exists kd.
Qed.

Lemma unlink_stores_get c k w t : is_Some (ps w !! t) -> is_Some (ps (unlink_stores c k w) !! t).
Proof. intros H. unfold unlink_stores. case_match; by rewrite !store_is_Some. Qed.

Lemma proc_reparent_spec w child parent k :
  forest_ok (lk w) None -> ps w !! child = Some k -> is_Some (ps w !! parent) -> parent <> child ->
  exists w', proc_reparent child parent w = Ret tt w' /\ forest_ok (lk w') None /\ links_only w w' /\
    forall t kt, ps w !! t = Some kt -> exists kt', ps w' !! t = Some kt' /\
      p_pptr (pu kt') = if decide (t = child) then parent else p_pptr (pu kt).
Proof.
  intros (kids & orph & F) Hk Hp Hne. unfold proc_reparent. rewrite Hk.
  destruct (Z.eqb_spec (p_pptr (pu k)) parent) as [Epar|Epar].
  { exists w. split; [done|]. split; [by exists kids, orph|]. split; [done|]. intros t kt Ht. exists kt. split; [done|].
    case_decide; [congruence|done]. }
  rewrite (unlink_code _ _ _ _ _ _ _ F Hk). set (w1 := unlink_stores child k w).
  assert (1 < parent) as Hp1 by (destruct Hp as [kp Hkp]; by eapply (fo_id _ _ _ _ F), lk_get).
  destruct (Z.eqb_spec parent 1); [lia|].
  destruct (unlink_stores_get child k w parent Hp) as [pk Hpk]. fold w1 in Hpk. rewrite Hpk.
  destruct (forest_unlink (lk w) child (link_of k)) as (kids1 & orph1 & F1); [by exists kids, orph|by apply lk_get|].
  rewrite <- lk_unlink_stores in F1. fold w1 in F1.
  pose proof (loose_head _ _ _ _ _ _ F1 Hpk) as Ho. pose proof (forest_zero _ _ _ _ F1) as H0.
  assert (is_Some (ps w1 !! child)) as [ck Hck] by (apply unlink_stores_get; by rewrite Hk).
  rewrite upd_if_store by done. cbn [obind]. rewrite upd_store by (by rewrite store_is_Some, Hck). cbn [obind].
  rewrite upd_store by (by rewrite !store_is_Some, Hpk). cbn [obind]. rewrite upd_store by (by rewrite !store_is_Some, Hck).
  eexists. split; [done|]. fold (push_stores child parent (p_cptr (pu pk)) w1). split.
  - rewrite lk_push_stores. eexists _, _. eapply (forest_push _ _ _ child parent (link_of ck) (link_of pk)); [done|by apply lk_get|by apply lk_get|done].
  - split; [etrans; [apply unlink_stores_links_only|apply push_stores_links_only]|]. intros t kt Ht.
    destruct (unlink_parent child (link_of k) (lk w) t _ (lk_get _ _ _ Ht)) as (lb & Hlb & Eb).
    rewrite <- lk_unlink_stores in Hlb. fold w1 in Hlb.
    pose proof (push_lookup child parent (p_cptr (pu pk)) (lk w1) t) as E. rewrite <- lk_push_stores, Hlb in E.
    apply lk_back in E as (kt' & Hkt' & E). exists kt'. split; [done|]. apply (f_equal l_p) in E. cbn in E. rewrite <- E, Eb. done.
Qed.

(** ** ix_open and launch *)

Lemma lk_ix_open me w : lk (ix_open me w) = <[me := mkLink 1 0 0 0]> (lk w).
Proof. unfold lk, ix_open. cbn. by rewrite fmap_insert. Qed.

Lemma ix_open_forest me w : forest_ok (lk w) None -> ps w !! me = None -> 1 < me -> forest_ok (lk (ix_open me w)) None.
Proof.
  intros (kids & orph & F) Hme H1. rewrite lk_ix_open. eexists _, _. apply forest_open; [done| |done].
  unfold lk. by rewrite lookup_fmap, Hme.
Qed.

(** The sessions of the processes. *)
Definition sm (w : ptree) : gmap Z Z := u_session <$> ps w.

Lemma sm_store_same t f w : (forall k, u_session (f k) = u_session k) -> sm (store t f w) = sm w.
Proof.
  intros Hf. unfold sm, store. cbn. apply map_eq. intros x. rewrite !lookup_fmap, lookup_alter.
  case_decide as E; [|done]. subst. destruct (ps w !! _); [|done]. cbn. by rewrite Hf.
Qed.

Lemma sm_store_set t f s w : is_Some (ps w !! t) -> (forall k, u_session (f k) = s) -> sm (store t f w) = <[t := s]> (sm w).
Proof.
  intros [k Hk] Hf. unfold sm, store. cbn. apply map_eq. intros x. rewrite !lookup_fmap, lookup_alter.
  destruct (decide (x = t)) as [->|Hne].
  - rewrite decide_True, lookup_insert_eq, Hk by done. cbn. by rewrite Hf.
  - by rewrite decide_False, lookup_insert_ne, lookup_fmap by congruence.
Qed.

Lemma sm_links_only w w' : links_only w w' -> sm w' = sm w.
Proof.
  intros (_ & _ & H). unfold sm. apply map_eq. intros t. rewrite !lookup_fmap. specialize (H t).
  destruct (ps w !! t), (ps w' !! t); inversion H as [? ? (? & ? & ? & ? & E)|]; subst; done.
Qed.

(** The number of processes of a session. *)
Definition nsess (s : Z) (S : gmap Z Z) : Z := Z.of_nat (size (filter (fun q => q.2 = s) S)).
Definition one_if (b : bool) : Z := if b then 1 else 0.

Lemma nsess_insert s S t v : nsess s (<[t := v]> S) = one_if (v =? s) + nsess s (delete t S).
Proof.
  unfold nsess. destruct (Z.eqb_spec v s) as [->|Hne]; cbn [one_if].
  - rewrite <- insert_delete_eq, map_filter_insert_True by done. rewrite map_size_insert_None; [lia|].
    apply map_lookup_filter_None_2. left. apply lookup_delete_eq.
  - rewrite map_filter_insert_False by done. lia.
Qed.

Lemma nsess_split s S t v : S !! t = Some v -> nsess s S = one_if (v =? s) + nsess s (delete t S).
Proof. intros H. rewrite <- nsess_insert. by rewrite insert_id. Qed.

Lemma nsess_pos s S t : S !! t = Some s -> 0 < nsess s S.
Proof. intros H. rewrite (nsess_split s S t s H), Z.eqb_refl. unfold nsess. cbn. lia. Qed.

Lemma nsess_other s S t v : S !! t = Some v -> v <> s -> nsess s (delete t S) = nsess s S.
Proof. intros H Hne. rewrite (nsess_split s S t v H). by destruct (Z.eqb_spec v s). Qed.

(** Each session counts its processes, and those of all processes exist. *)
Record sess_ok (S : gmap Z Z) (ss : gmap Z session) : Prop := {
  se_zero : ss !! 0 = None;
  se_count s se : ss !! s = Some se -> s_count se = nsess s S;
  se_valid t s : S !! t = Some s -> s <> 0 -> is_Some (ss !! s)
}.

Lemma sess_open S ss me : sess_ok S ss -> S !! me = None -> sess_ok (<[me := 0]> S) ss.
Proof.
  intros H Hm. split; [apply H| |].
  - intros s se Hs. rewrite nsess_insert, delete_id by done. destruct (Z.eqb_spec 0 s) as [<-|].
    + by rewrite (se_zero _ _ H) in Hs.
    + cbn. by rewrite (se_count _ _ H s se Hs).
  - intros t s. destruct (decide (t = me)) as [->|Hne]; [rewrite lookup_insert_eq; by intros [= <-]|].
    rewrite lookup_insert_ne by done. apply H.
Qed.

(** A process without a session joins one. *)
Lemma sess_join S ss me s : sess_ok S ss -> S !! me = Some 0 -> (s = 0 \/ is_Some (ss !! s)) ->
  sess_ok (<[me := s]> S) (alter (fun se => mkSession (s_count se + 1) (s_pgrp se)) s ss).
Proof.
  intros H Hm Hs. split.
  - rewrite lookup_alter, (se_zero _ _ H). case_decide; [|done]. subst. by rewrite (se_zero _ _ H).
  - intros x se. rewrite lookup_alter, nsess_insert. case_decide as E.
    + subst x. destruct (ss !! s) as [se0|] eqn:Es; [|done]. cbn. intros [= <-]. cbn. rewrite (se_count _ _ H s se0 Es), Z.eqb_refl.
      rewrite (nsess_other s S me 0 Hm); [cbn; lia|]. intros <-. by rewrite (se_zero _ _ H) in Es.
    + intros Hx. rewrite (se_count _ _ H x se Hx). destruct (Z.eqb_spec s x) as [->|]; [done|]. cbn.
      rewrite (nsess_other x S me 0 Hm); [done|]. intros <-. by rewrite (se_zero _ _ H) in Hx.
  - intros t x. rewrite lookup_alter_is_Some. destruct (decide (t = me)) as [->|Hne].
    + rewrite lookup_insert_eq. intros [= <-] Hx. by destruct Hs.
    + rewrite lookup_insert_ne by done. apply H.
Qed.

Lemma session_add_spec s w : sessions w !! 0 = None -> s = 0 \/ is_Some (sessions w !! s) ->
  session_add s w = Ret tt (set_sessions w (alter (fun se => mkSession (s_count se + 1) (s_pgrp se)) s (sessions w))).
Proof.
  intros H [->|[se Hse]]; unfold session_add.
  - cbn. f_equal. destruct w as [p ss l]. unfold set_sessions. cbn in *. f_equal. apply map_eq. intros x. rewrite lookup_alter.
    case_decide; [|done]. subst. by rewrite H.
  - destruct (Z.eqb_spec s 0) as [->|]; [by rewrite H in Hse|]. rewrite Hse. do 2 f_equal.
    apply map_eq. intros x. destruct (decide (x = s)) as [->|Hne]; [by rewrite lookup_insert_eq, lookup_alter_eq, Hse|].
    by rewrite lookup_insert_ne, lookup_alter_ne.
Qed.

Lemma session_leave_spec me s w : sess_ok (sm w) (sessions w) -> sm w !! me = Some s ->
  exists ss, session_leave me s w = Ret tt (set_sessions w ss) /\ sess_ok (delete me (sm w)) ss.
Proof.
  intros H Hm. unfold session_leave. pose proof (se_zero _ _ H) as Hz. destruct (Z.eqb_spec s 0) as [->|Hs].
  - exists (sessions w). split; [by destruct w|]. split; [done| |].
    + intros x se Hx. rewrite (se_count _ _ H x se Hx). symmetry. apply (nsess_other x _ me 0 Hm). intros <-. congruence.
    + intros t x [_ Ht]%lookup_delete_Some. by apply (se_valid _ _ H t).
  - destruct (se_valid _ _ H me s Hm Hs) as [se Hse]. rewrite Hse.
    pose proof (se_count _ _ H s se Hse) as Hc. rewrite (nsess_split s _ me s Hm), Z.eqb_refl in Hc. cbn in Hc.
    assert (forall x, x <> s -> nsess x (delete me (sm w)) = nsess x (sm w)) as Hoth by (intros x Hx; apply (nsess_other x _ me s Hm); congruence).
    destruct (Z.leb_spec (s_count se) 1); (eexists; split; [done|]); split.
    + by rewrite lookup_delete_ne.
    + intros x sx [Hne Hx]%lookup_delete_Some. rewrite Hoth by congruence. by apply (se_count _ _ H).
    + intros t x [Hne Ht]%lookup_delete_Some Hx. rewrite lookup_delete_ne; [by apply (se_valid _ _ H t)|].
      intros <-. assert (0 < nsess s (delete me (sm w))); [|lia]. apply (nsess_pos _ _ t). by rewrite lookup_delete_ne.
    + by rewrite lookup_insert_ne.
    + intros x sx. destruct (decide (x = s)) as [->|Hx].
      * rewrite lookup_insert_eq. intros [= <-]. cbn. lia.
      * rewrite lookup_insert_ne, Hoth by done. apply (se_count _ _ H).
    + intros t x [Hne Ht]%lookup_delete_Some Hx. destruct (decide (x = s)) as [->|Hxs]; [by rewrite lookup_insert_eq|].
      rewrite lookup_insert_ne by done. by apply (se_valid _ _ H t).
Qed.

(** Everything but links, process group, session and what a child of vfork
    inherits is as it was. *)
Lemma lk_set_sessions w ss : lk (set_sessions w ss) = lk w.
Proof. done. Qed.
Lemma sm_set_sessions w ss : sm (set_sessions w ss) = sm w.
Proof. done. Qed.

(** The order of the stores of [launch] is another than that of [push]. *)
Lemma push_order me p o (L : links) : o <> me ->
  alter (set_l_p p) me (alter (set_l_c me) p (alter (set_l_y me) o (alter (set_l_y 0) me (alter (set_l_o o) me L)))) = push me p o L.
Proof.
  intros Hne. unfold push. do 2 f_equal. apply map_eq. intros x. repeat rewrite lookup_alter.
  repeat case_decide; subst; try done. by destruct (L !! _).
Qed.

(** The other processes keep all but child and sibling links. *)
Definition calm (k k' : proc) : Prop := same_rest k k' /\ p_pptr (pu k') = p_pptr (pu k).

#[export] Instance calm_preorder : PreOrder calm.
Proof. split; [by intros k|]. intros k1 k2 k3 [A1 A2] [B1 B2]. split; [by etrans|congruence]. Qed.

Definition calm_except (me : Z) (w w' : ptree) : Prop :=
  forall t, t <> me -> option_Forall2 calm (ps w !! t) (ps w' !! t).

#[export] Instance calm_except_preorder me : PreOrder (calm_except me).
Proof.
  split.
  - intros w t _. by destruct (ps w !! t); constructor.
  - intros w1 w2 w3 H1 H2 t Ht. specialize (H1 t Ht). specialize (H2 t Ht).
    destruct (ps w1 !! t), (ps w2 !! t), (ps w3 !! t); inversion H1; inversion H2; subst; constructor. by etrans.
Qed.

Lemma store_calm_me me f w : calm_except me w (store me f w).
Proof. intros t Ht. cbn. rewrite lookup_alter_ne by done. by destruct (ps w !! t); constructor. Qed.

Lemma store_calm me t f w : (forall k, calm k (f k)) -> calm_except me w (store t f w).
Proof. intros Hf x _. cbn. rewrite lookup_alter. case_decide; subst; [destruct (ps w !! x)|destruct (ps w !! x)]; by constructor. Qed.

Lemma sessions_calm me w ss : calm_except me w (set_sessions w ss).
Proof. intros t _. cbn. by destruct (ps w !! t); constructor. Qed.

Lemma launch_spec me parent vm w k pk :
  forest_ok (lk w) None -> sess_ok (sm w) (sessions w) ->
  ps w !! me = Some k -> p_pptr (pu k) = 1 -> p_osptr (pu k) = 0 -> p_ysptr k = 0 -> u_session k = 0 ->
  ps w !! parent = Some pk -> parent <> me ->
  exists w', launch me parent vm w = Ret tt w' /\ forest_ok (lk w') None /\ sess_ok (sm w') (sessions w') /\ log w' = log w /\
    calm_except me w w' /\
    exists k', ps w' !! me = Some k' /\ p_pptr (pu k') = parent /\ p_pgrp (pu k') = p_pgrp (pu pk) /\
      u_session k' = u_session pk /\ p_opptr k' = p_opptr k /\ p_zombies k' = p_zombies k.
Proof.
  intros Hf Hs Hme Epp Eo Ey Es Hp Hne. destruct Hf as (kids0 & orph0 & F0).
  pose proof (forest_zero _ _ _ _ F0) as H0.
  destruct (forest_unlink (lk w) me (link_of k)) as (kids & orph & F); [by exists kids0, orph0|by apply lk_get|].
  assert (unlink me (link_of k) (lk w) = lk w) as Eu.
  { unfold unlink, unlink_sib. cbn. rewrite Epp, Eo, Ey. cbn. apply map_eq. intros x. rewrite !lookup_alter.
    pose proof (no_zero F0) as Hz. repeat case_decide; subst; rewrite ?Hz; done. }
  rewrite Eu in F. set (o := p_cptr (pu pk)).
  assert (ptr_ok w o) as Ho by (by eapply loose_head).
  assert (o <> me) as Hom.
  { intros E. destruct (fo_kids _ _ _ _ F parent _ (lk_get _ _ _ Hp)) as (Eh & _). cbn in Eh. fold o in Eh.
    destruct (fo_loose _ _ _ _ F me eq_refl) as [_ Hl]. specialize (Hl _ _ (lk_get _ _ _ Hp)).
    destruct (kids parent) as [|d l]; cbn in Eh; [subst; congruence|]. apply Hl. rewrite <- E, Eh. left. }
  assert (u_session pk = 0 \/ is_Some (sessions w !! u_session pk)) as Hse.
  { destruct (Z.eq_dec (u_session pk) 0); [by left|right]. apply (se_valid _ _ Hs parent); [|done]. unfold sm. by rewrite lookup_fmap, Hp. }
  unfold launch. rewrite Hp. fold o.
  rewrite upd_store by by rewrite Hme. cbn [obind]. rewrite upd_store by by rewrite store_is_Some, Hme. cbn [obind].
  rewrite upd_if_store; [|by rewrite !store_None|by rewrite !store_ptr_ok]. cbn [obind].
  rewrite upd_store by by rewrite !store_is_Some, Hp. cbn [obind]. rewrite upd_store by by rewrite !store_is_Some, Hme. cbn [obind].
  set (w5 := store me (fun k => set_u_session k (u_session pk)) _).
  assert (sessions w5 = sessions w) as E5 by done.
  assert (lk w5 = alter (set_l_c me) parent (alter (set_l_y me) o (alter (set_l_y 0) me (alter (set_l_o o) me (lk w))))) as L5.
  { unfold w5. rewrite lk_store_same by done. rewrite (lk_store _ _ (set_l_c me)) by done. f_equal.
    rewrite (lk_store _ _ (set_l_y me)) by done. f_equal. rewrite (lk_store _ _ (set_l_y 0)) by done. f_equal. by apply lk_store. }
  assert (is_Some (ps w5 !! me)) as M5 by (unfold w5; by rewrite !store_is_Some, Hme).
  assert (is_Some (ps w5 !! parent)) as P5 by (unfold w5; by rewrite !store_is_Some, Hp).
  rewrite session_add_spec by first [apply (se_zero _ _ Hs)|done]. cbn [obind].
  rewrite upd_store by done. cbn [obind]. rewrite upd_store by by rewrite store_is_Some. cbn [obind].
  match goal with |- context [ps ?w8 !! parent] => destruct (ps w8 !! parent) as [pk2|] eqn:Hpk2 end.
  2:{ apply eq_None_not_Some in Hpk2. destruct Hpk2. rewrite !store_is_Some. exact P5. }
  rewrite upd_store by by rewrite !store_is_Some. eexists. split; [done|]. split; [|split; [|split; [done|split]]].
  - rewrite lk_store_same by done. rewrite (lk_store _ _ (set_l_p parent)) by done. rewrite lk_store_same by done.
    rewrite lk_set_sessions, L5, push_order by done. eexists _, _. by eapply (forest_push _ _ _ me parent (link_of k) (link_of pk)); [|apply lk_get..|].
  - rewrite !(sm_store_same me) by done. rewrite sm_set_sessions. unfold w5.
    rewrite (sm_store_set _ _ (u_session pk)) by first [done|by rewrite !store_is_Some, Hme].
    rewrite !sm_store_same by done. apply sess_join; [done| |done]. unfold sm. by rewrite lookup_fmap, Hme, <- Es.
  - do 3 (etrans; [|apply store_calm_me]). transitivity w5; [|apply sessions_calm].
    unfold w5. etrans; [|apply store_calm_me]. etrans; [|apply (store_calm me parent); intros q; split; [by_same_rest|done]].
    etrans; [|apply (store_calm me o); intros q; split; [by_same_rest|done]]. etrans; apply store_calm_me.
  - unfold w5, store. cbn. repeat rewrite lookup_alter. rewrite !(decide_True (P := me = me)) by done.
    rewrite !(decide_False (P := o = me)), !(decide_False (P := parent = me)) by done. rewrite Hme. cbn.
    eexists. split; [done|]. done.
Qed.

(** ** ix_close *)

Fixpoint orphan_stores (l : list Z) (w : ptree) : ptree :=
  match l with [] => w | c :: l => orphan_stores l (store c (fun k => set_p_pptr k 1) w) end.

Lemma orphan_loop_spec par l : forall w y fuel, ~ 0 ∈ l -> NoDup l -> seg (lk w) par y l 0 -> (length l <= fuel)%nat ->
  orphan_loop fuel (hd 0 l) w = Ret tt (orphan_stores l w).
Proof.
  induction l as [|c l IH]; intros w y fuel H0 Hnd Hs Hf; [by destruct fuel|].
  rewrite elem_of_cons in H0. apply NoDup_cons in Hnd as [Hn Hnd]. destruct Hs as [(k & Hk & _ & _ & Eo) Hs].
  destruct fuel as [|fuel]; cbn in Hf; [lia|]. cbn [hd orphan_loop orphan_stores]. destruct (Z.eqb_spec c 0) as [->|]; [tauto|].
  apply lk_back in Hk as (kc & Hkc & ->). cbn in Eo. rewrite Hkc, Eo.
  assert (put w c (set_p_pptr kc 1) = store c (fun k => set_p_pptr k 1) w) as ->.
  { pose proof (upd_store c (fun k => set_p_pptr k 1) w) as E. unfold upd in E. rewrite Hkc in E.
    destruct (Ret_inj _ _ _ _ (E ltac:(by eexists))) as [_ E']. done. }
  apply (IH _ c); [tauto|done| |lia]. rewrite (lk_store _ _ (set_l_p 1)) by done. by apply seg_frame.
Qed.

Lemma lk_orphan_stores l : forall w, lk (orphan_stores l w) = orphans l (lk w).
Proof. induction l as [|c l IH]; intros w; cbn; [done|]. rewrite IH. f_equal. by apply lk_store. Qed.

(** The others keep what is not a link, and their parent unless it is [me]. *)
Definition parted (me : Z) (k k' : proc) : Prop :=
  same_rest k k' /\ (p_pptr (pu k) <> me -> p_pptr (pu k') = p_pptr (pu k)) /\ (p_pptr (pu k) = me -> p_pptr (pu k') = 1).

Lemma orphan_stores_links_only l : forall w, links_only w (orphan_stores l w).
Proof.
  induction l as [|c l IH]; intros w; cbn; [done|]. etrans; [|apply IH]. apply store_links_only. by_same_rest.
Qed.

Lemma orphan_stores_get l t w k : ps w !! t = Some k -> exists k', ps (orphan_stores l w) !! t = Some k' /\
  p_pptr (pu k') = if decide (t ∈ l) then 1 else p_pptr (pu k).
Proof.
  intros Hk. pose proof (lk_orphan_stores l w) as E. pose proof (orphans_lookup l t (lk w)) as Hl.
  rewrite <- E, (lk_get _ _ _ Hk) in Hl. apply lk_back in Hl as (k' & Hk' & El). exists k'. split; [done|].
  apply (f_equal l_p) in El. cbn in El. rewrite <- El. by case_decide.
Qed.

Lemma kids_length w kids orph t k : forest (lk w) kids orph None -> ps w !! t = Some k -> (length (kids t) <= size (ps w))%nat.
Proof.
  intros F Hk. destruct (fo_kids _ _ _ _ F t _ (lk_get _ _ _ Hk)) as (_ & Hs & Hnd).
  rewrite <- size_dom. transitivity (length (elements (dom (ps w)))); [|done]. apply submseteq_length, NoDup_submseteq; [done|].
  intros d Hd. destruct (seg_elem _ _ _ _ _ _ Hs Hd) as (kd & Hkd & _). apply elem_of_elements, elem_of_dom, lk_is_Some. by exists kd.
Qed.

Lemma free_zombies_eq l : forall w, ps (free_zombies l w) = ps w /\ sessions (free_zombies l w) = sessions w /\
  log (free_zombies l w) = log w ++ (EWakeMsg ∘ dm_addr <$> l).
Proof.
  induction l as [|dm l IH]; intros w; cbn; [by rewrite app_nil_r|]. destruct (IH (emit w (EWakeMsg (dm_addr dm)))) as (-> & -> & ->).
  cbn. by rewrite <- app_assoc.
Qed.

Lemma no_kids L kids orph x c k : forest L kids orph x -> L !! c = Some k -> l_c k = 0 -> kids c = [].
Proof.
  intros F Hk E. destruct (fo_kids _ _ _ _ F c k Hk) as (Eh & _). pose proof (zero_not_kid F c k Hk) as H0.
  destruct (kids c) as [|d l]; [done|]. cbn in Eh. destruct H0. rewrite <- E, Eh. left.
Qed.

(** Behind the loop over the children and the session: the process leaves its
    list and is gone. *)
Lemma close_tail w kids orph me k : forest (lk w) kids orph None -> ps w !! me = Some k -> p_cptr (pu k) = 0 ->
  forest_ok (delete me (lk (unlink_stores me k w))) None.
Proof.
  intros F Hk Ec. destruct (forest_unlink (lk w) me (link_of k)) as (kids1 & orph1 & F1); [by exists kids, orph|by apply lk_get|].
  rewrite lk_unlink_stores. exists kids1, orph1. apply forest_delete; [done|].
  assert (exists k1, unlink me (link_of k) (lk w) !! me = Some k1 /\ l_c k1 = 0) as (k1 & Hk1 & E1); [|by eapply no_kids].
  destruct (unlink_sib_get (l_o (link_of k)) (l_y (link_of k)) (lk w) me (link_of k) (lk_get _ _ _ Hk)) as (k2 & Hk2 & [_ E2]).
  cbn in E2. rewrite Ec in E2. unfold unlink. case_match; [by exists k2|].
  rewrite lookup_alter. case_decide as Ed; [|by exists k2]. rewrite Ed, Hk2. cbn. eexists. split; [done|]. unfold fix_head. rewrite E2.
  case_match; [|done]. assert (me = 0) as -> by lia. by rewrite (forest_zero _ _ _ _ F) in Hk.
Qed.

Lemma store_get t f w x k : ps w !! x = Some k -> ps (store t f w) !! x = Some (if decide (x = t) then f k else k).
Proof. intros Hk. cbn. rewrite lookup_alter. repeat case_decide; subst; try done; by rewrite Hk. Qed.

(** The stores of [ix_close], up to those around the process. *)
Definition close_stores (l : list Z) (me : Z) (ss : gmap Z session) (w : ptree) : ptree :=
  set_sessions (store me (fun k => set_p_cptr k 0) (orphan_stores l w)) ss.

Lemma close_frame w kids orph me k k3 ss t kt :
  forest (lk w) kids orph None -> lk w !! me = Some (link_of k) -> t <> me -> ps w !! t = Some kt ->
  exists kt', ps (unlink_stores me k3 (close_stores (kids me) me ss w)) !! t = Some kt' /\ parted me kt kt'.
Proof.
  intros F Hl Ht Hkt. destruct (orphan_stores_get (kids me) t w kt Hkt) as (a & Ha & Epa).
  set (w3 := close_stores _ _ _ _). assert (ps w3 !! t = Some a) as Ha3 by (cbn; by rewrite lookup_alter_ne).
  destruct (unlink_parent me (link_of k3) (lk w3) t _ (lk_get _ _ _ Ha3)) as (lb & Hlb & Epb).
  rewrite <- lk_unlink_stores in Hlb. apply lk_back in Hlb as (b & Hb & ->). cbn in Epb.
  exists b. split; [done|]. split.
  - destruct (orphan_stores_links_only (kids me) w) as (_ & _ & A). destruct (unlink_stores_links_only me k3 w3) as (_ & _ & B).
    specialize (A t). specialize (B t). rewrite Hkt, Ha in A. rewrite Ha3, Hb in B. inversion A; inversion B; subst. by etrans.
  - rewrite Epb, Epa. split.
    + intros Hne. rewrite decide_False; [done|]. intros Hin. destruct (kid_parent F me _ t Hl Hin) as (kc & Hkc & E).
      rewrite (lk_get _ _ _ Hkt) in Hkc. injection Hkc as <-. by apply Hne.
    + intros E. rewrite decide_True; [done|]. destruct (fo_home _ _ _ _ F t _ (lk_get _ _ _ Hkt)) as [[E1 _]|(q & _ & Hin)]; [done| |].
      * cbn in E1. pose proof (fo_id _ _ _ _ F _ _ Hl). lia.
      * cbn in Hin. by rewrite E in Hin.
Qed.

Lemma ix_close_spec me w k :
  forest_ok (lk w) None -> sess_ok (sm w) (sessions w) -> ps w !! me = Some k ->
  exists w', ix_close me w = Ret tt w' /\ forest_ok (lk w') None /\ sess_ok (sm w') (sessions w') /\ ps w' !! me = None /\
    log w' = log w ++ (EWakeMsg ∘ dm_addr <$> p_zombies k) /\
    forall t, t <> me -> option_Forall2 (parted me) (ps w !! t) (ps w' !! t).
Proof.
  intros (kids & orph & F) Hs Hk. pose proof (lk_get _ _ _ Hk) as Hl. unfold ix_close. rewrite Hk.
  destruct (fo_kids _ _ _ _ F me _ Hl) as (Eh & Hseg & Hnd). cbn in Eh. rewrite Eh.
  rewrite (orphan_loop_spec me (kids me) w 0); [|by eapply (zero_not_kid F)|done|done|pose proof (kids_length _ _ _ _ _ F Hk); unfold fuel_of; lia].
  cbn [obind]. set (w1 := orphan_stores (kids me) w). pose proof (orphan_stores_links_only (kids me) w) as K1. fold w1 in K1.
  destruct (orphan_stores_get (kids me) me w k Hk) as (k1 & Hk1 & _). fold w1 in Hk1.
  rewrite upd_store by by rewrite Hk1. cbn [obind]. set (w2 := store me (fun k => set_p_cptr k 0) w1).
  assert (links_only w w2) as K2 by (etrans; [exact K1|apply store_links_only; by_same_rest]).
  pose proof (sm_links_only _ _ K2) as S2. destruct K2 as (Ess & Elog & K2).
  destruct (session_leave_spec me (u_session k) w2) as (ss & -> & Hss).
  { by rewrite S2, Ess. } { rewrite S2. unfold sm. by rewrite lookup_fmap, Hk. }
  cbn [obind]. set (w3 := set_sessions w2 ss).
  assert (ps w3 !! me = Some (set_p_cptr k1 0)) as Hk3 by (cbn; by rewrite lookup_alter_eq, Hk1).
  rewrite Hk3. set (k3 := set_p_cptr k1 0) in *.
  assert (forest (lk w3) (fun q => if decide (q = me) then [] else kids q) (kids me :: orph) None) as F3.
  { change (lk w3) with (lk w2). unfold w2. rewrite (lk_store _ _ (set_l_c 0)) by done. unfold w1. rewrite lk_orphan_stores.
    by eapply forest_orphans. }
  rewrite (unlink_code _ _ _ _ _ _ _ F3 Hk3). set (w4 := unlink_stores me k3 w3).
  pose proof (unlink_stores_links_only me k3 w3) as K4. fold w4 in K4. pose proof (sm_links_only _ _ K4) as S4. destruct K4 as (Ess4 & Elog4 & K4).
  destruct (unlink_stores_get me k3 w3 me) as [k4 Hk4]; [by eexists|]. fold w4 in Hk4. rewrite Hk4.
  destruct (free_zombies_eq (p_zombies k4) w4) as (Ep & Es & El). eexists. split; [done|].
  assert (p_zombies k4 = p_zombies k) as Ez.
  { pose proof (K4 me) as H4. rewrite Hk3, Hk4 in H4. inversion H4 as [? ? (? & ? & ? & ? & E4)|]. subst.
    pose proof (K2 me) as H2. unfold w2 in H2. rewrite Hk in H2. cbn in H2. rewrite lookup_alter_eq, Hk1 in H2. cbn in H2.
    inversion H2 as [? ? (? & ? & ? & ? & E2)|]. subst. fold k3 in E2. by rewrite E2. }
  split_and!.
  - unfold lk. cbn. rewrite Ep, fmap_delete. eapply (close_tail w3); [done|done|done].
  - unfold sm. cbn. rewrite Ep, Es, Ess4, fmap_delete. fold (sm w4). rewrite S4. exact Hss.
  - cbn. by rewrite lookup_delete_eq.
  - cbn. by rewrite El, Ez, Elog4, <- Elog.
  - intros t Ht. cbn. rewrite Ep, lookup_delete_ne by congruence. destruct (ps w !! t) as [kt|] eqn:Hkt.
    + destruct (close_frame w kids orph me k k3 ss t kt F Hl Ht Hkt) as (b & Hb & Pb).
      change (ps w4 !! t = Some b) in Hb. rewrite Hb. by constructor.
    + specialize (K2 t). specialize (K4 t). rewrite Hkt in K2. change (ps w2 !! t) with (ps w3 !! t) in K2.
      destruct (ps w3 !! t), (ps w4 !! t); inversion K2; inversion K4; constructor.
Qed.
