(* ===== verification/ProcOps.v ===== *)
(** * Processes: exit and wait keep the invariant

    [procs_ok]: the sibling lists are consistent, each session counts its
    processes, no process is its own parent, and each death message is that of
    one process that is still there. *)

From S2P Require Import Prelude Signals Timers ProcTree Proc ProcInv.
Import Sig Proc.

(** ** The invariant *)

(** [dm] waits to be reaped by [p]. *)
Definition is_dm (w : ptree) (p : Z) (dm : death_msg) : Prop := exists k, ps w !! p = Some k /\ dm ∈ p_zombies k.

Record zomb_ok (w : ptree) : Prop := {
  zo_child p dm : is_dm w p dm -> is_Some (ps w !! dm_child dm) /\ dm_addr dm <> 0;
  zo_uniq p p' dm dm' : is_dm w p dm -> is_dm w p' dm' -> dm_addr dm = dm_addr dm' \/ dm_child dm = dm_child dm' ->
    p = p' /\ dm = dm';
  zo_nodup p k : ps w !! p = Some k -> NoDup (p_zombies k)
}.

Definition self_ok (w : ptree) : Prop := forall t k, ps w !! t = Some k -> p_pptr (pu k) <> t /\ p_opptr k <> t.

Record procs_ok (w : ptree) : Prop := {
  po_forest : forest_ok (lk w) None;
  po_sess : sess_ok (sm w) (sessions w);
  po_zomb : zomb_ok w;
  po_self : self_ok w
}.

(** ** Changes that touch none of that *)

Definition quiet1 (k k' : proc) : Prop :=
  link_of k' = link_of k /\ u_session k' = u_session k /\ p_zombies k' = p_zombies k /\ p_opptr k' = p_opptr k.

Definition quiet (w w' : ptree) : Prop :=
  sessions w' = sessions w /\ forall t, option_Forall2 quiet1 (ps w !! t) (ps w' !! t).

#[export] Instance quiet1_preorder : PreOrder quiet1.
Proof. split; [by intros k|]. intros k1 k2 k3 (A1 & A2 & A3 & A4) (B1 & B2 & B3 & B4). split_and!; congruence. Qed.

#[export] Instance quiet_preorder : PreOrder quiet.
Proof.
  split.
  - intros w. split; [done|]. intros t. by destruct (ps w !! t); constructor.
  - intros w1 w2 w3 (A1 & A3) (B1 & B3). split; [congruence|]. intros t.
    specialize (A3 t). specialize (B3 t). destruct (ps w1 !! t), (ps w2 !! t), (ps w3 !! t); inversion A3; inversion B3; subst; constructor.
    by etrans.
Qed.

Lemma store_quiet t f w : (forall k, quiet1 k (f k)) -> quiet w (store t f w).
Proof.
  intros Hf. split; [done|]. intros x. cbn. rewrite lookup_alter. case_decide; subst; destruct (ps w !! _); by constructor.
Qed.

Lemma put_quiet w t k k' : ps w !! t = Some k -> quiet1 k k' -> quiet w (put w t k').
Proof.
  intros Hk Hq. split; [done|]. intros x. cbn. destruct (decide (x = t)) as [->|Hne].
  - rewrite Hk, lookup_insert_eq. by constructor.
  - rewrite lookup_insert_ne by done. by destruct (ps w !! x); constructor.
Qed.

Lemma emit_quiet w e : quiet w (emit w e).
Proof. split; [done|]. intros t. cbn. by destruct (ps w !! t); constructor. Qed.

Lemma quiet_get w w' t k : quiet w w' -> ps w !! t = Some k -> exists k', ps w' !! t = Some k' /\ quiet1 k k'.
Proof. intros [_ H] Hk. specialize (H t). rewrite Hk in H. inversion H; subst; eauto. Qed.

Lemma quiet_back w w' t k' : quiet w w' -> ps w' !! t = Some k' -> exists k, ps w !! t = Some k /\ quiet1 k k'.
Proof. intros [_ H] Hk. specialize (H t). rewrite Hk in H. inversion H; subst; eauto. Qed.

Lemma quiet_lk w w' : quiet w w' -> lk w' = lk w.
Proof.
  intros [_ H]. unfold lk. apply map_eq. intros t. rewrite !lookup_fmap. specialize (H t).
  destruct (ps w !! t), (ps w' !! t); inversion H as [? ? (E & _)|]; subst; [|done]. cbn. by rewrite E.
Qed.

Lemma quiet_sm w w' : quiet w w' -> sm w' = sm w.
Proof.
  intros [_ H]. unfold sm. apply map_eq. intros t. rewrite !lookup_fmap. specialize (H t).
  destruct (ps w !! t), (ps w' !! t); inversion H as [? ? (_ & E & _)|]; subst; [|done]. cbn. by rewrite E.
Qed.

(** The death messages of [w'] are among those of [w], in the same lists, and
    no process with a message has gone. *)
Lemma zomb_part w w' : zomb_ok w ->
  (forall p dm, is_dm w' p dm -> is_Some (ps w !! dm_child dm) -> is_Some (ps w' !! dm_child dm)) ->
  (forall p k', ps w' !! p = Some k' -> p_zombies k' = [] \/ exists k, ps w !! p = Some k /\ sublist (p_zombies k') (p_zombies k)) ->
  zomb_ok w'.
Proof.
  intros [Z1 Z2 Z3] Hd Hs.
  assert (forall p dm, is_dm w' p dm -> is_dm w p dm) as Hi.
  { intros p dm (k' & Hk' & Hin). destruct (Hs p k' Hk') as [E|(k & Hk & Hsub)]; [rewrite E in Hin; by apply not_elem_of_nil in Hin|].
    exists k. split; [done|]. by eapply elem_of_sublist. }
  split.
  - intros p dm H. destruct (Z1 p dm (Hi p dm H)) as (H1 & H2). split; [by eapply Hd|done].
  - intros p p' dm dm' H1%Hi H2%Hi. by apply Z2.
  - intros p k' Hk'. destruct (Hs p k' Hk') as [->|(k & Hk & Hsub)]; [constructor|]. eapply sublist_NoDup; [by eapply Z3|done].
Qed.

Lemma zomb_sub w w' : zomb_ok w -> (forall t, is_Some (ps w !! t) -> is_Some (ps w' !! t)) ->
  (forall p k', ps w' !! p = Some k' -> exists k, ps w !! p = Some k /\ sublist (p_zombies k') (p_zombies k)) -> zomb_ok w'.
Proof. intros Hz Hd Hs. apply (zomb_part w); [done|intros p dm _; apply Hd|]. intros p k' Hk'. right. by apply Hs. Qed.

Lemma quiet_is_dm w w' p dm : quiet w w' -> is_dm w' p dm <-> is_dm w p dm.
Proof.
  intros H. split; intros (k & Hk & Hin).
  - destruct (quiet_back _ _ _ _ H Hk) as (k0 & Hk0 & _ & _ & E & _). exists k0. split; [done|]. by rewrite <- E.
  - destruct (quiet_get _ _ _ _ H Hk) as (k0 & Hk0 & _ & _ & E & _). exists k0. split; [done|]. by rewrite E.
Qed.

Lemma quiet_ok w w' : quiet w w' -> procs_ok w -> procs_ok w'.
Proof.
  intros H [P1 P2 P3 P4]. pose proof H as [Es _]. split.
  - by rewrite (quiet_lk _ _ H).
  - by rewrite (quiet_sm _ _ H), Es.
  - apply (zomb_sub w); [done| |].
    + intros t [k Hk]. destruct (quiet_get _ _ _ _ H Hk) as (k' & Hk' & _). by exists k'.
    + intros p k' Hk'. destruct (quiet_back _ _ _ _ H Hk') as (k & Hk & _ & _ & E & _). exists k. split; [done|]. by rewrite E.
  - intros t k' Hk'. destruct (quiet_back _ _ _ _ H Hk') as (k & Hk & E1 & _ & _ & E4). destruct (P4 t k Hk).
    apply (f_equal l_p) in E1. cbn in E1. by rewrite E1, E4.
Qed.

(** A change of the struct user that keeps the links. *)
Lemma set_pu_quiet k u : keeps_tree (pu k) u -> quiet1 k (set_pu k u).
Proof. intros (E1 & E2 & E3 & _). split; [|done]. unfold link_of. cbn. congruence. Qed.

Lemma upd_user_quiet t f w : (forall u, keeps_tree u (f u)) -> is_Some (ps w !! t) ->
  upd_user t f w = Ret tt (store t (fun k => set_pu k (f (pu k))) w) /\ quiet w (store t (fun k => set_pu k (f (pu k))) w).
Proof. intros Hf Ht. split; [by apply upd_store|]. apply store_quiet. intros k. by apply set_pu_quiet. Qed.

Lemma keeps_refl u : keeps_tree u u.
Proof. by split_and!. Qed.

(** [CURSIG] keeps the links. *)
Lemma issig_restart_keeps mask p : keeps_tree p (snd (issig_restart mask p)).
Proof. unfold issig_restart. by repeat case_match. Qed.

Lemma sendsig_keeps p c sig mask code addr : keeps_tree p (sendsig p c sig mask code addr).
Proof. unfold sendsig. by destruct (_ && _). Qed.

Lemma issig_loop_keeps fuel : forall sr p r w p', issig_loop fuel sr [] p = Ret (r, w) p' -> keeps_tree p p'.
Proof.
  induction fuel as [|fuel IH]; intros sr p r w p'; [done|]. cbn [issig_loop].
  destruct (_ =? 0); [intros [_ <-]%Ret_inj; apply keeps_refl|].
  destruct (_ && _); [intros H%IH; exact H|].
  destruct (_ && _).
  - destruct sr; [intros [_ <-]%Ret_inj; eapply keeps_trans; [|apply sendsig_keeps]; done|]. unfold stopped_process_handler. cbn. done.
  - destruct (aget _ _); [|done]. destruct (takes _ _); [intros [_ <-]%Ret_inj; apply keeps_refl|]. intros H%IH. exact H.
Qed.

Lemma CURSIG_keeps sr p r w p' : CURSIG sr [] p = Ret (r, w) p' -> keeps_tree p p'.
Proof.
  unfold CURSIG. destruct (_ || _); [intros [_ <-]%Ret_inj; apply keeps_refl|]. unfold issig.
  destruct (negb _); [|apply issig_loop_keeps].
  pose proof (issig_restart_keeps (u_mask_state p) (set_u_mask_state p 0)) as K. destruct (issig_restart _ _) as [sig p1]. cbn in K.
  destruct (sig =? 0); [intros H%issig_loop_keeps; by eapply keeps_trans|].
  destruct (aget _ _); [|done]. destruct (takes _ _); [intros [_ <-]%Ret_inj; exact K|].
  intros H%issig_loop_keeps. eapply keeps_trans; [exact K|exact H].
Qed.

Lemma sleep_begin_quiet sr me chan w b w' : sleep_begin sr me chan w = Ret b w' -> quiet w w'.
Proof.
  unfold sleep_begin. destruct (ps w !! me) as [k|] eqn:Hk; [|done].
  destruct (CURSIG sr [] (pu k)) as [[r s] p|?|?| |] eqn:E; try done. apply CURSIG_keeps in E.
  destruct (negb _); intros [_ <-]%Ret_inj; (eapply put_quiet; [done|]); by apply set_pu_quiet.
Qed.

Lemma sleep_end_quiet sr me w w' : sleep_end sr me w = Ret tt w' -> quiet w w'.
Proof.
  unfold sleep_end. destruct (ps w !! me) as [k|] eqn:Hk; [|done].
  destruct (CURSIG sr [] (pu k)) as [[r s] p|?|?| |] eqn:E; try done. apply CURSIG_keeps in E.
  intros [_ <-]%Ret_inj. eapply put_quiet; [done|]. apply set_pu_quiet. by destruct (r =? 0).
Qed.

Lemma wait4_resume_quiet sr ext me w w' : wait4_resume sr ext me w = Ret tt w' -> quiet w w'.
Proof.
  unfold wait4_resume. destruct (ps w !! me) as [k|] eqn:Hk; [|done].
  destruct (CURSIG sr [] (pu k)) as [[r s] p|?|?| |] eqn:E; try done. apply CURSIG_keeps in E.
  intros [_ <-]%Ret_inj. eapply put_quiet; [done|]. apply set_pu_quiet.
  destruct (r =? 0); [done|]. eapply keeps_trans; [done|apply setrun_keeps].
Qed.

Lemma psignal_proc_quiet ext t sig w : is_Some (ps w !! t) ->
  exists w', psignal_proc ext t sig w = Ret tt w' /\ quiet w w' /\ log w' = log w /\
    forall x, x <> t -> ps w' !! x = ps w !! x.
Proof.
  intros Ht. destruct (upd_user_quiet t (psignal (ext t) sig) w) as [E Q]; [apply psignal_keeps|done|].
  eexists. split; [exact E|]. split; [done|]. split; [done|]. intros x Hx. cbn. by rewrite lookup_alter_ne.
Qed.

Lemma fail_spec me e w k : ps w !! me = Some k ->
  fail me e w = Ret (-1) (put w me (set_pu k (set_u_errno (pu k) e))) /\ quiet w (put w me (set_pu k (set_u_errno (pu k) e))).
Proof.
  intros Hk. unfold fail, upd_user, upd. rewrite Hk. split; [done|]. eapply put_quiet; [done|]. by apply set_pu_quiet.
Qed.

(** ** exit *)

Lemma store_zombies_ok t f w : procs_ok w -> (forall k, sublist (f (p_zombies k)) (p_zombies k)) ->
  procs_ok (store t (fun k => set_p_zombies k (f (p_zombies k))) w).
Proof.
  intros [P1 P2 P3 P4] Hf. split.
  - by rewrite lk_store_same.
  - by rewrite sm_store_same.
  - apply (zomb_sub w); [done|by intros x; rewrite store_is_Some|]. intros p k'. cbn. rewrite lookup_alter. case_decide; subst.
    + destruct (ps w !! p) as [k|]; [|done]. cbn. intros [= <-]. exists k. split; [done|]. apply Hf.
    + intros Hk. by exists k'.
  - intros x k'. cbn. rewrite lookup_alter. case_decide; subst; [|apply P4].
    destruct (ps w !! x) as [k|] eqn:Hk; [|done]. cbn. intros [= <-]. by apply (P4 x k).
Qed.

(** A new message at the end of a list. *)
Lemma add_zombie_ok w t kt d : procs_ok w -> ps w !! t = Some kt -> is_Some (ps w !! dm_child d) -> dm_addr d <> 0 ->
  (forall p d', is_dm w p d' -> dm_addr d' <> dm_addr d /\ dm_child d' <> dm_child d) ->
  procs_ok (store t (fun k => set_p_zombies k (p_zombies k ++ [d])) w).
Proof.
  intros [P1 P2 [Z1 Z2 Z3] P4] Ht Hc Ha Hfresh. split.
  - by rewrite lk_store_same.
  - by rewrite sm_store_same.
  - assert (forall p d', is_dm (store t (fun k => set_p_zombies k (p_zombies k ++ [d])) w) p d' -> is_dm w p d' \/ (p = t /\ d' = d)) as Hi.
    { intros p d' (k' & Hk' & Hin). cbn in Hk'. rewrite lookup_alter in Hk'. case_decide; subst; [|left; by exists k'].
      rewrite Ht in Hk'. cbn in Hk'. injection Hk' as <-. cbn in Hin.
      apply elem_of_app in Hin as [Hin| ->%list_elem_of_singleton]; [left; by exists kt|by right]. }
    split.
    + intros p d' [H|[-> ->]]%Hi; rewrite store_is_Some; [by apply (Z1 p)|done].
    + intros p p' d1 d2 [H1|[-> ->]]%Hi [H2|[-> ->]]%Hi Heq; [by apply Z2| | |done].
      * destruct (Hfresh _ _ H1). by destruct Heq.
      * destruct (Hfresh _ _ H2). destruct Heq; congruence.
    + intros p k'. cbn. rewrite lookup_alter. case_decide; subst; [|apply Z3]. rewrite Ht. cbn. intros [= <-]. cbn.
      apply NoDup_app. split; [by eapply Z3|]. split; [|apply NoDup_singleton].
      intros x Hx ->%list_elem_of_singleton. destruct (Hfresh p d); [by exists kt|done].
  - intros x k'. cbn. rewrite lookup_alter. case_decide; subst; [|apply P4].
    destruct (ps w !! x) as [k|] eqn:Hk; [|done]. cbn. intros [= <-]. by apply (P4 x k).
Qed.

(** No signal can be delivered: [exit] and [_exit] have blocked them all. *)
Definition no_signal (u : user) : Prop := Z.land (p_flag u) STRC = 0 /\ bclr (p_sig u) (p_sigmask u) = 0.

Lemma no_signal_CURSIG sr u : no_signal u -> CURSIG sr [] u = Ret (0, []) u.
Proof. intros [H1 H2]. unfold CURSIG. rewrite H1, H2. cbn. by rewrite orb_true_r. Qed.

(** [me] can go on to [send_death_msg] with a message at [dm]. *)
Record may_die (w : ptree) (dm me : Z) (mu : proc) : Prop := {
  md_me : ps w !! me = Some mu;
  md_parent : 1 < p_pptr (pu mu);
  md_signal : no_signal (pu mu);
  md_fresh p d : is_dm w p d -> dm_addr d <> dm /\ dm_child d <> me
}.

Lemma parent_alive w me k : procs_ok w -> ps w !! me = Some k -> 1 < p_pptr (pu k) -> exists pk, ps w !! p_pptr (pu k) = Some pk.
Proof.
  intros [(kids & orph & F) _ _ _] Hk Hp. destruct (forest_around _ _ _ _ _ F Hk) as (_ & _ & _ & [E|[_ [pk Hpk]]]); [lia|by exists pk].
Qed.

(** What a call leaves: the invariant, and the death messages of [zs]. *)
Definition zombies_of (w : ptree) (p : Z) : list death_msg := match ps w !! p with Some k => p_zombies k | None => [] end.

Lemma quiet_zombies w w' p : quiet w w' -> zombies_of w' p = zombies_of w p.
Proof.
  intros [_ H]. unfold zombies_of. specialize (H p). destruct (ps w !! p), (ps w' !! p); inversion H as [? ? (_ & _ & E & _)|]; subst; done.
Qed.

Lemma store_zombies_of t f w p : zombies_of (store t f w) p =
  if decide (p = t) then match ps w !! t with Some k => p_zombies (f k) | None => [] end else zombies_of w p.
Proof. unfold zombies_of. cbn. rewrite lookup_alter. repeat case_decide; subst; try done. by destruct (ps w !! _). Qed.

Lemma is_dm_zombies w p d : is_dm w p d <-> d ∈ zombies_of w p.
Proof.
  unfold is_dm, zombies_of. split; [by intros (k & -> & H)|]. destruct (ps w !! p) as [k|]; [|by intros ?%not_elem_of_nil]. intros H. by exists k.
Qed.

(** The processes seen by [w'] are those of [w], but for states and messages. *)
Definition same_procs (w w' : ptree) : Prop :=
  forall t, option_Forall2 (fun k k' => link_of k' = link_of k /\ p_opptr k' = p_opptr k) (ps w !! t) (ps w' !! t).

Lemma quiet_same_procs w w' : quiet w w' -> same_procs w w'.
Proof. intros [_ H] t. specialize (H t). destruct (ps w !! t), (ps w' !! t); inversion H as [? ? (? & _ & _ & ?)|]; subst; by constructor. Qed.

Lemma same_procs_trans w1 w2 w3 : same_procs w1 w2 -> same_procs w2 w3 -> same_procs w1 w3.
Proof.
  intros H1 H2 t. specialize (H1 t). specialize (H2 t).
  destruct (ps w1 !! t), (ps w2 !! t), (ps w3 !! t); inversion H1 as [? ? [? ?]|]; inversion H2 as [? ? [? ?]|]; subst; constructor.
  split; congruence.
Qed.

Lemma store_same_procs t f w : (forall k, link_of (f k) = link_of k /\ p_opptr (f k) = p_opptr k) -> same_procs w (store t f w).
Proof. intros Hf x. cbn. rewrite lookup_alter. case_decide; subst; destruct (ps w !! _); constructor; auto. Qed.

Lemma same_procs_lk w w' : same_procs w w' -> lk w' = lk w.
Proof.
  intros H. unfold lk. apply map_eq. intros t. rewrite !lookup_fmap. specialize (H t).
  destruct (ps w !! t), (ps w' !! t); inversion H as [? ? (E & _)|]; subst; [|done]. cbn. by rewrite E.
Qed.

(** The wake-up and the reply that follow the message. *)
Lemma death_log_quiet w pk parent vm :
  quiet w (let w := match p_wchan (pu pk) with WSelf => if p_stat (pu pk) =? SSLEEP then emit w (EWakeUser parent) else w | _ => w end in
           if vm =? 0 then w else emit w (EReply vm)).
Proof.
  cbv zeta. set (w1 := match p_wchan (pu pk) with WSelf => _ | _ => _ end).
  assert (quiet w w1) as H1 by (unfold w1; repeat case_match; try done; apply emit_quiet).
  destruct (vm =? 0); [done|]. etrans; [done|apply emit_quiet].
Qed.

Lemma send_death_msg_spec sr ext dm me w mu :
  procs_ok w -> may_die w dm me mu ->
  exists w', send_death_msg sr ext dm me w = Ret (negb (dm =? 0)) w' /\ procs_ok w' /\ same_procs w w' /\
    forall p, zombies_of w' p = if decide (p = p_pptr (pu mu) /\ dm <> 0) then zombies_of w p ++ [death_of dm me mu] else zombies_of w p.
Proof.
  intros H [Hme Hpp Hsig Hfresh]. destruct (parent_alive _ _ _ H Hme Hpp) as [pk Hpk].
  destruct (po_self _ H _ _ Hme) as [Hself _]. unfold send_death_msg. rewrite Hme. set (parent := p_pptr (pu mu)) in *.
  set (m := if dm =? 0 then _ else _).
  assert (exists w1, m = Ret tt w1 /\ procs_ok w1 /\ same_procs w w1 /\ ps w1 !! me = Some mu /\ is_Some (ps w1 !! parent) /\
    forall p, zombies_of w1 p = if decide (p = parent /\ dm <> 0) then zombies_of w p ++ [death_of dm me mu] else zombies_of w p)
    as (w1 & -> & H1 & S1 & Hme1 & Hp1 & Z1).
  { unfold m. destruct (Z.eqb_spec dm 0) as [->|Hdm].
    - exists w. split_and!; [done|done|by apply quiet_same_procs|done|by eexists|]. intros p. by rewrite decide_False by tauto.
    - rewrite upd_store by by eexists. eexists. split; [done|]. split_and!.
      + eapply add_zombie_ok; [done|done|cbn; by eexists|done|]. intros p d Hd. by apply (Hfresh p).
      + by apply store_same_procs.
      + cbn. by rewrite lookup_alter_ne by congruence.
      + rewrite store_is_Some. by eexists.
      + intros p. rewrite store_zombies_of, Hpk. destruct (decide (p = parent)) as [->|Hne].
        * rewrite decide_True by done. unfold zombies_of. by rewrite Hpk.
        * by rewrite decide_False by tauto. }
  cbn [obind]. destruct (psignal_proc_quiet ext parent SIGCHLD w1 Hp1) as (w2 & -> & Q2 & _ & Ho2). cbn [obind].
  destruct Hp1 as [pk1 Hpk1]. destruct (quiet_get _ _ _ _ Q2 Hpk1) as (pk2 & Hpk2 & _). rewrite Hpk2.
  pose proof (death_log_quiet w2 pk2 parent (p_vfork_msg mu)) as Q3. cbv zeta in Q3.
  set (w3 := if p_vfork_msg mu =? 0 then _ else _) in *.
  assert (ps w3 !! me = Some mu) as Hme3.
  { assert (ps w3 = ps w2) as -> by (unfold w3; by repeat case_match). by rewrite Ho2 by congruence. }
  assert (quiet w1 w3) as Q13 by by etrans. destruct (Z.eqb_spec dm 0) as [->|Hdm]; cbn [negb].
  - exists w3. split; [done|]. split; [by eapply quiet_ok|]. split; [eapply same_procs_trans; [done|by apply quiet_same_procs]|].
    intros p. by rewrite (quiet_zombies _ _ _ Q13), Z1.
  - unfold sleep_begin. rewrite Hme3, (no_signal_CURSIG sr _ Hsig). cbn [Z.eqb negb]. eexists. split; [done|].
    assert (quiet w1 (put w3 me (set_pu mu (set_wchan (set_p_stat (pu mu) SSLEEP) (WOther dm))))) as Q14.
    { etrans; [done|]. eapply put_quiet; [done|]. by apply set_pu_quiet. }
    split; [by eapply quiet_ok|]. split; [eapply same_procs_trans; [done|by apply quiet_same_procs]|].
    intros p. by rewrite (quiet_zombies _ _ _ Q14), Z1.
Qed.

(** ** wait4 *)

Lemma sublist_filter_dm (P : death_msg -> Prop) `{forall d, Decision (P d)} l : sublist (filter P l) l.
Proof. apply sublist_filter. Qed.

Lemma reap_spec me dm w : procs_ok w -> is_dm w me dm ->
  exists w', reap me dm w = Ret (WRet (dm_child dm) (Some (dm_status dm)) (Some (dm_rusage dm))) w' /\ procs_ok w' /\
    same_procs w w' /\ log w' = log w ++ [EWakeMsg (dm_addr dm)] /\
    (forall p, zombies_of w' p = if decide (p = me) then filter (fun d => dm_addr d <> dm_addr dm) (zombies_of w me) else zombies_of w p) /\
    exists c, ps w' !! dm_child dm = Some c /\ p_stat (pu c) = SZOMB.
Proof.
  intros H Hdm. pose proof Hdm as (k & Hk & Hin). destruct (zo_child _ (po_zomb _ H) me dm Hdm) as [Hc _].
  unfold reap. rewrite upd_store by by eexists. cbn [obind].
  set (w1 := store me _ w). assert (procs_ok w1) as H1 by (apply (store_zombies_ok me (filter (fun d => dm_addr d <> dm_addr dm))); [done|intros; apply sublist_filter]).
  destruct (upd_user_quiet (dm_child dm) (fun p => set_p_stat p SZOMB) w1) as [-> Q2]; [by intros; split_and!|by apply store_is_Some|]. cbn [obind].
  eexists. split; [done|]. assert (quiet w1 (emit (store (dm_child dm) (fun k0 => set_pu k0 (set_p_stat (pu k0) SZOMB)) w1) (EWakeMsg (dm_addr dm)))) as Q3
    by (etrans; [done|apply emit_quiet]).
  split; [by eapply quiet_ok|]. split; [eapply same_procs_trans; [|by apply quiet_same_procs]; by apply store_same_procs|]. split; [done|]. split.
  - intros p. rewrite (quiet_zombies _ _ _ Q3). unfold w1. rewrite store_zombies_of. unfold zombies_of. by rewrite Hk.
  - assert (is_Some (ps w1 !! dm_child dm)) as [c1 Hc1] by by apply store_is_Some.
    cbn [ps emit]. rewrite (store_get _ _ _ _ _ Hc1), decide_True by done. by eexists.
Qed.

(** Links and old parents may change. *)
Lemma links_only_zombies w w' p : links_only w w' -> zombies_of w' p = zombies_of w p.
Proof.
  intros (_ & _ & H). unfold zombies_of. specialize (H p). destruct (ps w !! p), (ps w' !! p); inversion H as [? ? (? & ? & ? & ? & ->)|]; subst; done.
Qed.

Lemma links_only_get w w' t k : links_only w w' -> ps w !! t = Some k -> exists k', ps w' !! t = Some k' /\ same_rest k k'.
Proof. intros (_ & _ & H) Hk. specialize (H t). rewrite Hk in H. inversion H; subst; eauto. Qed.

Lemma links_only_back w w' t k' : links_only w w' -> ps w' !! t = Some k' -> exists k, ps w !! t = Some k /\ same_rest k k'.
Proof. intros (_ & _ & H) Hk. specialize (H t). rewrite Hk in H. inversion H; subst; eauto. Qed.

Lemma reparent_ok child parent w k : procs_ok w -> ps w !! child = Some k -> is_Some (ps w !! parent) -> parent <> child ->
  exists w', proc_reparent child parent w = Ret tt w' /\ procs_ok w' /\ links_only w w' /\
    forall t kt, ps w !! t = Some kt -> exists kt', ps w' !! t = Some kt' /\
      p_pptr (pu kt') = if decide (t = child) then parent else p_pptr (pu kt).
Proof.
  intros [P1 P2 P3 P4] Hk Hp Hne. destruct (proc_reparent_spec w child parent k P1 Hk Hp Hne) as (w' & E & F & L & Hpar).
  exists w'. split; [done|]. split; [|done]. pose proof L as (Es & _ & _). split.
  - done.
  - by rewrite (sm_links_only _ _ L), Es.
  - apply (zomb_sub w); [done| |].
    + intros t [kt Ht]. destruct (links_only_get _ _ _ _ L Ht) as (k' & Hk' & _). by exists k'.
    + intros p k' Hk'. destruct (links_only_back _ _ _ _ L Hk') as (k0 & Hk0 & (? & ? & ? & ? & ->)). by exists k0.
  - intros t k' Hk'. destruct (links_only_back _ _ _ _ L Hk') as (k0 & Hk0 & Hs).
    destruct (Hpar t k0 Hk0) as (k1 & Hk1 & Ep). assert (k1 = k') as -> by congruence. destruct (P4 t k0 Hk0).
    split; [rewrite Ep; case_decide; congruence|]. destruct Hs as (? & ? & ? & ? & ->). done.
Qed.

Lemma set_opptr_ok t v w : procs_ok w -> v <> t -> procs_ok (store t (fun k => set_p_opptr k v) w).
Proof.
  intros [P1 P2 P3 P4] Hv. split.
  - by rewrite lk_store_same.
  - by rewrite sm_store_same.
  - apply (zomb_sub w); [done|by intros x; rewrite store_is_Some|]. intros p k'. cbn. rewrite lookup_alter. case_decide; subst.
    + destruct (ps w !! p) as [k|]; [|done]. cbn. intros [= <-]. by exists k.
    + intros Hk. by exists k'.
  - intros x k'. cbn. rewrite lookup_alter. case_decide; subst; [|apply P4].
    destruct (ps w !! x) as [k|] eqn:Hk; [|done]. cbn. intros [= <-]. cbn. split; [by apply (P4 x k)|done].
Qed.

Lemma find_task_spec e me pid w : is_Some (ps w !! me) -> pid <> 0 -> find_task e me pid w = 0 \/
  find_task e me pid w = pid /\ is_Some (ps w !! pid).
Proof.
  intros Hme Hpid. unfold find_task, pfind, users. cbn. destruct (Z.eqb_spec pid 0); [done|].
  destruct (negb false && _); [|by left]. set (n1 := scan _ _ _). set (n2 := if n1 =? 0 then _ else _).
  destruct (n2 =? 0); [by left|]. destruct (is_task e pid); [|by left]. rewrite lookup_fmap.
  destruct (ps w !! pid) as [k|] eqn:Hk; cbn; [right|by left]. split; [done|by eexists].
Qed.

Lemma give_back_spec ext child t w k : procs_ok w -> ps w !! child = Some k -> is_Some (ps w !! t) -> t <> child -> 0 <> child ->
  exists w', give_back ext child t w = Ret (WRet child None None) w' /\ procs_ok w' /\
    forall p, zombies_of w' p = zombies_of w p.
Proof.
  intros H Hk Ht Hne H0. unfold give_back.
  destruct (reparent_ok child t w k H Hk Ht Hne) as (w1 & -> & H1 & L1 & _). cbn [obind].
  destruct (links_only_get _ _ _ _ L1 Hk) as (k1 & Hk1 & _). rewrite upd_store by by eexists. cbn [obind].
  pose proof (set_opptr_ok child 0 w1 H1 H0) as H2. destruct Ht as [kt Hkt]. destruct (links_only_get _ _ _ _ L1 Hkt) as (kt1 & Hkt1 & _).
  destruct (psignal_proc_quiet ext t SIGCHLD (store child (fun k => set_p_opptr k 0) w1)) as (w3 & -> & Q3 & _); [rewrite store_is_Some; by eexists|].
  cbn [obind]. eexists. split; [done|]. assert (quiet w3 (emit w3 (EWakeTask t))) as Q4 by apply emit_quiet.
  split; [exact (quiet_ok _ _ Q4 (quiet_ok _ _ Q3 H2))|]. intros p. rewrite (quiet_zombies _ _ _ Q4), (quiet_zombies _ _ _ Q3), store_zombies_of, <- (links_only_zombies _ _ p L1).
  case_decide; subst; [|done]. unfold zombies_of. by rewrite Hk1.
Qed.

(** The walks over the children. *)
Definition living (w : ptree) (pid mypgrp c : Z) : bool :=
  match ps w !! c with
  | Some k => negb (p_stat (pu k) =? SZOMB) && wants pid mypgrp c (p_pgrp (pu k))
  | None => false
  end.

Definition stopped_child (w : ptree) (pid options mypgrp c : Z) : bool :=
  match ps w !! c with
  | Some k => traced_match pid mypgrp c (p_pgrp (pu k)) && (p_stat (pu k) =? SSTOP) && negb (bset (p_flag (pu k)) SWTED)
      && (bset (p_flag (pu k)) STRC || bset options WUNTRACED)
  | None => false
  end.

Lemma possible_childs_spec pid mypgrp w par l : forall y fuel, 0 ∉ l -> seg (lk w) par y l 0 -> (length l <= fuel)%nat ->
  possible_childs fuel pid mypgrp (hd 0 l) w = Ret (existsb (living w pid mypgrp) l) w.
Proof.
  induction l as [|c l IH]; intros y fuel H0 Hs Hf; [by destruct fuel|]. rewrite elem_of_cons in H0.
  destruct Hs as [(lc & Hc & _ & _ & Eo) Hs]. apply lk_back in Hc as (k & Hk & ->). cbn in Eo.
  destruct fuel as [|fuel]; cbn in Hf; [lia|]. cbn [hd possible_childs existsb]. destruct (Z.eqb_spec c 0) as [->|]; [tauto|].
  unfold living at 1. rewrite Hk. destruct (_ && _); [done|]. rewrite Eo. apply (IH c); [tauto|done|lia].
Qed.

Lemma traced_child_spec pid options mypgrp w par l : forall y fuel, 0 ∉ l -> seg (lk w) par y l 0 -> (length l <= fuel)%nat ->
  match find (stopped_child w pid options mypgrp) l with
  | Some c => exists k, ps w !! c = Some k /\ traced_child fuel pid options mypgrp (hd 0 l) w =
      Ret (Some (c, W_STOPCODE (p_xstat (pu k)))) (put w c (set_pu k (set_p_flag (pu k) (bor (p_flag (pu k)) SWTED))))
  | None => traced_child fuel pid options mypgrp (hd 0 l) w = Ret None w
  end.
Proof.
  induction l as [|c l IH]; intros y fuel H0 Hs Hf; [by destruct fuel|]. rewrite elem_of_cons in H0.
  destruct Hs as [(lc & Hc & _ & _ & Eo) Hs]. apply lk_back in Hc as (k & Hk & ->). cbn in Eo.
  destruct fuel as [|fuel]; cbn in Hf; [lia|]. cbn [hd traced_child find]. destruct (Z.eqb_spec c 0) as [->|]; [tauto|].
  assert (stopped_child w pid options mypgrp c = traced_match pid mypgrp c (p_pgrp (pu k)) && (p_stat (pu k) =? SSTOP) &&
    negb (bset (p_flag (pu k)) SWTED) && (bset (p_flag (pu k)) STRC || bset options WUNTRACED)) as E by (unfold stopped_child; by rewrite Hk).
  rewrite Hk, E. destruct (traced_match _ _ _ _ && _ && _ && _); [by exists k|]. rewrite Eo. apply (IH c); [tauto|done|lia].
Qed.

Definition child (w : ptree) (p c : Z) : Prop := exists k, ps w !! c = Some k /\ p_pptr (pu k) = p.

Lemma child_kids w kids orph p kp c : forest (lk w) kids orph None -> ps w !! p = Some kp -> c ∈ kids p <-> child w p c.
Proof.
  intros F Hp. split.
  - intros Hc. destruct (kid_parent F p _ c (lk_get _ _ _ Hp) Hc) as (lc & Hlc & E). apply lk_back in Hlc as (k & Hk & ->). by exists k.
  - intros (k & Hk & E). destruct (fo_home _ _ _ _ F c _ (lk_get _ _ _ Hk)) as [[E1 _]|(q & _ & Hc)]; [done| |].
    + cbn in E1. pose proof (fo_id _ _ _ _ F _ _ (lk_get _ _ _ Hp)). lia.
    + cbn in Hc. by rewrite E in Hc.
Qed.

(** What a round returns when no child has died: a child that has stopped and
    is traced or asked for; otherwise ECHILD when no child is left to wait for,
    and 0 or a sleep when there is one. *)
Inductive living_post (w : ptree) (me pid options mypgrp : Z) : wait_result -> ptree -> Prop :=
| lp_stopped c kc : child w me c -> ps w !! c = Some kc -> stopped_child w pid options mypgrp c = true ->
    living_post w me pid options mypgrp (WRet c (Some (W_STOPCODE (p_xstat (pu kc)))) None)
      (put w c (set_pu kc (set_p_flag (pu kc) (bor (p_flag (pu kc)) SWTED))))
| lp_none k : (forall c, child w me c -> living w pid mypgrp c = false /\ stopped_child w pid options mypgrp c = false) ->
    ps w !! me = Some k ->
    living_post w me pid options mypgrp (WRet (-1) None None) (put w me (set_pu k (set_u_errno (pu k) ECHILD)))
| lp_wait c : child w me c -> living w pid mypgrp c = true ->
    (forall c, child w me c -> stopped_child w pid options mypgrp c = false) ->
    living_post w me pid options mypgrp (if bset options WNOHANG then WRet 0 None None else WSleep) w.

Lemma wait_living_spec me pid options w k : procs_ok w -> ps w !! me = Some k ->
  exists r w', wait_living me pid options w = Ret r w' /\ quiet w w' /\ living_post w me pid options (p_pgrp (pu k)) r w'.
Proof.
  intros [(kids & orph & F) _ _ _] Hk. unfold wait_living. rewrite Hk. pose proof (lk_get _ _ _ Hk) as Hl.
  destruct (fo_kids _ _ _ _ F me _ Hl) as (Eh & Hs & _). cbn in Eh. rewrite Eh.
  pose proof (zero_not_kid F me _ Hl) as H0. pose proof (kids_length _ _ _ _ _ F Hk) as Hlen.
  rewrite (possible_childs_spec _ _ w me (kids me) 0) by first [done|unfold fuel_of; lia]. cbn [obind].
  pose proof (traced_child_spec pid options (p_pgrp (pu k)) w me (kids me) 0 (fuel_of w) H0 Hs) as Ht.
  specialize (Ht ltac:(unfold fuel_of; lia)).
  destruct (find _ (kids me)) as [c|] eqn:Ef.
  - destruct Ht as (kc & Hkc & ->). cbn [obind]. apply find_some in Ef as [Hin Hst]. eexists _, _. split; [done|]. split.
    + eapply put_quiet; [done|]. by apply set_pu_quiet.
    + apply lp_stopped; [|done|done]. eapply child_kids; [done|done|]. by apply list_elem_of_In.
  - rewrite Ht. cbn [obind]. pose proof (find_none _ _ Ef) as Hns.
    assert (forall c, child w me c -> stopped_child w pid options (p_pgrp (pu k)) c = false) as Hst.
    { intros c Hc. apply Hns, list_elem_of_In. by eapply child_kids. }
    destruct (existsb _ (kids me)) eqn:Eb; cbn [negb].
    + apply existsb_exists in Eb as (c & Hin & Hliv). eexists _, w.
      assert (living_post w me pid options (p_pgrp (pu k)) (if bset options WNOHANG then WRet 0 None None else WSleep) w) as Hp.
      { eapply (lp_wait _ _ _ _ _ c); [|done|done]. eapply child_kids; [done|done|]. by apply list_elem_of_In. }
      split; [|split; [done|exact Hp]]. by destruct (bset options WNOHANG).
    + destruct (fail_spec me ECHILD w k Hk) as [-> Q]. cbn [obind]. eexists _, _. split; [done|]. split; [done|].
      apply lp_none; [|done]. intros c Hc. split; [|by apply Hst]. destruct (living w pid (p_pgrp (pu k)) c) eqn:El; [|done].
      assert (existsb (living w pid (p_pgrp (pu k))) (kids me) = true) as E; [|congruence].
      apply existsb_exists. exists c. split; [|done]. apply list_elem_of_In. by eapply child_kids.
Qed.

(** A round of wait4. *)
Lemma zombie_for_Some pid mypgrp l dm : zombie_for pid mypgrp l = Some dm -> dm ∈ l /\ wants pid mypgrp (dm_child dm) (dm_pgrp dm) = true.
Proof. intros [H1 H2]%find_some. split; [by apply list_elem_of_In|done]. Qed.

Lemma wait4_round_spec e ext me pid options w k : procs_ok w -> ps w !! me = Some k ->
  exists r w', wait4_round e ext me pid options w = Ret r w' /\ procs_ok w' /\
  match zombie_for pid (p_pgrp (pu k)) (p_zombies k) with
  | Some dm =>
    (exists cu, ps w !! dm_child dm = Some cu /\ p_opptr cu <> 0 /\ r = WRet (dm_child dm) None None /\
       forall p, zombies_of w' p = zombies_of w p) \/
    (reap me dm w = Ret r w' /\ r = WRet (dm_child dm) (Some (dm_status dm)) (Some (dm_rusage dm)))
  | None => quiet w w' /\ living_post w me pid options (p_pgrp (pu k)) r w'
  end.
Proof.
  intros H Hk. unfold wait4_round. rewrite Hk. destruct (zombie_for _ _ _) as [dm|] eqn:Ez.
  - apply zombie_for_Some in Ez as [Hin _]. assert (is_dm w me dm) as Hdm by by exists k.
    destruct (zo_child _ (po_zomb _ H) me dm Hdm) as [[cu Hcu] _]. rewrite Hcu.
    assert (forall (b : bool), exists r w', reap me dm w = Ret r w' /\ procs_ok w' /\
      r = WRet (dm_child dm) (Some (dm_status dm)) (Some (dm_rusage dm))) as Hreap.
    { intros _. destruct (reap_spec me dm w H Hdm) as (w' & E & H' & _). eexists _, _. split; [done|]. split; [done|done]. }
    destruct (Hreap true) as (r & w' & Er & Hr & ->). destruct (Z.eqb_spec (p_opptr cu) 0) as [E0|E0].
    { cbn [Z.eqb]. rewrite Er. eexists _, _. split; [done|]. split; [done|]. by right. }
    destruct (find_task_spec e me (p_opptr cu) w) as [->|[-> Ht]]; [by eexists|done| |].
    { cbn [Z.eqb]. rewrite Er. eexists _, _. split; [done|]. split; [done|]. by right. }
    destruct (Z.eqb_spec (p_opptr cu) 0); [done|]. destruct (po_self _ H _ _ Hcu) as [_ Hne].
    assert (0 <> dm_child dm) as Hc0.
    { destruct (po_forest _ H) as (kids & orph & F). pose proof (fo_id _ _ _ _ F _ _ (lk_get _ _ _ Hcu)). lia. }
    destruct (give_back_spec ext (dm_child dm) (p_opptr cu) w cu H Hcu Ht Hne Hc0) as (w2 & -> & H2 & Hz).
    eexists _, _. split; [done|]. split; [done|]. left. by exists cu.
  - destruct (wait_living_spec me pid options w k H Hk) as (r & w' & -> & Q & L). eexists _, _. split; [done|].
    split; [by eapply quiet_ok|]. done.
Qed.
