(* ===== verification/ProcTheorems.v ===== *)
(** * Processes: theorems

    The process tree over every run of vfork, exit, wait4, close and ptrace; how
    the status of a child reaches its parent; and the signals to a group, which
    need the tree to be one. *)

From S2P Require Import Prelude Signals Timers Proc ProcTree ProcInv ProcOps.
Import Sig Proc.

Lemma link_pptr k k' : link_of k' = link_of k -> p_pptr (pu k') = p_pptr (pu k).
Proof. intros E. by apply (f_equal l_p) in E. Qed.

(** ** vfork and close *)

Lemma ix_open_ok me w : procs_ok w -> ps w !! me = None -> 1 < me -> procs_ok (ix_open me w).
Proof.
  intros [P1 P2 P3 P4] Hme H1. split.
  - by apply ix_open_forest.
  - assert (sm (ix_open me w) = <[me := 0]> (sm w)) as -> by (unfold sm, ix_open; cbn; by rewrite fmap_insert).
    apply sess_open; [done|]. unfold sm. by rewrite lookup_fmap, Hme.
  - apply (zomb_part w); [done| |].
    + intros p dm _ Ht. unfold ix_open. cbn. destruct (decide (dm_child dm = me)) as [->|]; [by rewrite lookup_insert_eq; eexists|by rewrite lookup_insert_ne].
    + intros p k'. unfold ix_open. cbn. destruct (decide (p = me)) as [->|Hne]; [|rewrite lookup_insert_ne by done; intros Hk; right; by exists k'].
      rewrite lookup_insert_eq. intros [= <-]. by left.
  - intros t k. unfold ix_open. cbn. destruct (decide (t = me)) as [->|Hne]; [|rewrite lookup_insert_ne by done; apply P4].
    rewrite lookup_insert_eq. intros [= <-]. cbn. lia.
Qed.

(** [vfork] as seen from the tree: the child opens the library and links itself. *)
Definition vfork_child (me parent vm : Z) (w : ptree) : outcome ptree () := launch me parent vm (ix_open me w).

Lemma vfork_child_ok me parent vm w pk : procs_ok w -> ps w !! me = None -> 1 < me -> ps w !! parent = Some pk ->
  exists w', vfork_child me parent vm w = Ret tt w' /\ procs_ok w' /\ log w' = log w /\
    (exists k, ps w' !! me = Some k /\ p_pptr (pu k) = parent /\ p_pgrp (pu k) = p_pgrp (pu pk) /\ u_session k = u_session pk /\
       p_opptr k = 0 /\ p_zombies k = []) /\
    forall t, t <> me -> option_Forall2 calm (ps w !! t) (ps w' !! t).
Proof.
  intros H Hme H1 Hp. pose proof (ix_open_ok me w H Hme H1) as [Q1 Q2 Q3 Q4].
  assert (parent <> me) as Hne by congruence.
  destruct (launch_spec me parent vm (ix_open me w) (new_proc me) pk) as (w' & E & F & S & L & C & k & Hk & E1 & E2 & E3 & E4 & E5); try done.
  { unfold ix_open. cbn. by rewrite lookup_insert_eq. } { unfold ix_open. cbn. by rewrite lookup_insert_ne. }
  cbn in E4, E5.
  assert (forall t, t <> me -> option_Forall2 calm (ps w !! t) (ps w' !! t)) as Hall.
  { intros t Ht. specialize (C t Ht). unfold ix_open in C. cbn in C. by rewrite lookup_insert_ne in C by done. }
  assert (forall t kt, t <> me -> ps w !! t = Some kt -> exists kt', ps w' !! t = Some kt' /\ calm kt kt') as Hoth.
  { intros t kt Ht Hkt. specialize (Hall t Ht). rewrite Hkt in Hall. inversion Hall; subst; eauto. }
  assert (forall t kt', t <> me -> ps w' !! t = Some kt' -> exists kt, ps w !! t = Some kt /\ calm kt kt') as Hback.
  { intros t kt Ht Hkt. specialize (Hall t Ht). rewrite Hkt in Hall. inversion Hall; subst; eauto. }
  exists w'. split; [done|]. split; [|split; [done|split; [|done]]]; [|by exists k]. split; [done|done| |].
  - apply (zomb_part w); [apply (po_zomb _ H)| |].
    + intros p dm _ [kc Hkc]. destruct (Hoth (dm_child dm) kc) as (k' & Hk' & _); [congruence|done|by exists k'].
    + intros p k' Hk'. destruct (decide (p = me)) as [->|Hpm]; [left; congruence|right].
      destruct (Hback p k' Hpm Hk') as (k0 & Hk0 & [(? & ? & ? & ? & ->) _]). by exists k0.
  - intros t k' Hk'. destruct (decide (t = me)) as [->|Htm].
    + assert (k' = k) as -> by congruence. rewrite E1, E4. split; [done|lia].
    + destruct (Hback t k' Htm Hk') as (k0 & Hk0 & [Hr Ep]). rewrite Ep. destruct (po_self _ H t k0 Hk0) as [? ?].
      split; [done|]. by destruct Hr as (? & ? & ? & ? & ->).
Qed.

Lemma ix_close_ok me w k : procs_ok w -> ps w !! me = Some k -> (forall p d, is_dm w p d -> dm_child d <> me) ->
  exists w', ix_close me w = Ret tt w' /\ procs_ok w' /\ ps w' !! me = None /\
    log w' = log w ++ (EWakeMsg ∘ dm_addr <$> p_zombies k) /\
    forall t, t <> me -> option_Forall2 (parted me) (ps w !! t) (ps w' !! t).
Proof.
  intros [P1 P2 P3 P4] Hk Hnd. destruct (ix_close_spec me w k P1 P2 Hk) as (w' & E & F & S & Hn & L & Hoth).
  exists w'. split; [done|]. split; [|done].
  assert (forall t k', ps w' !! t = Some k' -> exists k0, t <> me /\ ps w !! t = Some k0 /\ parted me k0 k') as Hback.
  { intros t k' Hk'. assert (t <> me) as Ht by congruence. specialize (Hoth t Ht). rewrite Hk' in Hoth. inversion Hoth; subst; eauto. }
  split; [done|done| |].
  - apply (zomb_part w); [done| |].
    + intros p dm (k' & Hk' & Hin) [kc Hkc]. destruct (Hback p k' Hk') as (k0 & _ & Hk0 & [(? & ? & ? & ? & ->) _]). cbn in Hin.
      assert (dm_child dm <> me) as Hne by (apply (Hnd p); by exists k0). specialize (Hoth _ Hne). rewrite Hkc in Hoth.
      inversion Hoth; subst. by eexists.
    + intros p k' Hk'. right. destruct (Hback p k' Hk') as (k0 & _ & Hk0 & [(? & ? & ? & ? & ->) _]). by exists k0.
  - intros t k' Hk'. destruct (Hback t k' Hk') as (k0 & Ht & Hk0 & (Hr & Hp1 & Hp2)). destruct (P4 t k0 Hk0) as [? ?].
    destruct P1 as (kids & orph & F1). pose proof (fo_id _ _ _ _ F1 _ _ (lk_get _ _ _ Hk0)).
    split; [|by destruct Hr as (? & ? & ? & ? & ->)].
    destruct (decide (p_pptr (pu k0) = me)) as [Ep|Ep]; [rewrite Hp2 by done; lia|by rewrite Hp1].
Qed.

(** ** ptrace *)

(** [task] gets the parent [me], the others keep theirs. *)
Definition adopted (task me : Z) (w w' : ptree) : Prop := forall t kt, ps w !! t = Some kt ->
  exists kt', ps w' !! t = Some kt' /\ p_pptr (pu kt') = if decide (t = task) then me else p_pptr (pu kt).

Lemma quiet_adopted task me w1 w2 w3 : adopted task me w1 w2 -> quiet w2 w3 -> adopted task me w1 w3.
Proof.
  intros H Q t kt Ht. destruct (H t kt Ht) as (k2 & Hk2 & E). destruct (quiet_get _ _ _ _ Q Hk2) as (k3 & Hk3 & El & _).
  exists k3. split; [done|]. by rewrite (link_pptr _ _ El).
Qed.

(** The store of the old parent and [proc_reparent]. *)
Lemma adopt_ok task me w t : procs_ok w -> ps w !! task = Some t -> is_Some (ps w !! me) -> me <> task ->
  exists w', (if p_pptr (pu t) =? me then Ret tt w
     else let* (_u, w) := upd task (fun k => set_p_opptr k (p_pptr (pu k))) w in proc_reparent task me w) = Ret tt w' /\
    procs_ok w' /\ adopted task me w w'.
Proof.
  intros H Ht Hme Hne. destruct (Z.eqb_spec (p_pptr (pu t)) me) as [E|E].
  { exists w. split; [done|]. split; [done|]. intros x kx Hx. exists kx. split; [done|]. case_decide; [congruence|done]. }
  rewrite upd_store by by eexists. cbn [obind].
  assert (store task (fun k => set_p_opptr k (p_pptr (pu k))) w = store task (fun k => set_p_opptr k (p_pptr (pu t))) w) as ->.
  { unfold store. f_equal. apply map_eq. intros x. rewrite !lookup_alter. case_decide; [subst|done]. by rewrite Ht. }
  destruct (po_self _ H _ _ Ht) as [Hs1 _]. pose proof (set_opptr_ok task (p_pptr (pu t)) w H Hs1) as H2.
  edestruct (reparent_ok task me) as (w3 & E3 & H3 & _ & Hpar); [exact H2|apply store_get, Ht|by rewrite store_is_Some|done|].
  exists w3. split; [done|]. split; [done|]. intros x kx Hx. destruct (Hpar x _ (store_get _ _ _ _ _ Hx)) as (k3 & Hk3 & Ep).
  exists k3. split; [done|]. rewrite Ep. by repeat case_decide.
Qed.

Lemma pt_attach_ok e ext me pid w k : procs_ok w -> ps w !! me = Some k ->
  exists r w', pt_attach e ext me pid w = Ret r w' /\ procs_ok w' /\
    (r = 0 -> find_task e me pid w <> me /\ adopted (find_task e me pid w) me w w').
Proof.
  intros H Hk. unfold pt_attach. destruct (fail_spec me ESRCH w k Hk) as [E1 Q1]. destruct (fail_spec me EPERM w k Hk) as [E2 Q2].
  destruct (Z.eqb_spec pid 0) as [->|Hpid]; [cbn; eexists _, _; split; [done|split; [by eapply quiet_ok|done]]|].
  assert (find_task e me pid w = 0 \/ is_Some (ps w !! find_task e me pid w)) as Ht.
  { destruct (find_task_spec e me pid w) as [->|[-> Hs]]; [by eexists|done|by left|by right]. }
  set (task := find_task e me pid w) in *. clearbody task.
  destruct (Z.eqb_spec task 0) as [->|H0]; [eexists _, _; split; [done|split; [by eapply quiet_ok|done]]|].
  destruct Ht as [?|[t Ht]]; [done|]. rewrite Ht.
  destruct (Z.eqb_spec task me); [eexists _, _; split; [done|split; [by eapply quiet_ok|done]]|].
  destruct (bset (p_flag (pu t)) STRC); [eexists _, _; split; [done|split; [by eapply quiet_ok|done]]|].
  destruct (upd_user_quiet task (fun p => set_p_xstat (set_p_flag p (bor (p_flag p) STRC)) 0) w) as [-> Q3]; [by intros; split_and!|by eexists|].
  cbn [obind]. set (w1 := store task _ w) in *. pose proof (quiet_ok _ _ Q3 H) as H1. destruct (quiet_get _ _ _ _ Q3 Ht) as (t1 & Ht1 & El & _).
  destruct (quiet_get _ _ _ _ Q3 Hk) as (k1 & Hk1 & _). rewrite <- (link_pptr _ _ El).
  destruct (adopt_ok task me w1 t1 H1 Ht1) as (w2 & -> & H2 & A2); [by eexists|done|]. cbn [obind].
  destruct (A2 task t1 Ht1) as (t2 & Ht2 & _).
  destruct (psignal_proc_quiet ext task SIGSTOP w2) as (w3 & -> & Q4 & _); [by eexists|]. cbn [obind].
  eexists _, _. split; [done|]. split; [by eapply quiet_ok|]. intros _. split; [done|]. eapply quiet_adopted; [|done].
  intros x kx Hx. destruct (quiet_get _ _ _ _ Q3 Hx) as (kx1 & Hkx1 & Elx & _). rewrite <- (link_pptr _ _ Elx). by apply A2.
Qed.

Lemma pt_trace_me_ok me w k : procs_ok w -> ps w !! me = Some k -> exists w', pt_trace_me me w = Ret 0 w' /\ procs_ok w'.
Proof.
  intros H Hk. unfold pt_trace_me.
  destruct (upd_user_quiet me (fun p => set_p_flag p (bor (p_flag p) STRC)) w) as [-> Q]; [by intros; split_and!|by eexists|].
  cbn [obind]. eexists. split; [done|]. by eapply quiet_ok.
Qed.

Lemma pt_sendsig_ok ext task data w : procs_ok w -> is_Some (ps w !! task) ->
  exists w', pt_sendsig ext task data w = Ret 0 w' /\ procs_ok w'.
Proof.
  intros H Ht. unfold pt_sendsig.
  destruct (upd_user_quiet task (fun p => setrun (ext task) (set_p_xstat p data)) w) as [-> Q]; [|done|].
  { intros u. eapply keeps_trans; [|apply setrun_keeps]. by split_and!. }
  cbn [obind]. eexists. split; [done|]. by eapply quiet_ok.
Qed.

Lemma pt_kill_ok ext me task w k : procs_ok w -> ps w !! me = Some k -> exists r w', pt_kill ext me task w = Ret r w' /\ procs_ok w'.
Proof.
  intros H Hk. unfold pt_kill, pt_allowed. destruct (ps w !! task) as [t|] eqn:Ht.
  2:{ destruct (fail_spec me ESRCH w k Hk) as [-> Q]. eexists _, _. split; [done|by eapply quiet_ok]. }
  destruct (_ || _). { destruct (fail_spec me EPERM w k Hk) as [-> Q]. eexists _, _. split; [done|by eapply quiet_ok]. }
  destruct (upd_user_quiet task (fun p => set_p_flag p (bclr (p_flag p) STRC)) w) as [-> Q]; [by intros; split_and!|by eexists|].
  cbn [obind]. destruct (pt_sendsig_ok ext task SIGKILL (store task (fun k => set_pu k (set_p_flag (pu k) (bclr (p_flag (pu k)) STRC))) w)) as (w2 & -> & H2).
  - by eapply quiet_ok.
  - rewrite store_is_Some. by eexists.
  - eexists _, _. by split.
Qed.

Lemma pt_detach_ok e ext me task data w k : procs_ok w -> ps w !! me = Some k ->
  exists r w', pt_detach e ext me task data w = Ret r w' /\ procs_ok w'.
Proof.
  intros H Hk. unfold pt_detach, pt_allowed. destruct (ps w !! task) as [t|] eqn:Ht.
  2:{ destruct (fail_spec me ESRCH w k Hk) as [-> Q]. eexists _, _. split; [done|by eapply quiet_ok]. }
  destruct (_ || _). { destruct (fail_spec me EPERM w k Hk) as [-> Q]. eexists _, _. split; [done|by eapply quiet_ok]. }
  destruct (upd_user_quiet task (fun p => set_p_flag p (bclr (p_flag p) STRC)) w) as [-> Q]; [by intros; split_and!|by eexists|].
  cbn [obind]. set (w1 := store task _ w) in *. pose proof (quiet_ok _ _ Q H) as H1.
  destruct (quiet_get _ _ _ _ Q Ht) as (t1 & Ht1 & _). rewrite Ht1.
  set (m := if _ && _ && _ then proc_reparent _ _ _ else _).
  assert (exists w2, m = Ret tt w2 /\ procs_ok w2 /\ is_Some (ps w2 !! task)) as (w2 & -> & H2 & Ht2).
  { unfold m. destruct (_ && _ && _) eqn:Ec; [|exists w1; split; [done|split; [done|by eexists]]].
    apply andb_true_iff in Ec as [Ec Ef]. apply andb_true_iff in Ec as [_ E0]. apply negb_true_iff, Z.eqb_neq in E0, Ef.
    destruct (quiet_get _ _ _ _ Q Hk) as (k1 & Hk1 & _). destruct (find_task_spec e me (p_opptr t1) w1) as [?|[_ Hs]]; [by eexists|done|done|].
    destruct (po_self _ H1 _ _ Ht1) as [_ Hne].
    destruct (reparent_ok task (p_opptr t1) w1 t1 H1 Ht1 Hs Hne) as (w2 & -> & H2 & L2 & _). exists w2. split; [done|]. split; [done|].
    destruct (links_only_get _ _ _ _ L2 Ht1) as (t2 & Ht2 & _). by eexists. }
  cbn [obind]. rewrite upd_store by done. cbn [obind]. set (w3 := store task _ w2).
  assert (procs_ok w3) as H3.
  { apply set_opptr_ok; [done|]. destruct (po_forest _ H) as (kids & orph & F). pose proof (fo_id _ _ _ _ F _ _ (lk_get _ _ _ Ht)). lia. }
  destruct (upd_user_quiet task (fun p => set_p_flag p (bclr (p_flag p) SWTED)) w3) as [-> Q4]; [by intros; split_and!|by apply store_is_Some|].
  cbn [obind]. set (w4 := store task _ w3) in *. pose proof (quiet_ok _ _ Q4 H3) as H4.
  assert (is_Some (ps w4 !! task)) as [t4 Ht4] by (by do 2 apply store_is_Some). rewrite Ht4.
  destruct (_ =? SSTOP).
  - destruct (pt_sendsig_ok ext task data w4 H4) as (w5 & -> & H5); [by eexists|]. eexists _, _. by split.
  - destruct (negb (data =? 0)); [|eexists _, _; by split].
    destruct (psignal_proc_quiet ext task data w4) as (w5 & -> & Q5 & _); [by eexists|]. cbn [obind]. eexists _, _. split; [done|]. by eapply quiet_ok.
Qed.

(** ** Groups and sessions *)

(** Links, old parents and messages are as before. *)
Definition mild (w w' : ptree) : Prop := forall t, option_Forall2 (fun k k' =>
  link_of k' = link_of k /\ p_opptr k' = p_opptr k /\ p_zombies k' = p_zombies k) (ps w !! t) (ps w' !! t).

Lemma quiet_mild w w' : quiet w w' -> mild w w'.
Proof. intros [_ H] t. specialize (H t). destruct (ps w !! t), (ps w' !! t); inversion H as [? ? (? & ? & ? & ?)|]; subst; by constructor. Qed.

Lemma store_mild t f w : (forall k, link_of (f k) = link_of k /\ p_opptr (f k) = p_opptr k /\ p_zombies (f k) = p_zombies k) -> mild w (store t f w).
Proof. intros Hf x. cbn. rewrite lookup_alter. case_decide; subst; destruct (ps w !! _); constructor; auto. Qed.

Lemma setpgid_ok me pid pgrp w : procs_ok w -> is_Some (ps w !! (if pid =? 0 then me else pid)) ->
  exists w', setpgid me pid pgrp w = Ret 0 w' /\ procs_ok w'.
Proof.
  intros H Ht. unfold setpgid. rewrite upd_store by done. cbn [obind]. eexists. split; [done|].
  eapply quiet_ok; [|done]. by apply store_quiet.
Qed.

(** A process leaves its session and starts one. *)
Lemma sess_new S ss me s old : sess_ok S ss -> S !! me = Some old -> s <> 0 -> ss !! s = None ->
  (forall se, ss !! old = Some se -> 1 < s_count se) ->
  sess_ok (<[me := s]> S) (<[s := mkSession 1 me]> (alter (fun se => mkSession (s_count se - 1) (s_pgrp se)) old ss)).
Proof.
  intros H Hm Hs Hfresh Hold. pose proof (se_zero _ _ H) as Hz.
  assert (forall x v, S !! x = Some v -> v <> s) as Hno.
  { intros x v Hx ->. destruct (se_valid _ _ H x s Hx Hs) as [? ?]. congruence. }
  assert (nsess s (delete me S) = 0) as N0.
  { unfold nsess. enough (filter (fun q : Z * Z => q.2 = s) (delete me S) = ∅) as -> by by rewrite map_size_empty.
    apply map_eq. intros x. rewrite lookup_empty. apply map_lookup_filter_None_2. right. intros v [_ Hx]%lookup_delete_Some. cbn. by eapply Hno. }
  split.
  - rewrite lookup_insert_ne, lookup_alter by done. rewrite Hz. case_decide; [subst; by rewrite Hz|done].
  - intros x se. rewrite nsess_insert. destruct (decide (x = s)) as [->|Hne].
    + rewrite lookup_insert_eq. intros [= <-]. rewrite Z.eqb_refl, N0. done.
    + rewrite lookup_insert_ne, lookup_alter by done. destruct (Z.eqb_spec s x); [congruence|]. cbn. case_decide as E.
      * subst x. destruct (ss !! old) as [so|] eqn:Eo; [|done]. cbn. intros [= <-]. cbn.
        rewrite (se_count _ _ H old so Eo), (nsess_split old S me old Hm), Z.eqb_refl. cbn. lia.
      * intros Hx. rewrite (se_count _ _ H x se Hx). symmetry. apply (nsess_other x S me old Hm). congruence.
  - intros t x. destruct (decide (t = me)) as [->|Hne].
    + rewrite lookup_insert_eq. intros [= <-] _. by rewrite lookup_insert_eq.
    + rewrite lookup_insert_ne by done. intros Ht Hx. pose proof (Hno t x Ht). rewrite lookup_insert_ne by done.
      apply lookup_alter_is_Some. by eapply (se_valid _ _ H).
Qed.

Lemma setsid_ok s me w k : procs_ok w -> ps w !! me = Some k -> sessions w !! s = None ->
  exists r w', setsid s me w = Ret r w' /\ procs_ok w' /\ mild w w'.
Proof.
  intros H Hk Hfresh. unfold setsid. rewrite Hk. pose proof (po_sess _ H) as Hs. pose proof (se_zero _ _ Hs) as Hz.
  set (old := u_session k). assert (sm w !! me = Some old) as Hsm by (unfold sm; by rewrite lookup_fmap, Hk).
  assert (exists se, (if old =? 0 then Some (mkSession 2 0) else sessions w !! old) = Some se /\
    (old <> 0 -> sessions w !! old = Some se) /\ (old = 0 -> se = mkSession 2 0)) as (se & -> & Hse & He0).
  { destruct (Z.eqb_spec old 0) as [E|E]; [by eexists|]. destruct (se_valid _ _ Hs me old Hsm E) as [se Hse]. by exists se. }
  destruct (negb (old =? 0) && (s_count se <=? 1)) eqn:Ec.
  { destruct (fail_spec me EPERM w k Hk) as [-> Q]. eexists _, _. split; [done|split; [by eapply quiet_ok|by apply quiet_mild]]. }
  destruct (Z.eqb_spec s 0) as [E0|E0].
  { destruct (fail_spec me ENOMEM w k Hk) as [-> Q]. eexists _, _. split; [done|split; [by eapply quiet_ok|by apply quiet_mild]]. }
  set (ss := <[s := mkSession 1 me]> (alter (fun se => mkSession (s_count se - 1) (s_pgrp se)) old (sessions w))).
  set (w1 := set_sessions _ _). assert (w1 = set_sessions w ss) as ->.
  { unfold w1, ss. destruct (Z.eqb_spec old 0) as [E|E].
    - unfold set_sessions. cbn. do 2 f_equal. apply map_eq. intros x. rewrite lookup_alter. case_decide; [|done]. subst x. by rewrite E, Hz.
    - unfold set_sessions. cbn. do 2 f_equal. apply map_eq. intros x. rewrite lookup_alter. destruct (decide (old = x)) as [<-|Hne].
      + by rewrite lookup_insert_eq, Hse.
      + by rewrite lookup_insert_ne. }
  rewrite upd_store by by eexists. cbn [obind]. eexists _, _. split; [done|].
  split; [|by apply (store_mild me (fun k => set_p_pgrp (set_u_session k s) me) (set_sessions w ss))]. destruct H as [P1 P2 P3 P4]. split.
  - by rewrite lk_store_same.
  - rewrite (sm_store_set _ _ s) by first [done|by eexists]. cbn. apply (sess_new _ _ _ _ old); try done. intros so Hso.
    destruct (Z.eqb_spec old 0) as [E|E]; [rewrite E in Hso; congruence|]. cbn in Ec. rewrite (Hse E) in Hso. injection Hso as <-. lia.
  - apply (zomb_sub w); [done|by intros x; rewrite store_is_Some|]. intros p k'. cbn. rewrite lookup_alter. case_decide; subst.
    + destruct (ps w !! p) as [k0|]; [|done]. cbn. intros [= <-]. by exists k0.
    + intros Hk'. by exists k'.
  - intros x k'. cbn. rewrite lookup_alter. case_decide; subst; [|apply P4].
    destruct (ps w !! x) as [k0|] eqn:Hk0; [|done]. cbn. intros [= <-]. by apply (P4 x k0).
Qed.

(** ** Runs

    The label is the process that makes the step. *)
Inductive proc_step : Z -> ptree -> ptree -> Prop :=
| step_open me w : ps w !! me = None -> 1 < me -> proc_step me w (ix_open me w)
| step_vfork me parent vm w w' : ps w !! me = None -> 1 < me -> is_Some (ps w !! parent) ->
    vfork_child me parent vm w = Ret tt w' -> proc_step me w w'
| step_die sr ext dm me mu b w w' : may_die w dm me mu -> send_death_msg sr ext dm me w = Ret b w' -> proc_step me w w'
| step_wait e ext me pid options r w w' : is_Some (ps w !! me) -> wait4_round e ext me pid options w = Ret r w' -> proc_step me w w'
| step_sleep sr me chan b w w' : sleep_begin sr me chan w = Ret b w' -> proc_step me w w'
| step_wake sr me w w' : sleep_end sr me w = Ret tt w' -> proc_step me w w'
| step_resume sr ext me w w' : wait4_resume sr ext me w = Ret tt w' -> proc_step me w w'
| step_signal ext me t sig w w' : is_Some (ps w !! t) -> psignal_proc ext t sig w = Ret tt w' -> proc_step me w w'
| step_setpgid me pid pgrp w w' : is_Some (ps w !! (if pid =? 0 then me else pid)) -> setpgid me pid pgrp w = Ret 0 w' -> proc_step me w w'
| step_setsid s me r w w' : is_Some (ps w !! me) -> sessions w !! s = None -> setsid s me w = Ret r w' -> proc_step me w w'
| step_close me w w' : is_Some (ps w !! me) -> (forall p d, is_dm w p d -> dm_child d <> me) -> ix_close me w = Ret tt w' -> proc_step me w w'.

(** The requests of a debugger. *)
Inductive trace_step : ptree -> ptree -> Prop :=
| step_trace_me me w w' : is_Some (ps w !! me) -> pt_trace_me me w = Ret 0 w' -> trace_step w w'
| step_attach e ext me pid r w w' : is_Some (ps w !! me) -> pt_attach e ext me pid w = Ret r w' -> trace_step w w'
| step_detach e ext me task data r w w' : is_Some (ps w !! me) -> pt_detach e ext me task data w = Ret r w' -> trace_step w w'
| step_kill ext me task r w w' : is_Some (ps w !! me) -> pt_kill ext me task w = Ret r w' -> trace_step w w'.

Definition any_step (w w' : ptree) : Prop := (exists a, proc_step a w w') \/ trace_step w w'.

Definition no_procs : ptree := mkTree ∅ ∅ [].

Lemma no_procs_ok : procs_ok no_procs.
Proof.
  split.
  - exists (fun _ => []), []. split; try done; [by intros l ?%not_elem_of_nil|constructor].
  - split; done.
  - split; [by intros p dm (k & Hk & _)|by intros p p' dm dm' (k & Hk & _)|done].
  - intros t k. done.
Qed.

(** What the other processes see of a step. *)
Definition others_see (a : Z) (w w' : ptree) : Prop := forall t k, t <> a -> ps w !! t = Some k ->
  exists k', ps w' !! t = Some k' /\ p_zombies k `prefix_of` p_zombies k'.

(** No process has been attached. *)
Definition unattached (w : ptree) : Prop := forall t k, ps w !! t = Some k -> p_opptr k = 0.

Record step_post (a : Z) (w w' : ptree) : Prop := {
  sp_ok : procs_ok w';
  sp_see : others_see a w w';
  sp_unattached : unattached w';
  sp_acyclic : acyclic (lk w) -> acyclic (lk w')
}.

Lemma mild_see a w w' : mild w w' -> others_see a w w'.
Proof. intros H t k _ Hk. specialize (H t). rewrite Hk in H. inversion H as [? k' (_ & _ & E)|]; subst. exists k'. by rewrite E. Qed.

Lemma mild_unattached w w' : mild w w' -> unattached w -> unattached w'.
Proof. intros H U t k' Hk'. specialize (H t). rewrite Hk' in H. inversion H as [k ? (_ & E & _)|]; subst. rewrite E. by apply (U t). Qed.

Lemma mild_lk w w' : mild w w' -> lk w' = lk w.
Proof.
  intros H. unfold lk. apply map_eq. intros t. rewrite !lookup_fmap. specialize (H t).
  destruct (ps w !! t), (ps w' !! t); inversion H as [? ? (E & _)|]; subst; [|done]. cbn. by rewrite E.
Qed.

Lemma mild_post a w w' : unattached w -> mild w w' -> procs_ok w' -> step_post a w w'.
Proof. intros U M H. split; [done|by apply mild_see|by eapply mild_unattached|by rewrite (mild_lk _ _ M)]. Qed.

Lemma same_post a w w' : unattached w -> same_procs w w' -> procs_ok w' ->
  (forall p, p <> a -> zombies_of w p `prefix_of` zombies_of w' p) -> step_post a w w'.
Proof.
  intros U S H Hz. split; [done| | |by rewrite (same_procs_lk _ _ S)].
  - intros t k Ht Hk. specialize (Hz t Ht). specialize (S t). unfold zombies_of in Hz. rewrite Hk in S, Hz.
    inversion S as [? k' _ Ek E|]; subst. rewrite <- E in Hz. by exists k'.
  - intros t k' Hk'. specialize (S t). rewrite Hk' in S. inversion S as [k ? [_ E] Ek|]; subst. rewrite E. by apply (U t).
Qed.

Lemma step_open_post me w : procs_ok w -> unattached w -> ps w !! me = None -> 1 < me -> step_post me w (ix_open me w).
Proof.
  intros H U Hme H1. split; [by apply ix_open_ok| | |].
  - intros t k Ht Hk. exists k. unfold ix_open. cbn. by rewrite lookup_insert_ne.
  - intros t k. unfold ix_open. cbn. destruct (decide (t = me)) as [->|Hne]; [rewrite lookup_insert_eq; by intros [= <-]|].
    rewrite lookup_insert_ne by done. apply U.
  - intros Hac c l. rewrite lk_ix_open. destruct (decide (c = me)) as [->|Hne].
    + rewrite lookup_insert_eq. intros [= <-]. exists []. by apply (anc_init _ _ (mkLink 1 0 0 0)); [rewrite lookup_insert_eq|].
    + rewrite lookup_insert_ne by done. intros Hl. destruct (Hac c l Hl) as (lc & Hlc). exists lc. revert Hlc. apply anc_same.
      intros t lt Hlt. exists lt. rewrite lookup_insert_ne; [done|]. intros <-. unfold lk in Hlt. by rewrite lookup_fmap, Hme in Hlt.
Qed.


Lemma calm_step me w w' : (forall t, t <> me -> option_Forall2 calm (ps w !! t) (ps w' !! t)) -> unattached w ->
  others_see me w w' /\ forall t k', t <> me -> ps w' !! t = Some k' -> p_opptr k' = 0 /\ is_Some (ps w !! t).
Proof.
  intros C U. split.
  - intros t k Ht Hk. specialize (C t Ht). rewrite Hk in C. inversion C as [? k' [(? & ? & ? & ? & ->) _]|]; subst. by eexists.
  - intros t k' Ht Hk'. specialize (C t Ht). rewrite Hk' in C. inversion C as [k ? [(? & ? & ? & ? & ->) _] Hk|]; subst.
    split; [by apply (U t k)|by eexists].
Qed.

Lemma step_vfork_post me parent vm w w' : procs_ok w -> unattached w -> ps w !! me = None -> 1 < me -> is_Some (ps w !! parent) ->
  vfork_child me parent vm w = Ret tt w' -> step_post me w w'.
Proof.
  intros H U Hme H1 [pk Hp] E. destruct (vfork_child_ok me parent vm w pk H Hme H1 Hp) as (w1 & E1 & H' & _ & (k & Hk & Ek & _ & _ & Eo & _) & Hoth).
  rewrite E1 in E. apply Ret_inj in E as [_ <-]. destruct (calm_step me w w1 Hoth U) as [Hsee Hback].
  destruct (po_forest _ H) as (kids & orph & F). pose proof (fo_id _ _ _ _ F _ _ (lk_get _ _ _ Hp)) as Hid.
  split; [done|done| |].
  - intros t k' Hk'. destruct (decide (t = me)) as [->|Hne]; [congruence|by apply (Hback t)].
  - intros Hac.
    assert (forall c l, anc (lk w) c l -> anc (lk w1) c l) as Hanc.
    { intros c l. apply anc_same. intros t lt (kt & Hkt & ->)%lk_back. assert (t <> me) as Ht by congruence.
      destruct (opt2_get _ _ _ _ (Hoth t Ht) Hkt) as (k1 & Hk1 & _ & Ep). exists (link_of k1). split; [by apply lk_get|done]. }
    intros t lt (kt & Hkt & ->)%lk_back. destruct (decide (t = me)) as [->|Hne].
    + destruct (Hac parent _ (lk_get _ _ _ Hp)) as (lp & Hlp%Hanc). exists (parent :: lp). assert (kt = k) as -> by congruence.
      rewrite <- Ek in Hlp |- *. apply (anc_kid _ me (link_of k)); [by apply lk_get|cbn; lia|done].
    + destruct (Hback t kt Hne Hkt) as [_ [k0 Hk0]]. destruct (Hac t _ (lk_get _ _ _ Hk0)) as (l & Hl). exists l. by apply Hanc.
Qed.

Lemma close_acyclic me w w' : me <> 1 -> ps w' !! me = None ->
  (forall t, t <> me -> option_Forall2 (parted me) (ps w !! t) (ps w' !! t)) -> acyclic (lk w) -> acyclic (lk w').
Proof.
  intros H1 Hn Hoth Ha. set (g := fun k => if decide (l_p k = me) then set_l_p 1 k else k).
  assert (acyclic (g <$> lk w)) as Hg.
  { apply (acyclic_cut (lk w)); [done| |].
    - intros t k Hk. exists (g k). rewrite lookup_fmap, Hk. split; [done|]. unfold g. case_decide; auto.
    - intros t k'. rewrite lookup_fmap. intros (k & Hk & _)%fmap_Some. by eexists. }
  assert (forall t k, (g <$> lk w) !! t = Some k -> l_p k <> me) as Hne.
  { intros t k'. rewrite lookup_fmap. intros (k & Hk & ->)%fmap_Some. unfold g. case_decide; cbn; congruence. }
  eapply acyclic_same; [| |apply (acyclic_delete _ me Hg Hne)].
  - intros t k' [Htm Hk']%lookup_delete_Some. rewrite lookup_fmap in Hk'. apply fmap_Some in Hk' as (k & Hk & ->).
    apply lk_back in Hk as (kt & Hkt & ->). destruct (opt2_get _ _ _ _ (Hoth t (not_eq_sym Htm)) Hkt) as (kt' & Hkt' & _ & P1 & P2).
    exists (link_of kt'). split; [by apply lk_get|].
    unfold g. case_decide as E; cbn in *; [by rewrite P2|by rewrite P1].
  - intros t l (kt & Hkt & ->)%lk_back. assert (t <> me) as Ht by congruence.
    destruct (opt2_back _ _ _ _ (Hoth t Ht) Hkt) as (k0 & Hk0 & _). rewrite lookup_delete_ne, lookup_fmap by done.
    unfold lk. rewrite lookup_fmap, Hk0. by eexists.
Qed.

Lemma step_close_post me w w' : procs_ok w -> unattached w -> is_Some (ps w !! me) -> (forall p d, is_dm w p d -> dm_child d <> me) ->
  ix_close me w = Ret tt w' -> step_post me w w'.
Proof.
  intros H U [k Hk] Hd E. destruct (ix_close_ok me w k H Hk Hd) as (w1 & E1 & H' & Hn & _ & Hoth).
  rewrite E1 in E. apply Ret_inj in E as [_ <-]. destruct (po_forest _ H) as (kids & orph & F). pose proof (fo_id _ _ _ _ F _ _ (lk_get _ _ _ Hk)) as Hid.
  split; [done| | |apply close_acyclic with me; [lia|done|done]].
  - intros t kt Ht Hkt. destruct (opt2_get _ _ _ _ (Hoth t Ht) Hkt) as (k' & Hk' & (? & ? & ? & ? & ->) & _). by eexists.
  - intros t k' Hk'. assert (t <> me) as Ht by congruence.
    destruct (opt2_back _ _ _ _ (Hoth t Ht) Hk') as (k0 & Hk0 & (? & ? & ? & ? & ->) & _). by apply (U t k0).
Qed.

(** [wait4] when no child has been attached takes a message, or changes nothing
    of the tree. *)
Lemma wait_unattached e ext me pid options w k r w' : procs_ok w -> unattached w -> ps w !! me = Some k ->
  wait4_round e ext me pid options w = Ret r w' ->
  match zombie_for pid (p_pgrp (pu k)) (p_zombies k) with
  | Some dm => is_dm w me dm /\ reap me dm w = Ret r w' /\ r = WRet (dm_child dm) (Some (dm_status dm)) (Some (dm_rusage dm))
  | None => quiet w w' /\ living_post w me pid options (p_pgrp (pu k)) r w'
  end.
Proof.
  intros H U Hk E. destruct (wait4_round_spec e ext me pid options w k H Hk) as (r1 & w1 & E1 & _ & P).
  rewrite E1 in E. apply Ret_inj in E as [<- <-]. destruct (zombie_for _ _ _) as [dm|] eqn:Ez; [|done].
  destruct (zombie_for_Some _ _ _ _ Ez) as [Hin _]. split; [by exists k|].
  destruct P as [(cu & Hcu & Hne & _)|P]; [|done]. by rewrite (U _ _ Hcu) in Hne.
Qed.

Lemma step_wait_post e ext me pid options w r w' : procs_ok w -> unattached w -> is_Some (ps w !! me) ->
  wait4_round e ext me pid options w = Ret r w' -> step_post me w w'.
Proof.
  intros H U [k Hk] E. pose proof (wait_unattached _ _ _ _ _ _ _ _ _ H U Hk E) as P. destruct (zombie_for _ _ _) as [dm|].
  - destruct P as (Hdm & Er & _). destruct (reap_spec me dm w H Hdm) as (w1 & E1 & H1 & S1 & _ & Z1 & _).
    rewrite E1 in Er. apply Ret_inj in Er as [_ <-]. apply same_post; [done..|]. intros p Hp. by rewrite Z1, decide_False.
  - destruct P as [Q _]. apply mild_post; [done|by apply quiet_mild|by eapply quiet_ok].
Qed.

Lemma quiet_post a w w' : procs_ok w -> unattached w -> quiet w w' -> step_post a w w'.
Proof. intros H U Q. apply mild_post; [done|by apply quiet_mild|by eapply quiet_ok]. Qed.

Lemma step_die_post sr ext dm me mu b w w' : procs_ok w -> unattached w -> may_die w dm me mu ->
  send_death_msg sr ext dm me w = Ret b w' -> step_post me w w'.
Proof.
  intros H U M E. destruct (send_death_msg_spec sr ext dm me w mu H M) as (w1 & E1 & H1 & S1 & Z1). rewrite E1 in E. apply Ret_inj in E as [_ <-].
  apply same_post; [done..|]. intros p _. rewrite Z1. destruct (decide (p = _ /\ _)); [by apply prefix_app_r|done].
Qed.

Lemma proc_step_post a w w' : procs_ok w -> unattached w -> proc_step a w w' -> step_post a w w'.
Proof.
  intros H U S. destruct S as [me w Hn H1|me parent vm w w' Hn H1 Hp E|sr ext dm me mu b w w' M E|e ext me pid options r w w' Hm E
    |sr me chan b w w' E|sr me w w' E|sr ext me w w' E|ext me t sig w w' Ht E|me pid pgrp w w' Ht E|s me r w w' Hm Hs E|me w w' Hm Hd E].
  - by apply step_open_post.
  - by eapply step_vfork_post.
  - by eapply step_die_post.
  - by eapply step_wait_post.
  - by eapply quiet_post, sleep_begin_quiet.
  - by eapply quiet_post, sleep_end_quiet.
  - by eapply quiet_post, wait4_resume_quiet.
  - destruct (psignal_proc_quiet ext t sig w Ht) as (w1 & E1 & Q & _). rewrite E1 in E. apply Ret_inj in E as [_ <-]. by apply quiet_post.
  - unfold setpgid in E. rewrite upd_store in E by done. apply Ret_inj in E as [_ <-]. apply quiet_post; [done..|]. by apply store_quiet.
  - destruct Hm as [k Hk]. destruct (setsid_ok s me w k H Hk Hs) as (r1 & w1 & E1 & H1 & M1). rewrite E1 in E. apply Ret_inj in E as [_ <-]. by apply mild_post.
  - by apply step_close_post.
Qed.

(** ** Every step keeps the tree *)

Lemma proc_step_ok a w w' : procs_ok w -> proc_step a w w' -> procs_ok w'.
Proof.
  intros H S. destruct S as [me w Hn H1|me parent vm w w' Hn H1 [pk Hp] E|sr ext dm me mu b w w' M E|e ext me pid options r w w' [k Hk] E
    |sr me chan b w w' E|sr me w w' E|sr ext me w w' E|ext me t sig w w' Ht E|me pid pgrp w w' Ht E|s me r w w' [k Hk] Hs E|me w w' [k Hk] Hd E].
  - by apply ix_open_ok.
  - destruct (vfork_child_ok me parent vm w pk H Hn H1 Hp) as (w1 & E1 & H' & _). rewrite E1 in E. by apply Ret_inj in E as [_ <-].
  - destruct (send_death_msg_spec sr ext dm me w mu H M) as (w1 & E1 & H' & _). rewrite E1 in E. by apply Ret_inj in E as [_ <-].
  - destruct (wait4_round_spec e ext me pid options w k H Hk) as (r1 & w1 & E1 & H' & _). rewrite E1 in E. by apply Ret_inj in E as [_ <-].
  - by eapply quiet_ok; [eapply sleep_begin_quiet|].
  - by eapply quiet_ok; [eapply sleep_end_quiet|].
  - by eapply quiet_ok; [eapply wait4_resume_quiet|].
  - destruct (psignal_proc_quiet ext t sig w Ht) as (w1 & E1 & Q & _). rewrite E1 in E. apply Ret_inj in E as [_ <-]. by eapply quiet_ok.
  - destruct (setpgid_ok me pid pgrp w H Ht) as (w1 & E1 & H'). rewrite E1 in E. by apply Ret_inj in E as [_ <-].
  - destruct (setsid_ok s me w k H Hk Hs) as (r1 & w1 & E1 & H' & _). rewrite E1 in E. by apply Ret_inj in E as [_ <-].
  - destruct (ix_close_ok me w k H Hk Hd) as (w1 & E1 & H' & _). rewrite E1 in E. by apply Ret_inj in E as [_ <-].
Qed.

Lemma trace_step_ok w w' : procs_ok w -> trace_step w w' -> procs_ok w'.
Proof.
  intros H S. destruct S as [me w w' [k Hk] E|e ext me pid r w w' [k Hk] E|e ext me task data r w w' [k Hk] E|ext me task r w w' [k Hk] E].
  - destruct (pt_trace_me_ok me w k H Hk) as (w1 & E1 & H'). rewrite E1 in E. by apply Ret_inj in E as [_ <-].
  - destruct (pt_attach_ok e ext me pid w k H Hk) as (r1 & w1 & E1 & H' & _). rewrite E1 in E. by apply Ret_inj in E as [_ <-].
  - destruct (pt_detach_ok e ext me task data w k H Hk) as (r1 & w1 & E1 & H'). rewrite E1 in E. by apply Ret_inj in E as [_ <-].
  - destruct (pt_kill_ok ext me task w k H Hk) as (r1 & w1 & E1 & H'). rewrite E1 in E. by apply Ret_inj in E as [_ <-].
Qed.

Lemma any_steps_ok w w' : rtc any_step w w' -> procs_ok w -> procs_ok w'.
Proof. induction 1 as [w|w1 w2 w3 [[a S]|S] _ IH]; intros H; [done|apply IH; by eapply proc_step_ok|apply IH; by eapply trace_step_ok]. Qed.

(** Without a debugger the tree has no cycles. *)
Definition steps : ptree -> ptree -> Prop := rtc (fun w w' => exists a, proc_step a w w').

Record calm_tree (w : ptree) : Prop := { ct_ok : procs_ok w; ct_free : unattached w; ct_acyclic : acyclic (lk w) }.

Lemma step_calm a w w' : proc_step a w w' -> calm_tree w -> calm_tree w'.
Proof. intros S [H U A]. destruct (proc_step_post a w w' H U S) as [H' _ U' A']. split; auto. Qed.

Lemma steps_calm w w' : steps w w' -> calm_tree w -> calm_tree w'.
Proof. induction 1 as [w|w1 w2 w3 [a S] _ IH]; intros H; [done|apply IH; by eapply step_calm]. Qed.

Lemma no_procs_calm : calm_tree no_procs.
Proof. split; [apply no_procs_ok|by intros t k|by intros t k]. Qed.

Lemma users_matches me w : matches (lk w) (procs (users me w)).
Proof.
  intros t. unfold lk. cbn. rewrite !lookup_fmap. by destruct (ps w !! t); constructor.
Qed.

(** ** The process tree is consistent *)


(** ** Signals to a process group *)

(** Without a debugger, [_psignalgrp] ends and signals exactly the processes
    that descend from the same oldest ancestor and are in the process group; no
    other struct user changes. *)
Theorem group_signal_exact w me proc k ext sig : steps no_procs w -> ps w !! proc = Some k ->
  exists w', psignalgrp (size (ps w)) ext proc sig (users me w) = Ret tt w' /\
    forall t kt, ps w !! t = Some kt -> exists u', procs w' !! t = Some u' /\
      (same_tree (lk w) t proc /\ p_pgrp (pu kt) = p_pgrp (pu k) -> u' = psignal (ext t) sig (pu kt)) /\
      (~ (same_tree (lk w) t proc /\ p_pgrp (pu kt) = p_pgrp (pu k)) -> u' = pu kt).
Proof.
  intros H Hk. destruct (steps_calm _ _ H no_procs_calm) as [[(kids & orph & F) _ _ _] _ A].
  destruct (psignalgrp_tree (lk w) kids orph (size (ps w)) ext proc sig (users me w) (pu k) F A (users_matches me w)) as (m & w' & E & W & Hm).
  - cbn. by rewrite lookup_fmap, Hk.
  - unfold lk. by rewrite map_size_fmap.
  - exists w'. split; [done|]. intros t kt Ht. eexists. rewrite (wp_procs _ _ _ _ _ _ W t). cbn. rewrite lookup_fmap, Ht. cbn.
    split; [done|]. unfold signalled_in. rewrite <- Hm. destruct (Z.eqb_spec (p_pgrp (pu kt)) (p_pgrp (pu k)));
      case_bool_decide; cbn; split; intros; tauto.
Qed.

(** ** The status of a child *)

(** What the parent sees of the steps of others. *)
Lemma others_keep p w w' d : calm_tree w -> rtc (fun w w' => exists a, a <> p /\ proc_step a w w') w w' -> is_dm w p d ->
  calm_tree w' /\ is_dm w' p d.
Proof.
  intros C H. revert C. induction H as [w|w1 w2 w3 (a & Ha & S) _ IH]; intros C D; [done|].
  apply IH; [by eapply step_calm|]. destruct D as (k & Hk & Hin). destruct C as [C1 C2 _].
  destruct (sp_see _ _ _ (proc_step_post a w1 w2 C1 C2 S) p k) as (k' & Hk' & Hpre); [done..|]. exists k'. split; [done|]. by eapply elem_of_prefix.
Qed.

Lemma wants_child pid mypgrp c pg : 1 < pid -> wants pid mypgrp c pg = (pid =? c).
Proof.
  intros H. unfold wants. destruct (Z.eqb_spec pid (-1)), (Z.eqb_spec pid 0), (Z.ltb_spec pid (-1)); lia.
Qed.

Lemma zombie_for_child w p k d mypgrp : zomb_ok w -> ps w !! p = Some k -> d ∈ p_zombies k -> 1 < dm_child d ->
  zombie_for (dm_child d) mypgrp (p_zombies k) = Some d.
Proof.
  intros Z Hk Hd H1. unfold zombie_for. destruct (find _ _) as [d'|] eqn:E.
  - apply find_some in E as [Hin E]. rewrite wants_child in E by done. f_equal. apply Z.eqb_eq in E.
    symmetry. apply (zo_uniq _ Z p p); [by exists k|exists k; split; [done|by apply list_elem_of_In]|by right].
  - pose proof (find_none _ _ E d (proj1 (list_elem_of_In _ _) Hd)) as Hn. cbn in Hn. rewrite wants_child, Z.eqb_refl in Hn by done. done.
Qed.

(** C39. Without requests of debuggers, and while no process closes the library with
    its death message still in a list: when a process that is a child of another one
    (not of init) and for which no signal is pending has had memory for its death message
    and sent it, then whatever the other processes do, the next wait4 of the parent for
    that process returns its status and its resources, makes it a zombie, wakes it up
    and leaves no message of it. *)
Theorem exit_status_collected w w1 w2 sr ext0 dm me mu b e ext options :
  steps no_procs w -> may_die w dm me mu -> dm <> 0 -> send_death_msg sr ext0 dm me w = Ret b w1 ->
  rtc (fun w w' => exists a, a <> p_pptr (pu mu) /\ proc_step a w w') w1 w2 ->
  exists w3, wait4_round e ext (p_pptr (pu mu)) me options w2 =
      Ret (WRet me (Some (p_xstat (pu mu))) (Some (Timers.ruadd (p_ru mu) (p_cru mu)))) w3 /\
    (exists c, ps w3 !! me = Some c /\ p_stat (pu c) = SZOMB) /\ log w3 = log w2 ++ [EWakeMsg dm] /\
    forall p d, is_dm w3 p d -> dm_child d <> me.
Proof.
  intros H M Hdm E Ho. pose proof (steps_calm _ _ H no_procs_calm) as C.
  destruct (send_death_msg_spec sr ext0 dm me w mu (ct_ok _ C) M) as (wx & Ex & _ & _ & Zx). rewrite Ex in E. apply Ret_inj in E as [_ <-].
  assert (is_dm wx (p_pptr (pu mu)) (death_of dm me mu)) as D.
  { apply is_dm_zombies. rewrite Zx, decide_True by done. apply elem_of_app. right. by apply list_elem_of_singleton. }
  assert (calm_tree wx) as Cx by (eapply step_calm; [by eapply step_die|done]).
  destruct (others_keep _ _ _ _ Cx Ho D) as [C2 D2]. pose proof D2 as (k & Hk & Hin). destruct (ct_ok _ C) as [(kids & orph & F) _ _ _].
  assert (1 < me) as H1 by (eapply (fo_id _ _ _ _ F), lk_get, (md_me _ _ _ _ M)).
  destruct (wait4_round_spec e ext (p_pptr (pu mu)) me options w2 k (ct_ok _ C2) Hk) as (r & w3 & E3 & _).
  pose proof (wait_unattached _ _ _ _ _ _ _ _ _ (ct_ok _ C2) (ct_free _ C2) Hk E3) as P.
  pose proof (po_zomb _ (ct_ok _ C2)) as Z2. pose proof (zombie_for_child w2 _ k _ (p_pgrp (pu k)) Z2 Hk Hin H1) as Ez. cbn in Ez. rewrite Ez in P.
  destruct P as (_ & Er & ->). exists w3. split; [done|].
  destruct (reap_spec _ _ w2 (ct_ok _ C2) D2) as (w4 & E4 & _ & _ & L4 & Z4 & Hc). rewrite E4 in Er. apply Ret_inj in Er as [_ <-].
  split; [done|]. split; [done|]. intros p d Hd%is_dm_zombies. rewrite Z4 in Hd. intros Hme. case_decide as Ep.
  - apply list_elem_of_filter in Hd as [Ha Hd]. destruct (zo_uniq _ Z2 _ _ _ _ D2 (proj2 (is_dm_zombies w2 _ _) Hd)) as [_ <-]; [by right|done].
  - destruct (zo_uniq _ Z2 _ _ _ _ D2 (proj2 (is_dm_zombies w2 _ _) Hd)) as [? _]; [by right|congruence].
Qed.

(** Without a debugger a round of wait4 takes the first death message that
    is asked for: it returns the child and its status, the message is gone and the
    child a zombie. Otherwise it returns the status of a stopped child, ECHILD when
    no child is left to wait for, 0 with WNOHANG, or it sleeps; it never fails
    otherwise. *)
Theorem wait4_exact w me k e ext pid options : steps no_procs w -> ps w !! me = Some k ->
  exists r w', wait4_round e ext me pid options w = Ret r w' /\
  match zombie_for pid (p_pgrp (pu k)) (p_zombies k) with
  | Some dm => r = WRet (dm_child dm) (Some (dm_status dm)) (Some (dm_rusage dm)) /\
      zombies_of w' me = filter (fun d => dm_addr d <> dm_addr dm) (p_zombies k) /\
      (exists c, ps w' !! dm_child dm = Some c /\ p_stat (pu c) = SZOMB) /\ log w' = log w ++ [EWakeMsg (dm_addr dm)]
  | None => living_post w me pid options (p_pgrp (pu k)) r w'
  end.
Proof.
  intros H Hk. destruct (steps_calm _ _ H no_procs_calm) as [C1 C2 _].
  destruct (wait4_round_spec e ext me pid options w k C1 Hk) as (r & w' & E & _). exists r, w'. split; [done|].
  pose proof (wait_unattached _ _ _ _ _ _ _ _ _ C1 C2 Hk E) as P. destruct (zombie_for _ _ _) as [dm|]; [|by destruct P].
  destruct P as (Hdm & Er & ->). split; [done|]. destruct (reap_spec me dm w C1 Hdm) as (w1 & E1 & _ & _ & L & Z & Hc).
  rewrite E1 in Er. apply Ret_inj in Er as [_ <-]. rewrite Z, decide_True by done. split; [|done]. unfold zombies_of. by rewrite Hk.
Qed.

(** ** A debugger on its own ancestor *)

Lemma grp_top_cycle a c w : 1 < a -> 1 < c -> (exists u, procs w !! a = Some u /\ p_pptr u = c) ->
  (exists u, procs w !! c = Some u /\ p_pptr u = a) -> forall fuel,
  (forall ok, grp_top fuel ok a w = Diverge) /\ (forall ok, grp_top fuel ok c w = Diverge).
Proof.
  intros Ha Hc (ua & Hua & Ea) (uc & Huc & Ec). induction fuel as [|fuel [IH1 IH2]]; split; intros ok; cbn [grp_top];
    (destruct (Z.eqb_spec a 0), (Z.eqb_spec a 1), (Z.eqb_spec c 0), (Z.eqb_spec c 1); try lia; cbn [orb]; try done).
  - by rewrite Hua, Ea.
  - by rewrite Huc, Ec.
Qed.

(** PT_ATTACH on the caller's own parent succeeds and makes the two each
    other's parents: a signal to their process group then never ends. *)
Theorem attach_parent_loops w w' e ext c kc me sig : rtc any_step no_procs w -> ps w !! c = Some kc -> 1 < p_pptr (pu kc) ->
  pt_attach e ext c (p_pptr (pu kc)) w = Ret 0 w' ->
  forall fuel, psignalgrp fuel ext c sig (users me w') = Diverge.
Proof.
  intros Hs Hc Hp E. pose proof (any_steps_ok _ _ Hs no_procs_ok) as H. destruct (pt_attach_ok e ext c (p_pptr (pu kc)) w kc H Hc) as (r & w1 & E1 & H' & A).
  rewrite E1 in E. apply Ret_inj in E as [-> <-]. destruct (A eq_refl) as [Hne Ad]. set (a := p_pptr (pu kc)) in *.
  assert (find_task e c a w = a) as Ef.
  { destruct (find_task_spec e c a w) as [E0|[E0 _]]; [by eexists|lia| |done]. unfold pt_attach in E1. rewrite E0 in E1.
    destruct (fail_spec c ESRCH w kc Hc) as [Efail _]. rewrite Efail in E1. by destruct (a =? 0). }
  rewrite Ef in *. destruct (parent_alive w c kc H Hc Hp) as [ka Hka]. fold a in Hka.
  destruct (Ad a ka Hka) as (ka' & Hka' & Ea). destruct (Ad c kc Hc) as (kc' & Hkc' & Ec).
  rewrite decide_True in Ea by done. rewrite decide_False in Ec by done. fold a in Ec.
  destruct (po_forest _ H) as (kids & orph & F). pose proof (fo_id _ _ _ _ F _ _ (lk_get _ _ _ Hc)).
  intros fuel. destruct (grp_top_cycle a c (users me w1)) with (fuel := fuel) as [Ha _]; [done|done| | |].
  - exists (pu ka'). cbn. by rewrite lookup_fmap, Hka'.
  - exists (pu kc'). cbn. by rewrite lookup_fmap, Hkc'.
  - unfold psignalgrp. destruct (Z.eqb_spec c 0); [lia|]. cbn [users procs]. rewrite lookup_fmap, Hkc'. cbn [fmap option_fmap option_map].
    by rewrite Ec, Ha.
Qed.

(** ** Witnesses

    The parent 100 with its children 200 and 300. *)
Definition result {B} (o : outcome ptree B) : ptree := match o with Ret _ w => w | _ => no_procs end.
Definition demo1 : ptree := ix_open 100 no_procs.
Definition demo2 : ptree := result (vfork_child 200 100 0 demo1).
Definition demo3 : ptree := result (vfork_child 300 100 0 demo2).
Definition demo4 : ptree := result (send_death_msg false (fun _ => false) 0x5000 200 demo3).
Definition demo5 : ptree := result (setpgid 300 0 300 demo4).
Definition all_tasks : exec := mkExec [] 1 [] 1 (fun _ => NT_PROCESS).

Ltac by_compute := vm_compute; first [reflexivity|by eexists].

Lemma demo3_steps : steps no_procs demo3.
Proof.
  eapply rtc_l; [exists 100; apply step_open; [by_compute|lia]|].
  eapply rtc_l; [exists 200; apply (step_vfork 200 100 0 _ demo2); [by_compute|lia|by_compute|by_compute]|].
  eapply rtc_l; [exists 300; apply (step_vfork 300 100 0 _ demo3); [by_compute|lia|by_compute|by_compute]|]. apply rtc_refl.
Qed.

Lemma demo3_any : rtc any_step no_procs demo3.
Proof. eapply rtc_subrel; [|apply demo3_steps]. intros a b H. by left. Qed.

Lemma no_messages w : forallb (fun q => match p_zombies q.2 with [] => true | _ => false end) (map_to_list (ps w)) = true ->
  forall p d, ~ is_dm w p d.
Proof.
  intros H p d (k & Hk & Hin). rewrite forallb_forall in H. specialize (H (p, k)). cbn in H.
  destruct (p_zombies k); [by apply not_elem_of_nil in Hin|]. enough (false = true) by done. apply H, list_elem_of_In. by apply elem_of_map_to_list.
Qed.

Lemma demo3_dies mu : ps demo3 !! 200 = Some mu -> may_die demo3 0x5000 200 mu.
Proof.
  intros H. split; [done| | |].
  - vm_compute in H. injection H as <-. done.
  - vm_compute in H. injection H as <-. done.
  - intros p d Hd. exfalso. revert p d Hd. apply no_messages. by_compute.
Qed.


Lemma group_signal_exact_witness : exists w', psignalgrp 3 (fun _ => false) 200 SIGTERM (users 100 demo3) = Ret tt w' /\
  exists u, procs w' !! 300 = Some u /\ bset (p_sig u) (sigmask SIGTERM) = true.
Proof.
  assert (is_Some (ps demo3 !! 200)) as [k Hk] by by_compute. assert (is_Some (ps demo3 !! 300)) as [k3 Hk3] by by_compute.
  destruct (group_signal_exact demo3 100 200 k (fun _ => false) SIGTERM demo3_steps Hk) as (w' & E & H).
  destruct (H 300 k3 Hk3) as (u & Hu & Hsig & _). exists w'. split; [exact E|]. exists u. split; [exact Hu|].
  rewrite Hsig; [vm_compute in Hk3; by injection Hk3 as <-|]. split; [|vm_compute in Hk, Hk3; injection Hk as <-; by injection Hk3 as <-].
  exists [100], [100]. split_and!; [| |reflexivity];
    (eapply (anc_kid _ _ (mkLink 100 _ _ _)); [by_compute|cbn; lia|]; eapply anc_init; by_compute).
Defined.

Lemma exit_status_collected_witness : exists mu w3, ps demo3 !! 200 = Some mu /\
  wait4_round all_tasks (fun _ => false) 100 200 0 demo5 = Ret (WRet 200 (Some 0) (Some (Timers.ruadd (p_ru mu) (p_cru mu)))) w3.
Proof.
  destruct (ps demo3 !! 200) as [mu|] eqn:Hmu; [|by vm_compute in Hmu]. exists mu. pose proof (demo3_dies mu Hmu) as M.
  assert (p_pptr (pu mu) = 100 /\ p_xstat (pu mu) = 0) as [Ep Ex] by (vm_compute in Hmu; by injection Hmu as <-).
  destruct (exit_status_collected demo3 demo4 demo5 false (fun _ => false) 0x5000 200 mu true all_tasks (fun _ => false) 0 demo3_steps M) as (w3 & E & _).
  - done.
  - by_compute.
  - apply rtc_once. exists 300. split; [by rewrite Ep|]. apply (step_setpgid 300 0 300); by_compute.
  - exists w3. split; [done|]. by rewrite Ep, Ex in E.
Defined.

Lemma wait4_exact_witness : exists k r w', ps demo3 !! 100 = Some k /\
  wait4_round all_tasks (fun _ => false) 100 (-1) WNOHANG demo3 = Ret r w' /\ living_post demo3 100 (-1) WNOHANG (p_pgrp (pu k)) r w'.
Proof.
  destruct (ps demo3 !! 100) as [k|] eqn:Hk; [|by vm_compute in Hk].
  destruct (wait4_exact demo3 100 k all_tasks (fun _ => false) (-1) WNOHANG demo3_steps Hk) as (r & w' & E & P).
  assert (p_zombies k = []) as Ez by (vm_compute in Hk; by injection Hk as <-). rewrite Ez in P. exists k, r, w'. split; [reflexivity|]. split; [exact E|exact P].
Defined.

Lemma attach_parent_loops_witness : exists w', pt_attach all_tasks (fun _ => false) 200 100 demo3 = Ret 0 w' /\
  forall fuel, psignalgrp fuel (fun _ => false) 200 SIGTERM (users 200 w') = Diverge.
Proof.
  destruct (ps demo3 !! 200) as [kc|] eqn:Hk; [|by vm_compute in Hk].
  assert (p_pptr (pu kc) = 100) as Ep by (vm_compute in Hk; by injection Hk as <-).
  assert (pt_attach all_tasks (fun _ => false) 200 100 demo3 = Ret 0 (result (pt_attach all_tasks (fun _ => false) 200 100 demo3))) as E by by_compute.
  eexists. split; [exact E|]. apply (attach_parent_loops demo3 _ all_tasks (fun _ => false) 200 kc 200 SIGTERM demo3_any Hk).
  - by rewrite Ep.
  - by rewrite Ep.
Defined.
