(* ===== verification/Cmdline.v ===== *)
(** * Command lines

    Models how a program gets its arguments when it is not started through the
    library's own header: the writer of the command line (compatible_startup and
    quote of stdlib/execve.c) and its reader ([__ix_cli_parse] of
    library/_cli_parse_68k.c).  A string is the list of its bytes without the
    final 0; the reader works in place on a buffer, as the code does, and the
    buffer of the writer has a capacity.  [mem] is what the calls of kmalloc and
    krealloc answer, in order. *)

From S2P Require Import Prelude.

Module Cmd.

Definition str := list Z.
Definition QUOTE : Z := 34.
Definition APOS : Z := 39.
Definition BSLASH : Z := 92.
Definition SPACE : Z := 32.
Definition TAB : Z := 9.
Definition NL : Z := 10.
Definition CR : Z := 13.

Definition isspace (c : Z) : bool := (c =? SPACE) || ((TAB <=? c) && (c <=? CR)).

(** ** quote *)

(** The characters strpbrk looks for. *)
Definition special (c : Z) : bool :=
  (c =? QUOTE) || (c =? APOS) || (c =? BSLASH) || (c =? SPACE) || (c =? TAB) || (c =? NL).

Fixpoint quote_body (orig : str) : str :=
  match orig with
  | [] => []
  | c :: orig => if (c =? QUOTE) || (c =? BSLASH) then BSLASH :: c :: quote_body orig else c :: quote_body orig
  end.

Definition ask (mem : list bool) : bool * list bool :=
  match mem with [] => (true, []) | b :: mem => (b, mem) end.

Definition quote (mem : list bool) (orig : str) : option str * list bool :=
  if existsb special orig then
    let '(ok, mem) := ask mem in
    (if ok then Some (QUOTE :: quote_body orig ++ [QUOTE]) else None, mem)
  else (None, mem).

(** ** The command line (compatible_startup)

    [text] is what is stored between [al] and [cp]. *)
Record linebuf := mkLine { max : Z; text : str }.
Definition len (s : str) : Z := Z.of_nat (length s).

(** strcpy of the element, the space and the final 0. *)
Definition store_arg (el : str) (b : linebuf) : outcome linebuf () :=
  if max b <? len (text b) + len el + 2 then Fault else Ret tt (mkLine (max b) (text b ++ el ++ [SPACE])).

Fixpoint add_args (mem : list bool) (argv : list str) (b : linebuf) : outcome linebuf () :=
  match argv with
  | [] => Ret tt b
  | a :: argv =>
    let '(newel, mem) := quote mem a in
    let el := default a newel in
    let elsize := len el + 2 in
    if max b <=? len (text b) + elsize then
      let '(ok, mem) := ask mem in
      if ok : bool then
        let* (_u, b) := store_arg el (mkLine (2 * max b) (text b)) in add_args mem argv b
      else Ret tt b
    else
      let* (_u, b) := store_arg el b in add_args mem argv b
  end.

(** The line given to RunCommand; the byte behind it is 0. *)
Definition command_line (mem : list bool) (argv : list str) : outcome linebuf str :=
  let* (_u, b) := add_args mem argv (mkLine 1024 []) in
  if max b <? len (text b) + 2 then Fault else Ret (text b ++ [NL]) b.

(** ** The argument list

    [start] is the position of the argument behind which the scan begins. *)
Fixpoint strcmp (s t : str) : Z :=
  match s, t with
  | [], [] => 0
  | [], d :: _ => - d
  | c :: _, [] => c
  | c :: s, d :: t => if c =? d then strcmp s t else c - d
  end.

Definition AddArgument (start : option nat) (arg : str) (args : list str) : list str :=
  let from := match start with Some i => S i | None => 0%nat end in
  let after := match first_idx (fun el => 0 <? strcmp el arg) (drop from args) 0 with
               | Some j => (from + Z.to_nat j + 1)%nat
               | None => length args
               end in
  take after args ++ arg :: drop after args.

(** The position of the last argument. *)
Definition tail_of (args : list str) : option nat :=
  match args with [] => None | _ => Some (Nat.pred (length args)) end.

(** ** The reader *)

(** [bcopy (buf + i + 1, buf + i, n)] *)
Definition bcopy_left (buf : list Z) (i n : Z) : option (list Z) :=
  if (0 <=? i) && (0 <=? n) && (i + 1 + n <=? Z.of_nat (length buf)) then
    let k := Z.to_nat i in
    let m := Z.to_nat n in
    Some (take k buf ++ take m (drop (S k) buf) ++ drop (k + m) buf)
  else None.

(** The string at [i]. *)
Fixpoint until_nul (l : list Z) : str :=
  match l with [] => [] | c :: l => if c =? 0 then [] else c :: until_nul l end.

Definition cstr (buf : list Z) (i : Z) : str := until_nul (drop (Z.to_nat i) buf).

Definition line_end (c : Z) : bool := (c =? 0) || (c =? NL) || (c =? CR).
Definition is_esc (c : Z) : bool := (c =? APOS) || (c =? BSLASH).
(** The star, the opening bracket, the exclamation mark, the question mark and
    the number sign. *)
Definition iswild (c : Z) : bool := (c =? 42) || (c =? 91) || (c =? 33) || (c =? 63) || (c =? 35).

Fixpoint skip_space (fuel : nat) (line : Z) (buf : list Z) : outcome (list Z) Z :=
  match fuel with
  | O => Diverge
  | S fuel => let? c := aget buf line in if isspace c then skip_space fuel (line + 1) buf else Ret line buf
  end.

(** Is there an escaped quote at [i]? *)
Definition escaped (buf : list Z) (i : Z) : option bool :=
  match aget buf i with
  | None => None
  | Some c => if is_esc c then match aget buf (i + 1) with Some d => Some (d =? QUOTE) | None => None end else Some false
  end.

(** The loop to the end of an argument, which [stop] recognizes; it returns
    whether there was a wildcard, [lmax] and [next]. *)
Fixpoint arg_loop (stop : Z -> bool) (fuel : nat) (do_expand : bool) (lmax next : Z) (buf : list Z)
  : outcome (list Z) (bool * (Z * Z)) :=
  match fuel with
  | O => Diverge
  | S fuel =>
    if next <? lmax then
      let? c := aget buf next in
      if stop c then Ret (do_expand, (lmax, next)) buf
      else
        let? e := escaped buf next in
        if e : bool then
          let? buf := bcopy_left buf next (lmax - next + 1) in
          arg_loop stop fuel (do_expand || iswild c) (lmax - 1) (next + 1) buf
        else arg_loop stop fuel (do_expand || iswild c) lmax (next + 1) buf
    else Ret (do_expand, (lmax, next)) buf
  end.

Definition is_quote (c : Z) : bool := c =? QUOTE.

(** One argument: its string is then at the position returned first. *)
Definition next_arg (fuel : nat) (lmax line : Z) (buf : list Z) : outcome (list Z) (Z * (bool * (Z * Z))) :=
  let? c := aget buf line in
  if c =? QUOTE then
    let* (r, buf) := arg_loop is_quote fuel false lmax (line + 1) buf in
    Ret (line + 1, (false, r.2)) (aput buf r.2.2 0)
  else
    let? e := escaped buf line in
    let line := if e : bool then line + 1 else line in
    let? c := aget buf line in
    let* (r, buf) := arg_loop isspace fuel (iswild c) lmax (line + 1) buf in
    Ret (line, r) (aput buf r.2.2 0).

(** The names a pattern expands to are those of [glob]. *)
Definition add_found (names : list str) (args : list str) : list str :=
  fold_left (fun args name => AddArgument (tail_of args) name args) names args.

Fixpoint parse_loop (fuel : nat) (expand_cmd_line : bool) (glob : str -> list str) (args : list str) (lmax line : Z) (buf : list Z)
  : outcome (list Z) (list str) :=
  match fuel with
  | O => Diverge
  | S fuel =>
    if line <? lmax then
      let* (line, buf) := skip_space (S (length buf)) line buf in
      if lmax <=? line then Ret args buf
      else
        let* (r, buf) := next_arg (S (length buf)) lmax line buf in
        let arg := cstr buf r.1 in
        let args := if expand_cmd_line && r.2.1 then add_found (glob arg) args else AddArgument (tail_of args) arg args in
        parse_loop fuel expand_cmd_line glob args r.2.2.1 (r.2.2.2 + 1) buf
    else Ret args buf
  end.

(** The name of the program, a BCPL string: up to the first blank. *)
Definition s8 (z : Z) : Z := (z + 2 ^ 7) mod 2 ^ 8 - 2 ^ 7.
Definition blank (c : Z) : bool := (c =? SPACE) || (c =? TAB).

Fixpoint name_length (fuel : nat) (arg0 : list Z) (n arglen : Z) : outcome () Z :=
  match fuel with
  | O => Diverge
  | S fuel =>
    if arglen <=? n then
      let? c := aget arg0 arglen in
      if blank c then Ret arglen tt else name_length fuel arg0 n (arglen + 1)
    else Ret arglen tt
  end.

Definition program_name (arg0 : list Z) : outcome () str :=
  let? n := aget arg0 0 in
  let* (arglen, _u) := name_length 129 arg0 (s8 n) 1 in
  Ret (until_nul (take (Z.to_nat (arglen - 1)) (drop 1 arg0))) tt.

(** [__ix_cli_parse] on the line [aptr] of [alen] bytes; the result is [argv]. *)
Definition cli_args (expand_cmd_line : bool) (glob : str -> list str) (alen : Z) (aptr : list Z) : outcome (list Z) (list str) :=
  let buf := take (Z.to_nat (alen + 1)) aptr in
  let? lmax := first_idx line_end buf 0 in
  let buf := aput buf lmax 0 in
  parse_loop (S (length buf)) expand_cmd_line glob [] lmax 0 buf.

Definition cli_parse (expand_cmd_line : bool) (glob : str -> list str) (alen : Z) (aptr arg0 : list Z) : outcome () (Z * list str) :=
  match cli_args expand_cmd_line glob alen aptr with
  | Ret args _ => let* (name, _u) := program_name arg0 in Ret (Z.of_nat (length args) + 1, name :: args) tt
  | Asleep _ => Asleep tt
  | Panic m => Panic m
  | Fault => Fault
  | Diverge => Diverge
  end.
End Cmd.
