(* ===== verification/CmdlineTheorems.v ===== *)
(** * Command lines: theorems

    The reader against its specification, the round trip through the writer, and
    the arguments and lengths for which it does not hold. *)

From S2P Require Import Prelude Cmdline.
Import Cmd.

(** ** The specification *)

(** The text up to the character that ends it, and the rest from there on; has
    the text a wildcard? *)
Fixpoint scan (stop : Z -> bool) (l : list Z) : bool * str * list Z :=
  match l with
  | [] => (false, [], [])
  | c :: l' =>
    if stop c then (false, [], l)
    else match l' with
         | d :: l'' =>
           if is_esc c && (d =? QUOTE) then let '(w, a, t) := scan stop l'' in (iswild c || w, QUOTE :: a, t)
           else let '(w, a, t) := scan stop l' in (iswild c || w, c :: a, t)
         | [] => (iswild c, [c], [])
         end
  end.

Fixpoint drop_space (l : list Z) : list Z :=
  match l with [] => [] | c :: l' => if isspace c then drop_space l' else l end.

(** One argument: has it to be expanded, its text, and the rest from the
    character that ends it on. *)
Definition word (c : Z) (l : list Z) : bool * str * list Z :=
  if is_quote c then let '(_, a, t) := scan is_quote l in (false, a, t)
  else match l with
       | d :: l' =>
         if is_esc c && (d =? QUOTE) then let '(w, a, t) := scan isspace l' in (w, QUOTE :: a, t)
         else let '(w, a, t) := scan isspace l in (iswild c || w, c :: a, t)
       | [] => (iswild c, [c], [])
       end.

Fixpoint words (fuel : nat) (l : list Z) : list (bool * str) :=
  match fuel with
  | O => []
  | S fuel =>
    match drop_space l with
    | [] => []
    | c :: l => let '(w, a, t) := word c l in (w, a) :: words fuel (tail t)
    end
  end.

Definition split_line (l : list Z) : list (bool * str) := words (S (length l)) l.

Definition expand_words (expand : bool) (glob : str -> list str) (ws : list (bool * str)) : list str :=
  flat_map (fun w : bool * str => if expand && w.1 then glob w.2 else [w.2]) ws.

(** ** Positions in a buffer *)

Notation "'#' l" := (Z.of_nat (length l)) (at level 9, format "# l").

Lemma aget_app_r {A} (pre l : list A) i : 0 <= i -> aget (pre ++ l) (#pre + i) = aget l i.
Proof.
  intros H. unfold aget. rewrite !(proj2 (Z.leb_le _ _)) by lia. rewrite lookup_app_r by lia. f_equal. lia.
Qed.

Lemma aget_mid {A} (pre l : list A) x : aget (pre ++ x :: l) #pre = Some x.
Proof. rewrite <- (Z.add_0_r #pre), aget_app_r by lia. done. Qed.

Lemma aget_mid1 {A} (pre l : list A) x y : aget (pre ++ x :: y :: l) (#pre + 1) = Some y.
Proof. rewrite aget_app_r by lia. done. Qed.

Lemma aput_mid {A} (pre l : list A) x y : aput (pre ++ x :: l) #pre y = pre ++ y :: l.
Proof.
  unfold aput. rewrite (proj2 (Z.leb_le _ _)) by lia. rewrite Nat2Z.id, insert_app_r_alt, Nat.sub_diag by lia. done.
Qed.

Lemma bcopy_left_mid pre c m q post : bcopy_left (pre ++ c :: m ++ q :: post) #pre (#m + 1) = Some (pre ++ m ++ q :: q :: post).
Proof.
  unfold bcopy_left. rewrite !length_app; cbn [length]; rewrite !length_app; cbn [length].
  rewrite !(proj2 (Z.leb_le _ _)) by lia. cbn [andb]. f_equal.
  replace (Z.to_nat #pre) with (length pre) by lia. replace (Z.to_nat (#m + 1)) with (length m + 1)%nat by lia.
  assert (forall k (l : list Z), drop (length pre + k) (pre ++ l) = drop k l) as Hd
    by (intros k l; rewrite drop_app_ge by lia; f_equal; lia).
  rewrite take_app_length. replace (S (length pre)) with (length pre + 1)%nat by lia. rewrite !Hd. cbn [drop].
  replace (length m + 1)%nat with (S (length m)) by lia. cbn [drop]. rewrite drop_app_length.
  rewrite drop_0. assert (take (S (length m)) (m ++ q :: post) = m ++ [q]) as ->; [|by rewrite <- app_assoc].
  rewrite take_app_ge by lia. do 2 f_equal. by replace (S (length m) - length m)%nat with 1%nat by lia.
Qed.

Lemma until_nul_app a l : 0 ∉ a -> until_nul (a ++ 0 :: l) = a.
Proof.
  induction a as [|c a IH]; [done|]. intros [Hc Ha]%not_elem_of_cons. cbn. destruct (Z.eqb_spec c 0); [congruence|]. by rewrite IH.
Qed.

Lemma cstr_mid pre a l : 0 ∉ a -> cstr (pre ++ a ++ 0 :: l) #pre = a.
Proof. intros H. unfold cstr. rewrite Nat2Z.id, drop_app_length. by apply until_nul_app. Qed.

(** ** The loops *)

Lemma skip_space_spec l : forall fuel pre post, (length l < fuel)%nat ->
  exists sp, l = sp ++ drop_space l /\ (forall c, c ∈ sp -> isspace c = true) /\
    skip_space fuel #pre (pre ++ l ++ 0 :: post) = Ret (#pre + #sp) (pre ++ l ++ 0 :: post).
Proof.
  induction l as [|c l IH]; intros fuel pre post Hf; (destruct fuel as [|fuel]; cbn [length] in Hf; [lia|]).
  - exists []. split; [done|]. split; [by intros c ?%not_elem_of_nil|]. cbn [skip_space app]. rewrite aget_mid. cbn. f_equal. lia.
  - cbn [drop_space skip_space app]. rewrite aget_mid. destruct (isspace c) eqn:Ec.
    + destruct (IH fuel (pre ++ [c]) post) as (sp & El & Hsp & E); [lia|]. exists (c :: sp). split; [cbn; by f_equal|].
      split; [intros x [->|Hx]%elem_of_cons; [done|by apply Hsp]|].
      rewrite <- !app_assoc in E. cbn [app] in E. rewrite length_app in E. cbn [length] in *.
      replace (Z.of_nat (length pre + 1)) with (#pre + 1) in E by lia. rewrite E. f_equal. lia.
    + exists []. split; [done|]. split; [by intros x ?%not_elem_of_nil|]. cbn. f_equal. lia.
Qed.

(** The state after a loop over [l] that has taken [a] and left [t]. *)
Definition loop_post (pre a t : list Z) (n : nat) (lmax next : Z) (buf : list Z) : Prop :=
  exists post, buf = pre ++ a ++ t ++ 0 :: post /\ post <> [] /\ lmax = #pre + #a + #t /\ next = #pre + #a /\ length buf = n.

Lemma escaped_mid pre c l x : escaped (pre ++ c :: x :: l) #pre = Some (is_esc c && (x =? QUOTE)).
Proof. unfold escaped. rewrite aget_mid, aget_mid1. by destruct (is_esc c). Qed.

(** The end of the line is no quote. *)
Lemma escaped_end pre c post : escaped (pre ++ c :: 0 :: post) #pre = Some false.
Proof. rewrite escaped_mid. by rewrite andb_false_r. Qed.

Lemma loop_post_cons pre c a t n lmax next buf : loop_post (pre ++ [c]) a t n lmax next buf -> loop_post pre (c :: a) t n lmax next buf.
Proof.
  intros (post & -> & H & -> & -> & <-). exists post. rewrite <- !app_assoc, !length_app. cbn [app length]. repeat split; try done; lia.
Qed.

Definition loop_buf (pre l post : list Z) : list Z := pre ++ l ++ 0 :: post.

(** The escaped quote moves to the place of its escape character. *)
Lemma shift_escape pre c l p post :
  bcopy_left (loop_buf pre (c :: QUOTE :: l) (p :: post)) #pre (#pre + #(c :: QUOTE :: l) - #pre + 1) =
  Some (loop_buf (pre ++ [QUOTE]) l (p :: p :: post)).
Proof.
  unfold loop_buf. cbn [app].
  pose proof (bcopy_left_mid pre c (QUOTE :: l ++ [0]) p post) as E. cbn [app] in E. rewrite <- !app_assoc in E. cbn [app] in E.
  rewrite <- app_assoc. cbn [app]. rewrite <- E. f_equal. cbn [length]. rewrite length_app. cbn. lia.
Qed.

Lemma loop_done pre l post : post <> [] -> loop_post pre [] l (length (loop_buf pre l post)) (#pre + #l) #pre (loop_buf pre l post).
Proof. intros H. exists post. repeat split; try done; cbn [length]; lia. Qed.

(** One character [a] of the argument has been passed. *)
Lemma loop_step stop fuel pre a l w post n r :
  (exists w' lmax next buf, arg_loop stop fuel w (#(pre ++ [a]) + #l) (#(pre ++ [a])) (loop_buf (pre ++ [a]) l post) = Ret (w', (lmax, next)) buf /\
     w' = w || r.1.1 /\ loop_post (pre ++ [a]) r.1.2 r.2 n lmax next buf) ->
  exists w' lmax next buf, arg_loop stop fuel w (#pre + 1 + #l) (#pre + 1) (loop_buf (pre ++ [a]) l post) = Ret (w', (lmax, next)) buf /\
     w' = w || r.1.1 /\ loop_post pre (a :: r.1.2) r.2 n lmax next buf.
Proof.
  intros (w' & lmax & next & buf & E & Ew & L). exists w', lmax, next, buf. split; [|split; [done|by apply loop_post_cons]].
  rewrite <- E. f_equal; rewrite length_app; cbn; lia.
Qed.

Lemma arg_loop_spec stop fuel : forall l w pre post, (length l < fuel)%nat -> post <> [] ->
  exists w' lmax next buf, arg_loop stop fuel w (#pre + #l) (#pre) (loop_buf pre l post) = Ret (w', (lmax, next)) buf /\
    w' = w || (scan stop l).1.1 /\
    loop_post pre (scan stop l).1.2 (scan stop l).2 (length (loop_buf pre l post)) lmax next buf.
Proof.
  induction fuel as [|fuel IH]; intros l w pre post Hf Hp; [lia|]. cbn [arg_loop]. pose proof (loop_done pre l post Hp) as Hdone.
  destruct l as [|c l].
  { eexists w, _, _, _. split; [|split; [|exact Hdone]]; [|cbn; by rewrite orb_false_r]. cbn [length]. by rewrite Z.add_0_r, Z.ltb_irrefl. }
  rewrite (proj2 (Z.ltb_lt _ _)) by (cbn [length]; lia). unfold loop_buf at 1. cbn [app]. rewrite aget_mid. cbn [scan].
  destruct (stop c); [eexists w, _, _, _; split; [done|]; split; [cbn; by rewrite orb_false_r|done]|].
  cbn [length] in Hf. unfold loop_buf at 1. cbn [app].
  assert (forall l', loop_buf pre (c :: l') post = loop_buf (pre ++ [c]) l' post) as Eb by (intros; unfold loop_buf; by rewrite <- app_assoc).
  assert (forall l', #pre + #(c :: l') = #pre + 1 + #l') as El by (intros; cbn [length]; lia).
  destruct l as [|d l].
  - cbn [app]. rewrite escaped_end, Eb, El.
    destruct (loop_step stop fuel pre c [] (w || iswild c) post (length (loop_buf (pre ++ [c]) [] post)) (scan stop []) (IH [] _ _ _ ltac:(cbn in *; lia) Hp))
      as (w' & lmax & next & buf & E & -> & L).
    eexists _, _, _, _. split; [exact E|]. split; [by rewrite orb_false_r|exact L].
  - cbn [app]. rewrite escaped_mid. destruct (is_esc c && (d =? QUOTE)) eqn:Ee.
    + apply andb_true_iff in Ee as [_ ->%Z.eqb_eq]. destruct post as [|p post]; [done|]. rewrite shift_escape.
      edestruct (loop_step stop fuel pre QUOTE l (w || iswild c) (p :: p :: post) _ (scan stop l) (IH l _ _ (p :: p :: post) ltac:(cbn in *; lia) ltac:(done)))
        as (w' & lmax & next & buf & E & -> & L).
      destruct (scan stop l) as [[w1 a] t]. cbn in *. eexists _, _, _, _. split; [rewrite <- E; f_equal; cbn [length]; lia|].
      split; [by rewrite orb_assoc|].
      replace (length (loop_buf pre (c :: QUOTE :: l) (p :: post))) with (length (loop_buf (pre ++ [QUOTE]) l (p :: p :: post)));
        [exact L|]. unfold loop_buf; cbn [app]; repeat (rewrite ?length_app; cbn [length]); lia.
    + rewrite Eb, El.
      edestruct (loop_step stop fuel pre c (d :: l) (w || iswild c) post _ (scan stop (d :: l)) (IH (d :: l) _ _ _ ltac:(cbn in *; lia) Hp))
        as (w' & lmax & next & buf & E & -> & L).
      destruct (scan stop (d :: l)) as [[w1 a] t]. cbn [fst snd] in *. eexists _, _, _, _. split; [exact E|]. split; [by rewrite orb_assoc|exact L].
Qed.

(** ** One argument *)

Lemma scan_nul stop l : 0 ∉ l -> 0 ∉ (scan stop l).1.2 /\ 0 ∉ (scan stop l).2.
Proof.
  remember (length l) as n eqn:En. assert (length l <= n)%nat as Hn by lia. clear En. revert l Hn.
  induction n as [|n IH]; intros l Hn H0; (destruct l as [|c l]; [split; apply not_elem_of_nil|]); cbn in Hn; [lia|].
  cbn [scan]. destruct (stop c); [split; [by apply not_elem_of_nil|done]|]. apply not_elem_of_cons in H0 as [Hc H0].
  destruct l as [|d l]; [split; [by intros ?%list_elem_of_singleton|apply not_elem_of_nil]|].
  destruct (is_esc c && (d =? QUOTE)).
  - apply not_elem_of_cons in H0 as [_ H0]. destruct (IH l) as [H1 H2]; [cbn in Hn; lia|done|]. destruct (scan stop l) as [[w a] t]. cbn in *.
    split; [|done]. by apply not_elem_of_cons.
  - destruct (IH (d :: l)) as [H1 H2]; [lia|done|]. destruct (scan stop (d :: l)) as [[w a] t]. cbn [fst snd] in *.
    split; [|done]. by apply not_elem_of_cons.
Qed.

(** What is left begins with the character that ended the argument. *)
Lemma scan_rest stop l : (length (scan stop l).2 <= length l)%nat.
Proof.
  remember (length l) as n eqn:En. assert (length l <= n)%nat as Hn by lia. rewrite En. clear En. revert l Hn.
  induction n as [|n IH]; intros l Hn; (destruct l as [|c l]; [done|]); cbn in Hn; [lia|].
  cbn [scan]. destruct (stop c); [done|]. destruct l as [|d l]; [cbn; lia|]. destruct (is_esc c && (d =? QUOTE)).
  - pose proof (IH l ltac:(cbn in Hn; lia)). destruct (scan stop l) as [[w a] t]. cbn in *. lia.
  - pose proof (IH (d :: l) ltac:(lia)). destruct (scan stop (d :: l)) as [[w a] t]. cbn in *. lia.
Qed.

(** The argument is at [line], the rest behind it. *)
Definition arg_post (line : Z) (a t : list Z) (n : nat) (lmax next : Z) (buf : list Z) : Prop :=
  exists pre post, buf = pre ++ a ++ 0 :: tail t ++ (if t then [] else [0]) ++ post /\ (t <> [] -> post <> []) /\ line = #pre /\
    lmax = #pre + #a + #t /\ next = #pre + #a /\ length buf = n.

Lemma finish_arg pre a t n lmax next buf : loop_post pre a t n lmax next buf -> arg_post (#pre) a t n lmax next (aput buf next 0).
Proof.
  intros (post & -> & Hp & -> & -> & <-). exists pre, post.
  assert (#pre + #a = #(pre ++ a)) as Ei by (rewrite length_app; lia). rewrite Ei, app_assoc.
  assert (forall x l, aput ((pre ++ a) ++ x :: l) #(pre ++ a) 0 = pre ++ a ++ 0 :: l) as E by (intros; by rewrite aput_mid, <- app_assoc).
  destruct t as [|x t].
  - cbn [app tail]. rewrite E. split; [done|]. repeat split; try done; rewrite ?length_app; cbn; lia.
  - cbn [app tail]. rewrite E. split; [done|]. repeat split; try done; rewrite ?length_app; cbn; rewrite ?length_app; cbn; lia.
Qed.

Lemma next_arg_spec c l pre post fuel : (length l < fuel)%nat -> post <> [] ->
  exists line w lmax next buf, next_arg fuel (#pre + #(c :: l)) (#pre) (loop_buf pre (c :: l) post) = Ret (line, (w, (lmax, next))) buf /\
    w = (word c l).1.1 /\ arg_post line (word c l).1.2 (word c l).2 (length (loop_buf pre (c :: l) post)) lmax next buf.
Proof.
  intros Hf Hp. unfold next_arg, word. unfold loop_buf at 1. cbn [app]. rewrite aget_mid.
  assert (forall x l', loop_buf pre (x :: l') post = loop_buf (pre ++ [x]) l' post) as Eb by (intros; unfold loop_buf; by rewrite <- app_assoc).
  assert (forall (x : Z) l', #pre + #(x :: l') = #(pre ++ [x]) + #l') as El by (intros; rewrite length_app; cbn [length]; lia).
  assert (forall x : Z, #pre + 1 = #(pre ++ [x])) as El1 by (intros; rewrite length_app; cbn [length]; lia).
  change (is_quote c) with (c =? QUOTE). destruct (Z.eqb_spec c QUOTE) as [->|Hc].
  - destruct (arg_loop_spec is_quote fuel l false (pre ++ [QUOTE]) post Hf Hp) as (w & lmax & next & buf & E & _ & L).
    rewrite (El1 QUOTE), Eb, El, E. cbn [obind]. destruct (scan is_quote l) as [[w1 a] t]. cbn [fst snd] in *.
    eexists _, _, _, _, _. split; [done|]. split; [done|]. by apply finish_arg.
  - destruct l as [|d l].
    + unfold loop_buf at 1. cbn [app]. rewrite escaped_end. unfold loop_buf at 1. cbn [app]. rewrite aget_mid.
      destruct (arg_loop_spec isspace fuel [] (iswild c) (pre ++ [c]) post Hf Hp) as (w & lmax & next & buf & E & Ew & L).
      rewrite (El1 c), Eb, El, E. cbn [obind fst snd] in *. eexists _, _, _, _, _. split; [done|]. split; [rewrite Ew; cbn; by rewrite orb_false_r|].
      apply finish_arg. by apply loop_post_cons.
    + unfold loop_buf at 1. cbn [app]. rewrite escaped_mid. destruct (is_esc c && (d =? QUOTE)) eqn:Ee.
      * apply andb_true_iff in Ee as [_ ->%Z.eqb_eq]. unfold loop_buf at 1. cbn [app]. rewrite aget_mid1.
        destruct (arg_loop_spec isspace fuel l (iswild QUOTE) ((pre ++ [c]) ++ [QUOTE]) post ltac:(cbn in Hf; lia) Hp) as (w & lmax & next & buf & E & Ew & L).
        assert (loop_buf pre (c :: QUOTE :: l) post = loop_buf ((pre ++ [c]) ++ [QUOTE]) l post) as -> by (unfold loop_buf; by rewrite <- !app_assoc).
        replace (#pre + 1 + 1) with (#((pre ++ [c]) ++ [QUOTE])) by (rewrite !length_app; cbn; lia).
        replace (#pre + #(c :: QUOTE :: l)) with (#((pre ++ [c]) ++ [QUOTE]) + #l) by (rewrite !length_app; cbn; lia).
        rewrite E. cbn [obind]. destruct (scan isspace l) as [[w1 a] t]. cbn [fst snd] in *. rewrite (El1 c). eexists _, _, _, _, _. split; [done|].
        split; [rewrite Ew; done|]. apply finish_arg. by apply loop_post_cons.
      * unfold loop_buf at 1. cbn [app]. rewrite aget_mid.
        destruct (arg_loop_spec isspace fuel (d :: l) (iswild c) (pre ++ [c]) post Hf Hp) as (w & lmax & next & buf & E & Ew & L).
        rewrite (El1 c), Eb, El, E. cbn [obind]. destruct (scan isspace (d :: l)) as [[w1 a] t]. cbn [fst snd] in *.
        eexists _, _, _, _, _. split; [done|]. split; [done|]. apply finish_arg. by apply loop_post_cons.
Qed.

(** ** The argument list *)

Lemma AddArgument_appends arg args : AddArgument (tail_of args) arg args = args ++ [arg].
Proof.
  unfold AddArgument. replace (drop _ args) with (@nil str).
  - cbn [first_idx]. by rewrite take_ge, drop_ge by lia.
  - symmetry. apply drop_ge. destruct args; cbn; lia.
Qed.

Lemma add_found_appends names : forall args, add_found names args = args ++ names.
Proof.
  unfold add_found. induction names as [|a names IH]; intros args; cbn; [by rewrite app_nil_r|].
  by rewrite AddArgument_appends, IH, <- app_assoc.
Qed.

(** ** The whole line *)

Lemma word_rest c l : (length (word c l).2 <= length l)%nat.
Proof.
  unfold word. destruct (is_quote c); [pose proof (scan_rest is_quote l); by destruct (scan is_quote l) as [[? ?] ?]|].
  destruct l as [|d l]; [done|]. destruct (is_esc c && (d =? QUOTE)).
  - pose proof (scan_rest isspace l). destruct (scan isspace l) as [[? ?] ?]. cbn in *. lia.
  - pose proof (scan_rest isspace (d :: l)). destruct (scan isspace (d :: l)) as [[? ?] ?]. done.
Qed.

Lemma word_nul c l : 0 ∉ c :: l -> 0 ∉ (word c l).1.2 /\ 0 ∉ (word c l).2.
Proof.
  intros [Hc H0]%not_elem_of_cons. unfold word. destruct (is_quote c); [pose proof (scan_nul is_quote l H0); by destruct (scan is_quote l) as [[? ?] ?]|].
  destruct l as [|d l]; [split; [by intros ?%list_elem_of_singleton|done]|]. destruct (is_esc c && (d =? QUOTE)).
  - apply not_elem_of_cons in H0 as [_ H0]. destruct (scan_nul isspace l H0) as [H1 H2]. destruct (scan isspace l) as [[? ?] ?]. cbn in *.
    split; [by apply not_elem_of_cons|done].
  - destruct (scan_nul isspace (d :: l) H0) as [H1 H2]. destruct (scan isspace (d :: l)) as [[? ?] ?]. cbn in *. split; [by apply not_elem_of_cons|done].
Qed.

Lemma length_tail_le {A} (l : list A) : (length (tail l) <= length l)%nat.
Proof. destruct l; cbn; lia. Qed.

Lemma words_enough n : forall f1 f2 l, (length l <= n)%nat -> (length l < f1)%nat -> (length l < f2)%nat -> words f1 l = words f2 l.
Proof.
  induction n as [|n IH]; intros [|f1] [|f2] l Hn H1 H2; try lia.
  - destruct l; [done|cbn in Hn; lia].
  - cbn [words]. destruct (skip_space_spec l (S (length l)) [] []) as (sp & El & _); [lia|].
    destruct (drop_space l) as [|c l']; [done|]. apply (f_equal length) in El. rewrite length_app in El. cbn in El.
    pose proof (word_rest c l'). destruct (word c l') as [[w a] t]. cbn in *. pose proof (length_tail_le t). f_equal. apply IH; lia.
Qed.

Lemma drop_space_nul l : 0 ∉ l -> 0 ∉ drop_space l.
Proof. induction l as [|c l IH]; cbn; [done|]. intros H. destruct (isspace c); [|done]. apply not_elem_of_cons in H as [_ H]. auto. Qed.

(** Behind the white space. *)
Lemma skip_pre l pre post : exists pre', loop_buf pre l post = loop_buf pre' (drop_space l) post /\ #pre' <= #pre + #l /\
  #pre + #l = #pre' + #(drop_space l) /\
  skip_space (S (length (loop_buf pre l post))) (#pre) (loop_buf pre l post) = Ret (#pre') (loop_buf pre' (drop_space l) post).
Proof.
  destruct (skip_space_spec l (S (length (loop_buf pre l post))) pre post) as (sp & El & _ & E).
  { unfold loop_buf. rewrite !length_app. lia. }
  exists (pre ++ sp). assert (loop_buf pre l post = loop_buf (pre ++ sp) (drop_space l) post) as Eb.
  { unfold loop_buf. rewrite El at 1. by rewrite <- !app_assoc. }
  assert (#l = #sp + #(drop_space l)) as Hl by (rewrite El at 1; rewrite length_app; lia).
  split; [done|]. rewrite length_app. split; [lia|]. split; [lia|]. unfold loop_buf at 2. rewrite E. fold (loop_buf pre l post). rewrite Eb. f_equal. lia.
Qed.

Lemma parse_loop_spec expand glob fuel : forall l pre post args, (length l < fuel)%nat -> 0 ∉ l -> post <> [] ->
  exists buf, parse_loop fuel expand glob args (#pre + #l) (#pre) (loop_buf pre l post) = Ret (args ++ expand_words expand glob (words fuel l)) buf.
Proof.
  induction fuel as [|fuel IH]; intros l pre post args Hf H0 Hp; [lia|]. cbn [parse_loop words].
  destruct (Z.ltb_spec #pre (#pre + #l)) as [Hlt|Hge].
  2:{ destruct l; [|cbn in Hge; lia]. cbn. rewrite app_nil_r. by eexists. }
  destruct (skip_pre l pre post) as (pre' & Eb & Hle & El & ->). cbn [obind]. pose proof (drop_space_nul l H0) as Hd0. rewrite El.
  destruct (drop_space l) as [|c l'] eqn:Ed.
  { cbn [length]. rewrite (proj2 (Z.leb_le _ _)) by lia. cbn. rewrite app_nil_r. by eexists. }
  rewrite (proj2 (Z.leb_gt _ _)) by (cbn [length]; lia).
  destruct (next_arg_spec c l' pre' post (S (length (loop_buf pre' (c :: l') post)))) as (line & w & lmax & next & buf & -> & -> & A); [|done|].
  { unfold loop_buf. rewrite !length_app. cbn. lia. }
  cbn [obind fst snd]. destruct A as (pre2 & post2 & -> & Hp2 & -> & -> & -> & Hlen). destruct (word_nul c l' Hd0) as [Ha Ht].
  pose proof (word_rest c l') as Hr. destruct (word c l') as [[w a] t]. cbn [fst snd] in *. rewrite cstr_mid by done.
  set (args' := if expand && w then _ else _).
  assert (args' = args ++ (if expand && w then glob a else [a])) as -> by (unfold args'; destruct (expand && w); [apply add_found_appends|apply AddArgument_appends]).
  unfold expand_words. cbn [flat_map]. rewrite (app_assoc args). set (args1 := args ++ _).
  destruct t as [|x r]; cbn [tail].
  - exists (pre2 ++ a ++ 0 :: [] ++ [] ++ post2). destruct fuel as [|fuel]; [cbn in *; lia|]. cbn [parse_loop].
    rewrite (proj2 (Z.ltb_ge _ _)) by (cbn [length]; lia). f_equal. cbn. by rewrite app_nil_r.
  - apply (f_equal length) in Ed. assert (length (drop_space l) <= length l)%nat.
    { destruct (skip_space_spec l (S (length l)) [] []) as (sp & E2 & _); [lia|]. apply (f_equal length) in E2. rewrite length_app in E2. lia. }
    cbn [length] in *. destruct (IH r (pre2 ++ a ++ [0]) post2 args1) as (buf & E); [lia|apply not_elem_of_cons in Ht; tauto|by apply Hp2|].
    exists buf. unfold loop_buf, expand_words in E. rewrite <- !app_assoc in E. cbn [app] in *. rewrite <- E. f_equal; rewrite !length_app; cbn; lia.
Qed.

(** [aptr] holds a line, its end [e], and at least one byte more. *)
Lemma cli_args_spec expand glob line e rest alen :
  Forall (fun c => line_end c = false) line -> line_end e = true -> #line < alen -> #line + 1 + #rest > alen ->
  exists buf, cli_args expand glob alen (line ++ e :: rest) = Ret (expand_words expand glob (split_line line)) buf.
Proof.
  intros Hl He Ha Hr. unfold cli_args.
  assert (exists post, take (Z.to_nat (alen + 1)) (line ++ e :: rest) = line ++ e :: post /\ post <> []) as (post & -> & Hp).
  { rewrite take_app_ge by lia. replace (Z.to_nat (alen + 1) - length line)%nat with (S (S (Z.to_nat (alen - 1 - #line)))) by lia.
    destruct rest as [|x rest]; [cbn in Hr; lia|]. cbn. by eexists. }
  assert (forall l i, Forall (fun c => line_end c = false) l -> first_idx line_end (l ++ e :: post) i = Some (i + #l)) as Hfi.
  { induction l as [|c l IH]; intros i Hf; cbn [app first_idx]; [rewrite He; f_equal; cbn; lia|].
    apply Forall_cons in Hf as [-> Hf]. rewrite IH by done. f_equal. cbn [length]. lia. }
  rewrite Hfi by done. rewrite Z.add_0_l, aput_mid.
  destruct (parse_loop_spec expand glob (S (length (line ++ 0 :: post))) line [] post []) as (buf & E); [rewrite length_app; cbn; lia| |done|].
  - intros H0. apply (proj1 (Forall_forall _ _) Hl) in H0. done.
  - exists buf. unfold loop_buf in E. cbn [app length] in E. change (Z.of_nat 0) with 0 in E. rewrite Z.add_0_l in E. rewrite E. f_equal. unfold split_line.
    by rewrite (words_enough (length line) (S (length (line ++ 0 :: post))) (S (length line))) by (rewrite ?length_app; cbn; lia).
Qed.

(** ** The reader *)

Lemma name_length_spec name rest k : Forall (fun c => blank c = false) name -> forall fuel pre,
  (length name < fuel)%nat -> k = #pre + #name - 1 -> name_length fuel (pre ++ name ++ rest) k (#pre) = Ret (#pre + #name) tt.
Proof.
  intros Hb. induction Hb as [|c name Hc Hb IH]; intros [|fuel] pre Hf ->; cbn [length] in Hf; try lia; cbn [name_length].
  - rewrite (proj2 (Z.leb_gt _ _)) by (cbn; lia). f_equal. cbn. lia.
  - rewrite (proj2 (Z.leb_le _ _)) by (cbn; lia). cbn [app]. rewrite aget_mid, Hc.
    specialize (IH fuel (pre ++ [c]) ltac:(lia)). rewrite <- app_assoc in IH. cbn [app] in IH. rewrite length_app in IH. cbn [length] in *.
    replace (Z.of_nat (length pre + 1)) with (#pre + 1) in IH by lia. rewrite IH by lia. f_equal. lia.
Qed.

Lemma program_name_spec name rest : Forall (fun c => blank c = false) name -> 0 ∉ name -> (length name <= 127)%nat ->
  program_name (#name :: name ++ rest) = Ret name tt.
Proof.
  intros Hb H0 Hn. unfold program_name. assert (s8 #name = #name) as E by (unfold s8; rewrite Z.mod_small; lia).
  change (aget (#name :: name ++ rest) 0) with (Some (#name)). cbv beta iota. rewrite E. pose proof (name_length_spec name rest #name Hb 129 [ (#name) ] ltac:(lia)) as H. cbn [app length] in H.
  change (Z.of_nat 1) with 1 in H. rewrite H by lia. cbn [obind]. f_equal. cbn [drop]. rewrite drop_0.
  rewrite take_app_le, take_ge by lia. clear -H0. induction name as [|c name IH]; [done|]. apply not_elem_of_cons in H0 as [Hc H0].
  cbn. destruct (Z.eqb_spec c 0); [congruence|]. by rewrite IH.
Qed.

(** A program name as AmigaDOS keeps it: a length byte and the name. *)
Record is_name (name : str) : Prop := {
  in_blank : Forall (fun c => blank c = false) name;
  in_nul : 0 ∉ name;
  in_length : (length name <= 127)%nat
}.

(** C22. Whatever the command line is, the reader, which moves its text about in
    place, terminates, stays inside its buffer and finds the arguments of the
    specification: words are separated by white space, a quoted word is taken as
    it is, an escaped quote stands for a quote, and only words that are not quoted
    and have a wildcard are expanded, in the order of the line. *)
Theorem cli_parse_splits expand glob line e rest alen name more :
  Forall (fun c => line_end c = false) line -> line_end e = true -> #line < alen -> alen < #line + 1 + #rest -> is_name name ->
  let args := expand_words expand glob (split_line line) in
  cli_parse expand glob alen (line ++ e :: rest) (#name :: name ++ more) = Ret (#args + 1, name :: args) tt.
Proof.
  intros Hl He Ha Hr [N1 N2 N3]. cbv zeta. unfold cli_parse.
  destruct (cli_args_spec expand glob line e rest alen Hl He Ha ltac:(lia)) as (buf & ->). by rewrite program_name_spec.
Qed.

(** ** The writer *)

(** The element of an argument when there is memory. *)
Definition element (a : str) : str := if existsb special a then QUOTE :: quote_body a ++ [QUOTE] else a.
Definition elements (argv : list str) : str := concat (map (fun a => element a ++ [SPACE]) argv).

Lemma quote_true mem a : Forall (fun b => b = true) mem -> exists mem', quote mem a = (if existsb special a then Some (element a) else None, mem') /\
  Forall (fun b => b = true) mem'.
Proof.
  intros H. unfold quote, element. destruct (existsb special a); [|by eexists]. destruct H as [|b mem -> H]; cbn; by eexists.
Qed.

Lemma element_longer a : len a <= len (element a).
Proof.
  unfold element, len. destruct (existsb special a); [|lia]. cbn [length]. rewrite length_app.
  enough (length a <= length (quote_body a))%nat by lia. induction a as [|c a IH]; cbn; [done|]. destruct (_ || _); cbn; lia.
Qed.

Lemma quote_short mem a : len (default a (quote mem a).1) <= len (element a).
Proof.
  unfold quote. pose proof (element_longer a) as H. unfold element in *. destruct (existsb special a); [|done].
  destruct (ask mem) as [[|] mem']; done.
Qed.

(** Elements of at most 1022 bytes stay inside the buffer, whatever memory there
    is; with enough memory all of them are stored. *)
Lemma add_args_fits argv : forall mem b, (forall a, a ∈ argv -> len (element a) <= 1022) ->
  1024 <= max b -> len (text b) + 2 <= max b ->
  exists b', add_args mem argv b = Ret tt b' /\ len (text b') + 2 <= max b' /\
    (Forall (fun b => b = true) mem -> text b' = text b ++ elements argv).
Proof.
  induction argv as [|a argv IH]; intros mem b Ha Hb Ht; cbn [add_args].
  { exists b. unfold elements. cbn. by rewrite app_nil_r. }
  pose proof (quote_short mem a) as Hq. pose proof (Ha a ltac:(left)) as Hel. pose proof (quote_true mem a) as Hqt.
  destruct (quote mem a) as [o mem1]. cbn [fst] in Hq. cbv beta iota zeta. set (el := default a o) in *.
  assert (Forall (fun b => b = true) mem -> el = element a /\ Forall (fun b => b = true) mem1) as Hall.
  { intros (m & E & Hm)%Hqt. injection E as -> ->. split; [|done]. unfold el, element. by destruct (existsb special a). }
  assert (forall m mem', max b <= m -> len (text b) + len el + 2 < m ->
    (Forall (fun b => b = true) mem1 -> Forall (fun b => b = true) mem') ->
    exists b', (let* (_u, b) := store_arg el (mkLine m (text b)) in add_args mem' argv b) = Ret tt b' /\ len (text b') + 2 <= max b' /\
      (Forall (fun b => b = true) mem -> text b' = text b ++ elements (a :: argv))) as Hstep.
  { intros m mem' Hle Hfit Hmem. unfold store_arg. cbn [max text]. rewrite (proj2 (Z.ltb_ge _ _)) by lia. cbn [obind].
    destruct (IH mem' (mkLine m (text b ++ el ++ [SPACE]))) as (b' & E & Hb' & Et); cbn [max text] in *.
    - intros x Hx. apply Ha. by right.
    - lia.
    - unfold len in *. rewrite !length_app. cbn [length]. lia.
    - exists b'. split; [done|]. split; [done|]. intros [-> Hm1]%Hall. rewrite (Et (Hmem Hm1)). unfold elements. cbn [map concat]. by rewrite <- !app_assoc. }
  destruct (Z.leb_spec (max b) (len (text b) + (len el + 2))).
  - destruct mem1 as [|x mem1]; cbn [ask]; [apply Hstep; [lia|lia|done]|]. destruct x.
    + apply Hstep; [lia|lia|]. by intros [_ ?]%Forall_cons.
    + exists b. split; [done|]. split; [done|]. intros [_ [? _]%Forall_cons]%Hall. done.
  - destruct b as [m t]. apply Hstep; [cbn; lia|cbn in *; lia|done].
Qed.

Lemma command_line_spec mem argv : Forall (fun b => b = true) mem -> (forall a, a ∈ argv -> len (element a) <= 1022) ->
  exists b, command_line mem argv = Ret (elements argv ++ [NL]) b.
Proof.
  intros Hm Ha. unfold command_line. destruct (add_args_fits argv mem (mkLine 1024 []) Ha) as (b & -> & Hb & Et); [done|done|].
  cbn [obind]. rewrite (proj2 (Z.ltb_ge _ _)) by lia. exists b. by rewrite Et.
Qed.

(** ** The round trip *)

(** A character the writer and the reader agree on: no backslash, no end of a
    line or string, no vertical tab or form feed. *)
Definition good_char (c : Z) : Prop := c <> BSLASH /\ c <> 0 /\ ~ (NL <= c <= CR).

(** An argument that is not empty, has such characters, and does not end with an
    apostrophe; if it is not quoted it is not to be expanded. *)
Record good_arg (expand : bool) (a : str) : Prop := {
  ga_nonempty : a <> [];
  ga_chars : Forall good_char a;
  ga_last : last a <> Some APOS;
  ga_wild : expand = true -> existsb special a = true \/ existsb iswild a = false
}.

Lemma quote_body_head a : match quote_body a with [] => a = [] | c :: _ => c <> QUOTE end.
Proof. destruct a as [|c a]; [done|]. cbn. destruct (Z.eqb_spec c QUOTE); [done|]. cbn. by destruct (c =? BSLASH). Qed.

Lemma scan_body a r : Forall good_char a -> last a <> Some APOS -> r <> [] ->
  (scan is_quote (quote_body a ++ r)).1.2 = a ++ (scan is_quote r).1.2 /\ (scan is_quote (quote_body a ++ r)).2 = (scan is_quote r).2.
Proof.
  intros H Hl0 Hr. revert Hl0. induction H as [|c a (Hb & H0 & Hn) H IH]; intros Hl; [done|]. cbn [quote_body].
  assert (last a <> Some APOS) as Hla by (destruct a; [done|exact Hl]). specialize (IH Hla).
  destruct (Z.eqb_spec c QUOTE) as [->|Hq].
  - cbn [orb app scan is_quote]. change (is_quote BSLASH) with false. change (is_esc BSLASH && (QUOTE =? QUOTE)) with true. cbv iota.
    destruct IH as [E1 E2]. destruct (scan is_quote (quote_body a ++ r)) as [[w x] t]. cbn in *. by rewrite E1.
  - destruct (Z.eqb_spec c BSLASH) as [?|_]; [done|]. cbn [orb app scan]. change (is_quote c) with (c =? QUOTE). destruct (Z.eqb_spec c QUOTE); [done|].
    pose proof (quote_body_head a) as Hh. destruct (quote_body a ++ r) as [|d l] eqn:Eb; [by apply app_nil in Eb as [_ ?]|].
    assert (is_esc c && (d =? QUOTE) = false) as ->.
    { destruct a as [|c' a]; [|cbn [app] in *; destruct (quote_body (c' :: a)) as [|y z]; [done|]; injection Eb as <- _; destruct (Z.eqb_spec y QUOTE); [done|]; apply andb_false_r].
      unfold is_esc. destruct (Z.eqb_spec c APOS) as [->|]; [done|]. by destruct (Z.eqb_spec c BSLASH). }
    destruct IH as [E1 E2]. destruct (scan is_quote (d :: l)) as [[w x] t]. cbn in *. by rewrite E1.
Qed.

Lemma scan_noquote l : QUOTE ∉ l -> (scan is_quote l).1.2 = l /\ (scan is_quote l).2 = [].
Proof.
  induction l as [|c l IH]; [done|]. intros [Hc Hl]%not_elem_of_cons. cbn [scan]. change (is_quote c) with (c =? QUOTE).
  destruct (Z.eqb_spec c QUOTE); [congruence|]. destruct l as [|d l]; [done|]. pose proof Hl as [Hd _]%not_elem_of_cons.
  destruct (Z.eqb_spec d QUOTE); [congruence|]. rewrite andb_false_r. destruct (IH Hl) as [E1 E2].
  destruct (scan is_quote (d :: l)) as [[w x] t]. cbn in *. by rewrite E1.
Qed.

Lemma not_special c : special c = false -> c <> QUOTE /\ is_esc c = false /\ c <> SPACE /\ c <> TAB /\ c <> NL.
Proof.
  unfold special, is_esc. destruct (Z.eqb_spec c QUOTE), (Z.eqb_spec c APOS), (Z.eqb_spec c BSLASH), (Z.eqb_spec c SPACE), (Z.eqb_spec c TAB), (Z.eqb_spec c NL);
    cbn; intros; try done.
Qed.

Lemma plain_char c : good_char c -> special c = false -> isspace c = false.
Proof.
  intros (_ & _ & Hn) (_ & _ & H1 & H2 & H3)%not_special. unfold isspace, good_char, SPACE, TAB, NL, CR in *. lia.
Qed.

Lemma scan_plain a r : Forall good_char a -> existsb special a = false ->
  scan isspace (a ++ SPACE :: r) = (existsb iswild a, a, SPACE :: r).
Proof.
  intros H. induction H as [|c a Hc H IH]; [done|]. cbn [existsb app]. intros [Hs Ha]%orb_false_iff.
  cbn [scan]. rewrite (plain_char c Hc Hs). destruct (not_special c Hs) as (_ & -> & _).
  assert (exists d l, a ++ SPACE :: r = d :: l) as (d & l & E) by (destruct a; by eexists _, _).
  rewrite E. cbn [andb]. rewrite <- E, IH by done. done.
Qed.

(** The word at the beginning of an element. *)
Lemma word_element expand a r : good_arg expand a -> exists c l w, element a ++ SPACE :: r = c :: l /\ isspace c = false /\
  word c l = (w, a, if existsb special a then QUOTE :: SPACE :: r else SPACE :: r) /\ (expand && w = false).
Proof.
  intros [G1 G2 G3 G4]. unfold element. destruct (existsb special a) eqn:Es.
  - exists QUOTE, (quote_body a ++ QUOTE :: SPACE :: r), false. cbn [app]. rewrite <- app_assoc. split; [done|]. split; [done|].
    split; [|by rewrite andb_false_r]. destruct (scan_body a (QUOTE :: SPACE :: r) G2 G3) as [E1 E2]; [done|]. unfold word. change (is_quote QUOTE) with true. cbv iota.
    destruct (scan is_quote (quote_body a ++ QUOTE :: SPACE :: r)) as [[w x] t]. cbn in E1, E2. rewrite app_nil_r in E1. cbn. by subst.
  - destruct a as [|c a]; [done|]. exists c, (a ++ SPACE :: r), (existsb iswild (c :: a)). split; [done|].
    apply Forall_cons in G2 as [Hc G2]. cbn [existsb] in Es. apply orb_false_iff in Es as [Hs Es]. split; [by apply plain_char|].
    destruct (not_special c Hs) as (Hq & He & _). unfold word, is_quote at 1. destruct (Z.eqb_spec c QUOTE); [done|].
    split; [|destruct expand; [destruct (G4 eq_refl) as [G|E]; [|exact E]|done]].
    + assert (exists d l, a ++ SPACE :: r = d :: l) as (d & l & E) by (destruct a; by eexists _, _).
      rewrite E, He. cbn [andb]. rewrite <- E, scan_plain by done. done.
    + done.
Qed.

Lemma words_elements expand glob argv : (forall a, a ∈ argv -> good_arg expand a) -> forall fuel pad, pad = [] \/ pad = [SPACE] ->
  (length (pad ++ elements argv) < fuel)%nat -> expand_words expand glob (words fuel (pad ++ elements argv)) = argv.
Proof.
  induction argv as [|a argv IH]; intros Hg fuel pad Hp Hf; (destruct fuel as [|fuel]; [lia|]); cbn [words].
  { unfold elements. cbn. by destruct Hp as [->| ->]. }
  destruct (word_element expand a (elements argv) (Hg a ltac:(left))) as (c & l & w & E & Hc & Hw & Hx).
  assert (elements (a :: argv) = c :: l) as El by (unfold elements; cbn [map concat]; rewrite <- E; by rewrite <- app_assoc). rewrite El in Hf |- *.
  assert (drop_space (pad ++ c :: l) = c :: l) as -> by (destruct Hp as [->| ->]; cbn; by rewrite Hc).
  rewrite Hw. unfold expand_words. cbn [flat_map fst snd]. rewrite Hx. cbn [app]. f_equal.
  assert (length (pad ++ c :: l) > S (length (elements argv)))%nat as Hlen.
  { apply (f_equal length) in E. rewrite length_app in E |- *. cbn [length] in *. destruct (element a) eqn:Ea; [|cbn in E; lia].
    unfold element in Ea. destruct (existsb special a); [done|]. subst a. by destruct (ga_nonempty _ _ (Hg [] ltac:(left))). }
  destruct (existsb special a); cbn [tail].
  - apply (IH ltac:(intros; apply Hg; by right) fuel [SPACE]); [by right|cbn in *; lia].
  - apply (IH ltac:(intros; apply Hg; by right) fuel []); [by left|cbn in *; lia].
Qed.

Lemma good_line a : Forall good_char a -> Forall (fun c => line_end c = false) a.
Proof. intros Ha. eapply Forall_impl; [exact Ha|]. intros c (_ & H0 & Hn). unfold line_end, NL, CR in *. lia. Qed.

Lemma body_line a : Forall (fun c => line_end c = false) a -> Forall (fun c => line_end c = false) (quote_body a).
Proof. induction 1 as [|c a Hc H IH]; cbn; [done|]. destruct (_ || _); repeat (constructor; [done|]); done. Qed.

Lemma elements_line argv : (forall a, a ∈ argv -> Forall (fun c => line_end c = false) a) -> Forall (fun c => line_end c = false) (elements argv).
Proof.
  intros Hg. unfold elements. induction argv as [|a argv IH]; cbn; [done|]. apply Forall_app. split; [|apply IH; intros; apply Hg; by right].
  apply Forall_app. split; [|by repeat constructor]. specialize (Hg a ltac:(left)). unfold element.
  destruct (existsb special a); [|done]. constructor; [done|]. apply Forall_app. split; [by apply body_line|by repeat constructor].
Qed.

(** C21. When there is memory for the line, the arguments execve writes into a command
    line are the arguments the program that is started reads from it: for arguments that
    take at most 1022 characters as they are written, are not empty, have no backslash,
    no vertical tab or form feed and no characters that end a line, do not end with an
    apostrophe and whose wildcards are quoted or not expanded, and for a program name of
    at most 127 characters without white space. *)
Theorem command_line_roundtrip mem argv expand glob name more :
  Forall (fun b => b = true) mem -> (forall a, a ∈ argv -> good_arg expand a /\ len (element a) <= 1022) -> is_name name ->
  exists t b, command_line mem argv = Ret t b /\
    cli_parse expand glob (len t) (t ++ [0]) (#name :: name ++ more) = Ret (#argv + 1, name :: argv) tt.
Proof.
  intros Hm Ha [N1 N2 N3]. destruct (command_line_spec mem argv Hm ltac:(intros a H; by apply (Ha a H))) as (b & E).
  assert (forall a, a ∈ argv -> good_arg expand a) as Hg by (intros a H; by apply (Ha a H)).
  exists (elements argv ++ [NL]), b. split; [done|]. unfold cli_parse. rewrite <- app_assoc. cbn [app].
  destruct (cli_args_spec expand glob (elements argv) NL [0] (len (elements argv ++ [NL]))) as (buf & ->).
  - apply elements_line. intros a H. apply good_line, (ga_chars expand), Hg, H.
  - done.
  - unfold len. rewrite length_app. cbn. lia.
  - unfold len. rewrite length_app. cbn. lia.
  - rewrite program_name_spec by done. cbn [obind]. unfold split_line.
    pose proof (words_elements expand glob argv Hg (S (length (elements argv))) [] ltac:(by left) ltac:(cbn; lia)) as Ew. cbn [app] in Ew.
    by rewrite Ew.
Qed.

(** ** Where it fails *)

Lemma scan_swallow l : QUOTE ∉ l -> (scan is_quote (BSLASH :: BSLASH :: QUOTE :: l)).1.2 = BSLASH :: QUOTE :: l /\
  (scan is_quote (BSLASH :: BSLASH :: QUOTE :: l)).2 = [].
Proof.
  intros H. destruct (scan_noquote l H) as [E1 E2]. cbn [scan]. change (is_quote BSLASH) with false.
  change (is_esc BSLASH && (BSLASH =? QUOTE)) with false. change (is_esc BSLASH && (QUOTE =? QUOTE)) with true. cbv iota.
  destruct (scan is_quote l) as [[w a] t]. cbn in *. by subst.
Qed.

(** A backslash at the end of an argument takes the following argument with
    it: the program reads one argument, with a quote and blanks in it, instead of
    two. *)
Theorem backslash_swallows a b expand glob name more :
  Forall good_char a -> last a <> Some APOS -> Forall good_char b -> existsb special b = false ->
  len (element (a ++ [BSLASH])) <= 1022 -> len b <= 1022 -> is_name name ->
  exists t x, command_line [] [a ++ [BSLASH]; b] = Ret t x /\
    cli_parse expand glob (len t) (t ++ [0]) (#name :: name ++ more) =
      Ret (2, [name; a ++ [BSLASH; QUOTE; SPACE] ++ b ++ [SPACE]]) tt.
Proof.
  intros Ga La Gb Sb Ha Hb [N1 N2 N3]. assert (element b = b) as Eb by (unfold element; by rewrite Sb).
  destruct (command_line_spec [] [a ++ [BSLASH]; b]) as (x & E); [done|by intros y [->| ->%list_elem_of_singleton]%elem_of_cons; rewrite ?Eb|].
  eexists _, x. split; [exact E|]. unfold cli_parse. rewrite <- app_assoc. cbn [app].
  assert (forall a r, quote_body (a ++ r) = quote_body a ++ quote_body r) as Hq.
  { intros y r. induction y as [|c y IH]; cbn; [done|]. destruct (_ || _); by rewrite IH. }
  assert (element (a ++ [BSLASH]) = QUOTE :: quote_body a ++ [BSLASH; BSLASH; QUOTE]) as Ea.
  { unfold element. rewrite existsb_app. cbn. rewrite orb_true_r, Hq, <- app_assoc. done. }
  set (l := elements [a ++ [BSLASH]; b]).
  assert (l = QUOTE :: quote_body a ++ BSLASH :: BSLASH :: QUOTE :: SPACE :: b ++ [SPACE]) as El.
  { unfold l, elements. cbn [map concat]. rewrite Ea, Eb. cbn [app]. by rewrite <- !app_assoc. }
  destruct (cli_args_spec expand glob l NL [0] (len (l ++ [NL]))) as (buf & ->).
  - apply elements_line. intros y [->| ->%list_elem_of_singleton]%elem_of_cons; [|by apply good_line].
    apply Forall_app. split; [by apply good_line|by repeat constructor].
  - done.
  - unfold len. rewrite length_app. cbn. lia.
  - unfold len. rewrite length_app. cbn. lia.
  - rewrite program_name_spec by done. cbn [obind]. unfold split_line. cbn [words]. rewrite El. cbn [drop_space].
    change (isspace QUOTE) with false. cbv iota. unfold word. change (is_quote QUOTE) with true. cbv iota.
    destruct (scan_body a (BSLASH :: BSLASH :: QUOTE :: SPACE :: b ++ [SPACE]) Ga La) as [E1 E2]; [done|].
    destruct (scan_swallow (SPACE :: b ++ [SPACE])) as [E3 E4].
    { intros [?|[Hin|?%list_elem_of_singleton]%elem_of_app]%elem_of_cons; [done| |done].
      assert (existsb special b = true) as E'; [|congruence]. apply existsb_exists. exists QUOTE. by rewrite <- list_elem_of_In. }
    rewrite E3 in E1. rewrite E4 in E2. destruct (scan is_quote (quote_body a ++ _)) as [[w y] t]. cbn [fst snd] in *. subst.
    unfold expand_words. cbn [tail length words drop_space flat_map fst snd]. rewrite andb_false_r. done.
Qed.

(** An argument that is empty is lost. *)
Lemma empty_argument_lost argv : split_line (elements ([] :: argv)) = split_line (elements argv).
Proof.
  assert (elements ([] :: argv) = SPACE :: elements argv) as -> by done. unfold split_line.
  rewrite (words_enough (length (elements argv)) (S (length (elements argv))) (S (S (length (elements argv))))) by lia. done.
Qed.

(** ** The buffer of the writer *)

Lemma quote_body_length a : (length (quote_body a) <= 2 * length a)%nat.
Proof. induction a as [|c a IH]; cbn; [lia|]. destruct (_ || _); cbn; lia. Qed.

(** A quoted argument fits into the memory quote allocates for it. If no
    argument takes more than 1022 bytes when it is quoted, the command line is
    written inside its buffer, whatever memory there is.  A single argument of
    more than 2046 bytes is written behind its end, because the buffer is doubled
    only once. *)
Theorem command_line_bounds :
  (forall mem a q mem', quote mem a = (Some q, mem') -> len q + 1 <= 2 * len a + 3) /\
  (forall mem argv, (forall a, a ∈ argv -> len (element a) <= 1022) ->
     exists t b, command_line mem argv = Ret t b /\ len t + 1 <= max b) /\
  (forall a, existsb special a = false -> 2046 < len a -> command_line [] [a] = Fault).
Proof.
  split; [|split].
  - intros mem a q mem' Hq. unfold quote in Hq. destruct (existsb special a); [|done]. destruct (ask mem) as [[|] m]; [|done]. injection Hq as <- _.
    unfold len. cbn [length]. rewrite length_app. cbn [length]. pose proof (quote_body_length a). lia.
  - intros mem argv Ha. unfold command_line. destruct (add_args_fits argv mem (mkLine 1024 []) Ha) as (b & -> & Hb & _); [done|done|].
    cbn [obind]. rewrite (proj2 (Z.ltb_ge _ _)) by lia. eexists _, b. split; [done|]. unfold len in *. rewrite length_app. cbn. lia.
  - intros a Hs Ha. unfold command_line. cbn [add_args]. unfold quote. rewrite Hs. cbn [default max text len length]. unfold len in *. cbn [length].
    change (Z.of_nat 0) with 0. rewrite (proj2 (Z.leb_le _ _)) by lia. cbn [ask]. unfold store_arg. cbn [max text]. unfold len. cbn [length].
    by rewrite (proj2 (Z.ltb_lt _ _)) by lia.
Qed.

(** ** Witnesses *)

Definition text_of (s : string) : str := map (fun c => Z.of_nat (Ascii.nat_of_ascii c)) (String.list_ascii_of_string s).

Ltac good_text := match goal with |- Forall _ ?l => let v := eval vm_compute in l in change (Forall good_char v) end;
  unfold good_char, BSLASH, NL, CR; repeat (constructor; [lia|]); constructor.

Lemma demo_name : is_name (text_of "sh").
Proof. split; [by repeat constructor| |cbn; lia]. cbn. intros [?|[?|?%not_elem_of_nil]%elem_of_cons]%elem_of_cons; done. Qed.

Lemma cli_parse_splits_witness :
  cli_parse true (fun a => [a; a]) 10 (text_of "ab c* d" ++ [NL; 0; 0; 0; 0]) (2 :: text_of "sh" ++ []) =
  Ret (5, text_of "sh" :: [text_of "ab"; text_of "c*"; text_of "c*"; text_of "d"]) tt.
Proof.
  pose proof (cli_parse_splits true (fun a => [a; a]) (text_of "ab c* d") NL [0; 0; 0; 0] 10 (text_of "sh") []
    ltac:(by repeat constructor) eq_refl ltac:(cbn; lia) ltac:(cbn; lia) demo_name) as H. exact H.
Defined.

Lemma demo_good a : In a [text_of "a b"; text_of "it's"; text_of "c"] -> good_arg true a /\ len (element a) <= 1022.
Proof.
  intros [<-|[<-|[<-|[]]]]; (split; [split; [done| |done|intros _; first [by left|by right]]|by vm_compute]); good_text.
Qed.

Lemma command_line_roundtrip_witness : exists t b, command_line [] [text_of "a b"; text_of "it's"; text_of "c"] = Ret t b /\
  cli_parse true (fun a => []) (len t) (t ++ [0]) (2 :: text_of "sh" ++ []) =
  Ret (4, [text_of "sh"; text_of "a b"; text_of "it's"; text_of "c"]) tt.
Proof.
  apply (command_line_roundtrip [] [text_of "a b"; text_of "it's"; text_of "c"] true (fun a => []) (text_of "sh") []).
  - constructor.
  - intros a Ha%list_elem_of_In. by apply demo_good.
  - apply demo_name.
Defined.

Lemma backslash_swallows_witness : exists t x, command_line [] [text_of "FS=" ++ [BSLASH]; text_of "b"] = Ret t x /\
  cli_parse false (fun a => []) (len t) (t ++ [0]) (2 :: text_of "sh" ++ []) =
  Ret (2, [text_of "sh"; text_of "FS=" ++ [BSLASH; QUOTE; SPACE] ++ text_of "b" ++ [SPACE]]) tt.
Proof.
  apply (backslash_swallows (text_of "FS=") (text_of "b") false (fun a => []) (text_of "sh") []); try (cbn; done); try apply demo_name.
  - good_text.
  - good_text.
Defined.

Lemma command_line_bounds_witness : exists t b, command_line [false] [text_of "a b"] = Ret t b /\ len t + 1 <= max b.
Proof.
  apply (proj1 (proj2 command_line_bounds)). intros a ->%list_elem_of_singleton. by vm_compute.
Defined.
