(* ===== verification/Exec.v ===== *)
(** * execve

    Models the interpreter line of library/__load_seg.c ([load_seg_or_script]), the
    argument vector ([execve], [dupvec]) of stdlib/execve.c, and the open files, exit
    functions, signal mask and signal handlers a program starts with, up to the call of
    its main function (ix_exec_entry.c); and proves what becomes of them.  The latter
    rest on the invariants of [DescripInv] and [SignalsInv]. *)

From S2P Require Import Prelude Signals SignalsIssig SignalsInv SignalsTheorems Descrip DescripInv DescripOps DescripTheorems Cmdline CmdlineTheorems.
Import Cmd.

Module Exec.

Definition MAXINTERP : nat := 32.
Definition SEP : Z := 1.
Definition COLON : Z := 58.
Definition SLASH : Z := 47.

(** ** The interpreter line *)

Definition tolower (c : Z) : Z := if (65 <=? c) && (c <=? 90) then c + 32 else c.

(** [strcasecmp (magic, ".key") == 0] *)
Definition is_key (magic : list Z) : bool := bool_decide (map tolower magic = [46; 107; 101; 121]).

(** What is left behind the next end of line. *)
Fixpoint after_newline (l : list Z) : option (list Z) :=
  match l with [] => None | c :: l => if c =? NL then Some l else after_newline l end.

(** The magic bytes, and the file behind them. *)
Definition read_magic (file : list Z) : list Z * list Z :=
  let magic := take 4 file in
  let file := drop 4 file in
  if (length magic =? 4)%nat && is_key magic then
    match after_newline file with
    | Some file => (take 4 file, drop 4 file)
    | None => ([], [])
    end
  else (magic, file).

(** What [load_seg_or_script] reads into [interp], if this is a script. *)
Definition interp_text (file : list Z) : option (list Z) :=
  let '(magic, file) := read_magic file in
  match magic with
  | c :: d :: magic =>
    if ((c =? 35) || (c =? 59)) && (d =? 33) then
      let s := magic ++ take (MAXINTERP - length magic) file in
      if (length s =? 0)%nat then None else Some s
    else None
  | _ => None
  end.

Definition word_char (c : Z) : bool := negb (c =? 0) && negb (isspace c).

Fixpoint span (P : Z -> bool) (l : list Z) : str * list Z :=
  match l with
  | [] => ([], [])
  | c :: l' => if P c then let '(a, t) := span P l' in (c :: a, t) else ([], l)
  end.

(** The name of a file as a path: a device becomes the first directory. *)
Fixpoint colon_to_slash (s : str) : str :=
  match s with [] => [] | c :: s => if c =? COLON then SLASH :: s else c :: colon_to_slash s end.

Definition script_path (progname : str) : str :=
  if existsb (fun c => c =? COLON) progname then SLASH :: colon_to_slash progname else progname.

(** The argument behind the interpreter: [rest] begins with the character that
    ended its name. *)
Definition interp_arg (rest : list Z) : str :=
  match rest with
  | [] => []
  | ch :: rest =>
    if (ch =? 0) || (ch =? NL) then []
    else (span word_char (span (fun c => isspace c && negb (c =? NL)) rest).2).1
  end.

(** The string stored in [*args]. *)
Definition script_args (loads : str -> bool) (file : list Z) (progname : str) : option str :=
  match interp_text file with
  | None => None
  | Some s =>
    let '(name, rest) := span word_char (span isspace s).2 in
    if loads name then
      let arg := interp_arg rest in
      Some (name ++ SEP :: (if arg then [] else arg ++ [SEP]) ++ script_path progname)
    else None
  end.

(** ** The argument vector *)

Fixpoint split_sep (cur s : str) : list str :=
  match s with
  | [] => [cur]
  | c :: s => if c =? SEP then cur :: split_sep [] s else split_sep (cur ++ [c]) s
  end.

(** [nargv] has room for four pointers more than [argv] has strings. *)
Definition join_argv (extra_args : option str) (argv : list str) : outcome () (list str) :=
  match extra_args with
  | Some (c :: s) =>
    match argv with
    | [] => Fault
    | _ :: args =>
      let nargv := split_sep [] (c :: s) ++ args in
      if (length argv + 4 <? length nargv + 1)%nat then Fault else Ret nargv tt
    end
  | _ => Ret argv tt
  end.

(** ** What the program starts with *)

Fixpoint close_marked (fuel : nat) (net_close : Z) (execve_close : bool) (f : Z) (w : Descrip.world) : outcome Descrip.world () :=
  match fuel with
  | O => Ret tt w
  | S fuel =>
    let? fp := aget (Descrip.u_ofile (Descrip.self w)) f in
    let? p := aget (Descrip.u_pofile (Descrip.self w)) f in
    let* (_r, w) := (if negb (fp =? 0) && bset p Descrip.UF_EXCLOSE then Descrip.close net_close execve_close f w else Ret 0 w) in
    close_marked fuel net_close execve_close (f + 1) w
  end.

(** The registered exit functions, by blocks; the result is what is called. *)
Definition run_atexit (cleanup : Z) (blocks : list (list Z)) : list Z :=
  concat (map (fun fns => filter (fun fn => fn <> cleanup) (rev fns)) blocks).

Definition reset_signals (u : Sig.user) : Sig.user :=
  let u := Sig.set_u_sigonstack u 0 in
  let u := Sig.set_u_sigintr u 0 in
  let u := Sig.set_p_sigcatch u 0 in
  Sig.set_u_signal u (map (fun h => if h =? Sig.SIG_IGN then h else Sig.SIG_DFL) (Sig.u_signal u)).

Record image := mkImage { fds : Descrip.world; sigs : Sig.user; atexit : list (list Z); called : list Z; vargv : list str }.

(** A signal call of the process. *)
Definition on_sigs {A} (f : Sig.user -> outcome Sig.user A) (i : image) : outcome image A :=
  match f (sigs i) with
  | Ret a u => Ret a (mkImage (fds i) u (atexit i) (called i) (vargv i))
  | Asleep u => Asleep (mkImage (fds i) u (atexit i) (called i) (vargv i))
  | Panic m => Panic m
  | Fault => Fault
  | Diverge => Diverge
  end.

(** ~0, as an int. *)
Definition ALL : Z := -1.

Section Calls.
(** Whether the task that is set running is another one, the supervisor bit, and what
    happens while the process is stopped (see [Signals]). *)
Context (ext sr : bool) (sched : Sig.schedule).

Definition sigsetmask (mask : Z) : image -> outcome image Z := on_sigs (Sig.sigsetmask ext sr sched mask).

(** The start of the program.  One with the header of crt0.c enters the library again
    ([ix_exec_entry]), which installs u_oldmask; any other one runs with all signals
    blocked ([compatible_startup]). *)
Definition enter (private_startup : bool) (i : image) : outcome image () :=
  let* (_omask, i) := sigsetmask (if private_startup then Sig.u_oldmask (sigs i) else ALL) i in Ret tt i.

(** [on_real_stack] up to the first instruction of the program. *)
Definition on_real_stack (net_close cleanup : Z) (private_startup : bool) (argv : list str) (omask : Z) (i : image) : outcome image () :=
  match close_marked (Z.to_nat Descrip.NOFILE) net_close false 0 (fds i) with
  | Ret _ w =>
    let u := Sig.set_u_oldmask (reset_signals (sigs i)) omask in
    enter private_startup (mkImage w u [] (called i ++ run_atexit cleanup (atexit i)) argv)
  | Asleep _ => Asleep i
  | Panic m => Panic m
  | Fault => Fault
  | Diverge => Diverge
  end.

(** [load]: what [__load_seg] returned, the extra arguments of a program or script it
    found, or the errno it left.  The result [None]: the program has been started. *)
Definition execve (net_close cleanup : Z) (load : option str + Z) (private_startup : bool) (argv : list str) (i : image) : outcome image (option Z) :=
  let* (omask, i) := sigsetmask ALL i in
  match load with
  | inl extra_args =>
    match join_argv extra_args argv with
    | Ret argv _ => let* (_u, i) := on_real_stack net_close cleanup private_startup argv omask i in Ret None i
    | Asleep _ => Asleep i
    | Panic m => Panic m
    | Fault => Fault
    | Diverge => Diverge
    end
  | inr err =>
    let* (_omask, i) := sigsetmask omask i in
    Ret (Some (-1)) (mkImage (fds i) (Sig.set_u_errno (sigs i) err) (atexit i) (called i) (vargv i))
  end.
End Calls.
End Exec.

Import Exec DescripOps.

(** ** Scripts *)

Lemma span_stop P a c l : Forall (fun x => P x = true) a -> P c = false -> span P (a ++ c :: l) = (a, c :: l).
Proof. intros H Hc. induction H as [|x a Hx H IH]; cbn; [by rewrite Hc|]. by rewrite Hx, IH. Qed.

Definition plain_word (a : str) : Prop := a <> [] /\ Forall (fun c => word_char c = true /\ c <> SEP) a.

Lemma word_chars a : plain_word a -> Forall (fun c => word_char c = true) a.
Proof. intros [_ H]. eapply Forall_impl; [exact H|]. by intros c [? _]. Qed.

Lemma word_nosep a : plain_word a -> SEP ∉ a.
Proof. intros [_ H] Hin. rewrite Forall_forall in H. by destruct (H _ Hin). Qed.

Lemma word_no_space c : word_char c = true -> isspace c = false.
Proof. unfold word_char. by intros [_ ?%negb_true_iff]%andb_true_iff. Qed.

Lemma interp_text_spec s : (2 <= length s)%nat -> interp_text (35 :: 33 :: s) = Some (take MAXINTERP s).
Proof.
  intros H. destruct s as [|a [|b s]]; cbn [length] in H; try lia. unfold interp_text, read_magic. cbn [take drop length]. rewrite take_0, drop_0. cbn [length Nat.eqb andb].
  assert (is_key [35; 33; a; b] = false) as -> by (unfold is_key; by rewrite bool_decide_false). done.
Qed.

(** The rest of an interpreter line, behind the name. *)
Definition arg_text (arg : option str) : list Z := match arg with Some a => SPACE :: a | None => [] end.

Lemma interp_arg_spec arg more : (forall a, arg = Some a -> plain_word a) -> interp_arg (arg_text arg ++ NL :: more) = default [] arg.
Proof.
  intros Ha. destruct arg as [a|]; [|done]. specialize (Ha a eq_refl). pose proof (word_chars a Ha) as Hc.
  cbn [arg_text app interp_arg default]. change ((SPACE =? 0) || (SPACE =? NL)) with false. cbv iota.
  destruct a as [|c a]; [by destruct Ha|]. pose proof Hc as [Hc1 _]%Forall_cons.
  pose proof (span_stop (fun c => isspace c && negb (c =? NL)) [] c (a ++ NL :: more) ltac:(constructor)) as E. cbn [app] in E |- *.
  rewrite E by (by rewrite (word_no_space c Hc1)). cbn [snd].
  pose proof (span_stop word_char (c :: a) NL more Hc eq_refl) as E2. cbn [app] in E2. by rewrite E2.
Qed.

Lemma script_args_spec loads sp name arg more prog :
  Forall (fun c => isspace c = true) sp -> plain_word name -> (forall a, arg = Some a -> plain_word a) -> loads name = true ->
  (length (sp ++ name ++ arg_text arg) <= 31)%nat ->
  script_args loads (35 :: 33 :: sp ++ name ++ arg_text arg ++ NL :: more) prog =
  Some (name ++ SEP :: (match arg with Some a => a ++ [SEP] | None => [] end) ++ script_path prog).
Proof.
  intros Hsp Hn Ha Hl Hlen. unfold script_args. pose proof (word_chars name Hn) as Hc. destruct name as [|c name]; [by destruct Hn|].
  rewrite !length_app in Hlen. cbn [length] in Hlen.
  rewrite interp_text_spec by (repeat (rewrite ?length_app; cbn [length]); lia).
  assert (exists more', take MAXINTERP (sp ++ (c :: name) ++ arg_text arg ++ NL :: more) = sp ++ (c :: name) ++ arg_text arg ++ NL :: more') as (more' & ->).
  { exists (take (31 - length (sp ++ (c :: name) ++ arg_text arg)) more). rewrite 2!app_assoc, take_app_ge; rewrite <- ?app_assoc.
    - do 3 f_equal. unfold MAXINTERP. rewrite !length_app. cbn [length].
      destruct (32 - (length sp + (S (length name) + length (arg_text arg))))%nat eqn:E; [lia|]. cbn. do 2 f_equal. lia.
    - rewrite !length_app. cbn [length]. unfold MAXINTERP. lia. }
  pose proof Hc as [Hc1 _]%Forall_cons. cbn [app]. rewrite span_stop by first [done|by apply word_no_space]. cbn [snd].
  assert (exists d l, arg_text arg ++ NL :: more' = d :: l /\ word_char d = false) as (d & l & E & Hd) by (destruct arg; by eexists _, _).
  pose proof (span_stop word_char (c :: name) d l Hc Hd) as Es. rewrite <- E in Es. cbn [app] in Es. rewrite Es, Hl.
  rewrite interp_arg_spec by done. destruct arg as [a|]; [|done]. cbn [default]. destruct (Ha a eq_refl) as [Hne _]. by destruct a.
Qed.

Lemma split_sep_spec a : SEP ∉ a -> forall cur s, split_sep cur (a ++ SEP :: s) = (cur ++ a) :: split_sep [] s.
Proof.
  induction a as [|c a IH]; intros Ha cur s; cbn; [by rewrite app_nil_r|]. apply not_elem_of_cons in Ha as [Hc Ha].
  destruct (Z.eqb_spec c SEP); [congruence|]. by rewrite IH, <- app_assoc.
Qed.

Lemma split_sep_last a : SEP ∉ a -> forall cur, split_sep cur a = [cur ++ a].
Proof.
  induction a as [|c a IH]; intros Ha cur; cbn; [by rewrite app_nil_r|]. apply not_elem_of_cons in Ha as [Hc Ha].
  destruct (Z.eqb_spec c SEP); [congruence|]. by rewrite IH, <- app_assoc.
Qed.

Lemma script_path_sep prog : SEP ∉ prog -> SEP ∉ script_path prog.
Proof.
  intros H. unfold script_path. destruct (existsb _ prog); [|done]. apply not_elem_of_cons. split; [done|].
  induction prog as [|c prog IH]; [done|]. apply not_elem_of_cons in H as [Hc H]. cbn. destruct (c =? COLON); apply not_elem_of_cons; split; auto.
Qed.

(** A script whose first line names an interpreter and at most one argument
    is run by that interpreter: its arguments are the name, the argument, the path
    of the script (a device name turned into a directory) and the arguments of
    the script, without its own name; the vector fits into the memory allocated. *)
Theorem script_argv loads sp name arg more prog a0 args :
  Forall (fun c => isspace c = true) sp -> plain_word name -> (forall a, arg = Some a -> plain_word a) -> loads name = true ->
  (length (sp ++ name ++ arg_text arg) <= 31)%nat -> SEP ∉ prog ->
  join_argv (script_args loads (35 :: 33 :: sp ++ name ++ arg_text arg ++ NL :: more) prog) (a0 :: args) =
  Ret (name :: (match arg with Some a => [a] | None => [] end) ++ script_path prog :: args) tt.
Proof.
  intros Hsp Hn Ha Hl Hlen Hp. rewrite script_args_spec by done. pose proof (word_nosep name Hn) as Hs. pose proof (script_path_sep prog Hp) as Hps.
  assert (exists c l, name ++ SEP :: (match arg with Some a => a ++ [SEP] | None => [] end) ++ script_path prog = c :: l) as (c & l & E)
    by (destruct name; by eexists _, _).
  unfold join_argv. rewrite E, <- E, split_sep_spec by done. cbn [app].
  assert (split_sep [] ((match arg with Some a => a ++ [SEP] | None => [] end) ++ script_path prog) =
    (match arg with Some a => [a] | None => [] end) ++ [script_path prog]) as ->.
  { destruct arg as [a|]; [|by rewrite split_sep_last]. rewrite <- app_assoc. cbn [app]. rewrite split_sep_spec by (by apply word_nosep, Ha).
    by rewrite split_sep_last. }
  rewrite <- app_assoc. cbn [app length]. rewrite (proj2 (Nat.ltb_ge _ _)); [done|]. rewrite length_app. cbn. destruct arg; cbn; lia.
Qed.

(** ** Files and signals *)

(** The entry of the table after the loop has passed it. *)
Definition kept_entry (w : Descrip.world) (i : Z) : option Z :=
  match aget (Descrip.u_ofile (Descrip.self w)) i, aget (Descrip.u_pofile (Descrip.self w)) i with
  | Some fp, Some p => Some (if bset p Descrip.UF_EXCLOSE then 0 else fp)
  | _, _ => None
  end.

Lemma close_marked_spec ext nc n : forall f w, DescripInv.inv [] ext w -> 0 <= f -> f + Z.of_nat n = Descrip.NOFILE ->
  exists w', close_marked n nc false f w = Ret tt w' /\ DescripInv.inv [] ext w' /\
    Descrip.u_pofile (Descrip.self w') = Descrip.u_pofile (Descrip.self w) /\
    forall i, aget (Descrip.u_ofile (Descrip.self w')) i = if (f <=? i) && (i <? Descrip.NOFILE) then kept_entry w i else aget (Descrip.u_ofile (Descrip.self w)) i.
Proof.
  induction n as [|n IH]; intros f w H Hf Hn.
  { exists w. split_and!; [done|done|done|]. intros i. destruct (Z.leb_spec f i), (Z.ltb_spec i Descrip.NOFILE); cbn; try done. lia. }
  cbn [close_marked]. destruct (DescripInv.inv_read _ _ _ f H) as [[fp Hfp] [p Hp]]; [lia|]. rewrite Hfp, Hp.
  assert (exists r w1, (if negb (fp =? 0) && bset p Descrip.UF_EXCLOSE then Descrip.close nc false f w else Ret 0 w) = Ret r w1 /\ DescripInv.inv [] ext w1 /\
    Descrip.u_pofile (Descrip.self w1) = Descrip.u_pofile (Descrip.self w) /\
    forall i, aget (Descrip.u_ofile (Descrip.self w1)) i = if i =? f then kept_entry w i else aget (Descrip.u_ofile (Descrip.self w)) i) as (r & w1 & -> & H1 & Ep & Eo).
  { destruct (Z.eqb_spec fp 0) as [->|Hnz]; cbn [negb andb].
    { exists 0, w. split_and!; try done. intros i. destruct (Z.eqb_spec i f) as [->|]; [|done]. unfold kept_entry. rewrite Hfp, Hp. by destruct (bset p _). }
    destruct (bset p Descrip.UF_EXCLOSE) eqn:Eb.
    - destruct (close_spec ext w nc false f H) as [[Hc _]|(fp' & p' & Ho & Hp' & f' & h & r & w1 & E & Hcl)].
      + destruct Hc as [?|[?|?]]; [lia|lia|congruence].
      + exists r, w1. split; [done|]. split; [by eapply cl_inv|]. rewrite (cl_self _ _ _ _ _ _ _ Hcl). cbn. split; [done|].
        intros i. rewrite (aget_aput _ _ _ _ _ Hfp), Z.eqb_sym. destruct (Z.eqb_spec i f) as [->|]; [|done].
        unfold kept_entry. by rewrite Hfp, Hp, Eb.
    - exists 0, w. split_and!; try done. intros i. destruct (Z.eqb_spec i f) as [->|]; [|done]. unfold kept_entry. by rewrite Hfp, Hp, Eb. }
  cbn [obind]. destruct (IH (f + 1) w1 H1) as (w' & -> & H' & Ep' & Eo'); [lia|lia|]. exists w'. split_and!; [done|done|congruence|].
  intros i. rewrite Eo', Eo. unfold kept_entry. rewrite Eo, Ep. destruct (Z.leb_spec (f + 1) i), (Z.leb_spec f i), (Z.ltb_spec i Descrip.NOFILE), (Z.eqb_spec i f);
    cbn; try done; try lia.
Qed.

Lemma reset_handler u sig : aget (Sig.u_signal (reset_signals u)) sig =
  (fun h => if h =? Sig.SIG_IGN then h else Sig.SIG_DFL) <$> aget (Sig.u_signal u) sig.
Proof. unfold reset_signals, aget. cbn. destruct (0 <=? sig); [|done]. by rewrite <- list_lookup_fmap. Qed.

Lemma reset_signals_wf u : sig_wf u -> sig_wf (reset_signals u).
Proof.
  intros [[] ? ? ? ? ? ? Hk Hs ?].
  assert (forall sig, handler_of u sig = Sig.SIG_DFL -> handler_of (reset_signals u) sig = Sig.SIG_DFL) as Hh.
  { intros sig. unfold handler_of. rewrite reset_handler. destruct (aget (Sig.u_signal u) sig); cbn; [|done]. by intros ->. }
  split; try done; [|by apply Hh..]. split; try done. cbn. by rewrite length_map.
Qed.

Lemma no_cant_same m : no_cant m -> bclr m Sig.sigcantmask = m.
Proof.
  intros [H8 H16]. apply Z.bits_inj'. intros n Hn. rewrite testbit_bclr by done.
  assert (Z.testbit Sig.sigcantmask n = (n =? 8) || (n =? 16)) as ->.
  { unfold Sig.sigcantmask. rewrite Z.lor_spec, !testbit_sigmask by (done || unfold SIGKILL, SIGSTOP; lia). done. }
  destruct (Z.eqb_spec n 8) as [E|]; [rewrite E, H8; done|]. destruct (Z.eqb_spec n 16) as [E|]; [rewrite E, H16; done|].
  by rewrite andb_true_r.
Qed.

(** What stays pending: everything the mask blocks, and nothing new. *)
Definition keeps_pending (mask old new : Z) : Prop :=
  forall i, 0 <= i -> (Z.testbit mask i = true -> Z.testbit new i = Z.testbit old i) /\ (Z.testbit new i = true -> Z.testbit old i = true).

Lemma keeps_pending_trans m m' a b c :
  (forall i, 0 <= i -> Z.testbit m i = true -> Z.testbit m' i = true) ->
  keeps_pending m' a b -> keeps_pending m b c -> keeps_pending m a c.
Proof.
  intros Hm H1 H2 i Hi. destruct (H1 i Hi) as [A1 A2], (H2 i Hi) as [B1 B2]. split; [|by auto].
  intros Hb. rewrite B1 by done. by apply A1, Hm.
Qed.

(** The signal state but for the mask, the pending signals and what setrun does. *)
Definition same_actions (u u' : Sig.user) : Prop :=
  Sig.u_signal u' = Sig.u_signal u /\ Sig.p_sigcatch u' = Sig.p_sigcatch u /\ Sig.u_oldmask u' = Sig.u_oldmask u.

Lemma setrun_same ext p : let p' := Sig.setrun ext p in
  same_actions p p' /\ Sig.p_sigmask p' = Sig.p_sigmask p /\ Sig.p_sig p' = Sig.p_sig p.
Proof. unfold Sig.setrun, same_actions. by repeat case_match. Qed.

Lemma sigsetmask_spec ext sr w m u : sig_wf u ->
  exists u', Sig.sigsetmask ext sr w m u = Ret (Sig.p_sigmask u) u' /\ sig_wf u' /\ same_actions u u' /\
    Sig.p_sigmask u' = bclr m Sig.sigcantmask /\ keeps_pending (bclr m Sig.sigcantmask) (Sig.p_sig u) (Sig.p_sig u').
Proof.
  intros Hw. unfold Sig.sigsetmask, Sig.run_if_signal. set (mask := bclr m Sig.sigcantmask).
  assert (sig_wf (Sig.set_p_sigmask u mask)) as Hw1 by (apply wf_set_mask; [done|apply no_cant_clear]).
  destruct (cursig_wf sr w _ Hw1) as (r & ps & -> & Hw2 & (_ & _ & _ & Hps)). cbn [obind fst snd].
  assert (keeps_pending mask (Sig.p_sig u) ps) as Hk.
  { intros i Hi. rewrite (Hps i Hi), avail_bit by done. cbn [Sig.p_sig Sig.p_sigmask Sig.set_p_sigmask].
    split; [intros ->; cbn; by rewrite andb_false_r, andb_true_r|by intros [? _]%andb_true_iff]. }
  destruct (r =? 0).
  - eexists. split; [done|]. by split_and!.
  - destruct (setrun_same ext (Sig.set_p_sig (Sig.set_p_sigmask u mask) ps)) as (Ha & Em & Es).
    eexists. split; [done|]. split_and!; [by apply setrun_wf|done|done|]. by rewrite Es.
Qed.

(** C23. execve of a program or script that [__load_seg] finds, for a process that is
    not traced and exit functions that leave descriptors and signals alone: the program
    starts with exactly the descriptors that are not marked close-on-exec, with exact
    reference counts; the signals that were ignored stay ignored, all others have their
    default action; with the header of an ixemul program it runs under the mask of the
    caller, which execve has replaced and the entry of the program installs again, any
    other program with all signals blocked; the pending signals that the caller blocked
    stay pending and no others come; the exit functions have been called, the last one
    first, apart from the one of stdio.  Without a program execve returns -1 with the
    errno of the loader and the mask, the descriptors and the handlers as before. *)
Theorem exec_image boost sr sched ext nc cleanup load private argv nargv i :
  DescripInv.inv [] ext (fds i) -> sig_wf (sigs i) ->
  (forall extra, load = inl extra -> join_argv extra argv = Ret nargv tt) ->
  exists r i', execve boost sr sched nc cleanup load private argv i = Ret r i' /\
    DescripInv.inv [] ext (fds i') /\ sig_wf (sigs i') /\
    keeps_pending (Sig.p_sigmask (sigs i)) (Sig.p_sig (sigs i)) (Sig.p_sig (sigs i')) /\
    match load with
    | inl _ =>
      r = None /\ vargv i' = nargv /\
      (forall fd, 0 <= fd < Descrip.NOFILE -> aget (Descrip.u_ofile (Descrip.self (fds i'))) fd = kept_entry (fds i) fd) /\
      Sig.p_sigmask (sigs i') = (if private then Sig.p_sigmask (sigs i) else bclr ALL Sig.sigcantmask) /\
      Sig.p_sigcatch (sigs i') = 0 /\
      (forall sig h, aget (Sig.u_signal (sigs i)) sig = Some h ->
         aget (Sig.u_signal (sigs i')) sig = Some (if h =? Sig.SIG_IGN then h else Sig.SIG_DFL)) /\
      called i' = called i ++ run_atexit cleanup (atexit i)
    | inr err =>
      r = Some (-1) /\ Sig.u_errno (sigs i') = err /\ fds i' = fds i /\ called i' = called i /\
      Sig.p_sigmask (sigs i') = Sig.p_sigmask (sigs i) /\ same_actions (sigs i) (sigs i')
    end.
Proof.
  intros H Hs Hj. unfold execve, sigsetmask, on_sigs.
  destruct (sigsetmask_spec boost sr sched ALL (sigs i) Hs) as (u1 & -> & Hw1 & Ha1 & Hm1 & Hk1). cbn [obind].
  assert (forall n, 0 <= n -> Z.testbit (Sig.p_sigmask (sigs i)) n = true -> Z.testbit (bclr ALL Sig.sigcantmask) n = true) as Hall.
  { intros n Hn Hb. rewrite <- (no_cant_same _ (SignalsInv.wf_mask _ Hs)), testbit_bclr in Hb by done. rewrite testbit_bclr by done.
    unfold ALL. rewrite Z.bits_m1 by done. by apply andb_true_iff in Hb as [_ ->]. }
  destruct load as [extra|err].
  - rewrite (Hj extra eq_refl). unfold on_real_stack. cbn [fds sigs atexit called].
    destruct (close_marked_spec ext nc (Z.to_nat Descrip.NOFILE) 0 (fds i) H) as (w' & -> & H' & _ & Eo); [lia|done|].
    set (u2 := Sig.set_u_oldmask (reset_signals u1) (Sig.p_sigmask (sigs i))).
    assert (sig_wf u2) as Hw2.
    { pose proof (reset_signals_wf u1 Hw1) as Hr. pose proof (SignalsInv.wf_mask _ Hs) as Hmask. unfold u2. destruct Hr as [[]]. by split. }
    unfold enter, sigsetmask, on_sigs. cbn [sigs].
    destruct (sigsetmask_spec boost sr sched (if private then Sig.u_oldmask u2 else ALL) u2 Hw2) as (u3 & -> & Hw3 & (A1 & A2 & _) & Hm3 & Hk3).
    cbn [obind fds atexit called vargv]. do 2 eexists. split; [done|]. cbn [fds sigs called vargv].
    assert ((if private then Sig.p_sigmask (sigs i) else bclr ALL Sig.sigcantmask) = bclr (if private then Sig.u_oldmask u2 else ALL) Sig.sigcantmask) as Em.
    { destruct private; [|done]. symmetry. apply no_cant_same, (SignalsInv.wf_mask _ Hs). }
    split_and!; try done.
    + apply (keeps_pending_trans _ (bclr ALL Sig.sigcantmask) _ (Sig.p_sig u1)); [done|exact Hk1|]. rewrite <- Em in Hk3.
      intros n Hn. destruct (Hk3 n Hn) as [K1 K2]. split; [|exact K2]. intros Hb. apply K1. destruct private; [done|by apply Hall].
    + intros fd Hfd. rewrite Eo. rewrite (proj2 (Z.leb_le _ _)), (proj2 (Z.ltb_lt _ _)) by lia. done.
    + by rewrite Hm3, Em.
    + intros sig h Hh. rewrite A1. pose proof (reset_handler u1 sig) as E. rewrite (proj1 Ha1), Hh in E. exact E.
  - cbn [sigs]. destruct (sigsetmask_spec boost sr sched (Sig.p_sigmask (sigs i)) u1 Hw1) as (u2 & -> & Hw2 & Ha2 & Hm2 & Hk2).
    rewrite (no_cant_same _ (SignalsInv.wf_mask _ Hs)) in Hm2, Hk2. cbn [obind]. do 2 eexists. split; [done|]. cbn [fds sigs called].
    destruct Ha1 as (B1 & B2 & B3), Ha2 as (C1 & C2 & C3). split_and!; try done.
    + by apply wf_errno.
    + by apply (keeps_pending_trans _ (bclr ALL Sig.sigcantmask) _ (Sig.p_sig u1)).
    + split_and!; cbn; congruence.
Qed.

(** ** Witnesses *)

Definition sh_name : str := text_of "/bin/sh".

Lemma word_demo s : forallb (fun c => word_char c && negb (c =? SEP)) s = true -> s <> [] -> plain_word s.
Proof.
  intros H Hs. split; [done|]. apply Forall_forall. intros c Hc. rewrite forallb_forall in H. specialize (H c (proj1 (list_elem_of_In _ _) Hc)).
  apply andb_true_iff in H as [H1 H2]. split; [done|]. by apply negb_true_iff, Z.eqb_neq in H2.
Qed.

Lemma script_argv_witness :
  join_argv (script_args (fun _ => true) (35 :: 33 :: [SPACE] ++ sh_name ++ arg_text (Some (text_of "-e")) ++ NL :: text_of "echo") (text_of "Work:s")) [text_of "s"; text_of "x"] =
  Ret [sh_name; text_of "-e"; text_of "/Work/s"; text_of "x"] tt.
Proof.
  pose proof (script_argv (fun _ => true) [SPACE] sh_name (Some (text_of "-e")) (text_of "echo") (text_of "Work:s") (text_of "s") [text_of "x"]) as H.
  apply H; clear H.
  - by repeat constructor.
  - by apply word_demo.
  - intros a [= <-]. by apply word_demo.
  - done.
  - cbn. lia.
  - vm_compute. intros Hin. repeat (apply elem_of_cons in Hin as [Hin|Hin]; [done|]). by apply not_elem_of_nil in Hin.
Defined.

(** Descriptor 0 is open and marked; two exit functions, the first of them that of
    stdio. *)
Definition demo_image : image :=
  mkImage (Descrip.set_self w_one (Descrip.put_pofile (Descrip.self w_one) 0 Descrip.UF_EXCLOSE)) proc_init [[5; 7]] [] [].

Lemma exec_image_witness : exists i', execve true false [] 0 5 (inl None) true [text_of "ls"] demo_image = Ret None i' /\ vargv i' = [text_of "ls"] /\
  aget (Descrip.u_ofile (Descrip.self (fds i'))) 0 = Some 0 /\ Sig.p_sigmask (sigs i') = Sig.p_sigmask (sigs demo_image) /\ called i' = [7].
Proof.
  destruct (exec_image true false [] (fun _ => 0) 0 5 (inl None) true [text_of "ls"] [text_of "ls"] demo_image)
    as (r & i' & E & _ & _ & _ & -> & Ea & Eo & Em & _ & _ & Ec).
  - apply DescripInv.inv_pofile, w_one_inv.
  - apply proc_init_wf.
  - by intros extra [= <-].
  - exists i'. split; [exact E|]. split; [exact Ea|]. split; [rewrite Eo by (unfold Descrip.NOFILE; lia); reflexivity|].
    split; [exact Em|]. rewrite Ec. reflexivity.
Defined.
