(* ===== verification/Dos.v ===== *)
(** * The interface of an AmigaDOS file handle

    The library reaches files through dos.library, which is not part of the
    sources: Seek, Read, Write, SetFileSize, WaitForChar, IsInteractive, SetMode
    and IoErr on an open handle.  [DosOps] names these calls, [DosLaws] states what
    their documentation promises for a file on a disk ([on_file]: the bytes it
    holds and where its pointer is) and for a console ([on_tty]: what it has
    shown).  In particular Seek returns the position before the call, Write
    stores all bytes or reports an error, and SetFileSize promises nothing about
    the bytes it adds.  [ram_handle] implements the interface. *)

From S2P Require Import Prelude.

(** The errors of dos.library the code tells apart. *)
Inductive ioerr :=
| ERROR_NO_FREE_STORE | ERROR_TASK_TABLE_FULL | ERROR_LINE_TOO_LONG
| ERROR_INVALID_RESIDENT_LIBRARY | ERROR_FILE_NOT_OBJECT | ERROR_OBJECT_IN_USE
| ERROR_OBJECT_EXISTS | ERROR_BAD_STREAM_NAME | ERROR_DIR_NOT_FOUND
| ERROR_OBJECT_NOT_FOUND | ERROR_ACTION_NOT_KNOWN | ERROR_NO_DEFAULT_DIR
| ERROR_OBJECT_TOO_LARGE | ERROR_INVALID_COMPONENT_NAME | ERROR_INVALID_LOCK
| ERROR_TOO_MANY_LEVELS | ERROR_OBJECT_WRONG_TYPE | ERROR_DISK_NOT_VALIDATED
| ERROR_DISK_WRITE_PROTECTED | ERROR_RENAME_ACROSS_DEVICES | ERROR_DIRECTORY_NOT_EMPTY
| ERROR_DEVICE_NOT_MOUNTED | ERROR_SEEK_ERROR | ERROR_COMMENT_TOO_BIG | ERROR_DISK_FULL
| ERROR_DELETE_PROTECTED | ERROR_WRITE_PROTECTED | ERROR_READ_PROTECTED
| ERROR_NOT_A_DOS_DISK | ERROR_NO_DISK | ERROR_NO_MORE_ENTRIES
| Ioerr (code : Z).

#[export] Instance ioerr_dec : EqDecision ioerr.
Proof. solve_decision. Defined.

Definition OFFSET_BEGINNING : Z := -1.
Definition OFFSET_CURRENT : Z := 0.
Definition OFFSET_END : Z := 1.

Notation "# l" := (Z.of_nat (length l)) (at level 9, format "# l").

Class DosOps (H : Type) := {
  dos_nil : H -> bool;                        (** fh_Type is 0: the NIL: handler *)
  dos_IsInteractive : H -> bool;
  dos_IoErr : H -> ioerr;
  dos_Seek : Z -> Z -> H -> Z * H;            (** offset, mode *)
  dos_Read : Z -> H -> (Z * list Z) * H;      (** length; the result, the bytes stored *)
  dos_Write : list Z -> H -> Z * H;
  dos_SetFileSize : Z -> Z -> H -> Z * H;     (** offset, mode *)
  dos_WaitForChar : Z -> H -> bool * H;
  dos_SetMode : Z -> H -> Z * H               (** 1: raw, 0: cooked *)
}.

(** Where a Seek from position [p] of a file of [n] bytes goes. *)
Definition seek_target (n p off mode : Z) : Z :=
  if mode =? OFFSET_BEGINNING then off else if mode =? OFFSET_CURRENT then p + off else n + off.

(** The contents after [bs] is stored at position [p]. *)
Definition overwrite (c : list Z) (p : Z) (bs : list Z) : list Z :=
  take (Z.to_nat p) c ++ bs ++ drop (Z.to_nat p + length bs) c.

Class DosLaws (H : Type) `{!DosOps H} (on_file : H -> list Z -> Z -> Prop) (on_tty : H -> list Z -> Prop) := {
  file_handle h c p : on_file h c p ->
    0 <= p <= #c /\ #c < 2 ^ 31 /\ dos_nil h = false /\ dos_IsInteractive h = false;
  file_seek h c p off mode : on_file h c p -> 0 <= seek_target #c p off mode <= #c ->
    exists h', dos_Seek off mode h = (p, h') /\ on_file h' c (seek_target #c p off mode);
  file_seek_error h c p off mode : on_file h c p -> ~ (0 <= seek_target #c p off mode <= #c) ->
    exists h', dos_Seek off mode h = (-1, h') /\ dos_IoErr h' = ERROR_SEEK_ERROR /\ on_file h' c p;
  file_read h c p len : on_file h c p -> 0 < len ->
    let bs := take (Z.to_nat len) (drop (Z.to_nat p) c) in
    exists h', (dos_Read len h = ((#bs, bs), h') /\ on_file h' c (p + #bs)) \/
               (dos_Read len h = ((-1, []), h') /\ on_file h' c p);
  file_write h c p bs : on_file h c p -> 0 < #bs -> p + #bs < 2 ^ 31 ->
    exists h', (dos_Write bs h = (#bs, h') /\ on_file h' (overwrite c p bs) (p + #bs)) \/
               (dos_Write bs h = (-1, h') /\ exists c' p', on_file h' c' p');
  file_size h c p len : on_file h c p -> 0 <= len < 2 ^ 31 ->
    exists h', (dos_SetFileSize len OFFSET_BEGINNING h = (len, h') /\
                exists fill p', #fill = Z.max 0 (len - #c) /\
                  on_file h' (take (Z.to_nat len) c ++ fill) p') \/
               (dos_SetFileSize len OFFSET_BEGINNING h = (-1, h') /\ exists p', on_file h' c p');
  tty_handle h out : on_tty h out -> dos_nil h = false /\ dos_IsInteractive h = true;
  tty_mode h out m : on_tty h out -> exists r h', dos_SetMode m h = (r, h') /\ on_tty h' out;
  tty_write h out bs : on_tty h out -> 0 < #bs ->
    exists n (k : nat) h', dos_Write bs h = (n, h') /\ (n = Z.of_nat k \/ n = -1) /\
      (k <= length bs)%nat /\ on_tty h' (out ++ take k bs)
}.

(** ** An implementation in memory

    A file (or console) whose pointer is [r_pos]; [r_room] writes succeed. *)

Record ram_handle := mk_ram {
  r_tty : bool;
  r_data : list Z;
  r_pos : Z;
  r_room : nat;
  r_err : ioerr
}.

Definition ram_seek (off mode : Z) (h : ram_handle) : Z * ram_handle :=
  let t := seek_target #(r_data h) (r_pos h) off mode in
  if (0 <=? t) && (t <=? #(r_data h)) && negb (r_tty h)
  then (r_pos h, mk_ram (r_tty h) (r_data h) t (r_room h) (r_err h))
  else (-1, mk_ram (r_tty h) (r_data h) (r_pos h) (r_room h) ERROR_SEEK_ERROR).

Definition ram_read (len : Z) (h : ram_handle) : (Z * list Z) * ram_handle :=
  let bs := take (Z.to_nat len) (drop (Z.to_nat (r_pos h)) (r_data h)) in
  ((#bs, bs), mk_ram (r_tty h) (r_data h) (r_pos h + #bs) (r_room h) (r_err h)).

Definition ram_write (bs : list Z) (h : ram_handle) : Z * ram_handle :=
  match r_room h with
  | O => (-1, mk_ram (r_tty h) (r_data h) (r_pos h) O ERROR_DISK_FULL)
  | S room =>
    if r_tty h then (#bs, mk_ram true (r_data h ++ bs) (r_pos h) room (r_err h))
    else if 2 ^ 31 <=? r_pos h + #bs then (-1, mk_ram false (r_data h) (r_pos h) room ERROR_DISK_FULL)
    else (#bs, mk_ram false (overwrite (r_data h) (r_pos h) bs) (r_pos h + #bs) room (r_err h))
  end.

Definition ram_size (len mode : Z) (h : ram_handle) : Z * ram_handle :=
  if (mode =? OFFSET_BEGINNING) && (0 <=? len) && (len <? 2 ^ 31)
  then (len, mk_ram (r_tty h)
               (take (Z.to_nat len) (r_data h) ++ replicate (Z.to_nat len - length (r_data h)) 255)
               (Z.min (r_pos h) len) (r_room h) (r_err h))
  else (-1, h).

#[export] Instance ram_ops : DosOps ram_handle := {
  dos_nil := fun _ => false;
  dos_IsInteractive := r_tty;
  dos_IoErr := r_err;
  dos_Seek := ram_seek;
  dos_Read := ram_read;
  dos_Write := ram_write;
  dos_SetFileSize := ram_size;
  dos_WaitForChar := fun _ h => (true, h);
  dos_SetMode := fun _ h => (-1, h)
}.

Definition ram_file (h : ram_handle) (c : list Z) (p : Z) : Prop :=
  r_tty h = false /\ r_data h = c /\ r_pos h = p /\ 0 <= p <= #c /\ #c < 2 ^ 31.
Definition ram_tty (h : ram_handle) (out : list Z) : Prop := r_tty h = true /\ r_data h = out.

Lemma overwrite_length c p bs : 0 <= p <= #c -> #(overwrite c p bs) = Z.max #c (p + #bs).
Proof. intros. unfold overwrite. rewrite !length_app, length_take, length_drop. lia. Qed.

#[export] Instance ram_laws : DosLaws ram_handle ram_file ram_tty.
Proof.
  split.
  - intros h c p (? & ? & ? & ? & ?). cbn. done.
  - intros h c p off mode (Ht & <- & <- & ?) Hr. cbn. unfold ram_seek. rewrite Ht.
    rewrite !(proj2 (Z.leb_le _ _)) by lia. cbn. eexists. split; [done|]. repeat split; cbn; try done; lia.
  - intros h c p off mode (Ht & <- & <- & ?) Hr. cbn. unfold ram_seek. rewrite Ht.
    destruct (Z.leb_spec 0 (seek_target #(r_data h) (r_pos h) off mode)),
      (Z.leb_spec (seek_target #(r_data h) (r_pos h) off mode) #(r_data h)); try lia; cbn;
      eexists; (split; [done|]); (split; [done|]); repeat split; cbn; try done; lia.
  - intros h c p len (Ht & <- & <- & ?) Hl bs. cbn. eexists. left. split; [done|].
    subst bs. rewrite length_take, length_drop. repeat split; cbn; try done; try lia.
  - intros h c p bs (Ht & <- & <- & ?) Hb Hr. cbn. unfold ram_write. rewrite Ht.
    destruct (r_room h) as [|room].
    + eexists. right. split; [done|]. eexists _, _. repeat split; cbn; try done; lia.
    + rewrite (proj2 (Z.leb_gt _ _)) by lia. eexists. left. split; [done|].
      repeat split; cbn; try done; rewrite ?overwrite_length; lia.
  - intros h c p len (Ht & <- & <- & ?) Hl. cbn. unfold ram_size.
    rewrite (proj2 (Z.leb_le _ _)), (proj2 (Z.ltb_lt _ _)) by lia. cbn. eexists. left. split; [done|].
    eexists _, (Z.min (r_pos h) len). split; cycle 1.
    + repeat split; cbn; try done; rewrite ?length_app, ?length_take, ?length_replicate; lia.
    + rewrite length_replicate. lia.
  - intros h out [? ?]. done.
  - intros h out m Ho. cbn. eauto.
  - intros h out bs [Ht <-] Hb. cbn. unfold ram_write. destruct (r_room h) as [|room].
    + exists (-1), 0%nat. eexists. split; [done|]. split; [by right|]. split; [lia|].
      rewrite take_0, app_nil_r. by split.
    + rewrite Ht. exists (#bs), (length bs). eexists. split; [done|]. split; [by left|]. split; [lia|].
      by rewrite take_ge by lia.
Qed.
