(* ===== verification/Fileio.v ===== *)
(** * File input and output: data and operations

    Models library/read.c, write.c, readv.c, writev.c, lseek.c, ftruncate.c,
    get_file.c, __read.c, __write.c, __mread.c, __fioctl.c, __ioerr_to_errno.c
    and __mselect.c: the calls on a descriptor of a file on disk, of a console,
    or of a memory file (an opened directory, see [Dirs]).  A handle is a state
    of the interface [DosOps]; a file structure is found through its address in
    [files].  The tables are read before the descriptor is tested, but the value
    is used after the test only, so a descriptor out of range is EBADF.  A call
    that must wait for the lock of a file continues with the next element of
    [wakes], what ix_sleep returned and the file at that time, or stays asleep.
    The build does not define USE_VMEM. *)

From S2P Require Import Prelude Descrip Dos.

Module Fio.

Definition FAPPEND : Z := Descrip.O_APPEND.
Definition FNDELAY : Z := Descrip.O_NONBLOCK.
Definition FASYNC : Z := Descrip.O_ASYNC.
Definition FWRITE : Z := Descrip.FWRITE.
Definition NOFILE : Z := Descrip.NOFILE.
Definition DTYPE_FILE : Z := 1.
Definition DTYPE_MEM : Z := 3.
Definition IXTTY_INLCR : Z := 0x1.
Definition IXTTY_ICRNL : Z := 0x2.
Definition IXTTY_OPOST : Z := 0x4.
Definition IXTTY_ONLCR : Z := 0x8.
Definition IXTTY_RAW : Z := 0x10.
Definition IXTTY_PKT : Z := 0x20.
Definition TTY_NLCR_ENABLE : Z := Z.lor IXTTY_RAW (Z.lor IXTTY_OPOST IXTTY_ONLCR).
Definition FSFF_LOCKED : Z := 1.
Definition FSFF_WANTLOCK : Z := 2.
Definition FSDF_UTIME : Z := 4.
Definition SEEK_SET : Z := 0.
Definition SEEK_CUR : Z := 1.
Definition SEEK_END : Z := 2.
Definition SELCMD_PREPARE : Z := 1.
Definition SELCMD_CHECK : Z := 2.
Definition SELCMD_POLL : Z := 10.
Definition SELMODE_IN : Z := 0.
Definition sigcantmask : Z := 0x10100.       (** SIGKILL and SIGSTOP *)
Definition EACCES : Z := 13.
Definition ENXIO : Z := 6.
Definition ENOEXEC : Z := 8.
Definition EXDEV : Z := 18.
Definition ENODEV : Z := 19.
Definition ENOTDIR : Z := 20.
Definition ESPIPE : Z := 29.
Definition EROFS : Z := 30.
Definition ELOOP : Z := 62.
Definition ENAMETOOLONG : Z := 63.
Definition ENOTEMPTY : Z := 66.
Definition NL : Z := 10.
Definition CR : Z := 13.

Definition __ioerr_to_errno (e : ioerr) : Z :=
  match e with
  | ERROR_NO_FREE_STORE => ENOMEM
  | ERROR_TASK_TABLE_FULL => EAGAIN
  | ERROR_LINE_TOO_LONG => E2BIG
  | ERROR_INVALID_RESIDENT_LIBRARY | ERROR_FILE_NOT_OBJECT => ENOEXEC
  | ERROR_OBJECT_IN_USE | ERROR_OBJECT_EXISTS => EEXIST
  | ERROR_BAD_STREAM_NAME | ERROR_DIR_NOT_FOUND | ERROR_OBJECT_NOT_FOUND => ENOENT
  | ERROR_ACTION_NOT_KNOWN => ENODEV
  | ERROR_NO_DEFAULT_DIR => ENOTDIR
  | ERROR_OBJECT_TOO_LARGE => ENOMEM
  | ERROR_INVALID_COMPONENT_NAME => Descrip.EIO
  | ERROR_INVALID_LOCK => ENODEV
  | ERROR_TOO_MANY_LEVELS => ELOOP
  | ERROR_OBJECT_WRONG_TYPE => ENOTDIR
  | ERROR_DISK_NOT_VALIDATED => Descrip.EIO
  | ERROR_DISK_WRITE_PROTECTED => EROFS
  | ERROR_RENAME_ACROSS_DEVICES => EXDEV
  | ERROR_DIRECTORY_NOT_EMPTY => ENOTEMPTY
  | ERROR_DEVICE_NOT_MOUNTED => ENXIO
  | ERROR_SEEK_ERROR => ESPIPE
  | ERROR_COMMENT_TOO_BIG => ENAMETOOLONG
  | ERROR_DISK_FULL => ENOSPC
  | ERROR_DELETE_PROTECTED | ERROR_WRITE_PROTECTED | ERROR_READ_PROTECTED => EACCES
  | ERROR_NOT_A_DOS_DISK | ERROR_NO_DISK => ENXIO
  | ERROR_NO_MORE_ENTRIES => ENOENT
  | Ioerr 4242 | Ioerr 5252 | Ioerr 6262 => EPERM
  | Ioerr _ => Descrip.EIO
  end.

Section Fileio.
Context {H : Type} `{!DosOps H}.

(** ** Data *)

(** The union f__fh: the handle with the terminal flags, or a memory file. *)
Inductive union :=
| FH (fh : H) (ttyflags : Z)
| MF (mf_offset : Z) (mf_buffer : list Z).

(** The handlers of f_read: __read and __mread; of f_write: __write. *)
Inductive reader := R_read | R_mread.
Inductive writer := W_write.

Record file := mk_file {
  f_stb_dirty : Z;
  f_type : Z;
  f_flags : Z;
  f_read : option reader;
  f_write : option writer;
  f__fh : union;
  st_size : Z;
  f_sync_flags : Z
}.

Record world := mk_world {
  u_ofile : list Z;
  u_parent_ofile : option (list Z);      (** the table of u_parent_userdata *)
  p_sigmask : Z;
  files : gmap Z file;
  w_errno : Z;
  wakes : list (Z * file);
  woken : list Z                         (** the files whose waiters were woken *)
}.

Definition set_sigmask w v := mk_world (u_ofile w) (u_parent_ofile w) v (files w) (w_errno w) (wakes w) (woken w).
Definition set_files w v := mk_world (u_ofile w) (u_parent_ofile w) (p_sigmask w) v (w_errno w) (wakes w) (woken w).
Definition set_errno w v := mk_world (u_ofile w) (u_parent_ofile w) (p_sigmask w) (files w) v (wakes w) (woken w).
Definition set_wakes w v := mk_world (u_ofile w) (u_parent_ofile w) (p_sigmask w) (files w) (w_errno w) v (woken w).
Definition wakeup w fp := mk_world (u_ofile w) (u_parent_ofile w) (p_sigmask w) (files w) (w_errno w) (wakes w) (fp :: woken w).
Definition put_file w fp f := set_files w (<[fp := f]> (files w)).

Definition set_fh f v := mk_file (f_stb_dirty f) (f_type f) (f_flags f) (f_read f) (f_write f) v (st_size f) (f_sync_flags f).
Definition set_sync f v := mk_file (f_stb_dirty f) (f_type f) (f_flags f) (f_read f) (f_write f) (f__fh f) (st_size f) v.
Definition set_fflags f v := mk_file (f_stb_dirty f) (f_type f) v (f_read f) (f_write f) (f__fh f) (st_size f) (f_sync_flags f).
Definition set_dirty f v := mk_file v (f_type f) (f_flags f) (f_read f) (f_write f) (f__fh f) (st_size f) (f_sync_flags f).

(** [errno = e; return -1] *)
Definition fail (w : world) (e : Z) : outcome world Z := Ret (-1) (set_errno w e).

Definition sigsetmask (mask : Z) (w : world) : Z * world := (p_sigmask w, set_sigmask w (bclr mask sigcantmask)).

(** The table in use: the one of u_parent_userdata if there is one. *)
Definition cur_ofile (w : world) : list Z := default (u_ofile w) (u_parent_ofile w).

(** [fd >= 0 && fd < NOFILE && u_ofile[fd]] *)
Definition open_file (tbl : list Z) (fd : Z) : option Z :=
  if (0 <=? fd) && (fd <? NOFILE) then
    match aget tbl fd with Some fp => if fp =? 0 then None else Some fp | None => None end
  else None.

(** ** The lock of a file: library/get_file.c *)

Definition locked (f : file) : bool := bset (f_sync_flags f) FSFF_LOCKED.

Fixpoint get_file_loop (sched : list (Z * file)) (fp : Z) (w : world) : outcome world Z :=
  let? f := files w !! fp in
  if negb (locked f) then
    Ret 0 (set_wakes (put_file w fp (set_sync f (Z.lor (f_sync_flags f) FSFF_LOCKED))) sched)
  else
    let w := put_file w fp (set_sync f (Z.lor (f_sync_flags f) FSFF_WANTLOCK)) in
    match sched with
    | [] => Asleep w
    | (res, f') :: sched =>
      let w := put_file w fp f' in
      if res <? 0 then Ret (-1) (set_wakes w sched) else get_file_loop sched fp w
    end.

Definition __get_file (fp : Z) (w : world) : outcome world Z := get_file_loop (wakes w) fp w.

Definition __release_file (fp : Z) (w : world) : outcome world () :=
  let? f := files w !! fp in
  let w := if bset (f_sync_flags f) FSFF_WANTLOCK then wakeup w fp else w in
  Ret () (put_file w fp (set_sync f (bclr (f_sync_flags f) (Z.lor FSFF_WANTLOCK FSFF_LOCKED)))).

(** ** Calls of dos.library on the handle of a file *)

Definition handle (fp : Z) (w : world) : option (file * H * Z) :=
  match files w !! fp with
  | Some f => match f__fh f with FH h t => Some (f, h, t) | MF _ _ => None end
  | None => None
  end.

Definition on_handle {A} (op : H -> A * H) (fp : Z) (w : world) : outcome world A :=
  match handle fp w with
  | Some (f, h, t) => let r := op h in Ret r.1 (put_file w fp (set_fh f (FH r.2 t)))
  | None => Fault
  end.

Definition Seek (fp off mode : Z) : world -> outcome world Z := on_handle (dos_Seek off mode) fp.
Definition Read (fp len : Z) : world -> outcome world (Z * list Z) := on_handle (dos_Read len) fp.
Definition Write (fp : Z) (bs : list Z) : world -> outcome world Z := on_handle (dos_Write bs) fp.
Definition SetFileSize (fp off mode : Z) : world -> outcome world Z := on_handle (dos_SetFileSize off mode) fp.
Definition WaitForChar (fp t : Z) : world -> outcome world bool := on_handle (dos_WaitForChar t) fp.
Definition SetMode (fp m : Z) : world -> outcome world Z := on_handle (dos_SetMode m) fp.

(** [__ioerr_to_errno (IoErr ())] after a call on the handle. *)
Definition last_error (fp : Z) (w : world) : option Z :=
  match handle fp w with Some (_, h, _) => Some (__ioerr_to_errno (dos_IoErr h)) | None => None end.
Definition HANDLER_NIL (fp : Z) (w : world) : option bool :=
  match handle fp w with Some (_, h, _) => Some (dos_nil h) | None => None end.
Definition IsInteractive (fp : Z) (w : world) : option bool :=
  match handle fp w with Some (_, h, _) => Some (dos_IsInteractive h) | None => None end.
Definition ttyflags (fp : Z) (w : world) : option Z :=
  match handle fp w with Some (_, _, t) => Some t | None => None end.

(** The frame of the calls: signals are blocked and the file is locked while
    [body] runs.  What __get_file returns is not looked at. *)
Definition held {A} (fp : Z) (body : world -> outcome world A) (w : world) : outcome world A :=
  let '(omask, w) := sigsetmask (-1) w in
  let* (_r, w) := __get_file fp w in
  let* (r, w) := body w in
  let* (_u, w) := __release_file fp w in
  Ret r (sigsetmask omask w).2.

(** The same for a body that returns the new [errno] with its result. *)
Definition exclusive {A} (fp : Z) (body : world -> outcome world (A * Z)) (w : world) : outcome world A :=
  let* (r, w) := held fp body w in
  Ret r.1 (set_errno w r.2).

(** ** lseek: library/lseek.c *)

(** [while (!(buf = kmalloc (buf_size)) && buf_size) buf_size >>= 1;] where
    [avail n] tells whether kmalloc has [n] bytes: the size if there is a buffer. *)
Fixpoint extend_buffer (avail : Z -> bool) (fuel : nat) (buf_size : Z) : option (option Z) :=
  match fuel with
  | O => None
  | S fuel =>
    if avail buf_size then Some (Some buf_size)
    else if buf_size =? 0 then Some None
    else extend_buffer avail fuel (Z.shiftr buf_size 1)
  end.

(** The loop that writes zeros; the result is [res] and [*err]. *)
Fixpoint extend_loop (fuel : nat) (fp add written buf_size res err : Z) (w : world) : outcome world (Z * Z) :=
  match fuel with
  | O => Diverge
  | S fuel =>
    if negb (written <? add) then Ret (res, err) w
    else
      let* (res, w) := Write fp (replicate (Z.to_nat buf_size) 0) w in
      if res <? 0 then
        let? e := last_error fp w in Ret (res, e) w
      else
        let written := written + res in
        extend_loop fuel fp add written
          (if buf_size <? add - written then buf_size else add - written) res err w
  end.

Definition __extend_file (avail : Z -> bool) (fp add_to_eof err : Z) (w : world) : outcome world (Z * Z) :=
  let buf_size := if 32 * 1024 <? add_to_eof then 32 * 1024 else add_to_eof in
  match extend_buffer avail 17 buf_size with
  | None => Diverge
  | Some None => Ret (-1, ENOMEM) w
  | Some (Some buf_size) =>
    let* (r, w) := extend_loop (S (Z.to_nat add_to_eof)) fp add_to_eof 0 buf_size 0 err w in
    let '(res, err) := r in
    if 0 <=? res then
      let* (_r, w) := Seek fp 0 OFFSET_END w in
      let* (res, w) := Seek fp 0 OFFSET_END w in
      let? e := last_error fp w in
      Ret (res, e) w
    else Ret (res, err) w
  end.

(** The switch: [previous_pos] and [err]; [None] for an invalid [dir]. *)
Definition previous_position (fp dir : Z) (w : world) : outcome world (option (Z * Z)) :=
  if dir =? SEEK_SET then Ret (Some (0, 0)) w
  else if dir =? SEEK_CUR then
    let* (pos, w) := Seek fp 0 OFFSET_CURRENT w in
    let? e := last_error fp w in
    Ret (Some (pos, if pos =? -1 then e else 0)) w
  else if dir =? SEEK_END then
    let* (_p, w) := Seek fp 0 OFFSET_END w in
    let* (pos, w) := Seek fp 0 OFFSET_CURRENT w in
    let? e := last_error fp w in
    Ret (Some (pos, if pos =? -1 then e else 0)) w
  else Ret None w.

Definition is_seek_error (fp : Z) (w : world) : option bool :=
  match handle fp w with Some (_, h, _) => Some (bool_decide (dos_IoErr h = ERROR_SEEK_ERROR)) | None => None end.

(** Between __get_file and __release_file. *)
Definition lseek_handle (avail : Z -> bool) (fp off dir : Z) (w : world) : outcome world (Z * Z) :=
  let* (base, w) := previous_position fp dir w in
  match base with
  | None => Ret (-1, EINVAL) w
  | Some (previous_pos, err) =>
    let shouldbe_pos := s32 (previous_pos + off) in
    if shouldbe_pos <? 0 then Ret (-1, EINVAL) w
    else if negb (0 <=? previous_pos) then Ret (-1, err) w
    else
      let* (res, w) := Seek fp off (dir - 1) w in
      let? past := is_seek_error fp w in
      let* (res, w) := if (res =? -1) && past then Seek fp 0 OFFSET_END w else Ret res w in
      let? e := last_error fp w in
      if res =? -1 then Ret (res, e) w
      else if negb (previous_pos =? shouldbe_pos) then
        let* (res, w) := Seek fp 0 OFFSET_CURRENT w in
        let? e := last_error fp w in
        let err := if res =? -1 then e else 0 in
        let? f := files w !! fp in
        if (0 <=? res) && (res <? shouldbe_pos) && bset (f_flags f) FWRITE
        then __extend_file avail fp (shouldbe_pos - res) err w
        else Ret (res, err) w
      else Ret (shouldbe_pos, 0) w
  end.

(** The memory file: the result is the old offset. *)
Definition lseek_memory (fp off dir : Z) (w : world) : outcome world Z :=
  let? f := files w !! fp in
  match f__fh f with
  | FH _ _ => Fault
  | MF old_off buf =>
    let real_off := s32 (if dir =? SEEK_SET then off
                         else if dir =? SEEK_CUR then old_off + off else st_size f + off) in
    let real_off := if real_off <? 0 then 0 else if st_size f <? real_off then st_size f else real_off in
    Ret old_off (put_file w fp (set_fh f (MF real_off buf)))
  end.

Definition lseek (avail : Z -> bool) (fd off dir : Z) (w : world) : outcome world Z :=
  match open_file (cur_ofile w) fd with
  | None => fail w EBADF
  | Some fp =>
    let? f := files w !! fp in
    if f_type f =? DTYPE_FILE then
      let? nil := HANDLER_NIL fp w in
      if nil then if off =? 0 then Ret 0 w else fail w ESPIPE
      else exclusive fp (lseek_handle avail fp off dir) w
    else if f_type f =? DTYPE_MEM then held fp (lseek_memory fp off dir) w
    else fail w ESPIPE
  end.

(** ** Reading: library/__mread.c, __read.c, read.c, readv.c *)

(** The result and the bytes stored at [buf]. *)
Definition mread_body (fp len : Z) (w : world) : outcome world (Z * list Z) :=
  let? f := files w !! fp in
  match f__fh f with
  | FH _ _ => Fault
  | MF off buf =>
    let left := st_size f - off in
    let real_len := if left <? len then left else len in
    if (real_len <? 0) || (#buf <? off + real_len) then Fault
    else Ret (real_len, take (Z.to_nat real_len) (drop (Z.to_nat off) buf))
           (put_file w fp (set_fh f (MF (off + real_len) buf)))
  end.

Definition __mread (fp len : Z) : world -> outcome world (Z * list Z) := held fp (mread_body fp len).

(** [while (res < len)] with one character for each round; [n] rounds are left. *)
Fixpoint nowait_loop (n : nat) (fp : Z) (got : list Z) (err : Z) (w : world) : outcome world (Z * list Z * Z) :=
  match n with
  | O => Ret (#got, got, err) w
  | S n =>
    let* (ready, w) := WaitForChar fp 0 w in
    if negb ready then
      if #got =? 0 then Ret (-1, got, EAGAIN) w else Ret (#got, got, err) w
    else
      let* (r, w) := Read fp 1 w in
      if negb (r.1 =? 1) then let? e := last_error fp w in Ret (-1, got, e) w
      else nowait_loop n fp (got ++ r.2) err w
  end.

(** Between __get_file and __release_file: the result and the bytes stored, and
    [err]. *)
Definition read_handle (fp len err : Z) (w : world) : outcome world ((Z * list Z) * Z) :=
  let? t := ttyflags fp w in
  let len := if bset t IXTTY_PKT then len - 1 else len in
  if 0 <? len then
    let? f := files w !! fp in
    let? tty := IsInteractive fp w in
    if tty && bset (f_flags f) FNDELAY then
      let* (r, w) := nowait_loop (Z.to_nat len) fp [] err w in
      Ret (r.1.1, r.1.2, r.2) w
    else
      let* (r, w) := Read fp len w in
      let? e := last_error fp w in
      Ret (r, if r.1 =? -1 then e else err) w
  else Ret (0, [], err) w.

(** [for (i = 0; i < res; i++) if (orig_buf[i] == match) orig_buf[i] = subst;] *)
Definition substitute (m s : Z) (res : Z) (bs : list Z) : list Z :=
  map (fun c => if c =? m then s else c) (take (Z.to_nat res) bs) ++ drop (Z.to_nat res) bs.

Definition translate (t res : Z) (bs : list Z) : list Z :=
  if (0 <? res) && (bset t IXTTY_INLCR || (bset t IXTTY_RAW && bset t IXTTY_ICRNL)) then
    if bset t IXTTY_INLCR then substitute NL CR res bs else substitute CR NL res bs
  else bs.

Definition __read (fp len : Z) (w : world) : outcome world (Z * list Z) :=
  let? nil := HANDLER_NIL fp w in
  if nil then Ret (0, []) w
  else
    let* (r, w) := exclusive fp (read_handle fp len (w_errno w)) w in
    let? t := ttyflags fp w in
    let pkt := bset t IXTTY_PKT in
    let res := r.1 in
    let bs := (if pkt then [0] else []) ++ translate t res r.2 in
    Ret (if (0 <? res) && pkt then res + 1 else res, bs) w.

Definition read (fd len : Z) (w : world) : outcome world (Z * list Z) :=
  match open_file (cur_ofile w) fd with
  | None => Ret (-1, []) (set_errno w EBADF)
  | Some fp =>
    let? f := files w !! fp in
    match f_read f with
    | None => Ret (-1, []) (set_errno w Descrip.EIO)
    | Some R_read => __read fp (s32 len) w
    | Some R_mread => __mread fp (s32 len) w
    end
  end.

(** [iov] gives the lengths; the result lists what was stored in each buffer. *)
Fixpoint readv (fd : Z) (iov : list Z) (nread : Z) (stored : list (list Z)) (w : world)
    : outcome world (Z * list (list Z)) :=
  match iov with
  | [] => Ret (nread, stored) w
  | len :: iov =>
    let* (r, w) := read fd len w in
    let stored := stored ++ [r.2] in
    if r.1 =? -1 then Ret (-1, stored) w
    else if r.1 <? len then Ret (nread + r.1, stored) w
    else readv fd iov (nread + r.1) stored w
  end.

(** ** Writing: library/__write.c, write.c, writev.c *)

Definition sync_write_body (fp : Z) (buf : list Z) (err : Z) (w : world) : outcome world (Z * Z) :=
  if 0 <? #buf then
    let? f := files w !! fp in
    let* (_p, w) := if bset (f_flags f) FAPPEND then Seek fp 0 OFFSET_END w else Ret 0 w in
    let* (res, w) := Write fp buf w in
    let? e := last_error fp w in
    Ret (res, if res =? -1 then e else err) w
  else Ret (0, err) w.

Definition __do_sync_write (fp : Z) (buf : list Z) (w : world) : outcome world Z :=
  exclusive fp (sync_write_body fp buf (w_errno w)) w.

(** [for (bytes = 0; l + bytes < len && p[bytes] != '\n' && bytes < 256; bytes++)] *)
Fixpoint line_bytes (n : nat) (p : list Z) : nat :=
  match n, p with
  | S n, c :: p => if c =? NL then O else S (line_bytes n p)
  | _, _ => O
  end.

(** The loop over the lines of a console; [p] is what is left of the buffer. *)
Fixpoint tty_loop (fuel : nat) (fp : Z) (p : list Z) (res : Z) (w : world) : outcome world Z :=
  match p with
  | [] => Ret res w
  | c :: p1 =>
    match fuel with
    | O => Diverge
    | S fuel =>
      let? t := ttyflags fp w in
      if (c =? NL) && (Z.land t TTY_NLCR_ENABLE =? TTY_NLCR_ENABLE) then
        let* (tmp, w) := __do_sync_write fp [CR; NL] w in
        if tmp =? -1 then Ret tmp w
        else
          let tmp := if tmp =? 2 then 1 else 0 in
          if negb (tmp =? 1) then Ret (res + tmp) w else tty_loop fuel fp p1 (res + tmp) w
      else
        let bytes := if c =? NL then 1%nat else line_bytes 256 p in
        if (bytes =? 0)%nat then tty_loop fuel fp p res w
        else
          let* (tmp, w) := __do_sync_write fp (take bytes p) w in
          if tmp =? -1 then Ret tmp w
          else if negb (tmp =? Z.of_nat bytes) then Ret (res + tmp) w
          else tty_loop fuel fp (drop bytes p) (res + tmp) w
    end
  end.

Definition __write (fp : Z) (buf : list Z) (w : world) : outcome world Z :=
  let? nil := HANDLER_NIL fp w in
  if nil then Ret #buf w
  else
    let? tty := IsInteractive fp w in
    if negb tty then __do_sync_write fp buf w else tty_loop (length buf) fp buf 0 w.

Definition write (fd : Z) (buf : list Z) (w : world) : outcome world Z :=
  match open_file (cur_ofile w) fd with
  | None => fail w EBADF
  | Some fp =>
    let? f := files w !! fp in
    match f_write f with
    | None => fail w Descrip.EIO
    | Some W_write =>
      let* (result, w) := __write fp buf w in
      if negb (result =? 0) then
        let? f := files w !! fp in
        Ret result (put_file w fp (set_dirty f (bclr (f_stb_dirty f) FSDF_UTIME)))
      else Ret result w
    end
  end.

Fixpoint writev (fd : Z) (iov : list (list Z)) (written : Z) (w : world) : outcome world Z :=
  match iov with
  | [] => Ret written w
  | buf :: iov =>
    let* (res, w) := write fd buf w in
    if res =? -1 then Ret (-1) w
    else if res <? #buf then Ret (written + res) w
    else writev fd iov (written + res) w
  end.

(** ** ftruncate: library/ftruncate.c, with the work-around for SetFileSize *)

Definition ftruncate_body (fp len : Z) (w : world) : outcome world (Z * Z) :=
  let* (opos, w) := Seek fp 0 OFFSET_BEGINNING w in
  let* (res, w) := SetFileSize fp len OFFSET_BEGINNING w in
  let? e := last_error fp w in
  let err := if res =? -1 then e else 0 in
  let opos := if res =? -1 then opos else if res <? opos then res else opos in
  let* (_p, w) := if negb (opos =? -1) then Seek fp opos OFFSET_BEGINNING w else Ret 0 w in
  Ret (if negb (res =? -1) then (0, 0) else (res, err)) w.

Definition ftruncate (fd len : Z) (w : world) : outcome world Z :=
  let w := set_errno w EBADF in
  match open_file (cur_ofile w) fd with
  | None => Ret (-1) w
  | Some fp =>
    let? f := files w !! fp in
    if f_type f =? DTYPE_FILE then
      let? nil := HANDLER_NIL fp w in
      if nil then fail w EINVAL else exclusive fp (ftruncate_body fp len) w
    else fail w ESPIPE
  end.

(** ** __fioctl: library/__fioctl.c *)

Inductive fcmd :=
| FIONREAD
| FIONBIO (arg : Z)
| FIOASYNC (arg : Z)
| FIOother.                   (** FIOCLEX, FIONCLEX, FIOSETOWN, FIOGETOWN, unknown *)

(** The result and what is stored at [*pt]. *)
Definition fioctl_body (fp : Z) (cmd : fcmd) (err : Z) (w : world) : outcome world ((Z * option Z) * Z) :=
  match cmd with
  | FIONREAD =>
    let? tty := IsInteractive fp w in
    let* (seek, w) :=
      (if negb tty then
         let* (this_pos, w) := Seek fp 0 OFFSET_CURRENT w in
         if 0 <=? this_pos then
           let* (eof_pos, w) := Seek fp 0 OFFSET_END w in
           if 0 <=? eof_pos then
             let* (_p, w) := Seek fp this_pos OFFSET_BEGINNING w in
             Ret (Some (eof_pos - this_pos)) w
           else Ret None w
         else Ret None w
       else Ret None w) in
    match seek with
    | Some n => Ret (0, Some n, err) w
    | None =>
      let* (ready, w) := WaitForChar fp 0 w in
      Ret (0, Some (if ready : bool then 1 else 0), err) w
    end
  | FIONBIO arg =>
    let? f := files w !! fp in
    let flags := if arg =? 0 then bclr (f_flags f) FNDELAY else Z.lor (f_flags f) FNDELAY in
    Ret (if bset (f_flags f) FNDELAY then 1 else 0, None, err) (put_file w fp (set_fflags f flags))
  | FIOASYNC arg =>
    let? f := files w !! fp in
    let flags := if arg =? 0 then bclr (f_flags f) FASYNC else Z.lor (f_flags f) FASYNC in
    Ret (if bset (f_flags f) FASYNC then 1 else 0, None, err) (put_file w fp (set_fflags f flags))
  | FIOother => Ret (0, None, err) w
  end.

Definition __fioctl (fp : Z) (cmd : fcmd) (w : world) : outcome world (Z * option Z) :=
  exclusive fp (fioctl_body fp cmd (w_errno w)) w.

(** ** __mselect: library/__mselect.c *)

Definition __mselect (fp select_cmd io_mode : Z) (w : world) : outcome world Z :=
  if select_cmd =? SELCMD_PREPARE then Ret 0 w
  else if (select_cmd =? SELCMD_CHECK) || (select_cmd =? SELCMD_POLL) then
    if negb (io_mode =? SELMODE_IN) then Ret 1 w
    else
      let* (_r, w) := __get_file fp w in
      let? f := files w !! fp in
      match f__fh f with
      | FH _ _ => Fault
      | MF off _ => let* (_u, w) := __release_file fp w in Ret (st_size f - off) w
      end
  else Ret 0 w.

End Fileio.

Arguments union : clear implicits.
Arguments file : clear implicits.
Arguments world : clear implicits.
End Fio.
