(* ===== verification/FileioProofs.v ===== *)
(** * File input and output: the calls of dos.library and the lock

    [at_h w fp f t h] is the world [w] in which the file at [fp] is [f] with the
    handle [h] and the terminal flags [t].  Every call on a handle moves from
    one such world to another, so the lemmas below reduce a call of the library
    to a sequence of calls on the handle, and then [DosLaws] applies.  The last
    part has the specifications of the bodies of lseek, read, write and
    ftruncate. *)

From S2P Require Import Prelude Descrip Dos Fileio.
Import Fio.

Definition at_h {H} (w : world H) (fp : Z) (f : file H) (t : Z) (h : H) : world H :=
  put_file w fp (set_fh f (FH h t)).
Definition blocked {H} (w : world H) : world H := set_sigmask w (bclr (-1) sigcantmask).
Definition lock {H} (f : file H) : file H := set_sync f FSFF_LOCKED.
Definition quiet {H} (w : world H) : Prop := bclr (p_sigmask w) sigcantmask = p_sigmask w.
Definition unlocked {H} (f : file H) : Prop := f_sync_flags f = 0.

Section Handles.
Context {H : Type} `{!DosOps H}.
Implicit Types (w : world H) (f : file H) (h : H).

Lemma put_put w fp f1 f2 : put_file (put_file w fp f1) fp f2 = put_file w fp f2.
Proof. unfold put_file, set_files. cbn. by rewrite insert_insert_eq. Qed.

Lemma at_h_id w fp f t h : files w !! fp = Some f -> f__fh f = FH h t -> at_h w fp f t h = w.
Proof.
  intros Hf Hh. destruct w, f; cbn in *. subst. unfold at_h, put_file, set_files, set_fh. cbn.
  by rewrite insert_id.
Qed.

Lemma at_h_lookup w fp f t h : files (at_h w fp f t h) !! fp = Some (set_fh f (FH h t)).
Proof. unfold at_h, put_file. cbn. by simplify_map_eq. Qed.

Lemma handle_at w fp f t h : handle fp (at_h w fp f t h) = Some (set_fh f (FH h t), h, t).
Proof. unfold handle. by rewrite at_h_lookup. Qed.

Lemma on_handle_at {A} (op : H -> A * H) w fp f t h :
  on_handle op fp (at_h w fp f t h) = Ret (op h).1 (at_h w fp f t (op h).2).
Proof. unfold on_handle. rewrite handle_at. cbn. unfold at_h. by rewrite put_put. Qed.

Lemma Seek_at w fp f t h off mode a h' :
  dos_Seek off mode h = (a, h') -> Seek fp off mode (at_h w fp f t h) = Ret a (at_h w fp f t h').
Proof. intros E. unfold Seek. by rewrite on_handle_at, E. Qed.
Lemma Read_at w fp f t h len a h' :
  dos_Read len h = (a, h') -> Read fp len (at_h w fp f t h) = Ret a (at_h w fp f t h').
Proof. intros E. unfold Read. by rewrite on_handle_at, E. Qed.
Lemma Write_at w fp f t h bs a h' :
  dos_Write bs h = (a, h') -> Write fp bs (at_h w fp f t h) = Ret a (at_h w fp f t h').
Proof. intros E. unfold Write. by rewrite on_handle_at, E. Qed.
Lemma SetFileSize_at w fp f t h len mode a h' :
  dos_SetFileSize len mode h = (a, h') -> SetFileSize fp len mode (at_h w fp f t h) = Ret a (at_h w fp f t h').
Proof. intros E. unfold SetFileSize. by rewrite on_handle_at, E. Qed.

Lemma last_error_at w fp f t h : last_error fp (at_h w fp f t h) = Some (__ioerr_to_errno (dos_IoErr h)).
Proof. unfold last_error. by rewrite handle_at. Qed.
Lemma IsInteractive_at w fp f t h : IsInteractive fp (at_h w fp f t h) = Some (dos_IsInteractive h).
Proof. unfold IsInteractive. by rewrite handle_at. Qed.
Lemma HANDLER_NIL_at w fp f t h : HANDLER_NIL fp (at_h w fp f t h) = Some (dos_nil h).
Proof. unfold HANDLER_NIL. by rewrite handle_at. Qed.
Lemma ttyflags_at w fp f t h : ttyflags fp (at_h w fp f t h) = Some t.
Proof. unfold ttyflags. by rewrite handle_at. Qed.
Lemma is_seek_error_at w fp f t h :
  is_seek_error fp (at_h w fp f t h) = Some (bool_decide (dos_IoErr h = ERROR_SEEK_ERROR)).
Proof. unfold is_seek_error. by rewrite handle_at. Qed.

(** ** The lock *)

Lemma set_wakes_same w : set_wakes w (wakes w) = w.
Proof. by destruct w. Qed.

Lemma unlocked_free f : unlocked f -> locked f = false.
Proof. unfold unlocked, locked. by intros ->. Qed.

Lemma get_file_free w fp f :
  files w !! fp = Some f -> unlocked f -> __get_file fp w = Ret 0 (put_file w fp (lock f)).
Proof.
  intros Hf Hu. unfold __get_file. destruct (wakes w) eqn:E; cbn; rewrite Hf; cbn.
  all: rewrite (unlocked_free f Hu); cbn; rewrite Hu; unfold lock.
  all: rewrite <- E; f_equal; exact (set_wakes_same (put_file w fp (set_sync f FSFF_LOCKED))).
Qed.

Lemma release_locked w fp f :
  files w !! fp = Some (lock f) -> unlocked f -> __release_file fp w = Ret () (put_file w fp f).
Proof.
  intros Hf Hu. unfold __release_file. rewrite Hf. cbn. do 3 f_equal. destruct f; cbn in *.
  unfold unlocked in Hu. cbn in Hu. by subst.
Qed.

Lemma blocked_put w fp f : blocked (put_file w fp f) = put_file (blocked w) fp f.
Proof. done. Qed.

Lemma unblock w fp f : quiet w -> (sigsetmask (p_sigmask w) (put_file (blocked w) fp f)).2 = put_file w fp f.
Proof.
  unfold quiet. intros Hq. unfold sigsetmask, set_sigmask, put_file, set_files, blocked. cbn. rewrite Hq. by destruct w.
Qed.

(** A body that returns under the lock, in general and on a handle. *)
Lemma held_general {A} (body : world H -> outcome (world H) A) w fp f r f' :
  files w !! fp = Some f -> unlocked f -> unlocked f' -> quiet w ->
  body (put_file (blocked w) fp (lock f)) = Ret r (put_file (blocked w) fp (lock f')) ->
  held fp body w = Ret r (put_file w fp f').
Proof.
  intros Hf Hu Hu' Hq Hb. unfold held. cbn [sigsetmask].
  rewrite (get_file_free _ fp f) by done. cbn [obind]. fold (blocked w).
  rewrite Hb. cbn [obind]. rewrite (release_locked _ fp f') by (cbn; by simplify_map_eq).
  cbn [obind]. rewrite put_put. f_equal. by apply unblock.
Qed.

Lemma held_at {A} (body : world H -> outcome (world H) A) w fp f t h r h' :
  unlocked f -> quiet w ->
  body (at_h (blocked w) fp (lock f) t h) = Ret r (at_h (blocked w) fp (lock f) t h') ->
  held fp body (at_h w fp f t h) = Ret r (at_h w fp f t h').
Proof.
  intros Hu Hq Hb.
  assert (at_h w fp f t h' = put_file (at_h w fp f t h) fp (set_fh f (FH h' t))) as ->.
  { unfold at_h. by rewrite put_put. }
  apply (held_general _ _ _ (set_fh f (FH h t))); try done; [apply at_h_lookup|].
  unfold at_h in *. by rewrite !blocked_put, !put_put.
Qed.

Lemma exclusive_at {A} (body : world H -> outcome (world H) (A * Z)) w fp f t h r h' :
  unlocked f -> quiet w ->
  body (at_h (blocked w) fp (lock f) t h) = Ret r (at_h (blocked w) fp (lock f) t h') ->
  exclusive fp body (at_h w fp f t h) = Ret r.1 (set_errno (at_h w fp f t h') r.2).
Proof. intros Hu Hq Hb. unfold exclusive. by rewrite (held_at _ _ _ _ _ _ r h'). Qed.

Lemma set_errno_at w fp f t h e : set_errno (at_h w fp f t h) e = at_h (set_errno w e) fp f t h.
Proof. done. Qed.

End Handles.

Create Rewrite HintDb handles.
#[export] Hint Rewrite @last_error_at @IsInteractive_at @HANDLER_NIL_at @ttyflags_at @is_seek_error_at
  @at_h_lookup : handles.

(** Reduce the queries on a handle. *)
Ltac on_h := repeat (progress (autorewrite with handles; cbn [obind fst snd])).

Section Bodies.
Context {H : Type} {on_file : H -> list Z -> Z -> Prop} {on_tty : H -> list Z -> Prop}.
Context `{!DosOps H} `{!DosLaws H on_file on_tty}.
Implicit Types (w : world H) (f : file H) (h : H).

(** Seek within the file, and outside. *)
Lemma Seek_in w fp f t h c p off mode q :
  on_file h c p -> q = seek_target #c p off mode -> 0 <= q <= #c ->
  exists h', Seek fp off mode (at_h w fp f t h) = Ret p (at_h w fp f t h') /\ on_file h' c q.
Proof. intros Ho -> Hr. destruct (file_seek h c p off mode Ho Hr) as (h' & E & ?). exists h'. by rewrite (Seek_at _ _ _ _ _ _ _ _ _ E). Qed.

Lemma Seek_out w fp f t h c p off mode :
  on_file h c p -> ~ (0 <= seek_target #c p off mode <= #c) ->
  exists h', Seek fp off mode (at_h w fp f t h) = Ret (-1) (at_h w fp f t h') /\
    dos_IoErr h' = ERROR_SEEK_ERROR /\ on_file h' c p.
Proof. intros Ho Hr. destruct (file_seek_error h c p off mode Ho Hr) as (h' & E & ?). exists h'. by rewrite (Seek_at _ _ _ _ _ _ _ _ _ E). Qed.

(** Seek (0, OFFSET_CURRENT) tells the position, Seek (0, OFFSET_END) goes to
    the end. *)
Lemma Seek_tell w fp f t h c p :
  on_file h c p -> exists h', Seek fp 0 OFFSET_CURRENT (at_h w fp f t h) = Ret p (at_h w fp f t h') /\ on_file h' c p.
Proof.
  intros Ho. destruct (file_handle _ _ _ Ho) as (? & _). apply (Seek_in _ _ _ _ _ _ _ _ _ p Ho); [|done].
  unfold seek_target, OFFSET_CURRENT. cbn. lia.
Qed.
Lemma Seek_eof w fp f t h c p :
  on_file h c p -> exists h', Seek fp 0 OFFSET_END (at_h w fp f t h) = Ret p (at_h w fp f t h') /\ on_file h' c #c.
Proof.
  intros Ho. destruct (file_handle _ _ _ Ho) as (? & _). apply (Seek_in _ _ _ _ _ _ _ _ _ #c Ho); [|lia].
  unfold seek_target, OFFSET_END. cbn. lia.
Qed.

(** ** lseek *)

Definition base_of (c : list Z) (p dir : Z) : Z :=
  if dir =? SEEK_SET then 0 else if dir =? SEEK_CUR then p else #c.
(** The switch leaves the pointer at the end of the file for SEEK_END. *)
Definition looked_at (c : list Z) (p dir : Z) : Z := if dir =? SEEK_END then #c else p.

Lemma previous_position_spec w fp f t h c p dir :
  on_file h c p -> 0 <= dir <= 2 ->
  exists h' e, previous_position fp dir (at_h w fp f t h) = Ret (Some (base_of c p dir, e)) (at_h w fp f t h') /\
    on_file h' c (looked_at c p dir).
Proof.
  intros Ho Hd. unfold previous_position, base_of, looked_at.
  assert (dir = 0 \/ dir = 1 \/ dir = 2) as [-> | [-> | ->]] by lia; cbn [Z.eqb Pos.eqb SEEK_SET SEEK_CUR SEEK_END].
  - exists h, 0. done.
  - destruct (Seek_tell w fp f t h c p Ho) as (h' & -> & Ho'). on_h. eauto.
  - destruct (Seek_eof w fp f t h c p Ho) as (h1 & -> & Ho1). on_h.
    destruct (Seek_tell w fp f t h1 c _ Ho1) as (h2 & -> & Ho2). on_h. eauto.
Qed.

Lemma target_base c p off dir :
  0 <= dir <= 2 -> seek_target #c (looked_at c p dir) off (dir - 1) = base_of c p dir + off.
Proof.
  intros Hd. unfold seek_target, looked_at, base_of, OFFSET_BEGINNING, OFFSET_CURRENT, SEEK_SET, SEEK_CUR, SEEK_END.
  repeat case_match; lia.
Qed.

(** A position inside the file. *)
Lemma lseek_inside w fp f t h c p avail off dir :
  on_file h c p -> 0 <= dir <= 2 -> 0 <= base_of c p dir + off <= #c ->
  exists h', lseek_handle avail fp off dir (at_h w fp f t h) = Ret (base_of c p dir + off, 0) (at_h w fp f t h') /\
    on_file h' c (base_of c p dir + off).
Proof.
  intros Ho Hd Ht. destruct (file_handle _ _ _ Ho) as (Hp & Hc & _). unfold lseek_handle.
  destruct (previous_position_spec w fp f t h c p dir Ho Hd) as (h1 & e & -> & Ho1). on_h.
  assert (0 <= base_of c p dir) by (unfold base_of; repeat case_match; lia).
  rewrite s32_id by (unfold is_s32; lia). rewrite (proj2 (Z.ltb_ge _ _)), (proj2 (Z.leb_le 0 _)) by lia. cbn [negb].
  destruct (Seek_in w fp f t h1 c _ off (dir - 1) _ Ho1 (eq_sym (target_base c p off dir Hd)) Ht) as (h2 & -> & Ho2).
  on_h. assert (0 <= looked_at c p dir) by (unfold looked_at; case_match; lia).
  rewrite (proj2 (Z.eqb_neq (looked_at c p dir) (-1))) by lia. cbn [andb]. on_h.
  rewrite (proj2 (Z.eqb_neq (looked_at c p dir) (-1))) by lia.
  destruct (Z.eqb_spec (base_of c p dir) (base_of c p dir + off)) as [Heq|Hne]; cbn [negb]; [by eauto|].
  destruct (Seek_tell w fp f t h2 c _ Ho2) as (h3 & -> & Ho3). on_h.
  rewrite (proj2 (Z.eqb_neq (base_of c p dir + off) (-1))), Z.ltb_irrefl by lia.
  rewrite andb_false_r. cbn [andb]. eauto.
Qed.

(** A position before the start, or one that does not fit an int. *)
Lemma lseek_invalid w fp f t h c p avail off dir :
  on_file h c p -> 0 <= dir <= 2 -> is_s32 off ->
  base_of c p dir + off < 0 \/ 2 ^ 31 <= base_of c p dir + off ->
  exists h', lseek_handle avail fp off dir (at_h w fp f t h) = Ret (-1, EINVAL) (at_h w fp f t h') /\
    on_file h' c (looked_at c p dir).
Proof.
  intros Ho Hd Hoff Ht. destruct (file_handle _ _ _ Ho) as (Hp & Hc & _). unfold lseek_handle.
  destruct (previous_position_spec w fp f t h c p dir Ho Hd) as (h1 & e & -> & Ho1). on_h.
  assert (0 <= base_of c p dir <= #c) by (unfold base_of; repeat case_match; lia).
  assert (s32 (base_of c p dir + off) < 0) by (unfold is_s32 in Hoff; unfold s32; Z.div_mod_to_equations; lia).
  rewrite (proj2 (Z.ltb_lt _ _)) by done. eauto.
Qed.

(** *** Extending the file *)

Definition zeros (n : Z) : list Z := replicate (Z.to_nat n) 0.

Lemma zeros_add n m : 0 <= n -> 0 <= m -> zeros (n + m) = zeros n ++ zeros m.
Proof. intros. unfold zeros. by rewrite Z2Nat.inj_add, replicate_add by lia. Qed.
Lemma zeros_length n : 0 <= n -> #(zeros n) = n.
Proof. intros. unfold zeros. rewrite length_replicate. lia. Qed.

Lemma overwrite_end c bs : overwrite c #c bs = c ++ bs.
Proof. unfold overwrite. rewrite Nat2Z.id, take_ge, drop_ge by lia. by rewrite app_nil_r. Qed.

Lemma extend_buffer_spec avail n fuel :
  avail 0 = avail 1 -> 0 < n < 2 ^ (Z.of_nat fuel - 1) ->
  (exists b, extend_buffer avail fuel n = Some (Some b) /\ 0 < b <= n) \/ extend_buffer avail fuel n = Some None.
Proof.
  intros H01. revert n. induction fuel as [|fuel IH]; intros n Hn; [change (2 ^ (Z.of_nat 0 - 1)) with 0 in Hn; lia|].
  cbn [extend_buffer]. destruct (avail n) eqn:En; [left; exists n; split; [done|lia]|].
  rewrite (proj2 (Z.eqb_neq _ _)) by lia. destruct (Z.eq_dec n 1) as [->|Hn1].
  - change (Z.shiftr 1 1) with 0. destruct fuel as [|fuel]; [cbn in Hn; lia|]. cbn. rewrite H01, En. by right.
  - rewrite Z.shiftr_div_pow2 by lia. change (2 ^ 1) with 2.
    assert (1 <= Z.of_nat fuel).
    { destruct fuel; [|lia]. change (2 ^ (Z.of_nat 1 - 1)) with 1 in Hn. lia. }
    replace (Z.of_nat (S fuel) - 1) with (Z.succ (Z.of_nat fuel - 1)) in Hn by lia.
    rewrite Z.pow_succ_r in Hn by lia.
    assert (0 < n / 2 < 2 ^ (Z.of_nat fuel - 1)) by (Z.div_mod_to_equations; lia).
    destruct (IH (n / 2)) as [(b & -> & ?)| -> ]; [done| |by right].
    left. exists b. split; [done|]. Z.div_mod_to_equations; lia.
Qed.

Lemma extend_loop_spec w fp f t c add fuel :
  #c + add < 2 ^ 31 -> forall h wr bs res err,
  on_file h (c ++ zeros wr) (#c + wr) -> 0 <= wr <= add -> (wr < add -> 0 < bs <= add - wr) ->
  0 <= res -> add - wr < Z.of_nat fuel ->
  exists r h', extend_loop fuel fp add wr bs res err (at_h w fp f t h) = Ret r (at_h w fp f t h') /\
    ((0 <= r.1 /\ on_file h' (c ++ zeros add) (#c + add)) \/ (r.1 = -1 /\ exists c' p', on_file h' c' p')).
Proof.
  intros Hmax. induction fuel as [|fuel IH]; intros h wr bs res err Ho Hw Hb Hres Hfuel; [lia|].
  cbn [extend_loop]. destruct (Z.ltb_spec wr add) as [Hlt|Hge]; cbn [negb].
  - specialize (Hb Hlt). fold (zeros bs).
    assert (#(c ++ zeros wr) = #c + wr) as Hlen by (rewrite length_app, Nat2Z.inj_add, zeros_length; lia).
    destruct (file_write h _ _ (zeros bs) Ho) as (h' & [[E Ho']|[E Hbad]]); [rewrite zeros_length; lia ..| |].
    + rewrite (Write_at _ _ _ _ _ _ _ _ E). cbn [obind]. rewrite zeros_length by lia.
      rewrite (proj2 (Z.ltb_ge _ _)) by lia. rewrite <- Hlen, overwrite_end, Hlen, <- app_assoc, <- zeros_add, zeros_length in Ho' by lia.
      apply IH; [by rewrite Z.add_assoc|lia| |lia ..].
      intros. destruct (Z.ltb_spec bs (add - (wr + bs))); lia.
    + rewrite (Write_at _ _ _ _ _ _ _ _ E). cbn [obind]. rewrite (proj2 (Z.ltb_lt _ _)) by lia. on_h.
      eexists _, h'. split; [done|]. by right.
  - eexists _, h. split; [done|]. left. split; [done|]. by replace add with wr by lia.
Qed.

Lemma extend_file_spec w fp f t h c avail add err :
  on_file h c #c -> avail 0 = avail 1 -> 0 < add -> #c + add < 2 ^ 31 ->
  exists r h', __extend_file avail fp add err (at_h w fp f t h) = Ret r (at_h w fp f t h') /\
    ((r.1 = #c + add /\ on_file h' (c ++ zeros add) (#c + add)) \/ (r.1 = -1 /\ exists c' p', on_file h' c' p')).
Proof.
  intros Ho Ha Hadd Hmax. unfold __extend_file.
  set (bs := if 32 * 1024 <? add then 32 * 1024 else add).
  assert (0 < bs <= add /\ bs <= 32768) by (subst bs; destruct (Z.ltb_spec (32 * 1024) add); lia).
  destruct (extend_buffer_spec avail bs 17 Ha) as [(b & -> & Hb)| -> ]; [change (2 ^ (Z.of_nat 17 - 1)) with 65536; lia| |].
  - destruct (extend_loop_spec w fp f t c add (S (Z.to_nat add)) Hmax h 0 b 0 err) as (r & h1 & -> & Hr);
      [by change (zeros 0) with (@nil Z); rewrite app_nil_r, Z.add_0_r|lia ..|].
    cbn [obind]. destruct r as [res e]. cbn [fst] in Hr. destruct Hr as [[Hres Ho1]|[-> Hbad]].
    + rewrite (proj2 (Z.leb_le _ _)) by lia.
      assert (#(c ++ zeros add) = #c + add) as Hlen by (rewrite length_app, Nat2Z.inj_add, zeros_length; lia).
      destruct (Seek_eof w fp f t h1 _ _ Ho1) as (h2 & -> & Ho2). on_h.
      destruct (Seek_eof w fp f t h2 _ _ Ho2) as (h3 & -> & Ho3). on_h. rewrite Hlen in *.
      eexists _, h3. split; [done|]. by left.
    + cbn. eexists _, h1. split; [done|]. by right.
  - eexists _, h. split; [done|]. right. eauto.
Qed.

(** A position behind the end. *)
Lemma lseek_beyond w fp f t h c p avail off dir :
  on_file h c p -> 0 <= dir <= 2 -> avail 0 = avail 1 ->
  #c < base_of c p dir + off < 2 ^ 31 ->
  let q := base_of c p dir + off in
  exists r h', lseek_handle avail fp off dir (at_h w fp f t h) = Ret r (at_h w fp f t h') /\
    if bset (f_flags f) FWRITE
    then (r.1 = q /\ on_file h' (c ++ zeros (q - #c)) q) \/ (r.1 = -1 /\ exists c' p', on_file h' c' p')
    else r = (#c, 0) /\ on_file h' c #c.
Proof.
  intros Ho Hd Ha Ht q. destruct (file_handle _ _ _ Ho) as (Hp & Hc & _). unfold lseek_handle.
  destruct (previous_position_spec w fp f t h c p dir Ho Hd) as (h1 & e & -> & Ho1). on_h. fold q.
  assert (0 <= base_of c p dir <= #c) by (unfold base_of; repeat case_match; lia).
  rewrite s32_id by (unfold is_s32; lia). rewrite (proj2 (Z.ltb_ge _ _)), (proj2 (Z.leb_le 0 _)) by lia. cbn [negb].
  destruct (Seek_out w fp f t h1 c _ off (dir - 1) Ho1) as (h2 & -> & He & Ho2);
    [rewrite target_base by done; lia|].
  on_h. rewrite bool_decide_eq_true_2 by done. cbn [andb].
  change (-1 =? -1) with true. cbn [andb]. destruct (Seek_eof w fp f t h2 c _ Ho2) as (h3 & -> & Ho3). on_h.
  assert (0 <= looked_at c p dir) by (unfold looked_at; case_match; lia).
  rewrite (proj2 (Z.eqb_neq (looked_at c p dir) (-1))), (proj2 (Z.eqb_neq (base_of c p dir) q)) by lia. cbn [negb].
  destruct (Seek_tell w fp f t h3 c _ Ho3) as (h4 & -> & Ho4). on_h.
  rewrite (proj2 (Z.eqb_neq #c (-1))), (proj2 (Z.leb_le 0 #c)), (proj2 (Z.ltb_lt #c q)) by lia. cbn [andb].
  change (f_flags (set_fh f _)) with (f_flags f).
  destruct (bset (f_flags f) FWRITE).
  - destruct (extend_file_spec w fp f t h4 c avail (q - #c) 0 Ho4 Ha) as (r & h5 & -> & Hr); [lia ..|].
    replace (#c + (q - #c)) with q in Hr by lia. eauto.
  - eexists _, h4. done.
Qed.

(** ** Reading and writing a file on disk *)

(** No translation: packet mode is off, and no carriage return is replaced. *)
Definition plain (t : Z) : Prop :=
  bset t IXTTY_PKT = false /\ bset t IXTTY_INLCR = false /\ bset t IXTTY_RAW && bset t IXTTY_ICRNL = false.

Lemma set_errno_same w : set_errno w (w_errno w) = w.
Proof. by destruct w. Qed.

(** What is at the pointer. *)
Definition next_bytes (c : list Z) (p len : Z) : list Z := take (Z.to_nat len) (drop (Z.to_nat p) c).

Lemma read_disk w fp f t h c p len :
  on_file h c p -> plain t -> unlocked f -> quiet w -> 0 <= len ->
  exists h', (__read fp len (at_h w fp f t h) = Ret (#(next_bytes c p len), next_bytes c p len) (at_h w fp f t h') /\
              on_file h' c (p + #(next_bytes c p len))) \/
    (exists e, __read fp len (at_h w fp f t h) = Ret (-1, []) (set_errno (at_h w fp f t h') e) /\ on_file h' c p).
Proof.
  intros Ho (Ht1 & Ht2 & Ht3) Hu Hq Hlen. destruct (file_handle _ _ _ Ho) as (Hp & Hc & Hnil & Hint).
  assert (forall r h1 e, read_handle fp len (w_errno w) (at_h (blocked w) fp (lock f) t h) =
            Ret (r, e) (at_h (blocked w) fp (lock f) t h1) ->
            __read fp len (at_h w fp f t h) = Ret r (set_errno (at_h w fp f t h1) e)) as Hgo.
  { intros r h1 e E. unfold __read. on_h. rewrite Hnil.
    rewrite (exclusive_at _ _ _ _ _ _ (r, e) h1) by done. cbn [obind fst snd]. rewrite set_errno_at. on_h.
    rewrite Ht1. unfold translate. rewrite Ht2, Ht3, andb_false_r, !andb_false_r. by destruct r. }
  unfold next_bytes. destruct (Z.eq_dec len 0) as [->|Hl0].
  - exists h. left. rewrite (Hgo (0, []) h (w_errno w)); cbn; [|unfold read_handle; on_h; by rewrite Ht1].
    rewrite Z.add_0_r. split; [|done]. change (w_errno w) with (w_errno (at_h w fp f t h)). by rewrite set_errno_same.
  - destruct (file_read h c p len Ho) as (h' & [[E Ho']|[E Ho']]); [lia|..]; exists h'.
    + left. split; [|done]. rewrite (Hgo (#(take (Z.to_nat len) (drop (Z.to_nat p) c)), take (Z.to_nat len) (drop (Z.to_nat p) c)) h' (w_errno w)).
      { change (w_errno w) with (w_errno (at_h w fp f t h')). by rewrite set_errno_same. }
      unfold read_handle. on_h. rewrite Ht1, (proj2 (Z.ltb_lt _ _)) by lia. on_h. rewrite Hint. cbn [andb].
      rewrite (Read_at _ _ _ _ _ _ _ _ E). on_h. by rewrite (proj2 (Z.eqb_neq _ (-1))) by lia.
    + right. eexists. split; [|done]. apply Hgo.
      unfold read_handle. on_h. rewrite Ht1, (proj2 (Z.ltb_lt _ _)) by lia. on_h. rewrite Hint. cbn [andb].
      by rewrite (Read_at _ _ _ _ _ _ _ _ E); on_h.
Qed.

(** Where a write goes. *)
Definition write_pos (f : file H) (c : list Z) (p : Z) : Z := if bset (f_flags f) FAPPEND then #c else p.

Lemma write_pos_ok f c p : 0 <= p <= #c -> 0 <= write_pos f c p <= #c.
Proof. unfold write_pos. case_match; lia. Qed.

(** The device has answered a Write of [bs] at [q] with an error, and left [h']. *)
Definition write_failed (c : list Z) (q : Z) (bs : list Z) (h' : H) : Prop :=
  exists h1, on_file h1 c q /\ dos_Write bs h1 = (-1, h').

Lemma sync_write_disk w fp f t h c p bs :
  on_file h c p -> unlocked f -> quiet w -> write_pos f c p + #bs < 2 ^ 31 -> 0 < #bs ->
  exists h', (__do_sync_write fp bs (at_h w fp f t h) = Ret #bs (at_h w fp f t h') /\
              on_file h' (overwrite c (write_pos f c p) bs) (write_pos f c p + #bs)) \/
    (exists e, __do_sync_write fp bs (at_h w fp f t h) = Ret (-1) (set_errno (at_h w fp f t h') e) /\
       write_failed c (write_pos f c p) bs h' /\ exists c' p', on_file h' c' p').
Proof.
  intros Ho Hu Hq Hmax Hbs. unfold __do_sync_write.
  assert (exists h1, (if bset (f_flags f) FAPPEND then Seek fp 0 OFFSET_END (at_h (blocked w) fp (lock f) t h)
            else Ret 0 (at_h (blocked w) fp (lock f) t h)) = Ret (if bset (f_flags f) FAPPEND then p else 0) (at_h (blocked w) fp (lock f) t h1) /\
            on_file h1 c (write_pos f c p)) as (h1 & E1 & Ho1).
  { unfold write_pos. case_match; [by apply Seek_eof|by exists h]. }
  destruct (file_write h1 c _ bs Ho1 Hbs Hmax) as (h' & [[E Ho']|[E Hbad]]); exists h'.
  - left. split; [|done]. rewrite (exclusive_at _ _ _ _ _ _ (#bs, w_errno w) h'); [|done..|].
    { cbn [fst snd]. change (w_errno w) with (w_errno (at_h w fp f t h')). by rewrite set_errno_same. }
    unfold sync_write_body. rewrite (proj2 (Z.ltb_lt _ _)) by lia. on_h. cbn [f_flags set_fh lock set_sync].
    rewrite E1. cbn [obind]. rewrite (Write_at _ _ _ _ _ _ _ _ E). on_h. by rewrite (proj2 (Z.eqb_neq _ (-1))) by lia.
  - right. eexists. split; [|split; [by exists h1|done]]. rewrite (exclusive_at _ _ _ _ _ _ (-1, __ioerr_to_errno (dos_IoErr h')) h'); [done..|].
    unfold sync_write_body. rewrite (proj2 (Z.ltb_lt _ _)) by lia. on_h. cbn [f_flags set_fh lock set_sync].
    rewrite E1. cbn [obind]. rewrite (Write_at _ _ _ _ _ _ _ _ E). by on_h.
Qed.

(** ** ftruncate *)

Lemma ftruncate_spec w fp f t h c p len :
  on_file h c p -> 0 <= len < 2 ^ 31 ->
  exists r h', ftruncate_body fp len (at_h w fp f t h) = Ret r (at_h w fp f t h') /\
    ((r = (0, 0) /\ exists fill, #fill = Z.max 0 (len - #c) /\ on_file h' (take (Z.to_nat len) c ++ fill) (Z.min p len)) \/
     (r.1 = -1 /\ on_file h' c p)).
Proof.
  intros Ho Hl. destruct (file_handle _ _ _ Ho) as (Hp & Hc & _). unfold ftruncate_body.
  destruct (Seek_in w fp f t h c p 0 OFFSET_BEGINNING 0 Ho) as (h1 & -> & Ho1); [done|lia|]. on_h.
  destruct (file_size h1 c 0 len Ho1 Hl) as (h2 & [[E (fill & p' & Hf & Ho2)]|[E (p' & Ho2)]]);
    rewrite (SetFileSize_at _ _ _ _ _ _ _ _ _ E); on_h.
  - rewrite (proj2 (Z.eqb_neq len (-1))) by lia. cbn [negb].
    assert ((if len <? p then len else p) = Z.min p len) as -> by (destruct (Z.ltb_spec len p); lia).
    rewrite (proj2 (Z.eqb_neq (Z.min p len) (-1))) by lia. cbn [negb].
    assert (#(take (Z.to_nat len) c ++ fill) = len) as Hlen by (rewrite length_app, length_take; lia).
    destruct (Seek_in w fp f t h2 _ _ (Z.min p len) OFFSET_BEGINNING (Z.min p len) Ho2) as (h3 & -> & Ho3); [done|lia|].
    cbn [obind]. eexists _, h3. split; [done|]. left. eauto.
  - change (-1 =? -1) with true. cbn [negb]. rewrite (proj2 (Z.eqb_neq p (-1))) by lia. cbn [negb].
    destruct (Seek_in w fp f t h2 _ _ p OFFSET_BEGINNING p Ho2) as (h3 & -> & Ho3); [done|lia|].
    cbn [obind]. eexists _, h3. split; [done|]. by right.
Qed.

(** ** FIONREAD *)

Lemma fio_fionread_spec w fp f t h c p err :
  on_file h c p ->
  exists h', fioctl_body fp FIONREAD err (at_h w fp f t h) = Ret ((0, Some 0), err) (at_h w fp f t h') /\ on_file h' c p.
Proof.
  intros Ho. destruct (file_handle _ _ _ Ho) as (Hp & Hc & _ & Hint). unfold fioctl_body. on_h. rewrite Hint. cbn [negb].
  destruct (Seek_tell w fp f t h c p Ho) as (h1 & -> & Ho1). cbn [obind].
  rewrite (proj2 (Z.leb_le 0 p)) by lia.
  destruct (Seek_eof w fp f t h1 c p Ho1) as (h2 & -> & Ho2). cbn [obind].
  rewrite (proj2 (Z.leb_le 0 p)) by lia.
  destruct (Seek_in w fp f t h2 c _ p OFFSET_BEGINNING p Ho2) as (h3 & -> & Ho3); [done|lia|].
  cbn [obind]. rewrite Z.sub_diag. eauto.
Qed.

(** ** The console *)

(** What a character becomes on a console with flags [t]. *)
Definition crlf1 (t c : Z) : list Z :=
  if (c =? NL) && (Z.land t TTY_NLCR_ENABLE =? TTY_NLCR_ENABLE) then [CR; NL] else [c].
Definition crlf (t : Z) (bs : list Z) : list Z := flat_map (crlf1 t) bs.

Lemma crlf_app t a b : crlf t (a ++ b) = crlf t a ++ crlf t b.
Proof. apply flat_map_app. Qed.

Lemma crlf_plain t s : Forall (fun c => crlf1 t c = [c]) s -> crlf t s = s.
Proof. unfold crlf. induction 1 as [|c s Hc _ IH]; [done|]. cbn. by rewrite Hc, IH. Qed.

Lemma line_bytes_plain t n p :
  (line_bytes n p <= length p)%nat /\ Forall (fun c => crlf1 t c = [c]) (take (line_bytes n p) p).
Proof.
  revert p. induction n as [|n IH]; intros [|c p]; cbn; try (split; [lia|constructor]).
  destruct (Z.eqb_spec c NL) as [->|Hc]; [split; [lia|constructor]|].
  destruct (IH p) as [? ?]. cbn. split; [lia|]. constructor; [|done].
  unfold crlf1. by rewrite (proj2 (Z.eqb_neq _ _)).
Qed.

(** The next [n] writes on the console are accepted in full. *)
Fixpoint accepts (n : nat) (h : H) : Prop :=
  match n with
  | O => True
  | S n => forall bs, 0 < #bs -> exists h', dos_Write bs h = (#bs, h') /\ accepts n h'
  end.

Lemma accepts_le n m h : (m <= n)%nat -> accepts n h -> accepts m h.
Proof.
  revert n h. induction m as [|m IH]; intros [|n] h Hle Ha; [done|done|lia|].
  intros bs Hbs. destruct (Ha bs Hbs) as (h' & E & Hn). exists h'. split; [done|]. apply (IH n); [lia|done].
Qed.

Lemma sync_write_tty w fp f t h out bs :
  on_tty h out -> bset (f_flags f) FAPPEND = false -> unlocked f -> quiet w -> 0 < #bs ->
  exists n (k : nat) h' e, __do_sync_write fp bs (at_h w fp f t h) = Ret n (at_h (set_errno w e) fp f t h') /\
    dos_Write bs h = (n, h') /\ (n = Z.of_nat k \/ n = -1) /\ (k <= length bs)%nat /\ on_tty h' (out ++ take k bs).
Proof.
  intros Ho Hf Hu Hq Hbs. destruct (tty_write h out bs Ho Hbs) as (n & k & h' & E & Hn & Hk & Ho').
  unfold __do_sync_write. eexists n, k, h', _. split; [|done].
  rewrite (exclusive_at _ _ _ _ _ _ (n, if n =? -1 then __ioerr_to_errno (dos_IoErr h') else w_errno w) h'); [done..|].
  unfold sync_write_body. rewrite (proj2 (Z.ltb_lt _ _)) by lia. on_h. cbn [f_flags set_fh lock set_sync].
  rewrite Hf. cbn [obind]. rewrite (Write_at _ _ _ _ _ _ _ _ E). by on_h.
Qed.

(** What the console shows when [p] was to be written: all of it, or a prefix
    that agrees with the count returned, apart from a single carriage return. *)
Definition shown (t : Z) (p out : list Z) (h' : H) (r : Z) : Prop :=
  (r = -1 /\ exists k, on_tty h' (out ++ take k (crlf t p))) \/
  (exists (k : nat) ex, (k <= length p)%nat /\ r = Z.of_nat k /\ (ex = [] \/ ex = [CR]) /\
     on_tty h' (out ++ crlf t (take k p) ++ ex)).

Lemma shown_step t p b out h' r :
  (b <= length p)%nat -> shown t (drop b p) (out ++ crlf t (take b p)) h' r ->
  shown t p out h' (if r =? -1 then -1 else Z.of_nat b + r).
Proof.
  intros Hb [[-> (k & Hk)]|(k & ex & Hk & -> & Hex & Ho)].
  - left. split; [done|]. exists (length (crlf t (take b p)) + k)%nat.
    assert (crlf t p = crlf t (take b p) ++ crlf t (drop b p)) as -> by by rewrite <- crlf_app, take_drop.
    by rewrite take_app_add, app_assoc.
  - right. rewrite (proj2 (Z.eqb_neq _ _)) by lia. rewrite length_drop in Hk.
    exists (b + k)%nat, ex. split; [lia|]. split; [lia|]. split; [done|].
    rewrite <- take_take_drop, crlf_app. by rewrite <- !app_assoc in *.
Qed.

(** One chunk: [b] bytes of [p] are written as [ws]; [short k] is what the code
    counts when [k] bytes of [ws] are taken. *)
Lemma chunk_spec w fp f t h out p b ws (short : nat -> Z) :
  on_tty h out -> bset (f_flags f) FAPPEND = false -> unlocked f -> quiet w -> 0 < #ws ->
  crlf t (take b p) = ws ->
  (forall k h1, (k < length ws)%nat -> on_tty h1 (out ++ take k ws) -> shown t p out h1 (short k)) ->
  exists n h1 e, __do_sync_write fp ws (at_h w fp f t h) = Ret n (at_h (set_errno w e) fp f t h1) /\
    ((n = -1 /\ (forall m, ~ accepts (S m) h) /\ shown t p out h1 (-1)) \/
     (exists k, n = Z.of_nat k /\ (k < length ws)%nat /\ (forall m, ~ accepts (S m) h) /\ shown t p out h1 (short k)) \/
     (n = #ws /\ (forall m, accepts (S m) h -> accepts m h1) /\ on_tty h1 (out ++ ws))).
Proof.
  intros Ho Hf Hu Hq Hws Hc Hshort.
  destruct (sync_write_tty w fp f t h out ws Ho Hf Hu Hq Hws) as (n & k & h1 & e & E1 & E & Hn & Hk & Ho1).
  exists n, h1, e. split; [done|].
  assert (forall m, accepts (S m) h -> n = #ws /\ accepts m h1) as Hacc.
  { intros m Ha. destruct (Ha ws Hws) as (h2 & E2 & ?). rewrite E in E2. injection E2 as -> ->. done. }
  destruct Hn as [->| ->]; [destruct (decide (k = length ws)) as [->|Hne]|].
  - right. right. split; [done|]. split; [intros m Ha; by apply Hacc|]. by rewrite take_ge in Ho1 by lia.
  - right. left. exists k. split; [done|]. split; [lia|]. split; [intros m Ha%Hacc; lia|]. apply Hshort; [lia|done].
  - left. split; [done|]. split; [intros m Ha%Hacc; lia|]. left. split; [done|].
    exists k. assert (crlf t p = ws ++ crlf t (drop b p)) as -> by by rewrite <- Hc, <- crlf_app, take_drop.
    by rewrite take_app_le by lia.
Qed.

Lemma shown_short t p b out h1 k :
  (b <= length p)%nat -> Forall (fun c => crlf1 t c = [c]) (take b p) -> (k < b)%nat ->
  on_tty h1 (out ++ take k (take b p)) -> shown t p out h1 (Z.of_nat k).
Proof.
  intros Hb Hpl Hk Ho. right. exists k, []. split; [lia|]. split; [done|]. split; [by left|].
  rewrite app_nil_r, take_take in *. rewrite Nat.min_l in Ho by lia.
  rewrite crlf_plain; [done|]. apply (Forall_take _ k) in Hpl. by rewrite take_take, Nat.min_l in Hpl by lia.
Qed.

(** The post-condition of the loop, and how a full chunk extends it. *)
Definition loop_shown (t : Z) (p out : list Z) (h h' : H) (r : Z) : Prop :=
  (accepts (length p) h -> r = #p /\ on_tty h' (out ++ crlf t p)) /\ shown t p out h' r.

Lemma loop_shown_step t p b ws out h h1 h' r :
  (0 < b <= length p)%nat -> crlf t (take b p) = ws -> (forall m, accepts (S m) h -> accepts m h1) ->
  loop_shown t (drop b p) (out ++ ws) h1 h' r ->
  loop_shown t p out h h' (if r =? -1 then -1 else Z.of_nat b + r).
Proof.
  intros Hb <- Hacc [Hfull Hsh]. split; [|apply shown_step; [lia|done]].
  intros Ha. destruct Hfull as [-> Ho].
  { apply Hacc. apply (accepts_le (length p)); [rewrite length_drop; lia|done]. }
  rewrite (proj2 (Z.eqb_neq _ _)) by lia. split; [rewrite length_drop; lia|].
  by rewrite <- app_assoc, <- crlf_app, take_drop in Ho.
Qed.

Lemma loop_result res b r :
  0 <= b -> (r = -1 \/ 0 <= r) ->
  (if r =? -1 then -1 else res + b + r) = (if (if r =? -1 then -1 else b + r) =? -1 then -1 else res + (if r =? -1 then -1 else b + r)).
Proof. intros Hb [->|Hr]; [done|]. rewrite !(proj2 (Z.eqb_neq _ _)) by lia. lia. Qed.

Lemma shown_range t p out h' r : shown t p out h' r -> r = -1 \/ 0 <= r.
Proof. intros [[-> _]|(k & ? & _ & -> & _)]; [by left|right; lia]. Qed.

Lemma tty_loop_spec fp f t fuel :
  bset (f_flags f) FAPPEND = false -> unlocked f -> forall p w h out res,
  (length p <= fuel)%nat -> on_tty h out -> quiet w -> 0 <= res ->
  exists r h' e, tty_loop fuel fp p res (at_h w fp f t h) =
      Ret (if r =? -1 then -1 else res + r) (at_h (set_errno w e) fp f t h') /\ loop_shown t p out h h' r.
Proof.
  intros Hf Hu. induction fuel as [|fuel IH]; intros p w h out res Hp Ho Hq Hres.
  all: destruct p as [|c p1]; [|try (cbn in Hp; lia)].
  1, 2: exists 0, h, (w_errno w); cbn; rewrite set_errno_same, !Z.add_0_r; split; [done|];
    split; [by rewrite app_nil_r|]; right; exists 0%nat, []; cbn; rewrite app_nil_r; repeat split; [lia|by left|done].
  set (p := c :: p1) in *. cbn [tty_loop]. unfold p at 1. fold p. on_h.
  destruct ((c =? NL) && (Z.land t TTY_NLCR_ENABLE =? TTY_NLCR_ENABLE)) eqn:Ec.
  - assert (crlf t (take 1 p) = [CR; NL]) as Hs by (cbn; unfold crlf1; by rewrite Ec).
    destruct (chunk_spec w fp f t h out p 1 [CR; NL] (fun _ => 0) Ho Hf Hu Hq) as
      (n & h1 & e & -> & [(-> & Hno & Hsh)|[(k & -> & Hk & Hno & Hsh)|(-> & Hacc & Ho1)]]); [done|done| |..]; cbn [obind].
    + intros k h1 Hk Ho1. right. exists 0%nat, (take k [CR; NL]). split; [lia|]. split; [done|]. split; [|done].
      cbn in Hk. destruct k as [|[|k]]; [by left|by right|lia].
    + exists (-1), h1, e. split; [done|]. split; [|done]. by intros ?%Hno.
    + rewrite (proj2 (Z.eqb_neq _ (-1))), (proj2 (Z.eqb_neq _ 2)) by (cbn in Hk; lia). cbn.
      exists 0, h1, e. split; [done|]. split; [|done]. by intros ?%Hno.
    + change (Z.of_nat (length [CR; NL]) =? -1) with false. change (Z.of_nat (length [CR; NL]) =? 2) with true. cbn iota.
      change (negb (1 =? 1)) with false. cbn iota.
      destruct (IH p1 (set_errno w e) h1 (out ++ [CR; NL]) (res + 1)) as (r & h2 & e2 & -> & Hsh); [cbn in Hp; lia|done|done|lia|].
      exists (if r =? -1 then -1 else Z.of_nat 1 + r), h2, e2.
      rewrite <- (loop_result res (Z.of_nat 1) r) by (try lia; by eapply shown_range, Hsh).
      split; [done|]. eapply loop_shown_step; [cbn; lia|done|done|done].
  - set (b := if c =? NL then 1%nat else line_bytes 256 p).
    assert ((0 < b <= length p)%nat /\ Forall (fun c => crlf1 t c = [c]) (take b p)) as [Hb Hpl].
    { subst b. destruct (Z.eqb_spec c NL) as [->|Hc].
      - split; [cbn; lia|]. cbn. repeat constructor. unfold crlf1. cbn [andb] in Ec. by rewrite Z.eqb_refl, Ec.
      - destruct (line_bytes_plain t 256 p). split; [|done]. split; [|done].
        unfold p. cbn. rewrite (proj2 (Z.eqb_neq _ _)) by done. lia. }
    rewrite (proj2 (Nat.eqb_neq b 0)) by lia.
    assert (length (take b p) = b) as Hlen by (rewrite length_take; lia).
    destruct (chunk_spec w fp f t h out p b (take b p) Z.of_nat Ho Hf Hu Hq) as
      (n & h1 & e & -> & [(-> & Hno & Hsh)|[(k & -> & Hk & Hno & Hsh)|(-> & Hacc & Ho1)]]);
      [lia|by apply crlf_plain| |..]; cbn [obind].
    + intros k h1 Hk Ho1. apply (shown_short t p b); [lia|done|lia|done].
    + exists (-1), h1, e. split; [done|]. split; [|done]. by intros ?%Hno.
    + rewrite (proj2 (Z.eqb_neq _ (-1))), (proj2 (Z.eqb_neq _ (Z.of_nat b))) by lia. cbn [negb].
      exists (Z.of_nat k), h1, e. rewrite (proj2 (Z.eqb_neq _ (-1))) by lia. split; [done|]. split; [|done]. by intros ?%Hno.
    + rewrite Hlen, (proj2 (Z.eqb_neq _ (-1))), Z.eqb_refl by lia. cbn [negb].
      destruct (IH (drop b p) (set_errno w e) h1 (out ++ take b p) (res + Z.of_nat b)) as (r & h2 & e2 & -> & Hsh);
        [rewrite length_drop; lia|done|done|lia|].
      exists (if r =? -1 then -1 else Z.of_nat b + r), h2, e2.
      rewrite <- (loop_result res (Z.of_nat b) r) by (try lia; by eapply shown_range, Hsh).
      split; [done|]. eapply loop_shown_step; [lia|by apply crlf_plain|done|done].
Qed.

End Bodies.
