(* ===== verification/FileioTheorems.v ===== *)
(** * File input and output: theorems

    What lseek, read, write, writev, ftruncate and ioctl promise for a
    descriptor of a file on disk or of a console, for every implementation of
    the handle that obeys [DosLaws]; the witnesses use [ram_handle]. *)

From S2P Require Import Prelude Descrip Dos Fileio FileioProofs.
Import Fio.

(** The descriptor [fd] refers to the file structure [f] at [fp], which nobody
    has locked, and its handle is [h]. *)
Definition opened {H} (w : world H) (fd fp : Z) (f : file H) (t : Z) (h : H) : Prop :=
  open_file (cur_ofile w) fd = Some fp /\ files w !! fp = Some f /\ f__fh f = FH h t /\
  unlocked f /\ quiet w.

(** write clears the flag that asks for the time of the file to be set. *)
Definition clean {H} (f : file H) : file H := set_dirty f (bclr (f_stb_dirty f) FSDF_UTIME).

Section Calls.
Context {H : Type} {on_file : H -> list Z -> Z -> Prop} {on_tty : H -> list Z -> Prop}.
Context `{!DosOps H} `{!DosLaws H on_file on_tty}.
Implicit Types (w : world H) (f : file H) (h : H).

Lemma opened_id w fd fp f t h : opened w fd fp f t h -> at_h w fp f t h = w.
Proof. intros (_ & ? & ? & _). by apply at_h_id. Qed.

Lemma opened_again w fd fp f t h f' h' e :
  opened w fd fp f t h -> unlocked f' ->
  opened (set_errno (at_h w fp f' t h') e) fd fp (set_fh f' (FH h' t)) t h'.
Proof.
  intros (Ho & _ & _ & _ & Hq) Hu. split; [done|]. split; [apply at_h_lookup|]. by repeat split.
Qed.

(** The call reaches the body with the file locked. *)
Lemma lseek_unfold w fd fp f t h avail off dir c p :
  opened w fd fp f t h -> f_type f = DTYPE_FILE -> on_file h c p ->
  lseek avail fd off dir w = exclusive fp (lseek_handle avail fp off dir) (at_h w fp f t h).
Proof.
  intros Hop Hty Ho. pose proof (opened_id _ _ _ _ _ _ Hop) as Hid. destruct Hop as (Hfd & Hf & _).
  pose proof (HANDLER_NIL_at w fp f t h) as Hn. rewrite Hid in *. destruct (file_handle _ _ _ Ho) as (_ & _ & E & _).
  unfold lseek. by rewrite Hfd, Hf, Hty, Hn, E.
Qed.

Lemma lseek_spec w fd fp f t h c p avail off dir :
  opened w fd fp f t h -> f_type f = DTYPE_FILE -> on_file h c p ->
  0 <= dir <= 2 -> is_s32 off -> avail 0 = avail 1 ->
  let q := base_of c p dir + off in
  exists r e h', lseek avail fd off dir w = Ret r (set_errno (at_h w fp f t h') e) /\
    (0 <= q <= #c -> r = q /\ e = 0 /\ on_file h' c q) /\
    (#c < q < 2 ^ 31 ->
       if bset (f_flags f) FWRITE
       then (r = q /\ on_file h' (c ++ zeros (q - #c)) q) \/ (r = -1 /\ exists c' p', on_file h' c' p')
       else r = #c /\ on_file h' c #c) /\
    (q < 0 \/ 2 ^ 31 <= q -> r = -1 /\ e = EINVAL /\ on_file h' c (looked_at c p dir)).
Proof.
  intros Hop Hty Ho Hd Hoff Ha q. rewrite (lseek_unfold _ _ _ _ _ _ _ _ _ _ _ Hop Hty Ho).
  destruct Hop as (_ & _ & _ & Hu & Hq). destruct (file_handle _ _ _ Ho) as (_ & Hc & _).
  assert (q < 0 \/ 2 ^ 31 <= q \/ 0 <= q <= #c \/ #c < q < 2 ^ 31) as Hcases by lia.
  destruct Hcases as [Hneg|[Hbig|[Hin|Hout]]].
  1, 2: destruct (lseek_invalid (blocked w) fp (lock f) t h c p avail off dir Ho Hd Hoff) as (h' & E & Ho'); [fold q; lia|];
    exists (-1), EINVAL, h'; split; [apply (exclusive_at _ _ _ _ _ _ (-1, EINVAL)); done|];
    split; [lia|]; split; [lia|done].
  - destruct (lseek_inside (blocked w) fp (lock f) t h c p avail off dir Ho Hd Hin) as (h' & E & Ho').
    exists q, 0, h'. split; [apply (exclusive_at _ _ _ _ _ _ (q, 0)); done|].
    split; [done|]. split; lia.
  - destruct (lseek_beyond (blocked w) fp (lock f) t h c p avail off dir Ho Hd Ha Hout) as (r & h' & E & Ho').
    fold q in Ho'. exists r.1, r.2, h'. split; [by apply (exclusive_at _ _ _ _ _ _ r)|].
    split; [lia|]. split; [|lia]. intros _. change (f_flags (lock f)) with (f_flags f) in Ho'.
    destruct (bset (f_flags f) FWRITE); [done|]. destruct Ho' as [-> ?]. done.
Qed.

(** ** write *)

Lemma write_unfold w fd fp f t h c p bs :
  opened w fd fp f t h -> f_write f = Some W_write -> on_file h c p ->
  write fd bs w =
    let* (result, w) := __do_sync_write fp bs (at_h w fp f t h) in
    if negb (result =? 0) then
      let? f := files w !! fp in Ret result (put_file w fp (clean f))
    else Ret result w.
Proof.
  intros Hop Hty Ho. pose proof (opened_id _ _ _ _ _ _ Hop) as Hid. destruct Hop as (Hfd & Hf & _).
  pose proof (HANDLER_NIL_at w fp f t h) as Hn. pose proof (IsInteractive_at w fp f t h) as Hi. rewrite Hid in *.
  destruct (file_handle _ _ _ Ho) as (_ & _ & E1 & E2).
  unfold write, __write. by rewrite Hfd, Hf, Hty, Hn, Hi, E1, E2.
Qed.

Lemma put_clean w fp f t h e :
  put_file (set_errno (at_h w fp f t h) e) fp (clean (set_fh f (FH h t))) = set_errno (at_h w fp (clean f) t h) e.
Proof. unfold at_h, put_file, set_files, set_errno. cbn. by rewrite insert_insert_eq. Qed.

Lemma write_disk w fd fp f t h c p bs :
  opened w fd fp f t h -> f_write f = Some W_write -> on_file h c p ->
  write_pos f c p + #bs < 2 ^ 31 -> 0 < #bs ->
  exists h', (write fd bs w = Ret #bs (at_h w fp (clean f) t h') /\
              on_file h' (overwrite c (write_pos f c p) bs) (write_pos f c p + #bs)) \/
    (exists e, write fd bs w = Ret (-1) (set_errno (at_h w fp (clean f) t h') e) /\
       write_failed (on_file := on_file) c (write_pos f c p) bs h' /\ exists c' p', on_file h' c' p').
Proof.
  intros Hop Hw Ho Hmax Hbs. rewrite (write_unfold _ _ _ _ _ _ c p) by done.
  destruct Hop as (_ & _ & _ & Hu & Hq).
  destruct (sync_write_disk w fp f t h c p bs Ho Hu Hq Hmax Hbs) as (h' & [[-> Ho']|(e & -> & Hbad)]); exists h'.
  - left. split; [|done]. cbn [obind]. rewrite (proj2 (Z.eqb_neq _ _)) by lia. cbn [negb]. on_h.
    rewrite <- (set_errno_same (at_h w fp f t h')) at 1. rewrite put_clean. f_equal.
  - right. exists e. split; [|done]. cbn [obind]. change (-1 =? 0) with false. cbn [negb].
    change (files (set_errno (at_h w fp f t h') e)) with (files (at_h w fp f t h')). on_h. by rewrite put_clean.
Qed.

Lemma write_nothing w fd fp f t h c p :
  opened w fd fp f t h -> f_write f = Some W_write -> on_file h c p -> write fd [] w = Ret 0 w.
Proof.
  intros Hop Hw Ho. rewrite (write_unfold _ _ _ _ _ _ c p) by done.
  unfold __do_sync_write. rewrite (exclusive_at _ _ _ _ _ _ (0, w_errno w) h) by (try done; apply Hop).
  cbn. rewrite (opened_id _ _ _ _ _ _ Hop). by rewrite set_errno_same.
Qed.

(** ** read *)

Lemma read_call w fd fp f t h c p len :
  opened w fd fp f t h -> f_read f = Some R_read -> on_file h c p -> plain t -> 0 <= len < 2 ^ 31 ->
  exists h', (read fd len w = Ret (#(next_bytes c p len), next_bytes c p len) (at_h w fp f t h') /\
              on_file h' c (p + #(next_bytes c p len))) \/
    (exists e, read fd len w = Ret (-1, []) (set_errno (at_h w fp f t h') e) /\ on_file h' c p).
Proof.
  intros Hop Hr Ho Ht Hl. pose proof (opened_id _ _ _ _ _ _ Hop) as Hid. destruct Hop as (Hfd & Hf & _ & Hu & Hq).
  unfold read. rewrite Hfd, Hf, Hr, s32_id by (unfold is_s32; lia). rewrite <- Hid.
  destruct (read_disk w fp f t h c p len Ho Ht Hu Hq) as (h' & Hres); [lia|].
  exists h'. by rewrite Hid in *.
Qed.

Lemma next_overwritten c q bs : 0 <= q <= #c -> next_bytes (overwrite c q bs) q #bs = bs.
Proof.
  intros Hq. unfold next_bytes, overwrite. rewrite drop_app_length' by (rewrite length_take; lia).
  by rewrite take_app_length' by lia.
Qed.

Lemma overwrite_app c q a b : 0 <= q <= #c -> overwrite (overwrite c q a) (q + #a) b = overwrite c q (a ++ b).
Proof.
  intros Hq. unfold overwrite. set (n := Z.to_nat q).
  assert (n <= length c)%nat as Hn by lia. replace (Z.to_nat (q + #a)) with (n + length a)%nat by lia.
  assert (length (take n c ++ a) = (n + length a)%nat) as Hl by (rewrite length_app, length_take; lia).
  rewrite (app_assoc (take n c) a). rewrite take_app_length' by lia. rewrite <- (app_assoc (take n c) a). f_equal.
  rewrite <- !app_assoc. do 2 f_equal. rewrite app_assoc, <- Hl, drop_app_add, drop_drop, length_app. f_equal.
  rewrite length_app, length_take. lia.
Qed.

Lemma overwrite_nothing c q : 0 <= q <= #c -> overwrite c q [] = c.
Proof. intros. unfold overwrite. cbn. by rewrite Nat.add_0_r, take_drop. Qed.

Lemma fio_clean_twice f : clean (clean f) = clean f.
Proof. unfold clean, set_dirty, bclr. cbn. by rewrite <- Z.land_assoc, Z.land_diag. Qed.

Lemma at_h_set_fh w fp f t u h1 : at_h w fp (set_fh f u) t h1 = at_h w fp f t h1.
Proof. done. Qed.

Lemma at_h_at_h w fp f1 f2 t h1 h2 : at_h (at_h w fp f1 t h1) fp f2 t h2 = at_h w fp f2 t h2.
Proof. unfold at_h. apply put_put. Qed.

(** Where the pointer is after [bs] was written. *)
Definition pos_after (f : file H) (c : list Z) (p : Z) (bs : list Z) : Z :=
  if decide (bs = []) then p else write_pos f c p + #bs.

Lemma write_pos_again f c p a :
  0 <= p <= #c -> write_pos f (overwrite c (write_pos f c p) a) (write_pos f c p + #a) = write_pos f c p + #a.
Proof. intros. unfold write_pos. destruct (bset (f_flags f) FAPPEND); [rewrite overwrite_length; lia|done]. Qed.

Lemma pos_after_write f c p a bs :
  0 <= p <= #c -> a <> [] ->
  pos_after f (overwrite c (write_pos f c p) a) (write_pos f c p + #a) bs = write_pos f c p + #(a ++ bs) /\
  overwrite (overwrite c (write_pos f c p) a) (write_pos f (overwrite c (write_pos f c p) a) (write_pos f c p + #a)) bs =
  overwrite c (write_pos f c p) (a ++ bs).
Proof.
  intros Hp Ha. pose proof (write_pos_ok f c p Hp) as Hw.
  pose proof (write_pos_again f c p a Hp) as E. rewrite E. split; [|by apply overwrite_app]. unfold pos_after. rewrite E. case_decide as Hb; [by subst; rewrite app_nil_r|].
  rewrite length_app. lia.
Qed.

Lemma writev_spec fd fp t iov : forall w f h c p n,
  opened w fd fp f t h -> f_write f = Some W_write -> on_file h c p ->
  write_pos f c p + #(concat iov) < 2 ^ 31 -> 0 <= n ->
  exists f' h', (f' = f \/ f' = clean f) /\
    ((writev fd iov n w = Ret (n + #(concat iov)) (at_h w fp f' t h') /\
      on_file h' (overwrite c (write_pos f c p) (concat iov)) (pos_after f c p (concat iov))) \/
     (exists e, writev fd iov n w = Ret (-1) (set_errno (at_h w fp f' t h') e) /\ exists c' p', on_file h' c' p')).
Proof.
  induction iov as [|a iov IH]; intros w f h c p n Hop Hw Ho Hmax Hn.
  { exists f, h. split; [by left|]. left. cbn. rewrite (opened_id _ _ _ _ _ _ Hop), Z.add_0_r.
    destruct (file_handle _ _ _ Ho) as (Hp & _). by rewrite overwrite_nothing by by apply write_pos_ok. }
  cbn [writev concat]. destruct (decide (a = [])) as [->|Ha].
  { rewrite (write_nothing w fd fp f t h c p Hop Hw Ho). cbn [obind app]. change (0 =? -1) with false.
    change (0 <? Z.of_nat (length (@nil Z))) with false. cbn iota. rewrite Z.add_0_r. by apply (IH w f h c p n). }
  assert (0 < #a) by (destruct a; [done|cbn; lia]). cbn [concat] in Hmax. rewrite length_app in Hmax.
  destruct (file_handle _ _ _ Ho) as (Hp & _).
  destruct (write_disk w fd fp f t h c p a Hop Hw Ho) as (h1 & [[-> Ho1]|(e & -> & _ & Hbad)]); [lia|done| |].
  - cbn [obind]. rewrite (proj2 (Z.eqb_neq _ _)), Z.ltb_irrefl by lia.
    destruct (pos_after_write f c p a (concat iov) Hp Ha) as [Epos Eover].
    destruct (IH (at_h w fp (clean f) t h1) (set_fh (clean f) (FH h1 t)) h1
      (overwrite c (write_pos f c p) a) (write_pos f c p + #a) (n + #a)) as (f' & h' & Hf' & Hres).
    + destruct Hop as (? & ? & ? & ? & ?). split; [done|]. split; [apply at_h_lookup|]. by repeat split.
    + done.
    + done.
    + change (write_pos (set_fh (clean f) (FH h1 t))) with (write_pos f).
      rewrite write_pos_again by done. lia.
    + lia.
    + change (write_pos (set_fh (clean f) (FH h1 t))) with (write_pos f) in Hres.
      change (pos_after (set_fh (clean f) (FH h1 t))) with (pos_after f) in Hres. rewrite Epos, Eover in Hres.
      exists (clean f), h'. split; [by right|].
      assert (at_h (at_h w fp (clean f) t h1) fp f' t h' = at_h w fp (clean f) t h') as E.
      { rewrite at_h_at_h. destruct Hf' as [-> | ->]; [apply at_h_set_fh|].
        change (clean (set_fh (clean f) (FH h1 t))) with (set_fh (clean (clean f)) (FH h1 t)). by rewrite at_h_set_fh, fio_clean_twice. }
      rewrite E in Hres. destruct Hres as [[-> Ho2]|(e & -> & Hbad)]; [left|right; by exists e].
      split; [f_equal; rewrite length_app; lia|]. unfold pos_after. rewrite decide_False; [done|].
      by destruct a.
  - cbn [obind]. exists (clean f), h1. split; [by right|]. right. by exists e.
Qed.
End Calls.

(** ** The guarantees *)

Section Guarantees.
Context {H : Type} {on_file : H -> list Z -> Z -> Prop} {on_tty : H -> list Z -> Prop}.
Context `{!DosOps H} `{!DosLaws H on_file on_tty}.
Implicit Types (w : world H) (f : file H) (h : H).

(** lseek on a file of length n: a position inside the file is reached and
    returned and errno is 0; a position behind the end of a writable file
    extends the file with zeros up to it (or fails), and a file that is not
    writable is left at its end; a position that is negative or does not fit an
    int is EINVAL, after which the pointer is where it was, except for SEEK_END,
    which has moved it to the end of the file.  Nothing else changes, the lock
    is released and the signal mask restored. *)
Theorem lseek_exact w fd fp f t h c p avail off dir :
  opened w fd fp f t h -> f_type f = DTYPE_FILE -> on_file h c p ->
  0 <= dir <= 2 -> is_s32 off -> avail 0 = avail 1 ->
  let q := base_of c p dir + off in
  exists r e h', lseek avail fd off dir w = Ret r (set_errno (at_h w fp f t h') e) /\
    (0 <= q <= #c -> r = q /\ e = 0 /\ on_file h' c q) /\
    (#c < q < 2 ^ 31 ->
       if bset (f_flags f) FWRITE
       then (r = q /\ on_file h' (c ++ zeros (q - #c)) q) \/ (r = -1 /\ exists c' p', on_file h' c' p')
       else r = #c /\ on_file h' c #c) /\
    (q < 0 \/ 2 ^ 31 <= q -> r = -1 /\ e = EINVAL /\ on_file h' c (looked_at c p dir)).
Proof. apply lseek_spec. Qed.

(** C24. What write stores is read back: when write has taken all of [bs], at the
    pointer or at the end of a file in append mode, the file holds [bs] there and
    is unchanged elsewhere, seeking back by its length returns that place, and
    read returns [bs] (or fails). *)
Theorem write_read_roundtrip w fd fp f t h c p bs avail w1 :
  opened w fd fp f t h -> f_type f = DTYPE_FILE -> f_read f = Some R_read -> f_write f = Some W_write ->
  plain t -> on_file h c p -> 0 < #bs -> write_pos f c p + #bs < 2 ^ 31 ->
  write fd bs w = Ret #bs w1 ->
  exists h1 w2 w3, w1 = at_h w fp (clean f) t h1 /\
    on_file h1 (overwrite c (write_pos f c p) bs) (write_pos f c p + #bs) /\
    lseek avail fd (- #bs) SEEK_CUR w1 = Ret (write_pos f c p) w2 /\
    (read fd #bs w2 = Ret (#bs, bs) w3 \/ read fd #bs w2 = Ret (-1, []) w3).
Proof.
  intros Hop Hty Hr Hw Ht Ho Hbs Hmax E. destruct (file_handle _ _ _ Ho) as (Hp & _).
  pose proof (write_pos_ok f c p Hp) as Hq. set (q := write_pos f c p) in *.
  destruct (write_disk w fd fp f t h c p bs Hop Hw Ho) as (h1 & [[E1 Ho1]|(e & E1 & _)]); [done|done| |];
    rewrite E in E1; [injection E1 as ->; fold q in Ho1|injection E1; lia].
  pose proof Hop as (_ & _ & _ & Hu & Hm).
  pose proof (opened_again w fd fp f t h (clean f) h1 (w_errno w) Hop Hu) as Hop1.
  assert (set_errno (at_h w fp (clean f) t h1) (w_errno w) = at_h w fp (clean f) t h1) as Es
    by apply (set_errno_same (at_h w fp (clean f) t h1)). rewrite Es in Hop1.
  set (c1 := overwrite c q bs) in *.
  assert (#c1 = Z.max #c (q + #bs)) as Hl1 by by apply overwrite_length.
  destruct (lseek_inside (blocked w) fp (lock (clean f)) t h1 c1 (q + #bs) avail (- #bs) SEEK_CUR Ho1) as (h2 & E2 & Ho2);
    [done|unfold base_of; cbn; lia|].
  change (base_of c1 (q + #bs) SEEK_CUR) with (q + #bs) in *. replace (q + #bs + - #bs) with q in * by lia.
  pose proof (opened_again w fd fp f t h (clean f) h2 0 Hop Hu) as Hop2.
  destruct (read_call _ fd fp _ t h2 c1 q #bs Hop2 Hr Ho2 Ht) as (h3 & Hread); [lia|].
  unfold c1 in Hread. rewrite next_overwritten in Hread by done.
  assert (lseek avail fd (- #bs) SEEK_CUR (at_h w fp (clean f) t h1) = Ret q (set_errno (at_h w fp (clean f) t h2) 0)) as Eseek.
  { rewrite (lseek_unfold _ _ _ _ _ _ _ _ _ _ _ Hop1 Hty Ho1), at_h_at_h, at_h_set_fh.
    by apply (exclusive_at _ _ _ _ _ _ (q, 0)). }
  destruct Hread as [[Er _]|(e & Er & _)]; eexists h1, _, _; (split; [done|]); (split; [done|]); split; eauto.
Qed.

(** writev of several buffers is a write of their concatenation: it returns
    the total and the file holds the concatenation at the place of the first
    byte (the pointer, or the end in append mode), or it returns -1. *)
Theorem writev_concat w fd fp f t h c p iov :
  opened w fd fp f t h -> f_write f = Some W_write -> on_file h c p ->
  write_pos f c p + #(concat iov) < 2 ^ 31 ->
  exists f' h', (f' = f \/ f' = clean f) /\
    ((writev fd iov 0 w = Ret #(concat iov) (at_h w fp f' t h') /\
      on_file h' (overwrite c (write_pos f c p) (concat iov)) (pos_after f c p (concat iov))) \/
     (exists e, writev fd iov 0 w = Ret (-1) (set_errno (at_h w fp f' t h') e) /\ exists c' p', on_file h' c' p')).
Proof. intros Hop Hw Ho Hmax. by apply (writev_spec fd fp t iov w f h c p 0). Qed.

(** ftruncate sets the length and keeps the position, or moves it to the new
    end if that is before it; when it fails the file and the position are as
    before.  The bytes it adds to a file are whatever SetFileSize leaves there. *)
Theorem ftruncate_keeps_position w fd fp f t h c p len :
  opened w fd fp f t h -> f_type f = DTYPE_FILE -> on_file h c p -> 0 <= len < 2 ^ 31 ->
  exists r e h', ftruncate fd len w = Ret r (set_errno (at_h w fp f t h') e) /\
    ((r = 0 /\ e = 0 /\ exists fill, #fill = Z.max 0 (len - #c) /\
        on_file h' (take (Z.to_nat len) c ++ fill) (Z.min p len)) \/
     (r = -1 /\ on_file h' c p)).
Proof.
  intros Hop Hty Ho Hl. pose proof (opened_id _ _ _ _ _ _ Hop) as Hid. destruct Hop as (Hfd & Hf & _ & Hu & Hq).
  pose proof (HANDLER_NIL_at (set_errno w EBADF) fp f t h) as Hn. rewrite <- set_errno_at, Hid in Hn.
  destruct (file_handle _ _ _ Ho) as (_ & _ & E & _). rewrite E in Hn.
  destruct (ftruncate_spec (blocked (set_errno w EBADF)) fp (lock f) t h c p len Ho Hl) as ([r e] & h' & Eb & Hres).
  exists r, e, h'. split.
  - unfold ftruncate. change (cur_ofile (set_errno w EBADF)) with (cur_ofile w). rewrite Hfd.
    change (files (set_errno w EBADF)) with (files w). rewrite Hf, Hty, Hn. change (DTYPE_FILE =? DTYPE_FILE) with true. cbn iota.
    rewrite <- Hid at 1. rewrite set_errno_at, (exclusive_at _ _ _ _ _ _ (r, e) h'); done.
  - destruct Hres as [[[= -> ->] ?]|[? ?]]; [left|right]; done.
Qed.

(** FIONREAD on a file on disk stores 0, whatever is left to be read: Seek
    returns the position before the call, so the position it takes for the end
    of the file is the current one.  The pointer is put back. *)
Theorem fionread_is_zero w fd fp f t h c p :
  opened w fd fp f t h -> on_file h c p ->
  exists h', __fioctl fp FIONREAD w = Ret (0, Some 0) (at_h w fp f t h') /\ on_file h' c p.
Proof.
  intros Hop Ho. pose proof (opened_id _ _ _ _ _ _ Hop) as Hid. destruct Hop as (_ & _ & _ & Hu & Hq).
  destruct (fio_fionread_spec (blocked w) fp (lock f) t h c p (w_errno w) Ho) as (h' & Eb & Ho').
  exists h'. split; [|done]. unfold __fioctl. rewrite <- Hid at 2.
  rewrite (exclusive_at _ _ _ _ _ _ ((0, Some 0), w_errno w) h') by done. cbn [fst snd].
  f_equal.
Qed.

(** Writing to a console: when the console takes what it is given, write
    shows the buffer with every newline preceded by a carriage return if RAW,
    OPOST and ONLCR are set, and unchanged if not, and returns its length.  In
    any case a count it returns is the number of bytes of the buffer that are
    shown, with at most a carriage return more, and after an error a prefix is
    shown. *)
Theorem tty_write_exact w fd fp f t h out buf :
  opened w fd fp f t h -> f_write f = Some W_write -> bset (f_flags f) FAPPEND = false -> on_tty h out ->
  exists r e f' h', write fd buf w = Ret r (set_errno (at_h w fp f' t h') e) /\
    (accepts (length buf) h -> r = #buf /\ on_tty h' (out ++ crlf t buf)) /\
    ((r = -1 /\ exists k, on_tty h' (out ++ take k (crlf t buf))) \/
     (exists (k : nat) ex, (k <= length buf)%nat /\ r = Z.of_nat k /\ (ex = [] \/ ex = [CR]) /\
        on_tty h' (out ++ crlf t (take k buf) ++ ex))).
Proof.
  intros Hop Hw Ha Ho. pose proof (opened_id _ _ _ _ _ _ Hop) as Hid. destruct Hop as (Hfd & Hf & _ & Hu & Hq).
  pose proof (HANDLER_NIL_at w fp f t h) as Hn. pose proof (IsInteractive_at w fp f t h) as Hi.
  destruct (tty_handle _ _ Ho) as [E1 E2].
  destruct (tty_loop_spec fp f t (length buf) Ha Hu buf w h out 0) as (r & h' & e & Eb & Hacc & Hsh); [done..|].
  rewrite Hid in Hn, Hi, Eb. unfold write, __write. rewrite Hfd, Hf, Hw, Hn, Hi, E1, E2. cbn [negb]. rewrite Eb. cbn [obind].
  assert ((if r =? -1 then -1 else 0 + r) = r) as -> by (destruct (Z.eqb_spec r (-1)); lia).
  destruct (Z.eqb_spec r 0) as [->|Hr]; cbn [negb].
  - exists 0, e, f, h'. done.
  - exists r, e, (clean f), h'. split; [|done]. on_h. f_equal. unfold at_h. by rewrite put_put.
Qed.
End Guarantees.

(** ** Witnesses: a disk and a console in memory *)

Definition demo_handle (tty : bool) (data : list Z) (pos : Z) : ram_handle := mk_ram tty data pos 100 (Ioerr 0).
Definition demo_file (flags t : Z) (h : ram_handle) : file ram_handle :=
  mk_file 4 DTYPE_FILE flags (Some R_read) (Some W_write) (FH h t) 0 0.
Definition demo_world (f : file ram_handle) : world ram_handle :=
  mk_world (replicate 3 0 ++ 1000 :: replicate 508 0) None 0 {[1000 := f]} 0 [] [].

Lemma demo_opened flags t h : opened (demo_world (demo_file flags t h)) 3 1000 (demo_file flags t h) t h.
Proof. repeat split. Qed.

Lemma demo_on_file data pos :
  (0 <=? pos) && (pos <=? #data) && (#data <? 2 ^ 31) = true -> ram_file (demo_handle false data pos) data pos.
Proof. intros Hb. apply andb_true_iff in Hb as [[? ?]%andb_true_iff ?]. repeat split; cbn; lia. Qed.

Definition hello : list Z := [104; 101; 108; 108; 111].
Definition demo_h : ram_handle := demo_handle false hello 2.
Definition demo_f : file ram_handle := demo_file FWRITE 0 demo_h.

Lemma lseek_exact_witness :
  exists r e h', lseek (fun _ => true) 3 8 SEEK_SET (demo_world demo_f) =
    Ret r (set_errno (at_h (demo_world demo_f) 1000 demo_f 0 h') e) /\
    ((r = 8 /\ ram_file h' (hello ++ zeros 3) 8) \/ (r = -1 /\ exists c' p', ram_file h' c' p')).
Proof.
  destruct (lseek_exact (demo_world demo_f) 3 1000 demo_f 0 demo_h hello 2 (fun _ => true) 8 SEEK_SET)
    as (r & e & h' & E & _ & Hb & _);
    [apply demo_opened|reflexivity|by apply demo_on_file|unfold SEEK_SET; lia|unfold is_s32; lia|reflexivity|].
  exists r, e, h'. split; [exact E|]. apply Hb. split; reflexivity.
Defined.

(** The file after the write of the witness below. *)
Definition written_world : world ram_handle :=
  at_h (demo_world demo_f) 1000 (clean demo_f) 0 (mk_ram false [104; 101; 72; 73; 111] 4 99 (Ioerr 0)).

Lemma write_read_roundtrip_witness :
  exists w2 w3, lseek (fun _ => true) 3 (-2) SEEK_CUR written_world = Ret 2 w2 /\
    (read 3 2 w2 = Ret (2, [72; 73]) w3 \/ read 3 2 w2 = Ret (-1, []) w3).
Proof.
  destruct (write_read_roundtrip (demo_world demo_f) 3 1000 demo_f 0 demo_h hello 2 [72; 73] (fun _ => true) written_world)
    as (h1 & w2 & w3 & _ & _ & Hs & Hr);
    [apply demo_opened|reflexivity|reflexivity|reflexivity|repeat split|by apply demo_on_file|reflexivity|reflexivity|vm_compute; reflexivity|].
  exists w2, w3. split; [exact Hs|exact Hr].
Defined.

Lemma writev_concat_witness :
  exists f' h', (f' = demo_f \/ f' = clean demo_f) /\
    ((writev 3 [[72]; []; [73; 74]] 0 (demo_world demo_f) = Ret 3 (at_h (demo_world demo_f) 1000 f' 0 h') /\
      ram_file h' [104; 101; 72; 73; 74] 5) \/
     (exists e, writev 3 [[72]; []; [73; 74]] 0 (demo_world demo_f) = Ret (-1) (set_errno (at_h (demo_world demo_f) 1000 f' 0 h') e) /\
        exists c' p', ram_file h' c' p')).
Proof.
  apply (writev_concat (demo_world demo_f) 3 1000 demo_f 0 demo_h hello 2 [[72]; []; [73; 74]]);
    [apply demo_opened|reflexivity|by apply demo_on_file|reflexivity].
Defined.

Lemma ftruncate_keeps_position_witness :
  exists r e h', ftruncate 3 1 (demo_world demo_f) = Ret r (set_errno (at_h (demo_world demo_f) 1000 demo_f 0 h') e) /\
    ((r = 0 /\ e = 0 /\ exists fill, #fill = 0 /\ ram_file h' ([104] ++ fill) 1) \/ (r = -1 /\ ram_file h' hello 2)).
Proof.
  apply (ftruncate_keeps_position (demo_world demo_f) 3 1000 demo_f 0 demo_h hello 2 1);
    [apply demo_opened|reflexivity|by apply demo_on_file|lia].
Defined.

Lemma fionread_is_zero_witness :
  exists h', __fioctl 1000 FIONREAD (demo_world demo_f) = Ret (0, Some 0) (at_h (demo_world demo_f) 1000 demo_f 0 h') /\
    ram_file h' hello 2.
Proof.
  apply (fionread_is_zero (demo_world demo_f) 3 1000 demo_f 0 demo_h hello 2); [apply demo_opened|by apply demo_on_file].
Defined.

Definition demo_tty : ram_handle := demo_handle true [] 0.
Definition demo_console : file ram_handle := demo_file FWRITE TTY_NLCR_ENABLE demo_tty.

Lemma ram_accepts n : forall h, r_tty h = true -> (n <= r_room h)%nat -> accepts n h.
Proof.
  induction n as [|n IH]; intros h Ht Hr; [done|]. intros bs Hbs. cbn. unfold ram_write.
  destruct (r_room h) as [|room] eqn:E; [lia|]. rewrite Ht. eexists. split; [done|]. apply IH; cbn; [done|lia].
Qed.

Lemma tty_write_exact_witness :
  exists e f' h', write 3 [65; NL; 66] (demo_world demo_console) =
    Ret 3 (set_errno (at_h (demo_world demo_console) 1000 f' TTY_NLCR_ENABLE h') e) /\ ram_tty h' [65; CR; NL; 66].
Proof.
  destruct (tty_write_exact (demo_world demo_console) 3 1000 demo_console TTY_NLCR_ENABLE demo_tty [] [65; NL; 66])
    as (r & e & f' & h' & E & Hacc & _); [apply demo_opened|reflexivity|reflexivity|split; reflexivity|].
  destruct Hacc as [-> Ho]; [apply ram_accepts; [reflexivity|cbn; lia]|].
  exists e, f', h'. split; [exact E|exact Ho].
Defined.
