(* ===== verification/Dirs.v ===== *)
(** * Directories: data and operations

    Models library/convert_dir.c, readdir.c, telldir.c, seekdir.c and
    rewinddir.c.  An opened directory is a memory file: convert_dir writes a
    record for each entry into a buffer, and readdir reads the records back
    through read.  What AmigaDOS lists (the entries of a locked directory, or
    the volumes and assigns for the root) and whether krealloc and kmalloc have
    the memory are arguments.  Strings are lists of the characters before the
    NUL; words are stored with the high byte first. *)

From S2P Require Import Prelude Dos Fileio.

Module Dir.

Definition BUFINCR : Z := 512.
Definition MAXNAMLEN : Z := 255.
Definition DT_DIR : Z := 4.
Definition DT_REG : Z := 8.

Definition be32 (v : Z) : list Z :=
  [u8 (Z.shiftr v 24); u8 (Z.shiftr v 16); u8 (Z.shiftr v 8); u8 v].
Definition of_be32 (bs : list Z) : Z := fold_left (fun a b => a * 256 + b) bs 0.

(** ** The buffer: library/convert_dir.c *)

(** [mem] is the memory at [buf] (buf_size bytes), [bp] an offset into it. *)
Record buffer := mk_buffer { mem : list Z; bp : Z }.

(** A store of [bs] at an offset. *)
Definition store (m : list Z) (off : Z) (bs : list Z) : option (list Z) :=
  if (0 <=? off) && (off + #bs <=? #m) then Some (overwrite m off bs) else None.

(** [avail n]: krealloc has [n] bytes; the bytes it adds are [junk].  The result
    -1 means that there was no memory and the buffer was freed. *)
Definition add_item (avail : Z -> bool) (junk : Z) (key : Z) (name : list Z) (is_dir : Z) (b : buffer)
    : outcome buffer Z :=
  let len := #name in
  let grown :=
    if #(mem b) <=? bp b + (len + 2 + 12) then
      if avail (#(mem b) + BUFINCR) then Some (mem b ++ replicate (Z.to_nat BUFINCR) junk) else None
    else Some (mem b) in
  match grown with
  | None => Ret (-1) (mk_buffer [] 0)
  | Some m =>
    let namelen := if bset len 1 then len + 1 else len in
    let? m := store m (bp b) (be32 key ++ be32 is_dir ++ be32 namelen) in
    let? m := (if bset len 1 then store m (bp b + 12 + len) [0] else Some m) in
    let? m := store m (bp b + 12) name in
    Ret 0 (mk_buffer m (bp b + (namelen + 12)))
  end.

(** What Lock and the calls after it find: the root directory with its volumes
    and assigns, a directory (whether Examine succeeded, the path and the key of
    the lock, the entries ExNext gives), or nothing. *)
Inductive found :=
| Root (volumes : list (list Z))
| Directory (examined : bool) (path : list Z) (key : Z) (entries : list (list Z * bool))
| NoLock.

Inductive verdict := Complete | NoMemory | Interrupted.

Definition dot : list Z := [46].
Definition dotdot : list Z := [46; 46].
Definition ram_disk : list Z := [82; 97; 109; 32; 68; 105; 115; 107].
Definition RAM : list Z := [82; 65; 77].

Definition tolower (c : Z) : Z := if (65 <=? c) && (c <=? 90) then c + 32 else c.

(** [*s == 8 && !strncasecmp (s + 1, "Ram Disk", 8)] *)
Definition volume_name (s : list Z) : list Z :=
  if (#s =? 8) && bool_decide (map tolower s = map tolower ram_disk) then RAM else s.

Section Convert.
Context (avail : Z -> bool) (junk : Z).

Fixpoint add_volumes (i : Z) (vols : list (list Z)) (b : buffer) : outcome buffer verdict :=
  match vols with
  | [] => Ret Complete b
  | s :: vols =>
    let* (r, b) := add_item avail junk i (volume_name s) 1 b in
    if r =? 0 then add_volumes (i + 1) vols b else Ret NoMemory b
  end.

(** [p_sig n] is the set of pending signals in the [n]-th round. *)
Fixpoint add_entries (p_sig : nat -> Z) (omask : Z) (n : nat) (key : Z) (entries : list (list Z * bool)) (b : buffer)
    : outcome buffer verdict :=
  if negb (Z.land (p_sig n) (Z.lnot omask) =? 0) then Ret Interrupted (mk_buffer [] 0)
  else
    match entries with
    | [] => Ret Complete b
    | (name, isdir) :: entries =>
      let* (r, b) := add_item avail junk key name (if isdir : bool then 1 else 0) b in
      if r =? 0 then add_entries p_sig omask (S n) key entries b else Ret NoMemory b
    end.

Definition add_dots (b : buffer) : outcome buffer verdict :=
  let* (r, b) := add_item avail junk 1 dot 1 b in
  if negb (r =? 0) then Ret NoMemory b
  else
    let* (r, b) := add_item avail junk 2 dotdot 1 b in
    if negb (r =? 0) then Ret NoMemory b else Ret Complete b.

Definition fill_buffer (p_sig : nat -> Z) (omask : Z) (d : found) : option (list Z * outcome buffer verdict) :=
  let b := mk_buffer [] 0 in
  match d with
  | NoLock => None
  | Root vols =>
    Some ([47],
      let* (v, b) := add_dots b in
      match v with Complete => add_volumes 3 vols b | _ => Ret v b end)
  | Directory examined path key entries =>
    Some (path,
      let* (v, b) := add_dots b in
      match v with
      | Complete => if examined then add_entries p_sig omask 0 key entries b else Ret Complete b
      | _ => Ret v b
      end)
  end.

(** f_name: the first colon becomes a slash, with another one in front. *)
Fixpoint colon_to_slash (path : list Z) : option (list Z) :=
  match path with
  | [] => None
  | c :: path => if c =? 58 then Some (47 :: path) else option_map (cons c) (colon_to_slash path)
  end.
Definition unix_name (path : list Z) : list Z :=
  match colon_to_slash path with Some p => 47 :: p | None => path end.

Section World.
Context {H : Type} `{!DosOps H}.

(** [None] is the NULL that makes open fail; [have_name]: kmalloc has the memory
    for the name. *)
Definition convert_dir (have_name : bool) (p_sig : nat -> Z) (omask : Z) (d : found) (fp : Z) (w : Fio.world H)
    : outcome (Fio.world H) (option (list Z)) :=
  match fill_buffer p_sig omask d with
  | None => Ret None (Fio.set_errno w ENOENT)
  | Some (path, filled) =>
    match filled with
    | Ret NoMemory _ => Ret None (Fio.set_errno w ENOMEM)
    | Ret Interrupted _ => Ret None (Fio.set_errno w EINTR)
    | Ret Complete b =>
      let? f := Fio.files w !! fp in
      let f' := Fio.mk_file (Fio.f_stb_dirty f) Fio.DTYPE_MEM (Fio.f_flags f) (Some Fio.R_mread) (Fio.f_write f)
                  (Fio.MF 0 (mem b)) (bp b) (Fio.f_sync_flags f) in
      Ret (if have_name then Some (unix_name path) else None) (Fio.put_file w fp f')
    | _ => Fault
    end
  end.
End World.
End Convert.

(** ** readdir, telldir, seekdir, rewinddir *)

Record dirent := mk_dirent {
  d_fileno : Z;
  d_reclen : Z;
  d_type : Z;
  d_namlen : Z;
  d_name : list Z                 (** the array of MAXNAMLEN + 1 characters *)
}.

Record DIR := mk_DIR { dd_fd : Z; dd_ent : dirent }.

Definition set_fileno (dp : DIR) v := mk_DIR (dd_fd dp) (mk_dirent v (d_reclen (dd_ent dp)) (d_type (dd_ent dp)) (d_namlen (dd_ent dp)) (d_name (dd_ent dp))).
Definition set_type (dp : DIR) v := mk_DIR (dd_fd dp) (mk_dirent (d_fileno (dd_ent dp)) (d_reclen (dd_ent dp)) v (d_namlen (dd_ent dp)) (d_name (dd_ent dp))).
Definition set_name (dp : DIR) v := mk_DIR (dd_fd dp) (mk_dirent (d_fileno (dd_ent dp)) (d_reclen (dd_ent dp)) (d_type (dd_ent dp)) (d_namlen (dd_ent dp)) v).
Definition set_lens (dp : DIR) r n := mk_DIR (dd_fd dp) (mk_dirent (d_fileno (dd_ent dp)) r (d_type (dd_ent dp)) n (d_name (dd_ent dp))).

(** A word of which the first bytes were read. *)
Definition read_word (old : Z) (bs : list Z) : Z := of_be32 (bs ++ drop (length bs) (be32 old)).

Section Read.
Context {H : Type} `{!DosOps H}.

(** The result is whether a record was found; the record is in the DIR.  [l0] is
    the value of the local variable before the first read into it. *)
Definition readdir (l0 : Z) (dp : DIR) (w : Fio.world H) : outcome (Fio.world H) (bool * DIR) :=
  if dd_fd dp <? 0 then Ret (false, dp) w
  else
    let* (r, w) := Fio.read (dd_fd dp) 4 w in
    let dp := set_fileno dp (read_word (d_fileno (dd_ent dp)) r.2) in
    if r.1 <=? 0 then Ret (false, dp) w
    else
      let* (r, w) := Fio.read (dd_fd dp) 4 w in
      let l := read_word l0 r.2 in
      if r.1 <=? 0 then Ret (false, dp) w
      else
        let dp := set_type dp (if l =? 0 then DT_REG else DT_DIR) in
        let* (r, w) := Fio.read (dd_fd dp) 4 w in
        let l := read_word l r.2 in
        if r.1 <=? 0 then Ret (false, dp) w
        else
          let? name := store (d_name (dd_ent dp)) l [0] in
          let dp := set_name dp name in
          let* (r, w) := Fio.read (dd_fd dp) l w in
          let? name := store name 0 r.2 in
          let dp := set_name dp name in
          if r.1 <=? 0 then Ret (false, dp) w
          else
            let? last := aget name (l - 1) in
            let namlen := u8 l in
            let namlen := if last =? 0 then namlen else u8 (namlen + 1) in
            Ret (true, set_lens dp (u16 (l + 8)) (u8 (namlen - 1))) w.

Definition telldir (avail : Z -> bool) (dp : DIR) (w : Fio.world H) : outcome (Fio.world H) Z :=
  if dd_fd dp <? 0 then Ret (-1) w else Fio.lseek avail (dd_fd dp) 0 Fio.SEEK_CUR w.

Definition seekdir (avail : Z -> bool) (dp : DIR) (offset : Z) (w : Fio.world H) : outcome (Fio.world H) () :=
  if dd_fd dp <? 0 then Ret () w
  else let* (_r, w) := Fio.lseek avail (dd_fd dp) offset Fio.SEEK_SET w in Ret () w.

Definition rewinddir (avail : Z -> bool) (dp : DIR) (w : Fio.world H) : outcome (Fio.world H) () :=
  if dd_fd dp <? 0 then Ret () w
  else let* (_r, w) := Fio.lseek avail (dd_fd dp) 0 Fio.SEEK_SET w in Ret () w.

End Read.
End Dir.
