(* ===== verification/DirsTheorems.v ===== *)
(** * Directories: theorems

    [record] is the layout of one entry; add_item appends one to the buffer
    ([add_item_spec]), reading at the start of one returns it ([readdir_record]),
    and the conversion of a directory leaves the records of its entries, one
    after the other ([fill_buffer_spec]).  So reading an opened directory lists
    what AmigaDOS listed, and the positions telldir gives can be returned to. *)

From S2P Require Import Prelude Descrip Dos Fileio FileioProofs Dirs.
Import Fio Dir.

(** ** Words and stores *)

Lemma of_be32_be32 v : of_be32 (be32 v) = u32 v.
Proof.
  unfold of_be32, be32. cbn [fold_left]. rewrite !Z.shiftr_div_pow2 by lia. unfold u8, u32.
  change (2 ^ 8) with 256. change (2 ^ 16) with 65536. change (2 ^ 24) with 16777216. change (2 ^ 32) with 4294967296.
  Z.div_mod_to_equations. lia.
Qed.

Lemma read_word_full old v : read_word old (be32 v) = u32 v.
Proof. unfold read_word. rewrite drop_ge by (cbn; lia). rewrite app_nil_r. apply of_be32_be32. Qed.

Lemma store_mid a x r bs : length x = length bs -> store (a ++ x ++ r) #a bs = Some (a ++ bs ++ r).
Proof.
  intros E. unfold store. rewrite (proj2 (Z.leb_le _ _)), (proj2 (Z.leb_le _ _)) by (rewrite ?length_app; lia).
  cbn. f_equal. unfold overwrite. rewrite Nat2Z.id, take_app_length. f_equal. f_equal.
  by rewrite app_assoc, drop_app_length' by (rewrite length_app; lia).
Qed.

(** ** Records *)

Definition item : Type := Z * list Z * Z.      (** key, name, directory flag *)
Definition pad (name : list Z) : list Z := if bset #name 1 then [0] else [].
Definition record (i : item) : list Z :=
  let '(key, name, isdir) := i in
  (be32 key ++ be32 isdir ++ be32 #(name ++ pad name)) ++ name ++ pad name.

Lemma pad_length name : (length (pad name) <= 1)%nat.
Proof. unfold pad. case_match; cbn; lia. Qed.

Lemma record_length i : #(record i) = 12 + #(i.1.2 ++ pad i.1.2).
Proof. destruct i as [[key name] isdir]. unfold record. cbn [fst snd]. rewrite !length_app. cbn [length be32]. lia. Qed.

(** Four pieces of a list that is long enough. *)
Lemma split_three {A} (l : list A) n1 n2 n3 :
  (n1 + n2 + n3 <= length l)%nat ->
  exists x1 x2 x3 r, l = x1 ++ x2 ++ x3 ++ r /\ length x1 = n1 /\ length x2 = n2 /\ length x3 = n3.
Proof.
  intros Hl. exists (take n1 l), (take n2 (drop n1 l)), (take n3 (drop (n1 + n2) l)), (drop (n1 + n2 + n3) l).
  rewrite !length_take, !length_drop. repeat split; try lia.
  rewrite <- (take_drop n1 l) at 1. f_equal. rewrite <- (take_drop n2 (drop n1 l)) at 1. f_equal.
  rewrite drop_drop, <- (take_drop n3 (drop (n1 + n2) l)) at 1. f_equal. by rewrite drop_drop.
Qed.

Section Buffer.
Context (avail : Z -> bool) (junk : Z).

(** The three stores of a record into enough room. *)
Lemma store_record content r i :
  (12 + length (i.1.2 ++ pad i.1.2) <= length r)%nat ->
  exists r' m1 m2, store (content ++ r) #content (be32 i.1.1 ++ be32 i.2 ++ be32 #(i.1.2 ++ pad i.1.2)) = Some m1 /\
    (if bset #(i.1.2) 1 then store m1 (#content + 12 + #(i.1.2)) [0] else Some m1) = Some m2 /\
    store m2 (#content + 12) i.1.2 = Some (content ++ record i ++ r').
Proof.
  destruct i as [[key name] isdir]. cbn [fst snd]. intros Hl. rewrite length_app in Hl.
  destruct (split_three r 12 (length name) (length (pad name))) as (x1 & x2 & x3 & r' & -> & H1 & H2 & H3); [lia|].
  set (hdr := be32 key ++ be32 isdir ++ be32 #(name ++ pad name)).
  assert (length hdr = 12%nat) as Hh by (unfold hdr; rewrite !length_app; done).
  exists r'. eexists _, _. split; [apply store_mid; lia|].
  assert (#content + 12 = #(content ++ hdr)) as -> by (rewrite length_app; lia).
  assert ((if bset #name 1 then store (content ++ hdr ++ x2 ++ x3 ++ r') (#(content ++ hdr) + #name) [0]
           else Some (content ++ hdr ++ x2 ++ x3 ++ r')) = Some ((content ++ hdr) ++ x2 ++ pad name ++ r')) as E.
  { unfold pad in *. destruct (bset #name 1).
    - assert (#(content ++ hdr) + #name = #((content ++ hdr) ++ x2)) as -> by (rewrite (length_app _ x2); lia).
      replace (content ++ hdr ++ x2 ++ x3 ++ r') with (((content ++ hdr) ++ x2) ++ x3 ++ r') by by rewrite <- !app_assoc.
      rewrite store_mid by done. by rewrite <- !app_assoc.
    - apply nil_length_inv in H3. subst x3. by rewrite <- !app_assoc. }
  split; [exact E|]. rewrite store_mid by done. unfold record. fold hdr. by rewrite <- !app_assoc.
Qed.

(** add_item appends a record, or there was no memory.  Names of up to 498
    characters fit what krealloc adds. *)
Lemma add_item_spec content rest key name isdir :
  #name <= 498 ->
  (avail (#(content ++ rest) + BUFINCR) = false /\
   add_item avail junk key name isdir (mk_buffer (content ++ rest) #content) = Ret (-1) (mk_buffer [] 0)) \/
  exists rest', add_item avail junk key name isdir (mk_buffer (content ++ rest) #content) =
    Ret 0 (mk_buffer ((content ++ record (key, name, isdir)) ++ rest') #(content ++ record (key, name, isdir))).
Proof.
  intros Hn. unfold add_item. cbn [mem bp].
  assert (forall m r, m = content ++ r -> (12 + length (name ++ pad name) <= length r)%nat ->
    exists rest', (let? m := store m #content (be32 key ++ be32 isdir ++ be32 (if bset #name 1 then #name + 1 else #name)) in
     let? m := (if bset #name 1 then store m (#content + 12 + #name) [0] else Some m) in
     let? m := store m (#content + 12) name in
     Ret 0 (mk_buffer m (#content + ((if bset #name 1 then #name + 1 else #name) + 12)))) =
    Ret 0 (mk_buffer ((content ++ record (key, name, isdir)) ++ rest') #(content ++ record (key, name, isdir)))) as Hgo.
  { intros m r -> Hr. assert ((if bset #name 1 then #name + 1 else #name) = #(name ++ pad name)) as ->.
    { unfold pad. rewrite length_app. destruct (bset #name 1); cbn [length]; lia. }
    destruct (store_record content r (key, name, isdir) Hr) as (r' & m1 & m2 & E1 & E2 & E3).
    cbn [fst snd] in *. exists r'. rewrite E1, E2, E3, <- app_assoc. do 2 f_equal.
    rewrite (length_app content), Nat2Z.inj_add, record_length. cbn [fst snd]. lia. }
  pose proof (pad_length name).
  destruct (Z.leb_spec #(content ++ rest) (#content + (#name + 2 + 12))) as [Hle|Hgt].
  - destruct (avail (#(content ++ rest) + BUFINCR)) eqn:Ea; [right|by left].
    apply (Hgo _ (rest ++ replicate (Z.to_nat BUFINCR) junk)); [by rewrite <- app_assoc|].
    unfold BUFINCR. rewrite !length_app, length_replicate. lia.
  - right. apply (Hgo _ rest); [done|]. rewrite !length_app in *. lia.
Qed.

Definition records (l : list item) : list Z := concat (map record l).

Lemma records_snoc l i : records (l ++ [i]) = records l ++ record i.
Proof. unfold records. rewrite map_app, concat_app. cbn. by rewrite app_nil_r. Qed.

Definition holds_items (b : buffer) (l : list item) : Prop := exists rest, b = mk_buffer (records l ++ rest) #(records l).

Definition short_names (l : list item) : Prop := Forall (fun i => #(i.1.2) <= 498) l.

Lemma add_item_holds b l key name isdir :
  (forall n, avail n = true) -> holds_items b l -> #name <= 498 ->
  exists b', add_item avail junk key name isdir b = Ret 0 b' /\ holds_items b' (l ++ [(key, name, isdir)]).
Proof.
  intros Ha (rest & ->) Hn. destruct (add_item_spec (records l) rest key name isdir Hn) as [[Hf _]|(rest' & ->)].
  - by rewrite Ha in Hf.
  - eexists. split; [done|]. exists rest'. by rewrite records_snoc.
Qed.

(** What a directory lists. *)
Fixpoint volume_items (i : Z) (vols : list (list Z)) : list item :=
  match vols with [] => [] | s :: vols => (i, volume_name s, 1) :: volume_items (i + 1) vols end.
Definition entry_items (key : Z) (entries : list (list Z * bool)) : list item :=
  map (fun e => (key, e.1, if e.2 : bool then 1 else 0)) entries.
Definition items_of (d : found) : list item :=
  [(1, dot, 1); (2, dotdot, 1)] ++
  match d with
  | Root vols => volume_items 3 vols
  | Directory true _ key entries => entry_items key entries
  | _ => []
  end.

Lemma add_volumes_spec vols : forall i b l, (forall n, avail n = true) -> holds_items b l -> short_names (volume_items i vols) ->
  exists b', add_volumes avail junk i vols b = Ret Complete b' /\ holds_items b' (l ++ volume_items i vols).
Proof.
  induction vols as [|s vols IH]; intros i b l Ha Hb Hs; cbn.
  { exists b. by rewrite app_nil_r. }
  inversion Hs as [|? ? Hn Hs']; subst.
  destruct (add_item_holds b l i (volume_name s) 1 Ha Hb Hn) as (b1 & -> & Hb1). cbn.
  destruct (IH (i + 1) b1 _ Ha Hb1 Hs') as (b2 & -> & Hb2). exists b2. by rewrite <- app_assoc in Hb2.
Qed.

Lemma add_entries_spec p_sig omask key entries : forall n b l,
  (forall n, avail n = true) -> (forall n, Z.land (p_sig n) (Z.lnot omask) = 0) -> holds_items b l ->
  short_names (entry_items key entries) ->
  exists b', add_entries avail junk p_sig omask n key entries b = Ret Complete b' /\ holds_items b' (l ++ entry_items key entries).
Proof.
  induction entries as [|[name isdir] entries IH]; intros n b l Ha Hp Hb Hs; cbn; rewrite Hp; cbn.
  { exists b. by rewrite app_nil_r. }
  inversion Hs as [|? ? Hn Hs']; subst.
  destruct (add_item_holds b l key name (if isdir then 1 else 0) Ha Hb Hn) as (b1 & -> & Hb1). cbn.
  destruct (IH (S n) b1 _ Ha Hp Hb1 Hs') as (b2 & -> & Hb2). exists b2. by rewrite <- app_assoc in Hb2.
Qed.

Lemma add_dots_spec : (forall n, avail n = true) ->
  exists b, add_dots avail junk (mk_buffer [] 0) = Ret Complete b /\ holds_items b [(1, dot, 1); (2, dotdot, 1)].
Proof.
  intros Ha. unfold add_dots.
  destruct (add_item_holds (mk_buffer [] 0) [] 1 dot 1 Ha) as (b1 & -> & Hb1); [by exists []|done|]. cbn.
  destruct (add_item_holds b1 _ 2 dotdot 1 Ha Hb1) as (b2 & -> & Hb2); [done|]. cbn. eauto.
Qed.

Lemma fill_buffer_spec p_sig omask d :
  (forall n, avail n = true) -> (forall n, Z.land (p_sig n) (Z.lnot omask) = 0) -> d <> NoLock -> short_names (items_of d) ->
  exists path b, fill_buffer avail junk p_sig omask d = Some (path, Ret Complete b) /\ holds_items b (items_of d).
Proof.
  intros Ha Hp Hd Hs. apply Forall_app in Hs as [_ Hs]. destruct (add_dots_spec Ha) as (b0 & E & Hb0).
  destruct d as [vols|examined path key entries|]; [..|done]; cbn [fill_buffer]; rewrite E; cbn [obind].
  - destruct (add_volumes_spec vols 3 b0 _ Ha Hb0 Hs) as (b & -> & Hb). eauto.
  - destruct examined.
    + destruct (add_entries_spec p_sig omask key entries 0 b0 _ Ha Hp Hb0 Hs) as (b & -> & Hb). eauto.
    + exists path, b0. split; [done|]. unfold items_of. by rewrite app_nil_r.
Qed.
End Buffer.

(** ** Reading the memory file *)

(** The world in which the file at [fp] is [f], with the offset [off]. *)
Definition mem_at {H} (w : world H) (fp : Z) (f : file H) (off : Z) (buf : list Z) : world H :=
  put_file w fp (set_fh f (MF off buf)).

(** [fd] refers to the memory file [f] at [fp]. *)
Definition opened_dir {H} (w : world H) (fd fp : Z) (f : file H) (buf : list Z) : Prop :=
  open_file (cur_ofile w) fd = Some fp /\ f_type f = DTYPE_MEM /\ f_read f = Some R_mread /\
  unlocked f /\ quiet w /\ 0 <= fd /\ st_size f <= #buf /\ st_size f < 2 ^ 31.

Section Memory.
Context {H : Type} `{!DosOps H}.
Implicit Types (w : world H) (f : file H).

Lemma mem_at_lookup w fp f off buf : files (mem_at w fp f off buf) !! fp = Some (set_fh f (MF off buf)).
Proof. unfold mem_at, put_file. cbn. by simplify_map_eq. Qed.

Lemma put_mem_at w fp f off buf f' : put_file (mem_at w fp f off buf) fp f' = put_file w fp f'.
Proof. apply put_put. Qed.

Lemma read_mem w fd fp f off buf len :
  opened_dir w fd fp f buf -> 0 <= off <= st_size f -> 0 <= len < 2 ^ 31 ->
  let n := Z.min len (st_size f - off) in
  read fd len (mem_at w fp f off buf) =
    Ret (n, take (Z.to_nat n) (drop (Z.to_nat off) buf)) (mem_at w fp f (off + n) buf).
Proof.
  intros (Hfd & Hty & Hr & Hu & Hq & _ & Hs & Hs31) Ho Hl n. unfold read.
  change (cur_ofile (mem_at w fp f off buf)) with (cur_ofile w). rewrite Hfd, mem_at_lookup. cbn [f_read set_fh].
  rewrite Hr, s32_id by (unfold is_s32; lia). unfold __mread.
  assert (mem_at w fp f (off + n) buf = put_file (mem_at w fp f off buf) fp (set_fh f (MF (off + n) buf))) as ->.
  { by rewrite put_mem_at. }
  apply (held_general _ _ _ (set_fh f (MF off buf))); [apply mem_at_lookup|done..|].
  unfold mread_body. cbn [files put_file set_files]. rewrite lookup_insert_eq. cbn [f__fh lock set_sync set_fh st_size].
  assert ((if st_size f - off <? len then st_size f - off else len) = n) as -> by (destruct (Z.ltb_spec (st_size f - off) len); lia).
  rewrite (proj2 (Z.ltb_ge _ _)), (proj2 (Z.ltb_ge _ _)) by lia. cbn [orb]. f_equal. by rewrite put_put.
Qed.

Lemma read_piece w fd fp f buf off len pre x post :
  opened_dir w fd fp f buf -> buf = pre ++ x ++ post -> off = #pre -> len = #x -> off + len <= st_size f ->
  read fd len (mem_at w fp f off buf) = Ret (len, x) (mem_at w fp f (off + len) buf).
Proof.
  intros Hd -> -> -> Hs. pose proof Hd as (_ & _ & _ & _ & _ & _ & _ & ?). rewrite (read_mem w fd fp f) by (try done; lia).
  rewrite Z.min_l by lia. rewrite !Nat2Z.id, drop_app_length, take_app_length. done.
Qed.

(** C strings in an array. *)
Fixpoint c_string (a : list Z) : list Z :=
  match a with [] => [] | c :: a => if c =? 0 then [] else c :: c_string a end.

Lemma c_string_app name r : Forall (fun c => c <> 0) name -> c_string (name ++ 0 :: r) = name.
Proof. induction 1 as [|c name Hc _ IH]; [done|]. cbn. by rewrite (proj2 (Z.eqb_neq _ _)), IH. Qed.

Definition dir_ok (dp : DIR) : Prop := length (d_name (dd_ent dp)) = 256%nat.

Definition entry_of (dp : DIR) : Z * Z * Z * list Z :=
  (d_fileno (dd_ent dp), d_type (dd_ent dp), d_namlen (dd_ent dp), c_string (d_name (dd_ent dp))).

Definition listed (i : item) : Z * Z * Z * list Z :=
  let '(key, name, isdir) := i in (u32 key, if isdir =? 0 then DT_REG else DT_DIR, #name, name).

(** Names readdir can return: not empty, without NUL, short enough for d_name. *)
Definition proper_item (i : item) : Prop :=
  let '(key, name, isdir) := i in
  1 <= #name <= 254 /\ Forall (fun c => c <> 0) name /\ is_u32 isdir.

Lemma length_pos_last (l : list Z) : 1 <= #l -> exists x, l !! (length l - 1)%nat = Some x.
Proof. intros. apply lookup_lt_is_Some. lia. Qed.

(** The name array after the terminator and the name are stored. *)
Lemma store_name arr name :
  length arr = 256%nat -> 1 <= #name <= 254 -> Forall (fun c => c <> 0) name ->
  let l := #(name ++ pad name) in
  exists a1 a2 r last, store arr l [0] = Some a1 /\ store a1 0 (name ++ pad name) = Some a2 /\
    length a2 = 256%nat /\ a2 = name ++ 0 :: r /\ aget a2 (l - 1) = Some last /\
    (if last =? 0 then l - 1 else l) = #name.
Proof.
  intros Harr Hn Hz l. pose proof (pad_length name).
  assert (length (name ++ pad name) <= 255)%nat as Hl by (rewrite length_app; unfold pad; destruct (bset #name 1) eqn:Eb; cbn; [|lia];
    unfold bset in Eb; apply negb_true_iff, Z.eqb_neq in Eb;
    assert (#name <> 254) by (intros E; rewrite E in Eb; done); lia).
  destruct (split_three arr (length (name ++ pad name)) 1 0) as (x1 & x2 & x3 & r & -> & H1 & H2 & H3); [lia|].
  apply nil_length_inv in H3. subst x3. cbn [app] in *.
  assert (l = #x1) as Hlx by lia.
  exists (x1 ++ [0] ++ r), ((name ++ pad name) ++ [0] ++ r).
  assert (store (x1 ++ x2 ++ r) l [0] = Some (x1 ++ [0] ++ r)) as E1 by (rewrite Hlx; by apply store_mid).
  assert (store (x1 ++ [0] ++ r) 0 (name ++ pad name) = Some ((name ++ pad name) ++ [0] ++ r)) as E2.
  { exact (store_mid [] x1 ([0] ++ r) (name ++ pad name) H1). }
  rewrite !length_app in *. cbn [length] in *. unfold pad in *. unfold aget. subst l. rewrite length_app in *.
  destruct (bset #name 1) eqn:Eb; cbn [length] in *.
  - exists (0 :: r), 0. repeat split; [done|done|lia|by rewrite <- app_assoc| |cbn; lia].
    rewrite (proj2 (Z.leb_le _ _)) by lia. rewrite <- app_assoc, lookup_app_r by lia.
    by replace (Z.to_nat _ - _)%nat with 0%nat by lia.
  - destruct (length_pos_last name) as (x & Hx); [lia|]. exists r, x. rewrite app_nil_r in *.
    repeat split; [done|done|lia| |].
    + rewrite (proj2 (Z.leb_le _ _)) by lia. rewrite lookup_app_l by lia.
      by replace (Z.to_nat _) with (length name - 1)%nat by lia.
    + rewrite (proj2 (Z.eqb_neq _ _)); [lia|]. by apply (Forall_lookup_1 _ _ _ _ Hz Hx).
Qed.

Lemma readdir_record w fd fp f buf off pre i post l0 dp :
  opened_dir w fd fp f buf -> buf = pre ++ record i ++ post -> off = #pre -> off + #(record i) <= st_size f ->
  proper_item i -> dd_fd dp = fd -> dir_ok dp ->
  exists dp', readdir l0 dp (mem_at w fp f off buf) = Ret (true, dp') (mem_at w fp f (off + #(record i)) buf) /\
    dd_fd dp' = fd /\ dir_ok dp' /\ entry_of dp' = listed i.
Proof.
  intros Hd Hbuf -> Hs Hi Hfd Hok. pose proof (record_length i) as Hrl. destruct i as [[key name] isdir].
  cbn [fst snd] in Hrl. destruct Hi as (Hn & Hz & Hdir). pose proof Hd as (_ & _ & _ & _ & _ & Hfd0 & _).
  destruct (store_name (d_name (dd_ent dp)) name Hok Hn Hz) as (a1 & a2 & r & last & E1 & E2 & Hl2 & Ha2 & Elast & Enl).
  set (l := #(name ++ pad name)) in *.
  assert (#name <= l <= 255) as Hl.
  { pose proof (pad_length name). unfold l. rewrite length_app. lia. }
  unfold record in Hbuf. fold l in Hbuf. rewrite <- !app_assoc in Hbuf.
  unfold readdir. rewrite Hfd, (proj2 (Z.ltb_ge _ _)) by done.
  rewrite (read_piece w fd fp f buf _ 4 pre (be32 key) _ Hd Hbuf) by (try done; lia). cbn [obind fst snd]. cbn [Z.leb Z.compare].
  rewrite !read_word_full. cbn [set_fileno dd_fd]. rewrite Hfd.
  rewrite (read_piece w fd fp f buf _ 4 (pre ++ be32 key) (be32 isdir) (be32 l ++ name ++ pad name ++ post) Hd);
    [|by rewrite Hbuf, <- !app_assoc|rewrite length_app; cbn; lia|done|lia].
  cbn [obind fst snd]. cbn [Z.leb Z.compare]. rewrite !read_word_full. cbn [set_type set_fileno dd_fd]. rewrite ?Hfd.
  rewrite (read_piece w fd fp f buf _ 4 (pre ++ be32 key ++ be32 isdir) (be32 l) (name ++ pad name ++ post) Hd);
    [|by rewrite Hbuf, <- !app_assoc|rewrite !length_app; cbn; lia|done|lia].
  cbn [obind fst snd]. cbn [Z.leb Z.compare]. rewrite !read_word_full, (u32_id l) by (unfold is_u32; lia).
  cbn [set_type set_fileno set_name dd_ent d_name dd_fd]. rewrite E1. cbn [set_name dd_fd]. rewrite ?Hfd.
  rewrite (read_piece w fd fp f buf _ l (pre ++ be32 key ++ be32 isdir ++ be32 l) (name ++ pad name) post Hd);
    [|by rewrite Hbuf, <- !app_assoc|rewrite !length_app; cbn; lia|done|lia].
  cbn [obind fst snd]. rewrite E2, (proj2 (Z.leb_gt l 0)), Elast by lia.
  eexists. split; [f_equal; f_equal; lia|]. cbn [set_lens set_name dd_fd]. split; [done|]. split; [done|].
  unfold entry_of, listed. cbn. rewrite (u32_id isdir) by done.
  assert (c_string a2 = name) as -> by (rewrite Ha2; by apply c_string_app).
  assert (u8 ((if last =? 0 then u8 l else u8 (u8 l + 1)) - 1) = #name) as -> by (unfold u8; destruct (last =? 0); Z.div_mod_to_equations; lia).
  done.
Qed.

(** Reading behind the last record. *)
Lemma readdir_end w fd fp f buf l0 dp :
  opened_dir w fd fp f buf -> 0 <= st_size f -> dd_fd dp = fd ->
  exists dp', readdir l0 dp (mem_at w fp f (st_size f) buf) = Ret (false, dp') (mem_at w fp f (st_size f) buf).
Proof.
  intros Hd Hs Hfd. pose proof Hd as (_ & _ & _ & _ & _ & Hfd0 & _).
  unfold readdir. rewrite Hfd, (proj2 (Z.ltb_ge _ _)) by done.
  rewrite (read_mem w fd fp f) by (try done; lia). rewrite Z.sub_diag, Z.min_r, Z.add_0_r by lia. cbn. eauto.
Qed.

(** Reading a directory to its end. *)
Fixpoint read_all (fuel : nat) (l0 : Z) (dp : DIR) (w : world H) : outcome (world H) (list (Z * Z * Z * list Z)) :=
  match fuel with
  | O => Diverge
  | S fuel =>
    let* (r, w) := readdir l0 dp w in
    if r.1 : bool then let* (rest, w) := read_all fuel l0 r.2 w in Ret (entry_of r.2 :: rest) w
    else Ret [] w
  end.

Lemma read_all_spec w fd fp f buf l0 l : forall pre dp,
  opened_dir w fd fp f buf -> (exists post, buf = pre ++ records l ++ post) -> st_size f = #(pre ++ records l) ->
  Forall proper_item l -> dd_fd dp = fd -> dir_ok dp ->
  read_all (S (length l)) l0 dp (mem_at w fp f #pre buf) = Ret (map listed l) (mem_at w fp f (st_size f) buf).
Proof.
  induction l as [|i l IH]; intros pre dp Hd [post Hbuf] Hs Hp Hfd Hok.
  - cbn [length read_all]. rewrite app_nil_r in Hs. rewrite <- Hs.
    destruct (readdir_end w fd fp f buf l0 dp Hd) as (dp' & ->); [lia|done|]. done.
  - inversion Hp as [|? ? Hi Hp']; subst x l1.
    assert (records (i :: l) = record i ++ records l) as Er by done. rewrite Er in *.
    destruct (readdir_record w fd fp f buf #pre pre i (records l ++ post) l0 dp Hd) as (dp' & E & Hfd' & Hok' & Hent);
      [by rewrite Hbuf, <- !app_assoc|done|rewrite Hs, !length_app; lia|done|done|done|].
    cbn [length]. change (read_all (S (S (length l)))) with (fun l0 dp w =>
      let* (r, w) := readdir l0 dp w in
      if r.1 : bool then let* (rest, w) := read_all (S (length l)) l0 r.2 w in Ret (entry_of r.2 :: rest) w
      else Ret [] w).
    cbv beta. rewrite E. cbn [obind fst snd].
    replace (#pre + #(record i)) with (#(pre ++ record i)) by (rewrite length_app; lia).
    rewrite (IH (pre ++ record i) dp'); [|done|exists post; by rewrite Hbuf, <- !app_assoc|by rewrite Hs, <- app_assoc|done..].
    cbn [obind]. by rewrite Hent.
Qed.

(** ** Seeking *)

Lemma lseek_memory_spec w fd fp f off buf avail o dir :
  opened_dir w fd fp f buf -> 0 <= off <= st_size f -> 0 <= dir <= 2 ->
  let q := if dir =? SEEK_SET then o else if dir =? SEEK_CUR then off + o else st_size f + o in
  is_s32 q ->
  lseek avail fd o dir (mem_at w fp f off buf) = Ret off (mem_at w fp f (Z.max 0 (Z.min q (st_size f))) buf).
Proof.
  intros (Hfd & Hty & Hr & Hu & Hq & _ & Hs & Hs31) Ho Hd q Hq32. unfold lseek.
  change (cur_ofile (mem_at w fp f off buf)) with (cur_ofile w). rewrite Hfd, mem_at_lookup. cbn [f_type set_fh].
  rewrite Hty. change (DTYPE_MEM =? DTYPE_FILE) with false. change (DTYPE_MEM =? DTYPE_MEM) with true. cbn iota.
  assert (mem_at w fp f (Z.max 0 (Z.min q (st_size f))) buf =
    put_file (mem_at w fp f off buf) fp (set_fh f (MF (Z.max 0 (Z.min q (st_size f))) buf))) as -> by by rewrite put_mem_at.
  apply (held_general _ _ _ (set_fh f (MF off buf))); [apply mem_at_lookup|done..|].
  unfold lseek_memory. cbn [files put_file set_files]. rewrite lookup_insert_eq. cbn [f__fh lock set_sync set_fh st_size].
  fold q. rewrite s32_id by done. f_equal. rewrite put_put. unfold lock, set_sync, set_fh. cbn. do 3 f_equal.
  destruct (Z.ltb_spec q 0), (Z.ltb_spec (st_size f) q); lia.
Qed.
End Memory.

Section Directories.
Context {H : Type} `{!DosOps H}.
Implicit Types (w : world H) (f : file H).

Lemma proper_short l : Forall proper_item l -> short_names l.
Proof. intros Hl. apply (Forall_impl _ _ _ Hl). intros [[key name] isdir] (? & _). cbn. lia. Qed.

(** C25. Opening a directory and reading it to the end: when the memory suffices
    and no signal comes in, convert_dir makes the file a memory file, and the
    calls of readdir return ., .. and then every volume of the root or every
    entry of the directory, in order, each with its type, the length of its name
    and its name, and after them the end.  The number of an entry of a directory
    is the key of the lock, the same for all entries. *)
Theorem directory_roundtrip w fd fp f avail junk p_sig omask d l0 dp :
  open_file (cur_ofile w) fd = Some fp -> files w !! fp = Some f -> unlocked f -> quiet w ->
  (forall n, avail n = true) -> (forall n, Z.land (p_sig n) (Z.lnot omask) = 0) -> d <> NoLock ->
  Forall proper_item (items_of d) -> #(records (items_of d)) < 2 ^ 31 ->
  dd_fd dp = fd -> 0 <= fd -> dir_ok dp ->
  exists name w1 w2, convert_dir avail junk true p_sig omask d fp w = Ret (Some name) w1 /\
    read_all (S (length (items_of d))) l0 dp w1 = Ret (map listed (items_of d)) w2.
Proof.
  intros Hfd Hf Hu Hq Ha Hp Hd Hi Hmax Hdfd Hfd0 Hok.
  destruct (fill_buffer_spec avail junk p_sig omask d Ha Hp Hd (proper_short _ Hi)) as (path & b & E & (rest & ->)).
  unfold convert_dir. rewrite E, Hf. cbn [mem bp].
  set (buf := records (items_of d) ++ rest).
  set (f1 := mk_file (f_stb_dirty f) DTYPE_MEM (f_flags f) (Some R_mread) (f_write f) (MF 0 buf) #(records (items_of d)) (f_sync_flags f)).
  eexists _, _, _. split; [done|]. change (put_file w fp f1) with (mem_at w fp f1 #(@nil Z) buf).
  apply (read_all_spec w fd fp f1 buf l0 (items_of d) [] dp); [|by exists rest|done..].
  repeat split; try done. unfold buf. rewrite length_app. cbn. lia.
Qed.

(** telldir returns the position without changing anything, and seekdir
    returns to it from wherever the directory has been read to meanwhile, so that
    the same entries follow; rewinddir starts over.  This holds although lseek on
    a memory file returns the position before the call. *)
Theorem telldir_seekdir w fd fp f buf off avail dp :
  opened_dir w fd fp f buf -> 0 <= off <= st_size f -> dd_fd dp = fd ->
  telldir avail dp (mem_at w fp f off buf) = Ret off (mem_at w fp f off buf) /\
  forall off', 0 <= off' <= st_size f ->
    seekdir avail dp off (mem_at w fp f off' buf) = Ret () (mem_at w fp f off buf) /\
    rewinddir avail dp (mem_at w fp f off' buf) = Ret () (mem_at w fp f 0 buf).
Proof.
  intros Hd Ho Hfd. pose proof Hd as (_ & _ & _ & _ & _ & Hfd0 & _ & Hs).
  unfold telldir, seekdir, rewinddir. rewrite Hfd, (proj2 (Z.ltb_ge _ _)) by done. split.
  - rewrite (lseek_memory_spec w fd fp f off buf) by (cbn; unfold is_s32, SEEK_CUR; try done; lia).
    f_equal. f_equal. cbn. lia.
  - intros off' Ho'. rewrite !(lseek_memory_spec w fd fp f off' buf) by (cbn; unfold is_s32, SEEK_SET; try done; lia).
    cbn. split; f_equal; f_equal; lia.
Qed.

(** The result of lseek on a memory file is the old offset: the end of the file
    is not what seeking to the end returns. *)
Theorem lseek_memory_old_offset w fd fp f buf off avail :
  opened_dir w fd fp f buf -> 0 <= off <= st_size f ->
  lseek avail fd 0 SEEK_END (mem_at w fp f off buf) = Ret off (mem_at w fp f (st_size f) buf).
Proof.
  intros Hd Ho. pose proof Hd as (_ & _ & _ & _ & _ & _ & _ & Hs).
  rewrite (lseek_memory_spec w fd fp f off buf) by (cbn; unfold is_s32, SEEK_END; try done; lia).
  f_equal. f_equal. cbn. lia.
Qed.
End Directories.

(** ** Witnesses *)

Definition dir_file : file ram_handle := mk_file 0 0 1 None None (FH (mk_ram false [] 0 0 (Ioerr 0)) 0) 0 0.
Definition dir_world : world ram_handle :=
  mk_world (replicate 3 0 ++ 1000 :: replicate 508 0) None 0 {[1000 := dir_file]} 0 [] [].
Definition demo_dir : found := Directory true [100; 58] 77 [([97; 98], true); ([99], false)].
Definition demo_DIR : DIR := mk_DIR 3 (mk_dirent 0 0 0 0 (replicate 256 0)).

Lemma directory_roundtrip_witness :
  exists name w1 w2, convert_dir (fun _ => true) 255 true (fun _ => 0) 0 demo_dir 1000 dir_world = Ret (Some name) w1 /\
    read_all 5 0 demo_DIR w1 =
      Ret [(1, DT_DIR, 1, [46]); (2, DT_DIR, 2, [46; 46]); (77, DT_DIR, 2, [97; 98]); (77, DT_REG, 1, [99])] w2.
Proof.
  apply (directory_roundtrip dir_world 3 1000 dir_file (fun _ => true) 255 (fun _ => 0) 0 demo_dir 0 demo_DIR);
    [reflexivity|reflexivity|reflexivity|reflexivity|reflexivity|reflexivity|discriminate| |reflexivity|reflexivity|lia|reflexivity].
  repeat constructor; cbn; lia.
Defined.

Definition dir_mem : file ram_handle := mk_file 0 DTYPE_MEM 1 (Some R_mread) None (MF 0 (replicate 40 0)) 30 0.

Lemma telldir_seekdir_witness :
  telldir (fun _ => true) demo_DIR (mem_at dir_world 1000 dir_mem 14 (replicate 40 0)) =
    Ret 14 (mem_at dir_world 1000 dir_mem 14 (replicate 40 0)) /\
  seekdir (fun _ => true) demo_DIR 14 (mem_at dir_world 1000 dir_mem 30 (replicate 40 0)) =
    Ret () (mem_at dir_world 1000 dir_mem 14 (replicate 40 0)).
Proof.
  destruct (telldir_seekdir dir_world 3 1000 dir_mem (replicate 40 0) 14 (fun _ => true) demo_DIR) as [Ht Hs];
    [repeat split; cbn; lia|cbn; lia|reflexivity|].
  destruct (Hs 30) as [E _]; [cbn; lia|]. exact (conj Ht E).
Defined.
