(* ===== verification/Select.v ===== *)
(** * select: data and operations

    Models ix_select and select of library/select.c, with the descriptor sets
    of include/sys/types.h as arrays of 32-bit words.  The handlers f_select of
    the files are an interface ([SelOps], whose contract is that of
    library/select.h): the state behind them is a type of its own.  Without the
    network library, a round that waits is given by the next element of a
    schedule: the Exec signals that have arrived, whether the timer request has
    been answered, and how the files have changed meanwhile; when the schedule is
    used up, the process is asleep. *)

From S2P Require Import Prelude Descrip Fileio.

Module Sel.

Definition FD_SETSIZE : Z := Descrip.FD_SETSIZE.
Definition NOFILE : Z := Descrip.NOFILE.
Definition FASYNC : Z := Descrip.O_ASYNC.
Definition NFDBITS : Z := 32.
Definition SELCMD_PREPARE : Z := 1.
Definition SELCMD_CHECK : Z := 2.
Definition SELCMD_POLL : Z := 10.
Definition SELMODE_IN : Z := 0.
Definition SELMODE_OUT : Z := 1.
Definition SELMODE_EXC : Z := 2.
Definition SIGBREAKF_CTRL_C : Z := 0x1000.
Definition SIGINT : Z := 2.
Definition SIGIO : Z := 23.
Definition SSLEEP : Z := 1.
Definition sigmask (n : Z) : Z := Z.shiftl 1 (n - 1).

(** ** Descriptor sets *)

Definition FD_ISSET (n : Z) (s : list Z) : option bool :=
  match aget s (n / NFDBITS) with Some w => Some (Z.testbit w (n mod NFDBITS)) | None => None end.
Definition FD_SET (n : Z) (s : list Z) : option (list Z) :=
  match aget s (n / NFDBITS) with
  | Some w => Some (aput s (n / NFDBITS) (Z.lor w (Z.shiftl 1 (n mod NFDBITS))))
  | None => None
  end.
Definition FD_CLR (n : Z) (s : list Z) : option (list Z) :=
  match aget s (n / NFDBITS) with
  | Some w => Some (aput s (n / NFDBITS) (bclr w (Z.shiftl 1 (n mod NFDBITS))))
  | None => None
  end.
Definition FD_ZERO : list Z := replicate (Z.to_nat (FD_SETSIZE / NFDBITS)) 0.

(** [while (nfd--) *ofd++ = *ifd++;] on words; a negative count does not end
    inside the arrays. *)
Fixpoint copy_words (n : nat) (src dst : list Z) : option (list Z) :=
  match n with
  | O => Some dst
  | S n =>
    match src, dst with
    | x :: src, _ :: dst => match copy_words n src dst with Some d => Some (x :: d) | None => None end
    | _, _ => None
    end
  end.
Definition setcopy (nfd : Z) (ifd ofd : list Z) : option (list Z) :=
  let n := Z.shiftr (nfd + 31) 5 in
  if n <? 0 then None else copy_words (Z.to_nat n) ifd ofd.

(** ** Files and processes *)

(** [f_select fp cmd mode]: the handler of the file at [fp]; [drain] is
    handle_select_port. *)
Class SelOps (D : Type) := {
  f_select : Z -> Z -> Z -> D -> Z * D;
  drain : D -> D
}.

(** Which handlers a file has, and its flags. *)
Record file := mk_file { has_read : bool; has_write : bool; has_select : bool; f_flags : Z }.

Record fdsets := mk_sets { ifd : option (list Z); ofd : option (list Z); efd : option (list Z) }.

Inductive event := EPsignal (sig : Z) | ESetrun.

Record world (D : Type) := mk_world {
  pu_ofile : list Z;               (** of u_parent_userdata if there is one *)
  pu_lastfile : Z;
  u_ofile : list Z;
  u_lastfile : Z;
  files : gmap Z file;
  p_sigignore : Z;
  u_sleep_sig : Z;
  sync_sig : Z;                    (** the signal bit of the timer's port *)
  p_stat : Z;
  p_wchan : Z;
  w_errno : Z;
  dev : D;
  log : list event
}.
Arguments mk_world {D}. Arguments pu_ofile {D}. Arguments pu_lastfile {D}. Arguments u_ofile {D}. Arguments u_lastfile {D}.
Arguments files {D}. Arguments p_sigignore {D}. Arguments u_sleep_sig {D}. Arguments sync_sig {D}. Arguments p_stat {D}.
Arguments p_wchan {D}. Arguments w_errno {D}. Arguments dev {D}. Arguments log {D}.

(** What has happened while the process waited. *)
Record waked (D : Type) := mk_waked { k_sigs : Z; k_timer : bool; k_dev : D -> D }.
Arguments mk_waked {D}. Arguments k_sigs {D}. Arguments k_timer {D}. Arguments k_dev {D}.

Section Select.
Context {D : Type} `{!SelOps D}.

Definition set_dev (w : world D) (v : D) : world D := mk_world (pu_ofile w) (pu_lastfile w) (u_ofile w) (u_lastfile w) (files w)
  (p_sigignore w) (u_sleep_sig w) (sync_sig w) (p_stat w) (p_wchan w) (w_errno w) v (log w).
Definition set_stat (w : world D) st wc : world D := mk_world (pu_ofile w) (pu_lastfile w) (u_ofile w) (u_lastfile w) (files w)
  (p_sigignore w) (u_sleep_sig w) (sync_sig w) st wc (w_errno w) (dev w) (log w).
Definition set_errno (w : world D) v : world D := mk_world (pu_ofile w) (pu_lastfile w) (u_ofile w) (u_lastfile w) (files w)
  (p_sigignore w) (u_sleep_sig w) (sync_sig w) (p_stat w) (p_wchan w) v (dev w) (log w).
Definition emit (w : world D) e : world D := mk_world (pu_ofile w) (pu_lastfile w) (u_ofile w) (u_lastfile w) (files w)
  (p_sigignore w) (u_sleep_sig w) (sync_sig w) (p_stat w) (p_wchan w) (w_errno w) (dev w) (log w ++ [e]).

(** [f = tbl[i]]: the file, or nothing if the descriptor is closed. *)
Definition file_at (tbl : list Z) (i : Z) (w : world D) : option (option (Z * file)) :=
  match aget tbl i with
  | None => None
  | Some fp =>
    if fp =? 0 then Some None
    else match files w !! fp with Some f => Some (Some (fp, f)) | None => None end
  end.

(** [set && FD_ISSET (i, set)] *)
Definition wants (s : option (list Z)) (i : Z) : option bool :=
  match s with None => Some false | Some s => FD_ISSET i s end.

(** [if (set && FD_ISSET (i, set) && (f = tbl[i])) if (bad) FD_CLR (i, set);] *)
Definition validate_one (bad : file -> bool) (i : Z) (s : option (list Z)) (w : world D) : option (option (list Z)) :=
  match s with
  | None => Some None
  | Some l =>
    match FD_ISSET i l with
    | None => None
    | Some false => Some s
    | Some true =>
      match file_at (pu_ofile w) i w with
      | None => None
      | Some None => Some s
      | Some (Some (_, f)) => if bad f then option_map Some (FD_CLR i l) else Some s
      end
    end
  end.

Fixpoint validate (n : nat) (i : Z) (s : fdsets) (w : world D) : option fdsets :=
  match n with
  | O => Some s
  | S n =>
    match validate_one (fun f => negb (has_read f) || negb (has_select f)) i (ifd s) w,
          validate_one (fun f => negb (has_write f) || negb (has_select f)) i (ofd s) w,
          validate_one (fun _ => true) i (efd s) w with
    | Some a, Some b, Some c => validate n (i + 1) (mk_sets a b c) w
    | _, _, _ => None
    end
  end.

(** A call of f->f_select; NULL is a fault. *)
Definition call_select (f : Z * file) (cmd mode : Z) (w : world D) : option (Z * world D) :=
  if has_select f.2 then let r := f_select f.1 cmd mode (dev w) in Some (r.1, set_dev w r.2) else None.

(** [wait_sigs |= f->f_select (f, SELCMD_PREPARE, mode)] if [i] is asked for. *)
Definition prepare_one (mode i : Z) (s : option (list Z)) (sigs : Z) (w : world D) : option (Z * world D) :=
  match wants s i with
  | None => None
  | Some false => Some (sigs, w)
  | Some true =>
    match file_at (pu_ofile w) i w with
    | None => None
    | Some None => Some (sigs, w)
    | Some (Some f) =>
      match call_select f SELCMD_PREPARE mode w with
      | Some (r, w) => Some (Z.lor sigs r, w)
      | None => None
      end
    end
  end.

Fixpoint prepare (n : nat) (i : Z) (s : fdsets) (sigs : Z) (w : world D) : option (Z * world D) :=
  match n with
  | O => Some (sigs, w)
  | S n =>
    match prepare_one SELMODE_IN i (ifd s) sigs w with
    | None => None
    | Some (sigs, w) =>
      match prepare_one SELMODE_OUT i (ofd s) sigs w with
      | None => None
      | Some (sigs, w) =>
        match prepare_one SELMODE_EXC i (efd s) sigs w with
        | None => None
        | Some (sigs, w) => prepare n (i + 1) s sigs w
        end
      end
    end
  end.

(** [if (asked for && f->f_select (f, cmd, mode)) { FD_SET (i, &ready); ++readydesc; }] *)
Definition test_one (cmd mode i : Z) (s : option (list Z)) (ready : list Z) (cnt : Z) (w : world D)
    : option (list Z * Z * world D) :=
  match wants s i with
  | None => None
  | Some false => Some (ready, cnt, w)
  | Some true =>
    match file_at (pu_ofile w) i w with
    | None => None
    | Some None => Some (ready, cnt, w)
    | Some (Some f) =>
      match call_select f cmd mode w with
      | None => None
      | Some (r, w) =>
        if r =? 0 then Some (ready, cnt, w)
        else match FD_SET i ready with Some ready => Some (ready, cnt + 1, w) | None => None end
      end
    end
  end.

(** The three local sets. *)
Record readies := mk_ready { readyin : list Z; readyout : list Z; readyexc : list Z }.

Fixpoint collect (cmd : Z) (n : nat) (i : Z) (s : fdsets) (r : readies) (cnt : Z) (w : world D)
    : option (readies * Z * world D) :=
  match n with
  | O => Some (r, cnt, w)
  | S n =>
    match test_one cmd SELMODE_IN i (ifd s) (readyin r) cnt w with
    | None => None
    | Some (a, cnt, w) =>
      match test_one cmd SELMODE_OUT i (ofd s) (readyout r) cnt w with
      | None => None
      | Some (b, cnt, w) =>
        match test_one cmd SELMODE_EXC i (efd s) (readyexc r) cnt w with
        | None => None
        | Some (c, cnt, w) => collect cmd n (i + 1) s (mk_ready a b c) cnt w
        end
      end
    end
  end.

(** The loops over the files with FASYNC: whether [i] takes part. *)
Definition async_file (tbl : list Z) (i : Z) (s : fdsets) (w : world D) : option (option (Z * file)) :=
  match file_at tbl i w with
  | None => None
  | Some None => Some None
  | Some (Some f) =>
    if bset (f_flags f.2) FASYNC then
      match wants (ifd s) i with
      | None => None
      | Some b => Some (if b then None else Some f)
      end
    else Some None
  end.

Fixpoint async_prepare (n : nat) (i : Z) (s : fdsets) (sigs : Z) (w : world D) : option (Z * world D) :=
  match n with
  | O => Some (sigs, w)
  | S n =>
    match async_file (pu_ofile w) i s w with
    | None => None
    | Some None => async_prepare n (i + 1) s sigs w
    | Some (Some f) =>
      match call_select f SELCMD_PREPARE SELMODE_IN w with
      | None => None
      | Some (r, w) => async_prepare n (i + 1) s (Z.lor sigs r) w
      end
    end
  end.

Fixpoint async_check (cmd : Z) (n : nat) (i : Z) (s : fdsets) (sigio : bool) (w : world D) : option (bool * world D) :=
  match n with
  | O => Some (sigio, w)
  | S n =>
    match async_file (u_ofile w) i s w with
    | None => None
    | Some None => async_check cmd n (i + 1) s sigio w
    | Some (Some f) =>
      match call_select f cmd SELMODE_IN w with
      | None => None
      | Some (r, w) => async_check cmd n (i + 1) s (if r =? 0 then sigio else true) w
      end
    end
  end.

Definition sigio_wanted (w : world D) : bool := negb (bset (p_sigignore w) (sigmask SIGIO)).

(** ** A round of the loop *)

(** [while (!(recv_wait_sigs = Wait (wait_sigs)));] then the timer request. *)
Fixpoint wait_for (sched : list (waked D)) (wait_sigs : Z) (w : world D) : option (Z * bool * list (waked D) * world D) :=
  match sched with
  | [] => None
  | e :: sched =>
    let w := set_dev w (k_dev e (dev w)) in
    let recv := Z.land (k_sigs e) wait_sigs in
    if recv =? 0 then wait_for sched wait_sigs w else Some (recv, k_timer e, sched, w)
  end.

(** What a round found. *)
Record round := mk_round { r_ready : readies; r_desc : Z; r_tout : Z; r_sigio : bool; r_recv : Z }.

(** The end of a round: from [cmd = ..] on. *)
Definition look (cmd : Z) (nfd : Z) (s : fdsets) (dotout : bool) (recv : Z) (w : world D) : outcome (world D) round :=
  let? c := collect cmd (Z.to_nat nfd) 0 s (mk_ready FD_ZERO FD_ZERO FD_ZERO) 0 w in
  let '(r, readydesc, w) := c in
  let tout := if (readydesc =? 0) && dotout then Z.land recv (Z.shiftl 1 (sync_sig w)) else 0 in
  let? a := (if sigio_wanted w then async_check cmd (Z.to_nat (u_lastfile w)) 0 s false w else Some (false, w)) in
  let '(sigio, w) := a in
  Ret (mk_round r readydesc tout sigio recv) w.

(** The part with [skipped_wait]: the signals that were received. *)
Definition wait_round (nfd : Z) (s : fdsets) (dotout : bool) (origmask : Z) (sched : list (waked D)) (w : world D)
    : outcome (world D) (Z * list (waked D)) :=
  let wait_sigs := Z.lor (Z.lor SIGBREAKF_CTRL_C (Z.shiftl 1 (u_sleep_sig w))) origmask in
  let w := set_dev w (drain (dev w)) in
  let wait_sigs := if dotout then Z.lor wait_sigs (Z.shiftl 1 (sync_sig w)) else wait_sigs in
  let? p := prepare (Z.to_nat nfd) 0 s wait_sigs w in
  let '(wait_sigs, w) := p in
  let? p := (if sigio_wanted w then async_prepare (Z.to_nat (pu_lastfile w)) 0 s wait_sigs w else Some (wait_sigs, w)) in
  let '(wait_sigs, w) := p in
  match wait_for sched wait_sigs w with
  | None => Asleep w
  | Some (recv, timer, sched, w) =>
    let recv := if dotout && timer then Z.lor recv (Z.shiftl 1 (sync_sig w)) else recv in
    Ret (recv, sched) (set_dev w (drain (dev w)))
  end.

(** ** ix_select *)

Definition isset_tv (t : Z * Z) : bool := negb (t.1 =? 0) || negb (t.2 =? 0).

Definition copy_set (nfd : Z) (ready : list Z) (s : option (list Z)) : option (option (list Z)) :=
  match s with None => Some None | Some l => option_map Some (setcopy nfd ready l) end.

(** How a round ends the loop: with a result and the sets, or not. *)
Definition decide_round (nfd : Z) (s : fdsets) (timeout : option (Z * Z)) (origmask : Z) (w : world D) (r : round)
    : option (option (Z * fdsets)) :=
  let poll := match timeout with Some t => negb (isset_tv t) | None => false end in
  if negb (r_desc r =? 0) || negb (r_tout r =? 0) || poll then
    match copy_set nfd (readyin (r_ready r)) (ifd s), copy_set nfd (readyout (r_ready r)) (ofd s),
          copy_set nfd (readyexc (r_ready r)) (efd s) with
    | Some a, Some b, Some c => Some (Some (r_desc r, mk_sets a b c))
    | _, _, _ => None
    end
  else if r_sigio r || bset (r_recv r) (Z.lor (Z.lor SIGBREAKF_CTRL_C (Z.shiftl 1 (u_sleep_sig w))) origmask)
  then Some (Some (-1, s))
  else Some None.

(** The loop; [mask] is what is stored at [*mask].  The result has [result], the
    sets, the last round and [*mask]. *)
Fixpoint select_loop (fuel : nat) (nfd : Z) (s : fdsets) (timeout : option (Z * Z)) (origmask mask : Z)
    (sched : list (waked D)) (w : world D) : outcome (world D) (Z * fdsets * round * Z) :=
  match fuel with
  | O => Diverge
  | S fuel =>
    let dotout := match timeout with Some t => isset_tv t | None => false end in
    let* (p, w) := wait_round nfd s dotout origmask sched w in
    let '(recv, sched) := p in
    let mask := Z.land recv origmask in
    let* (r, w) := look SELCMD_CHECK nfd s dotout recv w in
    let? d := decide_round nfd s timeout origmask w r in
    match d with
    | Some (result, s) => Ret (result, s, r, mask) w
    | None => select_loop fuel nfd s timeout origmask mask sched w
    end
  end.

(** [recv_wait_sigs == (u_long)-1]: also what the network library returns for an error. *)
Definition all_signals (recv : Z) : bool := u32 recv =? 2 ^ 32 - 1.

(** After the loop. *)
Definition finish (ostat : Z) (r : Z * fdsets * round * Z) (w : world D) : outcome (world D) (Z * fdsets * Z) :=
  let '(result, s, rd, mask) := r in
  let w := set_stat w ostat 0 in
  if all_signals (r_recv rd) then Ret (-1, s, mask) w
  else
  let w := if bset (r_recv rd) SIGBREAKF_CTRL_C then emit w (EPsignal SIGINT) else w in
  let w := if r_sigio rd then emit w (EPsignal SIGIO) else w in
  let w := emit w ESetrun in
  Ret (result, s, mask) (if result =? -1 then set_errno w EINTR else w).

(** [cursig]: CURSIG (p) is not 0; [select_chan]: the address of select, the
    channel of the process while it waits.  The first round polls. *)
Definition ix_select (cursig : bool) (select_chan : Z) (nfd : Z) (s : fdsets) (timeout : option (Z * Z)) (origmask : Z)
    (sched : list (waked D)) (w : world D) : outcome (world D) (Z * fdsets * Z) :=
  if cursig then Ret (-1, s, origmask) (set_errno w EINTR)
  else
    let nfd := if NOFILE <? nfd then NOFILE else nfd in
    let? s := validate (Z.to_nat nfd) 0 s w in
    let dotout := match timeout with Some t => isset_tv t | None => false end in
    let ostat := p_stat w in
    let w := set_stat w SSLEEP select_chan in
    let w := set_dev w (drain (dev w)) in
    let* (r, w) := look SELCMD_POLL nfd s dotout 0 w in
    let? d := decide_round nfd s timeout origmask w r in
    match d with
    | Some (result, s) => finish ostat (result, s, r, origmask) w
    | None =>
      let* (x, w) := select_loop (S (length sched)) nfd s timeout origmask origmask sched w in
      finish ostat x w
    end.

Definition select (cursig : bool) (select_chan nfd : Z) (s : fdsets) (timeout : option (Z * Z)) (sched : list (waked D))
    (w : world D) : outcome (world D) (Z * fdsets * Z) :=
  ix_select cursig select_chan nfd s timeout 0 sched w.

End Select.
End Sel.
