(* ===== verification/SelectTheorems.v ===== *)
(** * select: theorems

    select answers exactly which of the descriptors asked for are ready, for
    every kind of file whose handler keeps the contract of library/select.h. *)

From S2P Require Import Prelude Descrip Select.
Import Sel.

(** ** Descriptor sets *)

Definition bit (s : list Z) (j : Z) : bool :=
  match aget s (j / NFDBITS) with Some w => Z.testbit w (j mod NFDBITS) | None => false end.

(** The set has a word for the descriptor. *)
Definition covers (s : list Z) (n : Z) : Prop := 0 <= n < NFDBITS * Z.of_nat (length s).

Lemma covers_word s n : covers s n -> exists w, aget s (n / NFDBITS) = Some w.
Proof.
  intros [H0 H1]. apply aget_is_Some. unfold NFDBITS in *. split; [by apply Z.div_pos|].
  apply Z.div_lt_upper_bound; lia.
Qed.

Lemma isset_bit s n : covers s n -> FD_ISSET n s = Some (bit s n).
Proof. intros (w & E)%covers_word. unfold FD_ISSET, bit. by rewrite E. Qed.

Lemma div_mod_same a b : a / NFDBITS = b / NFDBITS -> a mod NFDBITS = b mod NFDBITS -> a = b.
Proof. unfold NFDBITS. intros. Z.div_mod_to_equations. lia. Qed.

Lemma shiftl_1_testbit k j : 0 <= k -> 0 <= j -> Z.testbit (Z.shiftl 1 k) j = (j =? k).
Proof.
  intros Hk Hj. rewrite Z.shiftl_1_l. destruct (Z.eqb_spec j k) as [->|Hne].
  - by apply Z.pow2_bits_true.
  - by apply Z.pow2_bits_false.
Qed.

(** An update of the word of [n] that changes one bit. *)
Lemma put_bit s n w w' (v : bool) :
  covers s n -> aget s (n / NFDBITS) = Some w ->
  (forall k, 0 <= k -> Z.testbit w' k = if k =? n mod NFDBITS then v else Z.testbit w k) ->
  forall j, bit (aput s (n / NFDBITS) w') j = if j =? n then v else bit s j.
Proof.
  intros Hc E Hw j. unfold bit. rewrite (aget_aput _ _ _ _ w) by done.
  destruct (Z.eqb_spec (n / NFDBITS) (j / NFDBITS)) as [Hd|Hd].
  - rewrite Hw by (apply Z.mod_pos_bound; done). destruct (Z.eqb_spec j n) as [->|Hne].
    + by rewrite Z.eqb_refl.
    + rewrite (proj2 (Z.eqb_neq _ _)); [by rewrite <- Hd, E|].
      intros Hm. apply Hne. apply div_mod_same; [by symmetry|done].
  - rewrite (proj2 (Z.eqb_neq j n)); [done|]. by intros ->.
Qed.

Lemma FD_SET_spec s n : covers s n ->
  exists s', FD_SET n s = Some s' /\ length s' = length s /\ forall j, bit s' j = (j =? n) || bit s j.
Proof.
  intros Hc. destruct (covers_word s n Hc) as (w & E). unfold FD_SET. rewrite E. eexists. split; [done|].
  split; [apply aput_length|]. intros j. rewrite (put_bit s n w _ true) by
    (try done; intros k Hk; rewrite Z.lor_spec, shiftl_1_testbit by (try done; apply Z.mod_pos_bound; done);
     by destruct (k =? n mod NFDBITS); rewrite ?orb_true_r, ?orb_false_r).
  by destruct (j =? n).
Qed.

Lemma FD_CLR_spec s n : covers s n ->
  exists s', FD_CLR n s = Some s' /\ length s' = length s /\ forall j, bit s' j = negb (j =? n) && bit s j.
Proof.
  intros Hc. destruct (covers_word s n Hc) as (w & E). unfold FD_CLR. rewrite E. eexists. split; [done|].
  split; [apply aput_length|]. intros j. rewrite (put_bit s n w _ false) by
    (try done; intros k Hk; unfold bclr; rewrite Z.land_spec, Z.lnot_spec, shiftl_1_testbit by (try done; apply Z.mod_pos_bound; done);
     by destruct (k =? n mod NFDBITS); rewrite ?andb_false_r, ?andb_true_r).
  by destruct (j =? n).
Qed.

Lemma FD_ZERO_length : Z.of_nat (length FD_ZERO) = 8.
Proof. done. Qed.
Lemma FD_ZERO_bit j : bit FD_ZERO j = false.
Proof.
  unfold bit. destruct (aget FD_ZERO (j / NFDBITS)) as [w|] eqn:E; [|done].
  apply aget_elem_of in E. apply elem_of_replicate in E as [-> _]. apply Z.bits_0.
Qed.

Lemma copy_words_spec n : forall src dst, (n <= length src)%nat -> (n <= length dst)%nat ->
  copy_words n src dst = Some (take n src ++ drop n dst).
Proof.
  induction n as [|n IH]; intros [|x src] [|y dst] H1 H2; cbn in *; try lia; try done.
  by rewrite IH by lia.
Qed.

(** The copy has the bits of the result below the number of descriptors. *)
Lemma setcopy_spec nfd src dst :
  0 <= nfd <= 256 -> length src = 8%nat -> nfd <= NFDBITS * Z.of_nat (length dst) ->
  exists d, setcopy nfd src dst = Some d /\ length d = length dst /\ forall j, 0 <= j < nfd -> bit d j = bit src j.
Proof.
  intros Hn Hs Hd. unfold NFDBITS in Hd. unfold setcopy. rewrite Z.shiftr_div_pow2 by lia. change (2 ^ 5) with 32.
  assert (0 <= (nfd + 31) / 32 <= 8) by (Z.div_mod_to_equations; lia).
  assert ((nfd + 31) / 32 <= Z.of_nat (length dst)) by (Z.div_mod_to_equations; lia).
  rewrite (proj2 (Z.ltb_ge _ _)) by lia. rewrite copy_words_spec by lia. eexists. split; [done|].
  split; [rewrite length_app, length_take, length_drop; lia|].
  intros j Hj. unfold bit, aget, NFDBITS. rewrite (proj2 (Z.leb_le _ _)) by (apply Z.div_pos; lia).
  assert (j / 32 < (nfd + 31) / 32) by (Z.div_mod_to_equations; lia).
  assert (0 <= j / 32) by (apply Z.div_pos; lia).
  rewrite lookup_app_l by (rewrite length_take; lia). by rewrite lookup_take_lt by lia.
Qed.

(** ** Handlers *)

Class SelLaws (D : Type) `{!SelOps D} (ready : D -> Z -> Z -> bool) := {
  sel_answer fp cmd mode d : cmd = SELCMD_CHECK \/ cmd = SELCMD_POLL ->
    negb ((f_select fp cmd mode d).1 =? 0) = ready d fp mode;
  sel_keeps fp cmd mode d fp' mode' : ready (f_select fp cmd mode d).2 fp' mode' = ready d fp' mode';
  drain_keeps d fp mode : ready (drain d) fp mode = ready d fp mode
}.

Section Rounds.
Context {D : Type} {ready : D -> Z -> Z -> bool} `{!SelOps D} `{!SelLaws D ready}.
Implicit Types (w : world D).

(** Only the state behind the handlers differs, and not in what is ready. *)
Definition alike w w' : Prop :=
  exists d, w' = set_dev w d /\ forall fp mode, ready d fp mode = ready (dev w) fp mode.

Lemma set_dev_same w : set_dev w (dev w) = w.
Proof. by destruct w. Qed.
Lemma alike_refl w : alike w w.
Proof. exists (dev w). by rewrite set_dev_same. Qed.
Lemma alike_trans w1 w2 w3 : alike w1 w2 -> alike w2 w3 -> alike w1 w3.
Proof. intros (d & -> & H1) (d' & -> & H2). exists d'. split; [done|]. intros. rewrite H2. cbn. apply H1. Qed.
Lemma alike_drain w : alike w (set_dev w (drain (dev w))).
Proof. exists (drain (dev w)). split; [done|]. intros. apply drain_keeps. Qed.

Lemma file_at_set_dev tbl i w d : file_at tbl i (set_dev w d) = file_at tbl i w.
Proof. done. Qed.

Lemma call_select_spec f cmd mode w : has_select f.2 = true ->
  exists r w', call_select f cmd mode w = Some (r, w') /\ alike w w' /\
    (cmd = SELCMD_CHECK \/ cmd = SELCMD_POLL -> negb (r =? 0) = ready (dev w) f.1 mode).
Proof.
  intros Hs. unfold call_select. rewrite Hs. eexists _, _. split; [done|]. split.
  - eexists. split; [done|]. intros. apply sel_keeps.
  - intros Hc. by apply sel_answer.
Qed.

(** Descriptor [i] is asked for in [s], open, and ready. *)
Definition hit (mode : Z) (s : option (list Z)) (w : world D) (i : Z) : bool :=
  match s with
  | None => false
  | Some l => bit l i &&
    match file_at (pu_ofile w) i w with Some (Some (fp, _)) => ready (dev w) fp mode | _ => false end
  end.

Lemma hit_alike mode s w w' i : alike w w' -> hit mode s w' i = hit mode s w i.
Proof.
  intros (d & -> & Hd). unfold hit. destruct s as [l|]; [|done]. f_equal. rewrite file_at_set_dev.
  cbn [pu_ofile set_dev dev]. destruct (file_at (pu_ofile w) i w) as [[[fp f]|]|]; [|done..]. apply Hd.
Qed.

(** What the code may touch at descriptor [i] of a set. *)
Definition sound (s : option (list Z)) (w : world D) (i : Z) : Prop :=
  match s with
  | None => True
  | Some l => covers l i /\ exists o, file_at (pu_ofile w) i w = Some o /\
      forall fp f, o = Some (fp, f) -> bit l i = true -> has_select f = true
  end.

Lemma sound_alike s w w' i : alike w w' -> sound s w i -> sound s w' i.
Proof. intros (d & -> & _). done. Qed.

Definition b2z (b : bool) : Z := if b then 1 else 0.

Lemma test_one_spec cmd mode i s r cnt w :
  cmd = SELCMD_CHECK \/ cmd = SELCMD_POLL -> sound s w i -> covers r i ->
  exists r' w', test_one cmd mode i s r cnt w = Some (r', cnt + b2z (hit mode s w i), w') /\ alike w w' /\
    length r' = length r /\ forall j, bit r' j = bit r j || ((j =? i) && hit mode s w i).
Proof.
  intros Hcmd Hs Hr. unfold test_one.
  assert (forall r', (forall j, bit r' j = bit r' j || ((j =? i) && false))) as Hnil
    by (intros r' j; by rewrite andb_false_r, orb_false_r).
  destruct s as [l|]; cbn [wants hit]; cycle 1.
  { exists r, w. rewrite Z.add_0_r. repeat split; [apply alike_refl|apply Hnil]. }
  destruct Hs as (Hc & o & Ho & Hsel). rewrite isset_bit by done. rewrite Ho.
  destruct (bit l i) eqn:Eb; cbn [andb]; cycle 1.
  { exists r, w. rewrite Z.add_0_r. repeat split; [apply alike_refl|apply Hnil]. }
  destruct o as [[fp f]|]; cycle 1.
  { exists r, w. rewrite Z.add_0_r. repeat split; [apply alike_refl|apply Hnil]. }
  destruct (call_select_spec (fp, f) cmd mode w (Hsel fp f eq_refl eq_refl)) as (x & w' & -> & Ha & Hx).
  specialize (Hx Hcmd). cbn [fst] in Hx. rewrite <- Hx. destruct (x =? 0); cbn [negb b2z].
  - exists r, w'. rewrite Z.add_0_r. repeat split; [done|apply Hnil].
  - destruct (FD_SET_spec r i Hr) as (r' & -> & Hl & Hb). exists r', w'. repeat split; [done|done|].
    intros j. rewrite Hb, andb_true_r. apply orb_comm.
Qed.

Definition sounds (s : fdsets) w (i : Z) : Prop := sound (ifd s) w i /\ sound (ofd s) w i /\ sound (efd s) w i.
Definition hits (s : fdsets) w (i : Z) : Z :=
  b2z (hit SELMODE_IN (ifd s) w i) + b2z (hit SELMODE_OUT (ofd s) w i) + b2z (hit SELMODE_EXC (efd s) w i).
(** The number of descriptors from [i] on that are asked for and ready. *)
Fixpoint total (n : nat) (i : Z) (s : fdsets) w : Z :=
  match n with O => 0 | S n => hits s w i + total n (i + 1) s w end.

Lemma hits_alike s w w' i : alike w w' -> hits s w' i = hits s w i.
Proof. intros Ha. unfold hits. by rewrite !(hit_alike _ _ w w'). Qed.
Lemma total_alike n : forall i s w w', alike w w' -> total n i s w' = total n i s w.
Proof. induction n as [|n IH]; intros i s w w' Ha; [done|]. cbn. by rewrite (hits_alike s w w'), (IH _ _ w w'). Qed.
Lemma sounds_alike s w w' i : alike w w' -> sounds s w i -> sounds s w' i.
Proof. intros Ha (? & ? & ?). repeat split; by apply (sound_alike _ w). Qed.
Lemma hits_pos s w i : 0 <= hits s w i.
Proof. unfold hits, b2z. repeat case_match; lia. Qed.
Lemma total_pos n : forall i s w, 0 <= total n i s w.
Proof. induction n as [|n IH]; intros; cbn; [lia|]. pose proof (hits_pos s w i). specialize (IH (i + 1) s w). lia. Qed.

(** The ready set of a mode after the descriptors below [hi]. *)
Definition filled (mode : Z) (s : option (list Z)) w (lo hi : Z) (r0 r : list Z) : Prop :=
  length r = length r0 /\ forall j, bit r j = bit r0 j || ((lo <=? j) && (j <? hi) && hit mode s w j).

Lemma filled_step mode s w i hi r0 r1 r2 :
  i < hi -> length r1 = length r0 -> (forall j, bit r1 j = bit r0 j || ((j =? i) && hit mode s w i)) ->
  filled mode s w (i + 1) hi r1 r2 -> filled mode s w i hi r0 r2.
Proof.
  intros Hi Hl Hb [Hl2 Hb2]. split; [congruence|]. intros j. rewrite Hb2, Hb, <- orb_assoc. f_equal.
  destruct (Z.eqb_spec j i) as [->|Hne]; cbn [andb orb].
  - rewrite (proj2 (Z.leb_gt (i + 1) i)), Z.leb_refl, (proj2 (Z.ltb_lt i hi)) by lia. cbn. by rewrite orb_false_r.
  - assert ((i + 1 <=? j) = (i <=? j)) as -> by (destruct (Z.leb_spec (i + 1) j), (Z.leb_spec i j); lia). done.
Qed.

Lemma filled_alike mode s w w' lo hi r0 r : alike w w' -> filled mode s w' lo hi r0 r -> filled mode s w lo hi r0 r.
Proof. intros Ha [? Hb]. split; [done|]. intros j. by rewrite Hb, (hit_alike _ _ w w'). Qed.

Lemma filled_nil mode s w i r : filled mode s w i i r r.
Proof.
  split; [done|]. intros j. destruct (Z.leb_spec i j), (Z.ltb_spec j i); try lia; cbn; by rewrite orb_false_r.
Qed.

Lemma collect_spec cmd n : cmd = SELCMD_CHECK \/ cmd = SELCMD_POLL -> forall i s r cnt w,
  0 <= i -> i + Z.of_nat n <= 256 -> (forall j, i <= j < i + Z.of_nat n -> sounds s w j) ->
  length (readyin r) = 8%nat -> length (readyout r) = 8%nat -> length (readyexc r) = 8%nat ->
  exists r' w', collect cmd n i s r cnt w = Some (r', cnt + total n i s w, w') /\ alike w w' /\
    filled SELMODE_IN (ifd s) w i (i + Z.of_nat n) (readyin r) (readyin r') /\
    filled SELMODE_OUT (ofd s) w i (i + Z.of_nat n) (readyout r) (readyout r') /\
    filled SELMODE_EXC (efd s) w i (i + Z.of_nat n) (readyexc r) (readyexc r').
Proof.
  intros Hcmd. induction n as [|n IH]; intros i s r cnt w Hi Hn Hs H1 H2 H3.
  { exists r, w. cbn. rewrite !Z.add_0_r. repeat split; [apply alike_refl|apply filled_nil..]. }
  assert (forall l : list Z, length l = 8%nat -> covers l i) as Hc by (intros l E; unfold covers, NFDBITS; rewrite E; lia).
  cbn [collect]. destruct (Hs i) as (S1 & S2 & S3); [lia|].
  destruct (test_one_spec cmd SELMODE_IN i (ifd s) (readyin r) cnt w Hcmd S1 (Hc _ H1)) as (a & w1 & -> & A1 & L1 & B1).
  destruct (test_one_spec cmd SELMODE_OUT i (ofd s) (readyout r) (cnt + b2z (hit SELMODE_IN (ifd s) w i)) w1 Hcmd
    (sound_alike _ _ _ _ A1 S2) (Hc _ H2)) as (b & w2 & -> & A2 & L2 & B2).
  pose proof (alike_trans _ _ _ A1 A2) as A12.
  match goal with |- context [test_one cmd SELMODE_EXC i (efd s) (readyexc r) ?c w2] =>
    destruct (test_one_spec cmd SELMODE_EXC i (efd s) (readyexc r) c w2 Hcmd (sound_alike _ _ _ _ A12 S3) (Hc _ H3))
      as (c3 & w3 & -> & A3 & L3 & B3) end.
  pose proof (alike_trans _ _ _ A12 A3) as A.
  match goal with |- context [collect cmd n (i + 1) s (mk_ready a b c3) ?c w3] =>
    destruct (IH (i + 1) s (mk_ready a b c3) c w3) as (r' & w' & -> & A' & F1 & F2 & F3) end;
    [lia|lia|intros j Hj; apply (sounds_alike _ w); [done|apply Hs; lia]|cbn; lia..|].
  replace (i + 1 + Z.of_nat n) with (i + Z.of_nat (S n)) in * by lia. cbn [readyin readyout readyexc] in *.
  exists r', w'. split.
  { f_equal. f_equal. f_equal. cbn [total]. rewrite (total_alike n (i + 1) s w w3 A). unfold hits.
    rewrite (hit_alike SELMODE_OUT _ _ _ _ A1), (hit_alike SELMODE_EXC _ _ _ _ A12). lia. }
  split; [by apply (alike_trans _ w3)|].
  split; [|split]; (eapply filled_step; [lia| | |eapply filled_alike; [exact A|eassumption]]); try done; intros j.
  - by rewrite B2, (hit_alike SELMODE_OUT _ _ _ _ A1).
  - by rewrite B3, (hit_alike SELMODE_EXC _ _ _ _ A12).
Qed.

(** ** Preparing and waiting *)

Lemma prepare_one_spec mode i s sigs w : sound s w i ->
  exists sigs' w', prepare_one mode i s sigs w = Some (sigs', w') /\ alike w w'.
Proof.
  intros Hs. unfold prepare_one. destruct s as [l|]; [|by exists sigs, w; split; [|apply alike_refl]].
  destruct Hs as (Hc & o & Ho & Hsel). cbn [wants]. rewrite isset_bit, Ho by done.
  destruct (bit l i) eqn:Eb; [|by exists sigs, w; split; [|apply alike_refl]].
  destruct o as [[fp f]|]; [|by exists sigs, w; split; [|apply alike_refl]].
  destruct (call_select_spec (fp, f) SELCMD_PREPARE mode w (Hsel fp f eq_refl eq_refl)) as (x & w' & -> & Ha & _). eauto.
Qed.

Lemma prepare_spec n : forall i s sigs w, (forall j, i <= j < i + Z.of_nat n -> sounds s w j) ->
  exists sigs' w', prepare n i s sigs w = Some (sigs', w') /\ alike w w'.
Proof.
  induction n as [|n IH]; intros i s sigs w Hs; [by exists sigs, w; split; [|apply alike_refl]|].
  cbn [prepare]. destruct (Hs i) as (S1 & S2 & S3); [lia|].
  destruct (prepare_one_spec SELMODE_IN i (ifd s) sigs w S1) as (g1 & w1 & -> & A1).
  destruct (prepare_one_spec SELMODE_OUT i (ofd s) g1 w1 (sound_alike _ _ _ _ A1 S2)) as (g2 & w2 & -> & A2).
  pose proof (alike_trans _ _ _ A1 A2) as A12.
  destruct (prepare_one_spec SELMODE_EXC i (efd s) g2 w2 (sound_alike _ _ _ _ A12 S3)) as (g3 & w3 & -> & A3).
  pose proof (alike_trans _ _ _ A12 A3) as A.
  destruct (IH (i + 1) s g3 w3) as (g4 & w4 & -> & A4); [intros j Hj; apply (sounds_alike _ w); [done|apply Hs; lia]|].
  exists g4, w4. split; [done|]. by apply (alike_trans _ w3).
Qed.

(** What the loops over the asynchronous files may touch. *)
Definition async_sound (tbl : list Z) (last : Z) (s : fdsets) w : Prop :=
  forall i, 0 <= i < last -> exists o, async_file tbl i s w = Some o /\ forall f, o = Some f -> has_select f.2 = true.

Definition async_ok (s : fdsets) w : Prop :=
  sigio_wanted w = true -> async_sound (pu_ofile w) (pu_lastfile w) s w /\ async_sound (u_ofile w) (u_lastfile w) s w.

Lemma async_file_set_dev tbl i s w d : async_file tbl i s (set_dev w d) = async_file tbl i s w.
Proof. done. Qed.
Lemma async_ok_alike s w w' : alike w w' -> async_ok s w -> async_ok s w'.
Proof. intros (d & -> & _). done. Qed.

Lemma async_prepare_spec n : forall i s sigs w, 0 <= i -> async_sound (pu_ofile w) (i + Z.of_nat n) s w ->
  exists sigs' w', async_prepare n i s sigs w = Some (sigs', w') /\ alike w w'.
Proof.
  induction n as [|n IH]; intros i s sigs w Hi Hs; [by exists sigs, w; split; [|apply alike_refl]|].
  cbn [async_prepare]. destruct (Hs i) as (o & -> & Hsel); [lia|].
  replace (i + Z.of_nat (S n)) with (i + 1 + Z.of_nat n) in Hs by lia.
  destruct o as [f|]; [|by apply IH; [lia|]].
  destruct (call_select_spec f SELCMD_PREPARE SELMODE_IN w (Hsel f eq_refl)) as (x & w1 & -> & A1 & _).
  destruct (IH (i + 1) s (Z.lor sigs x) w1) as (g & w2 & -> & A2); [lia|by destruct A1 as (d & -> & _)|].
  exists g, w2. split; [done|]. by apply (alike_trans _ w1).
Qed.

Lemma async_check_spec cmd n : forall i s b w, 0 <= i -> async_sound (u_ofile w) (i + Z.of_nat n) s w ->
  exists b' w', async_check cmd n i s b w = Some (b', w') /\ alike w w'.
Proof.
  induction n as [|n IH]; intros i s b w Hi Hs; [by exists b, w; split; [|apply alike_refl]|].
  cbn [async_check]. destruct (Hs i) as (o & -> & Hsel); [lia|].
  replace (i + Z.of_nat (S n)) with (i + 1 + Z.of_nat n) in Hs by lia.
  destruct o as [f|]; [|by apply IH; [lia|]].
  destruct (call_select_spec f cmd SELMODE_IN w (Hsel f eq_refl)) as (x & w1 & -> & A1 & _).
  destruct (IH (i + 1) s (if x =? 0 then b else true) w1) as (g & w2 & -> & A2); [lia|by destruct A1 as (d & -> & _)|].
  exists g, w2. split; [done|]. by apply (alike_trans _ w1).
Qed.

(** A round finds exactly what is asked for and ready. *)
Definition found_all (nfd : Z) (s : fdsets) w (r : round) : Prop :=
  r_desc r = total (Z.to_nat nfd) 0 s w /\
  filled SELMODE_IN (ifd s) w 0 nfd FD_ZERO (readyin (r_ready r)) /\
  filled SELMODE_OUT (ofd s) w 0 nfd FD_ZERO (readyout (r_ready r)) /\
  filled SELMODE_EXC (efd s) w 0 nfd FD_ZERO (readyexc (r_ready r)).

Lemma look_spec cmd nfd s dotout recv w :
  cmd = SELCMD_CHECK \/ cmd = SELCMD_POLL -> 0 <= nfd <= 256 ->
  (forall j, 0 <= j < nfd -> sounds s w j) -> async_ok s w -> 0 <= u_lastfile w ->
  exists r w', look cmd nfd s dotout recv w = Ret r w' /\ alike w w' /\ found_all nfd s w r /\ r_recv r = recv /\
    (r_tout r <> 0 -> dotout = true).
Proof.
  intros Hcmd Hn Hs Ha Hl. unfold look.
  destruct (collect_spec cmd (Z.to_nat nfd) Hcmd 0 s (mk_ready FD_ZERO FD_ZERO FD_ZERO) 0 w) as (r & w1 & -> & A1 & F);
    [lia|lia|intros j Hj; apply Hs; lia|done..|].
  rewrite Z.add_0_l, Z2Nat.id in F by lia. rewrite Z.add_0_l. cbn [readyin readyout readyexc] in F.
  assert (exists b w2, (if sigio_wanted w1 then async_check cmd (Z.to_nat (u_lastfile w1)) 0 s false w1 else Some (false, w1)) =
    Some (b, w2) /\ alike w1 w2) as (b & w2 & -> & A2).
  { destruct (sigio_wanted w1) eqn:E; [|by exists false, w1; split; [|apply alike_refl]].
    apply async_check_spec; [lia|]. pose proof A1 as (d & -> & _). cbn [u_lastfile set_dev] in *.
    rewrite Z.add_0_l, Z2Nat.id by lia. by apply Ha. }
  eexists _, w2. split; [done|]. split; [by apply (alike_trans _ w1)|]. cbn [r_desc r_ready r_recv r_tout]. split; [by split|].
  split; [done|]. intros Ht. destruct dotout; [done|]. by rewrite andb_false_r in Ht.
Qed.

(** Between two looks the state behind the files changes as the schedule says. *)
Definition moved w w' : Prop := exists d, w' = set_dev w d.

Lemma alike_moved w w' : alike w w' -> moved w w'.
Proof. intros (d & -> & _). by exists d. Qed.
Lemma moved_trans w1 w2 w3 : moved w1 w2 -> moved w2 w3 -> moved w1 w3.
Proof. intros (d & ->) (d' & ->). by exists d'. Qed.
Lemma moved_sounds s w w' i : moved w w' -> sounds s w i -> sounds s w' i.
Proof. intros (d & ->). done. Qed.
Lemma moved_async s w w' : moved w w' -> async_ok s w -> async_ok s w'.
Proof. intros (d & ->). done. Qed.

(** A process never receives all 32 signals of its task at once, not even with that
    of the timer's port. *)
Definition never_all (sync : Z) (sched : list (waked D)) : Prop :=
  Forall (fun e => all_signals (Z.lor (k_sigs e) (Z.shiftl 1 sync)) = false) sched.

Lemma all_signals_bits a : all_signals a = true <-> forall i, 0 <= i < 32 -> Z.testbit a i = true.
Proof.
  unfold all_signals, u32. rewrite Z.eqb_eq. change (2 ^ 32 - 1) with (Z.ones 32). split.
  - intros E i Hi. rewrite <- (Z.mod_pow2_bits_low a 32 i), E by lia. by apply Z.ones_spec_low.
  - intros H. apply Z.bits_inj'. intros i Hi. destruct (Z_lt_le_dec i 32).
    + rewrite Z.mod_pow2_bits_low, Z.ones_spec_low by lia. apply H. lia.
    + rewrite Z.mod_pow2_bits_high, Z.ones_spec_high by lia. done.
Qed.

Lemma not_all_sub a b : (forall i, 0 <= i < 32 -> Z.testbit a i = true -> Z.testbit b i = true) ->
  all_signals b = false -> all_signals a = false.
Proof.
  intros H Hb. apply not_true_is_false. intros Ha. rewrite all_signals_bits in Ha.
  assert (all_signals b = true) as E; [|congruence]. apply all_signals_bits. auto.
Qed.

Lemma wait_for_spec sync sched : forall sigs w,
  never_all sync sched ->
  match wait_for sched sigs w with
  | None => True
  | Some (recv, _, sched', w') => (length sched' < length sched)%nat /\ moved w w' /\ never_all sync sched' /\
      all_signals (Z.lor recv (Z.shiftl 1 sync)) = false
  end.
Proof.
  induction sched as [|e sched IH]; intros sigs w Hn; [done|]. cbn [wait_for]. apply Forall_cons in Hn as [He Hn].
  destruct (Z.eqb_spec (Z.land (k_sigs e) sigs) 0) as [_|Hne].
  - specialize (IH sigs (set_dev w (k_dev e (dev w))) Hn). destruct (wait_for sched sigs _) as [[[[? ?] ?] ?]|]; [|done].
    destruct IH as (? & ? & ?). cbn. split; [lia|]. split; [|done]. eapply moved_trans; [by eexists|done].
  - cbn. split; [lia|]. split; [by eexists|]. split; [done|]. revert He. apply not_all_sub. intros i Hi.
    rewrite !Z.lor_spec, Z.land_spec. by destruct (Z.testbit (k_sigs e) i).
Qed.

Lemma wait_round_spec nfd s dotout origmask sched w :
  0 <= nfd -> (forall j, 0 <= j < nfd -> sounds s w j) -> async_ok s w -> 0 <= pu_lastfile w -> never_all (sync_sig w) sched ->
  (exists w', wait_round nfd s dotout origmask sched w = Asleep w' /\ moved w w') \/
  exists recv sched' w', wait_round nfd s dotout origmask sched w = Ret (recv, sched') w' /\ moved w w' /\
    (length sched' < length sched)%nat /\ never_all (sync_sig w) sched' /\ all_signals recv = false.
Proof.
  intros Hn Hs Ha Hl Hall. unfold wait_round. set (w0 := set_dev w (drain (dev w))).
  assert (moved w w0) as M0 by by eexists.
  match goal with |- context [prepare (Z.to_nat nfd) 0 s ?g w0] =>
    destruct (prepare_spec (Z.to_nat nfd) 0 s g w0) as (g1 & w1 & -> & A1) end;
    [intros j Hj; apply (moved_sounds _ w); [done|apply Hs; lia]|].
  assert (moved w w1) as M1 by (eapply moved_trans; [exact M0|by apply alike_moved]).
  assert (exists g2 w2, (if sigio_wanted w1 then async_prepare (Z.to_nat (pu_lastfile w1)) 0 s g1 w1 else Some (g1, w1)) =
    Some (g2, w2) /\ alike w1 w2) as (g2 & w2 & -> & A2).
  { destruct (sigio_wanted w1) eqn:E; [|by exists g1, w1; split; [|apply alike_refl]].
    apply async_prepare_spec; [lia|]. pose proof M1 as (d & ->). cbn [pu_lastfile set_dev] in *.
    rewrite Z.add_0_l, Z2Nat.id by lia. by apply Ha. }
  assert (moved w w2) as M2 by (eapply moved_trans; [exact M1|by apply alike_moved]).
  pose proof (wait_for_spec (sync_sig w) sched g2 w2 Hall) as Hw. destruct (wait_for sched g2 w2) as [[[[recv timer] sched'] w3]|].
  - right. destruct Hw as (Hlt & M3 & Hall' & Hrecv). eexists _, sched', _. split; [done|]. split.
    { eapply moved_trans; [exact M2|]. eapply moved_trans; [exact M3|]. by eexists. }
    split; [done|]. split; [done|]. assert (sync_sig w3 = sync_sig w) as ->.
    { destruct M2 as (? & ->), M3 as (? & ->). done. }
    destruct (dotout && timer); [done|]. revert Hrecv. apply not_all_sub. intros i _. rewrite Z.lor_spec. by intros ->.
  - left. by exists w2.
Qed.
End Rounds.

Section Guarantees.
Context {D : Type} {ready : D -> Z -> Z -> bool} `{!SelOps D} `{!SelLaws D ready}.
Implicit Types (w : world D).
#[local] Notation hit := (SelectTheorems.hit (ready := ready)).
#[local] Notation total := (SelectTheorems.total (ready := ready)).
#[local] Notation filled := (SelectTheorems.filled (ready := ready)).
#[local] Notation found_all := (SelectTheorems.found_all (ready := ready)).
#[local] Notation alike := (SelectTheorems.alike (ready := ready)).

(** The tables of the process, and its asynchronous files. *)
Definition table_ok (tbl : list Z) w : Prop := forall i, 0 <= i < NOFILE -> exists o, file_at tbl i w = Some o.
Definition process_ok w : Prop :=
  table_ok (pu_ofile w) w /\ table_ok (u_ofile w) w /\
  0 <= pu_lastfile w <= NOFILE /\ 0 <= u_lastfile w <= NOFILE /\
  forall fp f, files w !! fp = Some f -> bset (f_flags f) FASYNC = true -> has_select f = true.

Definition big_enough (nfd : Z) (s : option (list Z)) : Prop :=
  match s with None => True | Some l => nfd <= NFDBITS * Z.of_nat (length l) end.

(** The sets have a bit for every descriptor that may be looked up in them. *)
Definition request_ok (nfd : Z) (s : fdsets) w : Prop :=
  big_enough nfd (ifd s) /\ big_enough nfd (ofd s) /\ big_enough nfd (efd s) /\
  (sigio_wanted w = true -> big_enough (pu_lastfile w) (ifd s) /\ big_enough (u_lastfile w) (ifd s)).

Definition not_for_reading (f : file) : bool := negb (has_read f) || negb (has_select f).
Definition not_for_writing (f : file) : bool := negb (has_write f) || negb (has_select f).
Definition never (f : file) : bool := true.

(** ** The check of the descriptors *)

Definition bad_at (bad : file -> bool) w (j : Z) : bool :=
  match file_at (pu_ofile w) j w with Some (Some (_, f)) => bad f | _ => false end.

Definition vetted (bad : file -> bool) w (lo hi : Z) (s s' : option (list Z)) : Prop :=
  match s, s' with
  | None, None => True
  | Some l, Some l' => length l' = length l /\
      forall j, bit l' j = bit l j && negb ((lo <=? j) && (j <? hi) && bad_at bad w j)
  | _, _ => False
  end.

Lemma vetted_nil bad w i s : vetted bad w i i s s.
Proof.
  destruct s as [l|]; [|done]. split; [done|]. intros j.
  destruct (Z.leb_spec i j), (Z.ltb_spec j i); try lia; cbn; by rewrite andb_true_r.
Qed.

Lemma vetted_step bad w i hi s s1 s2 :
  i < hi -> vetted bad w i (i + 1) s s1 -> vetted bad w (i + 1) hi s1 s2 -> vetted bad w i hi s s2.
Proof.
  intros Hi. destruct s as [l|], s1 as [l1|], s2 as [l2|]; try done. intros [E1 B1] [E2 B2]. split; [congruence|].
  intros j. rewrite B2, B1, <- andb_assoc, <- negb_orb. do 2 f_equal.
  destruct (Z.leb_spec i j), (Z.ltb_spec j (i + 1)), (Z.leb_spec (i + 1) j), (Z.ltb_spec j hi); try lia; cbn; try done.
  by rewrite orb_false_r.
Qed.

Lemma validate_one_spec bad i s w : big_enough (i + 1) s -> 0 <= i < NOFILE -> table_ok (pu_ofile w) w ->
  exists s', validate_one bad i s w = Some s' /\ vetted bad w i (i + 1) s s'.
Proof.
  intros Hb Hi Ht. unfold validate_one. destruct s as [l|]; [|by exists None].
  assert (covers l i) as Hc by (unfold covers; cbn in Hb; lia). rewrite isset_bit by done.
  destruct (Ht i Hi) as (o & Ho).
  assert (bit l i = false \/ bad_at bad w i = false -> vetted bad w i (i + 1) (Some l) (Some l)) as Hkeep.
  { intros Hx. split; [done|]. intros j. destruct (Z.leb_spec i j), (Z.ltb_spec j (i + 1)); cbn; rewrite ?andb_true_r; try done.
    assert (j = i) as -> by lia. destruct Hx as [-> | ->]; by rewrite ?andb_true_r. }
  destruct (bit l i) eqn:Eb; [|exists (Some l); split; [done|apply Hkeep; by left]].
  rewrite Ho. destruct o as [[fp f]|].
  - destruct (bad f) eqn:Ef.
    + destruct (FD_CLR_spec l i Hc) as (l' & -> & Hl & Hb'). exists (Some l'). split; [done|]. split; [done|].
      intros j. rewrite Hb'. unfold bad_at. destruct (Z.eqb_spec j i) as [->|Hne].
      * rewrite Ho, Ef, Z.leb_refl, (proj2 (Z.ltb_lt _ _)) by lia. cbn. by rewrite andb_false_r.
      * destruct (Z.leb_spec i j), (Z.ltb_spec j (i + 1)); try lia; cbn; by rewrite andb_true_r.
    + exists (Some l). split; [done|]. apply Hkeep. right. unfold bad_at. by rewrite Ho.
  - exists (Some l). split; [done|]. apply Hkeep. right. unfold bad_at. by rewrite Ho.
Qed.

Lemma vetted_big bad w lo hi s s' n : vetted bad w lo hi s s' -> big_enough n s -> big_enough n s'.
Proof. destruct s, s'; try done. cbn. intros [-> _]. done. Qed.

Lemma big_enough_le n m s : n <= m -> big_enough m s -> big_enough n s.
Proof. destruct s; cbn; [lia|done]. Qed.

Definition vetted_sets w (lo hi : Z) (s s' : fdsets) : Prop :=
  vetted not_for_reading w lo hi (ifd s) (ifd s') /\ vetted not_for_writing w lo hi (ofd s) (ofd s') /\
  vetted never w lo hi (efd s) (efd s').

Lemma validate_spec n : forall i s w, 0 <= i -> i + Z.of_nat n <= NOFILE -> table_ok (pu_ofile w) w ->
  big_enough (i + Z.of_nat n) (ifd s) -> big_enough (i + Z.of_nat n) (ofd s) -> big_enough (i + Z.of_nat n) (efd s) ->
  exists s', validate n i s w = Some s' /\ vetted_sets w i (i + Z.of_nat n) s s'.
Proof.
  induction n as [|n IH]; intros i s w Hi Hn Ht B1 B2 B3.
  { exists s. rewrite Z.add_0_r. split; [done|]. repeat split; apply vetted_nil. }
  cbn [validate].
  destruct (validate_one_spec not_for_reading i (ifd s) w) as (a & E1 & V1); [by eapply big_enough_le; [|exact B1]; lia|lia|done|].
  destruct (validate_one_spec not_for_writing i (ofd s) w) as (b & E2 & V2); [by eapply big_enough_le; [|exact B2]; lia|lia|done|].
  destruct (validate_one_spec never i (efd s) w) as (c & E3 & V3); [by eapply big_enough_le; [|exact B3]; lia|lia|done|].
  unfold not_for_reading in E1. unfold not_for_writing in E2. unfold never in E3. rewrite E1, E2, E3.
  replace (i + Z.of_nat (S n)) with (i + 1 + Z.of_nat n) in * by lia.
  destruct (IH (i + 1) (mk_sets a b c) w) as (s' & -> & V1' & V2' & V3'); [lia|lia|done|by eapply vetted_big..|].
  exists s'. split; [done|]. split; [|split]; (eapply vetted_step; [|eassumption|eassumption]); lia.
Qed.

Lemma vetted_sound bad w nfd s s' i :
  vetted bad w 0 nfd s s' -> big_enough nfd s -> 0 <= i < nfd -> nfd <= NOFILE -> table_ok (pu_ofile w) w ->
  (forall f, bad f = false -> has_select f = true) -> sound s' w i.
Proof.
  intros V B Hi Hn Ht Hbad. destruct s as [l|], s' as [l'|]; try done. destruct V as [Hl Hb]. cbn in B. split.
  - unfold covers. rewrite Hl. lia.
  - destruct (Ht i) as (o & Ho); [lia|]. exists o. split; [done|]. intros fp f -> Hbit. rewrite Hb in Hbit.
    apply andb_true_iff in Hbit as [_ Hx]. unfold bad_at in Hx. rewrite Ho in Hx.
    rewrite (proj2 (Z.leb_le 0 i)), (proj2 (Z.ltb_lt i nfd)) in Hx by lia. cbn in Hx.
    apply negb_true_iff in Hx. by apply Hbad.
Qed.

(** ** The result *)

(** Descriptor [j] is open, can be selected on, and is ready. *)
Definition available (bad : file -> bool) (mode : Z) w (j : Z) : bool :=
  match file_at (pu_ofile w) j w with Some (Some (fp, f)) => negb (bad f) && ready (dev w) fp mode | _ => false end.

(** [s'] has, of the descriptors of [s] below [nfd], those that are available. *)
Definition answered (bad : file -> bool) (mode : Z) w (nfd : Z) (s s' : option (list Z)) : Prop :=
  match s, s' with
  | None, None => True
  | Some l, Some l' => length l' = length l /\ forall j, 0 <= j < nfd -> bit l' j = bit l j && available bad mode w j
  | _, _ => False
  end.

Definition member (s : option (list Z)) (j : Z) : bool := match s with Some l => bit l j | None => false end.
(** The number of descriptors from [i] on in a set. *)
Fixpoint members (n : nat) (i : Z) (s : option (list Z)) : Z :=
  match n with O => 0 | S n => b2z (member s i) + members n (i + 1) s end.

Lemma total_members n : forall i s w (s' : fdsets),
  (forall j, i <= j < i + Z.of_nat n -> member (ifd s') j = hit SELMODE_IN (ifd s) w j /\
     member (ofd s') j = hit SELMODE_OUT (ofd s) w j /\ member (efd s') j = hit SELMODE_EXC (efd s) w j) ->
  total n i s w = members n i (ifd s') + members n i (ofd s') + members n i (efd s').
Proof.
  induction n as [|n IH]; intros i s w s' Hm; [done|]. cbn [SelectTheorems.total members]. unfold hits.
  destruct (Hm i) as (-> & -> & ->); [lia|]. rewrite (IH (i + 1) s w s'); [lia|]. intros j Hj. apply Hm. lia.
Qed.

Lemma hit_vetted bad mode w w' nfd s s1 j :
  vetted bad w 0 nfd s s1 -> moved w w' -> 0 <= j < nfd ->
  hit mode s1 w' j = member s j && available bad mode w' j.
Proof.
  intros V (d & ->) Hj. destruct s as [l|], s1 as [l1|]; try done. destruct V as [_ Hb]. cbn [SelectTheorems.hit member].
  rewrite Hb, (proj2 (Z.leb_le 0 j)), (proj2 (Z.ltb_lt j nfd)) by lia. cbn [andb]. rewrite <- andb_assoc. f_equal.
  unfold bad_at, available. rewrite !file_at_set_dev. cbn [pu_ofile set_dev dev].
  destruct (file_at (pu_ofile w) j w) as [[[fp f]|]|]; [done|by rewrite andb_false_r..].
Qed.

(** The sets after the copy. *)
Definition copied (mode : Z) w (nfd : Z) (s s' : option (list Z)) : Prop :=
  match s, s' with
  | None, None => True
  | Some l, Some l' => length l' = length l /\ forall j, 0 <= j < nfd -> bit l' j = hit mode s w j
  | _, _ => False
  end.

Lemma copy_set_spec mode w nfd s r : 0 <= nfd <= 256 -> big_enough nfd s ->
  filled mode s w 0 nfd FD_ZERO r -> exists s', copy_set nfd r s = Some s' /\ copied mode w nfd s s'.
Proof.
  intros Hn Hb [Hl Hf]. unfold copy_set. destruct s as [l|]; [|by exists None].
  destruct (setcopy_spec nfd r l Hn) as (d & -> & Hd & Hbit); [done|done|]. exists (Some d). split; [done|]. split; [done|].
  intros j Hj. rewrite Hbit, Hf, FD_ZERO_bit, (proj2 (Z.leb_le 0 j)), (proj2 (Z.ltb_lt j nfd)) by lia. done.
Qed.

Definition big_sets (nfd : Z) (s : fdsets) : Prop := big_enough nfd (ifd s) /\ big_enough nfd (ofd s) /\ big_enough nfd (efd s).

Lemma decide_spec nfd s timeout origmask w w' r :
  0 <= nfd <= 256 -> big_sets nfd s -> found_all nfd s w r ->
  exists d, decide_round nfd s timeout origmask w' r = Some d /\
    match d with
    | None => r_desc r = 0
    | Some (res, s') => (res = -1 /\ r_desc r = 0) \/
        (res = r_desc r /\ (res <> 0 \/ r_tout r <> 0 \/ exists t, timeout = Some t) /\
         copied SELMODE_IN w nfd (ifd s) (ifd s') /\ copied SELMODE_OUT w nfd (ofd s) (ofd s') /\
         copied SELMODE_EXC w nfd (efd s) (efd s'))
    end.
Proof.
  intros Hn (B1 & B2 & B3) (Hdesc & F1 & F2 & F3). unfold decide_round.
  destruct (negb (r_desc r =? 0) || negb (r_tout r =? 0) || match timeout with Some t => negb (isset_tv t) | None => false end) eqn:E.
  - destruct (copy_set_spec SELMODE_IN w nfd (ifd s) _ Hn B1 F1) as (a & -> & C1).
    destruct (copy_set_spec SELMODE_OUT w nfd (ofd s) _ Hn B2 F2) as (b & -> & C2).
    destruct (copy_set_spec SELMODE_EXC w nfd (efd s) _ Hn B3 F3) as (c & -> & C3).
    eexists. split; [done|]. right. split; [done|]. split; [|done].
    apply orb_true_iff in E as [[E|E]%orb_true_iff|E].
    + left. by apply negb_true_iff, Z.eqb_neq in E.
    + right. left. by apply negb_true_iff, Z.eqb_neq in E.
    + right. right. destruct timeout; [eauto|done].
  - apply orb_false_iff in E as [[E _]%orb_false_iff _]. apply negb_false_iff, Z.eqb_eq in E.
    case_match; eexists; (split; [done|]); [by left|done].
Qed.

(** ** The loop *)

(** What a round that ends the loop leaves. *)
Definition settled (nfd : Z) (s : fdsets) (timeout : option (Z * Z)) w (res : Z) (s' : fdsets) : Prop :=
  res = -1 \/
  (res = total (Z.to_nat nfd) 0 s w /\ (res <> 0 \/ exists t, timeout = Some t) /\
   copied SELMODE_IN w nfd (ifd s) (ifd s') /\ copied SELMODE_OUT w nfd (ofd s) (ofd s') /\
   copied SELMODE_EXC w nfd (efd s) (efd s')).

Lemma copied_alike mode w w' nfd s s' : alike w w' -> copied mode w nfd s s' -> copied mode w' nfd s s'.
Proof.
  intros Ha. destruct s as [l|], s' as [l'|]; try done. intros [? Hb]. split; [done|]. intros j Hj.
  by rewrite Hb, (hit_alike _ _ w w').
Qed.

(** The facts that hold in every round. *)
Definition steady (nfd : Z) (s : fdsets) w : Prop :=
  0 <= nfd <= 256 /\ big_sets nfd s /\ (forall j, 0 <= j < nfd -> sounds s w j) /\ async_ok s w /\
  0 <= pu_lastfile w /\ 0 <= u_lastfile w.

Lemma steady_moved nfd s w w' : moved w w' -> steady nfd s w -> steady nfd s w'.
Proof. intros (d & ->). done. Qed.

Lemma look_recv cmd nfd s dotout recv w r w' : look cmd nfd s dotout recv w = Ret r w' -> r_recv r = recv.
Proof.
  unfold look. destruct (collect _ _ _ _ _ _ _) as [[[? ?] w1]|]; [|done]. cbn iota beta.
  destruct (if sigio_wanted w1 then _ else _) as [[? ?]|]; [|done]. by intros [= <- _].
Qed.

(** One look and the decision. *)
Lemma look_decide cmd nfd s timeout dotout origmask recv w :
  cmd = SELCMD_CHECK \/ cmd = SELCMD_POLL -> steady nfd s w -> (dotout = true -> exists t, timeout = Some t) ->
  exists r w' d, look cmd nfd s dotout recv w = Ret r w' /\ alike w w' /\ r_recv r = recv /\ decide_round nfd s timeout origmask w' r = Some d /\
    match d with
    | None => total (Z.to_nat nfd) 0 s w = 0
    | Some (res, s') => settled nfd s timeout w' res s' /\ (res = -1 -> total (Z.to_nat nfd) 0 s w = 0)
    end.
Proof.
  intros Hcmd (Hn & Hb & Hs & Ha & _ & Hl) Ht.
  destruct (look_spec cmd nfd s dotout recv w Hcmd Hn Hs Ha Hl) as (r & w' & E & A & Hf & _ & Hto).
  destruct (decide_spec nfd s timeout origmask w w' r Hn Hb Hf) as (d & Ed & Hd). pose proof Hf as (Hdesc & _).
  exists r, w', d. split; [done|]. split; [done|]. split; [by eapply look_recv|]. split; [done|].
  destruct d as [[res s']|]; [|by rewrite <- Hdesc]. destruct Hd as [[-> Hz]|(-> & Hwhy & C1 & C2 & C3)].
  - split; [by left|]. intros _. by rewrite <- Hdesc.
  - split; [|intros E1; rewrite <- Hdesc; pose proof (total_pos (ready := ready) (Z.to_nat nfd) 0 s w); lia].
    right. split; [by rewrite Hdesc, (total_alike _ _ _ w w')|].
    split; [destruct Hwhy as [?|[?%Hto|?]]; [by left|right; by apply Ht|by right]|].
    repeat split; by apply (copied_alike _ w).
Qed.

Lemma select_loop_spec nfd s timeout origmask fuel : forall sched mask w,
  (length sched < fuel)%nat -> steady nfd s w -> never_all (sync_sig w) sched ->
  match select_loop fuel nfd s timeout origmask mask sched w with
  | Ret (res, s', rd, _) w' => moved w w' /\ settled nfd s timeout w' res s' /\ all_signals (r_recv rd) = false
  | Asleep _ => True
  | _ => False
  end.
Proof.
  induction fuel as [|fuel IH]; intros sched mask w Hf Hst Hall; [lia|]. cbn [select_loop].
  set (dotout := match timeout with Some t => isset_tv t | None => false end).
  pose proof Hst as (Hn & _ & Hs & Ha & Hl & _).
  destruct (wait_round_spec nfd s dotout origmask sched w) as [(w1 & -> & _)|(recv & sched' & w1 & -> & M1 & Hlt & Hall' & Hrecv)];
    [lia|done|done|done|done|done|]. cbn [obind].
  pose proof (steady_moved _ _ _ _ M1 Hst) as Hst1.
  destruct (look_decide SELCMD_CHECK nfd s timeout dotout origmask recv w1) as (r & w2 & d & -> & A2 & Er & Ed & Hd);
    [by left|done|subst dotout; destruct timeout; by eauto|]. cbn [obind]. rewrite Ed.
  pose proof (moved_trans _ _ _ M1 (alike_moved _ _ A2)) as M2.
  destruct d as [[res s']|]; [destruct Hd; by rewrite Er|].
  assert (never_all (sync_sig w2) sched') as Hall2 by (destruct M2 as (? & ->); done).
  specialize (IH sched' (Z.land recv origmask) w2). destruct (select_loop fuel nfd s timeout origmask _ sched' w2) as [[[[res s'] rd] m] w3| | | |];
    try (apply IH; [lia|by apply (steady_moved _ _ w)|done]).
  destruct IH as [M3 Hset]; [lia|by apply (steady_moved _ _ w)|done|]. split; [|done]. by apply (moved_trans _ w2).
Qed.

(** ** select *)

(** From the sets that were checked back to those that were given. *)
Lemma copied_answered bad mode w w' nfd s s1 s' :
  vetted bad w 0 nfd s s1 -> moved w w' -> copied mode w' nfd s1 s' -> answered bad mode w' nfd s s'.
Proof.
  intros V M C. destruct s as [l|], s1 as [l1|], s' as [l'|]; try done. destruct C as [Hl Hb]. pose proof V as [Hl1 _].
  split; [congruence|]. intros j Hj. by rewrite Hb, (hit_vetted bad mode w w' nfd (Some l)).
Qed.

Lemma copied_member mode w nfd s s' j : copied mode w nfd s s' -> 0 <= j < nfd -> member s' j = hit mode s w j.
Proof. destruct s as [l|], s' as [l'|]; try done. intros [_ Hb] Hj. by apply Hb. Qed.

Lemma async_vetted w nfd s s1 : process_ok w -> request_ok nfd s w -> vetted_sets w 0 nfd s s1 -> async_ok s1 w.
Proof.
  intros (T1 & T2 & L1 & L2 & Hasync) (_ & _ & _ & Hreq) (V & _) Hs. destruct (Hreq Hs) as [B1 B2].
  pose proof (vetted_big _ _ _ _ _ _ _ V B1) as B1'. pose proof (vetted_big _ _ _ _ _ _ _ V B2) as B2'.
  assert (forall tbl last, table_ok tbl w -> 0 <= last <= NOFILE -> big_enough last (ifd s1) -> async_sound tbl last s1 w) as Hgo.
  { intros tbl last Ht Hl Hb i Hi. destruct (Ht i) as (o & Ho); [lia|]. unfold async_file. rewrite Ho.
    destruct o as [[fp f]|]; [|by exists None]. cbn [snd]. destruct (bset (f_flags f) FASYNC) eqn:Ef; [|by exists None].
    assert (exists b, wants (ifd s1) i = Some b) as (b & ->).
    { destruct (ifd s1) as [l|]; [|by exists false]. cbn in *. rewrite isset_bit; [by eexists|]. unfold covers. lia. }
    eexists. split; [done|]. intros x Hx. destruct b; [done|]. injection Hx as <-. cbn.
    apply (Hasync fp f); [|done]. unfold file_at in Ho. destruct (aget tbl i) as [q|]; [|done].
    destruct (q =? 0); [done|]. destruct (files w !! q) eqn:Eq; [|done]. injection Ho as -> ->. done. }
  split; by apply Hgo.
Qed.

Lemma request_steady w nfd s s1 : process_ok w -> request_ok nfd s w -> 0 <= nfd <= 256 -> vetted_sets w 0 nfd s s1 -> steady nfd s1 w.
Proof.
  intros Hp Hr Hn V. pose proof Hr as (B1 & B2 & B3 & _). pose proof V as (V1 & V2 & V3). pose proof Hp as (T1 & _ & L1 & L2 & _).
  split; [done|]. split; [repeat split; by eapply vetted_big|]. split; [|split; [by eapply async_vetted|lia]].
  intros j Hj. assert (nfd <= NOFILE) by (unfold NOFILE, Descrip.NOFILE; lia).
  assert (forall a f, negb a || negb (has_select f) = false -> has_select f = true) as Hb.
  { intros a f Hx. apply orb_false_iff in Hx as [_ Hx]. by apply negb_false_iff in Hx. }
  repeat split.
  - eapply (vetted_sound not_for_reading); [exact V1|done..|]. intros f. apply Hb.
  - eapply (vetted_sound not_for_writing); [exact V2|done..|]. intros f. apply Hb.
  - eapply (vetted_sound never); [exact V3|done..|]. done.
Qed.

Lemma total_zero n : forall i s w j, total n i s w = 0 -> i <= j < i + Z.of_nat n -> hits (ready := ready) s w j = 0.
Proof.
  induction n as [|n IH]; intros i s w j Ht Hj; [lia|]. cbn [SelectTheorems.total] in Ht.
  pose proof (hits_pos (ready := ready) s w i). pose proof (total_pos (ready := ready) n (i + 1) s w).
  destruct (Z.eq_dec j i) as [->|Hne]; [lia|]. apply (IH (i + 1)); lia.
Qed.

Lemma hits_zero s w j : hits (ready := ready) s w j = 0 ->
  hit SELMODE_IN (ifd s) w j = false /\ hit SELMODE_OUT (ofd s) w j = false /\ hit SELMODE_EXC (efd s) w j = false.
Proof. unfold hits, b2z. repeat case_match; try lia; done. Qed.

(** The fields [available] looks at. *)
Definition same_files w w' : Prop := pu_ofile w' = pu_ofile w /\ files w' = files w /\ dev w' = dev w.

Lemma available_same bad mode w w' j : same_files w w' -> available bad mode w' j = available bad mode w j.
Proof. intros (E1 & E2 & E3). unfold available, file_at. by rewrite E1, E2, E3. Qed.

Lemma answered_same bad mode w w' nfd s s' : same_files w w' -> answered bad mode w nfd s s' -> answered bad mode w' nfd s s'.
Proof.
  intros Hs. destruct s as [l|], s' as [l'|]; try done. intros [? Hb]. split; [done|]. intros j Hj.
  by rewrite Hb, (available_same _ _ w w').
Qed.

Lemma select_finish_spec ostat res s rd m w : all_signals (r_recv rd) = false ->
  exists w', finish ostat (res, s, rd, m) w = Ret (res, s, m) w' /\ same_files w w' /\ p_stat w' = ostat /\ p_wchan w' = 0 /\
    (res = -1 -> w_errno w' = EINTR).
Proof.
  intros Hall. unfold finish. rewrite Hall. eexists. split; [done|]. destruct (Z.eqb_spec res (-1)); destruct (bset (r_recv rd) SIGBREAKF_CTRL_C), (r_sigio rd); done.
Qed.

(** What select promises for a result. *)
Definition exact_result w (nfd : Z) (s : fdsets) (timeout : option (Z * Z)) (r : Z) (s' : fdsets) w' : Prop :=
  p_stat w' = p_stat w /\ p_wchan w' = 0 /\
  ((r = -1 /\ w_errno w' = EINTR) \/
   (answered not_for_reading SELMODE_IN w' nfd (ifd s) (ifd s') /\
    answered not_for_writing SELMODE_OUT w' nfd (ofd s) (ofd s') /\
    answered never SELMODE_EXC w' nfd (efd s) (efd s') /\
    r = members (Z.to_nat nfd) 0 (ifd s') + members (Z.to_nat nfd) 0 (ofd s') + members (Z.to_nat nfd) 0 (efd s') /\
    (r <> 0 \/ exists t, timeout = Some t))).

Lemma settled_exact w w1 nfd s s1 s' timeout res rd m :
  0 <= nfd -> vetted_sets w 0 nfd s s1 -> moved w w1 \/ moved (set_stat w SSLEEP (p_wchan w1)) w1 ->
  settled nfd s1 timeout w1 res s' -> all_signals (r_recv rd) = false ->
  exists w', finish (p_stat w) (res, s', rd, m) w1 = Ret (res, s', m) w' /\ exact_result w nfd s timeout res s' w'.
Proof.
  intros Hn (V1 & V2 & V3) M Hset Hall. destruct (select_finish_spec (p_stat w) res s' rd m w1 Hall) as (w' & E & Hsame & Hst & Hwc & He).
  exists w'. split; [done|]. split; [done|]. split; [done|]. destruct Hset as [->|(-> & Hwhy & C1 & C2 & C3)]; [left; auto|right].
  assert (forall bad mode x x1 x', vetted bad w 0 nfd x x1 -> copied mode w1 nfd x1 x' -> answered bad mode w' nfd x x') as Hgo.
  { intros bad mode x x1 x' V C. apply (answered_same _ _ w1); [done|].
    destruct M as [M|M]; [by eapply copied_answered|].
    apply (copied_answered bad mode (set_stat w SSLEEP (p_wchan w1)) w1 nfd x x1 x'); done. }
  split; [by eapply Hgo|]. split; [by eapply Hgo|]. split; [by eapply Hgo|]. split; [|done].
  apply total_members. intros j Hj. repeat split; eapply copied_member; try eassumption; lia.
Qed.

(** C35. ix_select without the network library, on at most 256 descriptors, for a process
    without a deliverable signal, whose asynchronous files have handlers and which never
    receives all signals of its task at once; the sets given are large enough for the
    descriptors and, while SIGIO is not ignored, for those of all open files.  For any
    schedule of what happens while it waits it never leaves its sets and tables; when it
    returns a count, each set has exactly those of the descriptors it was given that are
    open, have the handlers and are ready at that time (none for exceptions; select(2)
    announces EBADF for invalid ones), the count is the number of bits set, and it is 0
    only with a timeout; otherwise it returns -1 with EINTR; the state of the process is
    restored.  It waits only if nothing asked for was ready. *)
Theorem select_exact w chan nfd s timeout origmask sched :
  process_ok w -> request_ok nfd s w -> 0 <= nfd <= 256 -> never_all (sync_sig w) sched ->
  match ix_select false chan nfd s timeout origmask sched w with
  | Ret (r, s', _) w' => exact_result w nfd s timeout r s' w'
  | Asleep _ => forall j, 0 <= j < nfd ->
      member (ifd s) j && available not_for_reading SELMODE_IN w j = false /\
      member (ofd s) j && available not_for_writing SELMODE_OUT w j = false
  | _ => False
  end.
Proof.
  intros Hp Hr Hn Hall. pose proof Hp as (T1 & _). pose proof Hr as (B1 & B2 & B3 & _). unfold ix_select.
  rewrite (proj2 (Z.ltb_ge _ _)) by (unfold NOFILE, Descrip.NOFILE; lia).
  destruct (validate_spec (Z.to_nat nfd) 0 s w) as (s1 & -> & V); rewrite ?Z.add_0_l, ?Z2Nat.id by lia;
    [lia|unfold NOFILE, Descrip.NOFILE; lia|done..|].
  rewrite Z.add_0_l, Z2Nat.id in V by lia.
  set (w0 := set_dev (set_stat w SSLEEP chan) (drain (dev (set_stat w SSLEEP chan)))).
  pose proof (request_steady w nfd s s1 Hp Hr Hn V) as Hst. assert (steady nfd s1 w0) as Hst0 by exact Hst.
  set (dotout := match timeout with Some t => isset_tv t | None => false end).
  destruct (look_decide SELCMD_POLL nfd s1 timeout dotout origmask 0 w0) as (r & w1 & d & -> & A1 & Er & Ed & Hd);
    [by right|done|subst dotout; destruct timeout; by eauto|]. cbn [obind]. rewrite Ed.
  pose proof (alike_moved _ _ A1) as M01. pose proof (steady_moved _ _ _ _ M01 Hst0) as Hst1.
  assert (moved (set_stat w SSLEEP chan) w1) as M1 by (eapply moved_trans; [by eexists|exact M01]).
  assert (p_wchan w1 = chan) as Hw1 by (destruct M1 as (? & ->); done).
  destruct d as [[res s']|].
  { destruct Hd as [Hd _]. destruct (settled_exact w w1 nfd s s1 s' timeout res r origmask) as (w' & -> & Hx);
      [lia|done|right; by rewrite Hw1|done|by rewrite Er|done]. }
  assert (never_all (sync_sig w1) sched) as Hall1 by (destruct M1 as (? & ->); done).
  pose proof (select_loop_spec nfd s1 timeout origmask (S (length sched)) sched origmask w1) as Hloop.
  destruct (select_loop _ nfd s1 timeout origmask origmask sched w1) as [[[[res s'] rd] m] w2| | | |]; cbn [obind];
    try (apply Hloop; [lia|exact Hst1|exact Hall1]).
  - destruct Hloop as (M2 & Hset & Hrd); [lia|exact Hst1|exact Hall1|].
    pose proof (moved_trans _ _ _ M1 M2) as M. assert (p_wchan w2 = chan) as Hw2 by (destruct M as (? & ->); done).
    destruct (settled_exact w w2 nfd s s1 s' timeout res rd m) as (w' & -> & Hx);
      [lia|done|right; by rewrite Hw2|done|done|done].
  - intros j Hj. pose proof V as (V1 & V2 & _).
    destruct (hits_zero s1 w0 j) as (H1 & H2 & _); [apply (total_zero (Z.to_nat nfd) 0); [done|lia]|].
    assert (moved (set_stat w SSLEEP chan) w0) as M0 by by eexists.
    rewrite (hit_vetted not_for_reading SELMODE_IN (set_stat w SSLEEP chan) w0 nfd (ifd s)) in H1 by done.
    rewrite (hit_vetted not_for_writing SELMODE_OUT (set_stat w SSLEEP chan) w0 nfd (ofd s)) in H2 by done.
    assert (forall bad mode, available bad mode w0 j = available bad mode w j) as Hav.
    { intros bad mode. unfold available, w0. rewrite file_at_set_dev. cbn [pu_ofile set_dev set_stat dev].
      change (file_at (pu_ofile w) j (set_stat w SSLEEP chan)) with (file_at (pu_ofile w) j w).
      destruct (file_at (pu_ofile w) j w) as [[[fp f]|]|]; [|done..]. by rewrite drain_keeps. }
    by rewrite !Hav in *.
Qed.
End Guarantees.

(** ** Witnesses

    The state behind the handlers is the list of the files that are ready. *)

#[export] Instance demo_ops : SelOps (list Z) := {
  f_select := fun fp cmd mode d =>
    (if cmd =? SELCMD_PREPARE then 16 else if bool_decide (fp ∈ d) then 1 else 0, d);
  drain := fun d => d
}.

#[export] Instance demo_laws : SelLaws (list Z) (fun d fp _ => bool_decide (fp ∈ d)).
Proof.
  split; [|done..]. intros fp cmd mode d Hcmd. cbn.
  assert (cmd =? SELCMD_PREPARE = false) as -> by (destruct Hcmd as [-> | ->]; done). by case_bool_decide.
Qed.

Definition sel_file : file := mk_file true true true 0.
Definition sel_table : list Z := [0; 100; 200; 0] ++ replicate 508 0.
Definition sel_world (d : list Z) : world (list Z) :=
  mk_world sel_table 2 sel_table 2 {[100 := sel_file; 200 := sel_file]} 0 4 5 3 0 0 d [].

Lemma table_lookup tbl d :
  forallb (fun i => match file_at tbl (Z.of_nat i) (sel_world d) with Some _ => true | None => false end) (seq 0 512) = true ->
  table_ok tbl (sel_world d).
Proof.
  intros Hall i Hi. rewrite forallb_forall in Hall. unfold NOFILE, Descrip.NOFILE in Hi.
  specialize (Hall (Z.to_nat i)). rewrite Z2Nat.id in Hall by lia.
  destruct (file_at tbl i (sel_world d)) as [o|]; [by exists o|]. discriminate Hall. apply in_seq. lia.
Qed.

Lemma sel_world_ok d : process_ok (sel_world d).
Proof.
  split; [apply table_lookup; vm_compute; reflexivity|]. split; [apply table_lookup; vm_compute; reflexivity|].
  split; [cbn; unfold NOFILE, Descrip.NOFILE; lia|]. split; [cbn; unfold NOFILE, Descrip.NOFILE; lia|].
  intros fp f Hf. cbn in Hf. apply lookup_insert_Some in Hf as [[_ <-]|[_ Hf]]; [done|].
  apply lookup_singleton_Some in Hf as [_ <-]. done.
Qed.

(** Descriptors 1 and 2 are asked for; the second becomes ready while the process
    waits. *)
Lemma select_exact_witness :
  exists s' m w', ix_select false 9 3 (mk_sets (Some [6]) None None) None 0
    [mk_waked 16 false (fun _ => [200])] (sel_world []) = Ret (1, s', m) w' /\
    exact_result (ready := fun d fp _ => bool_decide (fp ∈ d)) (sel_world []) 3 (mk_sets (Some [6]) None None) None 1 s' w' /\ ifd s' = Some [4].
Proof.
  pose proof (select_exact (ready := fun d fp _ => bool_decide (fp ∈ d)) (sel_world []) 9 3 (mk_sets (Some [6]) None None) None 0
    [mk_waked 16 false (fun _ => [200])]) as Hx.
  assert (exists s' m w', ix_select false 9 3 (mk_sets (Some [6]) None None) None 0
    [mk_waked 16 false (fun _ => [200])] (sel_world []) = Ret (1, s', m) w' /\ ifd s' = Some [4]) as (s' & m & w' & E & Hs')
    by (eexists _, _, _; split; [vm_compute; reflexivity|reflexivity]).
  exists s', m, w'. split; [exact E|]. rewrite E in Hx. split; [|exact Hs'].
  apply Hx; [apply sel_world_ok| |lia|by repeat constructor]. repeat split; cbn; unfold NFDBITS; lia.
Defined.

(** The local sets have 256 bits, the table 512 entries: a ready descriptor
    behind the first 256 is stored outside the set. *)
Example select_beyond_setsize :
  ix_select false 9 301 (mk_sets (Some (replicate 9 0 ++ [2 ^ 12])) None None) None 0 []
    (mk_world (replicate 300 0 ++ 100 :: replicate 211 0) 300 (replicate 300 0 ++ 100 :: replicate 211 0) 300
       {[100 := sel_file]} 0 4 5 3 0 0 [100] []) = Fault.
Proof. vm_compute. reflexivity. Qed.

(** A descriptor that is not open is dropped from its set: the result is 0, where
    select(2) announces EBADF. *)
Example select_drops_invalid :
  match ix_select false 9 4 (mk_sets (Some [8]) None None) (Some (0, 0)) 0 [] (sel_world [100]) with
  | Ret (r, s, _) w => r = 0 /\ ifd s = Some [0] /\ w_errno w = 0
  | _ => False
  end.
Proof. vm_compute. repeat split. Qed.

(** A caller whose set has only the words for the descriptors it names: with SIGIO
    enabled and an asynchronous file of a higher number select reads behind the set. *)
Example select_reads_behind_set :
  ix_select false 9 3 (mk_sets (Some [6]) None None) (Some (0, 0)) 0 []
    (mk_world (replicate 40 0 ++ 100 :: replicate 471 0) 41 (replicate 40 0 ++ 100 :: replicate 471 0) 41
       {[100 := mk_file true true true FASYNC]} 0 4 5 3 0 0 [100] []) = Fault.
Proof. vm_compute. reflexivity. Qed.
