(* ===== verification/Tty.v ===== *)
(** * Terminals: data and operations

    Models library/__tioctl.c, the ioctl calls on consoles, and the dispatch of
    library/__ioctl.c and library/ioctl.c.  The structures the calls fill in or
    read are records; the commands are a type, grouped as their codes are.  The
    process group of the session of the process is an argument and part of the
    result. *)

From S2P Require Import Prelude Descrip Dos Fileio.

Module Tty.
Import Fio.

Definition IGNBRK : Z := 0x1.
Definition INLCR : Z := 0x40.
Definition ICRNL : Z := 0x100.
Definition OPOST : Z := 0x1.
Definition ONLCR : Z := 0x2.
Definition CS8 : Z := 0x300.
Definition CLOCAL : Z := 0x8000.
Definition ECHOKE : Z := 0x1.
Definition ECHOE : Z := 0x2.
Definition ECHOK : Z := 0x4.
Definition ECHO : Z := 0x8.
Definition ECHOCTL : Z := 0x40.
Definition ISIG : Z := 0x80.
Definition ICANON : Z := 0x100.
Definition IEXTEN : Z := 0x400.
Definition EXTB : Z := 38400.
Definition OEXTB : Z := 15.
Definition CBREAK : Z := 0x2.
Definition CRMOD : Z := 0x10.
Definition RAW : Z := 0x20.
Definition ODDP : Z := 0x40.
Definition EVENP : Z := 0x80.
Definition ANYP : Z := 0xc0.
Definition ENOTTY : Z := 25.
Definition STDIN : Z := 0.
Definition STDOUT : Z := 1.

Record termios := mk_termios {
  c_iflag : Z; c_oflag : Z; c_cflag : Z; c_lflag : Z;
  c_cc : list (Z * Z);             (** the characters that are stored, by index *)
  c_ispeed : Z; c_ospeed : Z
}.

Record sgttyb := mk_sgttyb { sg_ispeed : Z; sg_ospeed : Z; sg_erase : Z; sg_kill : Z; sg_flags : Z }.

Record winsize := mk_winsize { ws_row : Z; ws_col : Z; ws_xpixel : Z; ws_ypixel : Z }.

Inductive tcmd :=
| TIOCGETA
| TIOCSETA (t : termios)           (** also TIOCSETAW and TIOCSETAF *)
| TIOCGETP
| TIOCSETP (s : sgttyb)            (** also TIOCSETN *)
| TIOCGWINSZ
| TIOCSPGRP (pgrp : Z)
| TIOCGPGRP
| TIOCOUTQ
| TIOCPKT (on : Z)
| TIOCother.                       (** TIOCSWINSZ and unknown commands *)

(** What is stored at the address given. *)
Inductive reply :=
| Nothing | Termios (t : termios) | Sgttyb (s : sgttyb) | Winsize (s : winsize) | Int (n : Z).

Definition flag (b : bool) (v : Z) : Z := if b then v else 0.

(** The control characters of TIOCGETA, in the order of the stores. *)
Definition control_chars : list (Z * Z) :=
  [(12, 17); (13, 19); (10, 26); (11, 0); (6, 18); (15, 15); (4, 23); (14, 22); (18, 0); (8, 3); (9, 28); (3, 127);
   (5, 21); (0, 4); (1, 0); (2, 0)].

Definition get_termios (t : Z) : termios :=
  mk_termios
    (Z.lor (Z.lor IGNBRK (flag (bset t IXTTY_ICRNL) ICRNL)) (flag (bset t IXTTY_INLCR) INLCR))
    (if bset t IXTTY_OPOST then Z.lor OPOST (flag (bset t IXTTY_ONLCR) ONLCR) else 0)
    (Z.lor CS8 CLOCAL)
    (Z.lor (Z.lor ECHOCTL (Z.lor ISIG IEXTEN))
       (if bset t IXTTY_RAW then 0 else Z.lor ICANON (Z.lor ECHO (Z.lor ECHOE (Z.lor ECHOK ECHOKE)))))
    control_chars EXTB EXTB.

(** [if (b) t |= v; else t &= ~v;] *)
Definition put_flag (b : bool) (t v : Z) : Z := if b then Z.lor t v else bclr t v.

(** The flags of TIOCSETA, after the change of the mode. *)
Definition termios_flags (x : termios) (t : Z) : Z :=
  let t := put_flag (bset (c_iflag x) ICRNL) t IXTTY_ICRNL in
  let t := put_flag (bset (c_iflag x) INLCR) t IXTTY_INLCR in
  if bset (c_oflag x) OPOST then
    put_flag (bset (c_oflag x) ONLCR) (Z.lor t IXTTY_OPOST) IXTTY_ONLCR
  else bclr t IXTTY_OPOST.

Definition get_sgttyb (t : Z) : sgttyb :=
  mk_sgttyb OEXTB OEXTB 8 24
    (Z.lor (Z.lor ODDP (Z.lor EVENP ANYP))
       (Z.lor (if bset t IXTTY_RAW then Z.lor CBREAK RAW else Z.lor ECHO CRMOD) (flag (bset t IXTTY_ICRNL) CRMOD))).

Definition CRLF_FLAGS : Z := Z.lor IXTTY_ICRNL (Z.lor IXTTY_OPOST IXTTY_ONLCR).

(** The flags of TIOCSETP, after the change of the mode. *)
Definition sgttyb_flags (x : sgttyb) (t : Z) : Z :=
  put_flag (bset (sg_flags x) CRMOD) (bclr t IXTTY_INLCR) CRLF_FLAGS.

(** ** The size of the window *)

Definition WindowStatusReport : list Z := [0x9b; 32; 113].

(** Decimal digits, for [%d]. *)
Fixpoint scan_digits (s : list Z) (acc : option Z) : option Z * list Z :=
  match s with
  | c :: s' => if (48 <=? c) && (c <=? 57) then scan_digits s' (Some (default 0 acc * 10 + (c - 48))) else (acc, s)
  | [] => (acc, [])
  end.
Fixpoint skip_blanks (s : list Z) : list Z :=
  match s with c :: s' => if (c =? 32) || ((9 <=? c) && (c <=? 13)) then skip_blanks s' else s | [] => [] end.
Definition scan_int (s : list Z) : option (Z * list Z) :=
  let s := skip_blanks s in
  let '(neg, s) := match s with c :: s' => if c =? 45 then (true, s') else if c =? 43 then (false, s') else (false, s) | [] => (false, []) end in
  match scan_digits s None with
  | (Some v, s) => Some (if neg then - v else v, s)
  | (None, _) => None
  end.

Fixpoint scan_lit (lit s : list Z) : option (list Z) :=
  match lit, s with
  | [], _ => Some s
  | l :: lit, c :: s => if l =? c then scan_lit lit s else None
  | _, [] => None
  end.

(** [sscanf (s, "1;1;%d;%d r", &row, &col)]: what is stored before it stops. *)
Definition scan_size (s : list Z) (row col : Z) : Z * Z :=
  match scan_lit [49; 59; 49; 59] s with
  | None => (row, col)
  | Some s =>
    match scan_int s with
    | None => (row, col)
    | Some (r, s) =>
      match scan_lit [59] s with
      | None => (r, col)
      | Some s => match scan_int s with Some (c, _) => (r, c) | None => (r, col) end
      end
    end
  end.

(** The first control sequence introducer among the first [n] bytes. *)
Fixpoint find_csi (n : nat) (buf : list Z) : nat :=
  match n, buf with
  | S n, c :: buf => if c =? 0x9b then O else S (find_csi n buf)
  | _, _ => O
  end.

Section Ioctl.
Context {H : Type} `{!DosOps H}.

(** [f->f_ttyflags = v] *)
Definition set_ttyflags (fp v : Z) (w : world H) : outcome (world H) () :=
  match handle fp w with
  | Some (f, h, _) => Ret () (put_file w fp (set_fh f (FH h v)))
  | None => Fault
  end.

(** Standard input and output share their flags. *)
Definition share_flags (fp : Z) (w : world H) : outcome (world H) () :=
  let? t := ttyflags fp w in
  let? fi := aget (u_ofile w) STDIN in
  let? fo := aget (u_ofile w) STDOUT in
  if fp =? fi then set_ttyflags fo t w
  else if fp =? fo then set_ttyflags fi t w
  else Ret () w.

(** [buf0]: the array Buffer of 32 bytes before the call. *)
Definition window_size (buf0 : list Z) (fp : Z) (w : world H) : outcome (world H) (Z * reply) :=
  let* (_r, w) := Write fp WindowStatusReport w in
  let* (ready, w) := WaitForChar fp 0 w in
  let* (r, w) :=
    (if ready : bool then Read fp 31 w
     else
       let* (_r, w) := SetMode fp 1 w in
       let* (_r, w) := Write fp WindowStatusReport w in
       let* (r, w) := Read fp 31 w in
       let* (_r, w) := SetMode fp 0 w in
       Ret r w) in
  let size := r.1 in
  if size <=? 0 then Ret (-1, Nothing) w
  else
    let buf := overwrite (overwrite buf0 0 r.2) size [0] in
    let index := find_csi (Z.to_nat size) buf in
    if (32 <=? index + 1)%nat then Fault
    else
      let '(row, col) := scan_size (drop (index + 1) buf) 24 80 in
      Ret (0, Winsize (mk_winsize (u16 row) (u16 col) (u16 (col * 8)) (u16 (row * 8)))) w.

(** The switch: the result, what is stored, and the group of the session. *)
Definition tioctl_body (buf0 : list Z) (getpgrp : Z) (sess : option Z) (fp : Z) (cmd : tcmd) (w : world H)
    : outcome (world H) ((Z * reply * option Z) * Z) :=
  let? tty := IsInteractive fp w in
  let? t := ttyflags fp w in
  if negb tty then Ret ((-1, Nothing, sess), ENOTTY) w
  else
    match cmd with
    | TIOCGETA => Ret ((0, Termios (get_termios t), sess), 0) w
    | TIOCSETA x =>
      let makeraw := negb (Z.land (c_lflag x) (Z.lor ICANON ECHO) =? Z.lor ICANON ECHO) in
      let* (_u, w) :=
        (if negb makeraw && bset t IXTTY_RAW then
           let* (_u, w) := set_ttyflags fp (bclr t IXTTY_RAW) w in
           let* (_r, w) := SetMode fp 0 w in Ret () w
         else if makeraw && negb (bset t IXTTY_RAW) then
           let* (_u, w) := set_ttyflags fp (Z.lor t IXTTY_RAW) w in
           let* (_r, w) := SetMode fp 1 w in Ret () w
         else Ret () w) in
      let? t := ttyflags fp w in
      let* (_u, w) := set_ttyflags fp (termios_flags x t) w in
      let* (_u, w) := share_flags fp w in
      Ret ((0, Nothing, sess), 0) w
    | TIOCGETP => Ret ((0, Sgttyb (get_sgttyb t), sess), 0) w
    | TIOCSETP x =>
      let raw := bset (sg_flags x) (Z.lor RAW CBREAK) in
      let* (_u, w) := set_ttyflags fp (put_flag raw t IXTTY_RAW) w in
      let* (_r, w) := SetMode fp (if raw then 1 else 0) w in
      let? t := ttyflags fp w in
      let* (_u, w) := set_ttyflags fp (sgttyb_flags x t) w in
      let* (_u, w) := share_flags fp w in
      Ret ((0, Nothing, sess), 0) w
    | TIOCGWINSZ => let* (r, w) := window_size buf0 fp w in Ret ((r.1, r.2, sess), 0) w
    | TIOCSPGRP pgrp => Ret ((0, Nothing, option_map (fun _ => pgrp) sess), 0) w
    | TIOCGPGRP => Ret ((0, Int (default getpgrp sess), sess), 0) w
    | TIOCOUTQ => Ret ((0, Int 0, sess), 0) w
    | TIOCPKT on =>
      let* (_u, w) := set_ttyflags fp (put_flag (negb (on =? 0)) t IXTTY_PKT) w in
      Ret ((0, Nothing, sess), 0) w
    | TIOCother => Ret ((0, Nothing, sess), 0) w
    end.

Definition __tioctl (buf0 : list Z) (getpgrp : Z) (sess : option Z) (fp : Z) (cmd : tcmd) (w : world H)
    : outcome (world H) (Z * reply * option Z) :=
  exclusive fp (tioctl_body buf0 getpgrp sess fp cmd) w.

(** ** library/__ioctl.c, library/ioctl.c *)

(** The group of a command, [(cmd >> 8) & 0xff]: t or T, f, or another one. *)
Inductive command := Terminal (c : tcmd) | File (c : fcmd) | Other.

Definition __ioctl (buf0 : list Z) (getpgrp : Z) (sess : option Z) (fp : Z) (cmd : command) (w : world H)
    : outcome (world H) (Z * reply * option Z) :=
  match cmd with
  | Terminal c => __tioctl buf0 getpgrp sess fp c w
  | File c =>
    let* (r, w) := __fioctl fp c w in
    Ret (r.1, match r.2 with Some n => Int n | None => Nothing end, sess) w
  | Other => Ret (-1, Nothing, sess) w
  end.

(** ioctl uses the table of the process itself.  [has_ioctl]: f_ioctl is not NULL
    (it is __ioctl for the files modelled here). *)
Definition ioctl (buf0 : list Z) (getpgrp : Z) (sess : option Z) (has_ioctl : bool) (fd : Z) (cmd : command) (w : world H)
    : outcome (world H) (Z * reply * option Z) :=
  match open_file (u_ofile w) fd with
  | None => Ret (-1, Nothing, sess) (set_errno w EBADF)
  | Some fp =>
    if has_ioctl then __ioctl buf0 getpgrp sess fp cmd w
    else Ret (-1, Nothing, sess) (set_errno w Descrip.EIO)
  end.
End Ioctl.
End Tty.
