(* ===== verification/TtyTheorems.v ===== *)
(** * Terminals: theorems

    What TIOCSETA stores is what TIOCGETA reports, standard input and output
    agree afterwards, and the calls that miss the other one. *)

From S2P Require Import Prelude Descrip Dos Fileio FileioProofs FileioTheorems Tty.
Import Fio Tty.

(** ** Flags *)

Lemma put_flag_same b t v : v <> 0 -> bset (put_flag b t v) v = b.
Proof.
  intros Hv. unfold put_flag, bset, bclr. destruct b.
  - apply negb_true_iff, Z.eqb_neq. rewrite Z.land_lor_distr_l, Z.land_diag. intros [_ E]%Z.lor_eq_0_iff. done.
  - apply negb_false_iff, Z.eqb_eq. rewrite <- Z.land_assoc, (Z.land_comm (Z.lnot v)), Z.land_lnot_diag. apply Z.land_0_r.
Qed.

Lemma put_flag_other b t v u : Z.land v u = 0 -> bset (put_flag b t v) u = bset t u.
Proof.
  intros Hvu. unfold put_flag, bset, bclr. do 2 f_equal. destruct b.
  - by rewrite Z.land_lor_distr_l, Hvu, Z.lor_0_r.
  - rewrite <- Z.land_assoc. f_equal. apply Z.bits_inj'. intros k Hk. rewrite Z.land_spec, Z.lnot_spec by done.
    apply (f_equal (fun z => Z.testbit z k)) in Hvu. rewrite Z.land_spec, Z.bits_0 in Hvu.
    destruct (Z.testbit v k), (Z.testbit u k); done.
Qed.

Lemma tty_bset_lor m n b : bset (Z.lor m n) b = bset m b || bset n b.
Proof.
  unfold bset. rewrite Z.land_lor_distr_l. destruct (Z.eqb_spec (Z.land m b) 0) as [->|Hm].
  - by rewrite Z.lor_0_l.
  - cbn. apply negb_true_iff, Z.eqb_neq. by intros [? _]%Z.lor_eq_0_iff.
Qed.

(** The flags after TIOCSETA. *)
Lemma termios_flags_spec x t :
  bset (termios_flags x t) IXTTY_ICRNL = bset (c_iflag x) ICRNL /\
  bset (termios_flags x t) IXTTY_INLCR = bset (c_iflag x) INLCR /\
  bset (termios_flags x t) IXTTY_OPOST = bset (c_oflag x) OPOST /\
  (bset (c_oflag x) OPOST = true -> bset (termios_flags x t) IXTTY_ONLCR = bset (c_oflag x) ONLCR) /\
  bset (termios_flags x t) IXTTY_RAW = bset t IXTTY_RAW.
Proof.
  unfold termios_flags. destruct (bset (c_oflag x) OPOST); cbn zeta.
  - change (Z.lor ?a IXTTY_OPOST) with (put_flag true a IXTTY_OPOST).
    repeat split; intros; repeat first [rewrite put_flag_same by done | rewrite put_flag_other by done]; done.
  - change (bclr ?a IXTTY_OPOST) with (put_flag false a IXTTY_OPOST).
    repeat split; intros; repeat first [rewrite put_flag_same by done | rewrite put_flag_other by done]; done.
Qed.

(** What TIOCGETA reports of flags. *)
Lemma get_termios_spec t :
  let y := get_termios t in
  bset (c_iflag y) ICRNL = bset t IXTTY_ICRNL /\ bset (c_iflag y) INLCR = bset t IXTTY_INLCR /\
  bset (c_oflag y) OPOST = bset t IXTTY_OPOST /\ bset (c_oflag y) ONLCR = bset t IXTTY_OPOST && bset t IXTTY_ONLCR /\
  bset (c_lflag y) ICANON = negb (bset t IXTTY_RAW) /\ bset (c_lflag y) ECHO = negb (bset t IXTTY_RAW).
Proof.
  cbn zeta. unfold get_termios. cbn [c_iflag c_oflag c_lflag].
  destruct (bset t IXTTY_ICRNL), (bset t IXTTY_INLCR), (bset t IXTTY_OPOST), (bset t IXTTY_ONLCR), (bset t IXTTY_RAW);
    repeat split; reflexivity.
Qed.

Section Terminals.
Context {H : Type} {on_file : H -> list Z -> Z -> Prop} {on_tty : H -> list Z -> Prop}.
Context `{!DosOps H} `{!DosLaws H on_file on_tty}.
Implicit Types (w : world H) (f : file H) (h : H).

Lemma set_ttyflags_at w fp f t h v : set_ttyflags fp v (at_h w fp f t h) = Ret () (at_h w fp f v h).
Proof. unfold set_ttyflags. rewrite handle_at. unfold at_h. by rewrite put_put. Qed.

Lemma SetMode_at w fp f t h m r h' :
  dos_SetMode m h = (r, h') -> SetMode fp m (at_h w fp f t h) = Ret r (at_h w fp f t h').
Proof. intros E. unfold SetMode. by rewrite on_handle_at, E. Qed.

(** A body that changes other files as well. *)
Lemma held_any {A} (body : world H -> outcome (world H) A) w fp f r w1 f' :
  files w !! fp = Some f -> unlocked f -> unlocked f' -> quiet w ->
  body (put_file (blocked w) fp (lock f)) = Ret r w1 -> files w1 !! fp = Some (lock f') ->
  held fp body w = Ret r (set_sigmask (put_file w1 fp f') (p_sigmask w)).
Proof.
  intros Hf Hu Hu' Hq Hb Hf1. unfold held. cbn [sigsetmask]. rewrite (get_file_free _ fp f) by done. cbn [obind].
  fold (blocked w). rewrite Hb. cbn [obind]. rewrite (release_locked _ fp f') by done. cbn [obind sigsetmask snd].
  unfold quiet in Hq. by rewrite Hq.
Qed.

(** The other one of standard input and output. *)
Definition partner (fp : Z) w : option Z :=
  match aget (u_ofile w) STDIN, aget (u_ofile w) STDOUT with
  | Some fi, Some fo => if fp =? fi then Some fo else if fp =? fo then Some fi else None
  | _, _ => None
  end.

(** The other one is open and is a file with a handle. *)
Definition partner_ok (fp : Z) w : Prop :=
  forall q, partner fp w = Some q -> exists fq hq tq, files w !! q = Some fq /\ f__fh fq = FH hq tq.

Lemma share_flags_spec w fp f t h :
  (2 <= length (u_ofile w))%nat -> partner_ok fp w ->
  exists w1, share_flags fp (at_h w fp f t h) = Ret () w1 /\ files w1 !! fp = Some (set_fh f (FH h t)) /\
    (forall q, partner fp w = Some q -> ttyflags q w1 = Some t) /\ p_sigmask w1 = p_sigmask w /\
    u_ofile w1 = u_ofile w.
Proof.
  intros Hl Hp. unfold share_flags. on_h. change (u_ofile (at_h w fp f t h)) with (u_ofile w).
  unfold partner_ok, partner in *.
  destruct (aget_is_Some (u_ofile w) STDIN) as [fi Ei]; [unfold STDIN; lia|].
  destruct (aget_is_Some (u_ofile w) STDOUT) as [fo Eo]; [unfold STDOUT; lia|]. rewrite Ei, Eo in *.
  assert (forall q, (exists fq hq tq, files w !! q = Some fq /\ f__fh fq = FH hq tq) ->
    exists w1, set_ttyflags q t (at_h w fp f t h) = Ret () w1 /\ files w1 !! fp = Some (set_fh f (FH h t)) /\
      ttyflags q w1 = Some t /\ p_sigmask w1 = p_sigmask w /\ u_ofile w1 = u_ofile w) as Hgo.
  { intros q (fq & hq & tq & Eq & Ehq). destruct (Z.eq_dec q fp) as [->|Hne].
    - rewrite set_ttyflags_at. eexists. split; [done|]. split; [apply at_h_lookup|]. by rewrite ttyflags_at.
    - assert (handle q (at_h w fp f t h) = Some (fq, hq, tq)) as Ehandle.
      { unfold handle, at_h, put_file. cbn [files set_files]. by rewrite lookup_insert_ne, Eq, Ehq. }
      unfold set_ttyflags. rewrite Ehandle. eexists. split; [done|]. cbn [files put_file set_files].
      split; [rewrite lookup_insert_ne by done; apply at_h_lookup|].
      split; [|done]. unfold ttyflags, handle, put_file. cbn [files set_files]. by rewrite lookup_insert_eq. }
  destruct (fp =? fi) eqn:Efi; [|destruct (fp =? fo) eqn:Efo].
  - destruct (Hgo fo (Hp fo eq_refl)) as (w1 & -> & ? & ? & ? & ?). exists w1. repeat split; try done. by intros q [= <-].
  - destruct (Hgo fi (Hp fi eq_refl)) as (w1 & -> & ? & ? & ? & ?). exists w1. repeat split; try done. by intros q [= <-].
  - eexists. split; [done|]. split; [apply at_h_lookup|]. done.
Qed.

(** TIOCSETA asks for raw mode unless both flags are set. *)
Definition wants_raw (x : termios) : bool := negb (Z.land (c_lflag x) (Z.lor ICANON ECHO) =? Z.lor ICANON ECHO).

Lemma seta_body buf0 pg sess w fp f t h out x :
  on_tty h out -> (2 <= length (u_ofile w))%nat -> partner_ok fp w ->
  exists t1 h' w1, tioctl_body buf0 pg sess fp (TIOCSETA x) (at_h w fp f t h) = Ret ((0, Nothing, sess), 0) w1 /\
    bset t1 IXTTY_RAW = wants_raw x /\ on_tty h' out /\ files w1 !! fp = Some (set_fh f (FH h' (termios_flags x t1))) /\
    (forall q, partner fp w = Some q -> ttyflags q w1 = Some (termios_flags x t1)) /\
    p_sigmask w1 = p_sigmask w /\ u_ofile w1 = u_ofile w.
Proof.
  intros Ho Hl Hp. destruct (tty_handle _ _ Ho) as [_ Hi]. unfold tioctl_body. on_h. rewrite Hi. cbn [negb]. fold (wants_raw x).
  assert (exists t1 h1, (if negb (wants_raw x) && bset t IXTTY_RAW
     then let* (_u, w) := set_ttyflags fp (bclr t IXTTY_RAW) (at_h w fp f t h) in let* (_r, w) := SetMode fp 0 w in Ret () w
     else if wants_raw x && negb (bset t IXTTY_RAW)
     then let* (_u, w) := set_ttyflags fp (Z.lor t IXTTY_RAW) (at_h w fp f t h) in let* (_r, w) := SetMode fp 1 w in Ret () w
     else Ret () (at_h w fp f t h)) = Ret () (at_h w fp f t1 h1) /\ bset t1 IXTTY_RAW = wants_raw x /\ on_tty h1 out)
    as (t1 & h1 & -> & Ht1 & Ho1).
  { assert (forall m v, exists h1, (let* (_u, w) := set_ttyflags fp v (at_h w fp f t h) in let* (_r, w) := SetMode fp m w in Ret () w) =
      Ret () (at_h w fp f v h1) /\ on_tty h1 out) as Hmode.
    { intros m v. rewrite set_ttyflags_at. cbn [obind]. destruct (tty_mode h out m Ho) as (r & h1 & E & Ho1).
      rewrite (SetMode_at _ _ _ _ _ _ _ _ E). cbn [obind]. eauto. }
    destruct (wants_raw x) eqn:Ex, (bset t IXTTY_RAW) eqn:Et; cbn [negb andb].
    - exists t, h. done.
    - destruct (Hmode 1 (Z.lor t IXTTY_RAW)) as (h1 & -> & ?). eexists _, h1. split; [done|]. split; [|done].
      change (Z.lor t IXTTY_RAW) with (put_flag true t IXTTY_RAW). by rewrite put_flag_same.
    - destruct (Hmode 0 (bclr t IXTTY_RAW)) as (h1 & -> & ?). eexists _, h1. split; [done|]. split; [|done].
      change (bclr t IXTTY_RAW) with (put_flag false t IXTTY_RAW). by rewrite put_flag_same.
    - exists t, h. done. }
  cbn [obind]. on_h. rewrite set_ttyflags_at. cbn [obind].
  destruct (share_flags_spec w fp f (termios_flags x t1) h1 Hl Hp) as (w1 & -> & ? & ? & ? & ?). cbn [obind].
  exists t1, h1, w1. done.
Qed.

(** What TIOCSETA stores is what TIOCGETA reports: the translation of
    carriage returns and newlines on input, the processing of output, and (only
    with that) the carriage return before newlines; ICANON and ECHO are reported
    together, set exactly if both were asked for.  Standard input and output have
    the same flags afterwards if the call was on one of them and the other one is
    open. *)
Theorem termios_roundtrip buf0 pg sess w fp f t h out x :
  files w !! fp = Some f -> f__fh f = FH h t -> unlocked f -> quiet w -> on_tty h out ->
  (2 <= length (u_ofile w))%nat -> partner_ok fp w ->
  exists w1 w2 y, __tioctl buf0 pg sess fp (TIOCSETA x) w = Ret (0, Nothing, sess) w1 /\
    (forall q, partner fp w = Some q -> ttyflags q w1 = ttyflags fp w1) /\
    __tioctl buf0 pg sess fp TIOCGETA w1 = Ret (0, Termios y, sess) w2 /\
    bset (c_iflag y) ICRNL = bset (c_iflag x) ICRNL /\ bset (c_iflag y) INLCR = bset (c_iflag x) INLCR /\
    bset (c_oflag y) OPOST = bset (c_oflag x) OPOST /\
    bset (c_oflag y) ONLCR = bset (c_oflag x) OPOST && bset (c_oflag x) ONLCR /\
    bset (c_lflag y) ICANON = negb (wants_raw x) /\ bset (c_lflag y) ECHO = negb (wants_raw x).
Proof.
  intros Hf Hh Hu Hq Ho Hl Hp. pose proof (at_h_id w fp f t h Hf Hh) as Hid.
  assert (partner_ok fp (blocked w)) as Hp' by exact Hp.
  destruct (seta_body buf0 pg sess (blocked w) fp (lock f) t h out x Ho Hl Hp') as (t1 & h1 & wb & Eb & Hraw & Ho1 & Hfp & Hpart & Hm & Hof).
  set (t2 := termios_flags x t1) in *. set (f2 := set_fh f (FH h1 t2)).
  set (w1 := set_errno (set_sigmask (put_file wb fp f2) (p_sigmask w)) 0).
  assert (held fp (tioctl_body buf0 pg sess fp (TIOCSETA x)) w = Ret ((0, Nothing, sess), 0) (set_sigmask (put_file wb fp f2) (p_sigmask w))) as E1.
  { apply (held_any _ w fp f _ wb f2); try done.
    rewrite <- Eb. f_equal. unfold at_h. f_equal. destruct f; cbn in *; by subst. }
  assert (files w1 !! fp = Some f2) as Hf2 by (unfold w1; cbn [files set_errno set_sigmask put_file set_files]; apply lookup_insert_eq).
  assert (quiet w1) as Hq1 by exact Hq.
  assert (ttyflags fp w1 = Some t2) as Ht1 by (unfold ttyflags, handle; by rewrite Hf2).
  pose proof (at_h_id w1 fp f2 t2 h1 Hf2 eq_refl) as Hid1. destruct (tty_handle _ _ Ho1) as [_ Hi1].
  exists w1, (set_errno w1 0), (get_termios t2).
  split; [unfold __tioctl, exclusive; rewrite E1; done|]. split.
  { intros q Eq. rewrite Ht1. destruct (Z.eq_dec q fp) as [->|Hne]; [done|].
    rewrite <- (Hpart q Eq). unfold ttyflags, handle, w1. cbn [files set_errno set_sigmask put_file set_files].
    by rewrite lookup_insert_ne by congruence. }
  split.
  { unfold __tioctl. rewrite <- Hid1 at 1. rewrite (exclusive_at _ _ _ _ _ _ ((0, Termios (get_termios t2), sess), 0) h1); [by rewrite Hid1|done|done|].
    unfold tioctl_body. on_h. by rewrite Hi1. }
  destruct (get_termios_spec t2) as (G1 & G2 & G3 & G4 & G5 & G6). destruct (termios_flags_spec x t1) as (F1 & F2 & F3 & F4 & F5).
  fold t2 in F1, F2, F3, F4, F5. rewrite G1, G2, G3, G4, G5, G6, F1, F2, F3, F5, Hraw. repeat split.
  destruct (bset (c_oflag x) OPOST); [by rewrite F4|done].
Qed.
End Terminals.

(** ** Witnesses *)

Definition tty_world (out : Z) : world ram_handle :=
  mk_world ([1000; out] ++ replicate 510 0) None 0
    {[1000 := demo_file 3 6 demo_tty; 2000 := demo_file 3 0 demo_tty]} 0 [] [].

Definition raw_termios : termios := mk_termios ICRNL OPOST 0 ICANON [] 0 0.

Lemma termios_roundtrip_witness :
  exists w1 w2 y, __tioctl [] 1 None 1000 (TIOCSETA raw_termios) (tty_world 2000) = Ret (0, Nothing, None) w1 /\
    ttyflags 2000 w1 = ttyflags 1000 w1 /\
    __tioctl [] 1 None 1000 TIOCGETA w1 = Ret (0, Termios y, None) w2 /\
    bset (c_iflag y) ICRNL = true /\ bset (c_lflag y) ICANON = false.
Proof.
  destruct (termios_roundtrip [] 1 None (tty_world 2000) 1000 (demo_file 3 6 demo_tty) 6 demo_tty [] raw_termios)
    as (w1 & w2 & y & E1 & Hq & E2 & H1 & _ & _ & _ & H5 & _);
    [reflexivity|reflexivity|reflexivity|reflexivity|split; reflexivity|cbn; lia| |].
  - intros q Hq. exists (demo_file 3 0 demo_tty), demo_tty, 0. injection Hq as <-. split; reflexivity.
  - exists w1, w2, y. split; [exact E1|]. split; [apply Hq; reflexivity|]. split; [exact E2|]. split; [exact H1|exact H5].
Defined.

(** With standard output closed, the call on standard input stores through a
    NULL pointer. *)
Example termios_stdout_closed : __tioctl [] 1 None 1000 (TIOCSETA raw_termios) (tty_world 0) = Fault.
Proof. vm_compute. reflexivity. Qed.
