(* ===== verification/Sockets.v ===== *)
(** * Sockets: data and operations

    Models library/socket.c and the connections of library/unp.c: unp_socket,
    unp_bind, unp_listen, unp_connect, unp_accept and unp_getsockname, on top of
    the streams of [Unp] and the descriptors of [Descrip].  A struct file is
    seen by [Descrip] (table, lists and count) and by [Unp] (what a stream call
    needs); unp_socket fills in both.  errno and the signal mask are those of
    [Unp].  A path is its characters without the terminating zero; strcpy of one
    that does not fit its 104 bytes is a [Fault].

    The world is that of the running process; the contexts of the other
    processes are in [others], and [as_process] runs a call in one of them.
    Where a call sleeps, the next element of the schedule is what ix_sleep
    returned and what the other processes did meanwhile.

    The network library, CURSIG and creat are arguments, as is what kmalloc
    returned. *)

From S2P Require Import Prelude Unp Descrip.

Module Sock.

(** ** Constants *)

Definition SOCK_STREAM : Z := 1.
Definition PF_UNIX : Z := 1.
Definition AF_INET : Z := Descrip.AF_INET.
Definition SWAIT : Z := 2.
Definition PATH_SIZE : Z := 104.
Definition FSFF_LOCKED : Z := 0x1.
Definition FSFF_WANTLOCK : Z := 0x2.
Definition EWOULDBLOCK : Z := 35.
Definition ENOTSOCK : Z := 38.
Definition EPROTONOSUPPORT : Z := 43.
Definition EOPNOTSUPP : Z := 45.
Definition EPFNOSUPPORT : Z := 46.
Definition EADDRINUSE : Z := 48.
Definition EADDRNOTAVAIL : Z := 49.
Definition EISCONN : Z := 56.
Definition ECONNREFUSED : Z := 61.
Definition ENOSYS : Z := 78.

(** ** Data *)

(** What belongs to one process. *)
Record proc := mk_proc {
  pr_self : Descrip.user;
  pr_parent : option Descrip.user;
  pr_errno : Z;
  pr_mask : Z;
  p_stat : Z;
  u_ixnetbase : bool;               (** the network library is open *)
  ctrl_c : bool                     (** SIGBREAKF_CTRL_C is set in the task *)
}.

(** [spath] and [npath] are the paths of sockets and names (none is the empty
    path), [qbytes] the size of the memory a name has for its queue, [sync] the
    field f_sync_flags of files, [sockid] their field f_socket_id. *)
Record world := mk_world {
  un : Unp.world;
  de : Descrip.world;
  spath : gmap Z (list Z);
  npath : gmap Z (list Z);
  qbytes : gmap Z Z;
  sync : gmap Z Z;
  sockid : gmap Z Z;
  w_stat : Z;
  w_net : bool;
  w_break : bool;
  others : gmap Z proc
}.

Definition set_un w v :=
  mk_world v (de w) (spath w) (npath w) (qbytes w) (sync w) (sockid w) (w_stat w) (w_net w) (w_break w) (others w).
Definition set_de w v :=
  mk_world (un w) v (spath w) (npath w) (qbytes w) (sync w) (sockid w) (w_stat w) (w_net w) (w_break w) (others w).
Definition set_spath w v :=
  mk_world (un w) (de w) v (npath w) (qbytes w) (sync w) (sockid w) (w_stat w) (w_net w) (w_break w) (others w).
Definition set_sync w v :=
  mk_world (un w) (de w) (spath w) (npath w) (qbytes w) v (sockid w) (w_stat w) (w_net w) (w_break w) (others w).
Definition set_sockid w v :=
  mk_world (un w) (de w) (spath w) (npath w) (qbytes w) (sync w) v (w_stat w) (w_net w) (w_break w) (others w).
Definition set_stat w v :=
  mk_world (un w) (de w) (spath w) (npath w) (qbytes w) (sync w) (sockid w) v (w_net w) (w_break w) (others w).
Definition clear_break w :=
  mk_world (un w) (de w) (spath w) (npath w) (qbytes w) (sync w) (sockid w) (w_stat w) (w_net w) false (others w).

Definition w_errno (w : world) : Z := Unp.w_errno (un w).
Definition set_errno (w : world) (e : Z) : world := set_un w (Unp.set_errno (un w) e).
Definition emit (w : world) (e : Unp.event) : world := set_un w (Unp.emit (un w) e).
Definition put_sock (w : world) (a : Z) (us : Unp.unix_socket) : world := set_un w (Unp.put_sock (un w) a us).

(** syscall (SYS_sigsetmask, m) *)
Definition sigsetmask (w : world) (m : Z) : Z * world :=
  let '(old, v) := Unp.sigsetmask (un w) m in (old, set_un w v).

(** [errno = e; return -1] *)
Definition fail (w : world) (e : Z) : outcome world Z := Ret (-1) (set_errno w e).

(** [u.u_ofile[s]] *)
Definition ofile (s : Z) (w : world) : option Z := aget (Descrip.u_ofile (Descrip.cur (de w))) s.

(** A call of [Unp] or [Descrip]. *)
Definition in_un {A} (m : Unp.world -> outcome Unp.world A) (w : world) : outcome world A :=
  match m (un w) with
  | Ret a v => Ret a (set_un w v)
  | Asleep v => Asleep (set_un w v)
  | Panic s => Panic s
  | Fault => Fault
  | Diverge => Diverge
  end.

Definition in_de {A} (m : Descrip.world -> outcome Descrip.world A) (w : world) : outcome world A :=
  match m (de w) with
  | Ret a v => Ret a (set_de w v)
  | Asleep v => Asleep (set_de w v)
  | Panic s => Panic s
  | Fault => Fault
  | Diverge => Diverge
  end.

(** ** Processes *)

Definition context (w : world) : proc :=
  mk_proc (Descrip.self (de w)) (Descrip.parent (de w)) (w_errno w) (Unp.sigmask (un w)) (w_stat w) (w_net w) (w_break w).

Definition with_context (w : world) (p : proc) (rest : gmap Z proc) : world :=
  let d := de w in
  mk_world (Unp.set_mask (Unp.set_errno (un w) (pr_errno p)) (pr_mask p))
    (Descrip.mk_world (pr_self p) (pr_parent p) (Descrip.files d) (Descrip.used_files d) (Descrip.free_files d)
       (Descrip.w_errno d) (Descrip.log d))
    (spath w) (npath w) (qbytes w) (sync w) (sockid w) (p_stat p) (u_ixnetbase p) (ctrl_c p) rest.

(** The other process [p] executes [f]; [None] if there is none. *)
Definition as_process (p : Z) (f : world -> outcome world Z) (w : world) : option (Z * world) :=
  match others w !! p with
  | None => None
  | Some c =>
    match f (with_context w c (others w)) with
    | Ret r v => Some (r, with_context v (context w) (<[p := context v]> (others v)))
    | _ => None
    end
  end.

(** The same as an element of a schedule; a call that does not return leaves
    the world as it was. *)
Definition acts (p : Z) (f : world -> outcome world Z) (w : world) : world :=
  match as_process p f w with Some (_, v) => v | None => w end.

Definition schedule : Type := list (Z * (world -> world)).

(** ** The lock of a file: library/get_file.c

    The caller ignores the result. *)
Fixpoint __get_file (sched : schedule) (fp : Z) (w : world) : outcome world schedule :=
  let? _f := Unp.files (un w) !! fp in
  let flags := default 0 (sync w !! fp) in
  if negb (bset flags FSFF_LOCKED) then Ret sched (set_sync w (<[fp := Z.lor flags FSFF_LOCKED]> (sync w)))
  else
    let w := set_sync w (<[fp := Z.lor flags FSFF_WANTLOCK]> (sync w)) in
    match sched with
    | [] => Asleep w
    | (rc, env) :: sched => if rc <? 0 then Ret sched (env w) else __get_file sched fp (env w)
    end.

Definition __release_file (fp : Z) (w : world) : world :=
  let flags := default 0 (sync w !! fp) in
  let w := if bset flags FSFF_WANTLOCK then emit w (Unp.EWakeLock fp) else w in
  set_sync w (<[fp := bclr flags (Z.lor FSFF_WANTLOCK FSFF_LOCKED)]> (sync w)).

(** ** Names *)

Fixpoint find_loop (fuel : nat) (path : list Z) (name : Z) (w : world) : outcome world Z :=
  match fuel with
  | O => Diverge
  | S fuel =>
    if name =? 0 then Ret 0 w
    else
      let? n := Unp.names (un w) !! name in
      if decide (default [] (npath w !! name) = path) then Ret name w
      else find_loop fuel path (Unp.un_next n) w
  end.

Definition find_unix_name (path : list Z) (w : world) : outcome world Z :=
  find_loop (S (size (Unp.names (un w)))) path (Unp.ix_unix_names (un w)) w.

(** [mem] and [memq] are what the two calls of kmalloc return. *)
Definition add_unix_name (mem memq : Z) (path : list Z) (queue_size : Z) (w : world) : outcome world Z :=
  if mem =? 0 then Ret 0 (set_errno w ENOMEM)
  else
    let queue_size := if queue_size =? 0 then 1 else queue_size in
    if memq =? 0 then Ret 0 (set_errno w ENOMEM)
    else if PATH_SIZE <=? Z.of_nat (length path) then Fault
    else
      let v := un w in
      let n := Unp.mk_uname (Unp.ix_unix_names v) 0 queue_size [] in
      Ret mem
        (mk_world (Unp.set_names v (<[mem := n]> (Unp.names v)) mem) (de w) (spath w) (<[mem := path]> (npath w))
           (<[mem := u32 (queue_size * 4)]> (qbytes w)) (sync w) (sockid w) (w_stat w) (w_net w) (w_break w) (others w)).

(** The socket of a descriptor: its file, its address and its state. *)
Definition sock_of (s : Z) (w : world) : option (Z * Z * Unp.unix_socket) :=
  match ofile s w with
  | None => None
  | Some fp =>
    match Unp.files (un w) !! fp with
    | None => None
    | Some f => match Unp.socks (un w) !! Unp.f_ptr f with Some us => Some (fp, Unp.f_ptr f, us) | None => None end
    end
  end.

Definition path_of (a : Z) (w : world) : list Z := default [] (spath w !! a).

(** ** unp_socket

    [sock] is 0 or the socket accept has got, [kmem] the memory for a new one,
    [mem] the memory for a file structure.  Its callers pass PF_UNIX. *)

Definition FREAD_FWRITE : Z := Z.lor Descrip.FREAD Descrip.FWRITE.

Definition set_socket_file (fp us : Z) (w : world) : option world :=
  match Descrip.files (de w) !! fp with
  | None => None
  | Some f =>
    let f := Descrip.mk_file (Descrip.f_name f) (Descrip.f_stb_dirty f) (Descrip.f_type f) (Descrip.f_flags f)
               (Descrip.f_count f) (Descrip.f_close f) us (Descrip.f_sock f) (Descrip.f_stb f) in
    let f := Descrip._set_socket_params f PF_UNIX 0 0 in
    let w := set_de w (Descrip.put_file (de w) fp f) in
    Some (set_un w (Unp.put_file (un w) fp (Unp.mk_file Unp.DTYPE_USOCKET (Descrip.f_flags f) (Descrip.f_count f) us true)))
  end.

Definition unp_socket (type protocol sock kmem mem : Z) (w : world) : outcome world Z :=
  if negb (type =? SOCK_STREAM) || negb (protocol =? 0) then fail w EPROTONOSUPPORT
  else if (sock =? 0) && (kmem =? 0) then fail w ENOMEM
  else
    let us := if sock =? 0 then kmem else sock in
    let w := if sock =? 0
             then set_spath (put_sock w us (Unp.mk_usock Unp.UNS_WAITING 0 0 0 0)) (delete us (spath w)) else w in
    let '(omask, w) := sigsetmask w (-1) in
    let* (r, w) := in_de (Descrip.falloc mem) w in
    let '(err, fp, fd) := r in
    if negb (err =? 0) then
      let w := set_errno w err in
      let '(_, w) := sigsetmask w omask in
      Ret (-1) (if sock =? 0 then set_un w (Unp.set_socks (un w) (delete us (Unp.socks (un w)))) else w)
    else
      let? w := set_socket_file fp us w in
      let '(_, w) := sigsetmask w omask in
      Ret fd w.

(** ** unp_bind, unp_listen, unp_getsockname *)

(** [creat] is syscall (SYS_creat, path, 0777). *)
Definition unp_bind (creat : list Z -> world -> Z * world) (net_close : Z) (execve_close : bool)
    (s : Z) (path : list Z) (w : world) : outcome world Z :=
  let? r := sock_of s w in
  let '(_, a, _) := r in
  if negb (bool_decide (path_of a w = [])) then fail w EINVAL
  else
    let* (name, w) := find_unix_name path w in
    if negb (name =? 0) then fail w EADDRINUSE
    else
      let '(tmp, w) := creat path w in
      if tmp <? 0 then Ret (-1) w
      else
        let* (_r, w) := in_de (Descrip.close net_close execve_close tmp) w in
        if PATH_SIZE <=? Z.of_nat (length path) then Fault
        else Ret 0 (set_spath w (<[a := path]> (spath w))).

Definition unp_listen (mem memq s backlog : Z) (w : world) : outcome world Z :=
  let? r := sock_of s w in
  let '(_, a, us) := r in
  if bool_decide (path_of a w = []) || negb (Unp.unix_name us =? 0)
     || negb (Unp.to_server us =? 0) || negb (Unp.from_server us =? 0) then fail w EOPNOTSUPP
  else
    let* (name, w) := add_unix_name mem memq (path_of a w) backlog w in
    Ret (if negb (name =? 0) then 0 else -1) (put_sock w a (Unp.sock_set_name us name)).

(** The result, the path stored and the length. *)
Definition unp_getsockname (s : Z) (w : world) : outcome world (Z * list Z * Z) :=
  let? r := sock_of s w in
  let '(_, a, _) := r in
  Ret (0, path_of a w, 5 + Z.of_nat (length (path_of a w))) w.

Definition unp_getpeername (s : Z) (w : world) : outcome world (Z * list Z * Z) := unp_getsockname s w.

Definition unp_setsockopt (s : Z) (w : world) : outcome world Z := Ret 0 w.
(** The result and the size stored. *)
Definition unp_getsockopt (s : Z) (w : world) : outcome world (Z * Z) := Ret (0, 0) w.

(** ** unp_connect *)

Definition sock_set_state (us : Unp.unix_socket) (v : Z) : Unp.unix_socket :=
  Unp.mk_usock v (Unp.from_server us) (Unp.to_server us) (Unp.unix_name us) (Unp.server us).
Definition sock_set_streams (us : Unp.unix_socket) (from to : Z) : Unp.unix_socket :=
  Unp.mk_usock (Unp.state us) from to (Unp.unix_name us) (Unp.server us).

Definition put_queue (name : Z) (n : Unp.ix_unix_name) (q : list Z) (w : world) : world :=
  set_un w (Unp.set_names (un w)
    (<[name := Unp.mk_uname (Unp.un_next n) (Unp.un_task n) (Unp.queue_size n) q]> (Unp.names (un w)))
    (Unp.ix_unix_names (un w))).

(** [init_stream]: [mem] is 0 or the address of memory with contents [junk]. *)
Definition new_stream (mem : Z) (junk : list Z) (w : world) : world :=
  if mem =? 0 then w else set_un w (Unp.put_stream (un w) mem (Unp.init_stream junk)).
Definition kfree_stream (a : Z) (w : world) : world :=
  if a =? 0 then w else set_un w (Unp.free_stream (un w) a).

(** Up to the call of ix_wakeup: an error, or the socket that is queued. *)
Definition connect_request (to from : Z) (junk : list Z) (s : Z) (path : list Z) (w : world) : outcome world (option Z) :=
  let err e w := Ret None (set_errno w e) in
  let? r := sock_of s w in
  let '(_, a, us) := r in
  if negb (Unp.unix_name us =? 0) then err EOPNOTSUPP w
  else if negb (Unp.to_server us =? 0) || negb (Unp.from_server us =? 0) then err EISCONN w
  else if PATH_SIZE <=? Z.of_nat (length path) then Fault
  else
    let w := set_spath w (<[a := path]> (spath w)) in
    let* (name, w) := find_unix_name path w in
    if name =? 0 then err EADDRNOTAVAIL w
    else
      let? n := Unp.names (un w) !! name in
      let index := Z.of_nat (length (Unp.queue n)) in
      if Unp.queue_size n =? index then err ECONNREFUSED w
      else
        let w := new_stream to junk w in
        let from := if to =? 0 then 0 else from in
        let w := new_stream from junk w in
        if from =? 0 then err ENOMEM (put_sock (kfree_stream to w) a (sock_set_streams us 0 0))
        else
          let w := put_sock w a (sock_set_streams us from to) in
          if default 0 (qbytes w !! name) <? 4 * (index + 1) then Fault
          else
            let w := put_queue name n (Unp.queue n ++ [a]) w in
            let w := if negb (Unp.un_task n =? 0) then emit w (Unp.ESignal (Unp.un_task n)) else w in
            Ret (Some a) (emit w (Unp.EWakeup name)).

Definition answered (st : Z) : bool := (st =? Unp.UNS_ACCEPTED) || (st =? Unp.UNS_ERROR).

(** The loop that sleeps on the socket [a]; the result is the state. *)
Fixpoint connect_wait (sched : schedule) (a : Z) (w : world) : outcome world Z :=
  match sched with
  | [] => Asleep w
  | (rc, env) :: sched =>
    let w := env w in
    let? us := Unp.socks (un w) !! a in
    let st := Unp.state us in
    let w := if rc <? 0 then emit w Unp.ESetrun else w in
    if (rc <? 0) || negb (answered st) then connect_wait sched a w else Ret st w
  end.

Definition unp_connect (sched : schedule) (to from : Z) (junk : list Z) (s : Z) (path : list Z) (w : world)
    : outcome world Z :=
  let* (r, w) := connect_request to from junk s path w in
  match r with
  | None => Ret (-1) w
  | Some a =>
    let? us := Unp.socks (un w) !! a in
    let* (st, w) := (if answered (Unp.state us) then Ret (Unp.state us) w else connect_wait sched a w) in
    if st =? Unp.UNS_ERROR then
      let? us := Unp.socks (un w) !! a in
      let w := kfree_stream (Unp.from_server us) (kfree_stream (Unp.to_server us) w) in
      fail (put_sock w a (sock_set_streams us 0 0)) ECONNREFUSED
    else Ret 0 w
  end.

(** ** unp_accept *)

(** The first entry that is not NULL, and the queue behind it. *)
Fixpoint next_client (q : list Z) : Z * list Z :=
  match q with
  | [] => (0, [])
  | c :: q => if c =? 0 then next_client q else (c, q)
  end.

(** The loops up to a client; the result is the client, 0 for EWOULDBLOCK, and
    the saved mask. *)
Fixpoint accept_loop (fuel : nat) (sched : schedule) (fp name omask : Z) (w : world) : outcome world (Z * Z) :=
  match fuel with
  | O => Diverge
  | S fuel =>
    let? n := Unp.names (un w) !! name in
    let '(client, q) := next_client (Unp.queue n) in
    let w := put_queue name n q w in
    if negb (client =? 0) then
      let? us := Unp.socks (un w) !! client in
      Ret (client, omask) (put_sock w client (sock_set_state us Unp.UNS_PROCESSING))
    else
      let? f := Unp.files (un w) !! fp in
      if bset (Unp.f_flags f) Unp.FNDELAY then Ret (0, omask) w
      else
        let w := __release_file fp w in
        let '(_, w) := sigsetmask w omask in
        match sched with
        | [] => Asleep w
        | (rc, env) :: sched =>
          let w := env w in
          let w := if rc <? 0 then emit w Unp.ESetrun else w in
          let '(omask, w) := sigsetmask w (-1) in
          let* (sched, w) := __get_file sched fp w in
          accept_loop fuel sched fp name omask w
        end
  end.

(** The client gets its answer: [fd] is what unp_socket returned. *)
Definition accept_answer (client fd : Z) (w : world) : outcome world unit :=
  let? us := Unp.socks (un w) !! client in
  if fd =? -1 then Ret tt (put_sock w client (sock_set_state us Unp.UNS_ERROR))
  else
    let? fp := ofile fd w in
    Ret tt (put_sock w client
      (Unp.mk_usock Unp.UNS_ACCEPTED (Unp.from_server us) (Unp.to_server us) (Unp.unix_name us) fp)).

(** The result, and the path and the length stored for a client. *)
Definition unp_accept (sched : schedule) (mem s : Z) (w : world) : outcome world (Z * option (list Z * Z)) :=
  let? r := sock_of s w in
  let '(fp, _, us) := r in
  let name := Unp.unix_name us in
  if name =? 0 then Ret (-1, None) (set_errno w EOPNOTSUPP)
  else
    let '(omask, w) := sigsetmask w (-1) in
    let* (sched, w) := __get_file sched fp w in
    let* (r, w) := accept_loop (S (length sched)) sched fp name omask w in
    let '(client, omask) := r in
    let w := __release_file fp w in
    if client =? 0 then
      let '(_, w) := sigsetmask w omask in Ret (-1, None) (set_errno w EWOULDBLOCK)
    else
      let* (fd, w) := unp_socket SOCK_STREAM 0 client 0 mem w in
      let* (_u, w) := accept_answer client fd w in
      let path := default [] (npath w !! name) in
      let w := emit w (Unp.EWakeup client) in
      let '(_, w) := sigsetmask w omask in
      Ret (fd, if fd =? -1 then None else Some (path, 3 + Z.of_nat (length path))) w.

Definition accept_fd (sched : schedule) (mem s : Z) (w : world) : outcome world Z :=
  let* (r, w) := unp_accept sched mem s w in Ret r.1 w.

(** ** library/socket.c *)

(** A call of the network library: the file structure, where there is one, and
    the scalar arguments. *)
Inductive net_request :=
| NET__socket (domain type protocol : Z)
| NET__bind (fp : Z) | NET__listen (fp backlog : Z) | NET__accept (fp : Z) | NET__connect (fp : Z)
| NET__sendto (fp : Z) | NET__send (fp : Z) | NET__sendmsg (fp : Z)
| NET__recvfrom (fp : Z) | NET__recv (fp : Z) | NET__recvmsg (fp : Z)
| NET__shutdown (fp how : Z) | NET__setsockopt (fp : Z) | NET__getsockopt (fp : Z)
| NET__getsockname (fp : Z) | NET__getpeername (fp : Z)
| NET_release_socket (fp : Z) | NET_obtain_socket (id inet stream protocol : Z)
| NET__tcp_read (fp len : Z) | NET__tcp_write (fp len : Z) | NET__tcp_ioctl (fp cmd : Z)
| NET__tcp_select (fp cmd mode : Z).

(** getsock: the file structure of a socket, 0 with errno set. *)
Definition getsock (fdes : Z) (w : world) : outcome world Z :=
  if Descrip.NOFILE <=? u32 fdes then Ret 0 (set_errno w EBADF)
  else
    let? fp := ofile fdes w in
    if fp =? 0 then Ret 0 (set_errno w EBADF)
    else
      let? f := Descrip.files (de w) !! fp in
      let ty := Descrip.f_type f in
      if negb (ty =? Descrip.DTYPE_SOCKET) && negb (ty =? Descrip.DTYPE_USOCKET) then Ret 0 (set_errno w ENOTSOCK)
      else if (ty =? Descrip.DTYPE_SOCKET) && negb (w_net w) then Ret 0 (set_errno w Unp.EPIPE)
      else Ret fp w.

Section Net.
(** [CURSIG] may stop the process or take a signal off. *)
Context (netcall : net_request -> world -> Z * world) (CURSIG : world -> bool * world).

(** socket_cleanup, and socket_cleanup_epipe when [epipe] is set. *)
Definition socket_cleanup (epipe : bool) (ostat : Z) (w : world) : world :=
  let '(sig, w) := CURSIG w in
  let w := if sig : bool then clear_break w else w in
  let w := set_stat w ostat in
  let w := if epipe && (w_errno w =? Unp.EPIPE) then emit w (Unp.EPsignal Unp.SIGPIPE) else w in
  if w_errno w =? EINTR then emit w Unp.ESetrun else w.

Definition through_net (epipe : bool) (call : net_request) (w : world) : outcome world Z :=
  let ostat := w_stat w in
  let '(r, w) := netcall call (set_stat w SWAIT) in
  Ret r (socket_cleanup epipe ostat w).

(** The common shape: getsock, then the call for UNIX domain sockets or that of
    the network library. *)
Definition on_socket {A} (ret : Z -> A) (s : Z) (unp : world -> outcome world A) (epipe : bool) (call : Z -> net_request)
    (w : world) : outcome world A :=
  let* (fp, w) := getsock s w in
  if fp =? 0 then Ret (ret (-1)) w
  else
    let? f := Descrip.files (de w) !! fp in
    if Descrip.f_type f =? Descrip.DTYPE_USOCKET then unp w
    else let* (r, w) := through_net epipe (call fp) w in Ret (ret r) w.

(** falloc and a call that gives a socket of the network library, which is
    undone when the call fails; [params] gives the arguments of
    _set_socket_params, which are read after the call. *)
Definition new_net_socket (mem : Z) (call : net_request) (params : world -> option (Z * Z * Z)) (w : world)
    : outcome world (Z * Z) :=
  let* (r, w) := in_de (Descrip.falloc mem) w in
  let '(err, fp, fd) := r in
  if negb (err =? 0) then Ret (err, fd) w
  else
    let '(so, w) := netcall call w in
    let? f := Descrip.files (de w) !! fp in
    let f := Descrip.mk_file (Descrip.f_name f) (Descrip.f_stb_dirty f) (Descrip.f_type f) (Descrip.f_flags f)
               (Descrip.f_count f) (Descrip.f_close f) so (Descrip.f_sock f) (Descrip.f_stb f) in
    let err := if so =? -1 then w_errno w else 0 in
    if negb (err =? 0) then
      let d := Descrip.set_cur (de w) (Descrip.put_ofile (Descrip.cur (de w)) fd 0) in
      let d := Descrip.put_file d fp (Descrip.set_count f 0) in
      Ret (err, fd) (set_de w (Descrip.ffree fp d))
    else
      let? a := params w in
      let '(domain, type, protocol) := a in
      Ret (0, fd) (set_de w (Descrip.put_file (de w) fp (Descrip._set_socket_params f domain type protocol))).

(** [errno = err; socket_cleanup (ostat); return err ? -1 : fd] *)
Definition give_socket (ostat : Z) (r : Z * Z) (w : world) : outcome world Z :=
  let '(err, fd) := r in
  Ret (if negb (err =? 0) then -1 else fd) (socket_cleanup false ostat (set_errno w err)).

Definition socket (kmem mem domain type protocol : Z) (w : world) : outcome world Z :=
  if domain =? PF_UNIX then unp_socket type protocol 0 kmem mem w
  else if negb (w_net w) then fail w ENOSYS
  else
    let ostat := w_stat w in
    let '(omask, w) := sigsetmask (set_stat w SWAIT) (-1) in
    let* (r, w) := new_net_socket mem (NET__socket domain type protocol) (fun _ => Some (domain, type, protocol)) w in
    let '(_, w) := sigsetmask w omask in
    give_socket ostat r w.

Definition bind (creat : list Z -> world -> Z * world) (net_close : Z) (execve_close : bool) (s : Z) (path : list Z)
    : world -> outcome world Z :=
  on_socket id s (unp_bind creat net_close execve_close s path) false NET__bind.

Definition listen (mem memq s backlog : Z) : world -> outcome world Z :=
  on_socket id s (unp_listen mem memq s backlog) false (fun fp => NET__listen fp backlog).

Definition accepted_params (fp : Z) (w : world) : option (Z * Z * Z) :=
  match Descrip.files (de w) !! fp with
  | None => None
  | Some f =>
    let '(_, type, protocol) := Descrip.f_sock f in
    Some (if Descrip.f_type f =? Descrip.DTYPE_SOCKET then AF_INET else PF_UNIX, type, protocol)
  end.

Definition accept (sched : schedule) (mem s : Z) (w : world) : outcome world (Z * option (list Z * Z)) :=
  let* (fp, w) := getsock s w in
  if fp =? 0 then Ret (-1, None) w
  else
    let? f := Descrip.files (de w) !! fp in
    if Descrip.f_type f =? Descrip.DTYPE_USOCKET then unp_accept sched mem s w
    else
      let ostat := w_stat w in
      let* (r, w) := new_net_socket mem (NET__accept fp) (accepted_params fp) (set_stat w SWAIT) in
      let* (fd, w) := give_socket ostat r w in Ret (fd, None) w.

Definition connect (sched : schedule) (to from : Z) (junk : list Z) (s : Z) (path : list Z) : world -> outcome world Z :=
  on_socket id s (unp_connect sched to from junk s path) false NET__connect.

Definition socketpair (w : world) : outcome world Z := fail w EPFNOSUPPORT.

Definition refuse (w : world) : outcome world Z := Ret (-1) w.

Definition sendto (s : Z) : world -> outcome world Z := on_socket id s refuse true NET__sendto.
Definition sendmsg (s : Z) : world -> outcome world Z := on_socket id s refuse true NET__sendmsg.
Definition recvfrom (s : Z) : world -> outcome world Z := on_socket id s refuse false NET__recvfrom.
Definition recvmsg (s : Z) : world -> outcome world Z := on_socket id s refuse false NET__recvmsg.

(** The calls of [Unp] take the file structure. *)
Definition on_file {A} (s : Z) (m : Z -> Unp.world -> outcome Unp.world A) (w : world) : outcome world A :=
  let? fp := ofile s w in in_un (m fp) w.

Definition send (sched : Unp.schedule) (s : Z) (buf : list Z) (flags : Z) : world -> outcome world Z :=
  on_socket id s (on_file s (fun fp => Unp.unp_send sched fp buf flags)) true NET__send.
Definition recv (sched : Unp.schedule) (s len flags : Z) : world -> outcome world (Z * list Z) :=
  on_socket (fun r => (r, [])) s (on_file s (fun fp => Unp.unp_recv sched fp len flags)) false NET__recv.
Definition shutdown (s how : Z) : world -> outcome world Z :=
  on_socket id s (on_file s (fun fp => Unp.unp_shutdown fp how)) false (fun fp => NET__shutdown fp how).

Definition setsockopt (s : Z) : world -> outcome world Z := on_socket id s (unp_setsockopt s) false NET__setsockopt.
Definition getsockopt (s : Z) : world -> outcome world (Z * Z) :=
  on_socket (fun r => (r, 0)) s (unp_getsockopt s) false NET__getsockopt.
Definition getsockname (s : Z) : world -> outcome world (Z * list Z * Z) :=
  on_socket (fun r => (r, [], 0)) s (unp_getsockname s) false NET__getsockname.
Definition getpeername (s : Z) : world -> outcome world (Z * list Z * Z) :=
  on_socket (fun r => (r, [], 0)) s (unp_getpeername s) false NET__getpeername.

Definition ix_release_socket (fdes : Z) (w : world) : outcome world Z :=
  let* (fp, w) := getsock fdes w in
  if fp =? 0 then Ret (-1) w
  else
    let? f := Descrip.files (de w) !! fp in
    if Descrip.f_type f =? Descrip.DTYPE_SOCKET then
      let id := default 0 (sockid w !! fp) in
      if negb (id =? 0) then Ret id (set_sockid w (<[fp := 0]> (sockid w)))
      else through_net false (NET_release_socket fp) w
    else Ret (-1) w.

(** Without the network library the call jumps through a null base. *)
Definition ix_obtain_socket (mem id inet stream protocol : Z) (w : world) : outcome world Z :=
  let ostat := w_stat w in
  let* (r, w) :=
    (if w_net w then 
       new_net_socket mem (NET_obtain_socket id inet stream protocol) (fun _ => Some (inet, stream, protocol)) (set_stat w SWAIT)
     else
       let* (r, w) := in_de (Descrip.falloc mem) (set_stat w SWAIT) in
       let '(err, _, fd) := r in if negb (err =? 0) then Ret (err, fd) w else Fault) in
  give_socket ostat r w.

Definition soo_read (fp len : Z) (w : world) : Z * world := netcall (NET__tcp_read fp len) w.
Definition soo_write (fp len : Z) (w : world) : Z * world := netcall (NET__tcp_write fp len) w.
Definition soo_ioctl (fp cmd : Z) (w : world) : Z * world := netcall (NET__tcp_ioctl fp cmd) w.
Definition soo_select (fp cmd mode : Z) (w : world) : Z * world := netcall (NET__tcp_select fp cmd mode) w.
End Net.

End Sock.
