(* ===== verification/SocketsTheorems.v ===== *)
(** * Sockets: theorems

    The rendezvous of connect and accept, the order in which clients are
    served, and the descriptors of the calls that go to the network library. *)

From S2P Require Import Prelude Unp Descrip DescripInv Sockets.
Import Sock DescripInv.

(** ** Names *)

Lemma find_loop_pure fuel path nm w r w' : find_loop fuel path nm w = Ret r w' -> w' = w.
Proof.
  revert nm. induction fuel as [|fuel IH]; intros nm; cbn [find_loop]; [done|].
  case_match; [by intros [=]|]. case_match; [|done]. case_decide; [by intros [=]|apply IH].
Qed.

Lemma find_loop_ext fuel path nm w v r w' :
  Unp.names (un v) = Unp.names (un w) -> npath v = npath w ->
  find_loop fuel path nm w = Ret r w' -> find_loop fuel path nm v = Ret r v.
Proof.
  intros Hn Hp. revert nm. induction fuel as [|fuel IH]; intros nm; cbn [find_loop]; [done|].
  case_match; [by intros [= <- _]|]. rewrite Hn, Hp. case_match; [|done]. case_decide; [by intros [= <- _]|apply IH].
Qed.

(** The list of names is found in the same way by every process. *)
Lemma find_ext path w v r w' :
  Unp.names (un v) = Unp.names (un w) -> Unp.ix_unix_names (un v) = Unp.ix_unix_names (un w) -> npath v = npath w ->
  find_unix_name path w = Ret r w' -> find_unix_name path v = Ret r v.
Proof. unfold find_unix_name. intros Hn Hh Hp. rewrite Hn, Hh. by apply find_loop_ext. Qed.

Lemma find_pure path w r w' : find_unix_name path w = Ret r w' -> w' = w.
Proof. apply find_loop_pure. Qed.

(** A new name is at the head of the list. *)
Lemma add_unix_name_found mem memq path size w r w' :
  add_unix_name mem memq path size w = Ret r w' -> r <> 0 -> find_unix_name path w' = Ret r w'.
Proof.
  unfold add_unix_name. destruct (Z.eqb_spec mem 0); [by intros [= <- _]|].
  destruct (memq =? 0); [by intros [= <- _]|]. destruct (PATH_SIZE <=? _); [done|].
  intros [= <- <-] _. unfold find_unix_name. cbn. destruct (Z.eqb_spec mem 0); [done|].
  rewrite lookup_insert_eq. cbn. rewrite lookup_insert_eq. cbn. by rewrite decide_True.
Qed.

(** ** Changing the socket of a client *)

Definition queue_of (name : Z) (w : world) : option (Z * list Z) :=
  match Unp.names (un w) !! name with Some n => Some (Unp.queue_size n, Unp.queue n) | None => None end.

Lemma queue_of_put nm name n q w :
  queue_of nm (put_queue name n q w) = if decide (nm = name) then Some (Unp.queue_size n, q) else queue_of nm w.
Proof.
  unfold queue_of, put_queue. cbn. case_decide as Hd.
  - subst. by rewrite lookup_insert_eq.
  - by rewrite lookup_insert_ne.
Qed.

Lemma queue_of_names nm v w : Unp.names (un v) = Unp.names (un w) -> queue_of nm v = queue_of nm w.
Proof. unfold queue_of. by intros ->. Qed.

Lemma queue_of_emit nm w e : queue_of nm (emit w e) = queue_of nm w.
Proof. done. Qed.

Lemma names_new_stream mem junk w : Unp.names (un (new_stream mem junk w)) = Unp.names (un w).
Proof. unfold new_stream. by case_match. Qed.

Lemma names_kfree_stream a w : Unp.names (un (kfree_stream a w)) = Unp.names (un w).
Proof. unfold kfree_stream. by case_match. Qed.

Lemma qbytes_new_stream mem junk w : qbytes (new_stream mem junk w) = qbytes w.
Proof. unfold new_stream. by case_match. Qed.

(** The socket [a] that a process asks to connect, and the name it asks for. *)
Record asks (s : Z) (path : list Z) (w : world) (a : Z) (us : Unp.unix_socket) (name : Z) (n : Unp.ix_unix_name) : Prop := {
  as_sock : exists fp, sock_of s w = Some (fp, a, us);
  as_unnamed : Unp.unix_name us = 0;
  as_to : Unp.to_server us = 0;
  as_from : Unp.from_server us = 0;
  as_path : Z.of_nat (length path) < PATH_SIZE;
  as_find : find_unix_name path w = Ret name w;
  as_name : name <> 0;
  as_names : Unp.names (un w) !! name = Some n
}.

(** The world after a request. *)
Definition requested (to from : Z) (junk : list Z) (a : Z) (us : Unp.unix_socket) (path : list Z) (name : Z)
    (n : Unp.ix_unix_name) (w : world) : world :=
  let w := set_spath w (<[a := path]> (spath w)) in
  let w := put_sock (new_stream from junk (new_stream to junk w)) a (sock_set_streams us from to) in
  let w := put_queue name n (Unp.queue n ++ [a]) w in
  let w := if negb (Unp.un_task n =? 0) then emit w (Unp.ESignal (Unp.un_task n)) else w in
  emit w (Unp.EWakeup name).

Lemma connect_request_queues to from junk s path w a us name n :
  asks s path w a us name n -> to <> 0 -> from <> 0 ->
  Unp.queue_size n <> Z.of_nat (length (Unp.queue n)) ->
  4 * (Z.of_nat (length (Unp.queue n)) + 1) <= default 0 (qbytes w !! name) ->
  connect_request to from junk s path w = Ret (Some a) (requested to from junk a us path name n w).
Proof.
  intros [(fp & Hs) Hu Ht Hf Hp Hfind Hnz Hn] Hto Hfrom Hq Hb. unfold connect_request.
  rewrite Hs, Hu, Ht, Hf. cbn [negb orb Z.eqb]. rewrite (proj2 (Z.leb_gt _ _)) by done.
  rewrite (find_ext _ w _ name w) by done. cbn [obind].
  rewrite (proj2 (Z.eqb_neq name 0)) by done. cbn [set_spath un]. rewrite Hn.
  rewrite (proj2 (Z.eqb_neq _ _) Hq), (proj2 (Z.eqb_neq to 0) Hto), (proj2 (Z.eqb_neq from 0) Hfrom).
  cbn [put_sock set_un qbytes]. rewrite !qbytes_new_stream. cbn [set_spath qbytes].
  rewrite (proj2 (Z.ltb_ge _ _)) by done. done.
Qed.

Lemma connect_request_full to from junk s path w a us name n :
  asks s path w a us name n -> Unp.queue_size n = Z.of_nat (length (Unp.queue n)) ->
  connect_request to from junk s path w = Ret None (set_errno (set_spath w (<[a := path]> (spath w))) ECONNREFUSED).
Proof.
  intros [(fp & Hs) Hu Ht Hf Hp Hfind Hnz Hn] Hq. unfold connect_request.
  rewrite Hs, Hu, Ht, Hf. cbn [negb orb Z.eqb]. rewrite (proj2 (Z.leb_gt _ _)) by done.
  rewrite (find_ext _ w _ name w) by done. cbn [obind].
  rewrite (proj2 (Z.eqb_neq name 0)) by done. cbn [set_spath un]. rewrite Hn.
  by rewrite (proj2 (Z.eqb_eq _ _) Hq).
Qed.

(** A request appends the socket to the queue of one name, or changes none. *)
Lemma connect_request_inv to from junk s path w r w' :
  connect_request to from junk s path w = Ret r w' ->
  match r with
  | None => forall nm, queue_of nm w' = queue_of nm w
  | Some a => exists name n, find_unix_name path w = Ret name w /\ Unp.names (un w) !! name = Some n /\
      Unp.queue_size n <> Z.of_nat (length (Unp.queue n)) /\
      forall nm, queue_of nm w' =
        if decide (nm = name) then Some (Unp.queue_size n, Unp.queue n ++ [a]) else queue_of nm w
  end.
Proof.
  unfold connect_request. destruct (sock_of s w) as [[[fp a] us]|]; [|done].
  case_match; [by intros [= <- <-]|]. case_match; [by intros [= <- <-]|]. case_match; [done|].
  intros (name & w1 & Hfind & Hr)%obind_Ret_inv. pose proof (find_pure _ _ _ _ Hfind) as ->.
  apply (find_ext _ _ w) in Hfind; [|done..].
  destruct (name =? 0); [by injection Hr as <- <-|]. cbn [set_spath un] in Hr.
  destruct (Unp.names (un w) !! name) as [n|] eqn:Hn; [|done].
  destruct (Z.eqb_spec (Unp.queue_size n) (Z.of_nat (length (Unp.queue n)))); [by injection Hr as <- <-|].
  destruct ((if to =? 0 then 0 else from) =? 0).
  - injection Hr as <- <-. intros nm. unfold queue_of. cbn [set_errno set_un un Unp.set_errno Unp.names put_sock Unp.put_sock Unp.set_socks].
    by rewrite names_kfree_stream, !names_new_stream.
  - case_match; [done|]. injection Hr as <- <-. exists name, n. repeat split; [done..|]. intros nm.
    rewrite queue_of_emit.
    transitivity (queue_of nm (put_queue name n (Unp.queue n ++ [a])
      (put_sock (new_stream (if to =? 0 then 0 else from) junk
         (new_stream to junk (set_spath w (<[a:=path]> (spath w))))) a
         (sock_set_streams us (if to =? 0 then 0 else from) to)))).
    { destruct (negb (Unp.un_task n =? 0)); [apply queue_of_emit|done]. }
    rewrite queue_of_put. case_decide; [done|]. apply queue_of_names. cbn. by rewrite !names_new_stream.
Qed.

(** ** New sockets *)

(** What a new file structure leaves alone. *)
Record kept (w w' : world) : Prop := {
  k_streams : Unp.streams (un w') = Unp.streams (un w);
  k_socks : Unp.socks (un w') = Unp.socks (un w);
  k_names : Unp.names (un w') = Unp.names (un w);
  k_log : Unp.log (un w') = Unp.log (un w);
  k_npath : npath w' = npath w;
  k_others : others w' = others w
}.

(** The new file [fp] of the socket [c] at the lowest free descriptor [fd]. *)
Record new_socket (w : world) (c fp fd : Z) (w' : world) : Prop := {
  ns_lowest : lowest_free (Descrip.u_ofile (Descrip.self (de w))) 0 fd;
  ns_fresh : fp <> 0 /\ fp ∉ Descrip.used_files (de w);
  ns_ofile : ofile fd w' = Some fp;
  ns_files : Unp.files (un w') = <[fp := Unp.mk_file Unp.DTYPE_USOCKET FREAD_FWRITE 1 c true]> (Unp.files (un w))
}.

Lemma set_socket_file_inv ext fp c w f :
  inv [fp] ext (de w) -> Descrip.files (de w) !! fp = Some f -> Descrip.f_count f = 1 ->
  exists w', set_socket_file fp c w = Some w' /\ inv [] ext (de w') /\ kept w w' /\
    Descrip.self (de w') = Descrip.self (de w) /\
    Unp.files (un w') = <[fp := Unp.mk_file Unp.DTYPE_USOCKET FREAD_FWRITE 1 c true]> (Unp.files (un w)).
Proof.
  intros Hinv Hf Hc. unfold set_socket_file. rewrite Hf. eexists. split; [done|].
  split; [|split; [by constructor|split; [done|]]].
  - cbn. eapply inv_put; [done|done|done|by right|]. intros x ->%list_elem_of_singleton. right. done.
  - cbn. by rewrite Hc.
Qed.

(** falloc finds no descriptor or no memory. *)
Definition no_file (mem : Z) (w : world) : Prop :=
  none_free (Descrip.u_ofile (Descrip.self (de w))) 0 \/ mem = 0.

(** accept gives the socket of its client a descriptor, or fails. *)
Lemma unp_socket_client ext c mem w :
  inv [] ext (de w) -> fresh_mem mem (de w) -> c <> 0 ->
  exists fd w', unp_socket SOCK_STREAM 0 c 0 mem w = Ret fd w' /\ inv [] ext (de w') /\ kept w w' /\
    ((fd = -1 /\ no_file mem w /\ Unp.files (un w') = Unp.files (un w)) \/ exists fp, new_socket w c fp fd w').
Proof.
  intros Hinv Hm Hc. unfold unp_socket. cbn [negb orb Z.eqb Pos.eqb SOCK_STREAM].
  rewrite (proj2 (Z.eqb_neq c 0)) by done. cbn [andb].
  destruct (sigsetmask w (-1)) as [om w1] eqn:Hs. unfold sigsetmask in Hs. cbn in Hs. injection Hs as _ <-.
  unfold in_de at 1. cbn [set_un de].
  destruct (falloc_spec [] ext (de w) mem Hinv Hm)
    as [(fp & fd & d & -> & Hfa & Hi)|[(Hnf & ->)|(d & Hnf & _ & -> & Hi & _)]]; cbn [obind].
  2,3: eexists _, _; split; [done|]; split; [done|]; split; [by constructor|]; left;
       split; [done|]; split; [unfold no_file; auto|done].
  destruct (fa_file _ _ _ _ _ Hfa) as (f & Hf & Hcount & _).
  edestruct (set_socket_file_inv ext fp c) as (w' & -> & Hi' & Hk & Hself & Hfiles); [by apply Hi|exact Hf|done|].
  cbn [negb Z.eqb]. unfold sigsetmask. cbn. eexists _, _. split; [done|]. split; [exact Hi'|].
  split; [by destruct Hk; constructor|]. right. exists fp.
  assert (Descrip.parent (de w') = None) as Hpar by apply (inv_parent _ _ _ Hi').
  constructor; [apply Hfa|apply Hfa| |exact Hfiles].
  unfold ofile. cbn. rewrite (cur_self _ Hpar), Hself. cbn. rewrite (fa_table _ _ _ _ _ Hfa).
  pose proof (fa_lowest _ _ _ _ _ Hfa) as (_ & Hz & _). by apply aget_aput_eq with 0.
Qed.

(** ** Accepting a client *)

(** [s] is a listening socket of the process, its file is not locked, and [c] is
    the first client in its queue. *)
Record waits (s : Z) (w : world) (name : Z) (n : Unp.ix_unix_name) (c : Z) (q : list Z) (uc : Unp.unix_socket) : Prop := {
  wt_sock : exists fp b us, sock_of s w = Some (fp, b, us) /\ Unp.unix_name us = name /\
    bset (default 0 (sync w !! fp)) FSFF_LOCKED = false;
  wt_name : name <> 0;
  wt_names : Unp.names (un w) !! name = Some n;
  wt_next : next_client (Unp.queue n) = (c, q);
  wt_client : c <> 0;
  wt_socket : Unp.socks (un w) !! c = Some uc
}.

(** The client [c] was taken out of the queue, told and woken. *)
Record served (w : world) (name : Z) (n : Unp.ix_unix_name) (c : Z) (q : list Z) (us : Unp.unix_socket) (w' : world) : Prop := {
  sv_streams : Unp.streams (un w') = Unp.streams (un w);
  sv_names : Unp.names (un w') =
    <[name := Unp.mk_uname (Unp.un_next n) (Unp.un_task n) (Unp.queue_size n) q]> (Unp.names (un w));
  sv_socks : Unp.socks (un w') = <[c := us]> (Unp.socks (un w));
  sv_log : exists l, Unp.log (un w') = Unp.log (un w) ++ l ++ [Unp.EWakeup c];
  sv_others : others w' = others w
}.

(** Between the lock of the file and the answer. *)
Lemma accept_loop_takes w name n c q uc fuel sched fp omask :
  Unp.names (un w) !! name = Some n -> next_client (Unp.queue n) = (c, q) -> c <> 0 ->
  Unp.socks (un w) !! c = Some uc ->
  accept_loop (S fuel) sched fp name omask w =
    Ret (c, omask) (put_sock (put_queue name n q w) c (sock_set_state uc Unp.UNS_PROCESSING)).
Proof.
  intros Hn Hq Hc Hs. cbn [accept_loop]. rewrite Hn, Hq. rewrite (proj2 (Z.eqb_neq c 0)) by done.
  cbn [negb put_queue set_un un Unp.set_names Unp.socks]. by rewrite Hs.
Qed.

Lemma release_keeps fp w :
  Unp.streams (un (__release_file fp w)) = Unp.streams (un w) /\
  Unp.socks (un (__release_file fp w)) = Unp.socks (un w) /\
  Unp.names (un (__release_file fp w)) = Unp.names (un w) /\
  Unp.files (un (__release_file fp w)) = Unp.files (un w) /\
  de (__release_file fp w) = de w /\ npath (__release_file fp w) = npath w /\ others (__release_file fp w) = others w /\
  exists l, Unp.log (un (__release_file fp w)) = Unp.log (un w) ++ l.
Proof.
  unfold __release_file. destruct (bset _ _); cbn; repeat split; [by eexists|exists []; by rewrite app_nil_r].
Qed.

Lemma sock_get_file_free sched fp w f :
  Unp.files (un w) !! fp = Some f -> bset (default 0 (sync w !! fp)) FSFF_LOCKED = false ->
  __get_file sched fp w = Ret sched (set_sync w (<[fp := Z.lor (default 0 (sync w !! fp)) FSFF_LOCKED]> (sync w))).
Proof. intros Hf Hl. destruct sched; cbn [__get_file]; rewrite Hf, Hl; done. Qed.

Lemma sock_of_file s w fp a us :
  sock_of s w = Some (fp, a, us) ->
  ofile s w = Some fp /\ (exists f, Unp.files (un w) !! fp = Some f /\ Unp.f_ptr f = a) /\ Unp.socks (un w) !! a = Some us.
Proof.
  unfold sock_of. destruct (ofile s w) as [fp'|]; [|done]. destruct (Unp.files _ !! fp') as [f|] eqn:Hf; [|done].
  destruct (Unp.socks _ !! _) as [us'|] eqn:Hus; [|done]. intros [= <- <- <-]. eauto.
Qed.

(** The part of accept from the client on. *)
Lemma accept_answers ext c mem w uc :
  inv [] ext (de w) -> fresh_mem mem (de w) -> c <> 0 -> Unp.socks (un w) !! c = Some uc ->
  exists fd w1 w', unp_socket SOCK_STREAM 0 c 0 mem w = Ret fd w1 /\ accept_answer c fd w1 = Ret tt w' /\
    inv [] ext (de w') /\ Unp.streams (un w') = Unp.streams (un w) /\ Unp.names (un w') = Unp.names (un w) /\
    Unp.log (un w') = Unp.log (un w) /\ npath w' = npath w /\ others w' = others w /\
    ((fd = -1 /\ no_file mem w /\ Unp.files (un w') = Unp.files (un w) /\
      Unp.socks (un w') = <[c := sock_set_state uc Unp.UNS_ERROR]> (Unp.socks (un w))) \/
     exists fp, fd <> -1 /\ new_socket w c fp fd w' /\
      Unp.socks (un w') = <[c := Unp.mk_usock Unp.UNS_ACCEPTED (Unp.from_server uc) (Unp.to_server uc) (Unp.unix_name uc) fp]>
        (Unp.socks (un w))).
Proof.
  intros Hinv Hm Hc Huc.
  destruct (unp_socket_client ext c mem w Hinv Hm Hc) as (fd & w1 & -> & Hi & Hk & Hcase). exists fd, w1.
  unfold accept_answer. rewrite (k_socks _ _ Hk), Huc. destruct Hcase as [(-> & Hno & Hfiles)|(fp & Hns)].
  - eexists. split; [done|]. split; [done|]. cbn. rewrite (k_socks _ _ Hk). destruct Hk. split_and!; auto.
  - destruct (ns_lowest _ _ _ _ _ Hns) as (Hr & _). destruct (Z.eqb_spec fd (-1)) as [->|Hne]; [lia|].
    rewrite (ns_ofile _ _ _ _ _ Hns). eexists. split; [done|]. split; [done|]. cbn.
    rewrite (k_socks _ _ Hk). destruct Hk. split_and!; auto. right. exists fp. split; [done|]. split; [|done].
    by destruct Hns.
Qed.

Lemma accept_serves ext sched mem s w name n c q uc :
  waits s w name n c q uc -> inv [] ext (de w) -> fresh_mem mem (de w) ->
  exists fd r w', unp_accept sched mem s w = Ret (fd, r) w' /\ inv [] ext (de w') /\
    ((fd = -1 /\ no_file mem w /\ Unp.files (un w') = Unp.files (un w) /\ served w name n c q (sock_set_state uc Unp.UNS_ERROR) w') \/
     exists fp, fd <> -1 /\ new_socket w c fp fd w' /\
       served w name n c q
         (Unp.mk_usock Unp.UNS_ACCEPTED (Unp.from_server uc) (Unp.to_server uc) (Unp.unix_name uc) fp) w').
Proof.
  intros Hw Hinv Hm. destruct (wt_sock _ _ _ _ _ _ _ Hw) as (fp & b & us & Hs & Hname & Hl).
  destruct (sock_of_file _ _ _ _ _ Hs) as (_ & (f & Hf & _) & _).
  unfold unp_accept. rewrite Hs, Hname, (proj2 (Z.eqb_neq name 0) (wt_name _ _ _ _ _ _ _ Hw)).
  cbn [sigsetmask Unp.sigsetmask]. set (w1 := set_un w _). rewrite (sock_get_file_free sched fp w1 f Hf Hl). cbn [obind].
  set (w2 := set_sync w1 _).
  rewrite (accept_loop_takes w2 name n c q uc) by apply Hw.
  cbn [obind]. set (w3 := put_sock _ _ _). rewrite (proj2 (Z.eqb_neq c 0) (wt_client _ _ _ _ _ _ _ Hw)).
  destruct (release_keeps fp w3) as (Hk1 & Hk2 & Hk3 & Hk4 & Hk5 & Hk6 & Hk7 & l & Hk8).
  set (w4 := __release_file fp w3) in *.
  destruct (accept_answers ext c mem w4 (sock_set_state uc Unp.UNS_PROCESSING))
    as (fd & w5 & w6 & -> & Ha & Hi & H1 & H2 & H3 & H4 & H5 & Hcase);
    [by rewrite Hk5|by rewrite Hk5|apply Hw|rewrite Hk2; cbn; by rewrite lookup_insert_eq|].
  cbn [obind]. rewrite Ha. cbn [obind sigsetmask Unp.sigsetmask]. eexists fd, _, _. split; [done|]. split; [done|].
  assert (forall us', Unp.socks (un w6) = <[c := us']> (Unp.socks (un w4)) ->
    forall m, served w name n c q us' (set_un (emit w6 (Unp.EWakeup c)) (Unp.set_mask (un (emit w6 (Unp.EWakeup c))) m))) as Hsv.
  { intros us' Hsocks m. constructor; cbn.
    - by rewrite H1, Hk1.
    - by rewrite H2, Hk3.
    - rewrite Hsocks, Hk2. cbn. by rewrite insert_insert_eq.
    - exists l. by rewrite H3, Hk8, <- app_assoc.
    - by rewrite H5, Hk7. }
  destruct Hcase as [(-> & Hno & Hfiles & Hsocks)|(fp' & Hne & Hns & Hsocks)]; [left|right; exists fp'].
  - split; [done|]. split; [unfold no_file in *; by rewrite Hk5 in Hno|]. split; [cbn; by rewrite Hfiles, Hk4|]. by apply Hsv.
  - split; [done|]. split; [|by apply Hsv]. destruct Hns as [Hn1 Hn2 Hn3 Hn4]. rewrite Hk5 in Hn1, Hn2.
    rewrite Hk4 in Hn4. constructor; done.
Qed.

(** ** What an accept without a sleep does to the queues *)

Lemma unp_socket_unp type protocol sock kmem mem w r w' :
  unp_socket type protocol sock kmem mem w = Ret r w' ->
  Unp.names (un w') = Unp.names (un w) /\ Unp.log (un w') = Unp.log (un w).
Proof.
  unfold unp_socket. case_match; [by intros [= <- <-]|]. case_match; [by intros [= <- <-]|].
  cbn [sigsetmask Unp.sigsetmask]. intros ([[err fp] fd] & w1 & Hfa & Hr)%obind_Ret_inv.
  assert (Unp.names (un w1) = Unp.names (un w) /\ Unp.log (un w1) = Unp.log (un w)) as [Hn Hl].
  { unfold in_de in Hfa. destruct (Descrip.falloc _ _); try done. injection Hfa as _ <-. by destruct (sock =? 0). }
  destruct (negb (err =? 0)).
  - injection Hr as <- <-. by destruct (sock =? 0).
  - unfold set_socket_file in Hr. destruct (Descrip.files _ !! fp); [|done]. by injection Hr as <- <-.
Qed.

Lemma accept_answer_unp c fd w u w' :
  accept_answer c fd w = Ret u w' -> Unp.names (un w') = Unp.names (un w) /\ Unp.log (un w') = Unp.log (un w).
Proof.
  unfold accept_answer. destruct (Unp.socks _ !! c); [|done]. case_match; [by intros [= <- <-]|].
  destruct (ofile fd w); [|done]. by intros [= <- <-].
Qed.

Definition no_wakeup (l : list Unp.event) : Prop := forall c, Unp.EWakeup c ∉ l.

Lemma release_quiet fp w : exists l, Unp.log (un (__release_file fp w)) = Unp.log (un w) ++ l /\ no_wakeup l.
Proof.
  unfold __release_file. destruct (bset _ _); cbn.
  - eexists. split; [done|]. intros c. set_solver.
  - exists []. split; [by rewrite app_nil_r|]. intros c. set_solver.
Qed.

(** Without a schedule the loop takes a client, if there is one. *)
Lemma accept_loop_inv fp name omask w client om w' n :
  accept_loop 1 [] fp name omask w = Ret (client, om) w' -> Unp.names (un w) !! name = Some n ->
  client = (next_client (Unp.queue n)).1 /\ Unp.log (un w') = Unp.log (un w) /\
  forall nm, queue_of nm w' =
    if decide (nm = name) then Some (Unp.queue_size n, (next_client (Unp.queue n)).2) else queue_of nm w.
Proof.
  intros H Hn. cbn [accept_loop] in H. rewrite Hn in H. destruct (next_client _) as [c q]. cbn [fst snd].
  destruct (Z.eqb_spec c 0) as [->|]; cbn [negb] in H.
  - destruct (Unp.files _ !! fp) as [f|]; [|done]. destruct (bset _ _); [|done]. injection H as <- _ <-.
    split; [done|]. split; [done|]. intros nm. apply queue_of_put.
  - destruct (Unp.socks _ !! c) as [uc|]; [|done]. injection H as <- _ <-.
    split; [done|]. split; [done|]. intros nm. rewrite <- queue_of_put. by apply queue_of_names.
Qed.

Lemma accept_inv mem s w r w' fp b us :
  unp_accept [] mem s w = Ret r w' -> sock_of s w = Some (fp, b, us) ->
  (Unp.log (un w') = Unp.log (un w) /\ forall nm, queue_of nm w' = queue_of nm w) \/
  exists n l, Unp.names (un w) !! Unp.unix_name us = Some n /\ no_wakeup l /\
    (forall nm, queue_of nm w' =
       if decide (nm = Unp.unix_name us) then Some (Unp.queue_size n, (next_client (Unp.queue n)).2) else queue_of nm w) /\
    Unp.log (un w') = Unp.log (un w) ++ l ++
      (if (next_client (Unp.queue n)).1 =? 0 then [] else [Unp.EWakeup (next_client (Unp.queue n)).1]).
Proof.
  intros H Hs. unfold unp_accept in H. rewrite Hs in H.
  destruct (Unp.unix_name us =? 0); [left; by injection H as <- <-|]. cbn [sigsetmask Unp.sigsetmask] in H.
  destruct (obind_Ret_inv _ _ _ _ H) as (sched & w1 & Hg & Hr). clear H.
  assert (sched = [] /\ un w1 = Unp.set_mask (un w) (bclr (u32 (-1)) Unp.sigcantmask)) as (-> & H1).
  { cbn [__get_file] in Hg. destruct (Unp.files _ !! fp); [|done]. destruct (negb _); [by injection Hg as <- <-|done]. }
  destruct (obind_Ret_inv _ _ _ _ Hr) as ([client om] & w2 & Hloop & Ha). clear Hr.
  destruct (Unp.names (un w1) !! Unp.unix_name us) as [n|] eqn:Hn; [|cbn in Hloop; by rewrite Hn in Hloop].
  destruct (accept_loop_inv _ _ _ _ _ _ _ _ Hloop Hn) as (-> & Hl & Hq).
  assert (forall nm, queue_of nm w1 = queue_of nm w) as Hq1 by (intros nm; apply queue_of_names; by rewrite H1).
  destruct (release_quiet fp w2) as (l & Hl2 & Hquiet). destruct (release_keeps fp w2) as (_ & _ & Hk & _).
  set (w3 := __release_file fp w2) in *. right. exists n, l. rewrite H1 in Hn, Hl. cbn in Hn, Hl.
  split; [done|]. split; [done|]. rewrite <- Hl.
  enough ((forall nm, queue_of nm w' = queue_of nm w2) /\ Unp.log (un w') = Unp.log (un w2) ++ l ++
    (if (next_client (Unp.queue n)).1 =? 0 then [] else [Unp.EWakeup (next_client (Unp.queue n)).1])) as [Hq' ?].
  { split; [|done]. intros nm. by rewrite Hq', Hq, Hq1. }
  destruct (Z.eqb_spec (next_client (Unp.queue n)).1 0).
  - injection Ha as _ <-. split; [intros nm; apply queue_of_names; exact Hk|]. by rewrite app_nil_r.
  - apply obind_Ret_inv in Ha as (fd & w4 & [Hn4 Hl4]%unp_socket_unp & Ha).
    apply obind_Ret_inv in Ha as (u & w5 & [Hn5 Hl5]%accept_answer_unp & Ha). injection Ha as _ <-.
    split; [intros nm; apply queue_of_names; cbn; by rewrite Hn5, Hn4|]. cbn. by rewrite Hl5, Hl4, Hl2, app_assoc.
Qed.

(** ** Sockets of the network library *)

(** A file structure that was just entered is taken out again. *)
Lemma inv_undo ext d fp fd f :
  inv [fp] ext d -> aget (Descrip.u_ofile (Descrip.self d)) fd = Some fp -> fp ∈ Descrip.used_files d -> fp <> 0 ->
  Descrip.f_count f = 0 -> (exists f0, Descrip.files d !! fp = Some f0 /\ Descrip.f_count f0 = 1 /\ Descrip.f_close f = Descrip.f_close f0) ->
  inv [] ext (Descrip.ffree fp (Descrip.put_file (Descrip.set_self d (Descrip.put_ofile (Descrip.self d) fd 0)) fp f)).
Proof.
  intros Hinv Hfd Hu Hnz Hf (f0 & Hf0 & Hc & Hcl). apply inv_ffree with f; [|done|by apply lookup_insert_eq|done].
  eapply inv_uncount; [by apply inv_take|apply (inv_ext _ _ _ Hinv)|done|done|lia|done|].
  intros x ->%list_elem_of_singleton. by right.
Qed.

Section NetCalls.
Context (netcall : net_request -> world -> Z * world).
Context (net_de : forall c w, de (netcall c w).2 = de w).

(** The files in use stay as they are. *)
Definition same_used (d d' : Descrip.world) : Prop :=
  forall x, x ∈ Descrip.used_files d -> Descrip.files d' !! x = Descrip.files d !! x.

(** A new socket takes the lowest free descriptor; when the call fails the
    descriptor and the structure are given back. *)
Lemma new_net_socket_spec ext mem call params w :
  inv [] ext (de w) -> fresh_mem mem (de w) -> (forall v, same_used (de w) (de v) -> is_Some (params v)) ->
  exists err fd w', new_net_socket netcall mem call params w = Ret (err, fd) w' /\ inv [] ext (de w') /\
    ((err <> 0 /\ Descrip.u_ofile (Descrip.self (de w')) = Descrip.u_ofile (Descrip.self (de w))) \/
     (err = 0 /\ lowest_free (Descrip.u_ofile (Descrip.self (de w))) 0 fd)).
Proof.
  intros Hinv Hm Hpar. unfold new_net_socket, in_de.
  destruct (falloc_spec [] ext (de w) mem Hinv Hm)
    as [(fp & fd & d & -> & Hfa & Hi)|[(Hnf & ->)|(d & Hnf & _ & -> & Hi & Ho & _)]]; cbn [obind].
  2,3: eexists _, _, _; split; [done|]; split; [done|]; left; done.
  cbn [negb Z.eqb]. destruct (netcall call (set_de w d)) as [so w1] eqn:Hnet.
  assert (de w1 = d) as Hd. { pose proof (net_de call (set_de w d)) as E. by rewrite Hnet in E. }
  destruct (fa_file _ _ _ _ _ Hfa) as (f & Hf & Hc & _). rewrite Hd, Hf.
  pose proof (inv_parent _ _ _ Hi) as Hpd. pose proof (fa_lowest _ _ _ _ _ Hfa) as Hlow.
  assert (aget (Descrip.u_ofile (Descrip.self d)) fd = Some fp) as Hfd.
  { rewrite (fa_table _ _ _ _ _ Hfa). apply aget_aput_eq with 0, Hlow. }
  destruct (Z.eqb_spec (if so =? -1 then w_errno w1 else 0) 0) as [He|He]; cbn [negb].
  - destruct (Hpar w1) as [[[dom ty] pr] ->].
    { intros x Hx. rewrite Hd. apply (fa_others _ _ _ _ _ Hfa). intros ->. by apply (fa_new _ _ _ _ _ Hfa). }
    eexists _, _, _. split; [done|]. cbn. split; [|by right].
    eapply inv_put; [done|done|done|by right|]. intros x ->%list_elem_of_singleton. right. done.
  - rewrite (cur_self _ Hpd), (set_cur_self _ _ Hpd). eexists _, _, _. split; [done|]. cbn.
    destruct (fa_new _ _ _ _ _ Hfa) as [Hnz _]. split.
    + eapply inv_undo; [done|done|rewrite (fa_used _ _ _ _ _ Hfa); set_solver|done|done|]. exists f. done.
    + left. split; [done|]. unfold Descrip.ffree. rewrite (proj2 (Z.eqb_neq fp 0)) by done. cbn.
      rewrite (fa_table _ _ _ _ _ Hfa), aput_aput. apply aput_same, Hlow.
Qed.
End NetCalls.

(** ** The backlog as a queue

    A trace of what happens around the name [name]: requests to connect and
    accepts, by any process and for any name, and steps that leave the queue of
    [name] alone.  A request is the part of connect before it sleeps, an accept
    is the part behind its last sleep.  The label of an accept is the socket
    that it wakes. *)

Inductive label := Req (nm a : Z) | Acc (nm c : Z) | Tau.

Definition request (to from : Z) (junk : list Z) (s : Z) (path : list Z) (w : world) : outcome world Z :=
  let* (r, w) := connect_request to from junk s path w in Ret (default 0 r) w.

Inductive step (name : Z) : world -> label -> world -> Prop :=
| step_request p to from junk s path nm a w w' :
    as_process p (request to from junk s path) w = Some (a, w') -> a <> 0 -> find_unix_name path w = Ret nm w ->
    step name w (Req nm a) w'
| step_accept p mem s fd ctx fp b us c l w w' :
    as_process p (accept_fd [] mem s) w = Some (fd, w') ->
    others w !! p = Some ctx -> sock_of s (with_context w ctx (others w)) = Some (fp, b, us) ->
    Unp.log (un w') = Unp.log (un w) ++ l ++ [Unp.EWakeup c] ->
    step name w (Acc (Unp.unix_name us) c) w'
| step_other w w' : queue_of name w' = queue_of name w -> step name w Tau w'.

Inductive steps (name : Z) : world -> list label -> world -> Prop :=
| steps_nil w : steps name w [] w
| steps_cons w l v tr w' : step name w l v -> steps name v tr w' -> steps name w (l :: tr) w'.

Definition reqs (name : Z) (tr : list label) : list Z :=
  omap (fun l => match l with Req nm a => if decide (nm = name) then Some a else None | _ => None end) tr.
Definition accs (name : Z) (tr : list label) : list Z :=
  omap (fun l => match l with Acc nm c => if decide (nm = name) then Some c else None | _ => None end) tr.

(** The bound of the queue and the clients in it, which are sockets. *)
Definition backlog (name size : Z) (q : list Z) (w : world) : Prop :=
  queue_of name w = Some (size, q) /\ Z.of_nat (length q) <= size /\ Forall (fun c => c <> 0) q.

Lemma as_process_inv p f w r w' :
  as_process p f w = Some (r, w') ->
  exists ctx v, others w !! p = Some ctx /\ f (with_context w ctx (others w)) = Ret r v /\
    w' = with_context v (context w) (<[p := context v]> (others v)).
Proof.
  unfold as_process. destruct (others w !! p) as [ctx|]; [|done]. destruct (f _) as [r0 v| | | |] eqn:Hf; try done.
  intros [= <- <-]. eauto.
Qed.

Lemma queue_of_inv nm w size q :
  queue_of nm w = Some (size, q) -> exists n, Unp.names (un w) !! nm = Some n /\ Unp.queue_size n = size /\ Unp.queue n = q.
Proof. unfold queue_of. destruct (_ !! nm) as [n|]; [|done]. intros [= <- <-]. eauto. Qed.

Lemma request_step name p to from junk s path nm a w w' size q :
  as_process p (request to from junk s path) w = Some (a, w') -> a <> 0 -> find_unix_name path w = Ret nm w ->
  backlog name size q w ->
  backlog name size (if decide (nm = name) then q ++ [a] else q) w'.
Proof.
  intros (ctx & v & Hp & Hr & ->)%as_process_inv Ha Hf (Hq & Hb & Hz). unfold request in Hr.
  apply obind_Ret_inv in Hr as ([a'|] & v' & Hr & Hv); injection Hv as Ea Ev; [|by subst]. cbn in Ea. subst a' v'.
  apply connect_request_inv in Hr as (nm' & n & Hf' & Hn & Hroom & Hq').
  apply (find_ext _ _ w) in Hf'; [|done..]. rewrite Hf in Hf'. injection Hf' as <-.
  unfold backlog. change (queue_of name (with_context v _ _)) with (queue_of name v). rewrite Hq'.
  change (queue_of name (with_context w _ _)) with (queue_of name w). cbn in Hn.
  destruct (decide (nm = name)) as [->|Hne].
  - rewrite decide_True by done. destruct (queue_of_inv _ _ _ _ Hq) as (n' & Hn' & <- & <-).
    assert (n' = n) as -> by congruence. split; [done|]. split.
    + rewrite length_app, Nat2Z.inj_add. cbn [length]. lia.
    + apply Forall_app. split; [done|]. by apply Forall_singleton.
  - by rewrite decide_False.
Qed.

Lemma next_client_head q : Forall (fun c => c <> 0) q -> next_client q = match q with [] => (0, []) | c :: q => (c, q) end.
Proof. destruct q as [|c q]; [done|]. intros [Hc _]%Forall_cons. cbn. by rewrite (proj2 (Z.eqb_neq c 0)). Qed.

Lemma accept_step name p mem s fd ctx fp b us c l w w' size q :
  as_process p (accept_fd [] mem s) w = Some (fd, w') ->
  others w !! p = Some ctx -> sock_of s (with_context w ctx (others w)) = Some (fp, b, us) ->
  Unp.log (un w') = Unp.log (un w) ++ l ++ [Unp.EWakeup c] -> backlog name size q w ->
  exists q', backlog name size q' w' /\ q = if decide (Unp.unix_name us = name) then c :: q' else q'.
Proof.
  intros (ctx' & v & Hp' & Hr & ->)%as_process_inv Hp Hs Hlog (Hq & Hb & Hz).
  assert (ctx' = ctx) as -> by congruence. unfold accept_fd in Hr.
  apply obind_Ret_inv in Hr as (r & v' & Hr & Hv). injection Hv as _ ->.
  unfold backlog. change (queue_of name (with_context v _ _)) with (queue_of name v).
  change (Unp.log (un (with_context v _ _))) with (Unp.log (un v)) in Hlog.
  destruct (accept_inv _ _ _ _ _ _ _ _ Hr Hs) as [(Hl & _)|(n & l' & Hn & Hquiet & Hq' & Hl)].
  { rewrite Hl in Hlog. cbn in Hlog. apply (f_equal length) in Hlog. rewrite !length_app in Hlog. cbn in Hlog. lia. }
  rewrite Hl in Hlog. cbn in Hlog. apply app_inv_head in Hlog.
  destruct (Z.eqb_spec (next_client (Unp.queue n)).1 0) as [E|Hne].
  { rewrite app_nil_r in Hlog. destruct (Hquiet c). rewrite Hlog. set_solver. }
  apply app_inj_tail in Hlog as [_ [= Hc]]. rewrite Hq'.
  change (queue_of name (with_context w _ _)) with (queue_of name w).
  destruct (decide (Unp.unix_name us = name)) as [<-|Hd].
  - destruct (queue_of_inv _ _ _ _ Hq) as (n' & Hn' & <- & <-). cbn in Hn. assert (n' = n) as -> by congruence.
    rewrite (next_client_head _ Hz) in Hc, Hne |- *. destruct (Unp.queue n) as [|c0 q]; [done|]. cbn in Hc. subst c0.
    exists q. rewrite decide_True by done. cbn in Hb |- *. apply Forall_cons in Hz as [_ Hz]. split; [|done].
    split; [done|]. split; [lia|done].
  - exists q. rewrite decide_False by done. done.
Qed.

Lemma steps_backlog name w tr w' : steps name w tr w' -> forall size q, backlog name size q w ->
  exists q', backlog name size q' w' /\ q ++ reqs name tr = accs name tr ++ q'.
Proof.
  induction 1 as [w|w l v tr w' Hstep _ IH]; intros size q Hq.
  { exists q. split; [done|]. cbn. by rewrite app_nil_r. }
  destruct Hstep as [p to from junk s path nm a w v Hp Ha Hf|p mem s fd ctx fp b us c l w v Hp Hctx Hs Hl|w v Ho].
  - pose proof (request_step name _ _ _ _ _ _ _ _ _ _ _ _ Hp Ha Hf Hq) as Hv.
    destruct (IH _ _ Hv) as (q' & Hq' & E). exists q'. split; [done|]. cbn -[decide].
    destruct (decide (nm = name)); [by rewrite <- app_assoc in E|done].
  - destruct (accept_step name _ _ _ _ _ _ _ _ _ _ _ _ _ _ Hp Hctx Hs Hl Hq) as (q1 & Hq1 & ->).
    destruct (IH _ _ Hq1) as (q' & Hq' & E). exists q'. split; [done|]. cbn -[decide].
    destruct (decide (Unp.unix_name us = name)); [cbn [app]; f_equal|]; exact E.
  - destruct (IH size q) as (q' & Hq' & E); [by unfold backlog; rewrite Ho|]. by exists q'.
Qed.

(** C36. The backlog of a listening socket is a bounded queue: whatever processes
    connect and accept in whatever order, the clients that asked for the name
    are the clients that were answered followed by those that wait, in the same
    order; so none is lost, answered twice or overtaken, and never more wait
    than listen allowed. *)
Theorem backlog_is_fifo name size w0 tr w :
  queue_of name w0 = Some (size, []) -> 0 <= size -> steps name w0 tr w ->
  exists q, queue_of name w = Some (size, q) /\ reqs name tr = accs name tr ++ q /\ Z.of_nat (length q) <= size.
Proof.
  intros Hq Hs Htr. destruct (steps_backlog name w0 tr w Htr size []) as (q & (H1 & H2 & _) & E).
  { split; [done|]. split; [done|by constructor]. }
  exists q. done.
Qed.

(** ** Refused clients *)

Lemma requested_sock to from junk a us path name n w :
  Unp.socks (un (requested to from junk a us path name n w)) !! a = Some (sock_set_streams us from to).
Proof.
  unfold requested, new_stream. destruct (negb _), (to =? 0), (from =? 0); cbn; by rewrite lookup_insert_eq.
Qed.

Lemma requested_queue nm to from junk a us path name n w :
  queue_of nm (requested to from junk a us path name n w) =
  if decide (nm = name) then Some (Unp.queue_size n, Unp.queue n ++ [a]) else queue_of nm w.
Proof.
  unfold requested. rewrite queue_of_emit.
  destruct (negb (Unp.un_task n =? 0)); [rewrite queue_of_emit|]; rewrite queue_of_put; (case_decide; [done|]);
    apply queue_of_names; cbn; by rewrite !names_new_stream.
Qed.

(** A socket that was refused once is refused for ever: while its state says so,
    every further connect to a listening name with room fails at once with
    ECONNREFUSED, without a sleep and whatever the server does, and although its
    streams are freed the socket stays behind in the queue of the name. *)
Theorem refused_stays_refused sched to from junk s path w a us name n :
  asks s path w a us name n -> Unp.state us = Unp.UNS_ERROR -> to <> 0 -> from <> 0 ->
  Z.of_nat (length (Unp.queue n)) < Unp.queue_size n ->
  4 * (Z.of_nat (length (Unp.queue n)) + 1) <= default 0 (qbytes w !! name) ->
  exists w', unp_connect sched to from junk s path w = Ret (-1) w' /\ w_errno w' = ECONNREFUSED /\
    Unp.socks (un w') !! a = Some us /\ Unp.streams (un w') !! to = None /\ Unp.streams (un w') !! from = None /\
    queue_of name w' = Some (Unp.queue_size n, Unp.queue n ++ [a]).
Proof.
  intros Has Hst Hto Hfrom Hroom Hbytes. unfold unp_connect.
  rewrite (connect_request_queues _ _ _ _ _ _ _ _ _ _ Has) by (done || lia). cbn [obind].
  pose proof (requested_queue name to from junk a us path name n w) as Hq. rewrite decide_True in Hq by done.
  rewrite requested_sock. cbn [sock_set_streams Unp.state]. rewrite Hst. change (answered Unp.UNS_ERROR) with true. cbn [obind].
  change (Unp.UNS_ERROR =? Unp.UNS_ERROR) with true. cbn [obind]. rewrite requested_sock. cbn [sock_set_streams Unp.to_server Unp.from_server].
  eexists. split; [done|]. split; [done|]. split.
  { cbn. rewrite lookup_insert_eq. destruct us, Has. cbn in *. by subst. }
  unfold kfree_stream. rewrite (proj2 (Z.eqb_neq to 0)), (proj2 (Z.eqb_neq from 0)) by done. cbn.
  split; [|split; [by rewrite lookup_delete_eq|exact Hq]].
  rewrite lookup_delete. case_decide; [done|]. by rewrite lookup_delete_eq.
Qed.

(** ** The rendezvous *)

(** The process [p] listens at its descriptor [l] for [name], its descriptors
    are in order ([ext] counts the references of the others), one of them is
    free, and the file of [l] is not locked. *)
Record listening (ext : Z -> Z) (p l name mem : Z) (w : world) (ctx : proc) : Prop := {
  li_ctx : others w !! p = Some ctx;
  li_sock : exists fp b us, sock_of l (with_context w ctx (others w)) = Some (fp, b, us) /\
    Unp.unix_name us = name /\ bset (default 0 (sync w !! fp)) FSFF_LOCKED = false;
  li_inv : inv [] ext (de (with_context w ctx (others w)));
  li_mem : mem <> 0 /\ fresh_mem mem (de w);
  li_free : exists i, 0 <= i < Descrip.NOFILE /\ aget (Descrip.u_ofile (pr_self ctx)) i = Some 0
}.

Lemma requested_rest to from junk a us path name n w :
  let w' := requested to from junk a us path name n w in
  de w' = de w /\ sync w' = sync w /\ others w' = others w /\ Unp.files (un w') = Unp.files (un w) /\
  context w' = context w /\
  Unp.socks (un w') = <[a := sock_set_streams us from to]> (Unp.socks (un w)) /\
  Unp.names (un w') = <[name := Unp.mk_uname (Unp.un_next n) (Unp.un_task n) (Unp.queue_size n) (Unp.queue n ++ [a])]>
    (Unp.names (un w)).
Proof. cbn zeta. unfold requested, new_stream. destruct (negb _), (to =? 0), (from =? 0); done. Qed.

Lemma requested_streams to from junk a us path name n w :
  to <> 0 -> from <> 0 ->
  let v := un (requested to from junk a us path name n w) in
  Unp.streams v !! to = Some (Unp.init_stream junk) /\ Unp.streams v !! from = Some (Unp.init_stream junk).
Proof.
  intros Ht Hf. cbn zeta. unfold requested, new_stream. rewrite (proj2 (Z.eqb_neq to 0)), (proj2 (Z.eqb_neq from 0)) by done.
  destruct (negb _); cbn; (split; [|by rewrite lookup_insert_eq]); rewrite lookup_insert; case_decide; try done;
    by rewrite lookup_insert_eq.
Qed.

(** The server finds the new client at the head of its queue. *)
Lemma requested_waits ext p l name mem w ctx to from junk a us path n :
  listening ext p l name mem w ctx -> name <> 0 -> Unp.queue n = [] -> a <> 0 -> Unp.unix_name us = 0 ->
  Unp.socks (un w) !! a = Some us ->
  let w' := requested to from junk a us path name n w in
  waits l (with_context w' ctx (others w')) name
    (Unp.mk_uname (Unp.un_next n) (Unp.un_task n) (Unp.queue_size n) [a]) a [] (sock_set_streams us from to).
Proof.
  intros [Hctx (fp & b & ub & Hs & Hname & Hl) Hinv Hm Hfree] Hnz Hq Ha Hun Hus. cbn zeta.
  destruct (requested_rest to from junk a us path name n w) as (Hde & Hsync & Hoth & Hfiles & _ & Hsocks & Hnames).
  rewrite Hq in Hnames. set (w1 := requested _ _ _ _ _ _ _ _ _) in *. clearbody w1.
  constructor; [|done|cbn; by rewrite Hnames, lookup_insert_eq| |done|cbn; by rewrite Hsocks, lookup_insert_eq].
  - exists fp, b, ub. split; [|split; [done|cbn; by rewrite Hsync]].
    unfold sock_of, ofile in *. cbn in *. rewrite Hde, Hfiles, Hsocks in *.
    destruct (aget _ l) as [fp'|]; [|done]. destruct (Unp.files (un w) !! fp') as [f|]; [|done].
    destruct (decide (Unp.f_ptr f = a)) as [E|Hne]; [|by rewrite lookup_insert_ne].
    rewrite E, Hus in Hs. injection Hs as _ _ ->. congruence.
  - cbn. by rewrite (proj2 (Z.eqb_neq a 0)).
Qed.

(** A client that connects to a listening server and is accepted gets 0; the server
    has a new descriptor, the lowest that was free, and the two files are
    connected crosswise by two new, empty streams: what the client writes goes to
    the stream the server reads, and the other way round. *)
Theorem connect_accept_pairs ext p l mem w ctx sched to from junk s path fpc f a us name n :
  listening ext p l name mem w ctx -> asks s path w a us name n ->
  sock_of s w = Some (fpc, a, us) -> Unp.files (un w) !! fpc = Some f -> Unp.f_type f = Unp.DTYPE_USOCKET ->
  fpc ∈ Descrip.used_files (de w) -> a <> 0 -> to <> 0 -> from <> 0 -> Unp.state us = Unp.UNS_WAITING ->
  Unp.queue n = [] -> Unp.queue_size n <> 0 -> 4 <= default 0 (qbytes w !! name) ->
  exists fd fp ctx' w', unp_connect ((0, acts p (accept_fd [] mem l)) :: sched) to from junk s path w = Ret 0 w' /\
    lowest_free (Descrip.u_ofile (pr_self ctx)) 0 fd /\
    others w' !! p = Some ctx' /\ aget (Descrip.u_ofile (pr_self ctx')) fd = Some fp /\
    Unp.find_stream (un w') fpc false = Some to /\ Unp.find_stream (un w') fp true = Some to /\
    Unp.find_stream (un w') fpc true = Some from /\ Unp.find_stream (un w') fp false = Some from /\
    Unp.streams (un w') !! to = Some (Unp.init_stream junk) /\ Unp.streams (un w') !! from = Some (Unp.init_stream junk) /\
    queue_of name w' = Some (Unp.queue_size n, []).
Proof.
  intros Hli Has Hs Hf Hty Hused Ha Hto Hfrom Hst Hq Hsize Hbytes.
  destruct (sock_of_file _ _ _ _ _ Hs) as (_ & (f' & Hf' & Hptr) & Hus). rewrite Hf in Hf'. injection Hf' as <-.
  unfold unp_connect. rewrite (connect_request_queues _ _ _ _ _ _ _ _ _ _ Has) by (done || rewrite Hq; cbn; done || lia).
  cbn [obind]. pose proof (requested_sock to from junk a us path name n w) as Hsock.
  pose proof (requested_waits ext p l name mem w ctx to from junk a us path n Hli (as_name _ _ _ _ _ _ _ Has) Hq Ha
    (as_unnamed _ _ _ _ _ _ _ Has) Hus) as Hwaits.
  destruct (requested_rest to from junk a us path name n w) as (Hde & Hsync & Hoth & Hfiles & Hctx & _ & _).
  destruct (requested_streams to from junk a us path name n w Hto Hfrom) as [Hs1 Hs2]. cbn zeta in Hwaits.
  pose proof (requested_queue name to from junk a us path name n w) as Hqueue. rewrite decide_True in Hqueue by done.
  set (w1 := requested _ _ _ _ _ _ _ _ _) in *. clearbody w1. rewrite Hsock. cbn [sock_set_streams Unp.state]. rewrite Hst.
  change (answered Unp.UNS_WAITING) with false. cbn [connect_wait]. unfold acts, as_process.
  pose proof Hli as [Hctx0 _ Hinv (Hm & Hfm) (i & Hi & Hfree)]. rewrite Hoth, Hctx0 in *.
  destruct (accept_serves ext [] mem l (with_context w1 ctx (others w)) _ _ _ _ _ Hwaits)
    as (fd & r & v & Hacc & Hiv & [(_ & [Hno|Hno] & _)|(fp & Hfd & Hns & Hsv)]);
    [cbn; rewrite Hde; exact Hinv|cbn; unfold fresh_mem; cbn; rewrite Hde; exact Hfm| |done|].
  { exfalso. destruct (Hno i) as (x & Hx & Hxn); [lia|]. cbn in Hx. congruence. }
  assert (accept_fd [] mem l (with_context w1 ctx (others w)) = Ret fd v) as -> by (unfold accept_fd; by rewrite Hacc).
  cbn [with_context un Unp.set_mask Unp.set_errno Unp.socks].
  rewrite (sv_socks _ _ _ _ _ _ _ Hsv), lookup_insert_eq. change (0 <? 0) with false. cbn [orb Unp.state].
  change (answered Unp.UNS_ACCEPTED) with true. cbn [negb obind]. change (Unp.UNS_ACCEPTED =? Unp.UNS_ERROR) with false.
  cbv iota. exists fd, fp, (context v). eexists. split; [done|].
  destruct (ns_fresh _ _ _ _ _ Hns) as [Hfp Hnew]. cbn in Hnew. rewrite Hde in Hnew.
  assert (fpc <> fp) as Hne by (intros ->; done).
  split; [apply Hns|]. split; [cbn; apply lookup_insert_eq|].
  split.
  { pose proof (ns_ofile _ _ _ _ _ Hns) as Ho. unfold ofile in Ho. by rewrite (cur_self _ (inv_parent _ _ _ Hiv)) in Ho. }
  unfold Unp.find_stream, queue_of. cbn.
  rewrite (ns_files _ _ _ _ _ Hns), (sv_socks _ _ _ _ _ _ _ Hsv), (sv_streams _ _ _ _ _ _ _ Hsv), (sv_names _ _ _ _ _ _ _ Hsv). cbn.
  rewrite Hfiles, lookup_insert_eq, lookup_insert_ne, Hf, Hty, Hptr by done. cbn. rewrite !lookup_insert_eq. cbn.
  rewrite Z.eqb_refl, (proj2 (Z.eqb_neq fp fpc)) by done. cbn. split_and!; done.
Qed.

(** ** A server and a client

    The server is process 7; its socket 100 listens at descriptor 0 for the path
    [65; 66], the name is at 300.  The client is the running process, and also
    process 8; its socket is 110 at descriptor 0. *)

Definition path_ab : list Z := [65; 66].
Definition ex_user (fp : Z) : Descrip.user := Descrip.mk_user (fp :: replicate 511 0) (replicate 512 0) 0.
Definition ex_dfile (us : Z) : Descrip.file :=
  Descrip._set_socket_params (Descrip.mk_file 0 0 0 0 1 None us (0, 0, 0) (Descrip.mk_stat 0 0 0)) PF_UNIX 0 0.
Definition ex_ufile (us : Z) : Unp.file := Unp.mk_file Unp.DTYPE_USOCKET FREAD_FWRITE 1 us true.
Definition ex_proc (fp : Z) : proc := mk_proc (ex_user fp) None 0 0 3 false false.
Definition ex_client (st : Z) : Unp.unix_socket := Unp.mk_usock st 0 0 0 0.
Definition ex_name : Unp.ix_unix_name := Unp.mk_uname 0 0 5 [].

Definition ex_world (st : Z) : world :=
  mk_world
    (Unp.mk_world ∅ {[ 100 := Unp.mk_usock 0 0 0 300 0; 110 := ex_client st ]} {[ 200 := ex_ufile 100; 210 := ex_ufile 110 ]}
       {[ 300 := ex_name ]} 300 0 0 [])
    (Descrip.mk_world (ex_user 210) None {[ 200 := ex_dfile 100; 210 := ex_dfile 110 ]} [210; 200] [] 0 [])
    {[ 100 := path_ab ]} {[ 300 := path_ab ]} {[ 300 := 20 ]} ∅ ∅ 3 false false
    {[ 7 := ex_proc 200; 8 := ex_proc 210 ]}.

(** The descriptors of a process with the file 200, while another has 210. *)
Lemma pair_inv f g :
  Descrip.f_count f = 1 -> Descrip.f_count g = 1 -> is_Some (Descrip.f_close f) -> is_Some (Descrip.f_close g) ->
  inv [] (ind 210) (Descrip.mk_world (ex_user 200) None {[ 200 := f; 210 := g ]} [210; 200] [] 0 []).
Proof.
  intros Hf Hg Hcf Hcg.
  assert (forall x, x ∈ [210; 200] -> x = 210 \/ x = 200) as H1 by set_solver.
  assert (forall x, x <> 0 -> refs (replicate 511 0) x = 0) as H0.
  { intros x Hx. apply refs_not_elem. by intros [-> _]%elem_of_replicate. }
  constructor; cbn -[replicate]; try done.
  - apply NoDup_cons. split; [set_solver|apply NoDup_singleton].
  - set_solver.
  - intros fp [->| ->]%H1; by eexists.
  - intros fp Hnz. rewrite refs_cons, H0 by done. unfold ind. case_decide; [subst; set_solver|lia].
  - intros fp. unfold ind. case_decide; [subst; split; [lia|set_solver]|split; [lia|lia]].
  - intros fp h [->| ->]%H1; intros [= <-]; rewrite refs_cons, H0 by done; done.
  - intros fp h [->| ->]%H1; intros [= <-] _; by right.
  - intros i fp Hi Hnz. destruct (Z.eq_dec i 0) as [->|Hne]; [done|].
    unfold aget in Hi. destruct (Z.leb_spec 0 i); [|done].
    destruct (Z.to_nat i) as [|k] eqn:Hk; [lia|]. apply lookup_replicate in Hi as [-> _]. done.
Qed.

Lemma ex_inv st : inv [] (ind 210) (de (with_context (ex_world st) (ex_proc 200) (others (ex_world st)))).
Proof. by apply pair_inv; try by eexists. Qed.

Lemma ex_asks st : asks 0 path_ab (ex_world st) 110 (ex_client st) 300 ex_name.
Proof. constructor; try done. by exists 210. Qed.

Lemma ex_listening : listening (ind 210) 7 0 300 400 (ex_world Unp.UNS_WAITING) (ex_proc 200).
Proof.
  constructor; [done| |apply ex_inv| |].
  - by exists 200, 100, (Unp.mk_usock 0 0 0 300 0).
  - split; [done|]. intros _. cbn. set_solver.
  - exists 1. split; [done|]. by vm_compute.
Qed.

Lemma connect_accept_pairs_witness :
  exists fd fp ctx' w', unp_connect [(0, acts 7 (accept_fd [] 400 0))] 500 600 [1; 2] 0 path_ab (ex_world Unp.UNS_WAITING) = Ret 0 w' /\
    lowest_free (Descrip.u_ofile (pr_self (ex_proc 200))) 0 fd /\
    others w' !! 7 = Some ctx' /\ aget (Descrip.u_ofile (pr_self ctx')) fd = Some fp /\
    Unp.find_stream (un w') 210 false = Some 500 /\ Unp.find_stream (un w') fp true = Some 500 /\
    Unp.find_stream (un w') 210 true = Some 600 /\ Unp.find_stream (un w') fp false = Some 600 /\
    Unp.streams (un w') !! 500 = Some (Unp.init_stream [1; 2]) /\ Unp.streams (un w') !! 600 = Some (Unp.init_stream [1; 2]) /\
    queue_of 300 w' = Some (5, []).
Proof.
  apply (connect_accept_pairs (ind 210) 7 0 400 (ex_world Unp.UNS_WAITING) (ex_proc 200) [] 500 600 [1; 2] 0 path_ab 210
    (ex_ufile 110) 110 (ex_client Unp.UNS_WAITING) 300 ex_name); try done.
  - exact ex_listening.
  - exact (ex_asks Unp.UNS_WAITING).
  - cbn. set_solver.
Defined.

Lemma refused_stays_refused_witness :
  exists w', unp_connect [] 500 600 [] 0 path_ab (ex_world Unp.UNS_ERROR) = Ret (-1) w' /\ w_errno w' = ECONNREFUSED /\
    Unp.socks (un w') !! 110 = Some (ex_client Unp.UNS_ERROR) /\ Unp.streams (un w') !! 500 = None /\
    Unp.streams (un w') !! 600 = None /\ queue_of 300 w' = Some (5, [110]).
Proof.
  exact (refused_stays_refused [] 500 600 [] 0 path_ab (ex_world Unp.UNS_ERROR) 110 (ex_client Unp.UNS_ERROR) 300 ex_name
    (ex_asks Unp.UNS_ERROR) eq_refl (fun H => match H with end) (fun H => match H with end) eq_refl ltac:(done)).
Defined.

(** A request of process 8 and an accept of process 7. *)
Definition ex_requested : world := acts 8 (request 500 600 [] 0 path_ab) (ex_world Unp.UNS_WAITING).
Definition ex_served : world := acts 7 (accept_fd [] 400 0) ex_requested.

Lemma ex_steps : steps 300 (ex_world Unp.UNS_WAITING) [Req 300 110; Acc 300 110] ex_served.
Proof.
  eapply steps_cons; [|eapply steps_cons; [|apply steps_nil]].
  - apply (step_request 300 8 500 600 [] 0 path_ab 300 110 _ ex_requested); [by vm_compute|done|done].
  - apply (step_accept 300 7 400 0 1 (ex_proc 200) 200 100 (Unp.mk_usock 0 0 0 300 0) 110 [] ex_requested ex_served); by vm_compute.
Qed.

Lemma backlog_is_fifo_witness :
  exists q, queue_of 300 ex_served = Some (5, q) /\
    reqs 300 [Req 300 110; Acc 300 110] = accs 300 [Req 300 110; Acc 300 110] ++ q /\ Z.of_nat (length q) <= 5.
Proof. by apply (backlog_is_fifo 300 5 (ex_world Unp.UNS_WAITING)); [| |exact ex_steps]. Defined.

(** A signal that interrupts the sleep of connect in the moment the server
    accepts: the state of the socket is ACCEPTED, but connect sleeps again, and
    nobody will wake it. *)
Definition ex_interrupted : outcome world Z :=
  unp_connect [(-1, acts 7 (accept_fd [] 400 0))] 500 600 [] 0 path_ab (ex_world Unp.UNS_WAITING).

Example interrupted_connect_hangs :
  match ex_interrupted with
  | Asleep w => option_map Unp.state (Unp.socks (un w) !! 110) = Some Unp.UNS_ACCEPTED
  | _ => False
  end.
Proof. by vm_compute. Qed.

(** ** Sockets of the network library *)

(** A call that gives a socket took the lowest free descriptor or, when it
    failed, left the table as it was; the counts of all files are right and the
    process has its old state back. *)
Definition clean_result (ext : Z -> Z) (w : world) (m : outcome world Z) : Prop :=
  exists r w', m = Ret r w' /\ inv [] ext (de w') /\ w_stat w' = w_stat w /\
    ((r = -1 /\ Descrip.u_ofile (Descrip.self (de w')) = Descrip.u_ofile (Descrip.self (de w))) \/
     lowest_free (Descrip.u_ofile (Descrip.self (de w))) 0 r).

Section Network.
Context (netcall : net_request -> world -> Z * world) (CURSIG : world -> bool * world).
Context (net_de : forall c w, de (netcall c w).2 = de w) (sig_de : forall w, de (CURSIG w).2 = de w).

Lemma cleanup_keeps epipe ostat w :
  de (socket_cleanup CURSIG epipe ostat w) = de w /\ w_stat (socket_cleanup CURSIG epipe ostat w) = ostat.
Proof.
  unfold socket_cleanup. pose proof (sig_de w) as H. destruct (CURSIG w) as [sig v]. cbn in H. subst.
  destruct sig, epipe; cbn; repeat case_match; done.
Qed.

Lemma give_socket_clean ext mem call params w v :
  inv [] ext (de v) -> fresh_mem mem (de v) -> (forall x, same_used (de v) (de x) -> is_Some (params x)) -> de v = de w ->
  forall f, (forall x, de (f x) = de x) ->
  clean_result ext w
    (let* (r, x) := new_net_socket netcall mem call params v in give_socket CURSIG (w_stat w) r (f x)).
Proof.
  intros Hinv Hm Hpar Hd f Hf.
  destruct (new_net_socket_spec netcall net_de ext mem call params v Hinv Hm Hpar) as (err & fd & x & -> & Hi & Hcase).
  cbn [obind give_socket]. destruct (cleanup_keeps false (w_stat w) (set_errno (f x) err)) as [Hde Hst].
  eexists _, _. split; [done|]. rewrite Hde, Hst. change (de (set_errno (f x) err)) with (de (f x)). rewrite Hf, <- Hd.
  split; [done|]. split; [done|]. destruct Hcase as [(He & Ho)|(-> & Hl)]; [left|by right].
  by rewrite (proj2 (Z.eqb_neq err 0)).
Qed.

(** socket, for a domain of the network library, accept on a socket of it and
    ix_obtain_socket give the lowest free descriptor or fail without leaving
    anything behind: no descriptor stays reserved, no file structure is lost,
    every count is right, and the state of the process is restored; whatever the
    network library answers. *)
Theorem net_sockets_keep_descriptors ext kmem mem sched domain type protocol id s fp f w :
  inv [] ext (de w) -> fresh_mem mem (de w) -> w_net w = true -> domain <> PF_UNIX ->
  0 <= s < Descrip.NOFILE -> ofile s w = Some fp -> fp <> 0 ->
  Descrip.files (de w) !! fp = Some f -> Descrip.f_type f = Descrip.DTYPE_SOCKET ->
  clean_result ext w (socket netcall CURSIG kmem mem domain type protocol w) /\
  clean_result ext w (let* (r, w) := accept netcall CURSIG sched mem s w in Ret r.1 w) /\
  clean_result ext w (ix_obtain_socket netcall CURSIG mem id domain type protocol w).
Proof.
  intros Hinv Hm Hnet Hdom Hs Hofile Hfp Hf Hty. split_and!.
  - unfold socket. rewrite (proj2 (Z.eqb_neq _ _) Hdom), Hnet. cbn [negb sigsetmask Unp.sigsetmask].
    refine (give_socket_clean ext mem _ _ w _ _ _ _ _ (fun x => set_un x (Unp.set_mask (un x) _)) _); done.
  - unfold accept, getsock. unfold u32. rewrite Z.mod_small by (unfold Descrip.NOFILE in Hs; lia).
    rewrite (proj2 (Z.leb_gt _ _)), Hofile, (proj2 (Z.eqb_neq fp 0)), Hf, Hty, Hnet by lia.
    cbn [negb andb obind Z.eqb Pos.eqb Descrip.DTYPE_SOCKET Descrip.DTYPE_USOCKET].
    rewrite (proj2 (Z.eqb_neq fp 0)), Hf, Hty by done. cbn [Z.eqb Pos.eqb Descrip.DTYPE_SOCKET Descrip.DTYPE_USOCKET].
    pose proof (give_socket_clean ext mem (NET__accept fp) (accepted_params fp) w (set_stat w SWAIT) Hinv Hm) as Hg.
    destruct Hg with (f := fun x : world => x) as (r & w' & Hr & Hrest); [|done|done|].
    { intros x Hx. unfold accepted_params. unfold ofile in Hofile. rewrite (cur_self _ (inv_parent _ _ _ Hinv)) in Hofile.
      rewrite (Hx fp) by apply (inv_open _ _ _ _ _ Hinv Hofile Hfp). cbn. rewrite Hf.
      destruct (Descrip.f_sock f) as [[??]?]. by eexists. }
    destruct (obind_Ret_inv _ _ _ _ Hr) as (p & x & -> & Hr'). cbn [obind]. rewrite Hr'. cbn [obind fst].
    exists r, w'. done.
  - unfold ix_obtain_socket. rewrite Hnet.
    apply (give_socket_clean ext mem _ _ w (set_stat w SWAIT) Hinv Hm) with (f := fun x : world => x); [by intros; eexists|done|done].
Qed.
End Network.

(** A process with a socket of the network library, and a library whose every
    call fails with EINTR. *)
Definition net_file : Descrip.file :=
  Descrip._set_socket_params (Descrip.mk_file 0 0 0 0 1 None 3 (0, 0, 0) (Descrip.mk_stat 0 0 0)) AF_INET 1 0.
Definition net_world : world :=
  mk_world (Unp.mk_world ∅ ∅ ∅ ∅ 0 0 0 [])
    (Descrip.mk_world (ex_user 200) None {[ 200 := net_file; 210 := net_file ]} [210; 200] [] 0 [])
    ∅ ∅ ∅ ∅ ∅ 3 true false ∅.
Definition net_fails (c : net_request) (w : world) : Z * world := (-1, set_errno w EINTR).
Definition no_signal (w : world) : bool * world := (false, w).

Lemma net_sockets_keep_descriptors_witness :
  clean_result (ind 210) net_world (socket net_fails no_signal 0 400 AF_INET 1 0 net_world) /\
  clean_result (ind 210) net_world (let* (r, w) := accept net_fails no_signal [] 400 0 net_world in Ret r.1 w) /\
  clean_result (ind 210) net_world (ix_obtain_socket net_fails no_signal 400 77 AF_INET 1 0 net_world).
Proof.
  apply (net_sockets_keep_descriptors net_fails no_signal (fun _ _ => eq_refl) (fun _ => eq_refl)
    (ind 210) 0 400 [] AF_INET 1 0 77 0 200 net_file net_world); try done.
  - apply pair_inv; try done; by eexists.
  - intros _. cbn. set_solver.
Defined.

(** A domain that is neither AF_INET nor PF_UNIX: the file gets the type of a
    UNIX domain socket, and the number the network library returned is taken for
    the address of a struct unix_socket. *)
Definition net_gives (n : Z) (c : net_request) (w : world) : Z * world := (n, w).

Example other_domain_confused :
  match socket (net_gives 3) no_signal 0 400 24 1 0 net_world with
  | Ret 1 w => option_map (fun f => (Descrip.f_type f, Descrip.f_fh f)) (Descrip.files (de w) !! 400) =
      Some (Descrip.DTYPE_USOCKET, 3)
  | _ => False
  end.
Proof. by vm_compute. Qed.
