(* ===== verification/Users.v ===== *)
(** * Users and groups: data and operations

    Models library/user.c, library/group.c and library/__amiga_ids.c with the
    routines of the C library they use (string/strsep.c, stdlib/strtol.c,
    stdio/fgets.c): the credentials of a process, the login name, and the
    databases of users and groups, which come from multiuser.library, from the
    network library, from the files /etc/passwd and /etc/group, or from the
    built-in entries.

    A string is the list of its characters, [None] is NULL.  An open file is the
    text that is still to be read.  The structures returned point into static
    buffers of the process; the model returns their contents at that time.  The
    contents of the two files, the environment, what malloc and the two libraries
    answer are arguments. *)

From S2P Require Import Prelude.

Module Users.

(** ** Strings *)

Definition bytes (s : string) : list Z := map (fun a => Z.of_N (Ascii.N_of_ascii a)) (String.list_ascii_of_string s).

Definition NL : Z := 10.
Definition COLON : Z := 58.
Definition BAR : Z := 124.
Definition COMMA : Z := 44.
Definition SPACE : Z := 32.

(** What is in front of the terminating zero. *)
Fixpoint cstr (s : list Z) : list Z :=
  match s with [] => [] | c :: s => if c =? 0 then [] else c :: cstr s end.

(** index (s, c) is not NULL. *)
Definition has (c : Z) (s : list Z) : bool := bool_decide (c ∈ s).

(** strsep: the token and the rest behind the delimiter. *)
Fixpoint token (delim s : list Z) : list Z * option (list Z) :=
  match s with
  | [] => ([], None)
  | c :: s => if has c delim then ([], Some s) else let '(t, r) := token delim s in (c :: t, r)
  end.

Definition strsep (delim : list Z) (bp : option (list Z)) : option (list Z) * option (list Z) :=
  match bp with
  | None => (None, None)
  | Some s => let '(t, r) := token delim s in (Some t, r)
  end.

(** fgets with a buffer of [n + 1] bytes: the characters read and the rest. *)
Fixpoint fgets (n : nat) (text : list Z) : list Z * list Z :=
  match n, text with
  | O, _ | _, [] => ([], text)
  | S n, c :: text => if c =? NL then ([c], text) else let '(l, r) := fgets n text in (c :: l, r)
  end.

(** [while ((ch = getc (fp)) != '\n' && ch != EOF) ;] *)
Fixpoint skip_line (text : list Z) : list Z :=
  match text with [] => [] | c :: text => if c =? NL then text else skip_line text end.

(** strtol in base 10: the value and whether it is out of range. *)
Fixpoint strtol_loop (cutoff cutlim acc : Z) (over : bool) (s : list Z) : Z * bool :=
  match s with
  | c :: s =>
    if (48 <=? c) && (c <=? 57) then
      let d := c - 48 in
      if over || (cutoff <? acc) || ((acc =? cutoff) && (cutlim <? d)) then strtol_loop cutoff cutlim acc true s
      else strtol_loop cutoff cutlim (acc * 10 + d) false s
    else (acc, over)
  | [] => (acc, over)
  end.

Definition isspace (c : Z) : bool := (c =? 32) || ((9 <=? c) && (c <=? 13)).
Fixpoint skip_space (s : list Z) : list Z :=
  match s with c :: s' => if isspace c then skip_space s' else s | [] => [] end.

Definition atoi (s : list Z) : Z * bool :=
  let s := skip_space s in
  let '(neg, s) := match s with c :: s' => if c =? 45 then (true, s') else if c =? 43 then (false, s') else (false, s)
                   | [] => (false, []) end in
  let limit := if neg : bool then 2 ^ 31 else 2 ^ 31 - 1 in
  let '(acc, over) := strtol_loop (limit / 10) (limit mod 10) 0 false s in
  (if over : bool then (if neg then - 2 ^ 31 else 2 ^ 31 - 1) else if neg then - acc else acc, over).

(** ** Identifiers of AmigaOS: library/__amiga_ids.c *)

Definition __amiga2unixid (id : Z) : Z :=
  if id =? 65535 then 0 else if id =? 65534 then 65535 else if id =? 0 then 65534 else id.
Definition __unix2amigaid (id : Z) : Z :=
  if id =? 65535 then 65534 else if id =? 65534 then 0 else if id =? 0 then 65535 else id.

(** ** Data *)

Record passwd := mk_passwd {
  pw_name : option (list Z); pw_passwd : option (list Z);
  pw_uid : Z; pw_gid : Z; pw_change : Z; pw_class : option (list Z);
  pw_gecos : option (list Z); pw_dir : option (list Z); pw_shell : option (list Z); pw_expire : Z
}.

Record group := mk_group {
  gr_name : option (list Z); gr_passwd : option (list Z); gr_gid : Z; gr_mem : list (list Z)
}.

(** A database of the process: u_passwd, u_pwd_fp, u_pwd_stayopen, whether
    u_pwd_line is allocated, u_nextuid, u_passwdfileopen; and the same for
    groups. *)
Record db (E : Type) := mk_db {
  ent : E; fp : option (list Z); stayopen : Z; line : bool; next : Z; fileopen : bool
}.
Arguments mk_db {E} _ _ _ _ _ _.
Arguments ent {E} _.
Arguments fp {E} _.
Arguments stayopen {E} _.
Arguments line {E} _.
Arguments next {E} _.
Arguments fileopen {E} _.

Definition set_ent {E} (d : db E) (v : E) : db E := mk_db v (fp d) (stayopen d) (line d) (next d) (fileopen d).
Definition set_fp {E} (d : db E) v : db E := mk_db (ent d) v (stayopen d) (line d) (next d) (fileopen d).
Definition set_stayopen {E} (d : db E) v : db E := mk_db (ent d) (fp d) v (line d) (next d) (fileopen d).
Definition set_line {E} (d : db E) v : db E := mk_db (ent d) (fp d) (stayopen d) v (next d) (fileopen d).
Definition set_next {E} (d : db E) v : db E := mk_db (ent d) (fp d) (stayopen d) (line d) v (fileopen d).
Definition set_fileopen {E} (d : db E) v : db E := mk_db (ent d) (fp d) (stayopen d) (line d) (next d) v.

Record creds := mk_creds {
  u_ruid : Z; u_euid : Z; u_rgid : Z; u_egid : Z; u_ngroups : Z; u_grouplist : list Z; u_setuid : Z
}.

Record world := mk_world {
  pw : db passwd; gr : db group; cr : creds;
  u_logname : option (list Z);      (** None: u_logname_valid is not set *)
  w_errno : Z
}.

Definition set_pw w v := mk_world v (gr w) (cr w) (u_logname w) (w_errno w).
Definition set_gr w v := mk_world (pw w) v (cr w) (u_logname w) (w_errno w).
Definition set_cr w v := mk_world (pw w) (gr w) v (u_logname w) (w_errno w).
Definition set_errno w v := mk_world (pw w) (gr w) (cr w) (u_logname w) v.

Definition pw_set_name p v :=
  mk_passwd v (pw_passwd p) (pw_uid p) (pw_gid p) (pw_change p) (pw_class p) (pw_gecos p) (pw_dir p) (pw_shell p) (pw_expire p).
Definition pw_set_passwd p v :=
  mk_passwd (pw_name p) v (pw_uid p) (pw_gid p) (pw_change p) (pw_class p) (pw_gecos p) (pw_dir p) (pw_shell p) (pw_expire p).
Definition pw_set_uid p v :=
  mk_passwd (pw_name p) (pw_passwd p) v (pw_gid p) (pw_change p) (pw_class p) (pw_gecos p) (pw_dir p) (pw_shell p) (pw_expire p).
Definition pw_set_gid p v :=
  mk_passwd (pw_name p) (pw_passwd p) (pw_uid p) v (pw_change p) (pw_class p) (pw_gecos p) (pw_dir p) (pw_shell p) (pw_expire p).
Definition pw_set_gecos p v :=
  mk_passwd (pw_name p) (pw_passwd p) (pw_uid p) (pw_gid p) (pw_change p) (pw_class p) v (pw_dir p) (pw_shell p) (pw_expire p).
Definition pw_set_dir p v :=
  mk_passwd (pw_name p) (pw_passwd p) (pw_uid p) (pw_gid p) (pw_change p) (pw_class p) (pw_gecos p) v (pw_shell p) (pw_expire p).
Definition pw_set_shell p v :=
  mk_passwd (pw_name p) (pw_passwd p) (pw_uid p) (pw_gid p) (pw_change p) (pw_class p) (pw_gecos p) (pw_dir p) v (pw_expire p).

Definition builtin_root : passwd :=
  mk_passwd (Some (bytes "root")) (Some []) 0 0 0 (Some []) (Some (bytes "The Master of All Things"))
    (Some (bytes "SYS:")) (Some (bytes "sh")) 0.
Definition builtin_nobody : passwd :=
  mk_passwd (Some (bytes "nobody")) (Some []) (-2) (-2) 0 (Some []) (Some (bytes "The Anonymous One"))
    (Some (bytes "T:")) (Some (bytes "sh")) 0.
Definition builtin_wheel : group := mk_group (Some (bytes "wheel")) (Some (bytes "*")) 0 [].
Definition builtin_nogroup : group := mk_group (Some (bytes "nogroup")) (Some (bytes "*")) (-2) [].

(** ** What the calls ask *)

Record muUserInfo := mk_uinfo { UserID : list Z; ui_uid : Z; ui_gid : Z; UserName : list Z; HomeDir : list Z; Shell : list Z }.
Record muGroupInfo := mk_ginfo { GroupID : list Z; gi_gid : Z }.
Inductive mukey := muKeyType_First | muKeyType_Next | muKeyType_uid (uid : Z) | muKeyType_UserID (id : list Z).

(** multiuser.library: the owner of the task, its databases, whether muLogin
    succeeds, muGetTaskExtOwner, and the text of its password file. *)
Record multiuser := mk_mu {
  muGetTaskOwner : Z;
  muGetUserInfo : mukey -> option muUserInfo;
  muGetGroupInfo : mukey -> option muGroupInfo;
  muLogin : muUserInfo -> bool;
  muGetTaskExtOwner : option (Z * list Z);
  mu_passwords : option (list Z)
}.

(** The calls of the network library. *)
Record network := mk_net {
  NET_getpwuid : Z -> option passwd; NET_getpwnam : list Z -> option passwd; NET_getpwent : option passwd;
  NET_setpassent : Z -> Z; NET_setpwent : Z;
  NET_getgrgid : Z -> option group; NET_getgrnam : list Z -> option group; NET_getgrent : option group;
  NET_setgroupent : Z -> Z; NET_setgrent : Z
}.

Inductive envvar := HOME | REALNAME | GROUP.

Record system := mk_system {
  muBase : option multiuser;
  u_ixnetbase : option network;
  etc_passwd : option (list Z);     (** None: fopen fails *)
  etc_group : option (list Z);
  getenv : envvar -> option (list Z);
  malloc_ok : bool
}.

Definition MAXLINELENGTH : nat := 1024.
Definition MAXGRP : nat := 200.
Definition NGROUPS_MAX : Z := 16.
Definition MAXLOGNAME : nat := 12.
Definition muUSERIDSIZE : Z := 32.
Definition muGROUPIDSIZE : Z := 32.
Definition muPASSWORDSIZE : Z := 32.
Definition muUSERNAMESIZE : Z := 220.
Definition ERANGE : Z := 34.
Definition EFAULT : Z := 14.
Definition EPERM : Z := 1.
Definition ENOSYS : Z := 78.
Definition NOBODY : Z := 65534.

Definition separators (l : list Z) : list Z := if has BAR l then [BAR; NL] else [COLON; NL].

(** [atoi], with errno. *)
Definition atoi_w (s : list Z) (w : world) : Z * world :=
  let '(v, over) := atoi s in (v, if over : bool then set_errno w ERANGE else w).

Definition strlen (s : list Z) : Z := Z.of_nat (length s).

(** ** The login name *)

Definition setlogin (s : list Z) (w : world) : world :=
  mk_world (pw w) (gr w) (cr w) (Some (take MAXLOGNAME s)) (w_errno w).

Definition getlogin (w : world) : option (list Z) :=
  match u_logname w with Some [] => None | l => l end.

(** [_getlogin (s, size)]: what strncpy stores. *)
Definition _getlogin (size : nat) (w : world) : list Z :=
  match getlogin w with
  | Some l => take size (l ++ replicate (size - length l) 0)
  | None => [0]
  end.

Section System.
Context (sys : system).

(** ** Credentials *)

Definition getuid (w : world) : Z :=
  match muBase sys with Some m => __amiga2unixid (Z.shiftr (muGetTaskOwner m) 16) | None => u_ruid (cr w) end.
Definition geteuid (w : world) : Z :=
  match muBase sys with Some m => __amiga2unixid (Z.shiftr (muGetTaskOwner m) 16) | None => u_euid (cr w) end.
Definition getgid (w : world) : Z :=
  match muBase sys with Some m => __amiga2unixid (Z.land (muGetTaskOwner m) 0xffff) | None => u_rgid (cr w) end.
Definition getegid (w : world) : Z :=
  match muBase sys with Some m => __amiga2unixid (Z.land (muGetTaskOwner m) 0xffff) | None => u_egid (cr w) end.

Definition setreuid (ruid euid : Z) (w : world) : outcome world Z :=
  let c := cr w in
  match muBase sys with
  | Some m =>
    if geteuid w =? 0 then
      if negb (euid =? -1) then
        match muGetUserInfo m (muKeyType_uid (__unix2amigaid (u16 euid))) with
        | Some ui =>
          Ret 0 (if muLogin m ui then
                   set_cr w (mk_creds (u_ruid c) (u_euid c) (u_rgid c) (u_egid c) (u_ngroups c) (u_grouplist c) (u_setuid c + 1))
                 else w)
        | None => Ret 0 w
        end
      else Ret 0 w
    else Ret (-1) (set_errno w EPERM)
  | None =>
    Ret 0 (set_cr w (mk_creds (if negb (ruid =? -1) then u16 ruid else u_ruid c) (if negb (euid =? -1) then u16 euid else u_euid c)
                       (u_rgid c) (u_egid c) (u_ngroups c) (u_grouplist c) (u_setuid c)))
  end.

Definition setuid (uid : Z) : world -> outcome world Z := setreuid (u16 uid) (u16 uid).
Definition seteuid (uid : Z) : world -> outcome world Z := setreuid (-1) (u16 uid).

Definition setregid (rgid egid : Z) (w : world) : outcome world Z :=
  let c := cr w in
  match muBase sys with
  | Some _ => Ret (-1) (set_errno w ENOSYS)
  | None =>
    Ret 0 (set_cr w (mk_creds (u_ruid c) (u_euid c) (if negb (rgid =? -1) then u16 rgid else u_rgid c)
                       (if negb (egid =? -1) then u16 egid else u_egid c) (u_ngroups c)
                       (if negb (egid =? -1) then aput (u_grouplist c) 0 egid else u_grouplist c) (u_setuid c)))
  end.

Definition setgid (gid : Z) : world -> outcome world Z := setregid (u16 gid) (u16 gid).
Definition setegid (gid : Z) : world -> outcome world Z := setregid (-1) (u16 gid).

(** [gidset] is None for NULL, else the memory it points to. *)
Definition setgroups (n : Z) (gidset : option (list Z)) (w : world) : outcome world Z :=
  match muBase sys with
  | Some _ => Ret 0 w
  | None =>
    match gidset with
    | None => Ret (-1) (set_errno w EFAULT)
    | Some g =>
      if n <? 0 then Ret (-1) (set_errno w EFAULT)
      else if (n =? 0) || (NGROUPS_MAX <? n) then Ret (-1) (set_errno w EINVAL)
      else if Z.of_nat (length g) <? n then Fault
      else
        let c := cr w in
        let l := take (Z.to_nat n) g ++ drop (Z.to_nat n) (u_grouplist c) in
        let? g0 := aget l 0 in
        Ret 0 (set_cr w (mk_creds (u_ruid c) (u_euid c) (u_rgid c) (u16 g0) n l (u_setuid c)))
    end
  end.

(** The result and what is stored at [gidset], a buffer of [len] integers.  With
    multiuser.library the loop copies one group more than there are. *)
Definition getgroups (len : Z) (null : bool) (w : world) : outcome world (Z * list Z) :=
  if null || (len <? 0) then Ret (-1, []) (set_errno w EFAULT)
  else if len <? 1 then Ret (-1, []) (set_errno w EINVAL)
  else
    match muBase sys with
    | Some m =>
      match muGetTaskExtOwner m with
      | None => Ret (1, [-2]) w
      | Some (gid, sec) =>
        if len - 1 <? Z.of_nat (length sec) then Ret (-1, [__amiga2unixid gid]) (set_errno w EINVAL)
        else Fault
      end
    | None =>
      if len <? u_ngroups (cr w) then Ret (-1, []) (set_errno w EINVAL)
      else Ret (u_ngroups (cr w), take (Z.to_nat (u_ngroups (cr w))) (u_grouplist (cr w))) w
    end.
(** ** Reading a file of lines

    [start_pw] and [start_gr]: the file from its start, or false. *)
Definition start {E} (file : option (list Z)) (d : db E) : bool * db E :=
  match fp d, file with
  | Some _, Some t => (true, set_fp d (Some t))
  | Some r, None => (true, d)
  | None, Some t => (true, set_fp d (Some t))
  | None, None => (false, d)
  end.

(** One line: None at the end of the file, the line or nothing if it was too
    long, and the rest of the text. *)
Definition read_line (text : list Z) : option (option (list Z) * list Z) :=
  match fgets (MAXLINELENGTH - 1) text with
  | ([], _) => None
  | (l, r) => let l := cstr l in Some (if has NL l then (Some l, r) else (None, skip_line r))
  end.

(** What is searched for; None if every entry will do. *)
Inductive key := ByName (name : list Z) | ById (id : Z).

(** [search && name && strcmp (pw_name, name)] *)
Definition other_name (k : option key) (name : option (list Z)) : bool :=
  match k with Some (ByName n) => negb (bool_decide (name = Some n)) | _ => false end.
(** [search && name == NULL && pw_uid != uid] *)
Definition other_id (k : option key) (id : Z) : bool :=
  match k with Some (ById i) => negb (id =? i) | _ => false end.

(** What one line does to the structure, and whether it is the one. *)
Definition pw_line (k : option key) (l : list Z) (w : world) : bool * world :=
  let put f w := set_pw w (set_ent (pw w) (f (ent (pw w)))) in
  let sep := separators l in
  let '(name, bp) := strsep sep (Some l) in
  let w := put (fun p => pw_set_name p name) w in
  if other_name k name then (false, w)
  else
    let '(pass, bp) := strsep sep bp in
    let w := put (fun p => pw_set_passwd p pass) w in
    match strsep sep bp with
    | (None, _) => (false, w)
    | (Some cp, bp) =>
      let '(uid, w) := atoi_w cp w in
      let w := put (fun p => pw_set_uid p (u16 uid)) w in
      if other_id k (u16 uid) then (false, w)
      else
        match strsep sep bp with
        | (None, _) => (false, w)
        | (Some cp, bp) =>
          let '(gid, w) := atoi_w cp w in
          let w := put (fun p => pw_set_gid p (u16 gid)) w in
          let '(gecos, bp) := strsep sep bp in
          let w := put (fun p => pw_set_gecos p gecos) w in
          match gecos with
          | None => (false, w)
          | Some _ =>
            let '(dir, bp) := strsep sep bp in
            let w := put (fun p => pw_set_dir p dir) w in
            match dir with
            | None => (false, w)
            | Some _ =>
              let '(shell, bp) := strsep [NL] bp in
              let w := put (fun p => pw_set_shell p shell) w in
              (bool_decide (is_Some shell), w)
            end
          end
        end
    end.

(** The members up to the bound of the array. *)
Fixpoint members (n : nat) (bp : option (list Z)) : list (list Z) :=
  match n with
  | O => []
  | S n => match strsep [COMMA; SPACE; NL] bp with (Some m, bp) => m :: members n bp | (None, _) => [] end
  end.

Definition gr_line (k : option key) (l : list Z) (w : world) : bool * world :=
  let put f w := set_gr w (set_ent (gr w) (f (ent (gr w)))) in
  let sep := separators l in
  let '(name, bp) := strsep sep (Some l) in
  let w := put (fun g => mk_group name (gr_passwd g) (gr_gid g) (gr_mem g)) w in
  if other_name k name then (false, w)
  else
    let '(pass, bp) := strsep sep bp in
    let w := put (fun g => mk_group (gr_name g) pass (gr_gid g) (gr_mem g)) w in
    match strsep sep bp with
    | (None, _) => (false, w)
    | (Some cp, bp) =>
      let '(gid, w) := atoi_w cp w in
      let w := put (fun g => mk_group (gr_name g) (gr_passwd g) (u16 gid) (gr_mem g)) w in
      if other_id k (u16 gid) then (false, w)
      else (true, put (fun g => mk_group (gr_name g) (gr_passwd g) (gr_gid g) (members (MAXGRP - 1) bp)) w)
    end.

(** The loops of pwscan and grscan; [put] stores what is left of the file. *)
Fixpoint scan_loop (fuel : nat) (one : list Z -> world -> bool * world) (put : list Z -> world -> world) (text : list Z)
    (w : world) : outcome world bool :=
  match fuel with
  | O => Diverge
  | S fuel =>
    match read_line text with
    | None => Ret false (put [] w)
    | Some (l, rest) =>
      let w := put rest w in
      match l with
      | None => scan_loop fuel one put rest w
      | Some l => let '(found, w) := one l w in if found : bool then Ret true w else scan_loop fuel one put rest w
      end
    end
  end.

Definition pwscan (k : option key) (w : world) : outcome world bool :=
  if negb (line (pw w)) && negb (malloc_ok sys) then Ret false (set_errno w ENOMEM)
  else
    let w := set_pw w (set_line (pw w) true) in
    let? text := fp (pw w) in
    scan_loop (S (length text)) (pw_line k) (fun r w => set_pw w (set_fp (pw w) (Some r))) text w.

Definition grscan (k : option key) (w : world) : outcome world bool :=
  if negb (line (gr w)) && negb (malloc_ok sys) then Ret false (set_errno w ENOMEM)
  else
    let w := set_gr w (set_line (gr w) true) in
    let? text := fp (gr w) in
    scan_loop (S (length text)) (gr_line k) (fun r w => set_gr w (set_fp (gr w) (Some r))) text w.

Definition start_pw (w : world) : bool * world := let '(b, d) := start (etc_passwd sys) (pw w) in (b, set_pw w d).
Definition start_gr (w : world) : bool * world := let '(b, d) := start (etc_group sys) (gr w) in (b, set_gr w d).

(** ** Entries of multiuser.library *)

(** [strchr (s, '|')]: what is in front of it and behind it. *)
Fixpoint split_bar (s : list Z) : option (list Z * list Z) :=
  match s with
  | [] => None
  | c :: s => if c =? BAR then Some ([], s) else match split_bar s with Some (a, b) => Some (c :: a, b) | None => None end
  end.

(** The loop of getUserPasswd; a line without two bars, or a field that does
    not fit its array, is a fault. *)
Fixpoint password_loop (fuel : nat) (name text : list Z) (w : world) : outcome world (option (list Z)) :=
  match fuel with
  | O => Diverge
  | S fuel =>
    match fgets (MAXLINELENGTH - 1) text with
    | ([], _) => Ret None w
    | (l, r) =>
      let? p := split_bar (cstr l) in
      let '(username, l) := p in
      let? p := split_bar l in
      let '(passwd, _) := p in
      if (muUSERNAMESIZE <=? strlen username) || (muPASSWORDSIZE <=? strlen passwd) then Fault
      else if decide (username = name) then Ret (Some passwd) w
      else password_loop fuel name r w
    end
  end.

Definition getUserPasswd (name : list Z) (w : world) : outcome world (list Z) :=
  match muBase sys with
  | None => Ret [] w
  | Some m =>
    if decide (name = bytes "nobody") then Ret [] w
    else
      match mu_passwords m with
      | None => Ret (bytes "*") w
      | Some text =>
        let* (r, w) := password_loop (S (length text)) name text w in Ret (default (bytes "*") r) w
      end
  end.

Definition UserInfo2pw (ui : option muUserInfo) (w : world) : outcome world (option passwd) :=
  match ui with
  | None => Ret None w
  | Some ui =>
    let* (pass, w) := getUserPasswd (UserID ui) w in
    let p := mk_passwd (Some (UserID ui)) (Some pass) (__amiga2unixid (ui_uid ui)) (__amiga2unixid (ui_gid ui)) 0 (Some [])
               (Some (UserName ui)) (Some (HomeDir ui)) (Some (Shell ui)) 0 in
    Ret (Some p) (set_pw w (set_ent (pw w) p))
  end.

Definition GroupInfo2grp (gi : option muGroupInfo) (w : world) : outcome world (option group) :=
  match gi with
  | None => Ret None w
  | Some gi =>
    let g := mk_group (Some (GroupID gi)) (Some (bytes "*")) (__amiga2unixid (gi_gid gi)) [] in
    Ret (Some g) (set_gr w (set_ent (gr w) g))
  end.

(** ** Users *)

(** The entry made up from the environment. *)
Definition login_entry (uid : Z) (w : world) : outcome world (option passwd) :=
  let p := mk_passwd (pw_name (ent (pw w))) (Some (bytes "*")) uid (getgid w) 0 (Some [])
             (Some (default (bytes "Amiga User") (getenv sys REALNAME))) (Some (default (bytes "SYS:") (getenv sys HOME)))
             (Some (bytes "sh")) 0 in
  Ret (Some p) (set_pw w (set_ent (pw w) p)).

Definition endpwent (w : world) : world :=
  match muBase sys with
  | Some _ => set_pw w (set_fileopen (pw w) false)
  | None => set_pw w (set_next (set_fp (pw w) None) 0)
  end.

(** pwscan and endpwent, after start_pw. *)
Definition lookup_pw (k : key) (w : world) : outcome world (option passwd) :=
  let* (found, w) := pwscan (Some k) w in
  let w := if stayopen (pw w) =? 0 then endpwent w else w in
  Ret (if found : bool then Some (ent (pw w)) else None) w.

Definition net_pw (f : network -> option passwd) : option passwd :=
  match u_ixnetbase sys with Some n => f n | None => None end.

Definition set_pwname (n : option (list Z)) (w : world) : world := set_pw w (set_ent (pw w) (pw_set_name (ent (pw w)) n)).

Definition getpwuid (uid : Z) (w : world) : outcome world (option passwd) :=
  let uid := u16 uid in
  if uid =? NOBODY then Ret (Some builtin_nobody) w
  else
    match muBase sys with
    | Some m => UserInfo2pw (muGetUserInfo m (muKeyType_uid (__unix2amigaid uid))) w
    | None =>
      match net_pw (fun n => NET_getpwuid n uid) with
      | Some p => Ret (Some p) w
      | None =>
        let '(started, w) := start_pw w in
        if started then lookup_pw (ById uid) w
        else if uid =? 0 then Ret (Some builtin_root) w
        else if uid =? getuid w then
          let w := set_pwname (getlogin w) w in
          match getlogin w with Some _ => login_entry uid w | None => Ret None w end
        else Ret None w
      end
    end.

Definition getpwnam (name : list Z) (w : world) : outcome world (option passwd) :=
  if decide (name = bytes "nobody") then Ret (Some builtin_nobody) w
  else
    match muBase sys with
    | Some m =>
      if muUSERIDSIZE - 1 <? strlen name then Ret None w else UserInfo2pw (muGetUserInfo m (muKeyType_UserID name)) w
    | None =>
      match net_pw (fun n => NET_getpwnam n name) with
      | Some p => Ret (Some p) w
      | None =>
        let '(started, w) := start_pw w in
        if started then lookup_pw (ByName name) w
        else if decide (name = bytes "root") then Ret (Some builtin_root) w
        else
          let w := set_pwname (getlogin w) w in
          if decide (getlogin w = Some name) then login_entry (getuid w) w else Ret None w
      end
    end.

(** The switch of getpwent over the built-in entries. *)
Definition next_builtin (w : world) : outcome world (option passwd) :=
  let put n w := set_pw w (set_next (pw w) n) in
  let n := next (pw w) in
  let nobody w := Ret (Some builtin_nobody) (put 65535 w) in
  if n =? 0 then Ret (Some builtin_root) (put 1 w)
  else if n =? NOBODY then nobody w
  else if n =? 65535 then Ret None w
  else
    let w := put NOBODY w in
    match getlogin w with Some name => getpwnam name w | None => nobody w end.

Definition getpwent (w : world) : outcome world (option passwd) :=
  match muBase sys with
  | Some m =>
    let k := if fileopen (pw w) then muKeyType_Next else muKeyType_First in
    UserInfo2pw (muGetUserInfo m k) (set_pw w (set_fileopen (pw w) true))
  | None =>
    match u_ixnetbase sys with
    | Some n => Ret (NET_getpwent n) w
    | None =>
      let '(started, w) := match fp (pw w) with Some _ => (true, w) | None => start_pw w end in
      let* (found, w) := (if started : bool then pwscan None w else Ret false w) in
      if found : bool then Ret (Some (ent (pw w))) w else next_builtin w
    end
  end.

Definition setpassent (stay : Z) (w : world) : outcome world Z :=
  match muBase sys with
  | Some _ => Ret 1 (set_pw w (set_fileopen (pw w) false))
  | None =>
    match u_ixnetbase sys with
    | Some n => Ret (NET_setpassent n stay) w
    | None =>
      let '(started, w) := start_pw w in
      let w := if started then set_pw w (set_stayopen (pw w) stay) else w in
      Ret 1 (set_pw w (set_next (pw w) 0))
    end
  end.

Definition setpwent (w : world) : outcome world Z :=
  match muBase sys with
  | Some _ => Ret 1 (set_pw w (set_fileopen (pw w) false))
  | None =>
    match u_ixnetbase sys with
    | Some n => Ret (NET_setpwent n) w
    | None =>
      let '(started, w) := start_pw w in
      let w := if started then set_pw w (set_stayopen (pw w) 0) else w in
      Ret 1 (set_pw w (set_next (pw w) 0))
    end
  end.

(** ** Groups *)

Definition endgrent (w : world) : world :=
  match muBase sys with
  | Some _ => set_gr w (set_fileopen (gr w) false)
  | None => set_gr w (set_next (set_fp (gr w) None) 0)
  end.

Definition lookup_gr (k : key) (w : world) : outcome world (option group) :=
  let* (found, w) := grscan (Some k) w in
  let w := if stayopen (gr w) =? 0 then endgrent w else w in
  Ret (if found : bool then Some (ent (gr w)) else None) w.

Definition net_gr (f : network -> option group) : option group :=
  match u_ixnetbase sys with Some n => f n | None => None end.

(** The group of the environment. *)
Definition group_entry (gid : Z) (w : world) : outcome world (option group) :=
  let g := mk_group (gr_name (ent (gr w))) (Some (bytes "*")) gid [] in
  Ret (Some g) (set_gr w (set_ent (gr w) g)).

Definition set_grname (n : option (list Z)) (w : world) : world :=
  let g := ent (gr w) in set_gr w (set_ent (gr w) (mk_group n (gr_passwd g) (gr_gid g) (gr_mem g))).

Definition getgrgid (gid : Z) (w : world) : outcome world (option group) :=
  let gid := u16 gid in
  if gid =? NOBODY then Ret (Some builtin_nogroup) w
  else
    match muBase sys with
    | Some m => GroupInfo2grp (muGetGroupInfo m (muKeyType_uid (__unix2amigaid gid))) w
    | None =>
      match net_gr (fun n => NET_getgrgid n gid) with
      | Some g => Ret (Some g) w
      | None =>
        let '(started, w) := start_gr w in
        if started then lookup_gr (ById gid) w
        else if gid =? 0 then Ret (Some builtin_wheel) w
        else if gid =? getgid w then
          let w := set_grname (getenv sys GROUP) w in
          match getenv sys GROUP with Some _ => group_entry gid w | None => Ret None w end
        else Ret None w
      end
    end.

Definition getgrnam (name : list Z) (w : world) : outcome world (option group) :=
  if decide (name = bytes "nogroup") then Ret (Some builtin_nogroup) w
  else
    match muBase sys with
    | Some m =>
      if muGROUPIDSIZE - 1 <? strlen name then Ret None w else GroupInfo2grp (muGetGroupInfo m (muKeyType_UserID name)) w
    | None =>
      match net_gr (fun n => NET_getgrnam n name) with
      | Some g => Ret (Some g) w
      | None =>
        let '(started, w) := start_gr w in
        if started then lookup_gr (ByName name) w
        else if decide (name = bytes "wheel") then Ret (Some builtin_wheel) w
        else
          let w := set_grname (getenv sys GROUP) w in
          if decide (getenv sys GROUP = Some name) then group_entry (getgid w) w else Ret None w
      end
    end.

Definition next_builtin_group (w : world) : outcome world (option group) :=
  let put n w := set_gr w (set_next (gr w) n) in
  let n := next (gr w) in
  let nogroup w := Ret (Some builtin_nogroup) (put 65535 w) in
  if n =? 0 then Ret (Some builtin_wheel) (put 1 w)
  else if n =? NOBODY then nogroup w
  else if n =? 65535 then Ret None w
  else
    let w := put NOBODY w in
    match getenv sys GROUP with Some name => getgrnam name w | None => nogroup w end.

Definition getgrent (w : world) : outcome world (option group) :=
  match muBase sys with
  | Some m =>
    let k := if fileopen (gr w) then muKeyType_Next else muKeyType_First in
    GroupInfo2grp (muGetGroupInfo m k) (set_gr w (set_fileopen (gr w) true))
  | None =>
    match u_ixnetbase sys with
    | Some n => Ret (NET_getgrent n) w
    | None =>
      let '(started, w) := match fp (gr w) with Some _ => (true, w) | None => start_gr w end in
      let* (found, w) := (if started : bool then grscan None w else Ret false w) in
      if found : bool then Ret (Some (ent (gr w))) w else next_builtin_group w
    end
  end.

Definition setgroupent (stay : Z) (w : world) : outcome world Z :=
  match muBase sys with
  | Some _ => Ret 1 (set_gr w (set_fileopen (gr w) false))
  | None =>
    match u_ixnetbase sys with
    | Some n => Ret (NET_setgroupent n stay) w
    | None =>
      let '(started, w) := start_gr w in
      let w := if started then set_gr w (set_stayopen (gr w) stay) else w in
      Ret 1 (set_gr w (set_next (gr w) 0))
    end
  end.

Definition setgrent (w : world) : outcome world Z :=
  match muBase sys with
  | Some _ => Ret 1 (set_gr w (set_fileopen (gr w) false))
  | None =>
    match u_ixnetbase sys with
    | Some n => Ret (NET_setgrent n) w
    | None =>
      let '(started, w) := start_gr w in
      let w := if started then set_gr w (set_stayopen (gr w) 0) else w in
      Ret 1 (set_gr w (set_next (gr w) 0))
    end
  end.

(** ** initgroups *)

(** The loop; [gidset] is what is stored so far.  It may not end, so the number
    of rounds is an argument. *)
Fixpoint initgroups_loop (fuel : nat) (name : list Z) (basegid : Z) (gidset : list Z) (w : world) : outcome world (list Z) :=
  match fuel with
  | O => Diverge
  | S fuel =>
    let* (g, w) := getgrent w in
    match g with
    | None => Ret gidset w
    | Some g =>
      let gidset := if negb (gr_gid g =? u16 basegid) && bool_decide (name ∈ gr_mem g) then gidset ++ [gr_gid g] else gidset in
      if Z.of_nat (length gidset) =? NGROUPS_MAX then Ret gidset w else initgroups_loop fuel name basegid gidset w
    end
  end.

Definition initgroups (fuel : nat) (name : option (list Z)) (basegid : Z) (w : world) : outcome world Z :=
  match name with
  | None => Ret (-1) (set_errno w EFAULT)
  | Some name =>
    if basegid =? -1 then Ret (-1) (set_errno w EFAULT)
    else
      let* (_r, w) := setgrent w in
      let* (g, w) := initgroups_loop fuel name basegid [u16 basegid; u16 basegid] w in
      setgroups (Z.of_nat (length g)) (Some g) (endgrent w)
  end.
End System.

End Users.
