(* ===== verification/UsersTheorems.v ===== *)
(** * Users and groups: theorems

    Looking up users in /etc/passwd, the groups of a user, and the case in which
    reading all groups never ends. *)

From S2P Require Import Prelude Users.
Import Users.

(** ** Tokens and lines *)

Lemma has_true c l : has c l = true <-> c ∈ l.
Proof. unfold has. apply bool_decide_eq_true. Qed.

Lemma has_false c l : has c l = false <-> c ∉ l.
Proof. unfold has. apply bool_decide_eq_false. Qed.

(** No character of [delim] is in [s]. *)
Definition free (delim s : list Z) : Prop := forall c, c ∈ s -> c ∉ delim.

Lemma free_cons delim c s : free delim (c :: s) -> c ∉ delim /\ free delim s.
Proof. intros H. split; [apply H; set_solver|intros d Hd; apply H; set_solver]. Qed.

Lemma token_field delim f d rest : free delim f -> d ∈ delim -> token delim (f ++ d :: rest) = (f, Some rest).
Proof.
  intros Hf Hd. induction f as [|c f IH]; cbn.
  - by rewrite (proj2 (has_true _ _) Hd).
  - apply free_cons in Hf as [Hc Hf]. rewrite (proj2 (has_false _ _) Hc), IH by done. done.
Qed.

Lemma strsep_field delim f d rest :
  free delim f -> d ∈ delim -> strsep delim (Some (f ++ d :: rest)) = (Some f, Some rest).
Proof. intros Hf Hd. unfold strsep. by rewrite token_field. Qed.

Lemma fgets_whole_line n l rest : NL ∉ l -> (length l < n)%nat -> fgets n (l ++ NL :: rest) = (l ++ [NL], rest).
Proof.
  revert n. induction l as [|c l IH]; intros [|n] Hl Hn; cbn in *; try lia; [done|].
  destruct (Z.eqb_spec c NL) as [->|Hc]; [set_solver|]. rewrite IH; [done|set_solver|lia].
Qed.

Lemma cstr_id l : 0 ∉ l -> cstr l = l.
Proof.
  induction l as [|c l IH]; cbn; [done|]. intros H. destruct (Z.eqb_spec c 0) as [->|]; [set_solver|].
  rewrite IH; [done|set_solver].
Qed.

(** A line that fits the buffer. *)
Definition good_line (l : list Z) : Prop := NL ∉ l /\ 0 ∉ l /\ (length l < MAXLINELENGTH - 1)%nat.

Lemma read_line_good l rest : good_line l -> read_line ((l ++ [NL]) ++ rest) = Some (Some (l ++ [NL]), rest).
Proof.
  intros (Hn & Hz & Hlen). unfold read_line. rewrite <- app_assoc. cbn [app]. rewrite fgets_whole_line by done.
  destruct (l ++ [NL]) as [|c r] eqn:E; [by destruct l|]. rewrite <- E. rewrite cstr_id.
  - rewrite (proj2 (has_true _ _)); [done|set_solver].
  - intros [?|H]%elem_of_app; [done|]. apply list_elem_of_singleton in H. done.
Qed.

(** ** The loop over a file

    [pr e] is the line of an entry, [mt] says whether it is what is searched,
    [rd e w] that the structure holds it; [mask] is what the loop leaves alone and
    [left r w] says that [r] is left of the file. *)
Section Scan.
Context {E M : Type} (one : list Z -> world -> bool * world) (put : list Z -> world -> world)
  (pr : E -> list Z) (wf : E -> Prop) (mt : E -> bool) (rd : E -> world -> Prop)
  (mask : world -> M) (left : list Z -> world -> Prop).
Context (pr_line : forall e, wf e -> exists l, pr e = l ++ [NL] /\ good_line l).
Context (put_mask : forall r w, mask (put r w) = mask w /\ left r (put r w)).
Context (one_spec : forall e w, wf e -> exists w', one (pr e) w = (mt e, w') /\ mask w' = mask w /\
  (mt e = true -> rd e w') /\ forall r, left r w -> left r w').

Definition text (es : list E) : list Z := concat (map pr es).

Lemma scan_loop_spec es : Forall wf es -> forall fuel w, (length es < fuel)%nat ->
  exists w', mask w' = mask w /\
  ((exists pre e post, es = pre ++ e :: post /\ Forall (fun e => mt e = false) pre /\ mt e = true /\
      scan_loop fuel one put (text es) w = Ret true w' /\ rd e w' /\ left (text post) w') \/
   (Forall (fun e => mt e = false) es /\ scan_loop fuel one put (text es) w = Ret false w' /\ left [] w')).
Proof.
  induction 1 as [|e es He _ IH]; intros [|fuel] w Hfuel; cbn [length] in Hfuel; try lia.
  - exists (put [] w). destruct (put_mask [] w). split; [done|]. right. split; [constructor|done].
  - cbn [scan_loop]. destruct (pr_line e He) as (l & Hl & Hgood).
    change (text (e :: es)) with (pr e ++ text es). rewrite Hl, (read_line_good _ _ Hgood), <- Hl.
    destruct (put_mask (text es) w) as [Hm Hleft]. destruct (one_spec e (put (text es) w) He) as (w1 & -> & Hm1 & Hrd & Hkeep).
    destruct (mt e) eqn:Hmt.
    + exists w1. split; [congruence|]. left. exists [], e, es. split_and!; auto.
    + destruct (IH fuel w1) as (w' & Hm' & Hcase); [lia|]. exists w'. split; [congruence|].
      destruct Hcase as [(pre & e' & post & -> & Hpre & Hrest)|(Hall & Hrest)]; [left|right].
      * exists (e :: pre), e', post. split; [done|]. split; [by constructor|done].
      * split; [by constructor|done].
Qed.

Lemma text_length es : Forall wf es -> (length es <= length (text es))%nat.
Proof.
  induction 1 as [|e es He _ IH]; cbn [length]; [lia|]. change (text (e :: es)) with (pr e ++ text es).
  destruct (pr_line e He) as (l & -> & _). rewrite !length_app. cbn [length]. lia.
Qed.
End Scan.

(** ** Entries of /etc/passwd *)

Record entry := mk_entry {
  e_name : list Z; e_pass : list Z; e_uid : list Z; e_gid : list Z; e_gecos : list Z; e_dir : list Z; e_shell : list Z
}.

(** The line of an entry, with the separator of UNIX or of AmigaOS. *)
Definition body (d : Z) (e : entry) : list Z :=
  e_name e ++ d :: e_pass e ++ d :: e_uid e ++ d :: e_gid e ++ d :: e_gecos e ++ d :: e_dir e ++ d :: e_shell e.
Definition pr (d : Z) (e : entry) : list Z := body d e ++ [NL].

Record wf_entry (d : Z) (e : entry) : Prop := {
  wf_sep : d = COLON /\ BAR ∉ body d e \/ d = BAR;
  wf_fields : Forall (free [d; NL]) [e_name e; e_pass e; e_uid e; e_gid e; e_gecos e; e_dir e];
  wf_line : good_line (body d e)
}.

(** The structure holds the entry. *)
Definition reads (e : entry) (p : passwd) : Prop :=
  pw_name p = Some (e_name e) /\ pw_passwd p = Some (e_pass e) /\ pw_uid p = u16 (atoi (e_uid e)).1 /\
  pw_gid p = u16 (atoi (e_gid e)).1 /\ pw_gecos p = Some (e_gecos e) /\ pw_dir p = Some (e_dir e) /\
  pw_shell p = Some (e_shell e).

Definition pw_matches (k : option key) (e : entry) : bool :=
  negb (other_name k (Some (e_name e))) && negb (other_id k (u16 (atoi (e_uid e)).1)).

Definition pw_mask (w : world) :=
  (gr w, cr w, u_logname w, stayopen (pw w), line (pw w), next (pw w), fileopen (pw w)).
Definition pw_left (r : list Z) (w : world) : Prop := fp (pw w) = Some r.

Lemma body_separators d e : wf_entry d e -> separators (pr d e) = [d; NL].
Proof.
  intros [Hs _ _]. unfold separators, pr. destruct Hs as [[-> Hb]| ->].
  - rewrite (proj2 (has_false _ _)); [done|]. intros [?|H]%elem_of_app; [done|]. by apply list_elem_of_singleton in H.
  - rewrite (proj2 (has_true _ _)); [done|]. unfold body. set_solver.
Qed.

Lemma atoi_w_spec s w : exists e, atoi_w s w = ((atoi s).1, set_errno w e).
Proof.
  unfold atoi_w. destruct (atoi s) as [v []]; [by eexists|]. exists (w_errno w). by destruct w.
Qed.

Lemma pw_line_spec d k e w :
  wf_entry d e -> exists w', pw_line k (pr d e) w = (pw_matches k e, w') /\ pw_mask w' = pw_mask w /\
    (pw_matches k e = true -> reads e (ent (pw w'))) /\ forall r, pw_left r w -> pw_left r w'.
Proof.
  intros Hwf. unfold pw_line. rewrite (body_separators _ _ Hwf).
  destruct Hwf as [_ Hf (Hnl & Hz & Hlen)]. unfold pr, body.
  repeat (apply Forall_cons in Hf as [? Hf]).
  assert (d ∈ [d; NL]) as Hd by set_solver.
  assert (free [NL] (e_shell e)) as Hsh.
  { intros c Hc ->%list_elem_of_singleton. apply Hnl. unfold body. set_solver. }
  repeat (rewrite <- app_assoc; cbn [app]). rewrite strsep_field by done. cbv beta zeta iota.
  set (w1 := set_pw w _). unfold pw_matches. destruct (other_name k _); [by exists w1|].
  rewrite strsep_field by done. cbv beta zeta iota. rewrite strsep_field by done. cbv beta zeta iota.
  set (w2 := set_pw w1 _). destruct (atoi_w_spec (e_uid e) w2) as (er & ->). cbv beta zeta iota.
  set (w3 := set_pw (set_errno w2 er) _). destruct (other_id k _); [by exists w3|].
  rewrite strsep_field by done. cbv beta zeta iota.
  destruct (atoi_w_spec (e_gid e) w3) as (er' & ->). cbv beta zeta iota.
  rewrite strsep_field by done. cbv beta zeta iota. rewrite strsep_field by done. cbv beta zeta iota.
  rewrite strsep_field by (done || set_solver). cbv beta zeta iota. rewrite bool_decide_eq_true_2 by by eexists.
  eexists. split; [done|]. split; [done|]. by split.
Qed.

(** ** Entries of /etc/group *)

Record gentry := mk_gentry { g_name : list Z; g_pass : list Z; g_gid : list Z; g_mems : list (list Z) }.

Fixpoint join (ms : list (list Z)) : list Z :=
  match ms with [] => [] | [m] => m | m :: ms => m ++ COMMA :: join ms end.

Definition gbody (d : Z) (g : gentry) : list Z := g_name g ++ d :: g_pass g ++ d :: g_gid g ++ d :: join (g_mems g).
Definition gpr (d : Z) (g : gentry) : list Z := gbody d g ++ [NL].

Record wf_gentry (d : Z) (g : gentry) : Prop := {
  gwf_sep : d = COLON /\ BAR ∉ gbody d g \/ d = BAR;
  gwf_fields : Forall (free [d; NL]) [g_name g; g_pass g; g_gid g];
  gwf_mems : Forall (free [COMMA; SPACE; NL]) (g_mems g);
  gwf_count : (length (g_mems g) + 2 <= MAXGRP - 1)%nat;
  gwf_line : good_line (gbody d g)
}.

(** The members as they are read: the end of the line counts as a separator, so
    that an empty name follows. *)
Definition read_members (ms : list (list Z)) : list (list Z) :=
  match ms with [] => [[]; []] | _ => ms ++ [[]] end.

Definition greads (g : gentry) (x : group) : Prop :=
  gr_name x = Some (g_name g) /\ gr_passwd x = Some (g_pass g) /\ gr_gid x = u16 (atoi (g_gid g)).1 /\
  gr_mem x = read_members (g_mems g).

Definition gr_matches (k : option key) (g : gentry) : bool :=
  negb (other_name k (Some (g_name g))) && negb (other_id k (u16 (atoi (g_gid g)).1)).

Definition gr_mask (w : world) :=
  (pw w, cr w, u_logname w, stayopen (gr w), line (gr w), next (gr w), fileopen (gr w)).
Definition gr_left (r : list Z) (w : world) : Prop := fp (gr w) = Some r.

Lemma members_read n ms :
  Forall (free [COMMA; SPACE; NL]) ms -> (length ms + 2 <= n)%nat ->
  members n (Some (join ms ++ [NL])) = read_members ms.
Proof.
  destruct ms as [|m ms]; [by destruct n as [|[|[|n]]]; cbn [length]; intros; try lia|].
  revert m n. induction ms as [|m' ms IH]; intros m [|n] [Hm Hms]%Forall_cons Hn; cbn [length] in Hn; try lia.
  - cbn [members join]. rewrite strsep_field by (done || set_solver). cbn [read_members app]. f_equal.
    destruct n as [|[|n]]; [lia|lia|done].
  - cbn [members]. change (join (m :: m' :: ms)) with (m ++ COMMA :: join (m' :: ms)).
    rewrite <- app_assoc. cbn [app]. rewrite strsep_field by (done || set_solver).
    cbn [read_members app]. f_equal. apply (IH m' n Hms). cbn [length]. lia.
Qed.

Lemma gbody_separators d g : wf_gentry d g -> separators (gpr d g) = [d; NL].
Proof.
  intros Hwf. pose proof (gwf_sep _ _ Hwf) as Hs. unfold separators, gpr. destruct Hs as [[-> Hb]| ->].
  - rewrite (proj2 (has_false _ _)); [done|]. intros [?|H]%elem_of_app; [done|]. by apply list_elem_of_singleton in H.
  - rewrite (proj2 (has_true _ _)); [done|]. unfold gbody. set_solver.
Qed.

Lemma gr_line_spec d k g w :
  wf_gentry d g -> exists w', gr_line k (gpr d g) w = (gr_matches k g, w') /\ gr_mask w' = gr_mask w /\
    (gr_matches k g = true -> greads g (ent (gr w'))) /\ forall r, gr_left r w -> gr_left r w'.
Proof.
  intros Hwf. unfold gr_line. rewrite (gbody_separators _ _ Hwf).
  destruct Hwf as [_ Hf Hm Hc _]. unfold gpr, gbody. repeat (apply Forall_cons in Hf as [? Hf]).
  assert (d ∈ [d; NL]) as Hd by set_solver.
  repeat (rewrite <- app_assoc; cbn [app]). rewrite strsep_field by done. cbv beta zeta iota.
  set (w1 := set_gr w _). unfold gr_matches. destruct (other_name k _); [by exists w1|].
  rewrite strsep_field by done. cbv beta zeta iota. rewrite strsep_field by done. cbv beta zeta iota.
  set (w2 := set_gr w1 _). destruct (atoi_w_spec (g_gid g) w2) as (er & ->). cbv beta zeta iota.
  set (w3 := set_gr (set_errno w2 er) _). destruct (other_id k _); [by exists w3|].
  rewrite members_read by done. eexists. split; [done|]. split; [done|]. by split.
Qed.

(** ** pwscan and grscan on such files *)

Definition plain (sys : system) : Prop := muBase sys = None /\ u_ixnetbase sys = None /\ malloc_ok sys = true.

(** What a scan of [es] ends with: the first entry that is searched for, with
    the rest of the file still to be read, or the end of the file. *)
Definition scanned {E} (mt : E -> bool) (rd : E -> world -> Prop) (left : list E -> world -> Prop) (es : list E)
    (m : outcome world bool) (w' : world) : Prop :=
  (exists pre e post, es = pre ++ e :: post /\ Forall (fun e => mt e = false) pre /\ mt e = true /\
     m = Ret true w' /\ rd e w' /\ left post w') \/
  (Forall (fun e => mt e = false) es /\ m = Ret false w' /\ left [] w').

Lemma pwscan_spec sys d k es w :
  plain sys -> Forall (wf_entry d) es -> fp (pw w) = Some (text (pr d) es) ->
  exists w', pw_mask w' = pw_mask (set_pw w (set_line (pw w) true)) /\
    scanned (pw_matches k) (fun e w => reads e (ent (pw w))) (fun r w => fp (pw w) = Some (text (pr d) r)) es (pwscan sys k w) w'.
Proof.
  intros (_ & _ & Hok) Hes Hfp. unfold pwscan. rewrite Hok, andb_false_r. cbn [set_pw pw set_line fp]. rewrite Hfp.
  assert (forall e, wf_entry d e -> exists l, pr d e = l ++ [NL] /\ good_line l) as Hpr.
  { intros e He. exists (body d e). split; [done|apply He]. }
  destruct (scan_loop_spec (pw_line k) (fun r w => set_pw w (set_fp (pw w) (Some r))) (pr d) (wf_entry d) (pw_matches k)
    (fun e w => reads e (ent (pw w))) pw_mask pw_left Hpr (fun r w => conj eq_refl eq_refl) (pw_line_spec d k) es Hes
    (S (length (text (pr d) es))) (set_pw w (set_line (pw w) true))) as (w' & Hm & Hcase).
  { pose proof (text_length _ _ Hpr es Hes). lia. }
  exists w'. split; [exact Hm|exact Hcase].
Qed.

Lemma grscan_spec sys d k gs w :
  plain sys -> Forall (wf_gentry d) gs -> fp (gr w) = Some (text (gpr d) gs) ->
  exists w', gr_mask w' = gr_mask (set_gr w (set_line (gr w) true)) /\
    scanned (gr_matches k) (fun g w => greads g (ent (gr w))) (fun r w => fp (gr w) = Some (text (gpr d) r)) gs (grscan sys k w) w'.
Proof.
  intros (_ & _ & Hok) Hgs Hfp. unfold grscan. rewrite Hok, andb_false_r. cbn [set_gr gr set_line fp]. rewrite Hfp.
  assert (forall g, wf_gentry d g -> exists l, gpr d g = l ++ [NL] /\ good_line l) as Hpr.
  { intros g Hg. exists (gbody d g). split; [done|apply Hg]. }
  destruct (scan_loop_spec (gr_line k) (fun r w => set_gr w (set_fp (gr w) (Some r))) (gpr d) (wf_gentry d) (gr_matches k)
    (fun g w => greads g (ent (gr w))) gr_mask gr_left Hpr (fun r w => conj eq_refl eq_refl) (gr_line_spec d k) gs Hgs
    (S (length (text (gpr d) gs))) (set_gr w (set_line (gr w) true))) as (w' & Hm & Hcase).
  { pose proof (text_length _ _ Hpr gs Hgs). lia. }
  exists w'. split; [exact Hm|exact Hcase].
Qed.

(** ** Deciding well-formedness *)

Definition freeb (delim s : list Z) : bool := forallb (fun c => negb (has c delim)) s.

Lemma freeb_free delim s : freeb delim s = true -> free delim s.
Proof.
  unfold freeb. intros H c Hc. rewrite forallb_forall in H. specialize (H c).
  rewrite <- has_false. apply negb_true_iff, H. by apply list_elem_of_In.
Qed.

Definition good_lineb (l : list Z) : bool :=
  negb (has NL l) && negb (has 0 l) && (length l <? MAXLINELENGTH - 1)%nat.

Lemma good_lineb_good l : good_lineb l = true -> good_line l.
Proof.
  unfold good_lineb. intros [[H1 H2]%andb_true_iff H3]%andb_true_iff.
  split_and!; [by apply has_false, negb_true_iff|by apply has_false, negb_true_iff|by apply Nat.ltb_lt].
Qed.

Lemma free_all delim ss : forallb (freeb delim) ss = true -> Forall (free delim) ss.
Proof. intros H. apply Forall_forall. intros s Hs. apply freeb_free. rewrite forallb_forall in H. by apply H, list_elem_of_In. Qed.

Definition wf_entryb (e : entry) : bool :=
  negb (has BAR (body COLON e)) && good_lineb (body COLON e) &&
  forallb (freeb [COLON; NL]) [e_name e; e_pass e; e_uid e; e_gid e; e_gecos e; e_dir e].

Lemma wf_entryb_wf e : wf_entryb e = true -> wf_entry COLON e.
Proof.
  unfold wf_entryb. intros [[H1 H2]%andb_true_iff H3]%andb_true_iff. constructor.
  - left. split; [done|]. by apply has_false, negb_true_iff.
  - by apply free_all.
  - by apply good_lineb_good.
Qed.

Definition wf_gentryb (g : gentry) : bool :=
  negb (has BAR (gbody COLON g)) && good_lineb (gbody COLON g) &&
  forallb (freeb [COLON; NL]) [g_name g; g_pass g; g_gid g] && forallb (freeb [COMMA; SPACE; NL]) (g_mems g) &&
  (length (g_mems g) + 2 <=? MAXGRP - 1)%nat.

Lemma wf_gentryb_wf g : wf_gentryb g = true -> wf_gentry COLON g.
Proof.
  unfold wf_gentryb. intros [[[[H1 H2]%andb_true_iff H3]%andb_true_iff H4]%andb_true_iff H5]%andb_true_iff. constructor.
  - left. split; [done|]. by apply has_false, negb_true_iff.
  - by apply free_all.
  - by apply free_all.
  - by apply Nat.leb_le.
  - by apply good_lineb_good.
Qed.

(** ** Users *)

(** [r] is the first entry that is searched for, or NULL when there is none. *)
Definition first_match (mt : entry -> bool) (es : list entry) (r : option passwd) : Prop :=
  match r with
  | Some p => exists pre e post, es = pre ++ e :: post /\ Forall (fun e => mt e = false) pre /\ mt e = true /\ reads e p
  | None => Forall (fun e => mt e = false) es
  end.

Lemma start_pw_file sys w t : etc_passwd sys = Some t -> start_pw sys w = (true, set_pw w (set_fp (pw w) (Some t))).
Proof. unfold start_pw, start. intros ->. by destruct (fp (pw w)). Qed.

Lemma start_gr_file sys w t : etc_group sys = Some t -> start_gr sys w = (true, set_gr w (set_fp (gr w) (Some t))).
Proof. unfold start_gr, start. intros ->. by destruct (fp (gr w)). Qed.

Lemma lookup_pw_spec sys d k es w :
  plain sys -> Forall (wf_entry d) es -> fp (pw w) = Some (text (pr d) es) ->
  exists r w', lookup_pw sys k w = Ret r w' /\ first_match (pw_matches (Some k)) es r /\
    (stayopen (pw w) = 0 -> fp (pw w') = None).
Proof.
  intros Hp Hes Hfp. unfold lookup_pw. destruct (pwscan_spec sys d (Some k) es w Hp Hes Hfp) as (w1 & Hm & Hcase).
  assert (stayopen (pw w1) = stayopen (pw w)) as Hst by (by injection Hm).
  destruct Hp as (Hmu & _).
  destruct Hcase as [(pre & e & post & -> & Hpre & He & -> & Hrd & _)|(Hall & -> & _)]; cbn [obind].
  - eexists _, _. split; [done|]. split.
    + exists pre, e, post. split_and!; auto. unfold endpwent. rewrite Hmu. by destruct (stayopen (pw w1) =? 0).
    + intros H0. rewrite Hst, H0. unfold endpwent. by rewrite Hmu.
  - eexists _, _. split; [done|]. split; [done|]. intros H0. rewrite Hst, H0. unfold endpwent. by rewrite Hmu.
Qed.

(** C37. On a system without multiuser.library and network library, getpwnam and
    getpwuid, for names other than nobody and a uid other than 65534, which are built in,
    return exactly the first entry of /etc/passwd with the name or the uid, with all its
    fields, whichever separator the file uses, or NULL if there is none; the lookup ends,
    and closes the file unless it is to stay open.  The file exists and is made of well
    formed lines, each ended by a newline. *)
Theorem passwd_lookup_exact sys d es w :
  plain sys -> etc_passwd sys = Some (text (pr d) es) -> Forall (wf_entry d) es ->
  (forall name, name <> bytes "nobody" ->
     exists r w', getpwnam sys name w = Ret r w' /\ first_match (fun e => bool_decide (e_name e = name)) es r /\
       (stayopen (pw w) = 0 -> fp (pw w') = None)) /\
  (forall uid, 0 <= uid < 65536 -> uid <> NOBODY ->
     exists r w', getpwuid sys uid w = Ret r w' /\ first_match (fun e => u16 (atoi (e_uid e)).1 =? uid) es r /\
       (stayopen (pw w) = 0 -> fp (pw w') = None)).
Proof.
  intros Hp Hfile Hes. pose proof Hp as (Hmu & Hnet & _). split.
  - intros name Hn. unfold getpwnam, net_pw. rewrite decide_False, Hmu, Hnet, (start_pw_file _ _ _ Hfile) by done.
    destruct (lookup_pw_spec sys d (ByName name) es (set_pw w (set_fp (pw w) (Some (text (pr d) es)))) Hp Hes eq_refl)
      as (r & w' & -> & Hr & Hc). exists r, w'. split; [done|]. split; [|done].
    assert (forall e, pw_matches (Some (ByName name)) e = bool_decide (e_name e = name)) as Heq.
    { intros e. unfold pw_matches, other_name, other_id. rewrite andb_true_r, negb_involutive.
      apply bool_decide_ext. split; congruence. }
    unfold first_match in *. destruct r; setoid_rewrite Heq in Hr; done.
  - intros uid Hu Hn. unfold getpwuid, net_pw. rewrite (u16_id uid) by done.
    rewrite (proj2 (Z.eqb_neq _ _) Hn), Hmu, Hnet, (start_pw_file _ _ _ Hfile).
    destruct (lookup_pw_spec sys d (ById uid) es (set_pw w (set_fp (pw w) (Some (text (pr d) es)))) Hp Hes eq_refl)
      as (r & w' & -> & Hr & Hc). exists r, w'. split; [done|]. split; [|done].
    assert (forall e, pw_matches (Some (ById uid)) e = (u16 (atoi (e_uid e)).1 =? uid)) as Heq.
    { intros e. unfold pw_matches, other_name, other_id. by rewrite negb_involutive. }
    unfold first_match in *. destruct r; setoid_rewrite Heq in Hr; done.
Qed.

(** ** Reading the groups one by one *)

(** What getgrent leaves alone. *)
Definition still (w w' : world) : Prop :=
  cr w' = cr w /\ stayopen (gr w') = stayopen (gr w).

Lemma matches_all g : gr_matches None g = true.
Proof. done. Qed.

Lemma getgrent_entry sys d g gs w :
  plain sys -> Forall (wf_gentry d) (g :: gs) -> fp (gr w) = Some (text (gpr d) (g :: gs)) ->
  exists x w', getgrent sys w = Ret (Some x) w' /\ greads g x /\ fp (gr w') = Some (text (gpr d) gs) /\
    next (gr w') = next (gr w) /\ still w w'.
Proof.
  intros Hp Hgs Hfp. unfold getgrent. pose proof Hp as (-> & -> & _). rewrite Hfp.
  destruct (grscan_spec sys d None (g :: gs) w Hp Hgs Hfp) as (w1 & Hm & [(pre & e & post & Heq & Hpre & _ & -> & Hrd & Hl)|(Hall & _)]).
  - destruct pre as [|x pre]; [|by apply Forall_cons in Hpre as [? _]]. injection Heq as -> ->. cbn [obind].
    injection Hm as _ Hc _ Hs _ Hn _. exists (ent (gr w1)), w1. split_and!; try done.
  - by apply Forall_cons in Hall as [? _].
Qed.

Lemma getgrent_end sys w :
  plain sys -> fp (gr w) = Some [] ->
  exists w1, getgrent sys w = next_builtin_group sys w1 /\ fp (gr w1) = Some [] /\ next (gr w1) = next (gr w) /\ still w w1.
Proof.
  intros Hp Hfp. unfold getgrent. pose proof Hp as (Hmu & Hnet & _). rewrite Hmu, Hnet, Hfp.
  destruct (grscan_spec sys COLON None [] w Hp (Forall_nil_2 _) Hfp) as (w1 & Hm & [(pre & e & post & Heq & _)|(_ & -> & Hl)]).
  - by destruct pre.
  - injection Hm as _ Hc _ Hs _ Hn _. exists w1. done.
Qed.

(** ** The groups of a user *)

(** The identifiers of the groups with [name] among their members, without the
    base group. *)
Definition gid_of (g : gentry) : Z := u16 (atoi (g_gid g)).1.
Definition belongs (name : list Z) (base : Z) (g : gentry) : bool :=
  negb (gid_of g =? base) && bool_decide (name ∈ g_mems g).
Definition groups_of (name : list Z) (base : Z) (gs : list gentry) : list Z :=
  map gid_of (filter (fun g => belongs name base g = true) gs).

Lemma member_read name ms : name <> [] -> bool_decide (name ∈ read_members ms) = bool_decide (name ∈ ms).
Proof. intros Hn. apply bool_decide_ext. unfold read_members. destruct ms; set_solver. Qed.

Lemma read_belongs name base g x :
  name <> [] -> greads g x -> negb (gr_gid x =? u16 base) && bool_decide (name ∈ gr_mem x) = belongs name (u16 base) g.
Proof. intros Hn (_ & _ & Hg & Hm). unfold belongs. by rewrite Hg, Hm, (member_read _ _ Hn). Qed.

(** Behind the last entry come the two built-in groups, which have no members. *)
Lemma loop_builtins sys name base fuel gidset w :
  plain sys -> getenv sys GROUP = None -> (3 <= fuel)%nat -> Z.of_nat (length gidset) < NGROUPS_MAX ->
  fp (gr w) = Some [] -> next (gr w) = 0 ->
  exists w', initgroups_loop sys fuel name base gidset w = Ret gidset w' /\ cr w' = cr w.
Proof.
  intros Hp Hg Hf Hlen Hfp Hn. destruct fuel as [|[|[|fuel]]]; try lia.
  assert ((Z.of_nat (length gidset) =? NGROUPS_MAX) = false) as Hne by lia.
  cbn [initgroups_loop]. destruct (getgrent_end sys w Hp Hfp) as (w1 & -> & Hfp1 & Hn1 & Hc1 & _).
  unfold next_builtin_group at 1. rewrite Hn1, Hn. cbn [Z.eqb obind]. rewrite andb_false_r, Hne.
  set (w2 := set_gr w1 _). destruct (getgrent_end sys w2 Hp Hfp1) as (w3 & -> & Hfp3 & Hn3 & Hc3 & _).
  unfold next_builtin_group at 1. rewrite Hn3. cbn [w2 set_gr gr set_next next Z.eqb Pos.eqb NOBODY]. rewrite Hg. cbn [obind].
  rewrite andb_false_r, Hne.
  set (w4 := set_gr _ _). destruct (getgrent_end sys w4 Hp Hfp3) as (w5 & -> & _ & Hn5 & Hc5 & _).
  unfold next_builtin_group at 1. rewrite Hn5. cbn [w4 set_gr gr set_next next Z.eqb Pos.eqb NOBODY obind].
  exists w5. split; [done|]. rewrite Hc5. change (cr w3 = cr w). rewrite Hc3. exact Hc1.
Qed.

Lemma loop_groups sys d name base gs : plain sys -> getenv sys GROUP = None -> name <> [] -> Forall (wf_gentry d) gs ->
  forall fuel gidset w, (length gs + 3 <= fuel)%nat -> (length gidset < 16)%nat ->
  fp (gr w) = Some (text (gpr d) gs) -> next (gr w) = 0 ->
  exists w', initgroups_loop sys fuel name base gidset w =
    Ret (gidset ++ take (16 - length gidset) (groups_of name (u16 base) gs)) w' /\ cr w' = cr w.
Proof.
  intros Hp Hg Hname. induction gs as [|g gs IH]; intros Hgs fuel gidset w Hf Hlen Hfp Hn; cbn [length] in Hf.
  - destruct (loop_builtins sys name base fuel gidset w Hp Hg) as (w' & -> & Hc); [lia|unfold NGROUPS_MAX; lia|done|done|].
    exists w'. split; [|done]. f_equal. cbn. by rewrite take_nil, app_nil_r.
  - destruct fuel as [|fuel]; [lia|]. cbn [initgroups_loop].
    destruct (getgrent_entry sys d g gs w Hp Hgs Hfp) as (x & w1 & -> & Hrd & Hfp1 & Hn1 & Hc1 & _). cbn [obind].
    rewrite (read_belongs _ _ _ _ Hname Hrd). apply Forall_cons in Hgs as [_ Hgs].
    assert (groups_of name (u16 base) (g :: gs) =
      (if belongs name (u16 base) g then [gid_of g] else []) ++ groups_of name (u16 base) gs) as ->.
    { unfold groups_of. rewrite filter_cons. case_decide as Hd; destruct (belongs name (u16 base) g); done. }
    assert (gr_gid x = gid_of g) as -> by apply Hrd.
    destruct (belongs name (u16 base) g) eqn:Hb; cbn [app].
    + replace (16 - length gidset)%nat with (S (15 - length gidset)) by lia. cbn [take].
      destruct (Z.eqb_spec (Z.of_nat (length (gidset ++ [gid_of g]))) NGROUPS_MAX) as [E|E];
        unfold NGROUPS_MAX in E; rewrite length_app in E; cbn [length] in E.
      * exists w1. split; [|done]. f_equal. replace (15 - length gidset)%nat with O by lia. done.
      * destruct (IH Hgs fuel (gidset ++ [gid_of g]) w1) as (w' & -> & Hc'); [lia|rewrite length_app; cbn; lia|done|congruence|].
        exists w'. split; [|congruence]. f_equal. rewrite length_app, <- app_assoc. cbn [length app].
        by replace (16 - (length gidset + 1))%nat with (15 - length gidset)%nat by lia.
    + assert ((Z.of_nat (length gidset) =? NGROUPS_MAX) = false) as -> by (unfold NGROUPS_MAX; lia).
      destruct (IH Hgs fuel gidset w1) as (w' & -> & Hc'); [lia|done|done|congruence|]. exists w'. split; [done|congruence].
Qed.

(** What setgroups stores is what getgroups reports. *)
Lemma setgroups_getgroups sys g0 l w :
  muBase sys = None -> head l = Some g0 -> (1 <= length l <= 16)%nat ->
  exists w', setgroups sys (Z.of_nat (length l)) (Some l) w = Ret 0 w' /\
    getgroups sys 16 false w' = Ret (Z.of_nat (length l), l) w' /\ getegid sys w' = u16 g0.
Proof.
  intros Hmu Hg0 Hl. unfold setgroups. rewrite Hmu.
  rewrite (proj2 (Z.ltb_ge (Z.of_nat (length l)) 0)) by lia.
  rewrite (proj2 (Z.eqb_neq (Z.of_nat (length l)) 0)), (proj2 (Z.ltb_ge NGROUPS_MAX _)) by (unfold NGROUPS_MAX; lia).
  rewrite (proj2 (Z.ltb_ge _ _)) by lia. cbn [orb]. rewrite Nat2Z.id, take_ge by lia.
  assert (aget (l ++ drop (length l) (u_grouplist (cr w))) 0 = Some g0) as ->.
  { destruct l; [done|]. exact Hg0. }
  eexists. split; [done|]. split; [|unfold getegid; by rewrite Hmu].
  unfold getgroups. rewrite Hmu. change (16 <? 0) with false. change (16 <? 1) with false.
  cbn [orb set_cr cr u_ngroups u_grouplist]. rewrite (proj2 (Z.ltb_ge 16 _)) by lia. by rewrite Nat2Z.id, take_app_length.
Qed.

(** initgroups, when GROUP is not set: with as many rounds as the file has
    entries and three more it ends, and the process then has the base group
    twice, followed by the groups the user is a member of in the order of
    /etc/group, at most sixteen in all; getgroups reports them, and the effective
    group is the base group. *)
Theorem initgroups_exact sys d gs fuel name base w :
  plain sys -> etc_group sys = Some (text (gpr d) gs) -> Forall (wf_gentry d) gs -> getenv sys GROUP = None ->
  name <> [] -> base <> -1 -> (length gs + 3 <= fuel)%nat ->
  let l := [u16 base; u16 base] ++ take 14 (groups_of name (u16 base) gs) in
  exists w', initgroups sys fuel (Some name) base w = Ret 0 w' /\
    getgroups sys 16 false w' = Ret (Z.of_nat (length l), l) w' /\ getegid sys w' = u16 base.
Proof.
  intros Hp Hfile Hgs Hg Hname Hbase Hf l. pose proof Hp as (Hmu & Hnet & _). unfold initgroups.
  rewrite (proj2 (Z.eqb_neq _ _) Hbase). unfold setgrent. rewrite Hmu, Hnet, (start_gr_file _ _ _ Hfile). cbn [obind].
  set (w1 := set_gr _ _).
  destruct (loop_groups sys d name base gs Hp Hg Hname Hgs fuel [u16 base; u16 base] w1 Hf) as (w2 & -> & Hc); [cbn; lia|done|done|].
  cbn [obind length Nat.sub]. fold l.
  assert (1 <= length l <= 16)%nat as Hl by (unfold l; rewrite length_app, length_take; cbn [length]; lia).
  destruct (setgroups_getgroups sys (u16 base) l (endgrent sys w2) Hmu eq_refl Hl) as (w' & -> & Hgg & He).
  exists w'. split; [done|]. split; [done|]. rewrite He. apply u16_id, u16_range.
Qed.

(** ** Reading all groups with GROUP set

    The third built-in entry of getgrent is that of getgrnam, which closes the
    file and starts the enumeration anew. *)

(** A state inside such an enumeration. *)
Definition cycling (d : Z) (gs : list gentry) (w : world) : Prop :=
  stayopen (gr w) = 0 /\ (next (gr w) = 0 \/ next (gr w) = 1) /\
  (fp (gr w) = None \/ exists pre post, gs = pre ++ post /\ fp (gr w) = Some (text (gpr d) post)).

(** What getgrent returns: an entry of the file or one without members. *)
Definition listed (gs : list gentry) (x : group) : Prop := (exists g, g ∈ gs /\ greads g x) \/ gr_mem x = [].

Lemma lookup_gr_found sys d gname gs w :
  plain sys -> Forall (wf_gentry d) gs -> fp (gr w) = Some (text (gpr d) gs) -> stayopen (gr w) = 0 ->
  (exists g, g ∈ gs /\ g_name g = gname) ->
  exists x w', lookup_gr sys (ByName gname) w = Ret (Some x) w' /\ listed gs x /\ cycling d gs w'.
Proof.
  intros Hp Hgs Hfp Hst (g & Hin & Hname). unfold lookup_gr.
  destruct (grscan_spec sys d (Some (ByName gname)) gs w Hp Hgs Hfp) as (w1 & Hm & Hcase).
  assert (stayopen (gr w1) = 0) as Hst1 by (injection Hm; congruence). pose proof Hp as (Hmu & _).
  destruct Hcase as [(pre & e & post & -> & Hpre & He & -> & Hrd & _)|(Hall & _)].
  - cbn [obind]. rewrite Hst1. unfold endgrent. rewrite Hmu. eexists _, _. split; [done|]. split.
    + left. exists e. split; [set_solver|exact Hrd].
    + split; [exact Hst1|]. split; [by left|by left].
  - exfalso. rewrite Forall_forall in Hall. specialize (Hall g Hin). unfold gr_matches, other_name, other_id in Hall.
    by rewrite Hname, bool_decide_eq_true_2 in Hall.
Qed.

Lemma cycle_builtin sys d gname gs w :
  plain sys -> etc_group sys = Some (text (gpr d) gs) -> Forall (wf_gentry d) gs -> getenv sys GROUP = Some gname ->
  gname <> bytes "nogroup" -> (exists g, g ∈ gs /\ g_name g = gname) ->
  fp (gr w) = Some [] -> cycling d gs w ->
  exists x w', next_builtin_group sys w = Ret (Some x) w' /\ listed gs x /\ cycling d gs w'.
Proof.
  intros Hp Hfile Hgs Hg Hno Hin Hfp (Hst & Hn & _). pose proof Hp as (Hmu & Hnet & _). unfold next_builtin_group.
  destruct Hn as [-> | ->]; cbn [Z.eqb Pos.eqb NOBODY].
  - eexists _, _. split; [done|]. split; [by right|]. split; [done|]. split; [by right|].
    right. exists gs, []. split; [by rewrite app_nil_r|exact Hfp].
  - rewrite Hg. unfold getgrnam, net_gr. rewrite decide_False, Hmu, Hnet, (start_gr_file _ _ _ Hfile) by done.
    by apply lookup_gr_found.
Qed.

Lemma cycle_step sys d gname gs w :
  plain sys -> etc_group sys = Some (text (gpr d) gs) -> Forall (wf_gentry d) gs -> getenv sys GROUP = Some gname ->
  gname <> bytes "nogroup" -> (exists g, g ∈ gs /\ g_name g = gname) -> cycling d gs w ->
  exists x w', getgrent sys w = Ret (Some x) w' /\ listed gs x /\ cycling d gs w'.
Proof.
  intros Hp Hfile Hgs Hg Hno Hin Hcyc.
  assert (forall v pre post, gs = pre ++ post -> fp (gr v) = Some (text (gpr d) post) -> stayopen (gr v) = 0 ->
    (next (gr v) = 0 \/ next (gr v) = 1) ->
    exists x w', getgrent sys v = Ret (Some x) w' /\ listed gs x /\ cycling d gs w') as Hopen.
  { intros v pre [|g post] Heq Hfp Hst Hn.
    - destruct (getgrent_end sys v Hp Hfp) as (v1 & -> & Hfp1 & Hn1 & _ & Hst1).
      apply cycle_builtin with gname; try done. split; [congruence|]. split; [by rewrite Hn1|].
      right. exists gs, []. split; [by rewrite app_nil_r|exact Hfp1].
    - assert (Forall (wf_gentry d) (g :: post)) as Hpost by (rewrite Heq in Hgs; by apply Forall_app in Hgs as [_ ?]).
      destruct (getgrent_entry sys d g post v Hp Hpost Hfp) as (x & v1 & -> & Hrd & Hfp1 & Hn1 & _ & Hst1).
      exists x, v1. split; [done|]. split; [left; exists g; split; [rewrite Heq; set_solver|done]|].
      split; [congruence|]. split; [by rewrite Hn1|]. right. exists (pre ++ [g]), post. by rewrite <- app_assoc. }
  destruct Hcyc as (Hst & Hn & [Hfp|(pre & post & Heq & Hfp)]); [|by apply (Hopen w pre post)].
  specialize (Hopen (set_gr w (set_fp (gr w) (Some (text (gpr d) gs)))) [] gs eq_refl eq_refl Hst Hn).
  unfold getgrent in *. pose proof Hp as (Hmu & Hnet & _). rewrite Hmu, Hnet in *. rewrite Hfp, (start_gr_file _ _ _ Hfile).
  exact Hopen.
Qed.

(** initgroups never ends when GROUP names a group of /etc/group and the user is a
    member of no other than the base group: behind the last entry getgrent looks
    up that group, which closes the file and sets the enumeration back to its
    start, so that however many rounds it is given the loop goes on. *)
Theorem initgroups_never_ends sys d gs gname name base fuel w :
  plain sys -> etc_group sys = Some (text (gpr d) gs) -> Forall (wf_gentry d) gs ->
  getenv sys GROUP = Some gname -> gname <> bytes "nogroup" -> (exists g, g ∈ gs /\ g_name g = gname) ->
  name <> [] -> base <> -1 -> groups_of name (u16 base) gs = [] ->
  initgroups sys fuel (Some name) base w = Diverge.
Proof.
  intros Hp Hfile Hgs Hg Hno Hin Hname Hbase Hnone. pose proof Hp as (Hmu & Hnet & _).
  assert (forall g, g ∈ gs -> belongs name (u16 base) g = false) as Hb.
  { intros g Hgin. destruct (belongs name (u16 base) g) eqn:E; [|done]. exfalso. apply map_eq_nil in Hnone.
    assert (g ∈ filter (fun g => belongs name (u16 base) g = true) gs) as Hf by by apply list_elem_of_filter.
    rewrite Hnone in Hf. set_solver. }
  assert (forall v, cycling d gs v -> initgroups_loop sys fuel name base [u16 base; u16 base] v = Diverge) as Hloop.
  { induction fuel as [|fuel IH]; [done|]. intros v Hv. cbn [initgroups_loop].
    destruct (cycle_step sys d gname gs v Hp Hfile Hgs Hg Hno Hin Hv) as (x & v1 & -> & Hl & Hv1). cbn [obind].
    assert (negb (gr_gid x =? u16 base) && bool_decide (name ∈ gr_mem x) = false) as ->; [|by apply IH].
    destruct Hl as [(g & Hgin & Hrd)|Hmem]; [by rewrite (read_belongs _ _ _ _ Hname Hrd), Hb|].
    rewrite Hmem, bool_decide_eq_false_2 by set_solver. apply andb_false_r. }
  unfold initgroups. rewrite (proj2 (Z.eqb_neq _ _) Hbase). unfold setgrent.
  rewrite Hmu, Hnet, (start_gr_file _ _ _ Hfile). cbn [obind]. rewrite Hloop; [done|].
  split; [done|]. split; [by left|]. right. by exists [], gs.
Qed.

(** ** A small system *)

Definition ex_users : list entry :=
  [mk_entry (bytes "root") (bytes "x") (bytes "0") (bytes "0") (bytes "Super User") (bytes "/") (bytes "sh");
   mk_entry (bytes "joe") (bytes "y") (bytes "100") (bytes "20") (bytes "Joe") (bytes "/home/joe") (bytes "/bin/ksh")].
Definition ex_groups : list gentry :=
  [mk_gentry (bytes "wheel") (bytes "*") (bytes "0") [bytes "root"; bytes "joe"];
   mk_gentry (bytes "staff") (bytes "*") (bytes "20") [bytes "ann"; bytes "joe"]].

Definition ex_system (group : option (list Z)) : system :=
  mk_system None None (Some (text (pr COLON) ex_users)) (Some (text (gpr COLON) ex_groups))
    (fun v => match v with GROUP => group | _ => None end) true.

Definition ex_state : world :=
  mk_world (mk_db (mk_passwd None None 0 0 0 None None None None 0) None 0 false 0 false)
    (mk_db (mk_group None None 0 []) None 0 false 0 false) (mk_creds 0 0 0 0 0 (replicate 16 0) 0) None 0.

Lemma ex_users_wf : Forall (wf_entry COLON) ex_users.
Proof. repeat (apply Forall_cons_2; [apply wf_entryb_wf; by vm_compute|]). constructor. Qed.

Lemma ex_groups_wf : Forall (wf_gentry COLON) ex_groups.
Proof. repeat (apply Forall_cons_2; [apply wf_gentryb_wf; by vm_compute|]). constructor. Qed.

Lemma passwd_lookup_exact_witness :
  (exists r w', getpwnam (ex_system None) (bytes "joe") ex_state = Ret r w' /\
     first_match (fun e => bool_decide (e_name e = bytes "joe")) ex_users r /\ (0 = 0 -> fp (pw w') = None)) /\
  (exists r w', getpwuid (ex_system None) 100 ex_state = Ret r w' /\
     first_match (fun e => u16 (atoi (e_uid e)).1 =? 100) ex_users r /\ (0 = 0 -> fp (pw w') = None)).
Proof.
  destruct (passwd_lookup_exact (ex_system None) COLON ex_users ex_state) as [Hn Hu]; [done|done|exact ex_users_wf|].
  split; [by apply Hn; vm_compute|by apply Hu].
Defined.

Lemma initgroups_exact_witness :
  exists w', initgroups (ex_system None) 5 (Some (bytes "joe")) 100 ex_state = Ret 0 w' /\
    getgroups (ex_system None) 16 false w' = Ret (4, [100; 100; 0; 20]) w' /\ getegid (ex_system None) w' = 100.
Proof.
  exact (initgroups_exact (ex_system None) COLON ex_groups 5 (bytes "joe") 100 ex_state
    (conj eq_refl (conj eq_refl eq_refl)) eq_refl ex_groups_wf eq_refl ltac:(done) ltac:(done) ltac:(cbn; lia)).
Defined.

Lemma initgroups_never_ends_witness :
  initgroups (ex_system (Some (bytes "staff"))) 1000 (Some (bytes "jim")) 100 ex_state = Diverge.
Proof.
  apply (initgroups_never_ends (ex_system (Some (bytes "staff"))) COLON ex_groups (bytes "staff")); try done.
  - exact ex_groups_wf.
  - eexists. split; [right; left|done].
Defined.

(** The two conversions of identifiers are inverse to each other. *)
Lemma amiga_ids_roundtrip id :
  0 <= id < 65536 -> __amiga2unixid (__unix2amigaid id) = id /\ __unix2amigaid (__amiga2unixid id) = id.
Proof.
  intros H. unfold __amiga2unixid, __unix2amigaid.
  split; repeat (case_match; try lia).
Qed.
