(* ===== verification/Paths.v ===== *)
(** * Paths

    Models the names of files: [ix_to_ados] and [check_root] of library/__open.c,
    which turn the name of a UNIX file into one of AmigaDOS, [is_pseudoterminal]
    of library/__plock.c, and their clients [__open] (library/__open.c), [__lock]
    and [__llock] (library/__lock.c).

    A string is the list of its bytes without the final 0.  The result is built in
    a buffer of [cap] bytes: the operations return [None] when they store outside
    of it.  dos.library is an interface, [PathOps]; [PathLaws] states what its
    documentation promises about locks. *)

From S2P Require Import Prelude Users Dos Dirs.

Module Paths.

Definition str := list Z.
Definition DOT : Z := 46.
Definition SLASH : Z := 47.
Definition COLON : Z := 58.
Definition STAR : Z := 42.
Notation lit := Users.bytes.

(** ** The buffer *)

Definition emit (cap : nat) (c : Z) (buf : str) : option str :=
  if decide (length buf < cap)%nat then Some (buf ++ [c]) else None.

(** [while (cnt--) *p++ = '.';] *)
Fixpoint emit_dots (cap n : nat) (buf : str) : option str :=
  match n with
  | O => Some buf
  | S n => buf ← emit cap DOT buf; emit_dots cap n buf
  end.

(** strcpy: the string and its final 0. *)
Definition strcpy (cap : nat) (s : str) : option str :=
  if decide (length s < cap)%nat then Some s else None.

(** ** ix_to_ados *)

(** The process: the fields are those of the parent's user data where it has one. *)
Inductive user := mk_user (u_parent_userdata : option user) (u_use_amiga_paths u_is_root : bool).
Definition the_user (u : user) : user := match u with mk_user (Some p) _ _ => p | _ => u end.
Definition u_use_amiga_paths (u : user) : bool := let 'mk_user _ a _ := u in a.
Definition u_is_root (u : user) : bool := let 'mk_user _ _ r := u in r.

(** The variables of the loop; [buf] is what is stored in front of [p]. *)
Record cursor := mk_cursor {
  buf : str;
  allowdot : bool;
  dotcnt : nat;
  root : Z;
  absados : bool
}.

(** strrchr (q, ':'): what is in front of the last colon and behind it. *)
Fixpoint last_colon (q : str) : option (str * str) :=
  match q with
  | [] => None
  | c :: q =>
    match last_colon q with
    | Some (before, behind) => Some (c :: before, behind)
    | None => if c =? COLON then Some ([], q) else None
    end
  end.

(** Back to the name's start, a colon or a slash (a leading slash that was skipped
    stops the search like the start). *)
Fixpoint back (before : str) : str :=
  match before with
  | [] => []
  | c :: before' =>
    if existsb (fun d => (d =? COLON) || (d =? SLASH)) before' then back before'
    else if (c =? COLON) || (c =? SLASH) then before' else before
  end.

(** A slash or the final 0 ([last]). *)
Definition at_end (cap : nat) (last : bool) (s : cursor) : option cursor :=
  s ← (if decide (2 < dotcnt s)%nat then
         b ← emit_dots cap (dotcnt s) (buf s);
         Some (mk_cursor b (allowdot s) (dotcnt s) (if root s =? 1 then 2 else root s) (absados s))
       else Some s);
  if (root s =? 2) || ((root s =? 1) && last) then
    b ← emit cap COLON (buf s);
    Some (mk_cursor b (allowdot s) (dotcnt s) 0 (absados s))
  else if ((root s =? 0) && negb (absados s)) &&
          (bool_decide (dotcnt s = 2%nat) ||
           ((bool_decide (dotcnt s = 0%nat) || bool_decide (2 < dotcnt s)%nat) && negb last)) then
    b ← emit cap SLASH (buf s);
    Some (mk_cursor b (allowdot s) (dotcnt s) (root s) (absados s))
  else Some s.

(** Any other character. *)
Definition plain (cap : nat) (c : Z) (s : cursor) : option cursor :=
  b ← emit_dots cap (dotcnt s) (buf s);
  b ← emit cap c b;
  Some (mk_cursor b false 0 (if root s =? 1 then 2 else root s) false).

Fixpoint skip_slashes (q : str) : str :=
  match q with
  | c :: q' => if c =? SLASH then skip_slashes q' else q
  | [] => []
  end.

Definition dotted (cap : nat) (s : cursor) : option cursor :=
  if allowdot s then Some (mk_cursor (buf s) true (S (dotcnt s)) (root s) (absados s))
  else b ← emit cap DOT (buf s); Some (mk_cursor b false (dotcnt s) (root s) (absados s)).

(** One turn of [for (;;)] consumes a character and the slashes behind a slash:
    [fuel] is the length of the name. *)
Fixpoint convert (cap fuel : nat) (q : str) (s : cursor) : option str :=
  match q with
  | [] => s ← at_end cap true s; Some (buf s)
  | c :: q =>
    match fuel with
    | O => None
    | S fuel =>
      if c =? DOT then s ← dotted cap s; convert cap fuel q s
      else if c =? SLASH then
        s ← at_end cap false s;
        convert cap fuel (skip_slashes q) (mk_cursor (buf s) true 0 (root s) (absados s))
      else s ← plain cap c s; convert cap fuel q s
    end
  end.

(** Remove the lonely slash from the end; [rev b] starts with [p[-1]]. *)
Definition trim (b : str) : str :=
  match rev b with
  | c :: d :: e :: r =>
    if (c =? SLASH) && negb (d =? SLASH) && negb (d =? COLON) then rev (d :: e :: r) else b
  | _ => b
  end.

Definition strcasecmp (s t : str) : bool :=
  bool_decide (map Dir.tolower s = map Dir.tolower t).
Definition strcmp (s t : str) : bool := bool_decide (s = t).

Definition devices (cap : nat) (b : str) : option str :=
  if strcasecmp b (lit "console:") then Some [STAR]
  else if strcmp (take 4 b) (lit "dev:") then
    let d := drop 4 b in
    if strcmp d (lit "tty") then Some [STAR]
    else if strcmp d (lit "null") then strcpy cap (lit "NIL:")
    else if strcmp d (lit "random") || strcmp d (lit "urandom") ||
            strcmp d (lit "srandom") || strcmp d (lit "prandom") then strcpy cap (lit "RANDOM:")
    else if strcmp d (lit "zero") then strcpy cap (lit "ZERO:")
    else Some b
  else Some b.

(** Where the name starts: [root] and [q]. *)
Definition leading (u : user) (name : str) : Z * str :=
  if u_is_root u then (1, name)
  else match name with c :: q => if c =? SLASH then (1, q) else (0, name) | [] => (0, name) end.

(** The variables in front of the loop. *)
Definition opening (cap : nat) (root : Z) (q : str) : option (str * cursor) :=
  match last_colon q with
  | Some (before, behind) =>
    b ← strcpy (S cap) (back before ++ [COLON]);
    Some (behind, mk_cursor b true 0 0 true)
  | None => Some (q, mk_cursor [] true 0 root false)
  end.

Definition translate (cap : nat) (root : Z) (q : str) : option str :=
  '(q, s) ← opening cap root q;
  b ← convert cap (length q) q s;
  b ← strcpy cap (trim b);
  devices cap b.

Definition ix_to_ados (cap : nat) (u : user) (name : str) : option str :=
  let u := the_user u in
  if u_use_amiga_paths u then strcpy cap name
  else let '(root, q) := leading u name in translate cap root q.

Definition ERROR_IS_SOFT_LINK : ioerr := Ioerr 233.

(** ** is_pseudoterminal

    It looks at the memory [m] behind its argument, the final 0 included. *)

Definition ch_p : Z := 112.
Definition ch_t : Z := 116.
Definition ch_u : Z := 117.
Definition ch_y : Z := 121.
(** strchr (set, c) finds the final 0 of the set as well. *)
Definition strchr (set : str) (c : Z) : bool := bool_decide (c ∈ set) || (c =? 0).

Definition guard (m : list Z) (k : Z) (P : Z -> bool) (body : option Z) : option Z :=
  c ← aget m k; if P c then body else Some 0.

Definition is_pseudoterminal (m : list Z) : option Z :=
  let slash := strcmp (take 5 m) (lit "/dev/") in
  if slash || strcmp (take 4 m) (lit "dev:") then
    let i := if slash then 1 else 0 in
    let m := if slash then drop 1 m else m in
    guard m 4 (fun c => (c =? ch_p) || (c =? ch_t))
    (guard m 5 (fun c => c =? ch_t)
    (guard m 6 (fun c => c =? ch_y)
    (guard m 7 (fun c => (ch_p <=? c) && (c <=? ch_u))
    (guard m 8 (strchr (lit "0123456789abcdef"))
    (guard m 9 (fun c => c =? 0)
    (Some (i + 4)))))))
  else Some 0.

(** ** dos.library *)

Class PathOps (W : Type) := {
  p_CurrentDir : Z -> W -> Z * W;
  p_DupLock : Z -> W -> Z * W;
  p_ParentDir : Z -> W -> Z * W;
  p_UnLock : Z -> W -> W;
  p_Lock : Z -> str -> Z -> W -> Z * W;       (** pr_WindowPtr, name, mode *)
  p_Open : Z -> str -> Z -> W -> Z * W;       (** pr_WindowPtr, name, action *)
  p_IoErr : W -> ioerr;
  p_SetIoErr : ioerr -> W -> W;
  p_GetDeviceProc : Z -> str -> Z -> W -> Z * W;
  p_Locate : Z -> Z -> list Z -> Z -> W -> Z * W; (** ACTION_LOCATE_OBJECT of a device, BSTR, mode *)
  p_is_assign : Z -> W -> bool;               (** DVPF_ASSIGN of the device *)
  p_ErrorReport : Z -> ioerr -> Z -> W -> bool * W;
  p_FreeDeviceProc : Z -> W -> W
}.

(** The task: dos.library with the window its requesters appear in. *)
Record task (W : Type) := mk_task { pr_WindowPtr : Z; dos : W }.
Arguments mk_task {W} _ _.
Arguments pr_WindowPtr {W} _.
Arguments dos {W} _.

Section Dos.
Context {W : Type} `{!PathOps W}.
Implicit Types (w : W) (t : task W).

Definition call {A} (f : Z -> W -> A * W) (t : task W) : A * task W :=
  let '(a, w) := f (pr_WindowPtr t) (dos t) in (a, mk_task (pr_WindowPtr t) w).
Definition set_window (v : Z) (t : task W) : task W := mk_task v (dos t).
Definition SetIoErr (e : ioerr) (t : task W) : task W := mk_task (pr_WindowPtr t) (p_SetIoErr e (dos t)).

(** ** check_root

    The buffer is a string with the bytes [stale] behind its final 0. *)

Record cbuf := mk_cbuf { chars : str; stale : list Z }.
Definition memory (b : cbuf) : list Z := chars b ++ 0 :: stale b.

(** [do ... while ( *name == '/')]: whether the root was reached, the rest of the
    name and the last directory. *)
Fixpoint ascend (name : str) (dir : Z) (w : W) : bool * str * Z * W :=
  match name with
  | c :: name' =>
    if c =? SLASH then
      let '(parent, w) := p_ParentDir dir w in
      if parent =? 0 then (true, name', dir, w)
      else ascend name' parent (p_UnLock dir w)
    else (false, name, dir, w)
  | [] => (false, [], dir, w)
  end.

(** The first slash becomes a colon, or one is added at the end. *)
Fixpoint to_volume (s : str) (old : list Z) : option cbuf :=
  match s with
  | [] => match old with _ :: old => Some (mk_cbuf [COLON] old) | [] => None end
  | c :: s =>
    if c =? SLASH then Some (mk_cbuf (COLON :: s) old)
    else b ← to_volume s old; Some (mk_cbuf (c :: chars b) (stale b))
  end.

Definition check_root (b : cbuf) (w : W) : outcome W (option cbuf) :=
  match chars b with
  | c :: _ =>
    if c =? SLASH then
      let '(olddir, w) := p_CurrentDir 0 w in
      let '(dir, w) := p_DupLock olddir w in
      let '(_, w) := p_CurrentDir olddir w in
      let '(root, name, dir, w) := ascend (chars b) dir w in
      let w := p_UnLock dir w in
      let name := skip_slashes name in
      if negb root then Ret None w
      else
        match name with
        | [] => Ret (Some (mk_cbuf [] (stale b))) w
        | c :: rest =>
          let? v := to_volume rest (stale b) in
          Ret (Some (mk_cbuf (c :: chars v) (stale v))) w
        end
    else Ret None w
  | [] => Ret None w
  end.

(** ** __open, __lock, __llock *)

Definition on_dos {A} (f : W -> outcome W A) (t : task W) : outcome (task W) A :=
  match f (dos t) with
  | Ret a w => Ret a (mk_task (pr_WindowPtr t) w)
  | Asleep w => Asleep (mk_task (pr_WindowPtr t) w)
  | Panic m => Panic m
  | Fault => Fault
  | Diverge => Diverge
  end.

(** [alloca (strlen (name) + 4)] and ix_to_ados; [old] is what the stack holds. *)
Definition ados_in (spare : nat) (u : user) (old : nat -> Z) (name : str) : option cbuf :=
  let cap := (length name + spare)%nat in
  b ← ix_to_ados cap u name;
  Some (mk_cbuf b (map old (seq (S (length b)) (cap - S (length b))))).

(** readlink, __make_link and chmod allocate three bytes and not four. *)
Definition ados_name : user -> (nat -> Z) -> str -> option cbuf := ados_in 4.

Definition __open (u : user) (old : nat -> Z) (name : str) (action : Z) (t : task W) : outcome (task W) Z :=
  let? b := ados_name u old name in
  let win := pr_WindowPtr t in
  let t := set_window (-1) t in
  let '(file, t) := call (fun win => p_Open win (chars b) action) t in
  let* (file, t) :=
    if file =? 0 then
      let err := p_IoErr (dos t) in
      if decide (err = ERROR_OBJECT_NOT_FOUND) then
        let* (b, t) := on_dos (check_root b) t in
        match b with
        | Some (mk_cbuf ((_ :: _) as s) _) =>
          let '(file, t) := call (fun win => p_Open win s action) t in
          let err := if file =? 0 then err else Ioerr 0 in
          Ret file (SetIoErr err t)
        | _ => Ret file (SetIoErr err t)
        end
      else Ret file t
    else Ret file t in
  Ret file (set_window win t).

Definition is_special_name (b : cbuf) (t : task W) : outcome (task W) bool :=
  if strcasecmp (chars b) (lit "NIL:") then Ret true (SetIoErr (Ioerr 4242) t)
  else
    let? p := is_pseudoterminal (memory b) in
    if negb (p =? 0) then Ret true (SetIoErr (Ioerr 5252) t)
    else if strcmp (chars b) (lit ":") then Ret true (SetIoErr (Ioerr 6262) t)
    else Ret false t.

Definition __lock (u : user) (old : nat -> Z) (name : str) (mode : Z) (t : task W) : outcome (task W) Z :=
  let? b := ados_name u old name in
  let* (special, t) := is_special_name b t in
  if special then Ret 0 t
  else
    let win := pr_WindowPtr t in
    let t := set_window (-1) t in
    let '(lock, t) := call (fun win => p_Lock win (chars b) mode) t in
    let* (lock, t) :=
      if lock =? 0 then
        let err := p_IoErr (dos t) in
        if decide (err = ERROR_OBJECT_NOT_FOUND) then
          let* (b, t) := on_dos (check_root b) t in
          match b with
          | None => Ret lock (SetIoErr err t)
          | Some (mk_cbuf [] _) => Ret lock (SetIoErr (Ioerr 6262) t)
          | Some (mk_cbuf s _) =>
            let '(lock, t) := call (fun win => p_Lock win s mode) t in
            Ret lock (SetIoErr (if lock =? 0 then err else Ioerr 0) t)
          end
        else Ret lock t
      else Ret lock t in
    Ret lock (set_window win t).

(** The BSTR for the handler: from the colon on, at most 256 characters, and the
    byte with their number in front. *)
Fixpoint from_colon (s : str) : option str :=
  match s with [] => None | c :: s' => if c =? COLON then Some s else from_colon s' end.
Definition bstr (s : str) : list Z :=
  let p := default s (from_colon s) in
  let q := take 256 p in
  u8 (Z.of_nat (length q)) :: q.

(** The handlers behind a name, as long as [fuel] of them answer. *)
Fixpoint find_handler (fuel : nat) (s : str) (bs : list Z) (mode dvp : Z) (t : task W) : outcome (task W) (Z * Z) :=
  match fuel with
  | O => Diverge
  | S fuel =>
    let '(dvp, t) := call (fun win => p_GetDeviceProc win s dvp) t in
    if dvp =? 0 then Ret (0, dvp) t
    else
      let '(lock, t) := call (fun win => p_Locate win dvp bs mode) t in
      if negb (lock =? 0) then Ret (lock, dvp) t
      else
        let error := p_IoErr (dos t) in
        if decide (error = ERROR_IS_SOFT_LINK) then Ret (0, dvp) t
        else if decide (error = ERROR_OBJECT_NOT_FOUND) then
          if negb (p_is_assign dvp (dos t)) then Ret (0, dvp) t
          else find_handler fuel s bs mode dvp t
        else
          let '(res, t) := call (fun win => p_ErrorReport win error dvp) t in
          let t := mk_task (pr_WindowPtr t) (p_FreeDeviceProc dvp (dos t)) in
          if res then Ret (0, 0) t else find_handler fuel s bs mode 0 t
  end.

(** The body of [do ... while (lock == 0 && retry == 10)]: the lock, last_err and
    the name for another attempt.  [have_buf]: AllocVec has the memory for the
    BSTR; it is written without a test. *)
Definition attempt (fuel : nat) (have_buf first : bool) (last_err : ioerr) (b : cbuf) (mode : Z) (t : task W)
    : outcome (task W) (Z * ioerr * option cbuf) :=
  let* (special, t) := is_special_name b t in
  if special then Ret (0, p_IoErr (dos t), None) t
  else if negb have_buf then Fault
  else
    let* (r, t) := find_handler fuel (chars b) (bstr (chars b)) mode 0 t in
    let '(lock, dvp) := r in
    let t := mk_task (pr_WindowPtr t) (p_FreeDeviceProc dvp (dos t)) in
    if (lock =? 0) && first then
      let last_err := p_IoErr (dos t) in
      if decide (last_err = ERROR_OBJECT_NOT_FOUND) then
        let* (b, t) := on_dos (check_root b) t in
        match b with
        | None => Ret (lock, last_err, None) t
        | Some (mk_cbuf [] _) => Ret (lock, Ioerr 6262, None) t
        | Some b => Ret (lock, last_err, Some b) t
        end
      else Ret (lock, last_err, None) t
    else Ret (lock, last_err, None) t.

Definition __llock (fuel : nat) (have_buf : bool) (u : user) (old : nat -> Z) (name : str) (mode : Z) (t : task W)
    : outcome (task W) Z :=
  let? b := ados_name u old name in
  let win := pr_WindowPtr t in
  let t := set_window (-1) t in
  let* (r, t) := attempt fuel have_buf true (Ioerr 0) b mode t in
  let '(lock, last_err, again) := r in
  let* (r, t) :=
    match again with
    | Some b =>
      let* (r, t) := attempt fuel have_buf false last_err b mode t in
      let '(lock, last_err, _) := r in Ret (lock, last_err) t
    | None => Ret (lock, last_err) t
    end in
  let '(lock, last_err) := r in
  let t := if lock =? 0 then SetIoErr last_err t else t in
  Ret lock (set_window win t).

End Dos.

End Paths.
