(* ===== verification/PathsTheorems.v ===== *)
(** * Paths: lemmas and theorems

    [unix_walk] says which file a UNIX name denotes and [ados_walk] which one an
    AmigaDOS name denotes; both read the name character by character and keep the
    place reached (the innermost directory first, the volume last) and the
    component being read.  [ix_to_ados] is shown to translate the one to the other
    within its buffer, and [check_root] to continue a name that climbs out of its
    volume. *)

From S2P Require Import Prelude Users Dos Dirs Paths.
Import Paths.

Lemma emit_Some cap c b b' : emit cap c b = Some b' -> b' = b ++ [c] /\ (length b < cap)%nat.
Proof. unfold emit. case_decide; intros [=]; by subst. Qed.

Lemma emit_fits cap c b : (length b < cap)%nat -> emit cap c b = Some (b ++ [c]).
Proof. intros. unfold emit. by rewrite decide_True. Qed.

Lemma emit_dots_fits cap n b : (length b + n <= cap)%nat -> emit_dots cap n b = Some (b ++ replicate n DOT).
Proof.
  revert b. induction n as [|n IH]; intros b Hn; cbn; [by rewrite app_nil_r|].
  rewrite emit_fits by lia. cbn. rewrite IH by (rewrite length_app; cbn; lia). by rewrite <- app_assoc.
Qed.

(** ** The loop without its buffer *)

Definition end_out (last : bool) (s : cursor) : str * Z :=
  let many := bool_decide (2 < dotcnt s)%nat in
  let dots := if many then replicate (dotcnt s) DOT else [] in
  let r := if many && (root s =? 1) then 2 else root s in
  if (r =? 2) || ((r =? 1) && last) then (dots ++ [COLON], 0)
  else if ((r =? 0) && negb (absados s)) &&
          (bool_decide (dotcnt s = 2%nat) || ((bool_decide (dotcnt s = 0%nat) || many) && negb last))
  then (dots ++ [SLASH], r)
  else (dots, r).

Definition colon_room (r : Z) : nat := if r =? 0 then 0%nat else 1%nat.

(** The bytes that may still be stored: those of the name, the dots that were
    counted, and the colon where the name has a volume. *)
Definition need (s : cursor) (n : nat) : nat :=
  (length (buf s) + dotcnt s + n + colon_room (root s))%nat.

Lemma at_end_fits cap last s n :
  (need s n <= cap)%nat -> (last = false -> 0 < n)%nat ->
  at_end cap last s = Some (mk_cursor (buf s ++ (end_out last s).1) (allowdot s) (dotcnt s) (end_out last s).2 (absados s)).
Proof.
  unfold need, colon_room, at_end, end_out. intros Hn Hl. destruct s as [b al d r ab]; cbn in *.
  destruct (decide (2 < d)%nat) as [Hd|Hd].
  - rewrite emit_dots_fits by lia. cbn. rewrite !(bool_decide_true (2 < d)%nat) by done. cbn.
    rewrite !(bool_decide_false (d = 2%nat)) by lia.
    destruct (Z.eqb_spec r 1) as [->|H1]; cbn.
    + cbn in Hn. rewrite emit_fits by (rewrite length_app, length_replicate; lia). cbn. by rewrite <- app_assoc.
    + destruct (Z.eqb_spec r 2) as [->|H2]; cbn.
      * cbn in Hn. rewrite emit_fits by (rewrite length_app, length_replicate; lia). cbn. by rewrite <- app_assoc.
      * rewrite (proj2 (Z.eqb_neq r 1)) by done. cbn.
        destruct (Z.eqb_spec r 0) as [->|H0], ab, last; cbn; rewrite ?orb_true_r; try done.
        rewrite emit_fits by (rewrite length_app, length_replicate; specialize (Hl eq_refl); lia).
        cbn. by rewrite <- app_assoc.
  - cbn. rewrite !(bool_decide_false (2 < d)%nat) by done. cbn.
    destruct ((r =? 2) || (r =? 1) && last) eqn:Er; cbn.
    + assert (r <> 0) as H0 by (intros ->; by destruct last). rewrite (proj2 (Z.eqb_neq r 0)) in Hn by done.
      rewrite emit_fits by lia. done.
    + match goal with |- context [if ?c then _ else _] => destruct c eqn:Ec end; cbn; [|by rewrite app_nil_r].
      rewrite emit_fits; [done|]. case_bool_decide; [lia|]. cbn in Ec.
      destruct last; [by rewrite !andb_false_r in Ec|]. specialize (Hl eq_refl). lia.
Qed.

Lemma end_out_need last s n :
  (last = false -> 0 < n)%nat ->
  (length (end_out last s).1 + colon_room (end_out last s).2 + (if last then 0 else n - 1)
   <= dotcnt s + n + colon_room (root s))%nat.
Proof.
  unfold end_out, colon_room. destruct s as [b al d r ab]; cbn. intros Hl.
  assert (last = false \/ last = true) as [->| ->] by (destruct last; auto).
  all: try specialize (Hl eq_refl).
  all: destruct (bool_decide_reflect (2 < d)%nat), (Z.eqb_spec r 1) as [->|]; cbn;
    rewrite ?length_app, ?length_replicate; cbn; try lia;
    destruct (Z.eqb_spec r 2) as [->|]; cbn; rewrite ?length_app, ?length_replicate; cbn; try lia;
    try (rewrite (proj2 (Z.eqb_neq r 1)) by done; cbn); destruct (Z.eqb_spec r 0) as [->|]; cbn;
    rewrite ?length_replicate; try lia; destruct ab; cbn; rewrite ?length_replicate; try lia;
    repeat case_bool_decide; cbn; rewrite ?length_app, ?length_replicate; cbn; try lia;
    destruct (r =? 0); lia.
Qed.

Fixpoint conv (fuel : nat) (q : str) (s : cursor) : str :=
  match q, fuel with
  | [], _ => buf s ++ (end_out true s).1
  | c :: q, O => []
  | c :: q, S fuel =>
    if c =? DOT then
      conv fuel q (if allowdot s then mk_cursor (buf s) true (S (dotcnt s)) (root s) (absados s)
                   else mk_cursor (buf s ++ [DOT]) false (dotcnt s) (root s) (absados s))
    else if c =? SLASH then
      conv fuel (skip_slashes q)
        (mk_cursor (buf s ++ (end_out false s).1) true 0 (end_out false s).2 (absados s))
    else
      conv fuel q (mk_cursor (buf s ++ replicate (dotcnt s) DOT ++ [c]) false 0 (if root s =? 1 then 2 else root s) false)
  end.

Lemma skip_slashes_length q : (length (skip_slashes q) <= length q)%nat.
Proof. induction q as [|c q IH]; cbn; [lia|]. destruct (c =? SLASH); cbn; lia. Qed.

Lemma convert_fits cap fuel q s :
  (length q <= fuel)%nat -> (need s (length q) <= cap)%nat ->
  convert cap fuel q s = Some (conv fuel q s) /\ (length (conv fuel q s) <= need s (length q))%nat.
Proof.
  revert q s. induction fuel as [|fuel IH]; intros [|c q] s Hf Hn; cbn [convert conv]; try (cbn in Hf; lia).
  1, 2: rewrite (at_end_fits _ _ _ 0) by (done || (unfold need in *; cbn in *; lia)); split; [done|];
    rewrite length_app; pose proof (end_out_need true s 0 ltac:(done)); unfold need; cbn in *;
    lia.
  cbn [length] in *.
  destruct (c =? DOT); [|destruct (c =? SLASH)].
  - unfold dotted. destruct (allowdot s); cbn [mbind option_bind].
    + destruct (IH q (mk_cursor (buf s) true (S (dotcnt s)) (root s) (absados s))) as [-> ?];
        [lia|unfold need in *; cbn; lia|]. split; [done|]. unfold need in *. cbn in *. lia.
    + rewrite emit_fits by (unfold need in *; lia). cbn [mbind option_bind].
      destruct (IH q (mk_cursor (buf s ++ [DOT]) false (dotcnt s) (root s) (absados s))) as [-> ?];
        [lia|unfold need in *; cbn; rewrite length_app; cbn; lia|].
      split; [done|]. unfold need in *. cbn in *. rewrite length_app in *. cbn in *. lia.
  - rewrite (at_end_fits _ _ _ (S (length q))) by (done || lia). cbn [mbind option_bind buf root absados].
    pose proof (end_out_need false s (S (length q)) ltac:(lia)) as He. pose proof (skip_slashes_length q).
    match goal with |- context [convert cap fuel _ ?s'] => destruct (IH (skip_slashes q) s') as [-> ?] end.
    + lia.
    + unfold need in *. cbn. rewrite length_app. lia.
    + split; [done|]. unfold need in *. cbn in *. rewrite length_app in *. lia.
  - unfold plain. rewrite emit_dots_fits by (unfold need in *; lia). cbn [mbind option_bind].
    rewrite emit_fits by (rewrite length_app, length_replicate; unfold need in *; lia). cbn [mbind option_bind].
    rewrite <- app_assoc.
    assert (forall r, colon_room (if r =? 1 then 2 else r) = colon_room r) as Hr.
    { intros r. by destruct (Z.eqb_spec r 1) as [->|]. }
    match goal with |- context [convert cap fuel _ ?s'] => destruct (IH q s') as [-> ?] end.
    + lia.
    + unfold need in *. cbn. rewrite Hr, !length_app, length_replicate. cbn. lia.
    + split; [done|]. unfold need in *. cbn in *. rewrite Hr in *.
      rewrite !length_app, length_replicate in *. cbn in *. lia.
Qed.

(** ** The meaning of names *)

(** A component is read: the place, and whether the walk has left a volume. *)
Definition enter (part : str) (l : list str * bool) : list str * bool :=
  let '(here, gone) := l in
  if decide (part = [] \/ part = [DOT]) then (here, gone)
  else if decide (part = [DOT; DOT]) then (tail here, gone || (Z.of_nat (length here) =? 1))
  else (part :: here, gone).

Arguments enter : simpl never.

Definition unix_step (u : list str * bool * str) (c : Z) : list str * bool * str :=
  let '(l, part) := u in
  if c =? SLASH then (enter part l, []) else (l, part ++ [c]).

Definition unix_end (u : list str * bool * str) : list str * bool := let '(l, part) := u in enter part l.

(** From [start] ([[]] is the root): where the name leads. *)
Definition unix_walk (start : list str) (q : str) : list str * bool :=
  unix_end (fold_left unix_step q (start, false, [])).

(** A slash ends a component or, behind another one, leads to the parent; there
    is nothing above a volume.  A colon ends the name of a volume; without a name
    it is the current one. *)
Definition ados_step (st : option (list str * str)) (c : Z) : option (list str * str) :=
  '(here, part) ← st;
  if c =? COLON then Some (match part with [] => drop (length here - 1) here | _ => [part] end, [])
  else if c =? SLASH then
    match part with
    | [] => match here with _ :: (_ :: _) => Some (tail here, []) | _ => None end
    | _ => Some (part :: here, [])
    end
  else Some (here, part ++ [c]).

Definition ados_end (st : list str * str) : list str :=
  let '(here, part) := st in match part with [] => here | _ => part :: here end.

Definition ados_walk (cwd : list str) (s : str) : option (list str) :=
  ados_end <$> fold_left ados_step s (Some (cwd, [])).

Definition ordinary (c : Z) : Prop := c <> SLASH /\ c <> COLON.

Lemma ados_None s : fold_left ados_step s None = None.
Proof. by induction s. Qed.

Lemma ados_ordinary s here part :
  Forall ordinary s -> fold_left ados_step s (Some (here, part)) = Some (here, part ++ s).
Proof.
  intros Hs. revert part. induction Hs as [|c s [H1 H2] Hs IH]; intros part; cbn; [by rewrite app_nil_r|].
  rewrite (proj2 (Z.eqb_neq c COLON)), (proj2 (Z.eqb_neq c SLASH)) by done. rewrite IH. by rewrite <- app_assoc.
Qed.

Lemma dots_ordinary n : Forall ordinary (replicate n DOT).
Proof. apply Forall_replicate. by split. Qed.

(** A component that is not one of the names with a meaning of their own. *)
Definition named (part : str) : Prop := part <> [] /\ part <> [DOT] /\ part <> [DOT; DOT].

Lemma enter_named part here gone : named part -> enter part (here, gone) = (part :: here, gone).
Proof. intros (H1 & H2 & H3). unfold enter. rewrite !decide_False; try done. by intros [?|?]. Qed.

Lemma named_cons part : named part -> exists c p, part = c :: p.
Proof. intros [H _]. destruct part; [done|eauto]. Qed.

Lemma named_dots n : (2 < n)%nat -> named (replicate n DOT).
Proof. intros. by repeat split; destruct n as [|[|[|n]]]; try lia. Qed.

Lemma named_dot part : named part -> named (part ++ [DOT]).
Proof.
  intros (H1 & H2 & H3). repeat split; intros E; destruct part as [|a [|b [|d p]]]; try done.
  cbn in E. injection E as ->. done.
Qed.

Lemma named_snoc part c : c <> DOT -> named (part ++ [c]).
Proof.
  intros Hc. repeat split; intros E; destruct part as [|a [|b [|d p]]]; cbn in E; try done;
    injection E as E; congruence.
Qed.

(** The loop has read what [u] has read. *)
Definition sim (cwd : list str) (s : cursor) (u : list str * bool * str) : Prop :=
  let '(here, gone, part) := u in
  absados s = false /\
  (if allowdot s then part = replicate (dotcnt s) DOT else dotcnt s = 0%nat /\ named part) /\
  ((root s = 1 /\ buf s = [] /\ allowdot s = true /\ here = [] /\ gone = false) \/
   (root s = 2 /\ allowdot s = false /\ here = [] /\ gone = false /\
      fold_left ados_step (buf s) (Some (cwd, [])) = Some (cwd, part)) \/
   (root s = 0 /\ (gone = false -> here <> []) /\
      fold_left ados_step (buf s) (Some (cwd, [])) =
        if gone then None else Some (here, if allowdot s then [] else part))).

Lemma ados_app cwd b t st : fold_left ados_step b (Some (cwd, [])) = st ->
  fold_left ados_step (b ++ t) (Some (cwd, [])) = fold_left ados_step t st.
Proof. intros <-. apply fold_left_app. Qed.

Lemma sim_dot cwd s u : sim cwd s u ->
  sim cwd (if allowdot s then mk_cursor (buf s) true (S (dotcnt s)) (root s) (absados s)
           else mk_cursor (buf s ++ [DOT]) false (dotcnt s) (root s) (absados s)) (unix_step u DOT).
Proof.
  destruct u as [[here gone] part], s as [b al d r ab]; unfold sim; cbn. intros (-> & Hp & Hr).
  destruct al; cbn; (split; [done|]).
  - split; [by rewrite Hp, <- replicate_S_end|]. intuition done.
  - destruct Hp as [-> Hp]. split; [split; [done|by apply named_dot]|].
    destruct Hr as [(? & ? & ? & ?)|[(-> & ? & -> & -> & E)|(-> & ? & E)]]; [done| |].
    + right. left. repeat split; try done. by rewrite (ados_app _ _ _ _ E).
    + right. right. repeat split; try done. rewrite (ados_app _ _ _ _ E). by destruct gone.
Qed.

Lemma sim_plain cwd s u c : ordinary c -> c <> DOT -> sim cwd s u ->
  sim cwd (mk_cursor (buf s ++ replicate (dotcnt s) DOT ++ [c]) false 0 (if root s =? 1 then 2 else root s) false)
    (unix_step u c).
Proof.
  intros Ho Hd. destruct u as [[here gone] part], s as [b al d r ab]; unfold sim; cbn. intros (-> & Hp & Hr).
  rewrite (proj2 (Z.eqb_neq c SLASH)) by apply Ho. split; [done|]. split; [split; [done|by apply named_snoc]|].
  assert (Forall ordinary (replicate d DOT ++ [c])) as Hf.
  { apply Forall_app. split; [apply dots_ordinary|]. by apply Forall_singleton. }
  destruct Hr as [(-> & -> & -> & -> & ->)|[(-> & -> & -> & -> & E)|(-> & Hl & E)]].
  - right. left. repeat split; try done. cbn [app]. rewrite ados_ordinary by done. by subst part.
  - destruct Hp as [-> Hp]. right. left. repeat split; try done. rewrite (ados_app _ _ _ _ E).
    by rewrite ados_ordinary.
  - right. right. repeat split; try done. rewrite (ados_app _ _ _ _ E). destruct gone; [apply ados_None|].
    rewrite ados_ordinary by done. destruct al; [by subst part|]. by destruct Hp as [-> _].
Qed.

Lemma end_out_spec cwd b al d r here gone part last here' gone' :
  let s := mk_cursor b al d r false in
  sim cwd s (here, gone, part) -> (al = true -> d = 0%nat -> r = 0 -> last = true) ->
  enter part (here, gone) = (here', gone') ->
  let st := fold_left ados_step (b ++ (end_out last s).1) (Some (cwd, [])) in
  (here' = [] /\ gone' = false /\ r = 1 /\ b = [] /\ end_out last s = (if last then ([COLON], 0) else ([], 1))) \/
  ((gone' = false -> here' <> []) /\ (end_out last s).2 = 0 /\
   (ados_end <$> st = if gone' then None else Some here') /\
   (last = false -> st = if gone' then None else Some (here', []))).
Proof.
  intros s (_ & Hp & Hr) Hlast He. subst s. cbn in *.
  destruct Hr as [(-> & -> & -> & -> & ->)|[(-> & -> & -> & -> & E)|(-> & Hl & E)]].
  - subst part. destruct (decide (2 < d)%nat) as [Hd|Hd].
    + rewrite enter_named in He by by apply named_dots. injection He as <- <-. right. unfold end_out. cbn.
      rewrite bool_decide_true by done. cbn.
      assert (fold_left ados_step (replicate d DOT ++ [COLON]) (Some (cwd, [])) = Some ([replicate d DOT], [])) as ->.
      { rewrite fold_left_app, ados_ordinary by apply dots_ordinary. by destruct d; [lia|]. }
      done.
    + left. unfold end_out. cbn. rewrite bool_decide_false by done. cbn.
      destruct d as [|[|[|d]]]; [..|lia]; injection He as <- <-; by destruct last.
  - destruct Hp as [-> Hp]. rewrite enter_named in He by done. injection He as <- <-. right. unfold end_out. cbn.
    rewrite (ados_app _ _ _ _ E). destruct (named_cons _ Hp) as (c & p & ->). done.
  - right. unfold end_out. cbn. destruct al.
    + subst part. destruct (decide (2 < d)%nat) as [Hd|Hd].
      * rewrite enter_named in He by by apply named_dots. injection He as <- <-. rewrite bool_decide_true by done. cbn.
        rewrite (bool_decide_false (d = 2%nat)), (bool_decide_false (d = 0%nat)) by lia. cbn.
        destruct last; cbn; rewrite (ados_app _ _ _ _ E); (split; [done|]); (split; [done|]);
          destruct gone; rewrite ?ados_None, ?fold_left_app, ?ados_None; try done;
          rewrite ados_ordinary by apply dots_ordinary; by destruct d; [lia|].
      * rewrite bool_decide_false by done. cbn.
        destruct d as [|[|[|d]]]; [..|lia]; cbn; injection He as <- <-.
        -- rewrite (Hlast eq_refl eq_refl eq_refl). cbn. rewrite app_nil_r, E. by destruct gone.
        -- rewrite app_nil_r, E. by destruct gone.
        -- rewrite (ados_app _ _ _ _ E). destruct gone; [done|].
           destruct here as [|x [|y here]]; [by destruct (Hl eq_refl)|done|].
           rewrite (proj2 (Z.eqb_neq #(x :: y :: here) 1)) by (cbn; lia). done.
    + destruct Hp as [-> Hp]. rewrite enter_named in He by done. injection He as <- <-. cbn.
      destruct (named_cons _ Hp) as (c & p & ->).
      destruct last; cbn; rewrite ?app_nil_r, ?(ados_app _ _ _ _ E), ?E; by destruct gone.
Qed.

Lemma sim_slash cwd s u :
  sim cwd s u -> ~ (allowdot s = true /\ dotcnt s = 0%nat /\ root s = 0) ->
  sim cwd (mk_cursor (buf s ++ (end_out false s).1) true 0 (end_out false s).2 (absados s)) (unix_step u SLASH).
Proof.
  destruct u as [[here gone] part], s as [b al d r ab]. intros Hs Hd. assert (ab = false) as -> by apply Hs.
  cbn [unix_step]. rewrite Z.eqb_refl. destruct (enter part (here, gone)) as [here' gone'] eqn:He.
  pose proof (end_out_spec cwd b al d r here gone part false _ _ Hs ltac:(naive_solver) He) as H.
  split; [done|]. split; [done|]. cbn [root buf allowdot].
  destruct H as [(-> & -> & -> & -> & E)|(H1 & H2 & _ & H3)].
  - left. by rewrite E.
  - right. right. auto.
Qed.

Lemma skip_slashes_walk q l : fold_left unix_step (skip_slashes q) (l, []) = fold_left unix_step q (l, []).
Proof.
  destruct l as [here gone]. induction q as [|c q IH]; cbn; [done|].
  destruct (c =? SLASH) eqn:Ec; [by rewrite IH|]. cbn. by rewrite Ec.
Qed.

Lemma skip_slashes_head q q' : skip_slashes q <> SLASH :: q'.
Proof. induction q as [|c q IH]; cbn; [done|]. destruct (Z.eqb_spec c SLASH); congruence. Qed.

Lemma skip_slashes_Forall P q : Forall P q -> Forall P (skip_slashes q).
Proof. induction 1 as [|c q Hc Hq IH]; cbn; [constructor|]. destruct (c =? SLASH); [done|by constructor]. Qed.

(** The name [b] denotes the place reached; ":" is the root. *)
Definition denotes (cwd : list str) (b : str) (l : list str * bool) : Prop :=
  let '(here, gone) := l in
  (here = [] /\ gone = false /\ b = [COLON]) \/
  ((gone = false -> here <> []) /\ ados_walk cwd b = if gone then None else Some here).

Lemma conv_end cwd s u : sim cwd s u -> denotes cwd (buf s ++ (end_out true s).1) (unix_end u).
Proof.
  destruct u as [[here gone] part], s as [b al d r ab]. intros Hs. assert (ab = false) as -> by apply Hs.
  cbn [unix_end]. destruct (enter part (here, gone)) as [here' gone'] eqn:He.
  destruct (end_out_spec cwd b al d r here gone part true _ _ Hs ltac:(done) He)
    as [(-> & -> & -> & -> & E)|(H1 & H2 & H3 & _)].
  - left. by rewrite E.
  - right. by split.
Qed.

Lemma conv_denotes cwd fuel q s u :
  (length q <= fuel)%nat -> Forall (.≠ COLON) q -> sim cwd s u ->
  (forall q', q = SLASH :: q' -> ~ (allowdot s = true /\ dotcnt s = 0%nat /\ root s = 0)) ->
  denotes cwd (conv fuel q s) (unix_end (fold_left unix_step q u)).
Proof.
  revert q s u. induction fuel as [|fuel IH]; intros [|c q] s u Hf Hq Hs Hh; try (cbn in Hf; lia).
  1, 2: by apply conv_end.
  apply Forall_cons in Hq as [Hc Hq]. cbn [length conv fold_left] in *.
  destruct (Z.eqb_spec c DOT) as [->|Hd]; [|destruct (Z.eqb_spec c SLASH) as [->|Hsl]].
  - apply IH; [lia|done|by apply sim_dot|]. destruct (allowdot s); cbn; naive_solver.
  - pose proof (sim_slash cwd s u Hs (Hh q eq_refl)) as Hs'.
    assert (exists l, unix_step u SLASH = (l, [])) as [l El] by (destruct u as [l p]; cbn; eauto).
    rewrite El in *. rewrite <- skip_slashes_walk.
    apply IH; [pose proof (skip_slashes_length q); lia|by apply skip_slashes_Forall|done|].
    intros q' E. by apply skip_slashes_head in E.
  - apply IH; [lia|done|by apply sim_plain|]. cbn. naive_solver.
Qed.

(** ** The end of ix_to_ados *)

Lemma trim_inv b : trim b = b \/
  exists t d, b = t ++ [d; SLASH] /\ trim b = t ++ [d] /\ t <> [] /\ ordinary d.
Proof.
  unfold trim. destruct (rev b) as [|c [|d [|e r]]] eqn:E; [by left..|].
  destruct (Z.eqb_spec c SLASH) as [->|]; [|by left].
  destruct (Z.eqb_spec d SLASH), (Z.eqb_spec d COLON); try by left. right.
  exists (rev (e :: r)), d. split_and!; try done; [|by cbn; intros ?%app_nil; naive_solver].
  rewrite <- (rev_involutive b), E. cbn. by rewrite <- !app_assoc.
Qed.

Lemma trim_length b : (length (trim b) <= length b)%nat.
Proof.
  destruct (trim_inv b) as [->|(t & d & -> & -> & _)]; [done|]. rewrite !length_app. cbn. lia.
Qed.

Lemma ados_step_ordinary st d : ordinary d -> ados_end <$> ados_step (ados_step st d) SLASH = ados_end <$> ados_step st d.
Proof.
  intros [H1 H2]. destruct st as [[here part]|]; [|done]. cbn.
  rewrite (proj2 (Z.eqb_neq d COLON)), (proj2 (Z.eqb_neq d SLASH)) by done. cbn.
  by destruct part.
Qed.

Lemma trim_walk cwd b : ados_walk cwd (trim b) = ados_walk cwd b.
Proof.
  destruct (trim_inv b) as [->|(t & d & -> & -> & _ & Hd)]; [done|]. unfold ados_walk.
  rewrite !fold_left_app. cbn [fold_left]. by rewrite ados_step_ordinary.
Qed.

Lemma trim_denotes cwd b l : denotes cwd b l -> denotes cwd (trim b) l.
Proof.
  destruct l as [here gone]. intros [(-> & -> & ->)|H]; [by left|right]. by rewrite trim_walk.
Qed.

Lemma strcpy_fits cap s : (length s < cap)%nat -> strcpy cap s = Some s.
Proof. intros. unfold strcpy. by rewrite decide_True. Qed.

Lemma devices_fits cap b : (length b < cap)%nat ->
  exists r, devices cap b = Some r /\ (length r <= length b)%nat.
Proof.
  intros Hb. unfold devices, strcasecmp, strcmp. case_bool_decide as Hc.
  { eexists. split; [done|]. apply (f_equal length) in Hc. rewrite !length_map in Hc. rewrite Hc. cbn. lia. }
  case_bool_decide as Hd; [|eauto].
  assert (length b = 4 + length (drop 4 b))%nat as Hl.
  { rewrite length_drop. apply (f_equal length) in Hd. rewrite length_take in Hd.
    change (length (lit "dev:")) with 4%nat in Hd. lia. }
  revert Hl. generalize (drop 4 b) as d. intros d Hl.
  assert (forall s t : str, d = s -> (length t <= 4 + length s)%nat -> exists r, strcpy cap t = Some r /\ (length r <= length b)%nat)
    as Hcp by (intros s t -> Ht; exists t; rewrite strcpy_fits by lia; split; [done|lia]).
  case_bool_decide as E1; [eexists; split; [done|]; rewrite Hl; cbn; lia|].
  case_bool_decide as E2; [apply (Hcp _ _ E2); cbn; lia|].
  match goal with |- context [if ?c then strcpy _ (lit "RANDOM:") else _] => destruct c eqn:E3 end.
  - rewrite !orb_true_iff, !bool_decide_eq_true in E3.
    destruct E3 as [[[E3|E3]|E3]|E3]; apply (Hcp _ _ E3); cbn; lia.
  - clear E3. case_bool_decide as E4; [apply (Hcp _ _ E4); cbn; lia|eauto].
Qed.

Lemma last_colon_None q : Forall (.≠ COLON) q -> last_colon q = None.
Proof. induction 1 as [|c q Hc Hq IH]; cbn; [done|]. rewrite IH. by rewrite (proj2 (Z.eqb_neq c COLON)). Qed.

Lemma last_colon_length q a b : last_colon q = Some (a, b) -> length q = S (length a + length b).
Proof.
  revert a b. induction q as [|c q IH]; intros a b; cbn; [done|].
  destruct (last_colon q) as [[a' b']|] eqn:E.
  - intros [= <- <-]. cbn. by rewrite (IH a' b' eq_refl).
  - destruct (c =? COLON); [|done]. by intros [= <- <-].
Qed.

Lemma back_length a : (length (back a) <= length a)%nat.
Proof.
  induction a as [|c a IH]; cbn; [done|]. destruct (existsb _ a); [lia|].
  by destruct ((c =? COLON) || (c =? SLASH)); cbn; lia.
Qed.

Lemma run_fits cap q s : (need s (length q) < cap)%nat ->
  (b ← convert cap (length q) q s; b ← strcpy cap (trim b); devices cap b)
    = devices cap (trim (conv (length q) q s)) /\
  exists t, devices cap (trim (conv (length q) q s)) = Some t /\ (length t <= need s (length q))%nat.
Proof.
  intros Hn. destruct (convert_fits cap (length q) q s) as [-> Hl]; [done|lia|].
  cbn [mbind option_bind]. set (b := conv _ _ _) in *. pose proof (trim_length b).
  rewrite strcpy_fits by lia. split; [done|].
  destruct (devices_fits cap (trim b)) as (t & -> & Ht); [lia|]. exists t. split; [done|lia].
Qed.

Lemma translate_fits cap r q : (length q + 2 <= cap)%nat ->
  exists t, translate cap r q = Some t /\ (length t <= length q + 1)%nat.
Proof.
  intros Hq. unfold translate, opening. destruct (last_colon q) as [[a b]|] eqn:E.
  - pose proof (last_colon_length _ _ _ E). pose proof (back_length a).
    rewrite strcpy_fits by (rewrite length_app; cbn; lia). cbn [mbind option_bind].
    destruct (run_fits cap b (mk_cursor (back a ++ [COLON]) true 0 0 true)) as (-> & t & Et & Ht);
      unfold need in *; cbn in *; rewrite length_app in *; cbn in *; [lia|]. exists t. split; [done|lia].
  - cbn [mbind option_bind]. set (s := mk_cursor [] true 0 r false).
    assert (need s (length q) <= length q + 1)%nat by (unfold need, colon_room; cbn; destruct (r =? 0); lia).
    destruct (run_fits cap q s) as (-> & t & Et & Ht); [lia|]. exists t. split; [done|lia].
Qed.

Lemma leading_length u name : (length (leading u name).2 <= length name)%nat.
Proof. unfold leading. destruct (u_is_root u), name as [|c q]; try done. destruct (c =? SLASH); cbn; lia. Qed.

Lemma ix_to_ados_total more u name :
  exists s, ix_to_ados (length name + (3 + more)) u name = Some s /\ (length s <= length name + 1)%nat.
Proof.
  unfold ix_to_ados. destruct (u_use_amiga_paths (the_user u)).
  { exists name. split; [apply strcpy_fits|]; lia. }
  pose proof (leading_length (the_user u) name). destruct (leading (the_user u) name) as [r q]. cbn in *.
  destruct (translate_fits (length name + S (S (S more))) r q) as (t & -> & Ht); [lia|]. exists t. split; [done|lia].
Qed.

Lemma translate_denotes cap r q start cwd :
  (length q + 2 <= cap)%nat -> Forall (.≠ COLON) q -> cwd <> [] ->
  (r = 1 /\ start = [] \/ r = 0 /\ start = cwd /\ forall q', q <> SLASH :: q') ->
  exists b, translate cap r q = devices cap b /\ denotes cwd b (unix_walk start q).
Proof.
  intros Hl Hq Hcwd Hr. unfold translate, opening. rewrite last_colon_None by done. cbn [mbind option_bind].
  set (s := mk_cursor [] true 0 r false).
  destruct (run_fits cap q s) as [-> _]; [unfold need, colon_room; cbn; destruct (r =? 0); lia|].
  eexists. split; [done|]. apply trim_denotes, conv_denotes; [done..| |].
  - split; [done|]. split; [done|]. destruct Hr as [[-> ->]|(-> & -> & _)]; [by left|by right; right].
  - intros q' ->. destruct Hr as [[-> _]|(_ & _ & H)]; [naive_solver|by destruct (H q')].
Qed.

Definition is_absolute (u : user) (name : str) : bool :=
  u_is_root (the_user u) || match name with c :: _ => c =? SLASH | [] => false end.

(** C9. In a process that does not use AmigaDOS names, a name without a colon is
    translated to one that denotes the same file: from the root if it starts with a slash
    or the current directory is the root, else from the current directory.  Where the
    UNIX name climbs out of its volume the translation is refused by AmigaDOS, and the
    root itself is ":".  What ix_to_ados returns is that translation after the table of
    devices, which replaces the names of /dev and console: only. *)
Theorem ix_to_ados_denotes u name cwd :
  u_use_amiga_paths (the_user u) = false -> Forall (.≠ COLON) name -> cwd <> [] ->
  exists b, ix_to_ados (length name + 4) u name = devices (length name + 4) b /\
    denotes cwd b (unix_walk (if is_absolute u name then [] else cwd) name).
Proof.
  intros Hu Hn Hcwd. unfold ix_to_ados, is_absolute, leading. rewrite Hu.
  destruct (u_is_root (the_user u)); cbn [orb]; [apply translate_denotes; auto; lia|].
  destruct name as [|c q]; [apply translate_denotes; auto; cbn; lia|].
  pose proof (Forall_inv_tail Hn) as Hq. destruct (Z.eqb_spec c SLASH) as [->|Hs].
  - apply (translate_denotes _ 1 q); auto. cbn. lia.
  - apply translate_denotes; auto; [cbn; lia|]. right. split_and!; [done..|]. intros q' [=]. done.
Qed.

(** ** Names that climb out of their volume

    The translation of a relative name and of the same name from the root run side
    by side: slashes in front of the first component, and a slash or a colon
    behind it. *)

Definition slashes (n : nat) : str := replicate n SLASH.

Definition paired (s1 s0 : cursor) : Prop :=
  allowdot s1 = allowdot s0 /\ dotcnt s1 = dotcnt s0 /\ absados s1 = false /\ absados s0 = false /\ root s0 = 0 /\
  exists n,
  (root s1 = 1 /\ allowdot s1 = true /\ buf s1 = [] /\ buf s0 = slashes n) \/
  (root s1 = 2 /\ allowdot s1 = false /\ dotcnt s1 = 0%nat /\
     exists v, v <> [] /\ Forall ordinary v /\ buf s1 = v /\ buf s0 = slashes n ++ v) \/
  (root s1 = 0 /\ exists v t, v <> [] /\ Forall ordinary v /\
     buf s1 = v ++ COLON :: t /\ buf s0 = slashes n ++ v ++ SLASH :: t).

Definition volume_of (b1 b0 : str) (n : nat) : Prop :=
  (b1 = [COLON] /\ b0 = slashes n) \/
  exists v, v <> [] /\ Forall ordinary v /\
    ((b1 = v ++ [COLON] /\ b0 = slashes n ++ v) \/
     exists t, b1 = v ++ COLON :: t /\ b0 = slashes n ++ v ++ SLASH :: t).

Lemma slashes_S n : slashes n ++ [SLASH] = slashes (S n).
Proof. unfold slashes. by rewrite <- replicate_S_end. Qed.

Lemma paired_dot s1 s0 : paired s1 s0 ->
  let f s := if allowdot s then mk_cursor (buf s) true (S (dotcnt s)) (root s) (absados s)
             else mk_cursor (buf s ++ [DOT]) false (dotcnt s) (root s) (absados s) in
  paired (f s1) (f s0).
Proof.
  destruct s1 as [b1 al d r1 ab1], s0 as [b0 al0 d0 r0 ab0]; unfold paired; cbn.
  intros (<- & <- & -> & -> & -> & n & H). destruct al; cbn; split_and!; try done; exists n.
  - intuition done.
  - destruct H as [(? & ? & ?)|[(-> & _ & -> & v & Hv & Hf & -> & ->)|(-> & v & t & Hv & Hf & -> & ->)]]; [done|..].
    + right. left. split_and!; try done. exists (v ++ [DOT]). split_and!; [by destruct v| |done|by rewrite app_assoc].
      apply Forall_app. split; [done|]. by apply Forall_singleton.
    + right. right. split; [done|]. exists v, (t ++ [DOT]). by rewrite <- !app_assoc.
Qed.

Lemma paired_plain s1 s0 c : ordinary c -> paired s1 s0 ->
  let f s := mk_cursor (buf s ++ replicate (dotcnt s) DOT ++ [c]) false 0 (if root s =? 1 then 2 else root s) false in
  paired (f s1) (f s0).
Proof.
  intros Hc. destruct s1 as [b1 al d r1 ab1], s0 as [b0 al0 d0 r0 ab0]; unfold paired; cbn.
  intros (<- & <- & -> & -> & -> & n & H). split_and!; try done. exists n.
  assert (Forall ordinary (replicate d DOT ++ [c])) as Hf'.
  { apply Forall_app. split; [apply dots_ordinary|]. by apply Forall_singleton. }
  destruct H as [(-> & _ & -> & ->)|[(-> & _ & -> & v & Hv & Hf & -> & ->)|(-> & v & t & Hv & Hf & -> & ->)]].
  - right. left. split_and!; try done. exists (replicate d DOT ++ [c]). split_and!; try done. by destruct d.
  - right. left. split_and!; try done. exists (v ++ [c]). split_and!; [by destruct v| |done|by rewrite <- app_assoc].
    apply Forall_app. split; [done|]. by apply Forall_singleton.
  - right. right. split; [done|]. exists v, (t ++ replicate d DOT ++ [c]). by rewrite <- !app_assoc.
Qed.

Lemma paired_slash s1 s0 :
  paired s1 s0 -> ~ (allowdot s0 = true /\ dotcnt s0 = 0%nat) ->
  let f s := mk_cursor (buf s ++ (end_out false s).1) true 0 (end_out false s).2 (absados s) in
  paired (f s1) (f s0).
Proof.
  destruct s1 as [b1 al d r1 ab1], s0 as [b0 al0 d0 r0 ab0]; unfold paired; cbn.
  intros (<- & <- & -> & -> & -> & n & H) Hd.
  destruct H as [(-> & -> & -> & ->)|[(-> & -> & -> & v & Hv & Hf & -> & ->)|(-> & v & t & Hv & Hf & -> & ->)]].
  - unfold end_out. cbn. destruct (decide (2 < d)%nat) as [H2|H2].
    + rewrite !(bool_decide_true (2 < d)%nat) by done. cbn.
      rewrite (bool_decide_false (d = 2%nat)), (bool_decide_false (d = 0%nat)) by lia. cbn.
      split_and!; try done. exists n. right. right. split; [done|]. exists (replicate d DOT), [].
      split_and!; try done; [by destruct d; [lia|]|apply dots_ordinary].
    + rewrite !(bool_decide_false (2 < d)%nat) by done. cbn.
      destruct d as [|[|[|d]]]; [by destruct Hd| | |lia]; cbn; split_and!; try done.
      * exists n. left. by rewrite app_nil_r.
      * exists (S n). left. by rewrite slashes_S.
  - unfold end_out. cbn. split_and!; try done. exists n. right. right. split; [done|].
    exists v, []. by rewrite <- app_assoc.
  - assert (end_out false (mk_cursor (v ++ COLON :: t) al d 0 false) =
            end_out false (mk_cursor (slashes n ++ v ++ SLASH :: t) al d 0 false)) as E by done.
    rewrite E. set (o := end_out _ (mk_cursor (slashes n ++ _) _ _ _ _)).
    assert (o.2 = 0) as -> by (unfold o, end_out; cbn; by repeat case_bool_decide).
    split_and!; try done. exists n. right. right. split; [done|]. exists v, (t ++ o.1).
    by rewrite <- !app_assoc.
Qed.

Lemma paired_end s1 s0 : paired s1 s0 ->
  exists n, volume_of (buf s1 ++ (end_out true s1).1) (buf s0 ++ (end_out true s0).1) n.
Proof.
  destruct s1 as [b1 al d r1 ab1], s0 as [b0 al0 d0 r0 ab0]; unfold paired; cbn.
  intros (<- & <- & -> & -> & -> & n & H).
  destruct H as [(-> & -> & -> & ->)|[(-> & -> & -> & v & Hv & Hf & -> & ->)|(-> & v & t & Hv & Hf & -> & ->)]].
  - unfold end_out. cbn. destruct (decide (2 < d)%nat) as [H2|H2].
    + rewrite !(bool_decide_true (2 < d)%nat) by done. cbn.
      rewrite (bool_decide_false (d = 2%nat)), (bool_decide_false (d = 0%nat)) by lia. cbn.
      exists n. right. exists (replicate d DOT). split_and!; [by destruct d; [lia|]|apply dots_ordinary|by left].
    + rewrite !(bool_decide_false (2 < d)%nat) by done. cbn.
      destruct d as [|[|[|d]]]; [| | |lia]; cbn; [exists n|exists n|exists (S n)]; left;
        rewrite ?app_nil_r, ?slashes_S; done.
  - exists n. right. exists v. unfold end_out. cbn. rewrite app_nil_r. split_and!; try done. by left.
  - exists n. right. exists v. split_and!; try done. right.
    exists (t ++ (end_out true (mk_cursor (v ++ COLON :: t) al d 0 false)).1). by rewrite <- !app_assoc.
Qed.

Lemma conv_volume_of fuel q s1 s0 :
  (length q <= fuel)%nat -> Forall (.≠ COLON) q -> paired s1 s0 ->
  (forall q', q = SLASH :: q' -> ~ (allowdot s0 = true /\ dotcnt s0 = 0%nat)) ->
  exists n, volume_of (conv fuel q s1) (conv fuel q s0) n.
Proof.
  revert q s1 s0. induction fuel as [|fuel IH]; intros [|c q] s1 s0 Hf Hq Hs Hh; try (cbn in Hf; lia).
  1, 2: by apply paired_end.
  apply Forall_cons in Hq as [Hc Hq]. cbn [length conv] in *.
  destruct (Z.eqb_spec c DOT) as [->|Hd]; [|destruct (Z.eqb_spec c SLASH) as [->|Hsl]].
  - apply IH; [lia|done|by apply paired_dot|]. destruct (allowdot s0); cbn; naive_solver.
  - apply IH; [pose proof (skip_slashes_length q); lia|by apply skip_slashes_Forall| |].
    + apply paired_slash; [done|by apply (Hh q)].
    + intros q' E. by apply skip_slashes_head in E.
  - apply IH; [lia|done|by apply paired_plain|]. cbn. naive_solver.
Qed.

Lemma trim_snoc x d c : trim (x ++ [d; c]) =
  if (c =? SLASH) && negb (d =? SLASH) && negb (d =? COLON) && negb (bool_decide (x = [])) then x ++ [d] else x ++ [d; c].
Proof.
  unfold trim. rewrite rev_app_distr. cbn. destruct (rev x) as [|e r] eqn:E.
  - assert (x = []) as -> by (rewrite <- (rev_involutive x), E; done). cbn. by rewrite andb_false_r.
  - assert (x = rev r ++ [e]) as -> by (rewrite <- (rev_involutive x), E; done).
    rewrite bool_decide_false by (by intros ?%app_nil; naive_solver). rewrite andb_true_r.
    destruct ((c =? SLASH) && negb (d =? SLASH) && negb (d =? COLON)); [|done]. cbn. done.
Qed.

Lemma list_snoc (l : str) : l <> [] -> exists x d, l = x ++ [d].
Proof. destruct l as [|d x _] using rev_ind; [done|eauto]. Qed.

(** A slash at the end is removed from both or from neither. *)
Lemma volume_of_trim b1 b0 n : volume_of b1 b0 (S n) -> volume_of (trim b1) (trim b0) (S n).
Proof.
  intros [[-> ->]|(v & Hv & Hf & H)].
  - left. split; [done|]. destruct n as [|n]; [done|].
    assert (slashes (S (S n)) = slashes n ++ [SLASH; SLASH]) as -> by (rewrite <- !slashes_S; by rewrite <- app_assoc).
    by rewrite trim_snoc.
  - right. exists v. split_and!; [done..|]. destruct (list_snoc v Hv) as (x & d & ->).
    apply Forall_app in Hf as [Hx Hd]. apply Forall_singleton in Hd as [Hd1 Hd2].
    apply Z.eqb_neq in Hd1, Hd2.
    assert (forall y : str, slashes (S n) ++ y <> []) as Hne by done.
    destruct H as [[-> ->]|(t & -> & ->)].
    + left. rewrite <- app_assoc. cbn [app]. rewrite trim_snoc. cbn [andb Z.eqb COLON SLASH].
      split; [done|]. destruct (list_snoc _ (Hne x)) as (y & e & E).
      rewrite app_assoc, E, <- app_assoc. cbn [app]. by rewrite trim_snoc, Hd1.
    + destruct t as [|e t _] using rev_ind.
      * left. rewrite <- !app_assoc. cbn [app]. rewrite trim_snoc. split; [done|].
        rewrite app_assoc, trim_snoc, Hd1, Hd2, bool_decide_false by done. by rewrite <- app_assoc.
      * destruct t as [|f t _] using rev_ind.
        -- right. exists [e]. rewrite <- !app_assoc. cbn [app].
           replace (x ++ [d; COLON; e]) with ((x ++ [d]) ++ [COLON; e]) by by rewrite <- app_assoc.
           replace (slashes (S n) ++ x ++ [d; SLASH; e]) with ((slashes (S n) ++ x ++ [d]) ++ [SLASH; e])
             by by rewrite <- !app_assoc.
           rewrite !trim_snoc. cbn. rewrite !andb_false_r. cbn. by rewrite <- !app_assoc.
        -- right. exists (if (e =? SLASH) && negb (f =? SLASH) && negb (f =? COLON) then t ++ [f] else t ++ [f; e]).
           replace ((x ++ [d]) ++ COLON :: (t ++ [f]) ++ [e]) with ((x ++ d :: COLON :: t) ++ [f; e])
             by by rewrite <- !app_assoc; cbn; rewrite <- ?app_assoc.
           replace (slashes (S n) ++ (x ++ [d]) ++ SLASH :: (t ++ [f]) ++ [e])
             with ((slashes (S n) ++ x ++ d :: SLASH :: t) ++ [f; e])
             by by rewrite <- !app_assoc; cbn; rewrite <- ?app_assoc.
           rewrite !trim_snoc, !bool_decide_false by (done || by destruct x). rewrite !andb_true_r.
           destruct ((e =? SLASH) && negb (f =? SLASH) && negb (f =? COLON));
             rewrite <- !app_assoc; done.
Qed.

Definition leading_slashes (b : str) : nat := (length b - length (skip_slashes b))%nat.

Lemma skip_slashes_app n b : skip_slashes (slashes n ++ b) = skip_slashes b.
Proof. by induction n. Qed.

Lemma skip_ordinary v b : v <> [] -> Forall ordinary v -> skip_slashes (v ++ b) = v ++ b.
Proof. intros Hv Hf. destruct v as [|c v]; [done|]. apply Forall_inv in Hf as [Hc _]. cbn. by rewrite (proj2 (Z.eqb_neq _ _) Hc). Qed.

Lemma to_volume_slash v t old : Forall ordinary v ->
  to_volume (v ++ SLASH :: t) old = Some (mk_cbuf (v ++ COLON :: t) old).
Proof.
  induction 1 as [|c v [Hc _] Hv IH]; [done|]. cbn. rewrite (proj2 (Z.eqb_neq _ _) Hc), IH. done.
Qed.

Lemma to_volume_end v x old : Forall ordinary v -> to_volume v (x :: old) = Some (mk_cbuf (v ++ [COLON]) old).
Proof.
  induction 1 as [|c v [Hc _] Hv IH]; [done|]. cbn. rewrite (proj2 (Z.eqb_neq _ _) Hc), IH. done.
Qed.

(** What check_root makes of a name once the root is reached. *)
Lemma volume_of_rest b1 b0 n old :
  volume_of b1 b0 n -> old <> [] ->
  leading_slashes b0 = n /\
  match skip_slashes b0 with
  | [] => b1 = [COLON]
  | c :: rest => c <> SLASH /\ exists v, to_volume rest old = Some v /\ c :: chars v = b1
  end.
Proof.
  intros H Ho. unfold leading_slashes. destruct old as [|o old]; [done|].
  destruct H as [[-> ->]|(v & Hv & Hf & H)].
  - rewrite <- (app_nil_r (slashes n)), skip_slashes_app, app_nil_r. cbn.
    unfold slashes. rewrite length_replicate. split; [lia|done].
  - assert (forall t, length (slashes n ++ v ++ t) - length (v ++ t) = n)%nat as Hl.
    { intros t. unfold slashes. rewrite !length_app, length_replicate. lia. }
    destruct v as [|c v]; [done|]. pose proof (Forall_inv Hf) as [Hc _]. pose proof (Forall_inv_tail Hf) as Hf'.
    destruct H as [[-> ->]|(t & -> & ->)]; rewrite skip_slashes_app.
    + rewrite <- (app_nil_r (c :: v)) at 1 2 3. rewrite skip_ordinary by done.
      split; [apply Hl|]. cbn. rewrite app_nil_r, to_volume_end by done. split; [done|]. eexists. split; done.
    + rewrite skip_ordinary by done. split; [apply Hl|]. cbn. rewrite to_volume_slash by done.
      split; [done|]. eexists. split; done.
Qed.

Lemma conv_no_colon fuel q s :
  root s = 0 -> Forall (.≠ COLON) (buf s) -> Forall (.≠ COLON) q -> Forall (.≠ COLON) (conv fuel q s).
Proof.
  assert (forall l s, root s = 0 -> Forall (.≠ COLON) (end_out l s).1 /\ (end_out l s).2 = 0) as He.
  { intros l [b al d r ab]. cbn. intros ->. unfold end_out. cbn.
    destruct (bool_decide _); cbn; destruct (_ && _); cbn; split; try done;
      rewrite ?Forall_app; try (by repeat constructor); try (split; [|by repeat constructor]);
      by apply Forall_replicate. }
  revert q s. induction fuel as [|fuel IH]; intros [|c q] s Hr Hb Hq; cbn; try done.
  1, 2: apply Forall_app; split; [done|by apply He].
  apply Forall_cons in Hq as [Hc Hq].
  destruct (c =? DOT); [|destruct (c =? SLASH)].
  - destruct (allowdot s); apply IH; cbn; try done. apply Forall_app. split; [done|by repeat constructor].
  - apply IH; cbn; [by apply He| |by apply skip_slashes_Forall]. apply Forall_app. split; [done|by apply He].
  - apply IH; cbn; [by rewrite Hr| |done]. rewrite !Forall_app. split_and!; [done|by apply Forall_replicate|].
    by repeat constructor.
Qed.

Lemma tolower_colon c : Dir.tolower c = COLON -> c = COLON.
Proof. unfold Dir.tolower, COLON. destruct (Z.leb_spec 65 c), (Z.leb_spec c 90); cbn; lia. Qed.

Lemma devices_no_colon cap b : Forall (.≠ COLON) b -> devices cap b = Some b.
Proof.
  intros Hb. assert (COLON ∉ b) as Hn by (intros H; eapply Forall_forall in Hb; [|exact H]; done).
  unfold devices, strcasecmp, strcmp. rewrite !bool_decide_false; [done| |].
  - intros E. apply Hn. rewrite <- (take_drop 4 b). apply elem_of_app. left. rewrite E. cbn. set_solver.
  - intros E. assert (COLON ∈ map Dir.tolower b) as H by (rewrite E; cbn; set_solver).
    apply list_elem_of_fmap in H as (c & Ec & Hin). by rewrite <- (tolower_colon c (eq_sym Ec)) in Hn.
Qed.

Lemma trim_Forall P b : Forall P b -> Forall P (trim b).
Proof.
  destruct (trim_inv b) as [->|(t & d & -> & -> & _)]; [done|].
  rewrite !Forall_app. intros [? [? _]%Forall_cons]. split; [done|by constructor].
Qed.

(** A relative name and the same name from the root. *)
Lemma relative_volume_of u name :
  u_use_amiga_paths (the_user u) = false -> is_absolute u name = false -> Forall (.≠ COLON) name ->
  exists b0 b1 n,
    ix_to_ados (length name + 4) u name = Some b0 /\
    ix_to_ados (length (SLASH :: name) + 4) u (SLASH :: name) = devices (length (SLASH :: name) + 4) b1 /\
    (volume_of b1 b0 (S n) \/ leading_slashes b0 = 0%nat).
Proof.
  intros Hu Ha Hn. unfold is_absolute in Ha. apply orb_false_iff in Ha as [Hr Hs].
  unfold ix_to_ados. rewrite Hu. unfold leading. rewrite Hr, Z.eqb_refl.
  assert ((match name with [] => (0, name) | c :: q => if c =? SLASH then (1, q) else (0, name) end) = (0, name)) as ->
    by (destruct name; [done|]; by rewrite Hs).
  unfold translate, opening. rewrite last_colon_None by done. cbn [mbind option_bind].
  set (s0 := mk_cursor [] true 0 0 false). set (s1 := mk_cursor [] true 0 1 false).
  destruct (run_fits (length name + 4) name s0) as [-> _]; [unfold need, colon_room; cbn; lia|].
  destruct (run_fits (length (SLASH :: name) + 4) name s1) as [-> _]; [unfold need, colon_room; cbn; lia|].
  rewrite devices_no_colon by by apply trim_Forall, conv_no_colon.
  eexists _, _. set (b0 := conv _ _ s0). set (b1 := conv _ _ s1).
  destruct (conv_volume_of (length name) name s1 s0) as (n & H); [done..| | |].
  { split_and!; try done. exists 0%nat. by left. }
  { intros q' ->. by cbn in Hs. }
  destruct n as [|n].
  - exists 0%nat. split_and!; [done..|]. right.
    assert (leading_slashes b0 = 0%nat) as H0 by apply (volume_of_rest b1 b0 0 [0] H ltac:(done)).
    unfold leading_slashes in *. fold b0.
    destruct (trim_inv b0) as [->|(t & d & E & -> & Ht & _)]; [done|]. rewrite E in H0.
    destruct t as [|c t]; [done|]. cbn in *. destruct (c =? SLASH); [|cbn; lia].
    pose proof (skip_slashes_length (t ++ [d; SLASH])). pose proof (skip_slashes_length (t ++ [d])). cbn in *. lia.
  - exists n. split_and!; [done..|]. left. by apply volume_of_trim.
Qed.

(** ** check_root *)

Section Locks.
Context {W : Type} `{!PathOps W}.

(** [held]: the locks that are open, with the number of directories above each;
    [cur]: the lock of the current directory. *)
Class PathLaws (held : W -> gmap Z nat) (cur : W -> Z) := {
  law_current l w : exists w', p_CurrentDir l w = (cur w, w') /\ held w' = held w /\ cur w' = l;
  law_dup l w d : held w !! l = Some d ->
    exists l' w', p_DupLock l w = (l', w') /\ l' <> 0 /\ held w !! l' = None /\
      held w' = <[l' := d]> (held w) /\ cur w' = cur w;
  law_parent l w d : held w !! l = Some (S d) ->
    exists l' w', p_ParentDir l w = (l', w') /\ l' <> 0 /\ held w !! l' = None /\
      held w' = <[l' := d]> (held w) /\ cur w' = cur w;
  law_top l w : held w !! l = Some 0%nat ->
    exists w', p_ParentDir l w = (0, w') /\ held w' = held w /\ cur w' = cur w;
  law_unlock l w : held (p_UnLock l w) = delete l (held w) /\ cur (p_UnLock l w) = cur w;
  law_lock win s mode w : exists l w', p_Lock win s mode w = (l, w') /\ cur w' = cur w /\
    (l = 0 /\ held w' = held w \/ l <> 0 /\ held w !! l = None /\ exists d, held w' = <[l := d]> (held w));
  law_open win s action w : exists fh w', p_Open win s action w = (fh, w') /\ held w' = held w /\ cur w' = cur w;
  law_error e w : p_IoErr (p_SetIoErr e w) = e /\ held (p_SetIoErr e w) = held w /\ cur (p_SetIoErr e w) = cur w
}.

Context {held : W -> gmap Z nat} {cur : W -> Z} `{!PathLaws held cur}.

Lemma ascend_spec b w dir d :
  held w !! dir = Some d ->
  exists dir' w', ascend b dir w = (bool_decide (d < leading_slashes b)%nat,
      (if bool_decide (d < leading_slashes b)%nat then drop (S d) b else skip_slashes b), dir', w') /\
    held w' !! dir' <> None /\ delete dir' (held w') = delete dir (held w) /\ cur w' = cur w.
Proof.
  revert w dir d. induction b as [|c b IH]; intros w dir d Hd; cbn.
  { exists dir, w. unfold leading_slashes. cbn. split_and!; try done. congruence. }
  unfold leading_slashes. cbn [skip_slashes]. destruct (c =? SLASH) eqn:Ec.
  2:{ rewrite bool_decide_false by (cbn; lia). exists dir, w. split_and!; try done. congruence. }
  assert (S (length b) - length (skip_slashes b) = S (leading_slashes b))%nat as ->.
  { unfold leading_slashes. pose proof (skip_slashes_length b). cbn. lia. }
  destruct d as [|d].
  - destruct (law_top dir w Hd) as (w1 & -> & Hh & Hc). rewrite Z.eqb_refl.
    rewrite bool_decide_true by lia. exists dir, w1. split_and!; try done; [|by rewrite Hh].
    rewrite Hh. congruence.
  - destruct (law_parent dir w d Hd) as (l & w1 & -> & Hl & Hn & Hh & Hc).
    rewrite (proj2 (Z.eqb_neq l 0)) by done.
    destruct (law_unlock dir w1) as [Hu Hcu]. assert (dir <> l) as Hne by (intros ->; congruence).
    destruct (IH (p_UnLock dir w1) l d) as (dir' & w' & -> & Hin & Hdel & Hcur).
    { rewrite Hu, Hh, lookup_delete_ne, lookup_insert_eq by done. done. }
    exists dir', w'. split_and!; try done.
    + do 3 f_equal; [f_equal|]; repeat case_bool_decide; try done; lia.
    + rewrite Hdel, Hu, Hh, delete_delete, delete_insert_id; done.
    + congruence.
Qed.

Lemma skip_drop k b : (k <= leading_slashes b)%nat -> skip_slashes (drop k b) = skip_slashes b.
Proof.
  revert b. induction k as [|k IH]; intros [|c b]; try done. unfold leading_slashes. cbn.
  destruct (c =? SLASH); [|cbn; lia]. intros H. apply IH. unfold leading_slashes. pose proof (skip_slashes_length b). lia.
Qed.

(** What check_root does, and that it gives back every lock it takes. *)
Lemma check_root_spec b old w d :
  held w !! cur w = Some d ->
  exists w', held w' = held w /\ cur w' = cur w /\
  check_root (mk_cbuf b old) w =
    if bool_decide (d < leading_slashes b)%nat then
      match skip_slashes b with
      | [] => Ret (Some (mk_cbuf [] old)) w'
      | c :: rest => let? v := to_volume rest old in Ret (Some (mk_cbuf (c :: chars v) (stale v))) w'
      end
    else Ret None w'.
Proof.
  intros Hd. unfold check_root. cbn [chars stale].
  destruct b as [|c b]; [exists w; rewrite bool_decide_false by (cbn; lia); done|].
  destruct (c =? SLASH) eqn:Ec.
  2:{ exists w. unfold leading_slashes. cbn [skip_slashes]. rewrite Ec, bool_decide_false by lia. done. }
  destruct (law_current 0 w) as (w1 & -> & Hh1 & Hc1).
  destruct (law_dup (cur w) w1 d) as (l & w2 & -> & Hl & Hn & Hh2 & Hc2); [by rewrite Hh1|].
  destruct (law_current (cur w) w2) as (w3 & -> & Hh3 & Hc3).
  destruct (ascend_spec (c :: b) w3 l d) as (dir & w4 & -> & Hin & Hdel & Hc4).
  { by rewrite Hh3, Hh2, lookup_insert_eq. }
  destruct (law_unlock dir w4) as [Hh5 Hc5]. exists (p_UnLock dir w4).
  split_and!.
  - rewrite Hh5, Hdel, Hh3, Hh2, Hh1 in *. by rewrite delete_insert_id.
  - congruence.
  - case_bool_decide as Hlt; [|done]. cbn [negb]. rewrite skip_drop by lia. done.
Qed.

(** A relative name that climbs above its volume leads to the root, which
    AmigaDOS does not have: its translation starts with more slashes than there are
    directories above the current one.  check_root then returns what the same name
    is from the root ([/../..] being [/]), the empty string for the root itself; it
    refuses every other name.  The locks it takes on the way are given back and the
    current directory is the same. *)
Theorem check_root_absolute u name old w d :
  u_use_amiga_paths (the_user u) = false -> is_absolute u name = false -> Forall (.≠ COLON) name ->
  held w !! cur w = Some d -> old <> [] ->
  exists b w', ix_to_ados (length name + 4) u name = Some b /\ held w' = held w /\ cur w' = cur w /\
    if bool_decide (d < leading_slashes b)%nat then
      exists r b1, check_root (mk_cbuf b old) w = Ret (Some r) w' /\
        ix_to_ados (length (SLASH :: name) + 4) u (SLASH :: name) = devices (length (SLASH :: name) + 4) b1 /\
        (if decide (b1 = [COLON]) then chars r = [] else chars r = b1)
    else check_root (mk_cbuf b old) w = Ret None w'.
Proof.
  intros Hu Ha Hn Hd Ho. destruct (relative_volume_of u name Hu Ha Hn) as (b & b1 & n & Eb & E1 & Hv).
  destruct (check_root_spec b old w d Hd) as (w' & Hh & Hc & E). exists b, w'. split_and!; [done..|].
  case_bool_decide as Hlt; [|done]. destruct Hv as [Hv|]; [|lia].
  destruct (volume_of_rest b1 b (S n) old Hv Ho) as [_ Hr].
  destruct (skip_slashes b) as [|c rest] eqn:Es.
  - subst b1. eexists _, [COLON]. split_and!; [done..|]. by rewrite decide_True.
  - destruct Hr as (Hc' & v & Et & <-). rewrite Et in E. eexists _, (c :: chars v). split_and!; [done..|].
    rewrite decide_False; [done|]. intros [= -> Hc0]. clear -Hv Hc0 Es Et.
    destruct Hv as [[E1 ->]|(v' & Hv' & Hf & Hb)].
    + rewrite <- (app_nil_r (slashes (S n))), skip_slashes_app in Es. done.
    + assert (COLON :: chars v = [COLON]) as E1 by by rewrite Hc0. rewrite E1 in Hb.
      destruct v' as [|x v']; [done|]. pose proof (Forall_inv Hf) as [_ Hx].
      destruct Hb as [[Hb _]|(t & Hb & _)]; injection Hb as Hb _; done.
Qed.

(** ** is_pseudoterminal and __lock *)

Lemma memory_char b s k c : (b ++ 0 :: s) !! k = Some c -> (k <= length b)%nat -> c <> 0 -> (S k <= length b)%nat.
Proof.
  intros E Hk Hc. destruct (decide (k = length b)) as [->|]; [|lia].
  rewrite lookup_app_r, Nat.sub_diag in E by lia. by injection E as <-.
Qed.

Lemma memory_prefix b s p : take (length p) (b ++ 0 :: s) = p -> Forall (.≠ 0) p -> (length p <= length b)%nat.
Proof.
  intros E Hp. destruct (decide (length p <= length b)%nat) as [|Hl]; [done|exfalso].
  assert (p !! length b = Some 0) as H0.
  { rewrite <- E, lookup_take_lt by lia. by rewrite lookup_app_r, Nat.sub_diag by lia. }
  eapply Forall_lookup_1 in Hp; [|exact H0]. done.
Qed.

Lemma guard_safe b s (k : nat) P body :
  (k <= length b)%nat -> P 0 = false -> ((S k <= length b)%nat -> is_Some body) ->
  is_Some (guard (b ++ 0 :: s) (Z.of_nat k) P body).
Proof.
  intros Hk HP Hb. unfold guard. destruct (aget_is_Some (b ++ 0 :: s) (Z.of_nat k)) as [c Ec].
  { rewrite length_app. cbn. lia. }
  rewrite Ec. cbn. destruct (P c) eqn:EP; [|done]. apply Hb.
  unfold aget in Ec. rewrite (proj2 (Z.leb_le _ _)), Nat2Z.id in Ec by lia.
  eapply memory_char; [done..|]. intros ->. congruence.
Qed.

(** The checks stay inside the buffer when it has a byte behind the final 0. *)
Lemma is_pseudoterminal_safe b s : s <> [] -> is_Some (is_pseudoterminal (b ++ 0 :: s)).
Proof.
  intros Hs. assert (forall i b, (4 <= length b)%nat ->
    is_Some (guard (b ++ 0 :: s) 4 (fun c => (c =? ch_p) || (c =? ch_t))
      (guard (b ++ 0 :: s) 5 (fun c => c =? ch_t)
      (guard (b ++ 0 :: s) 6 (fun c => c =? ch_y)
      (guard (b ++ 0 :: s) 7 (fun c => (ch_p <=? c) && (c <=? ch_u))
      (guard (b ++ 0 :: s) 8 (strchr (lit "0123456789abcdef"))
      (guard (b ++ 0 :: s) 9 (fun c => c =? 0) (Some (i + 4))))))))) as Hg.
  { clear b. intros i b Hb. apply (guard_safe b s 4); [lia|done|]. intros. apply (guard_safe b s 5); [lia|done|].
    intros. apply (guard_safe b s 6); [lia|done|]. intros. apply (guard_safe b s 7); [lia|done|]. intros Hb8.
    assert (10 <= length (b ++ 0%Z :: s))%nat as Hl.
    { rewrite length_app. destruct s; [done|]. cbn. lia. }
    unfold guard. destruct (aget_is_Some (b ++ 0 :: s) 8) as [c ->]; [lia|].
    destruct (aget_is_Some (b ++ 0 :: s) 9) as [c' ->]; [lia|]. cbn.
    destruct (strchr _ c); [|done]. by destruct (c' =? 0). }
  unfold is_pseudoterminal, strcmp. case_bool_decide as H1; cbn [orb].
  - pose proof (memory_prefix b s (lit "/dev/") H1 ltac:(by repeat constructor)) as Hl.
    destruct b as [|c b]; [cbn in Hl; lia|]. apply Hg. cbn in Hl. lia.
  - case_bool_decide as H2; [|done]. apply Hg.
    apply (memory_prefix b s (lit "dev:") H2). by repeat constructor.
Qed.

Lemma ados_in_ok more u old name :
  exists b, ados_in (3 + more) u old name = Some b /\ (length (chars b) <= length name + 1)%nat /\ (1 + more <= length (stale b))%nat.
Proof.
  unfold ados_in. destruct (ix_to_ados_total more u name) as (b & -> & Hb). eexists. split; [done|]. split; [done|].
  cbn [stale]. rewrite length_map, length_seq. lia.
Qed.

Lemma ados_name_ok u old name : exists b, ados_name u old name = Some b /\ (2 <= length (stale b))%nat.
Proof. destruct (ados_in_ok 1 u old name) as (b & E & _ & Hb). by exists b. Qed.

Lemma to_volume_safe s old : old <> [] -> is_Some (to_volume s old).
Proof.
  intros Ho. destruct old as [|o old]; [done|]. induction s as [|c s [v IH]]; cbn; [done|].
  destruct (c =? SLASH); [done|]. rewrite IH. done.
Qed.

(** C34. The buffer a caller of ix_to_ados allocates, of strlen + 4 bytes or, in readlink,
    __make_link and chmod, of strlen + 3, is large enough for every name and every
    process: the translation is at most one byte longer than the name,
    is_pseudoterminal, which looks behind the final 0, stays in the buffer, and so does
    the colon check_root may add. *)
Theorem ix_to_ados_fits more u old name :
  exists b, ados_in (3 + more) u old name = Some b /\ (length (chars b) <= length name + 1)%nat /\
    is_Some (is_pseudoterminal (memory b)) /\ forall s, is_Some (to_volume s (stale b)).
Proof.
  destruct (ados_in_ok more u old name) as (b & E & Hl & Hb). exists b. split; [done|].
  assert (stale b <> []) as Hs by (destruct (stale b); [cbn in Hb; lia|done]). split_and!; [done| |].
  - by apply is_pseudoterminal_safe.
  - intros s'. by apply to_volume_safe.
Qed.

Lemma is_special_name_spec b (t : task W) : (1 <= length (stale b))%nat ->
  exists r t', is_special_name b t = Ret r t' /\ pr_WindowPtr t' = pr_WindowPtr t /\
    held (dos t') = held (dos t) /\ cur (dos t') = cur (dos t).
Proof.
  intros Hs. unfold is_special_name, memory.
  destruct (is_pseudoterminal_safe (chars b) (stale b)) as [p ->]; [by destruct (stale b); [cbn in Hs; lia|]|].
  assert (forall e, held (dos (SetIoErr e t)) = held (dos t) /\ cur (dos (SetIoErr e t)) = cur (dos t)) as He
    by (intros e; apply law_error).
  destruct (strcasecmp _ _); [|destruct (negb (p =? 0)); [|destruct (strcmp _ _)]];
    (do 2 eexists; split; [done|]; split; [done|]; done || apply He).
Qed.

(** check_root returns, whatever the name. *)
Lemma check_root_safe b w d : held w !! cur w = Some d -> stale b <> [] ->
  exists r w', check_root b w = Ret r w' /\ held w' = held w /\ cur w' = cur w.
Proof.
  intros Hd Hs. destruct b as [b old]. destruct (check_root_spec b old w d Hd) as (w' & Hh & Hc & ->).
  case_bool_decide; [|by eauto]. destruct (skip_slashes b) as [|c rest]; [by eauto|].
  destruct (to_volume_safe rest old Hs) as [v ->]. eauto.
Qed.

Lemma call_lock s mode (t : task W) :
  exists l t', call (fun win => p_Lock win s mode) t = (l, t') /\ pr_WindowPtr t' = pr_WindowPtr t /\
    cur (dos t') = cur (dos t) /\
    (l = 0 /\ held (dos t') = held (dos t) \/
     l <> 0 /\ held (dos t) !! l = None /\ exists d, held (dos t') = <[l := d]> (held (dos t))).
Proof.
  unfold call. destruct (law_lock (pr_WindowPtr t) s mode (dos t)) as (l & w & -> & H). exists l, (mk_task (pr_WindowPtr t) w).
  cbn. split_and!; try done; apply H.
Qed.

(** __open returns for every name and leaves the locks alone. *)
Lemma __open_safe u old name action (t : task W) d :
  held (dos t) !! cur (dos t) = Some d ->
  exists fh t', __open u old name action t = Ret fh t' /\ pr_WindowPtr t' = pr_WindowPtr t /\
    held (dos t') = held (dos t) /\ cur (dos t') = cur (dos t).
Proof.
  intros Hd. unfold __open. destruct (ados_name_ok u old name) as (b & -> & Hb). unfold call. cbn [set_window pr_WindowPtr dos].
  destruct (law_open (-1) (chars b) action (dos t)) as (fh & w1 & -> & Hh1 & Hc1).
  destruct (fh =? 0); [|by do 2 eexists]. cbn [dos].
  case_decide; [|by do 2 eexists].
  destruct (check_root_safe b w1 d) as (r & w2 & E & Hh2 & Hc2); [by rewrite Hh1, Hc1|by destruct (stale b); [cbn in Hb; lia|]|].
  unfold on_dos. cbn [dos]. rewrite E. cbn [obind].
  assert (forall e w, held (p_SetIoErr e w) = held w /\ cur (p_SetIoErr e w) = cur w) as He by (intros; apply law_error).
  destruct r as [[[|c s] st]|]; cbn [dos pr_WindowPtr].
  1, 3: do 2 eexists; split; [done|]; destruct (He (p_IoErr w1) w2); cbn; split_and!; congruence.
  destruct (law_open (-1) (c :: s) action w2) as (fh' & w3 & -> & Hh3 & Hc3). cbn [obind].
  do 2 eexists. split; [done|]. destruct (He (if fh' =? 0 then p_IoErr w1 else Ioerr 0) w3). cbn. split_and!; congruence.
Qed.

(** __lock returns for every name, with the window of the task's requesters as
    it was.  The lock it returns is a new one and the only one more that is open
    afterwards; if it returns none, none is left open.  The current directory is the
    same. *)
Theorem __lock_balanced u old name mode (t : task W) d :
  held (dos t) !! cur (dos t) = Some d ->
  exists l t', __lock u old name mode t = Ret l t' /\ pr_WindowPtr t' = pr_WindowPtr t /\
    cur (dos t') = cur (dos t) /\
    (l = 0 /\ held (dos t') = held (dos t) \/
     l <> 0 /\ held (dos t) !! l = None /\ exists d, held (dos t') = <[l := d]> (held (dos t))).
Proof.
  intros Hd. unfold __lock. destruct (ados_name_ok u old name) as (b & -> & Hb).
  destruct (is_special_name_spec b t) as (r & t1 & -> & Hw1 & Hh1 & Hc1); [lia|]. cbn [obind].
  destruct r; [by exists 0, t1; split_and!; auto|]. rewrite <- Hw1, <- Hh1, <- Hc1 in *. clear Hw1 Hh1 Hc1 t.
  destruct (call_lock (chars b) mode (set_window (-1) t1)) as (l & t2 & -> & _ & Hc2 & Hl). cbn in Hc2, Hl.
  destruct (Z.eqb_spec l 0) as [->|Hl0]; [|by exists l, (set_window (pr_WindowPtr t1) t2); split_and!; auto].
  destruct Hl as [[_ Hh2]|[? _]]; [|done]. rewrite <- Hc2, <- Hh2 in *.
  case_decide; [|by exists 0, (set_window (pr_WindowPtr t1) t2); split_and!; auto].
  destruct (check_root_safe b (dos t2) d Hd) as (r & w3 & E3 & Hh3 & Hc3); [by destruct (stale b); [cbn in Hb; lia|]|].
  unfold on_dos. rewrite E3. cbn [obind]. set (t3 := mk_task (pr_WindowPtr t2) w3).
  assert (forall e t, held (dos (SetIoErr e t)) = held (dos t) /\ cur (dos (SetIoErr e t)) = cur (dos t)) as He
    by (intros e t; apply law_error).
  destruct r as [[[|c s] st]|].
  1, 3: eexists 0, _; split; [done|]; destruct (He (Ioerr 6262) t3), (He (p_IoErr (dos t2)) t3); cbn in *;
    split_and!; try congruence; left; split; congruence.
  destruct (call_lock (c :: s) mode t3) as (l & t4 & -> & _ & Hc4 & Hl4). cbn in Hc4, Hl4. cbn [obind].
  eexists l, _. split; [done|]. match goal with |- context [SetIoErr ?e t4] => destruct (He e t4) as [He1 He2] end.
  cbn in He1, He2 |- *. rewrite He1, He2. rewrite Hh3, Hc3 in *. auto.
Qed.
End Locks.

(** ** An implementation of the interface

    A tree of volumes is its set of names; locks are numbers. *)

Record tree := mk_tree {
  t_names : list str;
  t_held : gmap Z nat;
  t_cur : Z;
  t_err : ioerr
}.

Definition new_lock (w : tree) (d : nat) : Z * tree :=
  let l := fresh ({[0]} ∪ dom (t_held w)) in
  (l, mk_tree (t_names w) (<[l := d]> (t_held w)) (t_cur w) (t_err w)).

Lemma new_lock_spec w d : exists l w', new_lock w d = (l, w') /\ l <> 0 /\ t_held w !! l = None /\
  t_held w' = <[l := d]> (t_held w) /\ t_cur w' = t_cur w.
Proof.
  unfold new_lock. set (l := fresh _). assert (l ∉ {[0]} ∪ dom (t_held w)) as H by apply is_fresh.
  do 2 eexists. split; [done|]. split_and!; try done; [set_solver|]. apply not_elem_of_dom. set_solver.
Qed.

#[export] Instance tree_ops : PathOps tree := {
  p_CurrentDir l w := (t_cur w, mk_tree (t_names w) (t_held w) l (t_err w));
  p_DupLock l w := match t_held w !! l with Some d => new_lock w d | None => (0, w) end;
  p_ParentDir l w := match t_held w !! l with Some (S d) => new_lock w d | _ => (0, w) end;
  p_UnLock l w := mk_tree (t_names w) (delete l (t_held w)) (t_cur w) (t_err w);
  p_Lock _ s _ w := if decide (s ∈ t_names w) then new_lock w 0
                    else (0, mk_tree (t_names w) (t_held w) (t_cur w) ERROR_OBJECT_NOT_FOUND);
  p_Open _ _ _ w := (0, w);
  p_IoErr w := t_err w;
  p_SetIoErr e w := mk_tree (t_names w) (t_held w) (t_cur w) e;
  p_GetDeviceProc _ _ _ w := (0, w);
  p_Locate _ _ _ _ w := (0, w);
  p_is_assign _ _ := false;
  p_ErrorReport _ _ _ w := (true, w);
  p_FreeDeviceProc _ w := w
}.

#[export] Instance tree_laws : PathLaws t_held t_cur.
Proof.
  split.
  - intros l w. by eexists.
  - intros l w d E. cbn. rewrite E. apply new_lock_spec.
  - intros l w d E. cbn. rewrite E. apply new_lock_spec.
  - intros l w E. cbn. rewrite E. by eexists.
  - done.
  - intros win s mode w. cbn. case_decide; [|do 2 eexists; split; [done|]; auto].
    destruct (new_lock_spec w 0) as (l & w' & -> & ? & ? & ? & ?). exists l, w'. split_and!; eauto.
  - intros win s action w. by do 2 eexists.
  - done.
Qed.

(** Two directories below the volume Work:. *)
Definition a_tree : tree := mk_tree [lit "ram:t"] {[1 := 2%nat]} 1 (Ioerr 0).
Definition a_user : user := mk_user None false false.

Lemma ix_to_ados_denotes_witness :
  exists b, ix_to_ados 13 a_user (lit "a/../../b") = devices 13 b /\
    denotes [lit "dir"; lit "Work"] b ([lit "b"; lit "Work"], false).
Proof.
  destruct (ix_to_ados_denotes a_user (lit "a/../../b") [lit "dir"; lit "Work"]) as (b & E & H).
  - reflexivity.
  - by repeat constructor.
  - done.
  - exists b. split; [exact E|exact H].
Defined.

Lemma check_root_absolute_witness :
  exists w' r b1, check_root (mk_cbuf (lit "///ram/t") [7; 7]) a_tree = Ret (Some r) w' /\
    ix_to_ados 19 a_user (lit "/../../../ram/t") = devices 19 b1 /\
    (if decide (b1 = [COLON]) then chars r = [] else chars r = b1) /\ t_held w' = t_held a_tree.
Proof.
  destruct (check_root_absolute a_user (lit "../../../ram/t") [7; 7] a_tree 2)
    as (b & w' & E & Hh & Hc & H); [reflexivity|reflexivity|by repeat constructor|reflexivity|done|].
  vm_compute in E. injection E as <-. rewrite bool_decide_true in H by (vm_compute; lia).
  destruct H as (r & b1 & Hr & E1 & H). exists w', r, b1.
  split; [exact Hr|]. split; [exact E1|]. split; [exact H|exact Hh].
Defined.

Lemma __lock_balanced_witness :
  exists l t', __lock a_user (fun _ => 7) (lit "../../../ram/t") (-2) (mk_task 5 a_tree) = Ret l t' /\
    pr_WindowPtr t' = 5 /\ t_cur (dos t') = 1.
Proof.
  destruct (__lock_balanced a_user (fun _ => 7) (lit "../../../ram/t") (-2) (mk_task 5 a_tree) 2)
    as (l & t' & E & Hw & Hc & _); [reflexivity|]. exists l, t'. split_and!; done.
Defined.

(** ** Names that are translated wrongly *)

(** A directory whose name consists of more than two dots loses the slash behind it
    when it follows a volume. *)
Example dots_behind_volume :
  ix_to_ados 13 a_user (lit "vol:.../x") = Some (lit "vol:...x") /\
  ix_to_ados 12 a_user (lit "/vol/.../x") = Some (lit "vol:.../x").
Proof. by vm_compute. Qed.

(** The slash at the end of a name of one letter stays. *)
Example lonely_slash_stays :
  ix_to_ados 6 a_user (lit "a/") = Some (lit "a/") /\ ix_to_ados 7 a_user (lit "ab/") = Some (lit "ab").
Proof. by vm_compute. Qed.

(** A name of eight characters is a pseudo terminal or not, depending on the byte
    behind its final 0. *)
Example short_pseudoterminal :
  is_pseudoterminal (lit "dev:ptyp" ++ [0; 0]) = Some 4 /\ is_pseudoterminal (lit "dev:ptyp" ++ [0; 65]) = Some 0.
Proof. by vm_compute. Qed.

(** __llock tells a handler that a name of 256 characters is empty. *)
Example long_bstr : hd 1 (bstr (COLON :: replicate 255 65)) = 0.
Proof. by vm_compute. Qed.

(** The names of devices are not recognised in names that climb to the root. *)
Example climb_to_null :
  ix_to_ados 21 a_user (lit "../../../dev/null") = Some (lit "///dev/null") /\
  match check_root (mk_cbuf (lit "///dev/null") [7; 7]) a_tree with
  | Ret (Some r) _ => chars r = lit "dev:null" | _ => False end /\
  ix_to_ados 13 a_user (lit "/dev/null") = Some (lit "NIL:").
Proof. by vm_compute. Qed.
