(* ===== verification/Mmap.v ===== *)
(** * Memory mapping

    Models library/mmap.c.  A mapping is a block from malloc that mmap fills with
    read and msync writes back with write, through the descriptor calls of
    [Fileio]; the process keeps its mappings in a list, the newest first.

    What malloc answers is an argument: whether there is memory for the
    descriptor of the mapping, and the address and the old contents of its block.
    [getpagesize] is 4096. *)

From S2P Require Import Prelude Descrip Dos Fileio FileioProofs FileioTheorems.

Module Mm.

Definition MAP_SHARED : Z := 0x1.
Definition MAP_FIXED : Z := 0x10.
Definition MAP_ANON : Z := 0x1000.
Definition PROT_WRITE : Z := 0x2.
Definition pagesize : Z := 4096.

(** [bytes]: what the block at [addr] holds. *)
Record mmap_mem := mk_mem {
  addr : Z;
  bytes : list Z;
  length : Z;
  fd : Z;
  offset : Z;
  prot : Z;
  flags : Z
}.

Record proc (H : Type) := mk_proc { fio : Fio.world H; u_mmap : list mmap_mem }.
Arguments mk_proc {H} _ _.
Arguments fio {H} _.
Arguments u_mmap {H} _.

(** malloc: the size it is asked for is a size_t. *)
Definition alloc_size (len : Z) : Z := u32 (len + pagesize).

(** What read stores at the start of the block. *)
Definition store (block bs : list Z) : option (list Z) :=
  if decide (#bs <= #block) then Some (bs ++ drop (List.length bs) block) else None.

Definition holds (a : Z) (m : mmap_mem) : bool := (addr m <=? a) && (a <? addr m + length m).

Section Calls.
Context {H : Type} `{!DosOps H}.
Implicit Types (p : proc H) (w : Fio.world H).

Definition fails (e : Z) (p : proc H) : outcome (proc H) Z := Ret (-1) (mk_proc (Fio.set_errno (fio p) e) (u_mmap p)).

(** lseek to [off], [op], and lseek back. *)
Definition at_offset {A} (avail : Z -> bool) (fd off : Z) (op : Fio.world H -> outcome (Fio.world H) A)
    (w : Fio.world H) : outcome (Fio.world H) A :=
  let* (curoff, w) := Fio.lseek avail fd 0 Fio.SEEK_CUR w in
  let* (_r, w) := Fio.lseek avail fd off Fio.SEEK_SET w in
  let* (a, w) := op w in
  let* (_r, w) := Fio.lseek avail fd curoff Fio.SEEK_SET w in
  Ret a w.

Definition on_fio {A} (f : Fio.world H -> outcome (Fio.world H) A) (p : proc H) : outcome (proc H) A :=
  match f (fio p) with
  | Ret a w => Ret a (mk_proc w (u_mmap p))
  | Asleep w => Asleep (mk_proc w (u_mmap p))
  | Panic s => Panic s
  | Fault => Fault
  | Diverge => Diverge
  end.

Definition descriptor_open (fd : Z) (p : proc H) : bool :=
  (0 <=? fd) && (fd <? Fio.NOFILE) &&
  match aget (Fio.u_ofile (fio p)) fd with Some fp => negb (fp =? 0) | None => false end.

Definition mmap (avail : Z -> bool) (have_m : bool) (block : option (Z * list Z)) (len prot flags fd offset : Z)
    (p : proc H) : outcome (proc H) Z :=
  if bset flags MAP_FIXED then fails ENOMEM p
  else if negb (bset flags MAP_ANON) && negb (descriptor_open fd p) then fails EBADF p
  else if negb have_m then fails ENOMEM p
  else
    match block with
    | None => fails ENOMEM p
    | Some (addr, old) =>
      let* (filled, p) :=
        if bset flags MAP_ANON then Ret old p
        else
          let* (r, p) := on_fio (at_offset avail fd offset (Fio.read fd len)) p in
          let? filled := store old r.2 in Ret filled p in
      let m := mk_mem addr filled len fd offset prot flags in
      Ret (Z.land (u32 (addr + pagesize)) (u32 (Z.lnot (pagesize - 1)))) (mk_proc (fio p) (m :: u_mmap p))
    end.

(** The loop of find_mmap, which munmap has as well: the mappings in front of the
    one found and those behind it. *)
Fixpoint find (a : Z) (l : list mmap_mem) : option (list mmap_mem * mmap_mem * list mmap_mem) :=
  match l with
  | [] => None
  | m :: l =>
    if holds a m then Some ([], m, l)
    else match find a l with Some (prev, n, rest) => Some (m :: prev, n, rest) | None => None end
  end.

Definition find_mmap (a : Z) (p : proc H) : option mmap_mem :=
  match find a (u_mmap p) with Some (_, m, _) => Some m | None => None end.

(** Nothing is done; mlock and munlock succeed. *)
Definition madvise (a len behav : Z) (p : proc H) : proc H := p.
Definition mlock (a len : Z) (p : proc H) : Z * proc H := (0, p).
Definition munlock (a len : Z) (p : proc H) : Z * proc H := (0, p).

Definition mprotect (a len prot : Z) (p : proc H) : proc H :=
  match find a (u_mmap p) with
  | Some (prev, m, rest) =>
    mk_proc (fio p) (prev ++ mk_mem (addr m) (bytes m) (length m) (fd m) (offset m) prot (flags m) :: rest)
  | None => p
  end.

Definition written_back (m : mmap_mem) : bool :=
  negb (bset (flags m) MAP_ANON) && bset (flags m) MAP_SHARED && bset (prot m) PROT_WRITE.

Definition msync (avail : Z -> bool) (a len : Z) (p : proc H) : outcome (proc H) () :=
  match find_mmap a p with
  | None => Ret tt p
  | Some m =>
    if negb (written_back m) then Ret tt p
    else if decide (#(bytes m) < length m) then Fault
    else
      let* (_r, p) := on_fio (at_offset avail (fd m) (offset m) (Fio.write (fd m) (take (Z.to_nat (length m)) (bytes m)))) p in
      Ret tt p
  end.

Definition munmap (avail : Z -> bool) (a len : Z) (p : proc H) : outcome (proc H) Z :=
  match find a (u_mmap p) with
  | None => fails EINVAL p
  | Some (prev, m, rest) =>
    let* (_r, p) := msync avail a len p in
    Ret 0 (mk_proc (fio p) (prev ++ rest))
  end.

End Calls.
End Mm.

Import Fio Mm.

(** ** The mappings of a process *)

(** The block of a mapping and the range it takes. *)
Definition block_ok (m : mmap_mem) : Prop :=
  0 <= addr m /\ 0 <= Mm.length m /\ #(bytes m) = Mm.length m + pagesize /\ addr m + #(bytes m) <= 2 ^ 32.
Definition in_block (a : Z) (m : mmap_mem) : Prop := addr m <= a < addr m + #(bytes m).
Definition apart (m n : mmap_mem) : Prop := forall a, in_block a m -> in_block a n -> False.

Inductive disjoint_blocks : list mmap_mem -> Prop :=
| disjoint_nil : disjoint_blocks []
| disjoint_cons m l : Forall (apart m) l -> disjoint_blocks l -> disjoint_blocks (m :: l).

Definition maps_ok (l : list mmap_mem) : Prop := Forall block_ok l /\ disjoint_blocks l.

(** What malloc promises: a block of the size asked for, in memory that no block
    in use takes. *)
Definition malloc_ok (len a : Z) (old : list Z) (l : list mmap_mem) : Prop :=
  0 < a /\ #old = alloc_size len /\ a + #old < 2 ^ 32 /\
  forall m x, m ∈ l -> in_block x m -> ~ (a <= x < a + #old).

Lemma holds_in_block a m : block_ok m -> holds a m = true -> in_block a m.
Proof.
  intros (_ & Hl & Hb & _). unfold holds, in_block. rewrite andb_true_iff, Z.leb_le, Z.ltb_lt, Hb. unfold pagesize. lia.
Qed.

Lemma find_Some a l prev m rest : find a l = Some (prev, m, rest) -> l = prev ++ m :: rest /\ holds a m = true.
Proof.
  revert prev m rest. induction l as [|x l IH]; intros prev m rest; cbn; [done|].
  destruct (holds a x) eqn:E; [by intros [= <- <- <-]|].
  destruct (find a l) as [[[pr n] r]|]; [|done]. intros [= <- <- <-].
  destruct (IH _ _ _ eq_refl) as [-> ?]. done.
Qed.

Lemma find_None a l : find a l = None <-> Forall (fun m => holds a m = false) l.
Proof.
  induction l as [|x l IH]; cbn; [split; [constructor|done]|].
  rewrite Forall_cons. destruct (holds a x) eqn:E; [split; [done|by intros [? _]]|].
  destruct (find a l) as [[[pr n] r]|]; split; try done; try by intros [_ ?%IH]. by split; [|apply IH].
Qed.

Lemma disjoint_blocks_mid prev m rest : disjoint_blocks (prev ++ m :: rest) ->
  Forall (fun n => apart m n) (prev ++ rest) /\ disjoint_blocks (prev ++ rest).
Proof.
  induction prev as [|x prev IH]; cbn; intros Hd; inversion Hd as [|? ? Hf Hd']; subst; [done|].
  destruct (IH Hd') as [H1 H2]. apply Forall_app in Hf as [Hf1 Hf2]. apply Forall_cons in Hf2 as [Hm Hf2].
  split; [constructor; [|done]|constructor; [|done]].
  - intros y H3 H4. by apply (Hm y).
  - by apply Forall_app.
Qed.

(** An address in a block is found in no other mapping. *)
Lemma find_unique a prev m rest :
  maps_ok (prev ++ m :: rest) -> in_block a m ->
  find a (prev ++ m :: rest) = if holds a m then Some (prev, m, rest) else None.
Proof.
  intros [Hb Hd] Ha. destruct (disjoint_blocks_mid _ _ _ Hd) as [Hap _].
  apply Forall_app in Hb as [Hb1 Hb2]. apply Forall_cons in Hb2 as [Hbm Hb2].
  apply Forall_app in Hap as [Hp1 Hp2].
  assert (forall l, Forall block_ok l -> Forall (fun n => apart m n) l -> Forall (fun n => holds a n = false) l) as Hno.
  { intros l Hl Hl2. rewrite Forall_forall in *. intros n Hn. destruct (holds a n) eqn:E; [|done].
    destruct (Hl2 n Hn a Ha). by apply holds_in_block; [apply Hl|]. }
  induction Hb1 as [|x prev Hx Hb1 IH]; cbn.
  - destruct (holds a m); [done|]. rewrite (proj2 (find_None a rest)); [done|by apply Hno].
  - apply Forall_cons in Hp1 as [Hpx Hp1].
    assert (holds a x = false) as ->.
    { assert (Forall (fun n => holds a n = false) [x]) as H by (apply Hno; by apply Forall_singleton).
      by apply Forall_inv in H. }
    inversion Hd; subst. rewrite IH by done. by destruct (holds a m).
Qed.

(** The address that is returned: the first page boundary behind the start. *)
Lemma page_above a : 0 <= a -> a + pagesize < 2 ^ 32 ->
  let r := Z.land (u32 (a + pagesize)) (u32 (Z.lnot (pagesize - 1))) in
  r mod pagesize = 0 /\ a < r <= a + pagesize.
Proof.
  intros Ha Hb r. unfold pagesize in *. assert (r = (a + 4096) / 4096 * 4096) as ->.
  { unfold r. rewrite u32_id by (unfold is_u32; lia).
    replace (u32 (Z.lnot (4096 - 1))) with (Z.shiftl (Z.ones 20) 12) by reflexivity.
    apply Z.bits_inj'. intros n Hn. rewrite Z.land_spec, Z.shiftl_spec by done.
    replace ((a + 4096) / 4096 * 4096) with (Z.shiftl (Z.shiftr (a + 4096) 12) 12)
      by (rewrite Z.shiftr_div_pow2, Z.shiftl_mul_pow2 by lia; reflexivity). rewrite Z.shiftl_spec by lia.
    destruct (Z.ltb_spec n 12).
    - rewrite !(Z.testbit_neg_r _ (n - 12)) by lia. by rewrite andb_false_r.
    - rewrite Z.shiftr_spec, Z.sub_add by lia. rewrite Z.testbit_ones_nonneg by lia.
      destruct (Z.ltb_spec (n - 12) 20); [by rewrite andb_true_r|]. rewrite andb_false_r.
      symmetry. apply Z.bits_above_log2; [lia|]. apply Z.log2_lt_pow2; [lia|].
      eapply Z.lt_le_trans; [apply Hb|]. apply Z.pow_le_mono_r; lia. }
  split; [apply Z.mod_mul; lia|]. Z.div_mod_to_equations. lia.
Qed.

Section Guarantees.
Context {H : Type} {on_file : H -> list Z -> Z -> Prop} {on_tty : H -> list Z -> Prop}.
Context `{!DosOps H} `{!DosLaws H on_file on_tty}.
Implicit Types (p : proc H) (w : world H).

(** The world [w1] is [w] but for the file at [fp], its handle and errno. *)
Definition near (w : world H) (fp : Z) (f : file H) (t : Z) (w1 : world H) (h1 : H) : Prop :=
  exists e, w1 = set_errno (at_h w fp f t h1) e.

Lemma near_here w fd fp f t h : opened w fd fp f t h -> near w fp f t w h.
Proof. intros Ho. exists (w_errno w). rewrite (opened_id _ _ _ _ _ _ Ho). by rewrite set_errno_same. Qed.

Lemma near_trans w fp f g t w1 h1 w2 h2 : near w fp f t w1 h1 -> near w1 fp g t w2 h2 -> near w fp g t w2 h2.
Proof.
  intros [e1 ->] [e2 ->]. exists e2. unfold at_h, put_file, set_files, set_errno. cbn. by rewrite insert_insert_eq.
Qed.

Lemma near_set_fh w fp f u t w1 h1 : near w fp (set_fh f u) t w1 h1 <-> near w fp f t w1 h1.
Proof. split; intros [e ->]; exists e; by rewrite at_h_set_fh. Qed.

Lemma near_opened w fd fp f t h g w1 h1 :
  opened w fd fp f t h -> unlocked g -> near w fp g t w1 h1 -> opened w1 fd fp (set_fh g (FH h1 t)) t h1.
Proof. intros Ho Hu [e ->]. by apply (opened_again _ _ _ f _ h). Qed.

Lemma seek_in w fd fp f t h c pos avail off dir q :
  opened w fd fp f t h -> f_type f = DTYPE_FILE -> on_file h c pos -> avail 0 = avail 1 ->
  0 <= dir <= 2 -> is_s32 off -> q = base_of c pos dir + off -> 0 <= q <= #c ->
  exists w1 h1, lseek avail fd off dir w = Ret q w1 /\ near w fp f t w1 h1 /\ on_file h1 c q.
Proof.
  intros Hop Hty Ho Ha Hd Hoff -> Hq.
  destruct (lseek_spec w fd fp f t h c pos avail off dir Hop Hty Ho Hd Hoff Ha) as (r & e & h' & E & Hin & _).
  destruct (Hin Hq) as (-> & -> & Ho'). exists (set_errno (at_h w fp f t h') 0), h'. split; [done|]. split; [by exists 0|done].
Qed.

Lemma seek_any w fd fp f t h c pos avail off :
  opened w fd fp f t h -> f_type f = DTYPE_FILE -> on_file h c pos -> avail 0 = avail 1 -> 0 <= off < 2 ^ 31 ->
  exists r w1 h1 c1 q1, lseek avail fd off SEEK_SET w = Ret r w1 /\ near w fp f t w1 h1 /\ on_file h1 c1 q1.
Proof.
  intros Hop Hty Ho Ha Hoff.
  destruct (lseek_spec w fd fp f t h c pos avail off SEEK_SET Hop Hty Ho) as (r & e & h' & E & Hin & Hout & _);
    [unfold SEEK_SET; lia|unfold is_s32; lia|done|].
  change (base_of c pos SEEK_SET + off) with off in *.
  exists r, (set_errno (at_h w fp f t h') e), h'.
  assert (exists c1 q1, on_file h' c1 q1) as (c1 & q1 & Ho1).
  { destruct (Z_le_gt_dec off #c) as [Hle|Hgt].
    - destruct Hin as (_ & _ & Hi); [lia|]. eauto.
    - assert (#c < off < 2 ^ 31) as Hr by lia. specialize (Hout Hr). destruct (bset _ _); [|naive_solver].
      destruct Hout as [[_ ?]|[_ ?]]; eauto. }
  exists c1, q1. split; [done|]. split; [by exists e|done].
Qed.

(** The two lseeks in front of the operation. *)
Lemma to_offset {A} w fd fp f t h c pos avail off (op : world H -> outcome (world H) A) :
  opened w fd fp f t h -> f_type f = DTYPE_FILE -> on_file h c pos -> avail 0 = avail 1 -> 0 <= off <= #c ->
  exists w1 h1, at_offset avail fd off op w =
      (let* (a, w2) := op w1 in let* (_r, w3) := lseek avail fd pos SEEK_SET w2 in Ret a w3) /\
    near w fp f t w1 h1 /\ on_file h1 c off.
Proof.
  intros Hop Hty Ho Ha Hoff. pose proof Hop as (_ & _ & _ & Hu & _).
  destruct (file_handle _ _ _ Ho) as (Hp & Hc & _).
  destruct (seek_in w fd fp f t h c pos avail 0 SEEK_CUR pos Hop Hty Ho Ha) as (w1 & h1 & E1 & N1 & Ho1);
    [unfold SEEK_CUR; lia|unfold is_s32; lia|unfold base_of; cbn; lia|done|].
  pose proof (near_opened _ _ _ _ _ _ _ _ _ Hop Hu N1) as Hop1.
  destruct (seek_in w1 fd fp _ t h1 c pos avail off SEEK_SET off Hop1 Hty Ho1 Ha) as (w2 & h2 & E2 & N2 & Ho2);
    [unfold SEEK_SET; lia|unfold is_s32; lia|unfold base_of; cbn; lia|done|].
  exists w2, h2. unfold at_offset. rewrite E1. cbn [obind]. rewrite E2. cbn [obind]. split; [done|]. split; [|done].
  apply near_set_fh in N2. by eapply near_trans.
Qed.

(** A file that is mapped: the block starts with the bytes of the file from
    [offset] (read may fail at the device, then with what it held), the file and its
    position are as before, and the mapping is the first of the list.  The address
    returned is not that of the block but the page boundary behind its start: what
    the program sees there starts [r - a] bytes later in the file. *)
Theorem mmap_file_bytes avail len prot flags fd offset a old p fp f t h c pos :
  opened (fio p) fd fp f t h -> f_type f = DTYPE_FILE -> f_read f = Some R_read -> plain t -> on_file h c pos ->
  avail 0 = avail 1 -> descriptor_open fd p = true -> 0 <= offset <= #c -> 0 <= len -> len + pagesize < 2 ^ 31 ->
  malloc_ok len a old (u_mmap p) -> bset flags MAP_FIXED = false -> bset flags MAP_ANON = false ->
  exists r p' m h', mmap avail true (Some (a, old)) len prot flags fd offset p = Ret r p' /\
    u_mmap p' = m :: u_mmap p /\ near (fio p) fp f t (fio p') h' /\ on_file h' c pos /\
    addr m = a /\ Mm.length m = len /\ r mod pagesize = 0 /\ a < r <= a + pagesize /\
    (bytes m = next_bytes c offset len ++ drop (List.length (next_bytes c offset len)) old \/ bytes m = old).
Proof.
  intros Hop Hty Hr Ht Ho Ha Hd Hoff Hlen Hmax (Ha0 & Hold & Hend & _) Hfix Hanon.
  pose proof Hop as (_ & _ & _ & Hu & _).
  unfold mmap. rewrite Hfix, Hanon, Hd. cbn [andb negb]. unfold on_fio.
  destruct (to_offset (fio p) fd fp f t h c pos avail offset (read fd len) Hop Hty Ho Ha Hoff)
    as (w1 & h1 & -> & N1 & Ho1).
  pose proof (near_opened _ _ _ _ _ _ _ _ _ Hop Hu N1) as Hop1.
  destruct (read_call w1 fd fp _ t h1 c offset len Hop1 Hr Ho1 Ht ltac:(unfold pagesize in *; lia)) as (h2 & Hread).
  set (bs := next_bytes c offset len) in *.
  assert (exists w2 q out, read fd len w1 = Ret (q, out) w2 /\ near (fio p) fp f t w2 h2 /\
            (out = bs \/ out = []) /\ exists q', on_file h2 c q') as (w2 & q & out & -> & N2 & Hout & q' & Ho2).
  { destruct Hread as [[E Hb]|(e & E & Hb)]; rewrite E.
    - exists (at_h w1 fp (set_fh f (FH h1 t)) t h2), (#bs), bs. split_and!; eauto.
      rewrite at_h_set_fh. eapply near_trans; [exact N1|]. exists (w_errno w1). by destruct w1.
    - exists (set_errno (at_h w1 fp (set_fh f (FH h1 t)) t h2) e), (-1), []. split_and!; eauto.
      rewrite at_h_set_fh. eapply near_trans; [exact N1|]. by exists e. }
  cbn [obind]. pose proof (near_opened _ _ _ _ _ _ _ _ _ Hop Hu N2) as Hop2.
  destruct (file_handle _ _ _ Ho) as (Hp & Hc & _).
  destruct (seek_in w2 fd fp _ t h2 c q' avail pos SEEK_SET pos Hop2 Hty Ho2 Ha) as (w3 & h3 & -> & N3 & Ho3);
    [unfold SEEK_SET; lia|unfold is_s32; lia|unfold base_of; cbn; lia|done|].
  apply near_set_fh in N3. pose proof (near_trans _ _ _ _ _ _ _ _ _ N2 N3) as N. cbn [obind snd].
  assert (#bs <= #old) as Hbs.
  { unfold bs, next_bytes. rewrite length_take, Hold. unfold alloc_size.
    rewrite u32_id by (unfold is_u32, pagesize in *; lia). unfold pagesize. lia. }
  destruct (page_above a) as [Hr1 Hr2]; [lia| |].
  { assert (alloc_size len = len + pagesize) by (unfold alloc_size; apply u32_id; unfold is_u32, pagesize in *; lia). lia. }
  unfold store. destruct Hout as [-> | ->].
  - rewrite decide_True by done. cbn [obind]. eexists _, _, _, h3. split; [done|]. cbn. split_and!; try done; try lia. by left.
  - rewrite decide_True by (cbn; lia). cbn [obind]. eexists _, _, _, h3. split; [done|]. cbn. split_and!; try done; try lia. by right.
Qed.

(** C33. msync of an address of a shared, writable mapping of a file that is open for
    writing but not in append mode and holds the offset of the mapping: the file holds
    the bytes of the mapping at its offset and what it held elsewhere, its position is
    as before and the mappings are the same; unless the device has answered the Write of
    exactly these bytes at that offset with an error, after which nothing is promised of
    the bytes on it. *)
Theorem msync_writes_file avail a len p prev m rest fp f t h c pos :
  u_mmap p = prev ++ m :: rest -> maps_ok (u_mmap p) -> holds a m = true -> written_back m = true ->
  opened (fio p) (fd m) fp f t h -> f_type f = DTYPE_FILE -> f_write f = Some W_write ->
  bset (f_flags f) FAPPEND = false -> on_file h c pos -> avail 0 = avail 1 ->
  0 <= offset m <= #c -> offset m + Mm.length m < 2 ^ 31 ->
  let bs := take (Z.to_nat (Mm.length m)) (bytes m) in
  exists p' h', msync avail a len p = Ret tt p' /\ u_mmap p' = u_mmap p /\
    near (fio p) fp (clean f) t (fio p') h' /\
    (on_file h' (overwrite c (offset m) bs) pos \/
     exists h1 h2, on_file h1 c (offset m) /\ dos_Write bs h1 = (-1, h2) /\ exists c' q', on_file h' c' q').
Proof.
  intros Em Hok Hh Hwb Hop Hty Hw Happ Ho Ha Hoff Hmax bs. pose proof Hop as (_ & _ & _ & Hu & _).
  rewrite Em in Hok. pose proof Hok as [Hb _]. apply Forall_app in Hb as [_ Hb]. apply Forall_inv in Hb as Hbm.
  assert (in_block a m) as Hin by by apply holds_in_block.
  destruct Hbm as (_ & Hl0 & Hlen & _).
  unfold msync, find_mmap. rewrite Em, (find_unique _ _ _ _ Hok Hin), Hh, Hwb. cbn [negb].
  rewrite decide_False by (rewrite Hlen; unfold pagesize; lia). unfold on_fio. fold bs.
  assert (#bs = Mm.length m) as Hbs by (unfold bs; rewrite length_take; unfold pagesize in *; lia).
  destruct (to_offset (fio p) (fd m) fp f t h c pos avail (offset m) (write (fd m) bs) Hop Hty Ho Ha Hoff)
    as (w1 & h1 & -> & N1 & Ho1).
  pose proof (near_opened _ _ _ _ _ _ _ _ _ Hop Hu N1) as Hop1.
  assert (0 < Mm.length m) as Hpos by (unfold holds in Hh; lia).
  assert (write_pos (set_fh f (FH h1 t)) c (offset m) = offset m) as Hwp by (unfold write_pos; cbn; by rewrite Happ).
  destruct (write_disk w1 (fd m) fp _ t h1 c (offset m) bs Hop1 Hw Ho1) as (h2 & Hwr); [rewrite Hwp; lia|lia|].
  rewrite Hwp in Hwr. set (c2 := overwrite c (offset m) bs) in *.
  destruct (file_handle _ _ _ Ho) as (Hp & Hc & _).
  assert (exists w2 q, write (fd m) bs w1 = Ret q w2 /\ near (fio p) fp (clean f) t w2 h2 /\
            ((exists q', on_file h2 c2 q') \/ (write_failed (on_file := on_file) c (offset m) bs h2 /\ exists c' q', on_file h2 c' q'))) as (w2 & q & -> & N2 & Ho2).
  { destruct Hwr as [[E Hb2]|(e & E & Hb2)]; rewrite E.
    - do 2 eexists. split; [done|]. split; [|eauto]. eapply near_trans; [exact N1|].
      exists (w_errno w1). unfold clean, set_dirty, at_h, put_file, set_files, set_errno. by destruct w1.
    - do 2 eexists. split; [done|]. split; [|by right]. eapply near_trans; [exact N1|]. by exists e. }
  cbn [obind]. pose proof (near_opened _ _ _ _ _ _ _ _ _ Hop (Hu : unlocked (clean f)) N2) as Hop2.
  assert (exists w3 h3 r, lseek avail (fd m) pos SEEK_SET w2 = Ret r w3 /\ near w2 fp (clean f) t w3 h3 /\
            (on_file h3 c2 pos \/ (write_failed (on_file := on_file) c (offset m) bs h2 /\ exists c' q', on_file h3 c' q'))) as (w3 & h3 & r & -> & N3 & Ho3).
  { destruct Ho2 as [(q' & Ho2)|(Hbad & c' & q' & Ho2)].
    - destruct (seek_in w2 (fd m) fp _ t h2 c2 q' avail pos SEEK_SET pos Hop2 Hty Ho2 Ha) as (w3 & h3 & E & N3 & Ho3);
        [unfold SEEK_SET; lia|unfold is_s32; lia|unfold base_of; cbn; lia|unfold c2; rewrite overwrite_length by done; lia|].
      apply near_set_fh in N3. eauto 8.
    - destruct (seek_any w2 (fd m) fp _ t h2 c' q' avail pos Hop2 Hty Ho2 Ha) as (r & w3 & h3 & c3 & q3 & E & N3 & Ho3); [lia|].
      apply near_set_fh in N3. eauto 10. }
  cbn [obind]. eexists _, h3. split; [done|]. cbn [u_mmap fio]. rewrite Em. split; [done|]. split; [by eapply near_trans|].
  destruct Ho3 as [Ho3|((h4 & Ho4 & E4) & Ho3)]; [by left|right]. by exists h4, h2.
Qed.

(** An anonymous mapping: mmap returns a page-aligned address with [len] bytes
    of the new block behind it, the invariant of the mappings holds again, and
    nothing else changes.  munmap of that address gives the list as it was, if the
    page boundary is inside the first [len] bytes of the block; otherwise it fails
    with EINVAL and the mapping stays. *)
Theorem mmap_anon_region avail len prot flags fd offset a old p :
  maps_ok (u_mmap p) -> 0 < len -> len + pagesize < 2 ^ 32 -> malloc_ok len a old (u_mmap p) ->
  bset flags MAP_FIXED = false -> bset flags MAP_ANON = true ->
  exists r p' m, mmap avail true (Some (a, old)) len prot flags fd offset p = Ret r p' /\
    fio p' = fio p /\ u_mmap p' = m :: u_mmap p /\ maps_ok (u_mmap p') /\
    r mod pagesize = 0 /\ (forall i, 0 <= i < len -> in_block (r + i) m) /\
    munmap avail r len p' =
      if r <? a + len then Ret 0 p else Ret (-1) (mk_proc (set_errno (fio p) EINVAL) (u_mmap p')).
Proof.
  intros [Hb Hd] Hl Hmax (Ha & Ho & Hend & Hfree) Hfix Hanon.
  assert (#old = len + pagesize) as Hold by (rewrite Ho; unfold alloc_size; apply u32_id; unfold is_u32, pagesize in *; lia).
  unfold mmap. rewrite Hfix, Hanon. cbn [andb negb obind].
  set (m := mk_mem a old len fd offset prot flags).
  set (r := Z.land _ _). destruct (page_above a) as [Hr1 Hr2]; [lia|unfold pagesize in *; lia|]. fold r in Hr1, Hr2.
  exists r, (mk_proc (fio p) (m :: u_mmap p)), m.
  assert (maps_ok (m :: u_mmap p)) as Hok.
  { split; constructor; try done.
    - unfold block_ok. cbn. lia.
    - apply Forall_forall. intros n Hn x H1 H2. apply (Hfree n x Hn H2). exact H1. }
  split_and!; try done.
  - intros i Hi. unfold in_block. cbn. rewrite Hold. lia.
  - assert (in_block r m) as Hin by (unfold in_block; cbn; rewrite Hold; unfold pagesize in *; lia).
    unfold munmap, msync, find_mmap. cbn [u_mmap]. pose proof (find_unique r [] m (u_mmap p) Hok Hin) as Hf. cbn [app] in Hf.
    rewrite Hf. unfold holds. cbn [addr Mm.length m]. rewrite (proj2 (Z.leb_le a r)) by lia. cbn [andb].
    destruct (r <? a + len); [|done]. unfold written_back. cbn [Mm.flags m]. rewrite Hanon. cbn. by destruct p.
Qed.
End Guarantees.

(** ** Examples *)

Definition demo_proc : proc ram_handle := mk_proc (demo_world demo_f) [].
Definition old_block (len : nat) : list Z := replicate (len + 4096) 7.

Lemma mmap_anon_region_witness :
  exists r p' m, mmap (fun _ => true) true (Some (8192, old_block 5000)) 5000 3 MAP_ANON (-1) 0 demo_proc = Ret r p' /\
    u_mmap p' = [m] /\ r mod pagesize = 0 /\ in_block (r + 4999) m.
Proof.
  destruct (mmap_anon_region (fun _ => true) 5000 3 MAP_ANON (-1) 0 8192 (old_block 5000) demo_proc)
    as (r & p' & m & E & _ & Em & _ & Hr & Hin & _).
  - split; constructor.
  - lia.
  - unfold pagesize. lia.
  - split; [lia|]. unfold old_block. rewrite length_replicate. split; [reflexivity|]. split; [lia|].
    intros m x Hm. by apply not_elem_of_nil in Hm.
  - reflexivity.
  - reflexivity.
  - exists r, p', m. split; [exact E|]. split; [exact Em|]. split; [exact Hr|]. apply Hin. lia.
Defined.

Lemma mmap_file_bytes_witness :
  exists r p' m h', mmap (fun _ => true) true (Some (8192, old_block 4)) 4 3 MAP_SHARED 3 1 demo_proc = Ret r p' /\
    u_mmap p' = [m] /\ ram_file h' hello 2 /\ 8192 < r /\
    (bytes m = [101; 108; 108; 111] ++ drop 4 (old_block 4) \/ bytes m = old_block 4).
Proof.
  destruct (mmap_file_bytes (fun _ => true) 4 3 MAP_SHARED 3 1 8192 (old_block 4) demo_proc 1000 demo_f 0 demo_h hello 2)
    as (r & p' & m & h' & E & Em & _ & Ho & _ & _ & _ & Hr & Hb);
    [apply demo_opened|reflexivity|reflexivity|repeat split|by apply demo_on_file|reflexivity|reflexivity|
     cbn; lia|lia|unfold pagesize; lia| |reflexivity|reflexivity|].
  - split; [lia|]. unfold old_block. rewrite length_replicate. split; [reflexivity|]. split; [lia|].
    intros m x Hm. by apply not_elem_of_nil in Hm.
  - exists r, p', m, h'. split; [exact E|]. split; [exact Em|]. split; [exact Ho|]. split; [apply Hr|exact Hb].
Defined.

Definition demo_map : mmap_mem := mk_mem 8192 ([72; 73] ++ replicate 4096 7) 2 3 1 3 MAP_SHARED.

Lemma msync_writes_file_witness :
  exists p' h', msync (fun _ => true) 8193 2 (mk_proc (demo_world demo_f) [demo_map]) = Ret tt p' /\
    u_mmap p' = [demo_map] /\ (ram_file h' [104; 72; 73; 108; 111] 2 \/ exists h1 h2, dos_Write [72; 73] h1 = (-1, h2)).
Proof.
  destruct (msync_writes_file (fun _ => true) 8193 2 (mk_proc (demo_world demo_f) [demo_map]) [] demo_map [] 1000 demo_f 0 demo_h hello 2)
    as (p' & h' & E & Em & _ & Ho);
    [reflexivity| |reflexivity|reflexivity|apply demo_opened|reflexivity|reflexivity|reflexivity|
     by apply demo_on_file|reflexivity|cbn; lia|cbn; lia|].
  - split; repeat constructor; cbn [demo_map addr Mm.length bytes]; try lia;
      rewrite length_app, length_replicate; cbn; unfold pagesize; lia.
  - exists p', h'. split; [exact E|]. split; [exact Em|]. destruct Ho as [Ho|(h1 & h2 & _ & Ew & _)]; [by left|right; by exists h1, h2].
Defined.

(** A file of five bytes that is mapped in a block on a page boundary: the address
    returned is one page further, where the block has old bytes; and munmap does not
    know that address. *)
Example mapped_file_is_not_seen :
  match mmap (fun _ => true) true (Some (8192, old_block 5)) 5 3 MAP_SHARED 3 0 demo_proc with
  | Ret r p =>
    r = 12288 /\ match u_mmap p with [m] => take 5 (bytes m) = hello /\ take 5 (drop (Z.to_nat (r - addr m)) (bytes m)) = replicate 5 7 | _ => False end
    /\ match munmap (fun _ => true) r 5 p with Ret x p' => x = -1 /\ w_errno (fio p') = EINVAL /\ u_mmap p' = u_mmap p | _ => False end
  | _ => False
  end.
Proof. vm_compute. repeat split. Qed.

(** The size of the block wraps around: a mapping of nearly all memory has a block
    of 4095 bytes. *)
Example block_size_wraps : alloc_size (2 ^ 32 - 1) = 4095.
Proof. reflexivity. Qed.
