(* ===== verification/Open.v ===== *)
(** * open

    Models library/open.c with the pseudo terminals of library/__close.c, on top of
    the descriptors of [Descrip] and the names of [Paths].  The world has the two
    tables together with what open adds to a file structure ([io]: f_read, f_write
    and f_ttyflags; [names]: the strings f_name points to), the table of pseudo
    terminals, the string literal that open overwrites with the name of one, and
    the mutex [open_sem] that protects it.

    stat, filenamecmp, convert_dir, kmalloc, the ids of the user and __fstat are
    arguments ([answers]).  A Seek and the call of ftruncate are logged. *)

From S2P Require Import Prelude Users Descrip Dos Fileio DescripInv DescripOps Paths PathsTheorems.
Import Paths.

Module Op.

Definition O_CREAT : Z := 0x200.
Definition O_TRUNC : Z := 0x400.
Definition O_EXCL : Z := 0x800.
Definition O_CASE : Z := 0x1000.
Definition FMASK : Z := Z.lor (Z.lor Descrip.FREAD Descrip.FWRITE) Descrip.FCNTLFLAGS.
Definition FSDF_MODE : Z := 0x1.
Definition FSDF_OWNER : Z := 0x2.
Definition MODE_OLDFILE : Z := 1005.
Definition MODE_NEWFILE : Z := 1006.
Definition MODE_READWRITE : Z := 1004.
Definition EACCES : Z := Fio.EACCES.
Definition S_IFMT : Z := 0xf000.
Definition S_IFDIR : Z := 0x4000.
Definition S_ISDIR (mode : Z) : bool := Z.land mode S_IFMT =? S_IFDIR.
Definition tty_default : Z := Z.lor Fio.IXTTY_ICRNL (Z.lor Fio.IXTTY_OPOST Fio.IXTTY_ONLCR).

(** ** Pseudo terminals *)

Definition IX_NUM_PTYS : Z := 6 * 16.
Definition IX_PTY_SLAVE : Z := 0x03.
Definition IX_PTY_MASTER : Z := 0x0c.
Definition IX_PTY_OPEN : Z := 0x05.
Definition IX_PTY_CLOSE : Z := 0x0a.
Definition pty_end (master : bool) : Z := if master then IX_PTY_MASTER else IX_PTY_SLAVE.
Definition ch_m : Z := 109.
Definition ch_c : Z := 99.
Definition ch_a : Z := 97.
Definition ch_0 : Z := 48.

(** The literal after the two stores: [m] is the memory of the name, [i] what
    is_pseudoterminal returned. *)
Definition pty_name (literal : str) (m : list Z) (i : Z) : option str :=
  x ← aget m i;
  a ← aget m (i + 1); b ← aget m (i + 2); c ← aget m (i + 3); d ← aget m (i + 4);
  Some (aput (take 7 literal ++ [a; b; c; d] ++ drop 11 literal) 17 (if x =? ch_p then ch_m else ch_c)).

Definition pty_index (name : str) : option Z :=
  l ← aget name 9; d ← aget name 10;
  Some ((l - ch_p) * 16 + d - (if ch_a <=? d then ch_a - 10 else ch_0)).

Definition pty_busy (v : Z) (master : bool) : bool := bset v (Z.lor (pty_end master) IX_PTY_CLOSE).
Definition pty_open (v : Z) (master : bool) : Z := Z.lor v (Z.land (Z.lor (pty_end master) IX_PTY_CLOSE) IX_PTY_OPEN).
Definition pty_undo (v : Z) (master : bool) : Z := bclr v (Z.land (Z.lor (pty_end master) IX_PTY_CLOSE) IX_PTY_OPEN).

(** What __close does to the table. *)
Definition pty_close (v : Z) (master : bool) : Z :=
  let v := bclr v (Z.land (pty_end master) IX_PTY_OPEN) in
  let v := Z.lor v (Z.land (pty_end master) IX_PTY_CLOSE) in
  if negb (bset v IX_PTY_OPEN) then 0 else v.

(** ** The world *)

Inductive event := ESeekEnd (fh : Z) | ETruncate (fd : Z).

Record world (W : Type) := mk_world {
  de : Descrip.world;
  io : gmap Z (option Fio.reader * option Fio.writer * Z);
  names : gmap Z str;
  ix_ptys : list Z;
  literal : str;
  sigmask : Z;
  open_sem : bool;
  tk : task W;
  olog : list event
}.
Arguments mk_world {W} _ _ _ _ _ _ _ _ _.
Arguments de {W} _.
Arguments io {W} _.
Arguments names {W} _.
Arguments ix_ptys {W} _.
Arguments literal {W} _.
Arguments sigmask {W} _.
Arguments open_sem {W} _.
Arguments tk {W} _.
Arguments olog {W} _.

Record answers := mk_answers {
  file_mem : Z;                            (** kmalloc of a file structure *)
  name_mem : Z;                            (** kmalloc of f_name *)
  a_stat : option Descrip.stat;            (** stat, or that it failed *)
  stat_errno : Z;
  other_case : bool;                       (** filenamecmp *)
  dir : option Z;                          (** convert_dir has set up the file with this f_name *)
  u_cmask : Z;
  muBase : bool;
  ids : Z * Z;                             (** geteuid and getegid *)
  __fstat : Descrip.file -> Descrip.stat
}.

Section Open.
Context {W : Type} `{!PathOps W}.
Implicit Types (w : world W).

Definition set_de w v := mk_world v (io w) (names w) (ix_ptys w) (literal w) (sigmask w) (open_sem w) (tk w) (olog w).
Definition set_io w v := mk_world (de w) v (names w) (ix_ptys w) (literal w) (sigmask w) (open_sem w) (tk w) (olog w).
Definition set_names w v := mk_world (de w) (io w) v (ix_ptys w) (literal w) (sigmask w) (open_sem w) (tk w) (olog w).
Definition set_ptys w v := mk_world (de w) (io w) (names w) v (literal w) (sigmask w) (open_sem w) (tk w) (olog w).
Definition set_literal w v := mk_world (de w) (io w) (names w) (ix_ptys w) v (sigmask w) (open_sem w) (tk w) (olog w).
Definition set_mask w v := mk_world (de w) (io w) (names w) (ix_ptys w) (literal w) v (open_sem w) (tk w) (olog w).
Definition set_sem w v := mk_world (de w) (io w) (names w) (ix_ptys w) (literal w) (sigmask w) v (tk w) (olog w).
Definition set_tk w (v : task W) := mk_world (de w) (io w) (names w) (ix_ptys w) (literal w) (sigmask w) (open_sem w) v (olog w).
Definition logs w e := mk_world (de w) (io w) (names w) (ix_ptys w) (literal w) (sigmask w) (open_sem w) (tk w) (olog w ++ [e]).
Definition set_errno w e := set_de w (Descrip.set_errno (de w) e).
Definition put_file w fp f := set_de w (Descrip.put_file (de w) fp f).

Definition sigsetmask (m : Z) w : world W := set_mask w (bclr m Fio.sigcantmask).

Definition in_de {A} (m : Descrip.world -> outcome Descrip.world A) w : outcome (world W) A :=
  match m (de w) with
  | Ret a v => Ret a (set_de w v)
  | Asleep v => Asleep (set_de w v)
  | Panic s => Panic s
  | Fault => Fault
  | Diverge => Diverge
  end.

Definition in_tk {A} (m : task W -> outcome (task W) A) w : outcome (world W) A :=
  match m (tk w) with
  | Ret a v => Ret a (set_tk w v)
  | Asleep v => Asleep (set_tk w v)
  | Panic s => Panic s
  | Fault => Fault
  | Diverge => Diverge
  end.

(** The label [error]; [pty] is the pseudo terminal that was marked, with its end. *)
Definition error_exit (error fp fd omask : Z) (pty : option (Z * bool)) w : outcome (world W) Z :=
  let w := set_sem w false in
  let? w :=
    match pty with
    | None => Some w
    | Some (i, master) => v ← aget (ix_ptys w) i; Some (set_ptys w (aput (ix_ptys w) i (pty_undo v master)))
    end in
  let? f := Descrip.files (de w) !! fp in
  let f := Descrip.set_count f (Descrip.f_count f - 1) in
  let w := put_file w fp f in
  let w := if Descrip.f_count f =? 0 then set_de w (Descrip.ffree fp (de w)) else w in
  let w := set_errno (sigsetmask omask w) error in
  Ret (-1) (set_de w (Descrip.set_cur (de w) (Descrip.put_ofile (Descrip.cur (de w)) fd 0))).

(** stat and, for a file that will be created, its mode and owner. *)
Definition first_stat (a : answers) (mode perms : Z) (f : Descrip.file) : bool * Descrip.file :=
  match a_stat a with
  | Some st =>
    (false, Descrip.mk_file (Descrip.f_name f) (Descrip.f_stb_dirty f) (Descrip.f_type f) (Descrip.f_flags f)
              (Descrip.f_count f) (Descrip.f_close f) (Descrip.f_fh f) (Descrip.f_sock f) st)
  | None =>
    (true,
     if (stat_errno a =? ENOENT) && bset mode O_CREAT then
       let dirty := Z.lor (Descrip.f_stb_dirty f) FSDF_MODE in
       let dirty := if negb (muBase a) && (negb (fst (ids a) =? u16 (-2)) || negb (snd (ids a) =? u16 (-2)))
                    then Z.lor dirty FSDF_OWNER else dirty in
       Descrip.mk_file (Descrip.f_name f) dirty (Descrip.f_type f) (Descrip.f_flags f)
         (Descrip.f_count f) (Descrip.f_close f) (Descrip.f_fh f) (Descrip.f_sock f)
         (Descrip.mk_stat (bclr perms (u_cmask a)) (Descrip.st_size (Descrip.f_stb f)) (Descrip.st_blksize (Descrip.f_stb f)))
     else f)
  end.

(** The modes that are refused. *)
Definition invalid_mode (mode : Z) (exists_ : bool) : option Z :=
  let m := Z.land mode (Z.lor O_CREAT (Z.lor O_TRUNC O_EXCL)) in
  if (m =? O_EXCL) || (m =? Z.lor O_EXCL O_TRUNC) then Some EINVAL
  else if ((m =? Z.lor O_CREAT O_EXCL) || (m =? Z.lor O_CREAT (Z.lor O_EXCL O_TRUNC))) && exists_ then Some EEXIST
  else None.

(** The name that is opened and the pseudo terminal it stands for; [inr] is an
    error. *)
Definition real_name (name : str) (behind : list Z) w : outcome (world W) ((str * option (Z * bool)) + Z) :=
  if strcmp name (lit "/dev/tty") then Ret (inl ([STAR], None)) w
  else
    let m := name ++ 0 :: behind in
    let? i := is_pseudoterminal m in
    if i =? 0 then Ret (inl (name, None)) w
    else
      let? n := pty_name (literal w) m i in
      let w := set_literal w n in
      let? idx := pty_index n in
      let? e := aget n 17 in
      let master := e =? ch_m in
      let? v := aget (ix_ptys w) idx in
      if pty_busy v master then Ret (inr Descrip.EIO) w
      else Ret (inl (n, Some (idx, master))) (set_ptys w (aput (ix_ptys w) idx (pty_open v master))).

(** [do ... while (!fh)]: a handler that does not know MODE_READWRITE is asked for
    a new file.  The result is the handle and the mode, or an error. *)
Definition open_handle (u : user) (old : nat -> Z) (name : str) (amode : Z) w : outcome (world W) ((Z * Z) + Z) :=
  let* (fh, w) := in_tk (__open u old name amode) w in
  if negb (fh =? 0) then Ret (inl (fh, amode)) w
  else
    let err := p_IoErr (dos (tk w)) in
    if bool_decide (err = ERROR_ACTION_NOT_KNOWN) && (amode =? MODE_READWRITE) then
      let* (fh, w) := in_tk (__open u old name MODE_NEWFILE) w in
      if negb (fh =? 0) then Ret (inl (fh, MODE_NEWFILE)) w
      else Ret (inr (Fio.__ioerr_to_errno (p_IoErr (dos (tk w))))) w
    else Ret (inr (Fio.__ioerr_to_errno err)) w.

(** The handlers of an opened file. *)
Definition set_handlers (fp mode : Z) (w : world W) : world W :=
  let '(rd, wr, tty) := default (None, None, 0) (io w !! fp) in
  set_io w (<[fp := (if bset mode Descrip.FREAD then Some Fio.R_read else rd,
                     if bset mode Descrip.FWRITE then Some Fio.W_write else wr, tty)]> (io w)).

(** The label [ret_ok]. *)
Definition ret_ok (a : answers) (late_stat : bool) (mode amode fp fd omask : Z) w : outcome (world W) Z :=
  let? f := Descrip.files (de w) !! fp in
  let f := if late_stat
           then Descrip.mk_file (Descrip.f_name f) (Descrip.f_stb_dirty f) (Descrip.f_type f) (Descrip.f_flags f)
                  (Descrip.f_count f) (Descrip.f_close f) (Descrip.f_fh f) (Descrip.f_sock f) (__fstat a f)
           else f in
  let w := sigsetmask omask (put_file w fp f) in
  if bset mode O_TRUNC && negb (amode =? MODE_NEWFILE) then
    Ret fd (put_file (logs w (ETruncate fd)) fp
      (Descrip.mk_file (Descrip.f_name f) (Z.lor (Descrip.f_stb_dirty f) Fio.FSDF_UTIME) (Descrip.f_type f) (Descrip.f_flags f)
         (Descrip.f_count f) (Descrip.f_close f) (Descrip.f_fh f) (Descrip.f_sock f) (Descrip.f_stb f)))
  else Ret fd w.

(** convert_dir sets up a file in memory. *)
Definition as_directory (a : answers) (fp : Z) (f : Descrip.file) w : world W :=
  match dir a with
  | Some n =>
    let '(_, wr, tty) := default (None, None, 0) (io w !! fp) in
    set_io (put_file w fp (Descrip.mk_file n (Descrip.f_stb_dirty f) Fio.DTYPE_MEM (Descrip.f_flags f)
                             (Descrip.f_count f) (Some Descrip.H_mclose) (Descrip.f_fh f) (Descrip.f_sock f) (Descrip.f_stb f)))
           (<[fp := (Some Fio.R_mread, wr, tty)]> (io w))
  | None => w
  end.

(** From the filter of the modes on. *)
Definition open_file (a : answers) (u : user) (old : nat -> Z) (name : str) (behind : list Z) (late_stat : bool)
    (mode fp fd omask : Z) w : outcome (world W) Z :=
  match invalid_mode mode (negb late_stat) with
  | Some error => error_exit error fp fd omask None w
  | None =>
    let amode := if bset mode O_CREAT then MODE_READWRITE else MODE_OLDFILE in
    let* (r, w) := real_name name behind w in
    match r with
    | inr error => error_exit error fp fd omask None w
    | inl (name, pty) =>
      let* (r, w) := open_handle u old name amode w in
      match r with
      | inr error => error_exit error fp fd omask pty w
      | inl (fh, amode) =>
        let w := if bset mode Descrip.O_APPEND then logs w (ESeekEnd fh) else w in
        let w := set_handlers fp mode (set_sem w false) in
        let? f := Descrip.files (de w) !! fp in
        let w := put_file w fp (Descrip.mk_file (name_mem a) (Descrip.f_stb_dirty f) Descrip.DTYPE_FILE (Descrip.f_flags f)
                   (Descrip.f_count f) (Some Descrip.H_close) fh (Descrip.f_sock f) (Descrip.f_stb f)) in
        let w := if name_mem a =? 0 then w else set_names w (<[name_mem a := name]> (names w)) in
        ret_ok a late_stat mode amode fp fd omask w
      end
    end
  end.

Definition open (a : answers) (u : user) (old : nat -> Z) (name : option str) (behind : list Z) (mode perms : Z) w
    : outcome (world W) Z :=
  match name with
  | None => Ret EACCES w
  | Some name =>
    let mode := Descrip.FFLAGS mode in
    let omask := sigmask w in
    let w := sigsetmask (-1) w in
    let* (r, w) := in_de (Descrip.falloc (file_mem a)) w in
    let '(error, fp, fd) := r in
    if negb (error =? 0) then Ret (-1) (set_errno (sigsetmask omask w) error)
    else
      let w := match Descrip.parent (de w) with
               | Some _ => set_de w (Descrip.set_self (de w) (Descrip.put_ofile (Descrip.self (de w)) fd 0xdeadbeef))
               | None => w
               end in
      if open_sem w then Asleep w
      else
        let w := set_sem w true in
        let? f := Descrip.files (de w) !! fp in
        let '(late_stat, f) := first_stat a mode perms f in
        let w := if late_stat then set_errno w (stat_errno a) else w in
        let f := Descrip.set_fflags f (Z.land mode FMASK) in
        let w := put_file w fp f in
        let '(rd, wr, _) := default (None, None, 0) (io w !! fp) in
        let w := set_io w (<[fp := (rd, wr, tty_default)]> (io w)) in
        if bset mode O_CASE && negb late_stat && negb (bool_decide (COLON ∈ name)) && other_case a then
          error_exit ENOENT fp fd omask None w
        else if negb late_stat && S_ISDIR (Descrip.st_mode (Descrip.f_stb f)) && negb (bset mode Descrip.FWRITE) then
          let w := as_directory a fp f w in
          if negb (default 0 (dir a) =? 0) then ret_ok a late_stat mode 0 fp fd omask (set_sem w false)
          else error_exit 0 fp fd omask None w
        else open_file a u old name behind late_stat mode fp fd omask w
  end.
End Open.
End Op.

(** ** Lemmas *)

Import Op.

Definition hex_digit (c : Z) : Prop := 48 <= c <= 57 \/ 97 <= c <= 102.

(** What is_pseudoterminal accepts when the byte behind the final 0 is not 0. *)
Lemma guard_inv m k P body i : guard m k P body = Some i -> i <> 0 -> exists c, aget m k = Some c /\ P c = true /\ body = Some i.
Proof.
  unfold guard. destruct (aget m k) as [c|]; cbn; [|done]. destruct (P c) eqn:E; [eauto|]. intros [= <-]. done.
Qed.

Lemma aget_memory b s (k : nat) c : Forall (.≠ 0) b -> aget (b ++ 0 :: s) (Z.of_nat k) = Some c -> (k <= length b)%nat ->
  c <> 0 -> (S k <= length b)%nat.
Proof.
  intros _ E Hk Hc. unfold aget in E. rewrite (proj2 (Z.leb_le _ _)), Nat2Z.id in E by lia. by eapply memory_char.
Qed.

Lemma strchr_hex c : strchr (lit "0123456789abcdef") c = true -> c <> 0 -> hex_digit c.
Proof.
  unfold strchr. rewrite orb_true_iff, bool_decide_eq_true. intros [H|H] Hc; [|lia].
  unfold hex_digit. apply list_elem_of_In in H. cbn in H. intuition lia.
Qed.

Lemma pty_chars b x s i r : Forall (.≠ 0) b -> x <> 0 -> (4 <= length b)%nat ->
  let m := b ++ 0 :: x :: s in
  guard m 4 (fun c => (c =? ch_p) || (c =? ch_t))
    (guard m 5 (fun c => c =? ch_t)
    (guard m 6 (fun c => c =? ch_y)
    (guard m 7 (fun c => (ch_p <=? c) && (c <=? ch_u))
    (guard m 8 (strchr (lit "0123456789abcdef"))
    (guard m 9 (fun c => c =? 0) (Some i)))))) = Some r -> r <> 0 ->
  i = r /\ exists c4 c5 c6 c7 c8, aget m 4 = Some c4 /\ aget m 5 = Some c5 /\ aget m 6 = Some c6 /\
    aget m 7 = Some c7 /\ aget m 8 = Some c8 /\ ch_p <= c7 <= ch_u /\ hex_digit c8.
Proof.
  intros Hb Hx Hl m H Hk.
  apply guard_inv in H as (c4 & E4 & P4 & H); [|done]. apply guard_inv in H as (c5 & E5 & P5 & H); [|done].
  apply guard_inv in H as (c6 & E6 & P6 & H); [|done]. apply guard_inv in H as (c7 & E7 & P7 & H); [|done].
  apply guard_inv in H as (c8 & E8 & P8 & H); [|done]. apply guard_inv in H as (c9 & E9 & P9 & H); [|done].
  injection H as ->. split; [done|]. exists c4, c5, c6, c7, c8. unfold ch_p, ch_t, ch_u, ch_y in *.
  assert (5 <= length b)%nat by (apply (aget_memory b (x :: s) 4 c4); auto; lia).
  assert (6 <= length b)%nat by (apply (aget_memory b (x :: s) 5 c5); auto; lia).
  assert (7 <= length b)%nat by (apply (aget_memory b (x :: s) 6 c6); auto; lia).
  assert (8 <= length b)%nat by (apply (aget_memory b (x :: s) 7 c7); auto; lia).
  split_and!; try done; try lia. apply strchr_hex; [done|]. intros ->. apply Z.eqb_eq in P9 as ->.
  destruct (decide (length b = 8)%nat) as [H8|H8].
  - unfold aget, m in E9. cbn in E9. rewrite lookup_app_r, H8 in E9 by lia.
    change (Z.to_nat 9 - 8)%nat with 1%nat in E9. by injection E9 as ->.
  - unfold aget, m in E8. cbn in E8. rewrite lookup_app_l in E8 by lia.
    eapply Forall_lookup_1 in E8; [|exact Hb]. done.
Qed.

(** The four characters and the index of a pseudo terminal. *)
Lemma pseudoterminal_index name x s literal i :
  Forall (.≠ 0) name -> x <> 0 -> length literal = 18%nat ->
  is_pseudoterminal (name ++ 0 :: x :: s) = Some i -> i <> 0 ->
  exists n idx, pty_name literal (name ++ 0 :: x :: s) i = Some n /\ length n = 18%nat /\
    pty_index n = Some idx /\ 0 <= idx < IX_NUM_PTYS /\ is_Some (aget n 17).
Proof.
  intros Hn Hx Hl Hp Hi.
  assert (exists m j, (j = 0 \/ j = 1) /\ i = j + 4 /\ (forall k, 0 <= k -> aget (name ++ 0 :: x :: s) (j + k) = aget m k) /\
    exists c4 c5 c6 c7 c8, aget m 4 = Some c4 /\ aget m 5 = Some c5 /\ aget m 6 = Some c6 /\
      aget m 7 = Some c7 /\ aget m 8 = Some c8 /\ ch_p <= c7 <= ch_u /\ hex_digit c8)
    as (m & j & Hj & -> & Hsh & c4 & c5 & c6 & c7 & c8 & E4 & E5 & E6 & E7 & E8 & H7 & H8).
  { unfold is_pseudoterminal, strcmp in Hp. case_bool_decide as H1; cbn [orb] in Hp.
    - pose proof (memory_prefix name (x :: s) (lit "/dev/") H1 ltac:(by repeat constructor)) as Hlen.
      destruct name as [|c name]; [cbn in Hlen; lia|]. apply Forall_cons in Hn as [_ Hn]. cbn in Hlen.
      change (drop 1 ((c :: name) ++ 0 :: x :: s)) with (name ++ 0 :: x :: s) in Hp.
      apply pty_chars in Hp as [E Hc]; [|done|done|lia|done].
      exists (name ++ 0 :: x :: s), 1. split; [by right|]. split; [lia|]. split; [|done].
      intros k Hk. unfold aget. rewrite !(proj2 (Z.leb_le _ _)) by lia. by replace (Z.to_nat (1 + k)) with (S (Z.to_nat k)) by lia.
    - case_bool_decide as H2; [|by injection Hp as <-].
      pose proof (memory_prefix name (x :: s) (lit "dev:") H2 ltac:(by repeat constructor)) as Hlen. cbn in Hlen.
      apply pty_chars in Hp as [E Hc]; [|done|done|lia|done].
      exists (name ++ 0 :: x :: s), 0. split; [by left|]. split; [lia|]. split; [|done]. intros k _. done. }
  unfold pty_name.
  replace (j + 4 + 1) with (j + 5) by lia. replace (j + 4 + 2) with (j + 6) by lia.
  replace (j + 4 + 3) with (j + 7) by lia. replace (j + 4 + 4) with (j + 8) by lia.
  rewrite !Hsh, E4, E5, E6, E7, E8 by lia. cbn [mbind option_bind].
  set (n := aput _ 17 _). exists n.
  do 18 (destruct literal as [|? literal]; [done|]). destruct literal; [|done].
  unfold n. cbn. eexists. split; [done|]. split; [done|]. split; [done|]. split; [|done].
  unfold hex_digit, ch_p, ch_u, ch_a, ch_0, IX_NUM_PTYS in *. destruct (Z.leb_spec 97 c8); lia.
Qed.

(** A mark that is taken back. *)
Lemma pty_undo_open v master : pty_busy v master = false -> pty_undo (pty_open v master) master = v.
Proof.
  unfold pty_busy, bset. rewrite negb_false_iff, Z.eqb_eq. intros Hb.
  unfold pty_undo, pty_open, bclr. apply Z.bits_inj'. intros n Hn.
  apply (f_equal (fun x => Z.testbit x n)) in Hb. rewrite Z.land_spec, Z.bits_0 in Hb.
  rewrite Z.land_spec, Z.lnot_spec, Z.lor_spec, Z.land_spec by done.
  destruct (Z.testbit v n), (Z.testbit (Z.lor (pty_end master) IX_PTY_CLOSE) n), (Z.testbit IX_PTY_OPEN n); done.
Qed.

Import DescripInv.

(** The label [error] of open, for the descriptors. *)
Lemma give_back ext d fp fd f e :
  inv [fp] ext d -> aget (Descrip.u_ofile (Descrip.self d)) fd = Some fp -> fp <> 0 ->
  Descrip.files d !! fp = Some f -> Descrip.f_count f = 1 ->
  inv [] ext (Descrip.set_self (Descrip.set_errno (Descrip.ffree fp (Descrip.put_file d fp (Descrip.set_count f 0))) e)
    (Descrip.put_ofile (Descrip.self d) fd 0)).
Proof.
  intros Hinv Hfd Hnz Hf Hc. assert (fp ∈ Descrip.used_files d) as Hu by by eapply inv_open.
  pose proof (inv_take _ _ _ _ _ Hinv Hfd Hnz) as H1.
  assert (inv [] ext (Descrip.put_file (Descrip.set_self d (Descrip.put_ofile (Descrip.self d) fd 0)) fp (Descrip.set_count f 0))) as H2.
  { eapply (inv_uncount _ _ _ _ _ f); [exact H1|apply (inv_ext _ _ _ Hinv)|done|done|cbn; lia|done|].
    intros x ->%list_elem_of_singleton. by right. }
  eapply (inv_ffree _ _ _ fp (Descrip.set_count f 0)) in H2; [|done|cbn; by rewrite lookup_insert_eq|done].
  eapply inv_same; [exact H2|..]; unfold Descrip.ffree; rewrite (proj2 (Z.eqb_neq fp 0)) by done; done.
Qed.

Section Guarantees.
Context {W : Type} `{!PathOps W}.
Context {held : W -> gmap Z nat} {cur : W -> Z} `{!PathLaws held cur}.
Implicit Types (w : world W).

(** Between falloc and the return: [fp] at [fd] is being set up. *)
Record pending (ext : Z -> Z) (w0 w : world W) (fp fd : Z) (f : Descrip.file) : Prop := {
  pe_inv : inv [fp] ext (de w);
  pe_low : lowest_free (Descrip.u_ofile (Descrip.self (de w0))) 0 fd;
  pe_table : Descrip.u_ofile (Descrip.self (de w)) = aput (Descrip.u_ofile (Descrip.self (de w0))) fd fp;
  pe_new : fp <> 0;
  pe_file : Descrip.files (de w) !! fp = Some f;
  pe_count : Descrip.f_count f = 1;
  pe_literal : length (literal w) = 18%nat;
  pe_dir : exists d, held (dos (tk w)) !! cur (dos (tk w)) = Some d
}.

(** Both ways open returns. *)
Definition refused (ext : Z -> Z) (w0 w' : world W) (r : Z) : Prop :=
  r = -1 /\ Descrip.u_ofile (Descrip.self (de w')) = Descrip.u_ofile (Descrip.self (de w0)) /\ ix_ptys w' = ix_ptys w0.
Definition granted (ext : Z -> Z) (mode : Z) (w0 w' : world W) (fd : Z) : Prop :=
  exists fp f, lowest_free (Descrip.u_ofile (Descrip.self (de w0))) 0 fd /\
    Descrip.u_ofile (Descrip.self (de w')) = aput (Descrip.u_ofile (Descrip.self (de w0))) fd fp /\
    Descrip.files (de w') !! fp = Some f /\ Descrip.f_count f = 1 /\ Descrip.f_flags f = Z.land mode FMASK /\
    (Descrip.f_close f = Some Descrip.H_close \/ Descrip.f_close f = Some Descrip.H_mclose).
Definition settled (ext : Z -> Z) (w0 w' : world W) : Prop :=
  inv [] ext (de w') /\ open_sem w' = false /\ sigmask w' = sigmask w0 /\ length (literal w') = 18%nat.

Lemma pending_fd ext w0 w fp fd f : pending ext w0 w fp fd f ->
  aget (Descrip.u_ofile (Descrip.self (de w))) fd = Some fp /\
  aput (Descrip.u_ofile (Descrip.self (de w))) fd 0 = Descrip.u_ofile (Descrip.self (de w0)).
Proof.
  intros []. destruct pe_low0 as (Hr & H0 & _). rewrite pe_table0. split; [by eapply aget_aput_eq|].
  rewrite aput_aput. by apply aput_same.
Qed.

Lemma error_exit_spec ext w0 w fp fd f error pty :
  pending ext w0 w fp fd f -> bclr (sigmask w0) Fio.sigcantmask = sigmask w0 ->
  match pty with
  | None => ix_ptys w = ix_ptys w0
  | Some (i, master) => exists v, aget (ix_ptys w0) i = Some v /\ pty_busy v master = false /\
      ix_ptys w = aput (ix_ptys w0) i (pty_open v master)
  end ->
  exists w', error_exit error fp fd (sigmask w0) pty w = Ret (-1) w' /\ settled ext w0 w' /\ refused ext w0 w' (-1).
Proof.
  intros Hp Hm Hpty. destruct (pending_fd _ _ _ _ _ _ Hp) as [Hfd Hback]. destruct Hp as [Hinv _ _ Hnz Hf Hc Hl _].
  unfold error_exit.
  assert (exists w1, match pty with
    | None => Some (set_sem w false)
    | Some (i, master) => v ← aget (ix_ptys (set_sem w false)) i;
        Some (set_ptys (set_sem w false) (aput (ix_ptys (set_sem w false)) i (pty_undo v master)))
    end = Some w1 /\ ix_ptys w1 = ix_ptys w0 /\ de w1 = de w /\ open_sem w1 = false /\ literal w1 = literal w)
    as (w1 & -> & Hpt & Hde & Hsem & Hlit).
  { destruct pty as [[i master]|]; [|by exists (set_sem w false)].
    destruct Hpty as (v & Ev & Hb & Ew). cbn [set_sem ix_ptys]. rewrite Ew, (aget_aput_eq _ _ _ v) by done. cbn.
    eexists. split; [done|]. cbn. rewrite aput_aput, pty_undo_open by done. by rewrite aput_same. }
  rewrite Hde, Hf. cbn [Descrip.set_count Descrip.f_count]. rewrite Hc. change (1 - 1) with 0. change (0 =? 0) with true. cbv iota.
  eexists. split; [done|]. unfold settled, refused. cbn. rewrite Hde.
  assert (Descrip.parent (de w) = None) as Hpar by apply Hinv.
  assert (forall d e u, Descrip.parent d = None ->
    Descrip.set_cur (Descrip.set_errno (Descrip.ffree fp d) e) u = Descrip.set_self (Descrip.set_errno (Descrip.ffree fp d) e) u
    /\ Descrip.cur (Descrip.set_errno (Descrip.ffree fp d) e) = Descrip.self d) as Hcs.
  { intros d e u Hd. unfold Descrip.set_cur, Descrip.cur, Descrip.ffree. rewrite (proj2 (Z.eqb_neq fp 0)) by done. cbn.
    by rewrite Hd. }
  set (d := Descrip.put_file (de w) fp (Descrip.set_count f 0)).
  change (Descrip.put_file (de w) fp _) with d.
  destruct (Hcs d error (Descrip.put_ofile (Descrip.self (de w)) fd 0) Hpar) as [E1 E2].
  rewrite E2. change (Descrip.self d) with (Descrip.self (de w)). rewrite E1. split_and!; try done.
  - by apply give_back.
  - by rewrite Hlit.
Qed.

Lemma ret_ok_spec ext w0 w fp fd f a late mode amode :
  pending ext w0 w fp fd f -> bclr (sigmask w0) Fio.sigcantmask = sigmask w0 -> open_sem w = false ->
  Descrip.f_flags f = Z.land mode FMASK ->
  (Descrip.f_close f = Some Descrip.H_close \/ Descrip.f_close f = Some Descrip.H_mclose) ->
  exists w', ret_ok a late mode amode fp fd (sigmask w0) w = Ret fd w' /\ settled ext w0 w' /\ granted ext mode w0 w' fd.
Proof.
  intros [Hinv Hlow Htab Hnz Hf Hc Hl _] Hm Hsem Hfl Hcl. unfold ret_ok. rewrite Hf.
  set (f1 := if late then _ else f).
  assert (Descrip.f_flags f1 = Z.land mode FMASK /\ Descrip.f_count f1 = 1 /\ Descrip.f_close f1 = Descrip.f_close f) as (Hfl1 & Hc1 & Hcl1)
    by (unfold f1; by destruct late).
  assert (is_Some (Descrip.f_close f1)) as Hs by (rewrite Hcl1; destruct Hcl as [->| ->]; eauto).
  assert (inv [] ext (Descrip.put_file (de w) fp f1)) as Hinv1.
  { eapply inv_put; [exact Hinv|exact Hf|lia|by right|]. intros x ->%list_elem_of_singleton. by right. }
  destruct (_ && _); eexists; (split; [done|]); (split; [split_and!; cbn; try done|]).
  - eapply inv_put; [exact Hinv1|cbn; by rewrite lookup_insert_eq|done|by left|]. intros x Hx. by apply not_elem_of_nil in Hx.
  - exists fp. eexists. split; [done|]. split; [done|]. split; [cbn; apply lookup_insert_eq|]. cbn. by rewrite Hcl1.
  - exists fp. eexists. split; [done|]. split; [done|]. split; [cbn; apply lookup_insert_eq|]. cbn. by rewrite Hcl1.
Qed.

Lemma pending_frame ext w0 w w' fp fd f :
  pending ext w0 w fp fd f -> de w' = de w -> length (literal w') = 18%nat -> tk w' = tk w -> pending ext w0 w' fp fd f.
Proof. intros [] Hd Hl Ht. split; rewrite ?Hd, ?Ht; done. Qed.

Lemma pending_put ext w0 w fp fd f f' :
  pending ext w0 w fp fd f -> Descrip.f_count f' = Descrip.f_count f ->
  (Descrip.f_close f' = Descrip.f_close f \/ is_Some (Descrip.f_close f')) ->
  pending ext w0 (put_file w fp f') fp fd f'.
Proof.
  intros [] Hc Hcl. split; try done; [|cbn; by rewrite lookup_insert_eq|congruence].
  eapply inv_put; [done|done|done|done|]. by left.
Qed.

(** __open from open. *)
Lemma in_tk_open ext w0 w fp fd f u old name amode :
  pending ext w0 w fp fd f ->
  exists fh w', in_tk (__open u old name amode) w = Ret fh w' /\ pending ext w0 w' fp fd f /\
    ix_ptys w' = ix_ptys w /\ open_sem w' = open_sem w /\ de w' = de w.
Proof.
  intros Hp. destruct (pe_dir _ _ _ _ _ _ Hp) as [d Hd].
  destruct (__open_safe u old name amode (tk w) d Hd) as (fh & t' & E & _ & Hh & Hc).
  unfold in_tk. rewrite E. exists fh, (set_tk w t'). split_and!; try done.
  destruct Hp. split; try done. exists d. cbn. by rewrite Hh, Hc.
Qed.

Lemma open_handle_spec ext w0 w fp fd f u old name amode :
  pending ext w0 w fp fd f ->
  exists r w', open_handle u old name amode w = Ret r w' /\ pending ext w0 w' fp fd f /\
    ix_ptys w' = ix_ptys w /\ open_sem w' = open_sem w /\ de w' = de w.
Proof.
  intros Hp. unfold open_handle.
  destruct (in_tk_open ext w0 w fp fd f u old name amode Hp) as (fh & w1 & -> & Hp1 & Ht1 & Hs1 & Hd1). cbn [obind].
  destruct (negb (fh =? 0)); [by do 2 eexists|]. destruct (_ && _); [|by do 2 eexists].
  destruct (in_tk_open ext w0 w1 fp fd f u old name MODE_NEWFILE Hp1) as (fh' & w2 & -> & Hp2 & Ht2 & Hs2 & Hd2). cbn [obind].
  destruct (negb (fh' =? 0)); do 2 eexists; (split; [done|]); split_and!; try done; congruence.
Qed.

(** The name, and the mark of a pseudo terminal that is not in use. *)
Lemma real_name_spec ext w0 w fp fd f name x s :
  pending ext w0 w fp fd f -> Forall (.≠ 0) name -> x <> 0 -> Z.of_nat (length (ix_ptys w)) = IX_NUM_PTYS ->
  exists r w', real_name name (x :: s) w = Ret r w' /\ pending ext w0 w' fp fd f /\
    open_sem w' = open_sem w /\ de w' = de w /\
    match r with
    | inl (_, Some (i, master)) => exists v, aget (ix_ptys w) i = Some v /\ pty_busy v master = false /\
        ix_ptys w' = aput (ix_ptys w) i (pty_open v master)
    | _ => ix_ptys w' = ix_ptys w
    end.
Proof.
  intros Hp Hn Hx Hlen. unfold real_name. destruct (strcmp _ _); [by do 2 eexists|].
  destruct (is_pseudoterminal_safe name (x :: s) ltac:(done)) as [i Hi]. rewrite Hi.
  destruct (Z.eqb_spec i 0) as [|Hi0]; [by do 2 eexists|].
  destruct (pseudoterminal_index name x s (literal w) i Hn Hx (pe_literal _ _ _ _ _ _ Hp) Hi)
    as (n & idx & -> & Hl & -> & Hidx & [e ->]); [done|].
  cbn [set_literal ix_ptys]. destruct (aget_is_Some (ix_ptys w) idx) as [v Ev]; [unfold IX_NUM_PTYS in *; lia|]. rewrite Ev.
  destruct (pty_busy v (e =? ch_m)) eqn:Eb; do 2 eexists; (split; [done|]).
  - split_and!; try done. by eapply pending_frame.
  - split_and!; try done; [by eapply pending_frame|]. by exists v.
Qed.

Lemma open_file_spec ext w0 w fp fd f a u old name x s late mode :
  pending ext w0 w fp fd f -> bclr (sigmask w0) Fio.sigcantmask = sigmask w0 ->
  Forall (.≠ 0) name -> x <> 0 -> Z.of_nat (length (ix_ptys w0)) = IX_NUM_PTYS -> ix_ptys w = ix_ptys w0 ->
  Descrip.f_flags f = Z.land mode FMASK ->
  exists r w', open_file a u old name (x :: s) late mode fp fd (sigmask w0) w = Ret r w' /\ settled ext w0 w' /\
    (refused ext w0 w' r \/ granted ext mode w0 w' r).
Proof.
  intros Hp Hm Hn Hx Hlen Hpt Hfl. unfold open_file. destruct (invalid_mode mode (negb late)) as [e|].
  { destruct (error_exit_spec ext w0 w fp fd f e None Hp Hm Hpt) as (w' & -> & ? & ?). eauto 6. }
  destruct (real_name_spec ext w0 w fp fd f name x s Hp Hn Hx) as (r & w1 & -> & Hp1 & _ & Hd1 & Hr); [by rewrite Hpt|].
  cbn [obind]. destruct r as [[nm pty]|e].
  2:{ destruct (error_exit_spec ext w0 w1 fp fd f e None Hp1 Hm) as (w' & -> & ? & ?); [congruence|]. eauto 6. }
  destruct (open_handle_spec ext w0 w1 fp fd f u old nm (if bset mode O_CREAT then MODE_READWRITE else MODE_OLDFILE) Hp1)
    as (r & w2 & -> & Hp2 & Ht2 & _ & Hd2). cbn [obind]. destruct r as [[fh amode]|e].
  2:{ destruct (error_exit_spec ext w0 w2 fp fd f e pty Hp2 Hm) as (w' & -> & ? & ?); [|eauto 6].
      rewrite Ht2. destruct pty as [[i master]|]; [by rewrite Hpt in Hr|congruence]. }
  set (w3 := set_handlers fp mode (set_sem (if bset mode Descrip.O_APPEND then logs w2 (ESeekEnd fh) else w2) false)).
  assert (pending ext w0 w3 fp fd f /\ open_sem w3 = false) as [Hp3 Hs3].
  { unfold w3, set_handlers. destruct (default _ _) as [[rd wr] tty].
    split; [|done]. eapply pending_frame; [exact Hp2|..]; destruct (bset mode Descrip.O_APPEND); try done; apply Hp2. }
  rewrite (pe_file _ _ _ _ _ _ Hp3). cbv zeta.
  match goal with |- context [put_file w3 fp ?g] => set (f4 := g) end.
  assert (pending ext w0 (put_file w3 fp f4) fp fd f4) as Hp4 by (apply (pending_put _ _ _ _ _ f); [done|done|right; eauto]).
  match goal with |- context [ret_ok a late mode amode fp fd _ ?g] => set (w5 := g) end.
  assert (pending ext w0 w5 fp fd f4 /\ open_sem w5 = false) as [Hp5 Hs5].
  { unfold w5. destruct (name_mem a =? 0); [done|]. split; [|done]. eapply pending_frame; [exact Hp4|done|apply Hp4|done]. }
  destruct (ret_ok_spec ext w0 w5 fp fd f4 a late mode amode Hp5 Hm Hs5 Hfl) as (w' & -> & ? & ?); [by left|]. eauto 6.
Qed.

Lemma first_stat_spec a mode perms f :
  Descrip.f_count (first_stat a mode perms f).2 = Descrip.f_count f /\
  Descrip.f_close (first_stat a mode perms f).2 = Descrip.f_close f.
Proof. unfold first_stat. destruct (a_stat a); [done|]. cbn. by destruct (_ && _). Qed.

(** C8. open of a name (not NULL), in a process that does not use its parent's data,
    with open_sem free and a byte other than 0 behind the end of the name (which
    is_pseudoterminal may read): it returns on every path with the mutex released, the
    signal mask as it was, and the counts and lists of the file structures consistent.
    When it refuses, the descriptors and the marks of the pseudo terminals are those from
    before the call; when it succeeds, the lowest free descriptor refers to a
    structure of its own with the requested flags and a close handler. *)
Theorem open_settles a u old name x s mode perms w ext d :
  inv [] ext (de w) -> fresh_mem (file_mem a) (de w) -> open_sem w = false ->
  bclr (sigmask w) Fio.sigcantmask = sigmask w -> Z.of_nat (length (ix_ptys w)) = IX_NUM_PTYS ->
  length (literal w) = 18%nat -> Forall (.≠ 0) name -> x <> 0 ->
  held (dos (tk w)) !! cur (dos (tk w)) = Some d ->
  exists r w', open a u old (Some name) (x :: s) mode perms w = Ret r w' /\ settled ext w w' /\
    (refused ext w w' r \/ granted ext (Descrip.FFLAGS mode) w w' r).
Proof.
  intros Hinv Hmem Hsem Hm Hpt Hlit Hn Hx Hd. unfold open, in_de. cbn [sigsetmask set_mask de].
  destruct (falloc_spec [] ext (de w) (file_mem a) Hinv Hmem)
    as [(fp & fd & d1 & E & Hfa & Hinv1)|[[_ E]|(d1 & _ & _ & E & Hinv1 & Htab & _)]]; rewrite E; cbn [obind negb Z.eqb].
  2:{ do 2 eexists. split; [done|]. split; [split_and!; try done; by apply inv_errno|]. left. done. }
  2:{ do 2 eexists. split; [done|]. split; [split_and!; try done; by apply inv_errno|]. left. done. }
  destruct (fa_file _ _ _ _ _ Hfa) as (f & Hf & Hc & _). cbn [set_de de].
  rewrite (inv_parent _ _ _ Hinv1). cbn [set_de sigsetmask set_mask open_sem]. rewrite Hsem.
  change (de (set_sem (set_de (sigsetmask (-1) w) d1) true)) with d1. rewrite Hf. pose proof (first_stat_spec a (Descrip.FFLAGS mode) perms f) as [Hc1 Hcl1].
  destruct (first_stat a (Descrip.FFLAGS mode) perms f) as [late f1]. cbn [snd] in Hc1, Hcl1.
  set (f2 := Descrip.set_fflags f1 (Z.land (Descrip.FFLAGS mode) FMASK)).
  match goal with |- context [put_file ?v fp f2] => set (w1 := v) end.
  assert (pending ext w w1 fp fd f) as Hp1.
  { split; try (by unfold w1; destruct late; cbn; try apply Hfa; eauto).
    unfold w1. destruct late; [by apply inv_errno|done]. }
  assert (pending ext w (put_file w1 fp f2) fp fd f2) as Hp2
    by (apply (pending_put _ _ _ _ _ f); [done|unfold f2; cbn; congruence|left; unfold f2; cbn; congruence]).
  destruct (default _ _) as [[rd wr] tty]. match goal with |- context [set_io ?v ?i] => set (w2 := set_io v i) end.
  assert (pending ext w w2 fp fd f2) as Hp3 by (eapply pending_frame; [exact Hp2|done|apply Hp2|done]).
  assert (ix_ptys w2 = ix_ptys w) as Hpt2 by (unfold w2, w1; by destruct late).
  destruct (_ && other_case a).
  { destruct (error_exit_spec ext w w2 fp fd f2 ENOENT None Hp3 Hm Hpt2) as (w' & -> & ? & ?). eauto 6. }
  destruct (_ && negb (bset _ Descrip.FWRITE)); [|by apply open_file_spec with f2].
  set (w3 := as_directory a fp f2 w2).
  assert (exists f3, pending ext w w3 fp fd f3 /\ ix_ptys w3 = ix_ptys w /\
    Descrip.f_flags f3 = Descrip.f_flags f2 /\ (dir a <> None -> Descrip.f_close f3 = Some Descrip.H_mclose))
    as (f3 & Hp4 & Hpt4 & Hfl4 & Hcl4).
  { unfold w3, as_directory. destruct (dir a) as [n|]; [|by exists f2].
    destruct (default _ _) as [[rd' wr'] tty']. 
    match goal with |- context [put_file w2 fp ?g] => exists g; set (f3 := g) end.
    assert (pending ext w (put_file w2 fp f3) fp fd f3) as Hp4 by (apply (pending_put _ _ _ _ _ f2); [done|done|right; eauto]).
    split_and!; try done. eapply pending_frame; [exact Hp4|done|apply Hp4|done]. }
  destruct (Z.eqb_spec (default 0 (dir a)) 0) as [|Hdir]; cbn [negb].
  - destruct (error_exit_spec ext w w3 fp fd f3 0 None Hp4 Hm Hpt4) as (w' & -> & ? & ?). eauto 6.
  - assert (dir a <> None) as Hd' by (intros E0; by rewrite E0 in Hdir).
    destruct (ret_ok_spec ext w (set_sem w3 false) fp fd f3 a late (Descrip.FFLAGS mode) 0) as (w' & -> & ? & ?);
      [|done|done|done|right; auto|eauto 6].
    eapply pending_frame; [exact Hp4|done|apply Hp4|done].
Qed.
End Guarantees.

(** ** The life of a pseudo terminal

    An end is closed, open, or hung up: closed while the other end is open. *)

Inductive end_state := Closed | Opened | Hung.
Definition pty_state : Type := end_state * end_state.     (** master, slave *)

Definition side (st : pty_state) (master : bool) : end_state := if master then fst st else snd st.
Definition with_side (st : pty_state) (master : bool) (e : end_state) : pty_state :=
  if master then (e, snd st) else (fst st, e).

(** An end can be opened once, and no end when one has hung up. *)
Definition may_open (st : pty_state) (master : bool) : bool :=
  match side st master, fst st, snd st with
  | Closed, Hung, _ | Closed, _, Hung => false
  | Closed, _, _ => true
  | _, _, _ => false
  end.
Definition opens (st : pty_state) (master : bool) : pty_state := with_side st master Opened.
(** The last close makes the pair free again. *)
Definition closes (st : pty_state) (master : bool) : pty_state :=
  match side st (negb master) with
  | Opened => with_side st master Hung
  | _ => (Closed, Closed)
  end.

Inductive pty_step : pty_state -> pty_state -> Prop :=
| step_open st master : may_open st master = true -> pty_step st (opens st master)
| step_close st master : side st master = Opened -> pty_step st (closes st master).

Inductive pty_reachable : pty_state -> Prop :=
| pty_free : pty_reachable (Closed, Closed)
| pty_next st st' : pty_reachable st -> pty_step st st' -> pty_reachable st'.

(** The byte of ix_ptys. *)
Definition pty_byte (st : pty_state) : Z :=
  Z.lor (match fst st with Closed => 0 | Opened => 4 | Hung => 8 end)
        (match snd st with Closed => 0 | Opened => 1 | Hung => 2 end).

Lemma reachable_hung st : pty_reachable st ->
  (fst st = Hung -> snd st = Opened) /\ (snd st = Hung -> fst st = Opened).
Proof.
  induction 1 as [|st st' _ [IH1 IH2] [[m s] [|] H|[m s] [|] H]]; [done|..]; cbn in *; destruct m, s; naive_solver.
Qed.

(** The byte that open and __close keep for a pseudo terminal follows its life:
    open finds it busy exactly when the end is not free or one end has hung up, and
    the marks they set are those of the next state.  In particular a pair whose two
    ends were closed can be opened again. *)
Theorem pty_byte_follows st master :
  pty_reachable st ->
  pty_busy (pty_byte st) master = negb (may_open st master) /\
  (may_open st master = true -> pty_open (pty_byte st) master = pty_byte (opens st master)) /\
  (side st master = Opened -> pty_close (pty_byte st) master = pty_byte (closes st master)).
Proof.
  intros Hr. apply reachable_hung in Hr as [H1 H2]. destruct st as [m s]; cbn in H1, H2.
  destruct m, s, master; naive_solver.
Qed.

Lemma pty_byte_follows_witness :
  pty_reachable (Hung, Opened) /\ pty_busy (pty_byte (Hung, Opened)) true = true /\
  pty_close (pty_byte (Hung, Opened)) false = 0.
Proof.
  assert (pty_reachable (Hung, Opened)) as Hr.
  { apply (pty_next (Opened, Opened)); [|by apply (step_close (Opened, Opened) true)].
    apply (pty_next (Opened, Closed)); [|by apply (step_open (Opened, Closed) false)].
    apply (pty_next (Closed, Closed)); [apply pty_free|by apply (step_open (Closed, Closed) true)]. }
  split; [exact Hr|]. destruct (pty_byte_follows (Hung, Opened) true Hr) as (H1 & _).
  destruct (pty_byte_follows (Hung, Opened) false Hr) as (_ & _ & H2).
  split; [exact H1|exact (H2 eq_refl)].
Defined.

(** ** Examples *)

Definition demo_user : Descrip.user := Descrip.mk_user (replicate 512 0) (replicate 512 0) 0.
(** A structure that a file opened for writing has left behind. *)
Definition recycled : Descrip.file := Descrip.mk_file 0 0 0 0 0 (Some Descrip.H_close) 0 (0, 0, 0) (Descrip.mk_stat 0 0 0).
Definition demo_de : Descrip.world := Descrip.mk_world demo_user None {[1000 := recycled]} [] [1000] 0 [].
Definition a_world : world tree :=
  mk_world demo_de {[1000 := (None, Some Fio.W_write, 0)]} ∅ (replicate 96 0) (lit "/fifo/ptyXX/rweksm") 0 false
    (mk_task 5 a_tree) [].
Definition demo_answers (st : option Descrip.stat) : answers :=
  mk_answers 0 3000 st ENOENT false None 0 false (0, 0) (fun f => Descrip.f_stb f).

Lemma demo_inv : inv [] (fun _ => 0) (de a_world).
Proof.
  split; try done.
  - by apply NoDup_singleton.
  - cbn. by intros ?%list_elem_of_singleton.
  - cbn. intros fp ->%list_elem_of_singleton. eauto.
  - intros fp Hfp. change (Descrip.u_ofile (Descrip.self (de a_world))) with (replicate 512 0).
    rewrite refs_not_elem; [lia|]. intros [H _]%elem_of_replicate. done.
  - intros fp f Hu. by apply not_elem_of_nil in Hu.
  - intros fp f Hu. by apply not_elem_of_nil in Hu.
  - intros i fp Hi Hnz. apply aget_elem_of in Hi. by apply elem_of_replicate in Hi as [-> _].
Qed.

Lemma open_settles_witness :
  exists r w', open (demo_answers None) a_user (fun _ => 7) (Some (lit "/dev/ptyp3")) [7] 2 438 a_world = Ret r w' /\
    open_sem w' = false /\ sigmask w' = 0 /\ inv [] (fun _ => 0) (de w').
Proof.
  destruct (open_settles (demo_answers None) a_user (fun _ => 7) (lit "/dev/ptyp3") 7 [] 2 438 a_world (fun _ => 0) 2)
    as (r & w' & E & (Hi & Hs & Hm & _) & _);
    [apply demo_inv|by intros ?|reflexivity|reflexivity|reflexivity|reflexivity|by repeat constructor|done|reflexivity|].
  exists r, w'. split; [exact E|]. split; [exact Hs|]. split; [exact Hm|exact Hi].
Defined.

(** The short name of a pseudo terminal, with a 0 behind its final 0, makes open
    look at an entry in front of the table. *)
Example short_name_faults :
  open (demo_answers None) a_user (fun _ => 7) (Some (lit "/dev/ptyp")) [0] 0 0 a_world = Fault.
Proof. by vm_compute. Qed.

(** A directory that cannot be read: open fails without an error code. *)
Example directory_without_error :
  match open (demo_answers (Some (Descrip.mk_stat 0x41ed 0 0))) a_user (fun _ => 7) (Some (lit "dir")) [7] 0 0 a_world with
  | Ret r w => r = -1 /\ Descrip.w_errno (de w) = 0
  | _ => False
  end.
Proof. by vm_compute. Qed.

(** A file opened for reading in a recycled structure keeps the write handler. *)
Definition open_tree : world tree := set_handlers 1000 Descrip.FREAD a_world.
Example stale_write_handler : io open_tree !! 1000 = Some (Some Fio.R_read, Some Fio.W_write, 0).
Proof. by vm_compute. Qed.

(** Without a name the result is a positive number, like a descriptor. *)
Example open_null : open (demo_answers None) a_user (fun _ => 7) None [] 0 0 a_world = Ret 13 a_world.
Proof. reflexivity. Qed.
