(* ===== verification/Vis.v ===== *)
(** * Visible encoding of characters

    Models general/vis.c and general/unvis.c: [vis] encodes one character, [strvis]
    a string, the state machine [unvis] decodes one character at a time and
    [strunvis] a string.  A character is a number from 0 to 255, a string the list
    of its characters without the final 0.  The tables of general/ctype_.c give
    graphic and control characters of ASCII only. *)

From S2P Require Import Prelude Dos.

Module Vis.

Definition str := list Z.
Definition VIS_OCTAL : Z := 0x01.
Definition VIS_CSTYLE : Z := 0x02.
Definition VIS_SP : Z := 0x04.
Definition VIS_TAB : Z := 0x08.
Definition VIS_NL : Z := 0x10.
Definition VIS_SAFE : Z := 0x20.
Definition VIS_NOSLASH : Z := 0x40.
Definition BACKSLASH : Z := 92.

Definition isascii (c : Z) : bool := c <? 128.
Definition isgraph (c : Z) : bool := (33 <=? c) && (c <=? 126).
Definition iscntrl (c : Z) : bool := (c <? 32) || (c =? 127).
Definition isoctal (c : Z) : bool := (48 <=? c) && (c <=? 55).

(** ** vis *)

(** The characters that stay as they are. *)
Definition kept (flag c : Z) : bool :=
  (isascii c && isgraph c) ||
  (negb (bset flag VIS_SP) && (c =? 32)) ||
  (negb (bset flag VIS_TAB) && (c =? 9)) ||
  (negb (bset flag VIS_NL) && (c =? 10)) ||
  (bset flag VIS_SAFE && ((c =? 8) || (c =? 7) || (c =? 13))).

(** The names of C: the letter and what follows it. *)
Definition cstyle (c nextc : Z) : option str :=
  if c =? 10 then Some [110]
  else if c =? 13 then Some [114]
  else if c =? 8 then Some [98]
  else if c =? 7 then Some [97]
  else if c =? 11 then Some [118]
  else if c =? 9 then Some [116]
  else if c =? 12 then Some [102]
  else if c =? 32 then Some [115]
  else if c =? 0 then Some (if isoctal nextc then [48; 48; 48] else [48])
  else None.

Definition octal (c : Z) : str :=
  [Z.land (Z.shiftr c 6) 7 + 48; Z.land (Z.shiftr c 3) 7 + 48; Z.land c 7 + 48].

Definition meta (c : Z) : str :=
  let m := if bset c 128 then [77] else [] in
  let c := if bset c 128 then Z.land c 127 else c in
  m ++ (if iscntrl c then [94; if c =? 127 then 63 else c + 64] else [45; c]).

Definition vis (flag c nextc : Z) : str :=
  if kept flag c then c :: (if (c =? BACKSLASH) && negb (bset flag VIS_NOSLASH) then [BACKSLASH] else [])
  else
    match (if bset flag VIS_CSTYLE then cstyle c nextc else None) with
    | Some s => BACKSLASH :: s
    | None =>
      if (Z.land c 127 =? 32) || bset flag VIS_OCTAL then BACKSLASH :: octal c
      else (if bset flag VIS_NOSLASH then [] else [BACKSLASH]) ++ meta c
    end.

(** *(src + 1) is the final 0 behind the last character. *)
Fixpoint strvis (flag : Z) (src : str) : str :=
  match src with
  | [] => []
  | c :: src => vis flag c (hd 0 src) ++ strvis flag src
  end.

(** The pointer is not advanced in the loop; [len] is as it is given. *)
Fixpoint strvisx (flag : Z) (src : str) (len : nat) : str :=
  match len with
  | O => []
  | S O => vis flag (hd 0 src) 0
  | S len => vis flag (hd 0 src) (hd 0 (tail src)) ++ strvisx flag src len
  end.

(** ** unvis *)

Inductive state := S_GROUND | S_START | S_META | S_META1 | S_CTRL | S_OCTAL2 | S_OCTAL3.
Inductive verdict := Nothing | UNVIS_VALID | UNVIS_VALIDPUSH | UNVIS_NOCHAR | UNVIS_SYNBAD.

(** [cp] is the character at *cp. *)
Definition after_backslash (c cp : Z) : verdict * Z * state :=
  if c =? BACKSLASH then (UNVIS_VALID, c, S_GROUND)
  else if isoctal c then (Nothing, c - 48, S_OCTAL2)
  else if c =? 77 then (Nothing, 128, S_META)
  else if c =? 94 then (Nothing, cp, S_CTRL)
  else if c =? 110 then (UNVIS_VALID, 10, S_GROUND)
  else if c =? 114 then (UNVIS_VALID, 13, S_GROUND)
  else if c =? 98 then (UNVIS_VALID, 8, S_GROUND)
  else if c =? 97 then (UNVIS_VALID, 7, S_GROUND)
  else if c =? 118 then (UNVIS_VALID, 11, S_GROUND)
  else if c =? 116 then (UNVIS_VALID, 9, S_GROUND)
  else if c =? 102 then (UNVIS_VALID, 12, S_GROUND)
  else if c =? 115 then (UNVIS_VALID, 32, S_GROUND)
  else if c =? 69 then (UNVIS_VALID, 27, S_GROUND)
  else if c =? 10 then (UNVIS_NOCHAR, cp, S_GROUND)
  else if c =? 36 then (UNVIS_NOCHAR, cp, S_GROUND)
  else (UNVIS_SYNBAD, cp, S_GROUND).

Definition unvis (c cp : Z) (st : state) : verdict * Z * state :=
  match st with
  | S_GROUND => if c =? BACKSLASH then (Nothing, 0, S_START) else (UNVIS_VALID, c, S_GROUND)
  | S_START => after_backslash c cp
  | S_META =>
    if c =? 45 then (Nothing, cp, S_META1)
    else if c =? 94 then (Nothing, cp, S_CTRL)
    else (UNVIS_SYNBAD, cp, S_GROUND)
  | S_META1 => (UNVIS_VALID, Z.lor cp c, S_GROUND)
  | S_CTRL => (UNVIS_VALID, if c =? 63 then Z.lor cp 127 else Z.lor cp (Z.land c 31), S_GROUND)
  | S_OCTAL2 =>
    if isoctal c then (Nothing, u8 (Z.shiftl cp 3 + (c - 48)), S_OCTAL3) else (UNVIS_VALIDPUSH, cp, S_GROUND)
  | S_OCTAL3 =>
    if isoctal c then (UNVIS_VALID, u8 (Z.shiftl cp 3 + (c - 48)), S_GROUND) else (UNVIS_VALIDPUSH, cp, S_GROUND)
  end.

(** unvis with UNVIS_END. *)
Definition unvis_end (st : state) : verdict * state :=
  match st with
  | S_OCTAL2 | S_OCTAL3 => (UNVIS_VALID, S_GROUND)
  | S_GROUND => (UNVIS_NOCHAR, S_GROUND)
  | _ => (UNVIS_SYNBAD, st)
  end.

(** [out] is what is decoded, [old i] what the buffer holds at [i]; the result
    [None] is -1.  A character that is pushed back finds the state S_GROUND, so
    that it is looked at once more and not a third time. *)
Fixpoint decode (old : nat -> Z) (src : str) (out : str) (cp : Z) (st : state) : option str :=
  match src with
  | [] => Some (match unvis_end st with (UNVIS_VALID, _) => out ++ [cp] | _ => out end)
  | c :: src =>
    let step out cp st (again : str -> Z -> state -> option str) :=
      let '(v, cp, st) := unvis c cp st in
      match v with
      | UNVIS_VALID => decode old src (out ++ [cp]) (old (S (length out))) st
      | UNVIS_VALIDPUSH => again (out ++ [cp]) (old (S (length out))) st
      | Nothing | UNVIS_NOCHAR => decode old src out cp st
      | UNVIS_SYNBAD => None
      end in
    step out cp st (fun out cp st => step out cp st (fun _ _ _ => None))
  end.

Definition strunvis (old : nat -> Z) (src : str) : option str := decode old src [] (old 0%nat) S_GROUND.

End Vis.

Import Vis.

(** ** Round trip *)

Definition is_char (c : Z) : Prop := 0 < c < 256.

(** Whether the decoder, from the ground state, makes [c] of [s] and comes back. *)
Fixpoint reads (s : str) (cp : Z) (st : state) (c : Z) : bool :=
  match s with
  | [] => false
  | x :: s =>
    match unvis x cp st, s with
    | (UNVIS_VALID, cp, S_GROUND), [] => cp =? c
    | (Nothing, cp, st), _ => reads s cp st c
    | _, _ => false
    end
  end.

Lemma reads_decode old s : forall cp st c rest out,
  reads s cp st c = true ->
  decode old (s ++ rest) out cp st = decode old rest (out ++ [c]) (old (S (length out))) S_GROUND.
Proof.
  induction s as [|x s IH]; intros cp st c rest out H; [done|]. cbn [reads] in H.
  cbn [decode app]. destruct (unvis x cp st) as [[v cp'] st'] eqn:E.
  destruct v; try (by destruct s).
  - by apply IH.
  - destruct st', s as [|y s]; try done. apply Z.eqb_eq in H as ->. done.
Qed.

(** All characters with all flags, by evaluation. *)
Definition vis_flags (octal cstyle sp tab nl safe : bool) : Z :=
  (if octal then VIS_OCTAL else 0) + (if cstyle then VIS_CSTYLE else 0) + (if sp then VIS_SP else 0) +
  (if tab then VIS_TAB else 0) + (if nl then VIS_NL else 0) + (if safe then VIS_SAFE else 0).

Lemma vis_same_flags f g c n :
  Forall (fun b => bset f b = bset g b) [VIS_OCTAL; VIS_CSTYLE; VIS_SP; VIS_TAB; VIS_NL; VIS_SAFE; VIS_NOSLASH] ->
  vis f c n = vis g c n.
Proof.
  intros H. repeat match goal with H : Forall _ (_ :: _) |- _ => apply Forall_cons in H as [? H] end.
  unfold vis, kept. repeat match goal with H : bset f _ = _ |- _ => rewrite H; clear H end. done.
Qed.

Lemma vis_flags_bits f : bset f VIS_NOSLASH = false ->
  Forall (fun b => bset f b = bset (vis_flags (bset f VIS_OCTAL) (bset f VIS_CSTYLE) (bset f VIS_SP) (bset f VIS_TAB)
    (bset f VIS_NL) (bset f VIS_SAFE)) b) [VIS_OCTAL; VIS_CSTYLE; VIS_SP; VIS_TAB; VIS_NL; VIS_SAFE; VIS_NOSLASH].
Proof.
  intros H. rewrite !Forall_cons. rewrite H.
  destruct (bset f VIS_OCTAL), (bset f VIS_CSTYLE), (bset f VIS_SP), (bset f VIS_TAB), (bset f VIS_NL), (bset f VIS_SAFE);
    by split_and!.
Qed.

Definition all_bools (P : bool -> bool) : bool := P true && P false.
Definition all_chars (P : Z -> bool) : bool := forallb P (seqZ 1 255).

Definition good (f c : Z) (cp : Z) : bool :=
  reads (vis f c 0) cp S_GROUND c && (length (vis f c 0) <=? 4)%nat.

Lemma every_char_reads :
  all_bools (fun o => all_bools (fun cs => all_bools (fun sp => all_bools (fun tab => all_bools (fun nl => all_bools (fun safe =>
    all_chars (fun c => good (vis_flags o cs sp tab nl safe) c 0))))))) = true.
Proof. vm_compute. reflexivity. Qed.

Lemma all_bools_spec P : all_bools P = true -> forall b, P b = true.
Proof. intros [H1 H2]%andb_true_iff. by intros []. Qed.

Lemma all_chars_spec P c : all_chars P = true -> is_char c -> P c = true.
Proof.
  unfold all_chars. rewrite forallb_forall. intros H Hc. apply H. apply list_elem_of_In, elem_of_seqZ. unfold is_char in Hc. lia.
Qed.

Lemma vis_next f c n : c <> 0 -> vis f c n = vis f c 0.
Proof. intros H. unfold vis, cstyle. by rewrite !(proj2 (Z.eqb_neq c 0) H). Qed.

Lemma reads_ground s cp cp' c : reads s cp S_GROUND c = reads s cp' S_GROUND c.
Proof. by destruct s. Qed.

(** Every character is read back, from at most four characters. *)
Lemma vis_good f c n cp : bset f VIS_NOSLASH = false -> is_char c ->
  reads (vis f c n) cp S_GROUND c = true /\ (length (vis f c n) <= 4)%nat.
Proof.
  intros Hf Hc. rewrite vis_next by (unfold is_char in Hc; lia).
  rewrite (vis_same_flags _ _ c 0 (vis_flags_bits f Hf)), (reads_ground _ cp 0).
  pose proof every_char_reads as H. do 6 (eapply all_bools_spec in H). eapply all_chars_spec in H; [|exact Hc].
  apply andb_true_iff in H as [H1 H2]. split; [exact H1|]. by apply Nat.leb_le.
Qed.

Lemma decode_strvis old f src : bset f VIS_NOSLASH = false -> Forall is_char src ->
  forall out cp rest, decode old (strvis f src ++ rest) out cp S_GROUND =
    decode old rest (out ++ src) (if src is [] then cp else old (length (out ++ src))) S_GROUND.
Proof.
  intros Hf. induction 1 as [|c src Hc Hs IH]; intros out cp rest; cbn [strvis app]; [by rewrite app_nil_r|].
  rewrite <- app_assoc. destruct (vis_good f c (hd 0 src) cp Hf Hc) as [Hr _].
  rewrite (reads_decode _ _ _ _ _ _ _ Hr), IH, <- app_assoc. cbn [app]. f_equal.
  destruct src as [|d src]; [|done]. by rewrite length_app, Nat.add_1_r.
Qed.

(** C31. strunvis undoes strvis: whatever the flags (without VIS_NOSLASH) and the
    characters, decoding the encoded string succeeds and gives the string, whatever
    the buffer held; and the encoded string has at most four characters for each, the
    size the comment asks for. *)
Theorem strvis_roundtrip old f src :
  bset f VIS_NOSLASH = false -> Forall is_char src ->
  strunvis old (strvis f src) = Some src /\ (length (strvis f src) <= 4 * length src)%nat.
Proof.
  intros Hf Hs. split.
  - unfold strunvis. rewrite <- (app_nil_r (strvis f src)), (decode_strvis old f src Hf Hs). done.
  - induction Hs as [|c src Hc Hs IH]; [done|]. cbn [strvis length]. rewrite length_app.
    destruct (vis_good f c (hd 0 src) 0 Hf Hc) as [_ Hl]. lia.
Qed.

Lemma strvis_roundtrip_witness :
  strvis (VIS_CSTYLE + VIS_SP) [65; 10; 92; 200; 32] = [65; 10; 92; 92; 92; 77; 45; 72; 92; 115] /\
  strunvis (fun _ => 7) [65; 10; 92; 92; 92; 77; 45; 72; 92; 115] = Some [65; 10; 92; 200; 32].
Proof.
  destruct (strvis_roundtrip (fun _ => 7) (VIS_CSTYLE + VIS_SP) [65; 10; 92; 200; 32]) as [H _];
    [reflexivity|by repeat constructor|]. split; [reflexivity|exact H].
Defined.

(** strvisx encodes its first character again and again. *)
Lemma strvisx_repeats f c d src n : strvisx f (c :: d :: src) (S n) = concat (replicate n (vis f c d)) ++ vis f c 0.
Proof. induction n as [|n IH]; [done|]. cbn [strvisx replicate concat]. rewrite <- app_assoc, <- IH. done. Qed.

Example strvisx_wrong : strvisx 0 [65; 66; 67] 3 = [65; 65; 65].
Proof. reflexivity. Qed.
