(* ===== verification/Env.v ===== *)
(** * The environment

    Models stdlib/getenv.c, stdlib/setenv.c and stdlib/putenv.c.  The array environ
    is a list of addresses (its final NULL is left out) and [strings] the memory
    they point to: a value that fits is stored over the old one, so that strings are
    shared with everybody who has their address.  A string is the list of its
    characters without the final 0.

    What malloc and realloc answer is an argument: [Some a] an address, [None] NULL.
    [env_file] is what Open returned for the file env:NAME. *)

From S2P Require Import Prelude Users Dos.

Module Env.

Definition str := list Z.
Definition EQUAL : Z := 61.

(** [environ]: the array [u_environ] points to, [None] after a realloc that
    failed; [parent_environ]: that of [u_parent_userdata], when the process uses
    its parent's data. *)
Record world := mk_world {
  environ : option (list Z);
  parent_environ : option (option (list Z));
  strings : gmap Z str;
  u_env_alloced : bool;
  open_handles : list Z
}.

(** The part of a name in front of a '='. *)
Fixpoint upto_equal (name : str) : str :=
  match name with
  | [] => []
  | c :: name => if c =? EQUAL then [] else c :: upto_equal name
  end.

(** strncmp with the length of [name], and the '=' behind it: the value. *)
Fixpoint value_of (name entry : str) : option str :=
  match name, entry with
  | [], c :: entry => if c =? EQUAL then Some entry else None
  | n :: name, c :: entry => if n =? c then value_of name entry else None
  | _, [] => None
  end.

(** The index, the address of the entry and the value in it. *)
Fixpoint find (strings : gmap Z str) (name : str) (env : list Z) (i : nat) : option (option (nat * Z * str)) :=
  match env with
  | [] => Some None
  | a :: env =>
    s ← strings !! a;
    match value_of name s with
    | Some v => Some (Some (i, a, v))
    | None => find strings name env (S i)
    end
  end.

Definition findenv_in (env : option (list Z)) (w : world) (name : str) : option (option (nat * Z * str)) :=
  env ← env; find (strings w) (upto_equal name) env 0.
Definition _findenv (w : world) : str -> option (option (nat * Z * str)) := findenv_in (environ w) w.

(** [if (u.u_parent_userdata) u_ptr = u.u_parent_userdata]: the array getenv reads. *)
Definition read_environ (w : world) : option (list Z) :=
  match parent_environ w with Some env => env | None => environ w end.

Definition HOME : str := Users.bytes "HOME".
Definition progdir : str := Users.bytes "./".

(** The handle is not closed when the default for HOME is returned. *)
Definition getenv (env_file : Z) (name : str) (w : world) : outcome world (option str) :=
  let? r := findenv_in (read_environ w) w name in
  let opened := mk_world (environ w) (parent_environ w) (strings w) (u_env_alloced w)
                  (if env_file =? 0 then open_handles w else env_file :: open_handles w) in
  match r with
  | None => if bool_decide (name = HOME) then Ret (Some progdir) opened else Ret None w
  | Some (_, _, v) => Ret (Some v) w
  end.

Definition strip (value : str) : str :=
  match value with c :: v => if c =? EQUAL then v else value | [] => [] end.

Definition set_string (w : world) (a : Z) (s : str) : world :=
  mk_world (environ w) (parent_environ w) (<[a := s]> (strings w)) (u_env_alloced w) (open_handles w).
Definition set_environ (w : world) (e : option (list Z)) (alloced : bool) : world :=
  mk_world e (parent_environ w) (strings w) alloced (open_handles w).

(** [environ[offset] = malloc (...)]: a NULL ends the array there. *)
Definition store_entry (mem : option Z) (offset : nat) (name value : str) (w : world) : outcome world Z :=
  let? env := environ w in
  match mem with
  | None => Ret (-1) (set_environ w (Some (take offset env)) (u_env_alloced w))
  | Some a =>
    Ret 0 (set_string (set_environ w (Some (take offset env ++ a :: drop (S offset) env)) (u_env_alloced w))
             a (upto_equal name ++ EQUAL :: value))
  end.

(** [array]: whether malloc or realloc has the memory for a longer array;
    [mem]: malloc of the entry. *)
Definition setenv (array : bool) (mem : option Z) (name value : str) (rewrite_ : bool) (w : world) : outcome world Z :=
  let value := strip value in
  let? found := _findenv w name in
  match found with
  | Some (offset, a, v) =>
    if negb rewrite_ then Ret 0 w
    else if decide (length value <= length v)%nat then
      Ret 0 (set_string w a (upto_equal name ++ EQUAL :: value))
    else store_entry mem offset name value w
  | None =>
    let? env := environ w in
    if negb array then Ret (-1) (set_environ w (if u_env_alloced w then None else Some env) true)
    else store_entry mem (length env) name value (set_environ w (Some env) true)
  end.

(** The entries behind [offset] move up. *)
Definition remove (offset : nat) (env : list Z) : list Z := take offset env ++ drop (S offset) env.

(** [fuel]: the number of entries. *)
Fixpoint unset_loop (fuel : nat) (name : str) (w : world) : outcome world () :=
  let? found := _findenv w name in
  match found with
  | None => Ret tt w
  | Some (offset, _, _) =>
    match fuel with
    | O => Diverge
    | S fuel =>
      let? env := environ w in
      unset_loop fuel name (set_environ w (Some (remove offset env)) (u_env_alloced w))
    end
  end.

Definition unsetenv (name : str) (w : world) : outcome world () :=
  let? env := environ w in unset_loop (length env) name w.

(** [dup]: strdup has the memory. *)
Definition putenv (dup array : bool) (mem : option Z) (s : str) (w : world) : outcome world Z :=
  if negb dup then Ret 1 w
  else if negb (bool_decide (EQUAL ∈ s)) then Ret 1 w
  else
    let name := upto_equal s in
    setenv array mem name (drop (S (length name)) s) true w.

End Env.

Import Env.

(** ** The environment as a list of strings *)

(** The strings of the array, in order. *)
Definition entries (w : world) (l : list str) : Prop :=
  exists env, environ w = Some env /\ NoDup env /\ Forall2 (fun a s => strings w !! a = Some s) env l.

(** The first entry for a name, and its value. *)
Fixpoint look (name : str) (l : list str) : option (nat * str) :=
  match l with
  | [] => None
  | s :: l => match value_of name s with Some v => Some (0%nat, v) | None => prod_map S id <$> look name l end
  end.
Definition value (name : str) (l : list str) : option str := snd <$> look name l.

Definition no_equal (name : str) : Prop := EQUAL ∉ name.

Lemma upto_no_equal s : no_equal (upto_equal s).
Proof.
  induction s as [|c s IH]; cbn; [by intros ?%not_elem_of_nil|]. destruct (Z.eqb_spec c EQUAL) as [|Hc]; [by intros ?%not_elem_of_nil|].
  unfold no_equal in *. set_solver.
Qed.

Lemma value_of_entry name v : value_of name (name ++ EQUAL :: v) = Some v.
Proof. induction name as [|c name IH]; cbn; [done|]. by rewrite Z.eqb_refl. Qed.

Lemma value_of_Some name s v : value_of name s = Some v -> s = name ++ EQUAL :: v.
Proof.
  revert s. induction name as [|c name IH]; intros [|d s]; cbn; try done.
  - destruct (Z.eqb_spec d EQUAL) as [->|]; [by intros [= ->]|done].
  - destruct (Z.eqb_spec c d) as [->|]; [|done]. by intros ->%IH.
Qed.

Lemma value_of_other n name v : no_equal n -> no_equal name -> n <> name -> value_of n (name ++ EQUAL :: v) = None.
Proof.
  unfold no_equal. revert name. induction n as [|c n IH]; intros [|d name] Hn Hm Hne; cbn; try done.
  - rewrite (proj2 (Z.eqb_neq d EQUAL)); [done|set_solver].
  - rewrite (proj2 (Z.eqb_neq c EQUAL)); [done|set_solver].
  - destruct (Z.eqb_spec c d) as [->|]; [|done]. apply IH; [set_solver|set_solver|congruence].
Qed.

Lemma find_look strs name env l i :
  Forall2 (fun a s => strs !! a = Some s) env l ->
  find strs name env i =
    Some (match look name l with Some (j, v) => match env !! j with Some a => Some ((i + j)%nat, a, v) | None => None end | None => None end).
Proof.
  intros H. revert i. induction H as [|a s env l Ha Hl IH]; intros i; cbn; [done|]. rewrite Ha. cbn.
  destruct (value_of name s); [by rewrite Nat.add_0_r|]. rewrite IH. destruct (look name l) as [[j v]|]; [|done]. cbn.
  destruct (env !! j); [|done]. by rewrite Nat.add_succ_r.
Qed.

Lemma look_lookup name l j v : look name l = Some (j, v) -> l !! j = Some (name ++ EQUAL :: v).
Proof.
  revert j v. induction l as [|s l IH]; intros j v; cbn; [done|]. destruct (value_of name s) as [v'|] eqn:E.
  - intros [= <- <-]. cbn. by rewrite (value_of_Some _ _ _ E).
  - destruct (look name l) as [[j' v']|]; [|done]. cbn. intros [= <- <-]. by apply IH.
Qed.

Lemma entries_findenv w l name : entries w l ->
  (look (upto_equal name) l = None /\ _findenv w name = Some None) \/
  (exists env j a v, environ w = Some env /\ look (upto_equal name) l = Some (j, v) /\ env !! j = Some a /\
     _findenv w name = Some (Some (j, a, v))).
Proof.
  intros (env & Ee & _ & Hf). unfold _findenv, findenv_in. rewrite Ee. cbn [mbind option_bind].
  rewrite (find_look _ _ _ _ 0 Hf). destruct (look (upto_equal name) l) as [[j v]|] eqn:El; [right|by left].
  apply look_lookup in El as Hj. destruct (Forall2_lookup_r _ _ _ _ _ Hf Hj) as (a & Ha & _).
  exists env, j, a, v. by rewrite Ha.
Qed.

Lemma value_shift (o : option (nat * str)) : snd <$> (prod_map S id <$> o) = snd <$> o.
Proof. by destruct o as [[j v]|]. Qed.

(** The first entry is replaced. *)
Lemma look_replace name l j v v' : look name l = Some (j, v) ->
  look name (<[j := name ++ EQUAL :: v']> l) = Some (j, v').
Proof.
  revert j. induction l as [|s l IH]; intros j; cbn; [done|]. destruct (value_of name s) eqn:E.
  - intros [= <- <-]. cbn. by rewrite value_of_entry.
  - destruct (look name l) as [[k u]|]; [|done]. cbn. intros [= <- <-]. cbn. rewrite E, IH by done. done.
Qed.

Lemma value_replace_other n name l j v v' : no_equal n -> no_equal name -> n <> name ->
  l !! j = Some (name ++ EQUAL :: v) -> value n (<[j := name ++ EQUAL :: v']> l) = value n l.
Proof.
  intros Hn Hm Hne. unfold value. revert j. induction l as [|s l IH]; intros [|j]; cbn; try done.
  - intros [= ->]. by rewrite !value_of_other.
  - intros Hj. destruct (value_of n s); [done|]. rewrite !value_shift. by apply IH.
Qed.

Lemma value_snoc_other n name l v : no_equal n -> no_equal name -> n <> name ->
  value n (l ++ [name ++ EQUAL :: v]) = value n l.
Proof.
  intros Hn Hm Hne. unfold value. induction l as [|s l IH]; cbn; [by rewrite value_of_other|].
  destruct (value_of n s); [done|]. by rewrite !value_shift.
Qed.

Lemma look_snoc name l v : look name l = None -> look name (l ++ [name ++ EQUAL :: v]) = Some (length l, v).
Proof.
  induction l as [|s l IH]; cbn; [by rewrite value_of_entry|]. destruct (value_of name s); [done|].
  destruct (look name l); [done|]. intros _. by rewrite IH.
Qed.

Lemma take_drop_insert {A} (l : list A) j x : (j < length l)%nat -> take j l ++ x :: drop (S j) l = <[j := x]> l.
Proof. intros. by rewrite insert_take_drop. Qed.

(** Storing [s] through the pointer at [j] changes that entry only. *)
Lemma entries_store (strs : gmap Z str) l env j a s :
  NoDup env -> Forall2 (fun a s => strs !! a = Some s) env l -> env !! j = Some a ->
  Forall2 (fun b t => <[a := s]> strs !! b = Some t) env (<[j := s]> l).
Proof.
  intros Hnd Hf Hj. apply Forall2_same_length_lookup. split.
  - rewrite length_insert. by eapply Forall2_length.
  - intros i b t Hb Ht. destruct (decide (i = j)) as [->|Hij].
    + rewrite Hj in Hb. injection Hb as <-. rewrite list_lookup_insert_eq in Ht.
      * injection Ht as <-. apply lookup_insert_eq.
      * rewrite <- (Forall2_length _ _ _ Hf). by eapply lookup_lt_Some.
    + rewrite list_lookup_insert_ne in Ht by done. rewrite lookup_insert_ne.
      * apply (Forall2_lookup_lr _ _ _ _ _ _ Hf Hb Ht).
      * intros ->. apply Hij. by eapply NoDup_lookup.
Qed.

(** A string that no entry points to. *)
Lemma entries_frame (strs : gmap Z str) l env a s :
  a ∉ env -> Forall2 (fun a s => strs !! a = Some s) env l -> Forall2 (fun b t => <[a := s]> strs !! b = Some t) env l.
Proof.
  intros Ha Hf. induction Hf as [|b t env l Hb Hf IH]; constructor; [rewrite lookup_insert_ne; set_solver|apply IH; set_solver].
Qed.

(** A new pointer at [j]. *)
Lemma entries_new (strs : gmap Z str) l env j a s :
  a ∉ env -> Forall2 (fun a s => strs !! a = Some s) env l ->
  Forall2 (fun b t => <[a := s]> strs !! b = Some t) (<[j := a]> env) (<[j := s]> l).
Proof.
  intros Ha Hf. apply Forall2_insert; [by apply entries_frame|apply lookup_insert_eq].
Qed.

Lemma NoDup_insert (l : list Z) j a : NoDup l -> a ∉ l -> NoDup (<[j := a]> l).
Proof.
  intros Hnd Ha. apply NoDup_alt. intros i k x Hi Hk.
  apply list_lookup_insert_Some in Hi as [(-> & -> & ?)|[Hi1 Hi2]]; apply list_lookup_insert_Some in Hk as [(-> & E & ?)|[Hk1 Hk2]]; try done.
  - by apply list_elem_of_lookup_2 in Hk2.
  - subst. by apply list_elem_of_lookup_2 in Hi2.
  - by eapply NoDup_lookup.
Qed.

(** C32. setenv and getenv in a process that does not use its parent's data: when there
    is memory, setenv succeeds, getenv then finds the new value (without a '=' in
    front), or the old one if it was not to be rewritten, and every other name has
    the value it had.  The array keeps its entries apart in memory, and malloc
    returns memory that none of them occupies.  With the parent's data getenv reads
    the environment of the parent ([getenv_reads_parent]). *)
Theorem setenv_getenv mem name v rewrite_ w l :
  parent_environ w = None -> entries w l -> (forall env, environ w = Some env -> mem ∉ env) ->
  exists w' l', setenv true (Some mem) name v rewrite_ w = Ret 0 w' /\ entries w' l' /\
    value (upto_equal name) l' =
      Some (match value (upto_equal name) l with Some x => if rewrite_ then strip v else x | None => strip v end) /\
    (forall n, no_equal n -> n <> upto_equal name -> value n l' = value n l) /\
    (forall file, getenv file name w' = Ret (value (upto_equal name) l') w').
Proof.
  intros Hpar He Hmem. pose proof He as (env & Ee & Hnd & Hf). specialize (Hmem env Ee). set (nm := upto_equal name).
  pose proof (upto_no_equal name) as Hnm. fold nm in Hnm.
  assert (exists w' l', setenv true (Some mem) name v rewrite_ w = Ret 0 w' /\ entries w' l' /\ parent_environ w' = None /\
    (exists j u, look nm l' = Some (j, u) /\
      u = match value nm l with Some x => if rewrite_ then strip v else x | None => strip v end) /\
    (forall n, no_equal n -> n <> nm -> value n l' = value n l)) as (w' & l' & E & He' & Hpar' & (j & u & Hl' & ->) & Hoth).
  { unfold setenv, value. destruct (entries_findenv w l name He) as [[Hl ->]|(env' & j & a & x & Ee' & Hl & Ha & ->)]; fold nm in Hl; rewrite Hl; cbn [fmap option_fmap option_map snd].
    - rewrite Ee. cbn [negb]. unfold store_entry. cbn [environ set_environ]. eexists _, (l ++ [nm ++ EQUAL :: strip v]).
      split; [done|]. rewrite drop_ge, take_ge by lia. split_and!.
      + exists (env ++ [mem]). split; [done|]. split.
        * apply NoDup_app. split_and!; [done|set_solver|apply NoDup_singleton].
        * apply Forall2_app; [by apply entries_frame|]. constructor; [apply lookup_insert_eq|constructor].
      + done.
      + exists (length l), (strip v). split; [by apply look_snoc|done].
      + intros n Hn Hne. by apply value_snoc_other.
    - rewrite Ee in Ee'. injection Ee' as <-. destruct rewrite_; cbn [negb].
      2:{ exists w, l. split_and!; try done. by exists j, x. }
      pose proof (look_lookup _ _ _ _ Hl) as Hj.
      case_decide.
      + eexists _, (<[j := nm ++ EQUAL :: strip v]> l). split; [done|]. split_and!.
        * exists env. split; [done|]. split; [done|]. by apply entries_store.
        * done.
        * exists j, (strip v). split; [by eapply look_replace|done].
        * intros n Hn Hne. by eapply value_replace_other.
      + unfold store_entry. rewrite Ee. eexists _, (<[j := nm ++ EQUAL :: strip v]> l). split; [done|].
        rewrite take_drop_insert by (by eapply lookup_lt_Some). split_and!.
        * exists (<[j := mem]> env). split; [done|]. split; [by apply NoDup_insert|]. by apply entries_new.
        * done.
        * exists j, (strip v). split; [by eapply look_replace|done].
        * intros n Hn Hne. by eapply value_replace_other. }
  exists w', l'. split_and!; try done; [unfold value; by rewrite Hl'|].
  intros file. unfold getenv, read_environ. rewrite Hpar'. fold (_findenv w'). destruct (entries_findenv w' l' name He') as [[Hn _]|(env' & j' & a & x & _ & Hx & _ & ->)];
    [fold nm in Hn; congruence|]. fold nm in Hx. unfold value. by rewrite Hx.
Qed.

Lemma look_remove n name l j : no_equal n -> no_equal name -> n <> name ->
  (exists v, l !! j = Some (name ++ EQUAL :: v)) -> value n (take j l ++ drop (S j) l) = value n l.
Proof.
  intros Hn Hm Hne. unfold value. revert j. induction l as [|s l IH]; intros [|j] [v Hv]; cbn in *; try done.
  - injection Hv as ->. rewrite value_of_other by done. by rewrite value_shift.
  - destruct (value_of n s); [done|]. rewrite !value_shift. apply IH. eauto.
Qed.

Lemma entries_remove w l j al : entries w l ->
  exists env, environ w = Some env /\ entries (set_environ w (Some (remove j env)) al) (take j l ++ drop (S j) l) /\
    length env = length l.
Proof.
  intros (env & Ee & Hnd & Hf). exists env. split; [done|]. split; [|by eapply Forall2_length].
  exists (remove j env). split; [done|]. unfold remove. split.
  - rewrite <- (take_drop j env), NoDup_app in Hnd. destruct Hnd as (H1 & H2 & H3). apply NoDup_app. split_and!; [done| |].
    + intros x Hx Hx'. apply (H2 x Hx). replace (S j) with (j + 1)%nat in Hx' by lia. rewrite <- drop_drop in Hx'.
      by eapply elem_of_drop_inv.
    + replace (S j) with (j + 1)%nat by lia. rewrite <- drop_drop. destruct (drop j env); [done|].
      cbn. rewrite drop_0. by apply NoDup_cons in H3 as [_ ?].
  - apply Forall2_app; [by apply Forall2_take|by apply Forall2_drop].
Qed.

Lemma unset_loop_spec name : forall fuel w l, entries w l -> (length l <= fuel)%nat ->
  exists w' l', unset_loop fuel name w = Ret tt w' /\ entries w' l' /\ value (upto_equal name) l' = None /\
    forall n, no_equal n -> n <> upto_equal name -> value n l' = value n l.
Proof.
  induction fuel as [|fuel IH]; intros w l He Hl; cbn [unset_loop];
    destruct (entries_findenv w l name He) as [[Hn ->]|(env & j & a & v & Ee & Hj & _ & ->)].
  1, 3: exists w, l; split_and!; try done; unfold value; by rewrite Hn.
  - destruct l; [done|cbn in Hl; lia].
  - apply look_lookup in Hj as Hj'. destruct (entries_remove w l j (u_env_alloced w) He) as (env' & Ee' & He' & Hlen).
    rewrite Ee in Ee'. injection Ee' as <-. rewrite Ee. apply lookup_lt_Some in Hj' as Hlt.
    destruct (IH _ _ He') as (w' & l' & -> & He2 & Hv & Ho).
    { rewrite length_app, length_take, length_drop. unfold str in *. lia. }
    exists w', l'. split_and!; try done. intros n Hn Hne. rewrite Ho by done.
    apply look_remove with (upto_equal name); [done|apply upto_no_equal|done|eauto].
Qed.

(** unsetenv ends, removes every entry for the name and keeps the values of all
    others. *)
Theorem unsetenv_removes name w l :
  entries w l ->
  exists w' l', unsetenv name w = Ret tt w' /\ entries w' l' /\ value (upto_equal name) l' = None /\
    forall n, no_equal n -> n <> upto_equal name -> value n l' = value n l.
Proof.
  intros He. pose proof He as (env & Ee & _ & Hf). unfold unsetenv. rewrite Ee.
  apply unset_loop_spec; [done|]. rewrite (Forall2_length _ _ _ Hf). done.
Qed.

(** ** Examples *)

Definition a_env : world :=
  mk_world (Some [1; 2; 3]) None {[1 := Users.bytes "A=1"; 2 := Users.bytes "B=two"; 3 := Users.bytes "A=3"]} false [].

Definition a_list : list str := [Users.bytes "A=1"; Users.bytes "B=two"; Users.bytes "A=3"].

Lemma a_entries : entries a_env a_list.
Proof.
  exists [1; 2; 3]. split; [done|]. split; [|by repeat constructor].
  apply (bool_decide_unpack _). by vm_compute.
Qed.

Lemma setenv_getenv_witness :
  exists w', setenv true (Some 9) (Users.bytes "A") (Users.bytes "123") true a_env = Ret 0 w' /\
    getenv 0 (Users.bytes "A") w' = Ret (Some (Users.bytes "123")) w'.
Proof.
  destruct (setenv_getenv 9 (Users.bytes "A") (Users.bytes "123") true a_env a_list) as (w' & l' & E & _ & Hv & _ & Hg);
    [done|apply a_entries|intros env [= <-]; set_solver|]. exists w'. split; [exact E|]. rewrite Hg. f_equal. exact Hv.
Defined.

Lemma unsetenv_removes_witness :
  exists w' l', unsetenv (Users.bytes "A") a_env = Ret tt w' /\ entries w' l' /\
    value (Users.bytes "A") l' = None /\ value (Users.bytes "B") l' = Some (Users.bytes "two").
Proof.
  destruct (unsetenv_removes (Users.bytes "A") a_env a_list) as (w' & l' & E & He & Hn & Ho); [apply a_entries|].
  exists w', l'. split; [exact E|]. split; [exact He|]. split; [exact Hn|]. rewrite (Ho (Users.bytes "B")); [done|unfold no_equal; cbn; set_solver|done].
Defined.

(** Without memory for a longer value setenv loses the variable and all behind it. *)
Example setenv_truncates :
  match setenv true None (Users.bytes "A") (Users.bytes "long") true a_env with
  | Ret r w => r = -1 /\ environ w = Some []
  | _ => False
  end.
Proof. by vm_compute. Qed.

(** The default for HOME leaves the file env:HOME open. *)
Example getenv_home_leaks :
  match getenv 77 HOME a_env with Ret r w => r = Some progdir /\ open_handles w = [77] | _ => False end.
Proof. by vm_compute. Qed.

(** A process that uses its parent's data does not find what it has stored itself. *)
Example getenv_reads_parent :
  let child := mk_world (Some [1; 2]) (Some (Some [3])) (strings a_env) false [] in
  match setenv true (Some 9) (Users.bytes "B") (Users.bytes "new") true child with
  | Ret 0 w => getenv 0 (Users.bytes "B") w = Ret None w /\ getenv 0 (Users.bytes "A") w = Ret (Some (Users.bytes "3")) w
  | _ => False
  end.
Proof. by vm_compute. Qed.
