(* ===== verification/Sorting.v ===== *)
(** * Sorting and searching

    Models stdlib/heapsort.c, stdlib/qsort.c and stdlib/bsearch.c.  The array is a list of its
    elements; the loop of SWAP that exchanges the bytes of two elements exchanges
    the elements.  heapsort numbers them from 1, as the code does by moving [bot]
    one element down.  [compar] is the caller's comparison; [Compares] is what the
    manual demands of it. *)

From Stdlib Require Import Sorted.
From S2P Require Import Prelude.

Module Sort.

Section Sort.
Context {A : Type} (compar : A -> A -> Z).

(** The element with the number [i]. *)
Definition item (l : list A) (i : Z) : option A := aget l (i - 1).

Definition SWAP (i j : Z) (l : list A) : option (list A) :=
  x ← item l i; y ← item l j; Some (aput (aput l (i - 1) y) (j - 1) x).

(** The larger of the children [j] and [j + 1]. *)
Definition child (nmemb j : Z) (l : list A) : option Z :=
  p ← item l j;
  if j <? nmemb then q ← item l (j + 1); Some (if compar p q <? 0 then j + 1 else j)
  else Some j.

(** HEAP (i): [fuel] levels of the heap. *)
Fixpoint HEAP (fuel : nat) (nmemb i : Z) (l : list A) : option (list A) :=
  if nmemb <? i * 2 then Some l
  else
    match fuel with
    | O => None
    | S fuel =>
      j ← child nmemb (i * 2) l;
      p ← item l j;
      t ← item l i;
      if compar p t <=? 0 then Some l
      else l ← SWAP i j l; HEAP fuel nmemb j l
    end.

(** [for (l = nmemb / 2 + 1; --l;) HEAP (l)] *)
Fixpoint build (n : nat) (nmemb : Z) (l : list A) : option (list A) :=
  match n with
  | O => Some l
  | S n' => l ← HEAP (Z.to_nat nmemb) nmemb (Z.of_nat n) l; build n' nmemb l
  end.

(** [while (nmemb > 1)]: [n] is nmemb - 1. *)
Fixpoint extract (n : nat) (l : list A) : option (list A) :=
  match n with
  | O => Some l
  | S n' =>
    let nmemb := Z.of_nat n + 1 in
    l ← SWAP 1 nmemb l;
    l ← HEAP (Z.to_nat nmemb) (nmemb - 1) 1 l;
    extract n' l
  end.

(** The result, errno where it is set, and the array. *)
Definition heapsort (size : Z) (l : list A) : option (Z * option Z * list A) :=
  let nmemb := Z.of_nat (length l) in
  if nmemb <=? 1 then Some (0, None, l)
  else if size =? 0 then Some (-1, Some EINVAL, l)
  else
    l ← build (Z.to_nat (nmemb / 2)) nmemb l;
    l ← extract (Z.to_nat (nmemb - 1)) l;
    Some (0, None, l).

(** ** qsort

    Here the elements are numbered from 0.  Addresses are indices of elements. *)

Definition swap (i j : Z) (l : list A) : option (list A) := SWAP (i + 1) (j + 1) l.

(** The median of the first, the last and the middle element goes to the middle. *)
Definition median (base max mid : Z) (l : list A) : option (list A) :=
  if max - base <? 6 then Some l
  else
    b ← aget l base; m ← aget l mid; t ← aget l (max - 1);
    let j := if 0 <? compar b m then base else mid in
    let x := if 0 <? compar b m then b else m in
    let j :=
      if 0 <? compar x t then
        let j' := if j =? base then mid else base in
        let x' := if j =? base then m else b in
        if compar x' t <? 0 then max - 1 else j'
      else j in
    if j =? mid then Some l else swap mid j l.

(** [while (i < mid && CMP (i, mid) <= 0) i += qsz] *)
Fixpoint go_up (fuel : nat) (i mid : Z) (l : list A) : option Z :=
  if i <? mid then
    match fuel with
    | O => None
    | S fuel =>
      x ← aget l i; m ← aget l mid;
      if compar x m <=? 0 then go_up fuel (i + 1) mid l else Some i
    end
  else Some i.

(** [while (j > mid) { if (CMP (mid, j) <= 0) ... }] *)
Fixpoint go_down (fuel : nat) (j mid : Z) (l : list A) : option Z :=
  if mid <? j then
    match fuel with
    | O => None
    | S fuel =>
      m ← aget l mid; y ← aget l j;
      if compar m y <=? 0 then go_down fuel (j - 1) mid l else Some j
    end
  else Some j.

Fixpoint partition (fuel : nat) (i j mid : Z) (l : list A) : option (Z * list A) :=
  match fuel with
  | O => None
  | S fuel' =>
    i ← go_up fuel i mid l;
    j ← go_down fuel j mid l;
    if mid <? j then
      if i =? mid then l ← swap i j l; partition fuel' (i + 1) j j l
      else l ← swap i j l; partition fuel' (i + 1) (j - 1) mid l
    else if i =? mid then Some (mid, l)
    else l ← swap i mid l; partition fuel' i (j - 1) i l
  end.

Definition THRESH : Z := 4.

(** The call for the smaller part and the repetition for the larger one; every part
    is smaller than the whole, whose size is enough [fuel]. *)
Fixpoint qst (fuel : nat) (base max : Z) (l : list A) : option (list A) :=
  match fuel with
  | O => None
  | S fuel =>
    let mid := base + Z.shiftr (max - base) 1 in
    l ← median base max mid l;
    '(mid, l) ← partition (S (Z.to_nat (max - base))) base (max - 1) mid l;
    let lo := mid - base in
    let hi := max - (mid + 1) in
    if lo <=? hi then
      l ← (if THRESH <=? lo then qst fuel base mid l else Some l);
      if THRESH <=? hi then qst fuel (mid + 1) max l else Some l
    else
      l ← (if THRESH <=? hi then qst fuel (mid + 1) max l else Some l);
      if THRESH <=? lo then qst fuel base mid l else Some l
  end.

(** The smallest of the elements in front of [hi]: [j] is the best so far. *)
Fixpoint smallest (n : nat) (lo j : Z) (l : list A) : option Z :=
  match n with
  | O => Some j
  | S n => x ← aget l j; y ← aget l lo; smallest n (lo + 1) (if 0 <? compar x y then lo else j) l
  end.

(** [while (CMP ((hi -= qsz), min) > 0)] *)
Fixpoint find_place (fuel : nat) (hi : Z) (x : A) (l : list A) : option Z :=
  match fuel with
  | O => None
  | S fuel => y ← aget l (hi - 1); if 0 <? compar y x then find_place fuel (hi - 1) x l else Some hi
  end.

(** The elements from [i - n] on move up by one, and [x] goes in front of them. *)
Fixpoint shift (n : nat) (i : Z) (x : A) (l : list A) : option (list A) :=
  match n with
  | O => Some (aput l i x)
  | S n => y ← aget l (i - 1); shift n (i - 1) x (aput l i y)
  end.

(** The insertion sort: [n] elements are left, the next is [min]. *)
Fixpoint insertion (n : nat) (min : Z) (l : list A) : option (list A) :=
  match n with
  | O => Some l
  | S n =>
    x ← aget l min;
    hi ← find_place (Z.to_nat min) min x l;
    l ← (if hi =? min then Some l else shift (Z.to_nat (min - hi)) min x l);
    insertion n (min + 1) l
  end.

Definition qsort (l : list A) : option (list A) :=
  let n := Z.of_nat (length l) in
  if n <=? 1 then Some l
  else
    l ← (if THRESH <=? n then qst (length l) 0 n l else Some l);
    let hi := if THRESH <=? n then THRESH else n in
    j ← smallest (Z.to_nat (hi - 1)) 1 0 l;
    l ← (if j =? 0 then Some l else swap j 0 l);
    insertion (Z.to_nat (n - 1)) 1 l.

End Sort.

(** ** bsearch *)

Section Search.
Context {A K : Type} (compar : K -> A -> Z).

(** [base] is the index of the first element that is left; the result is an index,
    [Some None] is NULL. *)
Fixpoint search_loop (fuel : nat) (key : K) (l : list A) (base lim : Z) : option (option Z) :=
  if lim =? 0 then Some None
  else
    match fuel with
    | O => None
    | S fuel =>
      let p := base + Z.shiftr lim 1 in
      x ← aget l p;
      let cmp := compar key x in
      if cmp =? 0 then Some (Some p)
      else if 0 <? cmp then search_loop fuel key l (p + 1) (Z.shiftr (lim - 1) 1)
      else search_loop fuel key l base (Z.shiftr lim 1)
    end.

Definition bsearch (key : K) (l : list A) : option (option Z) :=
  search_loop (S (length l)) key l 0 (Z.of_nat (length l)).
End Search.

End Sort.

Import Sort.

(** ** Orders *)

Class Compares {A} (compar : A -> A -> Z) : Prop := {
  compares_sym x y : compar x y < 0 <-> 0 < compar y x;
  compares_trans x y z : compar x y <= 0 -> compar y z <= 0 -> compar x z <= 0
}.

Section Heap.
Context {A : Type} {compar : A -> A -> Z} `{!Compares compar}.
Implicit Types (l : list A).

Definition le (x y : A) : Prop := compar x y <= 0.

Lemma not_lt_le x y : 0 <= compar x y -> le y x.
Proof. intros H. unfold le. pose proof (compares_sym x y). lia. Qed.

Lemma le_refl x : le x x.
Proof. unfold le. pose proof (compares_sym x x). lia. Qed.

Definition le_at l (a b : Z) : Prop := forall x y, item l a = Some x -> item l b = Some y -> le x y.

Lemma item_Some l i : 1 <= i <= Z.of_nat (length l) -> is_Some (item l i).
Proof. intros. apply aget_is_Some. lia. Qed.

Lemma insert_perm l i x y : l !! i = Some x -> x :: <[i := y]> l ≡ₚ y :: l.
Proof.
  revert i. induction l as [|z l IH]; intros [|i]; cbn; try done.
  - intros [= ->]. apply Permutation_swap.
  - intros H. rewrite Permutation_swap, IH by done. apply Permutation_swap.
Qed.

Lemma SWAP_spec l i j : 1 <= i <= Z.of_nat (length l) -> 1 <= j <= Z.of_nat (length l) -> i <> j ->
  exists l', SWAP i j l = Some l' /\ length l' = length l /\ l' ≡ₚ l /\
    item l' i = item l j /\ item l' j = item l i /\ forall k, k <> i -> k <> j -> item l' k = item l k.
Proof.
  intros Hi Hj Hij. unfold SWAP. destruct (item_Some l i Hi) as [x Ex]. destruct (item_Some l j Hj) as [y Ey].
  rewrite Ex, Ey. cbn. eexists. split; [done|]. rewrite !aput_length. split; [done|].
  unfold item in *. split_and!.
  - unfold aget, aput in *. rewrite (proj2 (Z.leb_le 0 (i - 1))), (proj2 (Z.leb_le 0 (j - 1))) in * by lia.
    apply (Permutation_cons_inv (a := y)).
    rewrite (insert_perm _ _ y x); [|by rewrite list_lookup_insert_ne by lia].
    by apply insert_perm.
  - rewrite aget_aput_ne by lia. rewrite (aget_aput_eq _ _ _ x) by done. done.
  - rewrite (aget_aput_eq _ _ _ y); [done|]. by rewrite aget_aput_ne by lia.
  - intros k Hk1 Hk2. by rewrite !aget_aput_ne by lia.
Qed.

Lemma child_spec nmemb i l : 1 <= i -> i * 2 <= nmemb <= Z.of_nat (length l) ->
  exists j, child compar nmemb (i * 2) l = Some j /\ (j = i * 2 \/ j = i * 2 + 1) /\ j <= nmemb /\
    forall m, i * 2 <= m <= i * 2 + 1 -> m <= nmemb -> le_at l m j.
Proof.
  intros Hi Hn. unfold child. destruct (item_Some l (i * 2)) as [p Ep]; [lia|]. rewrite Ep. cbn [mbind option_bind].
  destruct (Z.ltb_spec (i * 2) nmemb) as [Hlt|Hge].
  - destruct (item_Some l (i * 2 + 1)) as [q Eq]; [lia|]. rewrite Eq. cbn [mbind option_bind].
    destruct (Z.ltb_spec (compar p q) 0) as [Hc|Hc]; eexists; (split; [done|]); (split; [by auto|]); (split; [lia|]);
      intros m Hm _ x y Hx Hy; assert (m = i * 2 \/ m = i * 2 + 1) as [-> | ->] by lia; simplify_eq; try apply le_refl.
    + unfold le. lia.
    + by apply not_lt_le.
  - exists (i * 2). split; [done|]. split; [by left|]. split; [lia|]. intros m Hm Hm' x y Hx Hy.
    assert (m = i * 2) as -> by lia. simplify_eq. apply le_refl.
Qed.

(** ** The heap *)

(** Every item from [k] on is not smaller than its children. *)
Definition heap l (n k : Z) : Prop := forall j, 2 <= j <= n -> k <= j / 2 -> le_at l j (j / 2).

(** ... but for the item [i], whose children are not larger than its parent. *)
Definition almost l (n k i : Z) : Prop :=
  (forall j, 2 <= j <= n -> k <= j / 2 -> j / 2 <> i -> le_at l j (j / 2)) /\
  (k <= i / 2 -> forall j, 2 <= j <= n -> j / 2 = i -> le_at l j (i / 2)).

Lemma half_cases i j : j / 2 = i <-> j = i * 2 \/ j = i * 2 + 1.
Proof. split; intros; Z.div_mod_to_equations; lia. Qed.

Lemma almost_step l l' n k i j :
  1 <= k <= i -> (j = i * 2 \/ j = i * 2 + 1) -> j <= n -> n <= Z.of_nat (length l) ->
  almost l n k i -> (forall m, i * 2 <= m <= i * 2 + 1 -> m <= n -> le_at l m j) -> le_at l i j ->
  item l' i = item l j -> item l' j = item l i -> (forall m, m <> i -> m <> j -> item l' m = item l m) ->
  almost l' n k j.
Proof.
  intros Hk Hj Hjn Hn [H1 H2] Hch Hij Ei Ej Eo.
  assert (i < j /\ j / 2 = i /\ i / 2 < i) as (Hlt & Hhalf & Hi2) by (Z.div_mod_to_equations; lia).
  split.
  - intros m Hm Hkm Hmj x y Hx Hy. destruct (Z.eq_dec m j) as [->|Hm1].
    + rewrite Hhalf in Hy. rewrite Ej in Hx. rewrite Ei in Hy. by apply Hij.
    + destruct (Z.eq_dec m i) as [->|Hm2].
      * rewrite Ei in Hx. rewrite Eo in Hy by lia. apply (H2 Hkm j); [lia|done..].
      * rewrite Eo in Hx by done. destruct (Z.eq_dec (m / 2) i) as [Em|Hm3].
        -- rewrite Em, Ei in Hy. apply half_cases in Em. apply (Hch m); [lia|lia|done..].
        -- rewrite Eo in Hy by done. by apply (H1 m).
  - intros _ m Hm Hmj x y Hx Hy. assert (j < m) by (Z.div_mod_to_equations; lia).
    rewrite Hhalf, Ei in Hy. rewrite Eo in Hx by lia.
    assert (le_at l m (m / 2)) as Hle by (apply H1; lia). rewrite Hmj in Hle. by apply Hle.
Qed.

(** What HEAP keeps: it only moves items of the heap from [k] on. *)
Definition moves l l' (n k : Z) : Prop :=
  length l' = length l /\ l' ≡ₚ l /\ (forall m, m < k \/ n < m -> item l' m = item l m) /\
  forall m, k <= m <= n -> exists m', k <= m' <= n /\ item l' m = item l m'.

Lemma moves_refl l n k : moves l l n k.
Proof. split_and!; try done. eauto. Qed.

Lemma moves_trans l l1 l2 n k : moves l l1 n k -> moves l1 l2 n k -> moves l l2 n k.
Proof.
  intros (E1 & P1 & O1 & I1) (E2 & P2 & O2 & I2). split_and!; [congruence|by rewrite P2| |].
  - intros m Hm. by rewrite O2, O1.
  - intros m Hm. destruct (I2 m Hm) as (m1 & Hm1 & ->). by apply I1.
Qed.

Lemma SWAP_moves l l' n k i j : length l' = length l -> l' ≡ₚ l -> k <= i <= n -> k <= j <= n ->
  item l' i = item l j -> item l' j = item l i -> (forall m, m <> i -> m <> j -> item l' m = item l m) -> moves l l' n k.
Proof.
  intros El Pl Hi Hj Ei Ej Eo. split_and!; [done|done| |].
  - intros m Hm'. apply Eo; lia.
  - intros m Hm'. destruct (Z.eq_dec m i) as [->|]; [exists j; split; [lia|done]|].
    destruct (Z.eq_dec m j) as [->|]; [exists i; split; [lia|done]|]. exists m. split; [lia|by apply Eo].
Qed.

Lemma HEAP_spec fuel : forall l n k i,
  1 <= k <= i -> i <= n + 1 -> n <= Z.of_nat (length l) -> n < i + Z.of_nat fuel -> almost l n k i ->
  exists l', HEAP compar fuel n i l = Some l' /\ heap l' n k /\ moves l l' n k.
Proof.
  induction fuel as [|fuel IH]; intros l n k i Hk Hi Hn Hf Ha; cbn [HEAP];
    (destruct (Z.ltb_spec n (i * 2)) as [Hleaf|Hin];
     [exists l; split; [done|]; split; [|apply moves_refl]; intros j Hj Hkj; apply Ha; [lia|lia|Z.div_mod_to_equations; lia]|]);
    [lia|].
  destruct (child_spec n i l) as (j & Ej & Hj & Hjn & Hch); [lia|lia|]. rewrite Ej. cbn [mbind option_bind].
  destruct (item_Some l j) as [p Ep]; [lia|]. destruct (item_Some l i) as [t Et]; [lia|]. rewrite Ep, Et. cbn [mbind option_bind].
  destruct (Z.leb_spec (compar p t) 0) as [Hle|Hgt].
  - exists l. split; [done|]. split; [|apply moves_refl]. intros m Hm Hkm.
    destruct (Z.eq_dec (m / 2) i) as [Em|]; [|by apply Ha]. rewrite Em. apply half_cases in Em. intros x y Hx Hy.
    rewrite Et in Hy. injection Hy as <-. eapply compares_trans; [|exact Hle]. eapply (Hch m); [lia|lia|done|done].
  - destruct (SWAP_spec l i j) as (l1 & -> & El & Pl & Ei & Ejj & Eo); [lia|lia|lia|]. cbn [mbind option_bind].
    assert (almost l1 n k j) as Ha1.
    { eapply almost_step; try done. intros x y Hx Hy. simplify_eq. apply not_lt_le. lia. }
    destruct (IH l1 n k j) as (l' & -> & Hh & Hm); [lia|lia|lia|lia|done|]. exists l'. split; [done|]. split; [done|].
    eapply moves_trans; [|exact Hm]. by apply (SWAP_moves l l1 n k i j); [done|done|lia|lia|..].
Qed.

Lemma build_spec n : forall l, Z.of_nat n * 2 <= Z.of_nat (length l) + 1 -> heap l (Z.of_nat (length l)) (Z.of_nat n + 1) ->
  exists l', build compar n (Z.of_nat (length l)) l = Some l' /\ heap l' (Z.of_nat (length l)) 1 /\ length l' = length l /\ l' ≡ₚ l.
Proof.
  induction n as [|n IH]; intros l Hn Hh; cbn [build]; [by exists l|].
  destruct (HEAP_spec (Z.to_nat (Z.of_nat (length l))) l (Z.of_nat (length l)) (Z.of_nat (S n)) (Z.of_nat (S n)))
    as (l1 & -> & Hh1 & El & Pl & _); [lia|lia|lia|lia| |].
  - split; [|intros; Z.div_mod_to_equations; lia]. intros j Hj Hk Hne. apply Hh; lia.
  - cbn [mbind option_bind]. rewrite <- El in *.
    replace (Z.of_nat (S n)) with (Z.of_nat n + 1) in Hh1 by lia.
    destruct (IH l1) as (l' & -> & Hh' & E' & P'); [lia|done|].
    exists l'. split_and!; try done. by rewrite P'.
Qed.

(** The root is the largest item. *)
Lemma heap_root l n : n <= Z.of_nat (length l) -> heap l n 1 -> forall j, 1 <= j <= n -> le_at l j 1.
Proof.
  intros Hn Hh j. induction (Z.lt_wf 0 j) as [j _ IH]. intros Hj x y Hx Hy.
  destruct (Z.eq_dec j 1) as [->|Hj1]; [simplify_eq; apply le_refl|].
  assert (1 <= j / 2 < j) by (Z.div_mod_to_equations; lia).
  destruct (item_Some l (j / 2)) as [z Hz]; [lia|].
  eapply compares_trans; [by eapply (Hh j); [lia|lia|done|done]|]. eapply (IH (j / 2)); [lia|lia|done|done].
Qed.

(** The items behind [n] are in their places. *)
Definition placed l (n : Z) : Prop :=
  forall a b, 1 <= a < b -> b <= Z.of_nat (length l) -> n < b -> le_at l a b.

Lemma extract_step l M : 2 <= M <= Z.of_nat (length l) -> heap l M 1 -> placed l M ->
  exists l1 l2, SWAP 1 M l = Some l1 /\ HEAP compar (Z.to_nat M) (M - 1) 1 l1 = Some l2 /\
    heap l2 (M - 1) 1 /\ placed l2 (M - 1) /\ length l2 = length l /\ l2 ≡ₚ l.
Proof.
  intros HM Hh Hp. destruct (SWAP_spec l 1 M) as (l1 & E1 & El1 & Pl1 & Ei & EM & Eo); [lia|lia|lia|].
  destruct (HEAP_spec (Z.to_nat M) l1 (M - 1) 1 1) as (l2 & E2 & Hh2 & El2 & Pl2 & Out & In); [lia|lia|lia|lia| |].
  { split; [|intros; Z.div_mod_to_equations; lia]. intros j Hj _ Hne x y Hx Hy.
    rewrite Eo in Hx by lia. assert (1 <= j / 2 < j) by (Z.div_mod_to_equations; lia). rewrite Eo in Hy by lia.
    by apply (Hh j); [lia|lia|..]. }
  exists l1, l2. split_and!; try done; [|congruence|by rewrite Pl2].
  assert (forall m, 1 <= m <= M -> exists m', 1 <= m' <= M /\ item l1 m = item l m') as Hin1.
  { intros m Hm. destruct (Z.eq_dec m 1) as [->|]; [exists M; split; [lia|done]|].
    destruct (Z.eq_dec m M) as [->|]; [exists 1; split; [lia|done]|]. exists m. split; [lia|by apply Eo]. }
  assert (forall m, 1 <= m <= M -> exists m', 1 <= m' <= M /\ item l2 m = item l m') as Hin.
  { intros m Hm. destruct (Z.eq_dec m M) as [->|].
    - rewrite Out by lia. apply Hin1. lia.
    - destruct (In m) as (m1 & Hm1 & ->); [lia|]. apply Hin1. lia. }
  intros a b Hab Hb Hn x y Hx Hy. rewrite Out in Hy by lia. destruct (Z.eq_dec b M) as [->|HbM].
  - rewrite EM in Hy. destruct (Hin a) as (m & Hm & E); [lia|]. rewrite E in Hx. by apply (heap_root l M ltac:(lia) Hh m Hm).
  - rewrite Eo in Hy by lia. assert (exists m, 1 <= m < b /\ item l2 a = item l m) as (m & Hm & E).
    { destruct (Z_le_gt_dec a M) as [Ha|Ha].
      - destruct (Hin a) as (m & Hm & E); [lia|]. exists m. split; [lia|done].
      - exists a. split; [lia|]. rewrite Out by lia. apply Eo; lia. }
    rewrite E in Hx. by apply (Hp m b); [lia|lia|lia|..].
Qed.

Lemma extract_spec n : forall l, Z.of_nat n + 1 <= Z.of_nat (length l) -> heap l (Z.of_nat n + 1) 1 -> placed l (Z.of_nat n + 1) ->
  exists l', extract compar n l = Some l' /\ placed l' 1 /\ length l' = length l /\ l' ≡ₚ l.
Proof.
  induction n as [|n IH]; intros l Hn Hh Hp; cbn [extract]; [by exists l|].
  destruct (extract_step l (Z.of_nat (S n) + 1)) as (l1 & l2 & -> & E2 & Hh2 & Hp2 & El & Pl); [lia|done|done|].
  cbn [mbind option_bind]. rewrite E2. cbn [mbind option_bind].
  replace (Z.of_nat (S n) + 1 - 1) with (Z.of_nat n + 1) in * by lia.
  destruct (IH l2) as (l' & -> & Hp' & E' & P'); [lia|done|done|]. exists l'. split_and!; try done; [congruence|by rewrite P'].
Qed.

Lemma placed_sorted l : placed l 1 -> StronglySorted le l.
Proof.
  intros Hp. assert (forall (i j : nat) x y, (i < j)%nat -> l !! i = Some x -> l !! j = Some y -> le x y) as H.
  { intros i j x y Hij Hx Hy. apply lookup_lt_Some in Hy as Hl.
    apply (Hp (Z.of_nat i + 1) (Z.of_nat j + 1)); [lia|lia|lia|..]; unfold item, aget;
      rewrite Z.add_simpl_r, (proj2 (Z.leb_le _ _)), Nat2Z.id by lia; done. }
  clear Hp. induction l as [|z l IH]; constructor.
  - apply IH. intros i j x y Hij. apply (H (S i) (S j)). lia.
  - apply Forall_lookup. intros i x Hx. by apply (H 0%nat (S i)); [lia|..].
Qed.

(** heapsort ends without leaving the array and makes it a sorted permutation
    of what it was, for every comparison that orders the elements; elements of size
    0 are refused with EINVAL. *)
Theorem heapsort_sorts size l :
  exists r e l', heapsort compar size l = Some (r, e, l') /\
    if (Z.of_nat (length l) <=? 1) || negb (size =? 0)
    then r = 0 /\ e = None /\ l' ≡ₚ l /\ StronglySorted le l'
    else r = -1 /\ e = Some EINVAL /\ l' = l.
Proof.
  unfold heapsort. destruct (Z.leb_spec (Z.of_nat (length l)) 1) as [H1|H1]; cbn [orb].
  - do 3 eexists. split; [done|]. split_and!; try done. destruct l as [|x [|y l]]; [constructor|repeat constructor|cbn in H1; lia].
  - destruct (size =? 0); [by do 3 eexists|]. cbn [negb].
    destruct (build_spec (Z.to_nat (Z.of_nat (length l) / 2)) l) as (l1 & -> & Hh & El & Pl).
    + Z.div_mod_to_equations. lia.
    + intros j Hj Hk. Z.div_mod_to_equations. lia.
    + cbn [mbind option_bind].
      destruct (extract_spec (Z.to_nat (Z.of_nat (length l) - 1)) l1) as (l2 & -> & Hp & El2 & Pl2).
      * lia.
      * by replace (Z.of_nat (Z.to_nat (Z.of_nat (length l) - 1)) + 1) with (Z.of_nat (length l)) by lia.
      * intros a b Hab Hb Hn. lia.
      * do 3 eexists. split; [done|]. split_and!; try done; [by rewrite Pl2|by apply placed_sorted].
Qed.
End Heap.

(** ** Quicksort *)

Section Quick.
Context {A : Type} {compar : A -> A -> Z} `{!Compares compar}.
Implicit Types (l : list A).
Notation le := (le (compar := compar)).

(** The elements from [a] up to [b] change places. *)
Definition shuffled l l' (a b : Z) : Prop := moves l l' b (a + 1).

Lemma shuffled_refl l a b : shuffled l l a b.
Proof. apply moves_refl. Qed.

Lemma shuffled_trans l l1 l2 a b : shuffled l l1 a b -> shuffled l1 l2 a b -> shuffled l l2 a b.
Proof. apply moves_trans. Qed.

Lemma aget_item l k : aget l k = item l (k + 1).
Proof. unfold item. f_equal. lia. Qed.

Lemma shuffled_length l l' a b : shuffled l l' a b -> length l' = length l.
Proof. by intros (H & _). Qed.

Lemma shuffled_perm l l' a b : shuffled l l' a b -> l' ≡ₚ l.
Proof. by intros (_ & H & _). Qed.

Lemma shuffled_out l l' a b k : shuffled l l' a b -> k < a \/ b <= k -> aget l' k = aget l k.
Proof. intros (_ & _ & H & _) Hk. rewrite !aget_item. apply H. lia. Qed.

Lemma shuffled_in l l' a b k : shuffled l l' a b -> a <= k < b -> exists k', a <= k' < b /\ aget l' k = aget l k'.
Proof.
  intros (_ & _ & _ & H) Hk. destruct (H (k + 1)) as (m & Hm & E); [lia|]. exists (m - 1). split; [lia|].
  rewrite !aget_item. by rewrite E, Z.sub_add.
Qed.

Lemma shuffled_widen l l' a b a' b' : a' <= a -> b <= b' -> shuffled l l' a b -> shuffled l l' a' b'.
Proof.
  intros Ha Hb (E & P & O & I). split_and!; [done|done| |].
  - intros m Hm. apply O. lia.
  - intros m Hm. destruct (decide (a + 1 <= m <= b)) as [Hin|Hout].
    + destruct (I m Hin) as (m' & Hm' & ->). exists m'. split; [lia|done].
    + exists m. split; [done|]. apply O. lia.
Qed.

Lemma swap_spec l a b i j : 0 <= a -> b <= Z.of_nat (length l) -> a <= i < b -> a <= j < b -> i <> j ->
  exists l', swap i j l = Some l' /\ shuffled l l' a b /\ aget l' i = aget l j /\ aget l' j = aget l i /\
    forall k, k <> i -> k <> j -> aget l' k = aget l k.
Proof.
  intros Ha Hb Hi Hj Hij. unfold swap. destruct (SWAP_spec l (i + 1) (j + 1)) as (l' & E & El & Pl & Ei & Ej & Eo); [lia..|].
  exists l'. split; [done|]. rewrite !aget_item. split_and!; try done.
  - apply (SWAP_moves l l' b (a + 1) (i + 1) (j + 1)); try done; lia.
  - intros k Hk1 Hk2. rewrite !aget_item. apply Eo; lia.
Qed.

(** The element at [a] is not larger than the one at [b]. *)
Definition below l (a b : Z) : Prop := forall x y, aget l a = Some x -> aget l b = Some y -> le x y.

Lemma below_trans l a b c : is_Some (aget l b) -> below l a b -> below l b c -> below l a c.
Proof. intros [y Hy] H1 H2 x z Hx Hz. eapply compares_trans; [by apply H1|by apply H2]. Qed.

Lemma below_refl l a : below l a a.
Proof. intros x y Hx Hy. simplify_eq. apply le_refl. Qed.

Lemma not_le x y : 0 < compar x y -> le y x.
Proof. intros. apply not_lt_le. lia. Qed.

Lemma median_spec l base max : 0 <= base -> base < max <= Z.of_nat (length l) ->
  exists l', median compar base max (base + Z.shiftr (max - base) 1) l = Some l' /\ shuffled l l' base max.
Proof.
  intros Hb Hm. rewrite (Z.shiftr_div_pow2 _ 1), Z.pow_1_r by lia. unfold median.
  destruct (Z.ltb_spec (max - base) 6) as [|H6]; [exists l; split; [done|apply shuffled_refl]|].
  set (mid := base + (max - base) / 2). assert (base < mid < max - 1) as Hmid by (unfold mid; Z.div_mod_to_equations; lia).
  destruct (aget_is_Some l base) as [b ->]; [lia|]. destruct (aget_is_Some l mid) as [m ->]; [lia|].
  destruct (aget_is_Some l (max - 1)) as [t ->]; [lia|]. cbn [mbind option_bind]. cbv zeta.
  match goal with |- context [?j =? mid] => set (jj := j) end.
  assert (base <= jj < max) as Hj by (unfold jj; repeat case_match; lia).
  destruct (Z.eqb_spec jj mid) as [|Hne]; [exists l; split; [done|apply shuffled_refl]|].
  destruct (swap_spec l base max mid jj) as (l' & -> & Hs & _); [lia..|]. by exists l'.
Qed.

Lemma go_up_spec l v mid : aget l mid = Some v -> mid < Z.of_nat (length l) -> forall fuel i,
  0 <= i <= mid -> mid - i <= Z.of_nat fuel ->
  exists i', go_up compar fuel i mid l = Some i' /\ i <= i' <= mid /\
    (forall k x, i <= k < i' -> aget l k = Some x -> le x v) /\
    (i' = mid \/ exists x, aget l i' = Some x /\ le v x).
Proof.
  intros Hv Hlen. induction fuel as [|fuel IH]; intros i Hi Hf; cbn [go_up];
    (destruct (Z.ltb_spec i mid) as [Hlt|]; [|exists i; split_and!; try done; lia]); [lia|].
  destruct (aget_is_Some l i) as [x Ex]; [lia|]. rewrite Ex, Hv. cbn [mbind option_bind].
  destruct (Z.leb_spec (compar x v) 0) as [Hle|Hgt].
  - destruct (IH (i + 1)) as (i' & -> & Hi' & Hall & Hstop); [lia|lia|]. exists i'. split_and!; try done; try lia.
    intros k y Hk Hy. destruct (Z.eq_dec k i) as [->|]; [by simplify_eq|]. apply (Hall k); [lia|done].
  - exists i. split_and!; try done; try lia. right. exists x. split; [done|by apply not_le].
Qed.

Lemma go_down_spec l v mid : aget l mid = Some v -> 0 <= mid -> forall fuel j,
  mid <= j < Z.of_nat (length l) -> j - mid <= Z.of_nat fuel ->
  exists j', go_down compar fuel j mid l = Some j' /\ mid <= j' <= j /\
    (forall k x, j' < k <= j -> aget l k = Some x -> le v x) /\
    (j' = mid \/ exists x, aget l j' = Some x /\ le x v).
Proof.
  intros Hv Hmid. induction fuel as [|fuel IH]; intros j Hj Hf; cbn [go_down];
    (destruct (Z.ltb_spec mid j) as [Hlt|]; [|exists j; split_and!; try done; lia]); [lia|].
  destruct (aget_is_Some l j) as [y Ey]; [lia|]. rewrite Hv, Ey. cbn [mbind option_bind].
  destruct (Z.leb_spec (compar v y) 0) as [Hle|Hgt].
  - destruct (IH (j - 1)) as (j' & -> & Hj' & Hall & Hstop); [lia|lia|]. exists j'. split_and!; try done; try lia.
    intros k x Hk Hx. destruct (Z.eq_dec k j) as [->|]; [by simplify_eq|]. apply (Hall k); [lia|done].
  - exists j. split_and!; try done; try lia. right. exists y. split; [done|by apply not_le].
Qed.

(** The pivot [v] is at [mid], nothing larger in front of [i], nothing smaller behind [j]. *)
Record split_at l (base max i j mid : Z) (v : A) : Prop := {
  sp_order : base <= i <= mid /\ mid <= j < max;
  sp_pivot : aget l mid = Some v;
  sp_low k x : base <= k < i -> aget l k = Some x -> le x v;
  sp_high k x : j < k < max -> aget l k = Some x -> le v x
}.

Lemma partition_spec base max v : 0 <= base -> forall fuel l i j mid,
  max <= Z.of_nat (length l) -> j - i < Z.of_nat fuel -> split_at l base max i j mid v ->
  exists m l', partition compar fuel i j mid l = Some (m, l') /\ shuffled l l' base max /\ split_at l' base max m m m v.
Proof.
  intros Hb. induction fuel as [|fuel IH]; intros l i j mid Hmax Hf [[Hi Hj] Hv Hlo Hhi]; [lia|]. cbn [partition].
  destruct (go_up_spec l v mid Hv ltac:(lia) (S fuel) i) as (i1 & -> & Hi1 & Hup & Hi2); [lia|lia|]. cbn [mbind option_bind].
  destruct (go_down_spec l v mid Hv ltac:(lia) (S fuel) j) as (j1 & -> & Hj1 & Hdown & Hj2); [lia|lia|]. cbn [mbind option_bind].
  assert (forall k x, base <= k < i1 -> aget l k = Some x -> le x v) as Hlo1
    by (intros k x Hk; destruct (Z_lt_le_dec k i); [apply Hlo|apply Hup]; lia).
  assert (forall k x, j1 < k < max -> aget l k = Some x -> le v x) as Hhi1
    by (intros k x Hk; destruct (Z_le_gt_dec k j); [apply Hdown|apply Hhi]; lia).
  clear Hlo Hup Hhi Hdown.
  assert (forall l1 i' j' mid' a b, swap a b l = Some l1 -> shuffled l l1 base max -> j' - i' < Z.of_nat fuel ->
    split_at l1 base max i' j' mid' v ->
    exists m l', (l ← swap a b l; partition compar fuel i' j' mid' l) = Some (m, l') /\
      shuffled l l' base max /\ split_at l' base max m m m v) as Next.
  { intros l1 i' j' mid' a b Es Hs Hf' Hsp. rewrite Es. cbn [mbind option_bind].
    destruct (IH l1 i' j' mid') as (m & l' & -> & Hs' & Hsp'); [by rewrite (shuffled_length _ _ _ _ Hs)|done|done|].
    exists m, l'. split_and!; try done. by eapply shuffled_trans. }
  destruct (Z.ltb_spec mid j1) as [Hmj|Hmj].
  - destruct Hj2 as [->|(y & Ey & Hy)]; [lia|]. destruct (Z.eqb_spec i1 mid) as [->|Him].
    + destruct (swap_spec l base max mid j1) as (l1 & Es & Hs & E1 & E2 & Eo); [lia..|].
      eapply Next; try done; [lia|]. split; [lia|congruence| |].
      * intros k x Hk Hx. destruct (Z.eq_dec k mid) as [->|]; [by simplify_eq/=; congruence|].
        rewrite Eo in Hx by lia. apply (Hlo1 k); [lia|done].
      * intros k x Hk Hx. rewrite Eo in Hx by lia. by apply (Hhi1 k).
    + destruct Hi2 as [->|(z & Ez & Hz)]; [done|].
      destruct (swap_spec l base max i1 j1) as (l1 & Es & Hs & E1 & E2 & Eo); [lia..|].
      eapply Next; try done; [lia|]. split; [lia|by rewrite Eo by lia| |].
      * intros k x Hk Hx. destruct (Z.eq_dec k i1) as [->|]; [by replace x with y by congruence|].
        rewrite Eo in Hx by lia. apply (Hlo1 k); [lia|done].
      * intros k x Hk Hx. destruct (Z.eq_dec k j1) as [->|]; [by replace x with z by congruence|].
        rewrite Eo in Hx by lia. apply (Hhi1 k); [lia|done].
  - assert (j1 = mid) as -> by lia. destruct (Z.eqb_spec i1 mid) as [->|Him].
    + exists mid, l. split_and!; [done|apply shuffled_refl|]. split; try done. lia.
    + destruct Hi2 as [->|(z & Ez & Hz)]; [done|].
      destruct (swap_spec l base max i1 mid) as (l1 & Es & Hs & E1 & E2 & Eo); [lia..|].
      eapply Next; try done; [lia|]. split; [lia|congruence| |].
      * intros k x Hk Hx. rewrite Eo in Hx by lia. apply (Hlo1 k); [lia|done].
      * intros k x Hk Hx. destruct (Z.eq_dec k mid) as [->|]; [by replace x with z by congruence|].
        rewrite Eo in Hx by lia. apply (Hhi1 k); [lia|done].
Qed.

(** A smallest element of the part from [a] up to [b] is among its first four. *)
Definition early l (a b : Z) : Prop :=
  a < b -> exists m, a <= m < a + THRESH /\ m < b /\ forall k, a <= k < b -> below l m k.

Lemma smallest_exists l a b : 0 <= a < b -> b <= Z.of_nat (length l) ->
  exists m, a <= m < b /\ forall k, a <= k < b -> below l m k.
Proof.
  intros [Ha Hab]. replace b with (a + 1 + Z.of_nat (Z.to_nat (b - a - 1))) by lia.
  generalize (Z.to_nat (b - a - 1)) as n. clear b Hab. induction n as [|n IH]; intros Hn.
  - exists a. split; [lia|]. intros k Hk. replace k with a by lia. apply below_refl.
  - destruct IH as (m & Hm & Hall); [lia|]. set (c := a + 1 + Z.of_nat n) in *.
    destruct (aget_is_Some l m) as [x Ex]; [lia|]. destruct (aget_is_Some l c) as [y Ey]; [lia|].
    destruct (Z_le_gt_dec (compar x y) 0) as [H|H].
    + exists m. split; [lia|]. intros k Hk. destruct (Z.eq_dec k c) as [->|]; [|apply Hall; lia].
      intros x' y' Hx Hy. by simplify_eq.
    + exists c. split; [lia|]. assert (below l c m) as Hcm by (intros x' y' Hx Hy; simplify_eq; apply not_le; lia).
      intros k Hk. destruct (Z.eq_dec k c) as [->|]; [apply below_refl|].
      apply (below_trans l c m k); [by eexists|done|]. apply Hall. lia.
Qed.

Lemma early_out l l' a b c d : shuffled l l' c d -> b <= c \/ d <= a -> early l a b -> early l' a b.
Proof.
  intros Hs Hd He Hab. destruct (He Hab) as (m & Hm & Hmb & H). exists m. split_and!; [lia..|].
  intros k Hk x y. rewrite !(shuffled_out _ _ _ _ _ Hs) by lia. by apply H.
Qed.

(** The two parts beside the pivot are shuffled, the smallest of the left one comes early. *)
Lemma early_join l l' base mid max v : 0 <= base -> max <= Z.of_nat (length l) -> split_at l base max mid mid mid v ->
  forall l1, (shuffled l l1 base mid /\ shuffled l1 l' (mid + 1) max) \/ (shuffled l l1 (mid + 1) max /\ shuffled l1 l' base mid) ->
  early l' base mid -> shuffled l l' base max /\ early l' base max.
Proof.
  intros Hb Hmax [Ho Hv Hlo Hhi] l1 Hs He.
  assert (shuffled l l' base max) as Hsh.
  { destruct Hs as [[H1 H2]|[H1 H2]]; eapply shuffled_trans; (eapply shuffled_widen; [..|eassumption]); lia. }
  split; [done|]. intros _.
  assert (aget l' mid = Some v) as Hv'
    by (destruct Hs as [[H1 H2]|[H1 H2]]; rewrite (shuffled_out _ _ _ _ mid H2), (shuffled_out _ _ _ _ mid H1) by lia; done).
  assert (forall k x, base <= k < mid -> aget l' k = Some x -> le x v) as Hlo'.
  { intros k x Hk Hx. destruct Hs as [[H1 H2]|[H1 H2]].
    - rewrite (shuffled_out _ _ _ _ k H2) in Hx by lia. destruct (shuffled_in _ _ _ _ k H1 Hk) as (k' & Hk' & E).
      rewrite E in Hx. by apply (Hlo k').
    - destruct (shuffled_in _ _ _ _ k H2 Hk) as (k' & Hk' & E). rewrite E, (shuffled_out _ _ _ _ k' H1) in Hx by lia. by apply (Hlo k'). }
  assert (forall k x, mid < k < max -> aget l' k = Some x -> le v x) as Hhi'.
  { intros k x Hk Hx. destruct Hs as [[H1 H2]|[H1 H2]].
    - destruct (shuffled_in _ _ _ _ k H2 ltac:(lia)) as (k' & Hk' & E). rewrite E, (shuffled_out _ _ _ _ k' H1) in Hx by lia.
      apply (Hhi k'); [lia|done].
    - rewrite (shuffled_out _ _ _ _ k H2) in Hx by lia. destruct (shuffled_in _ _ _ _ k H1 ltac:(lia)) as (k' & Hk' & E).
      rewrite E in Hx. apply (Hhi k'); [lia|done]. }
  assert (forall k, mid <= k < max -> below l' mid k) as Hpiv.
  { intros k Hk x y Hx Hy. replace x with v by congruence. destruct (Z.eq_dec k mid) as [->|].
    - replace y with v by congruence. apply le_refl.
    - apply (Hhi' k); [lia|done]. }
  destruct (Z.eq_dec base mid) as [->|Hne].
  - exists mid. unfold THRESH. split_and!; [lia..|done].
  - destruct He as (m & Hm & Hmm & Hall); [lia|]. exists m. split_and!; [lia..|]. intros k Hk.
    destruct (Z_lt_le_dec k mid); [apply Hall; lia|]. apply (below_trans l' m mid k); [by eexists| |apply Hpiv; lia].
    intros x y Hx Hy. replace y with v by congruence. apply (Hlo' m); [lia|done].
Qed.

Lemma qst_spec fuel : forall l base max, 0 <= base < max -> max <= Z.of_nat (length l) -> max - base <= Z.of_nat fuel ->
  exists l', qst compar fuel base max l = Some l' /\ shuffled l l' base max /\ early l' base max.
Proof.
  induction fuel as [|fuel IH]; intros l base max Hb Hmax Hf; [lia|]. cbn [qst].
  destruct (median_spec l base max) as (l0 & -> & Hs0); [lia|lia|]. cbn [mbind option_bind].
  apply shuffled_length in Hs0 as El0.
  set (mid := base + Z.shiftr (max - base) 1).
  assert (base <= mid < max) as Hmid
    by (unfold mid; rewrite (Z.shiftr_div_pow2 _ 1), Z.pow_1_r by lia; Z.div_mod_to_equations; lia).
  destruct (aget_is_Some l0 mid) as [v Hv]; [lia|].
  destruct (partition_spec base max v ltac:(lia) (S (Z.to_nat (max - base))) l0 base (max - 1) mid) as (m & l1 & -> & Hs1 & Hsp);
    [lia|lia|split; [lia|done|intros; lia..]|].
  cbn [mbind option_bind]. apply shuffled_length in Hs1 as El1. pose proof (sp_order _ _ _ _ _ _ _ Hsp) as Hm.
  assert (forall l a b, 0 <= a -> b <= Z.of_nat (length l) -> b - a <= Z.of_nat fuel ->
    exists l', (if THRESH <=? b - a then qst compar fuel a b l else Some l) = Some l' /\ shuffled l l' a b /\ early l' a b) as Part.
  { intros l2 a b Ha Hb2 Hf2. destruct (Z.leb_spec THRESH (b - a)) as [Ht|Ht]; unfold THRESH in Ht; [apply IH; lia|].
    exists l2. split_and!; [done|apply shuffled_refl|]. intros Hab.
    destruct (smallest_exists l2 a b) as (k & Hk & Hall); [lia|lia|]. exists k. unfold THRESH. split_and!; [lia..|done]. }
  assert (forall l', shuffled l1 l' base max /\ early l' base max -> shuffled l l' base max /\ early l' base max) as End.
  { intros l' [H He]. split; [|done]. eapply shuffled_trans; [exact Hs0|]. by eapply shuffled_trans. }
  destruct (Z.leb_spec (m - base) (max - (m + 1))).
  - destruct (Part l1 base m) as (l2 & -> & Hs2 & He2); [lia..|]. cbn [mbind option_bind]. apply shuffled_length in Hs2 as El2.
    destruct (Part l2 (m + 1) max) as (l3 & -> & Hs3 & He3); [lia..|]. exists l3. split; [done|]. apply End.
    eapply early_join; [lia| |exact Hsp|by left|]; [lia|]. eapply early_out; [exact Hs3|lia|done].
  - destruct (Part l1 (m + 1) max) as (l2 & -> & Hs2 & He2); [lia..|]. cbn [mbind option_bind]. apply shuffled_length in Hs2 as El2.
    destruct (Part l2 base m) as (l3 & -> & Hs3 & He3); [lia..|]. exists l3. split; [done|]. apply End.
    eapply early_join; [lia| |exact Hsp|by right|done]. lia.
Qed.

(** *** The insertion sort *)

Lemma smallest_spec l n : forall lo j, 0 <= j < lo -> lo + Z.of_nat n <= Z.of_nat (length l) ->
  (forall k, 0 <= k < lo -> below l j k) ->
  exists r, smallest compar n lo j l = Some r /\ 0 <= r < lo + Z.of_nat n /\ forall k, 0 <= k < lo + Z.of_nat n -> below l r k.
Proof.
  induction n as [|n IH]; intros lo j Hj Hlen Hall; cbn [smallest]; [exists j; split_and!; try done; try lia; intros; apply Hall; lia|].
  destruct (aget_is_Some l j) as [x Ex]; [lia|]. destruct (aget_is_Some l lo) as [y Ey]; [lia|]. rewrite Ex, Ey. cbn [mbind option_bind].
  replace (lo + Z.of_nat (S n)) with (lo + 1 + Z.of_nat n) in * by lia.
  destruct (Z.ltb_spec 0 (compar x y)) as [H|H]; (apply IH; [lia|lia|]); intros k Hk;
    (destruct (Z.eq_dec k lo) as [->|]; [|]); try apply below_refl.
  - apply (below_trans l lo j k); [by eexists| |apply Hall; lia]. intros x' y' Hx Hy. simplify_eq. by apply not_le.
  - intros x' y' Hx Hy. by simplify_eq.
  - apply Hall. lia.
Qed.

Lemma find_place_spec l x s : aget l 0 = Some s -> le s x -> forall fuel hi, 1 <= hi <= Z.of_nat (length l) -> hi <= Z.of_nat fuel ->
  exists r y, find_place compar fuel hi x l = Some r /\ 1 <= r <= hi /\ aget l (r - 1) = Some y /\ le y x /\
    forall k z, r <= k < hi -> aget l k = Some z -> le x z.
Proof.
  intros Hs Hsx. induction fuel as [|fuel IH]; intros hi Hhi Hf; [lia|]. cbn [find_place].
  destruct (aget_is_Some l (hi - 1)) as [y Ey]; [lia|]. rewrite Ey. cbn [mbind option_bind].
  destruct (Z.ltb_spec 0 (compar y x)) as [Hgt|Hle].
  - assert (hi <> 1) as H1. { intros ->. change (1 - 1) with 0 in Ey. rewrite Hs in Ey. injection Ey as <-. unfold Sorting.le in Hsx. lia. }
    destruct (IH (hi - 1)) as (r & y' & -> & Hr & Ey' & Hle' & Hall); [lia|lia|]. exists r, y'. split_and!; try done; try lia.
    intros k z Hk Hz. destruct (Z.eq_dec k (hi - 1)) as [->|]; [simplify_eq; by apply not_le|]. apply (Hall k); [lia|done].
  - exists hi, y. split_and!; try done; try lia.
Qed.

Lemma aput_perm l i x z : aget l i = Some z -> z :: aput l i x ≡ₚ x :: l.
Proof.
  unfold aget, aput. destruct (Z.leb_spec 0 i); [|done]. apply insert_perm.
Qed.

Lemma shift_spec x n : forall i l, Z.of_nat n <= i < Z.of_nat (length l) ->
  exists l', shift n i x l = Some l' /\ length l' = length l /\ l' ≡ₚ aput l i x /\
    aget l' (i - Z.of_nat n) = Some x /\ (forall k, i - Z.of_nat n < k <= i -> aget l' k = aget l (k - 1)) /\
    (forall k, k < i - Z.of_nat n \/ i < k -> aget l' k = aget l k).
Proof.
  induction n as [|n IH]; intros i l Hi; cbn [shift].
  - destruct (aget_is_Some l i) as [z Ez]; [lia|]. eexists. split; [done|]. rewrite aput_length, Z.sub_0_r. split_and!; try done.
    + by apply (aget_aput_eq _ _ _ z).
    + intros; lia.
    + intros k Hk. by rewrite aget_aput_ne by lia.
  - destruct (aget_is_Some l (i - 1)) as [y Ey]; [lia|]. destruct (aget_is_Some l i) as [z Ez]; [lia|]. rewrite Ey. cbn [mbind option_bind].
    destruct (IH (i - 1) (aput l i y)) as (l' & -> & El & Pl & Ex & Hin & Hout); [rewrite aput_length; lia|].
    rewrite aput_length in El. exists l'. split; [done|]. split; [done|].
    replace (i - Z.of_nat (S n)) with (i - 1 - Z.of_nat n) by lia. split_and!; [|done| |].
    + rewrite Pl. apply (Permutation_cons_inv (a := y)), (Permutation_cons_inv (a := z)).
      rewrite (aput_perm (aput l i y) (i - 1) x y) by (rewrite aget_aput_ne by lia; done).
      rewrite (Permutation_swap x z), (aput_perm l i y z), (Permutation_swap y z), (aput_perm l i x z) by done.
      apply Permutation_swap.
    + intros k Hk. destruct (Z.eq_dec k i) as [->|].
      * rewrite Hout by lia. rewrite (aget_aput_eq _ _ _ z) by done. done.
      * rewrite Hin by lia. by rewrite aget_aput_ne by lia.
    + intros k Hk. rewrite Hout by lia. by rewrite aget_aput_ne by lia.
Qed.

(** The elements in front of [n] are sorted, the first is a smallest one. *)
Definition run l (n : Z) : Prop :=
  (forall a b, 0 <= a < b -> b < n -> below l a b) /\ forall k, 0 <= k -> below l 0 k.

Lemma run_step l min x : 1 <= min < Z.of_nat (length l) -> aget l min = Some x -> run l min ->
  exists hi l', find_place compar (Z.to_nat min) min x l = Some hi /\
    (if hi =? min then Some l else shift (Z.to_nat (min - hi)) min x l) = Some l' /\
    length l' = length l /\ l' ≡ₚ l /\ run l' (min + 1).
Proof.
  intros Hmin Hx [Hsort H0]. destruct (aget_is_Some l 0) as [s Es]; [lia|].
  destruct (find_place_spec l x s Es (H0 min ltac:(lia) _ _ Es Hx) (Z.to_nat min) min) as (hi & y & -> & Hhi & Ey & Hy & Hup); [lia..|].
  assert (exists l', (if hi =? min then Some l else shift (Z.to_nat (min - hi)) min x l) = Some l' /\ length l' = length l /\ l' ≡ₚ l /\
    aget l' hi = Some x /\ (forall k, hi < k <= min -> aget l' k = aget l (k - 1)) /\
    (forall k, k < hi \/ min < k -> aget l' k = aget l k)) as (l' & El' & Elen & Pl & Ehi & Hin & Hout).
  { destruct (Z.eqb_spec hi min) as [->|Hne]; [exists l; split_and!; try done; intros; lia|].
    destruct (shift_spec x (Z.to_nat (min - hi)) min l) as (l' & -> & Elen & Pl & E & Hin & Hout); [lia|].
    replace (min - Z.of_nat (Z.to_nat (min - hi))) with hi in * by lia. exists l'. split_and!; try done.
    rewrite Pl. apply (Permutation_cons_inv (a := x)). by apply aput_perm. }
  exists hi, l'. split_and!; try done. split.
  - intros a b Hab Hb u w Hu Hw. destruct (Z_lt_le_dec b hi) as [Hbh|Hbh].
    { rewrite !Hout in * by lia. by apply (Hsort a b); [lia|lia|..]. }
    destruct (Z_lt_le_dec a hi) as [Hah|Hah].
    + rewrite Hout in Hu by lia. assert (le u y) as Huy.
      { destruct (Z.eq_dec a (hi - 1)) as [->|]; [simplify_eq; apply le_refl|]. by apply (Hsort a (hi - 1)); [lia|lia|..]. }
      eapply compares_trans; [exact Huy|]. destruct (Z.eq_dec b hi) as [->|]; [by simplify_eq|].
      rewrite Hin in Hw by lia. eapply compares_trans; [exact Hy|]. apply (Hup (b - 1)); [lia|done].
    + rewrite Hin in Hw by lia. destruct (Z.eq_dec a hi) as [->|].
      * simplify_eq. apply (Hup (b - 1)); [lia|done].
      * rewrite Hin in Hu by lia. by apply (Hsort (a - 1) (b - 1)); [lia|lia|..].
  - intros k Hk u w Hu Hw. rewrite Hout in Hu by lia. assert (exists k', 0 <= k' /\ aget l k' = Some w) as (k' & Hk' & Ew).
    { destruct (Z.eq_dec k hi) as [->|]; [exists min; split; [lia|congruence]|].
      destruct (decide (hi < k <= min)); [exists (k - 1); split; [lia|]; by rewrite <- Hin by lia|].
      exists k. split; [lia|]. by rewrite <- Hout by lia. }
    by apply (H0 k' Hk').
Qed.

Lemma insertion_spec n : forall l min, 1 <= min -> min + Z.of_nat n = Z.of_nat (length l) -> run l min ->
  exists l', insertion compar n min l = Some l' /\ length l' = length l /\ l' ≡ₚ l /\ run l' (Z.of_nat (length l)).
Proof.
  induction n as [|n IH]; intros l min Hmin Hn Hr; cbn [insertion]; [exists l; split_and!; try done; by replace (Z.of_nat (length l)) with min by lia|].
  destruct (aget_is_Some l min) as [x Ex]; [lia|]. rewrite Ex. cbn [mbind option_bind].
  destruct (run_step l min x) as (hi & l1 & -> & E1 & El & Pl & Hr1); [lia|done|done|]. cbn [mbind option_bind]. rewrite E1.
  cbn [mbind option_bind]. destruct (IH l1 (min + 1)) as (l' & -> & El' & Pl' & Hr'); [lia|lia|done|].
  exists l'. rewrite <- El. split_and!; try done. by rewrite Pl'.
Qed.

Lemma run_sorted l : run l (Z.of_nat (length l)) -> StronglySorted le l.
Proof. intros [H _]. apply placed_sorted. intros a b Hab Hb _. apply (H (a - 1) (b - 1)); lia. Qed.

(** C7. qsort ends without leaving the array, its insertion sort never running past
    the sentinel, and makes the array a sorted permutation of what it was, for every
    comparison that orders the elements. *)
Theorem qsort_sorts l : exists l', qsort compar l = Some l' /\ l' ≡ₚ l /\ StronglySorted le l'.
Proof.
  unfold qsort. destruct (Z.leb_spec (Z.of_nat (length l)) 1) as [H1|H1].
  { exists l. split_and!; try done. destruct l as [|x [|y l]]; [constructor|repeat constructor|cbn in H1; lia]. }
  assert (exists l1, (if THRESH <=? Z.of_nat (length l) then qst compar (length l) 0 (Z.of_nat (length l)) l else Some l) = Some l1 /\
    length l1 = length l /\ l1 ≡ₚ l /\ early l1 0 (Z.of_nat (length l))) as (l1 & -> & El1 & Pl1 & He1).
  { destruct (Z.leb_spec THRESH (Z.of_nat (length l))) as [Ht|Ht].
    - destruct (qst_spec (length l) l 0 (Z.of_nat (length l))) as (l1 & -> & Hs & He); [lia..|]. exists l1.
      split_and!; try done; [by eapply shuffled_length|by eapply shuffled_perm].
    - exists l. split_and!; try done. intros Hn. destruct (smallest_exists l 0 (Z.of_nat (length l))) as (m & Hm & Hall); [lia|lia|].
      exists m. split_and!; [lia..|done]. }
  cbn [mbind option_bind]. set (n := Z.of_nat (length l)) in *. set (hi := if THRESH <=? n then THRESH else n).
  assert (2 <= hi <= n /\ (hi = THRESH \/ hi = n)) as [Hhi Hhi2] by (unfold hi, THRESH in *; destruct (Z.leb_spec 4 n); lia).
  destruct He1 as (m & Hm & Hmn & Hmin); [lia|].
  destruct (smallest_spec l1 (Z.to_nat (hi - 1)) 1 0) as (j & -> & Hj & Hjall);
    [lia|rewrite El1; lia|intros k Hk; replace k with 0 by lia; apply below_refl|].
  cbn [mbind option_bind]. replace (1 + Z.of_nat (Z.to_nat (hi - 1))) with hi in * by lia.
  assert (forall k, 0 <= k < n -> below l1 j k) as Hglob.
  { intros k Hk. apply (below_trans l1 j m k); [apply aget_is_Some; lia|apply Hjall|apply Hmin; lia]. unfold THRESH in *. lia. }
  assert (exists l2, (if j =? 0 then Some l1 else swap j 0 l1) = Some l2 /\ length l2 = length l /\ l2 ≡ₚ l /\
    forall k, 0 <= k -> below l2 0 k) as (l2 & -> & El2 & Pl2 & H0).
  { destruct (Z.eqb_spec j 0) as [->|Hj0].
    - exists l1. split_and!; try done. intros k Hk x y Hx Hy. apply (Hglob k); [|done|done]. apply aget_Some_range in Hy. lia.
    - destruct (swap_spec l1 0 n j 0) as (l2 & -> & Hs & E1 & E2 & Eo); [lia..|]. exists l2. apply shuffled_length in Hs as El2.
      split_and!; try done; [congruence|by rewrite (shuffled_perm _ _ _ _ Hs)|]. intros k Hk x y Hx Hy.
      apply aget_Some_range in Hy as Hr. destruct (shuffled_in _ _ _ _ k Hs) as (k' & Hk' & E); [lia|].
      rewrite E in Hy. rewrite E2 in Hx. by apply (Hglob k'). }
  cbn [mbind option_bind]. destruct (insertion_spec (Z.to_nat (n - 1)) l2 1) as (l' & -> & El' & Pl' & Hr).
  - lia.
  - lia.
  - split; [intros a b Hab Hb; lia|done].
  - exists l'. split_and!; [done|by rewrite Pl'|]. apply run_sorted. by rewrite El'.
Qed.
End Quick.

(** ** bsearch *)

Section Found.
Context {A K : Type} (compar : K -> A -> Z) (key : K).

(** The elements smaller than the key come first, those larger come last. *)
Definition ordered (l : list A) : Prop := forall a b x y, a < b -> aget l a = Some x -> aget l b = Some y ->
  (compar key x < 0 -> compar key y < 0) /\ (0 < compar key y -> 0 < compar key x).

Lemma search_loop_spec l : ordered l -> forall fuel base lim,
  0 <= base -> 0 <= lim -> base + lim <= Z.of_nat (length l) -> lim < Z.of_nat fuel ->
  (forall a x, a < base -> aget l a = Some x -> 0 < compar key x) ->
  (forall a x, base + lim <= a -> aget l a = Some x -> compar key x < 0) ->
  exists r, search_loop compar fuel key l base lim = Some r /\
    match r with
    | Some p => exists x, aget l p = Some x /\ compar key x = 0
    | None => forall x, x ∈ l -> compar key x <> 0
    end.
Proof.
  intros Ho. induction fuel as [|fuel IH]; intros base lim Hb Hl Hn Hf Hlo Hhi; [lia|]. cbn [search_loop].
  destruct (Z.eqb_spec lim 0) as [->|Hlim].
  - exists None. split; [done|]. intros x (k & Hk)%list_elem_of_lookup_1 E.
    assert (aget l (Z.of_nat k) = Some x) as Hx
      by (unfold aget; rewrite (proj2 (Z.leb_le _ _)), Nat2Z.id by lia; done).
    destruct (Z_lt_le_dec (Z.of_nat k) base) as [H|H]; [specialize (Hlo _ _ H Hx)|specialize (Hhi (Z.of_nat k) x ltac:(lia) Hx)]; lia.
  - rewrite !(Z.shiftr_div_pow2 _ 1), Z.pow_1_r by lia. set (p := base + lim / 2).
    assert (base <= p < base + lim) as Hp by (unfold p; Z.div_mod_to_equations; lia).
    destruct (aget_is_Some l p) as [x Ex]; [lia|]. rewrite Ex. cbn [mbind option_bind].
    destruct (Z.eqb_spec (compar key x) 0) as [E|E]; [exists (Some p); eauto|].
    destruct (Z.ltb_spec 0 (compar key x)) as [Hgt|Hle].
    + assert (p + 1 + (lim - 1) / 2 = base + lim) as Hend by (unfold p; Z.div_mod_to_equations; lia).
      apply IH; [lia|Z.div_mod_to_equations; lia|lia|Z.div_mod_to_equations; lia| |by rewrite Hend].
      intros a y Ha Hy. destruct (Z.eq_dec a p) as [->|]; [congruence|].
      destruct (Ho a p y x) as [_ Hoa]; [lia|done|done|]. by apply Hoa.
    + apply IH; [done|Z.div_mod_to_equations; lia|unfold p in *; Z.div_mod_to_equations; lia|Z.div_mod_to_equations; lia|done|].
      intros a y Ha Hy. destruct (Z.eq_dec a p) as [->|]; [assert (y = x) as -> by congruence; lia|].
      destruct (Ho p a x y) as [Hoa _]; [unfold p in *; lia|done|done|]. apply Hoa. lia.
Qed.

(** bsearch in an ordered array ends without leaving it and returns an element
    that equals the key; NULL only if there is none. *)
Theorem bsearch_exact l :
  ordered l ->
  exists r, bsearch compar key l = Some r /\
    match r with
    | Some p => exists x, aget l p = Some x /\ compar key x = 0
    | None => forall x, x ∈ l -> compar key x <> 0
    end.
Proof.
  intros Ho. unfold bsearch. apply search_loop_spec; try lia; [done| |].
  - intros a x Ha Hx. apply aget_Some_range in Hx. lia.
  - intros a x Ha Hx. apply aget_Some_range in Hx. lia.
Qed.
End Found.

#[export] Instance sub_compares : Compares Z.sub.
Proof. split; intros; lia. Qed.

Lemma heapsort_sorts_witness :
  exists l', heapsort Z.sub 4 [5; 1; 4; 1; 3] = Some (0, None, l') /\ StronglySorted (le (compar := Z.sub)) l'.
Proof.
  destruct (heapsort_sorts (compar := Z.sub) 4 [5; 1; 4; 1; 3]) as (r & e & l' & E & H).
  cbn in H. destruct H as (-> & -> & _ & H). exists l'. split; [exact E|exact H].
Defined.

Lemma bsearch_exact_witness :
  exists r, bsearch Z.sub 4 [1; 3; 4; 8] = Some r /\
    match r with Some p => exists x, aget [1; 3; 4; 8] p = Some x /\ 4 - x = 0 | None => forall x, x ∈ [1; 3; 4; 8] -> 4 - x <> 0 end.
Proof.
  apply (bsearch_exact Z.sub 4 [1; 3; 4; 8]). intros a b x y Hab Hx Hy.
  apply aget_Some_range in Hx as Ha. apply aget_Some_range in Hy as Hb. cbn in Ha, Hb.
  assert ((a = 0 \/ a = 1 \/ a = 2 \/ a = 3) /\ (b = 0 \/ b = 1 \/ b = 2 \/ b = 3)) as [Ca Cb] by lia.
  destruct Ca as [-> | [-> | [-> | ->]]], Cb as [-> | [-> | [-> | ->]]]; try lia; cbn in Hx, Hy;
    injection Hx as <-; injection Hy as <-; lia.
Defined.

Lemma qsort_sorts_witness :
  exists l', qsort Z.sub [5; 1; 4; 1; 3; 9; 2; 6] = Some l' /\ l' ≡ₚ [5; 1; 4; 1; 3; 9; 2; 6] /\
    StronglySorted (le (compar := Z.sub)) l'.
Proof. exact (qsort_sorts (compar := Z.sub) [5; 1; 4; 1; 3; 9; 2; 6]). Defined.
