(* ===== verification/Mpool.v ===== *)
(** * The buffer pool of the databases

    Models db/mpool/mpool.c.  A pool holds pages of a file in buckets; [mem] is the
    memory they live in, a page and its bucket have one address.  The queues are
    lists of addresses.  The file is behind the interface [DiskOps], with the laws
    [DiskLaws] of lseek, read, write and fsync; an instance with failing calls is at
    the end.  What calloc and malloc answer is an argument: [None] is NULL, malloc
    gives an address and the rubbish that is there.  A function that follows a wild
    pointer or calls abort has the result [None]. *)

From S2P Require Import Prelude.

Notation page_bytes := (list Z).

(** The system calls on the file of a pool: the result, for read the bytes that were
    stored, and the file afterwards. *)
Class DiskOps (D : Type) := {
  lseek : Z -> D -> Z * D;
  read : Z -> D -> Z * page_bytes * D;
  write : page_bytes -> D -> Z * D;
  fsync : D -> Z * D
}.

Module Mpool.

Definition HASHSIZE : Z := 128.
Definition HASHKEY (pgno : Z) : Z := u32 (pgno - 1) mod HASHSIZE.
Definition MAX_PAGE_NUMBER : Z := 0xffffffff.
Definition MPOOL_DIRTY : Z := 1.
Definition MPOOL_PINNED : Z := 2.
Definition RET_ERROR : Z := -1.
Definition RET_SUCCESS : Z := 0.
Definition EFTYPE : Z := 79.
Definition ESPIPE : Z := 29.

Record BKT := mk_bkt { page : page_bytes; pgno : Z; flags : Z }.

Definition filter := Z -> page_bytes -> page_bytes.

Record MPOOL := mk_mpool {
  lqh : list Z;
  hqh : list (list Z);
  curcache : Z; maxcache : Z; npages : Z; pagesize : Z;
  pgin : option filter; pgout : option filter;
  mem : gmap Z BKT
}.

Definition set_queues (mp : MPOOL) (l : list Z) (h : list (list Z)) : MPOOL :=
  mk_mpool l h (curcache mp) (maxcache mp) (npages mp) (pagesize mp) (pgin mp) (pgout mp) (mem mp).

Definition store (mp : MPOOL) (a : Z) (bp : BKT) : MPOOL :=
  mk_mpool (lqh mp) (hqh mp) (curcache mp) (maxcache mp) (npages mp) (pagesize mp) (pgin mp) (pgout mp) (<[a := bp]> (mem mp)).

Definition set_flags (bp : BKT) (f : Z) : BKT := mk_bkt (page bp) (pgno bp) f.
Definition set_page (bp : BKT) (c : page_bytes) : BKT := mk_bkt c (pgno bp) (flags bp).

Definition is_dirty (bp : BKT) : bool := negb (Z.land (flags bp) MPOOL_DIRTY =? 0).
Definition is_pinned (bp : BKT) : bool := negb (Z.land (flags bp) MPOOL_PINNED =? 0).

(** What fstat says: [None] when it fails. *)
Record stat := mk_stat { st_reg : bool; st_size : Z }.

(** The pool, or errno where mpool_open sets it. *)
Definition mpool_open (sb : option stat) (pagesize maxcache : Z) (calloc : bool) : option MPOOL * option Z :=
  match sb with
  | None => (None, None)
  | Some sb =>
    if negb (st_reg sb) then (None, Some ESPIPE)
    else if negb calloc then (None, None)
    else
      (Some (mk_mpool [] (replicate (Z.to_nat HASHSIZE) []) 0 maxcache (u32 (st_size sb) / pagesize) pagesize None None ∅), None)
  end.

Definition mpool_filter (mp : MPOOL) (pgin pgout : option filter) : MPOOL :=
  mk_mpool (lqh mp) (hqh mp) (curcache mp) (maxcache mp) (npages mp) (pagesize mp) pgin pgout (mem mp).

Definition hash_chain (mp : MPOOL) (p : Z) : list Z := default [] (aget (hqh mp) (HASHKEY p)).

(** CIRCLEQ_REMOVE *)
Definition unlinked (a : Z) (l : list Z) : list Z := base.filter (fun b => b <> a) l.

(** CIRCLEQ_REMOVE from the hash chain of the page [p] and from the lru chain. *)
Definition unlink (mp : MPOOL) (a p : Z) : MPOOL :=
  set_queues mp (unlinked a (lqh mp)) (aput (hqh mp) (HASHKEY p) (unlinked a (hash_chain mp p))).

(** To the head of the hash chain and the tail of the lru chain. *)
Definition link (mp : MPOOL) (a p : Z) : MPOOL :=
  set_queues mp (lqh mp ++ [a]) (aput (hqh mp) (HASHKEY p) (a :: hash_chain mp p)).

Fixpoint look (m : gmap Z BKT) (p : Z) (l : list Z) : option (option Z) :=
  match l with
  | [] => Some None
  | a :: l => bp ← m !! a; if pgno bp =? p then Some (Some a) else look m p l
  end.

Definition mpool_look (mp : MPOOL) (p : Z) : option (option Z) := look (mem mp) p (hash_chain mp p).

(** The first bucket of the lru chain that is not pinned. *)
Fixpoint victim (m : gmap Z BKT) (l : list Z) : option (option Z) :=
  match l with
  | [] => Some None
  | a :: l => bp ← m !! a; if is_pinned bp then victim m l else Some (Some a)
  end.

Section Disk.
Context {D : Type} `{DiskOps D}.

Definition mpool_write (mp : MPOOL) (a : Z) (d : D) : option (Z * MPOOL * D) :=
  bp ← mem mp !! a;
  let bp := match pgout mp with Some f => set_page bp (f (pgno bp) (page bp)) | None => bp end in
  let mp := store mp a bp in
  let off := s32 (pagesize mp * pgno bp) in
  let '(r, d) := lseek off d in
  if negb (r =? off) then Some (RET_ERROR, mp, d)
  else
    let '(r, d) := write (page bp) d in
    if negb (r =? pagesize mp) then Some (RET_ERROR, mp, d)
    else Some (RET_SUCCESS, store mp a (set_flags bp (Z.ldiff (flags bp) MPOOL_DIRTY)), d).

(** The label new: *)
Definition new_bkt (mp : MPOOL) (d : D) (malloc : option (Z * BKT)) : option (option Z * MPOOL * D) :=
  match malloc with
  | None => Some (None, mp, d)
  | Some (a, bp) =>
    let mp := store mp a bp in
    Some (Some a, mk_mpool (lqh mp) (hqh mp) (u32 (curcache mp + 1)) (maxcache mp) (npages mp) (pagesize mp)
                    (pgin mp) (pgout mp) (mem mp), d)
  end.

Definition mpool_bkt (mp : MPOOL) (d : D) (malloc : option (Z * BKT)) : option (option Z * MPOOL * D) :=
  if curcache mp <? maxcache mp then new_bkt mp d malloc
  else
    v ← victim (mem mp) (lqh mp);
    match v with
    | None => new_bkt mp d malloc
    | Some a =>
      bp ← mem mp !! a;
      '(r, mp, d) ← (if is_dirty bp then mpool_write mp a d else Some (RET_SUCCESS, mp, d));
      if r =? RET_ERROR then Some (None, mp, d)
      else Some (Some a, unlink mp a (pgno bp), d)
    end.

(** The page and its number. *)
Definition mpool_new (mp : MPOOL) (d : D) (malloc : option (Z * BKT)) : option (option (Z * Z) * MPOOL * D) :=
  if npages mp =? MAX_PAGE_NUMBER then None
  else
    '(r, mp, d) ← mpool_bkt mp d malloc;
    match r with
    | None => Some (None, mp, d)
    | Some a =>
      bp ← mem mp !! a;
      let p := npages mp in
      let mp := store mp a (mk_bkt (page bp) p MPOOL_PINNED) in
      let mp := mk_mpool (lqh mp) (hqh mp) (curcache mp) (maxcache mp) (u32 (p + 1)) (pagesize mp) (pgin mp) (pgout mp) (mem mp) in
      Some (Some (a, p), link mp a p, d)
    end.

(** The page, or NULL with errno where mpool_get sets it. *)
Definition mpool_get (mp : MPOOL) (p : Z) (d : D) (malloc : option (Z * BKT)) : option ((Z + option Z) * MPOOL * D) :=
  if npages mp <=? p then Some (inr (Some EINVAL), mp, d)
  else
    r ← mpool_look mp p;
    match r with
    | Some a =>
      bp ← mem mp !! a;
      let mp := link (unlink mp a (pgno bp)) a (pgno bp) in
      Some (inl a, store mp a (set_flags bp (Z.lor (flags bp) MPOOL_PINNED)), d)
    | None =>
      '(r, mp, d) ← mpool_bkt mp d malloc;
      match r with
      | None => Some (inr None, mp, d)
      | Some a =>
        let off := s32 (pagesize mp * p) in
        let '(r, d) := lseek off d in
        if negb (r =? off) then Some (inr None, mp, d)
        else
          let '(nr, bs, d) := read (pagesize mp) d in
          bp ← mem mp !! a;
          let bp := set_page bp (bs ++ drop (length bs) (page bp)) in
          if negb (nr =? pagesize mp) then
            Some (inr (if 0 <=? nr then Some EFTYPE else None), store mp a bp, d)
          else
            let bp := mk_bkt (page bp) p MPOOL_PINNED in
            let mp := link (store mp a bp) a p in
            let bp := match pgin mp with Some f => set_page bp (f p (page bp)) | None => bp end in
            Some (inl a, store mp a bp, d)
      end
    end.

Definition mpool_put (mp : MPOOL) (a : Z) (fl : Z) : option (Z * MPOOL) :=
  bp ← mem mp !! a;
  let f := Z.lor (Z.ldiff (flags bp) MPOOL_PINNED) (Z.land fl MPOOL_DIRTY) in
  Some (RET_SUCCESS, store mp a (set_flags bp f)).

(** The memory after all buckets of the lru chain are freed. *)
Definition mpool_close (mp : MPOOL) : Z * gmap Z BKT := (RET_SUCCESS, foldl (fun m a => delete a m) (mem mp) (lqh mp)).

Fixpoint sync_walk (l : list Z) (mp : MPOOL) (d : D) : option (Z * MPOOL * D) :=
  match l with
  | [] => let '(r, d) := fsync d in Some (if r =? 0 then RET_SUCCESS else RET_ERROR, mp, d)
  | a :: l =>
    bp ← mem mp !! a;
    if is_dirty bp then
      '(r, mp, d) ← mpool_write mp a d;
      if r =? RET_ERROR then Some (RET_ERROR, mp, d) else sync_walk l mp d
    else sync_walk l mp d
  end.

Definition mpool_sync (mp : MPOOL) (d : D) : option (Z * MPOOL * D) := sync_walk (lqh mp) mp d.
End Disk.

End Mpool.

Import Mpool.

(** ** The file *)

(** [content d o n] is the [n] bytes at the offset [o], if the file has them. *)
Class DiskLaws (D : Type) `{DiskOps D} := {
  content : D -> Z -> Z -> option page_bytes;
  fpos : D -> Z;
  lseek_content off d r d' : 0 <= off -> lseek off d = (r, d') ->
    (forall o n, content d' o n = content d o n) /\ (r = off -> fpos d' = off);
  read_content k d r bs d' : 0 <= fpos d -> 0 < k -> read k d = (r, bs, d') ->
    (forall o n, content d' o n = content d o n) /\ Z.of_nat (length bs) <= k /\
    (r = k -> content d (fpos d) k = Some bs /\ Z.of_nat (length bs) = k);
  write_content bs d r d' : 0 <= fpos d -> 0 < Z.of_nat (length bs) -> write bs d = (r, d') ->
    (forall o n c, 0 <= o -> 0 < n -> o + n <= fpos d \/ fpos d + Z.of_nat (length bs) <= o ->
      content d o n = Some c -> content d' o n = Some c) /\
    (r = Z.of_nat (length bs) -> content d' (fpos d) r = Some bs);
  fsync_content d r d' : fsync d = (r, d') -> forall o n, content d' o n = content d o n
}.

(** ** The queues *)

Lemma hash_range p : 0 <= HASHKEY p < HASHSIZE.
Proof. unfold HASHKEY, HASHSIZE. apply Z.mod_pos_bound. lia. Qed.

Lemma elem_of_unlinked a b l : b ∈ unlinked a l <-> b <> a /\ b ∈ l.
Proof. unfold unlinked. by rewrite list_elem_of_filter. Qed.

(** What a bucket of the pool satisfies besides being in its queues. *)
Definition good_bkt (mp : MPOOL) (bp : BKT) : Prop :=
  0 <= pgno bp < npages mp /\ Z.of_nat (length (page bp)) = pagesize mp.

Record wf (mp : MPOOL) : Prop := {
  wf_hash : Z.of_nat (length (hqh mp)) = HASHSIZE;
  wf_lqh a : a ∈ lqh mp -> exists bp, mem mp !! a = Some bp /\ a ∈ hash_chain mp (pgno bp) /\ good_bkt mp bp;
  wf_chain a p : a ∈ hash_chain mp p -> a ∈ lqh mp /\ exists bp, mem mp !! a = Some bp /\ HASHKEY (pgno bp) = HASHKEY p;
  wf_uniq a b x y : a ∈ lqh mp -> b ∈ lqh mp -> mem mp !! a = Some x -> mem mp !! b = Some y -> pgno x = pgno y -> a = b;
  wf_once : NoDup (lqh mp) /\ forall p, NoDup (hash_chain mp p);
  wf_size : 0 < pagesize mp /\ 0 <= npages mp <= MAX_PAGE_NUMBER /\ pagesize mp * npages mp <= 2 ^ 31
}.

Lemma chain_put mp l k c p : Z.of_nat (length (hqh mp)) = HASHSIZE -> 0 <= k < HASHSIZE ->
  hash_chain (set_queues mp l (aput (hqh mp) k c)) p = if HASHKEY p =? k then c else hash_chain mp p.
Proof.
  intros Hl Hk. unfold hash_chain. cbn. destruct (Z.eqb_spec (HASHKEY p) k) as [E|E].
  - rewrite E. destruct (aget_is_Some (hqh mp) k) as [x Hx]; [lia|]. by rewrite (aget_aput_eq _ _ _ x).
  - by rewrite aget_aput_ne by lia.
Qed.

Lemma unlink_wf mp a bp : wf mp -> a ∈ lqh mp -> mem mp !! a = Some bp -> wf (unlink mp a (pgno bp)).
Proof.
  intros [Hh Hl Hc Hu [Ho1 Ho2] Hs] Ha Ea. pose proof (hash_range (pgno bp)) as Hk.
  assert (forall p, hash_chain (unlink mp a (pgno bp)) p =
    if HASHKEY p =? HASHKEY (pgno bp) then unlinked a (hash_chain mp (pgno bp)) else hash_chain mp p) as Hch
    by (intros p; by apply chain_put).
  split; [cbn; by rewrite aput_length| | |cbn|split; [cbn; by apply NoDup_filter|]|done]; cbn [unlink lqh set_queues mem].
  - intros b [Hba Hb]%elem_of_unlinked. destruct (Hl b Hb) as (y & Ey & Hy & Hg). exists y. split_and!; try done.
    rewrite Hch. destruct (Z.eqb_spec (HASHKEY (pgno y)) (HASHKEY (pgno bp))) as [E|]; [|done].
    apply elem_of_unlinked. split; [done|]. unfold hash_chain in *. by rewrite <- E.
  - intros b p Hb. rewrite Hch in Hb. destruct (Z.eqb_spec (HASHKEY p) (HASHKEY (pgno bp))) as [E|E].
    + apply elem_of_unlinked in Hb as [Hba Hb]. destruct (Hc b _ Hb) as (Hbl & y & Ey & Hy).
      split; [by apply elem_of_unlinked|]. exists y. split; [done|congruence].
    + destruct (Hc b p Hb) as (Hbl & y & Ey & Hy). split; [|by exists y]. apply elem_of_unlinked. split; [|done].
      intros ->. congruence.
  - intros b c x y [_ Hb]%elem_of_unlinked [_ Hc']%elem_of_unlinked. by apply Hu.
  - intros p. rewrite Hch. case_match; [by apply NoDup_filter|done].
Qed.

Lemma link_wf mp a bp : wf mp -> a ∉ lqh mp -> mem mp !! a = Some bp -> good_bkt mp bp ->
  (forall b y, b ∈ lqh mp -> mem mp !! b = Some y -> pgno y <> pgno bp) -> wf (link mp a (pgno bp)).
Proof.
  intros [Hh Hl Hc Hu [Ho1 Ho2] Hs] Ha Ea Hg Hn. pose proof (hash_range (pgno bp)) as Hk.
  assert (forall p, hash_chain (link mp a (pgno bp)) p =
    if HASHKEY p =? HASHKEY (pgno bp) then a :: hash_chain mp (pgno bp) else hash_chain mp p) as Hch
    by (intros p; by apply chain_put).
  assert (forall p, HASHKEY p = HASHKEY (pgno bp) -> hash_chain mp p = hash_chain mp (pgno bp)) as Hsame
    by (intros p E; unfold hash_chain; by rewrite E).
  assert (forall b, b ∈ lqh (link mp a (pgno bp)) <-> b ∈ lqh mp \/ b = a) as Hin
    by (intros b; cbn; rewrite elem_of_app, list_elem_of_singleton; done).
  split; [cbn; by rewrite aput_length| | | |split|done].
  - intros b [Hb| ->]%Hin; cbn [mem link set_queues].
    + destruct (Hl b Hb) as (y & Ey & Hy & Hgy). exists y. split_and!; try done. rewrite Hch.
      destruct (Z.eqb_spec (HASHKEY (pgno y)) (HASHKEY (pgno bp))) as [E|]; [|done]. rewrite <- (Hsame _ E). by constructor.
    + exists bp. split_and!; try done. rewrite Hch, Z.eqb_refl. constructor.
  - intros b p Hb. rewrite Hch in Hb. rewrite Hin. cbn [mem link set_queues].
    destruct (Z.eqb_spec (HASHKEY p) (HASHKEY (pgno bp))) as [E|E].
    + apply elem_of_cons in Hb as [->|Hb]; [split; [by right|by exists bp]|].
      destruct (Hc b _ Hb) as (Hbl & y & Ey & Hy). split; [by left|]. exists y. split; [done|congruence].
    + destruct (Hc b p Hb) as (Hbl & y & Ey & Hy). split; [by left|by exists y].
  - intros b c x y Hb Hc' Ex Ey E. cbn [mem link set_queues] in *. apply Hin in Hb, Hc'. destruct Hb as [Hb| ->], Hc' as [Hc'| ->]; try done.
    + by apply (Hu b c x y).
    + exfalso. apply (Hn b x); [done|done|congruence].
    + exfalso. apply (Hn c y); [done|done|congruence].
  - cbn. apply NoDup_app. split_and!; [done| |apply NoDup_singleton]. intros b Hb ->%list_elem_of_singleton. done.
  - intros p. rewrite Hch. case_match; [|done]. constructor; [|done]. intros Hin'. by apply Hc in Hin' as [? _].
Qed.

(** A bucket of the queues changes, but not its page number. *)
Lemma store_wf mp a bp bp' : wf mp -> mem mp !! a = Some bp -> pgno bp' = pgno bp -> length (page bp') = length (page bp) ->
  wf (store mp a bp').
Proof.
  intros [Hh Hl Hc Hu Ho Hs] Ea Ep Elen.
  assert (forall b y, <[a := bp']> (mem mp) !! b = Some y -> exists y', mem mp !! b = Some y' /\ pgno y = pgno y' /\ length (page y) = length (page y')) as Hold.
  { intros b y Hy. destruct (Z.eq_dec b a) as [->|].
    - rewrite lookup_insert_eq in Hy. injection Hy as <-. by exists bp.
    - rewrite lookup_insert_ne in Hy by done. by exists y. }
  assert (forall b y, mem mp !! b = Some y -> exists y', <[a := bp']> (mem mp) !! b = Some y' /\ pgno y' = pgno y /\ length (page y') = length (page y)) as Hnew.
  { intros b y Hy. destruct (Z.eq_dec b a) as [->|].
    - rewrite lookup_insert_eq. exists bp'. rewrite Ea in Hy. by injection Hy as <-.
    - rewrite lookup_insert_ne by done. by exists y. }
  split; try done; cbn [store lqh mem].
  - intros b Hb. destruct (Hl b Hb) as (y & Ey & Hy & Hg). destruct (Hnew b y Ey) as (y' & Ey' & Ep' & El').
    exists y'. split_and!; [done|by rewrite Ep'|]. unfold good_bkt in *. by rewrite Ep', El'.
  - intros b p Hb. destruct (Hc b p Hb) as (Hbl & y & Ey & Hy). split; [done|].
    destruct (Hnew b y Ey) as (y' & Ey' & Ep' & _). exists y'. by rewrite Ep'.
  - intros b c x y Hb Hc' Hx Hy E. destruct (Hold b x Hx) as (x' & Ex' & Epx & _). destruct (Hold c y Hy) as (y' & Ey' & Epy & _).
    apply (Hu b c x' y'); congruence.
Qed.

(** A bucket outside the queues changes. *)
Lemma store_out_wf mp a bp : wf mp -> a ∉ lqh mp -> wf (store mp a bp).
Proof.
  intros [Hh Hl Hc Hu Ho Hs] Ha.
  assert (forall b, b ∈ lqh mp -> <[a := bp]> (mem mp) !! b = mem mp !! b) as Hsame
    by (intros b Hb; apply lookup_insert_ne; by intros ->).
  split; try done; cbn [store lqh mem].
  - intros b Hb. rewrite Hsame by done. by apply Hl.
  - intros b p Hb. destruct (Hc b p Hb) as (Hbl & H). split; [done|]. by rewrite Hsame.
  - intros b c x y Hb Hc'. rewrite !Hsame by done. by apply Hu.
Qed.

Lemma pool_look_spec m p l : (forall a, a ∈ l -> is_Some (m !! a)) ->
  exists r, look m p l = Some r /\
    match r with
    | Some a => a ∈ l /\ exists bp, m !! a = Some bp /\ pgno bp = p
    | None => forall a bp, a ∈ l -> m !! a = Some bp -> pgno bp <> p
    end.
Proof.
  induction l as [|a l IH]; intros Hl; cbn [look]; [exists None; split; [done|]; intros a bp H; by apply elem_of_nil in H|].
  destruct (Hl a) as [bp E]; [constructor|]. rewrite E. cbn [mbind option_bind].
  destruct (Z.eqb_spec (pgno bp) p) as [Ep|Ep]; [exists (Some a); split; [done|]; split; [constructor|by exists bp]|].
  destruct IH as (r & -> & Hr); [intros b Hb; apply Hl; by constructor|]. exists r. split; [done|]. destruct r as [b|].
  - destruct Hr as [Hb H]. split; [by constructor|done].
  - intros b y [-> |Hb]%elem_of_cons Ey; [congruence|by apply (Hr b)].
Qed.

Lemma mpool_look_spec mp p : wf mp ->
  exists r, mpool_look mp p = Some r /\
    match r with
    | Some a => a ∈ lqh mp /\ exists bp, mem mp !! a = Some bp /\ pgno bp = p
    | None => forall a bp, a ∈ lqh mp -> mem mp !! a = Some bp -> pgno bp <> p
    end.
Proof.
  intros Hw. destruct (pool_look_spec (mem mp) p (hash_chain mp p)) as (r & E & Hr).
  - intros a Ha. destruct (wf_chain mp Hw a p Ha) as (_ & bp & Eb & _). by exists bp.
  - exists r. split; [done|]. destruct r as [a|].
    + destruct Hr as [Ha H]. split; [|done]. by apply (wf_chain mp Hw a p).
    + intros a bp Ha Ea Ep. destruct (wf_lqh mp Hw a Ha) as (y & Ey & Hy & _). replace y with bp in * by congruence.
      apply (Hr a bp); [by rewrite <- Ep|done|done].
Qed.

Lemma victim_spec m l : (forall a, a ∈ l -> is_Some (m !! a)) ->
  exists r, victim m l = Some r /\
    match r with Some a => a ∈ l /\ exists bp, m !! a = Some bp /\ is_pinned bp = false | None => True end.
Proof.
  induction l as [|a l IH]; intros Hl; cbn [victim]; [by exists None|].
  destruct (Hl a) as [bp E]; [constructor|]. rewrite E. cbn [mbind option_bind].
  destruct (is_pinned bp) eqn:Ep; [|exists (Some a); split; [done|]; split; [constructor|by exists bp]].
  destruct IH as (r & -> & Hr); [intros b Hb; apply Hl; by constructor|]. exists r. split; [done|].
  destruct r as [b|]; [|done]. destruct Hr as [Hb H]. split; [by constructor|done].
Qed.

(** ** The contents of a pool *)

Section Pool.
Context {D : Type} `{DiskLaws D}.
Implicit Types (mp : MPOOL) (d : D).

Definition out mp (p : Z) (c : page_bytes) : page_bytes := match pgout mp with Some f => f p c | None => c end.
Definition inn mp (p : Z) (c : page_bytes) : page_bytes := match pgin mp with Some f => f p c | None => c end.

Definition filters_invert mp : Prop :=
  forall p c, Z.of_nat (length c) = pagesize mp ->
    Z.of_nat (length (out mp p c)) = pagesize mp /\ Z.of_nat (length (inn mp p c)) = pagesize mp /\ inn mp p (out mp p c) = c.

Definition raw mp d (p : Z) : option page_bytes := content d (pagesize mp * p) (pagesize mp).

(** The page [p] of the file, through the filter. *)
Definition on_disk mp d (p : Z) (c : page_bytes) : Prop := inn mp p <$> raw mp d p = Some c.

Definition in_pool mp (a p : Z) (bp : BKT) : Prop := a ∈ lqh mp /\ mem mp !! a = Some bp /\ pgno bp = p.

(** What a user of the pool sees as the page [p]. *)
Definition view mp d (p : Z) (c : page_bytes) : Prop :=
  (exists a bp, in_pool mp a p bp /\ page bp = c) \/ ((forall a bp, ~ in_pool mp a p bp) /\ on_disk mp d p c).

(** A page that need not be written is in the file. *)
Record pool mp d : Prop := {
  pool_wf : wf mp;
  pool_clean a p bp : in_pool mp a p bp -> is_dirty bp = false -> is_pinned bp = false -> on_disk mp d p (page bp);
  pool_filters : filters_invert mp
}.

(** What every operation keeps: the parameters, the pages and the buckets in use. *)
Record keeps mp d mp' d' : Prop := {
  keeps_size : pagesize mp' = pagesize mp;
  keeps_npages : npages mp <= npages mp';
  keeps_in : pgin mp' = pgin mp;
  keeps_out : pgout mp' = pgout mp;
  keeps_view p c : 0 <= p < npages mp -> view mp d p c -> view mp' d' p c;
  keeps_pins a p bp : in_pool mp a p bp -> is_pinned bp = true ->
    exists bp', in_pool mp' a p bp' /\ page bp' = page bp /\ is_pinned bp' = true
}.

Lemma pool_keeps_refl mp d : keeps mp d mp d.
Proof. split; try done; eauto. Qed.

Lemma pool_keeps_trans mp d mp1 d1 mp2 d2 : keeps mp d mp1 d1 -> keeps mp1 d1 mp2 d2 -> keeps mp d mp2 d2.
Proof.
  intros [E1 N1 I1 O1 V1 P1] [E2 N2 I2 O2 V2 P2]. split; [congruence|lia|congruence|congruence| |].
  - intros p c Hp Hv. apply V2; [lia|by apply V1].
  - intros a p bp Hin Hpin. destruct (P1 a p bp Hin Hpin) as (bp1 & Hin1 & E & Hpin1).
    destruct (P2 a p bp1 Hin1 Hpin1) as (bp2 & Hin2 & E' & Hpin2). exists bp2. split_and!; try done. congruence.
Qed.

Lemma pool_off mp p : wf mp -> 0 <= p < npages mp -> s32 (pagesize mp * p) = pagesize mp * p /\ 0 <= pagesize mp * p.
Proof.
  intros Hw Hp. pose proof (wf_size mp Hw) as (H1 & H2 & H3).
  assert (0 <= pagesize mp * p < 2 ^ 31) by nia. split; [apply s32_id; unfold is_s32; lia|lia].
Qed.

(** The pages but [p] stay in the file. *)
Definition others_stay mp d d' (p : Z) : Prop :=
  forall q c, 0 <= q -> q <> p -> raw mp d q = Some c -> raw mp d' q = Some c.

Lemma others_all mp d d' p : (forall o n, content d' o n = content d o n) -> others_stay mp d d' p.
Proof. intros E q c _ _ Hq. unfold raw in *. by rewrite E. Qed.

Lemma on_disk_stays mp d d' p q c : others_stay mp d d' p -> 0 <= q -> q <> p -> on_disk mp d q c -> on_disk mp d' q c.
Proof.
  unfold on_disk. intros Ho Hq Hne Hd. destruct (raw mp d q) as [r|] eqn:E; [|done]. by rewrite (Ho q r).
Qed.

Lemma mpool_write_spec mp d a p bp : pool mp d -> in_pool mp a p bp ->
  exists r mp' d', mpool_write mp a d = Some (r, mp', d') /\ others_stay mp d d' p /\
    ((r = RET_SUCCESS /\ mp' = store mp a (mk_bkt (out mp p (page bp)) p (Z.ldiff (flags bp) MPOOL_DIRTY)) /\
      raw mp d' p = Some (out mp p (page bp))) \/
     (r = RET_ERROR /\ mp' = store mp a (set_page bp (out mp p (page bp))))).
Proof.
  intros [Hw Hc Hf] (Ha & Ea & Ep). destruct (wf_lqh mp Hw a Ha) as (y & Ey & _ & Hp & Hlen).
  replace y with bp in * by congruence. clear y Ey. rewrite Ep in *. destruct (pool_off mp p Hw Hp) as [Eoff Hoff].
  pose proof (wf_size mp Hw) as (Hps & _ & _). destruct (Hf p (page bp) Hlen) as (Hol & _ & _).
  unfold mpool_write. rewrite Ea. cbn [mbind option_bind].
  assert (match pgout mp with Some f => set_page bp (f (pgno bp) (page bp)) | None => bp end = set_page bp (out mp p (page bp))) as ->.
  { unfold out. rewrite Ep. destruct (pgout mp); [done|]. by destruct bp. }
  cbn [pagesize store pgno set_page page flags]. rewrite Ep, Eoff.
  destruct (lseek (pagesize mp * p) d) as [r1 d1] eqn:E1. apply lseek_content in E1 as [C1 F1]; [|done].
  destruct (Z.eqb_spec r1 (pagesize mp * p)) as [Er1|Er1]; cbn [negb].
  - destruct (write (out mp p (page bp)) d1) as [r2 d2] eqn:E2. apply write_content in E2 as [C2 S2]; [|rewrite F1 by done; lia|lia].
    rewrite F1, Hol in C2 by done. rewrite F1, Hol in S2 by done.
    assert (others_stay mp d d2 p) as Hoth.
    { intros q c Hq Hne Hq'. unfold raw in *. apply C2; [nia|lia| |by rewrite C1]. nia. }
    destruct (Z.eqb_spec r2 (pagesize mp)) as [Er2|Er2]; cbn [negb]; do 3 eexists; (split; [done|]); (split; [done|]).
    + left. split; [done|]. split; [|unfold raw; rewrite <- Er2 at 2; by apply S2].
      unfold store, set_flags. cbn. rewrite insert_insert_eq. rewrite Ep. by destruct bp.
    + by right.
  - do 3 eexists. split; [done|]. split; [|by right]. by apply others_all.
Qed.

(** The file changes at the page of a bucket that is dirty. *)
Lemma disk_changes mp d d' a p bp : pool mp d -> in_pool mp a p bp -> is_dirty bp = true -> others_stay mp d d' p ->
  pool mp d' /\ keeps mp d mp d'.
Proof.
  intros [Hw Hc Hf] Hin Hd Ho. assert (forall b q y, in_pool mp b q y -> 0 <= q) as Hpos.
  { intros b q y (Hb & Eb & <-). destruct (wf_lqh mp Hw b Hb) as (z & Ez & _ & Hr & _). replace z with y in * by congruence. lia. }
  split; split; try done.
  - intros b q y Hy Hd' Hp'. eapply on_disk_stays; [done|by eapply Hpos| |by eapply Hc]. intros ->.
    destruct Hy as (Hb & Eb & Eq), Hin as (Ha & Ea & Ep). assert (a = b) as -> by (apply (wf_uniq mp Hw a b bp y); congruence). congruence.
  - intros q c Hq [Hv|[Hn Hv]]; [by left|right]. split; [done|]. eapply on_disk_stays; [done|lia| |done].
    intros ->. by apply (Hn a bp).
  - eauto.
Qed.

Lemma in_pool_range mp a p bp : wf mp -> in_pool mp a p bp -> 0 <= p < npages mp /\ Z.of_nat (length (page bp)) = pagesize mp.
Proof.
  intros Hw (Ha & Ea & <-). destruct (wf_lqh mp Hw a Ha) as (y & Ey & _ & Hg). replace y with bp in * by congruence. done.
Qed.

Lemma in_pool_uniq mp a b p x y : wf mp -> in_pool mp a p x -> in_pool mp b p y -> a = b /\ x = y.
Proof.
  intros Hw (Ha & Ea & Ep) (Hb & Eb & Eq). assert (a = b) as -> by (apply (wf_uniq mp Hw a b x y); congruence).
  split; congruence.
Qed.

Lemma in_pool_unlink mp a p bp b q y : wf mp -> in_pool mp a p bp ->
  in_pool (unlink mp a p) b q y <-> in_pool mp b q y /\ q <> p.
Proof.
  intros Hw Hin. unfold in_pool at 1. cbn [unlink set_queues lqh mem]. rewrite elem_of_unlinked. split.
  - intros ([Hne Hb] & Eb & Eq). split; [by split_and!|]. intros ->. destruct (in_pool_uniq mp a b p bp y) as [-> _]; try done.
  - intros [(Hb & Eb & Eq) Hne]. split_and!; try done. intros ->. destruct Hin as (_ & Ea & Ep). congruence.
Qed.

(** A bucket without a page of the pool. *)
Record spare mp (a : Z) : Prop := {
  spare_out : a ∉ lqh mp;
  spare_page : exists bp, mem mp !! a = Some bp /\ Z.of_nat (length (page bp)) = pagesize mp
}.

(** Its page is in the file: the bucket [a] leaves the queues. *)
Lemma evict mp d a p bp : pool mp d -> in_pool mp a p bp -> is_pinned bp = false -> on_disk mp d p (page bp) ->
  pool (unlink mp a p) d /\ keeps mp d (unlink mp a p) d /\ spare (unlink mp a p) a.
Proof.
  intros [Hw Hc Hf] Hin Hnp Hd. destruct (in_pool_range mp a p bp Hw Hin) as [Hr Hlen].
  assert (wf (unlink mp a p)) as Hw' by (destruct Hin as (Ha & Ea & <-); by apply unlink_wf).
  pose proof (in_pool_unlink mp a p bp) as Hiff. split_and!; split; try done.
  - intros b q y [Hy Hne]%Hiff Hd' Hp'; try done. by apply (Hc b q y).
  - intros q c Hq [(b & y & Hy & Ey)|[Hn Hv]].
    + destruct (Z.eq_dec q p) as [->|Hne].
      * right. destruct (in_pool_uniq mp a b p bp y Hw Hin Hy) as [-> ->]. split; [|by subst].
        intros b' y' [_ Hne]%Hiff; done.
      * left. exists b, y. split; [by apply Hiff|done].
    + right. split; [|done]. intros b y [Hy _]%Hiff; [|done|done]. by apply (Hn b y).
  - intros b q y Hy Hp'. exists y. split_and!; try done. apply Hiff; [done|done|]. split; [done|]. intros ->.
    destruct (in_pool_uniq mp a b p bp y Hw Hin Hy) as [-> ->]. congruence.
  - cbn. by intros [? _]%elem_of_unlinked.
  - exists bp. cbn. by destruct Hin as (_ & Ea & _).
Qed.

Lemma in_pool_store_out mp a bp b q y : a ∉ lqh mp -> in_pool (store mp a bp) b q y <-> in_pool mp b q y.
Proof.
  intros Ha. unfold in_pool. cbn. split; intros (Hb & Eb & Eq);
    (rewrite lookup_insert_ne in * by (by intros ->)); done.
Qed.

(** A bucket outside the queues changes. *)
Lemma store_out mp d a bp : pool mp d -> a ∉ lqh mp -> pool (store mp a bp) d /\ keeps mp d (store mp a bp) d.
Proof.
  intros [Hw Hc Hf] Ha. pose proof (fun b q y => in_pool_store_out mp a bp b q y Ha) as Hiff.
  split; split; try done; [by apply store_out_wf| | |].
  - intros b q y Hy%Hiff. by apply (Hc b q y).
  - intros q c Hq [(b & y & Hy & Ey)|[Hn Hv]]; [left; exists b, y; by rewrite Hiff|right; split; [|done]].
    intros b y Hy%Hiff. by apply (Hn b y).
  - intros b q y Hy Hp'. exists y. by rewrite Hiff.
Qed.

(** ** The operations *)

(** What malloc promises. *)
Definition malloc_ok mp (malloc : option (Z * BKT)) : Prop :=
  match malloc with Some (a, bp) => a ∉ lqh mp /\ Z.of_nat (length (page bp)) = pagesize mp | None => True end.

Lemma store_same mp a bp : mem mp !! a = Some bp -> store mp a bp = mp.
Proof. intros E. unfold store. rewrite insert_id by done. by destruct mp. Qed.

Lemma set_page_same bp : set_page bp (page bp) = bp.
Proof. by destruct bp. Qed.

Lemma spare_store mp a bp : a ∉ lqh mp -> Z.of_nat (length (page bp)) = pagesize mp -> spare (store mp a bp) a.
Proof. intros Ha Hl. split; [done|]. exists bp. cbn. by rewrite lookup_insert_eq. Qed.

(** No page comes into the pool. *)
Definition no_new mp mp' : Prop := forall b q y, in_pool mp' b q y -> exists y', in_pool mp b q y'.

Lemma new_bkt_spec mp d malloc : pool mp d -> malloc_ok mp malloc ->
  exists r mp', new_bkt mp d malloc = Some (r, mp', d) /\ pool mp' d /\ keeps mp d mp' d /\ npages mp' = npages mp /\
    match r with Some a => spare mp' a /\ no_new mp mp' | None => True end.
Proof.
  intros Hp Hm. unfold new_bkt. destruct malloc as [[a bp]|]; [|do 2 eexists; split_and!; [done|done|apply pool_keeps_refl|done|done]].
  destruct Hm as [Ha Hl]. destruct (store_out mp d a bp Hp Ha) as [Hp1 Hk1]. do 2 eexists. split_and!; [done| | |done|].
  - destruct Hp1 as [[H1 H2 H3 H4 H5 H6] Hc Hf]. split; [by split|done|done].
  - destruct Hk1. by split.
  - destruct (spare_store mp a bp Ha Hl) as [S1 S2]. split; [by split|]. intros b q y Hy. exists y.
    by apply (in_pool_store_out mp a bp).
Qed.

Lemma mpool_bkt_spec mp d malloc : pool mp d -> malloc_ok mp malloc ->
  exists r mp' d', mpool_bkt mp d malloc = Some (r, mp', d') /\ npages mp' = npages mp /\
    match r with
    | Some a => pool mp' d' /\ keeps mp d mp' d' /\ spare mp' a /\ no_new mp mp'
    | None => pgout mp = None -> pool mp' d' /\ keeps mp d mp' d'
    end.
Proof.
  intros Hp Hm. unfold mpool_bkt.
  destruct (new_bkt_spec mp d malloc Hp Hm) as (rn & mpn & Enew & Hpn & Hkn & Hnn & Hsn).
  assert (exists r mp' d', new_bkt mp d malloc = Some (r, mp', d') /\ npages mp' = npages mp /\
    match r with
    | Some a => pool mp' d' /\ keeps mp d mp' d' /\ spare mp' a /\ no_new mp mp'
    | None => pgout mp = None -> pool mp' d' /\ keeps mp d mp' d'
    end) as New by (exists rn, mpn, d; split; [done|]; split; [done|]; by destruct rn).
  destruct (curcache mp <? maxcache mp); [exact New|].
  destruct (victim_spec (mem mp) (lqh mp)) as (v & -> & Hv).
  { intros a Ha. destruct (wf_lqh mp (pool_wf _ _ Hp) a Ha) as (bp & E & _). by exists bp. }
  cbn [mbind option_bind]. destruct v as [a|]; [|exact New]. destruct Hv as [Ha (bp & Ea & Hnp)]. rewrite Ea. cbn [mbind option_bind].
  assert (in_pool mp a (pgno bp) bp) as Hin by done. clear New.
  destruct (is_dirty bp) eqn:Hd; cbn [mbind option_bind].
  - destruct (mpool_write_spec mp d a _ bp Hp Hin) as (r & mp1 & d1 & -> & Ho & Hr). cbn [mbind option_bind].
    destruct (disk_changes mp d d1 a _ bp Hp Hin Hd Ho) as [Hp1 Hk1].
    destruct (in_pool_range mp a _ bp (pool_wf _ _ Hp) Hin) as [Hrange Hlen].
    destruct (pool_filters _ _ Hp (pgno bp) (page bp) Hlen) as (Hol & _ & Hio).
    destruct Hr as [(-> & -> & Hraw)|(-> & ->)]; cbn; do 3 eexists; (split; [done|]); (split; [done|]).
    + destruct (evict mp d1 a _ bp Hp1 Hin Hnp) as (Hp2 & Hk2 & Hs2); [unfold on_disk; rewrite Hraw; cbn; by rewrite Hio|].
      set (bp1 := mk_bkt _ _ _). destruct (store_out (unlink mp a (pgno bp)) d1 a bp1 Hp2 (spare_out _ _ Hs2)) as [Hp3 Hk3].
      split; [exact Hp3|]. split; [exact (pool_keeps_trans _ _ _ _ _ _ Hk1 (pool_keeps_trans _ _ _ _ _ _ Hk2 Hk3))|].
      split; [apply (spare_store (unlink mp a (pgno bp))); [apply Hs2|done]|].
      intros b q y Hy. exists y. apply (in_pool_store_out (unlink mp a (pgno bp)) a bp1) in Hy; [|apply Hs2].
      by apply (in_pool_unlink mp a _ bp) in Hy as [? _]; [|apply Hp|].
    + intros Hno. unfold out. rewrite Hno, set_page_same, store_same by done. done.
  - destruct (evict mp d a _ bp Hp Hin Hnp) as (Hp2 & Hk2 & Hs2); [by apply (pool_clean _ _ Hp a)|].
    do 3 eexists. split; [done|]. split_and!; try done. intros b q y Hy. exists y.
    by apply (in_pool_unlink mp a _ bp) in Hy as [? _]; [|apply Hp|].
Qed.

(** A page comes into the pool, pinned. *)
Lemma enter mp d a p bp : pool mp d -> spare mp a -> 0 <= p < npages mp -> (forall b y, ~ in_pool mp b p y) ->
  pgno bp = p -> Z.of_nat (length (page bp)) = pagesize mp -> is_pinned bp = true ->
  let mp' := store (link mp a p) a bp in
  pool mp' d /\ in_pool mp' a p bp /\ (forall b q y, in_pool mp b q y -> in_pool mp' b q y) /\
  (forall q c, (q = p -> c = page bp) -> view mp d q c -> view mp' d q c).
Proof.
  intros Hp [Ha _] Hr Hn Ep Hlen Hpin mp'.
  destruct (store_out mp d a bp Hp Ha) as [[Hw1 Hc1 Hf1] _].
  pose proof (fun b q y => in_pool_store_out mp a bp b q y Ha) as Hout.
  assert (wf mp') as Hw2.
  { unfold mp'. rewrite <- Ep. apply (link_wf (store mp a bp) a bp); try done.
    - cbn. by rewrite lookup_insert_eq.
    - by rewrite <- Ep in Hr.
    - intros b y Hb Eb E. apply (Hn b y), Hout. split_and!; try done. congruence. }
  assert (forall b q y, in_pool mp' b q y <-> in_pool mp b q y \/ (b = a /\ q = p /\ y = bp)) as Hiff.
  { intros b q y. rewrite <- Hout. unfold in_pool. cbn. rewrite elem_of_app, list_elem_of_singleton. split.
    - intros ([Hb| ->] & Eb & Eq); [left; done|right]. rewrite lookup_insert_eq in Eb. injection Eb as <-. split_and!; congruence.
    - intros [(Hb & Eb & Eq)|(-> & -> & ->)]; split_and!; auto. by rewrite lookup_insert_eq. }
  split_and!; [split; try done|apply Hiff; by right|intros b q y Hy; apply Hiff; by left|].
  - intros b q y [Hy|(_ & _ & ->)]%Hiff Hd' Hp'; [apply (Hc1 b q y); [by apply Hout|done..]|congruence].
  - intros q c Hc [(b & y & Hy & Ey)|[Hnone Hv]]; [left; exists b, y; split; [apply Hiff; by left|done]|].
    destruct (Z.eq_dec q p) as [->|Hqp].
    + left. exists a, bp. split; [apply Hiff; by right|]. symmetry. by apply Hc.
    + right. split; [|done]. intros b y [Hy|(_ & -> & _)]%Hiff; [by apply (Hnone b y)|done].
Qed.

Lemma pinned_flag f : is_pinned (mk_bkt [] 0 (Z.lor f MPOOL_PINNED)) = true.
Proof.
  unfold is_pinned. cbn. apply negb_true_iff, Z.eqb_neq. intros E.
  assert (Z.testbit (Z.land (Z.lor f MPOOL_PINNED) MPOOL_PINNED) 1 = true) as H'
    by (rewrite Z.land_spec, Z.lor_spec; apply andb_true_iff; split; [apply orb_true_r|done]).
  by rewrite E in H'.
Qed.

(** The same pages are in the pool, in another order or with another file of the same
    contents. *)
Lemma same_pages mp d mp' d' : pool mp d -> wf mp' -> (forall b q y, in_pool mp' b q y <-> in_pool mp b q y) ->
  pagesize mp' = pagesize mp -> npages mp' = npages mp -> pgin mp' = pgin mp -> pgout mp' = pgout mp ->
  (forall o n, content d' o n = content d o n) -> pool mp' d' /\ keeps mp d mp' d'.
Proof.
  intros [Hw Hc Hf] Hw' Hiff E1 E2 E3 E4 Ed.
  assert (forall q c, on_disk mp d q c <-> on_disk mp' d' q c) as Hd
    by (intros q c; unfold on_disk, raw, inn; by rewrite E1, E3, Ed).
  split; split; try done; try lia.
  - intros b q y Hy%Hiff H1 H2. apply Hd. by apply (Hc b q y).
  - intros q c Hl. unfold out, inn in *. rewrite E3, E4. rewrite E1 in *. by apply Hf.
  - intros q c Hq [(b & y & Hy & Ey)|[Hn Hv]]; [left; exists b, y; by rewrite Hiff|right; split; [|by apply Hd]].
    intros b y Hy%Hiff. by apply (Hn b y).
  - intros b q y Hy Hp'. exists y. by rewrite Hiff.
Qed.

(** A bucket of the pool gets other flags or another page. *)
Lemma retag mp d a p bp bp' : pool mp d -> in_pool mp a p bp -> pgno bp' = p -> length (page bp') = length (page bp) ->
  (is_dirty bp' = false -> is_pinned bp' = false -> on_disk mp d p (page bp')) ->
  let mp' := store mp a bp' in
  pool mp' d /\ in_pool mp' a p bp' /\ (forall b q y, b <> a -> in_pool mp b q y -> in_pool mp' b q y) /\
  (forall q c, (q = p -> c = page bp') -> view mp d q c -> view mp' d q c).
Proof.
  intros [Hw Hc Hf] Hin Ep El Hcl mp'.
  assert (forall b q y, in_pool mp' b q y <-> (b <> a /\ in_pool mp b q y) \/ (b = a /\ q = p /\ y = bp')) as Hiff.
  { intros b q y. unfold in_pool, mp'. cbn. destruct (Z.eq_dec b a) as [->|Hne].
    - rewrite lookup_insert_eq. split; [intros (Hb & [= <-] & Eq); right; split_and!; congruence|].
      intros [[? _]|(_ & -> & ->)]; [done|]. split_and!; [apply Hin|done|done].
    - rewrite lookup_insert_ne by done. split; [by left|]. intros [[_ ?]|(-> & _)]; done. }
  assert (wf mp') as Hw' by (destruct Hin as (Ha & Ea & Eq); by apply (store_wf mp a bp); [..|congruence|]).
  split_and!; [split; try done|apply Hiff; by right|intros b q y Hb Hy; apply Hiff; by left|].
  - intros b q y [[Hb Hy]|(-> & -> & ->)]%Hiff; [by apply (Hc b q y)|apply Hcl].
  - intros q c Heq Hv. destruct (Z.eq_dec q p) as [->|Hqp].
    + left. exists a, bp'. split; [apply Hiff; by right|]. symmetry. by apply Heq.
    + destruct Hv as [(b & y & Hy & Ey)|[Hn Hv]].
      * left. exists b, y. split; [|done]. apply Hiff. left. split; [|done]. intros ->.
        destruct Hin as (_ & Ea & Eq), Hy as (_ & Eb & Er). congruence.
      * right. split; [|done]. intros b y [[_ Hy]|(_ & -> & _)]%Hiff; [by apply (Hn b y)|done].
Qed.

Lemma view_page mp d a p bp c : wf mp -> in_pool mp a p bp -> view mp d p c -> c = page bp.
Proof.
  intros Hw Hin [(b & y & Hy & <-)|[Hn _]]; [|by destruct (Hn a bp)].
  by destruct (in_pool_uniq mp a b p bp y Hw Hin Hy) as [_ ->].
Qed.

Lemma relink mp d a p bp : pool mp d -> in_pool mp a p bp ->
  let mp' := link (unlink mp a p) a p in
  pool mp' d /\ keeps mp d mp' d /\ in_pool mp' a p bp.
Proof.
  intros Hp Hin mp'. pose proof (pool_wf _ _ Hp) as Hw. destruct (in_pool_range mp a p bp Hw Hin) as [Hr Hlen].
  pose proof (fun b q y => in_pool_unlink mp a p bp b q y Hw Hin) as Hun.
  assert (wf mp') as Hw'.
  { destruct Hin as (Ha & Ea & <-). apply (link_wf (unlink mp a (pgno bp)) a bp); try done.
    - by apply unlink_wf.
    - cbn. by intros [? _]%elem_of_unlinked.
    - intros b y Hb Eb E. destruct (Hun b (pgno bp) y) as [[_ ?] _]; [split_and!; congruence|done]. }
  assert (forall b q y, in_pool mp' b q y <-> in_pool mp b q y) as Hiff.
  { intros b q y. unfold in_pool, mp'. cbn. rewrite elem_of_app, list_elem_of_singleton, elem_of_unlinked.
    split; intros (Hb & Eb & Eq); (split; [|done]); destruct Hin as (Ha & _); [|destruct (decide (b = a)); tauto].
    by destruct Hb as [[_ ?]| ->]. }
  destruct (same_pages mp d mp' d Hp Hw' Hiff) as [Hp' Hk]; try done. split_and!; try done. by apply Hiff.
Qed.

(** A page of the pool goes to the end of the lru chain and is pinned. *)
Lemma pin_again mp d a p bp : pool mp d -> in_pool mp a p bp ->
  let bp' := set_flags bp (Z.lor (flags bp) MPOOL_PINNED) in
  let mp' := store (link (unlink mp a p) a p) a bp' in
  pool mp' d /\ keeps mp d mp' d /\ in_pool mp' a p bp' /\ is_pinned bp' = true.
Proof.
  intros Hp Hin bp' mp'. destruct (relink mp d a p bp Hp Hin) as (Hp1 & Hk1 & Hin1). pose proof Hin as (_ & _ & Ep).
  assert (is_pinned bp' = true) as Hpin by apply pinned_flag.
  destruct (retag _ d a p bp bp' Hp1 Hin1) as (Hp2 & Hin2 & Hoth & Hv); try done; [congruence|].
  split_and!; try done. eapply pool_keeps_trans; [exact Hk1|]. split; try done.
  - intros q c Hq Hvq. apply Hv; [|done]. intros ->. exact (view_page _ _ _ _ _ _ (pool_wf _ _ Hp1) Hin1 Hvq).
  - intros b q y Hy Hpy. destruct (Z.eq_dec b a) as [->|Hne]; [|exists y; split_and!; [by apply Hoth|done..]].
    exists bp'. destruct Hy as (_ & Ey & <-), Hin1 as (_ & Ea1 & Eq1). assert (y = bp) as -> by congruence. by rewrite Ep.
Qed.

Lemma mpool_get_spec mp d p malloc : pool mp d -> malloc_ok mp malloc -> 0 <= p ->
  exists r mp' d', mpool_get mp p d malloc = Some (r, mp', d') /\
    match r with
    | inl a => pool mp' d' /\ keeps mp d mp' d' /\ npages mp' = npages mp /\ p < npages mp /\
               exists bp, in_pool mp' a p bp /\ is_pinned bp = true
    | inr _ => pgout mp = None -> pool mp' d' /\ keeps mp d mp' d'
    end.
Proof.
  intros Hp Hm Hp0. pose proof (pool_wf _ _ Hp) as Hw. unfold mpool_get.
  destruct (Z.leb_spec (npages mp) p) as [Hbig|Hpn].
  { do 3 eexists. split; [done|]. intros _. split; [done|apply pool_keeps_refl]. }
  destruct (mpool_look_spec mp p Hw) as (r & -> & Hr). cbn [mbind option_bind]. destruct r as [a|].
  - destruct Hr as [Ha (bp & Ea & Ep)]. rewrite Ea. cbn [mbind option_bind]. do 3 eexists. split; [done|]. rewrite Ep.
    destruct (pin_again mp d a p bp Hp) as (Hp2 & Hk2 & Hin2 & Hpin); [done|]. split_and!; try done. by eexists.
  - destruct (mpool_bkt_spec mp d malloc Hp Hm) as (r & mp1 & d1 & -> & En & Hb). cbn [mbind option_bind].
    destruct r as [a|]; [|by do 3 eexists]. destruct Hb as (Hp1 & Hk1 & Hs1 & Hnew).
    pose proof (pool_wf _ _ Hp1) as Hw1. destruct (pool_off mp1 p Hw1) as [-> Hoff]; [lia|].
    pose proof (wf_size mp1 Hw1) as (Hps & _).
    destruct (lseek (pagesize mp1 * p) d1) as [r2 d2] eqn:E2. apply lseek_content in E2 as [C2 F2]; [|done].
    destruct (same_pages mp1 d1 mp1 d2) as [Hp2 Hk2]; try done.
    destruct (Z.eqb_spec r2 (pagesize mp1 * p)) as [Er2|]; cbn [negb];
      [|do 3 eexists; split; [done|]; intros _; split; [done|by eapply pool_keeps_trans]].
    specialize (F2 Er2). destruct (read (pagesize mp1) d2) as [[nr bs] d3] eqn:E3. apply read_content in E3 as (C3 & Hbl & Hfull); [|lia|done].
    destruct (same_pages mp1 d2 mp1 d3) as [Hp3 Hk3]; try done.
    destruct Hs1 as [Ha (bp & Ea & Hlen)]. rewrite Ea. cbn [mbind option_bind].
    destruct (Z.eqb_spec nr (pagesize mp1)) as [Enr|]; cbn [negb].
    + destruct (Hfull Enr) as [Hc Hbs]. rewrite drop_ge by lia. rewrite app_nil_r.
      match goal with |- context [store (link _ _ _) a ?b] => set (bpF := b) end.
      assert (page bpF = inn mp1 p bs /\ pgno bpF = p /\ is_pinned bpF = true) as (EpF & EnF & HpF)
        by (unfold bpF, inn; cbn; destruct (pgin mp1); split_and!; done).
      do 3 eexists. split; [done|].
      destruct (enter mp1 d3 a p bpF) as (Hp4 & Hin4 & Hoth & Hv); try done; [split; [done|by exists bp]|lia| | |].
      { intros b y Hy. destruct (Hnew b p y Hy) as (y' & Hb & Eb & Eq). by apply (Hr b y'). }
      { rewrite EpF. by apply (pool_filters _ _ Hp3). }
      change (page (set_page bp bs)) with bs.
      assert (store (link (store mp1 a (mk_bkt bs p MPOOL_PINNED)) a p) a bpF = store (link mp1 a p) a bpF) as ->
        by (unfold store, link, set_queues, hash_chain; cbn; by rewrite insert_insert_eq).
      split_and!; try done; [|by exists bpF].
      eapply pool_keeps_trans; [exact Hk1|]. eapply pool_keeps_trans; [exact Hk2|]. eapply pool_keeps_trans; [exact Hk3|]. split; try done.
      * intros q c Hq Hvq. apply Hv; [|done]. intros ->. destruct Hvq as [(b & y & Hy & _)|[_ Hd]].
        -- destruct (Hnew b p y Hy) as (y' & Hb & Eb & Eq). by destruct (Hr b y').
        -- unfold on_disk, raw in Hd. rewrite C3, <- F2, Hc in Hd. cbn in Hd. rewrite EpF. congruence.
      * intros b q y Hy Hpy. exists y. split_and!; try done. by apply Hoth.
    + do 3 eexists. split; [done|]. intros _. destruct (store_out mp1 d3 a (set_page bp (bs ++ drop (length bs) (page bp))) Hp3 Ha) as [Hp4 Hk4].
      split; [done|]. eapply pool_keeps_trans; [exact Hk1|]. eapply pool_keeps_trans; [exact Hk2|]. by eapply pool_keeps_trans.
Qed.

Lemma mpool_new_spec mp d malloc : pool mp d -> malloc_ok mp malloc -> pagesize mp * (npages mp + 1) <= 2 ^ 31 ->
  npages mp < MAX_PAGE_NUMBER ->
  exists r mp' d', mpool_new mp d malloc = Some (r, mp', d') /\
    match r with
    | Some (a, p) => pool mp' d' /\ keeps mp d mp' d' /\ p = npages mp /\ npages mp' = p + 1 /\
               exists bp, in_pool mp' a p bp /\ is_pinned bp = true
    | None => pgout mp = None -> pool mp' d' /\ keeps mp d mp' d'
    end.
Proof.
  intros Hp Hm Hroom Hmax. unfold mpool_new. rewrite (proj2 (Z.eqb_neq _ _)) by lia.
  destruct (mpool_bkt_spec mp d malloc Hp Hm) as (r & mp1 & d1 & -> & En & Hb). cbn [mbind option_bind].
  destruct r as [a|]; [|by do 3 eexists]. destruct Hb as (Hp1 & Hk1 & [Ha (bp & Ea & Hlen)] & Hnew). rewrite Ea. cbn [mbind option_bind].
  pose proof (wf_size _ (pool_wf _ _ Hp1)) as (Hps & Hn0 & _).
  assert (u32 (npages mp1 + 1) = npages mp1 + 1) as Eu by (apply u32_id; unfold is_u32, MAX_PAGE_NUMBER in *; lia). rewrite Eu.
  set (bp' := mk_bkt (page bp) (npages mp1) MPOOL_PINNED).
  set (mp2 := mk_mpool (lqh mp1) (hqh mp1) (curcache mp1) (maxcache mp1) (npages mp1 + 1) (pagesize mp1) (pgin mp1) (pgout mp1) (mem mp1)).
  assert (pool mp2 d1) as Hp2.
  { destruct Hp1 as [[H1 H2 H3 H4 H5 H6] Hc Hf]. split; try done. split; try done.
    - intros b Hb. destruct (H2 b Hb) as (y & Ey & Hy & [Hg1 Hg2]). exists y. split_and!; try done. split; [cbn; lia|done].
    - pose proof (keeps_size _ _ _ _ Hk1). cbn. split_and!; [lia|lia|lia|congruence]. }
  destruct (enter mp2 d1 a (npages mp1) bp') as (Hp3 & Hin3 & Hoth & Hv); try done; [split; [done|by exists bp]|cbn; lia| |].
  { intros b y Hy. apply (in_pool_range mp1) in Hy as [Hy _]; [lia|apply Hp1]. }
  do 3 eexists. split; [done|]. assert (forall m', m' = store (link mp2 a (npages mp1)) a bp' -> pool m' d1 /\ keeps mp d m' d1 /\
    npages mp1 = npages mp /\ npages m' = npages mp1 + 1 /\ exists y, in_pool m' a (npages mp1) y /\ is_pinned y = true) as Fin; [|by apply Fin].
  intros m' ->. split_and!; try done; [|by exists bp'].
  eapply pool_keeps_trans; [exact Hk1|]. split; try done; [cbn; lia| |].
  - intros q c Hq Hvq. apply Hv; [intros ->; lia|done].
  - intros b q y Hy Hpy. exists y. split_and!; try done. by apply Hoth.
Qed.

Lemma dirty_bit bp : is_dirty bp = Z.testbit (flags bp) 0.
Proof.
  unfold is_dirty, MPOOL_DIRTY. rewrite (Z.land_ones _ 1), <- Z.bit0_mod by lia. by destruct (Z.testbit _ 0).
Qed.

Lemma dirty_put bp fl :
  is_dirty (set_flags bp (Z.lor (Z.ldiff (flags bp) MPOOL_PINNED) (Z.land fl MPOOL_DIRTY))) = is_dirty bp || Z.testbit fl 0.
Proof. rewrite !dirty_bit. cbn [flags set_flags]. rewrite Z.lor_spec, Z.ldiff_spec, Z.land_spec. cbn. by rewrite !andb_true_r. Qed.

(** The user returns a page that he changed as dirty. *)
Definition honest mp d (p : Z) (bp : BKT) (fl : Z) : Prop :=
  is_dirty bp = true \/ Z.testbit fl 0 = true \/ on_disk mp d p (page bp).

Lemma mpool_put_spec mp d a p bp fl : pool mp d -> in_pool mp a p bp -> honest mp d p bp fl ->
  exists mp', mpool_put mp a fl = Some (RET_SUCCESS, mp') /\ pool mp' d /\ pagesize mp' = pagesize mp /\ npages mp' = npages mp /\
    forall q c, view mp d q c -> view mp' d q c.
Proof.
  intros Hp Hin Hh. unfold mpool_put. pose proof Hin as (Ha & Ea & Ep). rewrite Ea. cbn [mbind option_bind].
  eexists. split; [done|]. set (bp' := set_flags bp _).
  destruct (retag mp d a p bp bp' Hp) as (Hp' & _ & _ & Hv); try done.
  - unfold bp'. rewrite dirty_put. intros [Hd Ht]%orb_false_iff _. destruct Hh as [?|[?|?]]; [congruence|congruence|done].
  - split_and!; try done. intros q c Hq. apply Hv; [|done]. intros ->.
    exact (view_page _ _ _ _ _ _ (pool_wf _ _ Hp) Hin Hq).
Qed.

(** The user stores into a page that he has. *)
Lemma user_write mp d a p bp c : pool mp d -> in_pool mp a p bp -> is_pinned bp = true -> Z.of_nat (length c) = pagesize mp ->
  let mp' := store mp a (set_page bp c) in
  pool mp' d /\ view mp' d p c /\ forall q c', q <> p -> view mp d q c' -> view mp' d q c'.
Proof.
  intros Hp Hin Hpin Hlen mp'. destruct (in_pool_range mp a p bp (pool_wf _ _ Hp) Hin) as [_ Hl].
  destruct (retag mp d a p bp (set_page bp c) Hp Hin) as (Hp' & Hin' & _ & Hv); cbn; [by destruct Hin as (_ & _ & ?)|lia| |].
  - unfold is_pinned in *. cbn. congruence.
  - split_and!; [done|left; by eexists _, _|]. intros q c' Hne. by apply Hv.
Qed.

(** The bucket of a page that was written is not dirty any more. *)
Lemma cleaned mp d a p bp : pool mp d -> in_pool mp a p bp -> on_disk mp d p (page bp) ->
  let mp' := store mp a (mk_bkt (page bp) p (Z.ldiff (flags bp) MPOOL_DIRTY)) in
  pool mp' d /\ keeps mp d mp' d.
Proof.
  intros Hp Hin Hdp mp'. set (bp1 := mk_bkt _ _ _) in mp'.
  destruct (retag mp d a p bp bp1 Hp Hin) as (Hp2 & Hin2 & Hoth2 & Hv2); try done. split; [done|]. split; try done.
  - intros q c Hq Hvq. apply Hv2; [|done]. intros ->. exact (view_page _ _ _ _ _ _ (pool_wf _ _ Hp) Hin Hvq).
  - intros b q y Hy Hpy. destruct (Z.eq_dec b a) as [->|Hne]; [|exists y; split_and!; [by apply Hoth2|done..]].
    assert (y = bp) as -> by (destruct Hy as (_ & ? & _), Hin as (_ & ? & _); congruence). exists bp1.
    assert (q = p) as -> by (destruct Hy as (_ & _ & <-), Hin as (_ & _ & <-); done). split_and!; [done|done|].
    unfold is_pinned, bp1 in *. cbn. unfold MPOOL_PINNED, MPOOL_DIRTY in *.
    replace (Z.land (Z.ldiff (flags bp) 1) 2) with (Z.land (flags bp) 2); [done|].
    apply Z.bits_inj'. intros n Hn. rewrite !Z.land_spec, Z.ldiff_spec.
    destruct (Z.eq_dec n 0) as [->|]; [by rewrite !andb_false_r|]. replace (Z.testbit 1 n) with false; [by rewrite andb_true_r|].
    symmetry. apply Z.bits_above_log2; cbn; lia.
Qed.

(** The walk of mpool_sync without a filter. *)
Lemma sync_walk_spec l : forall mp d, pool mp d -> pgout mp = None -> NoDup l -> (forall a, a ∈ l -> a ∈ lqh mp) ->
  exists r mp' d', sync_walk l mp d = Some (r, mp', d') /\ pool mp' d' /\ keeps mp d mp' d' /\
    (forall q c, 0 <= q -> (forall b y, b ∈ l -> ~ in_pool mp b q y) -> on_disk mp d q c -> on_disk mp' d' q c) /\
    (r = RET_SUCCESS -> forall a p bp, a ∈ l -> in_pool mp a p bp -> is_dirty bp = true \/ on_disk mp d p (page bp) ->
       on_disk mp' d' p (page bp)).
Proof.
  induction l as [|a l IH]; intros mp d Hp Hno Hnd Hl; cbn [sync_walk].
  { destruct (fsync d) as [r d1] eqn:E. pose proof (fsync_content d r d1 E) as C1.
    destruct (same_pages mp d mp d1) as [Hp1 Hk1]; try done; [apply Hp|].
    do 3 eexists. split_and!; try done; [|by intros _ a p bp Ha%elem_of_nil].
    intros q c _ _. unfold on_disk, raw. by rewrite C1. }
  apply NoDup_cons in Hnd as [Hal Hnd]. pose proof (pool_wf _ _ Hp) as Hw. pose proof (Hl a ltac:(constructor)) as Ha.
  destruct (wf_lqh mp Hw a Ha) as (bp & Ea & _ & Hg). rewrite Ea. cbn [mbind option_bind].
  assert (in_pool mp a (pgno bp) bp) as Hin by done. set (p := pgno bp) in *.
  assert (forall b, b ∈ l -> b <> a) as Hba by (intros b Hb ->; done).
  assert (forall b y, b ∈ l -> ~ in_pool mp b p y) as Hnp.
  { intros b y Hb Hy. destruct (in_pool_uniq mp a b p bp y Hw Hin Hy) as [-> _]. done. }
  destruct (is_dirty bp) eqn:Hd.
  2:{ destruct (IH mp d Hp Hno Hnd) as (r & mp' & d' & -> & Hp' & Hk' & Hst & Hdur); [intros b Hb; apply Hl; by constructor|].
      do 3 eexists. split_and!; try done.
      - intros q c Hq Hn. apply Hst; [done|]. intros b y Hb. apply Hn. by constructor.
      - intros Hr b q y [-> |Hb]%elem_of_cons Hy Hcase; [|by apply (Hdur Hr b)].
        destruct (in_pool_uniq mp a a p bp y Hw Hin) as [_ <-]; [destruct Hy as (? & ? & ?), Hin as (? & ? & ?); split_and!; congruence|].
        destruct Hy as (_ & _ & <-). destruct Hcase as [|Hdk]; [congruence|]. apply Hst; [unfold p; apply Hg|done|done]. }
  destruct (mpool_write_spec mp d a p bp Hp Hin) as (r & mp1 & d1 & -> & Ho & Hr). cbn [mbind option_bind].
  destruct (disk_changes mp d d1 a p bp Hp Hin Hd Ho) as [Hp1 Hk1].
  assert (out mp p (page bp) = page bp) as Eout by (unfold out; by rewrite Hno). rewrite Eout in Hr.
  assert (forall q c, 0 <= q -> q <> p -> on_disk mp d q c -> on_disk mp d1 q c) as Hstay by (intros; by eapply on_disk_stays).
  destruct Hr as [(-> & -> & Hraw)|(-> & ->)].
  - set (bp1 := mk_bkt _ _ _). cbn. assert (on_disk mp d1 p (page bp)) as Hdp.
    { destruct (in_pool_range mp a p bp Hw Hin) as [_ Hlen]. destruct (pool_filters _ _ Hp p (page bp) Hlen) as (_ & _ & Hio).
      unfold on_disk. rewrite Hraw. cbn. by rewrite Eout in Hio; rewrite Hio. }
    destruct (cleaned mp d1 a p bp Hp1 Hin Hdp) as [Hp2 Hk2]. fold bp1 in Hp2, Hk2.
    destruct (IH (store mp a bp1) d1 Hp2 Hno Hnd) as (r & mp' & d' & -> & Hp' & Hk' & Hst & Hdur); [intros b Hb; apply (Hl b); by constructor|].
    assert (forall b q y, b ∈ l -> in_pool (store mp a bp1) b q y <-> in_pool mp b q y) as Hiff.
    { intros b q y Hb. unfold in_pool. cbn. rewrite lookup_insert_ne by (apply not_eq_sym; by apply Hba). done. }
    do 3 eexists. split_and!; try done; [eapply pool_keeps_trans; [exact Hk1|]; by eapply pool_keeps_trans| |].
    + intros q c Hq Hn Hdq. apply Hst; [done| |].
      * intros b y Hb Hy%Hiff; [|done]. by apply (Hn b y); [constructor|].
      * apply (Hstay q c Hq); [|done]. intros ->. by apply (Hn a bp); [constructor|].
    + intros Hr b q y [-> |Hb]%elem_of_cons Hy Hcase.
      * assert (y = bp) as -> by (destruct Hy as (_ & ? & _); congruence). destruct Hy as (_ & _ & <-). fold p.
        apply Hst; [unfold p; apply Hg| |exact Hdp]. intros b y Hb Hy%Hiff; [|done]. by apply (Hnp b y).
      * apply (Hdur Hr b q y Hb); [by apply Hiff|]. destruct Hcase as [?|Hdq]; [by left|right].
        apply (Hstay q); [destruct (in_pool_range mp b q y Hw Hy); lia| |done]. intros ->. by apply (Hnp b y).
  - rewrite set_page_same, store_same by done. do 3 eexists. cbn. split_and!; try done.
    intros q c Hq Hn. apply Hstay; [done|]. intros ->. by apply (Hn a bp); [constructor|].
Qed.

(** ** The pool as a store of pages *)

(** What a user does and gets to see. *)
Inductive event :=
| Got (p : Z) (c : page_bytes)
| New (p : Z) (c : page_bytes)
| Wrote (p : Z) (c : page_bytes)
| Quiet.

(** The store of pages, as far as the user knows them. *)
Inductive spec_step : gmap Z page_bytes -> event -> gmap Z page_bytes -> Prop :=
| spec_got m p c : (forall c', m !! p = Some c' -> c' = c) -> spec_step m (Got p c) (<[p := c]> m)
| spec_new m p c : m !! p = None -> spec_step m (New p c) (<[p := c]> m)
| spec_wrote m p c : spec_step m (Wrote p c) (<[p := c]> m)
| spec_quiet m : spec_step m Quiet m.

(** Calls that fail and mpool_sync only occur without a filter. *)
Inductive step : MPOOL * D -> event -> MPOOL * D -> Prop :=
| step_get mp d p malloc a mp' d' bp : malloc_ok mp malloc -> 0 <= p ->
    mpool_get mp p d malloc = Some (inl a, mp', d') -> mem mp' !! a = Some bp -> step (mp, d) (Got p (page bp)) (mp', d')
| step_get_null mp d p malloc e mp' d' : malloc_ok mp malloc -> 0 <= p -> pgout mp = None ->
    mpool_get mp p d malloc = Some (inr e, mp', d') -> step (mp, d) Quiet (mp', d')
| step_new mp d malloc a p mp' d' bp : malloc_ok mp malloc -> pagesize mp * (npages mp + 1) <= 2 ^ 31 ->
    npages mp < MAX_PAGE_NUMBER ->
    mpool_new mp d malloc = Some (Some (a, p), mp', d') -> mem mp' !! a = Some bp -> step (mp, d) (New p (page bp)) (mp', d')
| step_new_null mp d malloc mp' d' : malloc_ok mp malloc -> pagesize mp * (npages mp + 1) <= 2 ^ 31 ->
    npages mp < MAX_PAGE_NUMBER -> pgout mp = None ->
    mpool_new mp d malloc = Some (None, mp', d') -> step (mp, d) Quiet (mp', d')
| step_write mp d a p bp c : in_pool mp a p bp -> is_pinned bp = true -> Z.of_nat (length c) = pagesize mp ->
    step (mp, d) (Wrote p c) (store mp a (set_page bp c), d)
| step_put mp d a p bp fl r mp' : in_pool mp a p bp -> honest mp d p bp fl ->
    mpool_put mp a fl = Some (r, mp') -> step (mp, d) Quiet (mp', d)
| step_sync mp d r mp' d' : pgout mp = None -> mpool_sync mp d = Some (r, mp', d') -> step (mp, d) Quiet (mp', d').

Inductive steps : MPOOL * D -> list event -> MPOOL * D -> Prop :=
| steps_nil s : steps s [] s
| steps_cons s e s1 es s2 : step s e s1 -> steps s1 es s2 -> steps s (e :: es) s2.

Inductive spec_steps : gmap Z page_bytes -> list event -> gmap Z page_bytes -> Prop :=
| spec_nil m : spec_steps m [] m
| spec_cons m e m1 es m2 : spec_step m e m1 -> spec_steps m1 es m2 -> spec_steps m (e :: es) m2.

Definition knows mp d (m : gmap Z page_bytes) : Prop := forall p c, m !! p = Some c -> 0 <= p < npages mp /\ view mp d p c.

Lemma knows_keeps mp d mp' d' m : keeps mp d mp' d' -> knows mp d m -> knows mp' d' m.
Proof.
  intros Hk Hm p c Hp. destruct (Hm p c Hp) as [Hr Hv]. pose proof (keeps_npages _ _ _ _ Hk).
  split; [lia|by apply (keeps_view _ _ _ _ Hk)].
Qed.

Lemma knows_insert mp d m p bp a : wf mp -> in_pool mp a p bp -> (forall q c, q <> p -> m !! q = Some c -> 0 <= q < npages mp /\ view mp d q c) ->
  knows mp d (<[p := page bp]> m).
Proof.
  intros Hw Hin Hm q c. destruct (Z.eq_dec q p) as [->|Hne].
  - rewrite lookup_insert_eq. intros [= <-]. split; [by destruct (in_pool_range mp a p bp Hw Hin)|]. left. by exists a, bp.
  - rewrite lookup_insert_ne by done. by apply Hm.
Qed.

Lemma step_refines s e s' m : step s e s' -> pool s.1 s.2 -> knows s.1 s.2 m ->
  exists m', spec_step m e m' /\ pool s'.1 s'.2 /\ knows s'.1 s'.2 m'.
Proof.
  intros Hs Hp Hm. destruct Hs as [mp d p malloc a mp' d' bp Hok Hp0 E Ea|mp d p malloc e mp' d' Hok Hp0 Hno E
    |mp d malloc a p mp' d' bp Hok Hroom Hmax E Ea|mp d malloc mp' d' Hok Hroom Hmax Hno E
    |mp d a p bp c Hin Hpin Hlen|mp d a p bp fl r mp' Hin Hh E|mp d r mp' d' Hno E]; cbn [fst snd] in *.
  - destruct (mpool_get_spec mp d p malloc Hp Hok Hp0) as (r & mp1 & d1 & E1 & Hr). rewrite E in E1. injection E1 as <- <- <-.
    destruct Hr as (Hp' & Hk & _ & _ & y & Hin & _). assert (y = bp) as -> by (destruct Hin as (_ & ? & _); congruence).
    pose proof (knows_keeps _ _ _ _ _ Hk Hm) as Hm'. eexists. split; [constructor|split; [done|]].
    + intros c' Hc. destruct (Hm' p c' Hc) as [_ Hv]. exact (view_page _ _ _ _ _ _ (pool_wf _ _ Hp') Hin Hv).
    + eapply knows_insert; [apply Hp'|done|]. intros q c _. apply Hm'.
  - destruct (mpool_get_spec mp d p malloc Hp Hok Hp0) as (r & mp1 & d1 & E1 & Hr). rewrite E in E1. injection E1 as <- <- <-.
    destruct (Hr Hno) as [Hp' Hk]. exists m. split_and!; [constructor|done|by eapply knows_keeps].
  - destruct (mpool_new_spec mp d malloc Hp Hok Hroom Hmax) as (r & mp1 & d1 & E1 & Hr). rewrite E in E1. injection E1 as <- <- <-.
    destruct Hr as (Hp' & Hk & -> & _ & y & Hin & _). assert (y = bp) as -> by (destruct Hin as (_ & ? & _); congruence).
    eexists. split; [constructor|split; [done|]].
    + destruct (m !! npages mp) as [c|] eqn:Ec; [|done]. destruct (Hm _ _ Ec) as [? _]. lia.
    + eapply knows_insert; [apply Hp'|done|]. intros q c _. by apply (knows_keeps _ _ _ _ _ Hk).
  - destruct (mpool_new_spec mp d malloc Hp Hok Hroom Hmax) as (r & mp1 & d1 & E1 & Hr). rewrite E in E1. injection E1 as <- <- <-.
    destruct (Hr Hno) as [Hp' Hk]. exists m. split_and!; [constructor|done|by eapply knows_keeps].
  - destruct (user_write mp d a p bp c Hp Hin Hpin Hlen) as (Hp' & Hv & Hoth). eexists. split_and!; [constructor|done|].
    intros q c'. destruct (Z.eq_dec q p) as [->|Hne].
    + rewrite lookup_insert_eq. intros [= <-]. split; [by destruct (in_pool_range mp a p bp (pool_wf _ _ Hp) Hin)|done].
    + rewrite lookup_insert_ne by done. intros Hc. destruct (Hm q c' Hc) as [Hr Hvq]. split; [done|by apply Hoth].
  - destruct (mpool_put_spec mp d a p bp fl Hp Hin Hh) as (mp1 & E1 & Hp' & _ & En & Hv). rewrite E in E1. injection E1 as _ ->.
    exists m. split_and!; [constructor|done|]. intros q c Hc. destruct (Hm q c Hc) as [Hr Hvq]. rewrite En. split; [done|by apply Hv].
  - destruct (sync_walk_spec (lqh mp) mp d Hp Hno) as (r1 & mp1 & d1 & E1 & Hp' & Hk & _); [apply (wf_once _ (pool_wf _ _ Hp))|done|].
    unfold mpool_sync in E. rewrite E in E1. injection E1 as <- <- <-. exists m. split_and!; [constructor|done|by eapply knows_keeps].
Qed.

(** C6. A user of the pool sees a store of pages, while users write only to pages they
    hold and give pages they have changed back as dirty, on a file of at most 2 ^ 31
    bytes.  Without a pgout filter calls may fail and mpool_sync may be called; with one
    the runs have neither ([sync_converts] shows what mpool_sync leaves then).  Whatever is evicted, written and read
    again, mpool_get returns the page as the user last knew it, mpool_new a number no
    known page has, and the queues stay those of a pool. *)
Theorem mpool_refines s es s' m : steps s es s' -> pool s.1 s.2 -> knows s.1 s.2 m ->
  exists m', spec_steps m es m' /\ pool s'.1 s'.2 /\ knows s'.1 s'.2 m'.
Proof.
  intros Hs. revert m. induction Hs as [s|s e s1 es s2 Hst _ IH]; intros m Hp Hm; [exists m; by split; [constructor|]|].
  destruct (step_refines _ _ _ _ Hst Hp Hm) as (m1 & H1 & Hp1 & Hm1). destruct (IH m1 Hp1 Hm1) as (m2 & H2 & Hp2 & Hm2).
  exists m2. split; [by econstructor|done].
Qed.

(** After mpool_sync without a filter has returned RET_SUCCESS, every page that
    was dirty or is nobody's, as the users knew it, is in the file. *)
Theorem mpool_sync_durable mp d mp' d' p c :
  pool mp d -> pgout mp = None -> mpool_sync mp d = Some (RET_SUCCESS, mp', d') -> 0 <= p ->
  view mp d p c -> (forall a bp, in_pool mp a p bp -> is_pinned bp = true -> is_dirty bp = true) ->
  on_disk mp' d' p c.
Proof.
  intros Hp Hno E Hp0 Hv Hpin. pose proof (pool_wf _ _ Hp) as Hw.
  destruct (sync_walk_spec (lqh mp) mp d Hp Hno) as (r1 & mp1 & d1 & E1 & Hp' & Hk & Hst & Hdur); [apply (wf_once _ Hw)|done|].
  unfold mpool_sync in E. rewrite E in E1. injection E1 as <- <- <-. destruct Hv as [(a & bp & Hin & <-)|[Hn Hd]].
  - apply (Hdur eq_refl a p bp); [apply Hin|done|]. destruct (is_dirty bp) eqn:Hdi; [by left|right].
    apply (pool_clean _ _ Hp a); [done|done|]. destruct (is_pinned bp) eqn:Hpi; [|done]. by rewrite (Hpin a bp Hin Hpi) in Hdi.
  - apply Hst; [done| |done]. intros b y _. apply Hn.
Qed.

(** The calls on an open pool follow no wild pointer, whatever the system calls
    and malloc answer. *)
Theorem mpool_never_wild mp d p malloc :
  pool mp d -> malloc_ok mp malloc -> 0 <= p ->
  is_Some (mpool_get mp p d malloc) /\ (pgout mp = None -> is_Some (mpool_sync mp d)) /\
  (forall a q bp fl, in_pool mp a q bp -> is_Some (mpool_put mp a fl)).
Proof.
  intros Hp Hm Hp0. split_and!.
  - destruct (mpool_get_spec mp d p malloc Hp Hm Hp0) as (r & mp' & d' & -> & _). by eexists.
  - intros Hno. destruct (sync_walk_spec (lqh mp) mp d Hp Hno) as (r & mp' & d' & E & _); [apply (wf_once _ (pool_wf _ _ Hp))|done|].
    by eexists.
  - intros a q bp fl (_ & Ea & _). unfold mpool_put. rewrite Ea. by eexists.
Qed.

(** A pool that was just opened, with its filters. *)
Lemma mpool_open_pool size maxcache mp d sb f g :
  mpool_open (Some sb) size maxcache true = (Some mp, None) -> st_reg sb = true ->
  0 < size -> 0 <= st_size sb < 2 ^ 31 -> filters_invert (mpool_filter mp f g) ->
  pool (mpool_filter mp f g) d.
Proof.
  intros E Hreg Hsize Hst Hf. unfold mpool_open in E. rewrite Hreg in E. cbn [negb] in E. injection E as <-.
  rewrite u32_id in * by (unfold is_u32; lia).
  assert (forall p, hash_chain (mpool_filter (mk_mpool [] (replicate (Z.to_nat HASHSIZE) []) 0 maxcache (st_size sb / size) size None None ∅) f g) p = []) as Hch.
  { intros p. unfold hash_chain. cbn [hqh mpool_filter]. unfold aget. case_match; [|done]. cbn.
    destruct (_ !! _) eqn:El; [|done]. by apply lookup_replicate_1 in El as [-> _]. }
  split; [|by intros a p bp [Ha%elem_of_nil _]|done]. split; cbn [lqh mem mpool_filter].
  - done.
  - by intros a Ha%elem_of_nil.
  - intros a p. rewrite Hch. by intros Ha%elem_of_nil.
  - by intros a b x y Ha%elem_of_nil.
  - split; [constructor|]. intros p. rewrite Hch. constructor.
  - cbn [npages pagesize mpool_filter]. unfold MAX_PAGE_NUMBER. split_and!; [done| | |]; Z.div_mod_to_equations; nia.
Qed.
End Pool.

(** ** A file whose system calls fail when [faults] says so *)

Record file := mk_file { bytes : page_bytes; fpos_of : Z; faults : list bool }.

Definition next_fault (d : file) : bool * file :=
  match faults d with
  | [] => (false, d)
  | b :: fs => (b, mk_file (bytes d) (fpos_of d) fs)
  end.

Definition file_at (d : file) (o n : Z) : option page_bytes :=
  if (0 <=? o) && (0 <=? n) && (o + n <=? Z.of_nat (length (bytes d)))
  then Some (take (Z.to_nat n) (drop (Z.to_nat o) (bytes d))) else None.

Definition spliced (l bs : page_bytes) (o : nat) : page_bytes :=
  take o (l ++ replicate (o - length l) 0) ++ bs ++ drop (o + length bs) l.

#[export] Instance file_ops : DiskOps file := {
  lseek o d :=
    let '(b, d) := next_fault d in
    if b then (-1, d) else (o, mk_file (bytes d) o (faults d));
  read n d :=
    let '(b, d) := next_fault d in
    if b then (-1, [], d)
    else
      let bs := take (Z.to_nat n) (drop (Z.to_nat (fpos_of d)) (bytes d)) in
      (Z.of_nat (length bs), bs, mk_file (bytes d) (fpos_of d + Z.of_nat (length bs)) (faults d));
  write bs d :=
    let '(b, d) := next_fault d in
    if b then (-1, d)
    else (Z.of_nat (length bs), mk_file (spliced (bytes d) bs (Z.to_nat (fpos_of d))) (fpos_of d + Z.of_nat (length bs)) (faults d));
  fsync d := let '(b, d) := next_fault d in (if b then -1 else 0, d)
}.

Lemma next_fault_bytes d b d' : next_fault d = (b, d') -> bytes d' = bytes d /\ fpos_of d' = fpos_of d.
Proof. unfold next_fault. case_match; by intros [= <- <-]. Qed.

Lemma lookup_spliced l bs o i : spliced l bs o !! i =
  if decide (i < o)%nat then (if decide (i < length l)%nat then l !! i else Some 0)
  else if decide (i < o + length bs)%nat then bs !! (i - o)%nat else l !! i.
Proof.
  unfold spliced. assert (length (take o (l ++ replicate (o - length l) 0)) = o) as El
    by (rewrite length_take, length_app, length_replicate; lia).
  case_decide as H1.
  - rewrite lookup_app_l by lia. rewrite lookup_take_lt by done. case_decide.
    + by rewrite lookup_app_l.
    + rewrite lookup_app_r by lia. apply lookup_replicate_2. lia.
  - rewrite lookup_app_r by lia. rewrite El. case_decide.
    + by rewrite lookup_app_l by lia.
    + rewrite lookup_app_r by lia. rewrite lookup_drop. f_equal. lia.
Qed.

Lemma length_spliced l bs o : length (spliced l bs o) = (o + length bs + (length l - (o + length bs)))%nat.
Proof. unfold spliced. rewrite !length_app, length_take, length_app, length_replicate, length_drop. lia. Qed.

Lemma file_at_same d d' o n : bytes d' = bytes d -> file_at d' o n = file_at d o n.
Proof. unfold file_at. by intros ->. Qed.

Lemma file_at_lookup d o n c : file_at d o n = Some c <->
  (0 <= o /\ 0 <= n /\ o + n <= Z.of_nat (length (bytes d))) /\ Z.of_nat (length c) = n /\
  forall i, (i < length c)%nat -> c !! i = bytes d !! (Z.to_nat o + i)%nat.
Proof.
  unfold file_at. destruct (Z.leb_spec 0 o), (Z.leb_spec 0 n), (Z.leb_spec (o + n) (Z.of_nat (length (bytes d)))); cbn [andb];
    try (split; [done|lia]).
  assert (length (take (Z.to_nat n) (drop (Z.to_nat o) (bytes d))) = Z.to_nat n) as El
    by (rewrite length_take, length_drop; lia).
  split.
  - intros [= <-]. split_and!; [lia..|]. intros i Hi. rewrite lookup_take_lt by lia. by rewrite lookup_drop.
  - intros (_ & Hl & Hi). f_equal. apply list_eq_same_length with (length c); [done|lia|].
    intros i x y Hlt Hx Hy. rewrite lookup_take_lt, lookup_drop in Hx by lia. rewrite Hi in Hy by done. congruence.
Qed.

#[export] Instance file_laws : DiskLaws file.
Proof.
  refine {| content := file_at; fpos := fpos_of |}.
  - intros o d r d' Ho E. cbn in E. destruct (next_fault d) as [b d1] eqn:Ef. apply next_fault_bytes in Ef as [Eb Ep].
    destruct b; injection E as <- <-; (split; [intros; by apply file_at_same|]); [lia|done].
  - intros k d r bs d' Hpos Hk E. cbn in E. destruct (next_fault d) as [b d1] eqn:Ef. apply next_fault_bytes in Ef as [Eb Ep].
    destruct b; injection E as <- <- <-; (split; [intros; by apply file_at_same|]); [cbn; lia|].
    rewrite Eb, Ep, length_take, length_drop. split; [lia|]. intros Er. split; [|lia].
    unfold file_at. rewrite !(proj2 (Z.leb_le _ _)) by lia. done.
  - intros bs d r d' Hpos Hbs E. cbn in E. destruct (next_fault d) as [b d1] eqn:Ef. apply next_fault_bytes in Ef as [Eb Ep].
    destruct b; injection E as <- <-.
    + split; [|lia]. intros o n c _ _ _ Hc. by rewrite (file_at_same d).
    + rewrite Eb, Ep. split.
      * intros o n c Ho Hn Hd Hc. apply file_at_lookup in Hc as (Hr & Hl & Hi). apply file_at_lookup. cbn [bytes].
        rewrite length_spliced. split_and!; [lia..|]. intros i Hlt. rewrite Hi by done. rewrite lookup_spliced.
        case_decide; [rewrite decide_True by lia; done|]. by rewrite decide_False by lia.
      * intros _. apply file_at_lookup. cbn [bytes]. rewrite length_spliced. split_and!; [lia..|].
        intros i Hlt. rewrite lookup_spliced, decide_False, decide_True by lia. f_equal. lia.
  - intros d r d' E. cbn in E. destruct (next_fault d) as [b d1] eqn:Ef. injection E as _ <-.
    apply next_fault_bytes in Ef as [Eb Ep]. intros o n. by apply file_at_same.
Defined.

(** ** Runs *)

Definition swap_filter : filter := fun _ c => reverse c.

Definition small (f g : option filter) : MPOOL :=
  mpool_filter (mk_mpool [] (replicate (Z.to_nat HASHSIZE) []) 0 1 2 2 None None ∅) f g.

Definition small_file (fs : list bool) : file := mk_file [1; 2; 3; 4] 0 fs.

Definition rubbish : Z * BKT := (100, mk_bkt [9; 9] 77 3).

Lemma small_pool d : pool (small None None) d.
Proof. by apply (mpool_open_pool 2 1 _ _ (mk_stat true 4)). Qed.

(** Page 0 is changed, evicted for page 1 and read again. *)
Lemma mpool_refines_witness :
  exists s m', steps (small None None, small_file []) [Got 0 [1; 2]; Wrote 0 [7; 8]; Quiet; Got 1 [3; 4]; Quiet; Got 0 [7; 8]] s /\
    spec_steps ∅ [Got 0 [1; 2]; Wrote 0 [7; 8]; Quiet; Got 1 [3; 4]; Quiet; Got 0 [7; 8]] m' /\ pool s.1 s.2 /\ knows s.1 s.2 m'.
Proof.
  assert (exists s, steps (small None None, small_file []) [Got 0 [1; 2]; Wrote 0 [7; 8]; Quiet; Got 1 [3; 4]; Quiet; Got 0 [7; 8]] s)
    as [s Hs].
  { eexists. eapply steps_cons.
    { eapply (step_get _ _ 0 (Some rubbish) 100 _ _ (mk_bkt [1; 2] 0 2)); [split; [apply not_elem_of_nil|done]|done|vm_compute; reflexivity|reflexivity]. }
    eapply steps_cons.
    { eapply (step_write _ _ 100 0 (mk_bkt [1; 2] 0 2) [7; 8]); [split_and!; [by apply list_elem_of_singleton|done|done]|done|done]. }
    eapply steps_cons.
    { eapply (step_put _ _ 100 0 (mk_bkt [7; 8] 0 2) MPOOL_DIRTY); [split_and!; [by apply list_elem_of_singleton|done|done]|by right; left|vm_compute; reflexivity]. }
    eapply steps_cons.
    { eapply (step_get _ _ 1 None 100 _ _ (mk_bkt [3; 4] 1 2)); [done|done|vm_compute; reflexivity|reflexivity]. }
    eapply steps_cons.
    { eapply (step_put _ _ 100 1 (mk_bkt [3; 4] 1 2) 0); [split_and!; [by apply list_elem_of_singleton|done|done]|by right; right|vm_compute; reflexivity]. }
    eapply steps_cons; [|constructor].
    eapply (step_get _ _ 0 None 100 _ _ (mk_bkt [7; 8] 0 2)); [done|done|vm_compute; reflexivity|reflexivity]. }
  destruct (mpool_refines _ _ s ∅ Hs) as (m' & H); [apply small_pool|by intros p c Hc|]. by exists s, m'.
Defined.

Definition dirty_pool (f g : option filter) : MPOOL :=
  mk_mpool [100] (<[127%nat := [100]]> (replicate (Z.to_nat HASHSIZE) [])) 1 1 2 2 f g {[100 := mk_bkt [7; 8] 0 1]}.

Lemma dirty_pool_ok d : pool (dirty_pool None None) d.
Proof.
  assert (forall p, hash_chain (dirty_pool None None) p = if HASHKEY p =? 127 then [100] else []) as Hch.
  { intros p. pose proof (hash_range p) as Hr. unfold hash_chain, aget. rewrite (proj2 (Z.leb_le _ _)) by lia.
    cbn [hqh dirty_pool]. destruct (Z.eqb_spec (HASHKEY p) 127) as [->|Hne].
    - done.
    - rewrite list_lookup_insert_ne by lia. destruct (_ !! _) as [l|] eqn:El; [|done].
      by apply lookup_replicate_1 in El as [-> _]. }
  assert (forall a, a ∈ lqh (dirty_pool None None) <-> a = 100) as Hin by (intros a; apply list_elem_of_singleton).
  split; [|intros a p bp (->%Hin & [= <-] & _); done|intros p c Hc; by split_and!].
  split.
  - done.
  - intros a ->%Hin. eexists. split_and!; [reflexivity| |done..]. rewrite Hch. by apply list_elem_of_singleton.
  - intros a p. rewrite Hch, Hin. destruct (Z.eqb_spec (HASHKEY p) 127) as [E|E]; [|by intros Ha%elem_of_nil].
    intros ->%list_elem_of_singleton. split; [done|]. eexists. split; [reflexivity|]. by rewrite E.
  - by intros a b x y ->%Hin ->%Hin.
  - split; [apply NoDup_singleton|]. intros p. rewrite Hch. case_match; [apply NoDup_singleton|constructor].
  - done.
Qed.

Lemma mpool_sync_durable_witness :
  exists mp' d', mpool_sync (dirty_pool None None) (small_file []) = Some (RET_SUCCESS, mp', d') /\ on_disk mp' d' 0 [7; 8].
Proof.
  eexists _, _. split; [vm_compute; reflexivity|].
  apply (mpool_sync_durable (dirty_pool None None) (small_file []) _ _ 0 [7; 8]); [apply dirty_pool_ok|done|vm_compute; reflexivity|done| |].
  - left. exists 100, (mk_bkt [7; 8] 0 1). split; [|done]. split_and!; [by apply list_elem_of_singleton|done|done].
  - by intros a bp (->%list_elem_of_singleton & [= <-] & _).
Defined.

Lemma mpool_never_wild_witness :
  exists r, mpool_sync (dirty_pool None None) (small_file [true]) = Some r.
Proof.
  destruct (mpool_never_wild (dirty_pool None None) (small_file [true]) 0 None) as (_ & H & _); [apply dirty_pool_ok|done|done|].
  destruct (H eq_refl) as [r E]. by exists r.
Defined.

(** mpool_write converts the page where it is.  After mpool_sync the page stays in the
    pool, in the format of the file. *)
Example sync_converts :
  match mpool_sync (dirty_pool (Some swap_filter) (Some swap_filter)) (small_file []) with
  | Some (r, mp, d) => r = RET_SUCCESS /\ page <$> mem mp !! 100 = Some [8; 7] /\ on_disk mp d 0 [7; 8] /\ mpool_look mp 0 = Some (Some 100)
  | None => False
  end.
Proof. vm_compute. by split_and!. Qed.

(** A page that cannot be read: the bucket is in no queue and is not freed, and
    another page has lost its place. *)
Example failed_get_leaks :
  match mpool_get (dirty_pool None None) 1 (small_file [false; false; true]) None with
  | Some (r, mp, _) => r = inr None /\ lqh mp = [] /\ curcache mp = 1 /\ is_Some (mem mp !! 100)
  | None => False
  end.
Proof. vm_compute. split_and!; try done. by eexists. Qed.

(** mpool_close frees the buckets of the lru chain only. *)
Example close_frees : snd (mpool_close (dirty_pool None None)) = ∅.
Proof. reflexivity. Qed.
