(* ===== verification/Stdio.v ===== *)
(** * Standard I/O: output

    Models the FILE of include/stdio.h and the output half of stdio/: wsetup.c, makebuf.c,
    fflush.c, wbuf.c, fvwrite.c, fwrite.c, fputs.c, puts.c and the macro putc.  A pointer into a
    buffer is an offset, [_bf] is the memory behind _bf._base ([None] is NULL).  What
    fstat, malloc and isatty answer is an argument, the functions _read and _write of
    the stream are behind the interface [StreamOps].  A copy that leaves its buffer,
    or an iovec behind the last one, gives [None]. *)

From S2P Require Import Prelude.

(** The functions of a stream: _read gives its result and the bytes it stored. *)
Class StreamOps (D : Type) := {
  _read : Z -> D -> Z * list Z * D;
  _write : list Z -> D -> Z * D
}.

Module Stdio.

Definition __SLBF : Z := 0x0001.
Definition __SNBF : Z := 0x0002.
Definition __SRD : Z := 0x0004.
Definition __SWR : Z := 0x0008.
Definition __SRW : Z := 0x0010.
Definition __SEOF : Z := 0x0020.
Definition __SERR : Z := 0x0040.
Definition __SMBF : Z := 0x0080.
Definition __SSTR : Z := 0x0200.
Definition __SOPT : Z := 0x0400.
Definition __SNPT : Z := 0x0800.
Definition __SMOD : Z := 0x2000.
Definition __SWCH : Z := 0x4000.
Definition __SCHR : Z := 0x8000.
Definition BUFSIZ : Z := 8192.
Definition EOF : Z := -1.
Definition NEWLINE : Z := 10.

(** [_p] counts from _ub._base while there is ungetc data, from _bf._base otherwise. *)
Record FILE := mk_file {
  _p : Z; _r : Z; _w : Z; _flags : Z;
  _bf : option (list Z); _size : Z; _lbfsize : Z;
  _ub : option (list Z); _up : Z; _ur : Z;
  _ubuf : list Z; _nbuf : list Z; _lb : list Z
}.

Definition set_p (fp : FILE) (p : Z) : FILE :=
  mk_file p (_r fp) (_w fp) (_flags fp) (_bf fp) (_size fp) (_lbfsize fp) (_ub fp) (_up fp) (_ur fp) (_ubuf fp) (_nbuf fp) (_lb fp).
Definition set_r (fp : FILE) (r : Z) : FILE :=
  mk_file (_p fp) r (_w fp) (_flags fp) (_bf fp) (_size fp) (_lbfsize fp) (_ub fp) (_up fp) (_ur fp) (_ubuf fp) (_nbuf fp) (_lb fp).
Definition set_w (fp : FILE) (w : Z) : FILE :=
  mk_file (_p fp) (_r fp) w (_flags fp) (_bf fp) (_size fp) (_lbfsize fp) (_ub fp) (_up fp) (_ur fp) (_ubuf fp) (_nbuf fp) (_lb fp).
Definition set_flags (fp : FILE) (f : Z) : FILE :=
  mk_file (_p fp) (_r fp) (_w fp) f (_bf fp) (_size fp) (_lbfsize fp) (_ub fp) (_up fp) (_ur fp) (_ubuf fp) (_nbuf fp) (_lb fp).
Definition set_bf (fp : FILE) (b : option (list Z)) (size : Z) : FILE :=
  mk_file (_p fp) (_r fp) (_w fp) (_flags fp) b size (_lbfsize fp) (_ub fp) (_up fp) (_ur fp) (_ubuf fp) (_nbuf fp) (_lb fp).
Definition set_lbfsize (fp : FILE) (z : Z) : FILE :=
  mk_file (_p fp) (_r fp) (_w fp) (_flags fp) (_bf fp) (_size fp) z (_ub fp) (_up fp) (_ur fp) (_ubuf fp) (_nbuf fp) (_lb fp).
Definition set_ub (fp : FILE) (b : option (list Z)) : FILE :=
  mk_file (_p fp) (_r fp) (_w fp) (_flags fp) (_bf fp) (_size fp) (_lbfsize fp) b (_up fp) (_ur fp) (_ubuf fp) (_nbuf fp) (_lb fp).
Definition save_u (fp : FILE) : FILE :=
  mk_file (_p fp) (_r fp) (_w fp) (_flags fp) (_bf fp) (_size fp) (_lbfsize fp) (_ub fp) (_p fp) (_r fp) (_ubuf fp) (_nbuf fp) (_lb fp).
Definition set_lb (fp : FILE) (b : list Z) : FILE :=
  mk_file (_p fp) (_r fp) (_w fp) (_flags fp) (_bf fp) (_size fp) (_lbfsize fp) (_ub fp) (_up fp) (_ur fp) (_ubuf fp) (_nbuf fp) b.

Definition has (f m : Z) : bool := negb (Z.land f m =? 0).
Definition flag (fp : FILE) (m : Z) : bool := has (_flags fp) m.
Definition raise (fp : FILE) (m : Z) : FILE := set_flags fp (Z.lor (_flags fp) m).
Definition lower (fp : FILE) (m : Z) : FILE := set_flags fp (Z.ldiff (_flags fp) m).

Definition HASUB (fp : FILE) : bool := bool_decide (is_Some (_ub fp)).
Definition FREEUB (fp : FILE) : FILE := set_ub fp None.

(** What the surroundings say about the descriptor of the stream. *)
Record env := mk_env {
  fstat : option (bool * bool * Z);  (** S_IFCHR, S_IFREG, st_blksize *)
  malloc : Z -> option (list Z);
  isatty : bool;
  seeks : bool                       (** _seek is __sseek *)
}.

(** The flags, the size of the buffer and couldbetty. *)
Definition __swhatbuf (E : env) : Z * Z * bool :=
  match fstat E with
  | None => (__SNPT, BUFSIZ, false)
  | Some (chr, reg, blksize) =>
    if blksize <=? 0 then (__SNPT, BUFSIZ, chr)
    else (if reg && seeks E then __SOPT else __SNPT, blksize, chr)
  end.

Definition __smakebuf (E : env) (fp : FILE) : FILE :=
  if flag fp __SNBF then set_bf (set_p fp 0) (Some (_nbuf fp)) 1
  else
    let '(flags, size, couldbetty) := __swhatbuf E in
    match malloc E size with
    | None => set_bf (set_p (raise fp __SNBF) 0) (Some (_nbuf fp)) 1
    | Some mem =>
      let fp := set_bf (set_p fp 0) (Some mem) size in
      let flags := Z.lor flags __SMBF in
      let flags := if couldbetty && isatty E then Z.lor flags __SLBF else flags in
      raise fp flags
    end.

Definition __swsetup (E : env) (fp : FILE) : Z * FILE :=
  let ready :=
    if flag fp __SWR then Some fp
    else if negb (flag fp __SRW) then None
    else
      let fp :=
        if flag fp __SRD then
          let fp := if HASUB fp then FREEUB fp else fp in
          set_p (set_r (lower fp (Z.lor __SRD __SEOF)) 0) 0
        else fp in
      Some (raise fp __SWR) in
  match ready with
  | None => (EOF, fp)
  | Some fp =>
    let fp := match _bf fp with None => __smakebuf E fp | Some _ => fp end in
    if flag fp __SLBF then (0, set_lbfsize (set_w fp 0) (- _size fp))
    else (0, set_w fp (if flag fp __SNBF then 0 else _size fp))
  end.

(** Whether the stream cannot be written. *)
Definition cantwrite (E : env) (fp : FILE) : bool * FILE :=
  if negb (flag fp __SWR) || bool_decide (_bf fp = None) then
    let '(r, fp) := __swsetup E fp in (negb (r =? 0), fp)
  else (false, fp).

(** [bs] into the memory [m] at the offset [i]. *)
Definition put_bytes (m : list Z) (i : Z) (bs : list Z) : option (list Z) :=
  if (0 <=? i) && (i + Z.of_nat (length bs) <=? Z.of_nat (length m))
  then Some (take (Z.to_nat i) m ++ bs ++ drop (Z.to_nat i + length bs) m) else None.

(** The first [n] bytes of [bs] go to the position of the stream. *)
Definition COPY (fp : FILE) (bs : list Z) (n : Z) : option FILE :=
  if n <? 0 then None
  else
    m ← _bf fp;
    m ← put_bytes m (_p fp) (take (Z.to_nat n) bs);
    Some (set_bf fp (Some m) (_size fp)).

Section Stream.
Context {D : Type} `{StreamOps D} (E : env).

(** [for (; n > 0; n -= t, p += t)]: the bytes that are left. *)
Fixpoint flush_loop (fuel : nat) (bs : list Z) (fp : FILE) (d : D) : option (Z * FILE * D) :=
  match bs with
  | [] => Some (0, fp, d)
  | _ :: _ =>
    match fuel with
    | O => None
    | S fuel =>
      let '(t, d) := _write bs d in
      if t <=? 0 then Some (EOF, raise fp __SERR, d) else flush_loop fuel (drop (Z.to_nat t) bs) fp d
    end
  end.

Definition __sflush (fp : FILE) (d : D) : option (Z * FILE * D) :=
  if negb (flag fp __SWR) then Some (0, fp, d)
  else
    match _bf fp with
    | None => Some (0, fp, d)
    | Some m =>
      let bs := take (Z.to_nat (_p fp)) m in
      let fp := set_w (set_p fp 0) (if flag fp (Z.lor __SLBF __SNBF) then 0 else _size fp) in
      flush_loop (length bs) bs fp d
    end.

(** The result, errno where it is set. *)
Definition fflush (fp : FILE) (d : D) : option (Z * option Z * FILE * D) :=
  if negb (flag fp (Z.lor __SWR __SRW)) then Some (EOF, Some EBADF, fp, d)
  else '(r, fp, d) ← __sflush fp d; Some (r, None, fp, d).

(** [fflush (fp)] where only the result counts. *)
Definition flushed (fp : FILE) (d : D) : option (Z * FILE * D) :=
  '(r, _, fp, d) ← fflush fp d; Some (r, fp, d).

Definition __swbuf (c : Z) (fp : FILE) (d : D) : option (Z * FILE * D) :=
  let fp := if flag fp (Z.lor __SWCH __SCHR) then fp else raise fp __SCHR in
  let fp := set_w fp (_lbfsize fp) in
  let '(cant, fp) := cantwrite E fp in
  if cant then Some (EOF, fp, d)
  else
    let c := u8 c in
    let n := _p fp in
    '(bad, fp, d, n) ← (if _size fp <=? n
                        then '(r, fp, d) ← flushed fp d; Some (negb (r =? 0), fp, d, 0)
                        else Some (false, fp, d, n));
    if (bad : bool) then Some (EOF, fp, d)
    else
      let fp := set_w fp (_w fp - 1) in
      fp ← COPY fp [c] 1;
      let fp := set_p fp (_p fp + 1) in
      if (n + 1 =? _size fp) || (flag fp __SLBF && (c =? NEWLINE)) then
        '(r, fp, d) ← flushed fp d; Some (if r =? 0 then c else EOF, fp, d)
      else Some (c, fp, d).

(** The macro putc. *)
Definition __sputc (c : Z) (fp : FILE) (d : D) : option (Z * FILE * D) :=
  let fp := set_w fp (_w fp - 1) in
  if (0 <=? _w fp) || ((_lbfsize fp <=? _w fp) && negb (u8 c =? NEWLINE)) then
    fp ← COPY fp [u8 c] 1; Some (u8 c, set_p fp (_p fp + 1), d)
  else __swbuf c fp d.

(** GETIOV: the bytes that are left of the current iovec; whether it is a new one. *)
Fixpoint GETIOV (cur : list Z) (iov : list (list Z)) : option (list Z * list (list Z) * bool) :=
  match cur with
  | _ :: _ => Some (cur, iov, false)
  | [] => match iov with
          | [] => None
          | cur :: iov => '(c, v, _) ← GETIOV cur iov; Some (c, v, true)
          end
  end.

(** Returned through err: *)
Definition err (fp : FILE) (d : D) (resid : Z) : option (Z * FILE * D * Z) := Some (EOF, raise fp __SERR, d, resid).

(** A turn of the loop for full buffering: whether it failed, and w. *)
Definition fully_turn (fp : FILE) (d : D) (cur : list Z) : option (bool * Z * FILE * D) :=
  let len := Z.of_nat (length cur) in
  let w := _w fp in
  if flag fp __SSTR then
    let w := if len <? u32 w then s32 len else w in
    fp ← COPY fp cur w;
    Some (false, s32 len, set_p (set_w fp (_w fp - w)) (_p fp + w), d)
  else if (0 <? _p fp) && (u32 w <? len) then
    fp ← COPY fp cur w;
    '(r, fp, d) ← flushed (set_p fp (_p fp + w)) d;
    Some (negb (r =? 0), w, fp, d)
  else if u32 (_size fp) <=? len then
    let '(w, d) := _write (take (Z.to_nat (_size fp)) cur) d in
    Some (w <=? 0, w, fp, d)
  else
    let w := s32 len in
    fp ← COPY fp cur w;
    Some (false, w, set_p (set_w fp (_w fp - w)) (_p fp + w), d).

(** A turn of the loop for line buffering. *)
Definition line_turn (fp : FILE) (d : D) (cur : list Z) (nldist : Z) : option (bool * Z * FILE * D) :=
  let len := Z.of_nat (length cur) in
  let s := if len <? u32 nldist then s32 len else nldist in
  let w := _w fp + _size fp in
  if (0 <? _p fp) && (w <? s) then
    fp ← COPY fp cur w;
    '(r, fp, d) ← flushed (set_p fp (_p fp + w)) d;
    Some (negb (r =? 0), w, fp, d)
  else if _size fp <=? s then
    let '(w, d) := _write (take (Z.to_nat (_size fp)) cur) d in
    Some (w <=? 0, w, fp, d)
  else
    let w := s in
    fp ← COPY fp cur w;
    Some (false, w, set_p (set_w fp (_w fp - w)) (_p fp + w), d).

(** The three loops; [resid] is uio->uio_resid.  Every turn that writes nothing
    empties the buffer, two turns for a byte are enough [fuel]. *)
Fixpoint unbuffered (fuel : nat) (fp : FILE) (d : D) (cur : list Z) (iov : list (list Z)) (resid : Z) :
    option (Z * FILE * D * Z) :=
  match fuel with
  | O => None
  | S fuel =>
    '(cur, iov, _) ← GETIOV cur iov;
    let '(w, d) := _write (take (Z.to_nat BUFSIZ) cur) d in
    if w <=? 0 then err fp d resid
    else
      let resid := resid - w in
      if resid =? 0 then Some (0, fp, d, resid) else unbuffered fuel fp d (drop (Z.to_nat w) cur) iov resid
  end.

Fixpoint fully (fuel : nat) (fp : FILE) (d : D) (cur : list Z) (iov : list (list Z)) (resid : Z) :
    option (Z * FILE * D * Z) :=
  match fuel with
  | O => None
  | S fuel =>
    '(cur, iov, _) ← GETIOV cur iov;
    '(bad, w, fp, d) ← fully_turn fp d cur;
    if (bad : bool) then err fp d resid
    else
      let resid := resid - w in
      if resid =? 0 then Some (0, fp, d, resid) else fully fuel fp d (drop (Z.to_nat w) cur) iov resid
  end.

(** The distance to the first newline, or to infinity. *)
Fixpoint to_newline (cur : list Z) : Z :=
  match cur with
  | [] => 1
  | c :: cur => if c =? NEWLINE then 1 else 1 + to_newline cur
  end.

(** [nldist] is [None] while nlknown is 0. *)
Fixpoint linewise (fuel : nat) (fp : FILE) (d : D) (cur : list Z) (iov : list (list Z)) (nldist : option Z) (resid : Z) :
    option (Z * FILE * D * Z) :=
  match fuel with
  | O => None
  | S fuel =>
    '(cur, iov, new) ← GETIOV cur iov;
    let nldist := match nldist with Some n => if (new : bool) then s32 (to_newline cur) else n | None => s32 (to_newline cur) end in
    '(bad, w, fp, d) ← line_turn fp d cur nldist;
    if (bad : bool) then err fp d resid
    else
      let nldist := nldist - w in
      '(bad, fp, d, nldist) ←
        (if nldist =? 0 then '(r, fp, d) ← flushed fp d; Some (negb (r =? 0), fp, d, None)
         else Some (false, fp, d, Some nldist));
      if (bad : bool) then err fp d resid
      else
        let resid := resid - w in
        if resid =? 0 then Some (0, fp, d, resid) else linewise fuel fp d (drop (Z.to_nat w) cur) iov nldist resid
  end.

(** The result, the stream and uio->uio_resid. *)
Definition __sfvwrite (fp : FILE) (d : D) (iov : list (list Z)) (resid : Z) : option (Z * FILE * D * Z) :=
  if resid =? 0 then Some (0, fp, d, 0)
  else
    let '(cant, fp) := cantwrite E fp in
    if cant then Some (EOF, fp, d, resid)
    else
      match iov with
      | [] => None
      | cur :: iov =>
        let fuel := S (S (2 * Z.to_nat resid)) in
        if flag fp __SNBF then unbuffered fuel fp d cur iov resid
        else if negb (flag fp __SLBF) then fully fuel fp d cur iov resid
        else linewise fuel fp d cur iov None resid
      end.

(** [buf] is the memory of the caller; a [count] of too much wraps around. *)
Definition fwrite (buf : list Z) (size count : Z) (fp : FILE) (d : D) : option (Z * FILE * D) :=
  let n := u32 (count * size) in
  '(r, fp, d, resid) ← __sfvwrite fp d [take (Z.to_nat n) buf] (s32 n);
  Some (if r =? 0 then count else u32 (n - resid) / size, fp, d).

Definition fputs (s : list Z) (fp : FILE) (d : D) : option (Z * FILE * D) :=
  '(r, fp, d, _) ← __sfvwrite fp d [s] (Z.of_nat (length s)); Some (r, fp, d).

(** puts on the stream stdout. *)
Definition puts (s : list Z) (stdout : FILE) (d : D) : option (Z * FILE * D) :=
  '(r, fp, d, _) ← __sfvwrite stdout d [s; [NEWLINE]] (Z.of_nat (length s) + 1);
  Some (if r =? 0 then NEWLINE else EOF, fp, d).
End Stream.

End Stdio.

Import Stdio.

(** ** The interface of _write *)

(** What a stream has taken. *)
Class WriteLaws (D : Type) `{StreamOps D} := {
  taken : D -> list Z;
  write_takes bs d r d' : bs <> [] -> _write bs d = (r, d') ->
    r <= Z.of_nat (length bs) /\ taken d' = taken d ++ take (Z.to_nat r) bs
}.

(** ** Flags *)

Lemma has_lor f a m : has (Z.lor f a) m = has f m || has a m.
Proof.
  unfold has. rewrite Z.land_lor_distr_l. destruct (Z.eqb_spec (Z.land f m) 0) as [->|H1]; [done|].
  destruct (Z.eqb_spec (Z.lor (Z.land f m) (Z.land a m)) 0) as [H2|]; [|done].
  by apply Z.lor_eq_0_iff in H2 as [? _].
Qed.

Lemma has_ldiff f a m : Z.land a m = 0 -> has (Z.ldiff f a) m = has f m.
Proof.
  intros Ha. unfold has. do 2 f_equal. apply Z.bits_inj'. intros n Hn. rewrite !Z.land_spec, Z.ldiff_spec.
  assert (Z.testbit (Z.land a m) n = false) as Hb by (rewrite Ha; apply Z.bits_0). rewrite Z.land_spec in Hb.
  destruct (Z.testbit f n), (Z.testbit a n), (Z.testbit m n); done.
Qed.

Lemma has_mask_lor f m1 m2 : has f (Z.lor m1 m2) = has f m1 || has f m2.
Proof. unfold has. rewrite Z.land_comm, (Z.land_comm f m1), (Z.land_comm f m2). apply (has_lor m1 m2 f). Qed.

(** ** The buffer *)

Definition buffered (fp : FILE) : list Z := take (Z.to_nat (_p fp)) (default [] (_bf fp)).

Inductive mode := Full | Line | Unbuffered.

(** A stream for output, perhaps on the way to a flush ... *)
Record loaded (md : mode) (fp : FILE) : Prop := {
  ld_swr : flag fp __SWR = true;
  ld_str : flag fp __SSTR = false;
  ld_buf : exists m, _bf fp = Some m /\ Z.of_nat (length m) = _size fp;
  ld_size : 0 < _size fp < 2 ^ 31;
  ld_p : 0 <= _p fp <= _size fp;
  ld_mode :
    match md with
    | Full => flag fp __SNBF = false /\ flag fp __SLBF = false /\ _lbfsize fp = 0
    | Line => flag fp __SNBF = false /\ flag fp __SLBF = true /\ _lbfsize fp = - _size fp
    | Unbuffered => flag fp __SNBF = true /\ flag fp __SLBF = false /\ _lbfsize fp = 0 /\ _size fp = 1
    end
}.

Definition room (md : mode) (fp : FILE) : Prop :=
  match md with
  | Full => _w fp = _size fp - _p fp
  | Line => _w fp = - _p fp
  | Unbuffered => _w fp = 0 /\ _p fp = 0
  end.

(** ... and between two calls. *)
Record writing (md : mode) (fp : FILE) : Prop := {
  wr_loaded : loaded md fp;
  wr_room : room md fp;
  wr_line : md = Line -> NEWLINE ∉ buffered fp
}.

Lemma length_buffered md fp : loaded md fp -> Z.of_nat (length (buffered fp)) = _p fp.
Proof.
  intros []. destruct ld_buf0 as (m & E & Hm). unfold buffered. rewrite E. cbn. rewrite length_take. lia.
Qed.

Lemma loaded_raise md fp m : m = __SERR \/ m = __SCHR -> loaded md fp -> loaded md (raise fp m).
Proof.
  intros Hm [H1 H2 H3 H4 H5 H6]. unfold flag in *.
  assert (forall k, has m k = false -> has (Z.lor (_flags fp) m) k = has (_flags fp) k) as E
    by (intros k Hk; by rewrite has_lor, Hk, orb_false_r).
  split; unfold flag; cbn; rewrite ?E by (by destruct Hm as [-> | ->]); done.
Qed.

Lemma writing_raise md fp : writing md fp -> writing md (raise fp __SERR).
Proof. intros [H1 H2 H3]. split; [apply loaded_raise; [auto|done]|done|done]. Qed.

Lemma raise_serr fp : flag (raise fp __SERR) __SERR = true.
Proof. unfold flag, raise. cbn. rewrite has_lor. by rewrite orb_true_r. Qed.

(** The fields that only say where the stream is. *)
Lemma loaded_same md fp fp' : loaded md fp -> _flags fp' = _flags fp -> _size fp' = _size fp -> _lbfsize fp' = _lbfsize fp ->
  (exists m, _bf fp' = Some m /\ Z.of_nat (length m) = _size fp) -> 0 <= _p fp' <= _size fp -> loaded md fp'.
Proof.
  intros [H1 H2 H3 H4 H5 H6] E1 E2 E3 H7 H8. split; unfold flag in *; rewrite ?E1, ?E2, ?E3 in *; try done.
Qed.

(** The bytes of a copy come behind those of the buffer. *)
Lemma COPY_spec md fp bs n : loaded md fp -> 0 <= n <= Z.of_nat (length bs) -> _p fp + n <= _size fp ->
  exists fp', COPY fp bs n = Some fp' /\ _p fp' = _p fp /\ _w fp' = _w fp /\ _size fp' = _size fp /\
    forall w, let fp2 := set_p (set_w fp' w) (_p fp + n) in
    loaded md fp2 /\ buffered fp2 = buffered fp ++ take (Z.to_nat n) bs.
Proof.
  intros Hl Hn Hfit. pose proof Hl as [_ _ (m & Em & Hm) Hs Hp _]. unfold COPY. rewrite (proj2 (Z.ltb_ge n 0)) by lia.
  rewrite Em. cbn [mbind option_bind]. unfold put_bytes. rewrite length_take.
  rewrite !(proj2 (Z.leb_le _ _)) by lia. cbn [andb mbind option_bind]. eexists. split; [done|]. split_and!; try done.
  set (bs' := take (Z.to_nat n) bs). assert (length bs' = Z.to_nat n) as Hbs by (unfold bs'; rewrite length_take; lia).
  intros w. cbn zeta. split.
  - apply (loaded_same md fp); try done; [|cbn; lia]. eexists. split; [reflexivity|].
    rewrite !length_app, length_take, length_drop. lia.
  - unfold buffered. rewrite Em. cbn. rewrite app_assoc, take_app_le by (rewrite length_app, length_take; lia).
    apply take_ge. rewrite length_app, length_take. lia.
Qed.

Section Output.
Context {D : Type} `{WriteLaws D} (E : env).
Implicit Types (fp : FILE) (d : D).

(** What became of the bytes that were to come out. *)
Definition outcome (r : Z) (all : list Z) fp d : Prop :=
  (r = 0 /\ taken d ++ buffered fp = all) \/ (r = EOF /\ flag fp __SERR = true /\ taken d `prefix_of` all).

Lemma flush_loop_spec fuel : forall bs fp d, (length bs <= fuel)%nat ->
  exists r fp' d', flush_loop fuel bs fp d = Some (r, fp', d') /\
    ((r = 0 /\ fp' = fp /\ taken d' = taken d ++ bs) \/
     (r = EOF /\ fp' = raise fp __SERR /\ taken d' `prefix_of` taken d ++ bs)).
Proof.
  induction fuel as [|fuel IH]; intros [|b bs] fp d Hf; cbn [flush_loop]; try (cbn in Hf; lia);
    try (do 3 eexists; split; [done|]; left; by rewrite app_nil_r).
  destruct (_write (b :: bs) d) as [t d1] eqn:Ew. apply write_takes in Ew as [Ht Et]; [|done].
  destruct (Z.leb_spec t 0) as [Hle|Hpos].
  - do 3 eexists. split; [done|]. right. split_and!; try done. rewrite Et. replace (Z.to_nat t) with 0%nat by lia.
    rewrite app_nil_r. apply prefix_app_r. done.
  - destruct (IH (drop (Z.to_nat t) (b :: bs)) fp d1) as (r & fp' & d' & -> & Hr); [rewrite length_drop; cbn in *; lia|].
    do 3 eexists. split; [done|]. rewrite Et, <- app_assoc, take_drop in Hr. exact Hr.
Qed.

Lemma flushed_spec md fp d : loaded md fp ->
  exists r fp' d', flushed fp d = Some (r, fp', d') /\ writing md fp' /\ (_p fp' = 0 /\ _size fp' = _size fp) /\ buffered fp' = [] /\
    outcome r (taken d ++ buffered fp) fp' d'.
Proof.
  intros Hl. pose proof Hl as [Hw Hstr (m & Em & Hm) Hs Hp Hmd]. unfold flushed, fflush.
  assert (flag fp (Z.lor __SWR __SRW) = true) as -> by (unfold flag in *; by rewrite has_mask_lor, Hw).
  cbn [negb mbind option_bind]. unfold __sflush. rewrite Hw, Em. cbn [negb].
  set (bs := take (Z.to_nat (_p fp)) m). assert (buffered fp = bs) as -> by (unfold buffered; by rewrite Em).
  set (fp1 := set_w (set_p fp 0) _).
  assert (writing md fp1) as Hw1.
  { split; [apply (loaded_same md fp); try done; [by exists m|cbn; lia]| |by intros _ ?%elem_of_nil].
    unfold fp1. cbn. unfold flag in *. rewrite has_mask_lor. destruct md; cbn; [|..]; destruct Hmd as (-> & -> & Hmd); cbn; try done; lia. }
  destruct (flush_loop_spec (length bs) bs fp1 d) as (r & fp' & d' & -> & Hr); [done|]. cbn [mbind option_bind].
  do 3 eexists. split; [done|]. destruct Hr as [(-> & -> & Et)|(-> & -> & Et)].
  - split_and!; try done. left. split; [done|]. by rewrite app_nil_r.
  - split_and!; try done; [by apply writing_raise|]. right. split_and!; try done. apply raise_serr.
Qed.

(** ** The loops *)

(** A turn wrote the first [w] bytes of [cur], or at least emptied the buffer. *)
Definition turned (bad : bool) (w : Z) (cur : list Z) fp d fp' d' : Prop :=
  if bad then taken d' `prefix_of` taken d ++ buffered fp ++ cur
  else 0 <= w <= Z.of_nat (length cur) /\ (0 < w \/ (0 < _p fp /\ _p fp' = 0)) /\
       taken d' ++ buffered fp' = taken d ++ buffered fp ++ take (Z.to_nat w) cur.

(** The buffer is filled and flushed. *)
Lemma fill_and_flush md fp d cur w : loaded md fp -> 0 <= w <= Z.of_nat (length cur) -> _p fp + w <= _size fp -> 0 < _p fp ->
  exists fp1 r fp' d', COPY fp cur w = Some fp1 /\ flushed (set_p fp1 (_p fp1 + w)) d = Some (r, fp', d') /\
    writing md fp' /\ _p fp' = 0 /\ buffered fp' = [] /\ turned (negb (r =? 0)) w cur fp d fp' d'.
Proof.
  intros Hl Hw Hfit Hp. destruct (COPY_spec md fp cur w Hl Hw Hfit) as (fp1 & -> & Ep & Ew & Es & H1).
  destruct (H1 (_w fp1)) as [Hl2 Hb2]. assert (set_p (set_w fp1 (_w fp1)) (_p fp + w) = set_p fp1 (_p fp1 + w)) as E1
    by (rewrite Ep; by destruct fp1). rewrite E1 in *.
  destruct (flushed_spec md _ d Hl2) as (r & fp' & d' & Ef & Hwr & [Hp0 _] & Hnil & Ho). rewrite Hb2 in Ho.
  exists fp1, r, fp', d'. split_and!; try done.
  destruct Ho as [[-> Ho]|(-> & _ & Ho)]; cbn.
  - split_and!; [lia|lia|by right|]. exact Ho.
  - etrans; [exact Ho|]. apply prefix_app, prefix_app, prefix_take.
Qed.

(** The bytes fit. *)
Lemma fill md fp d cur w : loaded md fp -> 0 < w <= Z.of_nat (length cur) -> _p fp + w <= _size fp ->
  exists fp', (fp1 ← COPY fp cur w; Some (false, w, set_p (set_w fp1 (_w fp1 - w)) (_p fp1 + w), d)) = Some (false, w, fp', d) /\
    loaded md fp' /\ _w fp' = _w fp - w /\ _p fp' = _p fp + w /\ _size fp' = _size fp /\
    buffered fp' = buffered fp ++ take (Z.to_nat w) cur /\ turned false w cur fp d fp' d.
Proof.
  intros Hl Hw Hfit. destruct (COPY_spec md fp cur w Hl) as (fp1 & -> & Ep & Ew & Es & H1); [lia|lia|].
  cbn [mbind option_bind]. rewrite Ep, Ew. destruct (H1 (_w fp - w)) as [Hl2 Hb2].
  eexists. split_and!; try done. unfold turned. split_and!; [lia|lia|left; lia|by rewrite Hb2].
Qed.

(** A whole buffer is written without a copy. *)
Lemma write_directly md fp d cur w d' : writing md fp -> _p fp = 0 -> cur <> [] ->
  _write (take (Z.to_nat (_size fp)) cur) d = (w, d') -> turned (w <=? 0) w cur fp d fp d' /\ (0 < w -> w <= _size fp).
Proof.
  intros Hwr Hp Hne Ew. assert (0 < _size fp) as Hs by apply Hwr.
  assert (buffered fp = []) as Eb by (unfold buffered; by rewrite Hp). apply write_takes in Ew as [Hle Et].
  2:{ destruct cur; [done|]. destruct (Z.to_nat (_size fp)) eqn:En; [lia|done]. }
  rewrite length_take in Hle. unfold turned. rewrite Eb, app_nil_r, app_nil_l, Et, take_take. destruct (Z.leb_spec w 0).
  - split; [|lia]. apply prefix_app. replace (Nat.min _ _) with 0%nat by lia. apply prefix_nil.
  - rewrite Nat.min_l by lia. split; [|lia]. split_and!; [lia|lia|by left|done].
Qed.

Lemma GETIOV_spec iov : forall cur, (0 < length cur + length (concat iov))%nat ->
  exists cur' iov' new, GETIOV cur iov = Some (cur', iov', new) /\ cur' <> [] /\ cur' ++ concat iov' = cur ++ concat iov /\
    (cur' = cur \/ cur' ∈ iov) /\ (forall v, v ∈ iov' -> v ∈ iov) /\ if new then cur = [] else cur' = cur.
Proof.
  induction iov as [|v iov IH]; intros [|c cur] Hl; cbn [GETIOV]; try (cbn in Hl; lia);
    try (do 3 eexists; split; [done|]; split_and!; by auto).
  destruct (IH v) as (cur' & iov' & new & -> & Hne & Ec & Hin & Hsub & _); [cbn in Hl; rewrite length_app in Hl; lia|].
  cbn [mbind option_bind]. do 3 eexists. split; [done|]. split_and!; try done.
  - right. destruct Hin as [->|Hin]; [constructor|by constructor].
  - intros u Hu. constructor. by apply Hsub.
Qed.

Lemma fully_turn_spec fp d cur : writing Full fp -> cur <> [] -> Z.of_nat (length cur) < 2 ^ 31 ->
  exists bad w fp' d', fully_turn fp d cur = Some (bad, w, fp', d') /\ writing Full fp' /\ turned bad w cur fp d fp' d'.
Proof.
  intros Hwr Hne Hlen. pose proof Hwr as [Hl Hroom _]. pose proof Hl as [_ Hstr _ Hs Hp _]. cbn in Hroom. unfold fully_turn. rewrite Hstr.
  rewrite !u32_id by (unfold is_u32; lia). rewrite s32_id by (unfold is_s32; lia).
  assert (0 < Z.of_nat (length cur)) as Hpos by (destruct cur; [done|cbn; lia]).
  assert (_p fp + Z.of_nat (length cur) <= _size fp -> exists bad w fp' d',
    (fp1 ← COPY fp cur (Z.of_nat (length cur));
     Some (false, Z.of_nat (length cur), set_p (set_w fp1 (_w fp1 - Z.of_nat (length cur))) (_p fp1 + Z.of_nat (length cur)), d)) =
      Some (bad, w, fp', d') /\ writing Full fp' /\ turned bad w cur fp d fp' d') as Fill.
  { intros Hfit. destruct (fill Full fp d cur (Z.of_nat (length cur)) Hl) as (fp' & -> & Hl' & Ew & Ep & Es & _ & Ht); [lia|lia|].
    do 4 eexists. split; [done|]. split; [|done]. split; [done|cbn; lia|done]. }
  destruct (Z.ltb_spec 0 (_p fp)), (Z.ltb_spec (_w fp) (Z.of_nat (length cur))); cbn [andb].
  - destruct (fill_and_flush Full fp d cur (_w fp) Hl) as (fp1 & r & fp' & d' & -> & E2 & Hw' & _ & _ & Ht); [lia..|].
    cbn [mbind option_bind]. rewrite E2. cbn [mbind option_bind]. by do 4 eexists.
  - rewrite (proj2 (Z.leb_gt _ _)) by lia. apply Fill; lia.
  - destruct (Z.leb_spec (_size fp) (Z.of_nat (length cur))); [|lia].
    destruct (_write (take (Z.to_nat (_size fp)) cur) d) as [w d'] eqn:Ew.
    destruct (write_directly Full fp d cur w d') as [Ht _]; [done|lia|done|done|]. by do 4 eexists.
  - destruct (Z.leb_spec (_size fp) (Z.of_nat (length cur))) as [Hbig|Hsmall].
    + destruct (_write (take (Z.to_nat (_size fp)) cur) d) as [w d'] eqn:Ew.
      destruct (write_directly Full fp d cur w d') as [Ht _]; [done|lia|done|done|]. by do 4 eexists.
    + apply Fill; lia.
Qed.

(** The chunks are small enough for an int. *)
Definition small_iov (cur : list Z) (iov : list (list Z)) : Prop :=
  Forall (fun v => Z.of_nat (length v) < 2 ^ 31 - 1) (cur :: iov).

Lemma small_next cur iov cur' iov' n : small_iov cur iov -> (cur' = cur \/ cur' ∈ iov) -> (forall v, v ∈ iov' -> v ∈ iov) ->
  Z.of_nat (length cur') < 2 ^ 31 - 1 /\ small_iov (drop n cur') iov'.
Proof.
  unfold small_iov. rewrite !Forall_cons, !Forall_forall. intros [H1 H2] Hc Hs.
  assert (Z.of_nat (length cur') < 2 ^ 31 - 1) by (destruct Hc as [->|Hc]; [done|by apply H2]).
  split_and!; [done|rewrite length_drop; lia|]. intros v Hv. by apply H2, Hs.
Qed.

(** The end of a turn: the loop is left, or goes on with what is left. *)
Lemma turn_rest (r : Z) (w : Z) (cur : list Z) iov fp d fp1 d1 fp' d' :
  turned false w cur fp d fp1 d1 -> outcome r (taken d1 ++ buffered fp1 ++ drop (Z.to_nat w) cur ++ iov) fp' d' ->
  outcome r (taken d ++ buffered fp ++ cur ++ iov) fp' d'.
Proof.
  intros (_ & _ & E1) Ho. rewrite (app_assoc (taken d1)), E1, <- !app_assoc, (app_assoc (take _ cur)), take_drop in Ho. exact Ho.
Qed.

Lemma fully_spec fuel : forall fp d cur iov resid, writing Full fp -> small_iov cur iov ->
  resid = Z.of_nat (length cur + length (concat iov)) -> 0 < resid ->
  2 * resid + (if 0 <? _p fp then 1 else 0) <= Z.of_nat fuel ->
  exists r fp' d' resid', fully fuel fp d cur iov resid = Some (r, fp', d', resid') /\ writing Full fp' /\
    outcome r (taken d ++ buffered fp ++ cur ++ concat iov) fp' d'.
Proof.
  induction fuel as [|fuel IH]; intros fp d cur iov resid Hwr Hsm -> Hpos Hf; [case_match; lia|]. cbn [fully].
  destruct (GETIOV_spec iov cur ltac:(lia)) as (cur1 & iov1 & new & -> & Hne & Ec & Hin & Hsub & _). cbn [mbind option_bind].
  destruct (fully_turn_spec fp d cur1 Hwr Hne) as (bad & w & fp1 & d1 & -> & Hwr1 & Ht);
    [by destruct (small_next cur iov cur1 iov1 0 Hsm Hin Hsub); lia|].
  cbn [mbind option_bind]. rewrite <- Ec. apply (f_equal length) in Ec as El. rewrite !length_app in El. destruct bad.
  - do 4 eexists. split; [done|]. split; [by apply writing_raise|]. right. split_and!; [done|apply raise_serr|].
    etrans; [exact Ht|]. apply prefix_app, prefix_app, prefix_app_r. done.
  - pose proof Ht as (Hw & Hprog & Eout). destruct (Z.eqb_spec (Z.of_nat (length cur + length (concat iov)) - w) 0) as [E0|E0].
    + do 4 eexists. split; [done|]. split; [done|]. left. split; [done|]. rewrite Eout.
      assert (concat iov1 = []) as -> by (apply nil_length_inv; lia). rewrite app_nil_r, take_ge by lia. done.
    + destruct (IH fp1 d1 (drop (Z.to_nat w) cur1) iov1 (Z.of_nat (length cur + length (concat iov)) - w)) as (r & fp' & d' & resid' & -> & Hwr' & Ho);
        [done|by apply (small_next cur iov)|rewrite length_drop; lia|lia| |].
      * destruct (Z.ltb_spec 0 (_p fp)), (Z.ltb_spec 0 (_p fp1)); lia.
      * do 4 eexists. split; [done|]. split; [done|]. by eapply turn_rest.
Qed.

Lemma unbuffered_spec fuel : forall fp d cur iov resid, writing Unbuffered fp ->
  resid = Z.of_nat (length cur + length (concat iov)) -> 0 < resid -> resid <= Z.of_nat fuel ->
  exists r fp' d' resid', unbuffered fuel fp d cur iov resid = Some (r, fp', d', resid') /\ writing Unbuffered fp' /\
    outcome r (taken d ++ buffered fp ++ cur ++ concat iov) fp' d'.
Proof.
  induction fuel as [|fuel IH]; intros fp d cur iov resid Hwr -> Hpos Hf; [lia|]. cbn [unbuffered].
  destruct (GETIOV_spec iov cur ltac:(lia)) as (cur1 & iov1 & new & -> & Hne & Ec & _). cbn [mbind option_bind].
  rewrite <- Ec. apply (f_equal length) in Ec as El. rewrite !length_app in El.
  assert (buffered fp = []) as Eb by (unfold buffered; destruct Hwr as [_ [_ ->] _]; done).
  destruct (_write (take (Z.to_nat BUFSIZ) cur1) d) as [w d1] eqn:Ew.
  apply write_takes in Ew as [Hle Et]; [|by destruct cur1]. rewrite length_take in Hle.
  rewrite take_take in Et. destruct (Z.leb_spec w 0) as [Hbad|Hgood].
  - do 4 eexists. split; [done|]. split; [by apply writing_raise|]. right. split_and!; [done|apply raise_serr|].
    rewrite Et. apply prefix_app. replace (Nat.min _ _) with 0%nat by lia. apply prefix_nil.
  - rewrite Nat.min_l in Et by lia. destruct (Z.eqb_spec (Z.of_nat (length cur + length (concat iov)) - w) 0) as [E0|E0].
    + do 4 eexists. split; [done|]. split; [done|]. left. split; [done|]. rewrite Et, Eb, app_nil_r, take_ge by lia.
      assert (concat iov1 = []) as -> by (apply nil_length_inv; lia). by rewrite app_nil_r.
    + destruct (IH fp d1 (drop (Z.to_nat w) cur1) iov1 (Z.of_nat (length cur + length (concat iov)) - w)) as (r & fp' & d' & resid' & -> & Hwr' & Ho);
        [done|rewrite length_drop; lia|lia|lia|].
      do 4 eexists. split; [done|]. split; [done|]. rewrite Et, Eb, app_nil_l, <- app_assoc, (app_assoc (take _ cur1)), take_drop in Ho.
      by rewrite Eb.
Qed.

Lemma to_newline_range cur : 1 <= to_newline cur <= Z.of_nat (length cur) + 1.
Proof. induction cur as [|c cur IH]; cbn; [lia|]. case_match; lia. Qed.

Lemma to_newline_drop w : forall cur, Z.of_nat w < to_newline cur -> (w <= length cur)%nat ->
  NEWLINE ∉ take w cur /\ to_newline (drop w cur) = to_newline cur - Z.of_nat w.
Proof.
  induction w as [|w IH]; intros [|c cur] Hw Hl; cbn in *; try lia; try (split; [apply not_elem_of_nil|lia]).
  destruct (Z.eqb_spec c NEWLINE) as [->|Hc]; [lia|]. destruct (IH cur) as [H1 H2]; [lia|lia|].
  split; [|lia]. apply not_elem_of_cons. by split.
Qed.

Lemma line_turn_spec fp d cur : writing Line fp -> cur <> [] -> Z.of_nat (length cur) < 2 ^ 31 - 1 ->
  exists bad w fp' d', line_turn fp d cur (to_newline cur) = Some (bad, w, fp', d') /\ loaded Line fp' /\ _w fp' = - _p fp' /\
    (bad = true \/ w < to_newline cur -> NEWLINE ∉ buffered fp') /\ (bad = false -> w <= to_newline cur) /\
    turned bad w cur fp d fp' d'.
Proof.
  intros Hwr Hne Hlen. pose proof Hwr as [Hl Hroom Hnl]. specialize (Hnl eq_refl). cbn in Hroom. pose proof Hl as [_ _ _ Hs Hp _].
  unfold line_turn. pose proof (to_newline_range cur) as Hn. set (n := to_newline cur) in *.
  rewrite u32_id by (unfold is_u32; lia). rewrite (s32_id (Z.of_nat (length cur))) by (unfold is_s32; lia).
  assert (0 < Z.of_nat (length cur)) as Hpos by (destruct cur; [done|cbn; lia]).
  set (s := if Z.of_nat (length cur) <? n then Z.of_nat (length cur) else n).
  assert (0 < s <= Z.of_nat (length cur) /\ s <= n) as [Hs1 Hs2] by (unfold s; destruct (Z.ltb_spec (Z.of_nat (length cur)) n); lia).
  assert (forall w d', _p fp = 0 -> _size fp <= s -> _write (take (Z.to_nat (_size fp)) cur) d = (w, d') -> exists bad w0 fp' d0,
    Some (w <=? 0, w, fp, d') = Some (bad, w0, fp', d0) /\ loaded Line fp' /\ _w fp' = - _p fp' /\
    (bad = true \/ w0 < n -> NEWLINE ∉ buffered fp') /\ (bad = false -> w0 <= n) /\ turned bad w0 cur fp d fp' d0) as Direct.
  { intros w d' Hp0 Hbig Ew. destruct (write_directly Line fp d cur w d') as [Ht Hw]; [done..|].
    do 4 eexists. split_and!; try done. intros Hb%Z.leb_gt. lia. }
  assert (_p fp + s <= _size fp -> exists bad w fp' d',
    (fp1 ← COPY fp cur s; Some (false, s, set_p (set_w fp1 (_w fp1 - s)) (_p fp1 + s), d)) = Some (bad, w, fp', d') /\
    loaded Line fp' /\ _w fp' = - _p fp' /\ (bad = true \/ w < n -> NEWLINE ∉ buffered fp') /\ (bad = false -> w <= n) /\
    turned bad w cur fp d fp' d') as Fill.
  { intros Hfit. destruct (fill Line fp d cur s Hl) as (fp' & -> & Hl' & Ew & Ep & Es & Eb & Ht); [lia|lia|].
    do 4 eexists. split_and!; try done; [lia|]. intros [|Hlt]; [done|]. rewrite Eb. apply not_elem_of_app. split; [done|].
    apply to_newline_drop; unfold n in *; lia. }
  destruct (Z.ltb_spec 0 (_p fp)), (Z.ltb_spec (_w fp + _size fp) s); cbn [andb].
  - destruct (fill_and_flush Line fp d cur (_w fp + _size fp) Hl) as (fp1 & r & fp' & d' & -> & E2 & Hw' & Ep & Enil & Ht); [lia..|].
    cbn [mbind option_bind]. rewrite E2. cbn [mbind option_bind]. do 4 eexists. split_and!; try done; [apply Hw'|apply Hw'| |lia].
    intros _. rewrite Enil. apply not_elem_of_nil.
  - rewrite (proj2 (Z.leb_gt _ _)) by lia. apply Fill. lia.
  - destruct (Z.leb_spec (_size fp) s); [|lia]. destruct (_write _ d) as [w d'] eqn:Ew. apply Direct; [lia|done|done].
  - destruct (Z.leb_spec (_size fp) s); [|apply Fill; lia]. destruct (_write _ d) as [w d'] eqn:Ew. apply Direct; [lia|done|done].
Qed.

(** A turn with the flush behind a newline. *)
Lemma line_turn_flush fp d cur : writing Line fp -> cur <> [] -> Z.of_nat (length cur) < 2 ^ 31 - 1 ->
  exists bad w fp1 d1, line_turn fp d cur (to_newline cur) = Some (bad, w, fp1, d1) /\
    if bad then writing Line fp1 /\ turned true w cur fp d fp1 d1
    else exists bad2 fp2 d2 nl, (if to_newline cur - w =? 0 then '(r, fp, d) ← flushed fp1 d1; Some (negb (r =? 0), fp, d, None)
                  else Some (false, fp1, d1, Some (to_newline cur - w))) = Some (bad2, fp2, d2, nl) /\
      writing Line fp2 /\ turned bad2 w cur fp d fp2 d2 /\ (nl = None \/ nl = Some (to_newline (drop (Z.to_nat w) cur))).
Proof.
  intros Hwr Hne Hlen. destruct (line_turn_spec fp d cur Hwr Hne Hlen) as (bad & w & fp1 & d1 & Et & Hl1 & Ew1 & Hnl & Hle & Ht).
  exists bad, w, fp1, d1. split; [done|]. destruct bad; [split; [split; auto|done]|]. specialize (Hle eq_refl).
  pose proof (to_newline_range cur) as Hn. pose proof Ht as (Hw & Hprog & Eout).
  destruct (Z.eqb_spec (to_newline cur - w) 0) as [E0|E0].
  - destruct (flushed_spec Line fp1 d1 Hl1) as (r & fp2 & d2 & -> & Hwr2 & [Ep2 Es2] & Enil & Ho). cbn [mbind option_bind].
    do 4 eexists. split; [done|]. split_and!; try done; [|by left]. rewrite Eout in Ho. destruct Ho as [[-> Ho]|(-> & _ & Ho)]; cbn.
    + split_and!; [lia|lia|left; lia|exact Ho].
    + etrans; [exact Ho|]. apply prefix_app, prefix_app, prefix_take.
  - do 4 eexists. split; [done|]. split_and!; [split; [done|done|intros _; apply Hnl; right; lia]|done|right].
    destruct (to_newline_drop (Z.to_nat w) cur) as [_ ->]; [lia|lia|]. f_equal. lia.
Qed.

Lemma linewise_spec fuel : forall fp d cur iov nl resid, writing Line fp -> small_iov cur iov ->
  (nl = None \/ nl = Some (to_newline cur)) ->
  resid = Z.of_nat (length cur + length (concat iov)) -> 0 < resid ->
  2 * resid + (if 0 <? _p fp then 1 else 0) <= Z.of_nat fuel ->
  exists r fp' d' resid', linewise fuel fp d cur iov nl resid = Some (r, fp', d', resid') /\ writing Line fp' /\
    outcome r (taken d ++ buffered fp ++ cur ++ concat iov) fp' d'.
Proof.
  induction fuel as [|fuel IH]; intros fp d cur iov nl resid Hwr Hsm Hnl -> Hpos Hf; [case_match; lia|]. cbn [linewise].
  destruct (GETIOV_spec iov cur ltac:(lia)) as (cur1 & iov1 & new & -> & Hne & Ec & Hin & Hsub & Hnew). cbn [mbind option_bind].
  destruct (small_next cur iov cur1 iov1 0 Hsm Hin Hsub) as [Hlen _].
  pose proof (to_newline_range cur1) as Hrange.
  assert (match nl with Some n => if new then s32 (to_newline cur1) else n | None => s32 (to_newline cur1) end = to_newline cur1) as ->.
  { assert (s32 (to_newline cur1) = to_newline cur1) as Es by (apply s32_id; unfold is_s32; lia).
    destruct Hnl as [-> | ->]; [done|]. destruct new; [done|by rewrite Hnew]. }
  rewrite <- Ec. apply (f_equal length) in Ec as El. rewrite !length_app in El.
  destruct (line_turn_flush fp d cur1 Hwr Hne Hlen) as (bad & w & fp1 & d1 & -> & Hb). cbn [mbind option_bind].
  assert (forall fp1 d1, writing Line fp1 -> turned true w cur1 fp d fp1 d1 -> exists r fp' d' resid',
    err fp1 d1 (Z.of_nat (length cur + length (concat iov))) = Some (r, fp', d', resid') /\ writing Line fp' /\
    outcome r (taken d ++ buffered fp ++ cur1 ++ concat iov1) fp' d') as Err.
  { intros fp2 d2 Hwr2 Ht2. do 4 eexists. split; [done|]. split; [by apply writing_raise|]. right. split_and!; [done|apply raise_serr|].
    etrans; [exact Ht2|]. apply prefix_app, prefix_app, prefix_app_r. done. }
  destruct bad; [apply Err; apply Hb|]. destruct Hb as (bad2 & fp2 & d2 & nl2 & -> & Hwr2 & Ht2 & Hnl2). cbn [mbind option_bind].
  destruct bad2; [by apply Err|]. pose proof Ht2 as (Hw & Hprog & Eout).
  destruct (Z.eqb_spec (Z.of_nat (length cur + length (concat iov)) - w) 0) as [E0|E0].
  - do 4 eexists. split; [done|]. split; [done|]. left. split; [done|]. rewrite Eout.
    assert (concat iov1 = []) as -> by (apply nil_length_inv; lia). rewrite app_nil_r, take_ge by lia. done.
  - destruct (IH fp2 d2 (drop (Z.to_nat w) cur1) iov1 nl2 (Z.of_nat (length cur + length (concat iov)) - w)) as (r & fp' & d' & resid' & -> & Hwr' & Ho);
      [done|by apply (small_next cur iov)|done|rewrite length_drop; lia|lia| |].
    + destruct (Z.ltb_spec 0 (_p fp)), (Z.ltb_spec 0 (_p fp2)); lia.
    + do 4 eexists. split; [done|]. split; [done|]. by eapply turn_rest.
Qed.

Lemma loaded_cantwrite md fp : loaded md fp -> cantwrite E fp = (false, fp).
Proof. intros [Hw _ (m & Em & _) _ _ _]. unfold cantwrite. by rewrite Hw, Em. Qed.

(** C5. For each kind of buffering, __sfvwrite ends, stays in its buffer and in its
    iovecs, and what has been written and what is in the buffer are together the
    bytes from before and those of the iovecs, in order; a line buffered stream keeps
    no newline.  After an error the stream has written no more than a beginning of
    them and says so. *)
Theorem sfvwrite_takes md fp d iov resid :
  writing md fp -> Forall (fun v => Z.of_nat (length v) < 2 ^ 31 - 1) iov -> resid = Z.of_nat (length (concat iov)) ->
  exists r fp' d' resid', __sfvwrite E fp d iov resid = Some (r, fp', d', resid') /\ writing md fp' /\
    outcome r (taken d ++ buffered fp ++ concat iov) fp' d'.
Proof.
  intros Hwr Hsm ->. unfold __sfvwrite. destruct (Z.eqb_spec (Z.of_nat (length (concat iov))) 0) as [E0|E0].
  { do 4 eexists. split; [done|]. split; [done|]. left. split; [done|].
    assert (concat iov = []) as -> by (apply nil_length_inv; lia). by rewrite app_nil_r. }
  rewrite (loaded_cantwrite md fp (wr_loaded _ _ Hwr)). destruct iov as [|cur iov]; [done|]. cbn [concat] in *. rewrite length_app in *.
  pose proof (ld_mode _ _ (wr_loaded _ _ Hwr)) as Hmd. destruct md; destruct Hmd as (-> & Hlb & _); rewrite ?Hlb; cbn [negb].
  - apply fully_spec; [done|done|done|lia|case_match; lia].
  - apply linewise_spec; [done|done|by left|done|lia|case_match; lia].
  - apply unbuffered_spec; [done|done|lia|lia].
Qed.

Lemma put_one md fp c : loaded md fp -> _p fp < _size fp ->
  exists fp1, COPY fp [c] 1 = Some fp1 /\
    let fp2 := set_p fp1 (_p fp1 + 1) in
    loaded md fp2 /\ _w fp2 = _w fp /\ _p fp2 = _p fp + 1 /\ _size fp2 = _size fp /\ buffered fp2 = buffered fp ++ [c].
Proof.
  intros Hl Hp. destruct (COPY_spec md fp [c] 1 Hl) as (fp1 & -> & Ep & Ew & Es & H1); [cbn; lia|lia|].
  exists fp1. split; [done|]. destruct (H1 (_w fp1)) as [Hl2 Hb2]. rewrite Ep.
  assert (set_p (set_w fp1 (_w fp1)) (_p fp + 1) = set_p fp1 (_p fp + 1)) as E1 by (by destruct fp1).
  rewrite E1 in *. by split_and!.
Qed.

(** [set_w] before a call. *)
Lemma loaded_set_w md fp w : loaded md fp -> loaded md (set_w fp w).
Proof. intros Hl. apply (loaded_same md fp); try done; apply Hl. Qed.

(** The second half of __swbuf: the character and the flush behind it. *)
Lemma swbuf_put md c all fp2 d2 : loaded md fp2 -> _p fp2 < _size fp2 -> taken d2 ++ buffered fp2 = all ->
  ((_p fp2 = 0 /\ writing md fp2 /\ buffered fp2 = []) \/ (md = Line /\ c = NEWLINE) \/ (md = Unbuffered /\ _p fp2 = 0)) ->
  exists r fp' d', (let fp := set_w fp2 (_w fp2 - 1) in
      fp ← COPY fp [c] 1;
      let fp := set_p fp (_p fp + 1) in
      if (_p fp2 + 1 =? _size fp) || (flag fp __SLBF && (c =? NEWLINE)) then
        '(r, fp, d) ← flushed fp d2; Some (if r =? 0 then c else EOF, fp, d)
      else Some (c, fp, d2)) = Some (r, fp', d') /\ writing md fp' /\
    ((r = c /\ taken d' ++ buffered fp' = all ++ [c]) \/
     (r = EOF /\ flag fp' __SERR = true /\ taken d' `prefix_of` all ++ [c])).
Proof.
  intros Hl2 Hp2 Eall Hwhy2. cbv zeta.
  destruct (put_one md (set_w fp2 (_w fp2 - 1)) (c)) as (fp3 & -> & Hl3 & Ew3 & Ep3 & Es3 & Eb3); [by apply loaded_set_w|done|].
  cbn [mbind option_bind]. rewrite Es3. cbn [_p _w _size set_w] in Ew3, Ep3. change (_size (set_w fp2 (_w fp2 - 1))) with (_size fp2).
  change (buffered (set_w fp2 (_w fp2 - 1))) with (buffered fp2) in Eb3.
  destruct ((_p fp2 + 1 =? _size fp2) || (flag (set_p fp3 (_p fp3 + 1)) __SLBF && (c =? NEWLINE))) eqn:Ecase.
  - destruct (flushed_spec md _ d2 Hl3) as (r & fp' & d' & -> & Hwr & _ & Hnil & Ho). cbn [mbind option_bind].
    do 3 eexists. split; [done|]. split; [done|]. rewrite Eb3, app_assoc, Eall in Ho.
    destruct Ho as [[-> Ho]|(-> & Hf & Ho)]; [by left|by right].
  - apply orb_false_iff in Ecase as [Ec1%Z.eqb_neq Ec2]. do 3 eexists. split; [done|].
    rewrite Eb3, app_assoc, Eall. split; [|by left]. pose proof (ld_mode _ _ Hl3) as Hm3. pose proof (ld_mode _ _ Hl2) as Hm2.
    destruct Hwhy2 as [(E0 & Hwr2 & Enil)|[[-> Ec]|[-> E0]]].
    + split; [done| |].
      * pose proof (wr_room _ _ Hwr2) as Hr. destruct md; cbn in *; [lia|lia|]. destruct Hm2 as (_ & _ & _ & ?). lia.
      * intros ->. rewrite Eb3, Enil. destruct Hm3 as (_ & Hlb & _). rewrite Hlb in Ec2. apply Z.eqb_neq in Ec2.
        by intros ?%list_elem_of_singleton.
    + destruct Hm3 as (_ & Hlb & _). by rewrite Hlb, Ec in Ec2.
    + destruct Hm2 as (_ & _ & _ & ?). lia.
Qed.

(** __swbuf on a stream that is full, or for a character that is flushed at once. *)
Lemma swbuf_takes md fp d c : loaded md fp -> (md = Line -> NEWLINE ∉ buffered fp) ->
  (_p fp = _size fp \/ (md = Line /\ u8 c = NEWLINE) \/ (md = Unbuffered /\ _p fp = 0)) ->
  exists r fp' d', __swbuf E c fp d = Some (r, fp', d') /\ writing md fp' /\
    ((r = u8 c /\ taken d' ++ buffered fp' = taken d ++ buffered fp ++ [u8 c]) \/
     (r = EOF /\ flag fp' __SERR = true /\ taken d' `prefix_of` taken d ++ buffered fp ++ [u8 c])).
Proof.
  intros Hl Hnl Hwhy. unfold __swbuf. set (fp0 := if flag fp _ then fp else _).
  assert (loaded md fp0 /\ buffered fp0 = buffered fp /\ _p fp0 = _p fp /\ _size fp0 = _size fp) as (Hl0 & Eb0 & Ep0 & Es0)
    by (unfold fp0; case_match; split_and!; try done; apply loaded_raise; [auto|done]).
  set (fp1 := set_w fp0 (_lbfsize fp0)). assert (loaded md fp1) as Hl1 by (by apply loaded_set_w).
  rewrite (loaded_cantwrite md fp1 Hl1). pose proof (ld_size _ _ Hl) as Hs. pose proof (ld_p _ _ Hl) as Hp.
  change (_p fp1) with (_p fp0). change (_size fp1) with (_size fp0). rewrite Ep0, Es0.
  pose proof (swbuf_put md (u8 c) (taken d ++ buffered fp)) as Put. setoid_rewrite <- app_assoc in Put.
  destruct (Z.leb_spec (_size fp) (_p fp)) as [Hfull|Hroom].
  - destruct (flushed_spec md fp1 d Hl1) as (r & fp2 & d2 & -> & Hwr2 & [Ep2 _] & Enil & Ho). cbn [mbind option_bind].
    change (buffered fp1) with (buffered fp0) in Ho. rewrite Eb0 in Ho. destruct Ho as [[-> Ho]|(-> & Hf & Ho)]; cbn [negb Z.eqb].
    + pose proof (Put fp2 d2) as P. rewrite Ep2 in P. apply P; try done; [apply Hwr2| |by left].
      destruct (wr_loaded _ _ Hwr2) as [_ _ _ [? _] _ _]. lia.
    + do 3 eexists. split; [done|]. split; [done|]. right. split_and!; try done. etrans; [exact Ho|].
      apply prefix_app, prefix_app_r. done.
  - cbn [mbind option_bind]. pose proof (Put fp1 d) as P. change (_p fp1) with (_p fp0) in P. change (_size fp1) with (_size fp0) in P.
    rewrite Ep0, Es0 in P. change (buffered fp1) with (buffered fp0) in P. rewrite Eb0 in P. apply P; try done.
    right. destruct Hwhy as [?|?]; [lia|done].
Qed.

(** putc stores or writes the character: the bytes that were written and those in
    the buffer are together what they were and the character behind it; or the stream
    has written a beginning of them and says so.  A character never goes past the
    end of the buffer. *)
Theorem sputc_takes md fp d c :
  writing md fp ->
  exists r fp' d', __sputc E c fp d = Some (r, fp', d') /\ writing md fp' /\
    ((r = u8 c /\ taken d' ++ buffered fp' = taken d ++ buffered fp ++ [u8 c]) \/
     (r = EOF /\ flag fp' __SERR = true /\ taken d' `prefix_of` taken d ++ buffered fp ++ [u8 c])).
Proof.
  intros [Hl Hroom Hnl]. unfold __sputc. set (fp1 := set_w fp (_w fp - 1)).
  assert (loaded md fp1) as Hl1 by (by apply loaded_set_w). pose proof (ld_mode _ _ Hl) as Hm. pose proof (ld_p _ _ Hl) as Hp.
  change (_w fp1) with (_w fp - 1). change (_lbfsize fp1) with (_lbfsize fp).
  assert (_lbfsize fp = match md with Line => - _size fp | _ => 0 end) as Hlb by (destruct md; tauto).
  destruct ((0 <=? _w fp - 1) || ((_lbfsize fp <=? _w fp - 1) && negb (u8 c =? NEWLINE))) eqn:Ecase.
  - assert (_p fp < _size fp /\ md <> Unbuffered /\ (md = Line -> u8 c <> NEWLINE)) as (Hfit & Hmd & Hc).
    { apply orb_true_iff in Ecase as [E1%Z.leb_le|[E1%Z.leb_le E2%negb_true_iff]%andb_true_iff]; destruct md; cbn in Hroom; try apply Z.eqb_neq in E2; split_and!; try done; try lia. }
    destruct (put_one md fp1 (u8 c)) as (fp2 & -> & Hl2 & Ew2 & Ep2 & Es2 & Eb2); [done|done|]. cbn [mbind option_bind].
    change (_p fp1) with (_p fp) in Ep2. change (_size fp1) with (_size fp) in Es2. change (_w fp1) with (_w fp - 1) in Ew2.
    change (buffered fp1) with (buffered fp) in Eb2.
    do 3 eexists. split; [done|]. split; [split; [done| |]|left; by rewrite Eb2].
    + destruct md; cbn in *; [lia|lia|done].
    + intros ->. rewrite Eb2. apply not_elem_of_app. split; [by apply Hnl|]. intros ?%list_elem_of_singleton. by destruct Hc.
  - apply (swbuf_takes md fp1); [done|done|]. change (_p fp1) with (_p fp). change (_size fp1) with (_size fp).
    apply orb_false_iff in Ecase as [E1%Z.leb_gt E2%andb_false_iff]. destruct md; cbn in Hroom.
    + left. lia.
    + destruct E2 as [E2%Z.leb_gt|E2%negb_false_iff%Z.eqb_eq]; [left; lia|by right; left].
    + right; right. split; [done|apply Hroom].
Qed.

(** ** Streams on a string *)

Record on_string fp : Prop := {
  os_flags : flag fp __SWR = true /\ flag fp __SSTR = true /\ flag fp __SNBF = false /\ flag fp __SLBF = false;
  os_room : 0 <= _p fp /\ 0 <= _w fp < 2 ^ 31 /\ exists m, _bf fp = Some m /\ _p fp + _w fp <= Z.of_nat (length m)
}.

Lemma string_turn fp d cur : on_string fp -> Z.of_nat (length cur) < 2 ^ 31 ->
  exists fp', fully_turn fp d cur = Some (false, Z.of_nat (length cur), fp', d) /\ on_string fp' /\
    _w fp' = Z.max 0 (_w fp - Z.of_nat (length cur)) /\ buffered fp' = buffered fp ++ take (Z.to_nat (_w fp)) cur.
Proof.
  intros [(F1 & F2 & F3 & F4) (Hp & Hw & m & Em & Hm)] Hlen. unfold fully_turn. rewrite F2.
  rewrite u32_id by (unfold is_u32; lia). rewrite s32_id by (unfold is_s32; lia).
  set (w := if Z.of_nat (length cur) <? _w fp then Z.of_nat (length cur) else _w fp).
  assert (0 <= w <= _w fp /\ w <= Z.of_nat (length cur) /\ (w = Z.of_nat (length cur) \/ w = _w fp)) as (Hw1 & Hw2 & Hw3)
    by (unfold w; destruct (Z.ltb_spec (Z.of_nat (length cur)) (_w fp)); lia).
  unfold COPY. rewrite (proj2 (Z.ltb_ge w 0)) by lia. rewrite Em. cbn [mbind option_bind]. unfold put_bytes. rewrite length_take.
  rewrite !(proj2 (Z.leb_le _ _)) by lia. cbn [andb mbind option_bind]. eexists. split; [done|].
  assert (length (take (Z.to_nat w) cur) = Z.to_nat w) as El by (rewrite length_take; lia).
  split; [split; [done|]|split].
  - cbn. split_and!; [lia|lia|lia|]. eexists. split; [done|]. rewrite !length_app, length_take, length_drop. lia.
  - cbn. lia.
  - unfold buffered. rewrite Em. cbn. rewrite app_assoc, take_app_le by (rewrite length_app, length_take; lia).
    rewrite take_ge by (rewrite length_app, length_take; lia). f_equal. destruct Hw3 as [->| ->]; [|done].
    by rewrite !take_ge by lia.
Qed.

(** Output to a string (snprintf) never leaves it: what fits is stored, the rest
    is dropped, and __sfvwrite says that it wrote everything, without a call of
    _write. *)
Theorem sfvwrite_string fp d iov resid :
  on_string fp -> Forall (fun v => Z.of_nat (length v) < 2 ^ 31 - 1) iov -> resid = Z.of_nat (length (concat iov)) -> 0 < resid ->
  exists fp', __sfvwrite E fp d iov resid = Some (0, fp', d, 0) /\ on_string fp' /\
    buffered fp' = buffered fp ++ take (Z.to_nat (_w fp)) (concat iov).
Proof.
  intros Hs Hsm Hr Hpos. unfold __sfvwrite. rewrite (proj2 (Z.eqb_neq _ _)) by lia.
  pose proof Hs as [(F1 & F2 & F3 & F4) (_ & _ & m & Em & _)]. unfold cantwrite. rewrite F1, Em. cbn [negb orb bool_decide].
  rewrite bool_decide_eq_false_2 by done. destruct iov as [|cur iov]; [cbn in Hr; lia|]. rewrite F3, F4. cbn [negb concat] in *.
  rewrite length_app in Hr. clear F1 F2 F3 F4 m Em.
  assert (resid <= Z.of_nat (S (S (2 * Z.to_nat resid)))) as Hf by lia. revert Hf. generalize (S (S (2 * Z.to_nat resid))) as fuel.
  intros fuel. revert fp cur iov resid Hs Hsm Hr Hpos. induction fuel as [|fuel IH]; intros fp cur iov resid Hs Hsm -> Hpos Hf; [lia|].
  cbn [fully]. destruct (GETIOV_spec iov cur ltac:(lia)) as (cur1 & iov1 & new & -> & Hne & Ec & Hin & Hsub & _). cbn [mbind option_bind].
  destruct (small_next cur iov cur1 iov1 (length cur1) Hsm Hin Hsub) as [Hlen Hsm1].
  destruct (string_turn fp d cur1 Hs) as (fp1 & -> & Hs1 & Ew1 & Eb1); [lia|]. cbn [mbind option_bind].
  rewrite <- Ec. apply (f_equal length) in Ec as El. rewrite !length_app in El.
  assert (0 < Z.of_nat (length cur1)) by (destruct cur1; [done|cbn; lia]).
  destruct (Z.eqb_spec (Z.of_nat (length cur + length (concat iov)) - Z.of_nat (length cur1)) 0) as [E0|E0].
  - exists fp1. rewrite E0. split; [done|]. split; [done|]. assert (concat iov1 = []) as -> by (apply nil_length_inv; lia).
    by rewrite app_nil_r.
  - rewrite Nat2Z.id, drop_all in *.
    destruct (IH fp1 [] iov1 (Z.of_nat (length cur + length (concat iov)) - Z.of_nat (length cur1))) as (fp' & -> & Hs' & Eb');
      [done|done|cbn; lia|lia|lia|].
    exists fp'. split; [done|]. split; [done|]. rewrite Eb', Eb1, <- app_assoc, app_nil_l. f_equal.
    rewrite take_app, Ew1. f_equal. f_equal. lia.
Qed.

(** ** The first output *)

(** What malloc and fstat promise. *)
Record honest_env : Prop := {
  he_malloc n m : malloc E n = Some m -> Z.of_nat (length m) = n;
  he_blksize c r b : fstat E = Some (c, r, b) -> b < 2 ^ 31
}.

Lemma swhatbuf_size : honest_env ->
  0 < (__swhatbuf E).1.2 < 2 ^ 31 /\ ((__swhatbuf E).1.1 = __SNPT \/ (__swhatbuf E).1.1 = __SOPT).
Proof.
  intros [_ Hb]. unfold __swhatbuf, BUFSIZ. destruct (fstat E) as [[[c r] b]|]; [|cbn; by split; [lia|left]].
  specialize (Hb c r b eq_refl). destruct (Z.leb_spec b 0); cbn; (split; [lia|]); [by left|]. destruct (r && seeks E); auto.
Qed.

Lemma fresh_writing md fp m : _bf fp = Some m -> Z.of_nat (length m) = _size fp -> 0 < _size fp < 2 ^ 31 -> _p fp = 0 ->
  flag fp __SWR = true -> flag fp __SSTR = false ->
  match md with
  | Full => flag fp __SNBF = false /\ flag fp __SLBF = false /\ _lbfsize fp = 0 /\ _w fp = _size fp
  | Line => flag fp __SNBF = false /\ flag fp __SLBF = true /\ _lbfsize fp = - _size fp /\ _w fp = 0
  | Unbuffered => flag fp __SNBF = true /\ flag fp __SLBF = false /\ _lbfsize fp = 0 /\ _w fp = 0 /\ _size fp = 1
  end -> writing md fp /\ buffered fp = [].
Proof.
  intros Hbf Hl Hs Hp Hw Hst Hmd. assert (buffered fp = []) as Eb by (unfold buffered; by rewrite Hp).
  split; [|done]. split; [split; try done| |].
  - by exists m.
  - lia.
  - destruct md; tauto.
  - destruct md; cbn; [lia|lia|tauto].
  - intros _. rewrite Eb. apply not_elem_of_nil.
Qed.

(** A stream without a buffer gets one. *)
Lemma first_output fp : honest_env -> _bf fp = None -> flag fp __SWR || flag fp __SRW = true -> flag fp __SSTR = false ->
  flag fp __SLBF = false -> _lbfsize fp = 0 -> _p fp = 0 -> length (_nbuf fp) = 1%nat ->
  exists md fp', cantwrite E fp = (false, fp') /\ writing md fp' /\ buffered fp' = [].
Proof.
  intros He Hbf Hwr Hstr Hlb Hlbs Hp Hnb. unfold cantwrite. rewrite Hbf, orb_true_r. unfold __swsetup.
  set (fp1 := if flag fp __SRD then set_p _ 0 else fp).
  assert (exists fp0, (if flag fp __SWR then Some fp else if negb (flag fp __SRW) then None else Some (raise fp1 __SWR)) = Some fp0 /\
    _bf fp0 = None /\ flag fp0 __SWR = true /\ flag fp0 __SSTR = false /\ flag fp0 __SLBF = false /\ _lbfsize fp0 = 0 /\ _p fp0 = 0 /\
    length (_nbuf fp0) = 1%nat) as (fp0 & -> & Hbf0 & Hwr0 & Hstr0 & Hlb0 & Hlbs0 & Hp0 & Hnb0).
  { destruct (flag fp __SWR) eqn:Ew; [by exists fp; split_and!|]. destruct (flag fp __SRW); [|done]. cbn [negb].
    eexists. split; [done|]. unfold fp1, flag, raise, lower in *. destruct (has (_flags fp) __SRD); [destruct (HASUB fp)|];
      cbn; rewrite !has_lor, ?has_ldiff by done; rewrite ?orb_false_r, ?orb_true_r; split_and!; try done. }
  clear fp1. rewrite Hbf0. cbv zeta. unfold __smakebuf. destruct (flag fp0 __SNBF) eqn:Enb.
  { cbn [set_bf set_p _flags flag]. change (flag (set_bf (set_p fp0 0) (Some (_nbuf fp0)) 1)) with (flag fp0). rewrite Hlb0, Enb.
    exists Unbuffered. eexists. split; [done|]. by apply (fresh_writing _ _ (_nbuf fp0)); cbn; rewrite ?Hnb0. }
  pose proof (swhatbuf_size He) as [Hsz Hfl]. destruct (__swhatbuf E) as [[fl size] tty]. cbn [fst snd] in *.
  destruct (malloc E size) as [m|] eqn:Em.
  - pose proof (he_malloc He _ _ Em) as Hm. cbn [flag raise set_flags set_bf set_p _flags _size].
    set (fl2 := if tty && isatty E then _ else _).
    assert (has fl2 __SWR = false /\ has fl2 __SSTR = false /\ has fl2 __SNBF = false) as (Hf1 & Hf2 & Hf3)
      by (unfold fl2; destruct Hfl as [-> | ->], (tty && isatty E); done).
    unfold flag in *. cbn [raise set_flags set_bf set_p _flags _size]. rewrite !has_lor, Hlb0, Enb, Hf3. cbn [orb].
    destruct (has fl2 __SLBF) eqn:Hlb2.
    + exists Line. eexists. split; [done|]. apply (fresh_writing _ _ m); unfold flag; cbn;
        rewrite ?has_lor, ?Hwr0, ?Hf1, ?Hf2, ?Hf3, ?Hstr0, ?Enb, ?Hlb0, ?Hlb2; try done; try lia; split_and!; try done; lia.
    + exists Full. eexists. split; [done|]. apply (fresh_writing _ _ m); unfold flag; cbn;
        rewrite ?has_lor, ?Hwr0, ?Hf1, ?Hf2, ?Hf3, ?Hstr0, ?Enb, ?Hlb0, ?Hlb2; try done; try lia; split_and!; try done; lia.
  - unfold flag in *. cbn [raise set_flags set_bf set_p _flags _size]. rewrite !has_lor, Hlb0, Enb. cbn [orb].
    exists Unbuffered. eexists. split; [done|]. apply (fresh_writing _ _ (_nbuf fp0)); unfold flag; cbn;
        rewrite ?has_lor, ?Hnb0, ?Hwr0, ?Hstr0, ?Enb, ?Hlb0; try done; try lia; split_and!; try done; lia.
Qed.
End Output.

(** ** A stream whose calls are limited *)

(** Each call takes the next limit: at most that many bytes, an error if it is not
    positive. *)
Record console := mk_console { input : list Z; output : list Z; limits : list Z }.

Definition next_limit (d : console) (n : Z) : Z * console :=
  match limits d with
  | [] => (n, d)
  | q :: qs => (if q <=? 0 then -1 else Z.min q n, mk_console (input d) (output d) qs)
  end.

#[export] Instance console_ops : StreamOps console := {
  _read n d :=
    let '(q, d) := next_limit d (Z.min n (Z.of_nat (length (input d)))) in
    (q, take (Z.to_nat q) (input d), mk_console (drop (Z.to_nat q) (input d)) (output d) (limits d));
  _write bs d :=
    let '(q, d) := next_limit d (Z.of_nat (length bs)) in
    (q, mk_console (input d) (output d ++ take (Z.to_nat q) bs) (limits d))
}.

#[export] Instance console_write : WriteLaws console.
Proof.
  refine {| taken := output |}. intros bs d r d' _ E. cbn in E. unfold next_limit in E.
  destruct (limits d) as [|q qs]; [|destruct (Z.leb_spec q 0)]; injection E as <- <-; cbn; (split; [lia|done]).
Defined.

Definition quiet_env : env := mk_env None (fun n => if 0 <=? n then Some (replicate (Z.to_nat n) 0) else None) false true.

(** A stream with a buffer of 4 bytes that holds "ab". *)
Definition small_stream (f : Z) : FILE :=
  mk_file 2 0 (if has f __SLBF then -2 else 2) (Z.lor __SWR f) (Some [97; 98; 0; 0]) 4 (if has f __SLBF then -4 else 0) None 0 0 [0; 0; 0] [0] [].

Lemma small_line : writing Line (small_stream __SLBF).
Proof.
  split; [split; try done; by exists [97; 98; 0; 0]|done|]. intros _. unfold buffered. cbn. by intros [?|[?|?%elem_of_nil]%elem_of_cons]%elem_of_cons.
Qed.

(** "c\nde" in two parts, and only three bytes in the first write. *)
Lemma sfvwrite_takes_witness :
  exists r fp' d' resid', __sfvwrite quiet_env (small_stream __SLBF) (mk_console [] [] [3]) [[99]; [10; 100; 101]] 4 = Some (r, fp', d', resid') /\
    writing Line fp' /\ outcome r [97; 98; 99; 10; 100; 101] fp' d'.
Proof.
  destruct (sfvwrite_takes quiet_env Line (small_stream __SLBF) (mk_console [] [] [3]) [[99]; [10; 100; 101]] 4)
    as (r & fp' & d' & resid' & E & H); [exact small_line|by repeat constructor|done|]. exists r, fp', d', resid'. exact (conj E H).
Defined.

Example sfvwrite_lines :
  match __sfvwrite quiet_env (small_stream __SLBF) (mk_console [] [] [3]) [[99]; [10; 100; 101]] 4 with
  | Some (r, fp, d, _) => r = 0 /\ output d = [97; 98; 99; 10] /\ buffered fp = [100; 101]
  | None => False
  end.
Proof. by vm_compute. Qed.

Lemma sputc_takes_witness :
  exists r fp' d', __sputc quiet_env 10 (small_stream __SLBF) (mk_console [] [] []) = Some (r, fp', d') /\ writing Line fp'.
Proof.
  destruct (sputc_takes quiet_env Line (small_stream __SLBF) (mk_console [] [] []) 10) as (r & fp' & d' & E & H & _);
    [exact small_line|]. by exists r, fp', d'.
Defined.

Lemma sfvwrite_string_witness :
  exists fp', __sfvwrite quiet_env (small_stream __SSTR) (mk_console [] [] []) [[99]; [100; 101; 102]] 4 = Some (0, fp', mk_console [] [] [], 0) /\
    buffered fp' = [97; 98; 99; 100].
Proof.
  destruct (sfvwrite_string quiet_env (small_stream __SSTR) (mk_console [] [] []) [[99]; [100; 101; 102]] 4) as (fp' & E & _ & Eb);
    [|by repeat constructor|done|done|by exists fp'].
  split; [done|]. split_and!; try done. by exists [97; 98; 0; 0].
Defined.

(** 65536 elements of 65536 bytes: nothing is written, and all are reported. *)
Example fwrite_wraps d : fwrite quiet_env (replicate 10 7) 0x10000 0x10000 (small_stream 0) d = Some (0x10000, small_stream 0, d).
Proof. reflexivity. Qed.

(** A flush that fails drops what it could not write. *)
Example flush_loses :
  match flushed (small_stream 0) (mk_console [] [] [1; -1]) with
  | Some (r, fp, d) => r = EOF /\ output d = [97] /\ buffered fp = []
  | None => False
  end.
Proof. by vm_compute. Qed.
