(* ===== verification/StdioRead.v ===== *)
(** * Standard I/O: input

    Models the input half of stdio/: refill.c, rget.c, ungetc.c, fread.c and fgets.c, and
    the macro getc, on the FILE of Stdio.  A stream without ungetc data has its
    position in the buffer [_bf]; a stream with ungetc data has it in [_ub], and [_up]
    and [_ur] keep the place in [_bf].  The reserve _ubuf is the [_ub] of three bytes.
    What _fwalk (lflush) does to the other streams is an argument. *)

From S2P Require Import Prelude Stdio.

Module Read.
Import Stdio.Stdio.

(** The buffer that [_p] points into. *)
Definition active (fp : FILE) : list Z :=
  match _ub fp with Some m => m | None => default [] (_bf fp) end.

(** memcpy of [n] bytes from the position of the stream. *)
Definition from_p (fp : FILE) (n : Z) : option (list Z) :=
  if (0 <=? _p fp) && (0 <=? n) && (_p fp + n <=? Z.of_nat (length (active fp)))
  then Some (take (Z.to_nat n) (drop (Z.to_nat (_p fp)) (active fp))) else None.

(** [_p += n] and [_r -= n]. *)
Definition advance (fp : FILE) (n : Z) : FILE := set_p (set_r fp (_r fp - n)) (_p fp + n).

Section Stream.
Context {D : Type} `{StreamOps D} (E : env) (lflush_all : D -> D).

(** Out of writing: [None] when the flush fails. *)
Definition stop_writing (fp : FILE) (d : D) : option (bool * FILE * D) :=
  if flag fp __SWR then
    '(r, fp, d) ← __sflush fp d;
    if negb (r =? 0) then Some (false, fp, d)
    else Some (true, set_lbfsize (set_w (lower fp __SWR) 0) 0, d)
  else Some (true, fp, d).

(** The result, errno where it is set. *)
Definition fill_buffer (fp : FILE) (d : D) : option (Z * option Z * FILE * D) :=
  let fp := match _bf fp with None => __smakebuf E fp | Some _ => fp end in
  let d := if flag fp (Z.lor __SLBF __SNBF) then lflush_all d else d in
  let fp := set_p fp 0 in
  let '(r, bs, d) := _read (_size fp) d in
  m ← _bf fp;
  m ← put_bytes m 0 bs;
  let fp := lower (set_r (set_bf fp (Some m) (_size fp)) r) __SMOD in
  if r <=? 0 then
    if r =? 0 then Some (EOF, None, raise fp __SEOF, d) else Some (EOF, None, raise (set_r fp 0) __SERR, d)
  else Some (0, None, fp, d).

Definition __srefill (fp : FILE) (d : D) : option (Z * option Z * FILE * D) :=
  let fp := set_r fp 0 in
  if flag fp __SEOF then Some (EOF, None, fp, d)
  else if negb (flag fp __SRD) then
    if negb (flag fp __SRW) then Some (EOF, Some EBADF, fp, d)
    else
      '(ok, fp, d) ← stop_writing fp d;
      if negb ok then Some (EOF, None, fp, d) else fill_buffer (raise fp __SRD) d
  else if HASUB fp then
    let fp := set_r (FREEUB fp) (_ur fp) in
    if negb (_r fp =? 0) then Some (0, None, set_p fp (_up fp), d) else fill_buffer fp d
  else fill_buffer fp d.

Definition __srget (fp : FILE) (d : D) : option (Z * FILE * D) :=
  let fp := if flag fp (Z.lor __SWCH __SCHR) then fp else raise fp __SCHR in
  '(r, _, fp, d) ← __srefill fp d;
  if r =? 0 then c ← aget (active fp) (_p fp); Some (c, advance fp 1, d) else Some (EOF, fp, d).

(** The macro getc. *)
Definition __sgetc (fp : FILE) (d : D) : option (Z * FILE * D) :=
  let fp := set_r fp (_r fp - 1) in
  if _r fp <? 0 then __srget fp d
  else c ← aget (active fp) (_p fp); Some (c, set_p fp (_p fp + 1), d).

(** Whether there is room. *)
Definition __submore (fp : FILE) : option (bool * FILE) :=
  m ← _ub fp;
  if Z.of_nat (length m) =? 3 then
    match malloc E BUFSIZ with
    | None => Some (false, fp)
    | Some p =>
      p ← put_bytes p (BUFSIZ - 3) m;
      Some (true, set_p (set_ub fp (Some p)) (BUFSIZ - 3))
    end
  else
    match malloc E (Z.of_nat (length m) * 2) with
    | None => Some (false, fp)
    | Some _ => Some (true, set_p (set_ub fp (Some (m ++ m))) (Z.of_nat (length m)))
    end.

Definition ungetc (c : Z) (fp : FILE) (d : D) : option (Z * FILE * D) :=
  if c =? EOF then Some (EOF, fp, d)
  else
    '(ok, fp, d) ←
      (if flag fp __SRD then Some (true, fp, d)
       else if negb (flag fp __SRW) then Some (false, fp, d)
       else '(ok, fp, d) ← stop_writing fp d; Some (ok, if (ok : bool) then raise fp __SRD else fp, d));
    if negb ok then Some (EOF, fp, d)
    else
      let c := u8 c in
      match _ub fp with
      | Some m =>
        '(ok, fp) ← (if Z.of_nat (length m) <=? _r fp then __submore fp else Some (true, fp));
        if negb ok then Some (EOF, fp, d)
        else
          m ← _ub fp;
          m ← put_bytes m (_p fp - 1) [c];
          Some (c, set_p (set_r (set_ub fp (Some m)) (_r fp + 1)) (_p fp - 1), d)
      | None =>
        let fp := lower fp __SEOF in
        if bool_decide (is_Some (_bf fp)) && (0 <? _p fp) && bool_decide (aget (default [] (_bf fp)) (_p fp - 1) = Some c) then
          Some (c, set_p (set_r fp (_r fp + 1)) (_p fp - 1), d)
        else
          let fp := save_u fp in
          Some (c, set_r (set_p (set_ub fp (Some (aput (_ubuf fp) 2 c))) 2) 1, d)
      end.

(** [while (resid > (r = fp->_r))]: [got] is what is at buf so far. *)
Fixpoint read_loop (fuel : nat) (got : list Z) (resid : Z) (fp : FILE) (d : D) : option (bool * list Z * Z * FILE * D) :=
  if _r fp <? resid then
    match fuel with
    | O => None
    | S fuel =>
      bs ← from_p fp (_r fp);
      let resid := resid - _r fp in
      '(r, _, fp, d) ← __srefill (set_p fp (_p fp + _r fp)) d;
      if negb (r =? 0) then Some (false, got ++ bs, resid, fp, d) else read_loop fuel (got ++ bs) resid fp d
    end
  else
    bs ← from_p fp resid;
    Some (true, got ++ bs, 0, advance fp resid, d).

(** The result and what was stored at buf. *)
Definition fread (size count : Z) (fp : FILE) (d : D) : option (Z * list Z * FILE * D) :=
  let resid := u32 (count * size) in
  if resid =? 0 then Some (0, [], fp, d)
  else
    let fp := if _r fp <? 0 then set_r fp 0 else fp in
    '(full, got, rest, fp, d) ← read_loop (S (S (Z.to_nat resid))) [] resid fp d;
    Some (if (full : bool) then count else (resid - rest) / size, got, fp, d).

(** The bytes up to the first newline, with it. *)
Fixpoint memchr_nl (bs : list Z) : option (list Z) :=
  match bs with
  | [] => None
  | c :: bs => if c =? NEWLINE then Some [c] else cons c <$> memchr_nl bs
  end.

(** [s] is what is in buf; the result [None] is NULL. *)
Fixpoint gets_loop (fuel : nat) (s : list Z) (n : Z) (fp : FILE) (d : D) : option (option (list Z) * FILE * D) :=
  if n =? 0 then Some (Some s, fp, d)
  else
    match fuel with
    | O => None
    | S fuel =>
      '(r, fp, d) ← (if _r fp =? 0 then '(r, _, fp, d) ← __srefill fp d; Some (r, fp, d) else Some (0, fp, d));
      if negb (r =? 0) then Some (match s with [] => None | _ :: _ => Some s end, fp, d)
      else
        let len := if n <? u32 (_r fp) then n else u32 (_r fp) in
        bs ← from_p fp len;
        match memchr_nl bs with
        | Some line => Some (Some (s ++ line), advance fp (Z.of_nat (length line)), d)
        | None => gets_loop fuel (s ++ bs) (n - len) (advance fp len) d
        end
    end.

Definition fgets (n : Z) (fp : FILE) (d : D) : option (option (list Z) * FILE * D) :=
  if n <=? 0 then Some (None, fp, d) else gets_loop (S (Z.to_nat n)) [] (n - 1) fp d.
End Stream.

End Read.

Import Stdio.Stdio Read.

(** ** The interface of _read *)

(** What a stream has not given yet. *)
Class ReadLaws (D : Type) `{StreamOps D} := {
  unread : D -> list Z;
  read_gives n d r bs d' : 0 < n -> _read n d = (r, bs, d') ->
    r <= n /\ Z.of_nat (length bs) = Z.max 0 r /\ unread d = bs ++ unread d' /\ (r = 0 -> unread d' = [])
}.

Section Input.
Context {D : Type} `{ReadLaws D} (E : env) (lflush_all : D -> D).
Hypothesis lflush_unread : forall d, unread (lflush_all d) = unread d.
Hypothesis HE : honest_env E.
Implicit Types (fp : FILE) (d : D).

Definition bf_of fp : list Z := default [] (_bf fp).

Record reading fp d : Prop := {
  rd_srd : flag fp __SRD = true;
  rd_bf m : _bf fp = Some m -> Z.of_nat (length m) = _size fp /\ 0 < _size fp < 2 ^ 31;
  rd_pos : 0 <= _p fp /\ 0 <= _r fp < 2 ^ 31 /\
    match _ub fp with
    | None => _p fp + _r fp <= Z.of_nat (length (bf_of fp))
    | Some m => _p fp + _r fp = Z.of_nat (length m) /\ 3 <= Z.of_nat (length m) /\
                0 <= _up fp /\ 0 <= _ur fp /\ _up fp + _ur fp <= Z.of_nat (length (bf_of fp))
    end;
  rd_eof : flag fp __SEOF = true -> _ub fp = None /\ _r fp = 0 /\ unread d = [];
  rd_reserve : length (_ubuf fp) = 3%nat /\ length (_nbuf fp) = 1%nat
}.

Definition slice (l : list Z) (o n : Z) : list Z := take (Z.to_nat n) (drop (Z.to_nat o) l).

(** What is still to be read: ungetc data, the buffer, the rest. *)
Definition pending fp d : list Z :=
  slice (active fp) (_p fp) (_r fp) ++ (match _ub fp with Some _ => slice (bf_of fp) (_up fp) (_ur fp) | None => [] end) ++ unread d.

Lemma slice_0 l o : slice l o 0 = [].
Proof. done. Qed.

(** A raised flag that says nothing about reading. *)
Definition harmless (m : Z) : Prop := has m __SRD = false /\ has m __SEOF = false.

Lemma reading_raise fp d m : harmless m -> reading fp d -> reading (raise fp m) d.
Proof.
  intros [Hm1 Hm2] [H1 H2 H3 H4 H5]. split; try done; unfold flag, raise in *; cbn; rewrite has_lor.
  - by rewrite H1.
  - by rewrite Hm2, orb_false_r.
Qed.

(** __smakebuf for reading. *)
Lemma makebuf_spec fp : length (_nbuf fp) = 1%nat ->
  exists m, _bf (__smakebuf E fp) = Some m /\ Z.of_nat (length m) = _size (__smakebuf E fp) /\ 0 < _size (__smakebuf E fp) < 2 ^ 31 /\
    (forall k, k = __SRD \/ k = __SEOF -> flag (__smakebuf E fp) k = flag fp k) /\
    _r (__smakebuf E fp) = _r fp /\ _ub (__smakebuf E fp) = _ub fp /\ _ubuf (__smakebuf E fp) = _ubuf fp /\ _nbuf (__smakebuf E fp) = _nbuf fp.
Proof.
  intros Hn. unfold __smakebuf. destruct (flag fp __SNBF); [exists (_nbuf fp); cbn; rewrite Hn; by split_and!|].
  pose proof (swhatbuf_size E HE) as [Hs Hf]. destruct (__swhatbuf E) as [[fl size] tty]. cbn [fst snd] in *.
  destruct (malloc E size) as [m|] eqn:Em.
  - exists m. cbn. pose proof (he_malloc E HE _ _ Em). split_and!; try done; [lia|lia|]. intros k Hk. unfold flag. cbn. rewrite has_lor.
    set (fl2 := if tty && isatty E then _ else _). assert (has fl2 k = false) as ->; [|by rewrite orb_false_r].
    unfold fl2. destruct Hf as [-> | ->], Hk as [-> | ->], (tty && isatty E); done.
  - exists (_nbuf fp). cbn. rewrite Hn. split_and!; try done. intros k Hk. unfold flag. cbn. rewrite has_lor.
    by destruct Hk as [-> | ->]; rewrite orb_false_r.
Qed.

(** [d] is what a read that failed has left. *)
Definition read_failed (d : D) : Prop := exists n d0 r bs, _read n d0 = (r, bs, d) /\ r < 0.

(** Nothing is left, or a read has just failed. *)
Definition ended fp d : Prop := pending fp d = [] \/ (flag fp __SERR = true /\ read_failed d).

Definition refilled (r : Z) fp' d' : Prop :=
  (r = 0 /\ 0 < _r fp') \/ (r = EOF /\ _r fp' = 0 /\ _ub fp' = None /\ ended fp' d').

Lemma stream_fill_spec fp d : reading fp d -> _r fp = 0 -> _ub fp = None -> flag fp __SEOF = false ->
  exists r e fp' d', fill_buffer E lflush_all fp d = Some (r, e, fp', d') /\ reading fp' d' /\ pending fp' d' = unread d /\
    refilled r fp' d'.
Proof.
  intros [Hsrd Hbf Hpos Heof [Hub Hnb]] Hr Hnoub Hneof. unfold fill_buffer. set (fp1 := match _bf fp with None => _ | Some _ => fp end).
  assert (exists m, _bf fp1 = Some m /\ Z.of_nat (length m) = _size fp1 /\ 0 < _size fp1 < 2 ^ 31 /\ flag fp1 __SRD = true /\
    flag fp1 __SEOF = false /\ _ub fp1 = None /\ length (_ubuf fp1) = 3%nat /\ length (_nbuf fp1) = 1%nat)
    as (m & Em & Hm & Hs & Hsrd1 & Heof1 & Hub1 & Hubl & Hnbl).
  { unfold fp1. destruct (_bf fp) as [m|] eqn:Eb; [exists m; destruct (Hbf m eq_refl) as (? & ? & ?); by split_and!|].
    destruct (makebuf_spec fp Hnb) as (m & E1 & E2 & [E3 E3'] & E4 & _ & E5 & E6 & E7). exists m. rewrite !E4, E5, E6, E7 by auto. by split_and!. }
  clearbody fp1. set (d1 := if flag fp1 (Z.lor __SLBF __SNBF) then lflush_all d else d).
  assert (unread d1 = unread d) as Ed by (unfold d1; destruct (flag fp1 (Z.lor __SLBF __SNBF)); [apply lflush_unread|done]). clearbody d1.
  change (_size (set_p fp1 0)) with (_size fp1). destruct (_read (_size fp1) d1) as [[r bs] d2] eqn:Er.
  pose proof Er as Er0. apply read_gives in Er as (Hle & Hbs & Eu & Hz); [|lia]. cbn [_bf set_p]. rewrite Em. cbn [mbind option_bind]. unfold put_bytes.
  rewrite (proj2 (Z.leb_le (0 + Z.of_nat (length bs)) (Z.of_nat (length m)))) by lia. cbn [Z.leb Z.compare andb mbind option_bind].
  set (m' := take (Z.to_nat 0) m ++ bs ++ drop (Z.to_nat 0 + length bs) m).
  assert (Z.of_nat (length m') = _size fp1) as Hm' by (unfold m'; rewrite !length_app, length_take, length_drop; lia).
  assert (forall fl r', has fl __SRD = true -> (has fl __SEOF = true -> r' = 0 /\ unread d2 = []) -> r' = Z.max 0 r ->
    let fp' := set_flags (set_r (set_bf (set_p fp1 0) (Some m') (_size fp1)) r') fl in
    reading fp' d2 /\ pending fp' d2 = unread d /\ _r fp' = r' /\ _ub fp' = None) as Fin.
  { intros fl r' Hf1 Hf2 Hr'. cbn zeta. split_and!; [|..|done|done].
    - split; cbn; try done; [by intros ? [= <-]|rewrite Hub1; unfold bf_of; cbn; lia|].
      intros Hf. destruct (Hf2 Hf) as [-> ?]. by split_and!.
    - unfold pending, active, slice. cbn. rewrite Hub1. cbn [default id]. rewrite <- Ed, Eu. cbn.
      change (drop (Z.to_nat 0) m') with (bs ++ drop (length bs) m). rewrite take_app_le, take_ge by lia. done. }
  assert (has (Z.ldiff (_flags fp1) __SMOD) __SRD = true) as F1 by (rewrite has_ldiff by done; exact Hsrd1).
  assert (has (Z.ldiff (_flags fp1) __SMOD) __SEOF = false) as F2 by (rewrite has_ldiff by done; exact Heof1).
  destruct (Z.leb_spec r 0) as [Hr0|Hr0].
  - destruct (Z.eqb_spec r 0) as [->|Hrn].
    + do 4 eexists. split; [done|]. specialize (Hz eq_refl). rewrite Hz, app_nil_r in Eu. assert (bs = []) as -> by (apply nil_length_inv; lia).
      destruct (Fin (Z.lor (Z.ldiff (_flags fp1) __SMOD) __SEOF) 0) as (A & B & _ & _); [by rewrite has_lor, F1|done|lia|].
      split_and!; [exact A|exact B|]. right. split_and!; try done. left. etrans; [exact B|congruence].
    + do 4 eexists. split; [done|].
      destruct (Fin (Z.lor (Z.ldiff (_flags fp1) __SMOD) __SERR) 0) as (A & B & _ & _); [by rewrite has_lor, F1| |lia|].
      { rewrite has_lor, F2. done. }
      split_and!; [exact A|exact B|]. right. split_and!; try done. right. split; [unfold flag; cbn; rewrite has_lor; by rewrite orb_true_r|].
      do 4 eexists. split; [exact Er0|lia].
  - do 4 eexists. split; [done|]. destruct (Fin (Z.ldiff (_flags fp1) __SMOD) r) as (A & B & _ & _); [done|by rewrite F2|lia|].
    split_and!; [exact A|exact B|by left].
Qed.

Lemma srefill_spec fp d : reading (set_r fp 0) d ->
  exists r e fp' d', __srefill E lflush_all fp d = Some (r, e, fp', d') /\ reading fp' d' /\
    pending fp' d' = pending (set_r fp 0) d /\ refilled r fp' d'.
Proof.
  intros Hr. unfold __srefill. set (fp0 := set_r fp 0) in *. pose proof Hr as [Hsrd Hbf Hpos Heof Hres].
  destruct (flag fp0 __SEOF) eqn:Ee.
  { destruct (Heof eq_refl) as (Hu & _ & Hun). do 4 eexists. split_and!; try done. right. split_and!; try done.
    left. unfold pending. by rewrite Hu, Hun. }
  rewrite Hsrd. cbn [negb]. unfold HASUB. destruct (_ub fp0) as [m|] eqn:Eu.
  - rewrite bool_decide_eq_true_2 by done. destruct Hpos as (Hp & _ & Hpm & Hl & Hup & Hur & Hfit).
    assert (Z.of_nat (length (bf_of fp0)) < 2 ^ 31) as Hbl
      by (unfold bf_of; destruct (_bf fp0) as [b|] eqn:Eb; [destruct (Hbf b eq_refl); cbn; lia|cbn; lia]).
    set (fp1 := set_r (FREEUB fp0) (_ur fp0)). destruct (Z.eqb_spec (_r fp1) 0) as [E0|E0]; cbn [negb].
    + destruct (stream_fill_spec (set_p fp1 0) d) as (r & e & fp' & d' & Ef & Hrd & Hpe & Hre); try done.
      { split; [done|exact Hbf| | |done]; [cbn; unfold bf_of in *; cbn in *; lia|]. intros Hx. change (flag fp0 __SEOF = true) in Hx. congruence. }
      assert (fill_buffer E lflush_all fp1 d = fill_buffer E lflush_all (set_p fp1 0) d) as Esame.
      { unfold fill_buffer. cbn [_bf set_p]. unfold fp1. cbn [FREEUB set_ub set_r _bf]. destruct (_bf fp0); [done|].
        unfold __smakebuf. cbn. destruct (flag _ _); [done|]. destruct (__swhatbuf E) as [[? ?] ?]. by destruct (malloc E _). }
      exists r, e, fp', d'. rewrite Esame. split_and!; try done. rewrite Hpe. change (_ur fp0 = 0) in E0. unfold pending. rewrite Eu, E0. done.
    + change (_ur fp0 <> 0) in E0. do 4 eexists. split; [done|].
      split_and!; [| |left; split; [done|]; change (0 < _ur fp0); lia].
      * split; [done|exact Hbf| | |done]; [cbn; unfold bf_of in *; cbn in *; lia|]. intros Hx. change (flag fp0 __SEOF = true) in Hx. congruence.
      * unfold pending, active. rewrite Eu. cbn. done.
  - rewrite bool_decide_eq_false_2 by (by intros [? ?]).
    destruct (stream_fill_spec fp0 d) as (r & e & fp' & d' & Ef & Hrd & Hpe & Hre); try done.
    exists r, e, fp', d'. split_and!; try done. rewrite Hpe. unfold pending. by rewrite Eu.
Qed.

(** ** The operations *)

Lemma set_r_same fp : set_r fp (_r fp) = fp.
Proof. by destruct fp. Qed.

Lemma slice_split l o n k : 0 <= o -> 0 <= k <= n -> slice l o n = slice l o k ++ slice l (o + k) (n - k).
Proof.
  intros Ho Hk. unfold slice. replace (Z.to_nat n) with (Z.to_nat k + Z.to_nat (n - k))%nat by lia.
  replace (Z.to_nat (o + k)) with (Z.to_nat o + Z.to_nat k)%nat by lia.
  rewrite <- drop_drop. generalize (drop (Z.to_nat o) l) as l'. intros l'. by rewrite take_take_drop.
Qed.

Lemma reading_fits fp d : reading fp d -> 0 <= _p fp /\ 0 <= _r fp < 2 ^ 31 /\ _p fp + _r fp <= Z.of_nat (length (active fp)).
Proof.
  intros Hr. destruct (rd_pos _ _ Hr) as (Hp & Hr0 & Hm). unfold active. destruct (_ub fp); [lia|]. unfold bf_of in Hm. lia.
Qed.

(** The next [n] bytes of the buffer. *)
Lemma take_next fp d n : reading fp d -> 0 <= n <= _r fp ->
  exists bs, from_p fp n = Some bs /\ Z.of_nat (length bs) = n /\ reading (advance fp n) d /\
    pending fp d = bs ++ pending (advance fp n) d.
Proof.
  intros Hr Hn. pose proof (reading_fits _ _ Hr) as (Hp & Hr0 & Hfit). unfold from_p. rewrite !(proj2 (Z.leb_le _ _)) by lia.
  eexists. split; [done|]. split; [rewrite length_take, length_drop; lia|]. split.
  - destruct Hr as [H1 H2 H3 H4 H5]. split; try done; cbn.
    + unfold bf_of in *. destruct (_ub fp); lia.
    + intros Hf. destruct (H4 Hf) as (? & ? & ?). split_and!; [done|lia|done].
  - unfold pending. rewrite (slice_split (active fp) (_p fp) (_r fp) n) by lia. by rewrite <- app_assoc.
Qed.

Lemma next_char fp d : reading fp d -> 0 < _r fp ->
  exists c, aget (active fp) (_p fp) = Some c /\ reading (advance fp 1) d /\ pending fp d = c :: pending (advance fp 1) d.
Proof.
  intros Hr Hn. destruct (take_next fp d 1 Hr) as (bs & Hb & Hl & Hr' & Hp); [lia|]. unfold from_p in Hb.
  pose proof (reading_fits _ _ Hr) as (Hp0 & _ & Hfit). rewrite !(proj2 (Z.leb_le _ _)) in Hb by lia. injection Hb as Hb.
  destruct (aget_is_Some (active fp) (_p fp)) as [c Hc]; [lia|]. exists c. split_and!; try done. rewrite Hp.
  unfold aget in Hc. rewrite (proj2 (Z.leb_le _ _)) in Hc by lia.
  rewrite (drop_S _ _ _ Hc) in Hb. cbn in Hb. by rewrite <- Hb.
Qed.

(** getc gives the next byte of the stream, wherever it waits; EOF comes only at
    the end of the file or with the error flag, and takes nothing away. *)
Theorem sgetc_next fp d : reading fp d ->
  exists c fp' d', __sgetc E lflush_all fp d = Some (c, fp', d') /\ reading fp' d' /\
    (pending fp d = c :: pending fp' d' \/
     (c = EOF /\ pending fp' d' = pending fp d /\ ended fp' d')).
Proof.
  intros Hr. pose proof (reading_fits _ _ Hr) as (Hp & Hr0 & Hfit). unfold __sgetc. change (_r (set_r fp (_r fp - 1))) with (_r fp - 1).
  destruct (Z.ltb_spec (_r fp - 1) 0) as [Hz|Hpos].
  - assert (_r fp = 0) as E0 by lia. unfold __srget.
    assert (exists fp1, (if flag (set_r fp (_r fp - 1)) (Z.lor __SWCH __SCHR) then set_r fp (_r fp - 1) else raise (set_r fp (_r fp - 1)) __SCHR) = fp1 /\
      reading (set_r fp1 0) d /\ pending (set_r fp1 0) d = pending fp d) as (fp1 & -> & Hr1 & Hp1).
    { eexists. split; [done|]. assert (set_r fp 0 = fp) as Es by (rewrite <- E0 at 1; apply set_r_same).
      case_match.
      - change (set_r (set_r fp (_r fp - 1)) 0) with (set_r fp 0). by rewrite Es.
      - change (set_r (raise (set_r fp (_r fp - 1)) __SCHR) 0) with (raise (set_r fp 0) __SCHR). rewrite Es.
        split; [by apply reading_raise|done]. }
    destruct (srefill_spec fp1 d Hr1) as (r & e & fp2 & d2 & -> & Hr2 & Hp2 & Href). cbn [mbind option_bind]. rewrite Hp1 in Hp2.
    destruct Href as [[-> Hrp]|(-> & Hrz & Hub & Hend)]; cbn [Z.eqb].
    + destruct (next_char fp2 d2 Hr2 Hrp) as (c & -> & Hr3 & Hp3). cbn [mbind option_bind]. do 3 eexists. split; [done|].
      split; [done|]. left. congruence.
    + do 3 eexists. split; [done|]. split; [done|]. right. by split_and!.
  - destruct (next_char fp d Hr) as (c & Hc & Hr3 & Hp3); [lia|]. change (active (set_r fp (_r fp - 1))) with (active fp).
    change (_p (set_r fp (_r fp - 1))) with (_p fp). rewrite Hc. cbn [mbind option_bind]. do 3 eexists. split; [done|].
    change (set_p (set_r fp (_r fp - 1)) (_p fp + 1)) with (advance fp 1). split; [done|by left].
Qed.

Lemma slice_put m p r c : 0 < p -> 0 <= r -> p + r = Z.of_nat (length m) ->
  exists m', put_bytes m (p - 1) [c] = Some m' /\ length m' = length m /\ slice m' (p - 1) (r + 1) = c :: slice m p r.
Proof.
  intros Hp Hr Hl. unfold put_bytes. rewrite !(proj2 (Z.leb_le _ _)) by (cbn; lia). eexists. split; [done|]. split.
  - rewrite !length_app, length_take, length_drop. cbn. lia.
  - unfold slice. rewrite drop_app_length' by (rewrite length_take; lia). cbn.
    replace (Z.to_nat (r + 1)) with (S (Z.to_nat r)) by lia. cbn. do 2 f_equal. f_equal. lia.
Qed.

(** Room for one more byte of ungetc data. *)
Lemma submore_spec fp d m : reading fp d -> _ub fp = Some m ->
  exists ok fp1, (if Z.of_nat (length m) <=? _r fp then __submore E fp else Some (true, fp)) = Some (ok, fp1) /\
    if ok then exists m1, _ub fp1 = Some m1 /\ reading fp1 d /\ pending fp1 d = pending fp d /\ 0 < _p fp1 /\ _r fp1 = _r fp
    else fp1 = fp.
Proof.
  intros Hr Eu. pose proof Hr as [H1 H2 H3 H4 H5]. rewrite Eu in H3, H4. destruct H3 as (Hp & Hr0 & Hpr & Hl & Hup & Hur & Hfit).
  destruct (Z.leb_spec (Z.of_nat (length m)) (_r fp)) as [Hfull|Hroom].
  2:{ exists true, fp. split; [done|]. exists m. split_and!; try done. lia. }
  assert (_p fp = 0 /\ _r fp = Z.of_nat (length m)) as [Hp0 Hr1] by lia.
  assert (forall m1 p1, p1 + _r fp = Z.of_nat (length m1) -> 0 < p1 -> slice m1 p1 (_r fp) = m ->
    let fp1 := set_p (set_ub fp (Some m1)) p1 in
    exists m2, _ub fp1 = Some m2 /\ reading fp1 d /\ pending fp1 d = pending fp d /\ 0 < _p fp1 /\ _r fp1 = _r fp) as Grow.
  { intros m1 p1 Hl1 Hp1 Hs. exists m1. split_and!; try done.
    - split; try done; [cbn; unfold bf_of in *; cbn in *; lia|]. intros Hf. destruct (H4 Hf) as [? _]. done.
    - unfold pending, active. rewrite Eu. cbn. rewrite Hs. f_equal. unfold slice. rewrite Hp0. cbn. rewrite drop_0.
      symmetry. apply take_ge. lia. }
  unfold __submore. rewrite Eu. cbn [mbind option_bind]. destruct (Z.eqb_spec (Z.of_nat (length m)) 3) as [E3|E3].
  - destruct (malloc E BUFSIZ) as [p|] eqn:Em; [|by exists false, fp]. apply (he_malloc E HE) in Em. unfold put_bytes, BUFSIZ in *.
    rewrite !(proj2 (Z.leb_le _ _)) by lia. cbn [andb mbind option_bind]. do 2 eexists. split; [done|].
    apply Grow; [rewrite !length_app, length_take, length_drop; lia|lia|].
    unfold slice. rewrite drop_app_length' by (rewrite length_take; lia). rewrite take_app_le, take_ge by lia. done.
  - destruct (malloc E _) as [p|]; [|by exists false, fp]. do 2 eexists. split; [done|].
    apply Grow; [rewrite length_app; lia|lia|]. unfold slice. rewrite Nat2Z.id, drop_app_length, take_ge by lia. done.
Qed.

(** ungetc puts the character in front of everything that is still to be read,
    in the buffer or in the growing buffer of its own; it fails only for want of
    memory, and then changes nothing. *)
Theorem ungetc_pushes fp d c : reading fp d -> c <> EOF -> _r fp < 2 ^ 31 - 1 ->
  exists r fp', ungetc E c fp d = Some (r, fp', d) /\ reading fp' d /\
    ((r = u8 c /\ pending fp' d = u8 c :: pending fp d) \/ (r = EOF /\ fp' = fp /\ is_Some (_ub fp))).
Proof.
  intros Hr Hc Hint. pose proof Hr as [H1 H2 H3 H4 H5]. unfold ungetc. rewrite (proj2 (Z.eqb_neq _ _)) by done. rewrite H1. cbn [mbind option_bind negb].
  destruct (_ub fp) as [m|] eqn:Eu.
  - destruct (submore_spec fp d m Hr Eu) as (ok & fp1 & -> & Hok). cbn [mbind option_bind]. destruct ok; cbn [negb].
    2:{ subst fp1. do 2 eexists. split; [done|]. split; [done|]. right. split_and!; try done. }
    destruct Hok as (m1 & Eu1 & Hr1 & Hpe1 & Hp1 & Er1). rewrite Eu1. cbn [mbind option_bind].
    pose proof Hr1 as [I1 I2 I3 I4 I5]. rewrite Eu1 in I3, I4. destruct I3 as (Ip & Ir & Ipr & Il & Iup & Iur & Ifit).
    destruct (slice_put m1 (_p fp1) (_r fp1) (u8 c)) as (m2 & -> & El2 & Es2); [lia..|]. cbn [mbind option_bind].
    do 2 eexists. split; [done|]. split.
    + split; try done; [cbn; unfold bf_of in *; cbn in *; lia|]. intros Hf. destruct (I4 Hf) as [? _]. done.
    + left. split; [done|]. rewrite <- Hpe1. unfold pending, active. rewrite Eu1. cbn. by rewrite Es2.
  - destruct H3 as (Hp & Hr0 & Hfit). change (_bf (lower fp __SEOF)) with (_bf fp). change (_p (lower fp __SEOF)) with (_p fp).
    assert (flag (lower fp __SEOF) __SRD = true) as Hsrd by (unfold flag, lower in *; cbn; by rewrite has_ldiff).
    assert (flag (lower fp __SEOF) __SEOF = false) as Hneof.
    { unfold flag, lower, has. cbn [_flags set_flags]. apply negb_false_iff, Z.eqb_eq. apply Z.bits_inj'. intros n Hn.
      rewrite Z.land_spec, Z.ldiff_spec, Z.bits_0. destruct (Z.testbit (_flags fp) n), (Z.testbit __SEOF n); done. }
    destruct (bool_decide (is_Some (_bf fp)) && (0 <? _p fp) && bool_decide (aget (default [] (_bf fp)) (_p fp - 1) = Some (u8 c))) eqn:Eb.
    + apply andb_true_iff in Eb as [[_ Hp0%Z.ltb_lt]%andb_true_iff Hc1%bool_decide_eq_true_1]. do 2 eexists. split; [done|]. split.
      * split; try done; [cbn; rewrite Eu; unfold bf_of in *; cbn in *; lia|]. intros Hf.
        change (flag (lower fp __SEOF) __SEOF = true) in Hf. congruence.
      * left. split; [done|]. unfold pending, active. cbn. rewrite Eu. cbn.
        unfold slice at 1. unfold aget in Hc1. rewrite (proj2 (Z.leb_le _ _)) in Hc1 by lia. rewrite (drop_S _ _ _ Hc1).
        replace (Z.to_nat (_r fp + 1)) with (S (Z.to_nat (_r fp))) by lia. cbn. unfold slice. do 3 f_equal. f_equal. lia.
    + change (_ubuf (save_u (lower fp __SEOF))) with (_ubuf fp).
      assert (exists u, aput (_ubuf fp) 2 (u8 c) = u /\ Z.of_nat (length u) = 3 /\ slice u 2 1 = [u8 c]) as (u & -> & El & Esl).
      { eexists. split; [done|]. rewrite aput_length. destruct H5 as [H5 _]. split; [lia|].
        destruct (_ubuf fp) as [|x [|y [|z [|? ?]]]]; cbn in H5; try lia. done. }
      do 2 eexists. split; [done|]. split.
      * split; try done; [cbn; unfold bf_of in *; cbn in *; lia|]. intros Hf.
        change (flag (lower fp __SEOF) __SEOF = true) in Hf. congruence.
      * left. split; [done|]. unfold pending, active. cbn. rewrite Eu, Esl. done.
Qed.

(** ** Blocks and lines *)

Lemma srefill_next fp d : reading (set_r fp 0) d ->
  exists r e fp' d', __srefill E lflush_all fp d = Some (r, e, fp', d') /\ reading fp' d' /\
    pending fp' d' = pending (set_r fp 0) d /\ ((r = 0 /\ 0 < _r fp') \/ (r = EOF /\ ended fp' d')).
Proof.
  intros Hr. destruct (srefill_spec fp d Hr) as (r & e & fp' & d' & E1 & H1 & H2 & [H3|(H3 & _ & _ & H4)]);
    exists r, e, fp', d'; split_and!; try done; [by left|by right].
Qed.

Lemma fread_loop_spec fuel : forall fp d got resid, reading fp d -> 0 <= resid ->
  resid + (if _r fp =? 0 then 1 else 0) <= Z.of_nat fuel ->
  exists full got' rest fp' d', read_loop E lflush_all fuel got resid fp d = Some (full, got ++ got', rest, fp', d') /\
    reading fp' d' /\ pending fp d = got' ++ pending fp' d' /\ rest = resid - Z.of_nat (length got') /\
    if full then rest = 0 else 0 < rest /\ ended fp' d'.
Proof.
  induction fuel as [|fuel IH]; intros fp d got resid Hr Hres Hf; cbn [read_loop];
    pose proof (reading_fits _ _ Hr) as (Hp & Hr0 & Hfit);
    (destruct (Z.ltb_spec (_r fp) resid) as [Hmore|Henough];
     [|destruct (take_next fp d resid Hr) as (bs & -> & Hl & Hr' & Hpe); [lia|]; cbn [mbind option_bind];
       do 5 eexists; split; [done|]; split_and!; try done; lia]); [destruct (Z.eqb_spec (_r fp) 0); lia|].
  destruct (take_next fp d (_r fp) Hr) as (bs & -> & Hl & Hr' & Hpe); [lia|]. cbn [mbind option_bind].
  assert (advance fp (_r fp) = set_r (set_p fp (_p fp + _r fp)) 0) as Ea by (unfold advance; rewrite Z.sub_diag; by destruct fp).
  rewrite Ea in *. destruct (srefill_next (set_p fp (_p fp + _r fp)) d Hr') as (r & e & fp2 & d2 & -> & Hr2 & Hp2 & Href).
  cbn [mbind option_bind]. destruct Href as [[-> Hrp]|[-> Hend]]; cbn [Z.eqb negb].
  - destruct (IH fp2 d2 (got ++ bs) (resid - _r fp) Hr2) as (full & got' & rest & fp' & d' & -> & Hr3 & Hp3 & Hrest & Hfull); [lia| |].
    { destruct (Z.eqb_spec (_r fp2) 0), (Z.eqb_spec (_r fp) 0); lia. }
    exists full, (bs ++ got'), rest, fp', d'. rewrite app_assoc. split; [done|]. split_and!; try done.
    + rewrite Hpe, <- Hp2, Hp3. by rewrite app_assoc.
    + rewrite length_app. lia.
  - exists false, bs, (resid - _r fp), fp2, d2. split; [done|]. split_and!; try done; [|lia|lia]. by rewrite Hpe, Hp2.
Qed.

(** C29. fread gives the next bytes of the stream, all that were asked for unless the
    file ends or a read fails; its result is the number of whole elements. *)
Theorem fread_reads size count fp d :
  reading fp d -> 0 < size -> 0 <= count -> count * size < 2 ^ 32 ->
  exists r got fp' d', fread E lflush_all size count fp d = Some (r, got, fp', d') /\ reading fp' d' /\
    pending fp d = got ++ pending fp' d' /\ r = Z.of_nat (length got) / size /\
    (Z.of_nat (length got) = count * size \/ (Z.of_nat (length got) < count * size /\ ended fp' d')).
Proof.
  intros Hr Hs Hc Hsmall. unfold fread. rewrite u32_id by (unfold is_u32; nia).
  destruct (Z.eqb_spec (count * size) 0) as [E0|E0].
  { do 4 eexists. split; [done|]. split_and!; try done. left. cbn. lia. }
  pose proof (reading_fits _ _ Hr) as (Hp & Hr0 & Hfit). rewrite (proj2 (Z.ltb_ge _ _)) by lia.
  destruct (fread_loop_spec (S (S (Z.to_nat (count * size)))) fp d [] (count * size) Hr) as (full & got & rest & fp' & d' & -> & Hr' & Hpe & Hrest & Hfull);
    [lia|case_match; lia|]. rewrite app_nil_l. cbn [mbind option_bind]. do 4 eexists. split; [done|]. split_and!; try done.
  - destruct full; [|f_equal; lia]. replace (Z.of_nat (length got)) with (count * size) by lia. by rewrite Z.div_mul by lia.
  - destruct full; [left; lia|right; split; [lia|apply Hfull]].
Qed.

Lemma memchr_nl_spec bs : match memchr_nl bs with
  | Some line => exists l rest, line = l ++ [NEWLINE] /\ NEWLINE ∉ l /\ bs = line ++ rest
  | None => NEWLINE ∉ bs
  end.
Proof.
  induction bs as [|c bs IH]; cbn; [apply not_elem_of_nil|]. destruct (Z.eqb_spec c NEWLINE) as [->|Hc].
  - exists [], bs. by split_and!; [|apply not_elem_of_nil|].
  - destruct (memchr_nl bs) as [line|]; cbn.
    + destruct IH as (l & rest & -> & Hl & ->). exists (c :: l), rest. split_and!; try done. apply not_elem_of_cons. by split.
    + apply not_elem_of_cons. by split.
Qed.

Lemma gets_loop_spec fuel : forall fp d s n, reading fp d -> 0 <= n -> n <= Z.of_nat fuel -> NEWLINE ∉ s ->
  exists o fp' d', gets_loop E lflush_all fuel s n fp d = Some (o, fp', d') /\ reading fp' d' /\
    match o with
    | Some bs => exists got, bs = s ++ got /\ pending fp d = got ++ pending fp' d' /\
        ((exists l, bs = l ++ [NEWLINE] /\ NEWLINE ∉ l /\ Z.of_nat (length got) <= n) \/
         (NEWLINE ∉ bs /\ (Z.of_nat (length got) = n \/ (Z.of_nat (length got) < n /\ bs <> [] /\ ended fp' d'))))
    | None => 0 < n /\ s = [] /\ pending fp' d' = pending fp d /\ ended fp' d'
    end.
Proof.
  induction fuel as [|fuel IH]; intros fp d s n Hr Hn Hf Hs; cbn [gets_loop];
    (destruct (Z.eqb_spec n 0) as [->|Hn0];
     [do 3 eexists; split; [done|]; split; [done|]; exists []; rewrite app_nil_r; split_and!; try done; right; split; [done|by left]|]); [lia|].
  assert (exists r fp1 d1, (if _r fp =? 0 then '(r, _, fp, d) ← __srefill E lflush_all fp d; Some (r, fp, d) else Some (0, fp, d)) = Some (r, fp1, d1) /\
    reading fp1 d1 /\ pending fp1 d1 = pending fp d /\ ((r = 0 /\ 0 < _r fp1) \/ (r = EOF /\ ended fp1 d1)))
    as (r & fp1 & d1 & -> & Hr1 & Hp1 & Href).
  { pose proof (reading_fits _ _ Hr) as (Hp & Hr0 & Hfit). destruct (Z.eqb_spec (_r fp) 0) as [E0|E0].
    - assert (set_r fp 0 = fp) as Es by (rewrite <- E0; apply set_r_same).
      destruct (srefill_next fp d) as (r & e & fp1 & d1 & -> & H1 & H2 & H3); [by rewrite Es|]. rewrite Es in H2.
      cbn [mbind option_bind]. exists r, fp1, d1. by split_and!.
    - exists 0, fp, d. split_and!; try done. left. split; [done|lia]. }
  cbn [mbind option_bind]. destruct Href as [[-> Hrp]|[-> Hend]]; cbn [Z.eqb negb].
  2:{ do 3 eexists. split; [done|]. split; [done|]. destruct s as [|c s]; [split; [lia|done]|]. exists []. rewrite app_nil_r.
      split_and!; try done. right. split; [done|right]. split_and!; [cbn; lia|done|done]. }
  pose proof (reading_fits _ _ Hr1) as (Hp & Hr0 & Hfit).
  rewrite u32_id by (unfold is_u32; lia). set (len := if n <? _r fp1 then n else _r fp1).
  assert (0 < len <= n /\ len <= _r fp1) as [Hlen1 Hlen2] by (unfold len; destruct (Z.ltb_spec n (_r fp1)); lia).
  destruct (take_next fp1 d1 len Hr1) as (bs & -> & Hl & Hr2 & Hp2); [lia|]. cbn [mbind option_bind].
  pose proof (memchr_nl_spec bs) as Hnl. destruct (memchr_nl bs) as [line|].
  - destruct Hnl as (l & rest & -> & Hl1 & ->). rewrite length_app in Hl.
    destruct (take_next fp1 d1 (Z.of_nat (length (l ++ [NEWLINE]))) Hr1) as (bs2 & Hb2 & Hlb2 & Hr3 & Hp3); [lia|].
    do 3 eexists. split; [done|]. split; [done|]. exists (l ++ [NEWLINE]). split_and!; [done| |].
    + rewrite <- Hp1, Hp3. f_equal. rewrite Hp2, <- app_assoc in Hp3. apply app_inj_1 in Hp3 as [-> _]; [done|lia].
    + left. exists (s ++ l). rewrite app_assoc. split_and!; [done|apply not_elem_of_app; by split|lia].
  - destruct (IH (advance fp1 len) d1 (s ++ bs) (n - len) Hr2) as (o & fp' & d' & -> & Hr3 & Ho); [lia|lia|apply not_elem_of_app; by split|].
    do 3 eexists. split; [done|]. split; [done|]. destruct o as [bs'|].
    + destruct Ho as (got & -> & Hp3 & Hcase). exists (bs ++ got). rewrite app_assoc. split_and!; [done| |].
      * rewrite <- Hp1, Hp2, Hp3. by rewrite app_assoc.
      * rewrite length_app. destruct Hcase as [(l & E1 & E2 & E3)|(E1 & E2)]; [left; exists l; split_and!; [done|done|lia]|right].
        split; [done|]. destruct E2 as [E2|(E2 & E3 & E4)]; [left; lia|right; split_and!; [lia|done|done]].
    + destruct Ho as (_ & Hnil & _). apply app_eq_nil in Hnil as [_ ->]. cbn in Hl. lia.
Qed.

(** C30. fgets with every size: none and negative ones read nothing and give NULL, 1
    gives the empty string; any other gives the next line, that is the bytes up to the
    first newline, with it, or as many as there is room for, or what there is before the
    end of the file or before a read that failed; NULL only where nothing is left or the
    read failed, which the error flag then says, and nothing that was pending is lost. *)
Theorem fgets_line n fp d :
  reading fp d -> n < 2 ^ 31 ->
  exists o fp' d', fgets E lflush_all n fp d = Some (o, fp', d') /\ reading fp' d' /\
    match o with
    | Some bs => 0 < n /\ pending fp d = bs ++ pending fp' d' /\ Z.of_nat (length bs) <= n - 1 /\
        ((exists l, bs = l ++ [NEWLINE] /\ NEWLINE ∉ l) \/
         (NEWLINE ∉ bs /\ (Z.of_nat (length bs) = n - 1 \/ ended fp' d')))
    | None => pending fp' d' = pending fp d /\ (n <= 0 /\ fp' = fp /\ d' = d \/ 1 < n /\ ended fp' d')
    end.
Proof.
  intros Hr Hn. unfold fgets. destruct (Z.leb_spec n 0) as [Hn0|Hn0].
  { do 3 eexists. split; [done|]. split; [done|]. split; [done|]. by left. }
  destruct (gets_loop_spec (S (Z.to_nat n)) fp d [] (n - 1) Hr) as (o & fp' & d' & -> & Hr' & Ho); [lia|lia|apply not_elem_of_nil|].
  do 3 eexists. split; [done|]. split; [done|]. destruct o as [bs|].
  2:{ destruct Ho as (? & _ & ? & ?). split; [done|]. right. split; [lia|done]. }
  destruct Ho as (got & -> & Hp & Hcase). cbn [app] in *.
  destruct Hcase as [(l & E1 & E2 & E3)|(E1 & E2)]; (split_and!; [done|done|lia|]); [left; by exists l|right].
  split; [done|]. destruct E2 as [E2|(_ & _ & E2)]; [by left|by right].
Qed.
End Input.

(** ** A stream that gives a few bytes at a time *)

#[export] Instance console_read : ReadLaws console.
Proof.
  refine {| unread := input |}. intros n d r bs d' Hn E. cbn in E. unfold next_limit in E.
  destruct (limits d) as [|q qs].
  - injection E as <- <- <-. cbn. rewrite take_drop, length_take. split_and!; [lia|lia|done|]. intros Hz. apply drop_ge. lia.
  - destruct (Z.leb_spec q 0); injection E as <- <- <-; cbn; rewrite ?take_drop, ?length_take; split_and!; try done; try lia.
    intros Hz. apply drop_ge. lia.
Defined.

Lemma quiet_honest : honest_env quiet_env.
Proof. split; [|done]. cbn. intros n m. case_match; [|done]. intros [= <-]. rewrite length_replicate. lia. Qed.

(** A stream that has given "ab" of a buffer "abcd". *)
Definition read_stream : FILE :=
  mk_file 2 2 0 __SRD (Some [97; 98; 99; 100]) 4 0 None 0 0 [0; 0; 0] [0] [].

Definition source : console := mk_console [101; 10; 102; 103; 104] [] [1; 2].

Lemma read_stream_ok d : reading read_stream d.
Proof. split; try done. by intros m [= <-]. Qed.

Lemma sgetc_next_witness : exists c fp' d', __sgetc quiet_env id read_stream source = Some (c, fp', d') /\ reading fp' d'.
Proof.
  destruct (sgetc_next quiet_env id (fun _ => eq_refl) quiet_honest read_stream source) as (c & fp' & d' & E & H & _);
    [apply read_stream_ok|]. exists c, fp', d'. exact (conj E H).
Defined.

Lemma ungetc_pushes_witness :
  exists r fp', ungetc quiet_env 120 read_stream source = Some (r, fp', source) /\ pending fp' source = 120 :: pending read_stream source.
Proof.
  destruct (ungetc_pushes quiet_env quiet_honest read_stream source 120) as (r & fp' & E & _ & [[-> H]|(_ & _ & [m Hm])]);
    [apply read_stream_ok|done|done| |done].
  exists (u8 120), fp'. exact (conj E H).
Defined.

Lemma fread_reads_witness :
  exists r got fp' d', fread quiet_env id 2 3 read_stream source = Some (r, got, fp', d') /\ pending read_stream source = got ++ pending fp' d'.
Proof.
  destruct (fread_reads quiet_env id (fun _ => eq_refl) quiet_honest 2 3 read_stream source) as (r & got & fp' & d' & E & _ & H & _);
    [apply read_stream_ok|done|done|done|]. exists r, got, fp', d'. exact (conj E H).
Defined.

Lemma fgets_line_witness :
  exists o fp' d', fgets quiet_env id 80 read_stream source = Some (o, fp', d') /\ reading fp' d'.
Proof.
  destruct (fgets_line quiet_env id (fun _ => eq_refl) quiet_honest 80 read_stream source) as (o & fp' & d' & E & H & _);
    [apply read_stream_ok|done|]. exists o, fp', d'. exact (conj E H).
Defined.

Example fgets_reads : (fun x => x.1.1) <$> fgets quiet_env id 80 read_stream source = Some (Some [99; 100; 101; 10]).
Proof. by vm_compute. Qed.

(** A size and a count whose product is 0 modulo 2^32: nothing is read and nothing is
    said. *)
Example fread_wraps d : fread quiet_env id 0x10000 0x10000 read_stream d = Some (0, [], read_stream, d).
Proof. reflexivity. Qed.

(** Four elements more than that: the result is the whole count. *)
Example fread_wraps_short : (fun x => x.1.1) <$> fread quiet_env id 0x40000001 4 read_stream source = Some (4, [99; 100; 101; 10]).
Proof. by vm_compute. Qed.
