(* ===== verification/TimeTm.v ===== *)
(** * Broken-down time

    Models the second half of static/localtime.c: [timesub], [localsub], [gmtsub],
    [tmcomp], the two overflow checks, [time2], [time1], mktime, localtime and gmtime.
    The tables of a zone ([state]) are lists; TZif files and TZ strings, which fill
    them, are not modelled, nor are tm_gmtoff, tm_zone and tzname.  int, long and time_t have 32 bits; / and % truncate.  The
    result [None] is a read outside a table, or fuel that does not suffice: the
    theorems show that it does. *)

From S2P Require Import Prelude.

Module Tm.

Definition SECSPERMIN : Z := 60.
Definition MINSPERHOUR : Z := 60.
Definition HOURSPERDAY : Z := 24.
Definition DAYSPERWEEK : Z := 7.
Definition DAYSPERNYEAR : Z := 365.
Definition DAYSPERLYEAR : Z := 366.
Definition SECSPERHOUR : Z := 3600.
Definition SECSPERDAY : Z := 86400.
Definition MONSPERYEAR : Z := 12.
Definition TM_YEAR_BASE : Z := 1900.
Definition EPOCH_YEAR : Z := 1970.
Definition EPOCH_WDAY : Z := 4.
Definition WRONG : Z := -1.

Definition isleap (y : Z) : bool := ((Z.rem y 4 =? 0) && negb (Z.rem y 100 =? 0)) || (Z.rem y 400 =? 0).

Definition mon_lengths (leap : bool) : list Z :=
  if leap then [31; 29; 31; 30; 31; 30; 31; 31; 30; 31; 30; 31]
  else [31; 28; 31; 30; 31; 30; 31; 31; 30; 31; 30; 31].

Definition year_lengths (leap : bool) : Z := if leap then DAYSPERLYEAR else DAYSPERNYEAR.

Record tm := mk_tm {
  tm_sec : Z; tm_min : Z; tm_hour : Z; tm_mday : Z; tm_mon : Z; tm_year : Z;
  tm_wday : Z; tm_yday : Z; tm_isdst : Z
}.

Record ttinfo := mk_ttinfo { tt_gmtoff : Z; tt_isdst : Z }.
Record lsinfo := mk_lsinfo { ls_trans : Z; ls_corr : Z }.
Record state := mk_state { ats : list Z; types : list Z; ttis : list ttinfo; lsis : list lsinfo }.

(** ** timesub *)

(** The leap seconds in front of the one with the number [i] that follow each other. *)
Fixpoint more_hits (i : nat) (l : list lsinfo) (hit : Z) : option Z :=
  match i with
  | O => Some hit
  | S i' =>
    a ← l !! i; b ← l !! i';
    if (ls_trans a =? ls_trans b + 1) && (ls_corr a =? ls_corr b + 1) then more_hits i' l (hit + 1) else Some hit
  end.

(** [while (--i >= 0)]: corr and hit.  The record in front of the first one is read
    when the first correction is not positive. *)
Fixpoint leap (i : nat) (l : list lsinfo) (t : Z) : option (Z * Z) :=
  match i with
  | O => Some (0, 0)
  | S i =>
    lp ← l !! i;
    if ls_trans lp <=? t then
      if t =? ls_trans lp then
        first ← (if (Z.of_nat i =? 0) && (0 <? ls_corr lp) then Some true
                 else prev ← aget l (Z.of_nat i - 1); Some (ls_corr prev <? ls_corr lp));
        hit ← (if (first : bool) then more_hits i l 1 else Some 0);
        Some (ls_corr lp, hit)
      else Some (ls_corr lp, 0)
    else leap i l t
  end.

Fixpoint rem_up (fuel : nat) (rem days : Z) : option (Z * Z) :=
  if rem <? 0 then match fuel with O => None | S fuel => rem_up fuel (rem + SECSPERDAY) (days - 1) end
  else Some (rem, days).

Fixpoint rem_down (fuel : nat) (rem days : Z) : option (Z * Z) :=
  if SECSPERDAY <=? rem then match fuel with O => None | S fuel => rem_down fuel (rem - SECSPERDAY) (days + 1) end
  else Some (rem, days).

Definition LEAPS_THRU_END_OF (y : Z) : Z := Z.quot y 4 - Z.quot y 100 + Z.quot y 400.

(** The year, and the days that are left. *)
Fixpoint find_year (fuel : nat) (y days : Z) : option (Z * Z) :=
  if (days <? 0) || (year_lengths (isleap y) <=? days) then
    match fuel with
    | O => None
    | S fuel =>
      let newy := y + Z.quot days DAYSPERNYEAR in
      let newy := if days <? 0 then newy - 1 else newy in
      find_year fuel newy (days - ((newy - y) * DAYSPERNYEAR + LEAPS_THRU_END_OF (newy - 1) - LEAPS_THRU_END_OF (y - 1)))
    end
  else Some (y, days).

(** The month, and the days that are left. *)
Fixpoint find_month (l : list Z) (mon days : Z) : option (Z * Z) :=
  match l with
  | [] => None
  | len :: l => if len <=? days then find_month l (mon + 1) (days - len) else Some (mon, days)
  end.

(** [leaps] are the leap seconds of the zone. *)
Definition timesub (t offset : Z) (leaps : list lsinfo) : option tm :=
  '(corr, hit) ← leap (length leaps) leaps t;
  let days := Z.quot t SECSPERDAY in
  let rem := s32 (Z.rem t SECSPERDAY + (offset - corr)) in
  '(rem, days) ← rem_up (Z.to_nat (- rem)) rem days;
  '(rem, days) ← rem_down (Z.to_nat rem) rem days;
  let hour := Z.quot rem SECSPERHOUR in
  let rem := Z.rem rem SECSPERHOUR in
  let min := Z.quot rem SECSPERMIN in
  let sec := Z.rem rem SECSPERMIN + hit in
  let wday := Z.rem (EPOCH_WDAY + days) DAYSPERWEEK in
  let wday := if wday <? 0 then wday + DAYSPERWEEK else wday in
  '(y, yday) ← find_year 6 EPOCH_YEAR days;
  '(mon, days) ← find_month (mon_lengths (isleap y)) 0 yday;
  Some (mk_tm sec min hour (days + 1) mon (y - TM_YEAR_BASE) wday yday 0).

Definition gmtsub (gmt : state) (t offset : Z) : option tm := timesub t offset (lsis gmt).

Definition gmtime (gmt : state) (t : Z) : option tm := gmtsub gmt t 0.

(** The first type that is not daylight saving time, or the type 0. *)
Fixpoint first_std (l : list ttinfo) (i : Z) : Z :=
  match l with
  | [] => 0
  | ty :: l => if tt_isdst ty =? 0 then i else first_std l (i + 1)
  end.

(** [for (i = 1; i < sp->timecnt; ++i) if (t < sp->ats[i]) break;] *)
Fixpoint find_trans (l : list Z) (i t : Z) : Z :=
  match l with
  | [] => i
  | a :: l => if t <? a then i else find_trans l (i + 1) t
  end.

Definition localsub (lcl : state) (t offset : Z) : option tm :=
  i ← match ats lcl with
      | [] => Some (first_std (ttis lcl) 0)
      | a :: l => if t <? a then Some (first_std (ttis lcl) 0) else aget (types lcl) (find_trans l 1 t - 1)
      end;
  ty ← aget (ttis lcl) i;
  r ← timesub t (tt_gmtoff ty) (lsis lcl);
  Some (mk_tm (tm_sec r) (tm_min r) (tm_hour r) (tm_mday r) (tm_mon r) (tm_year r) (tm_wday r) (tm_yday r) (tt_isdst ty)).

(** ** time2 *)

(** Whether it overflowed, and the sum. *)
Definition increment_overflow (number delta : Z) : bool * Z :=
  let n := s32 (number + delta) in (negb (Bool.eqb (n <? number) (delta <? 0)), n).

(** Whether it overflowed, the tens and the units. *)
Definition normalize_overflow (tens units base : Z) : bool * Z * Z :=
  let tensdelta := if 0 <=? units then Z.quot units base else -1 - Z.quot (-1 - units) base in
  let '(bad, tens) := increment_overflow tens tensdelta in
  (bad, tens, units - tensdelta * base).

Definition tmcomp (a b : tm) : Z :=
  let r := s32 (tm_year a - tm_year b) in
  if negb (r =? 0) then r else
  let r := s32 (tm_mon a - tm_mon b) in
  if negb (r =? 0) then r else
  let r := s32 (tm_mday a - tm_mday b) in
  if negb (r =? 0) then r else
  let r := s32 (tm_hour a - tm_hour b) in
  if negb (r =? 0) then r else
  let r := s32 (tm_min a - tm_min b) in
  if negb (r =? 0) then r else s32 (tm_sec a - tm_sec b).

(** The year whose length lies between a month of [year] and the same one a year later. *)
Definition span_year (year mon : Z) : Z := year + (if 1 <? mon then 1 else 0).

(** The three loops for a day outside its month; the first component of a result is
    an overflow. *)
Fixpoint mday_up (fuel : nat) (year mon mday : Z) : option (bool * Z * Z) :=
  if mday <=? 0 then
    match fuel with
    | O => None
    | S fuel =>
      let '(bad, year) := increment_overflow year (-1) in
      if bad then Some (true, year, mday) else mday_up fuel year mon (mday + year_lengths (isleap (span_year year mon)))
    end
  else Some (false, year, mday).

Fixpoint mday_down (fuel : nat) (year mon mday : Z) : option (bool * Z * Z) :=
  if DAYSPERLYEAR <? mday then
    match fuel with
    | O => None
    | S fuel =>
      let mday := mday - year_lengths (isleap (span_year year mon)) in
      let '(bad, year) := increment_overflow year 1 in
      if bad then Some (true, year, mday) else mday_down fuel year mon mday
    end
  else Some (false, year, mday).

Fixpoint mday_month (fuel : nat) (year mon mday : Z) : option (bool * Z * Z * Z) :=
  len ← aget (mon_lengths (isleap year)) mon;
  if mday <=? len then Some (false, year, mon, mday)
  else
    match fuel with
    | O => None
    | S fuel =>
      let mday := mday - len in
      if MONSPERYEAR <=? mon + 1 then
        let '(bad, year) := increment_overflow year 1 in
        if bad then Some (true, year, 0, mday) else mday_month fuel year 0 mday
      else mday_month fuel year (mon + 1) mday
    end.

(** yourtm after all of that; [None] inside is WRONG. *)
Definition normalize (tmp : tm) : option (option tm) :=
  let '(bad, hour, min) := normalize_overflow (tm_hour tmp) (tm_min tmp) MINSPERHOUR in
  if bad then Some None else
  let '(bad, mday, hour) := normalize_overflow (tm_mday tmp) hour HOURSPERDAY in
  if bad then Some None else
  let '(bad, year, mon) := normalize_overflow (tm_year tmp) (tm_mon tmp) MONSPERYEAR in
  if bad then Some None else
  let '(bad, year) := increment_overflow year TM_YEAR_BASE in
  if bad then Some None else
  '(bad, year, mday) ← mday_up (S (Z.to_nat (- mday))) year mon mday;
  if (bad : bool) then Some None else
  '(bad, year, mday) ← mday_down (Z.to_nat mday) year mon mday;
  if (bad : bool) then Some None else
  '(bad, year, mon, mday) ← mday_month (Z.to_nat mday) year mon mday;
  if (bad : bool) then Some None else
  let '(bad, year) := increment_overflow year (- TM_YEAR_BASE) in
  if bad then Some None
  else Some (Some (mk_tm (tm_sec tmp) min hour mday mon year (tm_wday tmp) (tm_yday tmp) (tm_isdst tmp))).

Section Search.
Context (funcp : Z -> option tm) (sp_types : list ttinfo).

(** The hunt for a time of the right type: [pairs] are the pairs (i, j) in the order of
    the two loops. *)
Fixpoint hunt (pairs : list (ttinfo * ttinfo)) (your : tm) (t : Z) : option (option Z) :=
  match pairs with
  | [] => Some None
  | (i, j) :: pairs =>
    if negb (tt_isdst i =? tm_isdst your) || (tt_isdst j =? tm_isdst your) then hunt pairs your t
    else
      let newt := s32 (t + tt_gmtoff j - tt_gmtoff i) in
      my ← funcp newt;
      if negb (tmcomp my your =? 0) || negb (tm_isdst my =? tm_isdst your) then hunt pairs your t
      else Some (Some newt)
  end.

Definition type_pairs : list (ttinfo * ttinfo) :=
  i ← reverse sp_types; j ← reverse sp_types; [(i, j)].

(** The binary search; [None] inside is WRONG. *)
Fixpoint search (fuel : nat) (your : tm) (bits t : Z) : option (option Z) :=
  my ← funcp t;
  let dir := tmcomp my your in
  if negb (dir =? 0) then
    if bits <? 0 then Some None
    else
      match fuel with
      | O => None
      | S fuel =>
        let bits := bits - 1 in
        let t :=
          if bits <? 0 then s32 (t - 1)
          else if 0 <? dir then s32 (t - Z.shiftl 1 bits) else s32 (t + Z.shiftl 1 bits) in
        search fuel your bits t
      end
  else if (tm_isdst your <? 0) || (tm_isdst my =? tm_isdst your) then Some (Some t)
  else hunt type_pairs your t.

(** The result and *tmp; the first component is *okayp. *)
Definition time2 (tmp : tm) : option (bool * Z * tm) :=
  n ← normalize tmp;
  match n with
  | None => Some (false, WRONG, tmp)
  | Some your =>
    let '(bad, saved, sec) :=
      if tm_year your + TM_YEAR_BASE <? EPOCH_YEAR then
        let '(bad, saved) := increment_overflow (tm_sec your) (1 - SECSPERMIN) in (bad, saved, SECSPERMIN - 1)
      else (false, tm_sec your, 0) in
    if (bad : bool) then Some (false, WRONG, tmp)
    else
      let your := mk_tm sec (tm_min your) (tm_hour your) (tm_mday your) (tm_mon your) (tm_year your)
                    (tm_wday your) (tm_yday your) (tm_isdst your) in
      r ← search 33 your 31 0;
      match r with
      | None => Some (false, WRONG, tmp)
      | Some t =>
        let newt := s32 (t + saved) in
        if negb (Bool.eqb (newt <? t) (saved <? 0)) then Some (false, WRONG, tmp)
        else tmp ← funcp newt; Some (true, newt, tmp)
      end
  end.

(** The pairs (samei, otheri) of time1. *)
Fixpoint other_types (pairs : list (ttinfo * ttinfo)) (tmp : tm) : option (Z * tm) :=
  match pairs with
  | [] => Some (WRONG, tmp)
  | (same, other) :: pairs =>
    if negb (tt_isdst same =? tm_isdst tmp) || (tt_isdst other =? tm_isdst tmp) then other_types pairs tmp
    else
      '(okay, t, tmp') ← time2 (mk_tm (s32 (tm_sec tmp + (tt_gmtoff other - tt_gmtoff same))) (tm_min tmp) (tm_hour tmp) (tm_mday tmp)
                                  (tm_mon tmp) (tm_year tmp) (tm_wday tmp) (tm_yday tmp) (if tm_isdst tmp =? 0 then 1 else 0));
      if (okay : bool) then Some (t, tmp') else other_types pairs tmp
  end.

Definition time1 (tmp : tm) : option (Z * tm) :=
  let tmp :=
    if 1 <? tm_isdst tmp then
      mk_tm (tm_sec tmp) (tm_min tmp) (tm_hour tmp) (tm_mday tmp) (tm_mon tmp) (tm_year tmp) (tm_wday tmp) (tm_yday tmp) 1
    else tmp in
  '(okay, t, tmp) ← time2 tmp;
  if (okay : bool) || (tm_isdst tmp <? 0) then Some (t, tmp) else other_types type_pairs tmp.
End Search.

(** After tzset. *)
Definition mktime (lcl : state) (tmp : tm) : option (Z * tm) := time1 (fun t => localsub lcl t 0) (ttis lcl) tmp.
Definition localtime (lcl : state) (t : Z) : option tm := localsub lcl t 0.
End Tm.

Import Tm.

(** ** The calendar *)

Definition leap_days (y : Z) : Z := y / 4 - y / 100 + y / 400.

(** The days from the epoch to the first of January. *)
Definition year_start (y : Z) : Z := 365 * (y - 1970) + leap_days (y - 1) - leap_days 1969.

Definition month_start (leap : bool) (mon : Z) : Z := foldr Z.add 0 (take (Z.to_nat mon) (mon_lengths leap)).

Lemma rem_0 y k : 0 < k -> (Z.rem y k =? 0) = (y mod k =? 0).
Proof. intros Hk. apply eq_bool_prop_intro. rewrite !Is_true_true, !Z.eqb_eq. apply Z.rem_mod_eq_0. lia. Qed.

Lemma isleap_cases y : isleap y = true /\ year_start (y + 1) = year_start y + 366 \/
                       isleap y = false /\ year_start (y + 1) = year_start y + 365.
Proof.
  unfold isleap, year_start, leap_days. rewrite !rem_0 by lia. replace (y + 1 - 1) with y by lia.
  destruct (Z.eqb_spec (y mod 4) 0), (Z.eqb_spec (y mod 100) 0), (Z.eqb_spec (y mod 400) 0); cbn [andb orb negb];
    first [left; split; [done|]; Z.div_mod_to_equations; lia | right; split; [done|]; Z.div_mod_to_equations; lia].
Qed.

Lemma year_start_succ y : year_start (y + 1) = year_start y + year_lengths (isleap y).
Proof. by destruct (isleap_cases y) as [[-> ->]|[-> ->]]. Qed.

Lemma year_length_range b : 365 <= year_lengths b <= 366.
Proof. by destruct b. Qed.

Lemma year_start_pred y : year_start (y - 1) = year_start y - year_lengths (isleap (y - 1)).
Proof. pose proof (year_start_succ (y - 1)) as H. rewrite Z.sub_add in H. lia. Qed.

Lemma year_start_le y y' : y < y' -> year_start y + year_lengths (isleap y) <= year_start y'.
Proof.
  intros H. rewrite <- year_start_succ. replace y' with (y + 1 + Z.of_nat (Z.to_nat (y' - y - 1))) by lia.
  generalize (Z.to_nat (y' - y - 1)) as n. induction n as [|n IH]; [rewrite Z.add_0_r; lia|].
  replace (y + 1 + Z.of_nat (S n)) with (y + 1 + Z.of_nat n + 1) by lia. rewrite (year_start_succ (y + 1 + Z.of_nat n)).
  pose proof (year_length_range (isleap (y + 1 + Z.of_nat n))). lia.
Qed.

(** Between two years there are few leap days. *)
Lemma leap_days_range a b : 0 <= a <= b -> 0 <= leap_days b - leap_days a <= (b - a) / 4 + 1.
Proof. intros H. unfold leap_days. split; Z.div_mod_to_equations; lia. Qed.

Lemma LEAPS_eq y : 0 <= y -> LEAPS_THRU_END_OF y = leap_days y.
Proof. intros H. unfold LEAPS_THRU_END_OF, leap_days. by rewrite !Z.quot_div_nonneg by lia. Qed.

(** *** The year *)

Definition in_year (y days : Z) (r : option (Z * Z)) : Prop :=
  exists y' yday, r = Some (y', yday) /\ year_start y' + yday = year_start y + days /\ 0 <= yday < year_lengths (isleap y').

Lemma find_year_here fuel y days : 0 <= days < year_lengths (isleap y) -> in_year y days (find_year fuel y days).
Proof.
  intros H. assert (find_year fuel y days = Some (y, days)) as ->; [|by exists y, days].
  destruct fuel; cbn [find_year]; rewrite (proj2 (Z.ltb_ge days 0)), (proj2 (Z.leb_gt (year_lengths (isleap y)) days)) by lia; done.
Qed.

(** One turn: to [newy]. *)
Lemma find_year_turn fuel y days newy : 1 <= y -> 1 <= newy -> (days < 0 \/ year_lengths (isleap y) <= days) ->
  newy = y + Z.quot days 365 - (if days <? 0 then 1 else 0) ->
  in_year newy (days + year_start y - year_start newy) (find_year fuel newy (days + year_start y - year_start newy)) ->
  in_year y days (find_year (S fuel) y days).
Proof.
  intros Hy Hn Hout E Hin. cbn [find_year].
  replace ((days <? 0) || (year_lengths (isleap y) <=? days)) with true
    by (symmetry; apply orb_true_iff; rewrite Z.ltb_lt, Z.leb_le; lia).
  replace (if days <? 0 then y + Z.quot days DAYSPERNYEAR - 1 else y + Z.quot days DAYSPERNYEAR) with newy
    by (rewrite E; unfold DAYSPERNYEAR; destruct (days <? 0); lia).
  rewrite !LEAPS_eq by lia. unfold DAYSPERNYEAR.
  replace (days - ((newy - y) * 365 + leap_days (newy - 1) - leap_days (y - 1))) with (days + year_start y - year_start newy)
    by (unfold year_start; lia).
  destruct Hin as (y' & yday & -> & E' & Hr). exists y', yday. split_and!; [done|lia|lia|lia].
Qed.

Lemma find_year_near fuel y days : 2 <= y -> -60 <= days <= 420 -> in_year y days (find_year (S fuel) y days).
Proof.
  intros Hy Hd. pose proof (year_length_range (isleap y)) as Hl. destruct (Z_lt_le_dec days 0) as [Hneg|Hpos].
  - pose proof (year_start_pred y) as Hp. pose proof (year_length_range (isleap (y - 1))).
    apply (find_year_turn _ _ _ (y - 1)); [lia|lia|by left| |].
    + rewrite (proj2 (Z.ltb_lt _ _)) by lia. replace (Z.quot days 365) with 0; [lia|]. symmetry. apply Z.quot_small_iff; lia.
    + apply find_year_here. lia.
  - destruct (Z_lt_le_dec days (year_lengths (isleap y))) as [Hin|Hbig]; [by apply find_year_here|].
    pose proof (year_start_succ y) as Hs. pose proof (year_length_range (isleap (y + 1))).
    apply (find_year_turn _ _ _ (y + 1)); [lia|lia|by right| |].
    + rewrite (proj2 (Z.ltb_ge _ _)) by lia. rewrite Z.quot_div_nonneg by lia. Z.div_mod_to_equations. lia.
    + apply find_year_here. lia.
Qed.

Lemma find_year_spec days : -30000 <= days <= 30000 -> in_year 1970 days (find_year 6 1970 days).
Proof.
  intros Hd. destruct (decide (-60 <= days <= 420)); [by apply find_year_near|].
  pose proof (year_length_range (isleap 1970)).
  destruct (Z_lt_le_dec days 0) as [Hneg|Hpos].
  - set (q := (- days) / 365). assert (Z.quot days 365 = - q) as Eq
      by (unfold q; rewrite <- (Z.opp_involutive days) at 1; rewrite Z.quot_opp_l, Z.quot_div_nonneg by lia; done).
    assert (0 <= q <= 82 /\ 0 <= - days - 365 * q < 365) as [Hq Hr] by (unfold q; Z.div_mod_to_equations; lia).
    apply (find_year_turn _ _ _ (1970 - q - 1)); [lia|lia|by left| |].
    + rewrite (proj2 (Z.ltb_lt _ _)), Eq by lia. lia.
    + pose proof (leap_days_range (1970 - q - 1 - 1) (1970 - 1)) as Hleap. apply find_year_near; [lia|].
      unfold year_start. Z.div_mod_to_equations. lia.
  - rewrite <- (Z.add_0_r days) in *. set (q := days / 365).
    assert (0 <= q <= 82 /\ 0 <= days - 365 * q < 365) as [Hq Hr] by (unfold q; Z.div_mod_to_equations; lia).
    apply (find_year_turn _ _ _ (1970 + q)); [lia|lia|right; lia| |].
    + rewrite (proj2 (Z.ltb_ge _ _)), Z.quot_div_nonneg by lia. rewrite Z.add_0_r. fold q. lia.
    + pose proof (leap_days_range (1970 - 1) (1970 + q - 1)) as Hleap. apply find_year_near; [lia|].
      unfold year_start. Z.div_mod_to_equations. lia.
Qed.

(** *** The month *)

Lemma find_month_spec l : Forall (fun x => 0 <= x) l -> forall mon days, 0 <= days < foldr Z.add 0 l ->
  exists k d, find_month l mon days = Some (mon + Z.of_nat k, d) /\ d + foldr Z.add 0 (take k l) = days /\ 0 <= d /\
    exists len, l !! k = Some len /\ d < len.
Proof.
  induction 1 as [|len l Hlen Hl IH]; intros mon days Hd; cbn [find_month foldr] in *; [lia|].
  destruct (Z.leb_spec len days) as [Hle|Hlt].
  - destruct (IH (mon + 1) (days - len)) as (k & d & -> & E & Hd0 & Hk); [lia|]. exists (S k), d.
    split; [f_equal; f_equal; lia|]. split_and!; [cbn; lia|done|done].
  - exists 0%nat, days. split; [f_equal; f_equal; lia|]. split_and!; [cbn; lia|lia|]. by exists len.
Qed.

Lemma mon_lengths_sum b : foldr Z.add 0 (mon_lengths b) = year_lengths b.
Proof. by destruct b. Qed.

Lemma mon_lengths_ok b : Forall (fun x => 0 <= x) (mon_lengths b) /\ length (mon_lengths b) = 12%nat.
Proof. destruct b; split; try done; repeat constructor; lia. Qed.

(** ** Times *)

Definition days_of (year mon mday : Z) : Z := year_start year + month_start (isleap year) mon + mday - 1.

(** The seconds since the epoch of a broken-down time. *)
Definition secs (r : tm) : Z :=
  SECSPERDAY * days_of (tm_year r + TM_YEAR_BASE) (tm_mon r) (tm_mday r) + SECSPERHOUR * tm_hour r + SECSPERMIN * tm_min r + tm_sec r.

Record valid (r : tm) : Prop := {
  v_sec : 0 <= tm_sec r < 60;
  v_min : 0 <= tm_min r < 60;
  v_hour : 0 <= tm_hour r < 24;
  v_mon : 0 <= tm_mon r < 12;
  v_mday : exists len, aget (mon_lengths (isleap (tm_year r + TM_YEAR_BASE))) (tm_mon r) = Some len /\ 1 <= tm_mday r <= len
}.

Lemma foldr_take_S l : forall k len, l !! k = Some len -> foldr Z.add 0 (take (S k) l) = foldr Z.add 0 (take k l) + len.
Proof.
  induction l as [|x l IH]; intros [|k] len H; [done|done| |].
  - injection H as ->. destruct l; cbn; lia.
  - change (x + foldr Z.add 0 (take (S k) l) = x + foldr Z.add 0 (take k l) + len). rewrite (IH k len H). lia.
Qed.

Lemma month_start_succ b mon len : aget (mon_lengths b) mon = Some len -> month_start b (mon + 1) = month_start b mon + len.
Proof.
  unfold aget. destruct (Z.leb_spec 0 mon); [|done]. intros Hl. unfold month_start.
  replace (Z.to_nat (mon + 1)) with (S (Z.to_nat mon)) by lia. by apply foldr_take_S.
Qed.

Lemma foldr_take_le l : Forall (fun x => 0 <= x) l -> forall j k, (j <= k)%nat -> foldr Z.add 0 (take j l) <= foldr Z.add 0 (take k l).
Proof.
  induction 1 as [|x l Hx Hl IH]; intros [|j] [|k] Hjk; cbn; try lia.
  - specialize (IH 0%nat k ltac:(lia)). change (0 <= foldr Z.add 0 (take k l)) in IH. lia.
  - specialize (IH j k ltac:(lia)). lia.
Qed.

Lemma month_start_le b m m' : 0 <= m <= m' -> month_start b m <= month_start b m'.
Proof. intros H. apply foldr_take_le; [apply mon_lengths_ok|lia]. Qed.

Lemma month_start_12 b : month_start b 12 = year_lengths b.
Proof. by destruct b. Qed.

(** A day of a month is a day of its year. *)
Lemma day_in_year b mon mday len : 0 <= mon < 12 -> aget (mon_lengths b) mon = Some len -> 1 <= mday <= len ->
  0 <= month_start b mon + mday - 1 < year_lengths b.
Proof.
  intros Hm Hl Hd. pose proof (month_start_succ b mon len Hl). pose proof (month_start_le b (mon + 1) 12 ltac:(lia)).
  pose proof (month_start_le b 0 mon ltac:(lia)). rewrite month_start_12 in *. change (month_start b 0) with 0 in *. lia.
Qed.

(** [tmcomp] compares times: a difference of the days or of the seconds of the day
    decides. *)
Lemma tmcomp_year a b : valid a -> valid b -> tm_year a < tm_year b ->
  days_of (tm_year a + TM_YEAR_BASE) (tm_mon a) (tm_mday a) < days_of (tm_year b + TM_YEAR_BASE) (tm_mon b) (tm_mday b).
Proof.
  intros Ha Hb Hlt. destruct (v_mday a Ha) as (la & Ea & Da), (v_mday b Hb) as (lb & Eb & Db).
  pose proof (day_in_year _ _ _ _ (v_mon a Ha) Ea Da). pose proof (day_in_year _ _ _ _ (v_mon b Hb) Eb Db).
  pose proof (year_start_le (tm_year a + TM_YEAR_BASE) (tm_year b + TM_YEAR_BASE) ltac:(lia)). unfold days_of. lia.
Qed.

Lemma tmcomp_mon a b : valid a -> valid b -> tm_year a = tm_year b -> tm_mon a < tm_mon b ->
  days_of (tm_year a + TM_YEAR_BASE) (tm_mon a) (tm_mday a) < days_of (tm_year b + TM_YEAR_BASE) (tm_mon b) (tm_mday b).
Proof.
  intros Ha Hb Ey Hlt. destruct (v_mday a Ha) as (la & Ea & Da), (v_mday b Hb) as (lb & Eb & Db). rewrite Ey in *.
  pose proof (month_start_succ _ _ _ Ea). pose proof (v_mon a Ha). pose proof (v_mon b Hb).
  pose proof (month_start_le (isleap (tm_year b + TM_YEAR_BASE)) (tm_mon a + 1) (tm_mon b) ltac:(lia)). unfold days_of. lia.
Qed.

Lemma secs_range r : valid r ->
  SECSPERDAY * days_of (tm_year r + TM_YEAR_BASE) (tm_mon r) (tm_mday r) <= secs r <
  SECSPERDAY * (days_of (tm_year r + TM_YEAR_BASE) (tm_mon r) (tm_mday r) + 1).
Proof. intros [Hs Hm Hh _ _]. unfold secs, SECSPERDAY, SECSPERHOUR, SECSPERMIN in *. lia. Qed.

Lemma mon_length_range b mon : 0 <= mon < 12 -> exists len, aget (mon_lengths b) mon = Some len /\ 28 <= len <= 31.
Proof.
  intros H. assert (mon ∈ [0; 1; 2; 3; 4; 5; 6; 7; 8; 9; 10; 11]) as Hin by (rewrite !elem_of_cons; lia).
  revert Hin. clear H. revert mon. rewrite <- Forall_forall. repeat constructor; destruct b; eexists; by split.
Qed.

Lemma year_near r days : days = days_of (tm_year r + TM_YEAR_BASE) (tm_mon r) (tm_mday r) -> valid r -> -30000 <= days <= 30000 ->
  Z.abs (tm_year r) <= 2 ^ 28.
Proof.
  intros -> Hv Hd. destruct (v_mday r Hv) as (len & El & Hl). pose proof (day_in_year _ _ _ _ (v_mon r Hv) El Hl) as Hday.
  unfold days_of in Hd. pose proof (year_length_range (isleap (tm_year r + TM_YEAR_BASE))). set (y := tm_year r + TM_YEAR_BASE) in *.
  assert (-30400 <= year_start y <= 30400) as Hy by lia. unfold year_start, leap_days in Hy. unfold TM_YEAR_BASE in *.
  Z.div_mod_to_equations. lia.
Qed.

Lemma mday_range r : valid r -> 1 <= tm_mday r <= 31.
Proof.
  intros Hv. destruct (v_mday r Hv) as (len & El & Hl), (mon_length_range (isleap (tm_year r + TM_YEAR_BASE)) _ (v_mon r Hv)) as (l' & El' & Hl').
  rewrite El in El'. injection El' as ->. lia.
Qed.

(** A distance from the epoch for which the years do not overflow. *)
Definition in_time (r : tm) : Prop := - 2 ^ 31 - 864000 <= secs r <= 2 ^ 31 + 864000.

Lemma in_time_year r : valid r -> in_time r -> Z.abs (tm_year r) <= 2 ^ 28.
Proof.
  intros Hv Hn. pose proof (secs_range r Hv). unfold in_time, SECSPERDAY in *. eapply year_near; [done|done|lia].
Qed.

Lemma tmcomp_secs a b : valid a -> valid b -> in_time a -> in_time b -> Z.sgn (tmcomp a b) = Z.sgn (secs a - secs b).
Proof.
  intros Ha Hb Hia Hib. pose proof (in_time_year a Ha Hia) as Ya. pose proof (in_time_year b Hb Hib) as Yb.
  pose proof (mday_range a Ha) as Da. pose proof (mday_range b Hb) as Db. clear Hia Hib.
  assert (tmcomp a b = let r := tm_year a - tm_year b in
    if negb (r =? 0) then r else let r := tm_mon a - tm_mon b in
    if negb (r =? 0) then r else let r := tm_mday a - tm_mday b in
    if negb (r =? 0) then r else let r := tm_hour a - tm_hour b in
    if negb (r =? 0) then r else let r := tm_min a - tm_min b in
    if negb (r =? 0) then r else tm_sec a - tm_sec b) as ->.
  { destruct Ha, Hb. unfold tmcomp. by rewrite !s32_id by (unfold is_s32; lia). }
  cbv zeta. clear Da Db Ya Yb. pose proof (secs_range a Ha) as Ra. pose proof (secs_range b Hb) as Rb. unfold SECSPERDAY in *.
  destruct (Z.eqb_spec (tm_year a - tm_year b) 0) as [Ey|Ey]; cbn [negb].
  2:{ destruct (Z_lt_le_dec (tm_year a) (tm_year b)) as [H|H].
      - pose proof (tmcomp_year a b Ha Hb H). lia.
      - pose proof (tmcomp_year b a Hb Ha ltac:(lia)). lia. }
  assert (tm_year a = tm_year b) as Ey' by lia.
  destruct (Z.eqb_spec (tm_mon a - tm_mon b) 0) as [Em|Em]; cbn [negb].
  2:{ destruct (Z_lt_le_dec (tm_mon a) (tm_mon b)) as [H|H].
      - pose proof (tmcomp_mon a b Ha Hb Ey' H). lia.
      - pose proof (tmcomp_mon b a Hb Ha ltac:(lia) ltac:(lia)). lia. }
  assert (tm_mon a = tm_mon b) as Em' by lia. destruct Ha as [A1 A2 A3 _ _], Hb as [B1 B2 B3 _ _]. clear Ra Rb.
  unfold secs, days_of, SECSPERDAY, SECSPERHOUR, SECSPERMIN. rewrite Ey', Em'.
  repeat match goal with |- context [negb (?x =? 0)] => destruct (Z.eqb_spec x 0); cbn [negb] end; lia.
Qed.

(** ** timesub *)

Lemma rem_up_spec fuel : forall rem days, (- rem <= Z.of_nat fuel * 1)%Z ->
  exists r d, rem_up fuel rem days = Some (r, d) /\ r + SECSPERDAY * d = rem + SECSPERDAY * days /\ 0 <= r /\ (r < SECSPERDAY \/ r = rem).
Proof.
  induction fuel as [|fuel IH]; intros rem days Hf; cbn [rem_up]; (destruct (Z.ltb_spec rem 0) as [Hneg|Hpos];
    [|exists rem, days; split_and!; try done; by right]); [lia|].
  destruct (IH (rem + SECSPERDAY) (days - 1)) as (r & d & -> & E & H0 & Hr); [unfold SECSPERDAY; lia|].
  exists r, d. split_and!; try done; [lia|]. left. unfold SECSPERDAY in *. lia.
Qed.

Lemma rem_down_spec fuel : forall rem days, 0 <= rem <= Z.of_nat fuel ->
  exists r d, rem_down fuel rem days = Some (r, d) /\ r + SECSPERDAY * d = rem + SECSPERDAY * days /\ 0 <= r < SECSPERDAY.
Proof.
  induction fuel as [|fuel IH]; intros rem days Hf; cbn [rem_down]; (destruct (Z.leb_spec SECSPERDAY rem) as [Hbig|Hin];
    [|exists rem, days; split_and!; try done; lia]); [unfold SECSPERDAY in *; lia|].
  destruct (IH (rem - SECSPERDAY) (days + 1)) as (r & d & -> & E & Hr); [unfold SECSPERDAY in *; lia|].
  exists r, d. split_and!; try done; lia.
Qed.

(** The offset of a zone from GMT, at most ten days. *)
Definition near (offset : Z) : Prop := -864000 <= offset <= 864000.

Lemma timesub_run t offset :
  is_s32 t -> near offset ->
  exists r, timesub t offset [] = Some r /\ valid r /\ secs r = t + offset /\ tm_isdst r = 0 /\
    tm_wday r = (4 + (t + offset) / 86400) mod 7 /\
    tm_yday r = month_start (isleap (tm_year r + TM_YEAR_BASE)) (tm_mon r) + tm_mday r - 1.
Proof.
  intros Ht Ho. unfold is_s32, near in *. unfold timesub. cbn [length leap mbind option_bind].
  rewrite Z.sub_0_r. assert (-86400 < Z.rem t SECSPERDAY < 86400 /\ t = 86400 * Z.quot t SECSPERDAY + Z.rem t SECSPERDAY) as [Hrem Et].
  { pose proof (Z.quot_rem' t SECSPERDAY). pose proof (Z.rem_bound_abs t SECSPERDAY). unfold SECSPERDAY in *. lia. }
  rewrite s32_id by (unfold is_s32; lia). set (rem := Z.rem t SECSPERDAY + offset). set (q := Z.quot t SECSPERDAY) in *.
  destruct (rem_up_spec (Z.to_nat (- rem)) rem q) as (r1 & d1 & -> & E1 & H1 & _); [lia|]. cbn [mbind option_bind].
  destruct (rem_down_spec (Z.to_nat r1) r1 d1) as (r2 & d2 & -> & E2 & H2); [lia|]. cbn [mbind option_bind].
  assert (t + offset = 86400 * d2 + r2) as Et2 by (unfold rem, SECSPERDAY in *; lia). unfold SECSPERDAY in H2.
  assert (d2 = (t + offset) / 86400) as Ed by (Z.div_mod_to_equations; lia).
  assert (-30000 <= d2 <= 30000) as Hd2 by lia.
  change EPOCH_YEAR with 1970. destruct (find_year_spec d2 Hd2) as (y & yday & -> & Ey & Hy). cbn [mbind option_bind].
  destruct (find_month_spec (mon_lengths (isleap y)) (proj1 (mon_lengths_ok _)) 0 yday) as (k & d & -> & Em & Hd0 & len & Hk & Hlen);
    [rewrite mon_lengths_sum; lia|]. cbn [mbind option_bind].
  apply lookup_lt_Some in Hk as Hk12. rewrite (proj2 (mon_lengths_ok (isleap y))) in Hk12.
  eexists. split; [done|].
  assert (y - TM_YEAR_BASE + TM_YEAR_BASE = y) as Eyy by lia.
  rewrite !(Z.rem_mod_nonneg r2), !Z.quot_div_nonneg by (try apply Z.rem_nonneg; unfold SECSPERHOUR, SECSPERMIN; try lia; Z.div_mod_to_equations; lia).
  rewrite !Z.rem_mod_nonneg by (unfold SECSPERHOUR, SECSPERMIN; Z.div_mod_to_equations; lia).
  assert (month_start (isleap y) (0 + Z.of_nat k) + (d + 1) - 1 = yday) as Emd
    by (unfold month_start; replace (Z.to_nat (0 + Z.of_nat k)) with k by lia; lia).
  split_and!.
  - split; cbn; unfold SECSPERHOUR, SECSPERMIN; [Z.div_mod_to_equations; lia..|lia|].
    rewrite Eyy. exists len. split; [|lia]. unfold aget. rewrite (proj2 (Z.leb_le _ _)) by lia. by replace (Z.to_nat (0 + Z.of_nat k)) with k by lia.
  - unfold secs, days_of. cbn [tm_sec tm_min tm_hour tm_mday tm_mon tm_year]. rewrite Eyy.
    assert (year_start y + month_start (isleap y) (0 + Z.of_nat k) + (d + 1) - 1 = d2) as ->
      by (change (year_start 1970) with 0 in Ey; lia).
    unfold SECSPERDAY, SECSPERHOUR, SECSPERMIN. Z.div_mod_to_equations. lia.
  - done.
  - cbn [tm_wday]. rewrite <- Ed. unfold EPOCH_WDAY, DAYSPERWEEK. destruct (Z.ltb_spec (Z.rem (4 + d2) 7) 0) as [Hw|Hw].
    + pose proof (Z.quot_rem' (4 + d2) 7). pose proof (Z.rem_bound_abs (4 + d2) 7 ltac:(lia)).
      apply (Z.mod_unique _ _ (Z.quot (4 + d2) 7 - 1)); lia.
    + pose proof (Z.quot_rem' (4 + d2) 7). pose proof (Z.rem_bound_abs (4 + d2) 7 ltac:(lia)).
      apply (Z.mod_unique _ _ (Z.quot (4 + d2) 7)); lia.
  - cbn [tm_yday tm_mon tm_mday tm_year]. rewrite Eyy. lia.
Qed.

(** ** A zone with one type of time *)

(** Its offset is [offset]; no daylight saving time, transitions or leap seconds. *)
Definition fixed (offset : Z) : state := mk_state [] [0] [mk_ttinfo offset 0] [].

Lemma localsub_fixed t offset : is_s32 t -> near offset ->
  exists r, localsub (fixed offset) t 0 = Some r /\ valid r /\ secs r = t + offset /\ tm_isdst r = 0.
Proof.
  intros Ht Ho. destruct (timesub_run t offset Ht Ho) as (r & E & Hv & Hs & Hd & _).
  assert (localsub (fixed offset) t 0 =
    r ← timesub t offset [];
    Some (mk_tm (tm_sec r) (tm_min r) (tm_hour r) (tm_mday r) (tm_mon r) (tm_year r) (tm_wday r) (tm_yday r) 0)) as -> by reflexivity.
  rewrite E. cbn [mbind option_bind]. eexists. split; [done|]. split_and!; [|done|done]. destruct Hv. by split.
Qed.

(** *** The binary search *)

Lemma s32_shift x : - 2 ^ 31 <= x < 2 ^ 31 -> s32 x = x.
Proof. intros H. apply s32_id. unfold is_s32. lia. Qed.

(** In this zone a time for which daylight saving time is asked for is found, but
    has the wrong type. *)
Definition dst_found (your : tm) (t : Z) : option Z := if 0 <? tm_isdst your then None else Some t.

(** After the turn with [b] bits left the time is within [2 ^ b] of the one sought. *)
Lemma search_spec offset your target : near offset -> valid your -> secs your = target + offset -> is_s32 target ->
  forall b t, (b <= 31)%nat -> - 2 ^ Z.of_nat b <= target - t <= 2 ^ Z.of_nat b - 1 -> Z.abs t <= 2 ^ 31 - 2 ^ Z.of_nat b ->
  search (fun t => localsub (fixed offset) t 0) (ttis (fixed offset)) (S (S b)) your (Z.of_nat b) t = Some (dst_found your target).
Proof.
  intros Ho Hv Hs Ht. unfold is_s32 in Ht.
  assert (forall r t, is_s32 t -> secs r = t + offset -> in_time r) as Hnear by (unfold is_s32, near, in_time in *; lia).
  pose proof (Hnear your target Ht Hs) as Hny.
  assert (forall fuel bits, search (fun t => localsub (fixed offset) t 0) (ttis (fixed offset)) fuel your bits target = Some (dst_found your target)) as Hhit.
  { intros fuel bits. destruct (localsub_fixed target offset Ht Ho) as (r & E & Hr & Hsr & Hdr).
    pose proof (tmcomp_secs r your Hr Hv (Hnear r _ Ht Hsr) Hny) as Hc. rewrite Hsr, Hs, Z.sub_diag in Hc. cbn in Hc. assert (tmcomp r your = 0) as Hc0 by lia.
    assert (forall f, (if (tm_isdst your <? 0) || (tm_isdst r =? tm_isdst your) then Some (Some target)
                       else hunt f (type_pairs (ttis (fixed offset))) your target) = Some (dst_found your target)) as Hf.
    { intros f. change (type_pairs (ttis (fixed offset))) with [(mk_ttinfo offset 0, mk_ttinfo offset 0)].
      unfold dst_found. rewrite Hdr. cbn [hunt tt_isdst].
      destruct (Z.ltb_spec (tm_isdst your) 0), (Z.eqb_spec 0 (tm_isdst your)), (Z.ltb_spec 0 (tm_isdst your)); try done; lia. }
    destruct fuel; cbn [search]; rewrite E; cbn [mbind option_bind]; rewrite Hc0; cbn [Z.eqb negb]; apply Hf. }
  assert (forall fuel bits t, is_s32 t -> t <> target -> 0 <= bits ->
    search (fun t => localsub (fixed offset) t 0) (ttis (fixed offset)) (S fuel) your bits t =
    search (fun t => localsub (fixed offset) t 0) (ttis (fixed offset)) fuel your (bits - 1)
      (if bits - 1 <? 0 then s32 (t - 1)
       else if target <? t then s32 (t - Z.shiftl 1 (bits - 1)) else s32 (t + Z.shiftl 1 (bits - 1)))) as Hturn.
  { intros fuel bits t Ht' Hne Hb. destruct (localsub_fixed t offset Ht' Ho) as (r & E & Hr & Hsr & Hdr).
    pose proof (tmcomp_secs r your Hr Hv (Hnear r _ Ht' Hsr) Hny) as Hc. rewrite Hsr, Hs in Hc. cbn [search]. rewrite E. cbn [mbind option_bind].
    destruct (Z.eqb_spec (tmcomp r your) 0) as [E0|_]; [rewrite E0 in Hc; lia|]. cbn [negb].
    rewrite (proj2 (Z.ltb_ge bits 0)) by lia.
    by replace (0 <? tmcomp r your) with (target <? t) by (destruct (Z.ltb_spec target t), (Z.ltb_spec 0 (tmcomp r your)); lia). }
  induction b as [|b IH]; intros t Hb31 Hin Habs.
  - destruct (decide (t = target)) as [->|Hne]; [apply Hhit|]. change (2 ^ Z.of_nat 0) with 1 in *.
    rewrite Hturn by (unfold is_s32; lia). cbn [Z.of_nat Z.sub Z.add Z.opp Z.ltb Z.compare].
    rewrite s32_shift by lia. replace (t - 1) with target by lia. apply Hhit.
  - destruct (decide (t = target)) as [->|Hne]; [apply Hhit|].
    assert (2 ^ Z.of_nat (S b) = 2 * 2 ^ Z.of_nat b) as E2 by (rewrite Nat2Z.inj_succ, Z.pow_succ_r; lia).
    assert (0 < 2 ^ Z.of_nat b) as Hpos by lia. rewrite E2 in *.
    rewrite Hturn by (unfold is_s32; lia). replace (Z.of_nat (S b) - 1) with (Z.of_nat b) by lia.
    rewrite (proj2 (Z.ltb_ge (Z.of_nat b) 0)), Z.shiftl_1_l by lia.
    destruct (Z.ltb_spec target t); rewrite s32_shift by lia; apply IH; lia.
Qed.

(** *** Fields outside their ranges *)

(** Small enough for the sums to stay in an int. *)
Record modest (r : tm) : Prop := {
  m_sec : Z.abs (tm_sec r) <= 2 ^ 28;
  m_min : Z.abs (tm_min r) <= 2 ^ 28;
  m_hour : Z.abs (tm_hour r) <= 2 ^ 28;
  m_mday : Z.abs (tm_mday r) <= 2 ^ 28;
  m_mon : Z.abs (tm_mon r) <= 2 ^ 28;
  m_year : Z.abs (tm_year r) <= 2 ^ 28
}.

(** The seconds since the epoch that the fields mean, whatever their values are. *)
Definition instant (r : tm) : Z :=
  SECSPERDAY * days_of (tm_year r + tm_mon r / MONSPERYEAR + TM_YEAR_BASE) (tm_mon r mod MONSPERYEAR) (tm_mday r) +
  SECSPERHOUR * tm_hour r + SECSPERMIN * tm_min r + tm_sec r.

Lemma increment_fits n d : Z.abs n <= 2 ^ 30 -> Z.abs d < 2 ^ 30 -> increment_overflow n d = (false, n + d).
Proof.
  intros Hn Hd. unfold increment_overflow. rewrite s32_shift by lia. f_equal.
  destruct (Z.ltb_spec (n + d) n), (Z.ltb_spec d 0); try done; lia.
Qed.

Lemma normalize_fits tens units base : 0 < base -> Z.abs tens <= 2 ^ 30 -> Z.abs units < 2 ^ 30 ->
  normalize_overflow tens units base = (false, tens + units / base, units mod base).
Proof.
  intros Hb Ht Hu. unfold normalize_overflow.
  assert ((if 0 <=? units then Z.quot units base else -1 - Z.quot (-1 - units) base) = units / base) as ->.
  { destruct (Z.leb_spec 0 units); [by apply Z.quot_div_nonneg|]. rewrite Z.quot_div_nonneg by lia.
    apply (Z.div_unique _ _ _ (base - 1 - (-1 - units) mod base)); Z.div_mod_to_equations; lia. }
  assert (Z.abs (units / base) < 2 ^ 30) by (Z.div_mod_to_equations; nia).
  rewrite increment_fits by done. f_equal. Z.div_mod_to_equations. lia.
Qed.

Lemma month_start_leap b mon : 0 <= mon < 12 -> month_start b mon = month_start false mon + (if (1 <? mon) && b then 1 else 0).
Proof.
  intros H. assert (mon ∈ [0; 1; 2; 3; 4; 5; 6; 7; 8; 9; 10; 11]) as Hin
    by (rewrite !elem_of_cons; lia).
  revert Hin. clear H. revert mon. rewrite <- Forall_forall. repeat constructor; destruct b; done.
Qed.

(** A year later. *)
Lemma days_of_year y mon mday : 0 <= mon < 12 ->
  days_of (y + 1) mon mday = days_of y mon (mday + year_lengths (isleap (span_year y mon))).
Proof.
  intros Hm. unfold days_of, span_year. rewrite (month_start_leap (isleap (y + 1)) mon Hm), (month_start_leap (isleap y) mon Hm).
  rewrite year_start_succ. destruct (1 <? mon); cbn [andb]; [|rewrite !Z.add_0_r; lia]. destruct (isleap y), (isleap (y + 1)); cbn [year_lengths]; unfold DAYSPERLYEAR, DAYSPERNYEAR; lia.
Qed.

Lemma mday_up_spec mon : 0 <= mon < 12 -> forall fuel year mday, - mday < Z.of_nat fuel -> - 2 ^ 30 <= year - Z.of_nat fuel -> year <= 2 ^ 30 ->
  exists year' mday', mday_up fuel year mon mday = Some (false, year', mday') /\
    days_of year' mon mday' = days_of year mon mday /\ 0 < mday' /\ (mday' = mday \/ mday' <= 366) /\ year - Z.of_nat fuel <= year' <= year.
Proof.
  intros Hm. induction fuel as [|fuel IH]; intros year mday Hf Hy Hy2; cbn [mday_up];
    (destruct (Z.leb_spec mday 0) as [Hneg|Hpos]; [|exists year, mday; split_and!; first [done | by left | lia]]); [lia|].
  rewrite increment_fits by lia. pose proof (year_length_range (isleap (span_year (year + -1) mon))).
  destruct (IH (year + -1) (mday + year_lengths (isleap (span_year (year + -1) mon)))) as (y' & m' & -> & E & H0 & Hm' & Hr); [lia..|].
  exists y', m'. split_and!; [done| |done| |lia|lia].
  - rewrite E, <- days_of_year by done. by replace (year + -1 + 1) with year by lia.
  - right. lia.
Qed.

Lemma mday_down_spec mon : 0 <= mon < 12 -> forall fuel year mday, 0 < mday -> mday <= Z.of_nat fuel -> - 2 ^ 30 <= year -> year + Z.of_nat fuel <= 2 ^ 30 ->
  exists year' mday', mday_down fuel year mon mday = Some (false, year', mday') /\
    days_of year' mon mday' = days_of year mon mday /\ 0 < mday' <= 366 /\ year <= year' <= year + Z.of_nat fuel.
Proof.
  intros Hm. induction fuel as [|fuel IH]; intros year mday Hp Hf Hy Hy2; cbn [mday_down];
    (destruct (Z.ltb_spec DAYSPERLYEAR mday) as [Hbig|Hin]; unfold DAYSPERLYEAR in *; [|exists year, mday; split_and!; try done; lia]); [lia|].
  rewrite increment_fits by lia. pose proof (year_length_range (isleap (span_year year mon))).
  destruct (IH (year + 1) (mday - year_lengths (isleap (span_year year mon)))) as (y' & m' & -> & E & Hm' & Hr); [lia..|].
  exists y', m'. split_and!; [done| |lia..]. rewrite E, days_of_year by done. by rewrite Z.sub_add.
Qed.

Lemma mday_month_spec : forall fuel year mon mday, 0 <= mon < 12 -> 0 < mday -> mday <= Z.of_nat fuel ->
  - 2 ^ 30 <= year -> year + Z.of_nat fuel <= 2 ^ 30 ->
  exists year' mon' mday', mday_month fuel year mon mday = Some (false, year', mon', mday') /\
    days_of year' mon' mday' = days_of year mon mday /\ 0 <= mon' < 12 /\ year <= year' <= year + Z.of_nat fuel /\
    exists len, aget (mon_lengths (isleap year')) mon' = Some len /\ 1 <= mday' <= len.
Proof.
  induction fuel as [|fuel IH]; intros year mon mday Hm Hp Hf Hy Hy2; cbn [mday_month];
    (destruct (mon_length_range (isleap year) mon Hm) as (len & El & Hlen); rewrite El; cbn [mbind option_bind];
     destruct (Z.leb_spec mday len) as [Hin|Hbig]; [exists year, mon, mday; split_and!; first [done | lia | exists len; split; [done|lia]]|]); [lia|].
  pose proof (month_start_succ _ _ _ El) as Hms. unfold MONSPERYEAR. destruct (Z.leb_spec 12 (mon + 1)) as [Hlast|Hnext].
  - rewrite increment_fits by lia.
    destruct (IH (year + 1) 0 (mday - len)) as (y' & m' & d' & -> & E & Hm' & Hr & Hd'); [lia..|].
    exists y', m', d'. split_and!; [done| |lia..|done]. rewrite E. unfold days_of. rewrite year_start_succ.
    replace (mon + 1) with 12 in Hms by lia. rewrite month_start_12 in Hms. change (month_start (isleap (year + 1)) 0) with 0. lia.
  - destruct (IH year (mon + 1) (mday - len)) as (y' & m' & d' & -> & E & Hm' & Hr & Hd'); [lia..|].
    exists y', m', d'. split_and!; [done| |lia..|done]. rewrite E. unfold days_of. lia.
Qed.

(** The loops and the overflow checks together. *)
Lemma normalize_spec tmp : modest tmp ->
  exists your, normalize tmp = Some (Some your) /\ tm_sec your = tm_sec tmp /\ tm_isdst your = tm_isdst tmp /\
    secs your = instant tmp /\ (0 <= tm_sec your < 60 -> valid your) /\
    forall sec, 0 <= sec < 60 -> valid (mk_tm sec (tm_min your) (tm_hour your) (tm_mday your) (tm_mon your) (tm_year your)
                    (tm_wday your) (tm_yday your) (tm_isdst your)).
Proof.
  intros [Hs Hmi Hh Hd Hmo Hy]. unfold normalize, MINSPERHOUR, HOURSPERDAY, MONSPERYEAR, TM_YEAR_BASE.
  rewrite (normalize_fits (tm_hour tmp)) by lia. set (h := tm_hour tmp + tm_min tmp / 60).
  assert (Z.abs h <= 2 ^ 29) as Hh' by (unfold h; Z.div_mod_to_equations; lia).
  rewrite (normalize_fits (tm_mday tmp)) by lia. set (md := tm_mday tmp + h / 24).
  assert (Z.abs md <= 2 ^ 28 + 2 ^ 25) as Hmd by (unfold md; Z.div_mod_to_equations; lia).
  rewrite (normalize_fits (tm_year tmp)) by lia. set (y := tm_year tmp + tm_mon tmp / 12).
  assert (Z.abs y <= 2 ^ 28 + 2 ^ 25) as Hy' by (unfold y; Z.div_mod_to_equations; lia).
  rewrite increment_fits by lia.
  assert (0 <= tm_mon tmp mod 12 < 12) as Hmon by (apply Z.mod_pos_bound; lia).
  destruct (mday_up_spec _ Hmon (S (Z.to_nat (- md))) (y + 1900) md) as (y1 & d1 & -> & E1 & H1 & Hd1 & Hy1); [lia..|]. cbn [mbind option_bind].
  destruct (mday_down_spec _ Hmon (Z.to_nat d1) y1 d1) as (y2 & d2 & -> & E2 & H2 & Hy2); [lia..|]. cbn [mbind option_bind].
  destruct (mday_month_spec (Z.to_nat d2) y2 _ d2 Hmon) as (y3 & m3 & d3 & -> & E3 & H3 & Hy3 & Hlen); [lia..|]. cbn [mbind option_bind].
  rewrite increment_fits by lia. eexists. split; [done|]. cbn [tm_sec tm_isdst].
  assert (forall sec, 0 <= sec < 60 -> valid (mk_tm sec (tm_min tmp mod 60) (h mod 24) d3 m3 (y3 + - (1900)) (tm_wday tmp) (tm_yday tmp) (tm_isdst tmp))) as Hv.
  { intros sec Hsec. split; cbn; [done|Z.div_mod_to_equations; lia..|done|].
    unfold TM_YEAR_BASE. by replace (y3 + - (1900) + 1900) with y3 by lia. }
  split_and!; [done|done| |apply Hv|apply Hv].
  unfold secs, instant. cbn [tm_sec tm_min tm_hour tm_mday tm_mon tm_year]. unfold TM_YEAR_BASE, MONSPERYEAR.
  replace (y3 + - (1900) + 1900) with y3 by lia. rewrite E3, E2, E1. fold y. unfold days_of, md, h, SECSPERDAY, SECSPERHOUR, SECSPERMIN.
  Z.div_mod_to_equations. lia.
Qed.

Lemma localtime_eq lcl t : localtime lcl t = localsub lcl t 0.
Proof. reflexivity. Qed.

(** The second at which the search looks. *)
Definition base_sec (r : tm) : Z := if tm_year r + TM_YEAR_BASE <? EPOCH_YEAR then SECSPERMIN - 1 else 0.

Lemma time2_run offset tmp your t : near offset -> normalize tmp = Some (Some your) ->
  (forall sec, 0 <= sec < 60 -> valid (mk_tm sec (tm_min your) (tm_hour your) (tm_mday your) (tm_mon your) (tm_year your)
                    (tm_wday your) (tm_yday your) (tm_isdst your))) ->
  Z.abs (tm_sec your) <= 2 ^ 28 -> tm_isdst your = tm_isdst tmp ->
  secs your = t + offset -> is_s32 t -> is_s32 (t - tm_sec your + base_sec your) ->
  exists r, localtime (fixed offset) t = Some r /\
    time2 (fun t => localsub (fixed offset) t 0) (ttis (fixed offset)) tmp =
      Some (if 0 <? tm_isdst tmp then (false, WRONG, tmp) else (true, t, r)).
Proof.
  intros Ho En Hv Hsec Hdst Es Ht Hb.
  unfold time2. rewrite En. cbn [mbind option_bind].
  set (s := base_sec your). set (your' := mk_tm s (tm_min your) (tm_hour your) (tm_mday your) (tm_mon your) (tm_year your)
    (tm_wday your) (tm_yday your) (tm_isdst your)).
  assert ((if tm_year your + TM_YEAR_BASE <? EPOCH_YEAR
           then let '(bad, saved) := increment_overflow (tm_sec your) (1 - SECSPERMIN) in (bad, saved, SECSPERMIN - 1)
           else (false, tm_sec your, 0)) = (false, tm_sec your - s, s)) as ->.
  { unfold s, base_sec. destruct (_ <? _); unfold SECSPERMIN in *; [|by rewrite Z.sub_0_r]. rewrite increment_fits by lia.
    do 2 f_equal; lia. }
  assert (0 <= s < 60) as Hs by (unfold s, base_sec; destruct (_ <? _); unfold SECSPERMIN; lia).
  cbn beta iota. fold your'.
  assert (secs your' = t - tm_sec your + s + offset) as Es' by (revert Es; unfold secs, your'; cbn; lia).
  pose proof (search_spec offset your' (t - tm_sec your + s) Ho (Hv s Hs) Es' Hb 31 0 ltac:(lia)) as Hsearch.
  unfold is_s32 in *. change (Z.of_nat 31) with 31 in Hsearch. rewrite Hsearch by lia. cbn [mbind option_bind].
  destruct (localsub_fixed t offset Ht Ho) as (r & E & _). exists r. rewrite localtime_eq. split; [done|].
  unfold dst_found. cbn [tm_isdst your']. rewrite Hdst. destruct (0 <? tm_isdst tmp); [done|].
  replace (t - tm_sec your + s + (tm_sec your - s)) with t by lia. rewrite s32_shift by lia.
  replace (Bool.eqb (t <? t - tm_sec your + s) (tm_sec your - s <? 0)) with true
    by (destruct (Z.ltb_spec t (t - tm_sec your + s)), (Z.ltb_spec (tm_sec your - s) 0); cbn; lia).
  by rewrite E.
Qed.

Lemma mktime_std offset tmp t r : tm_isdst tmp <= 0 ->
  time2 (fun t => localsub (fixed offset) t 0) (ttis (fixed offset)) tmp = Some (if 0 <? tm_isdst tmp then (false, WRONG, tmp) else (true, t, r)) ->
  mktime (fixed offset) tmp = Some (t, r).
Proof.
  intros Hd E. unfold mktime, time1. rewrite (proj2 (Z.ltb_ge 1 (tm_isdst tmp))) by lia. rewrite E.
  by rewrite (proj2 (Z.ltb_ge 0 (tm_isdst tmp))) by lia.
Qed.

(** *tmp after [if (tmp->tm_isdst > 1) tmp->tm_isdst = 1]. *)
Definition dst_one (tmp : tm) : tm :=
  if 1 <? tm_isdst tmp then
    mk_tm (tm_sec tmp) (tm_min tmp) (tm_hour tmp) (tm_mday tmp) (tm_mon tmp) (tm_year tmp) (tm_wday tmp) (tm_yday tmp) 1
  else tmp.

Lemma dst_one_dst tmp : 0 < tm_isdst tmp -> tm_isdst (dst_one tmp) = 1.
Proof. unfold dst_one. destruct (Z.ltb_spec 1 (tm_isdst tmp)); cbn; lia. Qed.

Lemma dst_one_same tmp : (modest tmp -> modest (dst_one tmp)) /\ instant (dst_one tmp) = instant tmp /\ tm_sec (dst_one tmp) = tm_sec tmp.
Proof. unfold dst_one. destruct (1 <? tm_isdst tmp); split_and!; try done. intros []. by split. Qed.

Lemma mktime_dst offset tmp : 0 < tm_isdst tmp ->
  time2 (fun t => localsub (fixed offset) t 0) (ttis (fixed offset)) (dst_one tmp) = Some (false, WRONG, dst_one tmp) ->
  mktime (fixed offset) tmp = Some (WRONG, dst_one tmp).
Proof.
  intros Hd E. unfold mktime, time1. fold (dst_one tmp). rewrite E. cbn [mbind option_bind orb].
  rewrite (dst_one_dst tmp Hd). cbn [Z.ltb Z.compare]. cbn [fixed ttis].
  change (type_pairs [mk_ttinfo offset 0]) with [(mk_ttinfo offset 0, mk_ttinfo offset 0)]. cbn [other_types tt_isdst].
  by rewrite (dst_one_dst tmp Hd).
Qed.

(** ** Theorems *)

(** C27. Without leap seconds timesub gives, for every time_t, the one date and time
    of day whose distance from the epoch in seconds is the time with the offset, in
    the proleptic calendar; the day of the week and of the year are those of that
    date; the year is found in at most six turns. *)
Theorem timesub_civil t offset :
  is_s32 t -> near offset ->
  exists r, timesub t offset [] = Some r /\ valid r /\ secs r = t + offset /\ tm_isdst r = 0 /\
    tm_wday r = (4 + (t + offset) / 86400) mod 7 /\
    tm_yday r = month_start (isleap (tm_year r + TM_YEAR_BASE)) (tm_mon r) + tm_mday r - 1.
Proof. apply timesub_run. Qed.

Lemma timesub_civil_witness : exists r, timesub 951782400 3600 [] = Some r /\ tm_year r = 100 /\ tm_mon r = 1 /\ tm_mday r = 29 /\ tm_wday r = 2.
Proof.
  destruct (timesub_civil 951782400 3600) as (r & E & _); [by vm_compute|by vm_compute|].
  exists r. split; [done|]. vm_compute in E. by injection E as <-.
Defined.

(** C26. mktime in a zone with one type of time and no leap seconds, for fields of at
    most 2 ^ 28 in absolute value that add up to a time_t.  With tm_isdst <= 0 it
    accepts fields outside their ranges and gives the time they add up to: the loops
    end and the binary search finds, in at most 32 turns, the time_t whose local time
    those fields are; *tmp becomes the local time itself, every field in its range.
    With tm_isdst > 0 the time is found, but no type of the zone is daylight saving
    time: the result is -1, where ctime(3) says that a positive value is only what is
    presumed initially. *)
Theorem mktime_exact offset tmp :
  near offset -> modest tmp ->
  is_s32 (instant tmp - offset) -> is_s32 (instant tmp - offset - tm_sec tmp) -> is_s32 (instant tmp - offset - tm_sec tmp + 59) ->
  if 0 <? tm_isdst tmp then mktime (fixed offset) tmp = Some (WRONG, dst_one tmp)
  else exists r, mktime (fixed offset) tmp = Some (instant tmp - offset, r) /\ valid r /\ secs r = instant tmp /\ tm_isdst r = 0.
Proof.
  intros Ho Hm0 Ht H0 H59. destruct (dst_one_same tmp) as (Hm & Ei & Esec). specialize (Hm Hm0). rewrite <- Ei, <- Esec in *.
  destruct (normalize_spec _ Hm) as (your & En & Es & Ed & Esecs & _ & Hv).
  destruct (time2_run offset _ your (instant (dst_one tmp) - offset) Ho En Hv) as (r & El & E2); try assumption.
  - rewrite Es. by apply m_sec.
  - by rewrite Esecs, Z.sub_add.
  - rewrite Es. unfold base_sec. destruct (_ <? _); [change (SECSPERMIN - 1) with 59|rewrite Z.add_0_r]; assumption.
  - destruct (Z.ltb_spec 0 (tm_isdst tmp)) as [Hpos|Hneg].
    + apply mktime_dst; [done|]. by rewrite (dst_one_dst tmp Hpos) in E2.
    + assert (dst_one tmp = tmp) as Eone by (unfold dst_one; by rewrite (proj2 (Z.ltb_ge 1 (tm_isdst tmp))) by lia).
      rewrite Eone in *. rewrite (mktime_std _ _ _ _ Hneg E2).
      destruct (localsub_fixed (instant tmp - offset) offset Ht Ho) as (r' & El' & Hv' & Hs' & Hd').
      rewrite localtime_eq, El' in El. injection El as <-. exists r'. rewrite Z.sub_add in Hs'. split; [reflexivity|]. by split.
Qed.

(** The 31st of a month with 28 days, minute 1500. *)
Lemma mktime_exact_witness :
  (exists r, mktime (fixed 3600) (mk_tm 5 1500 0 31 1 103 0 0 0) = Some (1046736005, r) /\ tm_mon r = 2 /\ tm_mday r = 4) /\
  mktime (fixed 3600) (mk_tm 5 1500 0 31 1 103 0 0 1) = Some (-1, mk_tm 5 1500 0 31 1 103 0 0 1).
Proof.
  split; [|exact (mktime_exact 3600 (mk_tm 5 1500 0 31 1 103 0 0 1) ltac:(by vm_compute) ltac:(by split; vm_compute)
    ltac:(by vm_compute) ltac:(by vm_compute) ltac:(by vm_compute))].
  destruct (mktime_exact 3600 (mk_tm 5 1500 0 31 1 103 0 0 0)) as (r & E & _); [by vm_compute|by split; vm_compute|by vm_compute..|].
  exists r. vm_compute in E. injection E as <-. by vm_compute.
Defined.

(** C28. mktime is the inverse of localtime: in a zone with one type, every time_t is
    the result of mktime for its own local time, which mktime leaves as it is. *)
Theorem mktime_localtime offset t :
  near offset -> is_s32 t ->
  exists r, localtime (fixed offset) t = Some r /\ mktime (fixed offset) r = Some (t, r).
Proof.
  intros Ho Ht. destruct (localsub_fixed t offset Ht Ho) as (r & El & Hv & Hs & Hd). exists r. rewrite localtime_eq. split; [exact El|].
  pose proof (secs_range r Hv) as Hr. destruct (v_mday r Hv) as (len & Elen & Hl).
  destruct (mon_length_range (isleap (tm_year r + TM_YEAR_BASE)) (tm_mon r) (v_mon r Hv)) as (len' & Elen' & Hlen).
  rewrite Elen in Elen'. injection Elen' as <-.
  pose proof Hv as [Vs Vm Vh Vmo _]. unfold SECSPERDAY, is_s32, near in *.
  assert (Z.abs (tm_year r) <= 2 ^ 28) as Hy by (eapply year_near; [done|done|lia]).
  assert (instant r = secs r) as Ei.
  { unfold instant, secs, MONSPERYEAR. rewrite Z.div_small, Z.mod_small by lia. by rewrite Z.add_0_r. }
  assert (modest r) as Hm by (split; lia).
  destruct (normalize_spec r Hm) as (your & En & Es & Ed & Esecs & Hvy & Hv').
  assert (tm_year your + TM_YEAR_BASE < 1970 -> t + offset < 0) as Hold.
  { intros H. pose proof (secs_range your (Hvy ltac:(lia))) as Hy2. specialize (Hvy ltac:(lia)). destruct (v_mday your Hvy) as (l2 & E2 & Hl2).
    pose proof (day_in_year _ _ _ _ (v_mon your Hvy) E2 Hl2) as Hday. unfold SECSPERDAY, days_of in *.
    pose proof (year_start_le (tm_year your + TM_YEAR_BASE) 1970 H) as Hle. change (year_start 1970) with 0 in Hle. lia. }
  assert (1970 <= tm_year your + TM_YEAR_BASE -> 0 <= t + offset) as Hnew.
  { intros H. pose proof (secs_range your (Hvy ltac:(lia))) as Hy2. specialize (Hvy ltac:(lia)). destruct (v_mday your Hvy) as (l2 & E2 & Hl2).
    pose proof (day_in_year _ _ _ _ (v_mon your Hvy) E2 Hl2) as Hday. unfold SECSPERDAY, days_of in *.
    assert (0 <= year_start (tm_year your + TM_YEAR_BASE)).
    { destruct (Z.eq_dec (tm_year your + TM_YEAR_BASE) 1970) as [->|Hne]; [done|].
      pose proof (year_start_le 1970 (tm_year your + TM_YEAR_BASE) ltac:(lia)) as Hle. change (year_start 1970) with 0 in Hle.
      pose proof (year_length_range (isleap 1970)). lia. }
    lia. }
  destruct (time2_run offset r your t Ho En Hv') as (r' & El' & E); try done; try lia.
  - unfold is_s32, base_sec, EPOCH_YEAR, SECSPERMIN. rewrite Es.
    destruct (Z.ltb_spec (tm_year your + TM_YEAR_BASE) 1970) as [H|H]; [specialize (Hold H)|specialize (Hnew H)]; lia.
  - rewrite localtime_eq, El in El'. injection El' as <-. apply mktime_std; [lia|done].
Qed.

Lemma mktime_localtime_witness : exists r, localtime (fixed (-3600)) (-1) = Some r /\ tm_year r = 69 /\ mktime (fixed (-3600)) r = Some (-1, r).
Proof.
  destruct (mktime_localtime (-3600) (-1)) as (r & E & Em); [by vm_compute|by vm_compute|].
  exists r. split_and!; [done| |done]. vm_compute in E. by injection E as <-.
Defined.

(** leap reads the record in front of the first one when a zone's first correction is
    not positive and its second is asked for. *)
Example first_leap_negative : gmtime (mk_state [] [0] [mk_ttinfo 0 0] [mk_lsinfo 78796800 (-1)]) 78796800 = None.
Proof. reflexivity. Qed.
